(* ===== verification/_CoqProject ===== *)
-Q . S2P
Prelude.v
PyStr.v
PyVal.v
PyNum.v
FteTypes.v
FteState.v
FteFailures.v
SplitAssigner.v
ArbitraryAssigner.v
ArbitraryProofs.v
HashAssigner.v
Exchange.v
ExchangeProofs.v
OutputBuffers.v
Descriptor.v
DescriptorProofs.v
DescriptorStorage.v
StorageProofs.v
Partition.v
PartitionProofs.v
Execution.v
ExecutionCommands.v
ExecutionInv.v
ExecutionProofs.v
ExecutionTheorems.v
ExecutionOutcomes.v
Scheduler.v
SchedulerControl.v
SchedulerProofs.v
SchedulerTheorems.v
ControlTheorems.v
AdmissionLedger.v
SubmissionWindow.v
UdfAdmission.v
SlotPoolProofs.v
TaskAdmissionProofs.v
WorkerTask.v
WorkerManager.v
WorkerDemo.v
WorkerProofs.v
WorkerTheorems.v
WorkerStatus.v
WorkerWakeups.v
WorkerMirror.v
QueryGraph.v
GraphProofs.v
GraphTheorems.v
ResourceState.v
ResourceReach.v
ResourcePlacement.v
ResourceManager.v
ResourceBooks.v
ResourceSteps.v
ResourceInv.v
ResourceCalls.v
ResourceGrants.v
ResourceErrors.v
ResourceLimits.v
ResourceHistories.v
ResourceStart.v
ResourceCancel.v
ResourceSearch.v
ResourceTheorems.v
ClusterCoordinator.v
ClusterBooks.v
ClusterSteps.v
ClusterCalls.v
ClusterTheorems.v
WorkerPressure.v
FragmentPlacement.v
PlacementManager.v
PlacementBooks.v
PlacementMemory.v
PlacementFutures.v
PlacementLeases.v
ResourceAuthority.v
PlacementTheorems.v
ExchangeSelectors.v
SelectorTheorems.v
Findings.v
