(* ===== verification/Prelude.v ===== *)
(** * Vane: the fault-tolerant execution core, verified

    Vane runs SQL queries with Python functions on a cluster.  A query is cut
    into fragments; the fault-tolerant execution (FTE) layer under
    [duckdb/runners/fte] cuts each fragment into task partitions, feeds them
    input splits, starts attempts on workers, retries what fails and hands
    the output of exactly one attempt per partition to the consumers.  This
    library models that layer, and the admission of work to the cluster and
    to UDF executors, as executable definitions translated from the Python
    sources, and proves what makes it correct.

    *** The parts and how they interact

    A split assigner distributes source splits over partitions and emits
    assignment results; a fragment execution applies them to its partitions,
    whose task descriptors collect the splits, and records commands for the
    workers.  Attempts of a partition write into an exchange sink; the
    exchange selects the first finished attempt.  All of this is driven by
    events that a per-query scheduler drains one at a time; a registry pumps
    admission over the queries.  Partitions ask a resource stage for
    admission through a submission window, and UDF executors take slots or
    task leases through admission authorities.  On a worker, a task manager
    admits attempts within the worker's memory, feeds each of them the
    updates the driver sends and reports versioned statuses back.  What a
    query may use of the cluster is decided by its resource manager: it is
    created on the execution graph of the query, a validated acyclic graph of
    stages, and an allocation of node resources, and grants leases for tasks,
    actor calls and output blocks.  The allocations are published by the
    coordinator of the cluster, which shares the nodes between the queries.
    Before an attempt of a partition starts, the driver places the partition:
    it takes a task lease from the query's resource manager through the
    submission window, chooses a worker on a node that the manager allows and
    reserves memory on it; who waits for a placement holds a future, whose
    outcome becomes an event of the scheduler.  A fragment that reads an
    exchange learns through selector updates which attempt and which split of
    each partition was selected.

    *** Which file models what

    - [Prelude]: record update, the [result] and state-and-exception monads
      with their weakest preconditions ([wp]) and invariants ([preserves]),
      insertion-ordered dictionaries ([od_*]), Python's [sorted].
    - [PyStr], [PyVal], [PyNum]: Python strings, dynamic payload
      values, binary64 arithmetic computed exactly and rounded (with
      infinities, NaN and signed zeros), and numbers that are integers or
      floats with Python's mixed comparison, arithmetic and tuple order.
    - [FteTypes], [FteState], [FteFailures]: fte_types.py, fte_state.py,
      fte_config.py, fte_update_batch.py, fte_failures.py.
    - [SplitAssigner], [ArbitraryAssigner], [HashAssigner] (proofs in
      [ArbitraryProofs]): fte_split_assigner.py.
    - [Exchange] ([ExchangeProofs]): fte_exchange.py, with the spooling
      manager over an abstract directory of attempt files.
    - [OutputBuffers], [Descriptor] ([DescriptorProofs]),
      [DescriptorStorage] ([StorageProofs]): fte_descriptor.py.  Descriptors
      live in a heap because the execution, the partition and the storage
      share them.
    - [Partition] ([PartitionProofs]): FteTaskPartition of fte_execution.py
      and fte_attempts.py.
    - [Execution] ([ExecutionCommands], [ExecutionInv], [ExecutionProofs],
      [ExecutionTheorems], [ExecutionOutcomes]): FteFragmentExecution of
      fte_execution.py, every public method with the order of its effects.
      Worker selection, worker calls and the clock are fields of an
      environment; [StableEnv] states what is asked of them.
    - [Scheduler] ([SchedulerProofs], [SchedulerTheorems]): fte_events.py and
      FteQueryScheduler, FteEventDrivenTaskSource of fte_scheduler.py; the
      handlers are programs on the scheduler's state, [GoodHandlers] states
      their contract.
    - [SchedulerControl] ([ControlTheorems]): the command executor, status
      watcher and registry of fte_scheduler.py.
    - [AdmissionLedger], [SubmissionWindow]: ray/admission_ledger.py,
      ray/fragment_submission_window.py.
    - [UdfAdmission] ([SlotPoolProofs], [TaskAdmissionProofs]):
      execution/udf_admission.py and execution/udf_task_admission.py.
    - [WorkerTask], [WorkerManager]: FteTaskExecution and
      FteWorkerTaskManager of fte_worker_runtime.py.  The coroutine of a run
      is a state machine over its suspension points; [WorkerManager.event]
      lists the calls of the driver and the steps of the event loop, and
      [history] runs any sequence of them over a heap of attempts, in which a
      dropped attempt lives on with its coroutine.  [WorkerEnv] is what the
      worker asks of native code.  [WorkerDemo] is a concrete worker for the
      witnesses; [WorkerProofs], [WorkerTheorems] are about capacity,
      [WorkerStatus], [WorkerWakeups] and [WorkerMirror] about statuses,
      wake-ups and the agreement with [Descriptor].
    - [QueryGraph] ([GraphProofs], [GraphTheorems]):
      ray/query_execution_graph.py: resource vectors, allocations, stages,
      the graph's validation, its topological order over a heap, the stages
      that need a slot of their own, and the check of an allocation.
    - [ResourceState], [ResourcePlacement], [ResourceManager]:
      ray/query_resource_manager.py.  [ResourceState] has the leases, credits
      and indexes of the manager ([Manager]), what its constructor derives
      from the graph once ([Plan]) and the accounting functions
      ([query_usage], [node_usage], [stage_usage]); [ResourcePlacement] the
      admission verdict of a task ([task_block_reason]) with the placement
      search, continuation credits, downstream reservations and soft shares;
      [ResourceManager] every call that changes the state, the data type
      [call] of them and [run], which makes a sequence of them, and
      OutputBlockLeaseOwner.  Names drawn from uuid4 are a parameter [uuid],
      the n-th draw being [uuid n].
    - About the manager: [ResourceReach] (what the constructor derives from
      the graph), [ResourceBooks] (the sums that usage stands for),
      [ResourceSteps], [ResourceInv], [ResourceCalls] (the invariant of the
      indexes and its preservation), [ResourceGrants], [ResourceLimits] (what
      a grant adds), [ResourceErrors] (which errors can be raised),
      [ResourceHistories], [ResourceStart] (from creation on),
      [ResourceCancel], [ResourceSearch] (the memoised search for room, and
      the order of the queue), the claims
      in [ResourceTheorems].
    - [ClusterCoordinator]: ray/cluster_resource_coordinator.py and
      ray/worker_memory.py: nodes, demands, the queries' states
      ([Coordinator]), the placement of bundles and of divisible shares,
      weighted dominant-resource fairness by bisection, [rebalance] with its
      local variables in a [Draft], every call, [call] and [run].
      [ClusterBooks] is the account of bytes of a rebalance, [ClusterSteps]
      what a rebalance does to each query, [ClusterCalls] that every call
      keeps the invariants [orderly] and [allotted]; the claims are in
      [ClusterTheorems], where managers run on the published allocations.
    - [WorkerPressure]: _FteWorkerPressure of ray/fragment_registry.py with
      fragment_worker_pressure.py and fragment_worker_pressure_accounting.py:
      what is booked on a worker.
    - [FragmentPlacement], [PlacementManager]: the placement part of
      ray/fte_fragment_scheduler.py with fragment_worker_selection.py,
      fragment_worker_reservations.py, fragment_worker_waiters.py,
      fragment_worker_placement.py and the completion handler of
      fragment_worker_events.py.  [Driver] holds the tables of the registry;
      handles and futures live in heaps.  The resource manager is reached
      through the class [Authority]; [AuthorityLaws] (in [PlacementLeases])
      states what placement relies on, and [ResourceAuthority] proves that
      [ResourceManager] provides it.
    - About placement: [PlacementBooks] (sums of memory, and which operations
      leave which tables alone), [PlacementMemory], [PlacementFutures],
      [PlacementLeases] (an invariant each), and the claims in
      [PlacementTheorems].
    - [ExchangeSelectors] ([SelectorTheorems]): the exchange selectors of
      ray/fte_fragment_scheduler.py, fragment_registry.py and
      fragment_worker_exchange.py: how updates that name the selected attempt
      and split of each partition are normalised, merged and applied to the
      state of the consumer's fragment ([FragmentState]), and which splits
      they hand to its assigner; the loop of fragment_worker_submission.py
      over exchange splits.  SHA-256 is a parameter of which nothing is
      assumed.
    - [Findings]: corner cases of the manager, the coordinator, placement and
      the selectors.

    *** What the theorems show

    - Execution: over any sequence of calls, with any answers of worker
      selection and of the workers that leave the execution's own books
      alone ([StableEnv]), a partition runs one attempt at a time and at
      most max_attempts of them; outcomes
      are final; the exchange exposes exactly the attempt with which the
      partition finished; the verdict of a failure, the delivery of new
      splits to a running attempt and the contents of a create request are
      given exactly.
    - Exchange: first finish wins, finality, finalisation, and that cleaning
      up keeps what readers use.
    - Assigners: every split is delivered exactly once in order, partitions
      are numbered and sealed; the hash assigner announces its partitions in
      its first call and sends each update of a closed-form plan, of
      replicated sources too.
    - Descriptors: updates only append, are deduplicated and versioned; the
      spilling storage refines a finite map; output buffers merge forward.
    - Scheduler: pulses are queued once, back-pressure follows the
      watermarks, a stopped scheduler stays stopped, draining terminates and
      keeps the order; the pump is fair and loses no wake-up; the watcher
      reports only validated statuses; splits wait for queue space.
    - Admission: slots are exclusive and conserved, waiters are served in
      order, leases neither leak nor are cancelled once taken, a stage has
      one probe and a denial lasts one epoch, ledgers are sliding windows.
    - Identities: parsing inverts printing, coercion yields well-formed ids,
      statuses are accepted only for the expected attempt.
    - Worker: over any history its accounts stay within budget and limit and
      every reservation has an owner that will free it; the queue is served
      in order, and after a history without raising calls its head waits only
      for capacity that is taken (tasks behind it may fit and still wait); a
      status is versioned and final once terminal; while no call raises and
      nothing shuts down off the loop, no wake-up of a waiting task or driver
      is lost; an attempt
      mirrors the driver's descriptor under the same updates, and deliveries
      are idempotent.  [stale_callback_overcommits] and
      [raising_update_loses_wakeup] show where the code falls short.
    - Graph: the constructor accepts exactly the well-formed acyclic graphs;
      the topological order is the one least order; the stages that need a
      separate slot are those reached across a stage that is no worker; a
      validated allocation holds the actors and one task of each stage.
    - Resource manager: what it derives from the graph at its creation is
      the topological order, the stages and UDFs that paths lead to, and the
      worker stages behind which a UDF of Ray tasks continues
      ([plan_exact]); from then on, after any sequence
      of calls that [limited_run] admits, what the query holds in bytes is
      within its allocation, in total and on every node
      ([usage_within_allocation]); a query whose allocation was cut below its
      usage can only shrink under such calls ([calls_respect_limits]); the
      computed usage equals a sum in which everything counts once; actor
      slots are neither lost nor shared; no error about an inconsistent index
      can be raised; cancellation is final; the memoised search for room
      downstream is exact; the queue serves downstream work first.
    - Cluster: the published allocations never give more bytes on a node than
      it has ([no_node_oversubscribed]), and with the resource manager's
      theorems neither do all the leases of all the queries
      ([cluster_within_capacity]); a running query has its minimum; placed
      actors stay exactly where they are or are lost with no placement left,
      a query that lost them is never placed again, and a published
      allocation shows the placements that are kept ([actors_never_move]); a
      registration that raises leaves no trace.
    - Placement: over every history, with workers that fail and calls that
      raise, the memory booked on a worker stays within its capacity
      ([workers_within_memory]); on the resource managers as they are
      created, whatever their other clients call in between and however often
      registries are dropped and opened again, no task lease of placement is
      lost ([no_task_lease_lost]); the outcome of a
      reservation is final and reported at most once; a reservation names a
      healthy worker on an allowed node with the memory reserved; the search
      for a worker ends.  [full_node_hides_others] and
      [reservation_left_behind] show where the code falls short.
    - Selectors: what is selected stays selected and a final selector is
      complete ([selection_is_stable]); no split is handed over twice, and
      every selected one is ([selected_splits_delivered_once]), unless it was
      announced by its key alone ([announced_split_never_delivered]).

    *** Conventions and bounds

    A Python exception is a value of [exn] in a [result]; a method is a state
    transformer, and what a lock protects is one atomic step, so that
    theorems over sequences of calls cover every interleaving of callers.
    Integers are unbounded as in Python.  Loops are structural over the data
    they walk; [Sched.drain_loop] and [SchedulerRegistry.pump_loop] take
    fuel, and [drain_terminates] and [pump_terminates] show which fuel is
    enough; the worker's [drain_loop] takes a key off the queue at each step
    and has the queue's length as fuel.  [Graph.order_loop] has the number of
    stages as fuel, one for each pop, and [topological_order_exact] shows
    that it lists all of them; [NewManager.reach] has [reach_fuel], the
    number of stages and edges it can push, and [plan_exact] shows that this
    is enough.  [PlacementManager.find_owner] has two rounds more than there
    are registered workers, and [owner_search_ends] shows that more make no
    difference.  Messages of exceptions are
    shortened to labels where they only quote values (the worker's are
    complete).

    The theorems on the resource manager assume of uuid4 that names are
    distinct and not empty, and of the graph and the allocation what their
    constructors check ([created]).  They speak of bytes, which are integers;
    CPU and GPU shares are floats, computed exactly as in the code, and are
    compared by it up to 1e-9.  [limited_run], which [usage_within_allocation],
    [calls_respect_limits] and [cluster_within_capacity] ask for, excludes
    new allocations, and finish_task_with_outputs for a task that leased
    output blocks before or borrows a credit: what such a task finishes with
    is not checked against its charge by the code, and
    [finish_beyond_allocation] shows what follows.
    The theorems on the coordinator assume of the nodes and demands what their
    constructors check ([proper_run]; a demand that replaces another one must
    keep its actors, or [refreshed_actor_not_placed] happens) and, where they
    speak of published allocations, that every call returned or changed
    nothing ([calm_run]): a registration always does, and
    [partial_fit_breaks_update] shows another call that does not.
    [workers_within_memory] and [acquired_partition_placed] assume that an
    attempt is started with no more memory than is reserved for its partition
    on that worker ([within_reservation]).  Histories of placement are of two
    kinds.  [no_task_lease_lost] runs over events: calls of placement, any
    call of another client on a manager (the driver grants UDF task leases on
    the same ones), and the drop and the opening of a query's registry.  The
    other three run over calls of placement, in which a manager may be
    replaced by any other at any time, so that nothing is assumed of its
    other clients; they do not drop a registry.
    A request of the task admission controller is two steps, as the lock is
    released for the call to the driver, and a close may come in between;
    the calls that cancel a lease are taken to reach the driver.  Writing a
    spilled descriptor is taken to succeed.

    *** Not modelled

    The database engine itself (external/duckdb, C++); the Ray driver, its
    actors and object references; of the Ray fragment scheduling what is not
    placement (registration of fragments, calls of the actors, wake-ups of
    the pending drain, metrics); the construction of execution graphs from
    plans, their dictionary forms and digest;
    the change callback of the resource manager; subprocess and Ray UDF
    executors (pipes,
    processes); threads and timers, which appear only as the calls they
    make; the Spark and Python API layers, vLLM, benchmarks and examples,
    which are bindings and glue.  Of the files that are modelled, debug
    logging and monitoring snapshots are left out. *)

From Stdlib Require Export ZArith Lia String Ascii Bool.
From stdpp Require Export base tactics list gmap strings sets.
From Stdlib Require Import Sorted Permutation.

#[global] Open Scope Z_scope.
#[global] Open Scope list_scope.

(** ** Record update *)

(** [Eta R] is the record [R] rebuilt from its projections. *)
Class Eta (R : Type) := eta_rebuild : R -> R.

(** [Setter f] is the functional update of the record field [f].  Instances
    are derived on demand by [derive_setter] from the [Eta] instance of the
    record, so that projections of an updated record compute. *)
Class Setter {R T : Type} (f : R -> T) := set_field : (T -> T) -> R -> R.
Arguments set_field {R T} f {_} _ _.

Ltac derive_setter :=
  lazymatch goal with
  | |- @Setter ?R ?T ?f =>
      let e := constr:(_ : Eta R) in
      let e := eval hnf in e in
      let body := constr:(fun (g : T -> T) (r : R) =>
        ltac:(let t := eval cbv beta in (e r) in
              let b := eval pattern (f r) in t in
              lazymatch b with
              | ?F _ => let u := eval cbv beta in (F (g (f r))) in exact u
              end) : R) in
      exact body
  end.

#[export] Hint Extern 0 (Setter _) => derive_setter : typeclass_instances.

Declare Scope vane_scope.
Delimit Scope vane_scope with vane.
#[global] Open Scope vane_scope.

Notation "r <| f := v |>" := (set_field f (fun _ => v) r)
  (at level 12, f at next level, left associativity, only parsing) : vane_scope.
Notation "r <| f ::= g |>" := (set_field f g r)
  (at level 12, f at next level, left associativity, only parsing) : vane_scope.

(** ** Exceptions and results *)

(** The exception classes the modelled code raises.  The message is kept
    only as a label that tells the raising sites of one function apart. *)
Inductive exn : Type :=
| ValueError (msg : string)
| RuntimeError (msg : string)
| KeyError (msg : string)
| TypeError (msg : string)
| IndexError (msg : string)
| AttributeError (msg : string)
| OverflowError (msg : string)
| ZeroDivisionError (msg : string)
| NotImplementedError
| WorkerReservationUnavailable
| WorkerControlFailure (worker_id method_name : string).

Inductive result (A : Type) : Type :=
| Ok (a : A)
| Raise (e : exn).
Arguments Ok {A} a.
Arguments Raise {A} e.

Definition rbind {A B} (m : result A) (k : A -> result B) : result B :=
  match m with Ok a => k a | Raise e => Raise e end.

Definition is_ok {A} (m : result A) : bool :=
  match m with Ok _ => true | Raise _ => false end.

Notation "'let*' x := m 'in' k" := (rbind m (fun x => k))
  (at level 10, x pattern, m at level 200, k at level 200) : vane_scope.

(** [raise_if b e]: the guard [if b: raise e]. *)
Definition raise_if (b : bool) (e : exn) : result unit :=
  if b then Raise e else Ok tt.

Fixpoint rmapM {A B} (f : A -> result B) (l : list A) : result (list B) :=
  match l with
  | [] => Ok []
  | x :: l => let* y := f x in let* ys := rmapM f l in Ok (y :: ys)
  end.

Fixpoint rfoldM {A B} (f : B -> A -> result B) (b : B) (l : list A) : result B :=
  match l with
  | [] => Ok b
  | x :: l => let* b := f b x in rfoldM f b l
  end.

(** ** Stateful code that may raise

    [ST S A] runs against an object state [S].  As in the source, a raised
    exception leaves the state as it was at the raising point: it is not
    rolled back. *)
Definition ST (S A : Type) : Type := S -> result A * S.

Section StateMonad.
Context {S : Type}.

Definition sret {A} (a : A) : ST S A := fun s => (Ok a, s).
Definition sraise {A} (e : exn) : ST S A := fun s => (Raise e, s).
Definition sbind {A B} (m : ST S A) (k : A -> ST S B) : ST S B :=
  fun s => match m s with
           | (Ok a, s) => k a s
           | (Raise e, s) => (Raise e, s)
           end.
Definition slift {A} (m : result A) : ST S A := fun s => (m, s).
Definition sget : ST S S := fun s => (Ok s, s).
Definition sgets {A} (f : S -> A) : ST S A := fun s => (Ok (f s), s).
Definition smodify (f : S -> S) : ST S unit := fun s => (Ok tt, f s).
Definition sraise_if (b : bool) (e : exn) : ST S unit := slift (raise_if b e).

(** [for x in l: body x] *)
Fixpoint sfor {A} (l : list A) (body : A -> ST S unit) : ST S unit :=
  match l with
  | [] => sret tt
  | x :: l => sbind (body x) (fun _ => sfor l body)
  end.

(** A [for] loop with an accumulator. *)
Fixpoint sfold {A B} (l : list A) (body : B -> A -> ST S B) (b : B) : ST S B :=
  match l with
  | [] => sret b
  | x :: l => sbind (body b x) (sfold l body)
  end.

(** [try: m finally: f] for an [f] that does not raise. *)
Definition sfinally {A} (m : ST S A) (f : S -> S) : ST S A :=
  fun s => let '(r, s) := m s in (r, f s).

(** [try: m finally: f] for an [f] that may raise: its exception wins. *)
Definition stry_finally {A} (m : ST S A) (f : ST S unit) : ST S A :=
  fun s => let '(r, s) := m s in
           match f s with
           | (Ok _, s) => (r, s)
           | (Raise e, s) => (Raise e, s)
           end.

(** [try: m except exc: h exc] for the exceptions selected by [p]. *)
Definition scatch {A} (m : ST S A) (p : exn -> bool) (h : exn -> ST S A) : ST S A :=
  fun s => match m s with
           | (Raise e, s) => if p e then h e s else (Raise e, s)
           | r => r
           end.
End StateMonad.

(** Run an operation of a component held in a field of the state. *)
Definition szoom {S T A} (get : S -> T) (put : T -> S -> S) (m : ST T A) : ST S A :=
  fun s => let '(r, t) := m (get s) in (r, put t s).

Notation "'let!' x := m 'in' k" := (sbind m (fun x => k))
  (at level 10, x pattern, m at level 200, k at level 200) : vane_scope.

Lemma sbind_ok {S A B} (m : ST S A) (k : A -> ST S B) s b s' :
  sbind m k s = (Ok b, s') ->
  exists a s1, m s = (Ok a, s1) /\ k a s1 = (Ok b, s').
Proof.
  unfold sbind. destruct (m s) as [[a|e] s1] eqn:E; intros H; [eauto|discriminate].
Qed.

Lemma rbind_ok {A B} (m : result A) (k : A -> result B) b :
  rbind m k = Ok b -> exists a, m = Ok a /\ k a = Ok b.
Proof. destruct m; simpl; [eauto|discriminate]. Qed.

(** The invariant of a loop that may raise. *)
Lemma rfoldM_inv {A B} (P : B -> Prop) (f : B -> A -> result B) l b b' :
  rfoldM f b l = Ok b' -> P b -> (forall b a b', a ∈ l -> P b -> f b a = Ok b' -> P b') -> P b'.
Proof.
  revert b. induction l as [|a l IH]; intros b H Hb Hstep; cbn in H; [by injection H as <-|].
  apply rbind_ok in H as (b1 & H1 & H). apply (IH b1 H); [eapply Hstep; [left|done|done]|]. intros. eapply Hstep; [by right|done|done].
Qed.

Lemma rmapM_map {A B} (f : A -> result B) (g : A -> B) l :
  (forall x, x ∈ l -> f x = Ok (g x)) -> rmapM f l = Ok (map g l).
Proof.
  induction l as [|x l IH]; simpl; intros H; [done|].
  rewrite (H x) by left. simpl. rewrite IH; [done|]. intros y Hy. apply H. by right.
Qed.

Lemma raise_if_ok b e u : raise_if b e = Ok u <-> b = false.
Proof. destruct b, u; simpl; split; congruence. Qed.

(** Invariant rule for [ST]: the state invariant survives every outcome,
    a raised exception included. *)
Definition preserves {S A} (I : S -> Prop) (m : ST S A) : Prop :=
  forall s, I s -> I (snd (m s)).

Section Preserves.
Context {S : Type} (I : S -> Prop).

Lemma preserves_ret {A} (a : A) : preserves I (sret a).
Proof. intros s Hs; exact Hs. Qed.
Lemma preserves_raise {A} e : preserves I (@sraise S A e).
Proof. intros s Hs; exact Hs. Qed.
Lemma preserves_lift {A} (m : result A) : preserves I (slift m).
Proof. intros s Hs; exact Hs. Qed.
Lemma preserves_gets {A} (f : S -> A) : preserves I (sgets f).
Proof. intros s Hs; exact Hs. Qed.
Lemma preserves_get : preserves I sget.
Proof. intros s Hs; exact Hs. Qed.
Lemma preserves_raise_if b e : preserves I (sraise_if b e).
Proof. intros s Hs; exact Hs. Qed.
Lemma preserves_modify f : (forall s, I s -> I (f s)) -> preserves I (smodify f).
Proof. intros H s Hs. exact (H s Hs). Qed.
Lemma preserves_bind {A B} (m : ST S A) (k : A -> ST S B) :
  preserves I m -> (forall a, preserves I (k a)) -> preserves I (sbind m k).
Proof.
  intros Hm Hk s Hs. unfold sbind. specialize (Hm s Hs).
  destruct (m s) as [[a|e] s1]; [exact (Hk a s1 Hm)|exact Hm].
Qed.
Lemma preserves_for {A} (l : list A) body :
  (forall x, preserves I (body x)) -> preserves I (sfor l body).
Proof.
  intros Hb. induction l as [|x l IH]; simpl; [apply preserves_ret|].
  by apply preserves_bind.
Qed.
Lemma preserves_fold {A B} (l : list A) (body : B -> A -> ST S B) b :
  (forall b x, preserves I (body b x)) -> preserves I (sfold l body b).
Proof.
  intros Hb. revert b. induction l as [|x l IH]; intros b; simpl; [apply preserves_ret|].
  by apply preserves_bind.
Qed.
Lemma preserves_finally {A} (m : ST S A) f :
  preserves I m -> (forall s, I s -> I (f s)) -> preserves I (sfinally m f).
Proof.
  intros Hm Hf s Hs. unfold sfinally. specialize (Hm s Hs).
  destruct (m s) as [r s1]. by apply Hf.
Qed.
Lemma preserves_catch {A} (m : ST S A) p h :
  preserves I m -> (forall e, preserves I (h e)) -> preserves I (scatch m p h).
Proof.
  intros Hm Hh s Hs. unfold scatch. specialize (Hm s Hs).
  destruct (m s) as [[a|e] s1]; [exact Hm|].
  destruct (p e); [exact (Hh e s1 Hm)|exact Hm].
Qed.
End Preserves.

Create HintDb vane.
#[export] Hint Resolve preserves_ret preserves_raise preserves_lift preserves_gets
  preserves_get preserves_raise_if preserves_modify preserves_bind preserves_for
  preserves_fold preserves_finally preserves_catch : vane.

(** ** Ordered dictionaries

    A Python [dict] as the list of its items in insertion order.  Assigning
    to a present key keeps its position; a new key goes to the end. *)
Section ODict.
Context {K V : Type} `{EqDecision K}.

Fixpoint od_get (k : K) (d : list (K * V)) : option V :=
  match d with
  | [] => None
  | (k', v) :: d => if decide (k = k') then Some v else od_get k d
  end.

Fixpoint od_set (k : K) (v : V) (d : list (K * V)) : list (K * V) :=
  match d with
  | [] => [(k, v)]
  | (k', v') :: d => if decide (k = k') then (k', v) :: d else (k', v') :: od_set k v d
  end.

Fixpoint od_pop (k : K) (d : list (K * V)) : list (K * V) :=
  match d with
  | [] => []
  | (k', v') :: d => if decide (k = k') then d else (k', v') :: od_pop k d
  end.

Definition od_mem (k : K) (d : list (K * V)) : bool :=
  match od_get k d with Some _ => true | None => false end.

Definition od_get_default (k : K) (v : V) (d : list (K * V)) : V :=
  default v (od_get k d).

(** [dict.setdefault] *)
Definition od_setdefault (k : K) (v : V) (d : list (K * V)) : list (K * V) :=
  match od_get k d with Some _ => d | None => d ++ [(k, v)] end.

(** [dict.update] *)
Definition od_update (d upd : list (K * V)) : list (K * V) :=
  fold_left (fun d kv => od_set kv.1 kv.2 d) upd d.

Definition od_keys (d : list (K * V)) : list K := map fst d.
Definition od_values (d : list (K * V)) : list V := map snd d.

Definition od_wf (d : list (K * V)) : Prop := NoDup (od_keys d).

Lemma od_get_set_eq k v d : od_get k (od_set k v d) = Some v.
Proof.
  induction d as [|[k' v'] d IH]; simpl; [by rewrite decide_True|].
  destruct (decide (k = k')) as [->|Hne]; simpl.
  - by rewrite decide_True.
  - by rewrite decide_False.
Qed.

Lemma od_get_set_ne k k' v d : k <> k' -> od_get k' (od_set k v d) = od_get k' d.
Proof.
  intros Hne. induction d as [|[k1 v1] d IH]; simpl; [by rewrite decide_False|].
  destruct (decide (k = k1)) as [->|]; simpl.
  - by rewrite !decide_False.
  - by destruct (decide (k' = k1)).
Qed.

Lemma od_get_set k k' v d :
  od_get k' (od_set k v d) = if decide (k = k') then Some v else od_get k' d.
Proof.
  destruct (decide (k = k')) as [->|]; [apply od_get_set_eq|by apply od_get_set_ne].
Qed.

Lemma od_keys_set k v d :
  od_keys (od_set k v d) = if decide (k ∈ od_keys d) then od_keys d else od_keys d ++ [k].
Proof.
  induction d as [|[k1 v1] d IH]; simpl; [done|].
  destruct (decide (k = k1)) as [->|Hne]; simpl.
  - rewrite decide_True; [done|left].
  - unfold od_keys in *. rewrite IH.
    destruct (decide (k ∈ map fst d)) as [Hin|Hin].
    + rewrite decide_True; [done|by right].
    + rewrite decide_False; [done|]. rewrite elem_of_cons. naive_solver.
Qed.

Lemma od_get_None k d : od_get k d = None <-> k ∉ od_keys d.
Proof.
  induction d as [|[k1 v1] d IH]; simpl.
  - split; [intros _; apply not_elem_of_nil|done].
  - rewrite not_elem_of_cons. destruct (decide (k = k1)) as [->|]; naive_solver.
Qed.

Lemma od_get_elem k v d : od_get k d = Some v -> (k, v) ∈ d.
Proof.
  induction d as [|[k1 v1] d IH]; simpl; [done|].
  destruct (decide (k = k1)) as [->|]; [intros [= ->]; left|right; auto].
Qed.

Lemma od_elem_get k v d : od_wf d -> (k, v) ∈ d -> od_get k d = Some v.
Proof.
  unfold od_wf. induction d as [|[k1 v1] d IH]; simpl.
  - by intros _ ?%elem_of_nil.
  - intros [Hni Hnd]%NoDup_cons [[= -> ->]|Hin]%elem_of_cons; [by rewrite decide_True|].
    rewrite decide_False; [auto|]. intros ->. apply Hni.
    unfold od_keys. apply list_elem_of_fmap. by exists (k1, v).
Qed.

Lemma od_wf_set k v d : od_wf d -> od_wf (od_set k v d).
Proof.
  unfold od_wf. intros H. rewrite od_keys_set. case_decide; [done|].
  apply NoDup_app; split_and!; [done| |apply NoDup_singleton].
  intros x Hx ->%list_elem_of_singleton. done.
Qed.

Lemma od_pop_keys_elem k x d : x ∈ od_keys (od_pop k d) -> x ∈ od_keys d.
Proof.
  induction d as [|[k1 v1] d IH]; simpl; [done|].
  case_decide; [by right|]. simpl. rewrite !elem_of_cons. naive_solver.
Qed.

Lemma od_wf_pop k d : od_wf d -> od_wf (od_pop k d).
Proof.
  unfold od_wf. induction d as [|[k1 v1] d IH]; simpl; [done|].
  intros [Hni Hnd]%NoDup_cons. case_decide; [done|]. simpl.
  apply NoDup_cons. split; [|auto]. intros H1. eapply Hni, od_pop_keys_elem, H1.
Qed.

Lemma od_get_pop_eq k d : od_wf d -> od_get k (od_pop k d) = None.
Proof.
  unfold od_wf. induction d as [|[k1 v1] d IH]; simpl; [done|].
  intros [Hni Hnd]%NoDup_cons. case_decide; subst.
  - by apply od_get_None.
  - simpl. rewrite decide_False by done. auto.
Qed.

Lemma od_get_pop_ne k k' d : k <> k' -> od_get k' (od_pop k d) = od_get k' d.
Proof.
  intros Hne. induction d as [|[k1 v1] d IH]; simpl; [done|].
  case_decide; subst; simpl; [by rewrite decide_False|]. by rewrite IH.
Qed.

Lemma od_pop_length_mem k d v : od_get k d = Some v -> S (length (od_pop k d)) = length d.
Proof.
  induction d as [|[k' v'] d IH]; simpl; [done|]. destruct (decide (k = k')); [done|]. intros H. simpl. by rewrite IH.
Qed.

Lemma od_set_elem k v d k' v' : (k', v') ∈ od_set k v d -> (k', v') ∈ d \/ v' = v.
Proof.
  induction d as [|[k1 v1] d IH]; simpl; [intros [= _ ->]%list_elem_of_singleton; by right|].
  case_decide; rewrite !elem_of_cons; naive_solver.
Qed.

Lemma od_pop_elem k d x : x ∈ od_pop k d -> x ∈ d.
Proof. induction d as [|[k1 v1] d IH]; simpl; [done|]. case_decide; [by right|]. rewrite !elem_of_cons. naive_solver. Qed.

Lemma od_set_absent k v d : od_get k d = None -> od_set k v d = d ++ [(k, v)].
Proof.
  induction d as [|[k' v'] d IH]; simpl; [done|]. destruct (decide (k = k')); [done|]. intros H. by rewrite IH.
Qed.

Lemma od_pop_absent k d : od_get k d = None -> od_pop k d = d.
Proof.
  induction d as [|[k' v'] d IH]; simpl; [done|]. destruct (decide (k = k')); [done|]. intros H. by rewrite IH.
Qed.

Lemma od_get_app k (d1 d2 : list (K * V)) :
  od_get k (d1 ++ d2) = match od_get k d1 with Some v => Some v | None => od_get k d2 end.
Proof.
  induction d1 as [|[k1 v1] d1 IH]; simpl; [done|]. by destruct (decide (k = k1)).
Qed.

Lemma od_get_setdefault k k' v d :
  od_get k' (od_setdefault k v d) =
  if decide (k = k') then Some (default v (od_get k d)) else od_get k' d.
Proof.
  unfold od_setdefault. destruct (od_get k d) as [w|] eqn:E; simpl.
  - case_decide; by subst.
  - rewrite od_get_app. simpl. case_decide; subst; [by rewrite E, decide_True|].
    rewrite decide_False by done. by destruct (od_get k' d).
Qed.

Lemma od_wf_filter (p : K * V -> bool) (a : list (K * V)) : od_wf a -> od_wf (List.filter p a).
Proof.
  unfold od_wf, od_keys. induction a as [|x a IH]; intros Ha; [done|]. apply NoDup_cons in Ha as [Hx Ha]. cbn [List.filter].
  destruct (p x); [|by apply IH]. apply NoDup_cons. split; [|by apply IH]. intros Hin. apply Hx.
  apply list_elem_of_fmap in Hin as (y & -> & Hy). apply list_elem_of_fmap. exists y. split; [done|]. apply list_elem_of_In, filter_In in Hy. apply list_elem_of_In, Hy.
Qed.

Lemma od_get_filter_keys (g : K -> bool) (l : list (K * V)) p :
  od_get p (List.filter (fun e => g e.1) l) = if g p then od_get p l else None.
Proof.
  induction l as [|[q v] l IH]; cbn [List.filter od_get fst]; [by destruct (g p)|].
  destruct (decide (p = q)) as [->|Hne]; destruct (g q) eqn:Eq; cbn [od_get]; rewrite ?decide_True, ?decide_False by done; rewrite ?IH, ?Eq; done.
Qed.
End ODict.

(** [l[i]] of a Python list: negative indices count from the end. *)
Definition py_index {A} (l : list A) (i : Z) : option A :=
  if i <? 0 then
    if i + Z.of_nat (length l) <? 0 then None else l !! Z.to_nat (i + Z.of_nat (length l))
  else l !! Z.to_nat i.

Lemma py_index_nonneg {A} (l : list A) i : 0 <= i -> py_index l i = l !! Z.to_nat i.
Proof. unfold py_index. intros H. by apply Z.ltb_ge in H as ->. Qed.

(** ** Sorting

    [sorted(l, key=...)] is stable; insertion of each element in front of the
    first strictly greater one gives the same list. *)
Section Sorting.
Context {A : Type} (leb : A -> A -> bool).

Fixpoint sinsert (x : A) (l : list A) : list A :=
  match l with
  | [] => [x]
  | y :: l => if leb x y then x :: y :: l else y :: sinsert x l
  end.

Fixpoint py_sorted (l : list A) : list A :=
  match l with
  | [] => []
  | x :: l => sinsert x (py_sorted l)
  end.

Lemma sinsert_perm x l : Permutation (sinsert x l) (x :: l).
Proof.
  induction l as [|y l IH]; simpl; [done|].
  destruct (leb x y); [done|]. rewrite IH. constructor.
Qed.

Lemma py_sorted_perm l : Permutation (py_sorted l) l.
Proof. induction l as [|x l IH]; simpl; [done|]. by rewrite sinsert_perm, IH. Qed.

Lemma py_sorted_elem x l : x ∈ py_sorted l <-> x ∈ l.
Proof. by rewrite py_sorted_perm. Qed.

Context (leb_trans : forall x y z, leb x y -> leb y z -> leb x z).
Context (leb_total : forall x y, leb x y = false -> leb y x).

Lemma sinsert_sorted x l :
  StronglySorted (fun a b => leb a b) l -> StronglySorted (fun a b => leb a b) (sinsert x l).
Proof using leb_trans leb_total.
  induction 1 as [|y l Hs IH Hf]; simpl; [repeat constructor|].
  destruct (leb x y) eqn:E.
  - constructor; [by constructor|]. constructor; [by rewrite E|].
    eapply Forall_impl; [exact Hf|]. intros z Hz. apply (leb_trans x y z); [by rewrite E|exact Hz].
  - constructor; [done|]. rewrite sinsert_perm. constructor; [by apply leb_total|done].
Qed.

Lemma py_sorted_sorted l : StronglySorted (fun a b => leb a b) (py_sorted l).
Proof using leb_trans leb_total.
  induction l as [|x l IH]; simpl; [constructor|by apply sinsert_sorted].
Qed.
End Sorting.

Definition sortedZ : list Z -> list Z := py_sorted Z.leb.
Definition sorted_str : list string -> list string := py_sorted String.leb.

(** ** Tactics *)

(** Case analysis on the scrutinee of a [match] or [if] in the goal or a
    hypothesis, keeping the equation. *)
Ltac split_match :=
  match goal with
  | H : context [match ?x with _ => _ end] |- _ =>
      lazymatch x with context [match _ with _ => _ end] => fail | _ => destruct x eqn:? end
  | |- context [match ?x with _ => _ end] =>
      lazymatch x with context [match _ with _ => _ end] => fail | _ => destruct x eqn:? end
  end.

(** Peel a successful monadic run into the runs of its parts. *)
Ltac inv_ok :=
  repeat match goal with
  | H : sbind _ _ _ = (Ok _, _) |- _ =>
      let a := fresh "a" in let s := fresh "s" in let H1 := fresh "H" in
      apply sbind_ok in H as (a & s & H1 & H)
  | H : rbind _ _ = Ok _ |- _ =>
      let a := fresh "a" in let H1 := fresh "H" in
      apply rbind_ok in H as (a & H1 & H)
  | H : sraise_if _ _ _ = (Ok _, _) |- _ => unfold sraise_if in H
  | H : slift _ _ = (Ok _, _) |- _ =>
      unfold slift in H; apply pair_equal_spec in H as [H <-]
  | H : sret _ _ = (Ok _, _) |- _ => unfold sret in H; injection H; clear H; intros; subst
  | H : sget _ = (Ok _, _) |- _ => unfold sget in H; injection H as <- <-
  | H : sgets _ _ = (Ok _, _) |- _ => unfold sgets in H; injection H as <- <-
  | H : smodify _ _ = (Ok _, _) |- _ => unfold smodify in H; injection H as <- <-
  | H : sraise _ _ = (Ok _, _) |- _ => discriminate H
  | H : raise_if _ _ = Ok _ |- _ => apply raise_if_ok in H
  | H : Ok _ = Ok _ |- _ => injection H; clear H; intros; subst
  | H : Raise _ = Ok _ |- _ => discriminate H
  end.

(** Prove [preserves I m] by following the structure of [m]. *)
Ltac solve_preserves :=
  repeat first
    [ apply preserves_ret | apply preserves_raise | apply preserves_lift
    | apply preserves_gets | apply preserves_get | apply preserves_raise_if
    | apply preserves_bind; [|intros ?]
    | apply preserves_for; intros ?
    | apply preserves_fold; intros ? ?
    | apply preserves_modify; intros ? ?
    | solve [eauto with vane] ].

Lemma sbind_assoc {S A B C} (m : ST S A) (k : A -> ST S B) (h : B -> ST S C) s :
  sbind (sbind m k) h s = sbind m (fun a => sbind (k a) h) s.
Proof. unfold sbind. by destruct (m s) as [[a|e] s1]. Qed.

Lemma sbind_eq {S A B} (m : ST S A) (k : A -> ST S B) s a s1 :
  m s = (Ok a, s1) -> sbind m k s = k a s1.
Proof. unfold sbind. by intros ->. Qed.

Lemma sbind_lift {S A B} (m : result A) (k : A -> ST S B) s :
  sbind (slift m) k s = match m with Ok a => k a s | Raise e => (Raise e, s) end.
Proof. by destruct m. Qed.

(** Symbolic execution of a run [prog s = (r, s')] known to succeed: one
    primitive step, or one case split on a result or a condition. *)
Ltac sstep H :=
  lazymatch type of H with
  | sbind (sbind _ _) _ _ = _ => rewrite sbind_assoc in H
  | sbind (sgets ?f) ?k ?s = ?r => change (k (f s) s = r) in H; cbv beta in H
  | sbind sget ?k ?s = ?r => change (k s s = r) in H; cbv beta in H
  | sbind (smodify ?f) ?k ?s = ?r => change (k tt (f s) = r) in H; cbv beta in H
  | sbind (sret ?a) ?k ?s = ?r => change (k a s = r) in H; cbv beta in H
  | sbind (sraise_if ?b ?e) ?k ?s = ?r =>
      change (sbind (slift (raise_if b e)) k s = r) in H
  | sbind (slift (raise_if ?b ?e)) _ _ = _ =>
      rewrite sbind_lift in H; destruct b eqn:?; cbn [raise_if] in H; [discriminate H|]
  | sbind (slift ?m) _ _ = _ =>
      let v := fresh "v" in let E := fresh "E" in
      rewrite sbind_lift in H; destruct m as [v|?] eqn:E; [|discriminate H]
  | sbind (let '(_, _) := ?x in _) _ _ = _ => destruct x
  | sbind (if ?b then _ else _) _ _ = _ => destruct b eqn:?
  | sbind (match ?x with _ => _ end) _ _ = _ => destruct x eqn:?
  | sbind (sraise _) _ _ = _ => discriminate H
  | sret _ _ = _ => unfold sret in H; injection H; clear H; intros; subst
  | sraise _ _ = _ => discriminate H
  | sgets _ _ = _ => unfold sgets in H; injection H; clear H; intros; subst
  | sget _ = _ => unfold sget in H; injection H; clear H; intros; subst
  | smodify _ _ = _ => unfold smodify in H; injection H; clear H; intros; subst
  | slift _ _ = _ => unfold slift in H; injection H; clear H; intros; subst
  | (if ?b then _ else _) _ = _ => destruct b eqn:?
  | (let '(_, _) := ?x in _) _ = _ => destruct x
  | (match ?x with _ => _ end) _ = _ => destruct x eqn:?
  | (Raise _, _) = (Ok _, _) => discriminate H
  end.

Ltac srun H := repeat sstep H.

(** ** Weakest preconditions

    [wp m Q E s]: run from [s], [m] ends in a state satisfying [Q] with its
    value, or raises and leaves a state satisfying [E]. *)
Definition wp {S A} (m : ST S A) (Q : A -> S -> Prop) (E : exn -> S -> Prop) (s : S) : Prop :=
  match m s with
  | (Ok a, s') => Q a s'
  | (Raise e, s') => E e s'
  end.

Section WP.
Context {S : Type} (E : exn -> S -> Prop).

Lemma wp_bind {A B} (m : ST S A) (k : A -> ST S B) Q s :
  wp m (fun a => wp (k a) Q E) E s -> wp (sbind m k) Q E s.
Proof. unfold wp, sbind. by destruct (m s) as [[a|e] s1]. Qed.
Lemma wp_ret {A} (a : A) (Q : A -> S -> Prop) s : Q a s -> wp (sret a) Q E s.
Proof. done. Qed.
Lemma wp_raise {A} e (Q : A -> S -> Prop) s : E e s -> wp (sraise e) Q E s.
Proof. done. Qed.
Lemma wp_get (Q : S -> S -> Prop) s : Q s s -> wp sget Q E s.
Proof. done. Qed.
Lemma wp_gets {A} (f : S -> A) (Q : A -> S -> Prop) s : Q (f s) s -> wp (sgets f) Q E s.
Proof. done. Qed.
Lemma wp_modify f (Q : unit -> S -> Prop) s : Q tt (f s) -> wp (smodify f) Q E s.
Proof. done. Qed.
Lemma wp_lift {A} (m : result A) (Q : A -> S -> Prop) s :
  (forall a, m = Ok a -> Q a s) -> (forall e, m = Raise e -> E e s) -> wp (slift m) Q E s.
Proof. unfold wp, slift. destruct m; auto. Qed.
Lemma wp_raise_if b e (Q : unit -> S -> Prop) s :
  (b = false -> Q tt s) -> (b = true -> E e s) -> wp (sraise_if b e) Q E s.
Proof. unfold wp, sraise_if, slift, raise_if. destruct b; auto. Qed.
Lemma wp_mono {A} (m : ST S A) (Q Q' : A -> S -> Prop) (E' : exn -> S -> Prop) s :
  wp m Q E s -> (forall a s', Q a s' -> Q' a s') -> (forall e s', E e s' -> E' e s') -> wp m Q' E' s.
Proof. unfold wp. destruct (m s) as [[a|e] s1]; auto. Qed.
Lemma wp_fold {A B} (I : B -> S -> Prop) (l : list A) (body : B -> A -> ST S B) b s :
  (forall b x s, x ∈ l -> I b s -> wp (body b x) I E s) -> I b s -> wp (sfold l body b) I E s.
Proof.
  intros Hb. revert b s. induction l as [|x l IH]; intros b s Hi; simpl; [by apply wp_ret|].
  apply wp_bind. eapply wp_mono; [apply Hb; [by left|done]| |done].
  intros b' s' Hi'. apply IH; [|done]. intros. apply Hb; [by right|done].
Qed.
Lemma wp_for {A} (I : S -> Prop) (l : list A) (body : A -> ST S unit) s :
  (forall x s, x ∈ l -> I s -> wp (body x) (fun _ => I) E s) -> I s -> wp (sfor l body) (fun _ => I) E s.
Proof.
  intros Hb. revert s. induction l as [|x l IH]; intros s Hi; simpl; [by apply wp_ret|].
  apply wp_bind. eapply wp_mono; [apply Hb; [by left|done]| |done].
  intros ? s' Hi'. apply IH; [|done]. intros. apply Hb; [by right|done].
Qed.
Lemma wp_catch {A} (m : ST S A) p h (Q : A -> S -> Prop) s :
  wp m Q (fun e s' => if p e : bool then wp (h e) Q E s' else E e s') s -> wp (scatch m p h) Q E s.
Proof.
  unfold wp, scatch. destruct (m s) as [[a|e] s1]; [done|]. by destruct (p e).
Qed.
Lemma wp_finally {A} (m : ST S A) f (Q : A -> S -> Prop) s :
  wp m (fun a s' => Q a (f s')) (fun e s' => E e (f s')) s -> wp (sfinally m f) Q E s.
Proof. unfold wp, sfinally. by destruct (m s) as [[a|e] s1]. Qed.
Lemma wp_try_finally {A} (m : ST S A) f (Q : A -> S -> Prop) s :
  wp m (fun a => wp f (fun _ => Q a) E) (fun e => wp f (fun _ => E e) E) s -> wp (stry_finally m f) Q E s.
Proof.
  unfold wp, stry_finally. destruct (m s) as [[a|e] s1]; by destruct (f s1) as [[?|?] s2].
Qed.
Lemma wp_use {A} (m : ST S A) (Q : A -> S -> Prop) s a s' :
  wp m Q E s -> m s = (Ok a, s') -> Q a s'.
Proof. unfold wp. intros H Hm. by rewrite Hm in H. Qed.
End WP.

Lemma wp_zoom {S T A} (get : S -> T) (put : T -> S -> S) (m : ST T A) (Q : A -> S -> Prop) E s :
  wp m (fun a t => Q a (put t s)) (fun e t => E e (put t s)) (get s) -> wp (szoom get put m) Q E s.
Proof. unfold wp, szoom. by destruct (m (get s)) as [[a|e] t]. Qed.

Lemma preserves_wp {S A} (I : S -> Prop) (m : ST S A) :
  preserves I m <-> forall s, I s -> wp m (fun _ => I) (fun _ => I) s.
Proof.
  unfold preserves, wp. split; intros H s Hs; specialize (H s Hs); by destruct (m s) as [[a|e] s1].
Qed.

(** One step of a weakest-precondition proof, through the primitives. *)
Ltac wp_step :=
  lazymatch goal with
  | |- wp (sbind _ _) _ _ _ => apply wp_bind
  | |- wp (sret _) _ _ _ => apply wp_ret
  | |- wp (sraise _) _ _ _ => apply wp_raise
  | |- wp sget _ _ _ => apply wp_get
  | |- wp (sgets _) _ _ _ => apply wp_gets
  | |- wp (smodify _) _ _ _ => apply wp_modify
  | |- wp (sraise_if _ _) _ _ _ => apply wp_raise_if; intros ?
  | |- wp (slift _) _ _ _ => apply wp_lift; intros ? ?
  | |- wp (szoom _ _ _) _ _ _ => apply wp_zoom
  | |- wp (sfinally _ _) _ _ _ => apply wp_finally
  | |- wp (scatch _ _ _) _ _ _ => apply wp_catch
  | |- wp (if ?b then _ else _) _ _ _ => destruct b eqn:?
  | |- wp (let '(_, _) := ?x in _) _ _ _ => destruct x
  | |- wp (match ?x with _ => _ end) _ _ _ => destruct x eqn:?
  end.

Ltac wp_run := repeat wp_step.
