(* ===== verification/PyStr.v ===== *)
(** * Python strings and integers in text form

    The [str] methods the runtime uses (strip, upper, lower, replace, split,
    rsplit, startswith, endswith, substring test), [str] of an [int] and
    [int] of a [str].  A string is a sequence of ASCII code points, so its
    UTF-8 encoding has as many bytes as it has characters. *)

From Stdlib Require Import Numbers.DecimalString Numbers.DecimalN Numbers.DecimalZ NArith.
From S2P Require Import Prelude.

#[local] Open Scope string_scope.
#[local] Open Scope list_scope.

(** ** Whitespace and case *)

(** [str.isspace] on ASCII: HT, LF, VT, FF, CR, FS, GS, RS, US and space. *)
Definition is_space (c : ascii) : bool :=
  let n := nat_of_ascii c in
  ((9 <=? n) && (n <=? 13) || (28 <=? n) && (n <=? 32))%nat.

Fixpoint lstrip (s : string) : string :=
  match s with
  | "" => ""
  | String c s' => if is_space c then lstrip s' else s
  end.

Fixpoint rstrip (s : string) : string :=
  match s with
  | "" => ""
  | String c s' =>
      match rstrip s' with
      | "" => if is_space c then "" else String c ""
      | t => String c t
      end
  end.

(** [s.strip()] *)
Definition strip (s : string) : string := rstrip (lstrip s).

Definition upper_char (c : ascii) : ascii :=
  let n := nat_of_ascii c in
  if ((97 <=? n) && (n <=? 122))%nat then ascii_of_nat (n - 32) else c.

Definition lower_char (c : ascii) : ascii :=
  let n := nat_of_ascii c in
  if ((65 <=? n) && (n <=? 90))%nat then ascii_of_nat (n + 32) else c.

Fixpoint smap (f : ascii -> ascii) (s : string) : string :=
  match s with "" => "" | String c s => String (f c) (smap f s) end.

Definition upper : string -> string := smap upper_char.
Definition lower : string -> string := smap lower_char.

(** [s.replace(a, b)] for one-character [a] and [b] *)
Definition replace_char (a b : ascii) : string -> string :=
  smap (fun c => if Ascii.eqb c a then b else c).

(** ** Prefix, suffix and substring tests *)

Definition startswith (s p : string) : bool := String.prefix p s.

Fixpoint endswith (s p : string) : bool :=
  String.eqb s p ||
  match s with "" => false | String _ s => endswith s p end.

(** [p in s] *)
Fixpoint contains (s p : string) : bool :=
  String.prefix p s ||
  match s with "" => false | String _ s => contains s p end.

Fixpoint sdrop (n : nat) (s : string) : string :=
  match n, s with
  | O, _ => s
  | S n, String _ s => sdrop n s
  | S _, "" => ""
  end.

(** ** Splitting *)

(** [s.split(c)] for a one-character separator: never the empty list. *)
Fixpoint split (c : ascii) (s : string) : list string :=
  match s with
  | "" => [""]
  | String a s =>
      if Ascii.eqb a c then "" :: split c s
      else match split c s with
           | p :: ps => String a p :: ps
           | [] => [String a ""]
           end
  end.

Fixpoint join (c : ascii) (l : list string) : string :=
  match l with
  | [] => ""
  | [p] => p
  | p :: l => p +:+ String c (join c l)
  end.

(** [s.rsplit(c, n)]: at most [n] separators, counted from the right. *)
Definition rsplit (c : ascii) (n : nat) (s : string) : list string :=
  let ps := split c s in
  let k := (length ps - n)%nat in
  if (k <=? 1)%nat then ps else join c (take k ps) :: drop k ps.

(** [s.split(c, 1)] *)
Definition split1 (c : ascii) (s : string) : list string :=
  match split c s with
  | p :: q :: ps => [p; join c (q :: ps)]
  | ps => ps
  end.

Fixpoint no_char (c : ascii) (s : string) : bool :=
  match s with "" => true | String a s => negb (Ascii.eqb a c) && no_char c s end.

(** ** Integers as text *)

(** [str(z)] *)
Definition str_of_int (z : Z) : string :=
  match z with
  | Z0 => "0"
  | Zpos p => NilEmpty.string_of_uint (N.to_uint (Npos p))
  | Zneg p => "-" +:+ NilEmpty.string_of_uint (N.to_uint (Npos p))
  end.

(** Digit groups may be separated by single underscores. *)
Fixpoint strip_underscores (prev_digit : bool) (s : string) : option string :=
  match s with
  | "" => if prev_digit then Some "" else None
  | String c s =>
      if Ascii.eqb c "_" then (if prev_digit then strip_underscores false s else None)
      else String c <$> strip_underscores true s
  end.

Definition nat_of_digits (s : string) : option Z :=
  match strip_underscores false s with
  | Some d => Z.of_N ∘ N.of_uint <$> NilEmpty.uint_of_string d
  | None => None
  end.

(** [int(s)]: surrounding whitespace and a sign are allowed; [None] is the
    [ValueError]. *)
Definition int_of_str (s : string) : option Z :=
  match strip s with
  | String "-" d => Z.opp <$> nat_of_digits d
  | String "+" d => nat_of_digits d
  | d => nat_of_digits d
  end.

(** [s.isdigit()] on ASCII *)
Definition is_digit (c : ascii) : bool :=
  let n := nat_of_ascii c in ((48 <=? n) && (n <=? 57))%nat.
#[global] Arguments is_digit : simpl never.
#[global] Arguments is_space : simpl never.

Fixpoint all_digits (s : string) : bool :=
  match s with
  | "" => true
  | String c s => is_digit c && all_digits s
  end.
Definition isdigit (s : string) : bool := negb (String.eqb s "") && all_digits s.

(** ** Facts *)

Lemma split_nonempty c s : split c s <> [].
Proof. destruct s as [|a s]; simpl; [done|]. case_match; [done|]. by case_match. Qed.

Lemma split_no_char c s : no_char c s = true -> split c s = [s].
Proof.
  induction s as [|a s IH]; simpl; [done|].
  intros [Ha Hs]%andb_prop. apply negb_true_iff in Ha. rewrite Ha, IH by done. done.
Qed.

Lemma split_app c s1 s2 : split c (s1 +:+ String c s2) = split c s1 ++ split c s2.
Proof.
  induction s1 as [|a s1 IH]; simpl; [by rewrite Ascii.eqb_refl|].
  rewrite IH. destruct (Ascii.eqb a c); [done|].
  pose proof (split_nonempty c s1). destruct (split c s1); [done|]. done.
Qed.

Lemma join_split c s : join c (split c s) = s.
Proof.
  induction s as [|a s IH]; simpl; [done|].
  destruct (Ascii.eqb_spec a c) as [->|].
  - pose proof (split_nonempty c s). destruct (split c s) as [|p ps] eqn:E; [done|].
    change (String c (join c (p :: ps)) = String c s). by rewrite IH.
  - destruct (split c s) as [|p ps]; [by subst s|]. rewrite <- IH. by destruct ps.
Qed.

(** Splitting off trailing fields that contain no separator. *)
Lemma rsplit_fields c s (fs : list string) :
  Forall (fun f => no_char c f = true) fs -> fs <> [] ->
  rsplit c (length fs) (foldl (fun acc f => acc +:+ String c f) s fs) = s :: fs.
Proof.
  intros Hf Hne.
  assert (Hs : split c (foldl (fun acc f => acc +:+ String c f) s fs) = split c s ++ fs).
  { clear Hne. revert s. induction Hf as [|f fs Hf1 Hf IH]; intros s; simpl; [by rewrite app_nil_r|].
    rewrite IH, split_app, (split_no_char c f) by done. by rewrite <- app_assoc. }
  unfold rsplit. rewrite Hs, length_app, Nat.add_sub, take_app_length, drop_app_length, join_split.
  destruct (length (split c s) <=? 1)%nat eqn:E; [|done].
  apply Nat.leb_le in E. pose proof (split_nonempty c s). pose proof (join_split c s) as Hj.
  destruct (split c s) as [|p [|q ps]]; simpl in *; [done|by subst|lia].
Qed.

Lemma is_digit_bounds c : is_digit c = true <-> (48 <= nat_of_ascii c <= 57)%nat.
Proof. unfold is_digit. rewrite andb_true_iff, !Nat.leb_le. done. Qed.

Lemma is_digit_not_space c : is_digit c = true -> is_space c = false.
Proof.
  intros H%is_digit_bounds. unfold is_space.
  rewrite orb_false_iff, !andb_false_iff, !Nat.leb_gt. lia.
Qed.

Lemma all_digits_uint d : all_digits (NilEmpty.string_of_uint d) = true.
Proof. induction d; simpl; auto. Qed.

Lemma string_of_N_nonempty n : NilEmpty.string_of_uint (N.to_uint n) <> "".
Proof.
  intros H. assert (Hu : N.to_uint n = Decimal.Nil) by (destruct (N.to_uint n); done).
  apply (f_equal N.of_uint) in Hu as Hu'. rewrite DecimalN.Unsigned.of_to in Hu'.
  subst n. done.
Qed.

Lemma digits_not c s :
  all_digits s = true -> (nat_of_ascii c < 48 \/ 57 < nat_of_ascii c)%nat -> no_char c s = true.
Proof.
  intros Hs Hc. induction s as [|a s IH]; simpl in *; [done|].
  apply andb_prop in Hs as [Ha%is_digit_bounds Hs].
  rewrite IH by done. destruct (Ascii.eqb_spec a c) as [->|]; [lia|done].
Qed.

(** A literal character outside the digits. *)
Ltac not_a_digit :=
  solve [left; apply Nat.ltb_lt; reflexivity | right; apply Nat.ltb_lt; reflexivity].

Lemma strip_underscores_digits b s :
  all_digits s = true -> b = true \/ s <> "" -> strip_underscores b s = Some s.
Proof.
  revert b. induction s as [|a s IH]; intros b Hs Hb; simpl.
  - destruct b; [done|]. naive_solver.
  - pose proof (digits_not "_" (String a s) Hs) as Hn. simpl in Hn.
    simpl in Hs. apply andb_prop in Hs as [_ Hs].
    destruct (Ascii.eqb a "_"); [|by rewrite IH by auto].
    exfalso. assert (false = true); [|done]. apply Hn. not_a_digit.
Qed.

Lemma rstrip_digits s : all_digits s = true -> rstrip s = s.
Proof.
  induction s as [|a s IH]; simpl; [done|].
  intros [H1%is_digit_not_space Hs]%andb_prop. rewrite IH, H1 by done. by destruct s.
Qed.

Lemma strip_digits s : all_digits s = true -> strip s = s.
Proof.
  intros Hs. unfold strip. replace (lstrip s) with s; [by apply rstrip_digits|].
  destruct s as [|a s]; simpl; [done|]. simpl in Hs.
  apply andb_prop in Hs as [H1%is_digit_not_space _]. by rewrite H1.
Qed.

(** The text of a non-negative integer has only digits, at least one. *)
Lemma str_of_int_digits z :
  0 <= z -> str_of_int z = NilEmpty.string_of_uint (N.to_uint (Z.to_N z)).
Proof. destruct z; simpl; [done|done|lia]. Qed.

Lemma str_of_int_all_digits z : 0 <= z -> all_digits (str_of_int z) = true.
Proof. intros. rewrite str_of_int_digits by done. apply all_digits_uint. Qed.

Lemma str_of_int_nonempty z : 0 <= z -> str_of_int z <> "".
Proof. intros. rewrite str_of_int_digits by done. apply string_of_N_nonempty. Qed.

Lemma str_of_int_no_dot z : 0 <= z -> no_char "." (str_of_int z) = true.
Proof. intros. apply digits_not; [by apply str_of_int_all_digits|]. not_a_digit. Qed.

(** [int(str(z)) == z] *)
Lemma int_of_str_of_int z : 0 <= z -> int_of_str (str_of_int z) = Some z.
Proof.
  intros Hz. unfold int_of_str.
  pose proof (str_of_int_all_digits z Hz) as Hd.
  pose proof (str_of_int_nonempty z Hz) as Hne.
  rewrite strip_digits by done.
  assert (Hn : nat_of_digits (str_of_int z) = Some z).
  { unfold nat_of_digits. rewrite strip_underscores_digits by auto.
    rewrite str_of_int_digits, NilEmpty.usu by done. simpl.
    rewrite DecimalN.Unsigned.of_to. f_equal. lia. }
  pose proof (digits_not "-" _ Hd) as H1. pose proof (digits_not "+" _ Hd) as H2.
  destruct (str_of_int z) as [|a s] eqn:E; [done|].
  assert (a <> "-"%char).
  { intros ->. simpl in H1. discriminate H1. not_a_digit. }
  assert (a <> "+"%char).
  { intros ->. simpl in H2. discriminate H2. not_a_digit. }
  repeat case_match; naive_solver.
Qed.

Lemma sapp_cancel_l (a b c : string) : a +:+ b = a +:+ c -> b = c.
Proof. induction a as [|x a IH]; [done|]. intros [= H]. by apply IH. Qed.

Lemma str_of_int_inj a b : 0 <= a -> 0 <= b -> str_of_int a = str_of_int b -> a = b.
Proof.
  intros Ha Hb H. apply (f_equal int_of_str) in H.
  rewrite !int_of_str_of_int in H by done. by injection H.
Qed.

(** [strip] is idempotent. *)
Definition stripped (s : string) : bool := String.eqb (strip s) s.

Lemma rstrip_cons_nonspace c s : is_space c = false -> rstrip (String c s) = String c (rstrip s).
Proof. intros H. simpl. rewrite H. by destruct (rstrip s). Qed.

Lemma rstrip_idemp s : rstrip (rstrip s) = rstrip s.
Proof.
  induction s as [|a s IH]; simpl; [done|].
  destruct (rstrip s) as [|b t] eqn:E.
  - destruct (is_space a) eqn:Ha; [done|]. simpl. by rewrite Ha.
  - change (rstrip (String a (String b t))) with
      (match rstrip (String b t) with "" => if is_space a then "" else String a "" | t => String a t end).
    by rewrite IH.
Qed.

Lemma lstrip_head s : match lstrip s with "" => True | String c _ => is_space c = false end.
Proof. induction s as [|a s IH]; simpl; [done|]. by destruct (is_space a) eqn:E. Qed.

Lemma strip_idemp s : strip (strip s) = strip s.
Proof.
  unfold strip. pose proof (lstrip_head s) as H. destruct (lstrip s) as [|c t]; [done|].
  rewrite (rstrip_cons_nonspace c t) by done.
  replace (lstrip (String c (rstrip t))) with (String c (rstrip t)) by (simpl; by rewrite H).
  rewrite rstrip_cons_nonspace, rstrip_idemp by done. done.
Qed.

Lemma stripped_strip s : stripped (strip s) = true.
Proof. unfold stripped. rewrite strip_idemp. apply String.eqb_refl. Qed.

Lemma stripped_eq s : stripped s = true <-> strip s = s.
Proof. unfold stripped. apply String.eqb_eq. Qed.
