(* ===== verification/PyVal.v ===== *)
(** * Dynamic values

    The code passes payloads as [Any]: nested dicts, lists, sets, strings,
    integers, booleans and [None].  [pyval] is their model, with the
    operations of the language that the code applies to them: truth value,
    equality, [str]/[repr], [int], mapping lookup and update.  Floats do not
    occur in the payloads the modelled code inspects. *)

From S2P Require Import Prelude PyStr.

#[local] Open Scope string_scope.
#[local] Open Scope list_scope.
#[local] Open Scope Z_scope.

Inductive pyval : Type :=
| PNone
| PBool (b : bool)
| PInt (z : Z)
| PStr (s : string)
| PEnum (cls value : string)       (* a member of a [class cls(str, Enum)] *)
| PBytes (s : string)
| PList (l : list pyval)
| PTuple (l : list pyval)
| PSet (l : list pyval)
| PDict (d : list (pyval * pyval))
| PObj (id : N) (text : string).    (* an opaque object and its [repr] *)

Definition is_mapping (v : pyval) : bool := match v with PDict _ => true | _ => false end.
Definition is_none (v : pyval) : bool := match v with PNone => true | _ => false end.

(** [isinstance(v, str)] with the text; members of [str] enums are strings. *)
Definition as_str (v : pyval) : option string :=
  match v with PStr s => Some s | PEnum _ s => Some s | _ => None end.

(** [bool(v)] *)
Definition truthy (v : pyval) : bool :=
  match v with
  | PNone => false
  | PBool b => b
  | PInt z => negb (z =? 0)
  | PStr s | PEnum _ s | PBytes s => negb (String.eqb s "")
  | PList l | PTuple l | PSet l => negb (bool_decide (length l = O))
  | PDict d => negb (bool_decide (length d = O))
  | PObj _ _ => true
  end.

(** [a or b] *)
Definition py_or (a b : pyval) : pyval := if truthy a then a else b.

(** [a == b]: booleans are integers, dicts compare regardless of order. *)
Fixpoint py_eqb (a b : pyval) : bool :=
  match a, b with
  | PNone, PNone => true
  | PBool x, PBool y => Bool.eqb x y
  | PBool x, PInt y => Z.b2z x =? y
  | PInt x, PBool y => x =? Z.b2z y
  | PInt x, PInt y => x =? y
  | (PStr x | PEnum _ x), (PStr y | PEnum _ y) => String.eqb x y
  | PBytes x, PBytes y => String.eqb x y
  | PList l, PList m | PTuple l, PTuple m =>
      (fix go l m :=
         match l, m with
         | [], [] => true
         | x :: l, y :: m => py_eqb x y && go l m
         | _, _ => false
         end) l m
  | PSet l, PSet m =>
      bool_decide (length l = length m) && forallb (fun x => existsb (py_eqb x) m) l
  | PDict d, PDict e =>
      bool_decide (length d = length e) &&
      (fix go d :=
         match d with
         | [] => true
         | (k, v) :: d =>
             match find (fun kv => py_eqb k kv.1) e with
             | Some kv => py_eqb v kv.2
             | None => false
             end && go d
         end) d
  | PObj i _, PObj j _ => N.eqb i j
  | _, _ => false
  end.

(** ** Text *)

Definition hex_digit (n : nat) : ascii :=
  if (n <? 10)%nat then ascii_of_nat (48 + n) else ascii_of_nat (87 + n).

Definition repr_char (q c : ascii) : string :=
  let n := nat_of_ascii c in
  if Ascii.eqb c q || Ascii.eqb c "\" then String "\" (String c "")
  else if (n =? 10)%nat then "\n"
  else if (n =? 13)%nat then "\r"
  else if (n =? 9)%nat then "\t"
  else if ((n <? 32) || (n =? 127))%nat
       then "\x" +:+ String (hex_digit (n / 16)%nat) (String (hex_digit (n mod 16)%nat) "")
       else String c "".

Fixpoint repr_body (q : ascii) (s : string) : string :=
  match s with "" => "" | String c s => repr_char q c +:+ repr_body q s end.

Definition quote_double : ascii := ascii_of_nat 34.

(** [repr] of a string: single quotes unless only those occur in it. *)
Definition repr_str (s : string) : string :=
  let q := if negb (no_char "'" s) && no_char quote_double s then quote_double else "'"%char in
  String q (repr_body q s +:+ String q "").

Fixpoint comma_join (l : list string) : string :=
  match l with
  | [] => ""
  | [x] => x
  | x :: l => x +:+ ", " +:+ comma_join l
  end.

Fixpoint py_repr (v : pyval) : string :=
  match v with
  | PNone => "None"
  | PBool true => "True"
  | PBool false => "False"
  | PInt z => str_of_int z
  | PStr s => repr_str s
  | PEnum c s => "<" +:+ c +:+ "." +:+ s +:+ ": " +:+ repr_str s +:+ ">"
  | PBytes s => String "b" (repr_str s)
  | PList l => "[" +:+ comma_join (map py_repr l) +:+ "]"
  | PTuple [x] => "(" +:+ py_repr x +:+ ",)"
  | PTuple l => "(" +:+ comma_join (map py_repr l) +:+ ")"
  | PSet [] => "set()"
  | PSet l => "{" +:+ comma_join (map py_repr l) +:+ "}"
  | PDict d =>
      "{" +:+ comma_join
        ((fix go d := match d with
                      | [] => []
                      | (k, v) :: d => (py_repr k +:+ ": " +:+ py_repr v) :: go d
                      end) d) +:+ "}"
  | PObj _ text => text
  end.

(** [str(v)] *)
Definition py_str (v : pyval) : string :=
  match v with
  | PStr s => s
  | PEnum c s => c +:+ "." +:+ s
  | v => py_repr v
  end.

(** [int(v)] *)
Definition py_int (v : pyval) : result Z :=
  match v with
  | PInt z => Ok z
  | PBool b => Ok (Z.b2z b)
  | PStr s | PEnum _ s | PBytes s =>
      match int_of_str s with
      | Some z => Ok z
      | None => Raise (ValueError "invalid literal for int()")
      end
  | _ => Raise (TypeError "int() argument must be a string or a number")
  end.

(** ** Mappings with text keys *)

Definition key_is (k : string) (v : pyval) : bool :=
  match as_str v with Some s => String.eqb s k | None => false end.

Fixpoint pd_find (k : string) (d : list (pyval * pyval)) : option pyval :=
  match d with
  | [] => None
  | (k', v) :: d => if key_is k k' then Some v else pd_find k d
  end.

(** [d.get(k)] *)
Definition pd_get (k : string) (d : list (pyval * pyval)) : pyval := default PNone (pd_find k d).

(** [k in d] *)
Definition pd_mem (k : string) (d : list (pyval * pyval)) : bool :=
  match pd_find k d with Some _ => true | None => false end.

(** [d[k]] *)
Definition pd_index (k : string) (d : list (pyval * pyval)) : result pyval :=
  match pd_find k d with Some v => Ok v | None => Raise (KeyError k) end.

(** [d[k] = v] *)
Fixpoint pd_set (k : string) (v : pyval) (d : list (pyval * pyval)) : list (pyval * pyval) :=
  match d with
  | [] => [(PStr k, v)]
  | (k', v') :: d => if key_is k k' then (k', v) :: d else (k', v') :: pd_set k v d
  end.

(** [d.pop(k, None)] *)
Fixpoint pd_pop (k : string) (d : list (pyval * pyval)) : list (pyval * pyval) :=
  match d with
  | [] => []
  | (k', v') :: d => if key_is k k' then d else (k', v') :: pd_pop k d
  end.

(** [{**d, **e}] and [d.update(e)]: keys of any type. *)
Fixpoint pd_put (k v : pyval) (d : list (pyval * pyval)) : list (pyval * pyval) :=
  match d with
  | [] => [(k, v)]
  | (k', v') :: d => if py_eqb k k' then (k', v) :: d else (k', v') :: pd_put k v d
  end.
Definition pd_update (d e : list (pyval * pyval)) : list (pyval * pyval) :=
  fold_left (fun d kv => pd_put kv.1 kv.2 d) e d.

(** A dict literal with text keys. *)
Definition pd_lit (l : list (string * pyval)) : list (pyval * pyval) :=
  map (fun kv => (PStr kv.1, kv.2)) l.

(** The elements of an iterable payload field, [for x in v]. *)
Definition py_iter (v : pyval) : result (list pyval) :=
  match v with
  | PList l | PTuple l | PSet l => Ok l
  | PDict d => Ok (map fst d)
  | PStr s | PEnum _ s => Ok (map (fun c => PStr (String c "")) (list_ascii_of_string s))
  | PBytes s => Ok (map (fun c => PInt (Z.of_nat (nat_of_ascii c))) (list_ascii_of_string s))
  | _ => Raise (TypeError "object is not iterable")
  end.

(** ** Facts *)

Lemma key_is_str k k' : key_is k (PStr k') = String.eqb k' k.
Proof. done. Qed.

Lemma pd_find_set_eq k v d : pd_find k (pd_set k v d) = Some v.
Proof.
  induction d as [|[k' v'] d IH]; simpl.
  - by rewrite key_is_str, String.eqb_refl.
  - destruct (key_is k k') eqn:E; simpl; by rewrite E.
Qed.

Lemma key_is_inj k k' x : key_is k x = true -> key_is k' x = true -> k = k'.
Proof.
  unfold key_is. destruct (as_str x); [|done].
  rewrite !String.eqb_eq. congruence.
Qed.

Lemma pd_find_set_ne k k' v d : k <> k' -> pd_find k' (pd_set k v d) = pd_find k' d.
Proof.
  intros Hne. induction d as [|[x w] d IH]; simpl.
  - rewrite key_is_str. by apply String.eqb_neq in Hne as ->.
  - destruct (key_is k x) eqn:E; simpl.
    + destruct (key_is k' x) eqn:E'; [|done]. by destruct Hne; eapply key_is_inj.
    + by rewrite IH.
Qed.

Lemma pd_find_pop_ne k k' d : k <> k' -> pd_find k' (pd_pop k d) = pd_find k' d.
Proof.
  intros Hne. induction d as [|[x w] d IH]; simpl; [done|].
  destruct (key_is k x) eqn:E; simpl.
  - destruct (key_is k' x) eqn:E'; [|done]. by destruct Hne; eapply key_is_inj.
  - by rewrite IH.
Qed.

(** Structural induction that reaches the values inside containers. *)
Section PyvalInd.
Context (P : pyval -> Prop).
Context (Hnone : P PNone) (Hbool : forall b, P (PBool b)) (Hint : forall z, P (PInt z))
  (Hstr : forall s, P (PStr s)) (Henum : forall c s, P (PEnum c s))
  (Hbytes : forall s, P (PBytes s))
  (Hlist : forall l, Forall P l -> P (PList l))
  (Htuple : forall l, Forall P l -> P (PTuple l))
  (Hset : forall l, Forall P l -> P (PSet l))
  (Hdict : forall d, Forall (fun kv => P kv.1 /\ P kv.2) d -> P (PDict d))
  (Hobj : forall i t, P (PObj i t)).

Fixpoint pyval_nested_ind (v : pyval) : P v :=
  let all := fix all (l : list pyval) : Forall P l :=
    match l with
    | [] => List.Forall_nil P
    | x :: l => List.Forall_cons P x l (pyval_nested_ind x) (all l)
    end in
  match v with
  | PNone => Hnone | PBool b => Hbool b | PInt z => Hint z
  | PStr s => Hstr s | PEnum c s => Henum c s | PBytes s => Hbytes s
  | PList l => Hlist l (all l)
  | PTuple l => Htuple l (all l)
  | PSet l => Hset l (all l)
  | PDict d => Hdict d
      ((fix alld (d : list (pyval * pyval)) : Forall (fun kv => P kv.1 /\ P kv.2) d :=
          match d with
          | [] => List.Forall_nil _
          | (k, w) :: d =>
              List.Forall_cons (fun kv => P kv.1 /\ P kv.2) (k, w) d
                (conj (pyval_nested_ind k) (pyval_nested_ind w)) (alld d)
          end) d)
  | PObj i t => Hobj i t
  end.
End PyvalInd.
