(* ===== verification/PyNum.v ===== *)
(** * Numbers and sort keys of Python

    Binary64 arithmetic as Python's [float] uses it, built on the Standard
    Library's executable specification of binary floating point
    ([SpecFloat]): conversion from [int], arithmetic and comparison, true
    division of two integers, [int] (truncation), [floor], [round] (half to
    even), [isfinite] and [isclose].  No axioms are involved.

    Values that are an [int] in one dimension and a [float] in another, with
    the mixed arithmetic and the exact comparison of the two; tuples of
    numbers and strings as keys of [min], [max] and [sort].  [sum] adds from
    left to right, as Python does up to 3.11; later versions round a sum of
    floats once more carefully. *)

From Stdlib Require Import Floats.SpecFloat.
From S2P Require Import Prelude.

#[local] Open Scope string_scope.
#[local] Open Scope list_scope.
#[local] Open Scope Z_scope.

(** ** Binary64 *)

Definition prec64 : Z := 53.
Definition emax64 : Z := 1024.

Definition f64 : Type := spec_float.

(** [float(z)], correctly rounded *)
Definition f64_of_int (z : Z) : f64 := binary_normalize prec64 emax64 z 0 false.

Definition f64_add : f64 -> f64 -> f64 := SFadd prec64 emax64.
Definition f64_mul : f64 -> f64 -> f64 := SFmul prec64 emax64.
Definition f64_sub : f64 -> f64 -> f64 := SFsub prec64 emax64.
Definition f64_div : f64 -> f64 -> f64 := SFdiv prec64 emax64.
Definition f64_abs : f64 -> f64 := SFabs.
Definition f64_neg : f64 -> f64 := SFopp.
Definition f64_lt : f64 -> f64 -> bool := SFltb.
Definition f64_le : f64 -> f64 -> bool := SFleb.
Definition f64_eqb : f64 -> f64 -> bool := SFeqb.
Definition f64_zero : f64 := S754_zero false.
Definition f64_inf : f64 := S754_infinity false.

(** [math.isfinite] *)
Definition f64_isfinite (x : f64) : bool :=
  match x with S754_zero _ | S754_finite _ _ _ => true | _ => false end.

(** [max] of two: the first unless the second is greater *)
Definition f64_max (x y : f64) : f64 := if f64_lt x y then y else x.

(** [a / b] of two positive integers: the quotient, correctly rounded. *)
Definition f64_div_pos (a b : positive) : f64 :=
  let '(m, e, l) := SFdiv_core_binary prec64 emax64 (Zpos a) 0 (Zpos b) 0 in
  binary_round_aux prec64 emax64 false m e l.

(** [a / b] for integers, [b] positive *)
Definition f64_div_int (a : Z) (b : positive) : f64 :=
  match a with
  | Z0 => S754_zero false
  | Zpos p => f64_div_pos p b
  | Zneg p => SFopp (f64_div_pos p b)
  end.

(** The literal [num/den], e.g. [1.26]. *)
Definition f64_lit (num : Z) (den : positive) : f64 := f64_div_int num den.

(** Numerator and power-of-two denominator of a finite value. *)
Definition f64_signed (s : bool) (z : Z) : Z := if s then - z else z.

(** [int(x)]: truncation toward zero *)
Definition f64_trunc (x : f64) : result Z :=
  match x with
  | S754_zero _ => Ok 0
  | S754_finite s m e =>
      Ok (f64_signed s (if 0 <=? e then Zpos m * 2 ^ e else Zpos m / 2 ^ (- e)))
  | S754_infinity _ => Raise (OverflowError "cannot convert float infinity to integer")
  | S754_nan => Raise (ValueError "cannot convert float NaN to integer")
  end.

(** [math.floor(x)] *)
Definition f64_floor (x : f64) : result Z :=
  match x with
  | S754_zero _ => Ok 0
  | S754_finite s m e =>
      Ok (if 0 <=? e then f64_signed s (Zpos m * 2 ^ e) else f64_signed s (Zpos m) / 2 ^ (- e))
  | S754_infinity _ => Raise (OverflowError "cannot convert float infinity to integer")
  | S754_nan => Raise (ValueError "cannot convert float NaN to integer")
  end.

(** [float(n)], which raises when the value is out of range *)
Definition float_of_int (n : Z) : result f64 :=
  if f64_isfinite (f64_of_int n) then Ok (f64_of_int n)
  else Raise (OverflowError "int too large to convert to float").

(** [n * x] of an [int] and a [float] *)
Definition f64_mul_int (n : Z) (x : f64) : result f64 := let* n := float_of_int n in Ok (f64_mul n x).

(** [math.isclose(x, y, rel_tol=0.0, abs_tol=tol)] *)
Definition f64_isclose (tol x y : f64) : bool :=
  f64_eqb x y || (f64_isfinite x && f64_isfinite y && f64_le (f64_abs (f64_sub y x)) tol).

Definition half_even (n d : Z) : Z :=
  let q := n / d in
  let r := 2 * (n mod d) in
  if r <? d then q else if d <? r then q + 1 else if Z.even q then q else q + 1.

(** [round(x)]: nearest integer, ties to even *)
Definition f64_round (x : f64) : result Z :=
  match x with
  | S754_zero _ => Ok 0
  | S754_finite s m e =>
      Ok (f64_signed s (if 0 <=? e then Zpos m * 2 ^ e else half_even (Zpos m) (2 ^ (- e))))
  | S754_infinity _ => Raise (OverflowError "cannot convert float infinity to integer")
  | S754_nan => Raise (ValueError "cannot convert float NaN to integer")
  end.

(** [int(0.1 + 0.2 != 0.3)]-style sanity checks of the rounding. *)
Example f64_tenths : f64_add (f64_lit 1 10) (f64_lit 2 10) <> f64_lit 3 10.
Proof. vm_compute. discriminate. Qed.

Example f64_floors : map f64_floor [f64_lit (-5) 2; f64_lit 7 2; f64_of_int 4] = [Ok (-3); Ok 3; Ok 4].
Proof. vm_compute. reflexivity. Qed.

Example f64_ties : map f64_round [f64_lit 5 2; f64_lit 7 2; f64_lit 9 2] = [Ok 2; Ok 4; Ok 4].
Proof. vm_compute. reflexivity. Qed.

Example f64_growth :
  f64_trunc (f64_add (f64_mul (f64_of_int 100) (f64_lit 126 100)) (f64_lit 999999 1000000)) = Ok 126.
Proof. vm_compute. reflexivity. Qed.

(** ** Numbers *)

Inductive num := NInt (z : Z) | NFloat (x : f64).

Definition num_float (a : num) : result f64 :=
  match a with NInt z => float_of_int z | NFloat x => Ok x end.

Definition num_op (on_int : Z -> Z -> Z) (on_float : f64 -> f64 -> f64) (a b : num) : result num :=
  match a, b with
  | NInt x, NInt y => Ok (NInt (on_int x y))
  | _, _ => let* x := num_float a in let* y := num_float b in Ok (NFloat (on_float x y))
  end.

Definition num_add : num -> num -> result num := num_op Z.add f64_add.
Definition num_sub : num -> num -> result num := num_op Z.sub f64_sub.
Definition num_mul : num -> num -> result num := num_op Z.mul f64_mul.

(** [x / b] for a [float] [x] *)
Definition float_div (x : f64) (b : num) : result f64 :=
  let* y := num_float b in
  if f64_eqb y f64_zero then Raise (ZeroDivisionError "float division by zero") else Ok (f64_div x y).

(** The order of an [int] and a [float], without rounding. *)
Definition int_float_compare (z : Z) (x : f64) : option comparison :=
  match x with
  | S754_nan => None
  | S754_infinity s => Some (if s then Gt else Lt)
  | S754_zero _ => Some (z ?= 0)
  | S754_finite s m e =>
      Some (if 0 <=? e then z ?= f64_signed s (Zpos m * 2 ^ e) else z * 2 ^ (- e) ?= f64_signed s (Zpos m))
  end.

Definition num_compare (a b : num) : option comparison :=
  match a, b with
  | NInt x, NInt y => Some (x ?= y)
  | NFloat x, NFloat y => SFcompare x y
  | NInt x, NFloat y => int_float_compare x y
  | NFloat x, NInt y => option_map CompOpp (int_float_compare y x)
  end.

Definition num_lt (a b : num) : bool := match num_compare a b with Some Lt => true | _ => false end.
Definition num_le (a b : num) : bool := match num_compare a b with Some Lt | Some Eq => true | _ => false end.
Definition num_eqb (a b : num) : bool := match num_compare a b with Some Eq => true | _ => false end.

(** [max(a, b)] and [min(a, b)]: the first unless the second is better *)
Definition num_max (a b : num) : num := if num_lt a b then b else a.
Definition num_min (a b : num) : num := if num_lt b a then b else a.

Definition num_floor (a : num) : result Z := match a with NInt z => Ok z | NFloat x => f64_floor x end.

Definition num_sum (l : list num) : result num := rfoldM num_add (NInt 0) l.

Example num_exact : num_lt (NInt (2 ^ 53)) (NFloat (f64_of_int (2 ^ 53 + 2))) = true /\
  num_eqb (NInt (2 ^ 53 + 1)) (NFloat (f64_of_int (2 ^ 53 + 1))) = false.
Proof. vm_compute. done. Qed.

(** ** Keys *)

Inductive keyval := KNum (n : num) | KStr (s : string).

Definition key_eqb (a b : keyval) : bool :=
  match a, b with
  | KNum a, KNum b => num_eqb a b
  | KStr a, KStr b => String.eqb a b
  | _, _ => false
  end.

Definition key_ltb (a b : keyval) : bool :=
  match a, b with
  | KNum a, KNum b => num_lt a b
  | KStr a, KStr b => String.ltb a b
  | _, _ => false
  end.

(** [<] of two tuples: decided by the first components that differ *)
Fixpoint keys_lt (a b : list keyval) : bool :=
  match a, b with
  | x :: a, y :: b => if key_eqb x y then keys_lt a b else key_ltb x y
  | [], _ :: _ => true
  | _, _ => false
  end.

(** A list with the keys of its elements. *)
Definition with_keys {A} (key : A -> result (list keyval)) : list A -> result (list (list keyval * A)) :=
  rmapM (fun a => let* k := key a in Ok (k, a)).

(** [min(l, key=key)]: the first of the least; [max]: the first of the greatest *)
Definition pick {A} (better : list keyval -> list keyval -> bool) (l : list (list keyval * A)) : option A :=
  match l with
  | [] => None
  | x :: l => Some (fold_left (fun best y => if better y.1 best.1 then y else best) l x).2
  end.

Definition py_min {A} (key : A -> result (list keyval)) (l : list A) : result (option A) :=
  let* l := with_keys key l in Ok (pick keys_lt l).

Definition py_max {A} (key : A -> result (list keyval)) (l : list A) : result (option A) :=
  let* l := with_keys key l in Ok (pick (fun a b => keys_lt b a) l).

(** [sorted(l, key=key)] *)
Definition py_sorted_by {A} (key : A -> result (list keyval)) (l : list A) : result (list A) :=
  let* l := with_keys key l in
  Ok (map snd (py_sorted (fun a b => negb (keys_lt b.1 a.1)) l)).

Lemma with_keys_snd {A} (key : A -> result (list keyval)) l l' : with_keys key l = Ok l' -> map snd l' = l.
Proof.
  revert l'. induction l as [|a l IH]; intros l' H; cbn in H; inv_ok; [done|]. cbn. f_equal. by apply IH.
Qed.

Lemma pick_elem {A} better (l : list (list keyval * A)) a : pick better l = Some a -> a ∈ map snd l.
Proof.
  destruct l as [|x l]; [done|]. intros [= <-]. cbn [map]. revert x. induction l as [|y l IH]; intros x; [left|].
  cbn [fold_left map]. destruct (better y.1 x.1); [right; apply IH|].
  specialize (IH x). apply elem_of_cons in IH as [->|IH]; [left|by do 2 right].
Qed.

Lemma py_min_elem {A} key (l : list A) a : py_min key l = Ok (Some a) -> a ∈ l.
Proof. unfold py_min. intros H. inv_ok. erewrite <- with_keys_snd by eauto. by eapply pick_elem. Qed.

Lemma py_max_elem {A} key (l : list A) a : py_max key l = Ok (Some a) -> a ∈ l.
Proof. unfold py_max. intros H. inv_ok. erewrite <- with_keys_snd by eauto. by eapply pick_elem. Qed.

Lemma py_sorted_by_perm {A} key (l l' : list A) : py_sorted_by key l = Ok l' -> Permutation l' l.
Proof.
  unfold py_sorted_by. intros H. inv_ok. rewrite (py_sorted_perm _ a). by erewrite with_keys_snd by eauto.
Qed.
