(* ===== verification/FteTypes.v ===== *)
(** * Task, attempt and split identities ([duckdb/runners/fte/fte_types.py])

    [FteTaskId], [FteTaskAttemptId] and [FteSplit] with their validating
    constructors, dict and text forms, and the check that a worker status
    names the attempt it was asked for. *)

From S2P Require Import Prelude PyStr PyVal.

#[local] Open Scope string_scope.
#[local] Open Scope list_scope.
#[local] Open Scope Z_scope.

(** A value that is either an object of the class or a raw payload. *)
Inductive id_ref (A : Type) : Type :=
| RObj (a : A)
| RVal (v : pyval).
Arguments RObj {A} a.
Arguments RVal {A} v.

Definition check_non_negative (name : string) (value : Z) : result Z :=
  if value <? 0 then Raise (ValueError (name +:+ " must be non-negative")) else Ok value.

(** ** Task ids *)

Record FteTaskId := MkFteTaskId {
  query_id : string;
  fragment_execution_id : Z;
  partition_id : Z;
}.

#[export] Instance FteTaskId_eq_dec : EqDecision FteTaskId.
Proof. solve_decision. Defined.
#[export] Instance FteTaskId_countable : Countable FteTaskId.
Proof.
  refine (inj_countable' (fun t => (t.(query_id), t.(fragment_execution_id), t.(partition_id)))
            (fun '(q, f, p) => MkFteTaskId q f p) _).
  by intros [].
Defined.

Module TaskId.
(** The dataclass constructor with [__post_init__]. *)
Definition new (query : string) (fragment partition : Z) : result FteTaskId :=
  let q := strip query in
  if String.eqb q "" then Raise (ValueError "query_id must be non-empty") else
  let* f := check_non_negative "fragment_execution_id" fragment in
  let* p := check_non_negative "partition_id" partition in
  Ok (MkFteTaskId q f p).

(** [__str__] *)
Definition to_str (t : FteTaskId) : string :=
  t.(query_id) +:+ String "." (str_of_int t.(fragment_execution_id))
               +:+ String "." (str_of_int t.(partition_id)).

Definition to_dict (t : FteTaskId) : list (pyval * pyval) :=
  pd_lit [("query_id", PStr t.(query_id));
          ("fragment_execution_id", PInt t.(fragment_execution_id));
          ("partition_id", PInt t.(partition_id))].

Definition from_dict (payload : list (pyval * pyval)) : result FteTaskId :=
  let* q := pd_index "query_id" payload in
  let* f := pd_index "fragment_execution_id" payload in
  let* f := py_int f in
  let* p := pd_index "partition_id" payload in
  let* p := py_int p in
  new (py_str q) f p.

Definition parse (value : string) : result FteTaskId :=
  match rsplit "." 2 value with
  | [q; f; p] =>
      let* f := py_int (PStr f) in
      let* p := py_int (PStr p) in
      new q f p
  | _ => Raise (ValueError "Invalid FTE task id")
  end.

Definition coerce (value : id_ref FteTaskId) : result FteTaskId :=
  match value with
  | RObj t => Ok t
  | RVal v =>
      match v with
      | PStr _ | PEnum _ _ => parse (py_str v)
      | PDict d =>
          match pd_find "task_id" d with
          | Some (PDict inner) => from_dict inner
          | _ => from_dict d
          end
      | _ => Raise (TypeError "Cannot coerce to FteTaskId")
      end
  end.
End TaskId.

(** ** Attempt ids *)

Record FteTaskAttemptId := MkFteTaskAttemptId {
  task_id : FteTaskId;
  attempt_id : Z;
}.

#[export] Instance FteTaskAttemptId_eq_dec : EqDecision FteTaskAttemptId.
Proof. solve_decision. Defined.
#[export] Instance FteTaskAttemptId_countable : Countable FteTaskAttemptId.
Proof.
  refine (inj_countable' (fun a => (a.(task_id), a.(attempt_id)))
            (fun '(t, a) => MkFteTaskAttemptId t a) _).
  by intros [].
Defined.

Module TaskAttemptId.
Definition new (task : id_ref FteTaskId) (attempt : Z) : result FteTaskAttemptId :=
  let* t := TaskId.coerce task in
  let* a := check_non_negative "attempt_id" attempt in
  Ok (MkFteTaskAttemptId t a).

(** [__str__] *)
Definition to_str (a : FteTaskAttemptId) : string :=
  TaskId.to_str a.(task_id) +:+ String "." (str_of_int a.(attempt_id)).

Definition to_dict (a : FteTaskAttemptId) : list (pyval * pyval) :=
  pd_set "attempt_id" (PInt a.(attempt_id)) (TaskId.to_dict a.(task_id)).

Definition from_dict (payload : list (pyval * pyval)) : result FteTaskAttemptId :=
  let* t := match pd_find "task_id" payload with
            | Some (PDict inner) => TaskId.from_dict inner
            | _ => TaskId.from_dict payload
            end in
  let* a := pd_index "attempt_id" payload in
  let* a := py_int a in
  new (RObj t) a.

Definition parse (value : string) : result FteTaskAttemptId :=
  match rsplit "." 3 value with
  | [q; f; p; a] =>
      let* f := py_int (PStr f) in
      let* p := py_int (PStr p) in
      let* t := TaskId.new q f p in
      let* a := py_int (PStr a) in
      new (RObj t) a
  | _ => Raise (ValueError "Invalid FTE task attempt id")
  end.

Definition coerce (value : id_ref FteTaskAttemptId) : result FteTaskAttemptId :=
  match value with
  | RObj a => Ok a
  | RVal v =>
      match v with
      | PStr _ | PEnum _ _ => parse (py_str v)
      | PDict d => from_dict d
      | _ => Raise (TypeError "Cannot coerce to FteTaskAttemptId")
      end
  end.
End TaskAttemptId.

(** ** Status identity *)

(** The identities a status carries, in the order they are checked. *)
Definition raw_identities (status : list (pyval * pyval)) : list (string * pyval) :=
  List.filter (fun fv => negb (is_none fv.2))
    [("task_id", pd_get "task_id" status); ("task_id_string", pd_get "task_id_string" status)].

Definition check_identity (expected : FteTaskAttemptId) (raw : pyval) : result unit :=
  match TaskAttemptId.coerce (RVal raw) with
  | Raise _ => Raise (ValueError "FTE status identity is malformed")
  | Ok actual =>
      raise_if (negb (bool_decide (actual = expected))) (RuntimeError "FTE status identity mismatch")
  end.

Definition validate_fte_status_identity
    (status : list (pyval * pyval)) (expected : id_ref FteTaskAttemptId) : result FteTaskAttemptId :=
  let* expected_attempt := TaskAttemptId.coerce expected in
  match raw_identities status with
  | [] => Raise (ValueError "FTE status identity missing")
  | ids =>
      let* _ := rmapM (fun fv => check_identity expected_attempt fv.2) ids in
      Ok expected_attempt
  end.

(** ** Splits *)

Record FteSplit := MkFteSplit {
  source_node_id : string;
  sequence_id : Z;
  kind : string;
  data : pyval;
  source_partition_id : Z;
  size_bytes : option Z;
  addresses : list string;
  remotely_accessible : bool;
  catalog : option string;
}.
#[export] Instance FteSplit_eta : Eta FteSplit :=
  fun r => MkFteSplit r.(source_node_id) r.(sequence_id) r.(kind) r.(data) r.(source_partition_id) r.(size_bytes) r.(addresses) r.(remotely_accessible) r.(catalog).

Module Split.
(** The dataclass constructor with [__post_init__]; the optional fields
    arrive unconverted. *)
Definition new (source : string) (seq : Z) (kind : string) (data : pyval)
    (source_partition : Z) (size : pyval) (addrs : list pyval) (remote : bool)
    (catalog : pyval) : result FteSplit :=
  let source := strip source in
  if String.eqb source "" then Raise (ValueError "source_node_id must be non-empty") else
  let kind := strip kind in
  if String.eqb kind "" then Raise (ValueError "split kind must be non-empty") else
  let* seq := check_non_negative "sequence_id" seq in
  let* source_partition := check_non_negative "source_partition_id" source_partition in
  let* size :=
    match size with
    | PNone => Ok None
    | v => let* n := py_int v in
           let* n := check_non_negative "size_bytes" n in Ok (Some n)
    end in
  Ok {| source_node_id := source; sequence_id := seq; kind := kind; data := data;
        source_partition_id := source_partition; size_bytes := size;
        addresses := map py_str addrs; remotely_accessible := remote;
        catalog := match catalog with PNone => None | v => Some (py_str v) end |}.

Definition to_dict (s : FteSplit) : list (pyval * pyval) :=
  pd_lit
    ([("source_node_id", PStr s.(source_node_id)); ("sequence_id", PInt s.(sequence_id));
      ("kind", PStr s.(kind))]
     ++ (if is_none s.(data) then [] else [("data", s.(data))])
     ++ [("source_partition_id", PInt s.(source_partition_id))]
     ++ match s.(size_bytes) with None => [] | Some n => [("size_bytes", PInt n)] end
     ++ match s.(addresses) with [] => [] | l => [("addresses", PList (map PStr l))] end
     ++ (if s.(remotely_accessible) then [] else [("remotely_accessible", PBool false)])
     ++ match s.(catalog) with None => [] | Some c => [("catalog", PStr c)] end).

Definition from_dict (source : string) (payload : list (pyval * pyval)) : result FteSplit :=
  let src := match pd_find "source_node_id" payload with Some v => py_str v | None => source end in
  let* seq := pd_index "sequence_id" payload in
  let* seq := py_int seq in
  let* k := pd_index "kind" payload in
  let* part := match pd_find "source_partition_id" payload with
               | Some v => py_int v | None => Ok 0 end in
  let* addrs := py_iter (py_or (pd_get "addresses" payload) (PTuple [])) in
  new src seq (py_str k) (pd_get "data" payload) part (pd_get "size_bytes" payload) addrs
    (match pd_find "remotely_accessible" payload with Some v => truthy v | None => true end)
    (pd_get "catalog" payload).
End Split.

(** ** Well-formed values: what the constructors establish *)

Definition wf_task_id (t : FteTaskId) : Prop :=
  strip t.(query_id) = t.(query_id) /\ t.(query_id) <> "" /\
  0 <= t.(fragment_execution_id) /\ 0 <= t.(partition_id).

Definition wf_attempt_id (a : FteTaskAttemptId) : Prop :=
  wf_task_id a.(task_id) /\ 0 <= a.(attempt_id).

Definition wf_split (s : FteSplit) : Prop :=
  strip s.(source_node_id) = s.(source_node_id) /\ s.(source_node_id) <> "" /\
  strip s.(kind) = s.(kind) /\ s.(kind) <> "" /\
  0 <= s.(sequence_id) /\ 0 <= s.(source_partition_id) /\
  match s.(size_bytes) with None => True | Some n => 0 <= n end.

Lemma check_non_negative_ok name z r : check_non_negative name z = Ok r <-> r = z /\ 0 <= z.
Proof.
  unfold check_non_negative. destruct (Z.ltb_spec z 0); split; intros H'; try lia; try discriminate.
  - injection H' as <-. lia.
  - destruct H' as [-> ?]. done.
Qed.

Lemma check_non_negative_id name z : 0 <= z -> check_non_negative name z = Ok z.
Proof. intros. by apply check_non_negative_ok. Qed.

Lemma task_id_new_wf t : wf_task_id t ->
  TaskId.new t.(query_id) t.(fragment_execution_id) t.(partition_id) = Ok t.
Proof.
  intros (Hs & Hne & Hf & Hp). unfold TaskId.new. rewrite Hs.
  apply String.eqb_neq in Hne as ->.
  rewrite !check_non_negative_id by done. by destruct t.
Qed.

Lemma task_id_new_ok q f p t : TaskId.new q f p = Ok t -> wf_task_id t.
Proof.
  unfold TaskId.new. destruct (String.eqb_spec (strip q) ""); [done|].
  intros H. inv_ok. apply check_non_negative_ok in H0 as [-> ?], H1 as [-> ?].
  split_and!; simpl; auto using strip_idemp.
Qed.

Lemma attempt_id_new_ok t a x : wf_task_id t -> TaskAttemptId.new (RObj t) a = Ok x -> wf_attempt_id x.
Proof.
  unfold TaskAttemptId.new. simpl. intros Ht H. inv_ok.
  apply check_non_negative_ok in H0 as [-> ?]. by split.
Qed.

Lemma task_id_from_dict_ok d t : TaskId.from_dict d = Ok t -> wf_task_id t.
Proof. unfold TaskId.from_dict. intros H. inv_ok. eapply task_id_new_ok, H. Qed.

Lemma attempt_id_parse_ok v a : TaskAttemptId.parse v = Ok a -> wf_attempt_id a.
Proof.
  unfold TaskAttemptId.parse. repeat case_match; try discriminate. intros H'. inv_ok.
  eapply attempt_id_new_ok; [|exact H']. by eapply task_id_new_ok.
Qed.

(** C40: whatever payload an attempt id is coerced from, a dotted string, a
    flat or nested dictionary or an object, the id that comes out is well
    formed: its query id is a non-empty stripped text and its numbers are
    not negative.  Malformed payloads raise. *)
Theorem attempt_id_coerce_ok v a : TaskAttemptId.coerce (RVal v) = Ok a -> wf_attempt_id a.
Proof.
  unfold TaskAttemptId.coerce. destruct v; try discriminate; try apply attempt_id_parse_ok.
  unfold TaskAttemptId.from_dict. intros H. inv_ok.
  eapply attempt_id_new_ok; [|exact H].
  repeat case_match; by eapply task_id_from_dict_ok.
Qed.

Lemma attempt_id_coerce_ok_witness : wf_attempt_id (MkFteTaskAttemptId (MkFteTaskId "q.1" 2 3) 4).
Proof. apply (attempt_id_coerce_ok (PStr "q.1.2.3.4")). vm_compute. reflexivity. Defined.

Lemma py_int_str_of_int z : 0 <= z -> py_int (PStr (str_of_int z)) = Ok z.
Proof. intros. simpl. by rewrite int_of_str_of_int. Qed.

Lemma sapp_assoc (a b c : string) : (a +:+ b) +:+ c = a +:+ (b +:+ c).
Proof. induction a as [|x a IH]; [done|]. exact (f_equal (String x) IH). Qed.

(** ** Properties *)

(** The text forms are dot-separated fields after the query id. *)
Lemma task_id_to_str_fields t :
  TaskId.to_str t =
  foldl (fun acc f => acc +:+ String "." f) t.(query_id)
    [str_of_int t.(fragment_execution_id); str_of_int t.(partition_id)].
Proof. unfold TaskId.to_str. simpl. by rewrite sapp_assoc. Qed.

Lemma attempt_id_to_str_fields a :
  TaskAttemptId.to_str a =
  foldl (fun acc f => acc +:+ String "." f) a.(task_id).(query_id)
    [str_of_int a.(task_id).(fragment_execution_id); str_of_int a.(task_id).(partition_id);
     str_of_int a.(attempt_id)].
Proof. unfold TaskAttemptId.to_str. by rewrite task_id_to_str_fields. Qed.

Lemma task_id_parse_to_str t : wf_task_id t -> TaskId.parse (TaskId.to_str t) = Ok t.
Proof.
  intros Hwf. pose proof Hwf as (_ & _ & Hf & Hp).
  unfold TaskId.parse. rewrite task_id_to_str_fields.
  rewrite (rsplit_fields "." t.(query_id) [_; _]).
  - rewrite !py_int_str_of_int by done. by apply task_id_new_wf.
  - repeat constructor; by apply str_of_int_no_dot.
  - done.
Qed.

(** C39: The text form of an attempt id, [query.fragment.partition.attempt],
    parses back to the same id, whatever dots the query id contains. *)
Theorem attempt_id_parse_to_str a : wf_attempt_id a ->
  TaskAttemptId.parse (TaskAttemptId.to_str a) = Ok a.
Proof.
  intros [Hwf Ha]. pose proof Hwf as (_ & _ & Hf & Hp).
  unfold TaskAttemptId.parse. rewrite attempt_id_to_str_fields.
  rewrite (rsplit_fields "." a.(task_id).(query_id) [_; _; _]).
  - rewrite !py_int_str_of_int by done. simpl. rewrite task_id_new_wf by done.
    unfold TaskAttemptId.new. simpl. rewrite check_non_negative_id by done. by destruct a.
  - repeat constructor; by apply str_of_int_no_dot.
  - done.
Qed.

Lemma attempt_id_parse_to_str_witness :
  TaskAttemptId.parse "tpch.q1.7.3.2" =
  Ok (MkFteTaskAttemptId (MkFteTaskId "tpch.q1" 7 3) 2).
Proof.
  apply (attempt_id_parse_to_str (MkFteTaskAttemptId (MkFteTaskId "tpch.q1" 7 3) 2)).
  repeat split; simpl; try reflexivity; try lia; discriminate.
Defined.

Lemma attempt_id_from_to_dict a : wf_attempt_id a ->
  TaskAttemptId.from_dict (TaskAttemptId.to_dict a) = Ok a.
Proof.
  intros [Hwf Ha]. destruct a as [[q f p] n].
  pose proof (task_id_new_wf _ Hwf) as Hn. simpl in Hn, Ha.
  unfold TaskAttemptId.from_dict, TaskId.from_dict. simpl. rewrite Hn. simpl.
  unfold TaskAttemptId.new. simpl. by rewrite check_non_negative_id.
Qed.

Lemma split_new_ok src seq k d part size addrs remote cat s :
  Split.new src seq k d part size addrs remote cat = Ok s -> wf_split s.
Proof.
  unfold Split.new.
  destruct (String.eqb_spec (strip src) ""); [done|].
  destruct (String.eqb_spec (strip k) ""); [done|].
  intros H. inv_ok. apply check_non_negative_ok in H0 as [-> ?], H1 as [-> ?].
  split_and!; simpl; auto using strip_idemp.
  destruct size; inv_ok; try done.
  all: match goal with H : check_non_negative _ _ = Ok _ |- _ =>
         apply check_non_negative_ok in H as [-> ?] end; done.
Qed.

(** The fields of a constructed split. *)
Lemma split_new_fields src seq k d part size addrs remote cat s :
  Split.new src seq k d part size addrs remote cat = Ok s ->
  s.(source_node_id) = strip src /\ s.(sequence_id) = seq /\ s.(source_partition_id) = part.
Proof.
  unfold Split.new.
  destruct (String.eqb (strip src) ""); [done|].
  destruct (String.eqb (strip k) ""); [done|].
  intros H. inv_ok. apply check_non_negative_ok in H0 as [-> ?], H1 as [-> ?]. done.
Qed.

Lemma split_from_dict_fields src d s :
  Split.from_dict src d = Ok s ->
  wf_split s /\
  s.(source_node_id) = strip (match pd_find "source_node_id" d with Some v => py_str v | None => src end) /\
  exists v, pd_find "sequence_id" d = Some v /\ py_int v = Ok s.(sequence_id).
Proof.
  unfold Split.from_dict. intros H. inv_ok.
  pose proof (split_new_ok _ _ _ _ _ _ _ _ _ _ H) as Hwf.
  apply split_new_fields in H as (Hs & Hq & _). subst.
  unfold pd_index in H0. destruct (pd_find "sequence_id" d) as [v|]; inv_ok.
  split_and!; [done|done|]. eauto.
Qed.

Lemma split_new_wf s size addrs cat :
  wf_split s ->
  size = match s.(size_bytes) with None => PNone | Some n => PInt n end ->
  map py_str addrs = s.(addresses) ->
  cat = match s.(catalog) with None => PNone | Some c => PStr c end ->
  Split.new s.(source_node_id) s.(sequence_id) s.(kind) s.(data) s.(source_partition_id)
    size addrs s.(remotely_accessible) cat = Ok s.
Proof.
  intros (Hs & Hsn & Hk & Hkn & Hq & Hp & Hz) -> Haddr ->. unfold Split.new.
  rewrite Hs, Hk. apply String.eqb_neq in Hsn as ->, Hkn as ->.
  rewrite !check_non_negative_id by done. simpl. rewrite Haddr.
  destruct s as [a b c d e sz ad r ct]; simpl in *.
  destruct sz as [n|]; simpl; [rewrite check_non_negative_id by done|]; destruct ct; done.
Qed.

Lemma map_py_str_PStr l : map py_str (map PStr l) = l.
Proof. rewrite map_map. apply map_id. Qed.

(** The items of a split's dict form, key by key. *)
Lemma split_from_to_dict src s : wf_split s -> Split.from_dict src (Split.to_dict s) = Ok s.
Proof.
  intros Hwf. unfold Split.from_dict, Split.to_dict.
  pose proof (split_new_wf s (match s.(size_bytes) with None => PNone | Some n => PInt n end)
    (map PStr s.(addresses)) (match s.(catalog) with None => PNone | Some c => PStr c end)
    Hwf eq_refl (map_py_str_PStr _) eq_refl) as Hnew.
  destruct s as [a b c d e sz ad r ct]; simpl in *.
  destruct (is_none d) eqn:Hd; [destruct d; try discriminate|];
    destruct sz, ad, r, ct; exact Hnew.
Qed.

(** A split that the constructor accepted survives the trip through its
    dict form, for any default source passed to [from_dict]. *)
Theorem split_dict_roundtrip src seq k d part size addrs remote cat s dflt :
  Split.new src seq k d part size addrs remote cat = Ok s ->
  Split.from_dict dflt (Split.to_dict s) = Ok s.
Proof. intros H. by eapply split_from_to_dict, split_new_ok. Qed.

Lemma split_dict_roundtrip_witness :
  exists s, Split.new " scan " 4 "scan_task" (PStr "f.parquet") 2 (PInt 64)
              [PStr "10.0.0.1"] false (PStr "hive") = Ok s /\
            Split.from_dict "other" (Split.to_dict s) = Ok s.
Proof.
  eexists. split; [vm_compute; reflexivity|].
  apply (split_dict_roundtrip " scan " 4 "scan_task" (PStr "f.parquet") 2 (PInt 64)
           [PStr "10.0.0.1"] false (PStr "hive")).
  vm_compute. reflexivity.
Defined.

Lemma check_identity_ok e v : check_identity e v = Ok tt <-> TaskAttemptId.coerce (RVal v) = Ok e.
Proof.
  unfold check_identity. destruct (TaskAttemptId.coerce (RVal v)) as [a|]; [|done].
  rewrite raise_if_ok, negb_false_iff, bool_decide_eq_true. split; congruence.
Qed.

Lemma check_identities_ok e ids :
  is_ok (rmapM (fun fv : string * pyval => check_identity e fv.2) ids) = true <->
  Forall (fun fv => TaskAttemptId.coerce (RVal fv.2) = Ok e) ids.
Proof.
  induction ids as [|fv ids IH]; simpl; [by split|].
  rewrite Forall_cons, <- IH. pose proof (check_identity_ok e fv.2).
  destruct (check_identity e fv.2) as [[]|]; simpl; [|naive_solver].
  destruct (rmapM _ ids); naive_solver.
Qed.

(** [validate_fte_status_identity] accepts a status exactly when it
    carries at least one identity and every identity it carries, in either
    field and either form, denotes the expected attempt; it then returns
    that attempt. *)
Theorem validate_identity_iff status e a :
  validate_fte_status_identity status (RObj e) = Ok a <->
  a = e /\ raw_identities status <> [] /\
  Forall (fun fv => TaskAttemptId.coerce (RVal fv.2) = Ok e) (raw_identities status).
Proof.
  unfold validate_fte_status_identity. cbn [TaskAttemptId.coerce rbind].
  rewrite <- check_identities_ok.
  destruct (raw_identities status) as [|fv ids] eqn:E.
  - split; [discriminate|]. by intros (_ & ? & _).
  - rewrite <- E. destruct (rmapM _ (raw_identities status)) as [us|ex]; cbn [rbind is_ok].
    + rewrite E. split; [intros Ha; injection Ha as ->; by split_and!|]. by intros (-> & _).
    + split; [discriminate|]. by intros (_ & _ & ?).
Qed.
