(* ===== verification/FteState.v ===== *)
(** * Task and partition states, execution classes, configuration

    Models [duckdb/runners/fte/fte_state.py] (states, execution classes and
    how they are read from metadata), the environment-variable readers of
    [fte_config.py], [fte_update_batch.py] and [fte_descriptor.py], and the
    payload size estimate of [fte_update_batch.py]. *)

From S2P Require Import Prelude PyStr PyVal FteTypes.

#[local] Open Scope string_scope.
#[local] Open Scope list_scope.
#[local] Open Scope Z_scope.

(** ** States *)

Inductive FteTaskState :=
  PLANNED | QUEUED | RUNNING | FINISHED | FAILED | CANCELED | ABORTED.

Inductive FtePartitionState := P_OPEN | P_SEALED | P_RUNNING | P_FINISHED | P_FAILED.

Inductive FteTaskExecutionClass := STANDARD | SPECULATIVE | EAGER_SPECULATIVE.

#[export] Instance FteTaskState_eq_dec : EqDecision FteTaskState.
Proof. solve_decision. Defined.
#[export] Instance FtePartitionState_eq_dec : EqDecision FtePartitionState.
Proof. solve_decision. Defined.
#[export] Instance FteTaskExecutionClass_eq_dec : EqDecision FteTaskExecutionClass.
Proof. solve_decision. Defined.

(** The enum constructor [FteTaskState(text)]. *)
Definition task_state_of_value (text : string) : result FteTaskState :=
  if String.eqb text "PLANNED" then Ok PLANNED
  else if String.eqb text "QUEUED" then Ok QUEUED
  else if String.eqb text "RUNNING" then Ok RUNNING
  else if String.eqb text "FINISHED" then Ok FINISHED
  else if String.eqb text "FAILED" then Ok FAILED
  else if String.eqb text "CANCELED" then Ok CANCELED
  else if String.eqb text "ABORTED" then Ok ABORTED
  else Raise (ValueError "is not a valid FteTaskState").

(** [_TERMINAL_STATES] *)
Definition terminal_state (s : FteTaskState) : bool :=
  match s with FINISHED | FAILED | CANCELED | ABORTED => true | _ => false end.

Module ExecutionClass.
Definition value (c : FteTaskExecutionClass) : string :=
  match c with
  | STANDARD => "STANDARD"
  | SPECULATIVE => "SPECULATIVE"
  | EAGER_SPECULATIVE => "EAGER_SPECULATIVE"
  end.

(** The enum constructor [FteTaskExecutionClass(text)]. *)
Definition of_value (text : string) : result FteTaskExecutionClass :=
  if String.eqb text "STANDARD" then Ok STANDARD
  else if String.eqb text "SPECULATIVE" then Ok SPECULATIVE
  else if String.eqb text "EAGER_SPECULATIVE" then Ok EAGER_SPECULATIVE
  else Raise (ValueError "unknown FTE task execution class").

Definition coerce_text (v : pyval) : result FteTaskExecutionClass :=
  let text := replace_char " " "_" (replace_char "-" "_" (upper (strip (py_str v)))) in
  if String.eqb text "" then Ok STANDARD
  else if String.eqb text "NORMAL" then Ok STANDARD
  else if String.eqb text "NON_SPECULATIVE" then Ok STANDARD
  else if String.eqb text "EAGER" then Ok EAGER_SPECULATIVE
  else of_value text.

Definition coerce (value : id_ref FteTaskExecutionClass) : result FteTaskExecutionClass :=
  match value with
  | RObj c => Ok c
  | RVal PNone => Ok STANDARD
  | RVal (PEnum c v) =>
      if String.eqb c "FteTaskExecutionClass" then of_value v else coerce_text (PEnum c v)
  | RVal v => coerce_text v
  end.

Definition is_speculative (c : FteTaskExecutionClass) : bool :=
  match c with STANDARD => false | _ => true end.

Definition can_transition_to (self target : FteTaskExecutionClass) : bool :=
  if bool_decide (self = STANDARD) then bool_decide (target = STANDARD)
  else bool_decide (target = self) || bool_decide (target = STANDARD).

(** [_TASK_EXECUTION_CLASS_KEYS] *)
Definition keys : list string :=
  ["fte_task_execution_class"; "task_execution_class"; "taskExecutionClass"; "execution_class"].

(** A metadata value that is neither [None] nor the empty string. *)
Definition meaningful (v : pyval) : bool :=
  negb (is_none v) && negb (py_eqb v (PStr "")).

(** The first meaningful value under one of the keys, first mapping first. *)
Fixpoint first_in (ks : list string) (metadata : list (pyval * pyval)) : option pyval :=
  match ks with
  | [] => None
  | k :: ks =>
      match pd_find k metadata with
      | Some v => if meaningful v then Some v else first_in ks metadata
      | None => first_in ks metadata
      end
  end.

Fixpoint first_meaningful (items : list (list (pyval * pyval))) : option pyval :=
  match items with
  | [] => None
  | m :: items =>
      match first_in keys m with Some v => Some v | None => first_meaningful items end
  end.

Definition metadata_present (items : list (list (pyval * pyval))) : bool :=
  match first_meaningful items with Some _ => true | None => false end.

Definition from_metadata (items : list (list (pyval * pyval))) : result FteTaskExecutionClass :=
  match first_meaningful items with
  | Some v => coerce (RVal v)
  | None => Ok STANDARD
  end.

Lemma can_transition_iff a b : can_transition_to a b = true <-> b = a \/ b = STANDARD.
Proof. destruct a, b; vm_compute; naive_solver. Qed.

Lemma coerce_value c : coerce (RVal (PStr (value c))) = Ok c.
Proof. by destruct c. Qed.
End ExecutionClass.

(** ** Integers from the environment *)

(** [int(raw)] of an environment variable with a default for text that is no
    integer, clamped from below. *)
Definition env_int (lower dflt : Z) (raw : option string) : Z :=
  match raw with
  | None => Z.max lower dflt
  | Some text => match int_of_str text with Some v => Z.max lower v | None => dflt end
  end.

Definition fte_split_queue_max_buffered_splits : option string -> Z := env_int 1 1024.
Definition fte_task_update_max_splits : option string -> Z := env_int 1 256.
Definition fte_task_update_max_payload_bytes : option string -> Z := env_int 1 (8 * 1024 * 1024).
Definition fte_descriptor_max_in_memory : option string -> Z := env_int 0 0.

(** [FteWorkerAdmissionConfig.__post_init__] *)
Definition worker_admission_config_ok
    (max_running_tasks : Z) (mode : string) (memory_budget_bytes : Z)
    (task_memory_bytes : option Z) : result unit :=
  let* _ := raise_if (max_running_tasks <=? 0) (ValueError "max_running_tasks must be positive") in
  let* _ := raise_if (negb (bool_decide (mode ∈ ["lease"; "native"; "test"])))
              (ValueError "FTE admission mode must be lease, native, or test") in
  let* _ := raise_if (memory_budget_bytes <=? 0) (ValueError "memory_budget_bytes must be positive") in
  raise_if (match task_memory_bytes with Some n => n <=? 0 | None => false end)
    (ValueError "task_memory_bytes must be positive when provided").

(** ** Payload size estimate *)

Fixpoint estimated_payload_bytes (v : pyval) : Z :=
  match v with
  | PNone => 1
  | PBytes s => Z.of_nat (String.length s)
  | PStr s | PEnum _ s => Z.of_nat (String.length s)
  | PBool _ => 1
  | PInt _ => 8
  | PDict d =>
      (fix go d := match d with
                   | [] => 0
                   | (k, v) :: d => estimated_payload_bytes k + estimated_payload_bytes v + go d
                   end) d
  | PList l | PTuple l | PSet l =>
      (fix go l := match l with [] => 0 | x :: l => estimated_payload_bytes x + go l end) l
  | PObj _ text => Z.of_nat (String.length text)
  end.

Lemma estimated_payload_bytes_nonneg v : 0 <= estimated_payload_bytes v.
Proof.
  induction v as [| | | | | |l Hl|l Hl|l Hl|d Hd|] using pyval_nested_ind; simpl; try lia.
  1-3: induction Hl; lia.
  induction Hd as [|[k w] d [Hk Hw] Hd IH]; simpl in *; lia.
Qed.

Lemma env_int_lower lower dflt raw : lower <= dflt -> lower <= env_int lower dflt raw.
Proof. unfold env_int. repeat case_match; lia. Qed.
