(* ===== verification/FteFailures.v ===== *)
(** * Classification of task failures ([duckdb/runners/fte/fte_failures.py])

    A failure payload is a nested mapping (or plain text).  The functions
    here look a field up through the wrapper levels, and decide whether a
    failure may be retried and whether it is a memory failure. *)

From S2P Require Import Prelude PyStr PyVal FteTypes.

#[local] Open Scope string_scope.
#[local] Open Scope list_scope.
#[local] Open Scope Z_scope.

(** [fte_config._FALSE_VALUES], [_TRUE_VALUES] *)
Definition false_values : list string := ["0"; "false"; "no"; "off"].
Definition true_values : list string := ["1"; "true"; "yes"; "on"].

(** [" ".join(part for part in parts if part)] *)
Definition space_join (parts : list string) : string :=
  join " " (List.filter (fun p => negb (String.eqb p "")) parts).

Definition failure_text_keys : list string :=
  ["error_code"; "errorCode"; "code"; "type"; "message"; "error"; "exception"].

Fixpoint failure_text (payload : pyval) : string :=
  match payload with
  | PNone => ""
  | PDict d =>
      let sub := (fix go d := match d with
                              | [] => []
                              | (k, v) :: d => (k, PStr (failure_text v)) :: go d
                              end) d in
      let parts :=
        flat_map (fun k => match pd_get k d with PNone => [] | v => [py_str v] end)
          failure_text_keys in
      let nested :=
        match pd_get "failure" d with
        | PNone => []
        | _ => [py_str (pd_get "failure" sub)]
        end in
      space_join (parts ++ nested)
  | v => py_str v
  end.

Definition normalized_error_token (v : pyval) : string :=
  replace_char " " "_" (replace_char "-" "_" (upper (strip (py_str (py_or v (PStr "")))))).

(** The first of the keys that is present in the mapping. *)
Fixpoint find_key (keys : list string) (d : list (pyval * pyval)) : option pyval :=
  match keys with
  | [] => None
  | k :: keys => match pd_find k d with Some v => Some v | None => find_key keys d end
  end.

Definition nested_keys : list string := ["failure"; "status"; "error"; "error_code"; "errorCode"].

(** The first of the values that is not [None]. *)
Fixpoint first_not_none (l : list pyval) : pyval :=
  match l with
  | [] => PNone
  | v :: l => if is_none v then first_not_none l else v
  end.

Fixpoint failure_field (keys : list string) (payload : pyval) : pyval :=
  match payload with
  | PDict d =>
      match find_key keys d with
      | Some v => v
      | None =>
          let sub := (fix go d := match d with
                                  | [] => []
                                  | (k, v) :: d => (k, failure_field keys v) :: go d
                                  end) d in
          first_not_none (map (fun k => pd_get k sub) nested_keys)
      end
  | _ => PNone
  end.

(** A flag given as a boolean or as text; [None] when it is neither. *)
Definition flag_value (v : pyval) : option bool :=
  match v with
  | PNone => None
  | PBool b => Some b
  | v =>
      let text := lower (strip (py_str v)) in
      if bool_decide (text ∈ true_values) then Some true
      else if bool_decide (text ∈ false_values) then Some false
      else None
  end.

Definition failure_explicit_retryable (payload : pyval) : option bool :=
  flag_value (failure_field ["retryable"; "is_retryable"; "isRetryable"] payload).

Definition failure_error_type (payload : pyval) : string :=
  let token := normalized_error_token
    (failure_field ["error_type"; "errorType"; "error_code_type"; "errorCodeType"; "type"] payload) in
  if bool_decide (token ∈ ["USER_ERROR"; "INTERNAL_ERROR"; "EXTERNAL"]) then token else "".

Definition failure_code (payload : pyval) : string :=
  normalized_error_token (failure_field ["error_code"; "errorCode"; "code"; "name"] payload).

Definition is_user_error_failure (payload : pyval) : bool :=
  if String.eqb (failure_error_type payload) "USER_ERROR" then true
  else
    let code := failure_code payload in
    startswith code "USER_ERROR" || endswith code "_USER_ERROR".

Definition is_fatal_failure (payload : pyval) : bool :=
  match flag_value (failure_field ["fatal"; "is_fatal"; "isFatal"] payload) with
  | Some b => b
  | None =>
      let code := failure_code payload in
      startswith code "FATAL" || endswith code "_FATAL"
  end.

Definition failure_allows_retry (payload : pyval) (dflt : bool) : bool :=
  match failure_explicit_retryable payload with
  | Some b => b
  | None => if is_user_error_failure payload || is_fatal_failure payload then false else dflt
  end.

Definition missing_output_stats_failure (a : FteTaskAttemptId) : pyval :=
  PDict (pd_lit
    [("error_type", PStr "INTERNAL_ERROR");
     ("error_code", PStr "MISSING_SPOOLING_OUTPUT_STATS");
     ("message", PStr ("Treating FINISHED task " +:+ TaskAttemptId.to_str a +:+
                       " as FAILED because spooling output stats are missing"))]).

Definition memory_tokens : list string :=
  ["out_of_memory"; "out of memory"; "oom"; "memory limit"; "exceeded_local_memory"].

Definition is_memory_failure (payload : pyval) : bool :=
  let text := lower (failure_text payload) in
  existsb (fun token => contains text token) memory_tokens.

(** ** Properties *)

(** One wrapper level: the payload as the value of a nesting key. *)
Definition wrap (k : string) (payload : pyval) : pyval := PDict (pd_lit [(k, payload)]).

Lemma first_not_none_single v : first_not_none [v] = v.
Proof. by destruct v. Qed.

Lemma failure_field_wrap keys k p :
  k ∈ nested_keys -> k ∉ keys -> failure_field keys (wrap k p) = failure_field keys p.
Proof.
  intros Hk Hn. unfold wrap. cbn [failure_field pd_lit map fst snd].
  assert (find_key keys [(PStr k, p)] = None) as ->.
  { clear Hk. induction keys as [|x keys IH]; simpl; [done|].
    apply not_elem_of_cons in Hn as [Hx Hn]. rewrite key_is_str.
    apply String.eqb_neq in Hx as ->. by apply IH. }
  unfold nested_keys in *. set (v := failure_field keys p).
  repeat (apply elem_of_cons in Hk as [->|Hk]; [simpl; unfold pd_get; simpl; by destruct v|]).
  by apply elem_of_nil in Hk.
Qed.

(** The retry verdict sees through wrappers: putting a failure payload
    under a [failure] or [status] key, at any depth, does not change whether
    the failure may be retried. *)
Theorem failure_allows_retry_wrap ks p dflt :
  Forall (fun k => k = "failure" \/ k = "status") ks ->
  failure_allows_retry (foldr wrap p ks) dflt = failure_allows_retry p dflt.
Proof.
  intros Hks. induction Hks as [|k ks Hk _ IH]; [done|]. simpl. rewrite <- IH. clear IH.
  generalize (foldr wrap p ks) as q. intros q.
  unfold failure_allows_retry, failure_explicit_retryable, is_user_error_failure,
    is_fatal_failure, failure_error_type, failure_code.
  rewrite !failure_field_wrap; [done|..].
  all: destruct Hk as [-> | ->]; apply (bool_decide_unpack _); vm_compute; exact I.
Qed.

Lemma failure_allows_retry_wrap_witness :
  failure_allows_retry
    (foldr wrap (PDict (pd_lit [("error_type", PStr "user-error")])) ["status"; "failure"]) true
  = false.
Proof.
  rewrite (failure_allows_retry_wrap ["status"; "failure"]).
  - vm_compute. reflexivity.
  - constructor; [by right|]. constructor; [by left|constructor].
Defined.
