(* ===== verification/SplitAssigner.v ===== *)
(** * Split assignment: shared parts and the single-partition assigner

    Models the first half of [duckdb/runners/fte/fte_split_assigner.py]: the
    result records an assigner returns, the helpers shared by the three
    assigners, and [SingleSplitAssigner].  A Python set is a [gset]; where
    the code iterates over one, the model visits its [elements], and no
    theorem depends on that order. *)

From S2P Require Import Prelude PyStr PyVal FteTypes.

#[local] Open Scope string_scope.
#[local] Open Scope list_scope.
#[local] Open Scope Z_scope.

(** ** Result records *)

Record NodeRequirements := MkNodeRequirements {
  nr_catalog : option string;
  nr_host : option string;
  nr_remotely_accessible : bool;
}.
#[export] Instance NodeRequirements_eq_dec : EqDecision NodeRequirements.
Proof. solve_decision. Defined.

Record PartitionInfo := MkPartitionInfo {
  pi_partition_id : Z;
  pi_node_requirements : option NodeRequirements;
}.

Record PartitionUpdate := MkPartitionUpdate {
  pu_partition_id : Z;
  pu_source_node_id : string;
  pu_splits : list FteSplit;
  pu_no_more_splits : bool;
  pu_ready_for_scheduling : bool;
}.
#[export] Instance PartitionUpdate_eta : Eta PartitionUpdate :=
  fun r => MkPartitionUpdate r.(pu_partition_id) r.(pu_source_node_id) r.(pu_splits) r.(pu_no_more_splits) r.(pu_ready_for_scheduling).

Record AssignmentResult := MkAssignmentResult {
  partitions_added : list PartitionInfo;
  partition_updates : list PartitionUpdate;
  sealed_partitions : list Z;
  no_more_partitions : bool;
}.
#[export] Instance AssignmentResult_eta : Eta AssignmentResult :=
  fun r => MkAssignmentResult r.(partitions_added) r.(partition_updates) r.(sealed_partitions) r.(no_more_partitions).

Definition empty_result : AssignmentResult := MkAssignmentResult [] [] [] false.

Definition is_empty {A} (l : list A) : bool := match l with [] => true | _ => false end.

(** [PartitionUpdate(...)] with [__post_init__] *)
Definition new_partition_update (partition : Z) (source : string) (splits : list FteSplit)
    (no_more ready : bool) : result PartitionUpdate :=
  let* _ := raise_if (ready && is_empty splits)
    (ValueError "partition update with empty splits marked as ready for scheduling") in
  Ok (MkPartitionUpdate partition source splits no_more ready).

(** ** Helpers *)

(** [payload.setdefault(k, v)] *)
Definition pd_setdefault (k : string) (v : pyval) (d : list (pyval * pyval)) :=
  if pd_mem k d then d else d ++ [(PStr k, v)].

Fixpoint splits_from_inputs (source : string) (inputs : list (list (pyval * pyval)))
    (next_sequence : Z) : result (list FteSplit * Z) :=
  match inputs with
  | [] => Ok ([], next_sequence)
  | item :: inputs =>
      let payload := pd_setdefault "sequence_id" (PInt next_sequence) item in
      let* split := Split.from_dict source payload in
      let* (splits, next) :=
        splits_from_inputs source inputs (Z.max next_sequence (split.(sequence_id) + 1)) in
      Ok (split :: splits, next)
  end.

Definition split_size_bytes (split : FteSplit) (standard_split_size_bytes : Z) : Z :=
  match split.(size_bytes) with Some n => n | None => standard_split_size_bytes end.

Definition append_update (res : AssignmentResult) (partition : Z) (source : string)
    (splits : list FteSplit) (no_more ready emit_empty : bool) : result AssignmentResult :=
  if negb emit_empty && is_empty splits && negb no_more then Ok res
  else
    let* u := new_partition_update partition source splits no_more ready in
    Ok (res <| partition_updates ::= fun l => l ++ [u] |>).

Definition append_seal (res : AssignmentResult) (partition : Z) : AssignmentResult :=
  if bool_decide (partition ∈ res.(sealed_partitions)) then res
  else res <| sealed_partitions ::= fun l => l ++ [partition] |>.

(** The splits an assignment result delivers to one source, in order. *)
Definition delivered (source : string) (us : list PartitionUpdate) : list FteSplit :=
  flat_map (fun u => if String.eqb u.(pu_source_node_id) source then u.(pu_splits) else []) us.

(** ** [SingleSplitAssigner] *)

Record SingleSplitAssigner := MkSingle {
  s_partition_added : bool;
  s_source_sequences : gmap string Z;
  s_all_sources : gset string;
  s_completed_sources : gset string;
}.
#[export] Instance SingleSplitAssigner_eta : Eta SingleSplitAssigner :=
  fun r => MkSingle r.(s_partition_added) r.(s_source_sequences) r.(s_all_sources) r.(s_completed_sources).

Module Single.

Definition new (all_sources : list string) : SingleSplitAssigner :=
  MkSingle false ∅ (list_to_set all_sources) ∅.

Definition assign (source : string) (inputs : list (list (pyval * pyval))) (no_more_inputs : bool)
    : ST SingleSplitAssigner AssignmentResult :=
  let! added := sgets s_partition_added in
  let! _ := if added then sret tt else smodify (fun s => s <| s_partition_added := true |>) in
  let res := if added then empty_result
             else MkAssignmentResult [MkPartitionInfo 0 None] [] [] true in
  let! seqs := sgets s_source_sequences in
  let! (splits, next) := slift (splits_from_inputs source inputs (default 0 (seqs !! source))) in
  let! _ := smodify (fun s => s <| s_source_sequences ::= insert source next |>) in
  let! _ := smodify (fun s => s <| s_all_sources ::= fun all =>
                       if bool_decide (all = ∅) then {[source]} else all |>) in
  let! completed := sgets s_completed_sources in
  let! _ := sraise_if (negb (is_empty splits) && bool_decide (source ∈ completed))
              (RuntimeError "source is finished") in
  let! res := slift (append_update res 0 source splits false (negb (is_empty splits)) false) in
  let! res :=
    if no_more_inputs then
      let! res := slift (append_update res 0 source [] true false false) in
      let! _ := smodify (fun s => s <| s_completed_sources ::= union {[source]} |>) in
      sret res
    else sret res in
  let! s := sget in
  sret (if bool_decide (s.(s_all_sources) <> ∅) && bool_decide (s.(s_all_sources) ⊆ s.(s_completed_sources))
        then res <| sealed_partitions ::= fun l => l ++ [0] |> else res).

Definition finish : ST SingleSplitAssigner AssignmentResult :=
  let! added := sgets s_partition_added in
  if added then sret empty_result
  else
    let! _ := smodify (fun s => s <| s_partition_added := true |>) in
    sret (MkAssignmentResult [MkPartitionInfo 0 None] [] [0] true).

End Single.

(** ** Lemmas on the helpers *)

Lemma delivered_app source us vs : delivered source (us ++ vs) = delivered source us ++ delivered source vs.
Proof. apply flat_map_app. Qed.

Lemma delivered_nil source us :
  Forall (fun u => u.(pu_splits) = []) us -> delivered source us = [].
Proof.
  induction 1 as [|u us Hu _ IH]; [done|]. unfold delivered in *. simpl. rewrite IH, Hu.
  by destruct (String.eqb _ _).
Qed.

(** What [append_update] adds to the updates. *)
Lemma append_update_ok res p source splits no_more ready emit_empty res' :
  append_update res p source splits no_more ready emit_empty = Ok res' ->
  exists us,
    res' = res <| partition_updates := res.(partition_updates) ++ us |> /\
    (us = [] /\ splits = [] /\ no_more = false \/
     us = [MkPartitionUpdate p source splits no_more ready]).
Proof.
  unfold append_update. destruct (negb emit_empty && is_empty splits && negb no_more) eqn:E; intros H.
  - inv_ok. exists []. rewrite app_nil_r. split; [by destruct res'|left].
    apply andb_prop in E as [[_ Hs]%andb_prop Hn]. destruct splits; [|done]. by destruct no_more.
  - inv_ok. unfold new_partition_update in H0. inv_ok. eexists. split; [reflexivity|by right].
Qed.

(** The same, by what is delivered: the updates are for one partition and
    one source and carry the given splits. *)
Lemma append_update_delivers res p source splits no_more ready emit_empty res' :
  append_update res p source splits no_more ready emit_empty = Ok res' ->
  exists us,
    res' = res <| partition_updates := res.(partition_updates) ++ us |> /\
    Forall (fun u => u.(pu_partition_id) = p /\ u.(pu_source_node_id) = source) us /\
    forall src, delivered src us = if String.eqb source src then splits else [].
Proof.
  intros (us & -> & [(-> & -> & _)| ->])%append_update_ok; eexists; (split; [done|]).
  - split; [constructor|]. intros src. simpl. by destruct (String.eqb source src).
  - split; [by repeat constructor|]. intros src. unfold delivered. simpl.
    destruct (String.eqb source src); [by rewrite app_nil_r|done].
Qed.

(** An update without the ready flag never raises. *)
Lemma append_update_total res p source splits no_more emit_empty :
  exists res', append_update res p source splits no_more false emit_empty = Ok res'.
Proof. unfold append_update. case_match; [eauto|]. simpl. eauto. Qed.

Lemma append_update_ready res p source split no_more emit_empty :
  append_update res p source [split] no_more true emit_empty =
  Ok (res <| partition_updates ::= fun l => l ++ [MkPartitionUpdate p source [split] no_more true] |>).
Proof. unfold append_update. by rewrite andb_false_r. Qed.

Lemma append_seal_elem res p x :
  x ∈ (append_seal res p).(sealed_partitions) <-> x = p \/ x ∈ res.(sealed_partitions).
Proof.
  unfold append_seal. case_bool_decide; simpl; [naive_solver|].
  rewrite elem_of_app, list_elem_of_singleton. naive_solver.
Qed.

Lemma append_seal_updates res p : (append_seal res p).(partition_updates) = res.(partition_updates).
Proof. unfold append_seal. by case_bool_decide. Qed.

Lemma append_seal_added res p : (append_seal res p).(partitions_added) = res.(partitions_added).
Proof. unfold append_seal. by case_bool_decide. Qed.

Lemma append_seal_nodup res p :
  NoDup res.(sealed_partitions) -> NoDup (append_seal res p).(sealed_partitions).
Proof.
  unfold append_seal. case_bool_decide as Hp; [done|]. simpl. intros Hnd.
  apply NoDup_app. split_and!; [done| |apply NoDup_singleton].
  by intros x Hx ->%list_elem_of_singleton.
Qed.

(** ** Sequence numbers *)

Lemma pd_find_snoc k v d : pd_find k d = None -> pd_find k (d ++ [(PStr k, v)]) = Some v.
Proof.
  induction d as [|[k' v'] d IH]; simpl.
  - by rewrite key_is_str, String.eqb_refl.
  - by destruct (key_is k k').
Qed.

(** The splits made from a batch carry sequence ids below the returned
    counter, the counter never goes back, and inputs that give no sequence
    id of their own are numbered consecutively from the old counter. *)
Theorem splits_from_inputs_sequences source inputs next splits next' :
  splits_from_inputs source inputs next = Ok (splits, next') ->
  next <= next' /\
  Forall (fun s => s.(sequence_id) < next') splits /\
  length splits = length inputs /\
  (Forall (fun d => pd_mem "sequence_id" d = false) inputs ->
   map sequence_id splits = seqZ next (Z.of_nat (length inputs)) /\
   next' = next + Z.of_nat (length inputs)).
Proof.
  revert next splits next'. induction inputs as [|item inputs IH]; simpl; intros next splits next' H.
  { inv_ok. split_and!; [lia|constructor|done|]. intros _. split; [done|lia]. }
  inv_ok. destruct a0 as [ss nx]. inv_ok. rename a into s.
  apply IH in H1 as (Hle & Hlt & Hlen & Hseq).
  split_and!; [lia| |simpl; lia|].
  { apply Forall_cons. split; [lia|exact Hlt]. }
  intros [Hm Hms]%Forall_cons. destruct (Hseq Hms) as [Hmap Hnx].
  assert (Hid : s.(sequence_id) = next).
  { unfold pd_setdefault in H0. rewrite Hm in H0.
    apply split_from_dict_fields in H0 as (_ & _ & v & Hv & Hi).
    rewrite pd_find_snoc in Hv by (unfold pd_mem in Hm; by case_match).
    injection Hv as <-. simpl in Hi. by injection Hi. }
  replace (Z.max next (s.(sequence_id) + 1)) with (next + 1) in * by lia.
  cbn [map length]. rewrite Hmap, Nat2Z.inj_succ. split; [|lia].
  rewrite (seqZ_cons next) by lia. f_equal; [exact Hid|f_equal; lia].
Qed.

Lemma splits_from_inputs_sequences_witness :
  exists splits,
    splits_from_inputs "s" [pd_lit [("kind", PStr "scan")]; pd_lit [("kind", PStr "scan")]] 5 = Ok (splits, 7) /\
    map sequence_id splits = [5; 6].
Proof.
  eexists. split; [vm_compute; reflexivity|].
  refine (proj1 (proj2 (proj2 (proj2
    (splits_from_inputs_sequences "s" [pd_lit [("kind", PStr "scan")]; pd_lit [("kind", PStr "scan")]]
       5 _ 7 _))) _)).
  - vm_compute. reflexivity.
  - repeat constructor.
Defined.

(** One call of the single-partition assigner: partition 0 is announced
    by the first call only, every update targets it, the source receives
    exactly the splits made from the inputs (none once it is finished), and
    the partition is sealed exactly when every known source is finished. *)
Theorem single_assign_spec source inputs no_more s res s' :
  Single.assign source inputs no_more s = (Ok res, s') ->
  exists splits next,
    splits_from_inputs source inputs (default 0 (s.(s_source_sequences) !! source)) = Ok (splits, next) /\
    s'.(s_partition_added) = true /\
    s'.(s_source_sequences) = <[source := next]> s.(s_source_sequences) /\
    s'.(s_all_sources) = (if bool_decide (s.(s_all_sources) = ∅) then {[source]} else s.(s_all_sources)) /\
    s'.(s_completed_sources) =
      (if no_more then {[source]} ∪ s.(s_completed_sources) else s.(s_completed_sources)) /\
    map pi_partition_id res.(partitions_added) = (if s.(s_partition_added) then [] else [0]) /\
    Forall (fun u => u.(pu_partition_id) = 0 /\ u.(pu_source_node_id) = source) res.(partition_updates) /\
    delivered source res.(partition_updates) = splits /\
    (splits <> [] -> source ∉ s.(s_completed_sources)) /\
    (0 ∈ res.(sealed_partitions) <-> s'.(s_all_sources) ⊆ s'.(s_completed_sources)).
Proof.
  unfold Single.assign. intros H.
  assert (Ha : (if s.(s_partition_added) then sret tt
                else smodify (fun s => s <| s_partition_added := true |>)) s
               = (Ok tt, s <| s_partition_added := true |>)).
  { destruct s as [[] ? ? ?]; done. }
  sstep H. rewrite (sbind_eq _ _ _ _ _ Ha) in H. clear Ha.
  do 2 sstep H. destruct v as [splits next]. cbv beta iota in H.
  exists splits, next. split; [done|].
  do 5 sstep H.
  assert (Hnc : splits <> [] -> source ∉ s.(s_completed_sources)).
  { intros Hne. apply andb_false_iff in Heqb as [Hb|Hb]; [by destruct splits|].
    by apply bool_decide_eq_false in Hb. }
  clear Heqb. set (res0 := if s.(s_partition_added) then empty_result else _) in H.
  assert (Hres0 : map pi_partition_id res0.(partitions_added) = (if s.(s_partition_added) then [] else [0]) /\
                  res0.(partition_updates) = [] /\ res0.(sealed_partitions) = []).
  { unfold res0. by destruct s.(s_partition_added). }
  clearbody res0. destruct Hres0 as (Hadd & Hup & Hsl).
  sstep H. apply append_update_delivers in E0 as (us & -> & Hus & Hdel).
  assert (Hall : (if bool_decide (s.(s_all_sources) = ∅) then {[source]} else s.(s_all_sources)) <> ∅).
  { case_bool_decide; [apply non_empty_singleton_L|done]. }
  destruct no_more.
  - do 2 sstep H. apply append_update_delivers in E0 as (vs & -> & Hvs & Hdel').
    srun H. split_and!; try done.
    + by destruct (_ && _).
    + destruct (_ && _); simpl; rewrite Hup; simpl; by apply Forall_app.
    + destruct (_ && _); simpl; rewrite Hup; simpl;
        rewrite delivered_app, Hdel, Hdel', String.eqb_refl; by rewrite app_nil_r.
    + rewrite bool_decide_eq_true_2 by done. simpl.
      generalize dependent (if bool_decide (s.(s_all_sources) = ∅) then {[source]} else s.(s_all_sources)).
      intros all _. case_bool_decide; cbn; rewrite Hsl; set_solver.
  - srun H. split_and!; try done.
    + by destruct (_ && _).
    + destruct (_ && _); simpl; rewrite Hup; done.
    + destruct (_ && _); simpl; rewrite Hup; simpl;
        by rewrite Hdel, String.eqb_refl.
    + rewrite bool_decide_eq_true_2 by done. simpl.
      generalize dependent (if bool_decide (s.(s_all_sources) = ∅) then {[source]} else s.(s_all_sources)).
      intros all _. case_bool_decide; cbn; rewrite Hsl; set_solver.
Qed.

Lemma single_assign_spec_witness :
  exists res s', Single.assign "s" [pd_lit [("kind", PStr "scan")]] true (Single.new ["s"]) = (Ok res, s') /\
    0 ∈ res.(sealed_partitions).
Proof.
  eexists _, _. split; [vm_compute; reflexivity|].
  pose proof (single_assign_spec "s" [pd_lit [("kind", PStr "scan")]] true (Single.new ["s"])) as Hs.
  edestruct Hs as (splits & next & _ & _ & _ & _ & _ & _ & _ & _ & _ & Hseal); [vm_compute; reflexivity|].
  apply Hseal. apply (bool_decide_unpack _). vm_compute. exact I.
Defined.
