(* ===== verification/ArbitraryAssigner.v ===== *)
(** * The arbitrary-distribution split assigner

    Models [ArbitrarySplitAssigner] of
    [duckdb/runners/fte/fte_split_assigner.py]: splits fill open partitions
    per node requirement up to a byte target and a split count; the byte
    target grows adaptively; splits of replicated sources go to every
    partition.  The assignment objects that the source shares between its
    list of all assignments and its dict of open ones live in
    [all_assignments], and [open_assignments] refers to them by index. *)

From S2P Require Import Prelude PyStr PyVal PyNum FteTypes SplitAssigner.

#[local] Open Scope string_scope.
#[local] Open Scope list_scope.
#[local] Open Scope Z_scope.

Record PartitionAssignment := MkAssignment {
  a_partition_id : Z;
  a_assigned_data_size_bytes : Z;
  a_assigned_split_count : Z;
  a_full : bool;
}.
#[export] Instance PartitionAssignment_eta : Eta PartitionAssignment :=
  fun r => MkAssignment r.(a_partition_id) r.(a_assigned_data_size_bytes)
    r.(a_assigned_split_count) r.(a_full).

Definition assign_split (size : Z) (a : PartitionAssignment) : PartitionAssignment :=
  a <| a_assigned_data_size_bytes ::= fun n => n + size |>
    <| a_assigned_split_count ::= fun n => n + 1 |>.

Record ArbitrarySplitAssigner := MkArbitrary {
  next_partition_id : Z;
  source_sequences : gmap string Z;
  catalog_requirement : option string;
  partitioned_sources : gset string;
  replicated_sources : gset string;
  all_sources : gset string;
  completed_sources : gset string;
  replicated_splits : gmap string (list FteSplit);
  no_more_replicated_splits : bool;
  all_assignments : list PartitionAssignment;
  open_assignments : list (NodeRequirements * nat);
  adaptive_growth_period : Z;
  adaptive_growth_factor : f64;
  min_target_partition_size_bytes : Z;
  max_target_partition_size_bytes : Z;
  target_partition_size_bytes : Z;
  rounded_target_partition_size_bytes : Z;
  adaptive_counter : Z;
  standard_split_size_bytes : Z;
  max_task_split_count : Z;
  finished : bool;
}.
#[export] Instance ArbitrarySplitAssigner_eta : Eta ArbitrarySplitAssigner :=
  fun r => MkArbitrary r.(next_partition_id) r.(source_sequences) r.(catalog_requirement)
    r.(partitioned_sources) r.(replicated_sources) r.(all_sources) r.(completed_sources)
    r.(replicated_splits) r.(no_more_replicated_splits) r.(all_assignments) r.(open_assignments)
    r.(adaptive_growth_period) r.(adaptive_growth_factor) r.(min_target_partition_size_bytes)
    r.(max_target_partition_size_bytes) r.(target_partition_size_bytes)
    r.(rounded_target_partition_size_bytes) r.(adaptive_counter) r.(standard_split_size_bytes)
    r.(max_task_split_count) r.(finished).

Module Arbitrary.

(** [__init__] *)
Definition new (max_splits_per_partition : option Z) (catalog : option string)
    (partitioned replicated : list string) (min_target max_target : option Z)
    (growth_period : Z) (growth_factor : f64) (standard_size : Z)
    (max_task : option Z) : result ArbitrarySplitAssigner :=
  let* _ := raise_if (match max_splits_per_partition with Some n => n <=? 0 | None => false end)
              (ValueError "max_splits_per_partition must be positive") in
  let max_task := default (default 2048 max_splits_per_partition) max_task in
  let* _ := raise_if (max_task <=? 0) (ValueError "max_task_split_count must be positive") in
  let* _ := raise_if (growth_period <=? 0) (ValueError "adaptive_growth_period must be positive") in
  let* _ := raise_if (f64_lt growth_factor (f64_of_int 1)) (ValueError "adaptive_growth_factor must be >= 1") in
  let min_target := default (max_task * standard_size) min_target in
  let max_target := default min_target max_target in
  let* _ := raise_if (min_target <=? 0) (ValueError "min_target_partition_size_bytes must be positive") in
  let* _ := raise_if (max_target <? min_target)
              (ValueError "max_target_partition_size_bytes must be >= min_target_partition_size_bytes") in
  Ok {| next_partition_id := 0; source_sequences := ∅; catalog_requirement := catalog;
        partitioned_sources := list_to_set partitioned; replicated_sources := list_to_set replicated;
        all_sources := list_to_set partitioned ∪ list_to_set replicated; completed_sources := ∅;
        replicated_splits := ∅; no_more_replicated_splits := false; all_assignments := [];
        open_assignments := []; adaptive_growth_period := growth_period;
        adaptive_growth_factor := growth_factor; min_target_partition_size_bytes := min_target;
        max_target_partition_size_bytes := max_target; target_partition_size_bytes := min_target;
        rounded_target_partition_size_bytes := min_target; adaptive_counter := 0;
        standard_split_size_bytes := standard_size; max_task_split_count := max_task;
        finished := false |}.

(** The assignment object behind a reference. *)
Definition assignment_at (self : ArbitrarySplitAssigner) (i : nat) : PartitionAssignment :=
  default (MkAssignment 0 0 0 false) (self.(all_assignments) !! i).

Definition assigned_size (self : ArbitrarySplitAssigner) (host : string) (remote : bool) : option Z :=
  (fun i => (assignment_at self i).(a_assigned_data_size_bytes))
    <$> od_get (MkNodeRequirements self.(catalog_requirement) (Some host) remote) self.(open_assignments).

(** [_rank] *)
Definition rank (self : ArbitrarySplitAssigner) (address : string) : Z :=
  match assigned_size self address true, assigned_size self address false with
  | None, None => -1
  | None, Some rigid => rigid
  | Some flex, None => flex
  | Some flex, Some rigid => flex + rigid
  end.

(** [min(x :: l, key=key)]: the first minimum *)
Fixpoint min_by {A} (key : A -> Z) (x : A) (l : list A) : A :=
  match l with
  | [] => x
  | y :: l => if key y <? key x then min_by key y l else min_by key x l
  end.

(** [_node_requirements] *)
Definition node_requirements (self : ArbitrarySplitAssigner) (split : FteSplit) : result NodeRequirements :=
  let* _ := raise_if
    (match self.(catalog_requirement), split.(catalog) with
     | Some want, Some have => negb (String.eqb have want)
     | _, _ => false
     end) (ValueError "unexpected split catalog requirement") in
  let host := match split.(addresses) with
              | [] => None
              | a :: l => Some (min_by (rank self) a l)
              end in
  let* _ := raise_if (match host with None => negb split.(remotely_accessible) | Some _ => false end)
    (ValueError "split is not remotely accessible but has no host address") in
  Ok (MkNodeRequirements self.(catalog_requirement) host split.(remotely_accessible)).

(** [_grow_target_if_needed] *)
Definition grow_target_if_needed : ST ArbitrarySplitAssigner unit :=
  let! _ := smodify (fun s => s <| adaptive_counter ::= fun n => n + 1 |>) in
  let! s := sget in
  if s.(adaptive_counter) <? s.(adaptive_growth_period) then sret tt
  else
    let! grown := slift (f64_trunc (f64_add
      (f64_mul (f64_of_int s.(target_partition_size_bytes)) s.(adaptive_growth_factor))
      (f64_lit 999999 1000000))) in
    let! _ := smodify (fun s => s <| target_partition_size_bytes :=
                Z.min s.(max_target_partition_size_bytes) grown |>) in
    let! s := sget in
    let! q := slift (f64_round (f64_div_int s.(target_partition_size_bytes)
                (Z.to_pos s.(min_target_partition_size_bytes)))) in
    let! _ := smodify (fun s => s <| rounded_target_partition_size_bytes :=
                q * s.(min_target_partition_size_bytes) |>) in
    let! _ := smodify (fun s => s <| rounded_target_partition_size_bytes ::=
                Z.max s.(min_target_partition_size_bytes) |>) in
    smodify (fun s => s <| adaptive_counter := 0 |>).

(** An update marking each of the sources as finished for the partition. *)
Definition append_no_more (sources : list string) (p : Z) (res : AssignmentResult) : result AssignmentResult :=
  rfoldM (fun res src => append_update res p src [] true false false) res sources.

(** The replicated splits seen so far, for a new partition. *)
Definition append_replicated (self : ArbitrarySplitAssigner) (p : Z) (res : AssignmentResult)
    : result AssignmentResult :=
  rfoldM (fun res src =>
            append_update res p src (default [] (self.(replicated_splits) !! src))
              (bool_decide (src ∈ self.(completed_sources))) false true)
    res (elements self.(replicated_sources)).

(** [_new_assignment] *)
Definition new_assignment (reqs : NodeRequirements) (res : AssignmentResult)
    : ST ArbitrarySplitAssigner (nat * AssignmentResult) :=
  let! s := sget in
  let p := s.(next_partition_id) in
  let i := length s.(all_assignments) in
  let! _ := smodify (fun s => s <| next_partition_id ::= fun n => n + 1 |>
                                <| all_assignments ::= fun l => l ++ [MkAssignment p 0 0 false] |>
                                <| open_assignments ::= od_set reqs i |>) in
  sret (i, res <| partitions_added ::= fun l => l ++ [MkPartitionInfo p (Some reqs)] |>).

(** The branch that closes a full open assignment. *)
Definition close_assignment (reqs : NodeRequirements) (i : nat) (res : AssignmentResult)
    : ST ArbitrarySplitAssigner AssignmentResult :=
  let! _ := smodify (fun s => s <| all_assignments ::= alter (fun a => a <| a_full := true |>) i |>) in
  let! s := sget in
  let p := (assignment_at s i).(a_partition_id) in
  let! res := slift (append_no_more (elements s.(partitioned_sources)) p res) in
  let res := if bool_decide (s.(replicated_sources) ⊆ s.(completed_sources))
             then append_seal res p else res in
  let! _ := smodify (fun s => s <| open_assignments ::= od_pop reqs |>) in
  let! _ := grow_target_if_needed in
  sret res.

(** The test that a split no longer fits an open assignment. *)
Definition overfull (s : ArbitrarySplitAssigner) (a : PartitionAssignment) (size : Z) : bool :=
  (s.(rounded_target_partition_size_bytes) <? a.(a_assigned_data_size_bytes) + size)
  || (s.(max_task_split_count) <? a.(a_assigned_split_count) + 1).

(** One iteration of the loop of [_assign_partitioned_splits]. *)
Definition place_split (source : string) (res : AssignmentResult) (split : FteSplit)
    : ST ArbitrarySplitAssigner AssignmentResult :=
  let! s := sget in
  let! reqs := slift (node_requirements s split) in
  let size := split_size_bytes split s.(standard_split_size_bytes) in
  let existing := od_get reqs s.(open_assignments) in
  let! (res, existing) :=
    match existing with
    | Some i =>
        if overfull s (assignment_at s i) size
        then let! res := close_assignment reqs i res in sret (res, None)
        else sret (res, Some i)
    | None => sret (res, None)
    end in
  let! (res, i) :=
    match existing with
    | Some i => sret (res, i)
    | None =>
        let! (i, res) := new_assignment reqs res in
        let! s := sget in
        let! res := slift (append_replicated s (assignment_at s i).(a_partition_id) res) in
        sret (res, i)
    end in
  let! s := sget in
  let! res := slift (append_update res (assignment_at s i).(a_partition_id) source [split] false true false) in
  let! _ := smodify (fun s => s <| all_assignments ::= alter (assign_split size) i |>) in
  sret res.

(** [_merge_assignment_results] *)
Definition merge_assignment_results (left right : AssignmentResult) : AssignmentResult :=
  {| partitions_added := left.(partitions_added) ++ right.(partitions_added);
     partition_updates := left.(partition_updates) ++ right.(partition_updates);
     sealed_partitions :=
       fold_left (fun sealed p => if bool_decide (p ∈ sealed) then sealed else sealed ++ [p])
         right.(sealed_partitions) left.(sealed_partitions);
     no_more_partitions := left.(no_more_partitions) || right.(no_more_partitions) |}.

(** [_finish_if_all_sources_completed] *)
Definition finish_if_all_sources_completed : ST ArbitrarySplitAssigner AssignmentResult :=
  let! s := sget in
  if bool_decide (s.(all_sources) = ∅) || negb (bool_decide (s.(all_sources) ⊆ s.(completed_sources)))
  then sret empty_result
  else
    let! res :=
      match s.(all_assignments) with
      | [] =>
          let! _ := smodify (fun s => s <| next_partition_id ::= Z.max 1 |>
                                        <| all_assignments := [MkAssignment 0 0 0 false] |>) in
          let res := empty_result <| partitions_added :=
            [MkPartitionInfo 0 (Some (MkNodeRequirements s.(catalog_requirement) None true))] |> in
          let! res := slift (rfoldM (fun res src =>
              append_update res 0 src (default [] (s.(replicated_splits) !! src)) true false false)
            res (elements s.(replicated_sources))) in
          let! res := slift (append_no_more (elements s.(partitioned_sources)) 0 res) in
          sret (append_seal res 0)
      | _ :: _ =>
          let! res := slift (rfoldM (fun res i =>
              let p := (assignment_at s i).(a_partition_id) in
              let* res := append_no_more (elements s.(partitioned_sources)) p res in
              Ok (append_seal res p))
            empty_result (od_values s.(open_assignments))) in
          let! _ := smodify (fun s => s <| open_assignments := [] |>) in
          sret res
      end in
    let! _ := smodify (fun s => s <| replicated_splits := ∅ |> <| finished := true |>) in
    sret (res <| no_more_partitions := true |>).

(** [_assign_partitioned_splits] *)
Definition assign_partitioned_splits (source : string) (splits : list FteSplit) (no_more : bool)
    : ST ArbitrarySplitAssigner AssignmentResult :=
  let! res := sfold splits (place_split source) empty_result in
  let! _ := smodify (fun s => if no_more
              then s <| completed_sources ::= union {[source]} |> else s) in
  let! fin := finish_if_all_sources_completed in
  sret (merge_assignment_results res fin).

(** [_assign_replicated_splits] *)
Definition assign_replicated_splits (source : string) (splits : list FteSplit) (no_more : bool)
    : ST ArbitrarySplitAssigner AssignmentResult :=
  let! _ := smodify (fun s => s <| replicated_splits ::= fun m =>
              <[source := default [] (m !! source) ++ splits]> m |>) in
  let! s := sget in
  let! res := slift (rfoldM (fun res a =>
      append_update res a.(a_partition_id) source splits no_more false true)
    empty_result s.(all_assignments)) in
  let! _ := smodify (fun s =>
    if no_more then
      let s := s <| completed_sources ::= union {[source]} |> in
      if bool_decide (s.(replicated_sources) ⊆ s.(completed_sources))
      then s <| no_more_replicated_splits := true |> else s
    else s) in
  let! s := sget in
  let res := if s.(no_more_replicated_splits)
             then fold_left (fun res a => if a.(a_full) then append_seal res a.(a_partition_id) else res)
                    s.(all_assignments) res
             else res in
  let! fin := finish_if_all_sources_completed in
  sret (merge_assignment_results res fin).

Definition assign (source : string) (inputs : list (list (pyval * pyval))) (no_more_inputs : bool)
    : ST ArbitrarySplitAssigner AssignmentResult :=
  let! s := sget in
  let! _ := sraise_if s.(finished) (RuntimeError "cannot assign splits after finish") in
  let! (splits, next) :=
    slift (splits_from_inputs source inputs (default 0 (s.(source_sequences) !! source))) in
  let! _ := smodify (fun s => s <| source_sequences ::= insert source next |>) in
  let! _ := smodify (fun s => if bool_decide (s.(all_sources) = ∅)
              then s <| partitioned_sources ::= union {[source]} |> <| all_sources := {[source]} |>
              else s) in
  let! s := sget in
  if bool_decide (source ∈ s.(replicated_sources))
  then assign_replicated_splits source splits no_more_inputs
  else assign_partitioned_splits source splits no_more_inputs.

Definition finish : ST ArbitrarySplitAssigner AssignmentResult :=
  let! s := sget in
  let! _ := sraise_if (is_empty s.(all_assignments)) (RuntimeError "allAssignments is not expected to be empty") in
  sret empty_result.

End Arbitrary.

(** A small run: two sources' worth of splits, a third split overflowing the
    first partition. *)
Example arbitrary_run :
  let item n := pd_lit [("kind", PStr "scan"); ("size_bytes", PInt n)] in
  match Arbitrary.new (Some 2) None ["a"] [] (Some 100) None 64 (f64_lit 126 100) 10 None with
  | Ok s0 =>
      match Arbitrary.assign "a" [item 30; item 30; item 30] true s0 with
      | (Ok r, s1) =>
          map pi_partition_id r.(partitions_added) = [0; 1] /\
          r.(sealed_partitions) = [0; 1] /\ s1.(finished) = true
      | _ => False
      end
  | _ => False
  end.
Proof. vm_compute. auto. Qed.
