(* ===== verification/ArbitraryProofs.v ===== *)
(** * Properties of the arbitrary-distribution split assigner

    The state invariant, conservation of splits, and sealing: once the
    assigner has finished, every partition it announced has been sealed. *)

From S2P Require Import Prelude PyStr PyVal PyNum FteTypes SplitAssigner ArbitraryAssigner.

#[local] Open Scope string_scope.
#[local] Open Scope list_scope.
#[local] Open Scope Z_scope.

#[local] Arguments delivered : simpl never.

(** ** The invariant *)

(** Partition ids are positions, open assignments are live, distinct and not
    full, no assignment exceeds the split limit, and the byte targets keep
    their bounds. *)
Record arb_inv (s : ArbitrarySplitAssigner) : Prop := {
  inv_ids : forall i a, s.(all_assignments) !! i = Some a -> a.(a_partition_id) = Z.of_nat i;
  inv_next : s.(next_partition_id) = Z.of_nat (length s.(all_assignments));
  inv_open_keys : od_wf s.(open_assignments);
  inv_open_refs : NoDup (od_values s.(open_assignments));
  inv_open : forall r i, (r, i) ∈ s.(open_assignments) ->
    exists a, s.(all_assignments) !! i = Some a /\ a.(a_full) = false;
  inv_count : forall i a, s.(all_assignments) !! i = Some a ->
    0 <= a.(a_assigned_split_count) <= s.(max_task_split_count);
  inv_max : 0 < s.(max_task_split_count);
  inv_min : 0 < s.(min_target_partition_size_bytes) <= s.(rounded_target_partition_size_bytes);
  inv_target : s.(target_partition_size_bytes) <= s.(max_target_partition_size_bytes);
  inv_replicated : s.(replicated_sources) ⊆ s.(all_sources);
}.

Lemma new_inv msp cat ps rs mn mx gp gf ss mt s :
  Arbitrary.new msp cat ps rs mn mx gp gf ss mt = Ok s -> arb_inv s.
Proof.
  unfold Arbitrary.new. intros H. inv_ok.
  apply Z.leb_gt in H1, H4. apply Z.ltb_ge in H5.
  constructor; simpl; try done; try lia.
  - constructor.
  - constructor.
  - intros r i Hin. by apply elem_of_nil in Hin.
  - set_solver.
Qed.

(** Two states with the same assignments and limits. *)
Lemma inv_ext s s' :
  arb_inv s ->
  s'.(all_assignments) = s.(all_assignments) ->
  s'.(next_partition_id) = s.(next_partition_id) ->
  s'.(open_assignments) = s.(open_assignments) ->
  s'.(max_task_split_count) = s.(max_task_split_count) ->
  s'.(min_target_partition_size_bytes) = s.(min_target_partition_size_bytes) ->
  s'.(rounded_target_partition_size_bytes) = s.(rounded_target_partition_size_bytes) ->
  s'.(target_partition_size_bytes) = s.(target_partition_size_bytes) ->
  s'.(max_target_partition_size_bytes) = s.(max_target_partition_size_bytes) ->
  s'.(replicated_sources) ⊆ s'.(all_sources) ->
  arb_inv s'.
Proof. intros [] E1 E2 E3 E4 E5 E6 E7 E8 ?. constructor; rewrite ?E1, ?E2, ?E3, ?E4, ?E5, ?E6, ?E7, ?E8; auto. Qed.

(** Growing the target changes the target, its rounding and the counter only. *)
Lemma grow_shape s :
  arb_inv s ->
  exists t r c,
    snd (Arbitrary.grow_target_if_needed s) =
      s <| target_partition_size_bytes := t |> <| rounded_target_partition_size_bytes := r |>
        <| adaptive_counter := c |> /\
    t <= s.(max_target_partition_size_bytes) /\ s.(min_target_partition_size_bytes) <= r.
Proof.
  intros Hs. pose proof (inv_min _ Hs). pose proof (inv_target _ Hs).
  unfold Arbitrary.grow_target_if_needed, sbind, smodify, sget, sret, slift. simpl.
  destruct (_ <? _); [|destruct (f64_trunc _) as [g|e]; simpl; [destruct (f64_round _) as [q|e]; simpl|]].
  - exists s.(target_partition_size_bytes), s.(rounded_target_partition_size_bytes). eexists.
    split; [reflexivity|lia].
  - exists (Z.min s.(max_target_partition_size_bytes) g),
      (Z.max s.(min_target_partition_size_bytes) (q * s.(min_target_partition_size_bytes))), 0.
    split; [reflexivity|lia].
  - exists (Z.min s.(max_target_partition_size_bytes) g), s.(rounded_target_partition_size_bytes). eexists.
    split; [reflexivity|lia].
  - exists s.(target_partition_size_bytes), s.(rounded_target_partition_size_bytes). eexists.
    split; [reflexivity|lia].
Qed.

Lemma grow_wp s Q E :
  arb_inv s ->
  (forall t r c, t <= s.(max_target_partition_size_bytes) -> s.(min_target_partition_size_bytes) <= r ->
     let s' := s <| target_partition_size_bytes := t |> <| rounded_target_partition_size_bytes := r |>
                 <| adaptive_counter := c |> in
     Q tt s' /\ forall e, E e s') ->
  wp Arbitrary.grow_target_if_needed Q E s.
Proof.
  intros Hs HQ. destruct (grow_shape s Hs) as (t & r & c & Es & Ht & Hr).
  specialize (HQ t r c Ht Hr). cbv zeta in HQ. rewrite <- Es in HQ. unfold wp.
  destruct (Arbitrary.grow_target_if_needed s) as [[[]|e] s']; naive_solver.
Qed.

Lemma grow_inv s t r c :
  arb_inv s -> t <= s.(max_target_partition_size_bytes) -> s.(min_target_partition_size_bytes) <= r ->
  arb_inv (s <| target_partition_size_bytes := t |> <| rounded_target_partition_size_bytes := r |>
             <| adaptive_counter := c |>).
Proof. intros [] ? ?. constructor; simpl; auto; lia. Qed.

Lemma od_pop_values_nodup {K V} `{EqDecision K} (k : K) (d : list (K * V)) :
  NoDup (od_values d) -> NoDup (od_values (od_pop k d)).
Proof.
  induction d as [|[k1 v1] d IH]; simpl; [done|]. intros [Hn Hd]%NoDup_cons.
  case_decide; [done|]. simpl. apply NoDup_cons. split; [|auto].
  intros (x & -> & Hx)%list_elem_of_fmap. apply Hn, list_elem_of_fmap.
  exists x. split; [done|]. by eapply od_pop_elem.
Qed.

Lemma od_pop_not_value {K V} `{EqDecision K} (k : K) (d : list (K * V)) v k' :
  NoDup (od_values d) -> od_get k d = Some v -> (k', v) ∉ od_pop k d.
Proof.
  induction d as [|[k1 v1] d IH]; simpl; [done|]. intros [Hn Hd]%NoDup_cons.
  case_decide; subst; simpl.
  - intros [= ->] Hin. apply Hn, list_elem_of_fmap. by exists (k', v).
  - intros Hg [[= -> ->]|Hin]%elem_of_cons.
    + apply Hn, list_elem_of_fmap. apply od_get_elem in Hg. by exists (k, v1).
    + by apply IH.
Qed.

(** ** Loops that append updates without the ready flag *)

Lemma append_updates_ok {A} (p : A -> Z) (src : A -> string) (sp : A -> list FteSplit)
    (nm : A -> bool) ee (l : list A) res :
  exists us,
    rfoldM (fun res x => append_update res (p x) (src x) (sp x) (nm x) false ee) res l =
      Ok (res <| partition_updates ::= fun us0 => us0 ++ us |>) /\
    forall q, delivered q us = flat_map (fun x => if String.eqb (src x) q then sp x else []) l.
Proof.
  revert res. induction l as [|x l IH]; intros res; simpl.
  - exists []. split; [|done]. unfold set_field. rewrite app_nil_r. by destruct res.
  - destruct (append_update_total res (p x) (src x) (sp x) (nm x) ee) as [res1 E]. rewrite E. simpl.
    apply append_update_delivers in E as (us1 & -> & _ & Hd1).
    edestruct IH as (us2 & E2 & Hd2). rewrite E2. exists (us1 ++ us2). split.
    + unfold set_field. cbn. by rewrite app_assoc.
    + intros q. by rewrite delivered_app, Hd1, Hd2.
Qed.

Lemma append_no_more_ok sources p res :
  exists us,
    Arbitrary.append_no_more sources p res = Ok (res <| partition_updates ::= fun us0 => us0 ++ us |>) /\
    forall q, delivered q us = [].
Proof.
  edestruct (append_updates_ok (fun _ => p) (fun src => src) (fun _ => []) (fun _ => true) false sources res)
    as (us & E & Hd).
  exists us. split; [exact E|]. intros q. rewrite Hd. clear.
  induction sources as [|x l IH]; simpl; [done|]. by destruct (String.eqb x q).
Qed.

(** ** Announced and sealed partitions

    [added] and [sealed] are the partitions announced and sealed by the
    results handed out so far.  A partition not yet sealed is still open, or
    is full and waits for a replicated source. *)
Record arb_hist (s : ArbitrarySplitAssigner) (added sealed : list Z) : Prop := {
  hist_added : added = map a_partition_id s.(all_assignments);
  hist_sealed : forall i a, s.(all_assignments) !! i = Some a ->
    a.(a_partition_id) ∈ sealed \/ i ∈ od_values s.(open_assignments) \/
    (a.(a_full) = true /\ ~ s.(replicated_sources) ⊆ s.(completed_sources));
}.

(** The state together with the result being built, after a history. *)
Definition tracks (A0 G0 : list Z) (res : AssignmentResult) (s : ArbitrarySplitAssigner) : Prop :=
  arb_inv s /\
  arb_hist s (A0 ++ map pi_partition_id res.(partitions_added)) (G0 ++ res.(sealed_partitions)).

Lemma alter_lookup {A} (f : A -> A) (i : nat) (l : list A) (j : nat) a :
  alter f i l !! j = Some a ->
  (i = j /\ exists b, l !! j = Some b /\ a = f b) \/ (i <> j /\ l !! j = Some a).
Proof.
  destruct (decide (i = j)) as [->|Hne].
  - rewrite list_lookup_alter_eq. destruct (l !! j) as [b|] eqn:E; [|done].
    intros [= <-]. left. eauto.
  - rewrite list_lookup_alter_ne by done. by right.
Qed.

Lemma alter_map_id {A} (f : A -> A) (g : A -> Z) (i : nat) (l : list A) :
  (forall a, g (f a) = g a) -> map g (alter f i l) = map g l.
Proof.
  intros H. revert i. induction l as [|x l IH]; intros [|i]; simpl; [done..| |].
  - by rewrite H.
  - f_equal. apply IH.
Qed.

Lemma od_values_elem {K V} (d : list (K * V)) v : v ∈ od_values d <-> exists k, (k, v) ∈ d.
Proof.
  unfold od_values. setoid_rewrite list_elem_of_fmap. split.
  - intros ([k w] & -> & H). by exists k.
  - intros [k H]. by exists (k, v).
Qed.

Lemma od_pop_values_elem {K V} `{EqDecision K} (k : K) (d : list (K * V)) v w :
  v ∈ od_values d -> od_get k d = Some w -> v <> w -> v ∈ od_values (od_pop k d).
Proof.
  induction d as [|[k1 v1] d IH]; simpl; [by intros ?%elem_of_nil|].
  intros [->|Hv]%elem_of_cons; case_decide; simpl; try rewrite elem_of_cons; naive_solver.
Qed.

Lemma od_set_fresh {K V} `{EqDecision K} (k : K) (v : V) d :
  od_get k d = None -> od_set k v d = d ++ [(k, v)].
Proof.
  induction d as [|[k1 v1] d IH]; simpl; [done|]. case_decide; [done|]. intros H1. by rewrite IH.
Qed.

(** ** Closing, opening and filling an assignment *)

Definition close_state (reqs : NodeRequirements) (i : nat) (s : ArbitrarySplitAssigner) :=
  s <| all_assignments ::= alter (fun a => a <| a_full := true |>) i |>
    <| open_assignments ::= od_pop reqs |>.

Lemma close_state_inv reqs i s :
  arb_inv s -> od_get reqs s.(open_assignments) = Some i -> arb_inv (close_state reqs i s).
Proof.
  intros [] Hg. unfold close_state. constructor; cbn; auto.
  - intros j a [(-> & b & Hb & ->)|[_ Hj]]%alter_lookup; cbn; eauto.
  - by rewrite length_alter.
  - by apply od_wf_pop.
  - by apply od_pop_values_nodup.
  - intros r j Hin. assert (j <> i).
    { intros ->. by eapply od_pop_not_value in Hin. }
    apply od_pop_elem, inv_open0 in Hin as (a & Ha & Hf).
    exists a. by rewrite list_lookup_alter_ne.
  - intros j a [(-> & b & Hb & ->)|[_ Hj]]%alter_lookup; cbn; eauto.
Qed.

(** Partition ids of references in range. *)
Lemma assignment_at_id s i a :
  arb_inv s -> s.(all_assignments) !! i = Some a ->
  (Arbitrary.assignment_at s i).(a_partition_id) = Z.of_nat i.
Proof. intros Hs Ha. unfold Arbitrary.assignment_at. rewrite Ha. simpl. by eapply inv_ids. Qed.

Definition close_result (s : ArbitrarySplitAssigner) (i : nat) (us : list PartitionUpdate)
    (res : AssignmentResult) : AssignmentResult :=
  let res := res <| partition_updates ::= fun us0 => us0 ++ us |> in
  if bool_decide (s.(replicated_sources) ⊆ s.(completed_sources))
  then append_seal res (Z.of_nat i) else res.

Lemma close_hist A0 G0 reqs i us res s :
  tracks A0 G0 res s -> od_get reqs s.(open_assignments) = Some i ->
  tracks A0 G0 (close_result s i us res) (close_state reqs i s).
Proof.
  intros [Hs [Ha Hq]] Hg. split; [by apply close_state_inv|].
  unfold close_result, close_state. constructor; cbn.
  - rewrite alter_map_id by done. destruct (bool_decide _); rewrite ?append_seal_added; done.
  - intros j a [(-> & b & Hb & ->)|[Hne Hj]]%alter_lookup; cbn.
    + pose proof (inv_ids _ Hs _ _ Hb) as ->.
      case_bool_decide as Hc; [left|by right; right].
      rewrite elem_of_app, append_seal_elem. auto.
    + destruct (Hq _ _ Hj) as [Hin|[Hin|Hin]]; [left|right; left|by right; right].
      * case_bool_decide; [|done]. revert Hin. rewrite !elem_of_app, append_seal_elem. cbn. naive_solver.
      * by eapply od_pop_values_elem.
Qed.

Lemma tracks_grow A0 G0 res s t r c :
  tracks A0 G0 res s -> t <= s.(max_target_partition_size_bytes) -> s.(min_target_partition_size_bytes) <= r ->
  tracks A0 G0 res (s <| target_partition_size_bytes := t |> <| rounded_target_partition_size_bytes := r |>
             <| adaptive_counter := c |>).
Proof. intros [Hs []] ? ?. split; [by apply grow_inv|]. by constructor. Qed.

(** The fields that routing one split leaves alone. *)
Definition same_sources (s s' : ArbitrarySplitAssigner) : Prop :=
  s'.(partitioned_sources) = s.(partitioned_sources) /\
  s'.(replicated_sources) = s.(replicated_sources) /\
  s'.(all_sources) = s.(all_sources) /\ s'.(completed_sources) = s.(completed_sources) /\
  s'.(finished) = s.(finished).

Lemma close_wp A0 G0 reqs i res s :
  tracks A0 G0 res s -> od_get reqs s.(open_assignments) = Some i ->
  wp (Arbitrary.close_assignment reqs i res)
    (fun res' s' => tracks A0 G0 res' s' /\ same_sources s s' /\
       od_get reqs s'.(open_assignments) = None /\
       forall q, delivered q res'.(partition_updates) = delivered q res.(partition_updates))
    (fun _ s' => arb_inv s') s.
Proof.
  intros Ht Hg. pose proof Ht as [Hs _].
  destruct (inv_open _ Hs reqs i (od_get_elem _ _ _ Hg)) as (a & Ha & _).
  unfold Arbitrary.close_assignment. do 6 wp_step.
  all: match goal with
       | H : Arbitrary.append_no_more ?ss ?p ?r = _ |- _ =>
           destruct (append_no_more_ok ss p r) as (us & E & Hus); rewrite E in H
       end; try discriminate.
  injection H as <-. clear E. do 3 wp_step.
  pose proof (close_hist A0 G0 reqs i us res s Ht Hg) as Hc. pose proof Hc as [Hci _].
  apply (grow_wp (close_state reqs i s) _ _ Hci). intros t r c Hl Hr. split.
  - wp_step. unfold Arbitrary.assignment_at. cbn [all_assignments set_field].
    rewrite list_lookup_alter_eq, Ha. cbn. rewrite (inv_ids _ Hs _ _ Ha).
    split; [|split; [done|split]].
    + by apply (tracks_grow _ _ _ _ t r c Hc).
    + cbn. apply od_get_pop_eq, Hs.
    + intros q. case_bool_decide; rewrite ?append_seal_updates; cbn; by rewrite delivered_app, Hus, app_nil_r.
  - intros e. by apply grow_inv.
Qed.

(** A new open assignment for a requirement that has none. *)
Definition open_state (reqs : NodeRequirements) (s : ArbitrarySplitAssigner) :=
  s <| next_partition_id ::= fun n => n + 1 |>
    <| all_assignments ::= fun l => l ++ [MkAssignment s.(next_partition_id) 0 0 false] |>
    <| open_assignments ::= od_set reqs (length s.(all_assignments)) |>.

Lemma open_state_tracks A0 G0 reqs res s :
  tracks A0 G0 res s -> od_get reqs s.(open_assignments) = None ->
  tracks A0 G0 (res <| partitions_added ::= fun l => l ++ [MkPartitionInfo s.(next_partition_id) (Some reqs)] |>)
    (open_state reqs s).
Proof.
  intros [[] [Ha Hq]] Hg. unfold open_state.
  split; constructor; cbn; auto; rewrite ?od_set_fresh by done.
  - intros j a [Hj|[Hl Hj]]%lookup_app_Some; [eauto|].
    apply list_lookup_singleton_Some in Hj as [Hj <-]. cbn. lia.
  - rewrite length_app. cbn. lia.
  - rewrite <- od_set_fresh by done. by apply od_wf_set.
  - unfold od_values. rewrite map_app. apply NoDup_app. split_and!; [done| |apply NoDup_singleton].
    intros j Hj ->%list_elem_of_singleton. apply od_values_elem in Hj as [k Hj].
    apply inv_open0 in Hj as (a & Hj%lookup_lt_Some & _). exact (Nat.lt_irrefl _ Hj).
  - intros r j [Hin|[= -> ->]%list_elem_of_singleton]%elem_of_app.
    + apply inv_open0 in Hin as (a & Ha' & Hf). exists a. split; [|done]. by apply lookup_app_l_Some.
    + eexists. split; [by apply list_lookup_middle|done].
  - intros j a [Hj|[Hl Hj]]%lookup_app_Some; [eauto|].
    apply list_lookup_singleton_Some in Hj as [_ <-]. cbn. lia.
  - rewrite map_app, app_assoc, Ha, map_app. done.
  - intros j a [Hj|[Hl Hj]]%lookup_app_Some.
    + unfold od_values. rewrite map_app. destruct (Hq _ _ Hj) as [H|[H|H]]; auto.
      right. left. apply elem_of_app. by left.
    + apply list_lookup_singleton_Some in Hj as [Hj <-]. right. left.
      unfold od_values. rewrite map_app. apply elem_of_app. right. cbn.
      apply list_elem_of_singleton. lia.
Qed.

(** A split added to an open assignment that has room for it. *)
Lemma fill_tracks A0 G0 res s i a size :
  tracks A0 G0 res s -> s.(all_assignments) !! i = Some a ->
  a.(a_assigned_split_count) < s.(max_task_split_count) ->
  tracks A0 G0 res (s <| all_assignments ::= alter (assign_split size) i |>).
Proof.
  intros [[] [Ha Hq]] Hi Hc. split; constructor; cbn; auto.
  - intros j b [(-> & c & Hb & ->)|[_ Hj]]%alter_lookup; cbn; eauto.
  - by rewrite length_alter.
  - intros r j (b & Hb & Hf)%inv_open0. destruct (decide (i = j)) as [->|].
    + exists (assign_split size b). by rewrite list_lookup_alter_eq, Hb.
    + exists b. by rewrite list_lookup_alter_ne.
  - intros j b [(-> & c & Hb & ->)|[_ Hj]]%alter_lookup; cbn; [|eauto].
    rewrite Hi in Hb. injection Hb as <-. apply inv_count0 in Hi. lia.
  - by rewrite alter_map_id.
  - intros j b [(-> & c & Hb & ->)|[_ Hj]]%alter_lookup; cbn; eauto.
Qed.

Lemma flat_map_absent {A} (f : string -> list A) source l :
  source ∉ l -> flat_map (fun x => if String.eqb x source then f x else []) l = [].
Proof.
  induction l as [|x l IH]; simpl; [done|]. intros [Hx Hl]%not_elem_of_cons.
  destruct (String.eqb_spec x source) as [->|]; [done|]. auto.
Qed.

Lemma append_replicated_ok s p res source :
  source ∉ s.(replicated_sources) ->
  exists us,
    Arbitrary.append_replicated s p res = Ok (res <| partition_updates ::= fun us0 => us0 ++ us |>) /\
    delivered source us = [].
Proof.
  intros Hns.
  edestruct (append_updates_ok (fun _ => p) (fun src => src)
    (fun src => default [] (s.(replicated_splits) !! src))
    (fun src => bool_decide (src ∈ s.(completed_sources))) true (elements s.(replicated_sources)) res)
    as (us & E & Hd).
  exists us. split; [exact E|]. rewrite Hd. apply flat_map_absent. by rewrite elem_of_elements.
Qed.

(** The second half of [place_split]: the split goes to the open assignment
    [i], which has room. *)
Lemma fill_wp A0 G0 source res split size i a s :
  tracks A0 G0 res s -> s.(all_assignments) !! i = Some a ->
  a.(a_assigned_split_count) < s.(max_task_split_count) ->
  wp (let! s := sget in
      let! res := slift (append_update res (Arbitrary.assignment_at s i).(a_partition_id) source [split] false true false) in
      let! _ := smodify (fun s => s <| all_assignments ::= alter (assign_split size) i |>) in
      sret res)
    (fun res' s' => tracks A0 G0 res' s' /\ same_sources s s' /\
       delivered source res'.(partition_updates) = delivered source res.(partition_updates) ++ [split])
    (fun _ s' => arb_inv s') s.
Proof.
  intros Ht Ha Hc. do 4 wp_step.
  all: rewrite append_update_ready in H; try discriminate. injection H as <-.
  do 3 wp_step. split; [|split; [done|]].
  - by apply (fill_tracks A0 G0 _ s i a size) in Ht.
  - cbn. rewrite delivered_app. unfold delivered at 2. simpl. by rewrite String.eqb_refl.
Qed.

(** Opening an assignment and handing it the replicated splits seen so far. *)
Lemma open_wp A0 G0 source res reqs s :
  tracks A0 G0 res s -> od_get reqs s.(open_assignments) = None -> source ∉ s.(replicated_sources) ->
  wp (let! (i, res) := Arbitrary.new_assignment reqs res in
      let! s := sget in
      let! res := slift (Arbitrary.append_replicated s (Arbitrary.assignment_at s i).(a_partition_id) res) in
      sret (res, i))
    (fun '(res', i) s' => tracks A0 G0 res' s' /\ same_sources s s' /\
       delivered source res'.(partition_updates) = delivered source res.(partition_updates) /\
       exists a, s'.(all_assignments) !! i = Some a /\
                 a.(a_assigned_split_count) < s'.(max_task_split_count))
    (fun _ s' => arb_inv s') s.
Proof.
  intros Ht Hg Hns. unfold Arbitrary.new_assignment. do 10 wp_step.
  all: match goal with H : Arbitrary.append_replicated ?st ?p ?r = _ |- _ =>
         destruct (append_replicated_ok st p r source Hns) as (us & E & Hus); rewrite E in H
       end; try discriminate.
  injection H as <-. clear E. wp_step. cbn beta iota. split_and!; try done.
  - by apply (open_state_tracks A0 G0 reqs res s) in Ht.
  - cbn. by rewrite delivered_app, Hus, app_nil_r.
  - eexists. split; [cbn; by apply list_lookup_middle|]. cbn. destruct Ht as [[] _]. lia.
Qed.

Lemma place_wp A0 G0 source res split s :
  tracks A0 G0 res s -> source ∉ s.(replicated_sources) ->
  wp (Arbitrary.place_split source res split)
    (fun res' s' => tracks A0 G0 res' s' /\ same_sources s s' /\
       delivered source res'.(partition_updates) = delivered source res.(partition_updates) ++ [split])
    (fun _ s' => arb_inv s') s.
Proof.
  intros Ht Hns. pose proof Ht as [Hs _]. unfold Arbitrary.place_split.
  do 4 wp_step; [|done]. rename a into reqs. apply wp_bind.
  apply (wp_mono (fun _ s' => arb_inv s') _
    (fun '(res', ex) s' => tracks A0 G0 res' s' /\ same_sources s s' /\
       delivered source res'.(partition_updates) = delivered source res.(partition_updates) /\
       match ex with
       | Some i => exists a, s'.(all_assignments) !! i = Some a /\
                     a.(a_assigned_split_count) < s'.(max_task_split_count)
       | None => od_get reqs s'.(open_assignments) = None
       end)).
  { destruct (od_get reqs _) as [i|] eqn:Hg; [|by wp_step].
    destruct (inv_open _ Hs reqs i (od_get_elem _ _ _ Hg)) as (a & Ha & _).
    destruct (Arbitrary.overfull _ _ _) eqn:Ho.
    - apply wp_bind. eapply wp_mono; [by apply (close_wp A0 G0)| |done].
      intros res1 s1 (H1 & H2 & H3 & H4). wp_step. auto.
    - wp_step. split_and!; try done. exists a. split; [done|].
      unfold Arbitrary.overfull, Arbitrary.assignment_at in Ho. rewrite Ha in Ho.
      apply orb_false_iff in Ho as [_ Ho%Z.ltb_ge]. simpl in Ho. lia. }
  2: done.
  intros [res1 ex] s1 (Ht1 & Hsame & Hd & Hex). apply wp_bind.
  apply (wp_mono (fun _ s' => arb_inv s') _
    (fun '(res', i) s' => tracks A0 G0 res' s' /\ same_sources s s' /\
       delivered source res'.(partition_updates) = delivered source res.(partition_updates) /\
       exists a, s'.(all_assignments) !! i = Some a /\
                 a.(a_assigned_split_count) < s'.(max_task_split_count))).
  { destruct ex as [i|]; [by wp_step|]. destruct Hsame as (E1 & E2 & E3 & E4 & E5).
    eapply wp_mono; [apply (open_wp A0 G0 source res1 reqs s1 Ht1 Hex); by rewrite E2| |done].
    intros [res2 i] s2 (? & (? & ? & ? & ? & ?) & ? & ?). unfold same_sources. split_and!; congruence. }
  2: done.
  intros [res2 i] s2 (Ht2 & Hsame2 & Hd2 & a & Ha & Hc).
  eapply wp_mono; [by apply (fill_wp A0 G0 source res2 split _ i a s2)| |done].
  intros res3 s3 (? & (? & ? & ? & ? & ?) & ?). destruct Hsame2 as (? & ? & ? & ? & ?).
  unfold same_sources. split_and!; congruence.
Qed.

(** ** Finishing *)

Lemma merge_sealed_elem l r x :
  x ∈ (Arbitrary.merge_assignment_results l r).(sealed_partitions) <->
  x ∈ l.(sealed_partitions) \/ x ∈ r.(sealed_partitions).
Proof.
  unfold Arbitrary.merge_assignment_results. cbn. generalize l.(sealed_partitions) r.(sealed_partitions).
  intros u v. revert u. induction v as [|y v IH]; intros u; simpl; [set_solver|].
  rewrite IH. case_bool_decide; set_solver.
Qed.

Lemma hist_ext s A G G' :
  arb_hist s A G -> (forall x, x ∈ G -> x ∈ G') -> arb_hist s A G'.
Proof.
  intros [H1 H2] HG. constructor; auto.
  intros i a Hi. destruct (H2 i a Hi) as [H|[H|H]]; auto.
Qed.

Lemma tracks_merge A0 G0 res fin s :
  arb_inv s ->
  arb_hist s (A0 ++ map pi_partition_id res.(partitions_added) ++ map pi_partition_id fin.(partitions_added))
    (G0 ++ res.(sealed_partitions) ++ fin.(sealed_partitions)) ->
  tracks A0 G0 (Arbitrary.merge_assignment_results res fin) s.
Proof.
  intros Hs Hh. split; [done|]. cbn [partitions_added Arbitrary.merge_assignment_results].
  rewrite map_app. eapply hist_ext; [exact Hh|]. intros x.
  rewrite !elem_of_app, merge_sealed_elem. done.
Qed.

(** The loop that closes the open assignments. *)
Lemma seal_open_ok s sources l res :
  exists us seals,
    rfoldM (fun res i =>
        let p := (Arbitrary.assignment_at s i).(a_partition_id) in
        let* res := Arbitrary.append_no_more sources p res in
        Ok (append_seal res p)) res l =
      Ok (res <| partition_updates ::= fun us0 => us0 ++ us |>
              <| sealed_partitions ::= fun l0 => l0 ++ seals |>) /\
    (forall q, delivered q us = []) /\
    (forall i, i ∈ l -> (Arbitrary.assignment_at s i).(a_partition_id) ∈ res.(sealed_partitions) ++ seals).
Proof.
  revert res. induction l as [|i l IH]; intros res; simpl.
  - exists [], []. unfold set_field. rewrite !app_nil_r. split; [by destruct res|].
    split; [done|]. intros i Hi%elem_of_nil. done.
  - set (p := a_partition_id _).
    destruct (append_no_more_ok sources p res) as (us1 & -> & Hus1). simpl.
    set (res1 := append_seal _ p).
    assert (exists seals1, res1 = res <| partition_updates ::= fun us0 => us0 ++ us1 |>
              <| sealed_partitions ::= fun l0 => l0 ++ seals1 |> /\
              p ∈ res.(sealed_partitions) ++ seals1) as (seals1 & -> & Hp).
    { unfold res1, append_seal. case_bool_decide as Hin.
      - exists []. unfold set_field. cbn. rewrite app_nil_r. by split.
      - exists [p]. split; [done|]. set_solver. }
    edestruct IH as (us2 & seals2 & E2 & Hd & Hs). rewrite E2.
    exists (us1 ++ us2), (seals1 ++ seals2). split; [|split].
    + unfold set_field. cbn. by rewrite !app_assoc.
    + intros q. by rewrite delivered_app, Hus1, Hd.
    + intros j [->|Hj]%elem_of_cons.
      * set_solver.
      * apply Hs in Hj. cbn in Hj. by rewrite <- app_assoc in Hj.
Qed.

(** Once finished, nothing is open and no replicated split is awaited. *)
Definition fin_ok (s : ArbitrarySplitAssigner) : Prop :=
  s.(finished) = true ->
  s.(open_assignments) = [] /\ s.(replicated_sources) ⊆ s.(completed_sources).

Lemma finish_empty_inv s :
  arb_inv s -> s.(all_assignments) = [] ->
  s.(open_assignments) = [] /\
  arb_inv (s <| next_partition_id ::= Z.max 1 |> <| all_assignments := [MkAssignment 0 0 0 false] |>
             <| replicated_splits := ∅ |> <| finished := true |>).
Proof.
  intros [] E.
  assert (Ho : s.(open_assignments) = []).
  { destruct s.(open_assignments) as [|[r i] l]; [done|].
    destruct (inv_open0 r i) as (a & Ha & _); [left|]. by rewrite E in Ha. }
  split; [done|]. rewrite E in *. constructor; cbn; rewrite ?Ho; auto.
  - by intros i a [-> <-]%list_lookup_singleton_Some.
  - rewrite inv_next0. done.
  - constructor.
  - constructor.
  - by intros r i ?%elem_of_nil.
  - intros i a [-> <-]%list_lookup_singleton_Some. cbn. lia.
Qed.

Lemma finish_open_inv s :
  arb_inv s ->
  arb_inv (s <| open_assignments := [] |> <| replicated_splits := ∅ |> <| finished := true |>).
Proof.
  intros []. constructor; cbn; auto; [constructor..|]. by intros r i ?%elem_of_nil.
Qed.

Lemma finish_wp A0 G0 source res s :
  tracks A0 G0 res s -> s.(finished) = false ->
  wp Arbitrary.finish_if_all_sources_completed
    (fun fin s' => tracks A0 G0 (Arbitrary.merge_assignment_results res fin) s' /\ fin_ok s' /\
       (source ∉ s.(replicated_sources) -> delivered source fin.(partition_updates) = []))
    (fun _ s' => arb_inv s') s.
Proof.
  intros [Hs Hh] Hf. unfold Arbitrary.finish_if_all_sources_completed. do 2 wp_step. wp_step.
  - wp_step. split; [|split; [by unfold fin_ok; rewrite Hf|done]].
    apply tracks_merge; [done|]. cbn. by rewrite !app_nil_r.
  - apply orb_false_iff in Heqb as [Hne Hc]. apply negb_false_iff, bool_decide_eq_true in Hc.
    assert (Hrc : s.(replicated_sources) ⊆ s.(completed_sources)) by (etrans; [apply Hs|done]).
    destruct s.(all_assignments) as [|a0 l0] eqn:Eall.
    + destruct (finish_empty_inv s Hs Eall) as [Ho Hs'].
      edestruct (append_updates_ok (fun _ => 0) (fun src => src)
        (fun src => default [] (s.(replicated_splits) !! src)) (fun _ => true) false
        (elements s.(replicated_sources))) as (us1 & E1 & Hd1). rewrite E1.
      edestruct (append_no_more_ok (elements s.(partitioned_sources)) 0) as (us2 & E2 & Hd2).
      do 5 wp_step; [|discriminate]. injection H as <-. do 2 wp_step; rewrite E2 in H; [|discriminate].
      injection H as <-. do 4 wp_step. split; [|split].
      * apply tracks_merge; [done|]. destruct Hh as [Ha Hq]. constructor; cbn; auto.
        -- rewrite Eall in Ha. cbn in Ha. rewrite app_assoc, Ha. done.
        -- intros i a [-> <-]%list_lookup_singleton_Some. left. cbn. set_solver.
      * intros _. by cbn.
      * intros Hns. cbn. rewrite append_seal_updates. cbn. rewrite delivered_app, Hd1, Hd2, flat_map_absent; [done|].
        by rewrite elem_of_elements.
    + destruct (seal_open_ok s (elements s.(partitioned_sources)) (od_values s.(open_assignments)) empty_result)
        as (us & seals & E & Hd & Hseal).
      do 3 wp_step; pose proof (eq_trans (eq_sym H) E) as E'; [|discriminate]. injection E' as ->. clear H. do 5 wp_step. split; [|split].
      * apply tracks_merge; [by apply finish_open_inv|]. destruct Hh as [Ha Hq]. constructor; cbn; auto.
        -- by rewrite app_nil_r.
        -- intros i a Hi. left. destruct (Hq i a Hi) as [H|[H|[_ H]]]; [set_solver| |done].
           apply Hseal in H. unfold Arbitrary.assignment_at in H. rewrite Hi in H. cbn in H. set_solver.
      * intros _. by cbn.
      * intros _. cbn. apply Hd.
Qed.

(** ** [assign] *)

Lemma hist_complete s A G source :
  arb_hist s A G -> source ∉ s.(replicated_sources) ->
  arb_hist (s <| completed_sources ::= union {[source]} |>) A G.
Proof.
  intros [H1 H2] Hns. constructor; cbn; auto.
  intros i a Hi. destruct (H2 i a Hi) as [H|[H|[H H']]]; auto.
  right. right. split; [done|]. intros Hsub. apply H'. set_solver.
Qed.

Lemma inv_complete s source : arb_inv s -> arb_inv (s <| completed_sources ::= union {[source]} |>).
Proof. intros Hs. eapply inv_ext; try done. apply Hs. Qed.

Lemma assign_partitioned_wp A0 G0 source splits no_more s :
  tracks A0 G0 empty_result s -> s.(finished) = false -> source ∉ s.(replicated_sources) ->
  wp (Arbitrary.assign_partitioned_splits source splits no_more)
    (fun res s' => tracks A0 G0 res s' /\ fin_ok s' /\ delivered source res.(partition_updates) = splits)
    (fun _ s' => arb_inv s') s.
Proof.
  intros Ht Hf Hns. unfold Arbitrary.assign_partitioned_splits. apply wp_bind.
  apply (wp_mono (fun _ s' => arb_inv s') _ (fun res s' => tracks A0 G0 res s' /\ same_sources s s' /\
      delivered source res.(partition_updates) = splits)); [|clear Ht|done].
  - assert (Hgen : forall l res s0, tracks A0 G0 res s0 -> same_sources s s0 ->
      wp (sfold l (Arbitrary.place_split source) res)
        (fun res' s' => tracks A0 G0 res' s' /\ same_sources s s' /\
           delivered source res'.(partition_updates) = delivered source res.(partition_updates) ++ l)
        (fun _ s' => arb_inv s') s0).
    { induction l as [|x l IH]; intros res s0 Ht0 Hsame; simpl.
      - wp_step. by rewrite app_nil_r.
      - apply wp_bind. pose proof Hsame as (_ & E & _).
        eapply wp_mono; [apply (place_wp A0 G0 source res x s0 Ht0); by rewrite E| |done].
        intros res1 s1 (Ht1 & Hs1 & Hd1).
        assert (Hs1' : same_sources s s1).
        { destruct Hsame as (? & ? & ? & ? & ?), Hs1 as (? & ? & ? & ? & ?).
          unfold same_sources. split_and!; congruence. }
        eapply wp_mono; [by apply IH| |done]. intros res2 s2 (? & ? & Hd2). split_and!; [done..|].
        by rewrite Hd2, Hd1, <- app_assoc. }
    apply (Hgen splits empty_result s Ht). by split_and!.
  - intros res1 s1 (Ht1 & (_ & E2 & _ & _ & E5) & Hd1). do 2 wp_step.
    set (s2 := if no_more then _ else _).
    assert (Ht2 : tracks A0 G0 res1 s2 /\ s2.(finished) = false /\ s2.(replicated_sources) = s.(replicated_sources)).
    { unfold s2. destruct no_more; [|by rewrite E5, E2]. cbn. rewrite E5, E2. split; [|done].
      destruct Ht1 as [Hi Hh]. split; [by apply inv_complete|]. apply hist_complete; [done|]. by rewrite E2. }
    destruct Ht2 as (Ht2 & Hf2 & E3). apply wp_bind.
    eapply wp_mono; [by apply (finish_wp A0 G0 source res1 s2)| |done].
    intros fin s3 (Ht3 & Hfin & Hd3). wp_step. split_and!; [done..|].
    cbn. rewrite delivered_app, Hd1, Hd3; [by rewrite app_nil_r|]. by rewrite E3.
Qed.

Lemma seal_full_elem l res x :
  x ∈ (fold_left (fun res a => if a.(a_full) then append_seal res a.(a_partition_id) else res) l res).(sealed_partitions)
  <-> x ∈ res.(sealed_partitions) \/ exists a, a ∈ l /\ a.(a_full) = true /\ x = a.(a_partition_id).
Proof.
  revert res. induction l as [|a l IH]; intros res; simpl.
  - split; [by left|]. intros [H|(a & H%elem_of_nil & _)]; done.
  - rewrite IH. setoid_rewrite elem_of_cons. destruct a.(a_full) eqn:E; rewrite ?append_seal_elem.
    + split; [intros [[->|H]|(b & Hb & Hf & ->)]|intros [H|(b & [->|Hb] & Hf & ->)]]; eauto 8.
    + split; [intros [H|(b & Hb & Hf & ->)]|intros [H|(b & [->|Hb] & Hf & ->)]]; eauto 8. congruence.
Qed.

Lemma seal_full_added l res :
  (fold_left (fun res a => if a.(a_full) then append_seal res a.(a_partition_id) else res) l res).(partitions_added)
  = res.(partitions_added).
Proof.
  revert res. induction l as [|a l IH]; intros res; simpl; [done|].
  rewrite IH. destruct a.(a_full); [apply append_seal_added|done].
Qed.

Lemma assign_replicated_wp A0 G0 source splits no_more s :
  tracks A0 G0 empty_result s -> s.(finished) = false -> source ∈ s.(replicated_sources) ->
  wp (Arbitrary.assign_replicated_splits source splits no_more)
    (fun res s' => tracks A0 G0 res s' /\ fin_ok s')
    (fun _ s' => arb_inv s') s.
Proof.
  intros [Hs [Ha Hq]] Hf Hin. cbn in Ha. rewrite app_nil_r in Ha.
  unfold Arbitrary.assign_replicated_splits. do 4 wp_step. wp_step. cbn [all_assignments set_field].
  edestruct (append_updates_ok a_partition_id (fun _ => source) (fun _ => splits) (fun _ => no_more) true
    s.(all_assignments) empty_result) as (us & E & _).
  wp_step; pose proof (eq_trans (eq_sym H) E) as E'; [|discriminate]. injection E' as ->. clear H E.
  do 4 wp_step. cbv zeta. set (s1 := if no_more then _ else _). set (res1 := if s1.(no_more_replicated_splits) then _ else _).
  assert (Ecore : s1.(all_assignments) = s.(all_assignments) /\ s1.(open_assignments) = s.(open_assignments) /\
    s1.(replicated_sources) = s.(replicated_sources) /\ s1.(all_sources) = s.(all_sources) /\
    s1.(finished) = false /\ arb_inv s1).
  { unfold s1. destruct no_more; [case_bool_decide|]; split_and!; try done; eapply inv_ext; try done; apply Hs. }
  destruct Ecore as (E1 & E2 & E3 & E4 & E5 & Hs1).
  assert (Ht : tracks A0 G0 res1 s1).
  { split; [done|]. constructor.
    - rewrite E1, <- Ha. unfold res1. destruct s1.(no_more_replicated_splits);
        rewrite ?seal_full_added; cbn; by rewrite app_nil_r.
    - intros i a Hi. rewrite E1 in Hi. rewrite E2. destruct (Hq i a Hi) as [H|[H|[Hfull Hn]]]; [left| |].
      + apply elem_of_app. apply elem_of_app in H as [H|H%elem_of_nil]; [by left|done].
      + by right; left.
      + destruct (decide (s1.(replicated_sources) ⊆ s1.(completed_sources))) as [Hsub|]; [left|by right; right].
        apply elem_of_app. right. unfold res1.
        assert (s1.(no_more_replicated_splits) = true) as ->.
        { unfold s1 in *. destruct no_more; [|done]. case_bool_decide; [done|]. done. }
        apply seal_full_elem. right. exists a. split_and!; [|done..]. rewrite E1.
        by eapply list_elem_of_lookup_2. }
  wp_step. eapply wp_mono; [by apply (finish_wp A0 G0 source res1 s1)| |done].
  intros fin s3 (Ht3 & Hfin & _). wp_step. done.
Qed.

Lemma assign_wp A0 G0 source inputs no_more s :
  arb_inv s -> arb_hist s A0 G0 ->
  wp (Arbitrary.assign source inputs no_more)
    (fun res s' => tracks A0 G0 res s' /\ fin_ok s' /\
       (source ∉ s.(replicated_sources) ->
        exists next : Z, splits_from_inputs source inputs (default 0 (s.(source_sequences) !! source)) =
          Ok (delivered source res.(partition_updates), next)))
    (fun _ s' => arb_inv s') s.
Proof.
  intros Hs Hh. unfold Arbitrary.assign. do 2 wp_step. wp_step.
  wp_step; [|done]. wp_step. wp_step; [|done]. destruct a as [splits next].
  do 6 wp_step. match goal with |- wp _ _ _ ?st => set (s1 := st) end.
  assert (Hs1 : tracks A0 G0 empty_result s1 /\ s1.(finished) = false /\
                s1.(replicated_sources) = s.(replicated_sources)).
  { destruct Hh as [Ha Hq]. pose proof (inv_replicated _ Hs) as Hr. unfold s1. cbn.
    case_bool_decide as Hall; (split; [split; [eapply inv_ext; try done; set_solver|]|done]);
      cbn; rewrite !app_nil_r; by constructor. }
  destruct Hs1 as (Ht & Hf & E). wp_step.
  - apply bool_decide_eq_true in Heqb.
    eapply wp_mono; [by apply assign_replicated_wp| |done]. intros res s' [? ?].
    split_and!; [done..|]. intros Hn. by rewrite <- E in Hn.
  - apply bool_decide_eq_false in Heqb.
    eapply wp_mono; [by apply assign_partitioned_wp| |done]. intros res s' (? & ? & <-).
    split_and!; [done..|]. eauto.
Qed.

(** Every state has the history in which all its partitions are sealed. *)
Lemma hist_trivial s :
  arb_hist s (map a_partition_id s.(all_assignments)) (map a_partition_id s.(all_assignments)).
Proof.
  constructor; [done|]. intros i a Hi. left. apply list_elem_of_fmap. exists a. split; [done|].
  by eapply list_elem_of_lookup_2.
Qed.

(** From any state that keeps the invariant, [assign] of the arbitrary
    assigner keeps it on every outcome (a raise included): partition ids are
    positions, open assignments are distinct, live and not full, and no
    partition holds more than [max_task_split_count] splits. *)
Theorem arbitrary_assign_inv source inputs no_more s :
  arb_inv s -> arb_inv (snd (Arbitrary.assign source inputs no_more s)).
Proof.
  intros Hs. pose proof (assign_wp _ _ source inputs no_more s Hs (hist_trivial s)) as H. unfold wp in H.
  destruct (Arbitrary.assign source inputs no_more s) as [[res|e] s']; [|done]. by destruct H as [[H _] _].
Qed.

Lemma arbitrary_assign_inv_witness :
  exists s0, Arbitrary.new (Some 2) None ["a"] [] (Some 100) None 64 (f64_lit 126 100) 10 None = Ok s0 /\
    arb_inv (snd (Arbitrary.assign "a" [pd_lit [("kind", PStr "scan")]] true s0)).
Proof.
  eexists. split; [vm_compute; reflexivity|]. apply arbitrary_assign_inv.
  eapply (new_inv (Some 2) None ["a"] [] (Some 100) None 64 (f64_lit 126 100) 10 None). vm_compute. reflexivity.
Defined.

(** C37: a successful [assign] of the arbitrary assigner for a source that is
    not replicated hands every split of its inputs to partitions exactly
    once and in order. *)
Theorem arbitrary_assign_conserves source inputs no_more s res s' :
  arb_inv s -> source ∉ s.(replicated_sources) ->
  Arbitrary.assign source inputs no_more s = (Ok res, s') ->
  exists next, splits_from_inputs source inputs (default 0 (s.(source_sequences) !! source)) =
    Ok (delivered source res.(partition_updates), next).
Proof.
  intros Hs Hns H.
  pose proof (assign_wp _ _ source inputs no_more s Hs (hist_trivial s)) as W.
  eapply wp_use in W; [|exact H]. destruct W as (_ & _ & W). auto.
Qed.

Lemma arbitrary_assign_conserves_witness :
  let inputs := [pd_lit [("kind", PStr "scan")]; pd_lit [("kind", PStr "scan")]; pd_lit [("kind", PStr "scan")]] in
  exists s0 res s', Arbitrary.new (Some 2) None ["a"] [] (Some 100) None 64 (f64_lit 126 100) 10 None = Ok s0 /\
    Arbitrary.assign "a" inputs true s0 = (Ok res, s') /\
    exists next, splits_from_inputs "a" inputs (default 0 (s0.(source_sequences) !! "a")) =
      Ok (delivered "a" res.(partition_updates), next).
Proof.
  eexists _, _, _. split; [vm_compute; reflexivity|]. split; [vm_compute; reflexivity|].
  eapply (arbitrary_assign_conserves "a" _ true).
  - eapply (new_inv (Some 2) None ["a"] [] (Some 100) None 64 (f64_lit 126 100) 10 None). vm_compute. reflexivity.
  - apply (bool_decide_unpack _). vm_compute. exact I.
  - vm_compute. reflexivity.
Defined.

(** ** Runs *)

(** A sequence of successful calls of [assign], with the results in order. *)
Inductive arb_run : ArbitrarySplitAssigner -> list AssignmentResult -> ArbitrarySplitAssigner -> Prop :=
| run_nil s : arb_run s [] s
| run_snoc s rs s1 source inputs no_more res s2 :
    arb_run s rs s1 -> Arbitrary.assign source inputs no_more s1 = (Ok res, s2) ->
    arb_run s (rs ++ [res]) s2.

Definition run_added (rs : list AssignmentResult) : list Z :=
  flat_map (fun r => map pi_partition_id r.(partitions_added)) rs.
Definition run_sealed (rs : list AssignmentResult) : list Z := flat_map sealed_partitions rs.

Lemma run_tracks s0 rs s :
  arb_run s0 rs s -> arb_inv s0 -> s0.(all_assignments) = [] -> s0.(finished) = false ->
  arb_inv s /\ arb_hist s (run_added rs) (run_sealed rs) /\ fin_ok s.
Proof.
  induction 1 as [s|s rs s1 source inputs no_more res s2 _ IH Hassign]; intros Hs Ha Hf.
  - split_and!; [done| |by unfold fin_ok; rewrite Hf]. constructor; [by rewrite Ha|]. intros i a Hi. by rewrite Ha in Hi.
  - destruct (IH Hs Ha Hf) as (Hs1 & Hh1 & _).
    pose proof (assign_wp _ _ source inputs no_more s1 Hs1 Hh1) as W.
    eapply wp_use in W; [|exact Hassign]. destruct W as ([Hs2 Hh2] & Hfin & _).
    unfold run_added, run_sealed. rewrite !flat_map_app. simpl. by rewrite !app_nil_r.
Qed.

(** In every run of the arbitrary assigner from construction, the
    announced partition ids are 0, 1, 2, ... in order; and once the assigner
    has finished, each of them has been sealed. *)
Theorem arbitrary_run_seals msp cat ps rs mn mx gp gf ss mt s0 results s :
  Arbitrary.new msp cat ps rs mn mx gp gf ss mt = Ok s0 ->
  arb_run s0 results s ->
  run_added results = seqZ 0 (Z.of_nat (length (run_added results))) /\
  (s.(finished) = true -> forall p, p ∈ run_added results -> p ∈ run_sealed results).
Proof.
  intros Hnew Hrun. pose proof (new_inv _ _ _ _ _ _ _ _ _ _ _ Hnew) as Hs0.
  assert (s0.(all_assignments) = [] /\ s0.(finished) = false) as [Ha Hf].
  { unfold Arbitrary.new in Hnew. inv_ok. done. }
  destruct (run_tracks _ _ _ Hrun Hs0 Ha Hf) as (Hs & [Hadd Hseal] & Hfin). split.
  - rewrite Hadd. apply list_eq. intros i.
    change (map a_partition_id s.(all_assignments)) with (a_partition_id <$> s.(all_assignments)).
    rewrite (list_lookup_fmap a_partition_id).
    destruct (s.(all_assignments) !! i) as [a|] eqn:E; simpl.
    + rewrite (inv_ids _ Hs _ _ E). symmetry. apply lookup_seqZ. rewrite length_fmap.
      apply lookup_lt_Some in E. lia.
    + symmetry. apply lookup_seqZ_ge. rewrite length_fmap. apply lookup_ge_None in E. lia.
  - intros Hdone p. rewrite Hadd. intros (a & -> & Ha')%list_elem_of_fmap.
    apply list_elem_of_lookup in Ha' as [i Hi]. destruct (Hfin Hdone) as [Ho Hr].
    destruct (Hseal i a Hi) as [?|[H|[_ H]]]; [done| |done]. rewrite Ho in H. by apply elem_of_nil in H.
Qed.

Lemma arbitrary_run_seals_witness :
  let inputs := [pd_lit [("kind", PStr "scan")]; pd_lit [("kind", PStr "scan")]; pd_lit [("kind", PStr "scan")]] in
  exists s0 res s, Arbitrary.new (Some 2) None ["a"] [] (Some 100) None 64 (f64_lit 126 100) 10 None = Ok s0 /\
    Arbitrary.assign "a" inputs true s0 = (Ok res, s) /\
    run_added [res] = [0; 1] /\ (forall p, p ∈ run_added [res] -> p ∈ run_sealed [res]).
Proof.
  eexists _, _, _. split; [vm_compute; reflexivity|]. split; [vm_compute; reflexivity|].
  split; [vm_compute; reflexivity|].
  eapply (arbitrary_run_seals (Some 2) None ["a"] [] (Some 100) None 64 (f64_lit 126 100) 10 None).
  - vm_compute. reflexivity.
  - eapply (run_snoc _ [] _ "a" [pd_lit [("kind", PStr "scan")]; pd_lit [("kind", PStr "scan")];
      pd_lit [("kind", PStr "scan")]] true); [apply run_nil|]. vm_compute. reflexivity.
  - vm_compute. reflexivity.
Defined.
