(* ===== verification/HashAssigner.v ===== *)
(** * The hash-distribution split assigner

    Models [HashTaskPartition] and [HashSplitAssigner] of
    [duckdb/runners/fte/fte_split_assigner.py].  A split carries the id of
    the source partition its rows hash to; each source partition maps to a
    [HashTaskPartition] object, which owns one or more task partitions.  A
    caller may map several source partitions to one object, and the assigner
    then sees its counters through every one of them: the objects live in a
    store and the mapping holds references. *)

From S2P Require Import Prelude PyStr PyVal FteTypes SplitAssigner.

#[local] Open Scope string_scope.
#[local] Open Scope list_scope.
#[local] Open Scope Z_scope.

Record HashTaskPartition := MkHashTask {
  sub_partition_count : Z;
  split_by_source : option string;
  task_partition_ids : list Z;
  next_sub_partition : Z;
}.
#[export] Instance HashTaskPartition_eta : Eta HashTaskPartition :=
  fun r => MkHashTask r.(sub_partition_count) r.(split_by_source) r.(task_partition_ids)
    r.(next_sub_partition).

Module HashTask.

(** [HashTaskPartition(...)] with [__post_init__] *)
Definition new (count : Z) (split_by : pyval) (ids : list Z) (next : Z) : result HashTaskPartition :=
  let* _ := raise_if (count <=? 0) (ValueError "sub_partition_count must be positive") in
  let* _ := raise_if ((1 <? count) && is_none split_by)
    (ValueError "split_by_source is required for split hash task partitions") in
  Ok (MkHashTask count (if is_none split_by then None else Some (py_str split_by)) ids next).

(** [ensure_ids]: the loop appends one id per missing sub-partition. *)
Definition ensure_ids (next : Z) (self : HashTaskPartition) : Z * HashTaskPartition :=
  let missing := Z.max 0 (self.(sub_partition_count) - Z.of_nat (length self.(task_partition_ids))) in
  (next + missing, self <| task_partition_ids ::= fun ids => ids ++ seqZ next missing |>).

Definition ids_for_source (source : string) (self : HashTaskPartition)
    : result (list Z * HashTaskPartition) :=
  if bool_decide (self.(split_by_source) = Some source) then
    match py_index self.(task_partition_ids) self.(next_sub_partition) with
    | Some p =>
        Ok ([p], self <| next_sub_partition := (self.(next_sub_partition) + 1)
                           mod Z.of_nat (length self.(task_partition_ids)) |>)
    | None => Raise (IndexError "list index out of range")
    end
  else Ok (self.(task_partition_ids), self).

End HashTask.

(** A value of the source-partition mapping: a reference to an object of the
    caller, or a plain value. *)
Inductive hash_value := HObj (ref : nat) | HVal (v : pyval).

(** [_coerce_hash_task_partition], allocating in the store. *)
Definition coerce_hash_task_partition (value : hash_value) (objects : list HashTaskPartition)
    : result (nat * list HashTaskPartition) :=
  match value with
  | HObj ref => Ok (ref, objects)
  | HVal v =>
      let* obj :=
        match v with
        | PInt n => HashTask.new n PNone [] 0
        | PBool b => HashTask.new (Z.b2z b) PNone [] 0
        | PDict d =>
            let* count := py_int (default (default (PInt 1) (pd_find "sub_partitions" d))
                                    (pd_find "sub_partition_count" d)) in
            HashTask.new count (py_or (pd_get "split_by_source" d) (pd_get "split_by" d)) [] 0
        | _ => Raise (TypeError "cannot coerce to HashTaskPartition")
        end in
      Ok (length objects, objects ++ [obj])
  end.

(** A value of the node-requirements mapping: an object, or a mapping whose
    [catalog] and [host] are text or [None]; an absent key is [None]. *)
Inductive req_value :=
| ReqObj (r : NodeRequirements)
| ReqMapping (catalog : option (option string)) (host : option string) (remote : option pyval)
| ReqOther.

Record HashSplitAssigner := MkHash {
  h_source_partition_count : Z;
  h_partitioned_sources : gset string;
  h_replicated_sources : gset string;
  h_all_sources : gset string;
  h_catalog_requirement : option string;
  h_source_sequences : gmap string Z;
  h_objects : list HashTaskPartition;
  h_mapping : list nat;
  h_node_requirements : list NodeRequirements;
  h_created_task_partitions : gset Z;
  h_completed_sources : gset string;
  h_replicated_splits : gmap string (list FteSplit);
  h_all_task_partitions_created : bool;
}.
#[export] Instance HashSplitAssigner_eta : Eta HashSplitAssigner :=
  fun r => MkHash r.(h_source_partition_count) r.(h_partitioned_sources)
    r.(h_replicated_sources) r.(h_all_sources) r.(h_catalog_requirement) r.(h_source_sequences)
    r.(h_objects) r.(h_mapping) r.(h_node_requirements) r.(h_created_task_partitions)
    r.(h_completed_sources) r.(h_replicated_splits) r.(h_all_task_partitions_created).

Module Hash.

Definition one_task_per_source_partition (count : Z) : list (Z * hash_value) :=
  map (fun k => (k, HVal (PInt 1))) (seqZ 0 count).

(** [_build_source_partition_mapping] *)
Definition build_source_partition_mapping (count : Z) (mapping : option (list (Z * hash_value)))
    (objects : list HashTaskPartition) : result (list nat * list HashTaskPartition) :=
  let mapping := default (one_task_per_source_partition count) mapping in
  rfoldM (fun '(refs, objects) k =>
      match od_get k mapping with
      | None => Raise (ValueError "missing task partition mapping for source partition")
      | Some value =>
          let* (ref, objects) := coerce_hash_task_partition value objects in
          Ok (refs ++ [ref], objects)
      end)
    ([], objects) (seqZ 0 count).

(** [_normalize_node_requirements] *)
Definition normalize_node_requirements (count : Z) (catalog : option string)
    (mapping : option (list (Z * req_value))) : result (list NodeRequirements) :=
  rmapM (fun k =>
      match od_get k (default [] mapping) with
      | None => Ok (MkNodeRequirements catalog None true)
      | Some (ReqObj r) => Ok r
      | Some (ReqMapping c h r) =>
          Ok (MkNodeRequirements (default catalog c) h (truthy (default (PBool true) r)))
      | Some ReqOther => Raise (TypeError "cannot coerce to NodeRequirements")
      end)
    (seqZ 0 count).

(** [__init__], given the task-partition objects of the caller. *)
Definition new (objects : list HashTaskPartition) (count : Z) (partitioned replicated : list string)
    (mapping : option (list (Z * hash_value))) (reqs : option (list (Z * req_value)))
    (catalog : option string) : result HashSplitAssigner :=
  let* _ := raise_if (count <=? 0) (ValueError "source_partition_count must be positive") in
  let* (refs, objects) := build_source_partition_mapping count mapping objects in
  let* reqs := normalize_node_requirements count catalog reqs in
  Ok {| h_source_partition_count := count;
        h_partitioned_sources := list_to_set partitioned;
        h_replicated_sources := list_to_set replicated;
        h_all_sources := list_to_set partitioned ∪ list_to_set replicated;
        h_catalog_requirement := catalog; h_source_sequences := ∅;
        h_objects := objects; h_mapping := refs; h_node_requirements := reqs;
        h_created_task_partitions := ∅; h_completed_sources := ∅; h_replicated_splits := ∅;
        h_all_task_partitions_created := false |}.

(** The object of a source partition. *)
Definition task_partition_ref (self : HashSplitAssigner) (k : Z) : nat :=
  default O (self.(h_mapping) !! Z.to_nat k).
Definition object_at (objects : list HashTaskPartition) (r : nat) : HashTaskPartition :=
  default (MkHashTask 1 None [] 0) (objects !! r).

(** One iteration of the first loop of [_create_task_partitions]: the
    object of source partition [k] gets its ids, and the ids get the node
    requirements of the first source partition that names them. *)
Definition create_ids_for (self : HashSplitAssigner)
    (acc : Z * list (Z * NodeRequirements) * list HashTaskPartition) (k : Z) :=
  let '(next, requirements, objects) := acc in
  let r := task_partition_ref self k in
  let '(next, obj) := HashTask.ensure_ids next (object_at objects r) in
  let reqs := default (MkNodeRequirements None None true) (self.(h_node_requirements) !! Z.to_nat k) in
  (next,
   fold_left (fun d p => od_setdefault p reqs d) obj.(task_partition_ids) requirements,
   <[r := obj]> objects).

(** [_create_task_partitions] *)
Definition create_task_partitions (res : AssignmentResult) : ST HashSplitAssigner AssignmentResult :=
  let! s := sget in
  if s.(h_all_task_partitions_created) then sret res
  else
    let '(_, requirements, objects) :=
      fold_left (create_ids_for s) (seqZ 0 s.(h_source_partition_count)) (0, [], s.(h_objects)) in
    let ids := sortedZ (od_keys requirements) in
    let! _ := smodify (fun s => s <| h_objects := objects |>
                                  <| h_created_task_partitions ::= union (list_to_set ids) |>
                                  <| h_all_task_partitions_created := true |>) in
    sret (res <| partitions_added ::= fun l => l ++
                   map (fun p => MkPartitionInfo p (od_get p requirements)) ids |>
              <| no_more_partitions := true |>).

(** [_task_partition_for_source_partition] *)
Definition task_partition_for_source_partition (self : HashSplitAssigner) (k : Z) : result nat :=
  let* _ := raise_if ((k <? 0) || (self.(h_source_partition_count) <=? k))
    (ValueError "unknown source partition id") in
  Ok (task_partition_ref self k).

(** One split of a partitioned source. *)
Definition route_split (source : string) (res : AssignmentResult) (split : FteSplit)
    : ST HashSplitAssigner AssignmentResult :=
  let! s := sget in
  let! r := slift (task_partition_for_source_partition s split.(source_partition_id)) in
  let! (ids, obj) := slift (HashTask.ids_for_source source (object_at s.(h_objects) r)) in
  let! _ := smodify (fun s => s <| h_objects ::= insert r obj |>) in
  slift (rfoldM (fun res p => append_update res p source [split] false true false) res ids).

Definition created_sorted (s : HashSplitAssigner) : list Z :=
  sortedZ (elements s.(h_created_task_partitions)).

Definition assign (source : string) (inputs : list (list (pyval * pyval))) (no_more_inputs : bool)
    : ST HashSplitAssigner AssignmentResult :=
  let! s := sget in
  let! (splits, next) :=
    slift (splits_from_inputs source inputs (default 0 (s.(h_source_sequences) !! source))) in
  let! _ := smodify (fun s => s <| h_source_sequences ::= insert source next |>) in
  let! _ := smodify (fun s => if bool_decide (s.(h_all_sources) = ∅)
              then s <| h_partitioned_sources ::= union {[source]} |> <| h_all_sources := {[source]} |>
              else s) in
  let! res := create_task_partitions empty_result in
  let! s := sget in
  let! res :=
    if bool_decide (source ∈ s.(h_replicated_sources)) then
      let! _ := smodify (fun s => s <| h_replicated_splits ::= fun m =>
                  <[source := default [] (m !! source) ++ splits]> m |>) in
      slift (rfoldM (fun res p => append_update res p source splits no_more_inputs false true)
        res (created_sorted s))
    else sfold splits (route_split source) res in
  if no_more_inputs then
    let! _ := smodify (fun s => s <| h_completed_sources ::= union {[source]} |>) in
    let! s := sget in
    let! res := slift (rfoldM (fun res p => append_update res p source [] true false false)
                  res (created_sorted s)) in
    if bool_decide (s.(h_all_sources) ⊆ s.(h_completed_sources)) then
      let! _ := smodify (fun s => s <| h_replicated_splits := ∅ |>) in
      sret (fold_left append_seal (created_sorted s) res)
    else sret res
  else sret res.

Definition finish : ST HashSplitAssigner AssignmentResult :=
  let! s := sget in
  let! _ := sraise_if (bool_decide (s.(h_created_task_partitions) = ∅))
    (RuntimeError "createdTaskPartitions is not expected to be empty") in
  sret empty_result.

End Hash.

#[local] Arguments HashTask.ensure_ids : simpl never.

(** ** The invariant *)

(** An object whose round-robin position is inside its ids, or which has no
    ids yet and starts at 0. *)
Definition task_ok (o : HashTaskPartition) : Prop :=
  0 < o.(sub_partition_count) /\ 0 <= o.(next_sub_partition) /\
  (o.(next_sub_partition) < Z.of_nat (length o.(task_partition_ids)) \/
   o.(task_partition_ids) = [] /\ o.(next_sub_partition) = 0).

Record hash_inv (s : HashSplitAssigner) : Prop := {
  hinv_count : 0 < s.(h_source_partition_count);
  hinv_mapping : Z.of_nat (length s.(h_mapping)) = s.(h_source_partition_count);
  hinv_refs : Forall (fun r => (r < length s.(h_objects))%nat) s.(h_mapping);
  hinv_objects : Forall task_ok s.(h_objects);
  hinv_created : s.(h_all_task_partitions_created) = true ->
    forall r o, r ∈ s.(h_mapping) -> s.(h_objects) !! r = Some o ->
      o.(task_partition_ids) <> [] /\ Forall (fun p => p ∈ s.(h_created_task_partitions)) o.(task_partition_ids);
}.

Lemma new_task_ok n v o : HashTask.new n v [] 0 = Ok o -> task_ok o.
Proof.
  unfold HashTask.new. intros H. inv_ok. apply Z.leb_gt in H0.
  unfold task_ok. simpl. split; [lia|]. split; [lia|]. by right.
Qed.

Lemma coerce_ok value objects r objects' :
  coerce_hash_task_partition value objects = Ok (r, objects') ->
  Forall task_ok objects -> (forall ref, value = HObj ref -> (ref < length objects)%nat) ->
  Forall task_ok objects' /\ (r < length objects')%nat /\ (length objects <= length objects')%nat.
Proof.
  intros H Ho Hr. destruct value as [ref|v]; simpl in H; [inv_ok; auto|].
  apply rbind_ok in H as (o & Hnew & H). inv_ok.
  assert (task_ok o).
  { destruct v; try discriminate; [by eapply new_task_ok..|].
    apply rbind_ok in Hnew as (c & _ & Hnew). by eapply new_task_ok. }
  rewrite length_app. simpl. split; [|lia]. apply Forall_app. split; [done|]. by constructor.
Qed.

Lemma build_mapping_ok mapping count objects refs objects' :
  Forall task_ok objects ->
  (forall k ref, od_get k (default (Hash.one_task_per_source_partition count) mapping) = Some (HObj ref) ->
     (ref < length objects)%nat) ->
  0 <= count ->
  Hash.build_source_partition_mapping count mapping objects = Ok (refs, objects') ->
  Forall task_ok objects' /\ Forall (fun r => (r < length objects')%nat) refs /\
  Z.of_nat (length refs) = count.
Proof.
  unfold Hash.build_source_partition_mapping. cbv zeta.
  generalize (default (Hash.one_task_per_source_partition count) mapping). intros m Ho Hm Hc.
  assert (Hlen : length (seqZ 0 count) = Z.to_nat count) by apply length_seqZ.
  assert (Hgen : forall l acc objs, Forall task_ok objs -> Forall (fun r => (r < length objs)%nat) acc ->
    (length objects <= length objs)%nat ->
    rfoldM (fun '(refs, objects) k =>
      match od_get k m with
      | None => Raise (ValueError "missing task partition mapping for source partition")
      | Some value =>
          let* (ref, objects) := coerce_hash_task_partition value objects in
          Ok (refs ++ [ref], objects)
      end) (acc, objs) l = Ok (refs, objects') ->
    Forall task_ok objects' /\ Forall (fun r => (r < length objects')%nat) refs /\
    length refs = (length acc + length l)%nat).
  { induction l as [|k l IH]; intros acc objs Ht Ha Hle H; simpl in H.
    - inv_ok. rewrite Nat.add_0_r. auto.
    - apply rbind_ok in H as ([acc1 objs1] & H1 & H). destruct (od_get k m) as [v|] eqn:Ev; [|discriminate].
      apply rbind_ok in H1 as ([r1 objs2] & H1 & H2). inv_ok.
      apply coerce_ok in H1 as (Ht1 & Hr1 & Hle1); [|done|intros ref ->; apply Hm in Ev; lia].
      apply IH in H as (? & ? & ->); [|done| |lia].
      + rewrite length_app. simpl. split_and!; [done..|lia].
      + apply Forall_app. split; [|by repeat constructor].
        eapply Forall_impl; [exact Ha|]. simpl. lia. }
  intros H. apply Hgen in H as (? & ? & ->); [|done|constructor|lia].
  split_and!; [done..|]. simpl. lia.
Qed.

(** A fresh assigner satisfies the invariant, whatever objects the caller
    shares between source partitions. *)
Lemma hash_new_inv objects count ps rs mapping reqs cat s :
  Forall task_ok objects ->
  (forall k ref, od_get k (default (Hash.one_task_per_source_partition count) mapping) = Some (HObj ref) ->
     (ref < length objects)%nat) ->
  Hash.new objects count ps rs mapping reqs cat = Ok s -> hash_inv s.
Proof.
  intros Ho Hm H. unfold Hash.new in H.
  apply rbind_ok in H as (u & Hc & H). apply raise_if_ok, Z.leb_gt in Hc.
  apply rbind_ok in H as ([refs objs] & Hb & H). apply rbind_ok in H as (rq & _ & H). inv_ok.
  apply build_mapping_ok in Hb as (H1 & H2 & H3); [|done..|lia]. by constructor.
Qed.

(** ** Creating the task partitions *)

Lemma ensure_ids_spec next o next' o' :
  HashTask.ensure_ids next o = (next', o') ->
  exists new, o' = o <| task_partition_ids := o.(task_partition_ids) ++ new |> /\
    new = seqZ next (next' - next) /\ next <= next' /\
    (0 < o.(sub_partition_count) -> o'.(task_partition_ids) <> []).
Proof.
  unfold HashTask.ensure_ids. intros [= <- <-]. eexists. split; [reflexivity|].
  split; [f_equal; lia|]. split; [lia|]. intros Hc. cbn.
  destruct o.(task_partition_ids) as [|x l]; [|done]. simpl.
  rewrite seqZ_cons by lia. done.
Qed.

Lemma setdefault_keys {V} (v : V) ids (d : list (Z * V)) (p : Z) :
  p ∈ od_keys (fold_left (fun d p => od_setdefault p v d) ids d) <-> p ∈ od_keys d \/ p ∈ ids.
Proof.
  revert d. induction ids as [|q ids IH]; intros d; simpl; [set_solver|].
  rewrite IH, elem_of_cons. unfold od_setdefault.
  destruct (od_get q d) as [w|] eqn:E.
  - assert (q ∈ od_keys d). { apply dec_stable. intros Hn. by apply od_get_None in Hn; rewrite Hn in E. }
    naive_solver.
  - unfold od_keys. rewrite map_app, elem_of_app. simpl. rewrite list_elem_of_singleton. naive_solver.
Qed.

Lemma setdefault_wf {V} (v : V) ids (d : list (Z * V)) :
  od_wf d -> od_wf (fold_left (fun d p => od_setdefault p v d) ids d).
Proof.
  revert d. induction ids as [|q ids IH]; intros d Hd; simpl; [done|]. apply IH.
  unfold od_setdefault. destruct (od_get q d) eqn:E; [done|]. apply od_get_None in E.
  unfold od_wf, od_keys in *. rewrite map_app. apply NoDup_app. split_and!; [done| |apply NoDup_singleton].
  by intros x Hx ->%list_elem_of_singleton.
Qed.

(** What the creation loop has established after the source partitions
    [done]: their objects own ids, all of them registered. *)
Record create_inv (s : HashSplitAssigner) (visited : list Z)
    (acc : Z * list (Z * NodeRequirements) * list HashTaskPartition) : Prop := {
  ci_next : 0 <= acc.1.1;
  ci_wf : od_wf acc.1.2;
  ci_len : length acc.2 = length s.(h_objects);
  ci_ok : Forall task_ok acc.2;
  ci_ids : forall k o, k ∈ visited -> acc.2 !! Hash.task_partition_ref s k = Some o ->
    o.(task_partition_ids) <> [] /\ Forall (fun p => p ∈ od_keys acc.1.2) o.(task_partition_ids);
}.

Lemma ref_bound s k :
  hash_inv s -> 0 <= k < s.(h_source_partition_count) ->
  Hash.task_partition_ref s k ∈ s.(h_mapping) /\ (Hash.task_partition_ref s k < length s.(h_objects))%nat.
Proof.
  intros Hs Hk. unfold Hash.task_partition_ref. pose proof (hinv_mapping _ Hs).
  destruct (lookup_lt_is_Some_2 s.(h_mapping) (Z.to_nat k)) as [r Er]; [lia|]. rewrite Er. simpl.
  split; [by eapply list_elem_of_lookup_2|].
  eapply (Forall_lookup_1 (fun r => (r < length s.(h_objects))%nat)); [apply Hs|exact Er].
Qed.

Lemma create_step s visited acc k :
  hash_inv s -> 0 <= k < s.(h_source_partition_count) ->
  create_inv s visited acc -> create_inv s (visited ++ [k]) (Hash.create_ids_for s acc k).
Proof.
  intros Hs Hk [Hn Hwf Hl Hok Hids]. destruct acc as [[next reqs] objs]; simpl in Hn, Hwf, Hl, Hok, Hids.
  destruct (ref_bound s k Hs Hk) as [_ Hr]. unfold Hash.create_ids_for. cbv zeta.
  set (r := Hash.task_partition_ref s k) in *.
  destruct (lookup_lt_is_Some_2 objs r) as [o Eo]; [lia|].
  destruct (HashTask.ensure_ids next (Hash.object_at objs r)) as [next' o'] eqn:E.
  unfold Hash.object_at in E. rewrite Eo in E. change (default _ (Some o)) with o in E.
  apply ensure_ids_spec in E as (new & Eo' & Hnew & Hle & Hne).
  assert (Hoo : task_ok o) by (eapply Forall_lookup_1; eauto).
  constructor; simpl.
  - lia.
  - by apply setdefault_wf.
  - by rewrite length_insert.
  - apply Forall_insert; [done|]. destruct Hoo as (H1 & H2 & H3). subst o'. unfold task_ok. cbn.
    split_and!; [done..|]. rewrite length_app. destruct H3 as [H3|[H3 H4]]; [left; lia|].
    rewrite H3 in *. destruct new as [|x new]; [by right|]. left. simpl. lia.
  - intros k' ok' Hk' Ek'. destruct (decide (Hash.task_partition_ref s k' = r)) as [Er|Er].
    + rewrite Er, list_lookup_insert_eq in Ek' by lia. injection Ek' as <-.
      split; [apply Hne, Hoo|]. apply Forall_forall. intros p Hp. apply setdefault_keys. by right.
    + rewrite list_lookup_insert_ne in Ek' by done. apply elem_of_app in Hk' as [Hk'|Hk'].
      * destruct (Hids k' ok' Hk' Ek') as [? Hf]. split; [done|].
        eapply Forall_impl; [exact Hf|]. intros p Hp. apply setdefault_keys. by left.
      * apply list_elem_of_singleton in Hk' as ->. done.
Qed.

Lemma create_loop s :
  hash_inv s ->
  create_inv s (seqZ 0 s.(h_source_partition_count))
    (fold_left (Hash.create_ids_for s) (seqZ 0 s.(h_source_partition_count)) (0, [], s.(h_objects))).
Proof.
  intros Hs.
  assert (Hgen : forall l visited acc, Forall (fun k => 0 <= k < s.(h_source_partition_count)) l ->
    create_inv s visited acc -> create_inv s (visited ++ l) (fold_left (Hash.create_ids_for s) l acc)).
  { induction l as [|k l IH]; intros visited acc Hl Hacc; simpl; [by rewrite app_nil_r|].
    apply Forall_cons in Hl as [Hk Hl]. rewrite (assoc app visited [k] l). by apply IH, create_step. }
  apply (Hgen _ []).
  - apply Forall_forall. intros k Hk%elem_of_seqZ. lia.
  - constructor; simpl; try done; [constructor|apply Hs|]. by intros k o ?%elem_of_nil.
Qed.

(** The fields that creating partitions and routing splits leave alone. *)
Definition same_config (s s' : HashSplitAssigner) : Prop :=
  s'.(h_source_partition_count) = s.(h_source_partition_count) /\
  s'.(h_mapping) = s.(h_mapping) /\ s'.(h_replicated_sources) = s.(h_replicated_sources) /\
  s'.(h_all_sources) = s.(h_all_sources) /\ s'.(h_completed_sources) = s.(h_completed_sources).

(** The first call announces, once each, the task partitions that exist then
    and did not before; later ones change nothing. *)
Definition announces (s : HashSplitAssigner) (res : AssignmentResult) (s' : HashSplitAssigner) (res' : AssignmentResult) : Prop :=
  if s.(h_all_task_partitions_created) then s' = s /\ res' = res
  else res'.(no_more_partitions) = true /\ exists infos, res'.(partitions_added) = res.(partitions_added) ++ infos /\
    NoDup (map pi_partition_id infos) /\
    forall p, p ∈ s'.(h_created_task_partitions) <-> p ∈ s.(h_created_task_partitions) \/ p ∈ map pi_partition_id infos.

Lemma create_wp res s :
  hash_inv s ->
  wp (Hash.create_task_partitions res)
    (fun res' s' => hash_inv s' /\ same_config s s' /\ s'.(h_all_task_partitions_created) = true /\
       res'.(partition_updates) = res.(partition_updates) /\
       res'.(sealed_partitions) = res.(sealed_partitions) /\ announces s res s' res')
    (fun _ _ => False) s.
Proof.
  intros Hs. unfold Hash.create_task_partitions. do 2 wp_step. wp_step; [wp_step; unfold announces; by rewrite Heqb|].
  pose proof (create_loop s Hs) as [Hn Hwf Hl Hok Hids].
  destruct (fold_left (Hash.create_ids_for s) _ _) as [[next reqs] objs]. simpl in Hn, Hwf, Hl, Hok, Hids.
  do 3 wp_step. split.
  2: { split; [by split_and!|]. split; [done|]. split; [done|]. split; [done|]. unfold announces. rewrite Heqb. split; [done|].
       exists (map (fun p => MkPartitionInfo p (od_get p reqs)) (sortedZ (od_keys reqs))). split; [done|].
       assert (Eids : map pi_partition_id (map (fun p => MkPartitionInfo p (od_get p reqs)) (sortedZ (od_keys reqs))) = sortedZ (od_keys reqs))
         by (rewrite map_map; apply map_id). rewrite Eids. split; [unfold sortedZ; by rewrite py_sorted_perm|].
       intros p. cbn. rewrite elem_of_union, elem_of_list_to_set. naive_solver. }
  destruct Hs as [H1 H2 H3 H4 H5].
  constructor; cbn; try done.
  - by rewrite Hl.
  - intros _ r o Hr Ho. apply list_elem_of_lookup in Hr as [i Hi].
    destruct (Hids (Z.of_nat i) o) as [Hne Hf].
    + apply elem_of_seqZ. apply lookup_lt_Some in Hi. lia.
    + unfold Hash.task_partition_ref. by rewrite Nat2Z.id, Hi.
    + split; [done|]. eapply Forall_impl; [exact Hf|]. intros p Hp.
      apply elem_of_union. left. apply elem_of_list_to_set. by apply py_sorted_elem.
Qed.

(** The ids handed out so far are those below [next]. *)
Definition fresh_inv (acc : Z * list (Z * NodeRequirements) * list HashTaskPartition) : Prop :=
  (forall p, p ∈ od_keys acc.1.2 <-> 0 <= p < acc.1.1) /\
  Forall (fun o => Forall (fun p => p ∈ od_keys acc.1.2) o.(task_partition_ids)) acc.2.

Lemma fresh_step s acc k :
  0 <= acc.1.1 -> (Hash.task_partition_ref s k < length acc.2)%nat ->
  fresh_inv acc -> fresh_inv (Hash.create_ids_for s acc k).
Proof.
  destruct acc as [[next reqs] objs]. intros Hn Hr [Hk Ho]. simpl in Hn, Hr, Hk, Ho.
  unfold Hash.create_ids_for. cbv zeta. set (r := Hash.task_partition_ref s k) in *.
  destruct (lookup_lt_is_Some_2 objs r) as [o Eo]; [done|].
  destruct (HashTask.ensure_ids next (Hash.object_at objs r)) as [next' o'] eqn:E.
  unfold Hash.object_at in E. rewrite Eo in E. change (default _ (Some o)) with o in E.
  apply ensure_ids_spec in E as (new & -> & -> & Hle & _).
  assert (Hold : Forall (fun p => p ∈ od_keys reqs) o.(task_partition_ids)) by (eapply Forall_lookup_1 in Ho; eauto).
  split; simpl.
  - intros p. rewrite setdefault_keys. cbn. rewrite elem_of_app, elem_of_seqZ, Hk.
    rewrite Forall_forall in Hold. specialize (Hold p). rewrite Hk in Hold.
    split; [intros [?|[?%Hold|?]]; lia|]. intros Hp. destruct (decide (p < next)); [left|right; right]; lia.
  - apply Forall_insert.
    + eapply Forall_impl; [exact Ho|]. intros x Hx. eapply Forall_impl; [exact Hx|].
      intros p Hp. apply setdefault_keys. by left.
    + apply Forall_forall. intros p Hp. apply setdefault_keys. by right.
Qed.

Lemma fresh_loop s visited l acc :
  hash_inv s -> Forall (fun k => 0 <= k < s.(h_source_partition_count)) l ->
  create_inv s visited acc -> fresh_inv acc -> fresh_inv (fold_left (Hash.create_ids_for s) l acc).
Proof.
  intros Hs. revert visited acc. induction l as [|k l IH]; intros visited acc Hl Hacc Hf; simpl; [done|].
  apply Forall_cons in Hl as [Hk Hl]. eapply IH; [done|by apply create_step|].
  apply fresh_step; [apply Hacc| |done]. rewrite (ci_len _ _ _ Hacc). by apply ref_bound.
Qed.

(** When the task-partition objects of a fresh assigner own no ids yet,
    the partitions it announces are exactly 0, 1, ..., n-1, each once, however
    the source partitions share the objects; the announcement is final. *)
Theorem hash_created_consecutive s res s' :
  hash_inv s -> s.(h_all_task_partitions_created) = false ->
  Forall (fun o => o.(task_partition_ids) = []) s.(h_objects) ->
  Hash.create_task_partitions empty_result s = (Ok res, s') ->
  exists n, 0 < n /\ NoDup (map pi_partition_id res.(partitions_added)) /\
    (forall p, p ∈ map pi_partition_id res.(partitions_added) <-> 0 <= p < n) /\
    res.(no_more_partitions) = true.
Proof.
  intros Hs Hc Ho H. unfold Hash.create_task_partitions in H. sstep H. rewrite Hc in H.
  pose proof (create_loop s Hs) as [Hn Hwf Hl Hok Hids].
  assert (Hf : fresh_inv (fold_left (Hash.create_ids_for s) (seqZ 0 s.(h_source_partition_count)) (0, [], s.(h_objects)))).
  { apply (fresh_loop s [] _ _ Hs).
    - apply Forall_forall. intros k Hk%elem_of_seqZ. lia.
    - constructor; simpl; try done; [constructor|apply Hs|]. by intros k o ?%elem_of_nil.
    - split; simpl.
      + intros p. split; [by intros ?%elem_of_nil|lia].
      + eapply Forall_impl; [exact Ho|]. intros o ->. constructor. }
  destruct (fold_left (Hash.create_ids_for s) _ _) as [[next reqs] objs].
  simpl in Hn, Hwf, Hl, Hok, Hids. destruct Hf as [Hk _]. simpl in Hk. srun H.
  assert (Eids : map pi_partition_id (map (fun p => MkPartitionInfo p (od_get p reqs)) (sortedZ (od_keys reqs)))
                 = sortedZ (od_keys reqs)) by (rewrite map_map; apply map_id).
  exists next. cbn. rewrite Eids. split_and!; [| |intros p; rewrite <- Hk; apply py_sorted_elem|done].
  - pose proof (hinv_count _ Hs) as Hcount. destruct (ref_bound s 0 Hs) as [_ Hb]; [lia|].
    rewrite <- Hl in Hb. destruct (lookup_lt_is_Some_2 _ _ Hb) as [o Eo].
    destruct (Hids 0 o) as [Hne Hfa]; [apply elem_of_seqZ; lia|done|].
    destruct o.(task_partition_ids) as [|p l]; [done|]. apply Forall_cons in Hfa as [Hp _].
    apply Hk in Hp. lia.
  - unfold sortedZ. rewrite py_sorted_perm. exact Hwf.
Qed.

Lemma demo_objects_ok : Forall task_ok [MkHashTask 2 (Some "a") [] 0; MkHashTask 1 None [] 0].
Proof. repeat apply Forall_cons_2; [| |constructor]; unfold task_ok; simpl; split_and!; try lia; by right. Qed.

Lemma demo_mapping_ok k ref :
  od_get k [(0, HObj 0); (1, HObj 1); (2, HObj 0)] = Some (HObj ref) -> (ref < 2)%nat.
Proof. simpl. repeat case_decide; intros [= <-]; lia. Qed.

Lemma hash_created_consecutive_witness :
  let objects := [MkHashTask 2 (Some "a") [] 0; MkHashTask 1 None [] 0] in
  exists s res s',
    Hash.new objects 3 ["a"] ["b"] (Some [(0, HObj 0); (1, HObj 1); (2, HObj 0)]) None None = Ok s /\
    Hash.create_task_partitions empty_result s = (Ok res, s') /\
    exists n, 0 < n /\ NoDup (map pi_partition_id res.(partitions_added)) /\
      (forall p, p ∈ map pi_partition_id res.(partitions_added) <-> 0 <= p < n) /\
      res.(no_more_partitions) = true.
Proof.
  eexists _, _, _. split; [vm_compute; reflexivity|].
  refine ((fun E => conj E (hash_created_consecutive _ _ _ _ _ _ E)) _).
  4: vm_compute; reflexivity.
  - eapply (hash_new_inv [MkHashTask 2 (Some "a") [] 0; MkHashTask 1 None [] 0] 3 ["a"] ["b"]
      (Some [(0, HObj 0); (1, HObj 1); (2, HObj 0)]) None None); [| |vm_compute; reflexivity].
    + exact demo_objects_ok.
    + exact demo_mapping_ok.
  - reflexivity.
  - by repeat constructor.
Defined.

(** ** Routing *)

(** How often a reference occurs among those already used. *)
Definition uses (r : nat) (seen : list nat) : Z := Z.of_nat (length (filter (fun x => x = r) seen)).

(** Closed form of the routing: a split for an object that is split by this
    source goes to the sub-partition in round-robin position, counted from
    the position of the object when the call starts; any other split goes to
    all sub-partitions of its object. *)
Fixpoint route_plan (s : HashSplitAssigner) (source : string) (seen : list nat) (splits : list FteSplit)
    : list (FteSplit * list Z) :=
  match splits with
  | [] => []
  | split :: splits =>
      let r := Hash.task_partition_ref s split.(source_partition_id) in
      let o := Hash.object_at s.(h_objects) r in
      (split,
       if bool_decide (o.(split_by_source) = Some source)
       then option_list (o.(task_partition_ids) !!
              Z.to_nat ((o.(next_sub_partition) + uses r seen) mod Z.of_nat (length o.(task_partition_ids))))
       else o.(task_partition_ids))
      :: route_plan s source (r :: seen) splits
  end.

Definition plan_updates (source : string) (plan : list (FteSplit * list Z)) : list PartitionUpdate :=
  flat_map (fun '(split, ids) => map (fun p => MkPartitionUpdate p source [split] false true) ids) plan.

(** The object at [r] after the uses in [seen]. *)
Definition advanced (source : string) (seen : list nat) (r : nat) (o : HashTaskPartition) : HashTaskPartition :=
  if bool_decide (o.(split_by_source) = Some source)
  then o <| next_sub_partition := (o.(next_sub_partition) + uses r seen) mod Z.of_nat (length o.(task_partition_ids)) |>
  else o.

Definition advances (s0 s : HashSplitAssigner) (source : string) (seen : list nat) : Prop :=
  same_config s0 s /\ s.(h_created_task_partitions) = s0.(h_created_task_partitions) /\
  s.(h_all_task_partitions_created) = s0.(h_all_task_partitions_created) /\
  length s.(h_objects) = length s0.(h_objects) /\
  forall r o, r ∈ s0.(h_mapping) -> s0.(h_objects) !! r = Some o ->
    s.(h_objects) !! r = Some (advanced source seen r o).

Lemma append_ready_fold source split ids res :
  rfoldM (fun res p => append_update res p source [split] false true false) res ids =
  Ok (res <| partition_updates ::= fun us => us ++ map (fun p => MkPartitionUpdate p source [split] false true) ids |>).
Proof.
  revert res. induction ids as [|p ids IH]; intros res; cbn [rfoldM map].
  - unfold set_field. rewrite app_nil_r. by destruct res.
  - rewrite append_update_ready. cbn [rbind]. rewrite IH. unfold set_field. cbn. by rewrite <- app_assoc.
Qed.

Lemma uses_cons r x seen : uses r (x :: seen) = uses r seen + (if decide (x = r) then 1 else 0).
Proof. unfold uses. rewrite filter_cons. case_decide; simpl; lia. Qed.

Lemma advanced_nil source r o : task_ok o -> o.(task_partition_ids) <> [] -> advanced source [] r o = o.
Proof.
  intros (_ & H1 & H2) Hne. unfold advanced. case_bool_decide; [|done].
  destruct H2 as [H2|[H2 _]]; [|done]. unfold uses. simpl. rewrite Z.add_0_r, Z.mod_small by lia.
  by destruct o.
Qed.

(** The ids the plan gives to one use of an object. *)
Definition planned_ids (source : string) (seen : list nat) (r : nat) (o : HashTaskPartition) : list Z :=
  if bool_decide (o.(split_by_source) = Some source)
  then option_list (o.(task_partition_ids) !!
         Z.to_nat ((o.(next_sub_partition) + uses r seen) mod Z.of_nat (length o.(task_partition_ids))))
  else o.(task_partition_ids).

Lemma ids_advanced source seen r o :
  o.(task_partition_ids) <> [] ->
  HashTask.ids_for_source source (advanced source seen r o) =
  Ok (planned_ids source seen r o, advanced source (r :: seen) r o).
Proof.
  intros Hne. unfold HashTask.ids_for_source, planned_ids, advanced.
  assert (Hlen : 0 < Z.of_nat (length o.(task_partition_ids))) by (destruct o.(task_partition_ids); [done|simpl; lia]).
  set (n := Z.of_nat (length o.(task_partition_ids))) in *.
  destruct (bool_decide (o.(split_by_source) = Some source)) eqn:E; cbn; rewrite E; [|done].
  pose proof (Z.mod_pos_bound (o.(next_sub_partition) + uses r seen) n Hlen) as Hb.
  rewrite py_index_nonneg by apply Hb.
  destruct (lookup_lt_is_Some_2 o.(task_partition_ids) (Z.to_nat ((o.(next_sub_partition) + uses r seen) mod n)))
    as [p Hp]; [lia|].
  rewrite Hp. cbn. rewrite uses_cons, decide_True by done.
  rewrite Zplus_mod_idemp_l, Z.add_assoc. done.
Qed.

Lemma advanced_other source seen r x o : x <> r -> advanced source (x :: seen) r o = advanced source seen r o.
Proof. intros Hne. unfold advanced. by rewrite uses_cons, decide_False, Z.add_0_r. Qed.

Lemma route_wp s0 s source seen split res :
  hash_inv s0 -> s0.(h_all_task_partitions_created) = true ->
  advances s0 s source seen -> 0 <= split.(source_partition_id) < s0.(h_source_partition_count) ->
  let r := Hash.task_partition_ref s0 split.(source_partition_id) in
  wp (Hash.route_split source res split)
    (fun res' s' => advances s0 s' source (r :: seen) /\
       res' = res <| partition_updates ::= fun us => us ++ plan_updates source (route_plan s0 source seen [split]) |>)
    (fun _ _ => False) s.
Proof.
  intros Hs0 Hc (Hcfg & E6 & E7 & E8 & Hobj) Hk r. pose proof Hcfg as (E1 & E2 & _).
  destruct (ref_bound s0 _ Hs0 Hk) as [Hin Hb]. fold r in Hin, Hb.
  destruct (lookup_lt_is_Some_2 _ _ Hb) as [o Eo]. pose proof (Hobj r o Hin Eo) as Eo'.
  destruct (hinv_created _ Hs0 Hc r o Hin Eo) as [Hne _].
  unfold Hash.route_split. do 4 wp_step.
  2: { unfold Hash.task_partition_for_source_partition in H. rewrite E1 in H.
       destruct (_ || _) eqn:E; [|discriminate]. apply orb_prop in E as [E%Z.ltb_lt|E%Z.leb_le]; lia. }
  assert (a = r) as ->.
  { unfold Hash.task_partition_for_source_partition in H. inv_ok.
    unfold r, Hash.task_partition_ref. by rewrite E2. }
  clear H. unfold Hash.object_at. rewrite Eo'. cbn [default from_option id]. rewrite ids_advanced by done.
  do 2 wp_step; [|done]. injection H as <-. do 2 wp_step.
  wp_step; rewrite append_ready_fold in H; [|done]. injection H as <-. split.
  - split; [done|]. split; [done|]. split; [done|]. cbn. rewrite length_insert. split; [done|].
    intros r' o' Hin' Eo1. destruct (decide (r = r')) as [<-|Hr].
    + rewrite list_lookup_insert_eq by lia. rewrite Eo in Eo1. by injection Eo1 as <-.
    + rewrite list_lookup_insert_ne by done. rewrite advanced_other by done. by apply Hobj.
  - unfold plan_updates. cbn [route_plan flat_map]. rewrite app_nil_r. fold r.
    unfold Hash.object_at. by rewrite Eo.
Qed.

Definition in_range (s : HashSplitAssigner) (split : FteSplit) : Prop :=
  0 <= split.(source_partition_id) < s.(h_source_partition_count).

Lemma route_all_wp s0 source splits :
  hash_inv s0 -> s0.(h_all_task_partitions_created) = true -> Forall (in_range s0) splits ->
  forall s seen res, advances s0 s source seen ->
  wp (sfold splits (Hash.route_split source) res)
    (fun res' s' => (exists seen', advances s0 s' source seen') /\
       res' = res <| partition_updates ::= fun us => us ++ plan_updates source (route_plan s0 source seen splits) |>)
    (fun _ _ => False) s.
Proof.
  intros Hs0 Hc. induction 1 as [|split splits Hk _ IH]; intros s seen res Ha; cbn [sfold].
  - wp_step. split; [eauto|]. unfold set_field, plan_updates. cbn. rewrite app_nil_r. by destruct res.
  - apply wp_bind. eapply wp_mono; [by apply (route_wp s0 s source seen split res)| |done].
    intros res1 s1 [Ha1 ->]. eapply wp_mono; [by apply IH| |done]. intros res2 s2 [Ha2 ->].
    split; [done|]. unfold set_field, plan_updates. cbn. rewrite app_nil_r, <- app_assoc. done.
Qed.

Lemma append_no_more_fold source ids res :
  rfoldM (fun res p => append_update res p source [] true false false) res ids =
  Ok (res <| partition_updates ::= fun us => us ++ map (fun p => MkPartitionUpdate p source [] true false) ids |>).
Proof.
  revert res. induction ids as [|p ids IH]; intros res; cbn [rfoldM map].
  - unfold set_field. rewrite app_nil_r. by destruct res.
  - cbn [append_update]. unfold append_update. cbn [negb andb is_empty rbind new_partition_update raise_if].
    rewrite IH. unfold set_field. cbn. by rewrite <- app_assoc.
Qed.

Lemma fold_seal_spec ids res :
  (fold_left append_seal ids res).(partition_updates) = res.(partition_updates) /\
  (fold_left append_seal ids res).(partitions_added) = res.(partitions_added) /\
  (fold_left append_seal ids res).(no_more_partitions) = res.(no_more_partitions) /\
  forall p, p ∈ (fold_left append_seal ids res).(sealed_partitions) <-> p ∈ res.(sealed_partitions) \/ p ∈ ids.
Proof.
  revert res. induction ids as [|q ids IH]; intros res; simpl; [set_solver|].
  destruct (IH (append_seal res q)) as (-> & -> & -> & H). rewrite append_seal_updates, append_seal_added.
  split_and!; [done|done|unfold append_seal; by case_bool_decide|]. intros p. rewrite H, append_seal_elem, elem_of_cons. naive_solver.
Qed.

Lemma created_sorted_elem s p : p ∈ Hash.created_sorted s <-> p ∈ s.(h_created_task_partitions).
Proof. unfold Hash.created_sorted, sortedZ. by rewrite py_sorted_elem, elem_of_elements. Qed.

(** The end of [assign]: no-more updates and, when every source has
    completed, the seals. *)
Lemma complete_wp source (no_more : bool) res s :
  wp (if no_more then
        let! _ := smodify (fun s => s <| h_completed_sources ::= union {[source]} |>) in
        let! s := sget in
        let! res := slift (rfoldM (fun res p => append_update res p source [] true false false)
                      res (Hash.created_sorted s)) in
        if bool_decide (s.(h_all_sources) ⊆ s.(h_completed_sources)) then
          let! _ := smodify (fun s => s <| h_replicated_splits := ∅ |>) in
          sret (fold_left append_seal (Hash.created_sorted s) res)
        else sret res
      else sret res)
    (fun res' s' =>
       res'.(partitions_added) = res.(partitions_added) /\ res'.(no_more_partitions) = res.(no_more_partitions) /\
       res'.(partition_updates) = res.(partition_updates) ++
         (if no_more then map (fun p => MkPartitionUpdate p source [] true false) (Hash.created_sorted s) else []) /\
       (forall p, p ∈ res'.(sealed_partitions) <-> p ∈ res.(sealed_partitions) \/
         (no_more = true /\ s.(h_all_sources) ⊆ {[source]} ∪ s.(h_completed_sources) /\
          p ∈ s.(h_created_task_partitions))))
    (fun _ _ => False) s.
Proof.
  destruct no_more.
  - do 6 wp_step; rewrite append_no_more_fold in H; [|discriminate]. injection H as <-.
    wp_step; [apply bool_decide_eq_true in Heqb|apply bool_decide_eq_false in Heqb]; cbn in Heqb.
    + do 3 wp_step. destruct (fold_seal_spec (Hash.created_sorted s) (res <| partition_updates ::= fun us =>
        us ++ map (fun p => MkPartitionUpdate p source [] true false) (Hash.created_sorted s) |>)) as (E1 & E2 & E0 & E3).
      split; [exact E2|]. split; [exact E0|]. split; [exact E1|]. intros p.
      etransitivity; [exact (E3 p)|]. rewrite created_sorted_elem. cbn. naive_solver.
    + wp_step. split; [done|]. split; [done|]. split; [done|]. intros p. cbn. naive_solver.
  - wp_step. split; [done|]. split; [done|]. split; [by rewrite app_nil_r|]. naive_solver.
Qed.

(** The state of the assigner when it has parsed the inputs: an assigner that
    was told no sources takes the first one that comes for its only one. *)
Definition begun (source : string) (next : Z) (s : HashSplitAssigner) : HashSplitAssigner :=
  let s := s <| h_source_sequences ::= insert source next |> in
  if bool_decide (s.(h_all_sources) = ∅)
  then s <| h_partitioned_sources ::= union {[source]} |> <| h_all_sources := {[source]} |> else s.

Lemma begun_inv source next s : hash_inv s -> hash_inv (begun source next s).
Proof. intros []. unfold begun. case_bool_decide; by constructor. Qed.

Lemma begun_same source next s : (begun source next s).(h_replicated_sources) = s.(h_replicated_sources) /\
  (begun source next s).(h_source_partition_count) = s.(h_source_partition_count) /\
  (begun source next s).(h_completed_sources) = s.(h_completed_sources) /\
  (begun source next s).(h_all_task_partitions_created) = s.(h_all_task_partitions_created).
Proof. unfold begun. by case_bool_decide. Qed.

(** What the splits of one call lead to: those of a replicated source go to
    every partition, those of another one where the plan says. *)
Definition expected_updates (ready : HashSplitAssigner) (source : string) (splits : list FteSplit) (no_more : bool) : list PartitionUpdate :=
  if bool_decide (source ∈ ready.(h_replicated_sources))
  then map (fun p => MkPartitionUpdate p source splits no_more false) (Hash.created_sorted ready)
  else plan_updates source (route_plan ready source [] splits).

Lemma append_all_fold source splits no_more ids res :
  rfoldM (fun res p => append_update res p source splits no_more false true) res ids =
  Ok (res <| partition_updates ::= fun us => us ++ map (fun p => MkPartitionUpdate p source splits no_more false) ids |>).
Proof.
  revert res. induction ids as [|p ids IH]; intros res; cbn [rfoldM map].
  - unfold set_field. rewrite app_nil_r. by destruct res.
  - unfold append_update. cbn [negb andb rbind new_partition_update raise_if]. rewrite IH. unfold set_field. cbn. by rewrite <- app_assoc.
Qed.

(** Delivering the splits, in a state in which the partitions exist. *)
Lemma deliver_wp source splits no_more made s :
  hash_inv s -> s.(h_all_task_partitions_created) = true -> (source ∉ s.(h_replicated_sources) -> Forall (in_range s) splits) ->
  wp (if bool_decide (source ∈ s.(h_replicated_sources)) then
        let! _ := smodify (fun s => s <| h_replicated_splits ::= fun m => <[source := default [] (m !! source) ++ splits]> m |>) in
        slift (rfoldM (fun res p => append_update res p source splits no_more false true) made (Hash.created_sorted s))
      else sfold splits (Hash.route_split source) made)
    (fun res s' => res = made <| partition_updates ::= fun us => us ++ expected_updates s source splits no_more |> /\
       s'.(h_created_task_partitions) = s.(h_created_task_partitions) /\ s'.(h_all_sources) = s.(h_all_sources) /\
       s'.(h_completed_sources) = s.(h_completed_sources))
    (fun _ _ => False) s.
Proof.
  intros Hs Hc Hr. unfold expected_updates. case_bool_decide as Hrep.
  - do 2 wp_step. rewrite append_all_fold. wp_step; [|done]. injection H as <-. done.
  - assert (Ha : advances s s source []).
    { split; [by split_and!|]. split_and!; [done..|]. intros r o Hin Ho. rewrite Ho.
      destruct (hinv_created _ Hs Hc r o Hin Ho) as [Hne _].
      rewrite advanced_nil; [done| |done]. eapply Forall_lookup_1; [apply Hs|exact Ho]. }
    eapply wp_mono; [apply (route_all_wp s source splits Hs Hc (Hr Hrep) s [] made Ha)| |done].
    intros res1 s2 ([seen ((_ & _ & _ & E4 & E5) & E6 & _)] & ->). done.
Qed.

(** ** The invariant is kept *)

Lemma advance_ok source o ids o' : task_ok o -> HashTask.ids_for_source source o = Ok (ids, o') ->
  task_ok o' /\ o'.(task_partition_ids) = o.(task_partition_ids).
Proof.
  intros (H1 & H2 & H3) H. unfold HashTask.ids_for_source in H. case_bool_decide; [|by injection H as _ <-].
  destruct (py_index _ _) as [p|] eqn:E; [|done]. injection H as _ <-. split; [|done].
  assert (Hlen : 0 < Z.of_nat (length o.(task_partition_ids))).
  { destruct H3 as [H3|[H3 H4]]; [lia|]. rewrite H3, H4 in E. by vm_compute in E. }
  pose proof (Z.mod_pos_bound (o.(next_sub_partition) + 1) _ Hlen). split; [done|]. split; [cbn; lia|]. left. cbn. lia.
Qed.

Lemma insert_object_inv r o o' s : hash_inv s -> s.(h_objects) !! r = Some o -> task_ok o' ->
  o'.(task_partition_ids) = o.(task_partition_ids) -> hash_inv (s <| h_objects ::= insert r o' |>).
Proof.
  intros [H1 H2 H3 H4 H5] Ho Hok Hids. constructor; cbn; try done.
  - by rewrite length_insert.
  - by apply Forall_insert.
  - intros Hc r' x Hr'. destruct (decide (r = r')) as [<-|].
    + rewrite list_lookup_insert_eq by (by eapply lookup_lt_Some). intros [= <-]. rewrite Hids. by apply (H5 Hc r o).
    + rewrite list_lookup_insert_ne by done. by apply H5.
Qed.

Lemma route_inv source res split : preserves hash_inv (Hash.route_split source res split).
Proof.
  apply preserves_wp. intros s Hs. unfold Hash.route_split. do 4 wp_step; [|done]. rename H into Hr. unfold Hash.task_partition_for_source_partition in Hr.
  apply rbind_ok in Hr as (u & Hk%raise_if_ok & [= <-]). apply orb_false_iff in Hk as [Hk1%Z.ltb_ge Hk2%Z.leb_gt].
  destruct (ref_bound s (source_partition_id split) Hs) as [_ Hb]; [lia|]. set (r := Hash.task_partition_ref _ _) in *.
  destruct (lookup_lt_is_Some_2 _ _ Hb) as [o Eo]. unfold Hash.object_at. rewrite Eo. cbn [default from_option id].
  do 2 wp_step; [|done]. destruct a as [ids obj]. rename select (HashTask.ids_for_source _ _ = _) into Hids0. apply advance_ok in Hids0 as [Hok Hids]; [|eapply Forall_lookup_1; [apply Hs|exact Eo]].
  assert (Hs' : hash_inv (s <| h_objects ::= insert r obj |>)) by (by eapply insert_object_inv). do 2 wp_step. by apply wp_lift.
Qed.

(** Every call leaves the assigner in order, also one that raises. *)
Lemma assign_inv source inputs no_more : preserves hash_inv (Hash.assign source inputs no_more).
Proof.
  unfold Hash.assign. apply preserves_bind; [apply preserves_get|intros s0]. apply preserves_bind; [apply preserves_lift|intros [splits next]].
  apply preserves_bind; [apply preserves_modify; by intros s []|intros _].
  apply preserves_bind; [apply preserves_modify; intros s Hs; case_bool_decide; [by destruct Hs|done]|intros _].
  apply preserves_bind; [|intros res].
  { apply preserves_wp. intros s Hs. eapply wp_mono; [by apply create_wp| |done]. by intros ? ? [? _]. }
  apply preserves_bind; [apply preserves_get|intros s1]. apply preserves_bind; [|intros res1].
  { case_bool_decide; [|apply preserves_fold; intros; apply route_inv].
    apply preserves_bind; [apply preserves_modify; by intros s []|intros _]. apply preserves_lift. }
  destruct no_more; [|apply preserves_ret]. apply preserves_bind; [apply preserves_modify; by intros s []|intros _].
  apply preserves_bind; [apply preserves_get|intros s2]. apply preserves_bind; [apply preserves_lift|intros res2].
  case_bool_decide; [|apply preserves_ret]. apply preserves_bind; [apply preserves_modify; by intros s []|intros _]. apply preserves_ret.
Qed.

(** C36: [assign] of the hash assigner, on the first call and on later ones,
    for a partitioned or a replicated source, always succeeds when its inputs
    parse and, for a partitioned source, name existing source partitions.
    The task partitions exist before anything is delivered; the first call
    announces those it creates, once each, and later calls announce nothing.
    The updates are, for a replicated source, one for every partition with
    all the splits, and otherwise those of the closed-form routing plan
    (round robin over the sub-partitions of an object split by this source,
    all sub-partitions of any other object), followed by the no-more updates;
    every partition is sealed exactly when this call completes the last
    source; and the assigner is in order for the next call. *)
Theorem hash_assign_routes source inputs no_more s splits next :
  hash_inv s ->
  splits_from_inputs source inputs (default 0 (s.(h_source_sequences) !! source)) = Ok (splits, next) ->
  (source ∉ s.(h_replicated_sources) -> Forall (in_range s) splits) ->
  exists made ready res s',
    Hash.create_task_partitions empty_result (begun source next s) = (Ok made, ready) /\
    hash_inv ready /\ ready.(h_all_task_partitions_created) = true /\ announces (begun source next s) empty_result ready made /\
    Hash.assign source inputs no_more s = (Ok res, s') /\ hash_inv s' /\
    res.(partitions_added) = made.(partitions_added) /\ res.(no_more_partitions) = made.(no_more_partitions) /\
    res.(partition_updates) = expected_updates ready source splits no_more ++
      (if no_more then map (fun p => MkPartitionUpdate p source [] true false) (Hash.created_sorted ready) else []) /\
    (forall p, p ∈ res.(sealed_partitions) <->
       no_more = true /\ ready.(h_all_sources) ⊆ {[source]} ∪ s.(h_completed_sources) /\ p ∈ ready.(h_created_task_partitions)).
Proof.
  intros Hs Hsp Hr. destruct (begun_same source next s) as (B1 & B2 & B3 & B4). pose proof (begun_inv source next s Hs) as Hb.
  pose proof (create_wp empty_result _ Hb) as Hcr. unfold wp in Hcr.
  destruct (Hash.create_task_partitions empty_result (begun source next s)) as [[made|e] ready] eqn:Ec; [|done].
  destruct Hcr as (Hi & (C1 & _ & C3 & C4 & C5) & Hc & U1 & U2 & Han).
  assert (W : wp (Hash.assign source inputs no_more) (fun res s' =>
    res.(partitions_added) = made.(partitions_added) /\ res.(no_more_partitions) = made.(no_more_partitions) /\
    res.(partition_updates) = expected_updates ready source splits no_more ++
      (if no_more then map (fun p => MkPartitionUpdate p source [] true false) (Hash.created_sorted ready) else []) /\
    (forall p, p ∈ res.(sealed_partitions) <->
       no_more = true /\ ready.(h_all_sources) ⊆ {[source]} ∪ s.(h_completed_sources) /\ p ∈ ready.(h_created_task_partitions))) (fun _ _ => False) s).
  { unfold Hash.assign. do 2 wp_step. rewrite Hsp. do 2 wp_step; [|done]. injection H as <-.
    do 4 wp_step. lazymatch goal with |- wp _ _ _ ?x => change x with (begun source next s) end. apply wp_bind. unfold wp at 1. rewrite Ec.
    do 2 wp_step. apply wp_bind. eapply wp_mono; [apply (deliver_wp source splits no_more made ready Hi Hc)| |done].
    { rewrite C3, B1. unfold in_range. by rewrite C1, B2. }
    intros res1 s2 (-> & E4 & E5 & E6). cbn beta.
    assert (Ecs : Hash.created_sorted s2 = Hash.created_sorted ready) by (unfold Hash.created_sorted; by rewrite E4).
    eapply wp_mono; [apply complete_wp| |done]. cbn beta. intros res2 s3 (F1 & F0 & F2 & F3).
    split; [exact F1|]. split; [exact F0|]. split; [by rewrite F2, Ecs; cbn; rewrite U1|].
    intros p. rewrite F3, E4, E5, E6, C5, B3. cbn. rewrite U2. split; [|by right]. intros [?%elem_of_nil|?]; done. }
  pose proof (assign_inv source inputs no_more s Hs) as Hs'.
  unfold wp in W. destruct (Hash.assign source inputs no_more s) as [[res|e] s']; [|done]. exists made, ready, res, s'. split_and!; try done; apply W.
Qed.

(** An assigner that has not created its partitions yet, with a replicated
    source beside the partitioned one. *)
Definition fresh_hash : HashSplitAssigner :=
  let objects := [MkHashTask 2 (Some "a") [] 0; MkHashTask 1 None [] 0] in
  match Hash.new objects 3 ["a"] ["b"] (Some [(0, HObj 0); (1, HObj 1); (2, HObj 0)]) None None with
  | Ok s => s
  | Raise _ => MkHash 1 ∅ ∅ ∅ None ∅ [] [] [] ∅ ∅ ∅ false
  end.

Lemma fresh_hash_inv : hash_inv fresh_hash.
Proof.
  unfold fresh_hash. destruct (Hash.new _ _ _ _ _ _ _) as [s|e] eqn:E; [|by vm_compute in E].
  by apply hash_new_inv in E; [|exact demo_objects_ok|exact demo_mapping_ok].
Qed.

(** The first call creates three partitions, delivers and completes "a";
    nothing is sealed, since "b" is to come. *)
Lemma hash_assign_routes_witness :
  let item k := pd_lit [("kind", PStr "scan"); ("source_partition_id", PInt k)] in
  (exists res, (Hash.assign "a" [item 0; item 2; item 1] true fresh_hash).1 = Ok res /\
    map pi_partition_id res.(partitions_added) = [0; 1; 2] /\
    map (fun u => (pu_partition_id u, length (pu_splits u))) res.(partition_updates) =
      [(0, 1%nat); (1, 1%nat); (2, 1%nat); (0, 0%nat); (1, 0%nat); (2, 0%nat)] /\ (1 ∉ res.(sealed_partitions))) /\
  hash_inv fresh_hash.
Proof.
  intros item. split; [|exact fresh_hash_inv].
  edestruct (hash_assign_routes "a" [item 0; item 2; item 1] true fresh_hash) as (made & ready & res & s' & Ec & _ & _ & _ & E & _ & Ha & _ & Hu & Hs).
  - apply fresh_hash_inv.
  - vm_compute. reflexivity.
  - intros _. repeat apply Forall_cons_2; [| | |constructor]; unfold in_range; simpl; split; try lia; vm_compute; reflexivity.
  - exists res. rewrite E. vm_compute in Ec. injection Ec as <- <-. split; [reflexivity|]. rewrite Ha, Hu. split; [reflexivity|].
    split; [vm_compute; reflexivity|]. intros (_ & Hall & _)%Hs. revert Hall.
    apply (bool_decide_eq_false_1 _). vm_compute. reflexivity.
Defined.
