(* ===== verification/Exchange.v ===== *)
(** * Exchange: which attempt of a sink is read

    Models [duckdb/runners/fte/fte_exchange.py]: the handles, the selector
    that lets the first finished attempt of each partition win, the tracker
    that the coordinator keeps per exchange, and the spooling manager with
    the directories it keeps under its exchange root. *)

From S2P Require Import Prelude PyStr PyVal FteTypes.

#[local] Open Scope string_scope.
#[local] Open Scope list_scope.
#[local] Open Scope Z_scope.

(** ** Handles *)

Record ExchangeSinkHandle := MkSinkHandle {
  sh_query_id : string;
  sh_exchange_id : string;
  sh_partition_id : Z;
}.
#[export] Instance ExchangeSinkHandle_eq_dec : EqDecision ExchangeSinkHandle.
Proof. solve_decision. Defined.

Record ExchangeSinkInstanceHandle := MkSinkInstance {
  si_sink_handle : ExchangeSinkHandle;
  si_attempt_id : Z;
  si_attempt_path : option string;
}.

Record ExchangeSourceHandle := MkSourceHandle {
  so_sink_handle : ExchangeSinkHandle;
  so_attempt_id : Z;
  so_attempt_path : option string;
  so_files : list string;
}.

Definition sink_handle_to_dict (h : ExchangeSinkHandle) : list (pyval * pyval) :=
  pd_lit [("query_id", PStr h.(sh_query_id)); ("exchange_id", PStr h.(sh_exchange_id));
          ("partition_id", PInt h.(sh_partition_id))].

Definition sink_instance_to_dict (h : ExchangeSinkInstanceHandle) : list (pyval * pyval) :=
  pd_lit ([("sink_handle", PDict (sink_handle_to_dict h.(si_sink_handle)));
           ("attempt_id", PInt h.(si_attempt_id))]
          ++ match h.(si_attempt_path) with Some p => [("attempt_path", PStr p)] | None => [] end).

Definition source_handle_to_dict (h : ExchangeSourceHandle) : list (pyval * pyval) :=
  pd_lit ([("sink_handle", PDict (sink_handle_to_dict h.(so_sink_handle)));
           ("attempt_id", PInt h.(so_attempt_id))]
          ++ match h.(so_attempt_path) with Some p => [("attempt_path", PStr p)] | None => [] end
          ++ match h.(so_files) with [] => [] | fs => [("files", PList (map PStr fs))] end).

(** ** Sink instances for an attempt *)

(** What the planner attaches to a task: a plain value or a handle object. *)
Inductive sink_instance := SIVal (v : pyval) | SIHandle (h : ExchangeSinkInstanceHandle).

(** [_sink_instance_payload] *)
Definition sink_instance_payload (i : sink_instance) : list (pyval * pyval) :=
  match i with
  | SIHandle h => sink_instance_to_dict h
  | SIVal (PDict d) => d
  | SIVal _ => []
  end.

(** [dict(v)] *)
Definition py_dict (v : pyval) : result (list (pyval * pyval)) :=
  match v with
  | PDict d => Ok d
  | v =>
      let* items := py_iter v in
      rfoldM (fun d item =>
          let* kv := py_iter item in
          match kv with
          | [k; v] => Ok (pd_put k v d)
          | _ => Raise (ValueError "dictionary update sequence element has wrong length")
          end) [] items
  end.

(** [s] as [(prefix, digits)] with the longest all-digit suffix. *)
Fixpoint split_trailing_digits (s : string) : string * string :=
  match s with
  | "" => ("", "")
  | String c s' =>
      let '(p, d) := split_trailing_digits s' in
      if String.eqb p "" && is_digit c then ("", String c d) else (String c p, d)
  end.

(** [s] without the suffix [suf], when it ends with it. *)
Definition strip_suffix (suf s : string) : option string :=
  if endswith s suf then Some (substring 0 (String.length s - String.length suf) s) else None.

(** The text a pattern ending in [$] is matched against, and what follows. *)
Definition split_final_newline (s : string) : string * string :=
  match strip_suffix (String (ascii_of_nat 10) "") s with
  | Some body => (body, String (ascii_of_nat 10) "")
  | None => (s, "")
  end.

(** [re.sub(r"(__attempt_)\d+$", ...)] *)
Definition replace_attempt (attempt : Z) (text : string) : string :=
  let '(body, nl) := split_final_newline text in
  let '(prefix, digits) := split_trailing_digits body in
  if String.eqb digits "" then text
  else match strip_suffix "__attempt_" prefix with
       | Some _ => prefix +:+ str_of_int attempt +:+ nl
       | None => text
       end.

(** [re.sub(r"(__sink_)\d+(__attempt_)\d+$", ...)] *)
Definition replace_sink_attempt (partition attempt : Z) (text : string) : string :=
  let '(body, nl) := split_final_newline text in
  let '(prefix, digits) := split_trailing_digits body in
  if String.eqb digits "" then text
  else match strip_suffix "__attempt_" prefix with
       | Some prefix =>
           let '(prefix, digits) := split_trailing_digits prefix in
           if String.eqb digits "" then text
           else match strip_suffix "__sink_" prefix with
                | Some _ => prefix +:+ str_of_int partition +:+ "__attempt_" +:+ str_of_int attempt +:+ nl
                | None => text
                end
       | None => text
       end.

Definition derive_exchange_sink_instance_for_attempt (i : sink_instance) (attempt_id : Z)
    (task_partition_id : option Z) : result sink_instance :=
  match sink_instance_payload i with
  | [] => Ok i
  | payload =>
      let* attempt_id := check_non_negative "attempt_id" attempt_id in
      let derived := pd_set "attempt_id" (PInt attempt_id) payload in
      let preserve := truthy (pd_get "preserve_plan_exchange_sink_instance" derived) in
      let* derived :=
        match task_partition_id with
        | None => Ok derived
        | Some p =>
            let* p := check_non_negative "task_partition_id" p in
            if preserve then Ok derived
            else
              let derived := pd_set "task_partition_id" (PInt p) derived in
              let derived := pd_set "partition_id" (PInt p) derived in
              let* handle := py_dict (py_or (pd_get "sink_handle" derived) (PDict [])) in
              let handle := pd_set "task_partition_id" (PInt p) handle in
              let handle := pd_set "partition_id" (PInt p) handle in
              Ok (pd_set "sink_handle" (PDict handle) derived)
        end in
      let location := py_or (pd_get "output_location" derived) (pd_get "attempt_path" derived) in
      if is_none location then Ok (SIVal (PDict derived))
      else
        let text := py_str location in
        let replaced := match task_partition_id with
                        | Some p => if preserve then replace_attempt attempt_id text
                                    else replace_sink_attempt p attempt_id text
                        | None => replace_attempt attempt_id text
                        end in
        if negb (String.eqb replaced text) then
          let derived := pd_set "output_location" (PStr replaced) derived in
          Ok (SIVal (PDict (if pd_mem "attempt_path" derived
                            then pd_set "attempt_path" (PStr replaced) derived else derived)))
        else if pd_mem "attempt_path" derived && negb (pd_mem "output_location" derived)
        then Ok (SIVal (PDict (pd_set "output_location" (PStr text) derived)))
        else Ok (SIVal (PDict derived))
  end.

(** [_partition_key_from_arrow_path], on the components of the two paths. *)
Fixpoint relative_to (path root : list string) : option (list string) :=
  match root, path with
  | [], path => Some path
  | r :: root, p :: path => if String.eqb r p then relative_to path root else None
  | _ :: _, [] => None
  end.

Fixpoint first_partition_token (components : list string) : option string :=
  match components with
  | [] => None
  | c :: l =>
      if negb (startswith c "partition_") then first_partition_token l
      else
        let token := default "" (hd_error (split1 "_" (sdrop (String.length "partition_") c))) in
        if isdigit token then Some token else first_partition_token l
  end.

Definition partition_key_from_arrow_path (path root : list string) : string :=
  let parts := default path (relative_to path root) in
  default "unknown" (first_partition_token (rev parts)).

(** ** [FteExchangeSourceOutputSelector] *)

Record Selector := MkSelector {
  sel_selected : gmap Z Z;
  sel_finished : gmap Z (gset Z);
  sel_aborted : gmap Z (gset Z);
  sel_final : bool;
  sel_required : option (gset Z);
}.
#[export] Instance Selector_eta : Eta Selector :=
  fun r => MkSelector r.(sel_selected) r.(sel_finished) r.(sel_aborted) r.(sel_final)
    r.(sel_required).

(** [d.setdefault(k, set()).add(v)] *)
Definition add_to (k v : Z) (d : gmap Z (gset Z)) : gmap Z (gset Z) :=
  <[k := {[v]} ∪ default ∅ (d !! k)]> d.

(** [d.setdefault(k, set())], evaluated before what is added is checked. *)
Definition open_at (k : Z) (d : gmap Z (gset Z)) : gmap Z (gset Z) := <[k := default ∅ (d !! k)]> d.

Module OutputSelector.

Definition new : Selector := MkSelector ∅ ∅ ∅ false None.

Definition record_finished (partition attempt : Z) : ST Selector bool :=
  let! partition := slift (check_non_negative "partition_id" partition) in
  let! attempt := slift (check_non_negative "attempt_id" attempt) in
  let! s := sget in
  if s.(sel_final) then
    let! _ := sraise_if (match s.(sel_required) with
                         | None => true
                         | Some r => negb (bool_decide (partition ∈ r))
                         end) (RuntimeError "cannot record a finished attempt after selector is final") in
    let! _ := smodify (fun s => s <| sel_finished ::= add_to partition attempt |>) in
    sret false
  else
    let! _ := smodify (fun s => s <| sel_finished ::= add_to partition attempt |>) in
    match s.(sel_selected) !! partition with
    | Some _ => sret false
    | None =>
        let! _ := smodify (fun s => s <| sel_selected ::= insert partition attempt |>) in
        sret true
    end.

Definition record_aborted (partition attempt : Z) : ST Selector unit :=
  let! s := sget in
  if s.(sel_final) then sret tt
  else
    let! partition := slift (check_non_negative "partition_id" partition) in
    let! attempt := slift (check_non_negative "attempt_id" attempt) in
    smodify (fun s => s <| sel_aborted ::= add_to partition attempt |>).

Definition selected_attempt (s : Selector) (partition : Z) : result (option Z) :=
  let* partition := check_non_negative "partition_id" partition in
  Ok (s.(sel_selected) !! partition).

Definition try_mark_final (required : gset Z) : ST Selector bool :=
  let! _ := slift (rmapM (check_non_negative "partition_id") (elements required)) in
  let! s := sget in
  if bool_decide (required = ∅) then
    let! _ := sraise_if (bool_decide (s.(sel_selected) <> ∅))
      (RuntimeError "cannot mark selector final with unrequired selected partitions") in
    sret false
  else if s.(sel_final) then
    let! _ := sraise_if (bool_decide (s.(sel_required) <> Some required))
      (RuntimeError "cannot mark selector final with different required partitions") in
    sret false
  else
    let! _ := sraise_if (bool_decide (dom s.(sel_selected) ∖ required <> (∅ : gset Z)))
      (RuntimeError "cannot mark selector final with unrequired selected partitions") in
    if bool_decide (required ⊆ dom s.(sel_selected)) then
      let! _ := smodify (fun s => s <| sel_final := true |> <| sel_required := Some required |>) in
      sret true
    else sret false.

End OutputSelector.

(** ** [FteExchangeTracker] *)

Record Tracker := MkTracker {
  tr_query_id : string;
  tr_exchange_id : string;
  tr_sinks : gmap Z ExchangeSinkHandle;
  tr_finished : gmap Z (gset Z);
  tr_aborted : gmap Z (gset Z);
  tr_selected : gmap Z Z;
  tr_selector : Selector;
}.
#[export] Instance Tracker_eta : Eta Tracker :=
  fun r => MkTracker r.(tr_query_id) r.(tr_exchange_id) r.(tr_sinks) r.(tr_finished)
    r.(tr_aborted) r.(tr_selected) r.(tr_selector).

Module ExchangeTracker.

Definition new (query exchange : string) : Tracker :=
  MkTracker query exchange ∅ ∅ ∅ ∅ OutputSelector.new.

(** An operation of the selector the tracker owns. *)
Definition on_selector {A} (m : ST Selector A) : ST Tracker A :=
  szoom tr_selector (fun sel t => t <| tr_selector := sel |>) m.

(** [_require_sink] *)
Definition require_sink (h : ExchangeSinkHandle) : ST Tracker unit :=
  let! t := sget in
  sraise_if (bool_decide (t.(tr_sinks) !! h.(sh_partition_id) <> Some h)) (KeyError "unknown exchange sink").

Definition add_sink (partition : Z) : ST Tracker ExchangeSinkHandle :=
  let! partition := slift (check_non_negative "partition_id" partition) in
  let! t := sget in
  match t.(tr_sinks) !! partition with
  | Some h => sret h
  | None =>
      let! _ := sraise_if t.(tr_selector).(sel_final)
        (RuntimeError "cannot add exchange sink after selector is final") in
      let h := MkSinkHandle t.(tr_query_id) t.(tr_exchange_id) partition in
      let! _ := smodify (fun t => t <| tr_sinks ::= insert partition h |>) in
      sret h
  end.

Definition instantiate_sink (h : ExchangeSinkHandle) (attempt : Z) : ST Tracker ExchangeSinkInstanceHandle :=
  let! _ := require_sink h in
  let! attempt := slift (check_non_negative "attempt_id" attempt) in
  sret (MkSinkInstance h attempt None).

Definition sink_finished (h : ExchangeSinkHandle) (attempt : Z) : ST Tracker unit :=
  let! _ := require_sink h in
  let! attempt := slift (check_non_negative "attempt_id" attempt) in
  let partition := h.(sh_partition_id) in
  let! selected := on_selector (OutputSelector.record_finished partition attempt) in
  let! _ := smodify (fun t => t <| tr_finished ::= add_to partition attempt |>) in
  if selected : bool then smodify (fun t => t <| tr_selected ::= insert partition attempt |>) else sret tt.

Definition sink_aborted (h : ExchangeSinkHandle) (attempt : Z) : ST Tracker unit :=
  let! _ := require_sink h in
  let! _ := smodify (fun t => t <| tr_aborted ::= open_at h.(sh_partition_id) |>) in
  let! a := slift (check_non_negative "attempt_id" attempt) in
  let! _ := smodify (fun t => t <| tr_aborted ::= add_to h.(sh_partition_id) a |>) in
  on_selector (OutputSelector.record_aborted h.(sh_partition_id) attempt).

Definition selected_attempt (h : ExchangeSinkHandle) : ST Tracker (option Z) :=
  let! _ := require_sink h in
  let! t := sget in
  sret (t.(tr_selected) !! h.(sh_partition_id)).

Definition finalize : ST Tracker bool :=
  let! t := sget in
  on_selector (OutputSelector.try_mark_final (dom t.(tr_sinks))).

Definition is_final (t : Tracker) : bool := t.(tr_selector).(sel_final).

(** [sorted(self._selected_attempts.items())] *)
Definition sorted_selected (t : Tracker) : list (Z * Z) :=
  py_sorted (fun a b => a.1 <=? b.1) (map_to_list t.(tr_selected)).

Definition get_source_handles (t : Tracker) : result (list ExchangeSourceHandle) :=
  rmapM (fun '(p, a) =>
      match t.(tr_sinks) !! p with
      | Some h => Ok (MkSourceHandle h a None [])
      | None => Raise (KeyError "partition")
      end) (sorted_selected t).

End ExchangeTracker.

(** ** [SpoolingExchangeManager]

    The manager's part of the file system: the sink directories, and per
    attempt directory the data files, the files listed in its manifest, and
    its markers.  An attempt directory is named by its sink and attempt. *)

Record AttemptDir := MkAttemptDir {
  ad_files : gmap string string;
  ad_manifest : option (list string);
  ad_committed : bool;
  ad_aborted : bool;
}.
#[export] Instance AttemptDir_eta : Eta AttemptDir :=
  fun r => MkAttemptDir r.(ad_files) r.(ad_manifest) r.(ad_committed) r.(ad_aborted).

Record Spool := MkSpool {
  sp_tracker : Tracker;
  sp_exchange_root : string;
  sp_sink_dirs : gset Z;
  sp_attempts : gmap (Z * Z) AttemptDir;
}.
#[export] Instance Spool_eta : Eta Spool :=
  fun r => MkSpool r.(sp_tracker) r.(sp_exchange_root) r.(sp_sink_dirs) r.(sp_attempts).

Module Spooling.

Definition empty_dir : AttemptDir := MkAttemptDir ∅ None false false.

(** [__init__] *)
Definition new (base query exchange : string) : Spool :=
  MkSpool (ExchangeTracker.new query exchange)
    (base +:+ "/" +:+ query +:+ "/" +:+ exchange) ∅ ∅.

(** A method of the base class. *)
Definition super {A} (m : ST Tracker A) : ST Spool A :=
  szoom sp_tracker (fun t s => s <| sp_tracker := t |>) m.

(** [str(self._attempt_dir(...))] *)
Definition attempt_path (s : Spool) (h : ExchangeSinkHandle) (attempt : Z) : string :=
  s.(sp_exchange_root) +:+ "/sink_" +:+ str_of_int h.(sh_partition_id)
    +:+ "/attempt_" +:+ str_of_int attempt.

Definition dir_of (s : Spool) (h : ExchangeSinkHandle) (attempt : Z) : AttemptDir :=
  default empty_dir (s.(sp_attempts) !! (h.(sh_partition_id), attempt)).

(** [attempt_dir.mkdir(parents=True, exist_ok=True)] *)
Definition mkdir_attempt (h : ExchangeSinkHandle) (attempt : Z) : ST Spool unit :=
  smodify (fun s => s <| sp_sink_dirs ::= union {[h.(sh_partition_id)]} |>
                      <| sp_attempts := <[(h.(sh_partition_id), attempt) := dir_of s h attempt]> s.(sp_attempts) |>).

(** A write inside an existing attempt directory. *)
Definition write_attempt (h : ExchangeSinkHandle) (attempt : Z) (f : AttemptDir -> AttemptDir) : ST Spool unit :=
  smodify (fun s => s <| sp_attempts ::= alter f (h.(sh_partition_id), attempt) |>).

(** [sorted(path.name for path in attempt_dir.glob("partition_*_*.arrow"))] *)
Definition data_file_names (d : AttemptDir) : list string := sorted_str (map fst (map_to_list d.(ad_files))).

Definition add_sink (partition : Z) : ST Spool ExchangeSinkHandle :=
  let! h := super (ExchangeTracker.add_sink partition) in
  let! _ := smodify (fun s => s <| sp_sink_dirs ::= union {[h.(sh_partition_id)]} |>) in
  sret h.

Definition instantiate_sink (h : ExchangeSinkHandle) (attempt : Z) : ST Spool ExchangeSinkInstanceHandle :=
  let! _ := super (ExchangeTracker.require_sink h) in
  let! attempt := slift (check_non_negative "attempt_id" attempt) in
  let! _ := mkdir_attempt h attempt in
  let! s := sget in
  sret (MkSinkInstance h attempt (Some (attempt_path s h attempt))).

Definition record_output_file (i : ExchangeSinkInstanceHandle) (output_partition : Z) (file_id data : string)
    : ST Spool string :=
  let h := i.(si_sink_handle) in
  let! _ := super (ExchangeTracker.require_sink h) in
  let! p := slift (check_non_negative "output_partition_id" output_partition) in
  let! _ := sraise_if (contains file_id "/" || contains file_id "\")
    (ValueError "file_id must not contain path separators") in
  let! attempt := slift (check_non_negative "attempt_id" i.(si_attempt_id)) in
  let! _ := mkdir_attempt h attempt in
  let name := "partition_" +:+ str_of_int p +:+ "_" +:+ file_id +:+ ".arrow" in
  let! _ := write_attempt h attempt (fun d => d <| ad_files ::= insert name data |>) in
  let! s := sget in
  sret (attempt_path s h attempt +:+ "/" +:+ name).

Definition finish_attempt (i : ExchangeSinkInstanceHandle) : ST Spool unit :=
  let h := i.(si_sink_handle) in
  let! _ := super (ExchangeTracker.require_sink h) in
  let! attempt := slift (check_non_negative "attempt_id" i.(si_attempt_id)) in
  let! _ := mkdir_attempt h attempt in
  let! s := sget in
  let files := data_file_names (dir_of s h attempt) in
  let! _ := write_attempt h attempt (fun d => d <| ad_manifest := Some files |>) in
  write_attempt h attempt (fun d => d <| ad_committed := true |>).

Definition sink_finished (h : ExchangeSinkHandle) (attempt : Z) : ST Spool unit :=
  let! _ := super (ExchangeTracker.sink_finished h attempt) in
  let! attempt := slift (check_non_negative "attempt_id" attempt) in
  let! _ := mkdir_attempt h attempt in
  let! s := sget in
  let! _ := match (dir_of s h attempt).(ad_manifest) with
            | Some _ => sret tt
            | None => finish_attempt (MkSinkInstance h attempt (Some (attempt_path s h attempt)))
            end in
  write_attempt h attempt (fun d => d <| ad_committed := true |>).

Definition sink_aborted (h : ExchangeSinkHandle) (attempt : Z) : ST Spool unit :=
  let! _ := super (ExchangeTracker.sink_aborted h attempt) in
  let! attempt := slift (check_non_negative "attempt_id" attempt) in
  let! _ := mkdir_attempt h attempt in
  write_attempt h attempt (fun d => d <| ad_aborted := true |>).

(** [_read_manifest], the field the caller reads *)
Definition read_manifest_files (d : AttemptDir) : list string :=
  match d.(ad_manifest) with Some files => files | None => data_file_names d end.

Definition get_source_handles (s : Spool) : result (list ExchangeSourceHandle) :=
  rmapM (fun '(p, a) =>
      match s.(sp_tracker).(tr_sinks) !! p with
      | Some h =>
          let* a := check_non_negative "attempt_id" a in
          let path := attempt_path s h a in
          let files := map (fun name => path +:+ "/" +:+ name) (read_manifest_files (dir_of s h a)) in
          Ok (MkSourceHandle h a (Some path) files)
      | None => Raise (KeyError "partition")
      end) (ExchangeTracker.sorted_selected s.(sp_tracker)).

(** The inner loop of [cleanup_unselected_attempts]: the attempt directories
    of one sink. *)
Definition cleanup_sink (p : Z) (selected : option Z) (removed : Z) : ST Spool Z :=
  let! s := sget in
  sfold (filter (fun k => k.1 = p) (map fst (map_to_list s.(sp_attempts))))
    (fun removed k =>
       if bool_decide (selected = Some k.2) then sret removed
       else
         let! _ := smodify (fun s => s <| sp_attempts ::= delete k |>) in
         sret (removed + 1))
    removed.

Definition cleanup_unselected_attempts : ST Spool Z :=
  let! s := sget in
  sfold (map_to_list s.(sp_tracker).(tr_sinks))
    (fun removed '(p, h) =>
       let! s := sget in
       if bool_decide (h.(sh_partition_id) ∈ s.(sp_sink_dirs))
       then cleanup_sink h.(sh_partition_id) (s.(sp_tracker).(tr_selected) !! p) removed
       else sret removed)
    0.

Definition close : ST Spool unit := let! _ := cleanup_unselected_attempts in sret tt.

Definition destroy_query : ST Spool unit :=
  smodify (fun s => s <| sp_sink_dirs := ∅ |> <| sp_attempts := ∅ |>).

End Spooling.
