(* ===== verification/ExchangeProofs.v ===== *)
(** * Properties of the exchange

    The tracker implements "the first finished attempt of a partition is the
    one that is read": for every sequence of operations, failing ones
    included, the selected attempts are those of a first-wins register per
    partition, and they never change once the exchange is final. *)

From S2P Require Import Prelude PyStr PyVal FteTypes Exchange.

#[local] Open Scope string_scope.
#[local] Open Scope list_scope.
#[local] Open Scope Z_scope.

(** ** Runs of a tracker *)

Inductive tracker_op :=
| OpAddSink (partition : Z)
| OpInstantiate (h : ExchangeSinkHandle) (attempt : Z)
| OpFinished (h : ExchangeSinkHandle) (attempt : Z)
| OpAborted (h : ExchangeSinkHandle) (attempt : Z)
| OpFinalize.

Definition discard {S A} (m : ST S A) : ST S unit := let! _ := m in sret tt.

Definition apply_op (op : tracker_op) : ST Tracker unit :=
  match op with
  | OpAddSink p => discard (ExchangeTracker.add_sink p)
  | OpInstantiate h a => discard (ExchangeTracker.instantiate_sink h a)
  | OpFinished h a => ExchangeTracker.sink_finished h a
  | OpAborted h a => ExchangeTracker.sink_aborted h a
  | OpFinalize => discard ExchangeTracker.finalize
  end.

(** The state after a sequence of calls, whether they return or raise, and
    the finish reports that were accepted. *)
Fixpoint tracker_run (t : Tracker) (ops : list tracker_op) : Tracker :=
  match ops with
  | [] => t
  | op :: ops => tracker_run (snd (apply_op op t)) ops
  end.

Definition accepted (op : tracker_op) (t : Tracker) : list (Z * Z) :=
  match op with
  | OpFinished h a => if is_ok (fst (apply_op op t)) then [(h.(sh_partition_id), a)] else []
  | _ => []
  end.

Fixpoint finish_log (t : Tracker) (ops : list tracker_op) : list (Z * Z) :=
  match ops with
  | [] => []
  | op :: ops => accepted op t ++ finish_log (snd (apply_op op t)) ops
  end.

(** The abstract specification: a register per partition that keeps the
    first value written. *)
Definition first_wins (log : list (Z * Z)) (p : Z) : option Z := od_get p log.

(** ** The invariant *)

Record tracker_inv (t : Tracker) : Prop := {
  tinv_selected : t.(tr_selected) = t.(tr_selector).(sel_selected);
  tinv_handles : forall p h, t.(tr_sinks) !! p = Some h ->
    h = MkSinkHandle t.(tr_query_id) t.(tr_exchange_id) p /\ 0 <= p;
  tinv_sinks : dom t.(tr_selected) ⊆ dom t.(tr_sinks);
  tinv_finished : forall p a, t.(tr_selected) !! p = Some a ->
    0 <= a /\ exists s, t.(tr_finished) !! p = Some s /\ a ∈ s;
  tinv_final : t.(tr_selector).(sel_final) = true ->
    t.(tr_selector).(sel_required) = Some (dom t.(tr_sinks)) /\
    dom t.(tr_sinks) ⊆ dom t.(tr_selected) /\ dom t.(tr_sinks) <> ∅;
}.

Lemma new_tracker_inv q e : tracker_inv (ExchangeTracker.new q e).
Proof. by constructor. Qed.

Lemma add_to_elem k v d : exists s, add_to k v d !! k = Some s /\ v ∈ s.
Proof. eexists. unfold add_to. rewrite lookup_insert_eq. split; [done|set_solver]. Qed.

Lemma add_to_keep k v d p a :
  (exists s, d !! p = Some s /\ a ∈ s) -> exists s, add_to k v d !! p = Some s /\ a ∈ s.
Proof.
  intros (s & Hs & Ha). unfold add_to. destruct (decide (k = p)) as [->|].
  - rewrite lookup_insert_eq, Hs. eexists. split; [done|]. simpl. set_solver.
  - rewrite lookup_insert_ne by done. eauto.
Qed.

(** [record_finished] on a selector whose final requirement covers its
    selected partitions. *)
Lemma record_finished_wp p a s :
  0 <= p -> 0 <= a -> (s.(sel_final) = true -> exists r, s.(sel_required) = Some r /\ (p ∈ r -> is_Some (s.(sel_selected) !! p))) ->
  wp (OutputSelector.record_finished p a)
    (fun b s' => b = bool_decide (s.(sel_selected) !! p = None) /\
       s' = s <| sel_finished ::= add_to p a |>
              <| sel_selected ::= fun m => if b then <[p := a]> m else m |> /\
       (s.(sel_final) = true -> exists r, s.(sel_required) = Some r /\ p ∈ r))
    (fun _ s' => s' = s) s.
Proof.
  intros Hp Ha Hfin. unfold OutputSelector.record_finished.
  rewrite !check_non_negative_id by done.
  do 2 wp_step; [|done]. injection H as <-. do 2 wp_step; [|done]. injection H as <-.
  do 2 wp_step. wp_step.
  - destruct (Hfin eq_refl) as (r & Er & Hr). rewrite Er. do 2 wp_step; [|done].
    apply negb_false_iff, bool_decide_eq_true in H. do 3 wp_step.
    destruct (Hr H) as [x Ex]. rewrite Ex. split_and!; [done|by destruct s|eauto].
  - do 2 wp_step. wp_step.
    + wp_step. split_and!; [by rewrite bool_decide_eq_false_2|by destruct s|congruence].
    + do 3 wp_step. split_and!; [by rewrite bool_decide_eq_true_2|done|congruence].
Qed.

Lemma require_sink_wp h t :
  wp (ExchangeTracker.require_sink h) (fun _ t' => t' = t /\ t.(tr_sinks) !! h.(sh_partition_id) = Some h)
    (fun _ t' => t' = t) t.
Proof.
  unfold ExchangeTracker.require_sink. do 2 wp_step. wp_step; [|done]. split; [done|].
  by apply bool_decide_eq_false, dec_stable in H.
Qed.

Definition select_first (p a : Z) (m : gmap Z Z) : gmap Z Z :=
  match m !! p with Some _ => m | None => <[p := a]> m end.

Lemma sink_finished_wp h a t :
  tracker_inv t ->
  wp (ExchangeTracker.sink_finished h a)
    (fun _ t' => tracker_inv t' /\ t'.(tr_selected) = select_first h.(sh_partition_id) a t.(tr_selected) /\
       t'.(tr_sinks) = t.(tr_sinks) /\ ExchangeTracker.is_final t' = ExchangeTracker.is_final t)
    (fun _ t' => t' = t) t.
Proof.
  intros [I1 I2 I3 I4 I5]. unfold ExchangeTracker.sink_finished. wp_step.
  eapply wp_mono; [apply require_sink_wp| |done]. intros _ ? [-> Hh].
  destruct (I2 _ _ Hh) as [_ Hp]. do 2 wp_step; [|done].
  apply check_non_negative_ok in H as [-> Ha]. set (p := h.(sh_partition_id)) in *.
  unfold ExchangeTracker.on_selector. do 2 wp_step. eapply wp_mono; [apply record_finished_wp; [done..|]| |].
  - intros Hf. destruct (I5 Hf) as (Er & Hd & _). exists (dom t.(tr_sinks)). split; [done|].
    intros Hin. apply Hd in Hin. rewrite I1 in Hin. by apply elem_of_dom.
  - intros b s' (Hb & -> & Hr). unfold select_first. rewrite I1.
    destruct (t.(tr_selector).(sel_selected) !! p) as [x|] eqn:Ex;
      [rewrite bool_decide_eq_false_2 in Hb by done|rewrite bool_decide_eq_true_2 in Hb by done];
      subst b; do 2 wp_step; cbv iota; wp_step; (split; [|split_and!; cbn; rewrite ?I1; done]); constructor; cbn; try done.
    + intros q y Hq. destruct (I4 q y Hq). split; [done|]. by apply add_to_keep.
    + by rewrite I1.
    + rewrite dom_insert_L. apply elem_of_dom_2 in Hh. fold p in Hh. set_solver.
    + intros q y. destruct (decide (p = q)) as [<-|Hq].
      * rewrite lookup_insert_eq. intros [= <-]. split; [done|]. apply add_to_elem.
      * rewrite lookup_insert_ne by done. intros Hy. destruct (I4 q y Hy). split; [done|]. by apply add_to_keep.
    + intros Hf. destruct (I5 Hf) as (? & ? & ?). split_and!; [done| |done]. rewrite dom_insert_L. set_solver.
  - intros e s' ->. by destruct t.
Qed.

Lemma sink_aborted_wp h a t :
  tracker_inv t ->
  let good t' := tracker_inv t' /\ t'.(tr_selected) = t.(tr_selected) /\ t'.(tr_sinks) = t.(tr_sinks) /\
                 ExchangeTracker.is_final t' = ExchangeTracker.is_final t in
  wp (ExchangeTracker.sink_aborted h a) (fun _ => good) (fun _ => good) t.
Proof.
  intros Hinv good. assert (Hg : good t) by by split_and!.
  unfold ExchangeTracker.sink_aborted. wp_step.
  eapply wp_mono; [apply require_sink_wp| |by intros ? ? ->]. intros _ ? [-> Hh].
  assert (Hgood : forall ta sa, good (t <| tr_aborted := ta |> <| tr_selector ::= fun s => s <| sel_aborted := sa |> |>)).
  { intros ta sa. destruct Hinv. split; [by constructor|done]. }
  assert (Hg1 : forall ta, good (t <| tr_aborted := ta |>)).
  { intros ta. specialize (Hgood ta t.(tr_selector).(sel_aborted)).
    destruct t as [? ? ? ? ? ? []]. exact Hgood. }
  do 2 wp_step. do 2 wp_step; [|apply Hg1]. do 2 wp_step. unfold ExchangeTracker.on_selector, OutputSelector.record_aborted.
  wp_step. do 2 wp_step. wp_step; [wp_step; apply Hg1|].
  do 2 wp_step; [|apply Hg1]. do 2 wp_step; [|apply Hg1]. wp_step. apply Hgood.
Qed.

Lemma add_sink_wp p t :
  tracker_inv t ->
  wp (ExchangeTracker.add_sink p)
    (fun h t' => tracker_inv t' /\ t'.(tr_selected) = t.(tr_selected) /\
       ExchangeTracker.is_final t' = ExchangeTracker.is_final t /\
       t'.(tr_sinks) !! p = Some h /\ (ExchangeTracker.is_final t = true -> t' = t))
    (fun _ t' => t' = t) t.
Proof.
  intros Hinv. unfold ExchangeTracker.add_sink. do 2 wp_step; [|done].
  apply check_non_negative_ok in H as [-> Hp]. do 2 wp_step. wp_step; [by wp_step|].
  do 2 wp_step; [|done]. do 3 wp_step. split; [|split_and!; try done].
  - destruct Hinv as [I1 I2 I3 I4 I5]. constructor; cbn; try done.
    + intros q h. destruct (decide (p = q)) as [<-|Hq].
      * rewrite lookup_insert_eq. by intros [= <-].
      * rewrite lookup_insert_ne by done. apply I2.
    + rewrite dom_insert_L. set_solver.
    + intros Hf. congruence.
  - cbn. by rewrite lookup_insert_eq.
  - unfold ExchangeTracker.is_final. congruence.
Qed.

Lemma rmapM_check_ok name l :
  Forall (fun p => 0 <= p) l -> rmapM (check_non_negative name) l = Ok l.
Proof.
  induction 1 as [|p l Hp _ IH]; simpl; [done|]. by rewrite check_non_negative_id, IH.
Qed.

Lemma finalize_wp t :
  tracker_inv t ->
  wp ExchangeTracker.finalize
    (fun b t' => tracker_inv t' /\ t'.(tr_sinks) = t.(tr_sinks) /\ t'.(tr_selected) = t.(tr_selected) /\
       ExchangeTracker.is_final t' = ExchangeTracker.is_final t || b /\
       (b = true <-> ExchangeTracker.is_final t = false /\ dom t.(tr_sinks) <> ∅ /\
                     dom t.(tr_sinks) ⊆ dom t.(tr_selected)))
    (fun _ _ => False) t.
Proof.
  intros Hinv. pose proof Hinv as [I1 I2 I3 I4 I5].
  unfold ExchangeTracker.finalize, ExchangeTracker.on_selector, OutputSelector.try_mark_final, ExchangeTracker.is_final.
  do 3 wp_step. wp_step. rewrite rmapM_check_ok.
  2: { apply Forall_forall. intros p Hp. apply elem_of_elements, elem_of_dom in Hp as [h Hh]. by destruct (I2 p h Hh). }
  wp_step; [|done]. clear H. do 2 wp_step. wp_step.
  { apply bool_decide_eq_true in Heqb. assert (Hs : t.(tr_selected) = ∅).
    { apply dom_empty_inv_L. set_solver. }
    do 2 wp_step.
    - wp_step. split; [by destruct t|]. split_and!; try done; [by rewrite orb_false_r|]. naive_solver.
    - apply bool_decide_eq_true in H. rewrite <- I1 in H. done. }
  apply bool_decide_eq_false in Heqb. wp_step.
  { destruct (I5 eq_refl) as (E & _). do 2 wp_step.
    - wp_step. split; [by destruct t|]. split_and!; try done; naive_solver.
    - apply bool_decide_eq_true in H. done. }
  do 2 wp_step.
  2: { apply bool_decide_eq_true in H. apply H. rewrite <- I1. set_solver. }
  wp_step.
  - apply bool_decide_eq_true in Heqb1. rewrite <- I1 in Heqb1. do 3 wp_step.
    split; [|split_and!; try done; cbn; by rewrite Heqb0].
    by constructor.
  - apply bool_decide_eq_false in Heqb1. rewrite <- I1 in Heqb1. wp_step.
    split; [by destruct t|]. split_and!; try done; naive_solver.
Qed.

(** ** The refinement *)

Lemma select_first_lookup p a m q :
  select_first p a m !! q = match m !! q with Some x => Some x | None => if decide (p = q) then Some a else None end.
Proof.
  unfold select_first. destruct (m !! p) as [x|] eqn:E.
  - destruct (m !! q) eqn:E'; [done|]. case_decide; [congruence|done].
  - destruct (decide (p = q)) as [->|]; [by rewrite lookup_insert_eq, E|].
    rewrite lookup_insert_ne by done. by destruct (m !! q).
Qed.

(** One operation: the invariant is kept, and the selected attempts move as
    the first-wins register does. *)
Lemma apply_op_spec op t :
  tracker_inv t ->
  tracker_inv (snd (apply_op op t)) /\
  (forall p, (snd (apply_op op t)).(tr_selected) !! p =
     match t.(tr_selected) !! p with Some a => Some a | None => first_wins (accepted op t) p end) /\
  (ExchangeTracker.is_final t = true ->
     ExchangeTracker.is_final (snd (apply_op op t)) = true /\
     (snd (apply_op op t)).(tr_sinks) = t.(tr_sinks)).
Proof.
  intros Hinv.
  assert (Hsame : forall t', tracker_inv t' -> t'.(tr_selected) = t.(tr_selected) ->
    (ExchangeTracker.is_final t = true -> ExchangeTracker.is_final t' = true /\ t'.(tr_sinks) = t.(tr_sinks)) ->
    tracker_inv t' /\ (forall p, t'.(tr_selected) !! p =
      match t.(tr_selected) !! p with Some a => Some a | None => first_wins [] p end) /\
    (ExchangeTracker.is_final t = true -> ExchangeTracker.is_final t' = true /\ t'.(tr_sinks) = t.(tr_sinks))).
  { intros t' ? -> ?. split_and!; [done| |done]. intros p. simpl. by destruct (_ !! p). }
  destruct op as [p|h a|h a|h a|]; cbn [apply_op accepted].
  - pose proof (add_sink_wp p t Hinv) as W. unfold wp in W. unfold discard, sbind, sret.
    destruct (ExchangeTracker.add_sink p t) as [[h|e] t']; simpl; [|subst; by apply Hsame].
    destruct W as (? & ? & ? & ? & Hf). apply Hsame; [done..|]. intros H'. by rewrite (Hf H').
  - unfold discard, ExchangeTracker.instantiate_sink.
    assert (W : wp (let! _ := (let! _ := ExchangeTracker.require_sink h in
      let! attempt := slift (check_non_negative "attempt_id" a) in
      sret (MkSinkInstance h attempt None)) in sret tt) (fun _ t' => t' = t) (fun _ t' => t' = t) t).
    { do 2 wp_step. eapply wp_mono; [apply require_sink_wp| |done]. intros _ ? [-> _]. by wp_run. }
    unfold wp in W. match type of W with context [?m t] => destruct (m t) as [[?|?] ?] end; simpl; subst; by apply Hsame.
  - pose proof (sink_finished_wp h a t Hinv) as W. unfold wp in W.
    destruct (ExchangeTracker.sink_finished h a t) as [[u|e] t']; simpl; [|subst; by apply Hsame].
    destruct W as (? & E & Es & Ef). split; [done|]. split; [|intros Hf; by rewrite Ef, Es].
    intros p. rewrite E, select_first_lookup. unfold first_wins. simpl.
    destruct (_ !! p); [done|]. by destruct (decide (h.(sh_partition_id) = p)) as [->|];
      [rewrite decide_True|rewrite decide_False].
  - pose proof (sink_aborted_wp h a t Hinv) as W. cbv zeta in W. unfold wp in W.
    destruct (ExchangeTracker.sink_aborted h a t) as [[u|e] t']; simpl;
      destruct W as (? & ? & ? & Ef); apply Hsame; try done; by rewrite Ef.
  - pose proof (finalize_wp t Hinv) as W. unfold wp in W. unfold discard, sbind, sret.
    destruct (ExchangeTracker.finalize t) as [[b|e] t']; simpl; [|done].
    destruct W as (? & ? & ? & Ef & _). apply Hsame; [done..|]. intros Hf. by rewrite Ef, Hf.
Qed.

Lemma od_get_app_log (l1 l2 : list (Z * Z)) p :
  first_wins (l1 ++ l2) p = match first_wins l1 p with Some a => Some a | None => first_wins l2 p end.
Proof. apply od_get_app. Qed.

Lemma run_spec ops t :
  tracker_inv t ->
  tracker_inv (tracker_run t ops) /\
  (forall p, (tracker_run t ops).(tr_selected) !! p =
     match t.(tr_selected) !! p with Some a => Some a | None => first_wins (finish_log t ops) p end) /\
  (ExchangeTracker.is_final t = true ->
     ExchangeTracker.is_final (tracker_run t ops) = true /\ (tracker_run t ops).(tr_sinks) = t.(tr_sinks)).
Proof.
  revert t. induction ops as [|op ops IH]; intros t Hinv; cbn [tracker_run finish_log].
  - split_and!; try done. intros p. by destruct (_ !! p).
  - destruct (apply_op_spec op t Hinv) as (H1 & H2 & H3).
    destruct (IH _ H1) as (G1 & G2 & G3). split_and!; [done| |].
    + intros p. rewrite G2, H2, od_get_app_log. by destruct (t.(tr_selected) !! p), (first_wins (accepted op t) p).
    + intros Hf. destruct (H3 Hf) as [Hf' E]. destruct (G3 Hf') as [? ->]. done.
Qed.

(** C31: the tracker refines a first-wins register per partition: after any
    sequence of calls on a new tracker, raising calls included, the selected
    attempt of every partition is the first finish report that was accepted
    for it. *)
Theorem exchange_first_wins q e ops p :
  (tracker_run (ExchangeTracker.new q e) ops).(tr_selected) !! p =
  first_wins (finish_log (ExchangeTracker.new q e) ops) p.
Proof. destruct (run_spec ops _ (new_tracker_inv q e)) as (_ & -> & _). done. Qed.

(** Once the exchange is final, no sequence of further calls changes its
    sinks or its selected attempts, and it stays final. *)
Theorem exchange_final_frozen q e ops ops' :
  let t := tracker_run (ExchangeTracker.new q e) ops in
  ExchangeTracker.is_final t = true ->
  let t' := tracker_run t ops' in
  ExchangeTracker.is_final t' = true /\ t'.(tr_sinks) = t.(tr_sinks) /\ t'.(tr_selected) = t.(tr_selected).
Proof.
  intros t Hf t'. destruct (run_spec ops _ (new_tracker_inv q e)) as (Hinv & _). fold t in Hinv.
  destruct (run_spec ops' t Hinv) as (Hinv' & Hsel & Hfin). fold t' in Hinv', Hsel, Hfin.
  destruct (Hfin Hf) as [Hf' Hs]. split_and!; [done..|].
  apply map_eq. intros p. rewrite Hsel. destruct (t.(tr_selected) !! p) as [a|] eqn:E; [done|].
  destruct (t'.(tr_selected) !! p) as [b|] eqn:Eb; [|specialize (Hsel p); rewrite Eb, E in Hsel; done].
  apply elem_of_dom_2, (tinv_sinks _ Hinv') in Eb. rewrite Hs in Eb.
  destruct (tinv_final _ Hinv Hf) as (_ & Hd & _). apply Hd, elem_of_dom in Eb as [x Ex]. congruence.
Qed.

Lemma exchange_final_frozen_witness :
  let h := MkSinkHandle "q" "e" 0 in
  let t := tracker_run (ExchangeTracker.new "q" "e") [OpAddSink 0; OpFinished h 3; OpFinalize] in
  let t' := tracker_run t [OpFinished h 1; OpAddSink 1; OpFinalize] in
  ExchangeTracker.is_final t' = true /\ t'.(tr_sinks) = t.(tr_sinks) /\ t'.(tr_selected) = t.(tr_selected).
Proof.
  intros h t. apply (exchange_final_frozen "q" "e" [OpAddSink 0; OpFinished h 3; OpFinalize]).
  vm_compute. reflexivity.
Defined.

(** [finalize] never raises on a reachable tracker, and it reports that
    it made the exchange final exactly when it was not final yet, has a sink,
    and every sink has a selected attempt. *)
Theorem exchange_finalize_iff q e ops :
  let t := tracker_run (ExchangeTracker.new q e) ops in
  exists b t', ExchangeTracker.finalize t = (Ok b, t') /\
    (b = true <-> ExchangeTracker.is_final t = false /\ dom t.(tr_sinks) <> (∅ : gset Z) /\
       forall p, is_Some (t.(tr_sinks) !! p) -> is_Some (t.(tr_selected) !! p)).
Proof.
  intros t. destruct (run_spec ops _ (new_tracker_inv q e)) as (Hinv & _). fold t in Hinv.
  pose proof (finalize_wp t Hinv) as W. unfold wp in W.
  destruct (ExchangeTracker.finalize t) as [[b|x] t']; [|done]. exists b, t'. split; [done|].
  destruct W as (_ & _ & _ & _ & ->). repeat setoid_rewrite <- elem_of_dom. done.
Qed.

Lemma sorted_selected_spec t :
  Sorted.StronglySorted (fun a b => a.1 < b.1) (ExchangeTracker.sorted_selected t) /\
  forall p a, (p, a) ∈ ExchangeTracker.sorted_selected t <-> t.(tr_selected) !! p = Some a.
Proof.
  unfold ExchangeTracker.sorted_selected. split.
  - set (l := map_to_list t.(tr_selected)).
    assert (Hnd : NoDup (py_sorted (fun a b => a.1 <=? b.1) l).*1).
    { rewrite py_sorted_perm. apply NoDup_fst_map_to_list. }
    assert (Hs : Sorted.StronglySorted (fun a b => Is_true (a.1 <=? b.1)) (py_sorted (fun a b => a.1 <=? b.1) l)).
    { apply py_sorted_sorted.
      - intros x y z H1%Is_true_true%Z.leb_le H2%Is_true_true%Z.leb_le. apply Is_true_true, Z.leb_le. lia.
      - intros x y H%Z.leb_gt. apply Is_true_true, Z.leb_le. lia. }
    revert Hnd Hs. generalize (py_sorted (fun a b => a.1 <=? b.1) l). clear l.
    induction l as [|x l IH]; [constructor|]. intros [Hx Hnd]%NoDup_cons Hs.
    apply Sorted.StronglySorted_inv in Hs as [Hs Hf]. constructor; [auto|].
    apply Forall_forall. intros y Hy. rewrite Forall_forall in Hf. specialize (Hf y Hy).
    apply Is_true_true, Z.leb_le in Hf. assert (x.1 <> y.1); [|lia]. intros E. apply Hx. rewrite E. by apply list_elem_of_fmap_2.
  - intros p a. rewrite py_sorted_elem. apply elem_of_map_to_list.
Qed.

Lemma strongly_sorted_map {A B} (R : A -> A -> Prop) (S : B -> B -> Prop) (f : A -> B) l :
  (forall x y, R x y -> S (f x) (f y)) -> Sorted.StronglySorted R l -> Sorted.StronglySorted S (map f l).
Proof.
  intros Hf. induction 1 as [|x l _ IH Hx]; simpl; constructor; [done|].
  apply Forall_map. eapply Forall_impl; [exact Hx|]. auto.
Qed.

(** On a reachable tracker [get_source_handles] does not raise and
    returns one handle per selected partition, in strictly increasing
    partition order, each naming the sink of that partition and its selected
    attempt. *)
Theorem exchange_source_handles q e ops :
  let t := tracker_run (ExchangeTracker.new q e) ops in
  exists hs, ExchangeTracker.get_source_handles t = Ok hs /\
    Sorted.StronglySorted (fun x y => x.(so_sink_handle).(sh_partition_id) < y.(so_sink_handle).(sh_partition_id)) hs /\
    (forall x, x ∈ hs -> t.(tr_sinks) !! x.(so_sink_handle).(sh_partition_id) = Some x.(so_sink_handle)) /\
    forall p a, t.(tr_selected) !! p = Some a <->
      exists x, x ∈ hs /\ x.(so_sink_handle).(sh_partition_id) = p /\ x.(so_attempt_id) = a.
Proof.
  intros t. destruct (run_spec ops _ (new_tracker_inv q e)) as (Hinv & _). fold t in Hinv.
  destruct (sorted_selected_spec t) as [Hs Hin].
  set (g := fun '(p, a) => MkSourceHandle (MkSinkHandle t.(tr_query_id) t.(tr_exchange_id) p) a None []).
  assert (Hsink : forall p a, (p, a) ∈ ExchangeTracker.sorted_selected t ->
    t.(tr_sinks) !! p = Some (MkSinkHandle t.(tr_query_id) t.(tr_exchange_id) p)).
  { intros p a Ha%Hin%elem_of_dom_2%(tinv_sinks _ Hinv)%elem_of_dom.
    destruct Ha as [h Hh]. by destruct (tinv_handles _ Hinv _ _ Hh) as [-> _]. }
  exists (map g (ExchangeTracker.sorted_selected t)). split_and!.
  - apply rmapM_map. intros [p a] Hpa. by rewrite (Hsink p a Hpa).
  - eapply strongly_sorted_map; [|exact Hs]. by intros [p a] [p' a'].
  - intros x ([p a] & -> & Hx)%list_elem_of_fmap. simpl. by eapply Hsink.
  - intros p a. rewrite <- Hin. split.
    + intros Hpa. exists (g (p, a)). split; [|done]. by apply list_elem_of_fmap_2.
    + intros (x & ([p' a'] & -> & Hx)%list_elem_of_fmap & <- & <-). done.
Qed.

(** ** Cleaning up a spooling exchange *)

(** What a cleanup may do to the attempt directories: drop those of an
    attempt that is not selected, and nothing else. *)
Definition spool_shrinks (s0 s : Spool) : Prop :=
  s.(sp_tracker) = s0.(sp_tracker) /\ s.(sp_exchange_root) = s0.(sp_exchange_root) /\
  s.(sp_sink_dirs) = s0.(sp_sink_dirs) /\
  forall p a, s.(sp_attempts) !! (p, a) = s0.(sp_attempts) !! (p, a) \/
    (s.(sp_attempts) !! (p, a) = None /\ s0.(sp_tracker).(tr_selected) !! p <> Some a).

Definition only_selected (s : Spool) (p : Z) : Prop :=
  forall a, is_Some (s.(sp_attempts) !! (p, a)) -> s.(sp_tracker).(tr_selected) !! p = Some a.

Lemma spool_shrinks_refl s : spool_shrinks s s.
Proof. split_and!; try done. auto. Qed.

Lemma cleanup_sink_wp s0 p removed s :
  spool_shrinks s0 s ->
  wp (Spooling.cleanup_sink p (s0.(sp_tracker).(tr_selected) !! p) removed)
    (fun _ s' => spool_shrinks s0 s' /\ only_selected s' p /\
       forall k, s.(sp_attempts) !! k = None -> s'.(sp_attempts) !! k = None)
    (fun _ _ => False) s.
Proof.
  intros Hs. unfold Spooling.cleanup_sink. do 2 wp_step.
  set (keys := filter (fun k => k.1 = p) (map fst (map_to_list s.(sp_attempts)))).
  assert (Hkeys : forall a, is_Some (s.(sp_attempts) !! (p, a)) -> (p, a) ∈ keys).
  { intros a [d Hd]. apply list_elem_of_filter. split; [done|]. apply list_elem_of_fmap.
    exists ((p, a), d). split; [done|]. by apply elem_of_map_to_list. }
  assert (Hfst : Forall (fun k => k.1 = p) keys).
  { apply Forall_forall. intros k Hk. by apply list_elem_of_filter in Hk as [? _]. }
  assert (Hgen : forall l, Forall (fun k => k.1 = p) l -> forall removed s1, spool_shrinks s0 s1 ->
    wp (sfold l (fun removed k =>
          if bool_decide (s0.(sp_tracker).(tr_selected) !! p = Some k.2) then sret removed
          else let! _ := smodify (fun s => s <| sp_attempts ::= delete k |>) in sret (removed + 1)) removed)
      (fun _ s' => spool_shrinks s0 s' /\
         (forall k, s1.(sp_attempts) !! k = None -> s'.(sp_attempts) !! k = None) /\
         forall k, k ∈ l -> s0.(sp_tracker).(tr_selected) !! p <> Some k.2 -> s'.(sp_attempts) !! k = None)
      (fun _ _ => False) s1).
  { induction 1 as [|[q a] l Hq _ IH]; intros rm s1 Hs1; cbn [sfold].
    - wp_step. split_and!; try done. by intros k ?%elem_of_nil.
    - simpl in Hq. subst q. wp_step. wp_step.
      + wp_step. apply bool_decide_eq_true in Heqb. simpl in Heqb.
        eapply wp_mono; [by apply IH| |done]. intros n s2 (? & ? & Hd). split_and!; try done.
        intros k [->|Hk]%elem_of_cons Hn; [by simpl in Hn|auto].
      + apply bool_decide_eq_false in Heqb. simpl in Heqb. do 3 wp_step.
        eapply wp_mono; [apply IH| |done].
        * destruct Hs1 as (E1 & E2 & E3 & Hk). split_and!; try done. cbn. intros q b.
          destruct (decide ((p, a) = (q, b))) as [[= <- <-]|Hne].
          -- right. by rewrite lookup_delete_eq.
          -- rewrite lookup_delete_ne by done. apply Hk.
        * cbn. intros n s2 (? & Hm & Hd). split_and!; try done.
          -- intros k Hk. apply Hm. destruct (decide ((p, a) = k)) as [<-|]; [by rewrite lookup_delete_eq|].
             by rewrite lookup_delete_ne.
          -- intros k [->|Hk]%elem_of_cons Hn; [|auto]. apply Hm. by rewrite lookup_delete_eq. }
  eapply wp_mono; [by apply Hgen| |done]. intros n s' (Hs' & Hm & Hd). split_and!; try done.
  intros a Hsome. pose proof Hs' as (-> & _). apply dec_stable. intros Hne.
  assert (Hin : (p, a) ∈ keys).
  { apply Hkeys. destruct (s.(sp_attempts) !! (p, a)) eqn:E; [eauto|]. rewrite (Hm _ E) in Hsome. by destruct Hsome. }
  rewrite (Hd _ Hin Hne) in Hsome. by destruct Hsome.
Qed.

Lemma cleanup_wp s0 :
  (forall p h, s0.(sp_tracker).(tr_sinks) !! p = Some h -> h.(sh_partition_id) = p) ->
  wp Spooling.cleanup_unselected_attempts
    (fun _ s => spool_shrinks s0 s /\
       forall p, is_Some (s0.(sp_tracker).(tr_sinks) !! p) -> p ∈ s0.(sp_sink_dirs) -> only_selected s p)
    (fun _ _ => False) s0.
Proof.
  intros Hh. unfold Spooling.cleanup_unselected_attempts. do 2 wp_step.
  set (l := map_to_list s0.(sp_tracker).(tr_sinks)).
  assert (Hl : Forall (fun x => x.2.(sh_partition_id) = x.1) l).
  { apply Forall_forall. intros [p h] Hx. apply elem_of_map_to_list in Hx. simpl. auto. }
  assert (Hgen : forall l, Forall (fun x => x.2.(sh_partition_id) = x.1) l -> forall removed s1, spool_shrinks s0 s1 ->
    wp (sfold l (fun removed '(p, h) =>
       let! s := sget in
       if bool_decide (h.(sh_partition_id) ∈ s.(sp_sink_dirs))
       then Spooling.cleanup_sink h.(sh_partition_id) (s.(sp_tracker).(tr_selected) !! p) removed
       else sret removed) removed)
     (fun _ s => spool_shrinks s0 s /\ (forall k, s1.(sp_attempts) !! k = None -> s.(sp_attempts) !! k = None) /\
        forall x, x ∈ l -> x.1 ∈ s0.(sp_sink_dirs) -> only_selected s x.1)
     (fun _ _ => False) s1).
  { induction 1 as [|[p h] l' Hp _ IH]; intros rm s1 Hs1; cbn [sfold].
    - wp_step. split_and!; try done. by intros k ?%elem_of_nil.
    - simpl in Hp. rewrite Hp. do 3 wp_step. pose proof Hs1 as (E1 & _ & E3 & _). rewrite E1, E3. wp_step.
      + eapply wp_mono; [by apply cleanup_sink_wp| |done]. intros n s2 (Hs2 & Ho & Hm).
        eapply wp_mono; [by apply IH| |done]. intros n' s3 (Hs3 & Hm' & Hall). split_and!; try done; [auto|].
        intros x [->|Hx]%elem_of_cons Hdir; [|auto]. simpl. intros a [d Hd].
        pose proof Hs3 as (-> & _). destruct Hs2 as (<- & _). apply Ho.
        destruct (s2.(sp_attempts) !! (p, a)) eqn:E; [eauto|]. by rewrite (Hm' _ E) in Hd.
      + apply bool_decide_eq_false in Heqb. wp_step. eapply wp_mono; [by apply IH| |done].
        intros n' s3 (Hs3 & Hm' & Hall). split_and!; try done. intros x [->|Hx]%elem_of_cons Hdir; [done|auto]. }
  eapply wp_mono; [by apply Hgen, spool_shrinks_refl| |done]. intros n s (Hs & _ & Hall). split; [done|].
  intros p [h Hp] Hdir. apply (Hall (p, h)); [|done]. by apply elem_of_map_to_list.
Qed.

(** Closing a spooling exchange never raises, keeps the handles its
    readers use (the same attempt directories with the same files), and
    leaves in every sink directory only the directory of the selected
    attempt. *)
Theorem spool_close_keeps_sources s :
  tracker_inv s.(sp_tracker) ->
  exists s', Spooling.close s = (Ok tt, s') /\
    Spooling.get_source_handles s' = Spooling.get_source_handles s /\
    (forall p, is_Some (s.(sp_tracker).(tr_sinks) !! p) -> p ∈ s.(sp_sink_dirs) ->
       forall a, is_Some (s'.(sp_attempts) !! (p, a)) -> s.(sp_tracker).(tr_selected) !! p = Some a).
Proof.
  intros Hinv. pose proof (cleanup_wp s) as W.
  assert (Hh : forall p h, s.(sp_tracker).(tr_sinks) !! p = Some h -> h.(sh_partition_id) = p).
  { intros p h Hp. by destruct (tinv_handles _ Hinv p h Hp) as [-> _]. }
  specialize (W Hh). unfold wp in W. unfold Spooling.close, sbind, sret.
  destruct (Spooling.cleanup_unselected_attempts s) as [[n|x] s']; [|done]. exists s'.
  destruct W as ((E1 & E2 & E3 & Hk) & Hall). split_and!; [done| |].
  - unfold Spooling.get_source_handles. rewrite E1.
    assert (Hsel : forall p a, (p, a) ∈ ExchangeTracker.sorted_selected s.(sp_tracker) ->
      s'.(sp_attempts) !! (p, a) = s.(sp_attempts) !! (p, a)).
    { intros p a Hin%sorted_selected_spec. by destruct (Hk p a) as [|[_ ?]]. }
    revert Hsel. generalize (ExchangeTracker.sorted_selected s.(sp_tracker)).
    induction l as [|[p a] l IH]; intros Hsel; cbn [rmapM]; [done|].
    rewrite IH by (intros; apply Hsel; by right).
    destruct (s.(sp_tracker).(tr_sinks) !! p) as [h|] eqn:Ep; [|done].
    unfold check_non_negative. destruct (a <? 0); [done|]. cbn [rbind].
    unfold Spooling.attempt_path, Spooling.dir_of. rewrite E2, (Hh p h Ep), Hsel by left. done.
  - intros p Hp Hdir a Ha. rewrite <- E1. by apply (Hall p).
Qed.

(** A manager with two attempts of one sink, the second selected. *)
Definition demo_spool : Spool :=
  let h := MkSinkHandle "q" "e" 0 in
  snd ((let! _ := Spooling.add_sink 0 in
        let! _ := Spooling.record_output_file (MkSinkInstance h 0 None) 1 "a" "xx" in
        let! _ := Spooling.record_output_file (MkSinkInstance h 1 None) 2 "b" "yy" in
        Spooling.sink_finished h 1) (Spooling.new "/tmp" "q" "e")).

Lemma spool_close_keeps_sources_witness :
  exists s', Spooling.close demo_spool = (Ok tt, s') /\
    Spooling.get_source_handles s' = Spooling.get_source_handles demo_spool /\
    Spooling.get_source_handles demo_spool =
      Ok [MkSourceHandle (MkSinkHandle "q" "e" 0) 1 (Some "/tmp/q/e/sink_0/attempt_1")
            ["/tmp/q/e/sink_0/attempt_1/partition_2_b.arrow"]] /\
    map fst (map_to_list s'.(sp_attempts)) = [(0, 1)].
Proof.
  destruct (spool_close_keeps_sources demo_spool) as (s' & E & H & _).
  - assert (Et : demo_spool.(sp_tracker) = tracker_run (ExchangeTracker.new "q" "e")
      [OpAddSink 0; OpFinished (MkSinkHandle "q" "e" 0) 1]) by (vm_compute; reflexivity).
    rewrite Et. apply run_spec, new_tracker_inv.
  - exists s'. split; [exact E|]. split; [exact H|]. split; [vm_compute; reflexivity|].
    assert (Es : s' = snd (Spooling.close demo_spool)) by (by rewrite E). rewrite Es. vm_compute. reflexivity.
Defined.

(** ** Output locations of attempts *)

Lemma split_all_digits d : all_digits d = true -> split_trailing_digits d = ("", d).
Proof.
  induction d as [|c d IH]; simpl; [done|]. intros [Hc Hd]%andb_prop. rewrite (IH Hd). simpl. by rewrite Hc.
Qed.

(** Digits after a character that is not one. *)
Lemma split_trailing_digits_app s c d :
  is_digit c = false -> all_digits d = true ->
  split_trailing_digits (s +:+ String c d) = (s +:+ String c "", d).
Proof.
  intros Hc Hd. induction s as [|x s IH].
  - change ("" +:+ String c d) with (String c d). change ("" +:+ String c "") with (String c "").
    simpl. rewrite (split_all_digits d Hd). simpl. by rewrite Hc.
  - change (String x s +:+ String c d) with (String x (s +:+ String c d)).
    change (String x s +:+ String c "") with (String x (s +:+ String c "")).
    simpl. rewrite IH. destruct s; done.
Qed.

Lemma string_app_nil (a : string) : a +:+ "" = a.
Proof. induction a as [|x a IH]; [done|]. change (String x (a +:+ "") = String x a). by rewrite IH. Qed.

Lemma string_length_app a b : String.length (a +:+ b) = (String.length a + String.length b)%nat.
Proof. induction a as [|x a IH]; [done|]. change (S (String.length (a +:+ b)) = S (String.length a + String.length b)). by rewrite IH. Qed.

Lemma endswith_app s p : endswith (s +:+ p) p = true.
Proof.
  induction s as [|x s IH].
  - change ("" +:+ p) with p. destruct p; simpl; [done|]. by rewrite Ascii.eqb_refl, String.eqb_refl.
  - change (String x s +:+ p) with (String x (s +:+ p)). simpl. rewrite IH. apply orb_true_r.
Qed.

Lemma substring_prefix s p : substring 0 (String.length s) (s +:+ p) = s.
Proof.
  induction s as [|x s IH]; [by destruct p|].
  change (String x s +:+ p) with (String x (s +:+ p)). simpl. by rewrite IH.
Qed.

Lemma strip_suffix_app s p : strip_suffix p (s +:+ p) = Some s.
Proof.
  unfold strip_suffix. rewrite endswith_app, string_length_app.
  replace (String.length s + String.length p - String.length p)%nat with (String.length s) by lia.
  by rewrite substring_prefix.
Qed.

(** A text that ends in a digit does not end in a newline. *)
Lemma endswith_newline s d :
  all_digits d = true -> d <> "" -> strip_suffix (String (ascii_of_nat 10) "") (s +:+ d) = None.
Proof.
  intros Hd Hne. unfold strip_suffix.
  assert (endswith (s +:+ d) (String (ascii_of_nat 10) "") = false) as ->; [|done].
  induction s as [|x s IH].
  - change ("" +:+ d) with d. induction d as [|c d IH]; [done|]. simpl in Hd. apply andb_prop in Hd as [Hc Hd].
    cbn [endswith String.eqb]. destruct (Ascii.eqb_spec c (ascii_of_nat 10)) as [->|_]; [by vm_compute in Hc|].
    simpl. destruct d as [|c' d]; [done|]. by apply IH.
  - change (String x s +:+ d) with (String x (s +:+ d)). cbn [endswith]. rewrite IH, orb_false_r.
    destruct (s +:+ d) eqn:E; [|simpl; by destruct (Ascii.eqb x _)].
    assert (String.length (s +:+ d) = 0%nat) as Hl by by rewrite E.
    rewrite string_length_app in Hl. destruct d; [done|]. simpl in Hl. lia.
Qed.

Lemma replace_sink_attempt_spec pre n m p a :
  0 <= n -> 0 <= m ->
  replace_sink_attempt p a (pre +:+ "__sink_" +:+ str_of_int n +:+ "__attempt_" +:+ str_of_int m) =
  pre +:+ "__sink_" +:+ str_of_int p +:+ "__attempt_" +:+ str_of_int a.
Proof.
  intros Hn Hm. pose proof (str_of_int_all_digits n Hn) as Dn. pose proof (str_of_int_all_digits m Hm) as Dm.
  pose proof (str_of_int_nonempty n Hn) as Nn. pose proof (str_of_int_nonempty m Hm) as Nm.
  set (dn := str_of_int n) in *. set (dm := str_of_int m) in *.
  unfold replace_sink_attempt, split_final_newline.
  rewrite <- !sapp_assoc. rewrite endswith_newline by done.
  rewrite !sapp_assoc.
  replace (pre +:+ "__sink_" +:+ dn +:+ "__attempt_" +:+ dm)
    with ((pre +:+ "__sink_" +:+ dn +:+ "__attempt") +:+ String "_" dm) by by rewrite !sapp_assoc.
  rewrite split_trailing_digits_app by done.
  assert (String.eqb dm "" = false) as -> by by apply String.eqb_neq.
  replace ((pre +:+ "__sink_" +:+ dn +:+ "__attempt") +:+ "_") with ((pre +:+ "__sink_" +:+ dn) +:+ "__attempt_")
    by by rewrite !sapp_assoc.
  rewrite strip_suffix_app.
  replace (pre +:+ "__sink_" +:+ dn) with ((pre +:+ "__sink") +:+ String "_" dn) by by rewrite !sapp_assoc.
  rewrite split_trailing_digits_app by done.
  assert (String.eqb dn "" = false) as -> by by apply String.eqb_neq.
  replace ((pre +:+ "__sink") +:+ "_") with (pre +:+ "__sink_") by by rewrite sapp_assoc.
  rewrite strip_suffix_app. by rewrite !sapp_assoc, string_app_nil.
Qed.

Lemma pd_get_set k k' v d : pd_get k' (pd_set k v d) = if String.eqb k k' then v else pd_get k' d.
Proof.
  unfold pd_get. destruct (String.eqb_spec k k') as [->|Hne]; [by rewrite pd_find_set_eq|].
  by rewrite pd_find_set_ne.
Qed.

Lemma app_nonempty_str pre s : s <> "" -> truthy (PStr (pre +:+ s)) = true.
Proof. intros Hs. destruct pre as [|c pre]; [by destruct s|done]. Qed.

(** The sink instance derived for an attempt of a task partition writes
    to the location of the plan with the sink and attempt numbers replaced
    by those of the attempt, and carries the attempt and partition ids. *)
Theorem derive_sink_instance_location d pre n m p a :
  0 <= n -> 0 <= m -> 0 <= p -> 0 <= a ->
  pd_get "output_location" d = PStr (pre +:+ "__sink_" +:+ str_of_int n +:+ "__attempt_" +:+ str_of_int m) ->
  truthy (pd_get "preserve_plan_exchange_sink_instance" d) = false ->
  is_ok (py_dict (py_or (pd_get "sink_handle" d) (PDict []))) = true ->
  exists d', derive_exchange_sink_instance_for_attempt (SIVal (PDict d)) a (Some p) = Ok (SIVal (PDict d')) /\
    pd_get "output_location" d' = PStr (pre +:+ "__sink_" +:+ str_of_int p +:+ "__attempt_" +:+ str_of_int a) /\
    pd_get "attempt_id" d' = PInt a /\ pd_get "partition_id" d' = PInt p.
Proof.
  intros Hn Hm Hp Ha Hloc Hpres Hsink. unfold derive_exchange_sink_instance_for_attempt. cbn [sink_instance_payload].
  destruct d as [|kv d0] eqn:Ed; [done|]. rewrite <- Ed in *. clear Ed kv d0.
  rewrite !check_non_negative_id by done. cbn [rbind].
  rewrite !pd_get_set. cbn [String.eqb Ascii.eqb Bool.eqb]. rewrite Hpres.
  destruct (py_dict _) as [h|]; [|done]. cbn [rbind]. rewrite !pd_get_set. cbn [String.eqb Ascii.eqb Bool.eqb].
  rewrite Hloc. unfold py_or. rewrite app_nonempty_str by done. cbn [is_none py_str].
  rewrite replace_sink_attempt_spec by done.
  destruct (String.eqb _ _) eqn:Eq; cbn [negb].
  - apply String.eqb_eq in Eq. rewrite Eq.
    destruct (_ && _); eexists; (split; [done|]); rewrite !pd_get_set; cbn [String.eqb Ascii.eqb Bool.eqb]; by rewrite ?Hloc.
  - destruct (pd_mem _ _); eexists; (split; [done|]); rewrite !pd_get_set; cbn [String.eqb Ascii.eqb Bool.eqb]; done.
Qed.

Lemma derive_sink_instance_location_witness :
  exists d', derive_exchange_sink_instance_for_attempt
      (SIVal (PDict (pd_lit [("output_location", PStr "/x/ex__sink_0__attempt_0")]))) 2 (Some 7) = Ok (SIVal (PDict d')) /\
    pd_get "output_location" d' = PStr "/x/ex__sink_7__attempt_2" /\
    pd_get "attempt_id" d' = PInt 2 /\ pd_get "partition_id" d' = PInt 7.
Proof.
  apply (derive_sink_instance_location (pd_lit [("output_location", PStr "/x/ex__sink_0__attempt_0")]) "/x/ex" 0 0 7 2);
    try lia; reflexivity.
Defined.
