(* ===== verification/OutputBuffers.v ===== *)
(** * Output-buffer updates

    Models the output-buffer helpers of
    [duckdb/runners/fte/fte_descriptor.py]: normalization of an update,
    validation of a transition, and the versioned merge that a task
    descriptor and the worker runtime apply. *)

From S2P Require Import Prelude PyStr PyVal FteTypes FteFailures.

#[local] Open Scope string_scope.
#[local] Open Scope list_scope.
#[local] Open Scope Z_scope.

Definition type_keys := ["type"; "@type"; "kind"; "buffer_type"].
Definition no_more_keys :=
  ["no_more_buffer_ids"; "noMoreBufferIds"; "no_more_buffers"; "noMoreBuffers"; "sealed"].
Definition partition_count_keys :=
  ["output_partition_count"; "outputPartitionCount"; "partition_count"; "partitionCount"].
Definition exchange_sink_keys :=
  ["exchange_sink_instance"; "exchangeSinkInstanceHandle"; "exchange_sink_instance_handle"; "sink_instance"].
Definition buffers_keys := ["buffers"; "buffer_ids"; "bufferIds"].
Definition alias_keys : list string :=
  type_keys ++ no_more_keys ++ partition_count_keys ++ exchange_sink_keys ++ ["version"] ++ buffers_keys.

(** [_first_present] *)
Fixpoint first_present (payload : list (pyval * pyval)) (keys : list string) : pyval :=
  match keys with
  | [] => PNone
  | k :: keys => if pd_mem k payload then pd_get k payload else first_present payload keys
  end.

(** [_freeze_output_buffer_value]; entries whose keys have the same text keep
    their order. *)
Fixpoint freeze_output_buffer_value (v : pyval) : pyval :=
  match v with
  | PDict d =>
      let items := (fix go d := match d with
                                | [] => []
                                | (k, v) :: d => (py_str k, freeze_output_buffer_value v) :: go d
                                end) d in
      PTuple (map (fun kv => PTuple [PStr kv.1; kv.2])
        (py_sorted (fun a b => String.leb a.1 b.1) items))
  | PSet l => PTuple (py_sorted (fun a b => String.leb (py_repr a) (py_repr b)) (map freeze_output_buffer_value l))
  | PList l | PTuple l => PTuple (map freeze_output_buffer_value l)
  | v => v
  end.

(** [_output_buffer_bool] *)
Definition output_buffer_bool (v : pyval) : bool :=
  match v with
  | PStr s | PEnum _ s =>
      let text := lower (strip s) in
      if bool_decide (text ∈ false_values) then false
      else if bool_decide (text ∈ true_values) then true
      else truthy v
  | v => truthy v
  end.

(** [x in ALIAS_KEYS] for a key of a payload *)
Definition is_alias (k : pyval) : bool :=
  match as_str k with Some s => bool_decide (s ∈ alias_keys) | None => false end.

(** [_normalize_output_buffers] of a mapping *)
Definition normalize_mapping (payload : list (pyval * pyval)) : result (list (pyval * pyval)) :=
  let* version := py_int (py_or (default (PInt 0) (pd_find "version" payload)) (PInt 0)) in
  let* _ := raise_if (version <? 0) (ValueError "output_buffers version must be non-negative") in
  let normalized := [(PStr "version", PInt version)] in
  let buffer_type := first_present payload type_keys in
  let normalized :=
    if negb (is_none buffer_type) && negb (String.eqb (strip (py_str buffer_type)) "")
    then pd_set "type" (PStr (lower (strip (py_str buffer_type)))) normalized else normalized in
  let buffers := first_present payload buffers_keys in
  let* normalized :=
    match buffers with
    | PNone => Ok normalized
    | PDict d =>
        Ok (pd_set "buffers" (PDict (fold_left (fun acc kv => pd_set (py_str kv.1) kv.2 acc) d [])) normalized)
    | PSet l =>
        Ok (pd_set "buffers" (PList (map (fun b => PStr (py_str b))
              (py_sorted (fun a b => String.leb (py_str a) (py_str b)) l))) normalized)
    | PList l | PTuple l => Ok (pd_set "buffers" (PList (map (fun b => PStr (py_str b)) l)) normalized)
    | _ => Raise (ValueError "output_buffers buffers must be a mapping or sequence")
    end in
  let no_more := first_present payload no_more_keys in
  let normalized := if negb (is_none no_more) && output_buffer_bool no_more
                    then pd_set "no_more_buffer_ids" (PBool true) normalized else normalized in
  let partition_count := first_present payload partition_count_keys in
  let* normalized :=
    if is_none partition_count then Ok normalized
    else
      let* count := py_int partition_count in
      let* _ := raise_if (count <? 0) (ValueError "output_buffers partition count must be non-negative") in
      Ok (pd_set "output_partition_count" (PInt count) normalized) in
  let sink := first_present payload exchange_sink_keys in
  let normalized := if is_none sink then normalized else pd_set "exchange_sink_instance" sink normalized in
  Ok (fold_left (fun acc kv => if is_alias kv.1 then acc else pd_set (py_str kv.1) kv.2 acc) payload normalized).

(** [_normalize_output_buffers] *)
Definition normalize_output_buffers (payload : pyval) : result (option (list (pyval * pyval))) :=
  match payload with
  | PNone => Ok None
  | PDict d => let* n := normalize_mapping d in Ok (Some n)
  | _ => Raise (ValueError "output_buffers must be a mapping")
  end.

Definition output_buffer_version (d : list (pyval * pyval)) : result Z :=
  py_int (py_or (default (PInt 0) (pd_find "version" d)) (PInt 0)).

Definition output_buffer_type (d : list (pyval * pyval)) : option string :=
  let v := pd_get "type" d in
  if is_none v then None
  else let text := lower (strip (py_str v)) in if String.eqb text "" then None else Some text.

Definition output_buffers_sealed (d : list (pyval * pyval)) : bool := truthy (pd_get "no_more_buffer_ids" d).

Definition output_buffer_partition_count (d : list (pyval * pyval)) : result (option Z) :=
  match pd_find "output_partition_count" d with
  | None => Ok None
  | Some v => let* n := py_int v in Ok (Some n)
  end.

Definition output_buffer_assignments (d : list (pyval * pyval)) : result (list (string * pyval)) :=
  match pd_get "buffers" d with
  | PNone => Ok []
  | PDict b => Ok (fold_left (fun acc kv => od_set (py_str kv.1) (freeze_output_buffer_value kv.2) acc) b [])
  | PList l | PTuple l | PSet l => Ok (fold_left (fun acc b => od_set (py_str b) PNone acc) l [])
  | _ => Raise (ValueError "output_buffers buffers must be a mapping or sequence")
  end.

(** Two known values that differ. *)
Definition conflict {A} `{EqDecision A} (a b : option A) : bool :=
  match a, b with Some x, Some y => negb (bool_decide (x = y)) | _, _ => false end.

Definition validate_output_buffer_transition (current update : list (pyval * pyval)) : result unit :=
  let* _ := raise_if (conflict (output_buffer_type current) (output_buffer_type update))
    (ValueError "output_buffers type cannot change") in
  let* _ := raise_if (output_buffers_sealed current && negb (py_eqb (PDict current) (PDict update)))
    (ValueError "output_buffers are sealed and cannot be changed") in
  let* current_count := output_buffer_partition_count current in
  let* update_count := output_buffer_partition_count update in
  let* _ := raise_if (conflict current_count update_count)
    (ValueError "output_buffers output_partition_count cannot change") in
  let* current_buffers := output_buffer_assignments current in
  let* update_buffers := output_buffer_assignments update in
  let* _ := raise_if (existsb (fun k => negb (od_mem k update_buffers)) (od_keys current_buffers))
    (ValueError "output_buffers cannot remove buffers") in
  raise_if (existsb (fun kv => match od_get kv.1 update_buffers with
                               | Some v => negb (py_eqb kv.2 v)
                               | None => false
                               end) current_buffers)
    (ValueError "output_buffers assignment cannot change for buffer").

(** [_merge_output_buffers] *)
Definition merge_output_buffers (current update : pyval) : result (option (list (pyval * pyval)) * bool) :=
  let* update := normalize_output_buffers update in
  match update with
  | None => let* c := normalize_output_buffers current in Ok (c, false)
  | Some update =>
      let* current := normalize_output_buffers current in
      match current with
      | None => Ok (Some update, true)
      | Some current =>
          let* current_version := output_buffer_version current in
          let* update_version := output_buffer_version update in
          if update_version <? current_version then Ok (Some current, false)
          else if update_version =? current_version then
            if py_eqb (PDict update) (PDict current) then Ok (Some current, false)
            else Raise (ValueError "output_buffers version contains conflicting content")
          else
            let* _ := validate_output_buffer_transition current update in
            Ok (Some update, true)
      end
  end.

(** [_output_buffer_status] *)
Definition output_buffer_status (payload : pyval) : result (option (list (pyval * pyval))) :=
  let* normalized := normalize_output_buffers payload in
  match normalized with
  | None => Ok None
  | Some d =>
      let* version := output_buffer_version d in
      let* buffers := output_buffer_assignments d in
      let* count := output_buffer_partition_count d in
      Ok (Some (pd_lit (
        [("version", PInt version); ("buffer_count", PInt (Z.of_nat (length buffers)));
         ("sealed", PBool (output_buffers_sealed d))]
        ++ match output_buffer_type d with Some t => [("type", PStr t)] | None => [] end
        ++ match count with Some n => [("output_partition_count", PInt n)] | None => [] end
        ++ (if pd_mem "exchange_sink_instance" d then [("has_exchange_sink_instance", PBool true)] else []))))
  end.

(** ** Properties *)

Lemma key_is_eqb k x : key_is k x = py_eqb (PStr k) x.
Proof. destruct x; try done; simpl; apply String.eqb_sym. Qed.

(** Equal dicts have equal values under a text key. *)
Lemma dict_eqb_find c u k v :
  py_eqb (PDict c) (PDict u) = true -> pd_find k c = Some v ->
  exists w, pd_find k u = Some w /\ py_eqb v w = true.
Proof.
  intros H Hf. cbn [py_eqb] in H. apply andb_prop in H as [_ H].
  induction c as [|[k0 v0] c IH]; [done|]. cbn [pd_find] in Hf.
  apply andb_prop in H as [H0 H]. destruct (key_is k k0) eqn:Ek; [|by apply IH].
  injection Hf as ->. clear IH H.
  assert (Hfind : find (fun kv => py_eqb k0 kv.1) u = find (fun kv => key_is k kv.1) u).
  { clear -Ek. induction u as [|[k1 v1] u IH]; [done|]. cbn [find fst]. rewrite IH.
    assert (py_eqb k0 k1 = key_is k k1) as ->; [|done].
    unfold key_is in *. destruct k0; try done; simpl in Ek; apply String.eqb_eq in Ek; subst;
      destruct k1; try done; simpl; apply String.eqb_sym. }
  rewrite Hfind in H0. clear Hfind Ek.
  induction u as [|[k1 v1] u IH]; [done|]. cbn [find fst pd_find] in *. destruct (key_is k k1); eauto.
Qed.

(** Equal values are the same number, where they are numbers. *)
Lemma eqb_int a b : py_eqb a b = true -> py_int (py_or a (PInt 0)) = py_int (py_or b (PInt 0)).
Proof.
  destruct a as [| [] |x|x|? x|x|l|l|l|d|], b as [| [] |y|y|? y|y|m|m|m|e|]; try done; cbn [py_eqb];
    try (intros ->%Z.eqb_eq; done); try (intros ->%String.eqb_eq; done); try (intros <-%Z.eqb_eq; done).
  1-3: intros ->%String.eqb_eq; unfold py_or; cbn [truthy]; by destruct (String.eqb y "").
  - by destruct l, m.
  - by destruct l, m.
  - intros [H _]%andb_prop. apply bool_decide_eq_true in H. by destruct l, m.
  - intros [H _]%andb_prop. apply bool_decide_eq_true in H. by destruct d, e.
Qed.

Lemma dict_eqb_version c u vc vu :
  py_eqb (PDict c) (PDict u) = true ->
  pd_mem "version" c = true ->
  output_buffer_version c = Ok vc -> output_buffer_version u = Ok vu -> vc = vu.
Proof.
  unfold pd_mem, output_buffer_version. intros Heq Hm Hc Hu.
  destruct (pd_find "version" c) as [v|] eqn:E; [|done].
  destruct (dict_eqb_find c u "version" v Heq E) as (w & Ew & Hw). rewrite Ew in Hu. simpl in *.
  apply eqb_int in Hw. congruence.
Qed.

(** Normalization writes the version first. *)
Lemma fold_set_mem k l (f : pyval * pyval -> bool) d :
  pd_mem k d = true ->
  pd_mem k (fold_left (fun acc kv => if f kv then acc else pd_set (py_str kv.1) kv.2 acc) l d) = true.
Proof.
  revert d. induction l as [|kv l IH]; intros d H; simpl; [done|]. apply IH.
  destruct (f kv); [done|]. unfold pd_mem in *.
  destruct (String.eqb_spec (py_str kv.1) k) as [->|Hne]; [by rewrite pd_find_set_eq|].
  by rewrite pd_find_set_ne.
Qed.

Lemma set_mem k k' v d : pd_mem k d = true -> pd_mem k (pd_set k' v d) = true.
Proof.
  unfold pd_mem. intros H. destruct (String.eqb_spec k' k) as [->|Hne]; [by rewrite pd_find_set_eq|].
  by rewrite pd_find_set_ne.
Qed.

Lemma normalize_version d n : normalize_mapping d = Ok n -> pd_mem "version" n = true.
Proof.
  unfold normalize_mapping. intros H.
  apply rbind_ok in H as (v & _ & H). apply rbind_ok in H as (u1 & _ & H).
  apply rbind_ok in H as (n1 & H1 & H). apply rbind_ok in H as (n2 & H2 & H). inv_ok.
  apply fold_set_mem. assert (pd_mem "version" n1 = true).
  { assert (H0 : forall (b : bool) x,
      pd_mem "version" (if b then pd_set "type" x [(PStr "version", PInt v)] else [(PStr "version", PInt v)]) = true).
    { intros b x. destruct b; [by apply set_mem|done]. }
    destruct (first_present d buffers_keys); try discriminate; inv_ok; try apply set_mem; apply H0. }
  assert (pd_mem "version" n2 = true).
  { clear H1. assert (H1 : forall b : bool,
      pd_mem "version" (if b then pd_set "no_more_buffer_ids" (PBool true) n1 else n1) = true).
    { intros b. destruct b; [by apply set_mem|done]. }
    destruct (is_none (first_present d partition_count_keys)); [inv_ok; apply H1|].
    apply rbind_ok in H2 as (c & _ & H2). inv_ok. apply set_mem, H1. }
  match goal with |- pd_mem _ (if ?b then _ else _) = _ => destruct b end; [done|by apply set_mem].
Qed.

Lemma existsb_false_forall {A} (f : A -> bool) l : existsb f l = false -> Forall (fun x => f x = false) l.
Proof.
  induction l as [|x l IH]; simpl; [constructor|]. intros [H1 H2]%orb_false_iff. constructor; auto.
Qed.

(** The output-buffer merge only moves forward: an update that is not
    newer leaves the current buffers and reports no change; a newer one is
    taken only when the current buffers are not sealed, keeps the type and
    the partition count where both are known, and keeps every current buffer
    with an equal assignment. *)
Theorem merge_output_buffers_forward current update cur upd vc vu r changed :
  normalize_output_buffers current = Ok (Some cur) -> normalize_output_buffers update = Ok (Some upd) ->
  output_buffer_version cur = Ok vc -> output_buffer_version upd = Ok vu ->
  merge_output_buffers current update = Ok (r, changed) ->
  (changed = true <-> vc < vu) /\ r = Some (if changed then upd else cur) /\
  (changed = true ->
     output_buffers_sealed cur = false /\
     (forall t t', output_buffer_type cur = Some t -> output_buffer_type upd = Some t' -> t = t') /\
     (forall n n', output_buffer_partition_count cur = Ok (Some n) ->
        output_buffer_partition_count upd = Ok (Some n') -> n = n') /\
     exists bc bu, output_buffer_assignments cur = Ok bc /\ output_buffer_assignments upd = Ok bu /\
       forall k v, (k, v) ∈ bc -> exists w, od_get k bu = Some w /\ py_eqb v w = true).
Proof.
  intros Hc Hu Evc Evu H. unfold merge_output_buffers in H. rewrite Hc, Hu in H. cbn [rbind] in H.
  rewrite Evc, Evu in H. cbn [rbind] in H.
  destruct (vu <? vc) eqn:E1; [apply Z.ltb_lt in E1; injection H as <- <-; split_and!; [lia|done|done]|].
  destruct (vu =? vc) eqn:E2.
  { apply Z.eqb_eq in E2. destruct (py_eqb _ _); [|done]. injection H as <- <-. split_and!; [lia|done|done]. }
  apply Z.ltb_ge in E1. apply Z.eqb_neq in E2. apply rbind_ok in H as (u0 & Hv & H). injection H as <- <-.
  split_and!; [lia|done|]. intros _.
  unfold validate_output_buffer_transition in Hv. apply rbind_ok in Hv as (u1 & H1%raise_if_ok & Hv).
  apply rbind_ok in Hv as (u2 & H2%raise_if_ok & Hv). apply rbind_ok in Hv as (nc & Hnc & Hv).
  apply rbind_ok in Hv as (nu & Hnu & Hv). apply rbind_ok in Hv as (u3 & H3%raise_if_ok & Hv).
  apply rbind_ok in Hv as (bc & Hbc & Hv). apply rbind_ok in Hv as (bu & Hbu & Hv).
  apply rbind_ok in Hv as (u4 & H4%raise_if_ok & H5%raise_if_ok). split_and!.
  - destruct (output_buffers_sealed cur); [|done]. simpl in H2. apply negb_false_iff in H2.
    destruct current as [| | | | | | | | |d|]; try discriminate. cbn [normalize_output_buffers] in Hc. inv_ok.
    assert (vc = vu); [|lia]. eapply dict_eqb_version; [exact H2|by eapply normalize_version|done..].
  - intros t t' Et Et'. rewrite Et, Et' in H1. simpl in H1. by apply negb_false_iff, bool_decide_eq_true in H1.
  - intros n n' En En'. rewrite En in Hnc. rewrite En' in Hnu. injection Hnc as <-. injection Hnu as <-.
    simpl in H3. by apply negb_false_iff, bool_decide_eq_true in H3.
  - exists bc, bu. split_and!; [done..|]. intros k v Hin.
    apply existsb_false_forall in H4. apply existsb_false_forall in H5. rewrite Forall_forall in H4. rewrite Forall_forall in H5.
    specialize (H4 k). specialize (H5 (k, v) Hin). simpl in H5. unfold od_mem in H4.
    destruct (od_get k bu) as [w|].
    + exists w. split; [done|]. by apply negb_false_iff in H5.
    + apply negb_false_iff in H4; [done|]. apply list_elem_of_fmap. by exists (k, v).
Qed.

Lemma merge_output_buffers_forward_witness :
  exists r, merge_output_buffers
      (PDict (pd_lit [("version", PInt 1); ("kind", PStr "Hash"); ("bufferIds", PList [PInt 0])]))
      (PDict (pd_lit [("version", PInt 2); ("type", PStr "hash"); ("buffers", PList [PStr "0"; PStr "1"]); ("sealed", PStr "yes")]))
    = Ok (Some r, true) /\ output_buffers_sealed r = true /\ 1 < 2.
Proof.
  eexists. split; [vm_compute; reflexivity|]. split; [vm_compute; reflexivity|].
  eapply (merge_output_buffers_forward
      (PDict (pd_lit [("version", PInt 1); ("kind", PStr "Hash"); ("bufferIds", PList [PInt 0])]))
      (PDict (pd_lit [("version", PInt 2); ("type", PStr "hash"); ("buffers", PList [PStr "0"; PStr "1"]); ("sealed", PStr "yes")])));
    vm_compute; reflexivity.
Defined.
