(* ===== verification/Descriptor.v ===== *)
(** * Task updates and task descriptors

    Models [FteTaskUpdateRequest] and [TaskDescriptor] of
    [duckdb/runners/fte/fte_descriptor.py]: parsing an update request from
    its wire form, and the descriptor of a task that accumulates splits and
    is versioned.  A set is a [gset] and is read through [sorted], as in the
    source; [initial_splits] keeps the order of its keys. *)

From S2P Require Import Prelude PyStr PyVal FteTypes Exchange OutputBuffers.

#[local] Open Scope string_scope.
#[local] Open Scope list_scope.
#[local] Open Scope Z_scope.

(** ** Helpers *)

Fixpoint first_nonblank (keys : list string) (assignment : list (pyval * pyval)) : result string :=
  match keys with
  | [] => Raise (ValueError "split assignment is missing source_node_id")
  | k :: keys =>
      let v := pd_get k assignment in
      if negb (is_none v) && negb (String.eqb (strip (py_str v)) "") then Ok (py_str v)
      else first_nonblank keys assignment
  end.

(** [_source_id_from_assignment] *)
Definition source_id_from_assignment : list (pyval * pyval) -> result string :=
  first_nonblank ["source_node_id"; "plan_node_id"; "node_id"; "source"].

(** A split as it is handed in: an object, or a mapping to parse. *)
Definition split_of (source : string) (x : id_ref FteSplit) : result FteSplit :=
  match x with
  | RObj s => Ok s
  | RVal (PDict d) => Split.from_dict source d
  | RVal _ => Raise (TypeError "split is not a mapping")
  end.

(** [normalize_initial_splits] *)
Definition normalize_initial_splits (initial : list (string * list (id_ref FteSplit)))
    : result (list (string * list FteSplit)) :=
  rfoldM (fun acc '(source, xs) =>
      let* splits := rmapM (split_of source) xs in Ok (od_set source splits acc))
    [] initial.

(** [{str(x) for x in (v or [])}] of a wire value *)
Definition names_of (v : pyval) : result (gset string) :=
  let* items := py_iter (py_or v (PList [])) in
  Ok (list_to_set (map py_str items)).

Definition dict_or_empty (v : pyval) : result (list (pyval * pyval)) := py_dict (py_or v (PDict [])).

Definition sorted_names (s : gset string) : list string := sorted_str (elements s).
Definition names_value (s : gset string) : pyval := PList (map PStr (sorted_names s)).

(** ** [FteTaskUpdateRequest] *)

Record FteTaskUpdateRequest := MkUpdate {
  u_initial_splits : list (string * list FteSplit);
  u_no_more_splits : gset string;
  u_output_buffers : option (list (pyval * pyval));
  u_dynamic_filter_domains : list (pyval * pyval);
  u_context : list (pyval * pyval);
  u_resource_request : list (pyval * pyval);
  u_fragment_plan : pyval;
  u_fragment_plan_present : bool;
  u_source_node_ids : gset string;
  u_dynamic_scan_source_node_ids : gset string;
  u_dynamic_exchange_source_node_ids : gset string;
}.
#[export] Instance FteTaskUpdateRequest_eta : Eta FteTaskUpdateRequest :=
  fun r => MkUpdate r.(u_initial_splits) r.(u_no_more_splits) r.(u_output_buffers)
    r.(u_dynamic_filter_domains) r.(u_context) r.(u_resource_request) r.(u_fragment_plan)
    r.(u_fragment_plan_present) r.(u_source_node_ids) r.(u_dynamic_scan_source_node_ids)
    r.(u_dynamic_exchange_source_node_ids).

Module UpdateRequest.

(** The constructor with [__post_init__] *)
Definition new (initial : list (string * list (id_ref FteSplit))) (no_more : gset string)
    (output_buffers domains context resource_request fragment_plan : pyval) (plan_present : bool)
    (sources scans exchanges : pyval) : result FteTaskUpdateRequest :=
  let* initial := normalize_initial_splits initial in
  let* buffers := normalize_output_buffers output_buffers in
  let* domains := dict_or_empty domains in
  let* context := dict_or_empty context in
  let* resource_request := dict_or_empty resource_request in
  let* sources := names_of sources in
  let* scans := names_of scans in
  let* exchanges := names_of exchanges in
  Ok (MkUpdate initial no_more buffers domains context resource_request fragment_plan
        (plan_present || negb (is_none fragment_plan)) sources scans exchanges).

(** One entry of [split_assignments]: extends the splits of its source in
    the mapping read from the payload, and may mark the source. *)
Definition add_assignment (acc : list (pyval * pyval) * gset string) (assignment : pyval)
    : result (list (pyval * pyval) * gset string) :=
  let '(initial, no_more) := acc in
  match assignment with
  | PDict a =>
      let* source := source_id_from_assignment a in
      let splits := py_or (pd_get "splits" a) (PList []) in
      let* initial :=
        if truthy splits then
          let* items := py_iter splits in
          match default (PList []) (pd_find source initial) with
          | PList l => Ok (pd_set source (PList (l ++ items)) initial)
          | _ => Raise (TypeError "object has no attribute extend")
          end
        else Ok initial in
      Ok (initial,
          if truthy (pd_get "no_more_splits" a) || truthy (pd_get "noMoreSplits" a)
          then {[source]} ∪ no_more else no_more)
  | _ => Raise (TypeError "split assignment is not a mapping")
  end.

Fixpoint first_key (keys : list string) (payload : list (pyval * pyval)) : option pyval :=
  match keys with
  | [] => None
  | k :: keys => match pd_find k payload with Some v => Some v | None => first_key keys payload end
  end.

(** The splits of each source, as the constructor receives them. *)
Definition wire_splits (initial : list (pyval * pyval)) : result (list (string * list (id_ref FteSplit))) :=
  rmapM (fun kv => let* items := py_iter kv.2 in Ok (py_str kv.1, map RVal items)) initial.

(** [from_dict].  The lists under [initial_splits] are the caller's, and
    [split_assignments] extends them in place: the second component is the
    payload as the caller sees it afterwards. *)
Definition from_dict (payload : list (pyval * pyval))
    : result (FteTaskUpdateRequest * list (pyval * pyval)) :=
  let* initial0 := dict_or_empty (pd_get "initial_splits" payload) in
  let* no_more0 := names_of (pd_get "no_more_splits" payload) in
  let* assignments := py_iter (py_or (pd_get "split_assignments" payload) (PList [])) in
  let* (initial, no_more) := rfoldM add_assignment (initial0, no_more0) assignments in
  let* buffers := match first_key ["output_buffers"; "outputIds"; "output_buffer_update"] payload with
                  | Some v =>
                      let* n := normalize_output_buffers (py_or v (PDict [])) in
                      Ok (match n with Some d => PDict d | None => PNone end)
                  | None => Ok PNone
                  end in
  let domains := default PNone
    (first_key ["dynamic_filter_domains"; "dynamicFilterDomains"; "dynamic_filters"] payload) in
  let* splits := wire_splits initial in
  let* u := new splits no_more buffers domains (pd_get "context" payload)
              (pd_get "resource_request" payload) (pd_get "fragment_plan" payload)
              (pd_mem "fragment_plan" payload) (pd_get "source_node_ids" payload)
              (pd_get "dynamic_scan_source_node_ids" payload)
              (pd_get "dynamic_exchange_source_node_ids" payload) in
  let payload' := match pd_get "initial_splits" payload with
                  | PDict d => pd_set "initial_splits"
                      (PDict (map (fun kv => match as_str kv.1 with
                                             | Some k => (kv.1, default kv.2 (pd_find k initial))
                                             | None => kv
                                             end) d)) payload
                  | _ => payload
                  end in
  Ok (u, payload').

Definition empty : FteTaskUpdateRequest := MkUpdate [] ∅ None [] [] [] PNone false ∅ ∅ ∅.

(** [coerce]: the request, and the payload after parsing it. *)
Definition coerce (update : id_ref FteTaskUpdateRequest) : result FteTaskUpdateRequest :=
  match update with
  | RObj u => Ok u
  | RVal PNone => Ok empty
  | RVal (PDict d) => let* (u, _) := from_dict d in Ok u
  | RVal _ => Raise (TypeError "cannot convert update to a mapping")
  end.

Definition splits_value (splits : list (string * list FteSplit)) : pyval :=
  PDict (map (fun '(source, l) => (PStr source, PList (map (fun s => PDict (Split.to_dict s)) l))) splits).

Definition names_field (k : string) (s : gset string) : list (string * pyval) :=
  if bool_decide (s = ∅) then [] else [(k, names_value s)].

Definition dict_field (k : string) (d : list (pyval * pyval)) : list (string * pyval) :=
  match d with [] => [] | d => [(k, PDict d)] end.

Definition to_dict (u : FteTaskUpdateRequest) : list (pyval * pyval) :=
  pd_lit (
    match u.(u_initial_splits) with [] => [] | l => [("initial_splits", splits_value l)] end
    ++ names_field "no_more_splits" u.(u_no_more_splits)
    ++ match u.(u_output_buffers) with Some d => [("output_buffers", PDict d)] | None => [] end
    ++ dict_field "dynamic_filter_domains" u.(u_dynamic_filter_domains)
    ++ dict_field "context" u.(u_context)
    ++ dict_field "resource_request" u.(u_resource_request)
    ++ (if u.(u_fragment_plan_present) then [("fragment_plan", u.(u_fragment_plan))] else [])
    ++ names_field "source_node_ids" u.(u_source_node_ids)
    ++ names_field "dynamic_scan_source_node_ids" u.(u_dynamic_scan_source_node_ids)
    ++ names_field "dynamic_exchange_source_node_ids" u.(u_dynamic_exchange_source_node_ids)).

End UpdateRequest.

(** ** [TaskDescriptor] *)

Record TaskDescriptor := MkDescriptor {
  d_task_id : FteTaskId;
  d_fragment_id : string;
  d_context : list (pyval * pyval);
  d_initial_splits : list (string * list FteSplit);
  d_no_more_splits : gset string;
  d_resource_request : list (pyval * pyval);
  d_fragment_plan : pyval;
  d_fragment_registration_result : pyval;
  d_exchange_sink_instance : sink_instance;
  d_task_context_info : list (pyval * pyval);
  d_output_buffers : option (list (pyval * pyval));
  d_dynamic_filter_domains : list (pyval * pyval);
  d_descriptor_version : Z;
  d_sealed : bool;
  d_source_node_ids : gset string;
  d_dynamic_scan_source_node_ids : gset string;
  d_dynamic_exchange_source_node_ids : gset string;
  d_seen_sequences : gmap string (gset Z);
}.
#[export] Instance TaskDescriptor_eta : Eta TaskDescriptor :=
  fun r => MkDescriptor r.(d_task_id) r.(d_fragment_id) r.(d_context) r.(d_initial_splits)
    r.(d_no_more_splits) r.(d_resource_request) r.(d_fragment_plan)
    r.(d_fragment_registration_result) r.(d_exchange_sink_instance) r.(d_task_context_info)
    r.(d_output_buffers) r.(d_dynamic_filter_domains) r.(d_descriptor_version) r.(d_sealed)
    r.(d_source_node_ids) r.(d_dynamic_scan_source_node_ids)
    r.(d_dynamic_exchange_source_node_ids) r.(d_seen_sequences).

(** [a is b]: identity of objects; a parsed value is a new object. *)
Definition py_is (a b : pyval) : bool :=
  match a, b with
  | PNone, PNone => true
  | PBool x, PBool y => Bool.eqb x y
  | PObj i _, PObj j _ => N.eqb i j
  | _, _ => false
  end.

Module Descriptor.

(** The constructor with [__post_init__], for the arguments the runners
    pass. *)
Definition new (task : FteTaskId) (fragment_id : string)
    (context resource_request task_context_info output_buffers domains : pyval)
    (initial : list (string * list (id_ref FteSplit))) (no_more : gset string)
    (fragment_plan registration : pyval) (sink : sink_instance) (version : Z)
    (sources scans exchanges : gset string) : result TaskDescriptor :=
  let fragment_id := strip fragment_id in
  let* _ := raise_if (String.eqb fragment_id "") (ValueError "fragment_id must be non-empty") in
  let* context := dict_or_empty context in
  let* resource_request := dict_or_empty resource_request in
  let* info := dict_or_empty task_context_info in
  let* buffers := normalize_output_buffers output_buffers in
  let* domains := dict_or_empty domains in
  let* initial := normalize_initial_splits initial in
  Ok {| d_task_id := task; d_fragment_id := fragment_id; d_context := context;
        d_initial_splits := initial; d_no_more_splits := no_more;
        d_resource_request := resource_request; d_fragment_plan := fragment_plan;
        d_fragment_registration_result := registration; d_exchange_sink_instance := sink;
        d_task_context_info := info; d_output_buffers := buffers;
        d_dynamic_filter_domains := domains; d_descriptor_version := version; d_sealed := false;
        d_source_node_ids := sources ∪ list_to_set (od_keys initial) ∪ no_more;
        d_dynamic_scan_source_node_ids := scans; d_dynamic_exchange_source_node_ids := exchanges;
        d_seen_sequences := list_to_map (map (fun '(s, l) => (s, list_to_set (map sequence_id l))) initial) |}.

Definition splits_of (d : TaskDescriptor) (source : string) : list FteSplit :=
  default [] (od_get source d.(d_initial_splits)).
Definition seen_of (d : TaskDescriptor) (source : string) : gset Z :=
  default ∅ (d.(d_seen_sequences) !! source).

(** One iteration of the loop of [append_splits]. *)
Definition append_split (source : string) (added : list FteSplit) (split : FteSplit)
    : ST TaskDescriptor (list FteSplit) :=
  let! _ := sraise_if (negb (String.eqb split.(source_node_id) source))
    (ValueError "split source_node_id does not match descriptor update source") in
  let! d := sget in
  if bool_decide (split.(sequence_id) ∈ seen_of d source) then sret added
  else
    let! _ := smodify (fun d =>
      d <| d_seen_sequences := <[source := {[split.(sequence_id)]} ∪ seen_of d source]> d.(d_seen_sequences) |>
        <| d_initial_splits := od_set source (splits_of d source ++ [split]) d.(d_initial_splits) |>) in
    sret (added ++ [split]).

Definition append_splits (source : string) (splits : list (id_ref FteSplit)) : ST TaskDescriptor (list FteSplit) :=
  let! d := sget in
  let! _ := sraise_if (bool_decide (source ∈ d.(d_no_more_splits)) && negb (bool_decide (length splits = O)))
    (RuntimeError "source is already marked no_more_splits") in
  let! normalized := slift (rmapM (split_of source) splits) in
  let! _ := smodify (fun d =>
    match normalized with [] => d | _ => d <| d_source_node_ids ::= union {[source]} |> end) in
  let! _ := smodify (fun d =>
    d <| d_initial_splits ::= od_setdefault source [] |>
      <| d_seen_sequences := <[source := seen_of d source]> d.(d_seen_sequences) |>) in
  sfold normalized (append_split source) [].

Definition mark_no_more_splits (source : string) : ST TaskDescriptor bool :=
  let! _ := smodify (fun d => d <| d_source_node_ids ::= union {[source]} |>) in
  let! d := sget in
  if bool_decide (source ∈ d.(d_no_more_splits)) then sret false
  else
    let! _ := smodify (fun d => d <| d_no_more_splits ::= union {[source]} |>) in
    sret true.

(** [merged = dict(current); merged.update(update)]: the merged dict when it
    differs from the current one. *)
Definition merged_dict (current update : list (pyval * pyval)) : option (list (pyval * pyval)) :=
  match update with
  | [] => None
  | _ => let merged := pd_update current update in
         if py_eqb (PDict merged) (PDict current) then None else Some merged
  end.

(** Store a changed value. *)
Definition when_changed {A} (v : option A) (store : A -> TaskDescriptor -> TaskDescriptor) (changed : bool)
    : ST TaskDescriptor bool :=
  match v with
  | Some x => let! _ := smodify (store x) in sret true
  | None => sret changed
  end.

Definition grown (current update : gset string) : option (gset string) :=
  if bool_decide (current ∪ update = current) then None else Some (current ∪ update).

Definition apply_task_update (update : id_ref FteTaskUpdateRequest) : ST TaskDescriptor bool :=
  let! u := slift (UpdateRequest.coerce update) in
  let! changed := sfold u.(u_initial_splits) (fun changed '(source, splits) =>
    let! added := append_splits source (map RObj splits) in
    sret (negb (bool_decide (length added = O)) || changed)) false in
  let! changed := sfold (sorted_names u.(u_no_more_splits)) (fun changed source =>
    let! b := mark_no_more_splits source in sret (b || changed)) changed in
  let! d := sget in
  let! changed := when_changed (merged_dict d.(d_context) u.(u_context))
    (fun v d => d <| d_context := v |>) changed in
  let! d := sget in
  let! changed := when_changed (merged_dict d.(d_resource_request) u.(u_resource_request))
    (fun v d => d <| d_resource_request := v |>) changed in
  let! d := sget in
  let! changed := when_changed
    (if u.(u_fragment_plan_present) && negb (py_is d.(d_fragment_plan) u.(u_fragment_plan))
     then Some u.(u_fragment_plan) else None)
    (fun v d => d <| d_fragment_plan := v |>) changed in
  let! changed :=
    match u.(u_output_buffers) with
    | None => sret changed
    | Some b =>
        let! d := sget in
        let! (buffers, buffers_changed) := slift (merge_output_buffers
          (match d.(d_output_buffers) with Some c => PDict c | None => PNone end) (PDict b)) in
        when_changed (if buffers_changed : bool then Some buffers else None)
          (fun v d => d <| d_output_buffers := v |>) changed
    end in
  let! d := sget in
  let! changed := when_changed (merged_dict d.(d_dynamic_filter_domains) u.(u_dynamic_filter_domains))
    (fun v d => d <| d_dynamic_filter_domains := v |>) changed in
  let! d := sget in
  let! changed := when_changed (grown d.(d_source_node_ids) u.(u_source_node_ids))
    (fun v d => d <| d_source_node_ids := v |>) changed in
  let! d := sget in
  let! changed := when_changed (grown d.(d_dynamic_scan_source_node_ids) u.(u_dynamic_scan_source_node_ids))
    (fun v d => d <| d_dynamic_scan_source_node_ids := v |>) changed in
  let! d := sget in
  let! changed := when_changed (grown d.(d_dynamic_exchange_source_node_ids) u.(u_dynamic_exchange_source_node_ids))
    (fun v d => d <| d_dynamic_exchange_source_node_ids := v |>) changed in
  let! _ := smodify (fun d => if changed : bool then d <| d_descriptor_version ::= fun n => n + 1 |> else d) in
  sret changed.

Definition to_create_task_request (d : TaskDescriptor) (attempt : Z) (sink : sink_instance)
    : result (list (pyval * pyval)) :=
  let* id := TaskAttemptId.new (RObj d.(d_task_id)) attempt in
  let sink := match sink with SIVal PNone => d.(d_exchange_sink_instance) | s => s end in
  Ok (pd_lit (
    [("task_id", PDict (TaskAttemptId.to_dict id)); ("fragment_id", PStr d.(d_fragment_id));
     ("context", PDict d.(d_context)); ("initial_splits", UpdateRequest.splits_value d.(d_initial_splits));
     ("no_more_splits", names_value d.(d_no_more_splits));
     ("resource_request", PDict d.(d_resource_request)); ("fragment_plan", d.(d_fragment_plan));
     ("fragment_registration_result", d.(d_fragment_registration_result));
     ("descriptor_version", PInt d.(d_descriptor_version)); ("worker_runtime", PStr "fte")]
    ++ match d.(d_output_buffers) with Some b => [("output_buffers", PDict b)] | None => [] end
    ++ UpdateRequest.dict_field "dynamic_filter_domains" d.(d_dynamic_filter_domains)
    ++ UpdateRequest.names_field "source_node_ids" d.(d_source_node_ids)
    ++ UpdateRequest.names_field "dynamic_scan_source_node_ids" d.(d_dynamic_scan_source_node_ids)
    ++ UpdateRequest.names_field "dynamic_exchange_source_node_ids" d.(d_dynamic_exchange_source_node_ids)
    ++ match sink with
       | SIVal PNone => []
       | SIVal v => [("exchange_sink_instance", v)]
       | SIHandle h => [("exchange_sink_instance", PDict (sink_instance_to_dict h))]
       end)).

End Descriptor.
