(* ===== verification/DescriptorProofs.v ===== *)
(** * Properties of task descriptors

    Deduplication of splits, monotone growth under any sequence of updates,
    and the meaning of the descriptor version. *)

From S2P Require Import Prelude PyStr PyVal FteTypes Exchange OutputBuffers Descriptor.

#[local] Open Scope string_scope.
#[local] Open Scope list_scope.
#[local] Open Scope Z_scope.

Import Descriptor.

(** ** The invariant *)

Record desc_inv (d : TaskDescriptor) : Prop := {
  di_nodup : forall src, NoDup (map sequence_id (splits_of d src));
  di_seen : forall src s, s ∈ splits_of d src -> s.(sequence_id) ∈ seen_of d src;
  di_source : forall src x, x ∈ seen_of d src -> src ∈ d.(d_source_node_ids);
  di_no_more : d.(d_no_more_splits) ⊆ d.(d_source_node_ids);
}.

(** How a descriptor may change: splits are only appended, never for a
    source marked finished; marks and the version only grow. *)
Record evolves (d0 d : TaskDescriptor) : Prop := {
  ev_task : d.(d_task_id) = d0.(d_task_id);
  ev_splits : forall src, exists added, splits_of d src = splits_of d0 src ++ added;
  ev_frozen : forall src, src ∈ d0.(d_no_more_splits) -> splits_of d src = splits_of d0 src;
  ev_no_more : d0.(d_no_more_splits) ⊆ d.(d_no_more_splits);
  ev_version : d0.(d_descriptor_version) <= d.(d_descriptor_version);
}.

Lemma evolves_refl d : evolves d d.
Proof. constructor; try done. intros src. exists []. by rewrite app_nil_r. Qed.

(** Changes of fields that neither statement mentions. *)
Lemma step_ext d0 d d' :
  desc_inv d /\ evolves d0 d ->
  d'.(d_task_id) = d.(d_task_id) -> (forall src, splits_of d' src = splits_of d src) ->
  (forall src, seen_of d' src = seen_of d src) ->
  d.(d_source_node_ids) ⊆ d'.(d_source_node_ids) -> d'.(d_no_more_splits) = d.(d_no_more_splits) ->
  d.(d_descriptor_version) <= d'.(d_descriptor_version) ->
  desc_inv d' /\ evolves d0 d'.
Proof.
  intros [[I1 I2 I3 I4] [V1 V2 V3 V4 V5]] E1 E2 E3 E4 E5 E6. split; constructor.
  - intros src. by rewrite E2.
  - intros src s. rewrite E2, E3. apply I2.
  - intros src x. rewrite E3. intros Hx. apply E4. by eapply I3.
  - rewrite E5. set_solver.
  - congruence.
  - intros src. rewrite E2. apply V2.
  - intros src H. rewrite E2. auto.
  - by rewrite E5.
  - lia.
Qed.

Lemma splits_of_set d src l q :
  splits_of (d <| d_initial_splits := od_set src l d.(d_initial_splits) |>) q =
  if decide (src = q) then l else splits_of d q.
Proof. unfold splits_of. cbn. rewrite od_get_set. by case_decide. Qed.

Lemma splits_of_setdefault d src q :
  splits_of (d <| d_initial_splits ::= od_setdefault src [] |>) q = splits_of d q.
Proof.
  unfold splits_of. cbn. rewrite od_get_setdefault. case_decide; [subst|done]. by destruct (od_get q _).
Qed.

Lemma seen_of_set d src x q :
  seen_of (d <| d_seen_sequences := <[src := x]> d.(d_seen_sequences) |>) q =
  if decide (src = q) then x else seen_of d q.
Proof.
  unfold seen_of. cbn. case_decide; subst; [by rewrite lookup_insert_eq|by rewrite lookup_insert_ne].
Qed.

(** The descriptor after a new split. *)
Definition with_split (src : string) (s : FteSplit) (d : TaskDescriptor) : TaskDescriptor :=
  d <| d_seen_sequences := <[src := {[s.(sequence_id)]} ∪ seen_of d src]> d.(d_seen_sequences) |>
    <| d_initial_splits := od_set src (splits_of d src ++ [s]) d.(d_initial_splits) |>.

Lemma with_split_splits src s d q :
  splits_of (with_split src s d) q = if decide (src = q) then splits_of d q ++ [s] else splits_of d q.
Proof.
  unfold with_split, splits_of. cbn. rewrite od_get_set. case_decide; [subst; done|done].
Qed.

Lemma with_split_seen src s d q :
  seen_of (with_split src s d) q = if decide (src = q) then {[s.(sequence_id)]} ∪ seen_of d q else seen_of d q.
Proof.
  unfold with_split, seen_of. cbn. case_decide; subst; [by rewrite lookup_insert_eq|by rewrite lookup_insert_ne].
Qed.

Lemma with_split_step d0 d src s :
  desc_inv d /\ evolves d0 d -> s.(sequence_id) ∉ seen_of d src -> src ∉ d.(d_no_more_splits) ->
  src ∈ d.(d_source_node_ids) ->
  desc_inv (with_split src s d) /\ evolves d0 (with_split src s d).
Proof.
  intros [[I1 I2 I3 I4] [V1 V2 V3 V4 V5]] Hs Hn Hsrc. split; constructor; try done.
  - intros q. rewrite with_split_splits. case_decide; [subst|done]. rewrite map_app. apply NoDup_app.
    split_and!; [done| |apply NoDup_singleton]. intros x Hx ->%list_elem_of_singleton.
    apply list_elem_of_fmap in Hx as (s' & E & Hs'). apply Hs. rewrite E. by apply I2.
  - intros q x. rewrite with_split_splits, with_split_seen. case_decide; [subst|apply I2].
    rewrite elem_of_app, list_elem_of_singleton. intros [Hx| ->]; [apply I2 in Hx|]; set_solver.
  - intros q x. rewrite with_split_seen. case_decide; [subst; done|]. apply I3.
  - intros q. rewrite with_split_splits. destruct (V2 q) as [l ->].
    case_decide; [|by exists l]. exists (l ++ [s]). by rewrite app_assoc.
  - intros q Hq. rewrite with_split_splits. case_decide; [subst; set_solver|]. auto.
Qed.

(** ** Appending splits *)

Definition step (d0 d : TaskDescriptor) : Prop := desc_inv d /\ evolves d0 d.

(** The loop of [append_splits]: it succeeds or stops at a foreign split, and
    when it adds nothing every sequence id was known and nothing changed. *)
Lemma append_loop_wp d0 src l acc d :
  step d0 d -> src ∉ d.(d_no_more_splits) -> src ∈ d.(d_source_node_ids) ->
  wp (sfold l (append_split src) acc)
    (fun added d' => step d0 d' /\ d'.(d_descriptor_version) = d.(d_descriptor_version) /\
       exists new, added = acc ++ new /\
       (forall q, splits_of d' q = if decide (src = q) then splits_of d q ++ new else splits_of d q) /\
       (forall s, s ∈ new -> s ∈ l /\ s.(sequence_id) ∉ seen_of d src) /\
       seen_of d src ⊆ seen_of d' src /\
       (forall s, s ∈ l -> s.(sequence_id) ∈ seen_of d' src) /\
       (new = [] -> d' = d))
    (fun _ d' => step d0 d') d.
Proof.
  revert acc d. induction l as [|s l IH]; intros acc d Hd Hn Hs; cbn [sfold].
  - wp_step. split; [done|]. split; [done|]. exists []. rewrite app_nil_r. split_and!; try done.
    + intros q. case_decide; [by rewrite app_nil_r|done].
    + by intros s ?%elem_of_nil.
    + by intros s ?%elem_of_nil.
  - wp_step. unfold append_split at 1. do 2 wp_step; [|done]. do 2 wp_step. wp_step.
    + apply bool_decide_eq_true in Heqb. wp_step. eapply wp_mono; [by apply IH| |done].
      intros added d' (Hd' & Ev & new & -> & E1 & E2 & E3 & E4 & E5). split; [done|]. split; [done|]. exists new. split_and!; try done.
      * intros x Hx. destruct (E2 x Hx). split; [by right|done].
      * intros x [->|Hx]%elem_of_cons; [by apply E3|auto].
    + apply bool_decide_eq_false in Heqb. do 3 wp_step. fold (with_split src s d).
      eapply wp_mono; [apply IH; [by apply with_split_step|done..]| |done].
      intros added d' (Hd' & Ev & new & -> & E1 & E2 & E3 & E4 & E5).
      assert (Hss : seen_of (with_split src s d) src = {[s.(sequence_id)]} ∪ seen_of d src)
        by by rewrite with_split_seen, decide_True.
      rewrite Hss in E2, E3. split; [done|]. split; [done|]. exists (s :: new). split_and!; try done.
      * by rewrite <- app_assoc.
      * intros q. rewrite E1, with_split_splits. case_decide; [by rewrite <- app_assoc|done].
      * intros x [->|Hx]%elem_of_cons; [split; [left|done]|].
        destruct (E2 x Hx) as [? [_ ?]%not_elem_of_union]. split; [by right|done].
      * intros x Hx. apply E3, elem_of_union. by right.
      * intros x [->|Hx]%elem_of_cons; [|auto]. apply E3, elem_of_union. left. by apply elem_of_singleton.
Qed.

(** Everything a request to a worker is built from, but for the version. *)
Definition same_content (d d' : TaskDescriptor) : Prop :=
  (forall q, splits_of d' q = splits_of d q) /\ d'.(d_no_more_splits) = d.(d_no_more_splits) /\
  d'.(d_context) = d.(d_context) /\ d'.(d_resource_request) = d.(d_resource_request) /\
  d'.(d_fragment_plan) = d.(d_fragment_plan) /\ d'.(d_output_buffers) = d.(d_output_buffers) /\
  d'.(d_dynamic_filter_domains) = d.(d_dynamic_filter_domains) /\
  d'.(d_source_node_ids) = d.(d_source_node_ids) /\
  d'.(d_dynamic_scan_source_node_ids) = d.(d_dynamic_scan_source_node_ids) /\
  d'.(d_dynamic_exchange_source_node_ids) = d.(d_dynamic_exchange_source_node_ids) /\
  d'.(d_descriptor_version) = d.(d_descriptor_version).

Lemma same_content_refl d : same_content d d.
Proof. by split_and!. Qed.

Lemma same_content_trans d1 d2 d3 : same_content d1 d2 -> same_content d2 d3 -> same_content d1 d3.
Proof.
  intros (A1 & A2 & A3 & A4 & A5 & A6 & A7 & A8 & A9 & A10 & A11) (B1 & B2 & B3 & B4 & B5 & B6 & B7 & B8 & B9 & B10 & B11).
  split; [intros q; by rewrite B1, A1|]. split_and!; congruence.
Qed.

(** The entries [append_splits] makes for its source before the loop. *)
Definition touch (src : string) (d : TaskDescriptor) : TaskDescriptor :=
  d <| d_initial_splits ::= od_setdefault src [] |>
    <| d_seen_sequences := <[src := seen_of d src]> d.(d_seen_sequences) |>.

Lemma touch_splits src d q : splits_of (touch src d) q = splits_of d q.
Proof. exact (splits_of_setdefault d src q). Qed.
Lemma touch_seen src d q : seen_of (touch src d) q = seen_of d q.
Proof. unfold touch, seen_of. cbn. destruct (decide (src = q)) as [->|]; [by rewrite lookup_insert_eq|by rewrite lookup_insert_ne]. Qed.

Lemma append_splits_wp d0 src xs d :
  step d0 d ->
  wp (append_splits src xs)
    (fun added d' => step d0 d' /\ d'.(d_descriptor_version) = d.(d_descriptor_version) /\
       (added = [] -> same_content d d') /\
       exists l, rmapM (split_of src) xs = Ok l /\
         (forall q, splits_of d' q = if decide (src = q) then splits_of d q ++ added else splits_of d q) /\
         (forall s, s ∈ added -> s ∈ l /\ s.(sequence_id) ∉ seen_of d src) /\
         (forall s, s ∈ l -> s.(sequence_id) ∈ seen_of d' src))
    (fun _ d' => step d0 d') d.
Proof.
  intros Hd. unfold append_splits. do 2 wp_step. do 2 wp_step; [|done]. do 2 wp_step; [|done].
  rename a into l. do 4 wp_step. set (d1 := match l with [] => _ | _ => _ end). fold (touch src d1).
  assert (Hstep : step d0 (touch src d1)).
  { apply (step_ext d0 d); try done.
    - unfold d1. by destruct l.
    - intros q. rewrite touch_splits. unfold d1. by destruct l.
    - intros q. rewrite touch_seen. unfold d1. by destruct l.
    - unfold d1. destruct l; cbn; set_solver.
    - unfold d1. by destruct l.
    - unfold d1. by destruct l. }
  destruct l as [|s l]; cbn [sfold].
  - wp_step. unfold d1 in *. split; [done|]. split; [done|]. split.
    + intros _. split; [intros q; apply touch_splits|done].
    + exists []. split_and!; [done|..].
      * intros q. rewrite touch_splits. destruct (decide (src = q)); rewrite ?app_nil_r; reflexivity.
      * by intros s ?%elem_of_nil.
      * by intros s ?%elem_of_nil.
  - assert (Hn : src ∉ d.(d_no_more_splits)).
    { apply andb_false_iff in H as [H|H]; [by apply bool_decide_eq_false in H|].
      apply negb_false_iff, bool_decide_eq_true, nil_length_inv in H. subst xs. simpl in H0. done. }
    eapply wp_mono; [apply (append_loop_wp d0 src (s :: l) [] (touch src d1)); try done; cbn; set_solver| |done].
    intros added d' (Hd' & Ev & new & -> & E1 & E2 & E3 & E4 & E5). cbn [app].
    assert (Hseen : forall q, seen_of (touch src d1) q = seen_of d q) by (intros q; by rewrite touch_seen).
    assert (Hsp : forall q, splits_of (touch src d1) q = splits_of d q) by (intros q; by rewrite touch_splits).
    rewrite Hseen in E2, E3. split; [done|]. split; [done|]. split.
    + intros ->. rewrite (E5 eq_refl). split; [done|]. split_and!; try done. cbn.
      assert (src ∈ d.(d_source_node_ids)); [|set_solver]. destruct Hd as [Hi _].
      eapply (di_source _ Hi src s.(sequence_id)). rewrite <- Hseen, <- (E5 eq_refl). apply E4. left.
    + exists (s :: l). split_and!; try done. intros q. by rewrite E1, !Hsp.
Qed.

Lemma mark_no_more_wp d0 src d :
  step d0 d ->
  wp (mark_no_more_splits src)
    (fun b d' => step d0 d' /\ d'.(d_descriptor_version) = d.(d_descriptor_version) /\
       (b = false -> same_content d d'))
    (fun _ d' => step d0 d') d.
Proof.
  intros Hd. unfold mark_no_more_splits. do 4 wp_step. pose proof Hd as [[I1 I2 I3 I4] [V1 V2 V3 V4 V5]]. wp_step.
  - apply bool_decide_eq_true in Heqb. cbn in Heqb. wp_step. split; [|split; [done|]].
    + apply (step_ext d0 d); try done. cbn. set_solver.
    + intros _. split_and!; try done. cbn. set_solver.
  - do 3 wp_step. split; [|done]. split; constructor; cbn; try done.
    + intros q x Hx. apply elem_of_union. right. by eapply I3.
    + set_solver.
    + set_solver.
Qed.

(** The invariant between the parts of [apply_task_update]. *)
Definition progress (d0 : TaskDescriptor) (changed : bool) (d : TaskDescriptor) : Prop :=
  step d0 d /\ d.(d_descriptor_version) = d0.(d_descriptor_version) /\ (changed = false -> same_content d0 d).

Lemma when_changed_wp {A} d0 (v : option A) store changed d :
  progress d0 changed d ->
  (forall x, v = Some x -> step d0 (store x d) /\ (store x d).(d_descriptor_version) = d.(d_descriptor_version)) ->
  wp (when_changed v store changed) (progress d0) (fun _ d' => step d0 d') d.
Proof.
  intros Hp Hs. unfold when_changed. wp_step; [|by wp_step]. do 3 wp_step.
  destruct (Hs _ eq_refl) as [H1 H2]. destruct Hp as (_ & E & _). split; [done|]. split; [congruence|done].
Qed.

(** A store of fields other than the splits, marks, identity and version. *)
Ltac when_changed_done :=
  apply wp_bind; eapply wp_mono;
    [apply when_changed_wp; [eassumption|]| |done];
    [intros ? _; split; [|done];
     match goal with H : progress _ _ _ |- _ => eapply step_ext; [exact (proj1 H)|..]; try done end|].

Lemma apply_update_wp d0 update :
  desc_inv d0 ->
  wp (apply_task_update update)
    (fun b d => step d0 d /\ d.(d_descriptor_version) = d0.(d_descriptor_version) + Z.b2z b /\
       (b = false -> same_content d0 d))
    (fun _ d => step d0 d) d0.
Proof.
  intros Hi. assert (H0 : step d0 d0) by (split; [done|apply evolves_refl]).
  unfold apply_task_update. do 2 wp_step; [|done]. rename a into u. clear H. apply wp_bind.
  eapply wp_mono; [apply (wp_fold (fun _ d => step d0 d) (progress d0))| |done].
  { intros changed [src l] d _ Hp. apply wp_bind. eapply wp_mono; [apply append_splits_wp, Hp| |done].
    intros added d' (Hs & Ev & Hsame & _). wp_step. destruct Hp as (_ & E & Hc). split; [done|].
    split; [congruence|]. intros [Ha Hc']%orb_false_iff. eapply same_content_trans; [by apply Hc|].
    apply Hsame. by apply negb_false_iff, bool_decide_eq_true, nil_length_inv in Ha. }
  { split; [done|]. split; [done|]. intros _. apply same_content_refl. }
  intros c1 d1 Hp1. apply wp_bind.
  eapply wp_mono; [apply (wp_fold (fun _ d => step d0 d) (progress d0))| |done].
  { intros changed src d _ Hp. apply wp_bind. eapply wp_mono; [apply mark_no_more_wp, Hp| |done].
    intros b d' (Hs & Ev & Hsame). wp_step. destruct Hp as (_ & E & Hc). split; [done|].
    split; [congruence|]. intros [Ha Hc']%orb_false_iff. eapply same_content_trans; [by apply Hc|auto]. }
  { exact Hp1. }
  clear c1 d1 Hp1. intros c1 d1 Hp1. do 2 wp_step. when_changed_done.
  clear Hp1 c1 d1. intros c1 d1 Hp1. do 2 wp_step. when_changed_done.
  clear Hp1 c1 d1. intros c1 d1 Hp1. do 2 wp_step. when_changed_done.
  clear Hp1 c1 d1. intros c1 d1 Hp1. wp_step.
  apply (wp_mono (fun _ d => step d0 d) _ (progress d0)); [| |done].
  { destruct (u_output_buffers u) as [b|]; [|by wp_step]. do 4 wp_step; [|apply Hp1].
    destruct a as [buffers ch]. apply when_changed_wp; [done|]. intros x _. split; [|done].
    eapply step_ext; [exact (proj1 Hp1)|..]; done. }
  clear Hp1 c1 d1. intros c1 d1 Hp1. do 2 wp_step. when_changed_done.
  clear Hp1 c1 d1. intros c1 d1 Hp1. do 2 wp_step.
  apply wp_bind. eapply wp_mono; [apply when_changed_wp; [eassumption|]| |done].
  { unfold grown. intros x Hx. case_bool_decide; [done|]. injection Hx as <-. split; [|done].
    eapply step_ext; [exact (proj1 Hp1)|..]; try done. cbn. set_solver. }
  clear Hp1 c1 d1. intros c1 d1 Hp1. do 2 wp_step. when_changed_done.
  clear Hp1 c1 d1. intros c1 d1 Hp1. do 2 wp_step. when_changed_done.
  clear Hp1 c1 d1. intros c1 d1 (Hs & Ev & Hsame). do 3 wp_step. destruct c1; cbn.
  - split; [|split; [lia|done]]. eapply step_ext; [exact Hs|..]; try done. cbn. lia.
  - split; [done|]. split; [lia|done].
Qed.

(** ** Theorems *)

(** A sequence of updates, whether they are applied or rejected. *)
Fixpoint apply_updates (d : TaskDescriptor) (us : list (id_ref FteTaskUpdateRequest)) : TaskDescriptor :=
  match us with
  | [] => d
  | u :: us => apply_updates (snd (apply_task_update u d)) us
  end.

Lemma evolves_trans d1 d2 d3 : evolves d1 d2 -> evolves d2 d3 -> evolves d1 d3.
Proof.
  intros [A1 A2 A3 A4 A5] [B1 B2 B3 B4 B5]. constructor.
  - congruence.
  - intros q. destruct (A2 q) as [l1 E1], (B2 q) as [l2 E2]. exists (l1 ++ l2). by rewrite E2, E1, app_assoc.
  - intros q Hq. rewrite B3 by set_solver. auto.
  - set_solver.
  - lia.
Qed.

(** C35: under every sequence of task updates, rejected ones included, a
    descriptor keeps each source's splits free of duplicate sequence ids,
    only ever appends splits, never touches the splits of a source once it is
    marked finished, and never lowers its version. *)
Theorem descriptor_updates_safe d us :
  desc_inv d -> desc_inv (apply_updates d us) /\ evolves d (apply_updates d us).
Proof.
  revert d. induction us as [|u us IH]; intros d Hd; simpl; [split; [done|apply evolves_refl]|].
  pose proof (apply_update_wp d u Hd) as W. unfold wp in W.
  destruct (apply_task_update u d) as [[b|e] d1].
  - destruct W as ([H1 H2] & _). destruct (IH d1 H1). split; [done|]. by eapply evolves_trans.
  - destruct W as [H1 H2]. destruct (IH d1 H1). split; [done|]. by eapply evolves_trans.
Qed.

(** An applied update raises the version by one exactly when it reports
    a change, and when it reports none nothing a worker is told has changed:
    a worker that holds the current version holds the current descriptor. *)
Theorem descriptor_version_exact d update changed d' :
  desc_inv d -> apply_task_update update d = (Ok changed, d') ->
  d'.(d_descriptor_version) = d.(d_descriptor_version) + Z.b2z changed /\
  (changed = false -> same_content d d').
Proof.
  intros Hd H. pose proof (apply_update_wp d update Hd) as W. eapply wp_use in W; [|exact H].
  by destruct W as (_ & W).
Qed.

Lemma fresh_desc_inv task frag ctx res info buf dom no_more plan reg sink v srcs scans exs d :
  Descriptor.new task frag ctx res info buf dom [] no_more plan reg sink v srcs scans exs = Ok d -> desc_inv d.
Proof.
  unfold Descriptor.new. intros H. cbv zeta in H.
  do 6 (let x := fresh in let E := fresh in apply rbind_ok in H as (x & E & H)).
  apply rbind_ok in H as (initial & Ei & H). cbn in Ei. injection Ei as <-.
  injection H as <-. constructor; unfold splits_of, seen_of; cbn.
  - intros src. constructor.
  - by intros src s ?%elem_of_nil.
  - intros src x. rewrite lookup_empty. cbn. set_solver.
  - set_solver.
Qed.

(** A fresh descriptor and an update that brings two splits, one of them
    twice, and marks their source. *)
Definition demo_descriptor : TaskDescriptor :=
  match Descriptor.new (MkFteTaskId "q" 0 1) "f" PNone PNone PNone PNone PNone [] ∅ PNone PNone (SIVal PNone) 0 ∅ ∅ ∅ with
  | Ok d => d
  | Raise _ => MkDescriptor (MkFteTaskId "q" 0 1) "f" [] [] ∅ [] PNone PNone (SIVal PNone) [] None [] 0 false ∅ ∅ ∅ ∅
  end.

Definition demo_update : id_ref FteTaskUpdateRequest :=
  let item n := PDict (pd_lit [("sequence_id", PInt n); ("kind", PStr "scan")]) in
  RVal (PDict (pd_lit [("initial_splits", PDict (pd_lit [("a", PList [item 0; item 1; item 0])]));
                       ("no_more_splits", PList [PStr "a"])])).

Lemma demo_descriptor_inv : desc_inv demo_descriptor.
Proof.
  unfold demo_descriptor. destruct (Descriptor.new _ _ _ _ _ _ _ _ _ _ _ _ _ _ _ _) as [d|e] eqn:E.
  - by eapply fresh_desc_inv.
  - by vm_compute in E.
Qed.

Lemma descriptor_updates_safe_witness :
  let d := apply_updates demo_descriptor [demo_update; demo_update] in
  desc_inv d /\ evolves demo_descriptor d /\ map sequence_id (splits_of d "a") = [0; 1].
Proof.
  intros d. destruct (descriptor_updates_safe demo_descriptor [demo_update; demo_update]) as [H1 H2].
  - apply demo_descriptor_inv.
  - split; [exact H1|]. split; [exact H2|]. vm_compute. reflexivity.
Defined.

Lemma descriptor_version_exact_witness :
  exists d', apply_task_update demo_update demo_descriptor = (Ok true, d') /\ d'.(d_descriptor_version) = 1.
Proof.
  exists (snd (apply_task_update demo_update demo_descriptor)).
  assert (E : apply_task_update demo_update demo_descriptor =
    (Ok true, snd (apply_task_update demo_update demo_descriptor))) by (vm_compute; reflexivity).
  split; [exact E|].
  destruct (descriptor_version_exact demo_descriptor demo_update true _ demo_descriptor_inv E) as [H _]. exact H.
Defined.

(** Parsing an update request from its wire form extends the split lists
    of the caller's payload in place when [split_assignments] names a source
    that [initial_splits] lists: the same payload parsed again carries the
    assigned splits twice. *)
Theorem update_from_dict_extends_payload :
  let item n := PDict (pd_lit [("sequence_id", PInt n); ("kind", PStr "scan")]) in
  let payload := pd_lit
    [("initial_splits", PDict (pd_lit [("a", PList [item 0])]));
     ("split_assignments", PList [PDict (pd_lit [("source_node_id", PStr "a"); ("splits", PList [item 1])])])] in
  exists u1 p1 u2 p2,
    UpdateRequest.from_dict payload = Ok (u1, p1) /\ UpdateRequest.from_dict p1 = Ok (u2, p2) /\
    map (fun kv => (kv.1, map sequence_id kv.2)) u1.(u_initial_splits) = [("a", [0; 1])] /\
    map (fun kv => (kv.1, map sequence_id kv.2)) u2.(u_initial_splits) = [("a", [0; 1; 1])].
Proof. do 4 eexists. split; [vm_compute; reflexivity|]. split; [vm_compute; reflexivity|]. split; vm_compute; reflexivity. Qed.
