(* ===== verification/DescriptorStorage.v ===== *)
(** * Task-descriptor storage with spilling

    Models [TaskDescriptorStorage] of [duckdb/runners/fte/fte_descriptor.py].
    Descriptors are mutable objects shared with the storage's clients: they
    live in a heap and the storage refers to them.  Above its quota the
    storage writes the oldest descriptors to files and forgets the objects;
    reading one back allocates a new object.  Writing and reading a file
    succeed, and nobody else touches the spill directory. *)

From S2P Require Import Prelude PyStr PyVal FteTypes Exchange OutputBuffers Descriptor.

#[local] Open Scope string_scope.
#[local] Open Scope list_scope.
#[local] Open Scope Z_scope.

Record Storage := MkStorage {
  st_heap : list TaskDescriptor;
  st_descriptors : list (FteTaskId * nat);
  st_query_index : gmap string (gset FteTaskId);
  st_spill_paths : gmap FteTaskId string;
  st_files : gmap string TaskDescriptor;
  st_max_in_memory : Z;
  st_spill_dir : option string;
}.
#[export] Instance Storage_eta : Eta Storage :=
  fun r => MkStorage r.(st_heap) r.(st_descriptors) r.(st_query_index) r.(st_spill_paths)
    r.(st_files) r.(st_max_in_memory) r.(st_spill_dir).

Module Store.

(** [__init__], with the environment defaults already read. *)
Definition new (heap : list TaskDescriptor) (max_in_memory : Z) (spill_dir : option string) : Storage :=
  MkStorage heap [] ∅ ∅ ∅ (Z.max 0 max_in_memory) spill_dir.

(** The object behind a reference. *)
Definition deref (s : Storage) (r : nat) : result TaskDescriptor :=
  match s.(st_heap) !! r with Some d => Ok d | None => Raise (TypeError "not a descriptor") end.

Definition spill_path (dir : string) (key : FteTaskId) : string :=
  dir +:+ "/" +:+ key.(query_id) +:+ "_" +:+ str_of_int key.(fragment_execution_id)
    +:+ "_" +:+ str_of_int key.(partition_id) +:+ ".pickle".

(** [_remove_spill_file] *)
Definition remove_spill_file (key : FteTaskId) (s : Storage) : Storage :=
  match s.(st_spill_paths) !! key with
  | Some path => s <| st_spill_paths ::= delete key |> <| st_files ::= delete path |>
  | None => s
  end.

(** [_spill_descriptor] *)
Definition spill_descriptor (key : FteTaskId) (s : Storage) : Storage :=
  match s.(st_spill_dir), od_get key s.(st_descriptors) with
  | Some dir, Some r =>
      match s.(st_heap) !! r with
      | Some d =>
          s <| st_files ::= insert (spill_path dir key) d |>
            <| st_descriptors ::= od_pop key |>
            <| st_spill_paths ::= insert key (spill_path dir key) |>
      | None => s
      end
  | _, _ => s
  end.

(** The loop of [_enforce_memory_quota]; every turn drops one descriptor, so
    as many turns as there are descriptors are enough. *)
Fixpoint spill_loop (fuel : nat) (s : Storage) : Storage :=
  match fuel with
  | O => s
  | S fuel =>
      if s.(st_max_in_memory) <? Z.of_nat (length s.(st_descriptors)) then
        match s.(st_descriptors) with
        | (key, _) :: _ => spill_loop fuel (spill_descriptor key s)
        | [] => s
        end
      else s
  end.

Definition enforce_memory_quota (s : Storage) : Storage :=
  match s.(st_spill_dir) with
  | Some _ => if s.(st_max_in_memory) <=? 0 then s else spill_loop (length s.(st_descriptors)) s
  | None => s
  end.

(** [self._query_index.setdefault(key.query_id, set()).add(key)] *)
Definition index_add (key : FteTaskId) (m : gmap string (gset FteTaskId)) : gmap string (gset FteTaskId) :=
  <[key.(query_id) := {[key]} ∪ default ∅ (m !! key.(query_id))]> m.

Definition put (task : id_ref FteTaskId) (r : nat) : ST Storage unit :=
  let! key := slift (TaskId.coerce task) in
  let! s := sget in
  let! d := slift (deref s r) in
  let! _ := sraise_if (negb (bool_decide (d.(d_task_id) = key)))
    (ValueError "descriptor task_id does not match storage key") in
  let! _ := smodify (fun s => s <| st_descriptors ::= od_set key r |>
                                <| st_query_index ::= index_add key |>) in
  let! _ := smodify (remove_spill_file key) in
  smodify enforce_memory_quota.

(** [_load_spilled_descriptor] *)
Definition load_spilled_descriptor (key : FteTaskId) (keep_in_memory : bool) : ST Storage (option nat) :=
  let! s := sget in
  match s.(st_spill_paths) !! key with
  | None => sret None
  | Some path =>
      match s.(st_files) !! path with
      | None => sret None
      | Some d =>
          let r := length s.(st_heap) in
          let! _ := smodify (fun s => s <| st_heap ::= fun h => h ++ [d] |>) in
          let! _ := smodify (fun s =>
            if keep_in_memory then
              enforce_memory_quota
                (remove_spill_file key (s <| st_descriptors ::= od_set key r |>)
                   <| st_query_index ::= index_add key |>)
            else s) in
          sret (Some r)
      end
  end.

Definition get (task : id_ref FteTaskId) : ST Storage (option nat) :=
  let! key := slift (TaskId.coerce task) in
  let! s := sget in
  match od_get key s.(st_descriptors) with
  | Some r => sret (Some r)
  | None => load_spilled_descriptor key true
  end.

Definition require (task : id_ref FteTaskId) : ST Storage nat :=
  let! key := slift (TaskId.coerce task) in
  let! r := get (RObj key) in
  match r with Some r => sret r | None => sraise (KeyError (TaskId.to_str key)) end.

(** The end of [remove]: drop the key from the index of its query. *)
Definition index_discard (key : FteTaskId) (m : gmap string (gset FteTaskId)) : gmap string (gset FteTaskId) :=
  match m !! key.(query_id) with
  | None => m
  | Some ids =>
      let ids := ids ∖ {[key]} in
      if bool_decide (ids = ∅) then delete key.(query_id) m else <[key.(query_id) := ids]> m
  end.

Definition remove (task : id_ref FteTaskId) : ST Storage (option nat) :=
  let! key := slift (TaskId.coerce task) in
  let! s := sget in
  let! _ := smodify (fun s => s <| st_descriptors ::= od_pop key |>) in
  let! r := match od_get key s.(st_descriptors) with
            | Some r => sret (Some r)
            | None => load_spilled_descriptor key false
            end in
  let! _ := smodify (remove_spill_file key) in
  let! _ := smodify (fun s => s <| st_query_index ::= index_discard key |>) in
  sret r.

(** One key of the loop of [destroy_query]. *)
Definition destroy_key (removed : Z) (key : FteTaskId) : ST Storage Z :=
  let! s := sget in
  let removed :=
    if od_mem key s.(st_descriptors) || bool_decide (is_Some (s.(st_spill_paths) !! key))
    then removed + 1 else removed in
  let! _ := smodify (fun s => s <| st_descriptors ::= od_pop key |>) in
  let! _ := smodify (remove_spill_file key) in
  sret removed.

Definition destroy_query (query : string) : ST Storage Z :=
  let! s := sget in
  let keys := default ∅ (s.(st_query_index) !! query) in
  let! _ := smodify (fun s => s <| st_query_index ::= delete query |>) in
  sfold (elements keys) destroy_key 0.

(** [__len__] *)
Definition len (s : Storage) : Z :=
  Z.of_nat (length s.(st_descriptors)) + Z.of_nat (size s.(st_spill_paths)).

Definition stats (s : Storage) : list (string * Z) :=
  [("in_memory", Z.of_nat (length s.(st_descriptors))); ("spilled", Z.of_nat (size s.(st_spill_paths)));
   ("total", len s); ("max_in_memory", s.(st_max_in_memory))].

End Store.
