(* ===== verification/StorageProofs.v ===== *)
(** * Properties of the descriptor storage

    The storage is a map from task ids to descriptors: spilling, reloading
    and the memory quota are invisible to its clients. *)

From S2P Require Import Prelude PyStr PyVal FteTypes Exchange OutputBuffers Descriptor DescriptorStorage.

#[local] Open Scope string_scope.
#[local] Open Scope list_scope.
#[local] Open Scope Z_scope.

(** ** Spill files have distinct names *)

Lemma sapp_last_inj c a b d1 d2 :
  no_char c d1 = true -> no_char c d2 = true ->
  a +:+ String c d1 = b +:+ String c d2 -> a = b /\ d1 = d2.
Proof.
  intros H1 H2 E. assert (Es : split c (a +:+ String c d1) = split c (b +:+ String c d2)) by by rewrite E.
  rewrite !split_app, (split_no_char c d1 H1), (split_no_char c d2 H2) in Es.
  apply app_inj_tail in Es as [Es ->]. split; [|done]. by rewrite <- (join_split c a), Es, join_split.
Qed.

Lemma str_of_int_no_underscore z : 0 <= z -> no_char "_" (str_of_int z) = true.
Proof. intros Hz. apply digits_not; [by apply str_of_int_all_digits|]. right. vm_compute. lia. Qed.

Lemma spill_path_inj dir k1 k2 :
  wf_task_id k1 -> wf_task_id k2 -> Store.spill_path dir k1 = Store.spill_path dir k2 -> k1 = k2.
Proof.
  destruct k1 as [q1 f1 p1], k2 as [q2 f2 p2]. intros (_ & _ & Hf1 & Hp1) (_ & _ & Hf2 & Hp2).
  unfold Store.spill_path. simpl in *. intros E. do 2 apply sapp_cancel_l in E.
  assert (Hshape : forall q f p : string, q +:+ "_" +:+ f +:+ "_" +:+ p +:+ ".pickle" =
    ((q +:+ String "_" f) +:+ String "_" p) +:+ String "." "pickle") by (intros; by rewrite !sapp_assoc).
  rewrite !Hshape in E. apply sapp_last_inj in E as [E _]; [|done..].
  apply sapp_last_inj in E as [E Ep]; [|by apply str_of_int_no_underscore..].
  apply sapp_last_inj in E as [-> Ef]; [|by apply str_of_int_no_underscore..].
  apply str_of_int_inj in Ep; [|done..]. apply str_of_int_inj in Ef; [|done..]. by subst.
Qed.

(** ** The abstraction: what the storage holds for a key *)

Definition contents (s : Storage) (k : FteTaskId) : option TaskDescriptor :=
  match od_get k s.(st_descriptors) with
  | Some r => s.(st_heap) !! r
  | None => s.(st_spill_paths) !! k ≫= fun path => s.(st_files) !! path
  end.

(** Objects and files; the index is separate. *)
Record store_ok (s : Storage) : Prop := {
  so_wf : od_wf s.(st_descriptors);
  so_mem : forall k r, od_get k s.(st_descriptors) = Some r ->
    wf_task_id k /\ s.(st_spill_paths) !! k = None /\ exists d, s.(st_heap) !! r = Some d /\ d.(d_task_id) = k;
  so_spill : forall k path, s.(st_spill_paths) !! k = Some path ->
    wf_task_id k /\ exists dir d, s.(st_spill_dir) = Some dir /\ path = Store.spill_path dir k /\
      s.(st_files) !! path = Some d /\ d.(d_task_id) = k;
}.

Definition index_ok (s : Storage) : Prop :=
  (forall k q, k ∈ default ∅ (s.(st_query_index) !! q) <-> k.(query_id) = q /\ is_Some (contents s k)) /\
  (forall q ids, s.(st_query_index) !! q = Some ids -> ids <> ∅).

Definition quota_ok (s : Storage) : Prop :=
  s.(st_spill_dir) <> None -> 0 < s.(st_max_in_memory) ->
  Z.of_nat (length s.(st_descriptors)) <= s.(st_max_in_memory).

Record storage_inv (s : Storage) : Prop := {
  si_store : store_ok s;
  si_index : index_ok s;
  si_quota : quota_ok s;
}.

Lemma new_storage_inv heap n dir : storage_inv (Store.new heap n dir).
Proof.
  constructor.
  - constructor; cbn; try done. constructor.
  - split; cbn; [|done]. intros k q. unfold contents. cbn. rewrite !lookup_empty. cbn.
    split; [set_solver|]. by intros [_ [? ?]].
  - intros _ Hm. cbn in *. lia.
Qed.

(** Two stored keys never share a file. *)
Lemma other_file s k1 k2 path1 path2 :
  store_ok s -> s.(st_spill_paths) !! k1 = Some path1 -> s.(st_spill_paths) !! k2 = Some path2 ->
  k1 <> k2 -> path1 <> path2.
Proof.
  intros Hs H1 H2 Hne. apply (so_spill _ Hs) in H1 as (W1 & dir & d1 & E1 & -> & _).
  apply (so_spill _ Hs) in H2 as (W2 & dir2 & d2 & E2 & -> & _). rewrite E1 in E2. injection E2 as <-.
  intros E. by apply Hne, (spill_path_inj dir).
Qed.

(** ** Removing a spill file *)

Lemma remove_spill_spec key s :
  store_ok s ->
  let s' := Store.remove_spill_file key s in
  s'.(st_heap) = s.(st_heap) /\ s'.(st_descriptors) = s.(st_descriptors) /\
  s'.(st_query_index) = s.(st_query_index) /\ s'.(st_max_in_memory) = s.(st_max_in_memory) /\
  s'.(st_spill_dir) = s.(st_spill_dir) /\ s'.(st_spill_paths) = delete key s.(st_spill_paths) /\
  (forall k path, k <> key -> s.(st_spill_paths) !! k = Some path -> s'.(st_files) !! path = s.(st_files) !! path).
Proof.
  intros Hs. unfold Store.remove_spill_file. destruct (s.(st_spill_paths) !! key) as [path|] eqn:E; cbn.
  - split_and!; try done. intros k p Hk Hp. rewrite lookup_delete_ne; [done|].
    by eapply (other_file s key k).
  - split_and!; try done. by rewrite delete_id.
Qed.

Lemma remove_spill_ok key s :
  store_ok s -> store_ok (Store.remove_spill_file key s).
Proof.
  intros Hs. destruct (remove_spill_spec key s Hs) as (E1 & E2 & E3 & E4 & E5 & E6 & E7).
  constructor; rewrite ?E2, ?E1, ?E6, ?E5.
  - apply Hs.
  - intros k r Hk. destruct (so_mem _ Hs k r Hk) as (W & Hn & d & Hd). split; [done|]. split; [|by exists d].
    apply lookup_delete_None. by right.
  - intros k path [Hne Hk]%lookup_delete_Some. destruct (so_spill _ Hs k path Hk) as (W & dir & d & H1 & H2 & H3 & H4).
    split; [done|]. exists dir, d. split_and!; try done. rewrite E7 with k path; [done|by intros ->|done].
Qed.

Lemma remove_spill_contents key s k :
  store_ok s ->
  contents (Store.remove_spill_file key s) k =
  if decide (k = key) then od_get k s.(st_descriptors) ≫= fun r => s.(st_heap) !! r else contents s k.
Proof.
  intros Hs. destruct (remove_spill_spec key s Hs) as (E1 & E2 & E3 & E4 & E5 & E6 & E7).
  unfold contents. rewrite E1, E2, E6. destruct (od_get k _) as [r|]; [by case_decide|].
  destruct (decide (k = key)) as [->|Hne]; [by rewrite lookup_delete_eq|].
  rewrite lookup_delete_ne by done. destruct (s.(st_spill_paths) !! k) as [path|] eqn:Ep; [|done].
  simpl. by apply (E7 k).
Qed.

(** ** Spilling *)

Lemma spill_spec key r s :
  store_ok s -> s.(st_spill_dir) <> None -> od_get key s.(st_descriptors) = Some r ->
  let s' := Store.spill_descriptor key s in
  store_ok s' /\ (forall k, contents s' k = contents s k) /\
  s'.(st_descriptors) = od_pop key s.(st_descriptors) /\ s'.(st_heap) = s.(st_heap) /\
  s'.(st_query_index) = s.(st_query_index) /\ s'.(st_max_in_memory) = s.(st_max_in_memory) /\
  s'.(st_spill_dir) = s.(st_spill_dir).
Proof.
  intros Hs Hdir Hk. destruct (so_mem _ Hs key r Hk) as (W & Hn & d & Hd & Ht).
  unfold Store.spill_descriptor. destruct s.(st_spill_dir) as [dir|] eqn:Edir; [|done].
  rewrite Hk, Hd. cbn. split_and!; try done; [constructor; cbn|].
  - apply od_wf_pop, Hs.
  - intros k x Hx. assert (Hne : key <> k).
    { intros <-. by rewrite od_get_pop_eq in Hx by apply Hs. }
    rewrite od_get_pop_ne in Hx by done. destruct (so_mem _ Hs k x Hx) as (Wk & Hn' & Hd').
    split_and!; [done| |done]. by rewrite lookup_insert_ne.
  - intros k path. destruct (decide (key = k)) as [<-|Hne].
    + rewrite lookup_insert_eq. intros [= <-]. split; [done|]. exists dir, d. split_and!; try done.
      by rewrite lookup_insert_eq.
    + rewrite lookup_insert_ne by done. intros Hp.
      destruct (so_spill _ Hs k path Hp) as (Wk & dir' & d' & E & -> & Hf & Ht').
      rewrite Edir in E. injection E as <-. split; [done|]. exists dir, d'. split_and!; try done.
      rewrite lookup_insert_ne; [done|]. intros E. by apply Hne, (spill_path_inj dir).
  - intros k. unfold contents. cbn. destruct (decide (key = k)) as [<-|Hne].
    + rewrite od_get_pop_eq by apply Hs. rewrite lookup_insert_eq, Hk. simpl. by rewrite lookup_insert_eq.
    + rewrite od_get_pop_ne, lookup_insert_ne by done. destruct (od_get k _); [done|].
      destruct (s.(st_spill_paths) !! k) as [path|] eqn:Ep; [|done]. simpl.
      destruct (so_spill _ Hs k path Ep) as (Wk & dir' & d' & E & -> & _).
      rewrite Edir in E. injection E as <-. rewrite lookup_insert_ne; [done|].
      intros E. by apply Hne, (spill_path_inj dir).
Qed.

(** What enforcing the quota keeps, and what it drops from memory: a prefix
    of the descriptors in their order. *)
Definition same_store (s s' : Storage) : Prop :=
  (forall k, contents s' k = contents s k) /\ s'.(st_heap) = s.(st_heap) /\
  s'.(st_query_index) = s.(st_query_index) /\ s'.(st_max_in_memory) = s.(st_max_in_memory) /\
  s'.(st_spill_dir) = s.(st_spill_dir).

Lemma spill_loop_spec fuel s :
  store_ok s -> s.(st_spill_dir) <> None -> 0 < s.(st_max_in_memory) ->
  (length s.(st_descriptors) <= fuel)%nat ->
  let s' := Store.spill_loop fuel s in
  store_ok s' /\ same_store s s' /\
  Z.of_nat (length s'.(st_descriptors)) <= s.(st_max_in_memory) /\
  exists n, s'.(st_descriptors) = drop n s.(st_descriptors) /\
    (Z.of_nat n = Z.max 0 (Z.of_nat (length s.(st_descriptors)) - s.(st_max_in_memory))).
Proof.
  revert s. induction fuel as [|fuel IH]; intros s Hs Hdir Hm Hl; simpl.
  { destruct s.(st_descriptors) eqn:E; [|simpl in Hl; lia]. simpl in *.
    split_and!; try done; [lia|]. exists O. split; [done|]. simpl. lia. }
  destruct (s.(st_max_in_memory) <? _) eqn:Elt.
  2: { apply Z.ltb_ge in Elt. split_and!; try done. exists O. split; [done|lia]. }
  apply Z.ltb_lt in Elt. destruct s.(st_descriptors) as [|[key r] rest] eqn:Ed; [simpl in Elt; lia|].
  assert (Hk : od_get key s.(st_descriptors) = Some r) by (rewrite Ed; simpl; by rewrite decide_True).
  destruct (spill_spec key r s Hs Hdir Hk) as (Hs1 & Hc & Epop & Eh & Eq & Em & Ei).
  assert (Er : (Store.spill_descriptor key s).(st_descriptors) = rest)
    by (rewrite Epop, Ed; simpl; by rewrite decide_True).
  simpl in Elt, Hl. destruct (IH (Store.spill_descriptor key s)) as (G1 & (G2 & G3 & G4 & G5 & G6) & G7 & n & G8 & G9).
  - done.
  - by rewrite Ei.
  - by rewrite Em.
  - rewrite Er. lia.
  - rewrite Em in *. rewrite Er in *. split; [done|]. split; [|split; [done|]].
    + split; [intros k; by rewrite G2, Hc|]. split_and!; congruence.
    + exists (S n). split; [done|]. simpl. lia.
Qed.

Lemma enforce_spec s :
  store_ok s ->
  let s' := Store.enforce_memory_quota s in
  store_ok s' /\ same_store s s' /\ quota_ok s' /\
  exists n, s'.(st_descriptors) = drop n s.(st_descriptors) /\
    (quota_ok s \/ 0 < s.(st_max_in_memory) /\
     Z.of_nat n = Z.of_nat (length s.(st_descriptors)) - s.(st_max_in_memory)).
Proof.
  intros Hs. unfold Store.enforce_memory_quota.
  assert (Htriv : quota_ok s -> store_ok s /\ same_store s s /\ quota_ok s /\
    exists n, s.(st_descriptors) = drop n s.(st_descriptors) /\
    (quota_ok s \/ 0 < s.(st_max_in_memory) /\
     Z.of_nat n = Z.of_nat (length s.(st_descriptors)) - s.(st_max_in_memory))).
  { intros Hq. split_and!; try done. exists O. split; [done|by left]. }
  destruct s.(st_spill_dir) as [dir|] eqn:Edir; [|apply Htriv; by intros ?].
  destruct (s.(st_max_in_memory) <=? 0) eqn:E; [apply Z.leb_le in E; apply Htriv; intros _ ?; lia|].
  apply Z.leb_gt in E. destruct (spill_loop_spec (length s.(st_descriptors)) s) as (H1 & H2 & H3 & n & H4 & H5);
    [done|by rewrite Edir|done|done|]. split_and!; try done.
  - intros _ _. destruct H2 as (_ & _ & _ & -> & _). done.
  - exists n. split; [done|]. destruct (decide (Z.of_nat (length s.(st_descriptors)) <= s.(st_max_in_memory))).
    + left. by intros _ _.
    + right. split; [done|]. lia.
Qed.

Lemma index_ok_ext s s' :
  index_ok s -> (forall k, contents s' k = contents s k) -> s'.(st_query_index) = s.(st_query_index) -> index_ok s'.
Proof. intros [H1 H2] Hc Hi. split; rewrite Hi; [|done]. intros k q. by rewrite Hc, H1. Qed.

(** ** Storing an object under a key *)

(** The assignments of [put] and of a reload, before the quota is enforced. *)
Definition set_key (key : FteTaskId) (r : nat) (s : Storage) : Storage :=
  Store.remove_spill_file key s <| st_descriptors ::= od_set key r |> <| st_query_index ::= Store.index_add key |>.

Lemma set_key_spec key r d s :
  store_ok s -> index_ok s -> wf_task_id key -> s.(st_heap) !! r = Some d -> d.(d_task_id) = key ->
  let s' := set_key key r s in
  store_ok s' /\ index_ok s' /\
  (forall k, contents s' k = if decide (k = key) then Some d else contents s k).
Proof.
  intros Hs [Hi1 Hi2] W Hd Ht. pose proof (remove_spill_ok key s Hs) as Hs1.
  destruct (remove_spill_spec key s Hs) as (E1 & E2 & E3 & E4 & E5 & E6 & E7).
  assert (Hc : forall k, contents (set_key key r s) k = if decide (k = key) then Some d else contents s k).
  { intros k. unfold set_key, contents. cbn. rewrite E1, E2, E6, od_get_set.
    destruct (decide (key = k)) as [<-|Hne]; [by rewrite decide_True|]. rewrite decide_False by done.
    destruct (od_get k _); [done|]. rewrite lookup_delete_ne by done.
    destruct (s.(st_spill_paths) !! k) as [path|] eqn:Ep; [|done]. simpl. by apply (E7 k). }
  intros s'. split; [|split; [|exact Hc]].
  - constructor; cbn; rewrite ?E1, ?E2, ?E5, ?E6.
    + apply od_wf_set, Hs.
    + intros k x. rewrite od_get_set. destruct (decide (key = k)) as [<-|Hne].
      * intros [= <-]. split; [done|]. split; [by rewrite lookup_delete_eq|]. by exists d.
      * intros Hx. destruct (so_mem _ Hs k x Hx) as (? & ? & ?). split_and!; try done.
        by rewrite lookup_delete_ne.
    + intros k path Hp. rewrite <- E5. apply (so_spill _ Hs1). by rewrite E6.
  - split; cbn; rewrite E3; unfold Store.index_add.
    + intros k q. rewrite Hc. destruct (decide (key.(query_id) = q)) as [<-|Hq].
      * rewrite lookup_insert_eq. simpl. rewrite elem_of_union, elem_of_singleton, Hi1.
        case_decide; [subst|]; naive_solver.
      * rewrite lookup_insert_ne, Hi1 by done. case_decide; [subst|]; naive_solver.
    + intros q ids. destruct (decide (key.(query_id) = q)) as [<-|Hq].
      * rewrite lookup_insert_eq. intros [= <-]. set_solver.
      * rewrite lookup_insert_ne by done. apply Hi2.
Qed.

Lemma set_key_eq key r s :
  Store.remove_spill_file key (s <| st_descriptors ::= od_set key r |> <| st_query_index ::= Store.index_add key |>) =
  set_key key r s.
Proof.
  unfold set_key, Store.remove_spill_file. cbn. by destruct (s.(st_spill_paths) !! key).
Qed.

Lemma enforce_inv s :
  store_ok s -> index_ok s ->
  storage_inv (Store.enforce_memory_quota s) /\
  (forall k, contents (Store.enforce_memory_quota s) k = contents s k).
Proof.
  intros Hs Hi. destruct (enforce_spec s Hs) as (H1 & (H2 & H3 & H4 & _) & H5 & _).
  split; [|done]. constructor; [done| |done]. by apply (index_ok_ext s).
Qed.

(** C38: [put] stores exactly its key: afterwards the storage holds the given
    descriptor for that key, what it held for every other key is unchanged,
    and the invariant holds, the memory quota and the query index included. *)
Theorem storage_put_refines s key r d :
  storage_inv s -> wf_task_id key -> s.(st_heap) !! r = Some d -> d.(d_task_id) = key ->
  exists s', Store.put (RObj key) r s = (Ok tt, s') /\ storage_inv s' /\
    forall k, contents s' k = if decide (k = key) then Some d else contents s k.
Proof.
  intros [Hs Hi _] W Hd Ht. unfold Store.put, Store.deref, sraise_if, sbind, slift, sget, smodify. cbn.
  rewrite Hd. rewrite bool_decide_eq_true_2 by done. cbn.
  rewrite set_key_eq.
  destruct (set_key_spec key r d s Hs Hi W Hd Ht) as (H1 & H2 & H3).
  destruct (enforce_inv _ H1 H2) as [H4 H5]. eexists. split; [reflexivity|]. split; [done|].
  intros k. by rewrite H5, H3.
Qed.

Lemma heap_extend s d :
  store_ok s ->
  let s' := s <| st_heap ::= fun h => h ++ [d] |> in
  store_ok s' /\ (forall k, contents s' k = contents s k).
Proof.
  intros Hs. split.
  - constructor; cbn; try apply Hs. intros k r Hk. destruct (so_mem _ Hs k r Hk) as (? & ? & x & Hx & ?).
    split_and!; try done. exists x. split; [by apply lookup_app_l_Some|done].
  - intros k. unfold contents. cbn. destruct (od_get k s.(st_descriptors)) as [r|] eqn:E; [|done].
    destruct (so_mem _ Hs k r E) as (_ & _ & x & Hx & _). rewrite Hx. by apply lookup_app_l_Some.
Qed.

(** A key stored last survives the quota. *)
Lemma enforce_keeps_last s l key r :
  store_ok s -> s.(st_descriptors) = l ++ [(key, r)] -> key ∉ od_keys l ->
  od_get key (Store.enforce_memory_quota s).(st_descriptors) = Some r.
Proof.
  intros Hs El Hk. destruct (enforce_spec s Hs) as (H1 & H2 & H3 & n & Hn & Hcase).
  assert (Hlen : (n <= length l)%nat \/ (Store.enforce_memory_quota s).(st_descriptors) = s.(st_descriptors)).
  { destruct Hcase as [Hq|[Hm Hz]].
    - right. unfold Store.enforce_memory_quota. destruct s.(st_spill_dir) as [dir|] eqn:Ed; [|done].
      destruct (_ <=? 0) eqn:E; [done|]. apply Z.leb_gt in E. unfold quota_ok in Hq. rewrite Ed in Hq.
      specialize (Hq ltac:(done) E). destruct (length s.(st_descriptors)) eqn:Elen; simpl; [done|].
      destruct (s.(st_max_in_memory) <? _) eqn:Elt; [|done]. apply Z.ltb_lt in Elt. rewrite <- Elen in Hq. lia.
    - left. rewrite El, length_app in Hz. simpl in Hz. lia. }
  assert (Hget : forall l', (forall x, x ∈ od_keys l' -> x ∈ od_keys l) -> od_get key (l' ++ [(key, r)]) = Some r).
  { intros l' Hsub. rewrite od_get_app. assert (od_get key l' = None) as -> by (apply od_get_None; auto).
    simpl. by rewrite decide_True. }
  destruct Hlen as [Hlen| ->]; [|rewrite El; by apply Hget].
  rewrite Hn, El, drop_app_le by done. apply Hget. intros x Hx. unfold od_keys in *.
  apply list_elem_of_fmap in Hx as (y & -> & Hy). apply list_elem_of_fmap. exists y. split; [done|].
  by apply (subseteq_drop n l).
Qed.

Lemma get_spec s key :
  storage_inv s -> wf_task_id key ->
  exists res s', Store.get (RObj key) s = (Ok res, s') /\ storage_inv s' /\
    (forall k, contents s' k = contents s k) /\
    match res with
    | Some r => od_get key s'.(st_descriptors) = Some r /\ is_Some (contents s key)
    | None => contents s key = None
    end.
Proof.
  intros Hinv W. pose proof Hinv as [Hs Hi Hq]. unfold Store.get, sbind, slift, sget. cbn.
  destruct (od_get key s.(st_descriptors)) as [r|] eqn:Ek.
  { exists (Some r), s. unfold sret. split_and!; try done. unfold contents. rewrite Ek.
    destruct (so_mem _ Hs key r Ek) as (_ & _ & d & -> & _). eauto. }
  unfold Store.load_spilled_descriptor, sbind, sget, smodify, sret.
  destruct (s.(st_spill_paths) !! key) as [path|] eqn:Ep.
  2: { exists None, s. split_and!; try done. unfold contents. by rewrite Ek, Ep. }
  destruct (so_spill _ Hs key path Ep) as (_ & dir & d & Edir & -> & Hf & Ht). rewrite Hf.
  destruct (heap_extend s d Hs) as [Hs1 Hc1]. set (s1 := s <| st_heap ::= fun h => h ++ [d] |>) in *.
  assert (Hi1 : index_ok s1) by by apply (index_ok_ext s).
  assert (Hd : s1.(st_heap) !! length s.(st_heap) = Some d) by (cbn; by apply list_lookup_middle).
  destruct (set_key_spec key (length s.(st_heap)) d s1 Hs1 Hi1 W Hd Ht) as (H1 & H2 & H3).
  destruct (enforce_inv _ H1 H2) as [H4 H5].
  assert (Eset : Store.remove_spill_file key (s1 <| st_descriptors ::= od_set key (length s.(st_heap)) |>)
      <| st_query_index ::= Store.index_add key |> = set_key key (length s.(st_heap)) s1).
  { unfold set_key, Store.remove_spill_file. cbn. by destruct (s.(st_spill_paths) !! key). }
  rewrite Eset. do 2 eexists. split; [reflexivity|]. split; [done|].
  assert (Hcontents : contents s key = Some d) by (unfold contents; by rewrite Ek, Ep).
  split.
  - intros k. rewrite H5, H3, Hc1. by case_decide; [subst|].
  - rewrite Hcontents. split; [|eauto]. apply (enforce_keeps_last _ s.(st_descriptors)); [done| |by apply od_get_None].
    unfold set_key. cbn. unfold Store.remove_spill_file. cbn. rewrite Ep. cbn.
    clear -Ek. induction s.(st_descriptors) as [|[k0 r0] l IH]; simpl in *; [done|].
    destruct (decide (key = k0)); [done|]. by rewrite IH.
Qed.

(** [get] is a pure lookup of the abstract map: it never raises, returns
    a live reference to the stored descriptor exactly when the storage holds
    the key, and changes nothing the storage holds, whatever it spills or
    reloads on the way. *)
Theorem storage_get_refines s key :
  storage_inv s -> wf_task_id key ->
  exists res s', Store.get (RObj key) s = (Ok res, s') /\ storage_inv s' /\
    (forall k, contents s' k = contents s k) /\
    (res ≫= fun r => s'.(st_heap) !! r) = contents s key.
Proof.
  intros Hinv W. destruct (get_spec s key Hinv W) as (res & s' & E & Hi & Hc & Hr).
  exists res, s'. split_and!; try done. destruct res as [r|]; simpl; [|done].
  destruct Hr as [Hr _]. rewrite <- Hc. unfold contents. by rewrite Hr.
Qed.

(** ** Dropping keys *)

Definition drop_key (key : FteTaskId) (s : Storage) : Storage :=
  Store.remove_spill_file key (s <| st_descriptors ::= od_pop key |>).

Lemma pop_ok key s : store_ok s -> store_ok (s <| st_descriptors ::= od_pop key |>).
Proof.
  intros Hs. constructor; cbn; [apply od_wf_pop, Hs| |apply Hs].
  intros k r Hk. apply (so_mem _ Hs). destruct (decide (key = k)) as [<-|Hne].
  - by rewrite od_get_pop_eq in Hk by apply Hs.
  - by rewrite od_get_pop_ne in Hk.
Qed.

Lemma drop_key_spec key s :
  store_ok s ->
  store_ok (drop_key key s) /\
  (forall k, contents (drop_key key s) k = if decide (k = key) then None else contents s k) /\
  (drop_key key s).(st_query_index) = s.(st_query_index) /\ (drop_key key s).(st_heap) = s.(st_heap) /\
  (drop_key key s).(st_max_in_memory) = s.(st_max_in_memory) /\
  (drop_key key s).(st_spill_dir) = s.(st_spill_dir) /\
  (drop_key key s).(st_descriptors) = od_pop key s.(st_descriptors).
Proof.
  intros Hs. pose proof (pop_ok key s Hs) as Hs1. split; [by apply remove_spill_ok|]. split.
  - intros k. unfold drop_key. rewrite remove_spill_contents by done. cbn. case_decide; [subst|].
    + by rewrite od_get_pop_eq by apply Hs.
    + unfold contents. cbn. by rewrite od_get_pop_ne by done.
  - destruct (remove_spill_spec key _ Hs1) as (E1 & E2 & E3 & E4 & E5 & _). by split_and!.
Qed.

Lemma od_pop_length {K V} `{EqDecision K} (k : K) (d : list (K * V)) : (length (od_pop k d) <= length d)%nat.
Proof. induction d as [|[k1 v1] d IH]; simpl; [lia|]. case_decide; simpl; lia. Qed.

Lemma quota_drop key s : store_ok s -> quota_ok s -> quota_ok (drop_key key s).
Proof.
  intros Hs Hq. destruct (drop_key_spec key s Hs) as (_ & _ & _ & _ & Em & Ed & El).
  unfold quota_ok. rewrite Em, Ed, El. intros H1 H2. specialize (Hq H1 H2).
  pose proof (od_pop_length key s.(st_descriptors)). lia.
Qed.

Lemma index_discard_ok key s s' :
  index_ok s -> s'.(st_query_index) = Store.index_discard key s.(st_query_index) ->
  (forall k, contents s' k = if decide (k = key) then None else contents s k) -> index_ok s'.
Proof.
  intros [H1 H2] Ei Hc. unfold Store.index_discard in Ei. set (q0 := key.(query_id)) in *.
  assert (Hel : forall k q, k ∈ default ∅ (s'.(st_query_index) !! q) <-> k <> key /\ k ∈ default ∅ (s.(st_query_index) !! q)).
  { intros k q. rewrite Ei. destruct (s.(st_query_index) !! q0) as [ids|] eqn:E.
    - destruct (decide (q0 = q)) as [<-|Hq].
      + rewrite E. simpl. case_bool_decide as Hemp; [rewrite lookup_delete_eq|rewrite lookup_insert_eq]; simpl; set_solver.
      + assert (Hk : k = key -> k ∉ default ∅ (s.(st_query_index) !! q)) by (intros -> [? _]%H1; done).
        case_bool_decide; [rewrite lookup_delete_ne by done|rewrite lookup_insert_ne by done];
          (split; [|by intros [_ ?]]); intros Hin; (split; [|done]); intros Hkk; by apply (Hk Hkk).
    - split; [|by intros [_ ?]]. intros Hin. split; [|done]. intros ->.
      pose proof Hin as [<- _]%H1. fold q0 in Hin. rewrite E in Hin. simpl in Hin. set_solver. }
  split.
  - intros k q. rewrite Hel, H1, Hc. case_decide as Hk; [|naive_solver]. split; [by intros [? _]|by intros [_ [? ?]]].
  - intros q ids Hq. rewrite Ei in Hq. destruct (s.(st_query_index) !! q0) as [ids0|] eqn:E; [|by eapply H2].
    case_bool_decide as Hemp.
    + apply lookup_delete_Some in Hq as [_ Hq]. by eapply H2.
    + destruct (decide (q0 = q)) as [<-|Hne]; [rewrite lookup_insert_eq in Hq; by injection Hq as <-|].
      rewrite lookup_insert_ne in Hq by done. by eapply H2.
Qed.

(** [remove] returns the descriptor the storage held for its key, if any,
    deletes exactly that key, and keeps the invariant. *)
Theorem storage_remove_refines s key :
  storage_inv s -> wf_task_id key ->
  exists res s', Store.remove (RObj key) s = (Ok res, s') /\ storage_inv s' /\
    (forall k, contents s' k = if decide (k = key) then None else contents s k) /\
    (res ≫= fun r => s'.(st_heap) !! r) = contents s key.
Proof.
  intros [Hs Hi Hq] W.
  assert (Hgen : forall s1, store_ok s1 -> (forall k, k <> key -> contents s1 k = contents s k) ->
      s1.(st_query_index) = s.(st_query_index) -> quota_ok s1 -> od_get key s1.(st_descriptors) = None ->
      let s2 := Store.remove_spill_file key s1 <| st_query_index ::= Store.index_discard key |> in
      storage_inv s2 /\ (forall k, contents s2 k = if decide (k = key) then None else contents s k) /\
      s2.(st_heap) = s1.(st_heap)).
  { intros s1 Hs1 Hc1 Ei1 Hq1 Hn s2.
    destruct (remove_spill_spec key s1 Hs1) as (E1 & E2 & E3 & E4 & E5 & E6 & E7).
    assert (Hc2 : forall k, contents s2 k = if decide (k = key) then None else contents s k).
    { intros k. transitivity (contents (Store.remove_spill_file key s1) k); [done|].
      rewrite remove_spill_contents by done. case_decide; [subst; by rewrite Hn|auto]. }
    split_and!; [|done|exact E1]. constructor.
    - destruct (remove_spill_ok key s1 Hs1). by constructor.
    - apply (index_discard_ok key s); [done| |done]. cbn. by rewrite E3, Ei1.
    - unfold quota_ok. cbn. by rewrite E2, E4, E5. }
  pose proof (pop_ok key s Hs) as Hs1. set (s1 := s <| st_descriptors ::= od_pop key |>) in *.
  assert (Hc1 : forall k, k <> key -> contents s1 k = contents s k).
  { intros k Hk. unfold contents. cbn. by rewrite od_get_pop_ne by done. }
  assert (Hn : od_get key s1.(st_descriptors) = None) by (cbn; apply od_get_pop_eq, Hs).
  assert (Hq1 : quota_ok s1).
  { unfold quota_ok. cbn. intros H1 H2. specialize (Hq H1 H2). pose proof (od_pop_length key s.(st_descriptors)). lia. }
  unfold Store.remove, sbind, slift, sget, smodify, sret. cbn. fold s1.
  destruct (od_get key s.(st_descriptors)) as [r|] eqn:Ek.
  { destruct (Hgen s1 Hs1 Hc1 eq_refl Hq1 Hn) as (H1 & H2 & H3).
    do 2 eexists. split; [reflexivity|]. split_and!; [done..|].
    transitivity (s1.(st_heap) !! r); [by rewrite <- H3|]. unfold contents. by rewrite Ek. }
  unfold Store.load_spilled_descriptor, sbind, sget, smodify, sret. cbn.
  destruct (s.(st_spill_paths) !! key) as [path|] eqn:Ep.
  2: { destruct (Hgen s1 Hs1 Hc1 eq_refl Hq1 Hn) as (H1 & H2 & H3).
       do 2 eexists. split; [reflexivity|]. split_and!; [done..|]. simpl. unfold contents. by rewrite Ek, Ep. }
  destruct (so_spill _ Hs key path Ep) as (_ & dir & d & Edir & -> & Hf & Ht). rewrite Hf.
  destruct (heap_extend s1 d Hs1) as [Hs2 Hc2].
  destruct (Hgen (s1 <| st_heap ::= fun h => h ++ [d] |>) Hs2) as (H1 & H2 & H3); try done.
  { intros k Hk. rewrite Hc2. auto. }
  do 2 eexists. split; [reflexivity|]. split_and!; [done..|].
  transitivity ((s.(st_heap) ++ [d]) !! length s.(st_heap)); [exact (f_equal (fun h => h !! length s.(st_heap)) H3)|].
  rewrite list_lookup_middle by done. unfold contents. rewrite Ek, Ep. simpl. by rewrite Hf.
Qed.

Lemma destroy_loop keys s n :
  store_ok s -> NoDup keys ->
  exists s', sfold keys Store.destroy_key n s =
      (Ok (n + Z.of_nat (length (filter (fun k => is_Some (contents s k)) keys))), s') /\
    store_ok s' /\ (forall k, contents s' k = if decide (k ∈ keys) then None else contents s k) /\
    s'.(st_query_index) = s.(st_query_index) /\ (quota_ok s -> quota_ok s').
Proof.
  intros Hs Hnd. revert s n Hs. induction Hnd as [|key keys Hk Hnd IH]; intros s n Hs; cbn [sfold].
  - exists s. unfold sret. rewrite Z.add_0_r. by split_and!.
  - unfold sbind at 1. unfold Store.destroy_key at 1, sbind, sget, smodify, sret. fold (drop_key key s).
    destruct (drop_key_spec key s Hs) as (Hs1 & Hc1 & Ei1 & _).
    assert (Hpresent : od_mem key s.(st_descriptors) || bool_decide (is_Some (s.(st_spill_paths) !! key)) =
                       bool_decide (is_Some (contents s key))).
    { unfold od_mem, contents. destruct (od_get key s.(st_descriptors)) as [r|] eqn:Ek; simpl.
      - destruct (so_mem _ Hs key r Ek) as (_ & _ & d & -> & _). by rewrite bool_decide_eq_true_2.
      - destruct (s.(st_spill_paths) !! key) as [path|] eqn:Ep; simpl; [|done].
        destruct (so_spill _ Hs key path Ep) as (_ & dir & d & _ & _ & -> & _). done. }
    rewrite Hpresent.
    destruct (IH (drop_key key s) (if bool_decide (is_Some (contents s key)) then n + 1 else n) Hs1)
      as (s' & E & H1 & H2 & H3 & H4). exists s'. split; [|split; [done|split; [|split; [congruence|]]]].
    + rewrite E. do 2 f_equal.
      assert (Hf : length (filter (fun k => is_Some (contents (drop_key key s) k)) keys) =
                   length (filter (fun k => is_Some (contents s k)) keys)).
      { clear -Hk Hc1. induction keys as [|k keys IH]; [done|]. apply not_elem_of_cons in Hk as [Hne Hk].
        specialize (IH Hk). rewrite !filter_cons.
        assert (E : contents (drop_key key s) k = contents s k) by (rewrite Hc1; by rewrite decide_False).
        rewrite E. destruct (decide (is_Some (contents s k))); simpl; congruence. }
      rewrite filter_cons, Hf. case_bool_decide; [rewrite decide_True by done|rewrite decide_False by done]; simpl; lia.
    + intros k. rewrite H2, Hc1. destruct (decide (k = key)) as [->|Hne].
      * rewrite (decide_True (P := key ∈ key :: keys)) by left. by destruct (decide (key ∈ keys)).
      * destruct (decide (k ∈ keys)); [rewrite decide_True by by right|rewrite decide_False by set_solver]; done.
    + intros Hq. apply H4. by apply quota_drop.
Qed.

(** [destroy_query] drops exactly the descriptors of its query, in memory
    or spilled, leaves every other query alone, and returns how many it
    dropped. *)
Theorem storage_destroy_query_refines s query :
  storage_inv s ->
  exists n s', Store.destroy_query query s = (Ok n, s') /\ storage_inv s' /\
    (forall k, contents s' k = if decide (k.(query_id) = query) then None else contents s k) /\
    n = Z.of_nat (size (default ∅ (s.(st_query_index) !! query))) /\
    s'.(st_query_index) !! query = None.
Proof.
  intros [Hs [Hi1 Hi2] Hq]. unfold Store.destroy_query, sbind, sget, smodify.
  set (s1 := s <| st_query_index ::= delete query |>).
  set (keys := default ∅ (s.(st_query_index) !! query)).
  assert (Hs1 : store_ok s1) by (destruct Hs; by constructor).
  destruct (destroy_loop (elements keys) s1 0 Hs1 (NoDup_elements keys)) as (s' & E & H1 & H2 & H3 & H4).
  rewrite E. do 2 eexists. split; [reflexivity|].
  assert (Hc : forall k, contents s' k = if decide (k.(query_id) = query) then None else contents s k).
  { intros k. rewrite H2. change (contents s1 k) with (contents s k).
    destruct (decide (k ∈ elements keys)) as [Hk|Hk]; rewrite elem_of_elements in Hk; unfold keys in Hk; rewrite Hi1 in Hk.
    - rewrite decide_True by apply Hk. done.
    - case_decide as Hq'; [|done]. destruct (contents s k) eqn:Ek; [|done]. exfalso. apply Hk. split; [done|eauto]. }
  split_and!.
  - constructor; [done| |by apply H4]. split.
    + intros k q. rewrite Hc, H3. cbn. destruct (decide (query = q)) as [<-|Hne].
      * rewrite lookup_delete_eq. cbn. split; [set_solver|]. intros [-> Hx]. rewrite decide_True in Hx by done. by destruct Hx.
      * rewrite lookup_delete_ne, Hi1 by done. case_decide; naive_solver.
    + intros q ids. rewrite H3. cbn. intros [_ Hq']%lookup_delete_Some. by eapply Hi2.
  - exact Hc.
  - rewrite Z.add_0_l. f_equal. unfold size, set_size. cbn. f_equal.
    assert (Hall : Forall (fun k => is_Some (contents s1 k)) (elements keys)).
    { apply Forall_forall. intros k Hk. rewrite elem_of_elements in Hk. unfold keys in Hk. by apply Hi1 in Hk as [_ ?]. }
    clear -Hall. induction Hall as [|k l Hk _ IH]; [done|]. rewrite filter_cons, decide_True by done. by rewrite IH.
  - rewrite H3. cbn. by rewrite lookup_delete_eq.
Qed.

(** ** A storage with room for one descriptor *)

Definition demo_task (p : Z) : TaskDescriptor :=
  MkDescriptor (MkFteTaskId "q" 0 p) "f" [] [] ∅ [] PNone PNone (SIVal PNone) [] None [] 0 false ∅ ∅ ∅ ∅.

Definition demo_key (p : Z) : FteTaskId := MkFteTaskId "q" 0 p.

(** Partition 0 has been spilled by partition 1. *)
Definition demo_storage : Storage :=
  snd ((let! _ := Store.put (RObj (demo_key 0)) 0 in Store.put (RObj (demo_key 1)) 1)
    (Store.new [demo_task 0; demo_task 1; demo_task 2] 1 (Some "/spill"))).

Lemma demo_key_wf p : 0 <= p -> wf_task_id (demo_key p).
Proof. intros Hp. unfold wf_task_id. cbn. split_and!; [reflexivity|done|lia|done]. Qed.

Lemma demo_storage_inv : storage_inv demo_storage.
Proof.
  unfold demo_storage, sbind.
  destruct (storage_put_refines (Store.new [demo_task 0; demo_task 1; demo_task 2] 1 (Some "/spill"))
    (demo_key 0) 0 (demo_task 0) (new_storage_inv _ _ _) (demo_key_wf 0 ltac:(lia)) eq_refl eq_refl) as (s1 & E1 & H1 & _).
  assert (E : s1.(st_heap) = [demo_task 0; demo_task 1; demo_task 2]).
  { vm_compute in E1. by injection E1 as <-. }
  rewrite E1.
  destruct (storage_put_refines s1 (demo_key 1) 1 (demo_task 1) H1 (demo_key_wf 1 ltac:(lia))) as (s2 & E2 & H2 & _);
    [by rewrite E|done|]. by rewrite E2.
Qed.

Lemma storage_put_refines_witness :
  exists s', Store.put (RObj (demo_key 2)) 2 demo_storage = (Ok tt, s') /\ storage_inv s' /\
    forall k, contents s' k = if decide (k = demo_key 2) then Some (demo_task 2) else contents demo_storage k.
Proof. apply (storage_put_refines demo_storage (demo_key 2) 2 (demo_task 2) demo_storage_inv); [apply demo_key_wf; lia|reflexivity|reflexivity]. Defined.

Lemma storage_get_refines_witness :
  exists res s', Store.get (RObj (demo_key 0)) demo_storage = (Ok res, s') /\
    (res ≫= fun r => s'.(st_heap) !! r) = Some (demo_task 0) /\
    map fst s'.(st_descriptors) = [demo_key 0].
Proof.
  destruct (storage_get_refines demo_storage (demo_key 0) demo_storage_inv (demo_key_wf 0 ltac:(lia)))
    as (res & s' & E & _ & _ & Hr).
  exists res, s'. split; [exact E|]. split; [rewrite Hr; vm_compute; reflexivity|].
  vm_compute in E. injection E as <- <-. reflexivity.
Defined.

Lemma storage_remove_refines_witness :
  exists res s', Store.remove (RObj (demo_key 0)) demo_storage = (Ok res, s') /\ contents s' (demo_key 0) = None /\
    contents s' (demo_key 1) = Some (demo_task 1).
Proof.
  destruct (storage_remove_refines demo_storage (demo_key 0) demo_storage_inv (demo_key_wf 0 ltac:(lia)))
    as (res & s' & E & _ & Hc & _).
  exists res, s'. split; [exact E|]. rewrite !Hc. split; vm_compute; reflexivity.
Defined.

Lemma storage_destroy_query_refines_witness :
  exists n s', Store.destroy_query "q" demo_storage = (Ok n, s') /\ n = 2 /\ contents s' (demo_key 0) = None.
Proof.
  destruct (storage_destroy_query_refines demo_storage "q" demo_storage_inv) as (n & s' & E & _ & Hc & Hn & _).
  exists n, s'. split; [exact E|]. split; [rewrite Hn; vm_compute; reflexivity|]. rewrite Hc. vm_compute. reflexivity.
Defined.

(** A client that keeps the object of a spilled descriptor and appends a
    split to it, without putting it again, leaves the storage with the old
    copy: the storage reads back the file written before the split. *)
Theorem storage_spilled_copy_is_stale :
  exists split d' s', Descriptor.append_splits "a" [RObj split] (demo_task 0) = (Ok [split], d') /\
    s' = demo_storage <| st_heap ::= insert 0%nat d' |> /\
    Descriptor.splits_of d' "a" = [split] /\
    (fun d => Descriptor.splits_of d "a") <$> contents s' (demo_key 0) = Some [].
Proof.
  exists (MkFteSplit "a" 0 "scan" PNone 0 None [] true None).
  do 2 eexists. split; [vm_compute; reflexivity|]. split; [reflexivity|]. split; vm_compute; reflexivity.
Qed.
