(* ===== verification/Partition.v ===== *)
(** * Task partitions and their attempts

    Models [duckdb/runners/fte/fte_attempts.py], the worker commands of
    [fte_events.py] and [FteTaskPartition] of
    [duckdb/runners/fte/fte_execution.py].  A partition refers to its task
    descriptor, an object it shares with the descriptor storage: operations
    that read or write the descriptor receive it, the others run on the
    partition alone.  Clock readings are integers. *)

From S2P Require Import Prelude PyStr PyVal FteTypes FteState SplitAssigner Exchange OutputBuffers Descriptor.

#[local] Open Scope string_scope.
#[local] Open Scope list_scope.
#[local] Open Scope Z_scope.

(** ** Attempt records *)

(** A worker handle is an opaque object: only its identity is used. *)
Definition Worker : Type := N.

Record ReadyTask := MkReadyTask {
  rt_task_id : FteTaskId;
  rt_reason : string;
}.

Record RunningAttempt := MkRunning {
  ra_attempt_id : FteTaskAttemptId;
  ra_worker_id : option string;
  ra_remote_handle : option Worker;
  ra_sink_instance : sink_instance;
  ra_started_at : Z;
}.

Record ScheduledAttempt := MkScheduled {
  sa_attempt_id : FteTaskAttemptId;
  sa_descriptor : nat;
  sa_request : list (pyval * pyval);
  sa_sink_instance : sink_instance;
  sa_worker_id : option string;
}.
#[export] Instance ScheduledAttempt_eta : Eta ScheduledAttempt :=
  fun r => MkScheduled r.(sa_attempt_id) r.(sa_descriptor) r.(sa_request) r.(sa_sink_instance)
    r.(sa_worker_id).

Record ExecutionClassTransition := MkTransition {
  tn_task_id : FteTaskId;
  tn_new_execution_class : FteTaskExecutionClass;
  tn_running_attempts : list RunningAttempt;
}.

Record RevokedAttempt := MkRevoked {
  rv_attempt_id : FteTaskAttemptId;
  rv_worker_id : option string;
  rv_remote_handle : option Worker;
  rv_retry_ready : bool;
}.

Record FinishedAttempt := MkFinished {
  fa_attempt_id : FteTaskAttemptId;
  fa_sink_instance : sink_instance;
  fa_output_stats : pyval;
}.

(** ** Worker commands *)

Record CommandHead := MkHead {
  cmd_query_id : string;
  cmd_fragment_id : string;
  cmd_worker_id : option string;
  cmd_worker : option Worker;
  cmd_attempt_id : FteTaskAttemptId;
}.

Inductive FteWorkerCommand :=
| FteCreateTaskCommand (head : CommandHead) (partition_id : Z) (request : list (pyval * pyval))
| FteAddSplitsCommand (head : CommandHead) (source_node_id : string) (splits : list pyval)
| FteNoMoreSplitsCommand (head : CommandHead) (source_node_id : string)
| FteTaskUpdateCommand (head : CommandHead) (update : list (pyval * pyval)).

Definition command_head (c : FteWorkerCommand) : CommandHead :=
  match c with
  | FteCreateTaskCommand h _ _ | FteAddSplitsCommand h _ _
  | FteNoMoreSplitsCommand h _ | FteTaskUpdateCommand h _ => h
  end.

Definition command_type (c : FteWorkerCommand) : string :=
  match c with
  | FteCreateTaskCommand _ _ _ => "FteCreateTaskCommand"
  | FteAddSplitsCommand _ _ _ => "FteAddSplitsCommand"
  | FteNoMoreSplitsCommand _ _ => "FteNoMoreSplitsCommand"
  | FteTaskUpdateCommand _ _ => "FteTaskUpdateCommand"
  end.

Record FragmentExecutionMutationResult := MkMutation {
  mr_scheduled_attempts : list ScheduledAttempt;
  mr_worker_commands : list FteWorkerCommand;
}.

(** ** [FteTaskPartition] *)

Record FteTaskPartition := MkPartition {
  p_task_id : FteTaskId;
  p_descriptor : nat;
  p_max_attempts : Z;
  p_remaining_attempts : Z;
  p_sink_handle : option ExchangeSinkHandle;
  p_node_requirements : option NodeRequirements;
  p_memory_requirement_bytes : option Z;
  p_execution_class : FteTaskExecutionClass;
  p_sealed : bool;
  p_finished : bool;
  p_failed : bool;
  p_failure_observed : bool;
  p_running_attempts : list (Z * RunningAttempt);
  p_running_task_stats : list (Z * list (pyval * pyval));
  p_selected_attempt : option Z;
  p_finished_attempts : list (Z * FinishedAttempt);
  p_selected_output_stats : pyval;
  p_failures : list pyval;
  p_ready_for_scheduling : bool;
  p_execution_ready_deferred : bool;
  p_node_wait_started_at : option Z;
  p_no_matching_node_started_at : option Z;
}.
#[export] Instance FteTaskPartition_eta : Eta FteTaskPartition :=
  fun r => MkPartition r.(p_task_id) r.(p_descriptor) r.(p_max_attempts)
    r.(p_remaining_attempts) r.(p_sink_handle) r.(p_node_requirements)
    r.(p_memory_requirement_bytes) r.(p_execution_class) r.(p_sealed) r.(p_finished)
    r.(p_failed) r.(p_failure_observed) r.(p_running_attempts) r.(p_running_task_stats)
    r.(p_selected_attempt) r.(p_finished_attempts) r.(p_selected_output_stats) r.(p_failures)
    r.(p_ready_for_scheduling) r.(p_execution_ready_deferred) r.(p_node_wait_started_at)
    r.(p_no_matching_node_started_at).

Module Partition.

(** [__init__]; [ref] names the descriptor object [d]. *)
Definition new (task : id_ref FteTaskId) (ref : nat) (d : TaskDescriptor) (max_attempts : Z)
    (sink : option ExchangeSinkHandle) (node : option NodeRequirements) (memory : option Z)
    (class : id_ref FteTaskExecutionClass) : result FteTaskPartition :=
  let* _ := raise_if (max_attempts <=? 0) (ValueError "max_attempts must be positive") in
  let* task := TaskId.coerce task in
  let* _ := raise_if (negb (bool_decide (d.(d_task_id) = task)))
    (ValueError "descriptor task_id does not match partition") in
  let* class := ExecutionClass.coerce class in
  Ok {| p_task_id := task; p_descriptor := ref; p_max_attempts := max_attempts;
        p_remaining_attempts := max_attempts; p_sink_handle := sink; p_node_requirements := node;
        p_memory_requirement_bytes := Z.max 0 <$> memory; p_execution_class := class;
        p_sealed := d.(d_sealed); p_finished := false; p_failed := false;
        p_failure_observed := false; p_running_attempts := []; p_running_task_stats := [];
        p_selected_attempt := None; p_finished_attempts := []; p_selected_output_stats := PNone;
        p_failures := []; p_ready_for_scheduling := d.(d_sealed);
        p_execution_ready_deferred := false; p_node_wait_started_at := None;
        p_no_matching_node_started_at := None |}.

Definition has_running (p : FteTaskPartition) : bool := negb (is_empty p.(p_running_attempts)).

Definition state (p : FteTaskPartition) : FtePartitionState :=
  if p.(p_finished) then P_FINISHED
  else if p.(p_failed) then P_FAILED
  else if has_running p then P_RUNNING
  else if p.(p_sealed) then P_SEALED
  else P_OPEN.

Definition running_attempt (p : FteTaskPartition) : result (option RunningAttempt) :=
  match p.(p_running_attempts) with
  | [] => Ok None
  | [(_, r)] => Ok (Some r)
  | _ => Raise (RuntimeError "partition has multiple running attempts")
  end.

Definition next_attempt_number (p : FteTaskPartition) : result Z :=
  let* _ := raise_if (p.(p_remaining_attempts) <=? 0)
    (RuntimeError "partition has no attempts remaining") in
  Ok (p.(p_max_attempts) - p.(p_remaining_attempts)).

Definition start_attempt (d : TaskDescriptor) (now : Z) (sink : sink_instance)
    (worker_id : option string) (remote : option Worker) : ST FteTaskPartition ScheduledAttempt :=
  let! p := sget in
  let! _ := sraise_if (p.(p_finished) || p.(p_failed))
    (RuntimeError "cannot schedule terminal partition") in
  let! _ := sraise_if (has_running p) (RuntimeError "partition already has a running attempt") in
  let! n := slift (next_attempt_number p) in
  let! attempt := slift (TaskAttemptId.new (RObj p.(p_task_id)) n) in
  let! request := slift (Descriptor.to_create_task_request d n sink) in
  let request := match p.(p_memory_requirement_bytes) with
                 | Some m => pd_set "memory_requirement_bytes" (PInt m) request
                 | None => request
                 end in
  let request := pd_set "execution_class" (PStr (ExecutionClass.value p.(p_execution_class))) request in
  let! _ := smodify (fun p =>
    p <| p_execution_ready_deferred := false |>
      <| p_node_wait_started_at := None |>
      <| p_no_matching_node_started_at := None |>
      <| p_running_attempts ::= od_set n (MkRunning attempt worker_id remote sink now) |>
      <| p_running_task_stats ::= od_pop n |>) in
  sret (MkScheduled attempt p.(p_descriptor) request sink worker_id).

Definition mark_waiting_for_node (now : Z) (p : FteTaskPartition) : FteTaskPartition :=
  match p.(p_node_wait_started_at) with
  | None => p <| p_node_wait_started_at := Some now |>
  | Some _ => p
  end.

(** [now] and [later] are the two clock readings of the method. *)
Definition mark_no_matching_node (now later : Z) : ST FteTaskPartition Z :=
  let! p := sget in
  match p.(p_no_matching_node_started_at) with
  | None =>
      let! _ := smodify (fun p => p <| p_no_matching_node_started_at := Some now |>) in
      sret (later - now)
  | Some started => sret (later - started)
  end.

Definition reset_no_matching_node (p : FteTaskPartition) : FteTaskPartition :=
  p <| p_no_matching_node_started_at := None |>.

Definition mark_ready_for_execution (p : FteTaskPartition) : FteTaskPartition :=
  p <| p_ready_for_scheduling := true |> <| p_execution_ready_deferred := false |>.

Definition defer_ready_for_execution (p : FteTaskPartition) : FteTaskPartition :=
  if p.(p_finished) || p.(p_failed) || has_running p then p
  else p <| p_ready_for_scheduling := false |> <| p_execution_ready_deferred := true |>.

(** [seal], on the partition and its descriptor. *)
Definition seal : ST (FteTaskPartition * TaskDescriptor) (option FteTaskExecutionClass) :=
  let! (p, _) := sget in
  let! _ := sraise_if (p.(p_finished) || p.(p_failed)) (RuntimeError "cannot seal terminal partition") in
  let old_class := p.(p_execution_class) in
  let! _ := smodify (fun '(p, d) => (p <| p_sealed := true |>, d <| d_sealed := true |>)) in
  if ExecutionClass.is_speculative old_class then
    let! _ := smodify (fun '(p, d) => (mark_ready_for_execution (p <| p_execution_class := STANDARD |>), d)) in
    sret (Some old_class)
  else
    let! _ := smodify (fun '(p, d) => (mark_ready_for_execution p, d)) in
    sret None.

Definition set_execution_class (class : id_ref FteTaskExecutionClass) : ST FteTaskPartition bool :=
  let! new_class := slift (ExecutionClass.coerce class) in
  let! p := sget in
  if bool_decide (p.(p_execution_class) = new_class) then sret false
  else
    let! _ := sraise_if (negb (ExecutionClass.can_transition_to p.(p_execution_class) new_class))
      (ValueError "cannot change partition execution class") in
    let! _ := smodify (fun p => p <| p_execution_class := new_class |>) in
    sret true.

(** [_validate_attempt_task] *)
Definition validate_attempt_task (a : FteTaskAttemptId) : ST FteTaskPartition unit :=
  let! p := sget in
  sraise_if (negb (bool_decide (a.(task_id) = p.(p_task_id))))
    (ValueError "attempt task_id does not match partition").

(** The statistics kept for the selected attempt. *)
Definition merged_stats (task_stats : option (list (pyval * pyval))) (output_stats : pyval) : pyval :=
  match task_stats, output_stats with
  | Some t, PDict o => PDict (pd_update t o)
  | Some t, PNone => PDict t
  | None, PNone => PNone
  | _, o => o
  end.

Definition mark_attempt_finished (id : id_ref FteTaskAttemptId) (output_stats : pyval)
    : ST FteTaskPartition bool :=
  let! attempt := slift (TaskAttemptId.coerce id) in
  let n := attempt.(attempt_id) in
  let! _ := validate_attempt_task attempt in
  let! p := sget in
  match od_get n p.(p_running_attempts) with
  | None => sret false
  | Some running =>
      let stats := merged_stats (od_get n p.(p_running_task_stats)) output_stats in
      let! _ := smodify (fun p =>
        p <| p_finished := true |> <| p_failed := false |>
          <| p_selected_attempt := Some n |>
          <| p_selected_output_stats := stats |>
          <| p_finished_attempts ::= od_set n (MkFinished attempt running.(ra_sink_instance) stats) |>
          <| p_running_attempts := [] |> <| p_running_task_stats := [] |>) in
      sret true
  end.

Definition mark_attempt_failed (id : id_ref FteTaskAttemptId) (error : pyval) (retryable : bool)
    : ST FteTaskPartition (option ReadyTask) :=
  let! attempt := slift (TaskAttemptId.coerce id) in
  let n := attempt.(attempt_id) in
  let! _ := validate_attempt_task attempt in
  let! p := sget in
  if p.(p_finished) then sret None
  else match od_get n p.(p_running_attempts) with
  | None => sret None
  | Some _ =>
      let! _ := smodify (fun p =>
        p <| p_running_attempts ::= od_pop n |> <| p_running_task_stats ::= od_pop n |>
          <| p_failure_observed := true |> <| p_failures ::= fun l => l ++ [error] |>
          <| p_remaining_attempts ::= fun r => Z.max 0 (r - 1) |>) in
      let! p := sget in
      if retryable && (0 <? p.(p_remaining_attempts)) then sret (Some (MkReadyTask p.(p_task_id) "retry"))
      else
        let! _ := smodify (fun p => p <| p_failed := true |>) in
        sret None
  end.

Definition update_running_task_stats (id : id_ref FteTaskAttemptId) (task_stats : pyval)
    : ST FteTaskPartition bool :=
  match task_stats with
  | PDict stats =>
      let! attempt := slift (TaskAttemptId.coerce id) in
      let! _ := validate_attempt_task attempt in
      let! p := sget in
      if od_mem attempt.(attempt_id) p.(p_running_attempts) then
        let! _ := smodify (fun p => p <| p_running_task_stats ::= od_set attempt.(attempt_id) stats |>) in
        sret true
      else sret false
  | _ => sret false
  end.

Definition revoke_attempt (id : id_ref FteTaskAttemptId) (error : pyval)
    : ST FteTaskPartition (option RevokedAttempt) :=
  let! attempt := slift (TaskAttemptId.coerce id) in
  let n := attempt.(attempt_id) in
  let! _ := validate_attempt_task attempt in
  let! p := sget in
  if p.(p_finished) then sret None
  else match od_get n p.(p_running_attempts) with
  | None => sret None
  | Some running =>
      let! _ := smodify (fun p =>
        p <| p_running_attempts ::= od_pop n |>
          <| p_failure_observed := true |> <| p_failures ::= fun l => l ++ [error] |>
          <| p_remaining_attempts ::= fun r => Z.max 0 (r - 1) |>) in
      let! p := sget in
      let! retry_ready :=
        if p.(p_remaining_attempts) <=? 0 then
          let! _ := smodify (fun p => p <| p_failed := true |> <| p_ready_for_scheduling := false |>) in
          sret false
        else
          let! _ := smodify (fun p => p <| p_ready_for_scheduling := p.(p_sealed) |>) in
          sret p.(p_sealed) in
      sret (Some (MkRevoked attempt running.(ra_worker_id) running.(ra_remote_handle) retry_ready))
  end.

(** What [FteFragmentExecution.task_failed] does to a partition whose attempt
    ran out of memory and could have been retried. *)
Definition abandon (p : FteTaskPartition) : FteTaskPartition :=
  p <| p_failed := true |> <| p_ready_for_scheduling := false |>
    <| p_execution_ready_deferred := false |> <| p_running_attempts := [] |>.

End Partition.
