(* ===== verification/PartitionProofs.v ===== *)
(** * Correctness of task partitions

    The partition invariant, what one operation may do to a partition
    ([advance]), the step relation over every operation of
    [FteTaskPartition], and the attempt budget and terminal-state theorems by
    induction on runs of that relation. *)

From S2P Require Import Prelude PyStr PyVal FteTypes FteState SplitAssigner Exchange OutputBuffers Descriptor.
From S2P Require Import Partition.
From stdpp Require Import list_numbers.

#[local] Open Scope string_scope.
#[local] Open Scope list_scope.
#[local] Open Scope Z_scope.

Import Partition.

(** ** Invariant *)

Definition terminal (p : FteTaskPartition) : bool := p.(p_finished) || p.(p_failed).

(** The number of the attempt that runs now or would start next. *)
Definition current_attempt (p : FteTaskPartition) : Z := p.(p_max_attempts) - p.(p_remaining_attempts).

(** A partition runs at most one attempt, and that attempt carries the
    current number and the partition's task id. *)
Definition running_ok (p : FteTaskPartition) : Prop :=
  p.(p_running_attempts) = [] \/
  exists r, p.(p_running_attempts) = [(current_attempt p, r)] /\
    r.(ra_attempt_id) = MkFteTaskAttemptId p.(p_task_id) (current_attempt p) /\
    p.(p_finished) = false /\ p.(p_failed) = false.

Record part_inv (p : FteTaskPartition) : Prop := {
  pi_remaining : 0 <= p.(p_remaining_attempts) <= p.(p_max_attempts);
  pi_max : 0 < p.(p_max_attempts);
  pi_failures : Z.of_nat (length p.(p_failures)) = current_attempt p;
  pi_observed : p.(p_failure_observed) = negb (is_empty p.(p_failures));
  pi_running : running_ok p;
  pi_exclusive : p.(p_finished) = true -> p.(p_failed) = false /\ 0 < p.(p_remaining_attempts);
  pi_exhausted : p.(p_remaining_attempts) = 0 -> p.(p_failed) = true;
  pi_selected : p.(p_selected_attempt) = (if p.(p_finished) then Some (current_attempt p) else None);
  pi_finished : od_keys p.(p_finished_attempts) = (if p.(p_finished) then [current_attempt p] else []);
}.

(** Attempts started so far. *)
Definition attempts_made (p : FteTaskPartition) : Z :=
  current_attempt p + Z.of_nat (length p.(p_running_attempts)) + (if p.(p_finished) then 1 else 0).

Lemma attempts_made_bound p : part_inv p -> 0 <= attempts_made p <= p.(p_max_attempts).
Proof.
  intros []. unfold attempts_made, current_attempt in *.
  destruct pi_running0 as [->|(r & -> & _ & Hfin & Hfail)].
  - destruct (p_finished p); simpl; [destruct pi_exclusive0 as [_ ?]; [done|]|]; lia.
  - rewrite Hfin. simpl. assert (p_remaining_attempts p <> 0); [|lia].
    intros H0. rewrite pi_exhausted0 in Hfail by done. done.
Qed.

(** ** One operation *)

(** The outcome of a partition, fixed once it is terminal. *)
Definition outcome (p : FteTaskPartition) :=
  (p.(p_finished), p.(p_failed), p.(p_selected_attempt), p.(p_selected_output_stats),
   p.(p_finished_attempts), p.(p_failures), p.(p_remaining_attempts), p.(p_running_attempts)).

(** [advance p tr p']: from [p] to [p'], starting the attempts [tr]. *)
Record advance (p : FteTaskPartition) (tr : list Z) (p' : FteTaskPartition) : Prop := {
  adv_inv : part_inv p';
  adv_task : p'.(p_task_id) = p.(p_task_id);
  adv_descriptor : p'.(p_descriptor) = p.(p_descriptor);
  adv_max : p'.(p_max_attempts) = p.(p_max_attempts);
  adv_trace : tr = seqZ (attempts_made p) (attempts_made p' - attempts_made p);
  adv_made : attempts_made p <= attempts_made p';
  adv_failures : p.(p_failures) `prefix_of` p'.(p_failures);
  adv_sealed : p.(p_sealed) = true -> p'.(p_sealed) = true;
  adv_class : p'.(p_execution_class) = p.(p_execution_class) \/ p'.(p_execution_class) = STANDARD;
  adv_terminal : terminal p = true -> outcome p' = outcome p;
}.

Lemma advance_refl p : part_inv p -> advance p [] p.
Proof.
  intros. split; try done; try lia; [|by left]. by rewrite Z.sub_diag.
Qed.

Lemma outcome_terminal p p' : outcome p' = outcome p -> terminal p' = terminal p.
Proof. unfold outcome, terminal. by intros [= -> -> _ _ _ _ _ _]. Qed.

Lemma advance_trans p1 t1 p2 t2 p3 :
  advance p1 t1 p2 -> advance p2 t2 p3 -> advance p1 (t1 ++ t2) p3.
Proof.
  intros A B. destruct A, B. split; try congruence; try lia; auto.
  - subst. replace (attempts_made p3 - attempts_made p1) with
      ((attempts_made p2 - attempts_made p1) + (attempts_made p3 - attempts_made p2)) by lia.
    rewrite (seqZ_app (attempts_made p1)) by lia. do 2 f_equal. lia.
  - by etrans.
  - destruct adv_class0 as [<-|?], adv_class1 as [?|?]; auto; right; congruence.
  - intros Ht. rewrite adv_terminal1; [auto|]. rewrite <- Ht. by apply outcome_terminal, adv_terminal0.
Qed.

(** Fields an operation changes without touching the attempts. *)
Lemma advance_outcome p p' :
  part_inv p ->
  p'.(p_task_id) = p.(p_task_id) -> p'.(p_descriptor) = p.(p_descriptor) ->
  p'.(p_max_attempts) = p.(p_max_attempts) ->
  p'.(p_failure_observed) = p.(p_failure_observed) ->
  (p.(p_sealed) = true -> p'.(p_sealed) = true) ->
  (p'.(p_execution_class) = p.(p_execution_class) \/ p'.(p_execution_class) = STANDARD) ->
  outcome p' = outcome p -> advance p [] p'.
Proof.
  intros Hi Ht Hd Hm Hob Hs Hc Ho. injection Ho as E1 E2 E3 E4 E5 E6 E7 E8.
  assert (current_attempt p' = current_attempt p) as Ec by (unfold current_attempt; by rewrite Hm, E7).
  assert (attempts_made p' = attempts_made p) as Em by (unfold attempts_made; by rewrite Ec, E8, E1).
  split; try done; rewrite ?Em, ?Z.sub_diag, ?E6; try done; try lia.
  - destruct Hi. split; unfold running_ok in *; rewrite ?Ec, ?E1, ?E2, ?E3, ?E5, ?E6, ?E7, ?E8, ?Hm, ?Hob, ?Ht; done.
  - intros _. unfold outcome. by rewrite E1, E2, E3, E4, E5, E6, E7, E8.
Qed.

(** Solves the side conditions of [advance_outcome] for a record update. *)
Ltac keep_outcome := apply advance_outcome; [assumption|try reflexivity..]; try (by left); try (by right); auto.

(** ** Every operation advances *)

Lemma new_part_inv task ref d n sink node mem cls p :
  new task ref d n sink node mem cls = Ok p -> part_inv p /\ attempts_made p = 0 /\ p.(p_max_attempts) = n.
Proof.
  unfold new. intros H. inv_ok. apply Z.leb_gt in H0.
  unfold attempts_made, current_attempt. split; [|split; simpl; lia].
  split; unfold current_attempt, running_ok; simpl; try lia; try done. by left.
Qed.

(** What starting an attempt does to the fields. *)
Lemma start_attempt_run d now sink wid remote p :
  part_inv p -> terminal p = false -> p.(p_running_attempts) = [] ->
  exists request, let n := current_attempt p in
  let a := MkFteTaskAttemptId p.(p_task_id) n in
  start_attempt d now sink wid remote p =
    (Ok (MkScheduled a p.(p_descriptor) request sink wid),
     p <| p_execution_ready_deferred := false |> <| p_node_wait_started_at := None |>
       <| p_no_matching_node_started_at := None |>
       <| p_running_attempts := [(n, MkRunning a wid remote sink now)] |>
       <| p_running_task_stats ::= od_pop n |>).
Proof.
  intros Hi Ht Hr. pose proof (attempts_made_bound p Hi) as Hb. destruct Hi.
  unfold start_attempt, sbind, sget, sraise_if, slift, smodify, sret.
  unfold terminal in Ht. rewrite Ht. unfold has_running. rewrite Hr. simpl.
  unfold next_attempt_number. destruct (Z.leb_spec (p_remaining_attempts p) 0) as [Hz|Hz].
  { apply orb_false_iff in Ht as [_ Ht]. rewrite pi_exhausted0 in Ht by lia. done. }
  simpl. unfold TaskAttemptId.new, Descriptor.to_create_task_request, TaskAttemptId.new. simpl.
  fold (current_attempt p). unfold current_attempt. rewrite !check_non_negative_id by lia.
  simpl. eexists. f_equal. destruct p; cbn in Hr; subst; reflexivity.
Qed.

Lemma started_advance p n r q :
  part_inv p -> terminal p = false -> p.(p_running_attempts) = [] -> n = current_attempt p ->
  r.(ra_attempt_id) = MkFteTaskAttemptId p.(p_task_id) n ->
  q = p <| p_execution_ready_deferred := false |> <| p_node_wait_started_at := None |>
       <| p_no_matching_node_started_at := None |>
       <| p_running_attempts := [(n, r)] |>
       <| p_running_task_stats ::= od_pop n |> ->
  advance p [n] q.
Proof.
  intros Hi Ht Hr -> Hid ->. pose proof (attempts_made_bound p Hi). destruct Hi.
  apply orb_false_iff in Ht as [Hf1 Hf2].
  assert (attempts_made p = current_attempt p) as Em.
  { unfold attempts_made. rewrite Hr, Hf1. simpl. lia. }
  split; try done; rewrite ?Em; unfold attempts_made, current_attempt; simpl; rewrite ?Hf1.
  - split; try done. right. eexists. split_and!; try reflexivity; try done.
  - replace (_ - _ + 1 + 0 - _) with 1 by lia. done.
  - lia.
  - by left.
  - unfold terminal. by rewrite Hf1, Hf2.
Qed.

Lemma start_attempt_wp d now sink wid remote p :
  part_inv p ->
  wp (start_attempt d now sink wid remote)
    (fun sa q => advance p [sa.(sa_attempt_id).(attempt_id)] q /\
       terminal p = false /\ p.(p_running_attempts) = [] /\
       sa.(sa_attempt_id) = MkFteTaskAttemptId p.(p_task_id) (current_attempt p) /\
       exists r, q.(p_running_attempts) = [(current_attempt p, r)] /\
         r.(ra_attempt_id) = sa.(sa_attempt_id) /\ r.(ra_worker_id) = wid /\ r.(ra_remote_handle) = remote)
    (fun _ q => q = p) p.
Proof.
  intros Hi. destruct (terminal p) eqn:Ht.
  { unfold start_attempt. apply wp_bind, wp_get, wp_bind, wp_raise_if; [|done].
    unfold terminal in Ht. by rewrite Ht. }
  destruct (p_running_attempts p) as [|x l] eqn:Hr.
  - destruct (start_attempt_run d now sink wid remote p Hi Ht Hr) as [req E].
    unfold wp. rewrite E. split_and!; try done; [|by eexists].
    by eapply (started_advance p _ (MkRunning _ wid remote sink now)).
  - unfold start_attempt. apply wp_bind, wp_get, wp_bind, wp_raise_if; [intros _|done].
    apply wp_bind, wp_raise_if; [|done]. unfold has_running. by rewrite Hr.
Qed.

Lemma od_get_running p n r :
  part_inv p -> od_get n p.(p_running_attempts) = Some r ->
  n = current_attempt p /\ p.(p_running_attempts) = [(n, r)] /\
  r.(ra_attempt_id) = MkFteTaskAttemptId p.(p_task_id) n /\
  p.(p_finished) = false /\ p.(p_failed) = false /\ 0 < p.(p_remaining_attempts).
Proof.
  intros [] Hg. destruct pi_running0 as [E|(r' & E & Hid & Hf1 & Hf2)]; rewrite E in Hg; [done|].
  simpl in Hg. case_decide; [|done]. injection Hg as ->. subst n. split_and!; try done.
  assert (p_remaining_attempts p <> 0); [|lia]. intros H0. by rewrite pi_exhausted0 in Hf2.
Qed.

(** The running attempt finishes. *)
Definition finish_with (n : Z) (fa : FinishedAttempt) (stats : pyval) (p : FteTaskPartition) : FteTaskPartition :=
  p <| p_finished := true |> <| p_failed := false |>
    <| p_selected_attempt := Some n |> <| p_selected_output_stats := stats |>
    <| p_finished_attempts ::= od_set n fa |>
    <| p_running_attempts := [] |> <| p_running_task_stats := [] |>.

Lemma finish_advance p n r fa stats :
  part_inv p -> od_get n p.(p_running_attempts) = Some r -> advance p [] (finish_with n fa stats p).
Proof.
  intros Hi Hg. destruct (od_get_running p n r Hi Hg) as (-> & Hr & _ & Hf1 & Hf2 & Hpos).
  destruct Hi. rewrite Hf1 in *.
  assert (p_finished_attempts p = []) as Hfa by (by destruct (p_finished_attempts p)).
  assert (attempts_made (finish_with (current_attempt p) fa stats p) = attempts_made p) as Em.
  { unfold attempts_made, current_attempt. simpl. rewrite Hr, Hf1. simpl. lia. }
  split; try done; rewrite ?Em, ?Z.sub_diag; try done; [|by left|].
  - split; try done; unfold current_attempt; simpl; try lia; [by left|by rewrite Hfa].
  - unfold terminal. by rewrite Hf1, Hf2.
Qed.

(** The running attempt is lost: its failure is recorded and one attempt of
    the budget is spent; [fail] tells whether the partition fails with it. *)
Record lost (n : Z) (err : pyval) (fail : bool) (p q : FteTaskPartition) : Prop := {
  lost_task : q.(p_task_id) = p.(p_task_id);
  lost_descriptor : q.(p_descriptor) = p.(p_descriptor);
  lost_max : q.(p_max_attempts) = p.(p_max_attempts);
  lost_sealed : q.(p_sealed) = p.(p_sealed);
  lost_class : q.(p_execution_class) = p.(p_execution_class);
  lost_running : q.(p_running_attempts) = [];
  lost_observed : q.(p_failure_observed) = true;
  lost_failures : q.(p_failures) = p.(p_failures) ++ [err];
  lost_remaining : q.(p_remaining_attempts) = p.(p_remaining_attempts) - 1;
  lost_finished : q.(p_finished) = p.(p_finished);
  lost_failed : q.(p_failed) = fail;
  lost_selected : q.(p_selected_attempt) = p.(p_selected_attempt);
  lost_attempts : q.(p_finished_attempts) = p.(p_finished_attempts);
}.

Lemma lost_advance p q n r err fail :
  part_inv p -> od_get n p.(p_running_attempts) = Some r -> lost n err fail p q ->
  (p.(p_remaining_attempts) = 1 -> fail = true) -> advance p [] q.
Proof.
  intros Hi Hg L Hlast. destruct (od_get_running p n r Hi Hg) as (_ & Hr & _ & Hf1 & Hf2 & Hpos).
  destruct Hi, L.
  assert (current_attempt q = current_attempt p + 1) as Ec.
  { unfold current_attempt. rewrite lost_remaining0, lost_max0. lia. }
  assert (attempts_made q = attempts_made p) as Em.
  { unfold attempts_made. rewrite Ec, lost_running0, lost_finished0, Hr, Hf1. simpl. lia. }
  split; try done; rewrite ?Em, ?Z.sub_diag; try done.
  - split; rewrite ?lost_remaining0, ?lost_max0, ?lost_finished0, ?lost_failed0, ?Hf1; try done; try lia.
    + rewrite lost_failures0, length_app. simpl. lia.
    + rewrite lost_observed0, lost_failures0. by destruct (p_failures p).
    + left. done.
    + intros. apply Hlast. lia.
    + by rewrite lost_selected0, pi_selected0, Hf1.
    + by rewrite lost_attempts0, pi_finished0, Hf1.
  - rewrite lost_failures0. by eexists.
  - congruence.
  - by left.
  - unfold terminal. by rewrite Hf1, Hf2.
Qed.

(** The invariant survives lowering the scheduling flags and raising the
    failure flag of a partition that is not finished. *)
Lemma fail_advance p q :
  part_inv p -> p.(p_finished) = false -> p.(p_running_attempts) = [] -> p.(p_failed) = false ->
  q.(p_failed) = true -> q.(p_failure_observed) = p.(p_failure_observed) ->
  q.(p_task_id) = p.(p_task_id) -> q.(p_descriptor) = p.(p_descriptor) ->
  q.(p_max_attempts) = p.(p_max_attempts) -> q.(p_sealed) = p.(p_sealed) ->
  q.(p_execution_class) = p.(p_execution_class) -> q.(p_running_attempts) = [] ->
  q.(p_failures) = p.(p_failures) -> q.(p_remaining_attempts) = p.(p_remaining_attempts) ->
  q.(p_finished) = false -> q.(p_selected_attempt) = p.(p_selected_attempt) ->
  q.(p_finished_attempts) = p.(p_finished_attempts) -> advance p [] q.
Proof.
  intros Hi Hf Hr Hnf E1 E2 E3 E4 E5 E6 E7 E8 E9 E10 E11 E12 E13. destruct Hi.
  assert (current_attempt q = current_attempt p) as Ec by (unfold current_attempt; by rewrite E5, E10).
  assert (attempts_made q = attempts_made p) as Em by (unfold attempts_made; by rewrite Ec, E8, E11, Hr, Hf).
  split; try done; rewrite ?Em, ?Z.sub_diag; try done.
  - split; rewrite ?Ec, ?E1, ?E2, ?E5, ?E9, ?E10, ?E11, ?E12, ?E13; rewrite ?Hf in *; try done. by left.
  - by rewrite E9.
  - congruence.
  - by left.
  - unfold terminal. by rewrite Hf, Hnf.
Qed.

(** The attempt an operation was called with, when it is the running one. *)
Definition names_running (id : id_ref FteTaskAttemptId) (p : FteTaskPartition) (a : FteTaskAttemptId)
    (r : RunningAttempt) : Prop :=
  TaskAttemptId.coerce id = Ok a /\ a.(task_id) = p.(p_task_id) /\
  od_get a.(attempt_id) p.(p_running_attempts) = Some r.

Lemma validate_wp a p (Q : unit -> FteTaskPartition -> Prop) E :
  (a.(task_id) = p.(p_task_id) -> Q tt p) -> (forall e, E e p) -> wp (validate_attempt_task a) Q E p.
Proof.
  intros HQ HE. unfold validate_attempt_task. apply wp_bind, wp_get, wp_raise_if; [|auto].
  intros H. apply HQ. apply negb_false_iff, bool_decide_eq_true in H. done.
Qed.

Lemma mark_finished_wp id stats p :
  part_inv p ->
  wp (mark_attempt_finished id stats)
    (fun b q => advance p [] q /\
       if b : bool then exists a r, names_running id p a r /\
         q = finish_with a.(attempt_id)
               (MkFinished a r.(ra_sink_instance)
                  (merged_stats (od_get a.(attempt_id) p.(p_running_task_stats)) stats))
               (merged_stats (od_get a.(attempt_id) p.(p_running_task_stats)) stats) p
       else q = p)
    (fun _ q => q = p) p.
Proof.
  intros Hi. unfold mark_attempt_finished. apply wp_bind, wp_lift; [intros a Ha|done].
  apply wp_bind, validate_wp; [intros Ht|done]. apply wp_bind, wp_get.
  destruct (od_get _ _) as [r|] eqn:Hg.
  - wp_run. split; [by eapply finish_advance|]. by exists a, r.
  - wp_run. split; [by apply advance_refl|done].
Qed.

(** The two shapes of an attempt's loss: the remaining goal is that the last
    attempt fails the partition. *)
Ltac solve_lost a r err Hr :=
  match goal with
  | |- advance ?p [] ?q /\ (_ \/ exists a r, _ /\ lost _ err ?f _ _ /\ _) =>
      assert (lost (attempt_id a) err f p q) as L
        by (split; simpl; try done; [by rewrite Hr; simpl; rewrite decide_True|lia]);
      split; [eapply lost_advance; [done|done|exact L|]|right; exists a, r; by split_and!]
  end.

Lemma mark_failed_wp id err retryable p :
  part_inv p ->
  wp (mark_attempt_failed id err retryable)
    (fun ready q => advance p [] q /\
       (q = p /\ ready = None /\ (forall a r, ~ names_running id p a r) \/
        exists a r, names_running id p a r /\
          let retry := retryable && (1 <? p.(p_remaining_attempts)) in
          lost a.(attempt_id) err (negb retry) p q /\
          ready = (if retry then Some (MkReadyTask p.(p_task_id) "retry") else None)))
    (fun _ q => q = p) p.
Proof.
  intros Hi. unfold mark_attempt_failed. apply wp_bind, wp_lift; [intros a Ha|done].
  apply wp_bind, validate_wp; [intros Ht|done]. apply wp_bind, wp_get.
  destruct (p_finished p) eqn:Hfin.
  { wp_run. split; [by apply advance_refl|left]. split_and!; try done. intros b r (_ & _ & Hg).
    apply (od_get_running p _ r Hi) in Hg as (_ & _ & _ & ? & _). congruence. }
  destruct (od_get _ _) as [r|] eqn:Hg.
  2: { wp_run. split; [by apply advance_refl|left]. split_and!; try done. intros b r (Hb & _ & Hgb). congruence. }
  destruct (od_get_running p _ r Hi Hg) as (En & Hr & _ & _ & Hf2 & Hpos).
  assert (retryable && (0 <? Z.max 0 (p_remaining_attempts p - 1)) =
          retryable && (1 <? p_remaining_attempts p)) as Eb.
  { f_equal. destruct (Z.ltb_spec 1 (p_remaining_attempts p)); lia. }
  apply wp_bind, wp_modify, wp_bind, wp_get. cbn [p_remaining_attempts p_task_id set_field]. rewrite Eb.
  destruct (retryable && (1 <? p_remaining_attempts p)) eqn:Er; wp_run.
  - solve_lost a r err Hr. intros E1. rewrite E1 in Er. simpl in Er. by rewrite andb_false_r in Er.
  - solve_lost a r err Hr. done.
Qed.

Lemma revoke_wp id err p :
  part_inv p ->
  wp (revoke_attempt id err)
    (fun rv q => advance p [] q /\
       (q = p /\ rv = None \/
        exists a r, names_running id p a r /\
          let fail := p.(p_remaining_attempts) <=? 1 in
          lost a.(attempt_id) err fail p q /\
          q.(p_ready_for_scheduling) = negb fail && p.(p_sealed) /\
          rv = Some (MkRevoked a r.(ra_worker_id) r.(ra_remote_handle) (negb fail && p.(p_sealed)))))
    (fun _ q => q = p) p.
Proof.
  intros Hi. unfold revoke_attempt. apply wp_bind, wp_lift; [intros a Ha|done].
  apply wp_bind, validate_wp; [intros Ht|done]. apply wp_bind, wp_get.
  destruct (p_finished p) eqn:Hfin; [wp_run; split; [by apply advance_refl|by left]|].
  destruct (od_get _ _) as [r|] eqn:Hg; [|wp_run; split; [by apply advance_refl|by left]].
  destruct (od_get_running p _ r Hi Hg) as (En & Hr & _ & _ & Hf2 & Hpos).
  apply wp_bind, wp_modify, wp_bind, wp_get. cbn [p_remaining_attempts p_sealed set_field].
  replace (Z.max 0 (p_remaining_attempts p - 1) <=? 0) with (p_remaining_attempts p <=? 1)
    by (destruct (Z.leb_spec (p_remaining_attempts p) 1); lia).
  destruct (p_remaining_attempts p <=? 1) eqn:Er; wp_run.
  - solve_lost a r err Hr. done.
  - solve_lost a r err Hr. intros E1. by rewrite E1 in Er.
Qed.

Lemma update_stats_wp id stats p :
  part_inv p ->
  wp (update_running_task_stats id stats) (fun _ q => advance p [] q) (fun _ q => q = p) p.
Proof.
  intros Hi. unfold update_running_task_stats.
  destruct stats; try (wp_run; by apply advance_refl).
  apply wp_bind, wp_lift; [intros a Ha|done]. apply wp_bind, validate_wp; [intros Ht|done].
  apply wp_bind, wp_get. destruct (od_mem _ _); wp_run; [keep_outcome|by apply advance_refl].
Qed.

Lemma set_class_wp c p :
  part_inv p ->
  wp (set_execution_class c)
    (fun b q => advance p [] q /\ ExecutionClass.coerce c = Ok q.(p_execution_class) /\
       b = negb (bool_decide (p.(p_execution_class) = q.(p_execution_class))))
    (fun _ q => q = p) p.
Proof.
  intros Hi. unfold set_execution_class. apply wp_bind, wp_lift; [intros c' Hc|done].
  apply wp_bind, wp_get. destruct (bool_decide _) eqn:Eb.
  - apply bool_decide_eq_true in Eb. apply wp_ret. subst c'. split_and!; [by apply advance_refl|done|].
    by rewrite bool_decide_eq_true_2.
  - apply wp_bind, wp_raise_if; [intros Ht|done]. wp_run.
    apply negb_false_iff, ExecutionClass.can_transition_iff in Ht.
    split_and!; [keep_outcome|done|simpl; by rewrite Eb].
Qed.

Lemma seal_wp p d :
  part_inv p ->
  wp seal
    (fun old q => terminal p = false /\ advance p [] q.1 /\ q.1.(p_sealed) = true /\
       q.2 = d <| d_sealed := true |> /\ q.1.(p_ready_for_scheduling) = true /\
       q.1.(p_running_attempts) = p.(p_running_attempts) /\
       q.1.(p_execution_class) = STANDARD /\
       old = if ExecutionClass.is_speculative p.(p_execution_class) then Some p.(p_execution_class) else None)
    (fun _ q => q = (p, d) /\ terminal p = true) (p, d).
Proof.
  intros Hi. unfold seal. apply wp_bind, wp_get, wp_bind, wp_raise_if; [intros Ht|done].
  apply wp_bind, wp_modify. destruct (ExecutionClass.is_speculative _) eqn:Ec; wp_run; cbn [fst snd].
  - split_and!; try done; keep_outcome.
  - assert (p_execution_class p = STANDARD) by (by destruct (p_execution_class p)).
    split_and!; try done; keep_outcome.
Qed.

Lemma waiting_advance now p : part_inv p -> advance p [] (mark_waiting_for_node now p).
Proof. intros. unfold mark_waiting_for_node. destruct (p_node_wait_started_at p); [by apply advance_refl|keep_outcome]. Qed.

Lemma no_matching_wp now later p :
  part_inv p -> wp (mark_no_matching_node now later) (fun _ q => advance p [] q) (fun _ q => q = p) p.
Proof.
  intros. unfold mark_no_matching_node. apply wp_bind, wp_get.
  destruct (p_no_matching_node_started_at p); wp_run; [by apply advance_refl|keep_outcome].
Qed.

Lemma reset_no_matching_advance p : part_inv p -> advance p [] (reset_no_matching_node p).
Proof. intros. keep_outcome. Qed.

Lemma mark_ready_advance p : part_inv p -> advance p [] (mark_ready_for_execution p).
Proof. intros. keep_outcome. Qed.

Lemma defer_advance p : part_inv p -> advance p [] (defer_ready_for_execution p).
Proof.
  intros. unfold defer_ready_for_execution. destruct (_ || _ || _); [by apply advance_refl|keep_outcome].
Qed.

Lemma abandon_advance p :
  part_inv p -> terminal p = false -> p.(p_running_attempts) = [] -> advance p [] (abandon p).
Proof.
  intros Hi Ht Hr. apply orb_false_iff in Ht as [? ?]. by apply fail_advance.
Qed.

(** ** Runs of a partition *)

(** The attempt an operation started. *)
Definition started (res : result ScheduledAttempt) : list Z :=
  match res with Ok sa => [sa.(sa_attempt_id).(attempt_id)] | Raise _ => [] end.

(** One call on a partition, whatever it returns or raises.  The other
    holders of the descriptor may change it between calls. *)
Inductive part_step : FteTaskPartition * TaskDescriptor -> list Z -> FteTaskPartition * TaskDescriptor -> Prop :=
| step_start p d now sink wid remote :
    part_step (p, d) (started (start_attempt d now sink wid remote p).1)
      ((start_attempt d now sink wid remote p).2, d)
| step_waiting p d now : part_step (p, d) [] (mark_waiting_for_node now p, d)
| step_no_matching p d now later : part_step (p, d) [] ((mark_no_matching_node now later p).2, d)
| step_reset_no_matching p d : part_step (p, d) [] (reset_no_matching_node p, d)
| step_ready p d : part_step (p, d) [] (mark_ready_for_execution p, d)
| step_defer p d : part_step (p, d) [] (defer_ready_for_execution p, d)
| step_seal p d : part_step (p, d) [] (seal (p, d)).2
| step_class p d c : part_step (p, d) [] ((set_execution_class c p).2, d)
| step_finished p d id stats : part_step (p, d) [] ((mark_attempt_finished id stats p).2, d)
| step_failed p d id err retryable : part_step (p, d) [] ((mark_attempt_failed id err retryable p).2, d)
| step_stats p d id v : part_step (p, d) [] ((update_running_task_stats id v p).2, d)
| step_revoke p d id err : part_step (p, d) [] ((revoke_attempt id err p).2, d)
| step_abandon p d : terminal p = false -> p.(p_running_attempts) = [] -> part_step (p, d) [] (abandon p, d)
| step_descriptor p d d' : part_step (p, d) [] (p, d').

Inductive part_run : FteTaskPartition * TaskDescriptor -> list Z -> FteTaskPartition * TaskDescriptor -> Prop :=
| run_nil x : part_run x [] x
| run_step x t1 y t2 z : part_run x t1 y -> part_step y t2 z -> part_run x (t1 ++ t2) z.

(** A weakest precondition whose failure case leaves the partition alone. *)
Lemma wp_advance {A} (m : ST FteTaskPartition A) (Q : A -> FteTaskPartition -> Prop) p :
  part_inv p -> wp m Q (fun _ q => q = p) p -> (forall a q, Q a q -> advance p [] q) -> advance p [] (m p).2.
Proof.
  unfold wp. intros Hi. destruct (m p) as [[a|e] q]; simpl; [eauto|].
  intros -> _. by apply advance_refl.
Qed.

Lemma part_step_advance x tr y : part_step x tr y -> part_inv x.1 -> advance x.1 tr y.1.
Proof.
  intros Hs Hi. destruct Hs; simpl in *;
    eauto using waiting_advance, reset_no_matching_advance, mark_ready_advance, defer_advance,
      abandon_advance, advance_refl.
  - pose proof (start_attempt_wp d now sink wid remote p Hi) as Hw. unfold wp in Hw.
    destruct (start_attempt _ _ _ _ _ p) as [[sa|e] q]; simpl; [by destruct Hw|subst; by apply advance_refl].
  - eapply wp_advance; eauto using no_matching_wp.
  - pose proof (seal_wp p d Hi) as Hw. unfold wp in Hw.
    destruct (seal (p, d)) as [[o|e] [q d']]; simpl; [by destruct Hw as (_ & ? & _)|].
    destruct Hw as [[= -> ->] _]. by apply advance_refl.
  - eapply wp_advance; [done|by apply set_class_wp|]. by intros ? ? (? & _).
  - eapply wp_advance; [done|by apply mark_finished_wp|]. by intros ? ? (? & _).
  - eapply wp_advance; [done|by apply mark_failed_wp|]. by intros ? ? (? & _).
  - eapply wp_advance; eauto using update_stats_wp.
  - eapply wp_advance; [done|by apply revoke_wp|]. by intros ? ? (? & _).
Qed.

Lemma part_run_advance x tr y : part_run x tr y -> part_inv x.1 -> advance x.1 tr y.1.
Proof.
  induction 1 as [x|x t1 y t2 z Hr IH Hs]; intros Hi; [by apply advance_refl|].
  eapply advance_trans; [by apply IH|]. eapply part_step_advance; [done|]. apply IH, Hi.
Qed.

Lemma part_run_inv p d tr p' d' : part_run (p, d) tr (p', d') -> part_inv p -> part_inv p'.
Proof. intros Hr Hi. exact (adv_inv _ _ _ (part_run_advance _ _ _ Hr Hi)). Qed.

(** Over any run of calls on a fresh partition, in any order and with any
    outcome, the attempts that get started are numbered 0, 1, 2, ... without
    gap or repetition, there are at most [max_attempts] of them, and the
    partition invariant holds throughout (in particular at most one attempt
    runs at a time). *)
Theorem partition_attempt_budget task ref d n sink node mem cls p0 d0 tr p d1 :
  new task ref d n sink node mem cls = Ok p0 ->
  part_run (p0, d0) tr (p, d1) ->
  part_inv p /\ tr = seqZ 0 (Z.of_nat (length tr)) /\ Z.of_nat (length tr) <= n.
Proof.
  intros Hnew Hrun. apply new_part_inv in Hnew as (Hi & Hm & <-).
  pose proof (part_run_advance _ _ _ Hrun Hi) as A. simpl in A. destruct A.
  pose proof (attempts_made_bound p adv_inv0). rewrite Hm, Z.sub_0_r in adv_trace0.
  split; [done|]. rewrite adv_trace0, length_seqZ, Z2Nat.id by lia. split; [done|lia].
Qed.

(** Once a partition has finished or failed, no call changes its
    outcome: not the flags, the selected attempt, its statistics, the
    recorded failures or the attempt budget; and no further attempt is ever
    started. *)
Theorem partition_terminal_absorbing p d tr p' d' :
  part_inv p -> terminal p = true -> part_run (p, d) tr (p', d') ->
  outcome p' = outcome p /\ tr = [].
Proof.
  intros Hi Ht Hrun. pose proof (part_run_advance _ _ _ Hrun Hi) as A. simpl in A. destruct A.
  split; [by apply adv_terminal0|]. rewrite adv_trace0.
  assert (attempts_made p' = attempts_made p) as ->; [|by rewrite Z.sub_diag].
  specialize (adv_terminal0 Ht). injection adv_terminal0 as E1 _ _ _ _ _ E2 E3.
  unfold attempts_made, current_attempt. by rewrite E1, E2, E3, adv_max0.
Qed.

(** A live partition with no running attempt can always start one: the
    call does not raise, and the new attempt carries the next number and is
    the only running attempt. *)
Theorem partition_can_start d now sink wid remote p :
  part_inv p -> terminal p = false -> p.(p_running_attempts) = [] ->
  exists sa p' r, start_attempt d now sink wid remote p = (Ok sa, p') /\
    sa.(sa_attempt_id) = MkFteTaskAttemptId p.(p_task_id) (current_attempt p) /\
    Partition.running_attempt p' = Ok (Some r) /\ r.(ra_attempt_id) = sa.(sa_attempt_id) /\
    Partition.state p' = P_RUNNING.
Proof.
  intros Hi Ht Hr. destruct (start_attempt_run d now sink wid remote p Hi Ht Hr) as [req E].
  rewrite E. do 3 eexists. split_and!; [reflexivity..|]. unfold state. simpl.
  apply orb_false_iff in Ht as [-> ->]. done.
Qed.

(** ** Witnesses *)

Definition demo_id : FteTaskId := MkFteTaskId "q" 0 3.
Definition demo_desc : TaskDescriptor :=
  MkDescriptor demo_id "f" [] [] ∅ [] PNone PNone (SIVal PNone) [] None [] 0 false ∅ ∅ ∅ ∅.
Definition demo_attempt (n : Z) : id_ref FteTaskAttemptId := RObj (MkFteTaskAttemptId demo_id n).
Definition demo_partition : FteTaskPartition :=
  match new (RObj demo_id) 0 demo_desc 2 None None (Some 1024) (RObj STANDARD) with
  | Ok p => p
  | Raise _ => MkPartition demo_id 0 0 0 None None None STANDARD false false false false [] [] None [] PNone []
                 false false None None
  end.

(** Two attempts are started and both fail. *)
Definition demo_p1 := (start_attempt demo_desc 0 (SIVal PNone) (Some "w0") (Some 1%N) demo_partition).2.
Definition demo_p2 := (mark_attempt_failed (demo_attempt 0) PNone true demo_p1).2.
Definition demo_p3 := (start_attempt demo_desc 5 (SIVal PNone) (Some "w1") (Some 2%N) demo_p2).2.
Definition demo_p4 := (mark_attempt_failed (demo_attempt 1) (PStr "lost") true demo_p3).2.

Lemma demo_run : part_run (demo_partition, demo_desc) [0; 1] (demo_p4, demo_desc).
Proof.
  apply (run_step _ [0; 1] (demo_p3, demo_desc) []); [|exact (step_failed demo_p3 demo_desc (demo_attempt 1) (PStr "lost") true)].
  apply (run_step _ [0] (demo_p2, demo_desc) [1]);
    [|exact (step_start demo_p2 demo_desc 5 (SIVal PNone) (Some "w1") (Some 2%N))].
  apply (run_step _ [0] (demo_p1, demo_desc) []); [|exact (step_failed demo_p1 demo_desc (demo_attempt 0) PNone true)].
  apply (run_step _ [] (demo_partition, demo_desc) [0]);
    [|exact (step_start demo_partition demo_desc 0 (SIVal PNone) (Some "w0") (Some 1%N))].
  apply run_nil.
Qed.

Lemma demo_new : new (RObj demo_id) 0 demo_desc 2 None None (Some 1024) (RObj STANDARD) = Ok demo_partition.
Proof. vm_compute. reflexivity. Qed.

Lemma demo_p4_inv : part_inv demo_p4.
Proof.
  destruct (new_part_inv _ _ _ _ _ _ _ _ _ demo_new) as [Hi _]. exact (part_run_inv _ _ _ _ _ demo_run Hi).
Qed.

Lemma partition_attempt_budget_witness :
  part_inv demo_p4 /\ [0; 1] = seqZ 0 2 /\ 2 <= 2.
Proof.
  exact (partition_attempt_budget _ _ _ _ _ _ _ _ _ demo_desc [0; 1] demo_p4 demo_desc demo_new demo_run).
Defined.

Lemma partition_terminal_absorbing_witness :
  terminal demo_p4 = true /\
  outcome (mark_ready_for_execution demo_p4) = outcome demo_p4.
Proof.
  refine ((fun E => conj E (proj1 (partition_terminal_absorbing demo_p4 demo_desc _ (mark_ready_for_execution demo_p4)
    demo_desc demo_p4_inv E (run_step _ _ _ _ _ (run_nil _) (step_ready demo_p4 demo_desc))))) _).
  vm_compute. reflexivity.
Defined.

Lemma partition_can_start_witness :
  exists sa p' r, start_attempt demo_desc 0 (SIVal PNone) None None demo_partition = (Ok sa, p') /\
    sa.(sa_attempt_id) = MkFteTaskAttemptId demo_id 0 /\
    Partition.running_attempt p' = Ok (Some r) /\ r.(ra_attempt_id) = sa.(sa_attempt_id) /\
    Partition.state p' = P_RUNNING.
Proof.
  apply (partition_can_start demo_desc 0 (SIVal PNone) None None demo_partition).
  - by apply (new_part_inv _ _ _ _ _ _ _ _ _ demo_new).
  - vm_compute. reflexivity.
  - vm_compute. reflexivity.
Defined.
