(* ===== verification/Execution.v ===== *)
(** * Fragment executions

    Models [FteFragmentExecution] of [duckdb/runners/fte/fte_execution.py]:
    the partitions of one plan fragment, how assignments turn into worker
    commands and attempts, and how failures, revocations and finished
    statuses move them on.

    A partition is named by its id and lives in the execution's state, its
    descriptor in the heap of the descriptor storage.  Everything the class
    is given from outside is an [Env]: the callbacks are programs on the
    execution's state, so they may change it as a re-entrant call or another
    thread would while the state lock is free; the replies of worker handles
    depend on the state, which holds the log of the calls made so far. *)

From S2P Require Import Prelude PyStr PyVal FteTypes FteState FteFailures SplitAssigner Exchange.
From S2P Require Import OutputBuffers Descriptor DescriptorStorage Partition.

#[local] Open Scope string_scope.
#[local] Open Scope list_scope.
#[local] Open Scope Z_scope.

(** ** State *)

(** Calls on worker handles. *)
Inductive worker_call :=
| CallSetExecutionClass (w : Worker) (a : FteTaskAttemptId) (c : FteTaskExecutionClass)
| CallCancelTask (w : Worker) (a : FteTaskAttemptId)
| CallEnsureFragmentRegistered (w : Worker) (query fragment : string) (plan : pyval)
| CallResultReady (w : Worker) (a : FteTaskAttemptId)
| CallTerminal (w : Worker) (a : FteTaskAttemptId)
| CallTaskStarted (w : Worker) (a : FteTaskAttemptId) (request : list (pyval * pyval))
| CallSplitsAdded (w : Worker) (a : FteTaskAttemptId) (n : Z)
| CallSplitBytesAdded (w : Worker) (a : FteTaskAttemptId) (n : Z).

Record FragmentExecution := MkExecution {
  fe_query_id : string;
  fe_fragment_execution_id : Z;
  fe_fragment_id : string;
  fe_worker : option Worker;
  fe_worker_id : option string;
  fe_storage : Storage;
  fe_max_attempts : Z;
  fe_exchange : option Tracker;
  fe_context : list (pyval * pyval);
  fe_resource_request : list (pyval * pyval);
  fe_fragment_plan : pyval;
  fe_fragment_registration_result : pyval;
  fe_task_context_info : list (pyval * pyval);
  fe_execution_class : FteTaskExecutionClass;
  fe_source_node_ids : gset string;
  fe_dynamic_scan_source_node_ids : gset string;
  fe_dynamic_exchange_source_node_ids : gset string;
  fe_partitions : list (Z * FteTaskPartition);
  fe_failed : bool;
  fe_no_more_partitions : bool;
  fe_current_worker_commands : option (list FteWorkerCommand);
  fe_worker_command_outbox : list FteWorkerCommand;
  fe_task_memory_bytes : Z;
  fe_calls : list worker_call;
}.
#[export] Instance FragmentExecution_eta : Eta FragmentExecution :=
  fun r => MkExecution r.(fe_query_id) r.(fe_fragment_execution_id) r.(fe_fragment_id)
    r.(fe_worker) r.(fe_worker_id) r.(fe_storage) r.(fe_max_attempts) r.(fe_exchange)
    r.(fe_context) r.(fe_resource_request) r.(fe_fragment_plan)
    r.(fe_fragment_registration_result) r.(fe_task_context_info) r.(fe_execution_class)
    r.(fe_source_node_ids) r.(fe_dynamic_scan_source_node_ids)
    r.(fe_dynamic_exchange_source_node_ids) r.(fe_partitions) r.(fe_failed)
    r.(fe_no_more_partitions) r.(fe_current_worker_commands) r.(fe_worker_command_outbox)
    r.(fe_task_memory_bytes) r.(fe_calls).

(** What a worker selector returns. *)
Inductive selection :=
| SelPair (worker_id : option string) (worker : option Worker)
| SelObject (worker : option Worker) (worker_id : option string).

Record Env := MkEnv {
  env_clock : FragmentExecution -> Z;
  env_reply : FragmentExecution -> worker_call -> result pyval;
  env_worker_selector : option (Z -> ST FragmentExecution selection);
  env_execution_class_transition : option (list ExecutionClassTransition -> ST FragmentExecution unit);
  env_execution_admission : option (Z -> ST FragmentExecution bool);
  env_attempt_admission : option (Z -> ST FragmentExecution bool);
  env_worker_reservation : option (Z -> ST FragmentExecution unit);
  env_max_splits : option string;
  env_max_payload_bytes : option string;
}.

Module Execution.

(** [__init__] *)
Definition new (query : string) (fragment_execution_id : Z) (fragment_id : string)
    (worker : option Worker) (worker_id : option string) (storage : Storage) (max_attempts : Z)
    (exchange : option Tracker) (context resource_request : list (pyval * pyval))
    (plan registration : pyval) (info : list (pyval * pyval)) (sources scans exchanges : gset string)
    (task_memory_bytes : Z) : result FragmentExecution :=
  let query := strip query in
  let* _ := raise_if (String.eqb query "") (ValueError "query_id must be non-empty") in
  let* fexec := check_non_negative "fragment_execution_id" fragment_execution_id in
  let fragment_id := strip fragment_id in
  let* _ := raise_if (String.eqb fragment_id "") (ValueError "fragment_id must be non-empty") in
  let* _ := raise_if (max_attempts <=? 0) (ValueError "max_attempts must be positive") in
  let metadata := [context; resource_request; info] in
  let explicit := ExecutionClass.metadata_present metadata in
  let* class := ExecutionClass.from_metadata metadata in
  let class := if negb explicit && negb (bool_decide (exchanges = ∅)) then SPECULATIVE else class in
  let* _ := raise_if (task_memory_bytes <=? 0) (ValueError "FTE task_memory_bytes must be positive") in
  Ok {| fe_query_id := query; fe_fragment_execution_id := fexec; fe_fragment_id := fragment_id;
        fe_worker := worker; fe_worker_id := worker_id; fe_storage := storage;
        fe_max_attempts := max_attempts; fe_exchange := exchange; fe_context := context;
        fe_resource_request := resource_request; fe_fragment_plan := plan;
        fe_fragment_registration_result := registration; fe_task_context_info := info;
        fe_execution_class := class; fe_source_node_ids := sources;
        fe_dynamic_scan_source_node_ids := scans; fe_dynamic_exchange_source_node_ids := exchanges;
        fe_partitions := []; fe_failed := false; fe_no_more_partitions := false;
        fe_current_worker_commands := None; fe_worker_command_outbox := [];
        fe_task_memory_bytes := task_memory_bytes; fe_calls := [] |}.

(** ** Access to the parts of the state *)

(** [self.partitions[pid]] *)
Definition get_partition (pid : Z) : ST FragmentExecution FteTaskPartition :=
  let! s := sget in
  match od_get pid s.(fe_partitions) with
  | Some p => sret p
  | None => sraise (KeyError "partition")
  end.

(** An operation of one partition object. *)
Definition on_partition {A} (pid : Z) (m : ST FteTaskPartition A) : ST FragmentExecution A :=
  let! p := get_partition pid in
  szoom (fun _ => p) (fun p' s => s <| fe_partitions ::= od_set pid p' |>) m.

(** An operation of the descriptor object behind a reference. *)
Definition on_descriptor {A} (r : nat) (m : ST TaskDescriptor A) : ST FragmentExecution A :=
  let! s := sget in
  let! d := slift (Store.deref s.(fe_storage) r) in
  szoom (fun _ => d)
    (fun d' s => s <| fe_storage := s.(fe_storage) <| st_heap ::= <[r := d']> |> |>) m.

Definition on_storage {A} (m : ST Storage A) : ST FragmentExecution A :=
  szoom fe_storage (fun st s => s <| fe_storage := st |>) m.

(** An operation of the exchange, for an execution that has one. *)
Definition on_exchange {A} (t : Tracker) (m : ST Tracker A) : ST FragmentExecution A :=
  szoom (fun _ => t) (fun t' s => s <| fe_exchange := Some t' |>) m.

(** [self.exchange.sink_aborted(...)] for a partition that has a sink. *)
Definition exchange_sink_aborted (sink : option ExchangeSinkHandle) (attempt : Z) : ST FragmentExecution unit :=
  let! s := sget in
  match s.(fe_exchange), sink with
  | Some t, Some h => on_exchange t (ExchangeTracker.sink_aborted h attempt)
  | _, _ => sret tt
  end.

Definition exchange_sink_finished (sink : option ExchangeSinkHandle) (attempt : Z) : ST FragmentExecution unit :=
  let! s := sget in
  match s.(fe_exchange), sink with
  | Some t, Some h => on_exchange t (ExchangeTracker.sink_finished h attempt)
  | _, _ => sret tt
  end.

(** [_record_worker_command] *)
Definition record_worker_command (c : FteWorkerCommand) : ST FragmentExecution unit :=
  smodify (fun s =>
    match s.(fe_current_worker_commands) with
    | Some l => s <| fe_current_worker_commands := Some (l ++ [c]) |>
    | None => s <| fe_worker_command_outbox ::= fun l => l ++ [c] |>
    end).

Definition pop_worker_commands : ST FragmentExecution (list FteWorkerCommand) :=
  let! s := sget in
  let! _ := smodify (fun s => s <| fe_worker_command_outbox := [] |>) in
  sret s.(fe_worker_command_outbox).

(** [with self._attempt_scheduling_lock: previous = self._current_worker_commands; ...] *)
Definition collecting_commands {A} (m : ST FragmentExecution A) : ST FragmentExecution A :=
  let! previous := sgets fe_current_worker_commands in
  let! _ := smodify (fun s => s <| fe_current_worker_commands := Some [] |>) in
  sfinally m (fun s => s <| fe_current_worker_commands := previous |>).

Definition current_commands : ST FragmentExecution (list FteWorkerCommand) :=
  sgets (fun s => default [] s.(fe_current_worker_commands)).

(** [_worker_control_failure] *)
Definition worker_control_failure (r : RunningAttempt) (method : string) : exn :=
  WorkerControlFailure (default "" r.(ra_worker_id)) method.

(** ** Partitions *)

(** [_base_sink_instance_for_partition] *)
Definition base_sink_instance_for_partition (s : FragmentExecution) : sink_instance :=
  match s.(fe_exchange) with
  | Some _ => SIVal PNone
  | None =>
      match sink_instance_payload (SIVal (pd_get "exchange_sink_instance" s.(fe_task_context_info))) with
      | [] => SIVal PNone
      | payload => SIVal (PDict payload)
      end
  end.

(** A new descriptor object. *)
Definition alloc_descriptor (d : TaskDescriptor) : ST FragmentExecution nat :=
  let! s := sget in
  let! _ := smodify (fun s => s <| fe_storage := s.(fe_storage) <| st_heap ::= fun h => h ++ [d] |> |>) in
  sret (length s.(fe_storage).(st_heap)).

Definition add_partition (pid : Z) (node : option NodeRequirements) : ST FragmentExecution Z :=
  let! pid := slift (check_non_negative "partition_id" pid) in
  let! s := sget in
  match od_get pid s.(fe_partitions) with
  | Some p =>
      let! _ := match p.(p_node_requirements), node with
                | None, Some _ => on_partition pid (smodify (fun p => p <| p_node_requirements := node |>))
                | _, _ => sret tt
                end in
      sret pid
  | None =>
      let! task := slift (TaskId.new s.(fe_query_id) s.(fe_fragment_execution_id) pid) in
      let! sink := match s.(fe_exchange) with
                   | Some t => let! h := on_exchange t (ExchangeTracker.add_sink pid) in sret (Some h)
                   | None => sret None
                   end in
      let! d := slift (Descriptor.new task s.(fe_fragment_id) (PDict s.(fe_context))
        (PDict s.(fe_resource_request)) (PDict s.(fe_task_context_info)) PNone (PDict []) [] ∅
        s.(fe_fragment_plan) s.(fe_fragment_registration_result) (base_sink_instance_for_partition s) 0
        s.(fe_source_node_ids) s.(fe_dynamic_scan_source_node_ids)
        s.(fe_dynamic_exchange_source_node_ids)) in
      let! ref := alloc_descriptor d in
      let! p := slift (Partition.new (RObj task) ref d s.(fe_max_attempts) sink node
        (Some s.(fe_task_memory_bytes)) (RObj s.(fe_execution_class))) in
      let! _ := smodify (fun s => s <| fe_partitions ::= od_set pid p |>) in
      let! _ := on_storage (Store.put (RObj task) ref) in
      sret pid
  end.

(** [partition.running_attempt is None and not partition.finished and not partition.failed] *)
Definition idle (p : FteTaskPartition) : result bool :=
  let* running := Partition.running_attempt p in
  Ok (bool_decide (running = None) && negb p.(p_finished) && negb p.(p_failed)).

(** [_partition_ready_to_schedule] *)
Definition partition_ready_to_schedule (p : FteTaskPartition) : result bool :=
  if p.(p_ready_for_scheduling) then idle p else Ok false.

(** [_partition_matches_execution_class] *)
Definition partition_matches_execution_class (p : FteTaskPartition)
    (class : option (id_ref FteTaskExecutionClass)) : result bool :=
  match class with
  | None => Ok true
  | Some c => let* c := ExecutionClass.coerce c in Ok (bool_decide (p.(p_execution_class) = c))
  end.

(** [_partition_pending_attempt_publishable] *)
Definition partition_pending_attempt_publishable (p : FteTaskPartition) : result bool :=
  if p.(p_ready_for_scheduling) || p.(p_execution_ready_deferred) then idle p else Ok false.

(** [a and b] for conditions that may raise. *)
Definition rand (a b : result bool) : result bool :=
  let* x := a in if x : bool then b else Ok false.

(** [any(f(x) for x in l)], stopping at the first hit. *)
Fixpoint rany {A} (f : A -> result bool) (l : list A) : result bool :=
  match l with
  | [] => Ok false
  | x :: l => let* b := f x in if b : bool then Ok true else rany f l
  end.

(** [sum(1 for x in l if f(x))] *)
Definition rcount {A} (f : A -> result bool) (l : list A) : result Z :=
  rfoldM (fun n x => let* b := f x in Ok (if b : bool then n + 1 else n)) 0 l.

(** [sorted(self.partitions.values(), key=lambda value: value.task_id.partition_id)] *)
Definition sorted_partitions (s : FragmentExecution) : list FteTaskPartition :=
  py_sorted (fun p q => p.(p_task_id).(partition_id) <=? q.(p_task_id).(partition_id))
    (od_values s.(fe_partitions)).

Definition has_open_task_running (s : FragmentExecution) : bool :=
  existsb (fun p => negb p.(p_finished) && negb p.(p_failed) && Partition.has_running p && negb p.(p_sealed))
    (od_values s.(fe_partitions)).

Definition has_retryable_running_attempt_on_worker (s : FragmentExecution) (worker : string)
    (retryable_by_partition_id : option (list (Z * bool))) : bool :=
  existsb (fun p =>
      match retryable_by_partition_id with
      | Some m => od_get_default p.(p_task_id).(partition_id) false m
      | None => true
      end &&
      existsb (fun r => bool_decide (r.(ra_worker_id) = Some worker)) (od_values p.(p_running_attempts)))
    (od_values s.(fe_partitions)).

Definition has_pending_partitions (s : FragmentExecution) (class : option (id_ref FteTaskExecutionClass))
    : result bool :=
  rany (fun p => rand (partition_pending_attempt_publishable p) (partition_matches_execution_class p class))
    (od_values s.(fe_partitions)).

Definition pending_submission_count (s : FragmentExecution) : result Z :=
  rcount partition_pending_attempt_publishable (od_values s.(fe_partitions)).

Definition waiting_for_execution_count (s : FragmentExecution) (class : option (id_ref FteTaskExecutionClass))
    : result Z :=
  rcount (fun p =>
      rand (Ok (p.(p_ready_for_scheduling) && bool_decide (p.(p_node_wait_started_at) = None)))
        (rand (idle p) (partition_matches_execution_class p class)))
    (od_values s.(fe_partitions)).

Definition waiting_for_node_count (s : FragmentExecution) (class : option (id_ref FteTaskExecutionClass))
    : result Z :=
  rcount (fun p =>
      rand (Ok (negb (bool_decide (p.(p_node_wait_started_at) = None))))
        (rand (idle p) (partition_matches_execution_class p class)))
    (od_values s.(fe_partitions)).

(** [_transition_from_partition] *)
Definition transition_from_partition (p : FteTaskPartition) : ExecutionClassTransition :=
  MkTransition p.(p_task_id) p.(p_execution_class) (od_values p.(p_running_attempts)).

(** [_partition_requires_finish_output_stats] *)
Definition partition_requires_finish_output_stats (s : FragmentExecution) (p : FteTaskPartition) (d : TaskDescriptor)
    : result bool :=
  if bool_decide (is_Some s.(fe_exchange)) || bool_decide (is_Some p.(p_sink_handle)) then Ok true
  else match d.(d_exchange_sink_instance) with
  | SIVal PNone =>
      let* running := Partition.running_attempt p in
      Ok (match running with
          | Some r => match r.(ra_sink_instance) with SIVal PNone => false | _ => true end
          | None => false
          end)
  | _ => Ok true
  end.

(** ** Updates from the split assigner *)

(** [_coalesce_partition_updates] *)
Definition coalesce_one (acc : list (Z * string * PartitionUpdate)) (u : PartitionUpdate)
    : result (list (Z * string * PartitionUpdate)) :=
  let key := (u.(pu_partition_id), u.(pu_source_node_id)) in
  match od_get key acc with
  | None => Ok (od_set key u acc)
  | Some e =>
      let* _ := raise_if (e.(pu_no_more_splits) && negb (is_empty u.(pu_splits)))
        (RuntimeError "received splits after no_more_splits") in
      let* m := new_partition_update e.(pu_partition_id) e.(pu_source_node_id)
        (e.(pu_splits) ++ u.(pu_splits)) (e.(pu_no_more_splits) || u.(pu_no_more_splits))
        (e.(pu_ready_for_scheduling) || u.(pu_ready_for_scheduling)) in
      Ok (od_set key m acc)
  end.

Definition coalesce_partition_updates (updates : list PartitionUpdate) : result (list PartitionUpdate) :=
  let* acc := rfoldM coalesce_one [] updates in
  Ok (od_values acc).

(** The loop of [_split_update_batches]: the open batch and its size. *)
Fixpoint split_batches (max_splits max_bytes : Z) (current : list FteSplit) (current_bytes : Z)
    (splits : list FteSplit) : list (list FteSplit) :=
  match splits with
  | [] => match current with [] => [] | _ => [current] end
  | split :: splits =>
      let split_bytes := Z.max 1 (estimated_payload_bytes (PDict (Split.to_dict split))) in
      if negb (is_empty current) &&
         ((max_splits <=? Z.of_nat (length current)) || (max_bytes <? current_bytes + split_bytes))
      then current :: split_batches max_splits max_bytes [split] split_bytes splits
      else split_batches max_splits max_bytes (current ++ [split]) (current_bytes + split_bytes) splits
  end.

Section WithEnv.
Context (env : Env).

(** [_split_update_batches] *)
Definition split_update_batches (splits : list FteSplit) : list (list FteSplit) :=
  split_batches (fte_task_update_max_splits env.(env_max_splits))
    (fte_task_update_max_payload_bytes env.(env_max_payload_bytes)) [] 0 splits.

(** A method call on a worker handle. *)
Definition call (c : worker_call) : ST FragmentExecution pyval :=
  fun s => (env.(env_reply) s c, s <| fe_calls ::= fun l => l ++ [c] |>).

(** The same on a handle that may be [None]. *)
Definition call_on (w : option Worker) (c : Worker -> worker_call) : ST FragmentExecution pyval :=
  match w with
  | Some w => call (c w)
  | None => sraise (AttributeError "NoneType")
  end.

(** [_record_task_result_ready_without_drain] *)
Definition record_task_result_ready (w : option Worker) (a : FteTaskAttemptId) : ST FragmentExecution unit :=
  let! _ := call_on w (fun w => CallResultReady w a) in sret tt.

(** [_record_task_terminal_without_drain] *)
Definition record_task_terminal (w : option Worker) (a : FteTaskAttemptId) : ST FragmentExecution unit :=
  let! _ := call_on w (fun w => CallTerminal w a) in sret tt.

(** [running.remote_handle.fte_cancel_task(...)], when there is a handle,
    with its failure turned into [FteWorkerControlFailure]. *)
Definition cancel_running (r : RunningAttempt) : ST FragmentExecution unit :=
  match r.(ra_remote_handle) with
  | None => sret tt
  | Some w =>
      scatch (let! _ := call (CallCancelTask w r.(ra_attempt_id)) in sret tt) (fun _ => true)
        (fun _ => sraise (worker_control_failure r "fte_cancel_task"))
  end.

(** [_mark_partition_ready_for_execution] *)
Definition mark_partition_ready_for_execution (pid : Z) : ST FragmentExecution bool :=
  let! admitted := match env.(env_execution_admission) with
                   | Some allowed => allowed pid
                   | None => sret true
                   end in
  if admitted : bool then
    let! _ := on_partition pid (smodify Partition.mark_ready_for_execution) in sret true
  else
    let! _ := on_partition pid (smodify Partition.defer_ready_for_execution) in sret false.

(** [_emit_execution_class_transitions] *)
Definition emit_execution_class_transitions (ts : list ExecutionClassTransition) : ST FragmentExecution unit :=
  match ts with
  | [] => sret tt
  | _ =>
      match env.(env_execution_class_transition) with
      | Some callback => callback ts
      | None =>
          sfor ts (fun t => sfor t.(tn_running_attempts) (fun r =>
            match r.(ra_remote_handle) with
            | None => sret tt
            | Some w =>
                scatch (let! _ := call (CallSetExecutionClass w r.(ra_attempt_id) t.(tn_new_execution_class)) in sret tt)
                  (fun _ => true)
                  (fun _ => sraise (worker_control_failure r "set_fte_task_execution_class"))
            end))
      end
  end.

Definition set_execution_class (class : id_ref FteTaskExecutionClass)
    : ST FragmentExecution (list ExecutionClassTransition) :=
  let! new_class := slift (ExecutionClass.coerce class) in
  let! s := sget in
  let! _ := if bool_decide (s.(fe_execution_class) = new_class) then sret tt
            else
              let! _ := sraise_if (negb (ExecutionClass.can_transition_to s.(fe_execution_class) new_class))
                (ValueError "cannot change fragment execution class") in
              smodify (fun s => s <| fe_execution_class := new_class |>) in
  sfold (od_keys s.(fe_partitions)) (fun ts pid =>
    let! p := get_partition pid in
    if p.(p_finished) || p.(p_failed) then sret ts
    else
      let! changed := on_partition pid (Partition.set_execution_class (RObj new_class)) in
      if changed : bool then
        let! p := get_partition pid in sret (ts ++ [transition_from_partition p])
      else sret ts) [].

(** ** Starting attempts *)

(** [_select_worker] *)
Definition select_worker (pid : Z) : ST FragmentExecution (option string * option Worker) :=
  match env.(env_worker_selector) with
  | Some select =>
      let! sel := select pid in
      match sel with
      | SelPair worker_id worker => sret (worker_id, worker)
      | SelObject worker worker_id => sret (worker_id, worker)
      end
  | None =>
      let! s := sget in
      match s.(fe_worker) with
      | None => sraise (RuntimeError "FteFragmentExecution requires a worker or worker_selector")
      | Some _ => sret (s.(fe_worker_id), s.(fe_worker))
      end
  end.

(** The sink instance for the next attempt. *)
Definition attempt_sink_instance (pid : Z) : ST FragmentExecution sink_instance :=
  let! s := sget in
  let! p := get_partition pid in
  let! d := slift (Store.deref s.(fe_storage) p.(p_descriptor)) in
  match s.(fe_exchange) with
  | Some t =>
      let! h := match p.(p_sink_handle) with
                | Some h => sret h
                | None =>
                    let! h := on_exchange t (ExchangeTracker.add_sink p.(p_task_id).(partition_id)) in
                    let! _ := on_partition pid (smodify (fun p => p <| p_sink_handle := Some h |>)) in
                    sret h
                end in
      let! n := slift (Partition.next_attempt_number p) in
      let! s := sget in
      let! i := on_exchange (default t s.(fe_exchange)) (ExchangeTracker.instantiate_sink h n) in
      sret (SIHandle i)
  | None =>
      match d.(d_exchange_sink_instance) with
      | SIVal PNone => sret (SIVal PNone)
      | base =>
          let! n := slift (Partition.next_attempt_number p) in
          slift (derive_exchange_sink_instance_for_attempt base n (Some p.(p_task_id).(partition_id)))
      end
  end.

Definition start_attempt_with_worker (pid : Z) : ST FragmentExecution ScheduledAttempt :=
  let! (worker_id, worker) := select_worker pid in
  let! sink := attempt_sink_instance pid in
  let! s := sget in
  let! p := get_partition pid in
  let! d := slift (Store.deref s.(fe_storage) p.(p_descriptor)) in
  let! scheduled := on_partition pid
    (Partition.start_attempt d (env.(env_clock) s) sink worker_id worker) in
  let! registration := call_on worker (fun w =>
    CallEnsureFragmentRegistered w s.(fe_query_id) s.(fe_fragment_id) d.(d_fragment_plan)) in
  let request := scheduled.(sa_request) in
  let request := if is_none registration then request
                 else pd_set "fragment_registration_result" registration request in
  let request := if is_none (pd_get "fragment_registration_result" request) then request
                 else pd_set "fragment_plan" PNone request in
  let! _ := record_worker_command (FteCreateTaskCommand
    (MkHead s.(fe_query_id) s.(fe_fragment_id) worker_id worker scheduled.(sa_attempt_id))
    p.(p_task_id).(partition_id) request) in
  sret (scheduled <| sa_request := request |>).

(** [_create_attempt_after_admission] *)
Definition create_attempt_after_admission (pid : Z) : ST FragmentExecution (option ScheduledAttempt) :=
  let! s := sget in
  let! _ := on_partition pid (smodify (Partition.mark_waiting_for_node (env.(env_clock) s))) in
  match env.(env_worker_reservation) with
  | Some reserve => let! _ := reserve pid in sret None
  | None =>
      scatch (let! a := start_attempt_with_worker pid in sret (Some a))
        (fun e => match e with WorkerReservationUnavailable => true | _ => false end)
        (fun _ => sret None)
  end.

(** The check made before and again after admission. *)
Definition schedulable (pid : Z) (class : option (id_ref FteTaskExecutionClass)) : ST FragmentExecution bool :=
  let! s := sget in
  match od_get pid s.(fe_partitions) with
  | None => sret false
  | Some p => slift (rand (partition_ready_to_schedule p) (partition_matches_execution_class p class))
  end.

(** [_schedule_partition_if_ready].  Admission runs with the state lock
    released; partition objects are never replaced, so the partition found
    afterwards is the one checked before. *)
Definition schedule_partition_if_ready (pid : Z) (class : option (id_ref FteTaskExecutionClass))
    : ST FragmentExecution (option ScheduledAttempt) :=
  let! ready := schedulable pid class in
  if negb ready then sret None
  else
    let! admitted := match env.(env_attempt_admission) with
                     | Some allowed => allowed pid
                     | None => sret true
                     end in
    if negb admitted then sret None
    else
      let! ready := schedulable pid class in
      if negb ready then sret None else create_attempt_after_admission pid.

Definition release_deferred_execution_partitions (class : option (id_ref FteTaskExecutionClass))
    : ST FragmentExecution (list FteTaskAttemptId) :=
  let! s := sget in
  sfold (map (fun p => p.(p_task_id).(partition_id)) (sorted_partitions s)) (fun released pid =>
    let! p := get_partition pid in
    if negb p.(p_execution_ready_deferred) then sret released
    else
      let! idle := slift (idle p) in
      if negb idle then
        let! _ := on_partition pid (smodify (fun p => p <| p_execution_ready_deferred := false |>)) in
        sret released
      else
        let! matches := slift (partition_matches_execution_class p class) in
        if negb matches then sret released
        else
          let! marked := mark_partition_ready_for_execution pid in
          if negb marked then sret released
          else
            let! p := get_partition pid in
            let! n := slift (Partition.next_attempt_number p) in
            let! a := slift (TaskAttemptId.new (RObj p.(p_task_id)) n) in
            sret (released ++ [a])) [].

(** The loop of [schedule_next_pending_partition]. *)
Fixpoint schedule_first (pids : list Z) (class : option (id_ref FteTaskExecutionClass))
    : ST FragmentExecution (option ScheduledAttempt) :=
  match pids with
  | [] => sret None
  | pid :: pids =>
      let! a := schedule_partition_if_ready pid class in
      match a with Some a => sret (Some a) | None => schedule_first pids class end
  end.

Definition schedule_next_pending_partition (class : option (id_ref FteTaskExecutionClass))
    : ST FragmentExecution (option ScheduledAttempt) :=
  let! s := sget in
  let! flags := slift (rmapM (fun p =>
    let* b := rand (partition_ready_to_schedule p) (partition_matches_execution_class p class) in
    Ok (p.(p_task_id).(partition_id), b)) (sorted_partitions s)) in
  schedule_first (map fst (List.filter snd flags)) class.

(** ** Assignment results and updates *)

(** [_update_partition_locked] *)
Definition update_partition_locked (u : PartitionUpdate) : ST FragmentExecution bool :=
  let! pid := add_partition u.(pu_partition_id) None in
  let! p := get_partition pid in
  let! running := slift (Partition.running_attempt p) in
  let! added := on_descriptor p.(p_descriptor)
    (Descriptor.append_splits u.(pu_source_node_id) (map RObj u.(pu_splits))) in
  let! marked := if u.(pu_no_more_splits)
                 then on_descriptor p.(p_descriptor) (Descriptor.mark_no_more_splits u.(pu_source_node_id))
                 else sret false in
  if bool_decide (running = None) && negb p.(p_finished) && negb p.(p_failed) &&
     (u.(pu_ready_for_scheduling) || u.(pu_no_more_splits) || p.(p_sealed))
  then mark_partition_ready_for_execution pid
  else
    match running with
    | None => sret false
    | Some r =>
        let! s := sget in
        let head := MkHead s.(fe_query_id) s.(fe_fragment_id) r.(ra_worker_id) r.(ra_remote_handle)
          r.(ra_attempt_id) in
        let! _ := sfor (split_update_batches added) (fun batch =>
          record_worker_command (FteAddSplitsCommand head u.(pu_source_node_id)
            (map (fun split => PDict (Split.to_dict split)) batch))) in
        let! _ := if marked : bool
                  then record_worker_command (FteNoMoreSplitsCommand head u.(pu_source_node_id))
                  else sret tt in
        sret false
    end.

Definition update_partition (u : PartitionUpdate) : ST FragmentExecution (option ScheduledAttempt) :=
  let! should_schedule := update_partition_locked u in
  if should_schedule : bool then schedule_partition_if_ready u.(pu_partition_id) None else sret None.

(** [partition.seal()] on the partition and its descriptor. *)
Definition seal_object (pid : Z) : ST FragmentExecution (option FteTaskExecutionClass) :=
  let! s := sget in
  let! p := get_partition pid in
  let! d := slift (Store.deref s.(fe_storage) p.(p_descriptor)) in
  szoom (fun _ => (p, d))
    (fun '(p', d') s => s <| fe_partitions ::= od_set pid p' |>
                          <| fe_storage := s.(fe_storage) <| st_heap ::= <[p.(p_descriptor) := d']> |> |>)
    Partition.seal.

(** [_seal_partition_locked] *)
Definition seal_partition_locked (pid : Z) : ST FragmentExecution bool :=
  let! pid := add_partition pid None in
  let! old_class := seal_object pid in
  let! p := get_partition pid in
  let! _ := match old_class with
            | Some _ => emit_execution_class_transitions [transition_from_partition p]
            | None => sret tt
            end in
  let! p := get_partition pid in
  let! idle := slift (idle p) in
  if idle then mark_partition_ready_for_execution pid else sret false.

Definition seal_partition (pid : Z) : ST FragmentExecution (option ScheduledAttempt) :=
  let! should_schedule := seal_partition_locked pid in
  if should_schedule : bool then schedule_partition_if_ready pid None else sret None.

Definition push {A} (l : list A) (x : option A) : list A :=
  match x with Some x => l ++ [x] | None => l end.

Definition apply_assignment_result (res : AssignmentResult) : ST FragmentExecution FragmentExecutionMutationResult :=
  collecting_commands (
    let! _ := sfor res.(partitions_added) (fun info =>
      let! _ := add_partition info.(pi_partition_id) info.(pi_node_requirements) in sret tt) in
    let! updates := slift (coalesce_partition_updates res.(partition_updates)) in
    let! scheduled := sfold updates (fun l u => let! a := update_partition u in sret (push l a)) [] in
    let! scheduled := sfold res.(sealed_partitions)
      (fun l pid => let! a := seal_partition pid in sret (push l a)) scheduled in
    let! _ := smodify (fun s => if res.(no_more_partitions) then s <| fe_no_more_partitions := true |> else s) in
    let! commands := current_commands in
    sret (MkMutation scheduled commands)).

Definition apply_task_update (pid : Z) (update : id_ref FteTaskUpdateRequest)
    : ST FragmentExecution FragmentExecutionMutationResult :=
  collecting_commands (
    let! pid := add_partition pid None in
    let! request := slift (UpdateRequest.coerce update) in
    let! p := get_partition pid in
    let! changed := on_descriptor p.(p_descriptor) (Descriptor.apply_task_update (RObj request)) in
    if negb changed then let! commands := current_commands in sret (MkMutation [] commands)
    else
      let! _ := on_storage (Store.put (RObj p.(p_task_id)) p.(p_descriptor)) in
      let! running := slift (Partition.running_attempt p) in
      let! s := sget in
      let! _ := match running with
                | None => sret tt
                | Some r => record_worker_command (FteTaskUpdateCommand
                    (MkHead s.(fe_query_id) s.(fe_fragment_id) r.(ra_worker_id) r.(ra_remote_handle)
                       r.(ra_attempt_id)) (UpdateRequest.to_dict request))
                end in
      let! commands := current_commands in
      sret (MkMutation [] commands)).

(** ** Failed, revoked and finished attempts *)

(** The part of [task_failed] under the state lock: the running attempt, and
    whether a retry is due. *)
Definition task_failed_locked (attempt : FteTaskAttemptId) (error : pyval) (retryable : bool)
    : ST FragmentExecution (option RunningAttempt * bool) :=
  let pid := attempt.(task_id).(partition_id) in
  let! p := get_partition pid in
  let running := od_get attempt.(attempt_id) p.(p_running_attempts) in
  let! _ := exchange_sink_aborted p.(p_sink_handle) attempt.(attempt_id) in
  let! ready := on_partition pid
    (Partition.mark_attempt_failed (RObj attempt) error (retryable && failure_allows_retry error true)) in
  match ready with
  | Some _ =>
      if is_memory_failure error then
        let! _ := on_partition pid (smodify Partition.abandon) in
        let! _ := smodify (fun s => s <| fe_failed := true |>) in
        sret (running, false)
      else
        let! p := get_partition pid in
        let! _ := smodify (fun s => if p.(p_failed) then s <| fe_failed := true |> else s) in
        if negb p.(p_sealed) && ExecutionClass.is_speculative p.(p_execution_class) then
          let! _ := on_partition pid (smodify (fun p =>
            p <| p_ready_for_scheduling := false |> <| p_execution_ready_deferred := false |>)) in
          sret (running, false)
        else
          let! _ := on_partition pid (smodify Partition.mark_ready_for_execution) in
          sret (running, true)
  | None =>
      let! p := get_partition pid in
      let! _ := smodify (fun s => if p.(p_failed) then s <| fe_failed := true |> else s) in
      sret (running, false)
  end.

Definition task_failed (id : id_ref FteTaskAttemptId) (error : pyval) (retryable schedule_retry : bool)
    : ST FragmentExecution (option ScheduledAttempt) :=
  let! attempt := slift (TaskAttemptId.coerce id) in
  let! (running, should_schedule) := task_failed_locked attempt error retryable in
  let! _ := match running with
            | Some r => record_task_terminal r.(ra_remote_handle) attempt
            | None => sret tt
            end in
  if should_schedule && schedule_retry
  then schedule_partition_if_ready attempt.(task_id).(partition_id) None
  else sret None.

(** The local list of pressure releases, kept beside the execution while a
    method runs: its [finally] block reads it even after an exception. *)
Inductive release_kind := ResultReady | TerminalRelease.
Definition Releases : Type := list (release_kind * option Worker * FteTaskAttemptId).

Definition with_fe {A} (m : ST FragmentExecution A) : ST (FragmentExecution * Releases) A :=
  szoom fst (fun s x => (s, x.2)) m.

Definition add_release (k : release_kind) (w : option Worker) (a : FteTaskAttemptId)
    : ST (FragmentExecution * Releases) unit :=
  smodify (fun x => (x.1, x.2 ++ [(k, w, a)])).

Definition run_releases (rs : Releases) : ST FragmentExecution unit :=
  sfor rs (fun '(k, w, a) =>
    match k with
    | ResultReady => record_task_result_ready w a
    | TerminalRelease => record_task_terminal w a
    end).

(** [try: m finally: for ... in pressure_releases: ...] *)
Definition releasing {A} (m : ST (FragmentExecution * Releases) A) : ST FragmentExecution A :=
  fun s => let '(r, x) := stry_finally m (let! x := sget in with_fe (run_releases x.2)) (s, []) in (r, x.1).

(** One running attempt in the loop of [revoke_speculative_attempts]; the
    flag tells that the limit was reached and both loops were left. *)
Definition revoke_running (pid : Z) (worker_id : option string) (limit : option Z) (reason : pyval)
    (acc : list RevokedAttempt * bool) (r : RunningAttempt)
    : ST (FragmentExecution * Releases) (list RevokedAttempt * bool) :=
  let '(revoked, reached) := acc in
  if reached then sret acc
  else if match worker_id with
          | Some w => negb (String.eqb (default "" r.(ra_worker_id)) w)
          | None => false
          end
  then sret acc
  else
    let! _ := with_fe (cancel_running r) in
    let! p := with_fe (get_partition pid) in
    let! _ := with_fe (exchange_sink_aborted p.(p_sink_handle) r.(ra_attempt_id).(attempt_id)) in
    let! rv := with_fe (on_partition pid (Partition.revoke_attempt (RObj r.(ra_attempt_id))
      (py_or reason (PStr "speculative task revoked")))) in
    match rv with
    | None => sret acc
    | Some rv =>
        let! _ := add_release TerminalRelease r.(ra_remote_handle) r.(ra_attempt_id) in
        let revoked := revoked ++ [rv] in
        let! p := with_fe (get_partition pid) in
        let! _ := with_fe (smodify (fun s => s <| fe_failed := s.(fe_failed) || p.(p_failed) |>)) in
        sret (revoked, match limit with Some n => n <=? Z.of_nat (length revoked) | None => false end)
    end.

Definition revoke_speculative_attempts (worker_id : option string) (max_count : option Z) (reason : pyval)
    : ST FragmentExecution (list RevokedAttempt) :=
  let limit := Z.max 0 <$> max_count in
  if bool_decide (limit = Some 0) then sret []
  else
    releasing (
      let! x := sget in
      let! acc := sfold (od_keys x.1.(fe_partitions)) (fun acc pid =>
        let! p := with_fe (get_partition pid) in
        if acc.2 || p.(p_finished) || p.(p_failed) || negb (ExecutionClass.is_speculative p.(p_execution_class))
        then sret acc
        else
          sfold (py_sorted (fun a b => a.(ra_attempt_id).(attempt_id) <=? b.(ra_attempt_id).(attempt_id))
                   (od_values p.(p_running_attempts)))
            (revoke_running pid worker_id limit reason) acc) ([], false) in
      sret acc.1).

Definition mark_worker_failed (worker_id : string) (error : pyval) (retryable : bool)
    (retryable_by_partition_id : option (list (Z * bool))) (schedule_retries : bool)
    : ST FragmentExecution (list ScheduledAttempt) :=
  let! s := sget in
  let failed_attempts := flat_map (fun p =>
      map (fun r => (r.(ra_attempt_id), p.(p_task_id).(partition_id)))
        (List.filter (fun r => bool_decide (r.(ra_worker_id) = Some worker_id))
           (od_values p.(p_running_attempts)))) (od_values s.(fe_partitions)) in
  sfold failed_attempts (fun scheduled '(attempt, pid) =>
    let partition_retryable := match retryable_by_partition_id with
                               | Some m => retryable && od_get_default pid false m
                               | None => retryable
                               end in
    let! retry := task_failed (RObj attempt) error partition_retryable schedule_retries in
    sret (push scheduled retry)) [].

(** Cancel a running attempt that was not selected: the first failure of a
    cancellation is kept and raised at the end of [task_finished]. *)
Definition cancel_loser (sink : option ExchangeSinkHandle) (cancel_failure : option exn) (loser : RunningAttempt)
    : ST (FragmentExecution * Releases) (option exn) :=
  let! cancel_failure :=
    scatch (let! _ := with_fe (cancel_running loser) in sret cancel_failure) (fun _ => true)
      (fun e => sret (match cancel_failure with None => Some e | Some e => Some e end)) in
  let! _ := with_fe (exchange_sink_aborted sink loser.(ra_attempt_id).(attempt_id)) in
  let! _ := add_release TerminalRelease loser.(ra_remote_handle) loser.(ra_attempt_id) in
  sret cancel_failure.

Definition task_finished (id : id_ref FteTaskAttemptId) (output_stats : pyval) : ST FragmentExecution bool :=
  let! attempt := slift (TaskAttemptId.coerce id) in
  let pid := attempt.(task_id).(partition_id) in
  let! (changed, cancel_failure) := releasing (
    let! p := with_fe (get_partition pid) in
    let running := od_get attempt.(attempt_id) p.(p_running_attempts) in
    let unselected := List.filter
      (fun r => negb (bool_decide (r.(ra_attempt_id).(attempt_id) = attempt.(attempt_id))))
      (od_values p.(p_running_attempts)) in
    let! changed := with_fe (on_partition pid (Partition.mark_attempt_finished (RObj attempt) output_stats)) in
    if changed : bool then
      let! _ := match running with
                | Some r => add_release ResultReady r.(ra_remote_handle) attempt
                | None => sret tt
                end in
      let! cancel_failure := sfold unselected (cancel_loser p.(p_sink_handle)) None in
      let! _ := with_fe (exchange_sink_finished p.(p_sink_handle) attempt.(attempt_id)) in
      let! _ := with_fe (on_storage (Store.remove (RObj p.(p_task_id)))) in
      sret (true, cancel_failure)
    else sret (false, None)) in
  match cancel_failure with
  | Some e => sraise e
  | None => sret changed
  end.

(** ** Worker statuses *)

(** [_TASK_STATUS_PROGRESS_KEYS] *)
Definition task_status_progress_keys : list string :=
  ["submitted_split_count"; "queued_split_count"; "consumed_split_count"; "completed_split_count";
   "submitted_split_count_by_source"; "queued_split_count_by_source";
   "consumed_split_count_by_source"; "completed_split_count_by_source";
   "submitted_split_bytes"; "submitted_split_bytes_by_source";
   "queued_split_bytes"; "queued_split_bytes_by_source";
   "consumed_split_bytes"; "consumed_split_bytes_by_source";
   "completed_split_bytes"; "completed_split_bytes_by_source";
   "queue_wait_ms"; "queue_wait_ms_by_source";
   "submitted_input_rows"; "submitted_input_rows_by_source";
   "submitted_input_bytes"; "submitted_input_bytes_by_source";
   "consumed_input_rows"; "consumed_input_rows_by_source";
   "consumed_input_bytes"; "consumed_input_bytes_by_source";
   "completed_input_rows"; "completed_input_rows_by_source";
   "completed_input_bytes"; "completed_input_bytes_by_source";
   "udf_running_task_count"; "udf_queued_task_count"; "udf_max_running_tasks";
   "udf_completed_rows"; "udf_completed_bytes"; "udf_emitted_rows"; "udf_emitted_bytes"].

(** [_task_status_progress_stats] *)
Definition task_status_progress_stats (status : list (pyval * pyval)) : list (pyval * pyval) :=
  pd_lit (flat_map (fun k => match pd_get k status with PNone => [] | v => [(k, v)] end)
            task_status_progress_keys).

(** [_attempt_id_from_status] *)
Definition attempt_id_from_status (status : list (pyval * pyval)) : result FteTaskAttemptId :=
  match pd_get "task_id" status with
  | PNone =>
      match pd_get "task_id_string" status with
      | PNone => TaskAttemptId.coerce (RVal (PDict status))
      | v => TaskAttemptId.parse (py_str v)
      end
  | v => TaskAttemptId.coerce (RVal v)
  end.

(** [_task_state_from_status] *)
Definition task_state_from_status (status : list (pyval * pyval)) : result FteTaskState :=
  match pd_get "state" status with
  | PEnum c v => if String.eqb c "FteTaskState" then task_state_of_value v
                 else task_state_of_value (py_str (PEnum c v))
  | v => task_state_of_value (py_str v)
  end.

(** [_output_stats_from_status] *)
Definition output_stats_from_status (status : list (pyval * pyval)) : pyval :=
  let output_stats := match pd_get "spooling_output_stats" status with
                      | PNone => pd_get "output_stats" status
                      | v => v
                      end in
  match pd_get "task_stats" status with
  | PDict t =>
      match output_stats with
      | PDict o => PDict (pd_update t o)
      | PNone => PDict t
      | o => o
      end
  | _ => output_stats
  end.

(** The statistics a status reports on a running attempt. *)
Definition status_task_stats (status : list (pyval * pyval)) : list (pyval * pyval) :=
  match pd_get "task_stats" status with
  | PDict raw => pd_update raw (task_status_progress_stats status)
  | _ => task_status_progress_stats status
  end.

Definition handle_task_status (status : list (pyval * pyval)) (retryable schedule_retry : bool)
    : ST FragmentExecution (option ScheduledAttempt) :=
  if String.eqb (upper (py_str (default (PStr "") (pd_find "state" status)))) "UNKNOWN" then sret None
  else
    let! attempt := slift (attempt_id_from_status status) in
    let! state := slift (task_state_from_status status) in
    let pid := attempt.(task_id).(partition_id) in
    let! _ :=
      match status_task_stats status with
      | [] => sret tt
      | stats =>
          let! s := sget in
          match od_get pid s.(fe_partitions) with
          | None => sret tt
          | Some _ =>
              let! _ := on_partition pid (Partition.update_running_task_stats (RObj attempt) (PDict stats)) in
              sret tt
          end
      end in
    match state with
    | FINISHED =>
        let output_stats := output_stats_from_status status in
        let! p := get_partition pid in
        let! s := sget in
        let! d := slift (Store.deref s.(fe_storage) p.(p_descriptor)) in
        let! missing := slift (if is_none output_stats then partition_requires_finish_output_stats s p d
                               else Ok false) in
        if missing : bool then
          task_failed (RObj attempt) (missing_output_stats_failure attempt) retryable schedule_retry
        else
          let! _ := task_finished (RObj attempt) output_stats in sret None
    | FAILED =>
        task_failed (RObj attempt) (py_or (pd_get "failure" status) (PDict status)) retryable schedule_retry
    | CANCELED | ABORTED =>
        task_failed (RObj attempt) (py_or (pd_get "failure" status) (PDict status)) false schedule_retry
    | PLANNED | QUEUED | RUNNING => sret None
    end.

(** [query_status_snapshot] *)
Definition partition_snapshot (pid : Z) (p : FteTaskPartition) : pyval :=
  PDict (pd_lit
    [("partition_id", PInt pid); ("running", PBool (Partition.has_running p));
     ("failed", PBool p.(p_failed)); ("finished", PBool p.(p_finished));
     ("selected_attempt", match p.(p_selected_attempt) with Some n => PInt n | None => PNone end);
     ("task_id", PStr (TaskId.to_str p.(p_task_id))); ("failures", PList p.(p_failures))]).

Definition query_status_snapshot (s : FragmentExecution) : pyval :=
  PDict (pd_lit
    [("failed", PBool s.(fe_failed));
     ("partitions", PList (map (fun '(pid, p) => partition_snapshot pid p)
        (py_sorted (fun a b => a.1 <=? b.1) s.(fe_partitions))))]).

(** ** Command outcomes *)

Definition zsum (l : list Z) : Z := fold_right Z.add 0 l.

Definition handle_worker_command_success (c : FteWorkerCommand) : ST FragmentExecution unit :=
  match c with
  | FteCreateTaskCommand h _ request =>
      let! _ := call_on h.(cmd_worker) (fun w => CallTaskStarted w h.(cmd_attempt_id) request) in sret tt
  | FteAddSplitsCommand h _ splits =>
      let! _ := call_on h.(cmd_worker) (fun w =>
        CallSplitsAdded w h.(cmd_attempt_id) (Z.of_nat (length splits))) in
      let! _ := call_on h.(cmd_worker) (fun w =>
        CallSplitBytesAdded w h.(cmd_attempt_id) (zsum (map estimated_payload_bytes splits))) in
      sret tt
  | FteNoMoreSplitsCommand _ _ | FteTaskUpdateCommand _ _ => sret tt
  end.

Definition worker_control_failure_for_command (c : FteWorkerCommand) : exn :=
  WorkerControlFailure (default "" (command_head c).(cmd_worker_id))
    match c with
    | FteCreateTaskCommand _ _ _ => "fte_create_task"
    | FteAddSplitsCommand _ _ _ => "fte_add_splits"
    | FteNoMoreSplitsCommand _ _ => "fte_no_more_splits"
    | FteTaskUpdateCommand _ _ => "fte_update_task"
    end.

End WithEnv.

End Execution.
