(* ===== verification/ExecutionCommands.v ===== *)
(** * Batching and coalescing of partition updates

    Correctness of [_split_update_batches] and [_coalesce_partition_updates]:
    the two places of [FteFragmentExecution] that regroup splits on their way
    to the workers. *)

From S2P Require Import Prelude PyStr PyVal FteTypes FteState SplitAssigner Execution.
From S2P Require Import Exchange OutputBuffers Descriptor DescriptorStorage Partition.

#[local] Open Scope string_scope.
#[local] Open Scope list_scope.
#[local] Open Scope Z_scope.

Import Execution.

(** ** Batches *)

Definition split_bytes (s : FteSplit) : Z := Z.max 1 (estimated_payload_bytes (PDict (Split.to_dict s))).

(** A batch respects both limits, unless it is a single split that is too
    large on its own. *)
Definition batch_ok (max_splits max_bytes : Z) (b : list FteSplit) : Prop :=
  b <> [] /\ Z.of_nat (length b) <= max_splits /\
  (zsum (map split_bytes b) <= max_bytes \/ length b = 1%nat).

Lemma zsum_app l1 l2 : zsum (l1 ++ l2) = zsum l1 + zsum l2.
Proof. induction l1; simpl; lia. Qed.

Lemma split_batches_ok max_splits max_bytes splits current :
  1 <= max_splits -> (current = [] \/ batch_ok max_splits max_bytes current) ->
  Forall (batch_ok max_splits max_bytes)
    (split_batches max_splits max_bytes current (zsum (map split_bytes current)) splits).
Proof.
  intros Hm. revert current. induction splits as [|s splits IH]; intros current Hc;
    cbn [split_batches].
  { destruct current; [constructor|]. destruct Hc as [?|?]; [done|]. by apply Forall_singleton. }
  fold (split_bytes s). cbv zeta.
  assert (batch_ok max_splits max_bytes [s]) as Hs.
  { split_and!; [done|cbn [length]; lia|by right]. }
  destruct (negb _ && _) eqn:Eg.
  - constructor; [|replace (split_bytes s) with (zsum (map split_bytes [s])) by (cbn [map zsum fold_right]; lia);
                    apply IH; by right].
    destruct Hc as [->|?]; [done|done].
  - replace (zsum (map split_bytes current) + split_bytes s) with (zsum (map split_bytes (current ++ [s]))).
    2: { rewrite map_app, zsum_app. cbn [map zsum fold_right]. lia. }
    apply IH. right. destruct current as [|c current]; [done|].
    simpl negb in Eg. apply orb_false_iff in Eg as [E1 E2].
    apply Z.leb_gt in E1. apply Z.ltb_ge in E2. split_and!.
    + by destruct current.
    + rewrite length_app. cbn [length] in *. lia.
    + left. rewrite map_app, zsum_app. cbn [map zsum fold_right] in *. lia.
Qed.

Lemma split_batches_concat max_splits max_bytes splits current bytes :
  concat (split_batches max_splits max_bytes current bytes splits) = current ++ splits.
Proof.
  revert current bytes. induction splits as [|s splits IH]; intros current bytes; simpl.
  - by destruct current; simpl; rewrite ?app_nil_r.
  - destruct (negb _ && _); simpl; rewrite IH; [done|by rewrite <- app_assoc].
Qed.

(** The batches of an update carry exactly its splits, each once and in
    order; no batch is empty, no batch has more splits than the configured
    maximum, and a batch exceeds the payload limit only when it is a single
    split that is too large by itself.  This holds for every setting of the
    two environment variables. *)
Theorem split_update_batches_spec env splits :
  concat (split_update_batches env splits) = splits /\
  Forall (batch_ok (fte_task_update_max_splits env.(env_max_splits))
            (fte_task_update_max_payload_bytes env.(env_max_payload_bytes)))
    (split_update_batches env splits).
Proof.
  unfold split_update_batches. split; [apply split_batches_concat|].
  apply (split_batches_ok _ _ splits []); [|by left]. by apply env_int_lower.
Qed.

(** ** Coalescing *)

Definition update_key (u : PartitionUpdate) : Z * string := (u.(pu_partition_id), u.(pu_source_node_id)).

(** The updates of one partition and source. *)
Definition with_key (k : Z * string) (us : list PartitionUpdate) : list PartitionUpdate :=
  List.filter (fun u => bool_decide (update_key u = k)) us.

Definition key_splits (k : Z * string) (us : list PartitionUpdate) : list FteSplit :=
  concat (map pu_splits (with_key k us)).
Definition key_no_more (k : Z * string) (us : list PartitionUpdate) : bool :=
  existsb pu_no_more_splits (with_key k us).
Definition key_ready (k : Z * string) (us : list PartitionUpdate) : bool :=
  existsb pu_ready_for_scheduling (with_key k us).

(** [u] stands for all the updates [us] of its key. *)
Definition summarises (us : list PartitionUpdate) (k : Z * string) (u : PartitionUpdate) : Prop :=
  update_key u = k /\ with_key k us <> [] /\
  u.(pu_splits) = key_splits k us /\ u.(pu_no_more_splits) = key_no_more k us /\
  u.(pu_ready_for_scheduling) = key_ready k us.

Definition coalesced (us : list PartitionUpdate) (acc : list (Z * string * PartitionUpdate)) : Prop :=
  od_wf acc /\ forall k, match od_get k acc with
                         | Some u => summarises us k u
                         | None => with_key k us = []
                         end.

Lemma with_key_snoc k us u :
  with_key k (us ++ [u]) = with_key k us ++ (if bool_decide (update_key u = k) then [u] else []).
Proof. unfold with_key. rewrite List.filter_app. simpl. by destruct (bool_decide _). Qed.

Lemma summarises_other us u k v :
  update_key u <> k -> summarises us k v -> summarises (us ++ [u]) k v.
Proof.
  unfold summarises, key_splits, key_no_more, key_ready. intros Hne.
  by rewrite with_key_snoc, bool_decide_eq_false_2, app_nil_r by done.
Qed.

Lemma coalesce_one_ok us acc u acc' :
  coalesced us acc -> coalesce_one acc u = Ok acc' -> coalesced (us ++ [u]) acc'.
Proof.
  intros [Hw Hc] H. unfold coalesce_one in H. fold (update_key u) in H.
  pose proof (Hc (update_key u)) as Hu. destruct (od_get (update_key u) acc) as [e|] eqn:Eg.
  - inv_ok. unfold new_partition_update in H1. inv_ok.
    destruct Hu as (Hk & Hne & Hs & Hn & Hr). split; [by apply od_wf_set|]. intros k.
    rewrite od_get_set. case_decide as Hd.
    + subst k. unfold summarises, key_splits, key_no_more, key_ready.
      rewrite with_key_snoc, bool_decide_eq_true_2 by done. rewrite map_app, concat_app, !existsb_app. simpl.
      rewrite app_nil_r, !orb_false_r. rewrite Hs, Hn, Hr. split_and!; try done. by destruct (with_key _ us).
    + specialize (Hc k). destruct (od_get k acc); [by apply summarises_other|].
      rewrite with_key_snoc, bool_decide_eq_false_2 by done. by rewrite Hc.
  - inv_ok. split; [by apply od_wf_set|]. intros k. rewrite od_get_set. case_decide as Hd.
    + subst k. unfold summarises, key_splits, key_no_more, key_ready.
      rewrite with_key_snoc, bool_decide_eq_true_2, Hu by done. simpl.
      rewrite app_nil_r, !orb_false_r. done.
    + specialize (Hc k). destruct (od_get k acc); [by apply summarises_other|].
      rewrite with_key_snoc, bool_decide_eq_false_2 by done. by rewrite Hc.
Qed.

Lemma coalesce_fold us rest acc acc' :
  coalesced us acc -> rfoldM coalesce_one acc rest = Ok acc' -> coalesced (us ++ rest) acc'.
Proof.
  revert us acc. induction rest as [|u rest IH]; intros us acc Hc H; simpl in H; inv_ok.
  - by rewrite app_nil_r.
  - rewrite cons_middle, app_assoc. eapply IH; [|exact H]. by eapply coalesce_one_ok.
Qed.

Lemma od_values_keyed (acc : list (Z * string * PartitionUpdate)) :
  od_wf acc -> (forall k u, od_get k acc = Some u -> update_key u = k) ->
  map update_key (od_values acc) = od_keys acc.
Proof.
  intros Hw Hk. unfold od_values, od_keys. rewrite map_map. apply map_ext_in. intros [k u] Hin. simpl.
  apply Hk, od_elem_get; [done|]. by apply list_elem_of_In.
Qed.

(** Coalescing keeps one update per partition and source.  It carries,
    in order, exactly the splits of all the updates for that partition and
    source, ends the source iff one of them did, and asks for scheduling iff
    one of them did; no partition or source is dropped or invented. *)
Theorem coalesce_spec us res :
  coalesce_partition_updates us = Ok res ->
  NoDup (map update_key res) /\
  (forall u, u ∈ res -> summarises us (update_key u) u) /\
  (forall u, u ∈ us -> exists v, v ∈ res /\ update_key v = update_key u).
Proof.
  unfold coalesce_partition_updates. intros H. inv_ok.
  assert (coalesced us a) as [Hw Hc].
  { apply (coalesce_fold [] us [] a); [|done]. split; [constructor|done]. }
  assert (forall k u, od_get k a = Some u -> update_key u = k) as Hk.
  { intros k u E. specialize (Hc k). rewrite E in Hc. by destruct Hc. }
  split_and!.
  - by rewrite od_values_keyed.
  - intros u Hu. unfold od_values in Hu. apply list_elem_of_fmap in Hu as ([k v] & -> & Hin). simpl.
    apply od_elem_get in Hin; [|done]. specialize (Hc k). rewrite Hin in Hc. by rewrite (Hk _ _ Hin).
  - intros u Hu. specialize (Hc (update_key u)). destruct (od_get _ a) as [v|] eqn:E.
    + exists v. split; [|by apply Hk]. unfold od_values. apply list_elem_of_fmap.
      exists (update_key u, v). split; [done|]. by apply od_get_elem.
    + exfalso. assert (u ∈ with_key (update_key u) us) as Hin.
      { unfold with_key. apply list_elem_of_In, filter_In. split; [by apply list_elem_of_In|].
        by apply bool_decide_eq_true. }
      rewrite Hc in Hin. by apply elem_of_nil in Hin.
Qed.

Definition demo_split (n : Z) : FteSplit := MkFteSplit "scan" n "file" PNone 0 None [] true None.

Definition demo_updates : list PartitionUpdate :=
  [MkPartitionUpdate 0 "scan" [demo_split 0] false true; MkPartitionUpdate 1 "scan" [demo_split 1] false true;
   MkPartitionUpdate 0 "scan" [demo_split 2] true true].

Lemma coalesce_spec_witness :
  coalesce_partition_updates demo_updates =
    Ok [MkPartitionUpdate 0 "scan" [demo_split 0; demo_split 2] true true;
        MkPartitionUpdate 1 "scan" [demo_split 1] false true] /\
  NoDup (map update_key [MkPartitionUpdate 0 "scan" [demo_split 0; demo_split 2] true true;
                         MkPartitionUpdate 1 "scan" [demo_split 1] false true]).
Proof.
  refine ((fun E => conj E (proj1 (coalesce_spec demo_updates _ E))) _). vm_compute. reflexivity.
Defined.
