(* ===== verification/ExecutionInv.v ===== *)
(** * The invariant of a fragment execution

    [fe_inv] ties the partitions of an execution to their descriptors, to the
    failure flag and to the exchange; [fe_rel] adds how partitions may move
    between two moments.  The lemmas here show that each access to a part of
    the state keeps them. *)

From S2P Require Import Prelude PyStr PyVal FteTypes FteState SplitAssigner Exchange ExchangeProofs.
From S2P Require Import OutputBuffers Descriptor DescriptorProofs DescriptorStorage Partition PartitionProofs.
From S2P Require Import Execution.

#[local] Open Scope string_scope.
#[local] Open Scope list_scope.
#[local] Open Scope Z_scope.

Import Execution.

Lemma wp_bind_ok {S A B} E (a : A) (k : A -> ST S B) (Q : B -> S -> Prop) s :
  wp (k a) Q E s -> wp (sbind (slift (Ok a)) k) Q E s.
Proof. done. Qed.

(** ** Exchange operations, as the execution uses them *)

Lemma add_sink_grows p t :
  wp (ExchangeTracker.add_sink p)
    (fun _ t' => forall q h, t.(tr_sinks) !! q = Some h -> t'.(tr_sinks) !! q = Some h) (fun _ t' => t' = t) t.
Proof.
  unfold ExchangeTracker.add_sink. do 2 wp_step; [|done]. apply check_non_negative_ok in H as [-> Hp].
  do 2 wp_step. wp_step; [by wp_step|]. do 2 wp_step; [|done]. do 3 wp_step. intros q h Hq. cbn.
  rewrite lookup_insert_ne; [done|]. congruence.
Qed.

Lemma instantiate_sink_same h n t :
  wp (ExchangeTracker.instantiate_sink h n) (fun _ t' => t' = t) (fun _ t' => t' = t) t.
Proof.
  unfold ExchangeTracker.instantiate_sink, ExchangeTracker.require_sink. wp_run; done.
Qed.

(** The exchange accepts the finished attempt of a sink it knows. *)
Lemma sink_finished_total h a t :
  tracker_inv t -> t.(tr_sinks) !! h.(sh_partition_id) = Some h -> 0 <= a ->
  wp (ExchangeTracker.sink_finished h a) (fun _ _ => True) (fun _ _ => False) t.
Proof.
  intros [I1 I2 I3 I4 I5] Hh Ha. destruct (I2 _ _ Hh) as [_ Hp].
  unfold ExchangeTracker.sink_finished, ExchangeTracker.require_sink.
  do 3 wp_step. wp_step; [|by apply bool_decide_eq_true in H].
  wp_step. wp_step; [|by rewrite check_non_negative_id in H0]. apply check_non_negative_ok in H0 as [-> _].
  unfold ExchangeTracker.on_selector, OutputSelector.record_finished. do 2 wp_step.
  rewrite (check_non_negative_id _ (sh_partition_id h)) by done. apply wp_bind_ok.
  rewrite (check_non_negative_id _ a) by done. apply wp_bind_ok. do 2 wp_step.
  destruct (sel_final (tr_selector t)) eqn:Ef.
  - destruct (I5 eq_refl) as (Er & _ & _). do 2 wp_step; [by wp_run|].
    rewrite Er in H0. apply negb_true_iff, bool_decide_eq_false in H0. apply H0. by apply elem_of_dom_2 in Hh.
  - by wp_run.
Qed.

(** ** The invariant *)

Record part_ok (s : FragmentExecution) (pid : Z) (p : FteTaskPartition) : Prop := {
  pk_inv : part_inv p;
  pk_pid : 0 <= pid;
  pk_task : p.(p_task_id) = MkFteTaskId s.(fe_query_id) s.(fe_fragment_execution_id) pid;
  pk_max : p.(p_max_attempts) = s.(fe_max_attempts);
  pk_descriptor : exists d, s.(fe_storage).(st_heap) !! p.(p_descriptor) = Some d /\
    d.(d_task_id) = p.(p_task_id) /\ desc_inv d;
  pk_sink : forall t, s.(fe_exchange) = Some t ->
    exists h, p.(p_sink_handle) = Some h /\ t.(tr_sinks) !! pid = Some h;
  pk_failed : p.(p_failed) = true -> s.(fe_failed) = true;
}.

(** The attempt of a partition that the execution has selected. *)
Definition selected_of (s : FragmentExecution) (pid : Z) : option Z :=
  od_get pid s.(fe_partitions) ≫= p_selected_attempt.

Record fe_inv (s : FragmentExecution) : Prop := {
  fi_query : strip s.(fe_query_id) = s.(fe_query_id) /\ s.(fe_query_id) <> "";
  fi_fragment : 0 <= s.(fe_fragment_execution_id);
  fi_max : 0 < s.(fe_max_attempts);
  fi_wf : od_wf s.(fe_partitions);
  fi_parts : forall pid p, od_get pid s.(fe_partitions) = Some p -> part_ok s pid p;
  fi_refs : forall pid1 pid2 p1 p2, od_get pid1 s.(fe_partitions) = Some p1 ->
    od_get pid2 s.(fe_partitions) = Some p2 -> p1.(p_descriptor) = p2.(p_descriptor) -> pid1 = pid2;
  fi_failed : s.(fe_failed) = true ->
    exists pid p, od_get pid s.(fe_partitions) = Some p /\ p.(p_failed) = true;
  fi_exchange : forall t, s.(fe_exchange) = Some t ->
    tracker_inv t /\ forall pid, t.(tr_selected) !! pid = selected_of s pid;
}.

(** From [s0] to [s]: the invariant holds, and every partition of [s0] is
    still there and has only advanced. *)
Record fe_rel (s0 s : FragmentExecution) : Prop := {
  fr_inv : fe_inv s;
  fr_query : s.(fe_query_id) = s0.(fe_query_id);
  fr_fragment : s.(fe_fragment_execution_id) = s0.(fe_fragment_execution_id);
  fr_max : s.(fe_max_attempts) = s0.(fe_max_attempts);
  fr_parts : forall pid p0, od_get pid s0.(fe_partitions) = Some p0 ->
    exists p tr, od_get pid s.(fe_partitions) = Some p /\ advance p0 tr p;
  fr_failed : s0.(fe_failed) = true -> s.(fe_failed) = true;
  fr_exchange : is_Some s0.(fe_exchange) <-> is_Some s.(fe_exchange);
}.

Lemma fe_rel_refl s : fe_inv s -> fe_rel s s.
Proof.
  intros Hi. split; try done. intros pid p Hp. exists p, []. split; [done|].
  apply advance_refl, (pk_inv s pid). by apply (fi_parts s Hi).
Qed.

Lemma fe_rel_trans s1 s2 s3 : fe_rel s1 s2 -> fe_rel s2 s3 -> fe_rel s1 s3.
Proof.
  intros [] []. split; try congruence; try done; auto.
  - intros pid p0 H. destruct (fr_parts0 _ _ H) as (p1 & t1 & H1 & A1).
    destruct (fr_parts1 _ _ H1) as (p2 & t2 & H2 & A2). exists p2, (t1 ++ t2).
    split; [done|]. by eapply advance_trans.
  - by rewrite fr_exchange0.
Qed.

(** An operation that keeps the relation to every earlier state. *)
Definition stable {A} (m : ST FragmentExecution A) : Prop := forall s0, preserves (fe_rel s0) m.

Lemma stable_intro {A} (m : ST FragmentExecution A) :
  (forall s, fe_inv s -> fe_rel s (m s).2) -> stable m.
Proof. intros H s0 s Hs. eapply fe_rel_trans; [done|]. apply H, Hs. Qed.

Lemma stable_wp {A} (m : ST FragmentExecution A) :
  (forall s, fe_inv s -> wp m (fun _ => fe_rel s) (fun _ => fe_rel s) s) -> stable m.
Proof.
  intros H. apply stable_intro. intros s Hs. specialize (H s Hs). unfold wp in H.
  by destruct (m s) as [[a|e] s1].
Qed.

Lemma stable_use {A} (m : ST FragmentExecution A) s0 s :
  stable m -> fe_rel s0 s -> wp m (fun _ => fe_rel s0) (fun _ => fe_rel s0) s.
Proof. intros H Hs. apply preserves_wp; [apply H|done]. Qed.

(** ** Changes outside the partitions *)

(** [s'] has the partitions of [s], and at least its descriptors. *)
Record same_core (s s' : FragmentExecution) : Prop := {
  sc_query : s'.(fe_query_id) = s.(fe_query_id);
  sc_fragment : s'.(fe_fragment_execution_id) = s.(fe_fragment_execution_id);
  sc_max : s'.(fe_max_attempts) = s.(fe_max_attempts);
  sc_parts : s'.(fe_partitions) = s.(fe_partitions);
  sc_failed : s'.(fe_failed) = s.(fe_failed);
  sc_heap : forall pid p d, od_get pid s.(fe_partitions) = Some p ->
    s.(fe_storage).(st_heap) !! p.(p_descriptor) = Some d -> desc_inv d ->
    exists d', s'.(fe_storage).(st_heap) !! p.(p_descriptor) = Some d' /\ d'.(d_task_id) = d.(d_task_id) /\ desc_inv d';
  sc_exchange : match s.(fe_exchange), s'.(fe_exchange) with
                | None, None => True
                | Some t, Some t' => (tracker_inv t -> tracker_inv t') /\ t'.(tr_selected) = t.(tr_selected) /\
                    forall q h, t.(tr_sinks) !! q = Some h -> t'.(tr_sinks) !! q = Some h
                | _, _ => False
                end;
}.

Lemma same_core_rel s s' : fe_inv s -> same_core s s' -> fe_rel s s'.
Proof.
  intros Hi C. pose proof (fe_rel_refl s Hi) as R. destruct C, R, Hi.
  split; try congruence.
  - split; try congruence.
    + rewrite sc_parts0. intros pid p Hp. destruct (fi_parts0 pid p Hp). split; try congruence.
      * destruct pk_descriptor0 as (d & E1 & E2 & E3). destruct (sc_heap0 _ _ _ Hp E1 E3) as (d' & ? & ? & ?).
        exists d'. split_and!; congruence.
      * intros t' Et'. rewrite Et' in sc_exchange0. destruct (fe_exchange s) as [t|]; [|done].
        destruct (pk_sink0 t eq_refl) as (h & ? & Hh). exists h. split; [done|]. by apply sc_exchange0.
      * by rewrite sc_failed0.
    + by rewrite sc_parts0.
    + by rewrite sc_parts0, sc_failed0.
    + intros t' Et'. rewrite Et' in sc_exchange0. destruct (fe_exchange s) as [t|]; [|done].
      destruct (fi_exchange0 t eq_refl) as (? & Hs). destruct sc_exchange0 as (Hinv & -> & _). split; [auto|].
      intros pid. rewrite Hs. unfold selected_of. by rewrite sc_parts0.
  - rewrite sc_parts0. intros pid p0 Hp. destruct (fr_parts0 pid p0 Hp) as (p & tr & ? & ?). by exists p, tr.
  - by destruct (fe_exchange s), (fe_exchange s').
Qed.

Lemma same_core_eq s s' :
  s'.(fe_query_id) = s.(fe_query_id) -> s'.(fe_fragment_execution_id) = s.(fe_fragment_execution_id) ->
  s'.(fe_max_attempts) = s.(fe_max_attempts) -> s'.(fe_partitions) = s.(fe_partitions) ->
  s'.(fe_failed) = s.(fe_failed) -> s'.(fe_exchange) = s.(fe_exchange) ->
  s.(fe_storage).(st_heap) `prefix_of` s'.(fe_storage).(st_heap) -> same_core s s'.
Proof.
  intros E1 E2 E3 E4 E5 E6 [l Hl]. split; try done.
  - intros pid p d _ Hd Hi. exists d. split; [|done]. rewrite Hl. by apply lookup_app_l_Some.
  - rewrite E6. by destruct (fe_exchange s).
Qed.

Lemma quiet_modify f :
  (forall s, same_core s (f s)) -> stable (smodify f).
Proof. intros H. apply stable_intro. intros s Hs. by apply same_core_rel. Qed.

(** Solves [same_core] for an update of fields it does not mention. *)
Ltac same_core_done := intros ?; apply same_core_eq; try reflexivity; try done.

(** ** Composition *)

Lemma stable_ret {A} (a : A) : stable (sret a).
Proof. intros s0. apply preserves_ret. Qed.
Lemma stable_raise {A} e : stable (@sraise _ A e).
Proof. intros s0. apply preserves_raise. Qed.
Lemma stable_get : stable sget.
Proof. intros s0. apply preserves_get. Qed.
Lemma stable_gets {A} (f : FragmentExecution -> A) : stable (sgets f).
Proof. intros s0. apply preserves_gets. Qed.
Lemma stable_lift {A} (m : result A) : stable (slift m).
Proof. intros s0. apply preserves_lift. Qed.
Lemma stable_raise_if b e : stable (sraise_if b e).
Proof. intros s0. apply preserves_raise_if. Qed.
Lemma stable_bind {A B} (m : ST _ A) (k : A -> ST _ B) : stable m -> (forall a, stable (k a)) -> stable (sbind m k).
Proof. intros Hm Hk s0. apply preserves_bind; [apply Hm|intros a; apply Hk]. Qed.
Lemma stable_for {A} (l : list A) body : (forall x, stable (body x)) -> stable (sfor l body).
Proof. intros H s0. apply preserves_for. intros x. apply H. Qed.
Lemma stable_fold {A B} (l : list A) (body : B -> A -> ST _ B) b :
  (forall b x, stable (body b x)) -> stable (sfold l body b).
Proof. intros H s0. apply preserves_fold. intros ? ?. apply H. Qed.
Lemma stable_catch {A} (m : ST _ A) p h : stable m -> (forall e, stable (h e)) -> stable (scatch m p h).
Proof. intros Hm Hh s0. apply preserves_catch; [apply Hm|intros e; apply Hh]. Qed.
Lemma stable_finally {A} (m : ST _ A) f : stable m -> (forall s, same_core s (f s)) -> stable (sfinally m f).
Proof.
  intros Hm Hf s0. apply preserves_finally; [apply Hm|]. intros s Hs.
  eapply fe_rel_trans; [done|]. apply same_core_rel; [apply Hs|apply Hf].
Qed.

Create HintDb stable.

(** Follow the structure of a program down to operations known to be stable. *)
Ltac solve_stable :=
  repeat first
    [ apply stable_ret | apply stable_raise | apply stable_get | apply stable_gets
    | apply stable_lift | apply stable_raise_if
    | solve [eauto with stable]
    | apply stable_bind; [|intros ?]
    | apply stable_for; intros ?
    | apply stable_fold; intros ? ?
    | apply stable_catch; [|intros ?]
    | match goal with
      | |- stable (if ?b then _ else _) => destruct b
      | |- stable (match ?x with _ => _ end) => destruct x
      end ].

Lemma record_command_stable c : stable (record_worker_command c).
Proof. apply quiet_modify. intros s. destruct (fe_current_worker_commands s); apply same_core_eq; done. Qed.

Lemma pop_commands_stable : stable pop_worker_commands.
Proof. unfold pop_worker_commands. solve_stable. apply quiet_modify. same_core_done. Qed.

Lemma current_commands_stable : stable current_commands.
Proof. apply stable_gets. Qed.

Lemma collecting_stable {A} (m : ST FragmentExecution A) : stable m -> stable (collecting_commands m).
Proof.
  intros Hm. unfold collecting_commands. solve_stable.
  - apply quiet_modify. same_core_done.
  - apply stable_finally; [done|]. same_core_done.
Qed.

Lemma get_partition_stable pid : stable (get_partition pid).
Proof. unfold get_partition. solve_stable. Qed.

#[export] Hint Resolve record_command_stable pop_commands_stable current_commands_stable
  get_partition_stable : stable.

(** ** The storage *)

Lemma remove_spill_heap key st : (Store.remove_spill_file key st).(st_heap) = st.(st_heap).
Proof. unfold Store.remove_spill_file. by destruct (st_spill_paths st !! key). Qed.

Lemma spill_heap key st : (Store.spill_descriptor key st).(st_heap) = st.(st_heap).
Proof. unfold Store.spill_descriptor. by repeat case_match. Qed.

Lemma enforce_heap st : (Store.enforce_memory_quota st).(st_heap) = st.(st_heap).
Proof.
  unfold Store.enforce_memory_quota. destruct (st_spill_dir st); [|done]. destruct (_ <=? _); [done|].
  generalize (length (st_descriptors st)) as n. intros n. revert st.
  induction n as [|n IH]; intros st; simpl; [done|].
  destruct (_ <? _); [|done]. destruct (st_descriptors st) as [|[k r] l]; [done|]. by rewrite IH, spill_heap.
Qed.

Lemma put_heap task r st :
  wp (Store.put task r) (fun _ st' => st'.(st_heap) = st.(st_heap)) (fun _ st' => st' = st) st.
Proof.
  unfold Store.put. wp_run; try done. by rewrite enforce_heap, remove_spill_heap.
Qed.

Lemma load_heap key st :
  wp (Store.load_spilled_descriptor key false)
    (fun _ st' => st.(st_heap) `prefix_of` st'.(st_heap)) (fun _ _ => False) st.
Proof. unfold Store.load_spilled_descriptor. wp_run; try done. by eexists. Qed.

Lemma remove_total task st :
  wp (Store.remove (RObj task)) (fun _ st' => st.(st_heap) `prefix_of` st'.(st_heap)) (fun _ _ => False) st.
Proof.
  unfold Store.remove. do 2 wp_step; [injection H as <-|done]. do 4 wp_step.
  apply wp_bind. apply (wp_mono (fun _ _ => False) _ (fun _ st' => st.(st_heap) `prefix_of` st'.(st_heap))); [| |done].
  - destruct (od_get task _); [by wp_step|]. eapply wp_mono; [apply load_heap|done|done].
  - intros r st' Hp. wp_run. cbn. by rewrite remove_spill_heap.
Qed.

Lemma on_storage_stable {A} (m : ST Storage A) :
  (forall st, st.(st_heap) `prefix_of` (m st).2.(st_heap)) -> stable (on_storage m).
Proof.
  intros H. apply stable_intro. intros s Hs. apply same_core_rel; [done|]. unfold on_storage, szoom.
  specialize (H (fe_storage s)). destruct (m (fe_storage s)) as [r st]. by apply same_core_eq.
Qed.

Lemma storage_put_stable task r : stable (on_storage (Store.put task r)).
Proof.
  apply on_storage_stable. intros st. pose proof (put_heap task r st) as H. unfold wp in H.
  destruct (Store.put task r st) as [[?|?] st']; simpl; [by rewrite H|by subst].
Qed.

Lemma storage_remove_stable task : stable (on_storage (Store.remove (RObj task))).
Proof.
  apply on_storage_stable. intros st. pose proof (remove_total task st) as H. unfold wp in H.
  by destruct (Store.remove (RObj task) st) as [[?|?] st'].
Qed.

Lemma alloc_stable d : stable (alloc_descriptor d).
Proof.
  unfold alloc_descriptor. solve_stable. apply quiet_modify. intros s. apply same_core_eq; try done.
  by eexists.
Qed.

#[export] Hint Resolve storage_put_stable storage_remove_stable alloc_stable : stable.

(** ** Descriptors *)

Lemma on_descriptor_stable {A} r (m : ST TaskDescriptor A) :
  (forall d, desc_inv d -> wp m (fun _ => step d) (fun _ => step d) d) -> stable (on_descriptor r m).
Proof.
  intros Hm. apply stable_wp. intros s Hs. pose proof (fe_rel_refl s Hs) as R.
  unfold on_descriptor. do 2 wp_step. do 2 wp_step; [|done]. unfold Store.deref in H.
  destruct (st_heap _ !! r) as [d|] eqn:Ed; [|done]. injection H as <-. apply wp_zoom.
  assert (forall d', (desc_inv d -> step d d') ->
    fe_rel s (s <| fe_storage := s.(fe_storage) <| st_heap ::= <[r := d']> |> |>)) as Hput.
  { intros d' Hd'. apply same_core_rel; [done|]. split; try done.
    - intros pid p d0 Hp Hl Hi. cbn. destruct (decide (r = p_descriptor p)) as [->|Hne].
      + rewrite Hl in Ed. injection Ed as ->. exists d'.
        rewrite list_lookup_insert_eq by (by eapply lookup_lt_Some). destruct (Hd' Hi) as [? []]. done.
      + exists d0. by rewrite list_lookup_insert_ne.
    - cbn. by destruct (fe_exchange s). }
  unfold wp. specialize (Hm d). unfold wp in Hm. destruct (m d) as [[a|e] d']; by apply Hput.
Qed.

Lemma append_splits_stable r src xs : stable (on_descriptor r (Descriptor.append_splits src xs)).
Proof.
  apply on_descriptor_stable. intros d Hd.
  eapply wp_mono; [apply append_splits_wp; split; [done|apply evolves_refl]| |done]. by intros ? ? (? & _).
Qed.

Lemma mark_no_more_stable r src : stable (on_descriptor r (Descriptor.mark_no_more_splits src)).
Proof.
  apply on_descriptor_stable. intros d Hd.
  eapply wp_mono; [apply mark_no_more_wp; split; [done|apply evolves_refl]| |done]. by intros ? ? (? & _).
Qed.

Lemma apply_update_stable r u : stable (on_descriptor r (Descriptor.apply_task_update u)).
Proof.
  apply on_descriptor_stable. intros d Hd.
  eapply wp_mono; [by apply apply_update_wp| |done]. by intros ? ? (? & _).
Qed.

#[export] Hint Resolve append_splits_stable mark_no_more_stable apply_update_stable : stable.

(** ** Partitions *)

(** A partition [p] has moved to [q], together with what the exchange and
    the failure flag record about it. *)
Record moved (s : FragmentExecution) (pid : Z) (p q : FteTaskPartition) (s' : FragmentExecution) : Prop := {
  mv_query : s'.(fe_query_id) = s.(fe_query_id);
  mv_fragment : s'.(fe_fragment_execution_id) = s.(fe_fragment_execution_id);
  mv_max : s'.(fe_max_attempts) = s.(fe_max_attempts);
  mv_parts : s'.(fe_partitions) = od_set pid q s.(fe_partitions);
  mv_advance : exists tr, advance p tr q;
  mv_sink : q.(p_sink_handle) = p.(p_sink_handle);
  mv_heap : forall pid p d, od_get pid s.(fe_partitions) = Some p ->
    s.(fe_storage).(st_heap) !! p.(p_descriptor) = Some d -> desc_inv d ->
    exists d', s'.(fe_storage).(st_heap) !! p.(p_descriptor) = Some d' /\ d'.(d_task_id) = d.(d_task_id) /\ desc_inv d';
  mv_failed : s'.(fe_failed) = s.(fe_failed) || q.(p_failed);
  mv_exchange : match s.(fe_exchange), s'.(fe_exchange) with
                | None, None => True
                | Some t, Some t' => tracker_inv t' /\
                    (forall i, t'.(tr_selected) !! i = if decide (pid = i) then q.(p_selected_attempt) else t.(tr_selected) !! i) /\
                    forall i h, t.(tr_sinks) !! i = Some h -> t'.(tr_sinks) !! i = Some h
                | _, _ => False
                end;
}.

Lemma advance_failed p tr q : advance p tr q -> p.(p_failed) = true -> q.(p_failed) = true.
Proof.
  intros A Hf. assert (terminal p = true) as Ht by (unfold terminal; rewrite Hf; by destruct (p_finished p)).
  pose proof (adv_terminal _ _ _ A Ht) as E. injection E as _ E _ _ _ _ _ _. congruence.
Qed.

(** The parts of [part_ok] that only depend on the rest of the state. *)
Lemma moved_part_ok s pid p q s' i p' :
  fe_inv s -> moved s pid p q s' -> od_get i s.(fe_partitions) = Some p' -> part_ok s' i p'.
Proof.
  intros Hi M Hp'. destruct M, (fi_parts s Hi i p' Hp'). split; try congruence.
  - destruct pk_descriptor0 as (d & E1 & E2 & E3). destruct (mv_heap0 _ _ _ Hp' E1 E3) as (d' & ? & ? & ?).
    exists d'. split_and!; congruence.
  - intros t' Et'. rewrite Et' in mv_exchange0. destruct (fe_exchange s) as [t|]; [|done].
    destruct (pk_sink0 t eq_refl) as (h & ? & Hh). exists h. split; [done|]. by apply mv_exchange0.
  - rewrite mv_failed0. intros ->%pk_failed0. done.
Qed.

Lemma moved_inv s pid p q s' :
  fe_inv s -> od_get pid s.(fe_partitions) = Some p -> moved s pid p q s' -> fe_inv s'.
Proof.
  intros Hi Hp M. pose proof (moved_part_ok s pid p q s') as Hok. pose proof M as M'.
  destruct M, Hi. destruct mv_advance0 as [tr A].
  split; try congruence.
  - rewrite mv_parts0. by apply od_wf_set.
  - rewrite mv_parts0. intros i p'. rewrite od_get_set. case_decide as Hd.
    + subst i. intros [= <-]. specialize (Hok pid p ltac:(by split) M' Hp). destruct Hok.
      pose proof (adv_inv _ _ _ A). pose proof (adv_task _ _ _ A). pose proof (adv_max _ _ _ A).
      pose proof (adv_descriptor _ _ _ A) as Ed.
      split; try congruence; [by rewrite Ed, H0|by rewrite mv_sink0|].
      intros Hq. rewrite mv_failed0, Hq. by rewrite orb_true_r.
    + apply Hok; [by split|done].
  - rewrite mv_parts0. intros i1 i2 p1 p2. rewrite !od_get_set. pose proof (adv_descriptor _ _ _ A).
    case_decide; case_decide; subst; try done.
    + intros [= <-] H2 E. eapply fi_refs0; [exact Hp|exact H2|congruence].
    + intros H1 [= <-] E. eapply fi_refs0; [exact H1|exact Hp|congruence].
    + apply fi_refs0.
  - rewrite mv_failed0. intros [Hf|Hf]%orb_true_iff.
    + destruct (fi_failed0 Hf) as (i & p' & Hg & Hp'). rewrite mv_parts0. destruct (decide (pid = i)) as [->|Hne].
      * exists i, q. rewrite od_get_set_eq. split; [done|]. rewrite Hp in Hg. injection Hg as <-.
        by eapply advance_failed.
      * exists i, p'. by rewrite od_get_set_ne.
    + exists pid, q. by rewrite mv_parts0, od_get_set_eq.
  - intros t' Et'. rewrite Et' in mv_exchange0. destruct (fe_exchange s) as [t|] eqn:Et; [|done].
    destruct mv_exchange0 as (? & Hsel & _). split; [done|]. intros i. rewrite Hsel.
    unfold selected_of. rewrite mv_parts0, od_get_set. case_decide; [done|]. by apply fi_exchange0.
Qed.

Lemma moved_rel s pid p q s' :
  fe_inv s -> od_get pid s.(fe_partitions) = Some p -> moved s pid p q s' -> fe_rel s s'.
Proof.
  intros Hi Hp M. pose proof (moved_inv s pid p q s' Hi Hp M) as Hi'. destruct M.
  split; try done.
  - intros i p0 Hp0. rewrite mv_parts0. destruct (decide (pid = i)) as [<-|Hne].
    + rewrite Hp in Hp0. injection Hp0 as <-. destruct mv_advance0 as [tr A]. exists q, tr. by rewrite od_get_set_eq.
    + exists p0, []. rewrite od_get_set_ne by done. split; [done|]. apply advance_refl, (pk_inv s i). by apply (fi_parts s Hi).
  - rewrite mv_failed0. by intros ->.
  - by destruct (fe_exchange s), (fe_exchange s').
Qed.

(** A move that neither fails nor finishes the partition. *)
Definition quiet (p q : FteTaskPartition) : Prop :=
  (exists tr, advance p tr q) /\ q.(p_failed) = p.(p_failed) /\
  q.(p_selected_attempt) = p.(p_selected_attempt) /\ q.(p_sink_handle) = p.(p_sink_handle).

Lemma quiet_refl p : part_inv p -> quiet p p.
Proof. intros. split_and!; try done. exists []. by apply advance_refl. Qed.

Lemma quiet_moved s pid p q :
  fe_inv s -> od_get pid s.(fe_partitions) = Some p -> quiet p q ->
  moved s pid p q (s <| fe_partitions ::= od_set pid q |>).
Proof.
  intros Hi Hp (A & Hf & Hsel & Hsink). split; try done; cbn.
  - intros i p' d Hp' Hd Hdi. by exists d.
  - rewrite Hf. destruct (p_failed p) eqn:E; [|by rewrite orb_false_r].
    by rewrite (pk_failed s pid p (fi_parts s Hi pid p Hp) E).
  - destruct (fe_exchange s) as [t|] eqn:Et; [|done]. destruct (fi_exchange s Hi t Et) as [Ht Hs].
    split_and!; try done. intros i. case_decide; [|done]. subst i. rewrite Hs, Hsel. unfold selected_of. by rewrite Hp.
Qed.

Lemma on_partition_stable {A} pid (m : ST FteTaskPartition A) :
  (forall p, part_inv p -> wp m (fun _ => quiet p) (fun _ => quiet p) p) -> stable (on_partition pid m).
Proof.
  intros Hm. apply stable_wp. intros s Hs. unfold on_partition, get_partition. do 3 wp_step.
  destruct (od_get pid (fe_partitions s)) as [p|] eqn:Hp; wp_step; [|by apply fe_rel_refl].
  apply wp_zoom. assert (part_inv p) as Hi by (apply (pk_inv s pid), (fi_parts s Hs), Hp).
  eapply wp_mono; [apply Hm, Hi| |]; intros ? q Hq; (eapply moved_rel; [done|exact Hp|by apply quiet_moved]).
Qed.

(** An update of fields outside the invariant. *)
Lemma advance_quiet p q :
  advance p [] q -> q.(p_failed) = p.(p_failed) -> q.(p_selected_attempt) = p.(p_selected_attempt) ->
  q.(p_sink_handle) = p.(p_sink_handle) -> quiet p q.
Proof. intros. split_and!; eauto. Qed.

Lemma on_partition_modify_stable pid f :
  (forall p, part_inv p -> quiet p (f p)) -> stable (on_partition pid (smodify f)).
Proof. intros H. apply on_partition_stable. intros p Hp. apply wp_modify. auto. Qed.

Ltac quiet_update := apply on_partition_modify_stable; intros p Hp; apply advance_quiet; try done; keep_outcome.

Lemma mark_ready_stable pid : stable (on_partition pid (smodify Partition.mark_ready_for_execution)).
Proof. quiet_update. Qed.

Lemma defer_stable pid : stable (on_partition pid (smodify Partition.defer_ready_for_execution)).
Proof.
  apply on_partition_modify_stable. intros p Hp. apply advance_quiet; [by apply defer_advance|..];
    unfold Partition.defer_ready_for_execution; by destruct (_ || _ || _).
Qed.

Lemma waiting_stable pid now : stable (on_partition pid (smodify (Partition.mark_waiting_for_node now))).
Proof.
  apply on_partition_modify_stable. intros p Hp. apply advance_quiet; [by apply waiting_advance|..];
    unfold Partition.mark_waiting_for_node; by destruct (p_node_wait_started_at p).
Qed.

Lemma reset_no_matching_stable pid : stable (on_partition pid (smodify Partition.reset_no_matching_node)).
Proof. quiet_update. Qed.

Lemma no_matching_stable pid now later : stable (on_partition pid (Partition.mark_no_matching_node now later)).
Proof.
  apply on_partition_stable. intros p Hp. unfold Partition.mark_no_matching_node. do 2 wp_step.
  destruct (p_no_matching_node_started_at p); wp_run; [by apply quiet_refl|].
  apply advance_quiet; try done; keep_outcome.
Qed.

Lemma clear_deferred_stable pid :
  stable (on_partition pid (smodify (fun p => p <| p_execution_ready_deferred := false |>))).
Proof. quiet_update. Qed.

Lemma node_requirements_stable pid node :
  stable (on_partition pid (smodify (fun p => p <| p_node_requirements := node |>))).
Proof. quiet_update. Qed.

Lemma class_stable pid c : stable (on_partition pid (Partition.set_execution_class c)).
Proof.
  apply on_partition_stable. intros p Hp. pose proof (set_class_wp c p Hp) as H.
  unfold wp in *. destruct (Partition.set_execution_class c p) as [[b|e] q] eqn:E; [|subst; by apply quiet_refl].
  destruct H as (A & _ & _). unfold Partition.set_execution_class in E. srun E; by apply advance_quiet.
Qed.

Lemma task_stats_stable pid a v : stable (on_partition pid (Partition.update_running_task_stats a v)).
Proof.
  apply on_partition_stable. intros p Hp. pose proof (update_stats_wp a v p Hp) as H.
  unfold wp in *. destruct (Partition.update_running_task_stats a v p) as [[b|e] q] eqn:E; [|subst; by apply quiet_refl].
  unfold Partition.update_running_task_stats, Partition.validate_attempt_task in E. srun E; by apply advance_quiet.
Qed.

Lemma start_stable pid d now sink wid remote :
  stable (on_partition pid (Partition.start_attempt d now sink wid remote)).
Proof.
  apply on_partition_stable. intros p Hp. pose proof (start_attempt_wp d now sink wid remote p Hp) as H.
  unfold wp in *. destruct (Partition.start_attempt d now sink wid remote p) as [[sa|e] q] eqn:E;
    [|subst; by apply quiet_refl].
  destruct H as (A & _). unfold Partition.start_attempt in E. srun E. split_and!; [eexists; exact A|done..].
Qed.

#[export] Hint Resolve mark_ready_stable defer_stable waiting_stable clear_deferred_stable
  node_requirements_stable class_stable task_stats_stable start_stable : stable.
