(* ===== verification/ExecutionProofs.v ===== *)
(** * Correctness of fragment executions

    Every public operation of [FteFragmentExecution] keeps the invariant of
    [ExecutionInv] and only moves partitions forward, whatever it returns or
    raises and whatever the callbacks do within the same bounds. *)

From S2P Require Import Prelude PyStr PyVal FteTypes FteState FteFailures SplitAssigner Exchange ExchangeProofs.
From S2P Require Import OutputBuffers Descriptor DescriptorProofs DescriptorStorage Partition PartitionProofs.
From S2P Require Import Execution ExecutionInv.

#[local] Open Scope string_scope.
#[local] Open Scope list_scope.
#[local] Open Scope Z_scope.

Import Execution.

(** ** Exchange accesses *)

(** How the exchange may move while no attempt is selected. *)
Definition tracker_moves (t t' : Tracker) : Prop :=
  tracker_inv t' /\ t'.(tr_selected) = t.(tr_selected) /\
  forall q h, t.(tr_sinks) !! q = Some h -> t'.(tr_sinks) !! q = Some h.

Lemma on_exchange_rel s t t' :
  fe_inv s -> s.(fe_exchange) = Some t -> tracker_moves t t' -> same_core s (s <| fe_exchange := Some t' |>).
Proof.
  intros Hi Et (? & ? & ?). split; try done; [by intros pid p d _ ? ?; exists d|]. cbn. by rewrite Et.
Qed.

Lemma sink_aborted_moves h a t :
  tracker_inv t -> wp (ExchangeTracker.sink_aborted h a) (fun _ => tracker_moves t) (fun _ => tracker_moves t) t.
Proof.
  intros Ht. eapply wp_mono; [apply sink_aborted_wp, Ht|..]; intros ? t' (? & ? & Es & ?); split_and!; try done;
    by rewrite Es.
Qed.

Lemma sink_aborted_stable h a : stable (exchange_sink_aborted h a).
Proof.
  apply stable_wp. intros s Hs. unfold exchange_sink_aborted. do 2 wp_step.
  destruct (fe_exchange s) as [t|] eqn:Et; [|wp_step; by apply fe_rel_refl].
  destruct h as [h|]; [|wp_step; by apply fe_rel_refl]. unfold on_exchange. apply wp_zoom.
  eapply wp_mono; [apply sink_aborted_moves, (fi_exchange s Hs t Et)|..]; intros ? t' Hm;
    (apply same_core_rel; [done|by eapply on_exchange_rel]).
Qed.

#[export] Hint Resolve sink_aborted_stable : stable.

Lemma add_sink_moves p t :
  tracker_inv t ->
  wp (ExchangeTracker.add_sink p)
    (fun h t' => tracker_moves t t' /\ t'.(tr_sinks) !! p = Some h) (fun _ t' => t' = t) t.
Proof.
  intros Ht. pose proof (add_sink_wp p t Ht) as H1. pose proof (add_sink_grows p t) as H2. unfold wp in *.
  destruct (ExchangeTracker.add_sink p t) as [[h|e] t']; [|done].
  destruct H1 as (? & ? & _ & ? & _). by split_and!.
Qed.

(** ** Adding partitions *)

Lemma insert_rel s pid p :
  fe_inv s -> od_get pid s.(fe_partitions) = None -> part_ok s pid p ->
  p.(p_failed) = false -> p.(p_selected_attempt) = None ->
  (forall i q, od_get i s.(fe_partitions) = Some q -> q.(p_descriptor) <> p.(p_descriptor)) ->
  fe_rel s (s <| fe_partitions ::= od_set pid p |>).
Proof.
  intros Hi Hn Hok Hf Hsel Hfresh. pose proof (fe_rel_refl s Hi) as R. destruct Hi, R.
  assert (forall i q, od_get i (fe_partitions s) = Some q -> pid <> i) as Hne by congruence.
  split; try done.
  - split; try done; cbn.
    + by apply od_wf_set.
    + intros i q. rewrite od_get_set. case_decide as Hd; [subst i; intros [= <-]|intros Hq].
      * by destruct Hok.
      * by destruct (fi_parts i q Hq).
    + intros i1 i2 p1 p2. rewrite !od_get_set. case_decide; case_decide; subst; try done.
      * intros [= <-] H2 E. by destruct (Hfresh _ _ H2).
      * intros H1 [= <-] E. by destruct (Hfresh _ _ H1).
      * apply fi_refs.
    + intros (i & q & Hq & ?)%fi_failed. exists i, q. split; [|done].
      rewrite od_get_set_ne; [done|]. by eapply Hne.
    + intros t Et. destruct (fi_exchange t Et) as [? Hs]. split; [done|]. intros i. rewrite Hs.
      unfold selected_of. cbn. rewrite od_get_set. case_decide; [subst i; by rewrite Hn|done].
  - intros i p0 Hp0. destruct (fr_parts i p0 Hp0) as (q & tr & Hq & A). exists q, tr. split; [|done].
    cbn. rewrite od_get_set_ne; [done|]. by eapply Hne.
Qed.

Lemma fresh_descriptor s i q :
  fe_inv s -> od_get i s.(fe_partitions) = Some q ->
  (q.(p_descriptor) < length s.(fe_storage).(st_heap))%nat.
Proof.
  intros Hi Hq. destruct (pk_descriptor s i q (fi_parts s Hi i q Hq)) as (d & Hd & _).
  by eapply lookup_lt_Some.
Qed.

Lemma task_new_inv q f p t :
  TaskId.new q f p = Ok t -> strip q = q -> t = MkFteTaskId q f p /\ 0 <= p.
Proof.
  unfold TaskId.new. intros H E. rewrite E in H. destruct (String.eqb q ""); [done|]. inv_ok.
  apply check_non_negative_ok in H0 as [-> ?], H1 as [-> ?]. done.
Qed.

(** The new partition, once its sink, descriptor and object exist. *)
Lemma fresh_part_ok s s1 pid task ref d sink node p :
  fe_rel s s1 -> 0 <= pid -> task = MkFteTaskId s.(fe_query_id) s.(fe_fragment_execution_id) pid ->
  desc_inv d -> d.(d_task_id) = task -> s1.(fe_storage).(st_heap) !! ref = Some d ->
  (forall t, s1.(fe_exchange) = Some t -> exists h, sink = Some h /\ t.(tr_sinks) !! pid = Some h) ->
  Partition.new (RObj task) ref d s.(fe_max_attempts) sink node (Some s.(fe_task_memory_bytes))
    (RObj s.(fe_execution_class)) = Ok p ->
  part_ok s1 pid p /\ p.(p_failed) = false /\ p.(p_selected_attempt) = None /\ p.(p_descriptor) = ref.
Proof.
  intros R Hpid -> Hd Edt Href Hsink Hnew. pose proof (new_part_inv _ _ _ _ _ _ _ _ _ Hnew) as (Hp & _ & Hmax).
  unfold Partition.new in Hnew. inv_ok. injection H0 as <-. destruct R. split; [|done].
  split; cbn; try done; try congruence.
  by exists d.
Qed.

(** The sink of a new partition. *)
Lemma new_sink_wp s pid :
  fe_inv s ->
  wp (match s.(fe_exchange) with
      | Some t => let! h := on_exchange t (ExchangeTracker.add_sink pid) in sret (Some h)
      | None => sret None
      end)
    (fun sink s1 => fe_inv s1 /\ same_core s s1 /\ s1.(fe_storage) = s.(fe_storage) /\
       forall t, s1.(fe_exchange) = Some t -> exists h, sink = Some h /\ t.(tr_sinks) !! pid = Some h)
    (fun _ s1 => fe_rel s s1) s.
Proof.
  intros Hi. assert (same_core s s) as Hrefl by (by apply same_core_eq).
  destruct (fe_exchange s) as [t|] eqn:Et.
  - wp_step. unfold on_exchange. apply wp_zoom.
    eapply wp_mono; [apply add_sink_moves, (fi_exchange s Hi t Et)|..].
    + intros h t' [Hm Hh]. wp_step. pose proof (on_exchange_rel s t t' Hi Et Hm) as C.
      split_and!; [by apply (same_core_rel s)|done|done|]. cbn. intros ? [= <-]. by exists h.
    + intros e t' ->. apply same_core_rel; [done|]. eapply on_exchange_rel; [done..|].
      split_and!; [by apply (fi_exchange s Hi t Et)|done|done].
  - wp_step. split_and!; try done. intros t. by rewrite Et.
Qed.

Lemma add_partition_wp pid node s :
  fe_inv s ->
  wp (add_partition pid node)
    (fun i s' => i = pid /\ fe_rel s s' /\ is_Some (od_get pid s'.(fe_partitions)))
    (fun _ => fe_rel s) s.
Proof.
  intros Hi. pose proof (fe_rel_refl s Hi) as R. unfold add_partition.
  do 2 wp_step; [|done]. apply check_non_negative_ok in H as [-> Hpid]. do 2 wp_step.
  destruct (od_get pid (fe_partitions s)) as [p|] eqn:Hp.
  { apply wp_bind. apply (wp_mono (fun _ => fe_rel s) _ (fun _ => fe_rel s)); [|intros _ s' R'|done].
    - destruct (p_node_requirements p), node; try by wp_step. apply stable_use; [eauto with stable|done].
    - wp_step. split_and!; [done..|]. destruct (fr_parts _ _ R' _ _ Hp) as (q & ? & -> & _). done. }
  do 2 wp_step; [|done]. apply task_new_inv in H as [-> _]; [|apply Hi].
  apply wp_bind. eapply wp_mono; [by apply new_sink_wp| |done]. intros sink s1 (Hi1 & C1 & Est & Hsink).
  assert (fe_rel s s1) as R1 by (by apply same_core_rel).
  do 2 wp_step; [|done]. rename a into d.
  assert (desc_inv d /\ d.(d_task_id) = MkFteTaskId s.(fe_query_id) s.(fe_fragment_execution_id) pid) as [Hd Ed].
  { split; [by eapply fresh_desc_inv|]. unfold Descriptor.new in H. by inv_ok. }
  apply wp_bind. unfold alloc_descriptor. do 5 wp_step.
  match goal with |- wp _ _ _ ?x => set (s2 := x) end.
  assert (same_core s1 s2) as C2 by (apply same_core_eq; try done; by eexists).
  assert (fe_rel s1 s2) as R2 by (by apply same_core_rel).
  assert (fe_rel s s2) as R02 by (by eapply fe_rel_trans).
  do 2 wp_step; [|done].
  destruct (fresh_part_ok s s2 pid _ (length (st_heap (fe_storage s1))) d sink node a R02 Hpid eq_refl Hd Ed)
    as (Hok & Hf & Hsel & Href); [by cbn; apply list_lookup_middle|done|done|].
  do 2 wp_step. match goal with |- wp _ _ _ ?x => set (s3 := x) end.
  assert (od_get pid (fe_partitions s2) = None) as Hp2 by (cbn; by rewrite (sc_parts _ _ C1)).
  assert (fe_rel s2 s3) as R3.
  { apply insert_rel; [apply R2|done..|]. intros i q Hq. apply (fresh_descriptor s1) in Hq; [|done]. rewrite Href. lia. }
  assert (fe_rel s s3) as R03 by (by eapply fe_rel_trans).
  assert (od_get pid s3.(fe_partitions) = Some a) as Hg by (cbn; apply od_get_set_eq).
  wp_step. apply (wp_mono (fun _ => fe_rel s3) _ (fun _ => fe_rel s3)).
  - apply stable_use; [eauto with stable|]. apply fe_rel_refl, R3.
  - intros _ s4 R4. wp_step. split_and!; [done|by eapply fe_rel_trans|].
    destruct (fr_parts _ _ R4 _ _ Hg) as (q & ? & -> & _). done.
  - intros _ s4 R4. by eapply fe_rel_trans.
Qed.

Lemma add_partition_stable pid node : stable (add_partition pid node).
Proof.
  apply stable_wp. intros s Hs. eapply wp_mono; [by apply add_partition_wp| |done]. by intros ? ? (_ & ? & _).
Qed.

#[export] Hint Resolve add_partition_stable : stable.

(** ** One partition at a known state *)

Lemma od_set_set {V} (k : Z) (v1 v2 : V) d : od_set k v2 (od_set k v1 d) = od_set k v2 d.
Proof.
  induction d as [|[k' v'] d IH]; simpl; [by rewrite decide_True|].
  destruct (decide (k = k')) as [->|]; simpl; [by rewrite decide_True|by rewrite decide_False, IH].
Qed.

Lemma get_partition_wp pid p (Q : FteTaskPartition -> FragmentExecution -> Prop) E s :
  od_get pid s.(fe_partitions) = Some p -> Q p s -> wp (get_partition pid) Q E s.
Proof. intros Hp HQ. unfold get_partition. do 2 wp_step. rewrite Hp. by wp_step. Qed.

Lemma on_partition_wp {A} pid p (m : ST FteTaskPartition A) (Q : A -> FragmentExecution -> Prop) E s :
  od_get pid s.(fe_partitions) = Some p ->
  wp m (fun a q => Q a (s <| fe_partitions ::= od_set pid q |>))
       (fun e q => E e (s <| fe_partitions ::= od_set pid q |>)) p ->
  wp (on_partition pid m) Q E s.
Proof. intros Hp H. unfold on_partition. wp_step. eapply get_partition_wp; [done|]. by apply wp_zoom. Qed.

Lemma unknown_partition_wp {A} pid (Q : A -> FragmentExecution -> Prop) E s (k : FteTaskPartition -> ST _ A) :
  od_get pid s.(fe_partitions) = None -> E (KeyError "partition") s -> wp (sbind (get_partition pid) k) Q E s.
Proof. intros Hp HE. wp_step. unfold get_partition. do 2 wp_step. rewrite Hp. by wp_step. Qed.

(** A partition moved without an attempt being selected. *)
Lemma moved_intro s pid p q s' :
  fe_inv s -> od_get pid s.(fe_partitions) = Some p -> (exists tr, advance p tr q) ->
  q.(p_sink_handle) = p.(p_sink_handle) -> q.(p_selected_attempt) = p.(p_selected_attempt) ->
  s'.(fe_query_id) = s.(fe_query_id) -> s'.(fe_fragment_execution_id) = s.(fe_fragment_execution_id) ->
  s'.(fe_max_attempts) = s.(fe_max_attempts) -> s'.(fe_exchange) = s.(fe_exchange) ->
  s'.(fe_storage) = s.(fe_storage) -> s'.(fe_partitions) = od_set pid q s.(fe_partitions) ->
  s'.(fe_failed) = s.(fe_failed) || q.(p_failed) -> moved s pid p q s'.
Proof.
  intros Hi Hp A Hsink Hsel E1 E2 E3 E4 E5 E6 E7. split; try done.
  - intros i p' d _ Hd Hdi. rewrite E5. by exists d.
  - rewrite E4. destruct (fe_exchange s) as [t|] eqn:Et; [|done]. destruct (fi_exchange s Hi t Et) as [Ht Hs].
    split_and!; try done. intros i. case_decide; [|done]. subst i. rewrite Hs, Hsel. unfold selected_of. by rewrite Hp.
Qed.

Lemma lost_sink id err r p ready q :
  Partition.mark_attempt_failed id err r p = (Ok ready, q) -> q.(p_sink_handle) = p.(p_sink_handle).
Proof. unfold Partition.mark_attempt_failed, Partition.validate_attempt_task. intros H. by srun H. Qed.

Lemma revoked_sink id err p rv q :
  Partition.revoke_attempt id err p = (Ok rv, q) -> q.(p_sink_handle) = p.(p_sink_handle).
Proof. unfold Partition.revoke_attempt, Partition.validate_attempt_task. intros H. by srun H. Qed.

(** ** A failed attempt *)

Lemma task_failed_locked_stable attempt err retryable :
  stable (task_failed_locked attempt err retryable).
Proof.
  apply stable_wp. intros s0 Hs0. pose proof (fe_rel_refl s0 Hs0) as R0. unfold task_failed_locked. cbv zeta.
  set (pid := partition_id (task_id attempt)).
  destruct (od_get pid (fe_partitions s0)) as [p0|] eqn:Hp0; [|by apply unknown_partition_wp].
  wp_step. eapply get_partition_wp; [done|]. wp_step.
  eapply wp_mono; [apply (stable_use _ s0); [eauto with stable|done]| |done]. intros u s R. cbv beta in R. clear u.
  destruct (fr_parts _ _ R _ _ Hp0) as (p & tr0 & Hp & _). pose proof (fr_inv _ _ R) as Hi.
  assert (part_inv p) as Hpi by (apply (pk_inv s pid), (fi_parts s Hi), Hp).
  wp_step. eapply on_partition_wp; [done|].
  pose proof (mark_failed_wp (RObj attempt) err (retryable && failure_allows_retry err true) p Hpi) as Hw.
  unfold wp at 1. unfold wp in Hw. destruct (Partition.mark_attempt_failed _ _ _ p) as [[ready|e] q] eqn:Em.
  2: { subst q. eapply fe_rel_trans; [done|]. eapply moved_rel; [done|done|]. by apply quiet_moved, quiet_refl. }
  pose proof (lost_sink _ _ _ _ _ _ Em) as Hsink. destruct Hw as [A Hcase].
  match goal with |- wp _ _ _ ?x => set (s1 := x) end.
  assert (od_get pid s1.(fe_partitions) = Some q) as Hq by (cbn; apply od_get_set_eq).
  assert (q.(p_selected_attempt) = p.(p_selected_attempt)) as Hsel.
  { destruct Hcase as [(-> & _)|(a & r & _ & L & _)]; [done|by destruct L]. }
  assert (forall s', s' = s1 <| fe_failed := s.(fe_failed) || q.(p_failed) |> -> fe_rel s0 s') as Hdone.
  { intros s' ->. eapply fe_rel_trans; [done|]. eapply moved_rel; [done|exact Hp|].
    apply moved_intro; try done. by eexists. }
  destruct ready as [rt|].
  - destruct (is_memory_failure err).
    + wp_step. eapply on_partition_wp; [done|]. do 4 wp_step. eapply fe_rel_trans; [done|].
      assert (terminal q = false /\ p_running_attempts q = []) as [Ht Hr].
      { destruct Hcase as [(_ & ? & _)|(a & r & (_ & _ & Hg) & L & E)]; [done|].
        destruct (od_get_running p _ r Hpi Hg) as (_ & _ & _ & Hf & _). destruct L.
        destruct (_ && (1 <? _)); [|done]. unfold terminal. split; [|done]. by rewrite lost_finished, lost_failed, Hf. }
      eapply moved_rel; [done|exact Hp|]. apply (moved_intro s pid p (Partition.abandon q)); try done.
      * exists []. apply (advance_trans p [] q []); [done|]. apply abandon_advance; [apply A|done|done].
      * cbn. apply od_set_set.
      * cbn. by rewrite orb_true_r.
    + wp_step. eapply get_partition_wp; [done|]. do 2 wp_step.
      match goal with |- wp _ _ _ ?x => assert (fe_rel s0 x) as R2 end.
      { apply Hdone. destruct (p_failed q); [by rewrite orb_true_r|by rewrite orb_false_r]. }
      destruct (negb _ && _).
      * wp_step. eapply wp_mono; [apply stable_use; [|exact R2]| |done].
        -- apply on_partition_modify_stable. intros x Hx. apply advance_quiet; try done. keep_outcome.
        -- intros ? s' R'. by wp_step.
      * wp_step. eapply wp_mono; [apply stable_use; [eauto with stable|exact R2]| |done]. intros ? s' R'. by wp_step.
  - wp_step. eapply get_partition_wp; [done|]. do 3 wp_step. apply Hdone.
    destruct (p_failed q); [by rewrite orb_true_r|by rewrite orb_false_r].
Qed.

(** ** Sealing *)

Lemma seal_sink p d old q : Partition.seal (p, d) = (Ok old, q) ->
  q.1.(p_sink_handle) = p.(p_sink_handle) /\ q.1.(p_selected_attempt) = p.(p_selected_attempt) /\
  q.1.(p_failed) = p.(p_failed).
Proof.
  unfold Partition.seal, sbind, sget, sraise_if, slift, raise_if, smodify, sret. intros H.
  destruct (_ || _); [done|]. destruct (ExecutionClass.is_speculative _); by injection H as <- <-.
Qed.

Lemma seal_object_stable pid : stable (seal_object pid).
Proof.
  apply stable_wp. intros s Hs. pose proof (fe_rel_refl s Hs) as R. unfold seal_object. do 2 wp_step.
  destruct (od_get pid (fe_partitions s)) as [p|] eqn:Hp; [|by apply unknown_partition_wp].
  wp_step. eapply get_partition_wp; [done|]. pose proof (fi_parts s Hs _ _ Hp) as Hok.
  destruct (pk_descriptor _ _ _ Hok) as (d & Hd & Et & Hdi). do 2 wp_step; [|done].
  unfold Store.deref in H. rewrite Hd in H. injection H as <-. apply wp_zoom.
  pose proof (seal_wp p d (pk_inv _ _ _ Hok)) as Hw. unfold wp in *.
  destruct (Partition.seal (p, d)) as [[old|e] [q d']] eqn:E.
  - destruct Hw as (_ & A & _ & Ed & _). cbn [fst snd] in *. subst d'.
    destruct (seal_sink _ _ _ _ E) as (Hsink & Hsel & Hf). cbn [fst] in *.
    eapply moved_rel; [done|exact Hp|]. split; try done; cbn.
    + by eexists.
    + intros i p' d0 Hp' Hl Hi0. destruct (decide (p_descriptor p = p_descriptor p')) as [Er|Hne].
      * rewrite <- Er in *. rewrite Hd in Hl. injection Hl as <-. eexists.
        rewrite list_lookup_insert_eq by (by eapply lookup_lt_Some). split; [done|]. split; [done|]. by destruct Hdi.
      * exists d0. by rewrite list_lookup_insert_ne.
    + rewrite Hf. destruct (p_failed p) eqn:Ef; [|by rewrite orb_false_r]. by rewrite (pk_failed _ _ _ Hok Ef).
    + destruct (fe_exchange s) as [t|] eqn:Ext; [|done]. destruct (fi_exchange s Hs t Ext) as [Ht Hss].
      split_and!; try done. intros i. case_decide; [|done]. subst i. rewrite Hss, Hsel. unfold selected_of. by rewrite Hp.
  - destruct Hw as [Eq _]. injection Eq as -> ->.
    eapply moved_rel; [done|exact Hp|]. split; try done; cbn.
    + exists []. apply advance_refl, Hok.
    + intros i p' d0 Hp' Hl Hi0. exists d0. by rewrite list_insert_id.
    + destruct (p_failed p) eqn:Ef; [|by rewrite orb_false_r]. by rewrite (pk_failed _ _ _ Hok Ef).
    + destruct (fe_exchange s) as [t|] eqn:Ext; [|done]. destruct (fi_exchange s Hs t Ext) as [Ht Hss].
      split_and!; try done. intros i. case_decide; [|done]. subst i. rewrite Hss. unfold selected_of. by rewrite Hp.
Qed.

#[export] Hint Resolve task_failed_locked_stable seal_object_stable : stable.

(** ** Methods with a [finally] block *)

(** The same, with the local list of releases beside the execution. *)
Definition stable_local {A} (m : ST (FragmentExecution * Releases) A) : Prop :=
  forall s0, preserves (fun x => fe_rel s0 x.1) m.

Lemma with_fe_stable {A} (m : ST FragmentExecution A) : stable m -> stable_local (with_fe m).
Proof.
  intros Hm s0 [s rs] Hs. unfold with_fe, szoom. cbn [fst snd] in *. specialize (Hm s0 s Hs).
  by destruct (m s) as [r s'].
Qed.

Lemma local_bind {A B} (m : ST _ A) (k : A -> ST _ B) :
  stable_local m -> (forall a, stable_local (k a)) -> stable_local (sbind m k).
Proof. intros Hm Hk s0. apply preserves_bind; [apply Hm|intros a; apply Hk]. Qed.

Lemma local_fold {A B} (l : list A) (body : B -> A -> ST _ B) b :
  (forall b x, stable_local (body b x)) -> stable_local (sfold l body b).
Proof. intros H s0. apply preserves_fold. intros ? ?. apply H. Qed.

Lemma local_pure {A} (m : ST (FragmentExecution * Releases) A) :
  (forall x, (m x).2.1 = x.1) -> stable_local m.
Proof. intros H s0 x Hx. by rewrite H. Qed.

(** A block on the execution that may record a release on the way. *)
Lemma local_wp {A} (m : ST (FragmentExecution * Releases) A) :
  (forall s rs, fe_inv s -> wp m (fun _ x => fe_rel s x.1) (fun _ x => fe_rel s x.1) (s, rs)) -> stable_local m.
Proof.
  intros H s0 [s rs] Hs. cbn in Hs. specialize (H s rs (fr_inv _ _ Hs)). unfold wp in H.
  destruct (m (s, rs)) as [[a|e] x]; by eapply fe_rel_trans.
Qed.

Lemma with_fe_wp {A} (m : ST FragmentExecution A) (Q : A -> FragmentExecution * Releases -> Prop) E s rs :
  wp m (fun a s' => Q a (s', rs)) (fun e s' => E e (s', rs)) s -> wp (with_fe m) Q E (s, rs).
Proof. intros H. unfold with_fe. by apply wp_zoom. Qed.

(** Revoking one attempt and recording the failure of its partition. *)
Definition revoke_block pid id err (w : option Worker) (a : FteTaskAttemptId) (k : RevokedAttempt -> list RevokedAttempt * bool)
    (acc : list RevokedAttempt * bool) : ST (FragmentExecution * Releases) (list RevokedAttempt * bool) :=
  let! rv := with_fe (on_partition pid (Partition.revoke_attempt id err)) in
  match rv with
  | None => sret acc
  | Some rv =>
      let! _ := add_release TerminalRelease w a in
      let! p := with_fe (get_partition pid) in
      let! _ := with_fe (smodify (fun s => s <| fe_failed := s.(fe_failed) || p.(p_failed) |>)) in
      sret (k rv)
  end.

Lemma revoke_block_stable pid id err w a k acc : stable_local (revoke_block pid id err w a k acc).
Proof.
  apply local_wp. intros s rs Hs. unfold revoke_block. wp_step. apply with_fe_wp.
  destruct (od_get pid (fe_partitions s)) as [p|] eqn:Hp.
  2: { unfold on_partition. apply unknown_partition_wp; [done|by apply fe_rel_refl]. }
  assert (part_inv p) as Hpi by (apply (pk_inv s pid), (fi_parts s Hs), Hp).
  eapply on_partition_wp; [done|]. pose proof (revoke_wp id err p Hpi) as Hw.
  unfold wp at 1. unfold wp in Hw. destruct (Partition.revoke_attempt id err p) as [[rv|e] q] eqn:Em.
  2: { subst q. eapply moved_rel; [done|done|]. by apply quiet_moved, quiet_refl. }
  pose proof (revoked_sink _ _ _ _ _ Em) as Hsink. destruct Hw as [A Hcase]. destruct rv as [rv|].
  - destruct Hcase as [[_ ?]|(a' & r & _ & L & _)]; [done|].
    unfold add_release. do 2 wp_step. wp_step. apply with_fe_wp. eapply get_partition_wp; [cbn; apply od_get_set_eq|].
    wp_step. apply with_fe_wp. do 2 wp_step. cbn [fst]. eapply moved_rel; [done|exact Hp|].
    destruct L. apply moved_intro; try done. by eexists.
  - wp_step. destruct Hcase as [[-> _]|(a' & r & _ & _ & _ & ?)]; [|done]. cbn [fst].
    eapply moved_rel; [done|exact Hp|]. by apply quiet_moved, quiet_refl.
Qed.
