(* ===== verification/ExecutionTheorems.v ===== *)
(** * Theorems about fragment executions

    The callbacks and workers of an execution are described by the class
    [StableEnv]; against it, every public operation is shown to keep the
    invariant, and the consequences a client relies on are drawn: agreement
    between the execution and the exchange, the attempt budget, and what the
    outcome of an attempt does to its partition. *)

From S2P Require Import Prelude PyStr PyVal FteTypes FteState FteFailures SplitAssigner Exchange ExchangeProofs.
From S2P Require Import OutputBuffers Descriptor DescriptorProofs DescriptorStorage Partition PartitionProofs.
From S2P Require Import Execution ExecutionInv ExecutionProofs.

#[local] Open Scope string_scope.
#[local] Open Scope list_scope.
#[local] Open Scope Z_scope.

Import Execution.

(** What the execution relies on: a callback may do anything to the state
    that the execution itself could do between two moments. *)
Class StableEnv (env : Env) : Prop := {
  stable_selector : forall f pid, env.(env_worker_selector) = Some f -> stable (f pid);
  stable_transition : forall f ts, env.(env_execution_class_transition) = Some f -> stable (f ts);
  stable_execution_admission : forall f pid, env.(env_execution_admission) = Some f -> stable (f pid);
  stable_attempt_admission : forall f pid, env.(env_attempt_admission) = Some f -> stable (f pid);
  stable_reservation : forall f pid, env.(env_worker_reservation) = Some f -> stable (f pid);
}.

(** ** A finished attempt *)

(** The exchange selects the attempt with which a partition finishes. *)
Lemma finish_exchange_wp s pid p a r fa stats :
  fe_inv s -> od_get pid s.(fe_partitions) = Some p -> names_running (RObj a) p a r ->
  wp (exchange_sink_finished p.(p_sink_handle) a.(attempt_id))
    (fun _ s' => moved s pid p (finish_with a.(attempt_id) fa stats p) s')
    (fun _ _ => False) (s <| fe_partitions ::= od_set pid (finish_with a.(attempt_id) fa stats p) |>).
Proof.
  intros Hi Hp (_ & _ & Hg). pose proof (fi_parts s Hi _ _ Hp) as Hok. pose proof (pk_inv _ _ _ Hok) as Hpi.
  destruct (od_get_running p _ r Hpi Hg) as (En & _ & _ & Hfin & Hf & _).
  assert (0 <= a.(attempt_id)) as Hn by (rewrite En; unfold current_attempt; destruct Hpi; lia).
  assert (advance p [] (finish_with a.(attempt_id) fa stats p)) as A by (by eapply finish_advance).
  unfold exchange_sink_finished. do 2 wp_step. cbn [fe_exchange set_field].
  destruct (fe_exchange s) as [t|] eqn:Et.
  - destruct (pk_sink _ _ _ Hok t Et) as (h & -> & Hh). destruct (fi_exchange s Hi t Et) as [Ht Hsel].
    destruct (tinv_handles t Ht _ _ Hh) as [Eh _].
    assert (sh_partition_id h = pid) as Ehp by (by rewrite Eh). unfold on_exchange. apply wp_zoom.
    pose proof (sink_finished_wp h a.(attempt_id) t Ht) as H1.
    pose proof (sink_finished_total h a.(attempt_id) t Ht ltac:(by rewrite Ehp) Hn) as H2. unfold wp in *.
    destruct (ExchangeTracker.sink_finished h (attempt_id a) t) as [[?|?] t']; [|done].
    destruct H1 as (Ht' & Hsel' & Hsinks & _). split; try done; cbn.
    + by eexists.
    + intros i p' d _ Hd Hdi. by exists d.
    + by rewrite orb_false_r.
    + rewrite Et. split_and!; [done| |by rewrite Hsinks]. intros i. rewrite Hsel', Ehp. unfold select_first.
      rewrite Hsel. unfold selected_of. rewrite Hp. simpl. rewrite (pi_selected _ Hpi), Hfin.
      case_decide; [subst i; by rewrite lookup_insert_eq|by rewrite lookup_insert_ne].
  - wp_step. split; try done; cbn.
    + by eexists.
    + intros i p' d _ Hd Hdi. by exists d.
    + by rewrite orb_false_r.
    + by rewrite Et.
Qed.

(** No other attempt runs beside the finished one. *)
Lemma no_losers p a r :
  part_inv p -> names_running (RObj a) p a r ->
  List.filter (fun r => negb (bool_decide (r.(ra_attempt_id).(attempt_id) = a.(attempt_id))))
    (od_values p.(p_running_attempts)) = [].
Proof.
  intros Hpi (_ & _ & Hg). destruct (od_get_running p _ r Hpi Hg) as (_ & -> & Hid & _). simpl.
  by rewrite Hid, bool_decide_eq_true_2.
Qed.

Section WithEnv.
Context (env : Env) `{!StableEnv env}.

(** ** Worker calls *)

Lemma call_stable c : stable (call env c).
Proof. apply stable_intro. intros s Hs. apply same_core_rel; [done|]. by apply same_core_eq. Qed.
#[local] Hint Resolve call_stable : stable.

Lemma call_on_stable w c : stable (call_on env w c).
Proof using. unfold call_on. solve_stable. Qed.
#[local] Hint Resolve call_on_stable : stable.

Lemma record_terminal_stable w a : stable (record_task_terminal env w a).
Proof using. unfold record_task_terminal. solve_stable. Qed.
Lemma record_ready_stable w a : stable (record_task_result_ready env w a).
Proof using. unfold record_task_result_ready. solve_stable. Qed.
Lemma cancel_stable r : stable (cancel_running env r).
Proof using. unfold cancel_running. solve_stable. Qed.
#[local] Hint Resolve record_terminal_stable record_ready_stable cancel_stable : stable.

Lemma run_releases_stable rs : stable (run_releases env rs).
Proof using. unfold run_releases. apply stable_for. intros [[[] w] a]; solve_stable. Qed.
#[local] Hint Resolve run_releases_stable : stable.

Lemma releasing_stable {A} (m : ST (FragmentExecution * Releases) A) : stable_local m -> stable (releasing env m).
Proof using.
  intros Hm s0 s Hs. unfold releasing, stry_finally. specialize (Hm s0 (s, []) Hs).
  destruct (m (s, [])) as [r x]. cbn [fst snd] in Hm.
  assert (fe_rel s0 ((let! x := sget in with_fe (run_releases env x.2)) x).2.1) as Hf.
  { unfold sbind, sget. apply (with_fe_stable (run_releases env x.2)); [eauto with stable|done]. }
  by destruct ((let! x := sget in with_fe (run_releases env x.2)) x) as [[?|?] y].
Qed.

(** ** Admission and starting attempts *)

Lemma mark_partition_ready_stable pid : stable (mark_partition_ready_for_execution env pid).
Proof using All.
  unfold mark_partition_ready_for_execution.
  destruct (env_execution_admission env) eqn:E; solve_stable. by eapply stable_execution_admission.
Qed.
#[local] Hint Resolve mark_partition_ready_stable : stable.

Lemma emit_stable ts : stable (emit_execution_class_transitions env ts).
Proof using All.
  unfold emit_execution_class_transitions. destruct ts as [|t ts]; [apply stable_ret|].
  destruct (env_execution_class_transition env) eqn:E; [by eapply stable_transition|]. solve_stable.
Qed.

Lemma set_fragment_class_stable c : stable (set_execution_class c).
Proof using. unfold set_execution_class. solve_stable. apply quiet_modify. same_core_done. Qed.

Lemma select_worker_stable pid : stable (select_worker env pid).
Proof using All.
  unfold select_worker. destruct (env_worker_selector env) eqn:E; solve_stable. by eapply stable_selector.
Qed.
#[local] Hint Resolve emit_stable select_worker_stable : stable.

Lemma attempt_sink_stable pid : stable (attempt_sink_instance pid).
Proof using.
  apply stable_wp. intros s Hs. pose proof (fe_rel_refl s Hs) as R. unfold attempt_sink_instance. do 2 wp_step.
  destruct (od_get pid (fe_partitions s)) as [p|] eqn:Hp; [|by apply unknown_partition_wp].
  wp_step. eapply get_partition_wp; [done|]. do 2 wp_step; [|done].
  destruct (fe_exchange s) as [t|] eqn:Et.
  - destruct (pk_sink _ _ _ (fi_parts s Hs _ _ Hp) t Et) as (h & -> & _). do 2 wp_step. do 2 wp_step; [|done].
    do 3 wp_step. rewrite Et. cbn [default]. unfold on_exchange. apply wp_zoom.
    assert (fe_rel s (s <| fe_exchange := Some t |>)) as R'.
    { apply same_core_rel; [done|]. eapply on_exchange_rel; [done|done|].
      split_and!; [by apply (fi_exchange s Hs t Et)|done|done]. }
    eapply wp_mono; [apply instantiate_sink_same|..]; intros ? t' ->; [by wp_step|done].
  - wp_run; done.
Qed.
#[local] Hint Resolve attempt_sink_stable : stable.

Lemma start_with_worker_stable pid : stable (start_attempt_with_worker env pid).
Proof using All. unfold start_attempt_with_worker. solve_stable. Qed.
#[local] Hint Resolve start_with_worker_stable : stable.

Lemma create_attempt_stable pid : stable (create_attempt_after_admission env pid).
Proof using All.
  unfold create_attempt_after_admission. destruct (env_worker_reservation env) eqn:E; solve_stable.
  by eapply stable_reservation.
Qed.
#[local] Hint Resolve create_attempt_stable : stable.

Lemma schedulable_stable pid c : stable (schedulable pid c).
Proof using. unfold schedulable. solve_stable. Qed.
#[local] Hint Resolve schedulable_stable : stable.

Lemma schedule_stable pid c : stable (schedule_partition_if_ready env pid c).
Proof using All.
  unfold schedule_partition_if_ready. destruct (env_attempt_admission env) eqn:E; solve_stable.
  by eapply stable_attempt_admission.
Qed.
#[local] Hint Resolve schedule_stable : stable.

Lemma release_deferred_stable c : stable (release_deferred_execution_partitions env c).
Proof using All. unfold release_deferred_execution_partitions. solve_stable. Qed.

Lemma schedule_first_stable pids c : stable (schedule_first env pids c).
Proof using All. induction pids as [|pid pids IH]; cbn [schedule_first]; solve_stable. Qed.
#[local] Hint Resolve schedule_first_stable : stable.

Lemma schedule_next_stable c : stable (schedule_next_pending_partition env c).
Proof using All. unfold schedule_next_pending_partition. solve_stable. Qed.

(** ** Updates *)

Lemma update_locked_stable u : stable (update_partition_locked env u).
Proof using All. unfold update_partition_locked. solve_stable. Qed.
#[local] Hint Resolve update_locked_stable : stable.

Lemma update_partition_stable u : stable (update_partition env u).
Proof using All. unfold update_partition. solve_stable. Qed.
#[local] Hint Resolve update_partition_stable : stable.

Lemma seal_locked_stable pid : stable (seal_partition_locked env pid).
Proof using All. unfold seal_partition_locked. solve_stable. Qed.
#[local] Hint Resolve seal_locked_stable : stable.

Lemma seal_partition_stable pid : stable (seal_partition env pid).
Proof using All. unfold seal_partition. solve_stable. Qed.
#[local] Hint Resolve seal_partition_stable : stable.

Lemma apply_assignment_stable res : stable (apply_assignment_result env res).
Proof using All.
  unfold apply_assignment_result. apply collecting_stable. solve_stable.
  apply quiet_modify. intros s. destruct (no_more_partitions res); by apply same_core_eq.
Qed.

Lemma apply_task_update_stable pid u : stable (apply_task_update pid u).
Proof using. unfold apply_task_update. apply collecting_stable. solve_stable. Qed.

(** ** Outcomes of attempts *)

Lemma task_failed_stable a err r sched : stable (task_failed env a err r sched).
Proof using All. unfold task_failed. solve_stable. Qed.
#[local] Hint Resolve task_failed_stable : stable.

Lemma revoke_running_stable pid w limit reason acc r : stable_local (revoke_running env pid w limit reason acc r).
Proof using.
  unfold revoke_running. destruct acc as [revoked reached]. destruct reached; [by apply local_pure|].
  destruct (match w with Some _ => _ | None => _ end); [by apply local_pure|].
  apply local_bind; [apply with_fe_stable; eauto with stable|intros _].
  apply local_bind; [apply with_fe_stable; eauto with stable|intros p].
  apply local_bind; [apply with_fe_stable; eauto with stable|intros _].
  exact (revoke_block_stable pid _ _ _ _ (fun rv => (revoked ++ [rv],
    match limit with Some n => n <=? Z.of_nat (length (revoked ++ [rv])) | None => false end)) (revoked, false)).
Qed.

Lemma revoke_stable w n reason : stable (revoke_speculative_attempts env w n reason).
Proof using.
  unfold revoke_speculative_attempts. cbv zeta. destruct (bool_decide _); [apply stable_ret|].
  apply releasing_stable. apply local_bind; [by apply local_pure|intros x].
  apply local_bind; [|intros acc; by apply local_pure]. apply local_fold. intros acc pid.
  apply local_bind; [apply with_fe_stable; eauto with stable|intros p].
  destruct (_ || _); [by apply local_pure|]. apply local_fold. intros. apply revoke_running_stable.
Qed.

Lemma mark_worker_failed_stable w err r rb sched : stable (mark_worker_failed env w err r rb sched).
Proof using All. unfold mark_worker_failed. solve_stable. Qed.

Lemma task_finished_stable a stats : stable (task_finished env a stats).
Proof using.
  unfold task_finished. apply stable_bind; [apply stable_lift|intros attempt]. cbv zeta.
  apply stable_bind; [|intros [changed failure]; solve_stable]. apply releasing_stable, local_wp. intros s rs Hs.
  pose proof (fe_rel_refl s Hs) as R. wp_step. apply with_fe_wp.
  destruct (od_get (partition_id (task_id attempt)) (fe_partitions s)) as [p|] eqn:Hp.
  2: { unfold get_partition. do 2 wp_step. rewrite Hp. by wp_step. }
  eapply get_partition_wp; [done|]. pose proof (pk_inv _ _ _ (fi_parts s Hs _ _ Hp)) as Hpi.
  wp_step. apply with_fe_wp. eapply on_partition_wp; [done|].
  pose proof (mark_finished_wp (RObj attempt) stats p Hpi) as Hw. unfold wp at 1. unfold wp in Hw.
  destruct (Partition.mark_attempt_finished _ _ p) as [[changed|e] q].
  2: { subst q. eapply moved_rel; [done|exact Hp|]. by apply quiet_moved, quiet_refl. }
  destruct changed; destruct Hw as [_ Hq].
  - destruct Hq as (a' & r & Hr & ->). assert (a' = attempt) as -> by (destruct Hr as [[=] _]; done).
    rewrite (no_losers p attempt r) by done. pose proof Hr as (_ & _ & ->). unfold add_release.
    wp_step. apply wp_modify. wp_step. cbn [sfold fst snd]. do 2 wp_step. apply with_fe_wp.
    eapply wp_mono; [by eapply (finish_exchange_wp s _ p attempt r)| |done]. intros ? s2 M.
    apply moved_rel in M; [|done..]. wp_step. apply with_fe_wp.
    eapply wp_mono; [apply stable_use; [eauto with stable|exact M]| |done]. intros ? s3 R3. by wp_step.
  - subst q. wp_step. cbn [fst]. eapply moved_rel; [done|exact Hp|]. by apply quiet_moved, quiet_refl.
Qed.
#[local] Hint Resolve task_finished_stable : stable.

Lemma handle_status_stable status r sched : stable (handle_task_status env status r sched).
Proof using All. unfold handle_task_status. solve_stable. Qed.

Lemma command_success_stable c : stable (handle_worker_command_success env c).
Proof using. unfold handle_worker_command_success. solve_stable. Qed.
End WithEnv.

(** ** Runs of an execution *)

(** The public operations that change the state, with their arguments; a
    partition is named by its id. The last four are the marks that worker
    placement and task submission put on a partition of the execution
    (fragment_worker_placement.py, fragment_worker_submission.py), with the
    clock readings the method makes. *)
Inductive fe_op :=
| OpAddPartition (pid : Z) (node : option NodeRequirements)
| OpApplyAssignment (res : AssignmentResult)
| OpApplyTaskUpdate (pid : Z) (u : id_ref FteTaskUpdateRequest)
| OpUpdatePartition (u : PartitionUpdate)
| OpSealPartition (pid : Z)
| OpSetExecutionClass (c : id_ref FteTaskExecutionClass)
| OpReleaseDeferred (c : option (id_ref FteTaskExecutionClass))
| OpScheduleNext (c : option (id_ref FteTaskExecutionClass))
| OpStartAttempt (pid : Z)
| OpTaskFailed (a : id_ref FteTaskAttemptId) (err : pyval) (retryable schedule : bool)
| OpRevoke (w : option string) (n : option Z) (reason : pyval)
| OpWorkerFailed (w : string) (err : pyval) (retryable : bool) (by_id : option (list (Z * bool))) (schedule : bool)
| OpTaskFinished (a : id_ref FteTaskAttemptId) (stats : pyval)
| OpTaskStatus (status : list (pyval * pyval)) (retryable schedule : bool)
| OpCommandSuccess (c : FteWorkerCommand)
| OpPopCommands
| OpMarkWaiting (pid now : Z)
| OpMarkNoMatching (pid now later : Z)
| OpResetNoMatching (pid : Z)
| OpDeferReady (pid : Z).

Definition forget {A} (m : ST FragmentExecution A) : ST FragmentExecution unit := let! _ := m in sret tt.

Definition run_op (env : Env) (op : fe_op) : ST FragmentExecution unit :=
  match op with
  | OpAddPartition pid node => forget (add_partition pid node)
  | OpApplyAssignment res => forget (apply_assignment_result env res)
  | OpApplyTaskUpdate pid u => forget (apply_task_update pid u)
  | OpUpdatePartition u => forget (update_partition env u)
  | OpSealPartition pid => forget (seal_partition env pid)
  | OpSetExecutionClass c => forget (set_execution_class c)
  | OpReleaseDeferred c => forget (release_deferred_execution_partitions env c)
  | OpScheduleNext c => forget (schedule_next_pending_partition env c)
  | OpStartAttempt pid => forget (start_attempt_with_worker env pid)
  | OpTaskFailed a err r sched => forget (task_failed env a err r sched)
  | OpRevoke w n reason => forget (revoke_speculative_attempts env w n reason)
  | OpWorkerFailed w err r by_id sched => forget (mark_worker_failed env w err r by_id sched)
  | OpTaskFinished a stats => forget (task_finished env a stats)
  | OpTaskStatus status r sched => forget (handle_task_status env status r sched)
  | OpCommandSuccess c => forget (handle_worker_command_success env c)
  | OpPopCommands => forget pop_worker_commands
  | OpMarkWaiting pid now => forget (on_partition pid (smodify (Partition.mark_waiting_for_node now)))
  | OpMarkNoMatching pid now later => forget (on_partition pid (Partition.mark_no_matching_node now later))
  | OpResetNoMatching pid => forget (on_partition pid (smodify Partition.reset_no_matching_node))
  | OpDeferReady pid => forget (on_partition pid (smodify Partition.defer_ready_for_execution))
  end.

(** The state after a sequence of calls, each of which may return or raise. *)
Definition run_ops (env : Env) (ops : list fe_op) (s : FragmentExecution) : FragmentExecution :=
  fold_left (fun s op => (run_op env op s).2) ops s.

Lemma forget_stable {A} (m : ST FragmentExecution A) : stable m -> stable (forget m).
Proof. intros. unfold forget. solve_stable. Qed.

Lemma run_op_stable env op `{!StableEnv env} : stable (run_op env op).
Proof.
  destruct op; cbn [run_op]; apply forget_stable;
    first [ apply add_partition_stable | apply apply_task_update_stable | apply set_fragment_class_stable
          | apply pop_commands_stable | by apply apply_assignment_stable | by apply update_partition_stable
          | by apply seal_partition_stable | by apply release_deferred_stable | by apply schedule_next_stable
          | by apply task_failed_stable | by apply revoke_stable | by apply mark_worker_failed_stable
          | by apply task_finished_stable | by apply handle_status_stable | by apply command_success_stable
          | by apply start_with_worker_stable | apply waiting_stable | apply defer_stable
          | apply no_matching_stable | apply reset_no_matching_stable ].
Qed.

Lemma run_ops_rel env ops s `{!StableEnv env} : fe_inv s -> fe_rel s (run_ops env ops s).
Proof.
  intros Hs. unfold run_ops. assert (fe_rel s s) as R by (by apply fe_rel_refl). revert R.
  generalize s at 2 4. induction ops as [|op ops IH]; intros x R; simpl; [done|].
  apply IH. by apply run_op_stable.
Qed.

(** A new execution on an exchange from which nothing was selected yet. *)
Lemma new_fe_inv q f frag w wid st n ex ctx rr plan reg info srcs scans exs mem s :
  Execution.new q f frag w wid st n ex ctx rr plan reg info srcs scans exs mem = Ok s ->
  (forall t, ex = Some t -> tracker_inv t /\ t.(tr_selected) = ∅) -> fe_inv s.
Proof.
  unfold Execution.new. intros H Hex. inv_ok. apply check_non_negative_ok in H1 as [-> ?].
  apply String.eqb_neq in H0. apply Z.leb_gt in H3.
  split; cbn; try done; [split; [apply strip_idemp|done]|constructor|].
  intros t Et. destruct (Hex t Et) as [? ->]. split; [done|]. intros pid. by rewrite lookup_empty.
Qed.

(** C1: Over any sequence of calls of the public methods on a new fragment
    execution, whatever each call returns or raises, every partition runs at most one attempt, under the current attempt number; it
    never makes more than [max_attempts] attempts; and the execution is
    marked failed exactly when one of its partitions has failed. The
    callbacks are those of [StableEnv]: each does to the execution only what
    the execution's own operations could do to it, so it keeps the invariant
    and undoes no outcome. *)
Theorem execution_attempts_bounded env q f frag w wid st n ex ctx rr plan reg info srcs scans exs mem s0 ops pid p :
  StableEnv env ->
  Execution.new q f frag w wid st n ex ctx rr plan reg info srcs scans exs mem = Ok s0 ->
  (forall t, ex = Some t -> tracker_inv t /\ t.(tr_selected) = ∅) ->
  let s := run_ops env ops s0 in
  od_get pid s.(fe_partitions) = Some p ->
  running_ok p /\ attempts_made p <= n /\
  (s.(fe_failed) = true <-> exists i p', od_get i s.(fe_partitions) = Some p' /\ p'.(p_failed) = true).
Proof.
  intros He Hnew Hex s Hp. pose proof (new_fe_inv _ _ _ _ _ _ _ _ _ _ _ _ _ _ _ _ _ _ Hnew Hex) as Hi0.
  pose proof (run_ops_rel env ops s0 Hi0) as R. fold s in R. pose proof (fr_inv _ _ R) as Hi.
  pose proof (fi_parts s Hi pid p Hp) as [].
  assert (fe_max_attempts s = n) as En.
  { rewrite (fr_max _ _ R). unfold Execution.new in Hnew. by inv_ok. }
  split_and!; [apply pk_inv|rewrite <- En, <- pk_max; by apply attempts_made_bound|].
  split; [apply Hi|]. intros (i & p' & Hp' & Hf). destruct (fi_parts s Hi i p' Hp'); auto.
Qed.

(** C2: The exchange and the execution agree on the selected attempts: after
    any sequence of calls of the public methods of an execution with its own
    exchange, the attempt the exchange exposes for a partition is the one
    with which the partition finished, and nothing is exposed for a partition
    that has not finished. The callbacks are those of [StableEnv]: each does
    to the execution and its exchange only what the execution's own
    operations could do. *)
Theorem exchange_agrees_with_execution env q f frag w wid st n t0 ctx rr plan reg info srcs scans exs mem s0 ops :
  StableEnv env ->
  Execution.new q f frag w wid st n (Some t0) ctx rr plan reg info srcs scans exs mem = Ok s0 ->
  tracker_inv t0 -> t0.(tr_selected) = ∅ ->
  let s := run_ops env ops s0 in
  exists t, s.(fe_exchange) = Some t /\ tracker_inv t /\
    forall pid, t.(tr_selected) !! pid =
      match od_get pid s.(fe_partitions) with
      | Some p => if p.(p_finished) then Some (current_attempt p) else None
      | None => None
      end.
Proof.
  intros He Hnew Ht0 Hs0 s. assert (forall t, Some t0 = Some t -> tracker_inv t /\ t.(tr_selected) = ∅) as Hex.
  { by intros t [= <-]. }
  pose proof (new_fe_inv _ _ _ _ _ _ _ _ _ _ _ _ _ _ _ _ _ _ Hnew Hex) as Hi0.
  pose proof (run_ops_rel env ops s0 Hi0) as R. fold s in R. pose proof (fr_inv _ _ R) as Hi.
  assert (is_Some s.(fe_exchange)) as [t Et].
  { apply (fr_exchange _ _ R). unfold Execution.new in Hnew. inv_ok. by eexists. }
  destruct (fi_exchange s Hi t Et) as [Ht Hsel]. exists t. split_and!; try done. intros pid. rewrite Hsel.
  unfold selected_of. destruct (od_get pid (fe_partitions s)) as [p|] eqn:Hp; [|done]. cbn [mbind option_bind].
  apply (pi_selected _ (pk_inv _ _ _ (fi_parts s Hi pid p Hp))).
Qed.

(** C3: Finished and failed partitions are final: from a state that satisfies
    the invariant, no sequence of calls of the public methods changes the
    flags, the selected attempt, its statistics or the recorded failures of a
    partition that was terminal, and partitions never disappear. The
    callbacks are those of [StableEnv], which undo no outcome themselves. *)
Theorem execution_outcomes_final env s ops pid p :
  StableEnv env -> fe_inv s -> od_get pid s.(fe_partitions) = Some p ->
  exists p', od_get pid (run_ops env ops s).(fe_partitions) = Some p' /\
    (terminal p = true -> outcome p' = outcome p).
Proof.
  intros He Hs Hp. pose proof (run_ops_rel env ops s Hs) as R.
  destruct (fr_parts _ _ R _ _ Hp) as (p' & tr & Hp' & A). exists p'. split; [done|]. apply A.
Qed.

(** ** A concrete execution *)

(** Workers answer every call; partitions are admitted as soon as asked. *)
Definition demo_env : Env :=
  MkEnv (fun _ => 0) (fun _ _ => Ok PNone) None None (Some (fun _ => sret true)) None None None None.

#[export] Instance demo_env_stable : StableEnv demo_env.
Proof. split; try done. intros f pid [= <-]. apply stable_ret. Qed.

Definition demo_execution : FragmentExecution :=
  match Execution.new "q" 0 "f" (Some 7%N) (Some "w") (Store.new [] 0 None) 2
    (Some (ExchangeTracker.new "q" "e")) [] [] PNone PNone [] ∅ ∅ ∅ 1024 with
  | Ok s => s
  | Raise _ => MkExecution "" 0 "" None None (Store.new [] 0 None) 0 None [] [] PNone PNone [] STANDARD ∅ ∅ ∅ []
                 false false None [] 0 []
  end.

Lemma demo_execution_new : Execution.new "q" 0 "f" (Some 7%N) (Some "w") (Store.new [] 0 None) 2
    (Some (ExchangeTracker.new "q" "e")) [] [] PNone PNone [] ∅ ∅ ∅ 1024 = Ok demo_execution.
Proof. vm_compute. reflexivity. Qed.

Definition demo_attempt_of (n : Z) : id_ref FteTaskAttemptId :=
  RObj (MkFteTaskAttemptId (MkFteTaskId "q" 0 0) n).

(** One partition: its first attempt is lost, the second is started by the
    handler of worker events and finishes. *)
Definition demo_ops : list fe_op :=
  [OpUpdatePartition (MkPartitionUpdate 0 "scan" [MkFteSplit "scan" 0 "file" PNone 0 None [] true None] false true);
   OpTaskFailed (demo_attempt_of 0) (PStr "worker lost") true false;
   OpMarkWaiting 0 5; OpStartAttempt 0;
   OpTaskFinished (demo_attempt_of 1) (PDict [])].

Lemma demo_exchange_ok (t : Tracker) :
  Some (ExchangeTracker.new "q" "e") = Some t -> tracker_inv t /\ t.(tr_selected) = ∅.
Proof. intros [= <-]. split; [apply new_tracker_inv|done]. Qed.

Lemma execution_attempts_bounded_witness :
  exists p, od_get 0 (run_ops demo_env demo_ops demo_execution).(fe_partitions) = Some p /\ attempts_made p <= 2.
Proof.
  destruct (od_get 0 (run_ops demo_env demo_ops demo_execution).(fe_partitions)) as [p|] eqn:E.
  - exists p. split; [done|].
    exact (proj1 (proj2 (execution_attempts_bounded demo_env _ _ _ _ _ _ _ _ _ _ _ _ _ _ _ _ _ demo_execution
      demo_ops 0 p _ demo_execution_new demo_exchange_ok E))).
  - exfalso. revert E. vm_compute. discriminate.
Defined.

Lemma exchange_agrees_with_execution_witness :
  exists t, (run_ops demo_env demo_ops demo_execution).(fe_exchange) = Some t /\ t.(tr_selected) !! 0 = Some 1.
Proof.
  destruct (exchange_agrees_with_execution demo_env _ _ _ _ _ _ _ _ _ _ _ _ _ _ _ _ _ demo_execution demo_ops _
    demo_execution_new (new_tracker_inv "q" "e") eq_refl) as (t & Et & _ & Hs).
  exists t. split; [exact Et|]. rewrite Hs. vm_compute. reflexivity.
Defined.

Lemma execution_outcomes_final_witness :
  exists p p', od_get 0 (run_ops demo_env demo_ops demo_execution).(fe_partitions) = Some p /\
    terminal p = true /\
    od_get 0 (run_ops demo_env [OpTaskFailed (demo_attempt_of 1) (PStr "late") true true]
      (run_ops demo_env demo_ops demo_execution)).(fe_partitions) = Some p' /\ outcome p' = outcome p.
Proof.
  destruct (od_get 0 (run_ops demo_env demo_ops demo_execution).(fe_partitions)) as [p|] eqn:E.
  2: { exfalso. revert E. vm_compute. discriminate. }
  assert (terminal p = true) as Ht.
  { revert E. vm_compute. intros [= <-]. reflexivity. }
  destruct (execution_outcomes_final demo_env (run_ops demo_env demo_ops demo_execution)
    [OpTaskFailed (demo_attempt_of 1) (PStr "late") true true] 0 p _
    (fr_inv _ _ (run_ops_rel demo_env demo_ops demo_execution
       (new_fe_inv _ _ _ _ _ _ _ _ _ _ _ _ _ _ _ _ _ _ demo_execution_new demo_exchange_ok))) E) as (p' & E' & Ho).
  exists p, p'. split_and!; [done|exact Ht|exact E'|exact (Ho Ht)].
Defined.
