(* ===== verification/ExecutionOutcomes.v ===== *)
(** * What single operations of an execution do

    Functional theorems about [task_failed], [update_partition],
    [start_attempt_with_worker] and [handle_task_status]: the verdict on a
    lost attempt, and which commands carry which splits to which attempt. *)

From S2P Require Import Prelude PyStr PyVal FteTypes FteState FteFailures SplitAssigner Exchange ExchangeProofs.
From S2P Require Import OutputBuffers Descriptor DescriptorProofs DescriptorStorage Partition PartitionProofs.
From S2P Require Import Execution ExecutionCommands ExecutionInv ExecutionProofs ExecutionTheorems.

#[local] Open Scope string_scope.
#[local] Open Scope list_scope.
#[local] Open Scope Z_scope.

Import Execution.

(** ** The verdict on a lost attempt *)

(** Whether a lost attempt may be tried again. *)
Definition may_retry (p : FteTaskPartition) (err : pyval) (retryable : bool) : bool :=
  retryable && failure_allows_retry err true && (1 <? p.(p_remaining_attempts)) && negb (is_memory_failure err).

(** A speculative partition that is not sealed waits for its seal. *)
Definition retries_now (p : FteTaskPartition) : bool :=
  p.(p_sealed) || negb (ExecutionClass.is_speculative p.(p_execution_class)).

Lemma wp_total {S A} (m : ST S A) Q s :
  wp m Q (fun _ _ => False) s -> exists a s', m s = (Ok a, s') /\ Q a s'.
Proof. unfold wp. destruct (m s) as [[a|e] s']; [|done]. eauto. Qed.

Lemma wp_and {S A} (m : ST S A) (Q1 Q2 : A -> S -> Prop) E1 E2 s :
  wp m Q1 E1 s -> wp m Q2 E2 s -> wp m (fun a s' => Q1 a s' /\ Q2 a s') (fun e s' => E1 e s' /\ E2 e s') s.
Proof. unfold wp. by destruct (m s) as [[a|e] s']. Qed.

(** Reporting the running attempt failed is never refused or ignored. *)
Lemma mark_failed_running a r err b p :
  part_inv p -> names_running (RObj a) p a r ->
  wp (Partition.mark_attempt_failed (RObj a) err b)
    (fun ready q => let retry := b && (1 <? p.(p_remaining_attempts)) in
       lost a.(attempt_id) err (negb retry) p q /\
       ready = if retry then Some (MkReadyTask p.(p_task_id) "retry") else None)
    (fun _ _ => False) p.
Proof.
  intros Hpi Hn. pose proof (mark_failed_wp (RObj a) err b p Hpi) as H1.
  assert (wp (Partition.mark_attempt_failed (RObj a) err b) (fun _ _ => True) (fun _ _ => False) p) as H2.
  { destruct Hn as (_ & E & _). unfold Partition.mark_attempt_failed. apply wp_bind_ok. cbv zeta. wp_step.
    unfold Partition.validate_attempt_task. do 3 wp_step; [by wp_run|]. by rewrite bool_decide_eq_true_2 in H. }
  unfold wp in *. destruct (Partition.mark_attempt_failed _ _ _ p) as [[ready|e] q]; [|done].
  destruct H1 as [_ [(_ & _ & Hno)|(a' & r' & (Ha & _) & H1)]]; [by destruct (Hno a r)|].
  by injection Ha as <-.
Qed.

(** The exchange accepts the abort of a sink it knows. *)
Lemma sink_aborted_total h a t :
  t.(tr_sinks) !! h.(sh_partition_id) = Some h -> 0 <= h.(sh_partition_id) -> 0 <= a ->
  wp (ExchangeTracker.sink_aborted h a) (fun _ _ => True) (fun _ _ => False) t.
Proof.
  intros Hh Hp Ha. unfold ExchangeTracker.sink_aborted, ExchangeTracker.require_sink, ExchangeTracker.on_selector,
    OutputSelector.record_aborted.
  do 3 wp_step. wp_step; [|by apply bool_decide_eq_true in H].
  do 2 wp_step. rewrite (check_non_negative_id _ a) by done. apply wp_bind_ok. do 5 wp_step.
  destruct (sel_final _); [by wp_step|].
  rewrite (check_non_negative_id _ (sh_partition_id h)) by done. apply wp_bind_ok.
  apply wp_bind_ok. by wp_step.
Qed.

(** Recording an abort changes the exchange only. *)
Lemma exchange_aborted_frame s pid p n :
  fe_inv s -> od_get pid s.(fe_partitions) = Some p -> 0 <= n ->
  wp (exchange_sink_aborted p.(p_sink_handle) n)
    (fun _ s' => s'.(fe_partitions) = s.(fe_partitions) /\ s'.(fe_failed) = s.(fe_failed)) (fun _ _ => False) s.
Proof.
  intros Hi Hp Hn. pose proof (fi_parts s Hi _ _ Hp) as Hok. unfold exchange_sink_aborted. do 2 wp_step.
  destruct (fe_exchange s) as [t|] eqn:Et; [|by wp_step].
  destruct (pk_sink _ _ _ Hok t Et) as (h & -> & Hh). destruct (fi_exchange s Hi t Et) as [Ht _].
  destruct (tinv_handles t Ht _ _ Hh) as [Eh Hpid].
  assert (sh_partition_id h = pid) as Ehp by (by rewrite Eh). unfold on_exchange. apply wp_zoom.
  eapply wp_mono; [apply sink_aborted_total; by rewrite ?Ehp|by intros|by intros].
Qed.

(** The verdict, and that the partition does not finish. *)
Definition verdict (s : FragmentExecution) (pid : Z) (p : FteTaskPartition) (r : RunningAttempt) (err : pyval)
    (retryable : bool) (x : option RunningAttempt * bool) (s' : FragmentExecution) : Prop :=
  x = (Some r, may_retry p err retryable && retries_now p) /\
  exists q, od_get pid s'.(fe_partitions) = Some q /\
    q.(p_running_attempts) = [] /\ q.(p_failures) = p.(p_failures) ++ [err] /\
    q.(p_remaining_attempts) = p.(p_remaining_attempts) - 1 /\
    q.(p_finished) = false /\ q.(p_failed) = negb (may_retry p err retryable) /\
    (may_retry p err retryable = true -> q.(p_ready_for_scheduling) = retries_now p) /\
    s'.(fe_failed) = s.(fe_failed) || negb (may_retry p err retryable).

Lemma task_failed_locked_wp s pid p r err retryable :
  fe_inv s -> od_get pid s.(fe_partitions) = Some p -> Partition.running_attempt p = Ok (Some r) ->
  wp (task_failed_locked r.(ra_attempt_id) err retryable) (verdict s pid p r err retryable) (fun _ _ => False) s.
Proof.
  intros Hi Hp Hr. pose proof (fi_parts s Hi _ _ Hp) as Hok. pose proof (pk_inv _ _ _ Hok) as Hpi.
  assert (p.(p_running_attempts) = [(current_attempt p, r)] /\
          r.(ra_attempt_id) = MkFteTaskAttemptId p.(p_task_id) (current_attempt p)) as [Hrun Hid].
  { unfold Partition.running_attempt in Hr. destruct (pi_running _ Hpi) as [E|(r' & E & ? & _)]; rewrite E in Hr; [done|].
    injection Hr as ->. done. }
  assert (0 <= current_attempt p) as Hn by (unfold current_attempt; destruct Hpi; lia).
  set (a := ra_attempt_id r) in *. assert (partition_id (task_id a) = pid) as Epid by (by rewrite Hid, (pk_task _ _ _ Hok)).
  assert (od_get (attempt_id a) (p_running_attempts p) = Some r) as Hg by (rewrite Hrun, Hid; cbn; by rewrite decide_True).
  unfold verdict. assert (p_finished p = false) as Hfin by (by apply (od_get_running p (attempt_id a) r Hpi)).
  unfold task_failed_locked. rewrite Epid. cbv zeta. wp_step. eapply get_partition_wp; [done|]. rewrite Hg.
  wp_step. eapply wp_mono; [apply (exchange_aborted_frame s pid p); [done|done|rewrite Hid; exact Hn]| |done].
  intros _ s1 [Hparts Hfailed]. wp_step. eapply on_partition_wp; [by rewrite Hparts|].
  eapply wp_mono; [apply (mark_failed_running a r); [done|split_and!; [done|by rewrite Hid|done]]| |done].
  cbv zeta. intros ready q [L ->].
  match goal with |- wp _ _ _ ?x => set (s2 := x) end.
  assert (od_get pid s2.(fe_partitions) = Some q) as Hq by (cbn; rewrite Hparts; apply od_get_set_eq).
  assert (fe_failed s2 = fe_failed s) as Hf2 by done. clearbody s2.
  unfold may_retry. destruct L. rewrite Hfin in lost_finished.
  destruct (retryable && failure_allows_retry err true && (1 <? p_remaining_attempts p)) eqn:Eretry; cbn [andb negb].
  - destruct (is_memory_failure err); cbn [negb andb].
    + wp_step. eapply on_partition_wp; [done|]. do 4 wp_step. split; [done|]. exists (Partition.abandon q). cbn.
      rewrite od_get_set_eq, orb_true_r. by split_and!.
    + wp_step. eapply get_partition_wp; [done|]. do 2 wp_step. rewrite lost_failed. unfold retries_now.
      rewrite lost_sealed, lost_class.
      destruct (p_sealed p), (ExecutionClass.is_speculative (p_execution_class p)); cbn [negb andb orb];
        wp_step; (eapply on_partition_wp; [done|]); do 2 wp_step; (split; [done|]); eexists; cbn;
        rewrite od_get_set_eq, Hf2, orb_false_r; by split_and!.
  - wp_step. eapply get_partition_wp; [done|]. do 3 wp_step. split; [done|]. exists q. rewrite lost_failed. cbn.
    rewrite orb_true_r. by split_and!.
Qed.

(** C30: The verdict on a lost attempt.  When the running attempt of a
    partition is reported failed, its failure is recorded and one attempt is
    spent.  The partition survives exactly when the caller and the failure
    payload allow a retry, an attempt is left, and it is not a memory
    failure; a surviving partition is ready at once, unless it is unsealed
    and speculative, in which case it waits for its seal; otherwise the
    partition and the execution fail.  The call does not raise. *)
Theorem task_failed_verdict s pid p r err retryable :
  fe_inv s -> od_get pid s.(fe_partitions) = Some p -> Partition.running_attempt p = Ok (Some r) ->
  exists x s', task_failed_locked r.(ra_attempt_id) err retryable s = (Ok x, s') /\
    verdict s pid p r err retryable x s'.
Proof. intros Hi Hp Hr. by apply wp_total, task_failed_locked_wp. Qed.

(** ** Commands *)

(** The commands recorded so far, wherever they are collected. *)
Definition commands (s : FragmentExecution) : list FteWorkerCommand :=
  match s.(fe_current_worker_commands) with Some l => l | None => s.(fe_worker_command_outbox) end.

Lemma record_command_wp c s :
  wp (record_worker_command c)
    (fun _ s' => commands s' = commands s ++ [c] /\ s'.(fe_storage) = s.(fe_storage) /\
       s'.(fe_partitions) = s.(fe_partitions)) (fun _ _ => False) s.
Proof.
  unfold record_worker_command. wp_step. unfold commands. by destruct (fe_current_worker_commands s) eqn:E; cbn; rewrite ?E.
Qed.

Lemma record_commands_wp {A} (f : A -> FteWorkerCommand) l s :
  wp (sfor l (fun x => record_worker_command (f x)))
    (fun _ s' => commands s' = commands s ++ map f l /\ s'.(fe_storage) = s.(fe_storage) /\
       s'.(fe_partitions) = s.(fe_partitions)) (fun _ _ => False) s.
Proof.
  revert s. induction l as [|x l IH]; intros s; cbn [sfor map]; [wp_step; by rewrite app_nil_r|].
  wp_step. eapply wp_mono; [apply record_command_wp| |done]. intros ? s1 (E1 & E2 & E3).
  eapply wp_mono; [apply IH| |done]. intros ? s2 (F1 & F2 & F3).
  rewrite F1, E1, F2, F3, <- app_assoc. done.
Qed.

Lemma append_no_more src xs d :
  wp (Descriptor.append_splits src xs) (fun _ d' => d'.(d_no_more_splits) = d.(d_no_more_splits)) (fun _ _ => True) d.
Proof.
  unfold Descriptor.append_splits. do 2 wp_step. do 2 wp_step; [|done]. do 2 wp_step; [|done].
  do 4 wp_step. apply (wp_fold (fun _ _ => True)); [|by destruct a].
  intros acc x d' _ Hd'. unfold Descriptor.append_split. do 2 wp_step; [|done]. do 2 wp_step. by wp_run.
Qed.

Lemma mark_no_more_exact src d :
  wp (Descriptor.mark_no_more_splits src)
    (fun b d' => b = negb (bool_decide (src ∈ d.(d_no_more_splits))) /\ src ∈ d'.(d_no_more_splits) /\
       d'.(d_initial_splits) = d.(d_initial_splits) /\ d'.(d_seen_sequences) = d.(d_seen_sequences))
    (fun _ _ => False) d.
Proof.
  unfold Descriptor.mark_no_more_splits. do 4 wp_step. cbn. case_bool_decide as E; [by wp_step|].
  do 3 wp_step. cbn. split_and!; try done. set_solver.
Qed.

(** What an update does to the descriptor of its partition. *)
Record absorbed (u : PartitionUpdate) (d d' : TaskDescriptor) (added : list FteSplit) : Prop := {
  ab_splits : Descriptor.splits_of d' u.(pu_source_node_id) = Descriptor.splits_of d u.(pu_source_node_id) ++ added;
  ab_added : forall x, x ∈ added -> x ∈ u.(pu_splits) /\ x.(sequence_id) ∉ Descriptor.seen_of d u.(pu_source_node_id);
  ab_seen : forall x, x ∈ u.(pu_splits) -> x.(sequence_id) ∈ Descriptor.seen_of d' u.(pu_source_node_id);
}.

Lemma on_descriptor_wp {A} r d (m : ST TaskDescriptor A) (Q : A -> FragmentExecution -> Prop) E s :
  s.(fe_storage).(st_heap) !! r = Some d ->
  wp m (fun a d' => Q a (s <| fe_storage := s.(fe_storage) <| st_heap ::= <[r := d']> |> |>))
       (fun e d' => E e (s <| fe_storage := s.(fe_storage) <| st_heap ::= <[r := d']> |> |>)) d ->
  wp (on_descriptor r m) Q E s.
Proof.
  intros Hd H. unfold on_descriptor. do 2 wp_step. unfold Store.deref. rewrite Hd. apply wp_bind_ok. by apply wp_zoom.
Qed.

Lemma append_absorbs u d :
  desc_inv d ->
  wp (Descriptor.append_splits u.(pu_source_node_id) (map RObj u.(pu_splits)))
    (fun added d' => absorbed u d d' added /\ d'.(d_no_more_splits) = d.(d_no_more_splits))
    (fun _ _ => True) d.
Proof.
  intros Hd. set (src := pu_source_node_id u).
  pose proof (append_splits_wp d src (map RObj (pu_splits u)) d (conj Hd (evolves_refl d))) as H1.
  pose proof (append_no_more src (map RObj (pu_splits u)) d) as H2. unfold wp in *.
  destruct (Descriptor.append_splits src (map RObj (pu_splits u)) d) as [[added|e] d1]; [|done].
  destruct H1 as (_ & _ & _ & l & El & E1 & E2 & E3). split; [|done].
  assert (rmapM (split_of src) (map RObj (pu_splits u)) = Ok (pu_splits u)) as El'.
  { generalize (pu_splits u). intros xs. induction xs as [|x xs IH]; simpl; [done|]. by rewrite IH. }
  rewrite El' in El. injection El as <-. split; fold src.
  - by rewrite E1, decide_True.
  - done.
  - done.
Qed.

Lemma mark_absorbs u d d1 added :
  absorbed u d d1 added ->
  wp (Descriptor.mark_no_more_splits u.(pu_source_node_id))
    (fun b d' => absorbed u d d' added /\ b = negb (bool_decide (u.(pu_source_node_id) ∈ d1.(d_no_more_splits))))
    (fun _ _ => False) d1.
Proof.
  intros [A1 A2 A3]. eapply wp_mono; [apply mark_no_more_exact| |done]. intros b d' (-> & _ & E1 & E2).
  split; [|done]. split; unfold Descriptor.splits_of, Descriptor.seen_of in *; by rewrite ?E1, ?E2.
Qed.

(** The commands that bring an update to a running attempt. *)
Definition forward_commands (env : Env) (head : CommandHead) (source : string) (added : list FteSplit) (marked : bool)
    : list FteWorkerCommand :=
  map (fun batch => FteAddSplitsCommand head source (map (fun x => PDict (Split.to_dict x)) batch))
    (split_update_batches env added) ++
  (if marked then [FteNoMoreSplitsCommand head source] else []).

(** What an update of a partition with a running attempt [r] leaves. *)
Definition forwarded (env : Env) (u : PartitionUpdate) (s : FragmentExecution) (p : FteTaskPartition) (r : RunningAttempt)
    (s' : FragmentExecution) : Prop :=
  exists d d' added,
    s.(fe_storage).(st_heap) !! p.(p_descriptor) = Some d /\
    s'.(fe_storage).(st_heap) !! p.(p_descriptor) = Some d' /\ absorbed u d d' added /\
    commands s' = commands s ++ forward_commands env
      (MkHead s.(fe_query_id) s.(fe_fragment_id) r.(ra_worker_id) r.(ra_remote_handle) r.(ra_attempt_id))
      u.(pu_source_node_id) added
      (u.(pu_no_more_splits) && negb (bool_decide (u.(pu_source_node_id) ∈ d.(d_no_more_splits)))).

Lemma update_running_wp env u s p r :
  fe_inv s -> od_get u.(pu_partition_id) s.(fe_partitions) = Some p ->
  Partition.running_attempt p = Ok (Some r) ->
  wp (update_partition_locked env u) (fun b s' => b = false /\ forwarded env u s p r s') (fun _ _ => True) s.
Proof.
  intros Hi Hp Hr. pose proof (fi_parts s Hi _ _ Hp) as Hok.
  destruct (pk_descriptor _ _ _ Hok) as (d & Hd & _ & Hdi).
  pose proof (lookup_lt_Some _ _ _ Hd) as Hlt.
  unfold update_partition_locked, add_partition. rewrite check_non_negative_id by apply Hok.
  apply wp_bind. apply wp_bind_ok. do 2 wp_step. rewrite Hp.
  assert (forall s, wp (match p_node_requirements p, @None NodeRequirements with
    | None, Some _ => on_partition (pu_partition_id u) (smodify (fun p => p <| p_node_requirements := None |>))
    | _, _ => sret tt end) (fun _ s' => s' = s) (fun _ _ => True) s) as Hnode.
  { intros x. by destruct (p_node_requirements p). }
  wp_step. eapply wp_mono; [apply Hnode| |done]. intros ? ? ->. do 2 wp_step. eapply get_partition_wp; [done|].
  rewrite Hr. apply wp_bind_ok. wp_step. eapply on_descriptor_wp; [done|].
  eapply wp_mono; [by apply append_absorbs| |done]. intros added d1 [Hab Hnm].
  match goal with |- wp _ _ _ ?x => set (s1 := x) end.
  assert (s1.(fe_storage).(st_heap) !! p.(p_descriptor) = Some d1) as Hd1 by (cbn; by apply list_lookup_insert_eq).
  wp_step. apply (wp_mono (fun _ _ => True) _ (fun marked s2 =>
    marked = u.(pu_no_more_splits) && negb (bool_decide (u.(pu_source_node_id) ∈ d.(d_no_more_splits))) /\
    commands s2 = commands s /\ s2.(fe_query_id) = s.(fe_query_id) /\ s2.(fe_fragment_id) = s.(fe_fragment_id) /\
    exists d', s2.(fe_storage).(st_heap) !! p.(p_descriptor) = Some d' /\ absorbed u d d' added)); [| |done].
  { destruct (pu_no_more_splits u); [|wp_step; split_and!; try done; by exists d1].
    eapply on_descriptor_wp; [done|]. eapply wp_mono; [by eapply mark_absorbs| |done].
    intros ? d2 [Hab2 ->]. rewrite Hnm. split_and!; try done. exists d2. cbn. rewrite list_insert_insert_eq.
    split; [by apply list_lookup_insert_eq|done]. }
  intros marked s2 (-> & Ec & Eq & Ef & d' & Hd' & Hab').
  rewrite bool_decide_eq_false_2 by done. cbn [andb]. do 2 wp_step. rewrite Eq, Ef. wp_step.
  eapply wp_mono; [apply record_commands_wp| |done].
  intros ? s3 (F1 & F2 & F3). rewrite Ec in F1. destruct (pu_no_more_splits u && _) eqn:Em.
  - wp_step. eapply wp_mono; [apply record_command_wp| |done]. intros ? s4 (G1 & G2 & G3). wp_step. split; [done|].
    exists d, d', added. unfold forward_commands. split_and!; [done|by rewrite G2, F2|done|].
    rewrite G1, F1, Em, <- app_assoc. done.
  - do 3 wp_step. split; [done|]. exists d, d', added. unfold forward_commands. split_and!; [done|by rewrite F2|done|].
    by rewrite F1, Em, app_nil_r.
Qed.

(** An update of a partition with a running attempt reaches that attempt
    completely: the descriptor absorbs the new splits, exactly those splits
    are sent to the running attempt and no other, batched in order, and the
    end of the source is announced exactly when the update ends it for the
    first time; no attempt is scheduled. *)
Theorem update_reaches_running_attempt env u s p r b s' :
  fe_inv s -> od_get u.(pu_partition_id) s.(fe_partitions) = Some p ->
  Partition.running_attempt p = Ok (Some r) ->
  update_partition_locked env u s = (Ok b, s') ->
  b = false /\ forwarded env u s p r s'.
Proof.
  intros Hi Hp Hr Hrun. exact (wp_use _ _ _ _ _ _ (update_running_wp env u s p r Hi Hp Hr) Hrun).
Qed.

(** ** The first command of an attempt *)

Lemma request_fields d n sink request :
  Descriptor.to_create_task_request d n sink = Ok request -> 0 <= n ->
  pd_get "task_id" request = PDict (TaskAttemptId.to_dict (MkFteTaskAttemptId d.(d_task_id) n)) /\
  pd_get "initial_splits" request = UpdateRequest.splits_value d.(d_initial_splits) /\
  pd_get "no_more_splits" request = names_value d.(d_no_more_splits).
Proof.
  unfold Descriptor.to_create_task_request, TaskAttemptId.new. cbn [rbind TaskId.coerce]. intros H Hn.
  rewrite check_non_negative_id in H by done. cbn [rbind] in H. injection H as <-. done.
Qed.

Definition carries (request : list (pyval * pyval)) (a : FteTaskAttemptId) (d : TaskDescriptor) : Prop :=
  pd_get "task_id" request = PDict (TaskAttemptId.to_dict a) /\
  pd_get "initial_splits" request = UpdateRequest.splits_value d.(d_initial_splits) /\
  pd_get "no_more_splits" request = names_value d.(d_no_more_splits).

Lemma carries_set k v request a d :
  k ∉ ["task_id"; "initial_splits"; "no_more_splits"] -> carries request a d -> carries (pd_set k v request) a d.
Proof.
  intros Hk (H1 & H2 & H3). rewrite !not_elem_of_cons in Hk. destruct Hk as (K1 & K2 & K3 & _).
  unfold carries. rewrite !pd_get_set.
  apply String.eqb_neq in K1 as ->, K2 as ->, K3 as ->. done.
Qed.

Lemma start_carries d now sink wid w p :
  part_inv p -> d.(d_task_id) = p.(p_task_id) ->
  wp (Partition.start_attempt d now sink wid w)
    (fun sa q => carries sa.(sa_request) sa.(sa_attempt_id) d /\ q.(p_descriptor) = p.(p_descriptor) /\
       exists r, Partition.running_attempt q = Ok (Some r) /\ r.(ra_attempt_id) = sa.(sa_attempt_id))
    (fun _ _ => True) p.
Proof.
  intros Hi Hd. pose proof (start_attempt_wp d now sink wid w p Hi) as Hw. unfold wp in *.
  destruct (Partition.start_attempt d now sink wid w p) as [[sa|e] q] eqn:E; [|done].
  destruct Hw as (A & _ & _ & Eid & r & Hr & Hra & _). split; [|split; [apply A|]].
  - unfold Partition.start_attempt in E. srun E. cbn [sa_request sa_attempt_id] in *. subst.
    unfold Partition.next_attempt_number in E0. inv_ok.
    assert (0 <= current_attempt p) as Hn by (unfold current_attempt; destruct Hi; lia).
    apply request_fields in E2; [|done]. rewrite Hd in E2.
    assert (carries v1 (MkFteTaskAttemptId (p_task_id p) (current_attempt p)) d) as Hc by done.
    apply carries_set; [by vm_compute; set_solver|]. destruct (p_memory_requirement_bytes p); [|done].
    apply carries_set; [by vm_compute; set_solver|done].
  - exists r. unfold Partition.running_attempt. by rewrite Hr.
Qed.

Lemma call_on_wp env w c s :
  wp (call_on env w c)
    (fun _ s' => s'.(fe_partitions) = s.(fe_partitions) /\ s'.(fe_storage) = s.(fe_storage)) (fun _ _ => True) s.
Proof. unfold call_on. destruct w; [|done]. unfold wp, call. by destruct (env_reply env s _). Qed.

(** The attempt [sa] of a partition is running, and the last command
    recorded creates it with everything its descriptor holds. *)
Definition created (pid : Z) (sa : ScheduledAttempt) (s : FragmentExecution) : Prop :=
  exists p d r head before,
    od_get pid s.(fe_partitions) = Some p /\ s.(fe_storage).(st_heap) !! p.(p_descriptor) = Some d /\
    Partition.running_attempt p = Ok (Some r) /\ r.(ra_attempt_id) = sa.(sa_attempt_id) /\
    carries sa.(sa_request) sa.(sa_attempt_id) d /\
    head.(cmd_attempt_id) = sa.(sa_attempt_id) /\
    commands s = before ++ [FteCreateTaskCommand head pid sa.(sa_request)].

Lemma start_with_worker_wp env pid s `{!StableEnv env} :
  fe_inv s -> wp (start_attempt_with_worker env pid) (created pid) (fun _ _ => True) s.
Proof.
  intros Hs. unfold start_attempt_with_worker. wp_step.
  eapply wp_mono; [apply (stable_use _ s); [by apply select_worker_stable|by apply fe_rel_refl]| |done].
  intros [wid w] s1 R1. wp_step.
  eapply wp_mono; [apply (stable_use _ s); [apply attempt_sink_stable|exact R1]| |done].
  intros sink s2 R2. cbv beta in R2. pose proof (fr_inv _ _ R2) as Hi. do 2 wp_step.
  destruct (od_get pid (fe_partitions s2)) as [p|] eqn:Hp; [|by apply unknown_partition_wp].
  pose proof (fi_parts s2 Hi _ _ Hp) as Hok. destruct (pk_descriptor _ _ _ Hok) as (d & Hd & Ed & _).
  wp_step. eapply get_partition_wp; [done|]. unfold Store.deref. rewrite Hd. apply wp_bind_ok.
  wp_step. eapply on_partition_wp; [done|]. eapply wp_mono; [by apply start_carries; [apply Hok|]| |done].
  intros sa q (Hc & Eq & r & Hr & Hra). wp_step. eapply wp_mono; [apply call_on_wp| |done].
  intros reg s3 (F1 & F2). cbv zeta. wp_step. eapply wp_mono; [apply record_command_wp| |done].
  intros ? s4 (G1 & G2 & G3). wp_step. rewrite (pk_task _ _ _ Hok) in G1. cbn [partition_id] in G1.
  exists q, d, r. do 2 eexists. cbn [sa_request sa_attempt_id set_field]. split_and!; [| | | | | |exact G1]; try done.
  - rewrite G3, F1. cbn. apply od_get_set_eq.
  - rewrite G2, F2, Eq. done.
  - destruct (is_none (pd_get "fragment_registration_result" _)); [|apply carries_set; [by vm_compute; set_solver|]];
      (destruct (is_none reg); [done|apply carries_set; [by vm_compute; set_solver|done]]).
Qed.

(** Starting an attempt hands the worker the whole descriptor: when the
    call succeeds, the attempt is the partition's running attempt, and the
    last recorded command creates exactly this attempt with every split and
    every finished source the descriptor holds. *)
Theorem start_attempt_carries_descriptor env pid s sa s' :
  StableEnv env -> fe_inv s -> start_attempt_with_worker env pid s = (Ok sa, s') -> created pid sa s'.
Proof. intros He Hs Hrun. exact (wp_use _ _ _ _ _ _ (start_with_worker_wp env pid s Hs) Hrun). Qed.

(** ** Statuses *)

(** Recording progress statistics leaves the attempts alone. *)
Lemma stats_frame a v p :
  wp (Partition.update_running_task_stats (RObj a) v)
    (fun _ q => exists stats, q = p <| p_running_task_stats := stats |>)
    (fun _ q => q = p /\ a.(task_id) <> p.(p_task_id)) p.
Proof.
  assert (exists stats, p = p <| p_running_task_stats := stats |>) as Hp.
  { exists (p_running_task_stats p). by destruct p. }
  unfold Partition.update_running_task_stats. destruct v; try by wp_step. apply wp_bind_ok. wp_step.
  unfold Partition.validate_attempt_task. do 3 wp_step.
  - do 2 wp_step. destruct (od_mem _ _); wp_run; [|done]. by eexists.
  - split; [done|]. by apply negb_true_iff, bool_decide_eq_false in H.
Qed.

(** The partition [pid] has lost an attempt to [err] and is not finished. *)
Definition lost_attempt (pid : Z) (p : FteTaskPartition) (err : pyval) (s : FragmentExecution) : Prop :=
  exists q, od_get pid s.(fe_partitions) = Some q /\ q.(p_finished) = false /\
    q.(p_failures) = p.(p_failures) ++ [err] /\ q.(p_running_attempts) = [].

Lemma task_failed_lost env s pid p r err retryable :
  fe_inv s -> od_get pid s.(fe_partitions) = Some p -> Partition.running_attempt p = Ok (Some r) ->
  wp (task_failed env (RObj r.(ra_attempt_id)) err retryable false)
    (fun _ => lost_attempt pid p err) (fun _ => lost_attempt pid p err) s.
Proof.
  intros Hi Hp Hr. unfold task_failed. apply wp_bind_ok. wp_step.
  eapply wp_mono; [by apply (task_failed_locked_wp s pid p r)| |done].
  intros x s1 [-> (q & Hq & H1 & H2 & _ & H3 & _)]. rewrite andb_false_r.
  assert (lost_attempt pid p err s1) as Hl by (exists q; by split_and!).
  wp_step. unfold record_task_terminal. apply (wp_mono (fun _ => lost_attempt pid p err) _ (fun _ => lost_attempt pid p err));
    [|intros; by wp_step|done].
  wp_step. unfold call_on. destruct (ra_remote_handle r); [|by wp_step].
  unfold wp, call. destruct (env_reply env s1 _); destruct Hl as (q' & Hq' & ?); by exists q'.
Qed.

(** A FINISHED status without output statistics does not finish a
    partition whose output goes to an exchange: the attempt is treated as
    lost to an internal error and spent, in every case, whether or not the
    call itself raises. *)
Theorem finished_without_stats_is_lost env status retryable s pid p r t :
  fe_inv s -> s.(fe_exchange) = Some t ->
  od_get pid s.(fe_partitions) = Some p -> Partition.running_attempt p = Ok (Some r) ->
  upper (py_str (default (PStr "") (pd_find "state" status))) <> "UNKNOWN" ->
  attempt_id_from_status status = Ok r.(ra_attempt_id) ->
  task_state_from_status status = Ok FINISHED ->
  output_stats_from_status status = PNone ->
  lost_attempt pid p (missing_output_stats_failure r.(ra_attempt_id))
    (handle_task_status env status retryable false s).2.
Proof.
  intros Hi Et Hp Hr Hst Ha Hs Ho.
  assert (r.(ra_attempt_id).(task_id) = p.(p_task_id) /\ partition_id r.(ra_attempt_id).(task_id) = pid) as [Htask Epid].
  { pose proof (fi_parts s Hi _ _ Hp) as Hok. unfold Partition.running_attempt in Hr.
    destruct (pi_running _ (pk_inv _ _ _ Hok)) as [E|(r' & E & Hid & _)]; rewrite E in Hr; [done|].
    injection Hr as ->. rewrite Hid. by rewrite (pk_task _ _ _ Hok). }
  enough (wp (handle_task_status env status retryable false)
    (fun _ => lost_attempt pid p (missing_output_stats_failure r.(ra_attempt_id)))
    (fun _ => lost_attempt pid p (missing_output_stats_failure r.(ra_attempt_id))) s) as Hw.
  { unfold wp in Hw. by destruct (handle_task_status env status retryable false s) as [[?|?] s']. }
  unfold handle_task_status. apply String.eqb_neq in Hst as ->. rewrite Ha, Hs. do 2 apply wp_bind_ok.
  cbv zeta. rewrite Epid, Ho. wp_step.
  apply (wp_mono (fun _ _ => False) _ (fun _ s1 => fe_rel s s1 /\ s1.(fe_exchange) = Some t /\
    exists stats, od_get pid s1.(fe_partitions) = Some (p <| p_running_task_stats := stats |>))); [| |done].
  - assert (exists stats, Some p = Some (p <| p_running_task_stats := stats |>)) as Hsame.
    { exists (p_running_task_stats p). by destruct p. }
    destruct (status_task_stats status) as [|kv stats]; [wp_step; split_and!; [by apply fe_rel_refl|done|by rewrite Hp]|].
    do 2 wp_step. rewrite Hp. wp_step.
    assert (wp (on_partition pid (Partition.update_running_task_stats (RObj (ra_attempt_id r)) (PDict (kv :: stats))))
      (fun _ s1 => s1.(fe_exchange) = Some t /\
         exists st, od_get pid s1.(fe_partitions) = Some (p <| p_running_task_stats := st |>)) (fun _ _ => False) s) as H1.
    { eapply on_partition_wp; [done|]. eapply wp_mono; [apply stats_frame| |by intros ? ? [_ ?]].
      intros ? q [st ->]. split; [done|]. exists st. cbn. apply od_get_set_eq. }
    eapply wp_mono; [apply (wp_and _ _ _ _ _ _ (stable_use _ s s (task_stats_stable pid _ _) (fe_rel_refl s Hi)) H1)| |].
    + intros ? s1 [? ?]. by wp_step.
    + by intros ? ? [_ ?].
  - intros ? s1 (R & Et1 & st & Hp1). pose proof (fr_inv _ _ R) as Hi1.
    wp_step. eapply get_partition_wp; [done|]. do 2 wp_step. cbn [p_descriptor set_field].
    destruct (pk_descriptor _ _ _ (fi_parts s1 Hi1 _ _ Hp1)) as (d & Hd & _). cbn in Hd.
    unfold Store.deref. rewrite Hd. apply wp_bind_ok. cbn [is_none]. unfold partition_requires_finish_output_stats.
    rewrite Et1, bool_decide_eq_true_2 by done. cbn [orb]. apply wp_bind_ok.
    exact (task_failed_lost env s1 pid _ r _ retryable Hi1 Hp1 Hr).
Qed.

(** ** Witnesses *)

(** The concrete execution once its partition runs its first attempt. *)
Definition demo_running : FragmentExecution := run_ops demo_env (firstn 1 demo_ops) demo_execution.

Lemma demo_running_inv : fe_inv demo_running.
Proof.
  apply (run_ops_rel demo_env (firstn 1 demo_ops) demo_execution).
  exact (new_fe_inv _ _ _ _ _ _ _ _ _ _ _ _ _ _ _ _ _ _ demo_execution_new demo_exchange_ok).
Qed.

Definition demo_running_partition : FteTaskPartition :=
  match od_get 0 demo_running.(fe_partitions) with Some p => p | None => demo_partition end.
Definition demo_running_attempt : RunningAttempt :=
  match Partition.running_attempt demo_running_partition with
  | Ok (Some r) => r
  | _ => MkRunning (MkFteTaskAttemptId (MkFteTaskId "" 0 0) 0) None None (SIVal PNone) 0
  end.

Lemma task_failed_verdict_witness :
  exists x s', task_failed_locked demo_running_attempt.(ra_attempt_id) (PStr "connection reset") true demo_running = (Ok x, s') /\
    x.2 = true.
Proof.
  destruct (task_failed_verdict demo_running 0 demo_running_partition demo_running_attempt (PStr "connection reset") true
    demo_running_inv) as (x & s' & E & Hv & _).
  - vm_compute. reflexivity.
  - vm_compute. reflexivity.
  - exists x, s'. split; [exact E|]. rewrite Hv. vm_compute. reflexivity.
Defined.

Definition demo_more : PartitionUpdate :=
  MkPartitionUpdate 0 "scan" [MkFteSplit "scan" 1 "file" PNone 0 None [] true None] true false.

Lemma update_reaches_running_attempt_witness :
  forwarded demo_env demo_more demo_running demo_running_partition demo_running_attempt
    (update_partition_locked demo_env demo_more demo_running).2.
Proof.
  refine (proj2 (update_reaches_running_attempt demo_env demo_more demo_running demo_running_partition
    demo_running_attempt false _ demo_running_inv _ _ _)); vm_compute; reflexivity.
Defined.

(** Before the first attempt: the partition exists and is ready. *)
Definition demo_ready : FragmentExecution := run_ops demo_env [OpAddPartition 0 None] demo_execution.

Lemma start_attempt_carries_descriptor_witness :
  exists sa s', start_attempt_with_worker demo_env 0 demo_ready = (Ok sa, s') /\ created 0 sa s'.
Proof.
  destruct (start_attempt_with_worker demo_env 0 demo_ready) as [[sa|e] s'] eqn:E.
  - exists sa, s'. split; [reflexivity|].
    apply (start_attempt_carries_descriptor demo_env 0 demo_ready sa s' _); [|exact E].
    apply (run_ops_rel demo_env [OpAddPartition 0 None] demo_execution).
    exact (new_fe_inv _ _ _ _ _ _ _ _ _ _ _ _ _ _ _ _ _ _ demo_execution_new demo_exchange_ok).
  - exfalso. revert E. vm_compute. discriminate.
Defined.

Definition demo_status : list (pyval * pyval) :=
  pd_lit [("state", PStr "FINISHED"); ("task_id_string", PStr "q.0.0.0"); ("queue_wait_ms", PInt 3)].

Lemma finished_without_stats_is_lost_witness :
  lost_attempt 0 demo_running_partition (missing_output_stats_failure demo_running_attempt.(ra_attempt_id))
    (handle_task_status demo_env demo_status true false demo_running).2.
Proof.
  destruct (fe_exchange demo_running) as [t|] eqn:Et.
  - apply (finished_without_stats_is_lost demo_env demo_status true demo_running 0 demo_running_partition
      demo_running_attempt t demo_running_inv Et); try (vm_compute; reflexivity).
    vm_compute. discriminate.
  - exfalso. revert Et. vm_compute. discriminate.
Defined.

(** The memory-failure test looks for its tokens anywhere in the text, so a
    retryable failure whose text merely contains one of them inside another
    word is never retried. *)
Lemma memory_token_inside_word p :
  failure_allows_retry (PStr "bloom filter build failed") true = true /\
  may_retry p (PStr "bloom filter build failed") true = false.
Proof.
  split; [vm_compute; reflexivity|]. unfold may_retry.
  replace (is_memory_failure (PStr "bloom filter build failed")) with true by (vm_compute; reflexivity).
  by rewrite andb_false_r.
Qed.
