(* ===== verification/Scheduler.v ===== *)
(** * The per-query event scheduler

    Models [duckdb/runners/fte/fte_scheduler.py] and the events of
    [fte_events.py]: the queue of events with its single drainer, the
    deduplicated admission pulses, the back-pressure on task sources, the
    retry-delay generations, the command executor and the registry with its
    global admission pump.

    Task sources are objects in a heap: a registration holds references to
    the objects whose [pause] and [resume] it calls.  Event handlers are
    given from outside as programs on the scheduler's state, so a handler may
    enqueue events or call the scheduler again.  The loop of [drain] is
    driven by fuel; [None] tells that the fuel ran out. *)

From S2P Require Import Prelude PyStr PyVal FteTypes FteState Partition.

#[local] Open Scope string_scope.
#[local] Open Scope list_scope.
#[local] Open Scope Z_scope.

(** ** Events *)

Inductive FteEvent :=
| SplitEventsSubmitted (query : string) (events : list (list (pyval * pyval)))
| SourceInputExhausted (query : string) (source_node_ids : gset string)
| TaskStatusChanged (query : string) (attempt : FteTaskAttemptId) (status : list (pyval * pyval))
| WorkerFailed (query : string) (worker_id : string) (error : pyval) (failed_worker_ids : option (gset string))
| MemoryPressureDetected (query : string) (max_count_per_worker : option Z)
| ResourceAdmissionChanged (query : string) (execution_class : option string) (internal : bool)
| WorkerReservationCompleted (query : string) (fragment_execution_id : Z) (fragment_id : string)
    (partition_id reservation_generation : Z) (worker_id : option string) (error : pyval)
| RetryDelayExpired (query : string) (generation : Z)
| ExchangeSelectorUpdated (query : string) (consumer_fragment_id source_node_id : string)
    (selector : list (pyval * pyval))
| QueryAbort (query : string) (reason : pyval).

Module Event.

Definition query_of (e : FteEvent) : string :=
  match e with
  | SplitEventsSubmitted q _ | SourceInputExhausted q _ | TaskStatusChanged q _ _
  | WorkerFailed q _ _ _ | MemoryPressureDetected q _ | ResourceAdmissionChanged q _ _
  | WorkerReservationCompleted q _ _ _ _ _ _ | RetryDelayExpired q _
  | ExchangeSelectorUpdated q _ _ _ | QueryAbort q _ => q
  end.

Definition event_type (e : FteEvent) : string :=
  match e with
  | SplitEventsSubmitted _ _ => "SplitEventsSubmitted"
  | SourceInputExhausted _ _ => "SourceInputExhausted"
  | TaskStatusChanged _ _ _ => "TaskStatusChanged"
  | WorkerFailed _ _ _ _ => "WorkerFailed"
  | MemoryPressureDetected _ _ => "MemoryPressureDetected"
  | ResourceAdmissionChanged _ _ _ => "ResourceAdmissionChanged"
  | WorkerReservationCompleted _ _ _ _ _ _ _ => "WorkerReservationCompleted"
  | RetryDelayExpired _ _ => "RetryDelayExpired"
  | ExchangeSelectorUpdated _ _ _ _ => "ExchangeSelectorUpdated"
  | QueryAbort _ _ => "QueryAbort"
  end.

Definition from_source_node_ids (query : string) (ids : list string) : FteEvent :=
  SourceInputExhausted query (list_to_set ids).

Definition from_status (query : string) (attempt : id_ref FteTaskAttemptId) (status : list (pyval * pyval))
    : result FteEvent :=
  let* a := TaskAttemptId.coerce attempt in
  Ok (TaskStatusChanged query a status).

Definition from_selector (query consumer source : string) (selector : option (list (pyval * pyval)))
    : result FteEvent :=
  match selector with
  | None => Raise (ValueError "FTE exchange selector update requires selector payload")
  | Some d => Ok (ExchangeSelectorUpdated query consumer source d)
  end.

(** The class of an internal admission pulse. *)
Definition internal_class (e : FteEvent) : option (option string) :=
  match e with
  | ResourceAdmissionChanged _ c true => Some c
  | _ => None
  end.

End Event.

(** ** State *)

(** [FteEventDrivenTaskSource] *)
Record TaskSource := MkTaskSource {
  ts_source_id : string;
  ts_pause_count : Z;
  ts_resume_count : Z;
  ts_paused : bool;
  ts_closed : bool;
}.
#[export] Instance TaskSource_eta : Eta TaskSource :=
  fun r => MkTaskSource r.(ts_source_id) r.(ts_pause_count) r.(ts_resume_count) r.(ts_paused)
    r.(ts_closed).

(** [FteTaskSourceRegistration]; the callbacks are bound methods of a source object. *)
Record Registration := MkRegistration {
  reg_source_id : string;
  reg_pause : option nat;
  reg_resume : option nat;
  reg_high : Z;
  reg_low : Z;
  reg_paused : bool;
}.
#[export] Instance Registration_eta : Eta Registration :=
  fun r => MkRegistration r.(reg_source_id) r.(reg_pause) r.(reg_resume) r.(reg_high)
    r.(reg_low) r.(reg_paused).

Inductive SchedulerState := S_RUNNING | S_FAILED | S_ABORTED | S_CLOSED.
#[export] Instance SchedulerState_eq_dec : EqDecision SchedulerState.
Proof. solve_decision. Defined.

Record Scheduler := MkScheduler {
  sch_query_id : string;
  sch_events : list FteEvent;
  sch_state : SchedulerState;
  sch_processed_events : Z;
  sch_last_event_type : option string;
  sch_last_progress_at : option Z;
  sch_event_counts : list (string * Z);
  sch_fragment_states : list (string * pyval);
  sch_failure_reason : option string;
  sch_retry_delay_generation : Z;
  sch_retry_delay_timer : option Z;
  sch_draining : bool;
  sch_queued_internal : gset (option string);
  sch_failed_worker_ids : gset string;
  sch_task_sources : list (string * Registration);
  sch_objects : list TaskSource;
}.
#[export] Instance Scheduler_eta : Eta Scheduler :=
  fun r => MkScheduler r.(sch_query_id) r.(sch_events) r.(sch_state) r.(sch_processed_events)
    r.(sch_last_event_type) r.(sch_last_progress_at) r.(sch_event_counts)
    r.(sch_fragment_states) r.(sch_failure_reason) r.(sch_retry_delay_generation)
    r.(sch_retry_delay_timer) r.(sch_draining) r.(sch_queued_internal) r.(sch_failed_worker_ids)
    r.(sch_task_sources) r.(sch_objects).

Inductive callback := CbPause (o : nat) | CbResume (o : nat).

(** A handler returns the outputs of an event, or [None]. *)
Record FteEventHandlers := MkHandlers {
  on_split_events : option (list (list (pyval * pyval)) -> ST Scheduler (option (list pyval)));
  on_source_input_exhausted : option (gset string -> ST Scheduler (option (list pyval)));
  on_task_status_changed : option (FteEvent -> ST Scheduler (option (list pyval)));
  on_worker_failed : option (FteEvent -> ST Scheduler (option (list pyval)));
  on_memory_pressure_detected : option (FteEvent -> ST Scheduler (option (list pyval)));
  on_resource_admission_changed : option (FteEvent -> ST Scheduler (option (list pyval)));
  on_worker_reservation_completed : option (FteEvent -> ST Scheduler (option (list pyval)));
  on_retry_delay_expired : option (FteEvent -> ST Scheduler (option (list pyval)));
  on_exchange_selector_updated : option (FteEvent -> ST Scheduler (option (list pyval)));
  on_query_abort : option (FteEvent -> ST Scheduler (option (list pyval)));
}.

(** ** Task sources *)

Module Source.

Definition new (source_id : string) : TaskSource := MkTaskSource source_id 0 0 false false.

Definition pause (t : TaskSource) : TaskSource :=
  if t.(ts_closed) || t.(ts_paused) then t
  else t <| ts_paused := true |> <| ts_pause_count ::= fun n => n + 1 |>.

Definition resume (t : TaskSource) : TaskSource :=
  if t.(ts_closed) || negb t.(ts_paused) then t
  else t <| ts_paused := false |> <| ts_resume_count ::= fun n => n + 1 |>.

(** [close], up to the call of the scheduler. *)
Definition close (t : TaskSource) : TaskSource :=
  if t.(ts_closed) then t
  else
    let t := if t.(ts_paused) then t <| ts_paused := false |> <| ts_resume_count ::= fun n => n + 1 |> else t in
    t <| ts_closed := true |>.

End Source.

Module Sched.

(** [__init__] *)
Definition new (query : string) : result Scheduler :=
  let query := strip query in
  let* _ := raise_if (String.eqb query "") (ValueError "query_id must be non-empty") in
  Ok (MkScheduler query [] S_RUNNING 0 None None [] [] None 0 None false ∅ ∅ [] []).

Definition queue_size (s : Scheduler) : Z := Z.of_nat (length s.(sch_events)).

Definition run_callback (cb : callback) (s : Scheduler) : Scheduler :=
  match cb with
  | CbPause o => s <| sch_objects ::= alter Source.pause o |>
  | CbResume o => s <| sch_objects ::= alter Source.resume o |>
  end.

(** [_run_task_source_callbacks] *)
Definition run_callbacks (cbs : list callback) (s : Scheduler) : Scheduler :=
  fold_left (fun s cb => run_callback cb s) cbs s.

(** The registrations a queue of [n] events pauses. *)
Definition pauses (n : Z) (r : Registration) : bool := negb r.(reg_paused) && negb (n <? r.(reg_high)).
Definition resumes (n : Z) (r : Registration) : bool := r.(reg_paused) && negb (r.(reg_low) <? n).

(** Set the pause flag of the selected registrations, and collect the
    callbacks to run, in the order of registration. *)
Definition mark_sources (sel : Registration -> bool) (flag : bool) (l : list (string * Registration))
    : list (string * Registration) :=
  map (fun '(k, r) => (k, if sel r then r <| reg_paused := flag |> else r)) l.

Definition callbacks_of (sel : Registration -> bool) (cb : Registration -> option callback)
    (l : list (string * Registration)) : list callback :=
  flat_map (fun '(_, r) => if sel r then match cb r with Some c => [c] | None => [] end else []) l.

(** [_task_source_pause_callbacks_locked] *)
Definition pause_callbacks (s : Scheduler) : list callback * Scheduler :=
  let sel := pauses (queue_size s) in
  (callbacks_of sel (fun r => CbPause <$> r.(reg_pause)) s.(sch_task_sources),
   s <| sch_task_sources ::= mark_sources sel true |>).

(** [_task_source_resume_callbacks_locked] *)
Definition resume_callbacks (s : Scheduler) : list callback * Scheduler :=
  let sel := resumes (queue_size s) in
  (callbacks_of sel (fun r => CbResume <$> r.(reg_resume)) s.(sch_task_sources),
   s <| sch_task_sources ::= mark_sources sel false |>).

(** The locked block and the callbacks after it. *)
Definition pause_sources : ST Scheduler unit :=
  smodify (fun s => let '(cbs, s) := pause_callbacks s in run_callbacks cbs s).
Definition resume_sources : ST Scheduler unit :=
  smodify (fun s => let '(cbs, s) := resume_callbacks s in run_callbacks cbs s).

(** The resume callback of a paused registration. *)
Definition resume_of (r : Registration) : list callback :=
  if r.(reg_paused) then match r.(reg_resume) with Some o => [CbResume o] | None => [] end else [].

Definition register_task_source (source_id : string) (pause resume : option nat) (high_watermark : Z)
    (low_watermark : option Z) : ST Scheduler unit :=
  let source_id := strip source_id in
  let! _ := sraise_if (String.eqb source_id "") (ValueError "source_id must be non-empty") in
  let high := Z.max 1 high_watermark in
  let low := match low_watermark with None => Z.max 0 (high / 2) | Some l => l end in
  let low := Z.max 0 (Z.min low (high - 1)) in
  smodify (fun s =>
    let cbs := match od_get source_id s.(sch_task_sources) with Some old => resume_of old | None => [] end in
    let s := s <| sch_task_sources ::= od_set source_id (MkRegistration source_id pause resume high low false) |> in
    let '(more, s) := pause_callbacks s in
    run_callbacks (cbs ++ more) s).

Definition unregister_task_source (source_id : string) (resume : bool) : ST Scheduler unit :=
  smodify (fun s =>
    let cbs := match od_get source_id s.(sch_task_sources) with
               | Some r => if resume then resume_of r else []
               | None => []
               end in
    run_callbacks cbs (s <| sch_task_sources ::= od_pop source_id |>)).

Definition is_abort (e : FteEvent) : bool := match e with QueryAbort _ _ => true | _ => false end.

Definition enqueue (e : FteEvent) (priority : bool) : ST Scheduler unit :=
  let! s := sget in
  let! _ := sraise_if (negb (String.eqb (Event.query_of e) s.(sch_query_id)))
    (ValueError "event query_id does not match scheduler") in
  if negb (bool_decide (s.(sch_state) = S_RUNNING)) && negb (is_abort e) then sret tt
  else
    let duplicate := match Event.internal_class e with
                     | Some c => bool_decide (c ∈ s.(sch_queued_internal))
                     | None => false
                     end in
    if duplicate then sret tt
    else
      let! _ := smodify (fun s =>
        match Event.internal_class e with
        | Some c => s <| sch_queued_internal ::= union {[c]} |>
        | None => s
        end) in
      let! _ := smodify (fun s => s <| sch_events ::= fun l => if priority then e :: l else l ++ [e] |>) in
      pause_sources.

(** [list(handler(...) or [])] *)
Definition outputs_of (m : ST Scheduler (option (list pyval))) : ST Scheduler (list pyval) :=
  let! r := m in sret (default [] r).

(** The handler of an event, if one is set. *)
Definition handler_for (h : FteEventHandlers) (e : FteEvent) : option (ST Scheduler (option (list pyval))) :=
  match e with
  | SplitEventsSubmitted _ events => (fun f => f events) <$> h.(on_split_events)
  | SourceInputExhausted _ ids => (fun f => f ids) <$> h.(on_source_input_exhausted)
  | TaskStatusChanged _ _ _ => (fun f => f e) <$> h.(on_task_status_changed)
  | WorkerFailed _ _ _ _ => (fun f => f e) <$> h.(on_worker_failed)
  | MemoryPressureDetected _ _ => (fun f => f e) <$> h.(on_memory_pressure_detected)
  | ResourceAdmissionChanged _ _ _ => (fun f => f e) <$> h.(on_resource_admission_changed)
  | WorkerReservationCompleted _ _ _ _ _ _ _ => (fun f => f e) <$> h.(on_worker_reservation_completed)
  | RetryDelayExpired _ _ => (fun f => f e) <$> h.(on_retry_delay_expired)
  | ExchangeSelectorUpdated _ _ _ _ => (fun f => f e) <$> h.(on_exchange_selector_updated)
  | QueryAbort _ _ => (fun f => f e) <$> h.(on_query_abort)
  end.

Definition dispatch (h : FteEventHandlers) (e : FteEvent) : ST Scheduler (list pyval) :=
  match handler_for h e with Some m => outputs_of m | None => sret [] end.

Section WithClock.
Context (clock : Scheduler -> Z).

(** The counters at the start of [_handle_event]. *)
Definition count_event (e : FteEvent) (s : Scheduler) : Scheduler :=
  match Event.internal_class e with
  | Some _ => s
  | None =>
      s <| sch_processed_events ::= fun n => n + 1 |>
        <| sch_last_event_type := Some (Event.event_type e) |>
        <| sch_last_progress_at := Some (clock s) |>
        <| sch_event_counts ::= fun d => od_set (Event.event_type e) (od_get_default (Event.event_type e) 0 d + 1) d |>
  end.

(** [_handle_event] *)
Definition handle_event (h : FteEventHandlers) (e : FteEvent) : ST Scheduler (list pyval) :=
  let! _ := smodify (count_event e) in
  match e with
  | RetryDelayExpired _ generation =>
      let! s := sget in
      if negb (bool_decide (generation = s.(sch_retry_delay_generation))) then sret []
      else
        let! _ := smodify (fun s => s <| sch_retry_delay_timer := None |>) in
        dispatch h e
  | QueryAbort _ _ =>
      let! _ := smodify (fun s => s <| sch_state := S_ABORTED |> <| sch_events := [] |> <| sch_queued_internal := ∅ |>) in
      dispatch h e
  | _ => dispatch h e
  end.

(** The event at the head of the queue leaves it. *)
Definition pop_event (e : FteEvent) (rest : list FteEvent) (s : Scheduler) : Scheduler :=
  let s := s <| sch_events := rest |> in
  match Event.internal_class e with
  | Some c => s <| sch_queued_internal ::= fun q => q ∖ {[c]} |>
  | None => s
  end.

Fixpoint drain_loop (fuel : nat) (h : FteEventHandlers) (outputs : list pyval) : ST Scheduler (option (list pyval)) :=
  match fuel with
  | O => sret None
  | S fuel =>
      let! s := sget in
      match s.(sch_events) with
      | [] =>
          let! _ := smodify (fun s => s <| sch_draining := false |>) in
          let! _ := resume_sources in
          sret (Some outputs)
      | e :: rest =>
          let! _ := smodify (pop_event e rest) in
          let! out := handle_event h e in
          let! _ := resume_sources in
          drain_loop fuel h (outputs ++ out)
      end
  end.

Definition drain (fuel : nat) (h : FteEventHandlers) : ST Scheduler (option (list pyval)) :=
  let! s := sget in
  if s.(sch_draining) then sret (Some [])
  else
    let! _ := smodify (fun s => s <| sch_draining := true |>) in
    scatch (drain_loop fuel h []) (fun _ => true) (fun e =>
      let! _ := smodify (fun s => s <| sch_draining := false |>) in
      let! _ := resume_sources in
      sraise e).

Definition fail (reason : pyval) : ST Scheduler unit :=
  let! s := sget in
  if bool_decide (s.(sch_state) = S_CLOSED) || bool_decide (s.(sch_state) = S_FAILED) then sret tt
  else
    let! _ := smodify (fun s =>
      s <| sch_state := S_FAILED |>
        <| sch_failure_reason := Some (if is_none reason then "" else py_str reason) |>
        <| sch_events := [] |> <| sch_queued_internal := ∅ |> <| sch_retry_delay_timer := None |>) in
    resume_sources.

Definition close : ST Scheduler unit :=
  smodify (fun s =>
    let cbs := flat_map (fun '(_, r) => resume_of r) s.(sch_task_sources) in
    run_callbacks cbs
      (s <| sch_state := S_CLOSED |> <| sch_failure_reason := None |> <| sch_events := [] |>
         <| sch_queued_internal := ∅ |> <| sch_fragment_states := [] |> <| sch_failed_worker_ids := ∅ |>
         <| sch_task_sources := [] |> <| sch_retry_delay_timer := None |>)).

Definition fragment_state (s : Scheduler) (fragment_id : string) : option pyval :=
  od_get fragment_id s.(sch_fragment_states).

Definition put_fragment_state (fragment_id : string) (v : pyval) : ST Scheduler pyval :=
  let! _ := smodify (fun s => s <| sch_fragment_states ::= od_set fragment_id v |>) in sret v.

Definition record_worker_failure (worker_ids : list string) : ST Scheduler (gset string) :=
  let normalized : gset string := list_to_set (List.filter (fun w => negb (String.eqb w "")) worker_ids) in
  if bool_decide (normalized = ∅) then sret ∅
  else
    let! s := sget in
    let new_ids := normalized ∖ s.(sch_failed_worker_ids) in
    let! _ := smodify (fun s => s <| sch_failed_worker_ids ::= union new_ids |>) in
    sret new_ids.

(** The timer is named by the generation it will report. *)
Definition arm_retry_delay (delay : Z) : ST Scheduler Z :=
  let delay := Z.max 0 delay in
  let! _ := smodify (fun s => s <| sch_retry_delay_generation ::= fun g => g + 1 |> <| sch_retry_delay_timer := None |>) in
  let! s := sget in
  let generation := s.(sch_retry_delay_generation) in
  if (delay <=? 0) || negb (bool_decide (s.(sch_state) = S_RUNNING)) then sret generation
  else
    let! _ := smodify (fun s => s <| sch_retry_delay_timer := Some generation |>) in
    sret generation.

(** [_fire_retry_delay]; the reason is the text of the failure. *)
Definition fire_retry_delay (fuel : nat) (h : FteEventHandlers) (generation : Z) : ST Scheduler unit :=
  let! s := sget in
  scatch
    (let! _ := enqueue (RetryDelayExpired s.(sch_query_id) generation) false in
     let! _ := drain fuel h in sret tt)
    (fun _ => true) (fun _ => fail (PStr "FTE retry delay handler failed")).

(** ** [FteEventDrivenTaskSource], on the scheduler it belongs to *)

(** [__init__]: a new source object [o], registered under its id. *)
Definition new_source (source_id : string) (high_watermark : Z) (low_watermark : option Z) : ST Scheduler nat :=
  let source_id := strip source_id in
  let! _ := sraise_if (String.eqb source_id "") (ValueError "source_id must be non-empty") in
  let! s := sget in
  let o := length s.(sch_objects) in
  let! _ := smodify (fun s => s <| sch_objects ::= fun l => l ++ [Source.new source_id] |>) in
  let! _ := register_task_source source_id (Some o) (Some o) high_watermark low_watermark in
  sret o.

Definition source_paused (o : nat) (s : Scheduler) : bool :=
  match s.(sch_objects) !! o with Some t => t.(ts_paused) | None => false end.

Definition close_source (o : nat) : ST Scheduler unit :=
  let! s := sget in
  match s.(sch_objects) !! o with
  | None => sret tt
  | Some t =>
      if t.(ts_closed) then sret tt
      else
        let! _ := smodify (fun s => s <| sch_objects ::= alter Source.close o |>) in
        unregister_task_source t.(ts_source_id) false
  end.

(** Drain while the source is paused; the fuel that ran out stays visible. *)
Definition drain_if_paused (fuel : nat) (h : FteEventHandlers) (o : nat) (outputs : option (list pyval))
    : ST Scheduler (option (list pyval)) :=
  let! s := sget in
  if source_paused o s then
    let! out := drain fuel h in
    sret (match outputs, out with Some a, Some b => Some (a ++ b) | _, _ => None end)
  else sret outputs.

Definition submit (fuel : nat) (h : FteEventHandlers) (o : nat) (events : list FteEvent)
    : ST Scheduler (option (list pyval)) :=
  stry_finally
    (let! outputs := sfold events (fun outputs e =>
       let! outputs := drain_if_paused fuel h o outputs in
       let! _ := enqueue e false in
       drain_if_paused fuel h o outputs) (Some []) in
     let! out := drain fuel h in
     sret (match outputs, out with Some a, Some b => Some (a ++ b) | _, _ => None end))
    (close_source o).

End WithClock.

(** [FteSchedulerStats] *)
Definition stats (s : Scheduler) (now_ms : Z -> Z) (command_counts : list (string * Z)) : list (pyval * pyval) :=
  let opt := fun o => match o with Some t => PStr t | None => PNone end in
  let counts := fun d => PDict (map (fun '(k, n) => (PStr k, PInt n)) d) in
  pd_lit
    [("query_id", PStr s.(sch_query_id));
     ("state", PStr match s.(sch_state) with
                    | S_RUNNING => "RUNNING" | S_FAILED => "FAILED"
                    | S_ABORTED => "ABORTED" | S_CLOSED => "CLOSED" end);
     ("queued_events", PInt (queue_size s)); ("processed_events", PInt s.(sch_processed_events));
     ("last_event_type", opt s.(sch_last_event_type));
     ("last_progress_ms", match s.(sch_last_progress_at) with Some t => PInt (now_ms t) | None => PNone end);
     ("failure_reason", opt s.(sch_failure_reason));
     ("fragment_state_count", PInt (Z.of_nat (length s.(sch_fragment_states))));
     ("failed_worker_count", PInt (Z.of_nat (size s.(sch_failed_worker_ids))));
     ("command_counts", counts command_counts); ("event_counts", counts s.(sch_event_counts));
     ("registered_task_source_count", PInt (Z.of_nat (length s.(sch_task_sources))));
     ("paused_task_source_count",
        PInt (Z.of_nat (length (List.filter reg_paused (od_values s.(sch_task_sources))))))].

End Sched.
