(* ===== verification/SchedulerControl.v ===== *)
(** * Around the scheduler: command executor, status watcher, registry

    Models the other classes of [duckdb/runners/fte/fte_scheduler.py]:
    [FteWorkerCommandExecutor] with the calls it makes on worker handles,
    the loop of [FteAttemptStatusWatcher] over what it observes, and
    [FteSchedulerRegistry] with its global admission pump. *)

From S2P Require Import Prelude PyStr PyVal FteTypes FteState Partition Scheduler.

#[local] Open Scope string_scope.
#[local] Open Scope list_scope.
#[local] Open Scope Z_scope.

(** ** [FteWorkerCommandExecutor] *)

(** Calls on a worker's control lane. *)
Inductive lane_call :=
| LaneCreateTask (w : Worker) (request : list (pyval * pyval))
| LaneWaitSplitQueue (w : Worker) (a : FteTaskAttemptId) (source : string)
| LaneAddSplits (w : Worker) (a : FteTaskAttemptId) (source : string) (splits : list pyval)
| LaneNoMoreSplits (w : Worker) (a : FteTaskAttemptId) (source : string)
| LaneUpdateTask (w : Worker) (a : FteTaskAttemptId) (update : list (pyval * pyval)).

Record Executor := MkExecutor {
  ex_command_counts : list (string * Z);
  ex_calls : list lane_call;
}.
#[export] Instance Executor_eta : Eta Executor :=
  fun r => MkExecutor r.(ex_command_counts) r.(ex_calls).

Module CommandExecutor.
Section WithWorkers.
Context (reply : list lane_call -> lane_call -> result pyval).
Context (has_method : Worker -> string -> bool).

(** [_record] *)
Definition record (c : FteWorkerCommand) : ST Executor unit :=
  smodify (fun x => x <| ex_command_counts ::= fun d =>
    od_set (command_type c) (od_get_default (command_type c) 0 d + 1) d |>).

Definition call (c : lane_call) : ST Executor pyval :=
  fun x => (reply x.(ex_calls) c, x <| ex_calls ::= fun l => l ++ [c] |>).

(** [_required_worker_method] *)
Definition required_worker_method (w : option Worker) (name : string) : ST Executor Worker :=
  match w with
  | Some w => let! _ := sraise_if (negb (has_method w name)) (RuntimeError "FTE worker handle must provide method") in sret w
  | None => sraise (RuntimeError "FTE worker handle must provide method")
  end.

Definition create_task (c : FteWorkerCommand) (h : CommandHead) (request : list (pyval * pyval)) : ST Executor pyval :=
  let! _ := record c in
  match h.(cmd_worker) with
  | Some w => call (LaneCreateTask w request)
  | None => sraise (AttributeError "fte_create_task")
  end.

Definition wait_split_queue_has_space (h : CommandHead) (source : string) : ST Executor unit :=
  let! w := required_worker_method h.(cmd_worker) "fte_wait_split_queue_has_space" in
  let! space := call (LaneWaitSplitQueue w h.(cmd_attempt_id) source) in
  match space with
  | PDict d =>
      sraise_if (negb (match pd_find "has_space" d with Some v => truthy v | None => true end))
        (RuntimeError "split queue stayed full")
  | _ => sraise (AttributeError "get")
  end.

Definition add_splits (c : FteWorkerCommand) (h : CommandHead) (source : string) (splits : list pyval)
    : ST Executor pyval :=
  let! _ := record c in
  let! w := required_worker_method h.(cmd_worker) "enqueue_fte_add_splits" in
  call (LaneAddSplits w h.(cmd_attempt_id) source splits).

Definition no_more_splits (c : FteWorkerCommand) (h : CommandHead) (source : string) : ST Executor pyval :=
  let! _ := record c in
  let! w := required_worker_method h.(cmd_worker) "enqueue_fte_no_more_splits" in
  call (LaneNoMoreSplits w h.(cmd_attempt_id) source).

Definition update_task (c : FteWorkerCommand) (h : CommandHead) (update : list (pyval * pyval)) : ST Executor pyval :=
  let! _ := record c in
  let! w := required_worker_method h.(cmd_worker) "enqueue_fte_update_task" in
  call (LaneUpdateTask w h.(cmd_attempt_id) update).

Definition execute (c : FteWorkerCommand) : ST Executor pyval :=
  match c with
  | FteCreateTaskCommand h _ request => create_task c h request
  | FteAddSplitsCommand h source splits =>
      let! _ := wait_split_queue_has_space h source in
      add_splits c h source splits
  | FteNoMoreSplitsCommand h source => no_more_splits c h source
  | FteTaskUpdateCommand h update => update_task c h update
  end.

End WithWorkers.
End CommandExecutor.

(** ** [FteAttemptStatusWatcher] *)

(** An exception raised by the status call: its class and text. *)
Record WaitError := MkWaitError {
  we_class : string;
  we_text : string;
  we_is_timeout : bool;            (* an instance of [TimeoutError] *)
  we_is_query_deadline : bool;     (* an instance of [QueryDeadlineExceeded] *)
}.

(** One turn of the loop as the watcher sees it: whether the stop flag is
    set before and after the call, and what the call gives. *)
Record Observation := MkObservation {
  ob_stopped_before : bool;
  ob_reply : pyval + WaitError;
  ob_stopped_after : bool;
}.

(** What the loop does with one reply. *)
Inductive watch_action :=
| WRetry                                   (* soft timeout: poll again *)
| WFail (error : pyval)                    (* report the worker as failed and stop *)
| WStatus (status : list (pyval * pyval)) (terminal : bool) (min_version : option Z).

Module Watcher.

(** [_is_soft_status_wait_timeout] *)
Definition is_soft_status_wait_timeout (e : WaitError) : bool :=
  if e.(we_is_query_deadline) || contains (lower e.(we_text)) "query deadline expired" then false
  else if e.(we_is_timeout) then true
  else if bool_decide (e.(we_class) ∈ ["TimeoutError"; "GetTimeoutError"]) then true
  else contains e.(we_text) "did not complete within" || contains (lower e.(we_text)) "timed out".

(** The next minimum version, from the version a status carries. *)
Definition next_min_version (current : option Z) (status : list (pyval * pyval)) : option Z :=
  match pd_get "version" status with
  | PNone => current
  | v => match py_int v with Ok n => Some (n + 1) | Raise _ => None end
  end.

Definition status_state (status : list (pyval * pyval)) : result FteTaskState :=
  match pd_get "state" status with
  | PEnum c v => if String.eqb c "FteTaskState" then task_state_of_value v
                 else task_state_of_value (py_str (PEnum c v))
  | v => task_state_of_value (py_str v)
  end.

(** The body of the loop of [_run], up to the event it reports. *)
Definition watch_step (attempt : FteTaskAttemptId) (min_version : option Z) (reply : pyval + WaitError)
    : watch_action :=
  match reply with
  | inr e => if is_soft_status_wait_timeout e then WRetry else WFail (PStr e.(we_text))
  | inl (PDict status) =>
      match validate_fte_status_identity status (RObj attempt) with
      | Raise _ => WFail (PStr "FTE status identity")
      | Ok _ =>
          match status_state status with
          | Raise _ => WFail (PStr "unknown FTE task state")
          | Ok state => WStatus status (terminal_state state) (next_min_version min_version status)
          end
      end
  | inl _ => WFail (PStr "fte_wait_task_status must return a dict")
  end.

Section WithScheduler.
Context (clock : Scheduler -> Z) (fuel : nat) (h : FteEventHandlers).
Context (attempt : FteTaskAttemptId) (worker_id : string).

(** [_enqueue_and_drain] *)
Definition enqueue_and_drain (e : FteEvent) : ST Scheduler bool :=
  scatch
    (let! _ := Sched.enqueue e false in
     let! _ := Sched.drain clock fuel h in sret true)
    (fun _ => true)
    (fun _ => let! _ := Sched.fail (PStr "FTE status watcher failed while handling event") in sret false).

(** [_run], over the turns observed; it stops at the end of the list, at the
    stop flag, after a failure or after a terminal status. *)
Fixpoint run (obs : list Observation) (min_version : option Z) : ST Scheduler unit :=
  match obs with
  | [] => sret tt
  | ob :: obs =>
      if ob.(ob_stopped_before) then sret tt
      else if ob.(ob_stopped_after) then sret tt
      else
        let! s := sget in
        match watch_step attempt min_version ob.(ob_reply) with
        | WRetry => run obs min_version
        | WFail error =>
            let! _ := enqueue_and_drain (WorkerFailed s.(sch_query_id) worker_id error None) in sret tt
        | WStatus status terminal version =>
            let! ok := enqueue_and_drain (TaskStatusChanged s.(sch_query_id) attempt status) in
            if negb ok || terminal then sret tt else run obs version
        end
  end.

End WithScheduler.
End Watcher.

(** ** [FteSchedulerRegistry] *)

Record Registry := MkRegistry {
  rg_schedulers : list (string * Scheduler);
  rg_cursor : option string;
  rg_running : bool;
  rg_dirty : bool;
}.
#[export] Instance Registry_eta : Eta Registry :=
  fun r => MkRegistry r.(rg_schedulers) r.(rg_cursor) r.(rg_running) r.(rg_dirty).

Module SchedulerRegistry.

Definition new : Registry := MkRegistry [] None false false.

Definition get_or_create (query : string) : ST Registry unit :=
  let query := strip query in
  let! _ := sraise_if (String.eqb query "") (ValueError "query_id must be non-empty") in
  let! r := sget in
  match od_get query r.(rg_schedulers) with
  | Some _ => sret tt
  | None =>
      let! s := slift (Sched.new query) in
      smodify (fun r => r <| rg_schedulers ::= od_set query s |>)
  end.

Definition query_ids (r : Registry) : list string := sorted_str (od_keys r.(rg_schedulers)).

(** The scheduler a query had leaves the registry and is closed; it is
    returned for the holders that still refer to it. *)
Definition drop_query (query : string) : ST Registry (option Scheduler) :=
  let! r := sget in
  let! _ := smodify (fun r =>
    r <| rg_schedulers ::= od_pop query |>
      <| rg_cursor := if bool_decide (r.(rg_cursor) = Some query) then None else r.(rg_cursor) |>) in
  sret ((fun s => snd (Sched.close s)) <$> od_get query r.(rg_schedulers)).

Definition clear : ST Registry (list Scheduler) :=
  let! r := sget in
  let! _ := smodify (fun r => r <| rg_schedulers := [] |> <| rg_cursor := None |> <| rg_dirty := false |>) in
  sret (map (fun s => snd (Sched.close s)) (od_values r.(rg_schedulers))).

Definition record_pending_drain_progress (query : string) : ST Registry unit :=
  let query := strip query in
  if String.eqb query "" then sret tt
  else smodify (fun r => r <| rg_cursor := Some query |>).

(** [l.index(x)] *)
Fixpoint index_of (x : string) (l : list string) : option nat :=
  match l with
  | [] => None
  | y :: l => if String.eqb x y then Some O else S <$> index_of x l
  end.

(** The distinct elements, each where it occurs last. *)
Fixpoint distinct (l : list string) : list string :=
  match l with
  | [] => []
  | x :: l => if bool_decide (x ∈ l) then distinct l else x :: distinct l
  end.

Definition ordered_pending_drain_query_ids (cursor : option string) (ids : list string) : list string :=
  let ordered := sorted_str (distinct (List.filter (fun q => negb (String.eqb q "")) ids)) in
  match cursor with
  | None => ordered
  | Some c =>
      match index_of c ordered with
      | None => ordered
      | Some i =>
          let start := ((i + 1) mod length ordered)%nat in
          drop start ordered ++ take start ordered
      end
  end.

(** The loop of [run_pending_drain]; [None] tells that the fuel ran out. *)
Fixpoint pump_loop (fuel : nat) (drain_round : list string -> ST Registry (list pyval)) (outputs : list pyval)
    : ST Registry (option (list pyval)) :=
  match fuel with
  | O => sret None
  | S fuel =>
      let! r := sget in
      if negb r.(rg_dirty) then
        let! _ := smodify (fun r => r <| rg_running := false |>) in
        sret (Some outputs)
      else
        let! _ := smodify (fun r => r <| rg_dirty := false |>) in
        let! out := drain_round (ordered_pending_drain_query_ids r.(rg_cursor) (od_keys r.(rg_schedulers))) in
        pump_loop fuel drain_round (outputs ++ out)
  end.

Definition run_pending_drain (fuel : nat) (drain_round : list string -> ST Registry (list pyval))
    : ST Registry (option (list pyval)) :=
  let! _ := smodify (fun r => r <| rg_dirty := true |>) in
  let! r := sget in
  if r.(rg_running) then sret (Some [])
  else
    let! _ := smodify (fun r => r <| rg_running := true |>) in
    scatch (pump_loop fuel drain_round []) (fun _ => true) (fun e =>
      let! _ := smodify (fun r => r <| rg_running := false |>) in
      sraise e).

End SchedulerRegistry.
