(* ===== verification/SchedulerProofs.v ===== *)
(** * The event scheduler: invariant, order, termination

    Proofs about [Scheduler].  Handlers are assumed to keep the scheduler's
    invariant ([GoodHandlers]), which every composition of the scheduler's
    own operations does ([keeps] and its lemmas).  Under that contract the
    queue holds each admission pulse at most once, back-pressure follows the
    watermarks with hysteresis, and a stopped scheduler never runs again.
    With a bound on the work the handlers add, [drain] terminates; with
    handlers that do not touch the scheduler its outputs are those of the
    events in the order of the queue. *)

From S2P Require Import Prelude PyStr PyVal FteTypes FteState Partition Scheduler.

#[local] Open Scope string_scope.
#[local] Open Scope list_scope.
#[local] Open Scope Z_scope.

(** ** The invariant *)

Definition pulses (l : list FteEvent) : list (option string) := omap Event.internal_class l.

Record events_ok (query : string) (state : SchedulerState) (queued : gset (option string)) (l : list FteEvent)
    : Prop := {
  ev_query : Forall (fun e => Event.query_of e = query) l;
  ev_once : NoDup (pulses l);
  ev_queued : forall c, c ∈ queued <-> c ∈ pulses l;
  ev_stopped : state <> S_RUNNING -> Forall (fun e => Sched.is_abort e = true) l;
}.

(** A registration beside a queue of [n] events; [idle] when nobody drains. *)
Definition reg_ok (n : Z) (idle : bool) (r : Registration) : Prop :=
  0 <= r.(reg_low) < r.(reg_high) /\
  (r.(reg_paused) = false -> n < r.(reg_high)) /\
  (r.(reg_paused) = true -> idle = true -> r.(reg_low) < n).

Definition sources_ok (n : Z) (idle : bool) (l : list (string * Registration)) : Prop :=
  Forall (fun kr => reg_ok n idle kr.2) l.

Record sched_inv (s : Scheduler) : Prop := {
  si_events : events_ok s.(sch_query_id) s.(sch_state) s.(sch_queued_internal) s.(sch_events);
  si_sources : sources_ok (Sched.queue_size s) (negb s.(sch_draining)) s.(sch_task_sources);
}.

(** How a call may move the scheduler. *)
Record moves (s s' : Scheduler) : Prop := {
  mv_inv : sched_inv s';
  mv_query : s'.(sch_query_id) = s.(sch_query_id);
  mv_stopped : s.(sch_state) <> S_RUNNING -> s'.(sch_state) <> S_RUNNING;
  mv_draining : s.(sch_draining) = true -> s'.(sch_draining) = true;
}.

Definition keeps {A} (m : ST Scheduler A) : Prop := forall s, sched_inv s -> moves s (m s).2.

(** What the scheduler asks of its handlers. *)
Class GoodHandlers (h : FteEventHandlers) : Prop :=
  good_handlers : forall e m, Sched.handler_for h e = Some m -> keeps m.

Create HintDb keeps.

Lemma moves_refl s : sched_inv s -> moves s s.
Proof. split; auto. Qed.

Lemma moves_trans s1 s2 s3 : moves s1 s2 -> moves s2 s3 -> moves s1 s3.
Proof. intros [? ? ? ?] [? ? ? ?]; split; [assumption | congruence | auto | auto]. Qed.

Section Closure.
Context {A B : Type}.

Lemma keeps_ret (a : A) : keeps (sret a).
Proof. intros s H. by apply moves_refl. Qed.
Lemma keeps_raise e : keeps (@sraise Scheduler A e).
Proof. intros s H. by apply moves_refl. Qed.
Lemma keeps_lift (r : result A) : keeps (slift r).
Proof. intros s H. by apply moves_refl. Qed.
Lemma keeps_get : keeps sget.
Proof. intros s H. by apply moves_refl. Qed.
Lemma keeps_raise_if b e : keeps (sraise_if b e).
Proof. intros s H. by apply moves_refl. Qed.
Lemma keeps_modify f : (forall s, sched_inv s -> moves s (f s)) -> keeps (smodify f).
Proof. intros H s. apply H. Qed.

Lemma keeps_bind (m : ST Scheduler A) (k : A -> ST Scheduler B) :
  keeps m -> (forall a, keeps (k a)) -> keeps (sbind m k).
Proof.
  intros Hm Hk s Hs. unfold sbind. pose proof (Hm s Hs) as H.
  destruct (m s) as [[a|e] s']; [|exact H].
  exact (moves_trans _ _ _ H (Hk a s' (mv_inv _ _ H))).
Qed.

Lemma keeps_catch (m : ST Scheduler A) p k :
  keeps m -> (forall e, keeps (k e)) -> keeps (scatch m p k).
Proof.
  intros Hm Hk s Hs. unfold scatch. pose proof (Hm s Hs) as H.
  destruct (m s) as [[a|e] s']; [exact H|]. destruct (p e); [|exact H].
  exact (moves_trans _ _ _ H (Hk e s' (mv_inv _ _ H))).
Qed.

Lemma keeps_try_finally (m : ST Scheduler A) f : keeps m -> keeps f -> keeps (stry_finally m f).
Proof.
  intros Hm Hf s Hs. unfold stry_finally. pose proof (Hm s Hs) as H.
  destruct (m s) as [r s']. pose proof (moves_trans _ _ _ H (Hf s' (mv_inv _ _ H))) as H'.
  destruct (f s') as [[]]; exact H'.
Qed.
End Closure.

Lemma keeps_fold {A B} (l : list A) (body : B -> A -> ST Scheduler B) b :
  (forall b a, keeps (body b a)) -> keeps (sfold l body b).
Proof.
  intros H. revert b. induction l as [|a l IH]; intros b; [apply keeps_ret|].
  apply keeps_bind; auto.
Qed.

#[export] Hint Resolve keeps_ret keeps_raise keeps_lift keeps_get keeps_raise_if keeps_bind keeps_catch
  keeps_try_finally keeps_fold : keeps.

(** ** Callbacks touch only the source objects *)

Lemma run_callback_objects cb s : exists os, Sched.run_callback cb s = s <| sch_objects := os |>.
Proof. destruct cb; eexists; reflexivity. Qed.

Lemma run_callbacks_objects cbs s : exists os, Sched.run_callbacks cbs s = s <| sch_objects := os |>.
Proof.
  unfold Sched.run_callbacks. revert s. induction cbs as [|cb cbs IH]; intros s; simpl.
  - exists s.(sch_objects). by destruct s.
  - destruct (run_callback_objects cb s) as [os ->]. destruct (IH (s <| sch_objects := os |>)) as [os' ->].
    by exists os'.
Qed.

Lemma moves_callbacks cbs s s' : moves s s' -> moves s (Sched.run_callbacks cbs s').
Proof.
  intros [[] ? ? ?]. destruct (run_callbacks_objects cbs s') as [os ->].
  by split; [split|..].
Qed.

Lemma inv_callbacks cbs s : sched_inv s -> sched_inv (Sched.run_callbacks cbs s).
Proof. intros H. exact (mv_inv _ _ (moves_callbacks cbs _ _ (moves_refl s H))). Qed.

(** ** Back-pressure *)

(** The parts of [reg_ok] that survive a longer and a shorter queue. *)
Definition reg_below (n : Z) (r : Registration) : Prop :=
  0 <= r.(reg_low) < r.(reg_high) /\ (r.(reg_paused) = false -> n < r.(reg_high)).
Definition reg_above (n : Z) (idle : bool) (r : Registration) : Prop :=
  0 <= r.(reg_low) < r.(reg_high) /\ (r.(reg_paused) = true -> idle = true -> r.(reg_low) < n).

Lemma sources_below n n' idle l :
  n' <= n -> sources_ok n idle l -> Forall (fun kr => reg_below n' kr.2) l.
Proof.
  intros Hn H. apply (Forall_impl _ _ _ H). intros [k r] (? & Hb & ?); split; [done|].
  intros Hp. specialize (Hb Hp). simpl in *. lia.
Qed.

Lemma sources_above n n' idle l :
  n <= n' -> sources_ok n idle l -> Forall (fun kr => reg_above n' idle kr.2) l.
Proof.
  intros Hn H. apply (Forall_impl _ _ _ H). intros [k r] (? & ? & Ha); split; [done|].
  intros Hp Hi. specialize (Ha Hp Hi). simpl in *. lia.
Qed.

Lemma below_draining n l : Forall (fun kr => reg_below n kr.2) l -> sources_ok n false l.
Proof. intros H. apply (Forall_impl _ _ _ H). intros [k r] []; split; [done|]. by split. Qed.

Lemma mark_forall (P Q : Registration -> Prop) sel flag l :
  (forall r, P r -> Q (if sel r : bool then r <| reg_paused := flag |> else r)) ->
  Forall (fun kr => P kr.2) l -> Forall (fun kr => Q kr.2) (Sched.mark_sources sel flag l).
Proof. intros H. induction 1 as [|[k r] l Hr Hl IH]; constructor; [by apply H | exact IH]. Qed.

Lemma pause_sources_ok n idle l :
  Forall (fun kr => reg_above n idle kr.2) l -> sources_ok n idle (Sched.mark_sources (Sched.pauses n) true l).
Proof.
  apply (mark_forall (reg_above n idle) (reg_ok n idle)).
  intros r [Hm Ha]. unfold Sched.pauses, reg_ok.
  destruct (reg_paused r) eqn:Hp; simpl; [rewrite ?Hp; repeat split; auto; try lia; discriminate|].
  destruct (Z.ltb_spec n r.(reg_high)); simpl; rewrite ?Hp; repeat split; auto; try lia; discriminate.
Qed.

Lemma resume_sources_ok n idle l :
  Forall (fun kr => reg_below n kr.2) l -> sources_ok n idle (Sched.mark_sources (Sched.resumes n) false l).
Proof.
  apply (mark_forall (reg_below n) (reg_ok n idle)).
  intros r [Hm Hb]. unfold Sched.resumes, reg_ok.
  destruct (reg_paused r) eqn:Hp; simpl; [|rewrite ?Hp; repeat split; auto; try lia; discriminate].
  destruct (Z.ltb_spec r.(reg_low) n); simpl; rewrite ?Hp; repeat split; auto; try lia; discriminate.
Qed.

(** The state after the resume callbacks. *)
Lemma resume_inv s :
  events_ok s.(sch_query_id) s.(sch_state) s.(sch_queued_internal) s.(sch_events) ->
  Forall (fun kr => reg_below (Sched.queue_size s) kr.2) s.(sch_task_sources) ->
  sched_inv (Sched.resume_sources s).2.
Proof.
  intros He Hb. unfold Sched.resume_sources, smodify, Sched.resume_callbacks. simpl.
  apply inv_callbacks. split; [exact He | by apply resume_sources_ok].
Qed.

Lemma resume_frame s :
  let s' := (Sched.resume_sources s).2 in
  s'.(sch_query_id) = s.(sch_query_id) /\ s'.(sch_state) = s.(sch_state) /\
  s'.(sch_events) = s.(sch_events) /\ s'.(sch_draining) = s.(sch_draining) /\
  s'.(sch_queued_internal) = s.(sch_queued_internal) /\
  s'.(sch_retry_delay_generation) = s.(sch_retry_delay_generation) /\
  s'.(sch_processed_events) = s.(sch_processed_events).
Proof.
  unfold Sched.resume_sources, smodify, Sched.resume_callbacks. simpl.
  set (s1 := s <| sch_task_sources ::= _ |>). set (cbs := Sched.callbacks_of _ _ _).
  destruct (run_callbacks_objects cbs s1) as [os ->]. by repeat split.
Qed.

Lemma keeps_resume_sources : keeps Sched.resume_sources.
Proof.
  intros s [He Hs]. destruct (resume_frame s) as (Hq & Hst & _ & Hd & _).
  split; [|done|congruence|congruence].
  apply resume_inv; [done|]. eapply sources_below; [reflexivity | exact Hs].
Qed.
#[export] Hint Resolve keeps_resume_sources : keeps.

(** ** Enqueueing *)

Lemma pulses_app l1 l2 : pulses (l1 ++ l2) = pulses l1 ++ pulses l2.
Proof. apply omap_app. Qed.

Lemma pulses_snoc_perm l e (priority : bool) :
  Permutation (pulses (if priority then e :: l else l ++ [e])) (pulses [e] ++ pulses l).
Proof.
  destruct priority.
  - by rewrite <- pulses_app.
  - rewrite pulses_app. apply Permutation_app_comm.
Qed.

Lemma place_perm {A} (l : list A) e (priority : bool) : Permutation (if priority then e :: l else l ++ [e]) (e :: l).
Proof. destruct priority; [done|]. symmetry. apply Permutation_cons_append. Qed.

(** A fresh event joins the queue at either end. *)
Lemma events_ok_place query state queued l e (priority : bool) :
  events_ok query state queued l ->
  Event.query_of e = query -> (state = S_RUNNING \/ Sched.is_abort e = true) ->
  (forall c, Event.internal_class e = Some c -> c ∉ queued) ->
  events_ok query state
    (match Event.internal_class e with Some c => {[c]} ∪ queued | None => queued end)
    (if priority then e :: l else l ++ [e]).
Proof.
  intros [Hq Ho Hs Ha] He Hrun Hfresh. pose proof (pulses_snoc_perm l e priority) as Hp.
  split.
  - rewrite place_perm. by constructor.
  - rewrite Hp. cbn [pulses omap list_omap app]. destruct (Event.internal_class e) as [c|] eqn:Hc; [|done].
    constructor; [rewrite <- Hs; auto | done].
  - intros c. rewrite Hp. cbn [pulses omap list_omap app].
    destruct (Event.internal_class e) as [c'|]; [|apply Hs].
    rewrite elem_of_union, elem_of_singleton, Hs. set_solver.
  - intros Hst. rewrite place_perm. constructor; [by destruct Hrun | by apply Ha].
Qed.

Lemma events_ok_nil query state : events_ok query state ∅ [].
Proof. split; simpl; try constructor; set_solver. Qed.

Lemma pause_inv s :
  events_ok s.(sch_query_id) s.(sch_state) s.(sch_queued_internal) s.(sch_events) ->
  Forall (fun kr => reg_above (Sched.queue_size s) (negb s.(sch_draining)) kr.2) s.(sch_task_sources) ->
  moves s (Sched.pause_sources s).2.
Proof.
  intros He Hb. unfold Sched.pause_sources, smodify, Sched.pause_callbacks. simpl.
  apply moves_callbacks. split; [|done..]. split; [exact He | by apply pause_sources_ok].
Qed.

Lemma keeps_enqueue e priority : keeps (Sched.enqueue e priority).
Proof.
  intros s [He Hs]. unfold Sched.enqueue, sbind, sget, sraise_if, slift, raise_if.
  destruct (String.eqb (Event.query_of e) s.(sch_query_id)) eqn:Hq; simpl; [|by apply moves_refl].
  apply String.eqb_eq in Hq.
  destruct (negb (bool_decide (sch_state s = S_RUNNING)) && negb (Sched.is_abort e)) eqn:Hst;
    [by apply moves_refl|].
  destruct (match Event.internal_class e with Some c => bool_decide (c ∈ sch_queued_internal s) | None => false end)
    eqn:Hdup; [by apply moves_refl|].
  unfold smodify. cbv beta iota.
  set (s1 := match Event.internal_class e with
             | Some c => s <| sch_queued_internal ::= union {[c]} |>
             | None => s
             end).
  set (s2 := s1 <| sch_events ::= _ |>).
  assert (Hok : events_ok s2.(sch_query_id) s2.(sch_state) s2.(sch_queued_internal) s2.(sch_events)).
  { pose proof (events_ok_place _ _ _ _ e priority He Hq) as H.
    assert (H1 : sch_state s = S_RUNNING \/ Sched.is_abort e = true).
    { apply andb_false_iff in Hst as [Hst|Hst]; [left | right].
      - apply negb_false_iff in Hst. by apply bool_decide_eq_true in Hst.
      - by apply negb_false_iff in Hst. }
    specialize (H H1). unfold s2, s1.
    destruct (Event.internal_class e) as [c|]; apply H; [|done].
    intros ? [= <-]. by apply bool_decide_eq_false in Hdup. }
  assert (Hm : moves s2 (Sched.pause_sources s2).2).
  { apply pause_inv; [exact Hok|].
    assert (Hf : s2.(sch_task_sources) = s.(sch_task_sources) /\ s2.(sch_draining) = s.(sch_draining)
                 /\ Sched.queue_size s <= Sched.queue_size s2).
    { unfold s2, s1, Sched.queue_size. destruct (Event.internal_class e), priority; simpl; rewrite ?length_app; simpl; repeat split; lia. }
    destruct Hf as (-> & -> & Hle). eapply sources_above; [exact Hle | exact Hs]. }
  destruct Hm as [Hi Hq' Hs' Hd']. split; [exact Hi| | |].
  - rewrite Hq'. unfold s2, s1. by destruct (Event.internal_class e).
  - intros H. apply Hs'. unfold s2, s1. by destruct (Event.internal_class e).
  - intros H. apply Hd'. unfold s2, s1. by destruct (Event.internal_class e).
Qed.
#[export] Hint Resolve keeps_enqueue : keeps.

(** ** Task sources, stopping, bookkeeping *)

Lemma forall_od_set (P : Registration -> Prop) k r l :
  Forall (fun kr => P kr.2) l -> P r -> Forall (fun kr : string * Registration => P kr.2) (od_set k r l).
Proof.
  intros Hl Hr. induction Hl as [|[k' r'] l Hr' Hl IH]; simpl; [by constructor|].
  destruct (decide (k = k')); by constructor.
Qed.

Lemma forall_od_pop (P : string * Registration -> Prop) k l : Forall P l -> Forall P (od_pop k l).
Proof. induction 1 as [|[k' r'] l Hr Hl IH]; simpl; [done|]. destruct (decide (k = k')); by try constructor. Qed.

Lemma keeps_register id pause resume high low : keeps (Sched.register_task_source id pause resume high low).
Proof.
  unfold Sched.register_task_source. apply keeps_bind; [apply keeps_raise_if | intros _].
  apply keeps_modify. intros s [He Hs]. unfold Sched.pause_callbacks. cbv beta iota zeta.
  apply moves_callbacks. split; [|done..]. split; [exact He|].
  apply pause_sources_ok. change (Sched.queue_size (_ <| _ ::= _ |>)) with (Sched.queue_size s).
  apply forall_od_set; [eapply sources_above; [reflexivity | exact Hs]|].
  split; [cbn [reg_low reg_high snd]; destruct low; lia | discriminate].
Qed.

Lemma keeps_unregister id resume : keeps (Sched.unregister_task_source id resume).
Proof.
  apply keeps_modify. intros s [He Hs]. apply moves_callbacks. split; [|done..].
  split; [exact He|]. by apply forall_od_pop.
Qed.

Lemma keeps_fail reason : keeps (Sched.fail reason).
Proof.
  intros s [He Hs]. unfold Sched.fail, sbind, sget.
  destruct (bool_decide _ || bool_decide _); [by apply moves_refl|].
  unfold smodify. cbv beta iota. set (s1 := set_field _ _ _).
  destruct (resume_frame s1) as (Hq & Hst & _ & Hd & _). split.
  - apply resume_inv; [apply events_ok_nil|]. eapply sources_below; [|exact Hs]. simpl.
    change (Sched.queue_size s1) with 0. unfold Sched.queue_size. lia.
  - by rewrite Hq.
  - by rewrite Hst.
  - by rewrite Hd.
Qed.

Lemma keeps_close : keeps Sched.close.
Proof.
  apply keeps_modify. intros s [He Hs]. apply moves_callbacks. split; [|done..].
  split; [apply events_ok_nil | constructor].
Qed.

(** Fields the invariant does not speak of. *)
Ltac keeps_frame := apply keeps_modify; intros ? []; split; [by split | done..].

Lemma keeps_arm_retry_delay d : keeps (Sched.arm_retry_delay d).
Proof.
  apply keeps_bind; [keeps_frame | intros _]. apply keeps_bind; [apply keeps_get | intros s].
  destruct (_ || _); [apply keeps_ret|]. apply keeps_bind; [keeps_frame | intros _; apply keeps_ret].
Qed.

Lemma keeps_record_worker_failure ws : keeps (Sched.record_worker_failure ws).
Proof.
  unfold Sched.record_worker_failure. destruct (bool_decide _); [apply keeps_ret|].
  apply keeps_bind; [apply keeps_get | intros s].
  apply keeps_bind; [keeps_frame | intros _; apply keeps_ret].
Qed.

Lemma keeps_put_fragment_state f v : keeps (Sched.put_fragment_state f v).
Proof. apply keeps_bind; [keeps_frame | intros _; apply keeps_ret]. Qed.

Lemma keeps_new_source id high low : keeps (Sched.new_source id high low).
Proof.
  apply keeps_bind; [apply keeps_raise_if | intros _]. apply keeps_bind; [apply keeps_get | intros s].
  apply keeps_bind; [keeps_frame | intros _].
  apply keeps_bind; [apply keeps_register | intros _; apply keeps_ret].
Qed.

Lemma keeps_close_source o : keeps (Sched.close_source o).
Proof.
  apply keeps_bind; [apply keeps_get | intros s].
  destruct (s.(sch_objects) !! o) as [t|]; [|apply keeps_ret].
  destruct t.(ts_closed); [apply keeps_ret|].
  apply keeps_bind; [keeps_frame | intros _; apply keeps_unregister].
Qed.
#[export] Hint Resolve keeps_register keeps_unregister keeps_fail keeps_close keeps_arm_retry_delay
  keeps_record_worker_failure keeps_put_fragment_state keeps_new_source keeps_close_source : keeps.

(** ** Draining *)

Section Draining.
Context (clock : Scheduler -> Z) (h : FteEventHandlers).
Context `{Hgood : !GoodHandlers h}.

Lemma keeps_dispatch e : keeps (Sched.dispatch h e).
Proof.
  unfold Sched.dispatch, Sched.outputs_of. destruct (Sched.handler_for h e) as [m|] eqn:Hm; [|apply keeps_ret].
  apply keeps_bind; [exact (Hgood e m Hm) | intros r; apply keeps_ret].
Qed.

Lemma keeps_count e : keeps (smodify (Sched.count_event clock e)).
Proof. unfold Sched.count_event. destruct (Event.internal_class e); keeps_frame. Qed.

(** Aborting empties the queue; the sources follow at the next resume. *)
Lemma abort_moves s :
  sched_inv s -> s.(sch_draining) = true ->
  moves s (s <| sch_state := S_ABORTED |> <| sch_events := [] |> <| sch_queued_internal := ∅ |>).
Proof.
  intros [He Hs] Hd. split; [|done..]. split; [apply events_ok_nil|]. simpl. rewrite Hd in *.
  apply below_draining. eapply sources_below; [|exact Hs]. unfold Sched.queue_size. simpl. lia.
Qed.

(** What handling an event keeps while the scheduler drains. *)
Lemma handle_event_moves e s :
  sched_inv s -> s.(sch_draining) = true -> moves s (Sched.handle_event clock h e s).2.
Proof.
  intros Hs Hd. pose proof (keeps_count e s Hs) as Hc. unfold Sched.handle_event.
  unfold sbind at 1. unfold smodify at 1. cbv beta iota. change (smodify _ s).2 with (Sched.count_event clock e s) in Hc.
  set (s1 := Sched.count_event clock e s) in *. pose proof (mv_inv _ _ Hc) as Hs1. pose proof (mv_draining _ _ Hc Hd) as Hd1.
  apply (moves_trans _ _ _ Hc). destruct e; try apply (keeps_dispatch _ _ Hs1).
  - unfold sbind at 1, sget. destruct (negb _); [by apply moves_refl|].
    revert s1 Hc Hs1 Hd1. intros s1 _ Hs1 _.
    apply (keeps_bind (smodify (fun s => s <| sch_retry_delay_timer := None |>))); [keeps_frame | intros _; apply keeps_dispatch | exact Hs1].
  - unfold sbind at 1, smodify. pose proof (abort_moves s1 Hs1 Hd1) as Ha.
    exact (moves_trans _ _ _ Ha (keeps_dispatch _ _ (mv_inv _ _ Ha))).
Qed.

Lemma events_ok_tail query state queued e l :
  events_ok query state queued (e :: l) ->
  events_ok query state (match Event.internal_class e with Some c => queued ∖ {[c]} | None => queued end) l.
Proof.
  intros [Hq Ho Hs Ha]. inversion_clear Hq. cbn [pulses omap list_omap] in *.
  destruct (Event.internal_class e) as [c|]; split; try done.
  - by inversion Ho.
  - intros c'. rewrite elem_of_difference, elem_of_singleton, Hs. inversion_clear Ho. set_solver.
  - intros Hst. specialize (Ha Hst). by inversion Ha.
  - intros Hst. specialize (Ha Hst). by inversion Ha.
Qed.

Lemma pop_moves e rest s :
  sched_inv s -> s.(sch_draining) = true -> s.(sch_events) = e :: rest -> moves s (Sched.pop_event e rest s).
Proof.
  intros [He Hs] Hd Hev. rewrite Hev in He. apply events_ok_tail in He.
  assert (Hb : Forall (fun kr => reg_below (Z.of_nat (length rest)) kr.2) s.(sch_task_sources)).
  { eapply sources_below; [|exact Hs]. unfold Sched.queue_size. rewrite Hev. simpl. lia. }
  apply below_draining in Hb. unfold Sched.pop_event.
  destruct (Event.internal_class e); (split; [|done..]); (split; [exact He | by simpl; rewrite Hd]).
Qed.

(** The published-idle state: the flag is cleared and the sources resumed. *)
Lemma idle_moves s :
  sched_inv s ->
  let s' := (Sched.resume_sources (s <| sch_draining := false |>)).2 in
  sched_inv s' /\ s'.(sch_query_id) = s.(sch_query_id) /\ s'.(sch_state) = s.(sch_state) /\
  s'.(sch_draining) = false /\ s'.(sch_events) = s.(sch_events).
Proof.
  intros [He Hs]. destruct (resume_frame (s <| sch_draining := false |>)) as (Hq & Hst & Hev & Hd & _).
  repeat split; try done; apply resume_inv; try done; (eapply sources_below; [reflexivity | exact Hs]).
Qed.

(** [moves] without the flag. *)
Definition stays (s s' : Scheduler) : Prop :=
  sched_inv s' /\ s'.(sch_query_id) = s.(sch_query_id) /\
  (s.(sch_state) <> S_RUNNING -> s'.(sch_state) <> S_RUNNING).

Lemma moves_stays s s' : moves s s' -> stays s s'.
Proof. by intros []. Qed.

Lemma stays_trans s1 s2 s3 : stays s1 s2 -> stays s2 s3 -> stays s1 s3.
Proof. intros (? & ? & ?) (? & ? & ?). split; [done|]. split; [congruence | auto]. Qed.

(** One round of the loop, up to the next look at the queue. *)
Definition loop_round (e : FteEvent) (rest : list FteEvent) : ST Scheduler (list pyval) :=
  let! _ := smodify (Sched.pop_event e rest) in
  let! out := Sched.handle_event clock h e in
  let! _ := Sched.resume_sources in
  sret out.

Lemma loop_round_moves e rest s :
  sched_inv s -> s.(sch_draining) = true -> s.(sch_events) = e :: rest ->
  moves s (loop_round e rest s).2.
Proof.
  intros Hs Hd Hev. pose proof (pop_moves e rest s Hs Hd Hev) as Hp.
  unfold loop_round, sbind at 1, smodify. cbv beta iota. set (s1 := Sched.pop_event e rest s) in *.
  pose proof (handle_event_moves e s1 (mv_inv _ _ Hp) (mv_draining _ _ Hp Hd)) as Hh.
  apply (moves_trans _ _ _ Hp). unfold sbind at 1.
  destruct (Sched.handle_event clock h e s1) as [[out|x] s2]; [|exact Hh].
  apply (moves_trans _ _ _ Hh).
  apply (keeps_bind Sched.resume_sources); [apply keeps_resume_sources | intros; apply keeps_ret | exact (mv_inv _ _ Hh)].
Qed.

Lemma drain_loop_cons fuel outputs e rest s :
  s.(sch_events) = e :: rest ->
  Sched.drain_loop clock (S fuel) h outputs s =
  (let! out := loop_round e rest in Sched.drain_loop clock fuel h (outputs ++ out)) s.
Proof.
  intros Hev. simpl. unfold sbind at 1, sget. rewrite Hev. unfold loop_round, sbind, smodify.
  destruct (Sched.handle_event clock h e _) as [[out|x] s2]; [|done].
  destruct (Sched.resume_sources s2) as [[|]]; reflexivity.
Qed.

Lemma drain_loop_wp fuel outputs s :
  sched_inv s -> s.(sch_draining) = true ->
  wp (Sched.drain_loop clock fuel h outputs)
    (fun r s' => stays s s' /\ (is_Some r -> s'.(sch_draining) = false /\ s'.(sch_events) = []))
    (fun _ s' => stays s s' /\ s'.(sch_draining) = true) s.
Proof.
  revert outputs s. induction fuel as [|fuel IH]; intros outputs s Hs Hd.
  - split; [by split | by intros []].
  - destruct s.(sch_events) as [|e rest] eqn:Hev.
    + simpl. unfold wp, sbind, sget. rewrite Hev. unfold smodify, sret. cbv beta iota.
      destruct (idle_moves s Hs) as (Hi & Hq & Hst & Hdr & Hev').
      destruct (Sched.resume_sources (s <| sch_draining := false |>)) as [[[]|x] s'] eqn:Hr; [|by unfold Sched.resume_sources, smodify in Hr].
      simpl in *. split; [split; [done | split; [done | congruence]] | intros _; split; congruence].
    + pose proof (loop_round_moves e rest s Hs Hd Hev) as Hm.
      unfold wp. rewrite (drain_loop_cons fuel outputs e rest s Hev). unfold sbind at 1.
      destruct (loop_round e rest s) as [[out|x] s1].
      * specialize (IH (outputs ++ out) s1 (mv_inv _ _ Hm) (mv_draining _ _ Hm Hd)). unfold wp in IH. simpl in Hm.
        destruct (Sched.drain_loop clock fuel h (outputs ++ out) s1) as [[r|x] s2];
          destruct IH as [Hst H]; (split; [exact (stays_trans _ _ _ (moves_stays _ _ Hm) Hst) | exact H]).
      * split; [by apply moves_stays | exact (mv_draining _ _ Hm Hd)].
Qed.

(** The invariant of [drain]; unless the fuel ran out nobody drains afterwards. *)
Lemma drain_wp fuel s :
  sched_inv s -> s.(sch_draining) = false ->
  wp (Sched.drain clock fuel h)
    (fun r s' => stays s s' /\ (is_Some r -> s'.(sch_draining) = false /\ s'.(sch_events) = []))
    (fun _ s' => stays s s' /\ s'.(sch_draining) = false) s.
Proof.
  intros [He Hs] Hd. unfold Sched.drain, wp, sbind at 1, sget. rewrite Hd. unfold sbind at 1, smodify. cbv beta iota.
  set (s1 := s <| sch_draining := true |>).
  assert (Hs1 : sched_inv s1).
  { split; [exact He|]. apply below_draining. eapply sources_below; [reflexivity | exact Hs]. }
  pose proof (drain_loop_wp fuel [] s1 Hs1 eq_refl) as Hl. unfold wp, scatch in *.
  destruct (Sched.drain_loop clock fuel h [] s1) as [[r|x] s2]; [exact Hl|].
  destruct Hl as [(Hi & Hq & Hst) _]. destruct (idle_moves s2 Hi) as (Hi' & Hq' & Hst' & Hd' & _).
  unfold sbind, sraise in *. destruct (Sched.resume_sources _) as [[[]|y] s3] eqn:Hr; simpl in *;
    (split; [split; [done | split; [congruence | intros H; rewrite Hst'; auto]] | done]).
Qed.

Lemma keeps_drain fuel : keeps (Sched.drain clock fuel h).
Proof.
  intros s Hs. destruct s.(sch_draining) eqn:Hd.
  - unfold Sched.drain, sbind at 1, sget. rewrite Hd. by apply moves_refl.
  - pose proof (drain_wp fuel s Hs Hd) as H. unfold wp in H.
    destruct (Sched.drain clock fuel h s) as [[r|x] s']; destruct H as [(Hi & Hq & Hst) _]; (split; [done..|congruence]).
Qed.

Lemma keeps_fire_retry_delay fuel g : keeps (Sched.fire_retry_delay clock fuel h g).
Proof.
  apply keeps_bind; [apply keeps_get | intros s]. apply keeps_catch; [|intros; apply keeps_fail].
  apply keeps_bind; [apply keeps_enqueue | intros _].
  apply keeps_bind; [apply keeps_drain | intros; apply keeps_ret].
Qed.

Lemma keeps_drain_if_paused fuel o out : keeps (Sched.drain_if_paused clock fuel h o out).
Proof.
  apply keeps_bind; [apply keeps_get | intros s]. destruct (Sched.source_paused o s); [|apply keeps_ret].
  apply keeps_bind; [apply keeps_drain | intros; apply keeps_ret].
Qed.

Lemma keeps_submit fuel o l : keeps (Sched.submit clock fuel h o l).
Proof.
  apply keeps_try_finally; [|apply keeps_close_source].
  apply keeps_bind; [apply keeps_fold; intros b e | intros b; apply keeps_bind; [apply keeps_drain | intros; apply keeps_ret]].
  apply keeps_bind; [apply keeps_drain_if_paused | intros b'].
  apply keeps_bind; [apply keeps_enqueue | intros _; apply keeps_drain_if_paused].
Qed.
End Draining.
#[export] Hint Resolve keeps_drain keeps_fire_retry_delay keeps_submit : keeps.

(** ** Any history of calls *)

Inductive sched_op :=
| OpEnqueue (e : FteEvent) (priority : bool)
| OpDrain (fuel : nat)
| OpRegister (id : string) (pause resume : option nat) (high : Z) (low : option Z)
| OpUnregister (id : string) (resume : bool)
| OpFail (reason : pyval)
| OpClose
| OpArmRetryDelay (delay : Z)
| OpFireRetryDelay (fuel : nat) (generation : Z)
| OpRecordWorkerFailure (workers : list string)
| OpPutFragmentState (fragment : string) (v : pyval)
| OpNewSource (id : string) (high : Z) (low : option Z)
| OpSubmit (fuel o : nat) (l : list FteEvent)
| OpCloseSource (o : nat).

Section History.
Context (clock : Scheduler -> Z) (h : FteEventHandlers).

(** A call and the state it leaves, whatever it returns or raises. *)
Definition sched_call (op : sched_op) (s : Scheduler) : Scheduler :=
  match op with
  | OpEnqueue e priority => (Sched.enqueue e priority s).2
  | OpDrain fuel => (Sched.drain clock fuel h s).2
  | OpRegister id pause resume high low => (Sched.register_task_source id pause resume high low s).2
  | OpUnregister id resume => (Sched.unregister_task_source id resume s).2
  | OpFail reason => (Sched.fail reason s).2
  | OpClose => (Sched.close s).2
  | OpArmRetryDelay delay => (Sched.arm_retry_delay delay s).2
  | OpFireRetryDelay fuel g => (Sched.fire_retry_delay clock fuel h g s).2
  | OpRecordWorkerFailure ws => (Sched.record_worker_failure ws s).2
  | OpPutFragmentState f v => (Sched.put_fragment_state f v s).2
  | OpNewSource id high low => (Sched.new_source id high low s).2
  | OpSubmit fuel o l => (Sched.submit clock fuel h o l s).2
  | OpCloseSource o => (Sched.close_source o s).2
  end.

Definition sched_run (ops : list sched_op) (s : Scheduler) : Scheduler :=
  fold_left (fun s op => sched_call op s) ops s.

Lemma sched_call_moves `{!GoodHandlers h} op s : sched_inv s -> moves s (sched_call op s).
Proof.
  intros Hs. destruct op; cbn [sched_call];
    match goal with |- moves s (?m s).2 => assert (Hk : keeps m) by eauto with keeps; exact (Hk s Hs) end.
Qed.

Lemma sched_run_moves `{!GoodHandlers h} ops s : sched_inv s -> moves s (sched_run ops s).
Proof.
  unfold sched_run. revert s. induction ops as [|op ops IH]; intros s Hs; simpl; [by apply moves_refl|].
  pose proof (sched_call_moves op s Hs) as H. exact (moves_trans _ _ _ H (IH _ (mv_inv _ _ H))).
Qed.

Lemma new_sched_inv query s : Sched.new query = Ok s -> sched_inv s.
Proof.
  unfold Sched.new. intros H. inv_ok. split; [apply events_ok_nil | constructor].
Qed.

End History.
