(* ===== verification/SchedulerTheorems.v ===== *)
(** * The event scheduler: the theorems

    What [SchedulerProofs] gives for schedulers reached by any history of
    calls, the termination of [drain] under a budget on the work handlers
    add, the order of its outputs, and the registry's admission pump. *)

From S2P Require Import Prelude PyStr PyVal FteTypes FteState Partition Scheduler SchedulerControl SchedulerProofs.

#[local] Open Scope string_scope.
#[local] Open Scope list_scope.
#[local] Open Scope Z_scope.

(** ** A concrete scheduler for the witnesses *)

Definition no_handlers : FteEventHandlers := MkHandlers None None None None None None None None None None.

(** Handlers that call the scheduler back: a worker failure is recorded and
    raises an admission pulse, submitted splits announce the end of a source. *)
Definition demo_handlers : FteEventHandlers :=
  MkHandlers
    (Some (fun l => let! _ := Sched.enqueue (SourceInputExhausted "q" {["scan"]}) false in
                    sret (Some (map PDict l))))
    None None
    (Some (fun e => let! _ := Sched.record_worker_failure ["w"] in
                    let! _ := Sched.enqueue (ResourceAdmissionChanged "q" None true) true in
                    sret None))
    None None None None None None.

#[export] Instance demo_good : GoodHandlers demo_handlers.
Proof. intros e m. destruct e; intros [= <-]; auto 10 with keeps. Qed.

Definition demo_clock (s : Scheduler) : Z := 0.
Definition demo_scheduler : Scheduler :=
  MkScheduler "q" [] S_RUNNING 0 None None [] [] None 0 None false ∅ ∅ [] [].

Definition demo_pulse : sched_op := OpEnqueue (ResourceAdmissionChanged "q" (Some "STANDARD") true) false.
Definition demo_split : FteEvent := SplitEventsSubmitted "q" [[(PStr "split", PInt 1)]].

(** ** Reachable schedulers *)

Section Reachable.
Context (clock : Scheduler -> Z) (h : FteEventHandlers) `{!GoodHandlers h}.

(** After any history of calls on a new scheduler, with handlers that
    respect the scheduler's invariant, every queued event belongs to the
    query, each class of internal admission pulses is queued at most once,
    and the set used to drop duplicates holds exactly the queued classes, so
    that a pulse is dropped only when an equal one is still to be handled. *)
Theorem pulses_queued_once query s0 ops :
  Sched.new query = Ok s0 ->
  let s := sched_run clock h ops s0 in
  s.(sch_query_id) = strip query /\
  Forall (fun e => Event.query_of e = s.(sch_query_id)) s.(sch_events) /\
  NoDup (omap Event.internal_class s.(sch_events)) /\
  (forall c, c ∈ s.(sch_queued_internal) <-> c ∈ omap Event.internal_class s.(sch_events)).
Proof.
  intros Hnew s. destruct (sched_run_moves clock h ops s0 (new_sched_inv _ _ Hnew)) as [[[Hq Ho Hc _] _] Hid _ _].
  split; [|by repeat split; try apply Hc].
  unfold s. rewrite Hid. unfold Sched.new in Hnew. by inv_ok.
Qed.

(** The watermarks of every registered task source satisfy
    0 <= low < high; a source that is not paused sees fewer than [high]
    queued events, and when nobody drains a paused source sees more than
    [low] of them: no source stays paused beside a drained queue. *)
Theorem backpressure_hysteresis query s0 ops k r :
  Sched.new query = Ok s0 ->
  (k, r) ∈ (sched_run clock h ops s0).(sch_task_sources) ->
  let s := sched_run clock h ops s0 in
  0 <= r.(reg_low) < r.(reg_high) /\
  (r.(reg_paused) = false -> Sched.queue_size s < r.(reg_high)) /\
  (r.(reg_paused) = true -> s.(sch_draining) = false -> r.(reg_low) < Sched.queue_size s).
Proof.
  intros Hnew Hin s. destruct (sched_run_moves clock h ops s0 (new_sched_inv _ _ Hnew)) as [[_ Hs] _ _ _].
  unfold sources_ok in Hs. rewrite Forall_forall in Hs. destruct (Hs _ Hin) as (Hm & Hb & Ha).
  split; [exact Hm|]. split; [exact Hb|]. intros Hp Hd. apply Ha; [done|]. unfold s in Hd. by rewrite Hd.
Qed.

(** A scheduler that has failed, was aborted or closed never runs
    again, whatever is called on it, and only abort requests are ever queued
    on it. *)
Theorem stopped_for_good query s0 before after :
  Sched.new query = Ok s0 ->
  (sched_run clock h before s0).(sch_state) <> S_RUNNING ->
  let s := sched_run clock h (before ++ after) s0 in
  s.(sch_state) <> S_RUNNING /\ Forall (fun e => Sched.is_abort e = true) s.(sch_events).
Proof.
  intros Hnew Hst s. pose proof (sched_run_moves clock h before s0 (new_sched_inv _ _ Hnew)) as [Hi _ _ _].
  assert (Hs : s = sched_run clock h after (sched_run clock h before s0)) by apply fold_left_app.
  rewrite Hs. destruct (sched_run_moves clock h after _ Hi) as [[[_ _ _ Ha] _] _ Hstop _].
  split; [by apply Hstop | by apply Ha, Hstop].
Qed.
End Reachable.

Lemma pulses_queued_once_witness :
  let s := sched_run demo_clock demo_handlers [demo_pulse; demo_pulse] demo_scheduler in
  length s.(sch_events) = 1%nat /\ NoDup (omap Event.internal_class s.(sch_events)).
Proof.
  split; [vm_compute; reflexivity|].
  apply (pulses_queued_once demo_clock demo_handlers "q" demo_scheduler [demo_pulse; demo_pulse]). reflexivity.
Defined.

Lemma backpressure_hysteresis_witness :
  exists r, ("src", r) ∈ (sched_run demo_clock demo_handlers
      [OpNewSource "src" 2 (Some 1); OpEnqueue demo_split false; OpEnqueue demo_split false] demo_scheduler).(sch_task_sources) /\
    r.(reg_paused) = true /\ r.(reg_low) < 2.
Proof.
  eexists. split; [vm_compute; left|]. split; [reflexivity|].
  refine (proj2 (proj2 (backpressure_hysteresis demo_clock demo_handlers "q" demo_scheduler
    [OpNewSource "src" 2 (Some 1); OpEnqueue demo_split false; OpEnqueue demo_split false] "src" _ _ _)) _ _);
    [reflexivity | vm_compute; left | reflexivity | reflexivity].
Defined.

Lemma stopped_for_good_witness :
  (sched_run demo_clock demo_handlers [OpFail PNone; OpEnqueue demo_split false; OpDrain 5] demo_scheduler).(sch_state)
    <> S_RUNNING.
Proof.
  apply (stopped_for_good demo_clock demo_handlers "q" demo_scheduler [OpFail PNone]
    [OpEnqueue demo_split false; OpDrain 5]); [reflexivity | discriminate].
Defined.

(** ** Termination of [drain] *)

Section Termination.
Context (clock : Scheduler -> Z) (h : FteEventHandlers).
Context (weight : FteEvent -> nat).

Definition total (l : list FteEvent) : nat := sum_list_with weight l.

(** Handling an event may queue new events, of less total weight. *)
Definition within_budget : Prop :=
  (forall e, 0 < weight e)%nat /\
  forall e m s, Sched.handler_for h e = Some m -> (total (m s).2.(sch_events) < total s.(sch_events) + weight e)%nat.

Lemma dispatch_budget e s :
  within_budget -> (total (Sched.dispatch h e s).2.(sch_events) < total s.(sch_events) + weight e)%nat.
Proof.
  intros [Hpos Hb]. unfold Sched.dispatch, Sched.outputs_of, sbind, sret.
  destruct (Sched.handler_for h e) as [m|] eqn:Hm; simpl.
  - specialize (Hb e m s Hm). by destruct (m s) as [[?|?] ?].
  - specialize (Hpos e). lia.
Qed.

Lemma count_event_events e s : (Sched.count_event clock e s).(sch_events) = s.(sch_events).
Proof. unfold Sched.count_event. by destruct (Event.internal_class e). Qed.

Lemma handle_event_budget e s :
  within_budget -> (total (Sched.handle_event clock h e s).2.(sch_events) < total s.(sch_events) + weight e)%nat.
Proof.
  intros H. unfold Sched.handle_event, sbind at 1, smodify at 1. cbv beta iota.
  rewrite <- (count_event_events e s). set (s1 := Sched.count_event clock e s).
  pose proof (proj1 H e) as Hpos. destruct e; try exact (dispatch_budget _ s1 H).
  - unfold sbind at 1, sget. destruct (negb _); [simpl in *; lia|].
    exact (dispatch_budget _ (s1 <| sch_retry_delay_timer := None |>) H).
  - unfold sbind at 1, smodify. pose proof (dispatch_budget (QueryAbort query reason)
      (s1 <| sch_state := S_ABORTED |> <| sch_events := [] |> <| sch_queued_internal := ∅ |>) H) as Hd.
    simpl in *. lia.
Qed.

Lemma loop_round_budget e rest s :
  within_budget -> (total (loop_round clock h e rest s).2.(sch_events) < total (e :: rest))%nat.
Proof.
  intros H. unfold loop_round, sbind at 1, smodify. cbv beta iota. set (s1 := Sched.pop_event e rest s).
  assert (Hr : s1.(sch_events) = rest) by (unfold s1, Sched.pop_event; by destruct (Event.internal_class e)).
  pose proof (handle_event_budget e s1 H) as Hh. rewrite Hr in Hh.
  change (total (e :: rest)) with (weight e + total rest)%nat.
  unfold sbind at 1. destruct (Sched.handle_event clock h e s1) as [[out|x] s2]; cbn [snd] in *; [|lia].
  destruct (resume_frame s2) as (_ & _ & Hev & _). unfold sbind, sret.
  destruct (Sched.resume_sources s2) as [[|] s3]; cbn [snd] in *; rewrite Hev; lia.
Qed.

Lemma drain_loop_terminates fuel outputs s :
  within_budget -> (total s.(sch_events) < fuel)%nat ->
  match Sched.drain_loop clock fuel h outputs s with
  | (Ok None, _) => False
  | (Ok (Some _), s') => s'.(sch_draining) = false /\ s'.(sch_events) = []
  | (Raise _, _) => True
  end.
Proof.
  intros Hb. revert outputs s. induction fuel as [|fuel IH]; intros outputs s Hf; [lia|].
  destruct s.(sch_events) as [|e rest] eqn:Hev.
  - simpl. unfold sbind, sget. rewrite Hev. unfold smodify, sret. cbv beta iota.
    destruct (resume_frame (s <| sch_draining := false |>)) as (_ & _ & Hev' & Hd & _).
    destruct (Sched.resume_sources _) as [[[]|] s']; simpl in *; [|done]. split; congruence.
  - rewrite (drain_loop_cons clock h fuel outputs e rest s Hev). unfold sbind at 1.
    pose proof (loop_round_budget e rest s Hb) as Hr.
    destruct (loop_round clock h e rest s) as [[out|x] s1]; [|done]. apply IH. simpl in *. lia.
Qed.

(** C32: when the events a handler queues weigh less than the event it
    handles, [drain] terminates: with more fuel than the queue weighs it
    returns or raises; the drain flag is cleared in both cases, and the
    queue is empty when it returns. *)
Theorem drain_terminates fuel s :
  within_budget -> (total s.(sch_events) < fuel)%nat -> s.(sch_draining) = false ->
  match Sched.drain clock fuel h s with
  | (Ok None, _) => False
  | (Ok (Some _), s') => s'.(sch_draining) = false /\ s'.(sch_events) = []
  | (Raise _, s') => s'.(sch_draining) = false
  end.
Proof.
  intros Hb Hf Hd. unfold Sched.drain, sbind at 1, sget. rewrite Hd. unfold sbind at 1, smodify at 1. cbv beta iota.
  unfold scatch. match goal with |- context [Sched.drain_loop clock fuel h [] ?x] =>
    pose proof (drain_loop_terminates fuel [] x Hb Hf) as H;
    destruct (Sched.drain_loop clock fuel h [] x) as [[[out|]|e] s1]; [exact H | exact H |] end.
  destruct (resume_frame (s1 <| sch_draining := false |>)) as (_ & _ & _ & Hd' & _).
  unfold sbind, smodify, sraise. cbv beta iota.
  destruct (Sched.resume_sources _) as [[[]|] s2]; exact Hd'.
Qed.

End Termination.

(** Enqueueing adds at most the weight of the event. *)
Lemma enqueue_total weight e priority s :
  (total weight (Sched.enqueue e priority s).2.(sch_events) <= total weight s.(sch_events) + weight e)%nat.
Proof.
  unfold Sched.enqueue, sbind, sget, sraise_if, slift, raise_if.
  destruct (negb (String.eqb _ _)); [simpl; lia|]. simpl.
  destruct (_ && _); [simpl; lia|].
  destruct (match Event.internal_class e with Some c => bool_decide (c ∈ _) | None => false end); [simpl; lia|].
  unfold smodify, Sched.pause_sources, Sched.pause_callbacks. cbv beta iota. unfold smodify. cbn [snd].
  match goal with |- context [Sched.run_callbacks ?c ?x] => destruct (run_callbacks_objects c x) as [os ->] end.
  destruct (Event.internal_class e), priority; simpl; unfold total; rewrite ?sum_list_with_app; simpl; lia.
Qed.

(** Submitted splits weigh two, as their handler queues one more event. *)
Definition demo_weight (e : FteEvent) : nat :=
  match e with SplitEventsSubmitted _ _ | WorkerFailed _ _ _ _ => 2 | _ => 1 end.

Lemma demo_budget : within_budget demo_handlers demo_weight.
Proof.
  split; [by intros []; simpl; lia|]. intros e m s. destruct e; intros [= <-]; unfold sbind at 1.
  - pose proof (enqueue_total demo_weight (SourceInputExhausted "q" {["scan"]}) false s) as H.
    destruct (Sched.enqueue _ _ s) as [[[]|] s1]; simpl in *; lia.
  - destruct (Sched.record_worker_failure ["w"] s) as [[?|] s1] eqn:Hr.
    + assert (Hev : s1.(sch_events) = s.(sch_events)).
      { unfold Sched.record_worker_failure, sbind, smodify, sret, sget in Hr. destruct (bool_decide _); by simplify_eq. }
      unfold sbind. pose proof (enqueue_total demo_weight (ResourceAdmissionChanged "q" None true) true s1) as H.
      destruct (Sched.enqueue _ _ s1) as [[[]|] s2]; simpl in *; rewrite Hev in H; lia.
    + unfold Sched.record_worker_failure, sbind, smodify, sret, sget in Hr. destruct (bool_decide _); by simplify_eq.
Qed.

Lemma drain_terminates_witness :
  match Sched.drain demo_clock 3 demo_handlers (demo_scheduler <| sch_events := [demo_split] |>) with
  | (Ok (Some _), s') => s'.(sch_events) = []
  | _ => False
  end.
Proof.
  assert (Hf : (total demo_weight (demo_scheduler <| sch_events := [demo_split] |>).(sch_events) < 3)%nat) by (vm_compute; lia).
  pose proof (drain_terminates demo_clock demo_handlers demo_weight 3 (demo_scheduler <| sch_events := [demo_split] |>)
    demo_budget Hf eq_refl) as H.
  destruct (Sched.drain _ _ _ _) as [[[out|]|x] s'] eqn:Hd; [apply H | done |].
  vm_compute in Hd. discriminate.
Defined.

(** ** The order of the outputs *)

(** The outputs of the queue, event by event: an expired retry delay of an
    old generation gives nothing, and an abort drops what is behind it. *)
Fixpoint replies (generation : Z) (answer : FteEvent -> list pyval) (l : list FteEvent) : list pyval :=
  match l with
  | [] => []
  | e :: l =>
      (match e with
       | RetryDelayExpired _ g => if Z.eqb g generation then answer e else []
       | _ => answer e
       end) ++ (if Sched.is_abort e then [] else replies generation answer l)
  end.

Section Order.
Context (clock : Scheduler -> Z) (h : FteEventHandlers) (answer : FteEvent -> list pyval).

(** The handlers answer without touching the scheduler. *)
Definition answers : Prop := forall e s, Sched.dispatch h e s = (Ok (answer e), s).

Lemma count_event_generation e s :
  (Sched.count_event clock e s).(sch_retry_delay_generation) = s.(sch_retry_delay_generation).
Proof. unfold Sched.count_event. by destruct (Event.internal_class e). Qed.

Lemma loop_round_answer e rest s :
  answers ->
  exists s', loop_round clock h e rest s =
      (Ok (match e with
           | RetryDelayExpired _ g => if Z.eqb g s.(sch_retry_delay_generation) then answer e else []
           | _ => answer e
           end), s') /\
    s'.(sch_events) = (if Sched.is_abort e then [] else rest) /\
    s'.(sch_retry_delay_generation) = s.(sch_retry_delay_generation).
Proof.
  intros H. unfold loop_round, sbind at 1, smodify. cbv beta iota. set (s1 := Sched.pop_event e rest s).
  assert (Hr : s1.(sch_events) = rest /\ s1.(sch_retry_delay_generation) = s.(sch_retry_delay_generation))
    by (unfold s1, Sched.pop_event; by destruct (Event.internal_class e)).
  destruct Hr as [Hr Hg].
  assert (Hh : exists s2, Sched.handle_event clock h e s1 =
      (Ok (match e with
           | RetryDelayExpired _ g => if Z.eqb g s.(sch_retry_delay_generation) then answer e else []
           | _ => answer e
           end), s2) /\
    s2.(sch_events) = (if Sched.is_abort e then [] else rest) /\
    s2.(sch_retry_delay_generation) = s.(sch_retry_delay_generation)).
  { pose proof (count_event_events clock e s1) as Hce. pose proof (count_event_generation e s1) as Hcg.
    unfold Sched.handle_event, sbind at 1, smodify at 1. cbv beta iota.
    set (s2 := Sched.count_event clock e s1) in *. rewrite Hr in Hce. rewrite Hg in Hcg.
    destruct e; try (rewrite H; eexists; by repeat split).
    - unfold sbind at 1, sget. rewrite Hcg. destruct (Z.eqb_spec generation s.(sch_retry_delay_generation)) as [He|Hne].
      + rewrite bool_decide_true by done. cbn [negb]. unfold sbind at 1, smodify. rewrite H. eexists. by repeat split.
      + rewrite bool_decide_false by done. cbn [negb]. eexists. by repeat split.
    - unfold sbind at 1, smodify. rewrite H. eexists. by repeat split. }
  destruct Hh as (s2 & Hh & Hev & Hgen). unfold sbind, sret. rewrite Hh. cbv beta iota.
  destruct (resume_frame s2) as (_ & _ & Hev' & _ & _ & Hg' & _).
  destruct (Sched.resume_sources s2) as [[[]|x] s3] eqn:Hres; [|by unfold Sched.resume_sources, smodify in Hres].
  simpl in *. eexists. split; [reflexivity|]. split; congruence.
Qed.

Lemma drain_loop_replies fuel outputs s :
  answers -> (length s.(sch_events) < fuel)%nat ->
  exists s', Sched.drain_loop clock fuel h outputs s =
      (Ok (Some (outputs ++ replies s.(sch_retry_delay_generation) answer s.(sch_events))), s') /\
    s'.(sch_events) = [] /\ s'.(sch_draining) = false.
Proof.
  intros H. revert outputs s. induction fuel as [|fuel IH]; intros outputs s Hf; [lia|].
  destruct s.(sch_events) as [|e rest] eqn:Hev.
  - simpl. unfold sbind, sget. rewrite Hev. unfold smodify, sret. cbv beta iota.
    destruct (resume_frame (s <| sch_draining := false |>)) as (_ & _ & Hev' & Hd & _).
    destruct (Sched.resume_sources _) as [[[]|x] s'] eqn:Hr; [|by unfold Sched.resume_sources, smodify in Hr].
    simpl in *. rewrite app_nil_r. eexists. split; [reflexivity|]. split; congruence.
  - rewrite (drain_loop_cons clock h fuel outputs e rest s Hev). unfold sbind at 1.
    destruct (loop_round_answer e rest s H) as (s1 & -> & Hev1 & Hg1).
    match goal with |- context [outputs ++ ?o] => set (out := o) end.
    assert (Hlen : (length s1.(sch_events) < fuel)%nat)
      by (rewrite Hev1; destruct (Sched.is_abort e); simpl in *; lia).
    destruct (IH (outputs ++ out) s1 Hlen) as (s2 & -> & ? & ?). eexists. split; [|by split].
    rewrite <- app_assoc, Hev1, Hg1. cbn [replies]. by destruct (Sched.is_abort e).
Qed.

(** With handlers that answer without touching the scheduler and fuel
    for every queued event, [drain] returns the answers in the order of the
    queue: a retry-delay event of an outdated generation contributes nothing
    and nothing behind a query abort is handled.  The queue is left empty. *)
Theorem drain_in_order fuel s :
  answers -> (length s.(sch_events) < fuel)%nat -> s.(sch_draining) = false ->
  exists s', Sched.drain clock fuel h s =
      (Ok (Some (replies s.(sch_retry_delay_generation) answer s.(sch_events))), s') /\
    s'.(sch_events) = [] /\ s'.(sch_draining) = false.
Proof.
  intros H Hf Hd. unfold Sched.drain, sbind at 1, sget. rewrite Hd. unfold sbind at 1, smodify at 1. cbv beta iota.
  unfold scatch. match goal with |- context [Sched.drain_loop clock fuel h [] ?x] =>
    destruct (drain_loop_replies fuel [] x H Hf) as (s' & -> & ? & ?) end.
  exists s'. by repeat split.
Qed.
End Order.

(** Every event answers with its class name. *)
Definition naming_handlers : FteEventHandlers :=
  let name := fun e => sret (Some [PStr (Event.event_type e)]) in
  MkHandlers (Some (fun _ => sret (Some [PStr "SplitEventsSubmitted"])))
    (Some (fun _ => sret (Some [PStr "SourceInputExhausted"])))
    (Some name) (Some name) (Some name) (Some name) (Some name) (Some name) (Some name) (Some name).

Lemma naming_answers : answers naming_handlers (fun e => [PStr (Event.event_type e)]).
Proof. intros [] s; reflexivity. Qed.

Definition demo_queue : Scheduler :=
  demo_scheduler <| sch_events := [demo_split; RetryDelayExpired "q" 7; QueryAbort "q" PNone; demo_split] |>.

Lemma drain_in_order_witness :
  exists s', Sched.drain demo_clock 5 naming_handlers demo_queue
    = (Ok (Some [PStr "SplitEventsSubmitted"; PStr "QueryAbort"]), s').
Proof.
  assert (Hf : (length demo_queue.(sch_events) < 5)%nat) by (vm_compute; lia).
  destruct (drain_in_order demo_clock naming_handlers (fun e => [PStr (Event.event_type e)]) 5 demo_queue
    naming_answers Hf eq_refl) as (s' & H & _).
  exists s'. exact H.
Defined.
