(* ===== verification/ControlTheorems.v ===== *)
(** * Command executor, status watcher and registry: the theorems

    The order in which the executor calls a worker, what the watcher reports
    to the scheduler, and the fairness and termination of the registry's
    admission pump. *)

From S2P Require Import Prelude PyStr PyVal FteTypes FteState Partition Scheduler SchedulerControl.

#[local] Open Scope string_scope.
#[local] Open Scope list_scope.
#[local] Open Scope Z_scope.

(** ** The admission pump's order *)

Lemma distinct_elem x l : x ∈ SchedulerRegistry.distinct l <-> x ∈ l.
Proof.
  induction l as [|y l IH]; simpl; [done|].
  destruct (bool_decide (y ∈ l)) eqn:Hy; rewrite ?elem_of_cons, IH; [|done].
  apply bool_decide_eq_true in Hy. split; [by right|]. by intros [-> |].
Qed.

Lemma distinct_NoDup l : NoDup (SchedulerRegistry.distinct l).
Proof.
  induction l as [|y l IH]; simpl; [constructor|].
  destruct (bool_decide (y ∈ l)) eqn:Hy; [done|].
  constructor; [|done]. rewrite distinct_elem. by apply bool_decide_eq_false in Hy.
Qed.

Lemma index_of_lookup x l i : SchedulerRegistry.index_of x l = Some i -> l !! i = Some x.
Proof.
  revert i. induction l as [|y l IH]; intros i; simpl; [done|].
  destruct (String.eqb_spec x y) as [->|Hne]; [by intros [= <-]|].
  destruct (SchedulerRegistry.index_of x l) as [j|] eqn:Hj; [|done]. intros [= <-]. simpl. by apply IH.
Qed.

Lemma index_of_None x l : SchedulerRegistry.index_of x l = None -> x ∉ l.
Proof.
  induction l as [|y l IH]; simpl; [set_solver|].
  destruct (String.eqb_spec x y) as [->|Hne]; [done|].
  destruct (SchedulerRegistry.index_of x l) as [j|]; [done|]. intros _. rewrite elem_of_cons. intros [?|?]; [done|]. by apply IH.
Qed.

(** The element before the point of rotation comes last. *)
Lemma rotation_last {A} (l : list A) i x :
  l !! i = Some x -> let start := ((i + 1) mod length l)%nat in last (drop start l ++ take start l) = Some x.
Proof.
  intros Hi start. pose proof (lookup_lt_Some _ _ _ Hi) as Hlt. unfold start.
  destruct (decide (i + 1 = length l)%nat) as [He|Hne].
  - rewrite He, Nat.Div0.mod_same, drop_0, take_0, app_nil_r, last_lookup, <- He.
    by replace (pred (i + 1)) with i by lia.
  - rewrite Nat.mod_small by lia. rewrite Nat.add_1_r, (take_S_r l i x Hi), app_assoc. apply last_snoc.
Qed.

(** The order in which the pump visits the queries is a rotation of the
    sorted list of their distinct non-empty ids: every query is visited
    exactly once per round, and the query that made progress last is
    visited last, so none is starved. *)
Theorem pump_order_fair cursor ids :
  let order := SchedulerRegistry.ordered_pending_drain_query_ids cursor ids in
  NoDup order /\ (forall q, q ∈ order <-> q ∈ ids /\ q <> "") /\
  (exists a b, sorted_str (SchedulerRegistry.distinct (List.filter (fun q => negb (String.eqb q "")) ids)) = a ++ b /\
     order = b ++ a) /\
  (forall c, cursor = Some c -> c ∈ ids -> c <> "" -> last order = Some c).
Proof.
  set (sorted := sorted_str _).
  assert (Hel : forall q, q ∈ sorted <-> q ∈ ids /\ q <> "").
  { intros q. unfold sorted, sorted_str. rewrite py_sorted_elem, distinct_elem, list_elem_of_In, filter_In, <- list_elem_of_In.
    destruct (String.eqb_spec q ""); simpl; naive_solver. }
  assert (Hrot : exists a b, sorted = a ++ b /\ SchedulerRegistry.ordered_pending_drain_query_ids cursor ids = b ++ a).
  { unfold SchedulerRegistry.ordered_pending_drain_query_ids. fold sorted.
    destruct cursor as [c|]; [|by exists [], sorted; rewrite app_nil_r].
    destruct (SchedulerRegistry.index_of c sorted); [|by exists [], sorted; rewrite app_nil_r].
    eexists (take _ sorted), (drop _ sorted). by rewrite take_drop. }
  assert (Hp : Permutation (SchedulerRegistry.ordered_pending_drain_query_ids cursor ids) sorted).
  { destruct Hrot as (a & b & -> & ->). apply Permutation_app_comm. }
  intros order. split; [|split; [|split; [exact Hrot|]]].
  - unfold order. rewrite Hp. unfold sorted, sorted_str. rewrite py_sorted_perm. apply distinct_NoDup.
  - intros q. unfold order. rewrite Hp. apply Hel.
  - intros c -> Hc Hne. unfold order, SchedulerRegistry.ordered_pending_drain_query_ids. fold sorted.
    destruct (SchedulerRegistry.index_of c sorted) as [i|] eqn:Hi.
    + apply rotation_last. by apply index_of_lookup.
    + apply index_of_None in Hi. destruct Hi. by apply Hel.
Qed.

(** ** The pump's loop *)

Section Pump.
Context (drain_round : list string -> ST Registry (list pyval)) (work : Registry -> nat).

(** A round that raises the dirty bit again has used up some work. *)
Definition rounds_progress : Prop :=
  forall ids r, r.(rg_dirty) = false -> let r' := (drain_round ids r).2 in
  (work r' <= work r)%nat /\ (r'.(rg_dirty) = true -> work r' < work r)%nat.

Context (work_flags : forall r b, work (r <| rg_dirty := b |>) = work r /\ work (r <| rg_running := b |>) = work r).

Lemma pump_loop_ends fuel outputs r :
  rounds_progress -> (work r + (if r.(rg_dirty) then 1 else 0) < fuel)%nat ->
  match SchedulerRegistry.pump_loop fuel drain_round outputs r with
  | (Ok None, _) => False
  | (Ok (Some _), r') => r'.(rg_dirty) = false /\ r'.(rg_running) = false
  | (Raise _, _) => True
  end.
Proof using work_flags.
  intros Hp. revert outputs r. induction fuel as [|fuel IH]; intros outputs r Hf; [lia|].
  simpl. unfold sbind at 1, sget. destruct r.(rg_dirty) eqn:Hd; cbn [negb].
  - unfold sbind at 1, smodify. cbv beta iota. set (r1 := set_field rg_dirty _ r).
    assert (Hw : work r1 = work r) by apply work_flags.
    unfold sbind at 1. match goal with |- context [drain_round ?ids r1] => pose proof (Hp ids r1 eq_refl) as [Hle Hlt];
      destruct (drain_round ids r1) as [[out|x] r2]; [|done] end.
    apply IH. simpl in *. destruct r2.(rg_dirty); [specialize (Hlt eq_refl)|]; lia.
  - unfold sbind, smodify, sret. simpl. by rewrite Hd.
Qed.

(** The admission pump terminates when rounds that ask for another one
    use up work: the leader returns or raises with the pump published idle,
    and when it returns no request is pending, so a wake-up that arrives
    during a round is always served by one more round.  A caller that finds
    the pump running leaves the request for the leader. *)
Theorem pump_terminates fuel r :
  rounds_progress -> (work r + 1 < fuel)%nat ->
  match SchedulerRegistry.run_pending_drain fuel drain_round r with
  | (Ok None, _) => False
  | (Ok (Some out), r') =>
      if r.(rg_running) then out = [] /\ r' = r <| rg_dirty := true |>
      else r'.(rg_dirty) = false /\ r'.(rg_running) = false
  | (Raise _, r') => r.(rg_running) = false /\ r'.(rg_running) = false
  end.
Proof using work_flags.
  intros Hp Hf. unfold SchedulerRegistry.run_pending_drain, sbind, sget, smodify. cbv beta iota.
  destruct r.(rg_running) eqn:Hrun; simpl; rewrite Hrun; [done|].
  unfold scatch. match goal with |- context [SchedulerRegistry.pump_loop fuel drain_round [] ?x] =>
    assert (Hw : work x = work r) by
      (transitivity (work (r <| rg_dirty := true |>)); apply work_flags);
    pose proof (pump_loop_ends fuel [] x Hp) as Hl; rewrite Hw in Hl; specialize (Hl Hf);
    destruct (SchedulerRegistry.pump_loop fuel drain_round [] x) as [[[out|]|e] r1]; [exact Hl | exact Hl | done] end.
Qed.
End Pump.

(** A round that asks for another one the first time. *)
Definition demo_round (ids : list string) : ST Registry (list pyval) :=
  let! r := sget in
  match r.(rg_cursor) with
  | None =>
      let! _ := SchedulerRegistry.record_pending_drain_progress "q1" in
      let! _ := smodify (fun r => r <| rg_dirty := true |>) in
      sret (map PStr ids)
  | Some _ => sret []
  end.
Definition demo_work (r : Registry) : nat := match r.(rg_cursor) with None => 1 | Some _ => 0 end.
Definition demo_registry : Registry := (SchedulerRegistry.get_or_create "q1" SchedulerRegistry.new).2.

Lemma demo_rounds : rounds_progress demo_round demo_work.
Proof. intros ids [sch [c|] run dirty] [= ->]; split; vm_compute; intros; try discriminate; lia. Qed.

Lemma pump_terminates_witness :
  exists out r', SchedulerRegistry.run_pending_drain 3 demo_round demo_registry = (Ok (Some out), r') /\
    r'.(rg_dirty) = false /\ r'.(rg_running) = false.
Proof.
  assert (Hf : (demo_work demo_registry + 1 < 3)%nat) by (vm_compute; lia).
  pose proof (pump_terminates demo_round demo_work (fun r b => conj eq_refl eq_refl) 3 demo_registry demo_rounds Hf) as H.
  destruct (SchedulerRegistry.run_pending_drain 3 demo_round demo_registry) as [[[out|]|x] r'] eqn:Hr; [|done|by vm_compute in Hr].
  exists out, r'. by split.
Defined.

(** ** The command executor *)

Section Executor.
Context (reply : list lane_call -> lane_call -> result pyval) (has_method : Worker -> string -> bool).

(** Whether the worker's answer to the wait admits more splits. *)
Definition admits (answer : result pyval) : bool :=
  match answer with
  | Ok (PDict d) => match pd_find "has_space" d with Some v => truthy v | None => true end
  | _ => false
  end.

Definition counted (c : FteWorkerCommand) (x : Executor) : Z := od_get_default (command_type c) 0 x.(ex_command_counts).

(** Executing an add-splits command first waits for space in the
    worker's split queue and sends the splits only when the worker admits
    them.  If it does not, or the worker cannot be asked, nothing is sent
    and nothing is counted; otherwise the wait and the splits are the two
    calls made, the command is counted once, and the worker's answer is the
    result. *)
Theorem add_splits_after_wait h w source splits x :
  h.(cmd_worker) = Some w ->
  has_method w "enqueue_fte_add_splits" = true ->
  let c := FteAddSplitsCommand h source splits in
  let wait := LaneWaitSplitQueue w h.(cmd_attempt_id) source in
  let add := LaneAddSplits w h.(cmd_attempt_id) source splits in
  let asked := has_method w "fte_wait_split_queue_has_space" in
  let '(r, x') := CommandExecutor.execute reply has_method c x in
  if asked && admits (reply x.(ex_calls) wait) then
    r = reply (x.(ex_calls) ++ [wait]) add /\ x'.(ex_calls) = x.(ex_calls) ++ [wait; add] /\
    counted c x' = counted c x + 1
  else
    is_ok r = false /\ x'.(ex_calls) = x.(ex_calls) ++ (if asked then [wait] else []) /\ counted c x' = counted c x.
Proof.
  intros Hw Hadd c wait add asked. unfold CommandExecutor.execute, c.
  unfold CommandExecutor.wait_split_queue_has_space, CommandExecutor.required_worker_method. rewrite Hw.
  fold asked. destruct asked; simpl.
  2: { by rewrite app_nil_r. }
  unfold sbind, sraise_if, slift, raise_if, sret, CommandExecutor.call. cbn [negb]. cbv beta iota.
  fold wait. set (x1 := x <| ex_calls ::= _ |>).
  destruct (reply x.(ex_calls) wait) as [[] |]; simpl; try by repeat split.
  destruct (match pd_find "has_space" _ with Some v => truthy v | None => true end); simpl; [|done].
  unfold CommandExecutor.add_splits, sbind, CommandExecutor.record, smodify, CommandExecutor.required_worker_method.
  rewrite Hw, Hadd. unfold sraise_if, slift, raise_if, sret, CommandExecutor.call, counted, sbind. simpl.
  split; [done|]. split; [by rewrite <- app_assoc|].
  unfold od_get_default at 1. by rewrite od_get_set_eq.
Qed.
End Executor.

(** A worker that has space once and then accepts what it is sent. *)
Definition demo_reply (calls : list lane_call) (c : lane_call) : result pyval :=
  match c with
  | LaneWaitSplitQueue _ _ _ => Ok (PDict [(PStr "has_space", PBool (Nat.eqb (length calls) 0))])
  | _ => Ok (PBool true)
  end.
Definition demo_head : CommandHead :=
  MkHead "q" "f" (Some "w") (Some 1%N) (MkFteTaskAttemptId (MkFteTaskId "q" 0 0) 0).

Lemma add_splits_after_wait_witness :
  let '(r, x') := CommandExecutor.execute demo_reply (fun _ _ => true)
                    (FteAddSplitsCommand demo_head "scan" [PInt 1]) (MkExecutor [] []) in
  r = Ok (PBool true) /\ length x'.(ex_calls) = 2%nat.
Proof.
  pose proof (add_splits_after_wait demo_reply (fun _ _ => true) demo_head 1%N "scan" [PInt 1] (MkExecutor [] [])
    eq_refl eq_refl) as H.
  cbv beta zeta in H. destruct (CommandExecutor.execute demo_reply _ _ _) as [r x'].
  destruct H as (Hr & Hx & _). rewrite Hr, Hx. split; reflexivity.
Defined.

(** ** The status watcher *)

(** What a watcher tells the scheduler. *)
Inductive report :=
| RStatus (status : list (pyval * pyval)) (terminal : bool)
| RWorkerFailed (error : pyval).

Definition final_report (r : report) : bool :=
  match r with RStatus _ terminal => terminal | RWorkerFailed _ => true end.

(** The reports that the observed replies call for. *)
Fixpoint reports (attempt : FteTaskAttemptId) (obs : list Observation) (min_version : option Z) : list report :=
  match obs with
  | [] => []
  | ob :: obs =>
      if ob.(ob_stopped_before) || ob.(ob_stopped_after) then []
      else match Watcher.watch_step attempt min_version ob.(ob_reply) with
           | WRetry => reports attempt obs min_version
           | WFail error => [RWorkerFailed error]
           | WStatus status true _ => [RStatus status true]
           | WStatus status false version => RStatus status false :: reports attempt obs version
           end
  end.

Section Watching.
Context (clock : Scheduler -> Z) (fuel : nat) (h : FteEventHandlers).
Context (attempt : FteTaskAttemptId) (worker_id : string).

Definition report_event (query : string) (r : report) : FteEvent :=
  match r with
  | RStatus status _ => TaskStatusChanged query attempt status
  | RWorkerFailed error => WorkerFailed query worker_id error None
  end.

(** Hand the reports to the scheduler until handling one of them fails. *)
Fixpoint deliver (l : list report) : ST Scheduler unit :=
  match l with
  | [] => sret tt
  | r :: l =>
      let! s := sget in
      let! ok := Watcher.enqueue_and_drain clock fuel h (report_event s.(sch_query_id) r) in
      if ok then deliver l else sret tt
  end.

Lemma deliver_last r s : deliver [r] s = (let! _ := Watcher.enqueue_and_drain clock fuel h (report_event s.(sch_query_id) r) in sret tt) s.
Proof. simpl. unfold sbind, sget. by destruct (Watcher.enqueue_and_drain _ _ _ _ s) as [[[]|] ?]. Qed.

Lemma run_deliver obs mv s :
  Watcher.run clock fuel h attempt worker_id obs mv s = deliver (reports attempt obs mv) s.
Proof.
  revert mv s. induction obs as [|ob obs IH]; intros mv s; [done|]. simpl.
  destruct ob.(ob_stopped_before); [done|]. destruct ob.(ob_stopped_after); [done|]. simpl.
  unfold sbind at 1, sget.
  destruct (Watcher.watch_step attempt mv (ob_reply ob)) as [|error|status [] version]; [apply IH| | |].
  - by rewrite deliver_last.
  - rewrite deliver_last. unfold sbind. simpl.
    by destruct (Watcher.enqueue_and_drain _ _ _ _ s) as [[[]|] ?].
  - simpl. unfold sbind, sget. destruct (Watcher.enqueue_and_drain _ _ _ _ s) as [[[]|] s']; simpl; auto.
Qed.

Lemma reports_final obs mv l1 r l2 :
  reports attempt obs mv = l1 ++ r :: l2 -> final_report r = true -> l2 = [].
Proof.
  revert mv l1. induction obs as [|ob obs IH]; intros mv l1; simpl; [by destruct l1|].
  destruct (_ || _); [by destruct l1|].
  destruct (Watcher.watch_step attempt mv (ob_reply ob)) as [|error|status [] version]; [apply IH| | |];
    (destruct l1 as [|r' l1]; simpl; intros [= <- H] Hf; [by try discriminate|]); try by destruct l1.
  by apply (IH version l1).
Qed.

Lemma reports_valid obs mv status terminal :
  RStatus status terminal ∈ reports attempt obs mv ->
  validate_fte_status_identity status (RObj attempt) = Ok attempt /\
  exists state, Watcher.status_state status = Ok state /\ terminal = terminal_state state.
Proof.
  revert mv. induction obs as [|ob obs IH]; intros mv; simpl; [set_solver|].
  destruct (_ || _); [set_solver|].
  assert (Hw : forall st t v, Watcher.watch_step attempt mv (ob_reply ob) = WStatus st t v ->
    validate_fte_status_identity st (RObj attempt) = Ok attempt /\
    exists state, Watcher.status_state st = Ok state /\ t = terminal_state state).
  { intros st t v. unfold Watcher.watch_step.
    destruct (ob_reply ob) as [v0|e]; [|by destruct (Watcher.is_soft_status_wait_timeout e)].
    destruct v0 as [| | | | | | | | |status0|]; try discriminate.
    destruct (validate_fte_status_identity status0 _) as [a|] eqn:Hv; [|discriminate].
    destruct (Watcher.status_state status0) as [state|] eqn:Hs; [|discriminate]. intros [= <- <- _].
    split; [|by exists state]. revert Hv. unfold validate_fte_status_identity. cbn [TaskAttemptId.coerce rbind].
    destruct (raw_identities _); [done|]. by destruct (rmapM _ _); simpl; intros [= <-]. }
  destruct (Watcher.watch_step attempt mv (ob_reply ob)) as [|error|st [] version]; [apply IH|..];
    rewrite ?list_elem_of_singleton, ?elem_of_cons; try discriminate.
  - intros [= -> ->]. by eapply Hw.
  - intros [[= -> ->]|Hin]; [by eapply Hw | by apply (IH version)].
Qed.

(** The watcher delivers to the scheduler, in order and until handling
    one of them fails, the reports that the observed replies call for.
    Every status it reports names the watched attempt and has a known state,
    and nothing follows a terminal status or a failure of the worker. *)
Theorem watcher_reports obs mv s :
  Watcher.run clock fuel h attempt worker_id obs mv s = deliver (reports attempt obs mv) s /\
  (forall status terminal, RStatus status terminal ∈ reports attempt obs mv ->
     validate_fte_status_identity status (RObj attempt) = Ok attempt /\
     exists state, Watcher.status_state status = Ok state /\ terminal = terminal_state state) /\
  (forall l1 r l2, reports attempt obs mv = l1 ++ r :: l2 -> final_report r = true -> l2 = []).
Proof.
  split; [apply run_deliver|]. split.
  - intros status terminal. apply reports_valid.
  - intros l1 r l2. apply reports_final.
Qed.
End Watching.
