(* ===== verification/AdmissionLedger.v ===== *)
(** * Bounded replay ledgers

    Models [duckdb/runners/ray/admission_ledger.py]: [BoundedSet] and
    [BoundedReplayMap], insertion-ordered and bounded, over an [OrderedDict]
    held as an association list with the oldest entry first.  The set is
    shown to hold the most recent distinct values of its history. *)

From S2P Require Import Prelude.

#[local] Open Scope string_scope.
#[local] Open Scope list_scope.
#[local] Open Scope Z_scope.

(** [_positive_capacity] *)
Definition positive_capacity (capacity : Z) : result nat :=
  let* _ := raise_if (capacity <=? 0) (ValueError "ledger capacity must be positive") in
  Ok (Z.to_nat capacity).

(** [popitem(last=False)] when the ledger is over its capacity. *)
Definition evict {A} (capacity : nat) (l : list A) : list A :=
  if (capacity <? length l)%nat then tail l else l.

(** ** [BoundedSet] *)

Record BoundedSet (K : Type) := MkBoundedSet {
  bs_capacity : nat;
  bs_values : list K;
}.
Arguments MkBoundedSet {K}.
Arguments bs_capacity {K}.
Arguments bs_values {K}.

Module BSet.
Section Keys.
Context {K : Type} `{!EqDecision K}.

(** All but the given value. *)
Definition without (v : K) (l : list K) : list K := List.filter (fun x => negb (bool_decide (x = v))) l.

Definition contains (v : K) (s : BoundedSet K) : bool := bool_decide (v ∈ s.(bs_values)).

Definition len (s : BoundedSet K) : nat := length s.(bs_values).

Definition add (v : K) (s : BoundedSet K) : BoundedSet K :=
  if contains v s then MkBoundedSet s.(bs_capacity) (without v s.(bs_values) ++ [v])
  else MkBoundedSet s.(bs_capacity) (evict s.(bs_capacity) (s.(bs_values) ++ [v])).

Definition discard (v : K) (s : BoundedSet K) : BoundedSet K :=
  MkBoundedSet s.(bs_capacity) (without v s.(bs_values)).

Definition clear (s : BoundedSet K) : BoundedSet K := MkBoundedSet s.(bs_capacity) [].

Definition add_all (l : list K) (s : BoundedSet K) : BoundedSet K := fold_left (fun s v => add v s) l s.

(** [__init__] *)
Definition new (values : list K) (capacity : Z) : result (BoundedSet K) :=
  let* c := positive_capacity capacity in
  Ok (add_all values (MkBoundedSet c [])).

End Keys.
End BSet.

(** ** [BoundedReplayMap] *)

Record BoundedReplayMap (K V : Type) := MkReplayMap {
  brm_capacity : nat;
  brm_values : list (K * V);
}.
Arguments MkReplayMap {K V}.
Arguments brm_capacity {K V}.
Arguments brm_values {K V}.

Module ReplayMap.
Section Keys.
Context {K V : Type} `{!EqDecision K}.

(** [__getitem__] *)
Definition getitem (k : K) (m : BoundedReplayMap K V) : result V :=
  match od_get k m.(brm_values) with Some v => Ok v | None => Raise (KeyError "") end.

(** [__setitem__]: an existing key moves to the end before its value is replaced. *)
Definition setitem (k : K) (v : V) (m : BoundedReplayMap K V) : BoundedReplayMap K V :=
  let moved := match od_get k m.(brm_values) with
               | Some old => od_pop k m.(brm_values) ++ [(k, old)]
               | None => m.(brm_values)
               end in
  MkReplayMap m.(brm_capacity) (evict m.(brm_capacity) (od_set k v moved)).

(** [__delitem__] *)
Definition delitem (k : K) (m : BoundedReplayMap K V) : result (BoundedReplayMap K V) :=
  match od_get k m.(brm_values) with
  | Some _ => Ok (MkReplayMap m.(brm_capacity) (od_pop k m.(brm_values)))
  | None => Raise (KeyError "")
  end.

Definition clear (m : BoundedReplayMap K V) : BoundedReplayMap K V := MkReplayMap m.(brm_capacity) [].

(** The snapshot is walked; a doomed key is popped from the dictionary. *)
Definition discard_where (p : K -> V -> bool) (m : BoundedReplayMap K V) : BoundedReplayMap K V :=
  MkReplayMap m.(brm_capacity)
    (fold_left (fun d kv => if p kv.1 kv.2 then od_pop kv.1 d else d) m.(brm_values) m.(brm_values)).

(** [__init__]; the given dictionary has distinct keys. *)
Definition new (values : list (K * V)) (capacity : Z) : result (BoundedReplayMap K V) :=
  let* c := positive_capacity capacity in
  Ok (fold_left (fun m kv => setitem kv.1 kv.2 m) values (MkReplayMap c [])).

End Keys.
End ReplayMap.

(** ** The set holds the most recent values *)

Section Recent.
Context {K : Type} `{!EqDecision K}.

Implicit Types v x : K.
Implicit Types l : list K.

(** The distinct values of a history, in the order of their last addition. *)
Fixpoint latest (history : list K) : list K :=
  match history with
  | [] => []
  | v :: l => if bool_decide (v ∈ l) then latest l else v :: latest l
  end.

(** The last [n] elements. *)
Definition lastn (n : nat) (l : list K) : list K := drop (length l - n) l.

Lemma without_elem v x l : x ∈ BSet.without v l <-> x ∈ l /\ x <> v.
Proof.
  unfold BSet.without. rewrite !list_elem_of_In, List.filter_In, negb_true_iff, bool_decide_eq_false. done.
Qed.

Lemma without_app v l1 l2 : BSet.without v (l1 ++ l2) = BSet.without v l1 ++ BSet.without v l2.
Proof. apply List.filter_app. Qed.

Lemma without_cons v x l :
  BSet.without v (x :: l) = if bool_decide (x = v) then BSet.without v l else x :: BSet.without v l.
Proof. unfold BSet.without. simpl. by destruct (bool_decide (x = v)). Qed.

Lemma without_absent v l : v ∉ l -> BSet.without v l = l.
Proof.
  induction l as [|x l IH]; [done|]. rewrite not_elem_of_cons, without_cons. intros [Hne Hni].
  rewrite bool_decide_false by congruence. by rewrite IH.
Qed.

Lemma without_length v l : NoDup l -> v ∈ l -> S (length (BSet.without v l)) = length l.
Proof.
  induction l as [|x l IH]; [by rewrite elem_of_nil|]. rewrite without_cons. intros [Hx Hd]%NoDup_cons Hv. simpl.
  destruct (decide (x = v)) as [-> |Hne].
  - rewrite bool_decide_true by done. by rewrite (without_absent v l).
  - rewrite bool_decide_false by done. simpl. f_equal. apply IH; [done|]. set_solver.
Qed.

Lemma latest_elem x l : x ∈ latest l <-> x ∈ l.
Proof.
  induction l as [|y l IH]; simpl; [done|].
  destruct (bool_decide (y ∈ l)) eqn:Hy; rewrite ?elem_of_cons, IH; [|done].
  apply bool_decide_eq_true in Hy. split; [by right|]. by intros [-> |].
Qed.

Lemma latest_NoDup l : NoDup (latest l).
Proof.
  induction l as [|y l IH]; simpl; [constructor|].
  destruct (bool_decide (y ∈ l)) eqn:Hy; [done|].
  constructor; [|done]. rewrite latest_elem. by apply bool_decide_eq_false in Hy.
Qed.

Lemma latest_snoc l v : latest (l ++ [v]) = BSet.without v (latest l) ++ [v].
Proof.
  induction l as [|x l IH]; [done|]. cbn [latest app]. rewrite IH.
  assert (H : bool_decide (x ∈ l ++ [v]) = bool_decide (x ∈ l) || bool_decide (x = v)).
  { destruct (decide (x ∈ l)), (decide (x = v)); rewrite ?bool_decide_true, ?bool_decide_false by set_solver;
      rewrite ?bool_decide_true, ?bool_decide_false by set_solver; done. }
  rewrite H. destruct (bool_decide (x ∈ l)) eqn:Hx; [done|]. cbn [orb]. rewrite without_cons.
  destruct (bool_decide (x = v)); reflexivity.
Qed.

Lemma lastn_split n l : exists pre, l = pre ++ lastn n l /\ (length (lastn n l) = n \/ pre = [] /\ (length l <= n)%nat).
Proof.
  exists (take (length l - n) l). unfold lastn. rewrite take_drop, length_drop. split; [done|].
  destruct (decide (n <= length l)%nat); [left; lia|]. right. split; [|lia].
  by replace (length l - n)%nat with 0%nat by lia.
Qed.

Lemma lastn_app n (pre l : list K) : (length l <= n)%nat -> (length l = n \/ pre = []) -> lastn n (pre ++ l) = l.
Proof.
  intros Hle H. unfold lastn. rewrite length_app. destruct H as [<- | ->].
  - replace (length pre + length l - length l)%nat with (length pre) by lia. apply drop_app_length.
  - simpl. by replace (length l - n)%nat with 0%nat by lia.
Qed.

Lemma evict_lastn n l : (0 < n)%nat -> (length l <= S n)%nat -> evict n l = lastn n l.
Proof.
  intros Hn Hl. unfold evict, lastn. destruct (Nat.ltb_spec n (length l)).
  - replace (length l - n)%nat with 1%nat by lia. by destruct l.
  - by replace (length l - n)%nat with 0%nat by lia.
Qed.

Lemma lastn_lastn n (pre l : list K) : (length l = n \/ pre = []) -> forall v, lastn n (pre ++ l ++ [v]) = lastn n (l ++ [v]).
Proof.
  intros [H | ->] v; [|done]. unfold lastn. rewrite !length_app. simpl.
  replace (length pre + (length l + 1) - n)%nat with (length pre + 1)%nat by lia.
  replace (length l + 1 - n)%nat with 1%nat by lia.
  rewrite <- drop_drop, drop_app_length. done.
Qed.

(** One addition keeps the correspondence. *)
Lemma add_recent c l v :
  (0 < c)%nat ->
  BSet.add v (MkBoundedSet c (lastn c (latest l))) = MkBoundedSet c (lastn c (latest (l ++ [v]))).
Proof.
  intros Hc. rewrite latest_snoc. pose proof (latest_NoDup l) as Hd. set (d := latest l) in *.
  destruct (lastn_split c d) as (pre & Hs & Hlen). set (s := lastn c d) in *. clearbody s.
  assert (Hle : (length s <= c)%nat) by (pose proof (f_equal length Hs) as HL; destruct Hlen as [?|[-> ?]]; simpl in HL; lia).
  clearbody d.
  subst d. apply NoDup_app in Hd as (_ & Hx & Hds).
  unfold BSet.add, BSet.contains. cbn [bs_values bs_capacity].
  rewrite without_app, <- app_assoc. destruct (decide (v ∈ s)) as [Hv|Hv].
  - rewrite bool_decide_true by done. f_equal. pose proof (without_length v s Hds Hv).
    rewrite lastn_app; [done| |].
    + rewrite length_app. simpl. lia.
    + rewrite length_app. simpl. destruct Hlen as [?|[-> _]]; [left; lia | by right].
  - rewrite bool_decide_false by done. f_equal. rewrite (without_absent v s Hv), lastn_lastn.
    + apply evict_lastn; [done|]. rewrite length_app. simpl. lia.
    + destruct Hlen as [?|[-> _]]; [by left | by right].
Qed.

Lemma add_all_recent c l history :
  (0 < c)%nat ->
  BSet.add_all l (MkBoundedSet c (lastn c (latest history))) = MkBoundedSet c (lastn c (latest (history ++ l))).
Proof.
  intros Hc. revert history. unfold BSet.add_all. induction l as [|v l IH]; intros history; simpl; [by rewrite app_nil_r|].
  rewrite add_recent, IH by done. by rewrite <- app_assoc.
Qed.

(** A bounded set that values were added to holds exactly the last
    [capacity] distinct values of its history, in the order of their latest
    addition: it refines the sliding window it documents, without
    duplicates and never larger than its capacity. *)
Theorem bounded_set_window values capacity s more :
  BSet.new values capacity = Ok s ->
  (BSet.add_all more s).(bs_values) = lastn (Z.to_nat capacity) (latest (values ++ more)) /\
  NoDup (BSet.add_all more s).(bs_values) /\ Z.of_nat (BSet.len (BSet.add_all more s)) <= capacity.
Proof.
  unfold BSet.new, positive_capacity. intros H. inv_ok.
  match goal with H : (capacity <=? 0) = false |- _ => apply Z.leb_gt in H; rename H into Hc end.
  set (c := Z.to_nat capacity). assert (Hpos : (0 < c)%nat) by (unfold c; lia).
  pose proof (add_all_recent c (values ++ more) [] Hpos) as Ha. change (lastn c (latest [])) with (@nil K) in Ha.
  unfold BSet.add_all in Ha |- *. rewrite fold_left_app in Ha. rewrite Ha. unfold BSet.len. cbn [bs_values app].
  split; [done|]. split.
  - unfold lastn. apply (sublist_NoDup _ (latest (values ++ more))); [apply latest_NoDup | apply sublist_drop].
  - unfold lastn. rewrite length_drop. unfold c. lia.
Qed.
End Recent.

Lemma bounded_set_window_witness :
  exists s, BSet.new [1; 2; 3; 1] 3 = Ok s /\ (BSet.add_all [4; 2] s).(bs_values) = [1; 4; 2].
Proof.
  eexists. split; [vm_compute; reflexivity|].
  refine (eq_trans (proj1 (bounded_set_window [1; 2; 3; 1] 3 _ [4; 2] _)) _); vm_compute; reflexivity.
Defined.

(** ** The replay map *)

Section Replay.
Context {K V : Type} `{!EqDecision K}.
Implicit Types m : BoundedReplayMap K V.

(** Distinct keys, within the capacity. *)
Definition replay_ok m : Prop :=
  od_wf m.(brm_values) /\ (0 < m.(brm_capacity))%nat /\ (length m.(brm_values) <= m.(brm_capacity))%nat.

Lemma od_set_last k v old (d : list (K * V)) : od_get k d = None -> od_set k v (d ++ [(k, old)]) = d ++ [(k, v)].
Proof.
  induction d as [|[k' v'] d IH]; simpl.
  - intros _. by rewrite decide_True.
  - destruct (decide (k = k')); [done|]. intros H. by rewrite IH.
Qed.

(** The entries before eviction: the key is last, with its new value. *)
Lemma setitem_values k v m :
  od_wf m.(brm_values) ->
  (ReplayMap.setitem k v m).(brm_values) = evict m.(brm_capacity) (od_pop k m.(brm_values) ++ [(k, v)]).
Proof.
  intros Hwf. unfold ReplayMap.setitem. cbn [brm_values]. f_equal.
  destruct (od_get k m.(brm_values)) as [old|] eqn:Hk.
  - apply od_set_last. by apply od_get_pop_eq.
  - rewrite (od_set_absent k v _ Hk). f_equal. symmetry. by apply od_pop_absent.
Qed.

(** Setting a key of the replay map makes it the newest entry with the
    given value; every other key keeps its value, except that when the map
    is full and the key is new, exactly the oldest entry is forgotten.  The
    map never exceeds its capacity and its keys stay distinct. *)
Theorem replay_map_setitem k v m :
  replay_ok m ->
  let m' := ReplayMap.setitem k v m in
  replay_ok m' /\ last m'.(brm_values) = Some (k, v) /\ ReplayMap.getitem k m' = Ok v /\
  (forall k', k' <> k ->
     ReplayMap.getitem k' m' =
       if negb (od_mem k m.(brm_values)) && (m.(brm_capacity) <=? length m.(brm_values))%nat
          && bool_decide (fst <$> head m.(brm_values) = Some k')
       then Raise (KeyError "") else ReplayMap.getitem k' m).
Proof.
  intros (Hwf & Hpos & Hlen) m'. pose proof (setitem_values k v m Hwf) as Hv. fold m' in Hv.
  assert (Hw : forall d, od_wf d -> od_get k d = None -> od_wf (d ++ [(k, v)])).
  { intros d Hd Hk. rewrite <- (od_set_absent k v d Hk). by apply od_wf_set. }
  assert (Hg : forall d, od_get k d = None -> od_get k (d ++ [(k, v)]) = Some v).
  { intros d Hk. rewrite <- (od_set_absent k v d Hk). apply od_get_set_eq. }
  assert (Ho : forall d k', k' <> k -> od_get k' (d ++ [(k, v)]) = od_get k' d).
  { intros d k' Hne. rewrite od_get_app. simpl. rewrite decide_False by done. by destruct (od_get k' d). }
  unfold replay_ok, ReplayMap.getitem. change m'.(brm_capacity) with m.(brm_capacity). rewrite Hv.
  destruct (od_get k m.(brm_values)) as [old|] eqn:Hk.
  - pose proof (od_pop_length_mem _ _ _ Hk) as Hl. unfold evict. rewrite length_app. simpl.
    destruct (Nat.ltb_spec m.(brm_capacity) (length (od_pop k m.(brm_values)) + 1)); [lia|].
    assert (Hp : od_get k (od_pop k m.(brm_values)) = None) by by apply od_get_pop_eq.
    rewrite last_snoc, Hg, length_app by done. unfold od_mem. rewrite Hk. simpl.
    split; [split; [apply Hw; [by apply od_wf_pop | done] | simpl; lia]|]. split; [done|]. split; [done|].
    intros k' Hne. by rewrite Ho, od_get_pop_ne by congruence.
  - rewrite od_pop_absent by done. unfold od_mem. rewrite Hk. simpl. unfold evict. rewrite length_app. simpl.
    destruct (Nat.ltb_spec m.(brm_capacity) (length m.(brm_values) + 1)) as [Hf|Hf].
    + rewrite (proj2 (Nat.leb_le _ _)) by lia.
      destruct m.(brm_values) as [|[k0 v0] d] eqn:Hd; [simpl in Hlen, Hf; lia|]. simpl in Hk |- *.
      destruct (decide (k = k0)) as [|Hne0]; [done|]. apply NoDup_cons in Hwf as [Hni Hwf].
      rewrite last_snoc, Hg, length_app by done. simpl in *.
      split; [split; [by apply Hw | lia]|]. split; [done|]. split; [done|]. intros k' Hne. rewrite Ho by done.
      destruct (decide (k' = k0)) as [-> |Hne'].
      * rewrite bool_decide_true by done. apply od_get_None in Hni. by rewrite Hni.
      * rewrite bool_decide_false by congruence. done.
    + rewrite (proj2 (Nat.leb_gt _ _)) by lia. rewrite last_snoc, Hg, length_app by done. simpl.
      split; [split; [by apply Hw | lia]|]. split; [done|]. split; [done|]. intros k' Hne. by rewrite Ho.
Qed.
End Replay.

Lemma replay_map_setitem_witness :
  let m := MkReplayMap 2 [("a", 1); ("b", 2)] in
  ReplayMap.getitem "a" (ReplayMap.setitem "c" 3 m) = Raise (KeyError "") /\
  ReplayMap.getitem "b" (ReplayMap.setitem "c" 3 m) = Ok 2.
Proof.
  intros m. assert (Hm : replay_ok m).
  { split; [|simpl; lia]. apply (bool_decide_unpack _). vm_compute. exact I. }
  destruct (replay_map_setitem "c" 3 m Hm) as (_ & _ & _ & H).
  split; rewrite H by discriminate; reflexivity.
Defined.
