(* ===== verification/SubmissionWindow.v ===== *)
(** * The submission window of a resource stage

    Models [duckdb/runners/ray/fragment_submission_window.py] with
    [resource_identity_from_context] of [fragment_worker_context.py]: the
    edge-triggered admission probe that partitions of one resource stage
    share.  The registry's shared tables are fields of the state; the query
    resource managers appear through the admission epoch each publishes. *)

From S2P Require Import Prelude PyStr PyVal.

#[local] Open Scope string_scope.
#[local] Open Scope list_scope.
#[local] Open Scope Z_scope.

Definition PartitionKey : Type := string * string * Z.
Definition StageKey : Type := string * string.

(** What a denial records: the epoch, the reason, the partition. *)
Definition Denial : Type := Z * string * PartitionKey.

Record Window := MkWindow {
  w_closing_queries : gset string;
  w_task_leases : gset PartitionKey;
  w_fragment_contexts : list ((string * string) * option (list (pyval * pyval)));
  w_admission_epochs : list (string * Z);
  w_probes : list (StageKey * PartitionKey);
  w_blocks : list (StageKey * Denial);
}.
#[export] Instance Window_eta : Eta Window :=
  fun r => MkWindow r.(w_closing_queries) r.(w_task_leases) r.(w_fragment_contexts)
    r.(w_admission_epochs) r.(w_probes) r.(w_blocks).

(** [str(context.get(key) or "").strip()] *)
Definition context_text (key : string) (context : list (pyval * pyval)) : string :=
  let v := pd_get key context in strip (if truthy v then py_str v else "").

Definition resource_identity_from_context (context : option (list (pyval * pyval))) : result StageKey :=
  match context with
  | None | Some [] => Raise (ValueError "FTE task context is missing resource identity")
  | Some d =>
      let query := context_text "resource_query_id" d in
      let stage := context_text "resource_stage_id" d in
      let* _ := raise_if (String.eqb query "" || String.eqb stage "")
                  (ValueError "FTE task context requires resource_query_id and resource_stage_id") in
      let prefix := ("stage:" ++ query ++ ":node:")%string in
      let* _ := raise_if (negb (startswith stage prefix) || negb (endswith stage ":fte")
                          || (String.length stage <=? String.length prefix + 4)%nat)
                  (ValueError "FTE task resource_stage_id does not belong to resource_query_id") in
      Ok (query, stage)
  end.

Module SubmissionWindow.

Definition key_query (k : PartitionKey) : string := k.1.1.

(** [_stage_key_for_partition] *)
Definition stage_key_for_partition (k : PartitionKey) (w : Window) : result StageKey :=
  match od_get k.1 w.(w_fragment_contexts) with
  | None => Raise (KeyError "FTE fragment execution is not registered")
  | Some context => resource_identity_from_context context
  end.

(** [get_query_resource_manager(query).admission_epoch()] *)
Definition manager_epoch (query : string) (w : Window) : result Z :=
  match od_get query w.(w_admission_epochs) with
  | None => Raise (KeyError "query graph is not registered")
  | Some epoch => Ok epoch
  end.

(** [admit_fte_partition_submission] *)
Definition admit_partition (k : PartitionKey) : ST Window bool :=
  let! w := sget in
  let! stage := slift (stage_key_for_partition k w) in
  let! epoch := slift (manager_epoch stage.1 w) in
  if bool_decide (key_query k ∈ w.(w_closing_queries)) then sret false
  else if bool_decide (k ∈ w.(w_task_leases)) then sret true
  else match od_get stage w.(w_probes) with
       | Some owner => sret (bool_decide (owner = k))
       | None =>
           let blocked := match od_get stage w.(w_blocks) with
                          | Some (e, _, _) => e =? epoch
                          | None => false
                          end in
           if blocked then sret false
           else
             let! _ := smodify (fun w => w <| w_blocks ::= od_pop stage |> <| w_probes ::= od_set stage k |>) in
             sret true
       end.

(** [resolve_fte_partition_submission] *)
Definition resolve_partition (k : PartitionKey) (granted : bool) (blocked_reason : string) (fatal : bool)
    (admission_epoch : option Z) : ST Window unit :=
  let! w := sget in
  match stage_key_for_partition k w with
  | Raise (KeyError _) => sret tt
  | Raise e => sraise e
  | Ok stage =>
      let resolved_epoch := match admission_epoch with
                            | Some e => e
                            | None => match manager_epoch stage.1 w with Ok e => e | Raise _ => -1 end
                            end in
      let! _ := smodify (fun w =>
        if bool_decide (od_get stage w.(w_probes) = Some k) then w <| w_probes ::= od_pop stage |> else w) in
      smodify (fun w =>
        if granted || fatal || (resolved_epoch <? 0) then w <| w_blocks ::= od_pop stage |>
        else w <| w_blocks ::= od_set stage
               (resolved_epoch, if String.eqb blocked_reason "" then "task_not_admissible" else blocked_reason, k) |>)
  end.

(** [release_fte_partition_submission] *)
Definition release_partition (k : PartitionKey) (allow_next : bool) : ST Window bool :=
  let! w := sget in
  match stage_key_for_partition k w with
  | Raise (KeyError _) => sret false
  | Raise e => sraise e
  | Ok stage =>
      let owned := bool_decide (od_get stage w.(w_probes) = Some k) in
      let! _ := smodify (fun w => if owned then w <| w_probes ::= od_pop stage |> else w) in
      let denied := allow_next && match od_get stage w.(w_blocks) with
                                  | Some (_, _, k') => bool_decide (k' = k)
                                  | None => false
                                  end in
      let! _ := smodify (fun w => if denied then w <| w_blocks ::= od_pop stage |> else w) in
      sret (owned || denied)
  end.

(** [release_fte_query_submissions] *)
Definition release_query (query : string) : ST Window nat :=
  let! w := sget in
  let! stages := slift (rmapM (fun e => resource_identity_from_context e.2)
                          (List.filter (fun e => String.eqb e.1.1 query) w.(w_fragment_contexts))) in
  let owned := map fst (List.filter (fun e => String.eqb (key_query e.2) query) w.(w_probes)) in
  let! _ := smodify (fun w => fold_left (fun w st => w <| w_probes ::= od_pop st |> <| w_blocks ::= od_pop st |>) owned w) in
  let! _ := smodify (fun w =>
    fold_left (fun w st => if String.eqb st.1 query || bool_decide (st ∈ stages) then w <| w_blocks ::= od_pop st |> else w)
      (od_keys w.(w_blocks)) w) in
  sret (length owned).

End SubmissionWindow.

(** ** One probe at a time *)

(** The calls on the window, and what happens around it. *)
Inductive window_op :=
| WAdmit (k : PartitionKey)
| WResolve (k : PartitionKey) (granted : bool) (reason : string) (fatal : bool) (epoch : option Z)
| WRelease (k : PartitionKey) (allow_next : bool)
| WReleaseQuery (query : string)
| WEpoch (query : string) (epoch : Z)          (* a manager publishes an epoch *)
| WLease (k : PartitionKey) (held : bool)      (* a task lease comes or goes *)
| WClosing (query : string) (closing : bool).

Definition window_call (op : window_op) (w : Window) : Window :=
  match op with
  | WAdmit k => (SubmissionWindow.admit_partition k w).2
  | WResolve k granted reason fatal epoch => (SubmissionWindow.resolve_partition k granted reason fatal epoch w).2
  | WRelease k allow_next => (SubmissionWindow.release_partition k allow_next w).2
  | WReleaseQuery q => (SubmissionWindow.release_query q w).2
  | WEpoch q e => w <| w_admission_epochs ::= od_set q e |>
  | WLease k true => w <| w_task_leases ::= union {[k]} |>
  | WLease k false => w <| w_task_leases ::= fun g => g ∖ {[k]} |>
  | WClosing q true => w <| w_closing_queries ::= union {[q]} |>
  | WClosing q false => w <| w_closing_queries ::= fun g => g ∖ {[q]} |>
  end.

Definition window_run (ops : list window_op) (w : Window) : Window := fold_left (fun w op => window_call op w) ops w.

(** The calls that settle the probe of a partition. *)
Definition settles (k : PartitionKey) (op : window_op) : bool :=
  match op with
  | WResolve k' _ _ _ _ | WRelease k' _ => bool_decide (k' = k)
  | WReleaseQuery q => String.eqb q (SubmissionWindow.key_query k)
  | _ => false
  end.

Section Probe.
Context (k : PartitionKey) (stage : StageKey).

(** The partition owns the probe of the stage. *)
Definition owns (w : Window) : Prop := od_get stage w.(w_probes) = Some k /\ od_wf w.(w_probes).

Lemma admit_owns k' w : owns w -> owns (SubmissionWindow.admit_partition k' w).2.
Proof.
  intros [Ho Hwf]. unfold SubmissionWindow.admit_partition, sbind, sget, slift.
  destruct (SubmissionWindow.stage_key_for_partition k' w) as [st|]; [|done].
  destruct (SubmissionWindow.manager_epoch st.1 w); [|done].
  destruct (bool_decide _); [done|]. destruct (bool_decide _); [done|].
  destruct (od_get st w.(w_probes)) eqn:Hst; [done|].
  destruct (match od_get st w.(w_blocks) with Some (e, _, _) => _ | None => _ end); [done|].
  split; simpl; [|by apply od_wf_set]. rewrite od_get_set_ne; [done|]. intros ->. congruence.
Qed.

(** Dropping another partition's probe. *)
Lemma drop_owns st k' w :
  k' <> k -> owns w -> od_get st w.(w_probes) = Some k' -> owns (w <| w_probes ::= od_pop st |>).
Proof.
  intros Hne [Ho Hwf] Hst. split; simpl; [|by apply od_wf_pop]. rewrite od_get_pop_ne; [done|]. intros ->. congruence.
Qed.

Lemma resolve_owns k' granted reason fatal epoch w :
  k' <> k -> owns w -> owns (SubmissionWindow.resolve_partition k' granted reason fatal epoch w).2.
Proof.
  intros Hne H. unfold SubmissionWindow.resolve_partition, sbind, sget.
  destruct (SubmissionWindow.stage_key_for_partition k' w) as [st|[]]; try exact H.
  unfold smodify. cbv beta iota. set (w1 := if bool_decide (od_get st w.(w_probes) = Some k') then _ else _).
  assert (H1 : owns w1).
  { unfold w1. destruct (bool_decide _) eqn:E; [|done]. apply bool_decide_eq_true in E. by apply (drop_owns st k'). }
  simpl. destruct H1. by destruct (granted || fatal || _).
Qed.

Lemma release_owns k' allow w :
  k' <> k -> owns w -> owns (SubmissionWindow.release_partition k' allow w).2.
Proof.
  intros Hne H. unfold SubmissionWindow.release_partition, sbind, sget.
  destruct (SubmissionWindow.stage_key_for_partition k' w) as [st|[]]; try exact H.
  unfold smodify. cbv beta iota. set (w1 := if bool_decide (od_get st w.(w_probes) = Some k') then _ else _).
  assert (H1 : owns w1).
  { unfold w1. destruct (bool_decide _) eqn:E; [|done]. apply bool_decide_eq_true in E. by apply (drop_owns st k'). }
  simpl. destruct H1. by destruct (allow && _).
Qed.

Lemma release_query_owns q w :
  q <> SubmissionWindow.key_query k -> owns w -> owns (SubmissionWindow.release_query q w).2.
Proof.
  intros Hne H. unfold SubmissionWindow.release_query, sbind, sget, slift.
  destruct (rmapM _ _) as [stages|]; [|exact H]. unfold smodify. cbv beta iota.
  set (owned := map fst _).
  assert (Hn : stage ∉ owned).
  { unfold owned. rewrite list_elem_of_In, in_map_iff. intros ([st k'] & <- & Hin). simpl in *.
    apply List.filter_In in Hin as [Hin E]. apply String.eqb_eq in E. simpl in E.
    destruct H as [Ho Hwf]. apply list_elem_of_In, od_elem_get in Hin; [|done]. congruence. }
  assert (H1 : forall l w, stage ∉ l -> owns w ->
      owns (fold_left (fun w st => w <| w_probes ::= od_pop st |> <| w_blocks ::= od_pop st |>) l w)).
  { induction l as [|st l IH]; intros w0 Hl H0; [done|]. simpl. rewrite not_elem_of_cons in Hl. apply IH; [apply Hl|].
    destruct H0 as [Ho Hwf]. split; simpl; [|by apply od_wf_pop]. rewrite od_get_pop_ne; [done|]. destruct Hl. congruence. }
  assert (H2 : forall l (p : StageKey -> bool) w, owns w ->
      owns (fold_left (fun w st => if p st then w <| w_blocks ::= od_pop st |> else w) l w)).
  { induction l as [|st l IH]; intros p w0 H0; [done|]. simpl. apply IH. destruct H0. by destruct (p st). }
  simpl. apply (H2 _ (fun st => String.eqb st.1 q || bool_decide (st ∈ stages))). by apply H1.
Qed.

Lemma window_call_owns op w : settles k op = false -> owns w -> owns (window_call op w).
Proof.
  intros Hs H. destruct op; simpl in *.
  - by apply admit_owns.
  - apply resolve_owns; [|done]. by apply bool_decide_eq_false in Hs.
  - apply release_owns; [|done]. by apply bool_decide_eq_false in Hs.
  - apply release_query_owns; [|done]. by apply String.eqb_neq.
  - exact H.
  - destruct held; exact H.
  - destruct closing; exact H.
Qed.

Lemma window_run_owns ops w : forallb (fun op => negb (settles k op)) ops = true -> owns w -> owns (window_run ops w).
Proof.
  unfold window_run. revert w. induction ops as [|op ops IH]; intros w; simpl; [done|].
  intros [Ho Hs]%andb_true_iff H. apply IH; [done|]. apply window_call_owns; [by apply negb_true_iff | done].
Qed.

(** The admission probe of a resource stage is exclusive.  Once a
    partition was admitted as the stage's probe, no other partition of the
    stage without a task lease is admitted, however epochs, leases and
    closing queries change, until the probe is resolved or released. *)
Theorem probe_exclusive w ops k' :
  owns w -> forallb (fun op => negb (settles k op)) ops = true ->
  SubmissionWindow.stage_key_for_partition k' (window_run ops w) = Ok stage ->
  k' ∉ (window_run ops w).(w_task_leases) -> k' <> k ->
  forall b, (SubmissionWindow.admit_partition k' (window_run ops w)).1 = Ok b -> b = false.
Proof.
  intros Hown Hs Hst Hl Hne b. destruct (window_run_owns ops w Hs Hown) as [Ho _].
  unfold SubmissionWindow.admit_partition, sbind, sget, slift. rewrite Hst.
  destruct (SubmissionWindow.manager_epoch _ _); [|done].
  destruct (bool_decide _); [by intros [= <-]|]. rewrite (bool_decide_false _ Hl), Ho. simpl.
  rewrite bool_decide_false by congruence. by intros [= <-].
Qed.
End Probe.

(** A denial closes the stage's window until a new admission epoch.
    After the owner's probe was denied at the current epoch, asking again
    admits no partition without a lease and changes nothing; as soon as the
    manager publishes another epoch, the next partition of a query that is
    not closing is admitted and becomes the owner of the probe. *)
Theorem denial_lasts_one_epoch w k stage e reason :
  owns k stage w ->
  SubmissionWindow.stage_key_for_partition k w = Ok stage ->
  SubmissionWindow.manager_epoch stage.1 w = Ok e -> 0 <= e ->
  let w1 := (SubmissionWindow.resolve_partition k false reason false None w).2 in
  (forall k', SubmissionWindow.stage_key_for_partition k' w1 = Ok stage -> k' ∉ w1.(w_task_leases) ->
     SubmissionWindow.admit_partition k' w1 = (Ok false, w1)) /\
  (forall k' e', e' <> e -> SubmissionWindow.stage_key_for_partition k' w1 = Ok stage ->
     k' ∉ w1.(w_task_leases) -> SubmissionWindow.key_query k' ∉ w1.(w_closing_queries) ->
     let '(r, w2) := SubmissionWindow.admit_partition k' (window_call (WEpoch stage.1 e') w1) in
     r = Ok true /\ owns k' stage w2).
Proof.
  intros [Ho Hwf] Hst He Hpos w1.
  assert (Hw1 : od_get stage w1.(w_probes) = None /\ od_wf w1.(w_probes) /\
      (exists rs, od_get stage w1.(w_blocks) = Some (e, rs, k)) /\
      w1.(w_fragment_contexts) = w.(w_fragment_contexts) /\ w1.(w_admission_epochs) = w.(w_admission_epochs)).
  { unfold w1, SubmissionWindow.resolve_partition, sbind, sget, smodify. rewrite Hst, He. simpl.
    rewrite bool_decide_true by done. simpl. rewrite (proj2 (Z.ltb_ge e 0)) by lia. simpl.
    rewrite od_get_pop_eq by done. split; [done|]. split; [by apply od_wf_pop|].
    split; [eexists; apply od_get_set_eq | done]. }
  destruct Hw1 as (Hp & Hpw & (rs & Hb) & Hctx & Hep).
  split.
  - intros k' Hs Hl. unfold SubmissionWindow.admit_partition, sbind, sget, slift. rewrite Hs.
    unfold SubmissionWindow.manager_epoch in *. rewrite Hep. destruct (od_get stage.1 w.(w_admission_epochs)); [|done].
    injection He as ->. destruct (bool_decide (_ ∈ _)); [done|]. rewrite (bool_decide_false _ Hl), Hp, Hb. by rewrite Z.eqb_refl.
  - intros k' e' Hne Hs Hl Hcl. unfold SubmissionWindow.admit_partition, sbind, sget, slift.
    change (SubmissionWindow.stage_key_for_partition k' (window_call (WEpoch stage.1 e') w1))
      with (SubmissionWindow.stage_key_for_partition k' w1).
    rewrite Hs. unfold SubmissionWindow.manager_epoch. simpl. rewrite od_get_set_eq.
    rewrite (bool_decide_false _ Hcl), (bool_decide_false _ Hl), Hp, Hb.
    rewrite (proj2 (Z.eqb_neq e e')) by congruence. split; [done|].
    split; simpl; [apply od_get_set_eq | by apply od_wf_set].
Qed.

(** ** Witnesses *)

Definition demo_context : list (pyval * pyval) :=
  pd_lit [("resource_query_id", PStr "r"); ("resource_stage_id", PStr "stage:r:node:1:fte")].
Definition demo_stage : StageKey := ("r", "stage:r:node:1:fte").
Definition demo_part (i : Z) : PartitionKey := ("q", "f", i).
Definition demo_window : Window :=
  MkWindow ∅ ∅ [(("q", "f"), Some demo_context)] [("r", 3)] [(demo_stage, demo_part 0)] [].

Lemma demo_owns : owns (demo_part 0) demo_stage demo_window.
Proof. split; [reflexivity|]. apply NoDup_singleton. Qed.

Lemma probe_exclusive_witness :
  SubmissionWindow.admit_partition (demo_part 1) (window_run [WEpoch "r" 4; WAdmit (demo_part 2)] demo_window)
  = (Ok false, window_run [WEpoch "r" 4; WAdmit (demo_part 2)] demo_window).
Proof.
  assert (E : exists b, SubmissionWindow.admit_partition (demo_part 1) (window_run [WEpoch "r" 4; WAdmit (demo_part 2)] demo_window)
    = (Ok b, window_run [WEpoch "r" 4; WAdmit (demo_part 2)] demo_window)) by (eexists; vm_compute; reflexivity).
  destruct E as [b E]. rewrite E. do 2 f_equal.
  apply (probe_exclusive (demo_part 0) demo_stage demo_window [WEpoch "r" 4; WAdmit (demo_part 2)] (demo_part 1) demo_owns);
    [reflexivity | vm_compute; reflexivity | vm_compute; set_solver | discriminate | by rewrite E].
Defined.

Lemma denial_lasts_one_epoch_witness :
  let w1 := (SubmissionWindow.resolve_partition (demo_part 0) false "" false None demo_window).2 in
  SubmissionWindow.admit_partition (demo_part 1) w1 = (Ok false, w1).
Proof.
  intros w1.
  assert (Hk : SubmissionWindow.stage_key_for_partition (demo_part 0) demo_window = Ok demo_stage) by (vm_compute; reflexivity).
  assert (Hs : SubmissionWindow.stage_key_for_partition (demo_part 1) w1 = Ok demo_stage) by (vm_compute; reflexivity).
  assert (Hl : demo_part 1 ∉ w1.(w_task_leases)) by (apply (bool_decide_unpack _); vm_compute; exact I).
  exact (proj1 (denial_lasts_one_epoch demo_window (demo_part 0) demo_stage 3 "" demo_owns Hk eq_refl ltac:(lia)) _ Hs Hl).
Defined.
