(* ===== verification/UdfAdmission.v ===== *)
(** * Admission of UDF executions

    Models [duckdb/execution/udf_admission.py] (admission leases, the pool of
    local execution slots and the authorities that share it) and the
    controller of [duckdb/execution/udf_task_admission.py], which admits Ray
    UDF tasks through leases of the query driver.

    Authorities are objects that the pool, its waiters and its active slots
    refer to, so they live in a heap and are named by their index.  The
    wake-up callbacks belong to the dispatcher: calling one is recorded.  A
    lease id comes from [uuid4] and is an argument of [take]. *)

From S2P Require Import Prelude PyStr PyVal.

#[local] Open Scope string_scope.
#[local] Open Scope list_scope.
#[local] Open Scope Z_scope.

(** ** [AdmissionLease] *)

Record AdmissionLease (R : Type) := MkLease {
  al_request_id : string;
  al_retained_input_bytes : Z;
  al_lease : list (pyval * pyval);
  al_release_callback : option R;
  al_released : bool;
}.
Arguments MkLease {R}.
Arguments al_request_id {R}.
Arguments al_retained_input_bytes {R}.
Arguments al_lease {R}.
Arguments al_release_callback {R}.
Arguments al_released {R}.

Module Lease.

Definition execution_slot_id {R} (l : AdmissionLease R) : string :=
  let v := pd_get "execution_slot_id" l.(al_lease) in
  if truthy v then py_str v else "".

(** [release]: the callback to run, and the lease afterwards. *)
Definition release {R} (l : AdmissionLease R) : option R * AdmissionLease R :=
  if l.(al_released) then (None, l)
  else (l.(al_release_callback),
        MkLease l.(al_request_id) l.(al_retained_input_bytes) l.(al_lease) None true).

Definition handoff {R} (l : AdmissionLease R) : result (AdmissionLease R) :=
  if l.(al_released) then Raise (RuntimeError "cannot hand off an already released admission lease")
  else Ok (MkLease l.(al_request_id) l.(al_retained_input_bytes) l.(al_lease) None true).

End Lease.

(** ** The pool of local slots *)

Inductive AuthorityState := A_IDLE | A_REQUESTED | A_READY | A_CLOSED.
#[export] Instance AuthorityState_eq_dec : EqDecision AuthorityState.
Proof. solve_decision. Defined.

(** [LocalSlotAdmissionAuthority] *)
Record Authority := MkAuthority {
  au_state : AuthorityState;
  au_request_id : string;
  au_retained_input_bytes : Z;
  au_ready_slot : option Z;
  au_sequence : Z;
  au_wakeup : option N;
  au_active_lease_ids : gset string;
}.
#[export] Instance Authority_eta : Eta Authority :=
  fun r => MkAuthority r.(au_state) r.(au_request_id) r.(au_retained_input_bytes) r.(au_ready_slot)
    r.(au_sequence) r.(au_wakeup) r.(au_active_lease_ids).

(** [LocalExecutionSlotPool], with the authorities it can reach. *)
Record SlotPool := MkPool {
  sp_prefix : string;
  sp_available_slots : list Z;
  sp_active_slots : list (string * (Z * nat));
  sp_waiters : list nat;
  sp_authorities : gset nat;
  sp_closed : bool;
  sp_heap : list Authority;
  sp_woken : list N;
}.
#[export] Instance SlotPool_eta : Eta SlotPool :=
  fun r => MkPool r.(sp_prefix) r.(sp_available_slots) r.(sp_active_slots) r.(sp_waiters)
    r.(sp_authorities) r.(sp_closed) r.(sp_heap) r.(sp_woken).

Module Pool.

(** [LocalExecutionSlotPool.__init__] *)
Definition new (max_slots : Z) (prefix : string) : result SlotPool :=
  let* _ := raise_if (max_slots <=? 0) (ValueError "max_slots must be positive") in
  let prefix := strip prefix in
  let* _ := raise_if (String.eqb prefix "") (ValueError "execution_slot_prefix must be non-empty") in
  Ok (MkPool prefix (seqZ 0 max_slots) [] [] ∅ false [] []).

Definition active_lease_count (s : SlotPool) : Z := Z.of_nat (length s.(sp_active_slots)).

Definition fresh_authority : Authority := MkAuthority A_IDLE "" 0 None 0 None ∅.

(** [create_authority] and [LocalSlotAdmissionAuthority.__init__] on a pool *)
Definition create_authority : ST SlotPool nat :=
  let! s := sget in
  let! _ := sraise_if s.(sp_closed) (RuntimeError "local execution slot pool is closed") in
  let a := length s.(sp_heap) in
  let! _ := smodify (fun s => s <| sp_heap ::= fun l => l ++ [fresh_authority] |> <| sp_authorities ::= union {[a]} |>) in
  sret a.

(** The authority behind a reference; references are never dangling. *)
Definition at_ref (a : nat) (s : SlotPool) : Authority := default fresh_authority (s.(sp_heap) !! a).

Definition on_authority (a : nat) (f : Authority -> Authority) : ST SlotPool unit :=
  smodify (fun s => s <| sp_heap ::= alter f a |>).

Definition register_wakeup (a : nat) (callback : N) : ST SlotPool unit :=
  on_authority a (fun x => x <| au_wakeup := Some callback |>).

(** A callback outside the lock. *)
Definition wake (cb : option N) : ST SlotPool unit :=
  match cb with Some c => smodify (fun s => s <| sp_woken ::= fun l => l ++ [c] |>) | None => sret tt end.

(** The loop of [_assign_slot_locked] over the waiters. *)
Fixpoint assign_loop (slot : Z) (waiters : list nat) : ST SlotPool (option N) :=
  match waiters with
  | [] =>
      let! _ := smodify (fun s =>
        let s := s <| sp_waiters := [] |> in
        if s.(sp_closed) then s else s <| sp_available_slots ::= fun l => l ++ [slot] |>) in
      sret None
  | a :: rest =>
      let! s := sget in
      if negb (bool_decide ((at_ref a s).(au_state) = A_REQUESTED)) then assign_loop slot rest
      else
        let! _ := smodify (fun s => s <| sp_waiters := rest |>) in
        let! _ := on_authority a (fun x => x <| au_ready_slot := Some slot |> <| au_state := A_READY |>) in
        sret (at_ref a s).(au_wakeup)
  end.

(** [_assign_slot_locked] *)
Definition assign_slot (slot : Z) : ST SlotPool (option N) :=
  let! s := sget in
  assign_loop slot s.(sp_waiters).

(** [_release] *)
Definition release (lease_id : string) : ST SlotPool unit :=
  let! s := sget in
  match od_get lease_id s.(sp_active_slots) with
  | None => sret tt
  | Some (slot, a) =>
      let! _ := smodify (fun s => s <| sp_active_slots ::= od_pop lease_id |>) in
      let! _ := on_authority a (fun x => x <| au_active_lease_ids ::= fun g => g ∖ {[lease_id]} |>) in
      let! cb := assign_slot slot in
      wake cb
  end.

(** The fields every way of closing an authority resets. *)
Definition closed_authority (x : Authority) : Authority :=
  x <| au_state := A_CLOSED |> <| au_request_id := "" |> <| au_retained_input_bytes := 0 |>
    <| au_ready_slot := None |> <| au_wakeup := None |>.

(** [_close_authority] *)
Definition close_authority (a : nat) : ST SlotPool unit :=
  let! s := sget in
  let x := at_ref a s in
  if bool_decide (x.(au_state) = A_CLOSED) then sret tt
  else
    let! cb :=
      match x.(au_state), x.(au_ready_slot) with
      | A_REQUESTED, _ =>
          let! _ := smodify (fun s => s <| sp_waiters ::= List.filter (fun i => negb (Nat.eqb i a)) |>) in sret None
      | A_READY, Some slot => assign_slot slot
      | _, _ => sret None
      end in
    let! _ := on_authority a closed_authority in
    let! _ := smodify (fun s => s <| sp_authorities ::= fun g => g ∖ {[a]} |>) in
    wake cb.

(** [close]; the authorities are closed in the order their references are listed. *)
Definition close : ST SlotPool unit :=
  let! s := sget in
  if s.(sp_closed) then sret tt
  else
    let refs := elements s.(sp_authorities) in
    let wakeups := omap (fun a => (at_ref a s).(au_wakeup)) refs in
    let! _ := smodify (fun s => s <| sp_closed := true |> <| sp_waiters := [] |>) in
    let! _ := sfor refs (fun a => on_authority a closed_authority) in
    let! _ := smodify (fun s => s <| sp_authorities := ∅ |> <| sp_available_slots := [] |>) in
    sfor wakeups (fun c => wake (Some c)).

(** [LocalSlotAdmissionAuthority.request] *)
Definition request (a : nat) (retained : Z) : ST SlotPool bool :=
  let! _ := sraise_if (retained <? 0) (ValueError "retained_input_bytes must be >= 0") in
  let! s := sget in
  let x := at_ref a s in
  let! _ := sraise_if (bool_decide (x.(au_state) = A_CLOSED) || s.(sp_closed))
              (RuntimeError "local admission authority is closed") in
  if negb (bool_decide (x.(au_state) = A_IDLE)) then sret false
  else
    let! _ := on_authority a (fun x =>
      x <| au_sequence ::= fun n => n + 1 |>
        <| au_request_id := ("request:local:" ++ s.(sp_prefix) ++ ":" ++ str_of_int (x.(au_sequence) + 1))%string |>
        <| au_retained_input_bytes := retained |>) in
    match s.(sp_available_slots) with
    | slot :: rest =>
        let! _ := smodify (fun s => s <| sp_available_slots := rest |>) in
        let! _ := on_authority a (fun x => x <| au_ready_slot := Some slot |> <| au_state := A_READY |>) in
        sret true
    | [] =>
        let! _ := on_authority a (fun x => x <| au_state := A_REQUESTED |>) in
        let! _ := smodify (fun s => s <| sp_waiters ::= fun l => l ++ [a] |>) in
        sret true
    end.

(** [take]; the lease releases the slot by its id. *)
Definition take (a : nat) (retained : Z) (lease_id : string) : ST SlotPool (AdmissionLease string) :=
  let! s := sget in
  let x := at_ref a s in
  match bool_decide (x.(au_state) = A_READY), x.(au_ready_slot) with
  | true, Some slot =>
      let! _ := sraise_if (negb (retained =? x.(au_retained_input_bytes)))
                  (RuntimeError "local admission retained input bytes do not match") in
      let! _ := smodify (fun s => s <| sp_active_slots ::= od_set lease_id (slot, a) |>) in
      let! _ := on_authority a (fun x =>
        x <| au_active_lease_ids ::= union {[lease_id]} |> <| au_state := A_IDLE |> <| au_request_id := "" |>
          <| au_retained_input_bytes := 0 |> <| au_ready_slot := None |>) in
      sret (MkLease x.(au_request_id) retained
        (pd_lit [("lease_id", PStr lease_id);
                 ("execution_slot_id", PStr (s.(sp_prefix) ++ ":" ++ str_of_int slot)%string);
                 ("slot_index", PInt slot)])
        (Some lease_id) false)
  | _, _ => sraise (RuntimeError "local admission lease is not ready")
  end.

(** [state], as the readiness snapshot. *)
Definition state (a : nat) (s : SlotPool) : AuthorityState * bool * Z :=
  let x := at_ref a s in
  (x.(au_state), bool_decide (x.(au_state) = A_READY), x.(au_retained_input_bytes)).

(** [AdmissionExecutorMixin._take_task_admission] *)
Definition take_task_admission (a : nat) (lease_id : string) : ST SlotPool (AdmissionLease string) :=
  let! s := sget in
  take a (state a s).2 lease_id.

(** [AdmissionLease.release] on a lease of the pool *)
Definition release_lease (l : AdmissionLease string) : ST SlotPool (AdmissionLease string) :=
  let '(cb, l') := Lease.release l in
  match cb with
  | Some lease_id => let! _ := release lease_id in sret l'
  | None => sret l'
  end.

End Pool.

(** ** [TaskAdmissionController] *)

Inductive ControllerState := T_IDLE | T_REQUESTED | T_READY | T_FAILED | T_CLOSED.
#[export] Instance ControllerState_eq_dec : EqDecision ControllerState.
Proof. solve_decision. Defined.

(** Calls on the driver actor. *)
Inductive driver_call :=
| AcquireLease (request : list (pyval * pyval))
| CancelRequest (request_id : string).

Record Controller := MkController {
  tc_query_id : string;
  tc_stage_id : string;
  tc_resources : pyval;
  tc_executor_id : string;
  tc_sequence : Z;
  tc_state : ControllerState;
  tc_request_id : string;
  tc_retained_input_bytes : Z;
  tc_request_pending : bool;               (* [_request_ref is not None] *)
  tc_ready_lease : option (list (pyval * pyval));
  tc_error : option exn;
  tc_wakeup : option N;
  tc_calls : list driver_call;
  tc_woken : list N;
}.
#[export] Instance Controller_eta : Eta Controller :=
  fun r => MkController r.(tc_query_id) r.(tc_stage_id) r.(tc_resources) r.(tc_executor_id) r.(tc_sequence)
    r.(tc_state) r.(tc_request_id) r.(tc_retained_input_bytes) r.(tc_request_pending) r.(tc_ready_lease)
    r.(tc_error) r.(tc_wakeup) r.(tc_calls) r.(tc_woken).

(** [_positive_int] *)
Definition positive_int (v : pyval) (name : string) : result Z :=
  let* n := py_int v in
  let* _ := raise_if (n <=? 0) (ValueError (name ++ " must be positive")%string) in
  Ok n.

(** [str(payload.get(key) or "").strip()] *)
Definition text_field (key : string) (payload : list (pyval * pyval)) : string :=
  let v := pd_get key payload in strip (if truthy v then py_str v else "").

(** [ray_udf_task_memory_bytes]; [environ] looks up an environment variable. *)
Definition ray_udf_task_memory_bytes (environ : string -> option string) (payload : list (pyval * pyval)) : result Z :=
  let backend := text_field "execution_backend" payload in
  let* setting :=
    if String.eqb backend "ray_task" then Ok ("VANE_UDF_TASK_HEAP_BYTES", 2 * 1024 ^ 3)
    else if String.eqb backend "ray_actor" then Ok ("VANE_UDF_ACTOR_HEAP_BYTES", 4 * 1024 ^ 3)
    else Raise (ValueError "task admission requires a Ray UDF backend") in
  let raw := match pd_get "memory_bytes" payload with
             | PNone => PStr (default (str_of_int setting.2) (environ setting.1))
             | v => v
             end in
  positive_int raw "memory_bytes".

Module TaskCtl.

(** [__init__]; [resources] is the task's resource specification. *)
Definition new (payload : list (pyval * pyval)) (resources : pyval) (executor_id : string) : result Controller :=
  let query := text_field "query_id" payload in
  let stage := text_field "stage_id" payload in
  let* _ := raise_if (String.eqb query "" || String.eqb stage "")
              (ValueError "distributed Ray UDF task admission requires query_id and stage_id") in
  Ok (MkController query stage resources executor_id 0 T_IDLE "" 0 false None None None [] []).

(** The id of the request with a sequence number. *)
Definition request_id_of (c : Controller) (sequence : Z) : string :=
  ("request:task:" ++ c.(tc_stage_id) ++ ":executor:" ++ c.(tc_executor_id) ++ ":admission:" ++ str_of_int sequence)%string.

(** [_build_request], after the sequence number was advanced *)
Definition build_request (c : Controller) (retained : Z) : list (pyval * pyval) :=
  let identity := ("executor:" ++ c.(tc_executor_id) ++ ":admission:" ++ str_of_int c.(tc_sequence))%string in
  pd_lit
    [("request_id", PStr (request_id_of c c.(tc_sequence)));
     ("query_id", PStr c.(tc_query_id)); ("stage_id", PStr c.(tc_stage_id));
     ("task_id", PStr ("task:" ++ c.(tc_stage_id) ++ ":" ++ identity)%string);
     ("attempt_id", PStr ("attempt:" ++ c.(tc_executor_id) ++ ":" ++ str_of_int c.(tc_sequence))%string);
     ("node_id", PNone); ("retained_input_bytes", PInt retained); ("resources", c.(tc_resources))].

Definition register_wakeup (callback : N) : ST Controller unit :=
  smodify (fun c => c <| tc_wakeup := Some callback |>).

(** [_raise_if_failed_locked] *)
Definition raise_if_failed : ST Controller unit :=
  let! c := sget in
  sraise_if (bool_decide (c.(tc_state) = T_FAILED)) (RuntimeError "task admission failed").

Definition record_call (d : driver_call) : ST Controller unit :=
  smodify (fun c => c <| tc_calls ::= fun l => l ++ [d] |>).

Definition wake (cb : option N) : ST Controller unit :=
  match cb with Some w => smodify (fun c => c <| tc_woken ::= fun l => l ++ [w] |>) | None => sret tt end.

(** [request] up to the call of the driver, which is made without the lock:
    the request that is to go out, if any. *)
Definition begin_request (retained : Z) : ST Controller (option (string * list (pyval * pyval))) :=
  let! _ := sraise_if (retained <? 0) (ValueError "retained_input_bytes must be >= 0") in
  let! _ := raise_if_failed in
  let! c := sget in
  let! _ := sraise_if (bool_decide (c.(tc_state) = T_CLOSED)) (RuntimeError "task admission controller is closed") in
  if negb (bool_decide (c.(tc_state) = T_IDLE)) then sret None
  else
    let! _ := smodify (fun c => c <| tc_sequence ::= fun n => n + 1 |>) in
    let! c := sget in
    let req := build_request c retained in
    let rid := request_id_of c c.(tc_sequence) in
    let! _ := smodify (fun c => c <| tc_state := T_REQUESTED |> <| tc_request_id := rid |>
                                  <| tc_retained_input_bytes := retained |>) in
    sret (Some (rid, req)).

(** The rest of it: the controller may have been closed in between.
    [submitted] tells whether the driver call went out. *)
Definition submit_request (rid : string) (req : list (pyval * pyval)) (submitted : result unit) : ST Controller unit :=
  let! _ := record_call (AcquireLease req) in
  match submitted with
  | Raise e =>
      let! _ := smodify (fun c => c <| tc_state := T_FAILED |> <| tc_error := Some e |>) in
      sraise e
  | Ok _ =>
      smodify (fun c =>
        if bool_decide (c.(tc_state) = T_REQUESTED) && String.eqb c.(tc_request_id) rid
        then c <| tc_request_pending := true |> else c)
  end.

Definition request (retained : Z) (submitted : result unit) : ST Controller bool :=
  let! r := begin_request retained in
  match r with
  | None => sret false
  | Some (rid, req) => let! _ := submit_request rid req submitted in sret true
  end.

(** The lease of a usable grant. *)
Definition granted_lease (grant : pyval) : result (list (pyval * pyval)) :=
  match grant with
  | PDict g =>
      if truthy (pd_get "granted" g) then
        match pd_get "lease" g with
        | PDict l =>
            let v := pd_get "lease_id" l in
            if String.eqb (if truthy v then py_str v else "") "" then
              Raise (RuntimeError "Ray UDF task admission grant is missing lease identity")
            else Ok l
        | _ => Raise (RuntimeError "Ray UDF task admission grant is missing lease identity")
        end
      else Raise (RuntimeError "Ray UDF task admission failed")
  | _ => Raise (RuntimeError "Ray UDF task admission failed")
  end.

(** [_finish_request], the done callback of a request's future *)
Definition finish_request (rid : string) (outcome : result pyval) : ST Controller unit :=
  let! c := sget in
  let current := bool_decide (c.(tc_state) = T_REQUESTED) && String.eqb c.(tc_request_id) rid in
  match (let* grant := outcome in granted_lease grant) with
  | Ok lease =>
      if negb current then record_call (CancelRequest rid)
      else
        let! _ := smodify (fun c => c <| tc_request_pending := false |> <| tc_ready_lease := Some lease |>
                                      <| tc_state := T_READY |>) in
        wake c.(tc_wakeup)
  | Raise e =>
      if negb current then sret tt
      else
        let! _ := smodify (fun c => c <| tc_request_pending := false |> <| tc_state := T_FAILED |>
                                      <| tc_error := Some e |>) in
        wake c.(tc_wakeup)
  end.

(** [take]; the admission cancels its request when it is released. *)
Definition take (retained : Z) : ST Controller (AdmissionLease string) :=
  let! _ := raise_if_failed in
  let! c := sget in
  match bool_decide (c.(tc_state) = T_READY), c.(tc_ready_lease) with
  | true, Some lease =>
      let! _ := sraise_if (negb (retained =? c.(tc_retained_input_bytes)))
                  (RuntimeError "task admission retained input bytes do not match") in
      let! _ := smodify (fun c => c <| tc_state := T_IDLE |> <| tc_request_id := "" |>
                                    <| tc_retained_input_bytes := 0 |> <| tc_ready_lease := None |>) in
      sret (MkLease c.(tc_request_id) c.(tc_retained_input_bytes) lease (Some c.(tc_request_id)) false)
  | _, _ => sraise (RuntimeError "task admission is not ready")
  end.

(** [release] of an admission of this controller *)
Definition release_admission (l : AdmissionLease string) : ST Controller (AdmissionLease string) :=
  let '(cb, l') := Lease.release l in
  match cb with
  | Some rid => let! _ := record_call (CancelRequest rid) in sret l'
  | None => sret l'
  end.

Definition close : ST Controller unit :=
  let! c := sget in
  if bool_decide (c.(tc_state) = T_CLOSED) then sret tt
  else
    let rid := if bool_decide (c.(tc_state) = T_REQUESTED) || bool_decide (c.(tc_state) = T_READY)
               then c.(tc_request_id) else "" in
    let! _ := smodify (fun c => c <| tc_state := T_CLOSED |> <| tc_request_id := "" |>
                                  <| tc_retained_input_bytes := 0 |> <| tc_request_pending := false |>
                                  <| tc_ready_lease := None |> <| tc_wakeup := None |>) in
    if String.eqb rid "" then sret tt else record_call (CancelRequest rid).

End TaskCtl.
