(* ===== verification/SlotPoolProofs.v ===== *)
(** * The local slot pool: no slot is lost or shared

    The invariant of [UdfAdmission.Pool] over any history of calls by any
    number of authorities: while the pool is open, every physical slot is in
    exactly one place (free, offered to one authority, or held by one live
    lease); requests wait only when no slot is free, and are served in the
    order in which they came. *)

From S2P Require Import Prelude PyStr PyVal UdfAdmission.

#[local] Open Scope string_scope.
#[local] Open Scope list_scope.
#[local] Open Scope Z_scope.

Definition ready_slots (heap : list Authority) : list Z := omap au_ready_slot heap.
Definition active_slots (active : list (string * (Z * nat))) : list Z := map (fun e => e.2.1) active.

(** The state of an authority, if the reference is valid. *)
Definition state_at (heap : list Authority) (a : nat) : option AuthorityState := au_state <$> heap !! a.

(** The pool of [n] slots, with [moving] slots on their way to a new owner. *)
Record pool_ok (n : Z) (moving : list Z) (s : SlotPool) : Prop := {
  ok_ready : forall a x, s.(sp_heap) !! a = Some x -> x.(au_state) = A_READY <-> is_Some x.(au_ready_slot);
  ok_slots : exists lost,
    moving ++ s.(sp_available_slots) ++ ready_slots s.(sp_heap) ++ active_slots s.(sp_active_slots) ++ lost ≡ₚ seqZ 0 n
    /\ (s.(sp_closed) = false -> lost = []);
  ok_waiters_once : NoDup s.(sp_waiters);
  ok_waiters : forall a, a ∈ s.(sp_waiters) <-> state_at s.(sp_heap) a = Some A_REQUESTED;
  ok_busy : s.(sp_available_slots) = [] \/ s.(sp_waiters) = [];
  ok_authorities : forall a, a ∈ s.(sp_authorities) <-> exists st, state_at s.(sp_heap) a = Some st /\ st <> A_CLOSED;
  ok_closed : s.(sp_closed) = true ->
    s.(sp_available_slots) = [] /\ forall a st, state_at s.(sp_heap) a = Some st -> st = A_CLOSED;
  ok_active : od_wf s.(sp_active_slots);
  ok_owner : forall lid a, (exists slot, od_get lid s.(sp_active_slots) = Some (slot, a)) <->
    exists x, s.(sp_heap) !! a = Some x /\ lid ∈ x.(au_active_lease_ids);
}.

Definition pool_inv (n : Z) (s : SlotPool) : Prop := pool_ok n [] s.

(** ** Moving one slot through the heap *)

Lemma ready_alter a f heap x :
  heap !! a = Some x ->
  ready_slots (alter f a heap) ++ option_list x.(au_ready_slot) ≡ₚ
  ready_slots heap ++ option_list (f x).(au_ready_slot).
Proof.
  intros Hx. assert (Hx' : alter f a heap !! a = Some (f x)) by (by rewrite list_lookup_alter_eq, Hx).
  unfold ready_slots. rewrite (delete_Permutation _ _ _ Hx) at 2. rewrite (delete_Permutation _ _ _ Hx').
  assert (Hd : delete a (alter f a heap) = delete a heap).
  { clear. revert a. induction heap as [|y l IH]; intros [|a]; simpl; [done..|]. f_equal. apply IH. }
  rewrite Hd. cbn [omap list_omap].
  destruct (au_ready_slot x), (au_ready_slot (f x)); unfold option_list; simpl option_rect; rewrite ?app_nil_r; try done.
  - rewrite <- !Permutation_cons_append. apply perm_swap.
  - symmetry. apply Permutation_cons_append.
  - apply Permutation_cons_append.
Qed.

(** An update of one authority that keeps its slot. *)
Lemma ready_alter_same a f heap :
  (forall x, heap !! a = Some x -> (f x).(au_ready_slot) = x.(au_ready_slot)) ->
  ready_slots (alter f a heap) = ready_slots heap.
Proof.
  unfold ready_slots. revert a. induction heap as [|y l IH]; intros a H; [done|].
  destruct a as [|a].
  - specialize (H y eq_refl). cbn. rewrite H. done.
  - change (alter f (S a) (y :: l)) with (y :: alter f a l). cbn [omap list_omap].
    rewrite IH; [done|]. intros x Hx. by apply H.
Qed.

Lemma state_alter a f heap b :
  state_at (alter f a heap) b =
    if decide (a = b) then au_state ∘ f <$> heap !! b else state_at heap b.
Proof.
  unfold state_at. rewrite list_lookup_alter. case_decide; [subst|done]. by destruct (lookup _ heap).
Qed.

(** The pool after a slot was handed on. *)
Definition assigned (slot : Z) (s : SlotPool) : SlotPool :=
  match s.(sp_waiters) with
  | [] => if s.(sp_closed) then s else s <| sp_available_slots ::= fun l => l ++ [slot] |>
  | w :: rest =>
      s <| sp_waiters := rest |>
        <| sp_heap ::= alter (fun x => x <| au_ready_slot := Some slot |> <| au_state := A_READY |>) w |>
  end.

Lemma assign_slot_run slot s :
  (forall a, a ∈ s.(sp_waiters) -> state_at s.(sp_heap) a = Some A_REQUESTED) ->
  exists cb, Pool.assign_slot slot s = (Ok cb, assigned slot s).
Proof.
  intros Hw. unfold Pool.assign_slot, sbind, sget, assigned.
  destruct s.(sp_waiters) as [|w rest] eqn:Es; simpl.
  - exists None. unfold sbind, smodify, sret. f_equal.
    destruct s as [? ? ? ws ? cl ? ?]; simpl in *; subst; by destruct cl.
  - assert (Hst : state_at s.(sp_heap) w = Some A_REQUESTED) by (apply Hw; left).
    unfold sbind, sget, Pool.at_ref. unfold state_at in Hst.
    destruct (s.(sp_heap) !! w) as [x|] eqn:Hx; [|done]. simpl in Hst. injection Hst as Hst. simpl. rewrite Hst.
    rewrite bool_decide_true by done. simpl. eexists. reflexivity.
Qed.

(** Handing on a slot that is in transit settles it. *)
Lemma assigned_ok n slot moving s : pool_ok n (slot :: moving) s -> pool_ok n moving (assigned slot s).
Proof.
  intros [Hr (lost & Hsl & Hlost) Hwd Hw Hb Ha Hc Hwf Ho]. unfold assigned.
  destruct s.(sp_waiters) as [|w rest] eqn:Ew.
  - destruct s.(sp_closed) eqn:Ec.
    + split; try done; try (intros a; rewrite Ew; apply Hw); try (by rewrite Ew); [|by intros _; apply Hc].
      exists (slot :: lost). split; [|by rewrite Ec].
      rewrite <- Hsl. rewrite !(app_assoc _ _ (_ :: _)), <- Permutation_middle. by rewrite <- !app_assoc.
    + specialize (Hlost eq_refl) as ->.
      split; simpl; try done; try (intros a; rewrite Ew; apply Hw); try (by rewrite Ew); try (by rewrite Ec);
        [|by right; rewrite Ew].
      exists []. split; [|done]. rewrite <- Hsl, !app_nil_r.
      rewrite <- (app_assoc _ [slot]). simpl. rewrite (app_assoc moving), <- Permutation_middle. by rewrite <- app_assoc.
  - assert (Hst : state_at s.(sp_heap) w = Some A_REQUESTED) by (apply Hw; left).
    unfold state_at in Hst. destruct (s.(sp_heap) !! w) as [x|] eqn:Hx; [|done]. simpl in Hst. injection Hst as Hst.
    apply NoDup_cons in Hwd as [Hnw Hwd].
    assert (Hav : s.(sp_available_slots) = []) by (destruct Hb; [done | discriminate]).
    assert (Hnr : x.(au_ready_slot) = None).
    { destruct (Hr w x Hx) as [_ H]. rewrite Hst in H. destruct (au_ready_slot x); [|done]. exfalso. by discriminate H. }
    split; simpl.
    + intros a y. rewrite list_lookup_alter. case_decide; [|apply Hr]. subst a. rewrite Hx. simpl.
      intros [= <-]. simpl. by split; intros _.
    + exists lost. split; [|done]. rewrite <- Hsl, Hav. simpl.
      pose proof (ready_alter w (fun x => x <| au_ready_slot := Some slot |> <| au_state := A_READY |>) _ _ Hx) as Hp.
      rewrite Hnr in Hp. unfold option_list in Hp. simpl option_rect in Hp. rewrite app_nil_r in Hp. simpl in Hp. rewrite Hp.
      rewrite <- app_assoc. simpl. rewrite app_assoc, <- Permutation_middle. by rewrite <- app_assoc.
    + exact Hwd.
    + intros a. rewrite state_alter. case_decide as Hd.
      * subst a. rewrite Hx. simpl. split; [done | discriminate].
      * rewrite <- Hw. set_solver.
    + by left.
    + intros a. rewrite Ha, state_alter. case_decide as Hd; [|done]. subst a. unfold state_at. rewrite Hx. simpl. rewrite Hst.
      split; intros _; eexists; by split.
    + intros Ec. destruct (Hc Ec) as [_ Hall]. unfold state_at in Hall. specialize (Hall w A_REQUESTED).
      rewrite Hx in Hall. simpl in Hall. rewrite Hst in Hall. by specialize (Hall eq_refl).
    + exact Hwf.
    + intros lid a. rewrite Ho, list_lookup_alter. case_decide as Hd; [|done]. subst a. rewrite Hx. simpl.
      split; intros (y & [= <-] & Hy); (eexists; split; [reflexivity|exact Hy]).
Qed.

(** ** The operations *)

(** An update of fields the invariant does not speak of. *)
Lemma alter_quiet_ok n moving a f s :
  (forall x, (f x).(au_state) = x.(au_state) /\ (f x).(au_ready_slot) = x.(au_ready_slot) /\
             (f x).(au_active_lease_ids) = x.(au_active_lease_ids)) ->
  pool_ok n moving s -> pool_ok n moving (s <| sp_heap ::= alter f a |>).
Proof.
  intros Hf [Hr (lost & Hsl & Hlost) Hwd Hw Hb Ha Hc Hwf Ho].
  assert (Hst : forall b, state_at (alter f a s.(sp_heap)) b = state_at s.(sp_heap) b).
  { intros b. rewrite state_alter. case_decide; [|done]. subst. unfold state_at.
    destruct (s.(sp_heap) !! b) as [x|]; [|done]. simpl. f_equal. apply Hf. }
  split; simpl; try done.
  - intros b y. rewrite list_lookup_alter. case_decide; [|apply Hr]. subst.
    destruct (s.(sp_heap) !! b) as [x|] eqn:Hx; [|done]. intros [= <-]. destruct (Hf x) as (-> & -> & _). by apply (Hr b).
  - exists lost. split; [|done]. rewrite ready_alter_same; [done|]. intros x _. apply Hf.
  - intros b. by rewrite Hst.
  - intros b. by rewrite Hst.
  - intros Ec. destruct (Hc Ec) as [? Hall]. split; [done|]. intros b st. rewrite Hst. apply Hall.
  - intros lid b. rewrite Ho, list_lookup_alter. case_decide; [|done]. subst.
    destruct (s.(sp_heap) !! b) as [x|]; [|done]. simpl.
    split; intros (y & [= <-] & Hy); (eexists; split; [reflexivity|]); destruct (Hf x) as (_ & _ & E); by rewrite E in *.
Qed.

Lemma state_snoc heap x a :
  state_at (heap ++ [x]) a = if decide (a = length heap) then Some x.(au_state) else state_at heap a.
Proof.
  unfold state_at. case_decide as H; [subst; by rewrite list_lookup_middle|].
  destruct (decide (a < length heap)%nat); [by rewrite lookup_app_l|].
  rewrite !lookup_ge_None_2; [done | lia |]. rewrite length_app. simpl. lia.
Qed.

Lemma create_ok n s : pool_inv n s -> pool_inv n (Pool.create_authority s).2.
Proof.
  intros H. unfold Pool.create_authority, sbind, sget, sraise_if, slift, raise_if, smodify.
  destruct s.(sp_closed) eqn:Ec; [exact H|]. destruct H as [Hr (lost & Hsl & Hlost) Hwd Hw Hb Ha Hc Hwf Ho]. simpl.
  split; simpl; try done; try by rewrite Ec.
  - intros a x. destruct (decide (a < length s.(sp_heap))%nat); [rewrite lookup_app_l by done; apply Hr|].
    rewrite lookup_app_r by lia. destruct (a - length _)%nat as [|k]; [|done]. intros [= <-]. by split; [|intros []].
  - exists lost. split; [|done]. unfold ready_slots. rewrite omap_app. simpl. by rewrite app_nil_r.
  - intros a. rewrite state_snoc, Hw. case_decide as Hd; [|done]. subst. unfold state_at.
    by rewrite lookup_ge_None_2 by done.
  - intros a. rewrite elem_of_union, elem_of_singleton, Ha, state_snoc. case_decide as Hd.
    + split; [intros _; by eexists | by left].
    + split; [by intros [? |] | by right].
  - intros lid a. rewrite Ho. destruct (decide (a < length s.(sp_heap))%nat) as [Hlt|Hge]; [by rewrite lookup_app_l|].
    rewrite (lookup_ge_None_2 s.(sp_heap) a) by lia. rewrite lookup_app_r by lia.
    split; [by intros (? & ? & _)|]. destruct (a - length _)%nat as [|k]; intros (x & [= <-] & Hx). set_solver.
Qed.

(** The first free slot goes to the authority that asks. *)
Lemma offer_ok n a x slot rest s :
  pool_inv n s -> s.(sp_closed) = false -> s.(sp_heap) !! a = Some x -> x.(au_state) = A_IDLE ->
  s.(sp_available_slots) = slot :: rest ->
  pool_inv n (s <| sp_available_slots := rest |>
                <| sp_heap ::= alter (fun x => x <| au_ready_slot := Some slot |> <| au_state := A_READY |>) a |>).
Proof.
  intros [Hr (lost & Hsl & Hlost) Hwd Hw Hb Ha Hc Hwf Ho] Ec Hx Hst Hav.
  assert (Hnr : x.(au_ready_slot) = None).
  { destruct (Hr a x Hx) as [_ H]. rewrite Hst in H. destruct (au_ready_slot x); [|done]. exfalso. by discriminate H. }
  split; simpl; try done; try by rewrite Ec.
  - intros b y. rewrite list_lookup_alter. case_decide; [|apply Hr]. subst b. rewrite Hx. intros [= <-]. by split.
  - exists lost. split; [|done]. rewrite <- Hsl, Hav. simpl.
    pose proof (ready_alter a (fun x => x <| au_ready_slot := Some slot |> <| au_state := A_READY |>) _ _ Hx) as Hp.
    rewrite Hnr in Hp. unfold option_list in Hp. simpl option_rect in Hp. rewrite app_nil_r in Hp. simpl in Hp. rewrite Hp.
    rewrite <- app_assoc. simpl. rewrite app_assoc, <- Permutation_middle. by rewrite <- app_assoc.
  - intros b. rewrite Hw, state_alter. case_decide; [|done]. subst b. unfold state_at. rewrite Hx. simpl. by rewrite Hst.
  - right. destruct Hb; [congruence | done].
  - intros b. rewrite Ha, state_alter. case_decide; [|done]. subst b. unfold state_at. rewrite Hx. simpl. rewrite Hst.
    split; intros _; eexists; by split.
  - intros lid b. rewrite Ho, list_lookup_alter. case_decide; [|done]. subst b. rewrite Hx. simpl.
    split; intros (y & [= <-] & Hy); (eexists; split; [reflexivity|exact Hy]).
Qed.

(** With no free slot the authority waits behind the others. *)
Lemma enqueue_ok n a x s :
  pool_inv n s -> s.(sp_closed) = false -> s.(sp_heap) !! a = Some x -> x.(au_state) = A_IDLE ->
  s.(sp_available_slots) = [] ->
  pool_inv n (s <| sp_heap ::= alter (fun x => x <| au_state := A_REQUESTED |>) a |> <| sp_waiters ::= fun l => l ++ [a] |>).
Proof.
  intros [Hr (lost & Hsl & Hlost) Hwd Hw Hb Ha Hc Hwf Ho] Ec Hx Hst Hav.
  assert (Hnw : a ∉ s.(sp_waiters)).
  { rewrite Hw. unfold state_at. rewrite Hx. simpl. by rewrite Hst. }
  split; simpl; try done; try by rewrite Ec.
  - intros b y. rewrite list_lookup_alter. case_decide; [|apply Hr]. subst b. rewrite Hx. intros [= <-]. simpl.
    rewrite <- (Hr a x Hx), Hst. by split.
  - exists lost. split; [|done]. by rewrite ready_alter_same.
  - apply NoDup_app. split; [done|]. split; [|by apply NoDup_singleton]. intros b Hb' ->%list_elem_of_singleton. done.
  - intros b. rewrite elem_of_app, list_elem_of_singleton, Hw, state_alter. case_decide as Hd.
    + subst b. rewrite Hx. simpl. split; [done | by right].
    + split; [|by left]. intros [?|]; [done | congruence].
  - by left.
  - intros b. rewrite Ha, state_alter. case_decide; [|done]. subst b. unfold state_at. rewrite Hx. simpl. rewrite Hst.
    split; intros _; eexists; by split.
  - intros lid b. rewrite Ho, list_lookup_alter. case_decide; [|done]. subst b. rewrite Hx. simpl.
    split; intros (y & [= <-] & Hy); (eexists; split; [reflexivity|exact Hy]).
Qed.

Lemma request_ok n a x retained s :
  pool_inv n s -> s.(sp_heap) !! a = Some x -> pool_inv n (Pool.request a retained s).2.
Proof.
  intros H Hx. unfold Pool.request, sbind, sraise_if, slift, raise_if, sget, Pool.at_ref. rewrite Hx. cbn [default from_option].
  destruct (retained <? 0); [exact H|]. cbv beta iota. change (id x) with x.
  destruct (bool_decide (au_state x = A_CLOSED) || sp_closed s) eqn:Ec; [exact H|]. cbv beta iota.
  apply orb_false_iff in Ec as [_ Ec]. destruct (negb (bool_decide (au_state x = A_IDLE))) eqn:Hi; [exact H|].
  apply negb_false_iff, bool_decide_eq_true in Hi.
  match goal with |- context [Pool.on_authority a ?g s] => set (f := g) end.
  pose proof (alter_quiet_ok n [] a f s ltac:(intros y; by split_and!) H) as H1.
  unfold Pool.on_authority, smodify. cbv beta iota. set (s1 := s <| sp_heap ::= alter f a |>) in *.
  assert (Hx1 : s1.(sp_heap) !! a = Some (f x)) by (simpl; by rewrite list_lookup_alter_eq, Hx).
  destruct s.(sp_available_slots) as [|slot rest] eqn:Hav.
  - by apply (enqueue_ok n a (f x) s1).
  - by apply (offer_ok n a (f x) slot rest s1).
Qed.

Lemma middle2 {A} (l1 l2 l3 : list A) x : x :: l1 ++ l2 ++ l3 ≡ₚ l1 ++ l2 ++ x :: l3.
Proof. rewrite !app_assoc. apply Permutation_middle. Qed.

Lemma middle_app {A} (l l1 l2 l3 : list A) : l ++ l1 ++ l2 ++ l3 ≡ₚ l1 ++ (l2 ++ l) ++ l3.
Proof. rewrite <- (app_assoc l2), !(app_assoc l1). apply Permutation_app_swap_app. Qed.

Lemma active_pop lid slot a d :
  od_get lid d = Some (slot, a) -> active_slots d ≡ₚ slot :: active_slots (od_pop lid d).
Proof.
  unfold active_slots. induction d as [|[k v] d IH]; simpl; [done|].
  destruct (decide (lid = k)) as [<-|Hne]; [by intros [= ->]|]. intros H. simpl. rewrite (IH H). apply perm_swap.
Qed.

(** A taken slot belongs to the new lease. *)
Lemma take_ok n a x retained lid s :
  pool_inv n s -> s.(sp_heap) !! a = Some x -> od_get lid s.(sp_active_slots) = None ->
  pool_inv n (Pool.take a retained lid s).2.
Proof.
  intros H Hx Hf. unfold Pool.take, sbind, sget, Pool.at_ref. rewrite Hx. cbn [default from_option]. change (id x) with x.
  destruct (bool_decide (au_state x = A_READY)) eqn:Hst; [|exact H]. apply bool_decide_eq_true in Hst.
  destruct (au_ready_slot x) as [slot|] eqn:Hr'; [|exact H].
  unfold sraise_if, slift, raise_if. destruct (negb (retained =? au_retained_input_bytes x)); [exact H|].
  destruct H as [Hr (lost & Hsl & Hlost) Hwd Hw Hb Ha Hc Hwf Ho]. simpl. split; simpl; try done.
  - intros b y. rewrite list_lookup_alter. case_decide; [|apply Hr]. subst b. rewrite Hx. intros [= <-]. simpl.
    by split; [|intros []].
  - exists lost. split; [|done]. rewrite <- Hsl, (od_set_absent _ _ _ Hf). unfold active_slots. rewrite map_app. simpl.
    set (g := fun x => _). pose proof (ready_alter a g _ _ Hx) as Hp. rewrite Hr' in Hp. unfold option_list in Hp.
    simpl option_rect in Hp. rewrite app_nil_r in Hp. rewrite <- Hp.
    apply Permutation_app_head. rewrite <- !app_assoc. apply Permutation_app_head.
    simpl. by rewrite <- Permutation_middle.
  - intros b. rewrite Hw, state_alter. case_decide; [|done]. subst b. unfold state_at. rewrite Hx. simpl. by rewrite Hst.
  - intros b. rewrite Ha, state_alter. case_decide; [|done]. subst b. unfold state_at. rewrite Hx. simpl. rewrite Hst.
    split; intros _; eexists; by split.
  - intros Ec. destruct (Hc Ec) as [_ Hall]. specialize (Hall a A_READY). unfold state_at in Hall.
    rewrite Hx in Hall. simpl in Hall. rewrite Hst in Hall. by specialize (Hall eq_refl).
  - by apply od_wf_set.
  - intros lid' b. rewrite od_get_set, list_lookup_alter. destruct (decide (lid = lid')) as [<-|Hne].
    + split.
      * intros (sl & [= -> ->]). rewrite decide_True, Hx by done. simpl. eexists. split; [reflexivity|]. simpl. set_solver.
      * case_decide; [subst b; by eexists|]. intros (y & Hy & Hin).
        destruct (proj2 (Ho lid b)) as (sl & Hg); [by eexists|]. congruence.
    + rewrite Ho. case_decide; [|done]. subst b. rewrite Hx. simpl.
      split; intros (y & [= <-] & Hy); (eexists; split; [reflexivity|]); simpl in *; set_solver.
Qed.

Lemma wake_ok n moving cb s : pool_ok n moving s -> pool_ok n moving (Pool.wake cb s).2.
Proof. intros []. by destruct cb. Qed.

Lemma waiters_requested n moving s :
  pool_ok n moving s -> forall a, a ∈ s.(sp_waiters) -> state_at s.(sp_heap) a = Some A_REQUESTED.
Proof. intros H a. by rewrite (ok_waiters _ _ _ H). Qed.

(** The slot of a finished lease is on its way. *)
Lemma unlease_ok n lid slot a s :
  pool_inv n s -> od_get lid s.(sp_active_slots) = Some (slot, a) ->
  pool_ok n [slot] (s <| sp_active_slots ::= od_pop lid |>
                      <| sp_heap ::= alter (fun x => x <| au_active_lease_ids ::= fun g => g ∖ {[lid]} |>) a |>).
Proof.
  intros [Hr (lost & Hsl & Hlost) Hwd Hw Hb Ha Hc Hwf Ho] Hg.
  assert (Hst : forall b f, (forall x, (f x).(au_state) = x.(au_state)) ->
      state_at (alter f a s.(sp_heap)) b = state_at s.(sp_heap) b).
  { intros b f Hf. rewrite state_alter. case_decide; [|done]. subst. unfold state_at.
    destruct (s.(sp_heap) !! b) as [x|]; [|done]. simpl. f_equal. apply Hf. }
  split; simpl; try done.
  - intros b y. rewrite list_lookup_alter. case_decide; [|apply Hr]. subst b.
    destruct (s.(sp_heap) !! a) as [x|] eqn:Hx; [|done]. intros [= <-]. exact (Hr a x Hx).
  - exists lost. split; [|done]. rewrite <- Hsl. rewrite ready_alter_same by done.
    rewrite (active_pop _ _ _ _ Hg). apply middle2.
  - intros b. by rewrite Hst.
  - intros b. by rewrite Hst.
  - intros Ec. destruct (Hc Ec) as [? Hall]. split; [done|]. intros b st. rewrite Hst by done. apply Hall.
  - by apply od_wf_pop.
  - intros lid' b. rewrite list_lookup_alter. destruct (decide (lid = lid')) as [<-|Hne].
    + rewrite od_get_pop_eq by done. split; [by intros (? & ?)|]. case_decide.
      * subst b. destruct (s.(sp_heap) !! a) as [x|]; [|by intros (? & ? & _)]. simpl. intros (y & [= <-] & Hy).
        simpl in Hy. set_solver.
      * intros Hy. apply Ho in Hy as (sl & Hsl'). rewrite Hg in Hsl'. congruence.
    + rewrite od_get_pop_ne by done. rewrite Ho. case_decide; [|done]. subst b.
      destruct (s.(sp_heap) !! a) as [x|]; [|done]. simpl.
      split; intros (y & [= <-] & Hy); (eexists; split; [reflexivity|]); simpl in *; set_solver.
Qed.

Lemma release_ok n lid s : pool_inv n s -> pool_inv n (Pool.release lid s).2.
Proof.
  intros H. unfold Pool.release, sbind, sget.
  destruct (od_get lid s.(sp_active_slots)) as [[slot a]|] eqn:Hg; [|exact H].
  unfold Pool.on_authority, smodify. cbv beta iota. pose proof (unlease_ok n lid slot a s H Hg) as H1.
  match goal with |- context [Pool.assign_slot slot ?x] => set (s1 := x) in * end.
  destruct (assign_slot_run slot s1 (waiters_requested _ _ _ H1)) as [cb ->].
  apply wake_ok. by apply assigned_ok.
Qed.

(** An authority leaves: it no longer waits, and its offered slot moves on. *)
Definition departed (a : nat) (s : SlotPool) : SlotPool :=
  s <| sp_waiters ::= List.filter (fun i => negb (Nat.eqb i a)) |>
    <| sp_heap ::= alter Pool.closed_authority a |> <| sp_authorities ::= fun g => g ∖ {[a]} |>.

Lemma filter_ne_elem a b l : b ∈ List.filter (fun i => negb (Nat.eqb i a)) l <-> b ∈ l /\ b <> a.
Proof. rewrite !list_elem_of_In, List.filter_In, negb_true_iff, Nat.eqb_neq. done. Qed.

Lemma filter_ne_absent a l : a ∉ l -> List.filter (fun i => negb (Nat.eqb i a)) l = l.
Proof.
  induction l as [|x l IH]; [done|]. rewrite not_elem_of_cons. intros [Hne Hni]. simpl.
  rewrite (proj2 (Nat.eqb_neq x a)) by congruence. simpl. by rewrite IH.
Qed.

Lemma departed_ok n a x s :
  pool_inv n s -> s.(sp_heap) !! a = Some x -> pool_ok n (option_list x.(au_ready_slot)) (departed a s).
Proof.
  intros [Hr (lost & Hsl & Hlost) Hwd Hw Hb Ha Hc Hwf Ho] Hx. split; simpl; try done.
  - intros b y. rewrite list_lookup_alter. case_decide; [|apply Hr]. subst b. rewrite Hx. intros [= <-]. simpl.
    by split; [|intros []].
  - exists lost. split; [|done]. rewrite <- Hsl. pose proof (ready_alter a Pool.closed_authority _ _ Hx) as Hp.
    simpl option_list in Hp at 2. rewrite app_nil_r in Hp. rewrite <- Hp. simpl.
    apply middle_app.
  - apply NoDup_ListNoDup, List.NoDup_filter, NoDup_ListNoDup. done.
  - intros b. rewrite filter_ne_elem, Hw, state_alter. case_decide as Hd; [|by split; [intros [] | split; [|congruence]]].
    subst b. rewrite Hx. simpl. split; [by intros [] | discriminate].
  - destruct Hb as [?|Hb]; [by left | right; by rewrite Hb].
  - intros b. rewrite elem_of_difference, elem_of_singleton, Ha, state_alter. case_decide as Hd.
    + subst b. rewrite Hx. simpl. split; [by intros [_ []] | by intros (st & [= <-] & ?)].
    + split; [by intros [] | by split; [|congruence]].
  - intros Ec. destruct (Hc Ec) as [? Hall]. split; [done|]. intros b st. rewrite state_alter.
    case_decide; [|apply Hall]. subst b. rewrite Hx. simpl. by intros [= <-].
  - intros lid b. rewrite Ho, list_lookup_alter. case_decide; [|done]. subst b. rewrite Hx. simpl.
    split; intros (y & [= <-] & Hy); (eexists; split; [reflexivity|exact Hy]).
Qed.

(** Handing on the slot commutes with closing its former owner. *)
Lemma assigned_departed n a x slot s :
  pool_inv n s -> s.(sp_heap) !! a = Some x -> x.(au_state) = A_READY ->
  assigned slot s <| sp_heap ::= alter Pool.closed_authority a |> <| sp_authorities ::= fun g => g ∖ {[a]} |>
  = assigned slot (departed a s).
Proof.
  intros H Hx Hst. assert (Hnw : a ∉ s.(sp_waiters)).
  { rewrite (ok_waiters _ _ _ H). unfold state_at. rewrite Hx. simpl. by rewrite Hst. }
  unfold assigned, departed. simpl. rewrite (filter_ne_absent a _ Hnw).
  destruct s as [pre av act ws au cl hp wk]; simpl in *. destruct ws as [|w rest]; [by destruct cl|].
  unfold set_field; simpl. f_equal. rewrite list_alter_alter_ne; [done|]. set_solver.
Qed.

Lemma close_authority_ok n a x s :
  pool_inv n s -> s.(sp_heap) !! a = Some x -> pool_inv n (Pool.close_authority a s).2.
Proof.
  intros H Hx. pose proof (departed_ok n a x s H Hx) as Hd.
  unfold Pool.close_authority, sbind, sget, Pool.at_ref. rewrite Hx. cbn [default from_option]. change (id x) with x.
  destruct (bool_decide (au_state x = A_CLOSED)); [exact H|].
  pose proof (ok_ready _ _ _ H a x Hx) as Hr. pose proof (ok_waiters _ _ _ H a) as Hw.
  unfold state_at in Hw. rewrite Hx in Hw. simpl in Hw.
  assert (Hidle : au_state x <> A_REQUESTED -> List.filter (fun i => negb (Nat.eqb i a)) s.(sp_waiters) = s.(sp_waiters)).
  { intros Hne. apply filter_ne_absent. rewrite Hw. congruence. }
  assert (Hnone : au_state x <> A_READY -> au_ready_slot x = None).
  { intros Hne. destruct (au_ready_slot x); [|done]. destruct Hne. by apply Hr. }
  destruct (au_state x) eqn:Hst; try (rewrite Hnone in Hd by done).
  - specialize (Hidle ltac:(done)). unfold departed in Hd. simpl. destruct s; simpl in *. unfold set_field in Hd. simpl in Hd.
    rewrite Hidle in Hd. exact Hd.
  - exact Hd.
  - destruct (au_ready_slot x) as [slot|] eqn:Hs; [|by destruct (proj1 Hr eq_refl)].
    destruct (assign_slot_run slot s (waiters_requested _ _ _ H)) as [cb ->].
    unfold Pool.on_authority, smodify. cbv beta iota. apply wake_ok.
    rewrite (assigned_departed n a x slot s H Hx Hst). by apply assigned_ok.
  - specialize (Hidle ltac:(done)). unfold departed in Hd. simpl. destruct s; simpl in *. unfold set_field in Hd. simpl in Hd.
    rewrite Hidle in Hd. exact Hd.
Qed.

(** Closing a list of authorities. *)
Definition close_refs (refs : list nat) (heap : list Authority) : list Authority :=
  fold_left (fun h a => alter Pool.closed_authority a h) refs heap.

Lemma sfor_close refs s :
  sfor refs (fun a => Pool.on_authority a Pool.closed_authority) s = (Ok tt, s <| sp_heap ::= close_refs refs |>).
Proof.
  revert s. induction refs as [|a refs IH]; intros s; simpl; [by destruct s|].
  unfold sbind, Pool.on_authority, smodify in *. by rewrite IH.
Qed.

Lemma close_refs_lookup refs heap b :
  close_refs refs heap !! b = if bool_decide (b ∈ refs) then Pool.closed_authority <$> heap !! b else heap !! b.
Proof.
  unfold close_refs. revert heap. induction refs as [|a refs IH]; intros heap; [done|]. simpl. rewrite IH, list_lookup_alter.
  destruct (decide (b ∈ refs)) as [Hin|Hin], (decide (a = b)) as [->|Hne];
    rewrite ?(bool_decide_true (b ∈ refs)), ?(bool_decide_false (b ∈ refs)) by done.
  - rewrite bool_decide_true by set_solver. destruct (heap !! b); [|done]. simpl. f_equal.
  - by rewrite bool_decide_true by set_solver.
  - by rewrite bool_decide_true by set_solver.
  - by rewrite bool_decide_false by set_solver.
Qed.

Lemma sfor_wake_ok n cbs s : pool_inv n s -> pool_inv n (sfor cbs (fun c => Pool.wake (Some c)) s).2.
Proof.
  revert s. induction cbs as [|c cbs IH]; intros s H; [exact H|].
  apply IH. exact (wake_ok n [] (Some c) s H).
Qed.

Lemma close_ok n s : pool_inv n s -> pool_inv n (Pool.close s).2.
Proof.
  intros H. unfold Pool.close, sbind at 1, sget. destruct s.(sp_closed) eqn:Ec; [exact H|].
  unfold sbind at 1, smodify at 1. cbv beta iota. unfold sbind at 1. rewrite sfor_close.
  unfold sbind at 1, smodify. cbv beta iota. apply sfor_wake_ok.
  destruct H as [Hr (lost & Hsl & Hlost) Hwd Hw Hb Ha Hc Hwf Ho]. set (refs := elements s.(sp_authorities)).
  assert (Hrefs : forall a, a ∈ refs <-> exists st, state_at s.(sp_heap) a = Some st /\ st <> A_CLOSED).
  { intros a. unfold refs. by rewrite elem_of_elements. }
  assert (Hall : forall a y, close_refs refs s.(sp_heap) !! a = Some y ->
      y.(au_state) = A_CLOSED /\ y.(au_ready_slot) = None /\
      exists x, s.(sp_heap) !! a = Some x /\ y.(au_active_lease_ids) = x.(au_active_lease_ids)).
  { intros a y. rewrite close_refs_lookup. destruct (s.(sp_heap) !! a) as [x|] eqn:Hx; [|by destruct (bool_decide _)].
    destruct (bool_decide (a ∈ refs)) eqn:Hin; simpl.
    - intros [= <-]. split; [done|]. split; [done|]. by exists x.
    - intros [= <-]. apply bool_decide_eq_false in Hin. rewrite Hrefs in Hin. unfold state_at in Hin. rewrite Hx in Hin.
      assert (Hcl : au_state x = A_CLOSED).
      { destruct (decide (au_state x = A_CLOSED)); [done|]. exfalso. apply Hin. by eexists. }
      split; [done|]. split; [|by exists x]. destruct (au_ready_slot x) eqn:E; [|done].
      pose proof (proj2 (Hr a x Hx)) as Hq. rewrite E, Hcl in Hq. exfalso. by discriminate Hq. }
  assert (Hready : ready_slots (close_refs refs s.(sp_heap)) = []).
  { unfold ready_slots. apply elem_of_nil_inv. intros z. rewrite list_elem_of_omap. intros (y & Hy & Hz).
    apply list_elem_of_lookup in Hy as [a Hy]. apply Hall in Hy as (_ & E & _). congruence. }
  split; simpl.
  - intros a y Hy. destruct (Hall a y Hy) as (-> & -> & _). by split; [|intros []].
  - exists (s.(sp_available_slots) ++ ready_slots s.(sp_heap) ++ lost). split; [|discriminate].
    rewrite Hready, <- Hsl. simpl. rewrite Permutation_app_comm, <- !app_assoc.
    do 2 apply Permutation_app_head. apply Permutation_app_comm.
  - constructor.
  - intros a. split; [by rewrite elem_of_nil|]. unfold state_at. destruct (close_refs refs s.(sp_heap) !! a) as [y|] eqn:Hy; [|done].
    destruct (Hall a y Hy) as (E & _). simpl. by rewrite E.
  - by left.
  - intros a. split; [set_solver|]. unfold state_at. intros (st & Hst & Hne).
    destruct (close_refs refs s.(sp_heap) !! a) as [y|] eqn:Hy; [|done]. destruct (Hall a y Hy) as (E & _).
    simpl in Hst. congruence.
  - intros _. split; [done|]. intros a st. unfold state_at.
    destruct (close_refs refs s.(sp_heap) !! a) as [y|] eqn:Hy; [|done]. destruct (Hall a y Hy) as (E & _). simpl. congruence.
  - exact Hwf.
  - intros lid a. rewrite Ho, close_refs_lookup. destruct (bool_decide (a ∈ refs)); [|done].
    destruct (s.(sp_heap) !! a) as [x|]; [|done]. simpl.
    split; intros (y & [= <-] & Hy); (eexists; split; [reflexivity|exact Hy]).
Qed.

(** ** Any history of calls *)

Inductive pool_op :=
| PCreateAuthority
| PRegisterWakeup (a : nat) (callback : N)
| PRequest (a : nat) (retained : Z)
| PTake (a : nat) (retained : Z) (lease_id : string)
| PRelease (lease_id : string)
| PCloseAuthority (a : nat)
| PClose.

Definition pool_call (op : pool_op) (s : SlotPool) : SlotPool :=
  match op with
  | PCreateAuthority => (Pool.create_authority s).2
  | PRegisterWakeup a cb => (Pool.register_wakeup a cb s).2
  | PRequest a n => (Pool.request a n s).2
  | PTake a n lid => (Pool.take a n lid s).2
  | PRelease lid => (Pool.release lid s).2
  | PCloseAuthority a => (Pool.close_authority a s).2
  | PClose => (Pool.close s).2
  end.

(** The caller holds the authority, and [uuid4] gives an id not in use. *)
Definition pool_op_ok (op : pool_op) (s : SlotPool) : Prop :=
  match op with
  | PRegisterWakeup a _ | PRequest a _ | PCloseAuthority a => is_Some (s.(sp_heap) !! a)
  | PTake a _ lid => is_Some (s.(sp_heap) !! a) /\ od_get lid s.(sp_active_slots) = None
  | _ => True
  end.

Inductive pool_reachable (n : Z) : SlotPool -> Prop :=
| pool_new prefix s : Pool.new n prefix = Ok s -> pool_reachable n s
| pool_step s op : pool_reachable n s -> pool_op_ok op s -> pool_reachable n (pool_call op s).

Lemma pool_new_ok n prefix s : Pool.new n prefix = Ok s -> pool_inv n s.
Proof.
  unfold Pool.new. intros H. inv_ok. split; simpl; try done.
  - exists []. split; [|done]. by rewrite app_nil_r.
  - constructor.
  - intros b. split; [by rewrite elem_of_nil | done].
  - by right.
  - intros b. split; [set_solver | by intros (? & ? & _)].
  - constructor.
  - intros lid b. split; [by intros (? & ?) | by intros (? & ? & _)].
Qed.

Lemma pool_reachable_ok n s : pool_reachable n s -> pool_inv n s.
Proof.
  induction 1 as [prefix s H|s op Hr IH Hop]; [by eapply pool_new_ok|].
  destruct op; simpl in *.
  - by apply create_ok.
  - apply alter_quiet_ok; [|exact IH]. intros x. by split_and!.
  - destruct Hop as [x Hx]. by apply (request_ok n a x).
  - destruct Hop as [[x Hx] Hf]. by apply (take_ok n a x).
  - by apply release_ok.
  - destruct Hop as [x Hx]. by apply (close_authority_ok n a x).
  - by apply close_ok.
Qed.

(** C33: whatever the authorities of a pool do, no physical slot is ever
    offered to two of them or held by two leases, and while the pool is open
    none is lost: the free slots, the slots offered to authorities and the
    slots of live leases are together exactly 0, ..., n-1. *)
Theorem slots_exclusive n s :
  pool_reachable n s ->
  let owned := ready_slots s.(sp_heap) ++ active_slots s.(sp_active_slots) in
  NoDup owned /\ (forall slot, slot ∈ owned -> 0 <= slot < n) /\
  (s.(sp_closed) = false -> s.(sp_available_slots) ++ owned ≡ₚ seqZ 0 n).
Proof.
  intros H%pool_reachable_ok owned. destruct (ok_slots _ _ _ H) as (lost & Hsl & Hlost). simpl in Hsl.
  assert (Hall : s.(sp_available_slots) ++ owned ++ lost ≡ₚ seqZ 0 n) by (unfold owned; by rewrite <- app_assoc).
  pose proof (NoDup_seqZ 0 n) as Hnd. rewrite <- Hall in Hnd.
  split; [|split].
  - apply NoDup_app in Hnd as (_ & _ & Hnd). by apply NoDup_app in Hnd as (Hnd & _ & _).
  - intros slot Hin. assert (Hs : slot ∈ seqZ 0 n) by (rewrite <- Hall; set_solver). apply elem_of_seqZ in Hs. lia.
  - intros Ec. rewrite (Hlost Ec), app_nil_r in Hall. exact Hall.
Qed.

(** An authority waits only while every slot of the pool is offered or
    leased, and a slot that is given back goes straight to the authority
    that has waited longest; the others keep their order. *)
Theorem waiters_served_in_order n s w rest lid slot owner :
  pool_reachable n s -> 0 <= n -> s.(sp_waiters) = w :: rest ->
  od_get lid s.(sp_active_slots) = Some (slot, owner) ->
  let s' := (Pool.release lid s).2 in
  s.(sp_available_slots) = [] /\
  (s.(sp_closed) = false ->
     Z.of_nat (length (ready_slots s.(sp_heap)) + length s.(sp_active_slots)) = n) /\
  (Pool.at_ref w s').(au_ready_slot) = Some slot /\ (Pool.at_ref w s').(au_state) = A_READY /\
  s'.(sp_waiters) = rest.
Proof.
  intros H%pool_reachable_ok Hn Hw Hg. pose proof (unlease_ok n lid slot owner s H Hg) as H1.
  unfold Pool.release, sbind, sget. rewrite Hg. unfold Pool.on_authority, smodify. cbv beta iota.
  match goal with |- context [Pool.assign_slot slot ?x] => set (s1 := x) in * end.
  destruct (assign_slot_run slot s1 (waiters_requested _ _ _ H1)) as [cb ->].
  assert (Hav : s.(sp_available_slots) = []) by (destruct (ok_busy _ _ _ H); congruence).
  split; [done|]. split.
  { intros Ec. destruct (ok_slots _ _ _ H) as (lost & Hsl & Hlost). rewrite (Hlost Ec), Hav, app_nil_r in Hsl. simpl in Hsl.
    apply Permutation_length in Hsl. rewrite length_app, length_seqZ in Hsl. unfold active_slots in Hsl.
    rewrite length_map in Hsl. lia. }
  assert (Hst : state_at s1.(sp_heap) w = Some A_REQUESTED).
  { apply (waiters_requested _ _ _ H1). simpl. rewrite Hw. left. }
  unfold state_at in Hst. destruct (s1.(sp_heap) !! w) as [x|] eqn:Hx; [|done].
  assert (Ha : assigned slot s1 = s1 <| sp_waiters := rest |>
      <| sp_heap ::= alter (fun x => x <| au_ready_slot := Some slot |> <| au_state := A_READY |>) w |>).
  { unfold assigned. change s1.(sp_waiters) with s.(sp_waiters). by rewrite Hw. }
  rewrite Ha. assert (Hl : alter (fun x => x <| au_ready_slot := Some slot |> <| au_state := A_READY |>) w s1.(sp_heap) !! w
      = Some (x <| au_ready_slot := Some slot |> <| au_state := A_READY |>)) by (by rewrite list_lookup_alter_eq, Hx).
  unfold Pool.at_ref. destruct cb; simpl in *; rewrite Hl; by repeat split.
Qed.

(** ** Witnesses *)

(** One slot, two authorities: the second waits for the lease of the first. *)
Definition demo_pool_ops : list pool_op :=
  [PCreateAuthority; PCreateAuthority; PRequest 0 10; PTake 0 10 "lease"; PRequest 1 20].
Definition demo_pool : SlotPool :=
  fold_left (fun s op => pool_call op s) demo_pool_ops (MkPool "p" (seqZ 0 1) [] [] ∅ false [] []).

Lemma demo_pool_reachable : pool_reachable 1 demo_pool.
Proof.
  unfold demo_pool, demo_pool_ops. cbn [fold_left].
  repeat (apply pool_step; [|vm_compute; try exact I; try (by eexists); try (split; [by eexists | reflexivity])]).
  apply (pool_new 1 "p"). reflexivity.
Qed.

Lemma slots_exclusive_witness :
  demo_pool.(sp_closed) = false /\ demo_pool.(sp_available_slots) ++ [0] ≡ₚ seqZ 0 1.
Proof.
  split; [vm_compute; reflexivity|].
  exact (proj2 (proj2 (slots_exclusive 1 demo_pool demo_pool_reachable)) ltac:(vm_compute; reflexivity)).
Defined.

Lemma waiters_served_in_order_witness :
  (Pool.at_ref 1 (Pool.release "lease" demo_pool).2).(au_ready_slot) = Some 0.
Proof.
  refine (proj1 (proj2 (proj2 (waiters_served_in_order 1 demo_pool 1 [] "lease" 0 0 demo_pool_reachable _ _ _))));
    [lia | vm_compute; reflexivity | vm_compute; reflexivity].
Defined.
