(* ===== verification/TaskAdmissionProofs.v ===== *)
(** * The task admission controller: leases are neither lost nor taken twice

    [UdfAdmission.TaskCtl] against the driver: requests are made and then go
    out, their futures complete in any order and possibly after the controller
    has moved on, admissions are taken and the controller is closed, also
    between the two steps of a request.  The run is watched with four lists:
    the requests that have not gone out yet, those whose future completed,
    those that were granted a lease, and those whose lease was taken. *)

From S2P Require Import Prelude PyStr PyVal UdfAdmission.

#[local] Open Scope string_scope.
#[local] Open Scope list_scope.
#[local] Open Scope Z_scope.

Inductive ctl_op :=
| TRegisterWakeup (callback : N)
| TBegin (retained : Z)
| TSubmit (request_id : string) (request : list (pyval * pyval)) (submitted : result unit)
| TFinish (request_id : string) (outcome : result pyval)
| TTake (retained : Z)
| TClose.

Record CtlRun := MkRun {
  cr_ctl : Controller;
  cr_unsent : list (string * list (pyval * pyval));
  cr_finished : list string;
  cr_granted : list string;
  cr_taken : list string;
}.

(** The outcome of a future is a usable grant. *)
Definition grants (outcome : result pyval) : bool := is_ok (let* g := outcome in TaskCtl.granted_lease g).

Definition ctl_call (op : ctl_op) (r : CtlRun) : CtlRun :=
  let c := r.(cr_ctl) in
  match op with
  | TRegisterWakeup cb => MkRun (TaskCtl.register_wakeup cb c).2 r.(cr_unsent) r.(cr_finished) r.(cr_granted) r.(cr_taken)
  | TBegin n =>
      match TaskCtl.begin_request n c with
      | (Ok (Some x), c') => MkRun c' (x :: r.(cr_unsent)) r.(cr_finished) r.(cr_granted) r.(cr_taken)
      | (_, c') => MkRun c' r.(cr_unsent) r.(cr_finished) r.(cr_granted) r.(cr_taken)
      end
  | TSubmit rid req submitted =>
      MkRun (TaskCtl.submit_request rid req submitted c).2 (List.filter (fun x => negb (String.eqb x.1 rid)) r.(cr_unsent))
        r.(cr_finished) r.(cr_granted) r.(cr_taken)
  | TFinish rid outcome =>
      MkRun (TaskCtl.finish_request rid outcome c).2 r.(cr_unsent) (rid :: r.(cr_finished))
        (if grants outcome then rid :: r.(cr_granted) else r.(cr_granted)) r.(cr_taken)
  | TTake n =>
      match TaskCtl.take n c with
      | (Ok l, c') => MkRun c' r.(cr_unsent) r.(cr_finished) r.(cr_granted) (l.(al_request_id) :: r.(cr_taken))
      | (Raise _, c') => MkRun c' r.(cr_unsent) r.(cr_finished) r.(cr_granted) r.(cr_taken)
      end
  | TClose => MkRun (TaskCtl.close c).2 r.(cr_unsent) r.(cr_finished) r.(cr_granted) r.(cr_taken)
  end.

(** A request goes out once; a future belongs to a request that has gone out,
    and completes once. *)
Definition ctl_op_ok (op : ctl_op) (r : CtlRun) : Prop :=
  match op with
  | TSubmit rid req _ => (rid, req) ∈ r.(cr_unsent)
  | TFinish rid _ =>
      (rid ∉ r.(cr_finished)) /\ (rid ∉ map fst r.(cr_unsent)) /\
      exists k, 1 <= k <= r.(cr_ctl).(tc_sequence) /\ rid = TaskCtl.request_id_of r.(cr_ctl) k
  | _ => True
  end.

Inductive ctl_reachable : CtlRun -> Prop :=
| ctl_new payload resources executor c :
    TaskCtl.new payload resources executor = Ok c -> ctl_reachable (MkRun c [] [] [] [])
| ctl_step r op : ctl_reachable r -> ctl_op_ok op r -> ctl_reachable (ctl_call op r).

Definition cancelled (c : Controller) (rid : string) : Prop := CancelRequest rid ∈ c.(tc_calls).

(** ** The invariant *)

Record ctl_inv (r : CtlRun) : Prop := {
  ci_sequence : 0 <= r.(cr_ctl).(tc_sequence);
  ci_granted : forall rid, rid ∈ r.(cr_granted) ->
    cancelled r.(cr_ctl) rid \/ rid ∈ r.(cr_taken) \/
    (r.(cr_ctl).(tc_state) = T_READY /\ r.(cr_ctl).(tc_request_id) = rid);
  ci_issued : forall rid, rid ∈ r.(cr_finished) ->
    exists k, 1 <= k <= r.(cr_ctl).(tc_sequence) /\ rid = TaskCtl.request_id_of r.(cr_ctl) k;
  ci_current : r.(cr_ctl).(tc_state) = T_REQUESTED \/ r.(cr_ctl).(tc_state) = T_READY ->
    1 <= r.(cr_ctl).(tc_sequence) /\
    r.(cr_ctl).(tc_request_id) = TaskCtl.request_id_of r.(cr_ctl) r.(cr_ctl).(tc_sequence);
  ci_requested : r.(cr_ctl).(tc_state) = T_REQUESTED -> r.(cr_ctl).(tc_request_id) ∉ r.(cr_finished);
  ci_ready : r.(cr_ctl).(tc_state) = T_READY ->
    r.(cr_ctl).(tc_request_id) ∈ r.(cr_finished) /\ (r.(cr_ctl).(tc_request_id) ∉ r.(cr_taken)) /\
    ~ cancelled r.(cr_ctl) r.(cr_ctl).(tc_request_id) /\ is_Some r.(cr_ctl).(tc_ready_lease);
  ci_taken : NoDup r.(cr_taken) /\ forall rid, rid ∈ r.(cr_taken) ->
    rid ∈ r.(cr_finished) /\ ~ cancelled r.(cr_ctl) rid;
  ci_unsent : forall rid, rid ∈ map fst r.(cr_unsent) -> (rid ∉ r.(cr_finished)) /\
    (r.(cr_ctl).(tc_state) = T_CLOSED \/ r.(cr_ctl).(tc_state) = T_FAILED \/ (r.(cr_ctl).(tc_state) = T_REQUESTED /\ r.(cr_ctl).(tc_request_id) = rid));
  ci_cancelled : r.(cr_ctl).(tc_state) <> T_CLOSED -> r.(cr_ctl).(tc_state) <> T_FAILED ->
    forall rid, cancelled r.(cr_ctl) rid -> rid ∈ r.(cr_finished);
}.

Lemma request_id_inj c k k' :
  0 <= k -> 0 <= k' -> TaskCtl.request_id_of c k = TaskCtl.request_id_of c k' -> k = k'.
Proof.
  intros Hk Hk' H. unfold TaskCtl.request_id_of in H. repeat apply sapp_cancel_l in H. by apply str_of_int_inj.
Qed.

Lemma request_id_nonempty c k : String.eqb (TaskCtl.request_id_of c k) "" = false.
Proof. done. Qed.

Lemma cancelled_snoc c rid d :
  cancelled (c <| tc_calls ::= fun l => l ++ [d] |>) rid <-> cancelled c rid \/ d = CancelRequest rid.
Proof. unfold cancelled. simpl. rewrite elem_of_app, list_elem_of_singleton. intuition congruence. Qed.

Lemma new_ctl_inv payload resources executor c :
  TaskCtl.new payload resources executor = Ok c -> ctl_inv (MkRun c [] [] [] []).
Proof.
  unfold TaskCtl.new. intros H. inv_ok. split; unfold cancelled; simpl; try done; try set_solver.
  split; [constructor | set_solver].
Qed.

(** ** Every call keeps it *)

Lemma wake_frame cb c :
  exists l, (TaskCtl.wake cb c).2 = c <| tc_woken := l |>.
Proof. destruct cb; [by eexists|]. exists c.(tc_woken). by destruct c. Qed.

Lemma finish_inv r rid outcome :
  ctl_inv r -> ctl_op_ok (TFinish rid outcome) r -> ctl_inv (ctl_call (TFinish rid outcome) r).
Proof.
  intros [Hseq Hg Hi Hc Hq Hr [Hnd Ht] Hu Hx] (Hnew & Hsent & Hk). destruct r as [c us fin gr tk]; simpl in *.
  unfold grants, TaskCtl.finish_request, sbind at 1, sget.
  assert (Hu' : forall rid0, rid0 ∈ map fst us -> (rid0 ∉ rid :: fin) /\ (tc_state c = T_CLOSED \/ tc_state c = T_FAILED \/ (tc_state c = T_REQUESTED /\ tc_request_id c = rid0))).
  { intros rid0 Hin. destruct (Hu rid0 Hin) as [? ?]. split; [|done]. rewrite not_elem_of_cons. split; [|done]. intros ->. done. }
  destruct (bool_decide (tc_state c = T_REQUESTED) && String.eqb (tc_request_id c) rid) eqn:Hcur.
  - apply andb_true_iff in Hcur as [Hst Hid]. apply bool_decide_eq_true in Hst. apply String.eqb_eq in Hid.
    destruct (Hc (or_introl Hst)) as [Hs1 Hcur].
    assert (Hnone : forall rid0, rid0 ∉ map fst us).
    { intros rid0 Hin. destruct (Hu rid0 Hin) as [_ [E|[E|[_ E]]]]; congruence. }
    destruct (let* grant := outcome in TaskCtl.granted_lease grant) as [lease|e]; cbn [negb is_ok].
    + unfold sbind, smodify. destruct (wake_frame (tc_wakeup c) (c <| tc_request_pending := false |>
        <| tc_ready_lease := Some lease |> <| tc_state := T_READY |>)) as [l Hl]. rewrite Hl.
      split; unfold cancelled in *; simpl in *.
      * done.
      * intros rid0 [-> |Hin]%elem_of_cons; [by right; right|]. destruct (Hg rid0 Hin) as [?|[?|[E _]]]; [by left | by right; left | congruence].
      * intros rid0 [-> |Hin]%elem_of_cons; [exact Hk | exact (Hi rid0 Hin)].
      * done.
      * done.
      * intros _. rewrite Hid. split; [left|]. split; [intros Hin; by destruct (Ht rid Hin)|]. split; [|by eexists].
        intros Hin. apply Hnew. apply Hx; [congruence | congruence | done].
      * split; [done|]. intros rid0 Hin. destruct (Ht rid0 Hin). split; [by right | done].
      * intros rid0 Hin. by destruct (Hnone rid0).
      * intros _ _ rid0 Hin. right. apply Hx; [congruence | congruence | done].
    + unfold sbind, smodify. destruct (wake_frame (tc_wakeup c) (c <| tc_request_pending := false |>
        <| tc_state := T_FAILED |> <| tc_error := Some e |>)) as [l Hl]. rewrite Hl.
      split; unfold cancelled in *; simpl in *; try done.
      * intros rid0 Hin. destruct (Hg rid0 Hin) as [?|[?|[E _]]]; [by left | by right; left | congruence].
      * intros rid0 [-> |Hin]%elem_of_cons; [exact Hk | exact (Hi rid0 Hin)].
      * split; [done|]. intros rid0 Hin. destruct (Ht rid0 Hin). split; [by right | done].
      * intros rid0 Hin. by destruct (Hnone rid0).
  - assert (Hother : tc_state c = T_REQUESTED -> tc_request_id c <> rid).
    { intros Hst Hid. by rewrite bool_decide_true, Hid, String.eqb_refl in Hcur. }
    assert (Hready : tc_state c = T_READY -> tc_request_id c <> rid) by (intros Hst E; destruct (Hr Hst) as [Hf _]; by rewrite E in Hf).
    destruct (let* grant := outcome in TaskCtl.granted_lease grant) as [lease|e]; cbn [negb is_ok].
    + unfold TaskCtl.record_call, smodify. split; simpl; try done.
      * intros rid0 Hin. rewrite cancelled_snoc. apply elem_of_cons in Hin as [-> |Hin]; [by left; right|].
        destruct (Hg rid0 Hin) as [?|[?|?]]; auto.
      * intros rid0 [-> |Hin]%elem_of_cons; [exact Hk | exact (Hi rid0 Hin)].
      * intros Hst. rewrite not_elem_of_cons. auto.
      * intros Hst. rewrite cancelled_snoc. destruct (Hr Hst) as (? & ? & ? & ?). split; [by right|]. split; [done|].
        split; [|done]. intros [?|[= E]]; [done|]. by apply (Hready Hst).
      * split; [done|]. intros rid0 Hin. rewrite cancelled_snoc. destruct (Ht rid0 Hin) as [? ?]. split; [by right|].
        intros [?|[= <-]]; done.
      * intros Hst Hst' rid0. rewrite cancelled_snoc. intros [?|[= <-]]; [right; by apply Hx | left].
    + split; simpl; try done.
      * intros rid0 [-> |Hin]%elem_of_cons; [exact Hk | exact (Hi rid0 Hin)].
      * intros Hst. rewrite not_elem_of_cons. auto.
      * intros Hst. destruct (Hr Hst) as (? & ? & ? & ?). split; [by right | done].
      * split; [done|]. intros rid0 Hin. destruct (Ht rid0 Hin). split; [by right | done].
      * intros Hst Hst' rid0 Hin. right. by apply Hx.
Qed.

Lemma begin_inv r n : ctl_inv r -> ctl_inv (ctl_call (TBegin n) r).
Proof.
  intros H. destruct r as [c us fin gr tk]. simpl.
  unfold TaskCtl.begin_request, TaskCtl.raise_if_failed, sbind, sraise_if, slift, raise_if, sget. simpl.
  destruct (n <? 0); [exact H|]. destruct (bool_decide (tc_state c = T_FAILED)); [exact H|].
  destruct (bool_decide (tc_state c = T_CLOSED)); [exact H|].
  destruct (bool_decide (tc_state c = T_IDLE)) eqn:Hst; [|exact H]. apply bool_decide_eq_true in Hst. simpl.
  destruct H as [Hseq Hg Hi Hc Hq Hr [Hnd Ht] Hu Hx]; simpl in *.
  set (rid := TaskCtl.request_id_of c (tc_sequence c + 1)).
  assert (Hfresh : rid ∉ fin).
  { intros Hin. destruct (Hi rid Hin) as (k & Hk & E). apply request_id_inj in E; lia. }
  split; unfold cancelled in *; simpl; try done; try lia.
  - intros rid0 Hin. destruct (Hg rid0 Hin) as [?|[?|[E _]]]; [by left | by right; left | congruence].
  - intros rid0 Hin. destruct (Hi rid0 Hin) as (k & Hk & E). exists k. split; [lia | exact E].
  - intros _. split; [lia | done].
  - intros rid0 [-> |Hin]%elem_of_cons; [split; [exact Hfresh | by right; right]|]. destruct (Hu rid0 Hin) as [_ [E|[E|[E _]]]]; congruence.
  - intros _ _. apply Hx; congruence.
Qed.

Lemma submit_inv r rid req submitted :
  ctl_inv r -> ctl_op_ok (TSubmit rid req submitted) r -> ctl_inv (ctl_call (TSubmit rid req submitted) r).
Proof.
  intros [Hseq Hg Hi Hc Hq Hr [Hnd Ht] Hu Hx] Hin. destruct r as [c us fin gr tk]; simpl in *.
  assert (Hst : tc_state c <> T_READY) by (destruct (Hu rid) as [_ [E|[E|[E _]]]]; [apply list_elem_of_fmap; by exists (rid, req)|congruence..]).
  assert (Hcan : forall d rid0, CancelRequest rid0 ∈ tc_calls c ++ [AcquireLease d] <-> cancelled c rid0).
  { intros d rid0. unfold cancelled. rewrite elem_of_app, list_elem_of_singleton. intuition congruence. }
  assert (Hg' : forall rid0, rid0 ∈ gr -> cancelled c rid0 \/ rid0 ∈ tk).
  { intros rid0 Hin0. destruct (Hg rid0 Hin0) as [?|[?|[E _]]]; [by left | by right | congruence]. }
  assert (Hu' : forall rid0, rid0 ∈ map fst (List.filter (fun x => negb (String.eqb x.1 rid)) us) -> rid0 ∈ map fst us /\ rid0 <> rid).
  { intros rid0 (x & -> & [Hx1 Hx2%negb_true_iff%String.eqb_neq]%list_elem_of_In%filter_In)%list_elem_of_fmap. split; [|done].
    apply list_elem_of_fmap. exists x. split; [done|]. by apply list_elem_of_In. }
  unfold TaskCtl.submit_request, TaskCtl.record_call, sbind, smodify. destruct submitted as [[]|e]; simpl.
  - assert (Hbase : ctl_inv (MkRun (c <| tc_calls ::= fun l => l ++ [AcquireLease req] |>)
      (List.filter (fun x => negb (String.eqb x.1 rid)) us) fin gr tk)).
    { split; unfold cancelled; simpl; try done.
      - intros rid0 Hin0. rewrite Hcan. destruct (Hg' rid0 Hin0); auto.
      - split; [done|]. intros rid0 Hin0. rewrite Hcan. by apply Ht.
      - intros rid0 [Hin0 _]%Hu'. by apply Hu.
      - intros H1 H2 rid0. rewrite Hcan. by apply Hx. }
    destruct (bool_decide (tc_state c = T_REQUESTED) && String.eqb (tc_request_id c) rid); [|exact Hbase]. by destruct Hbase.
  - split; unfold cancelled; simpl; try done.
    + intros rid0 Hin0. rewrite Hcan. destruct (Hg' rid0 Hin0); auto.
    + intros [?|?]; discriminate.
    + split; [done|]. intros rid0 Hin0. rewrite Hcan. by apply Ht.
    + intros rid0 [Hin0 _]%Hu'. split; [by apply Hu | by right; left].
Qed.

Lemma take_inv r n : ctl_inv r -> ctl_inv (ctl_call (TTake n) r).
Proof.
  intros H. destruct r as [c us fin gr tk]. simpl.
  unfold TaskCtl.take, TaskCtl.raise_if_failed, sbind, sraise_if, slift, raise_if, sget.
  destruct (bool_decide (tc_state c = T_FAILED)); [exact H|].
  destruct (bool_decide (tc_state c = T_READY)) eqn:Hst; [|exact H]. apply bool_decide_eq_true in Hst.
  destruct (tc_ready_lease c) as [lease|] eqn:Hl; [|exact H].
  destruct (negb (n =? tc_retained_input_bytes c)); [exact H|]. unfold smodify, sret.
  destruct H as [Hseq Hg Hi Hc Hq Hr [Hnd Ht] Hu Hx]; simpl in *. destruct (Hr Hst) as (Hf & Hnt & Hnc & _).
  split; unfold cancelled in *; simpl; try done.
  - intros rid0 Hin. destruct (Hg rid0 Hin) as [?|[?|[_ <-]]]; [by left | by right; left; right | by right; left; left].
  - intros [?|?]; discriminate.
  - split; [by constructor|]. intros rid0 [-> |Hin]%elem_of_cons; [done | by apply Ht].
  - intros rid0 Hin. destruct (Hu rid0 Hin) as [_ [E|[E|[E _]]]]; congruence.
  - intros _ _. apply Hx; congruence.
Qed.

Lemma close_inv r : ctl_inv r -> ctl_inv (ctl_call TClose r).
Proof.
  intros H. destruct r as [c us fin gr tk]. simpl. unfold TaskCtl.close, sbind, sget, smodify.
  destruct (bool_decide (tc_state c = T_CLOSED)); [exact H|].
  destruct H as [Hseq Hg Hi Hc Hq Hr [Hnd Ht] Hu Hx]; simpl in *.
  assert (Hu' : forall rid0, rid0 ∈ map fst us -> (rid0 ∉ fin) /\ (T_CLOSED = T_CLOSED \/ T_CLOSED = T_FAILED \/ (T_CLOSED = T_REQUESTED /\ "" = rid0))).
  { intros rid0 Hin. destruct (Hu rid0 Hin) as [? _]. split; [done | by left]. }
  destruct (bool_decide (tc_state c = T_REQUESTED) || bool_decide (tc_state c = T_READY)) eqn:Hlive.
  - assert (Hst : tc_state c = T_REQUESTED \/ tc_state c = T_READY).
    { apply orb_true_iff in Hlive as [E|E]; apply bool_decide_eq_true in E; auto. }
    destruct (Hc Hst) as [_ Hcur].
    assert (Hne : String.eqb (tc_request_id c) "" = false) by (rewrite Hcur; apply request_id_nonempty).
    cbv beta iota. rewrite Hne.
    assert (Hnt : tc_request_id c ∉ tk).
    { intros Hin. destruct (Ht _ Hin) as [Hf _]. destruct Hst as [E|E]; [by apply (Hq E) | by destruct (Hr E) as (_ & ? & _)]. }
    unfold TaskCtl.record_call, smodify. split; simpl; try done.
    + intros rid0 Hin. rewrite cancelled_snoc. destruct (Hg rid0 Hin) as [?|[?|[_ <-]]]; auto.
    + intros [?|?]; discriminate.
    + split; [done|]. intros rid0 Hin. rewrite cancelled_snoc. destruct (Ht rid0 Hin) as [? Hn]. split; [done|].
      intros [?|[= E]]; [done | congruence].
  - simpl. apply orb_false_iff in Hlive as [_ E]. apply bool_decide_eq_false in E. split; simpl; try done.
    + intros rid0 Hin. destruct (Hg rid0 Hin) as [?|[?|[? _]]]; [by left | by right; left | done].
    + intros [?|?]; discriminate.
Qed.

Lemma ctl_reachable_inv r : ctl_reachable r -> ctl_inv r.
Proof.
  induction 1 as [payload resources executor c H|r op Hr IH Hop]; [by eapply new_ctl_inv|].
  destruct op; [|by apply begin_inv | by apply submit_inv | by apply finish_inv | by apply take_inv | by apply close_inv].
  destruct IH. destruct r. by split.
Qed.

(** C34: no granted lease leaks.  Whatever the order of requests, of their
    submission to the driver, completions, takes and closing, every request that was granted a lease
    has been taken by the executor, or its cancellation was sent to the
    driver, or its lease is the one now ready to be taken; after closing
    only the first two remain. *)
Theorem no_lease_leaks r rid :
  ctl_reachable r -> rid ∈ r.(cr_granted) ->
  (cancelled r.(cr_ctl) rid \/ rid ∈ r.(cr_taken) \/
   (r.(cr_ctl).(tc_state) = T_READY /\ r.(cr_ctl).(tc_request_id) = rid /\ is_Some r.(cr_ctl).(tc_ready_lease))) /\
  (r.(cr_ctl).(tc_state) = T_CLOSED -> cancelled r.(cr_ctl) rid \/ rid ∈ r.(cr_taken)).
Proof.
  intros H%ctl_reachable_inv Hin. destruct (ci_granted _ H rid Hin) as [?|[?|[Hst Hid]]].
  - split; [by left|]. by left.
  - split; [by right; left|]. by right.
  - split; [|congruence]. right; right. destruct (ci_ready _ H Hst) as (_ & _ & _ & ?). by split_and!.
Qed.

(** An admission is taken at most once, and the controller never
    cancels a request whose lease the executor has taken, even when late
    completions of other requests arrive. *)
Theorem taken_lease_is_kept r :
  ctl_reachable r ->
  NoDup r.(cr_taken) /\ forall rid, rid ∈ r.(cr_taken) -> ~ cancelled r.(cr_ctl) rid.
Proof.
  intros H%ctl_reachable_inv. destruct (ci_taken _ H) as [Hnd Ht]. split; [exact Hnd|].
  intros rid Hin. by apply Ht.
Qed.

(** ** Witnesses *)

Definition demo_payload : list (pyval * pyval) := pd_lit [("query_id", PStr "q"); ("stage_id", PStr "s")].
Definition demo_grant : result pyval :=
  Ok (PDict (pd_lit [("granted", PBool true); ("lease", PDict (pd_lit [("lease_id", PStr "L")]))])).
Definition demo_controller : Controller :=
  MkController "q" "s" PNone "x" 0 T_IDLE "" 0 false None None None [] [].
Definition demo_rid (k : Z) : string := TaskCtl.request_id_of demo_controller k.

Definition demo_request (k retained : Z) : list (pyval * pyval) :=
  TaskCtl.build_request (demo_controller <| tc_sequence := k |>) retained.

(** The first request is granted and taken; the controller is closed before
    the second one goes out, which is granted nevertheless. *)
Definition demo_history : list ctl_op :=
  [TBegin 8; TSubmit (demo_rid 1) (demo_request 1 8) (Ok tt); TFinish (demo_rid 1) demo_grant; TTake 8;
   TBegin 4; TClose; TSubmit (demo_rid 2) (demo_request 2 4) (Ok tt); TFinish (demo_rid 2) demo_grant].
Definition demo_run_end : CtlRun :=
  fold_left (fun r op => ctl_call op r) demo_history (MkRun demo_controller [] [] [] []).

Lemma demo_ctl_reachable : ctl_reachable demo_run_end.
Proof.
  unfold demo_run_end, demo_history. cbn [fold_left].
  apply ctl_step; [apply ctl_step; [apply ctl_step; [apply ctl_step; [apply ctl_step; [apply ctl_step; [apply ctl_step; [apply ctl_step|]|]|]|]|]|]|].
  - by apply (ctl_new demo_payload PNone "x").
  - exact I.
  - vm_compute. left.
  - split; [set_solver|]. split; [vm_compute; set_solver|]. exists 1. split; [vm_compute; split; discriminate | reflexivity].
  - exact I.
  - exact I.
  - exact I.
  - vm_compute. left.
  - split; [apply (bool_decide_unpack _); vm_compute; exact I|]. split; [vm_compute; set_solver|].
    exists 2. split; [vm_compute; split; discriminate | reflexivity].
Qed.

Lemma no_lease_leaks_witness :
  demo_run_end.(cr_ctl).(tc_state) = T_CLOSED /\
  (cancelled demo_run_end.(cr_ctl) (demo_rid 2) \/ demo_rid 2 ∈ demo_run_end.(cr_taken)).
Proof.
  assert (Hc : demo_run_end.(cr_ctl).(tc_state) = T_CLOSED) by (vm_compute; reflexivity).
  split; [exact Hc|]. refine (proj2 (no_lease_leaks demo_run_end (demo_rid 2) demo_ctl_reachable _) Hc).
  apply (bool_decide_unpack _). vm_compute. exact I.
Defined.

Lemma taken_lease_is_kept_witness :
  demo_rid 1 ∈ demo_run_end.(cr_taken) /\ ~ cancelled demo_run_end.(cr_ctl) (demo_rid 1).
Proof.
  assert (Hin : demo_rid 1 ∈ demo_run_end.(cr_taken)) by (apply (bool_decide_unpack _); vm_compute; exact I).
  split; [exact Hin|]. exact (proj2 (taken_lease_is_kept demo_run_end demo_ctl_reachable) _ Hin).
Defined.
