(* ===== verification/WorkerTask.v ===== *)
(** * A task attempt on a worker ([duckdb/runners/fte/fte_worker_runtime.py])

    [FteTaskExecution], the state a worker keeps for one task attempt: the
    splits it was given, its versioned status, its result, and the coroutine
    [_run] as a state machine over its suspension points.  The native split
    queues ([duckdb.ray_cxx.FteSplitQueue]), the attributes of a native
    result, the text of a traceback and the files of a spooled output are
    outside this code: they are the operations of [WorkerEnv].  Timestamps
    and debug logging are left out. *)

From S2P Require Import Prelude PyStr PyVal FteTypes FteState Exchange OutputBuffers Descriptor.

#[local] Open Scope string_scope.
#[local] Open Scope list_scope.
#[local] Open Scope Z_scope.

(** ** What the runtime asks of its surroundings *)

(** The calls made on a native split queue, and the counters read from it. *)
Inductive sq_call :=
| QAddScan (data : pyval)
| QAddExchange (data : pyval)
| QNoMore
| QCancel
| QComplete.

Inductive sq_counter :=
  CSubmitted | CBuffered | CBufferedBytes | CConsumed | CCompleted | CSubmittedRows | CSubmittedBytes
| CConsumedRows | CConsumedBytes | CCompletedRows | CCompletedBytes | CQueueWaitMs.

Class WorkerEnv := {
  sq : Type;
  sq_new : sq;
  sq_do : sq_call -> sq -> result sq;
  sq_read : sq_counter -> sq -> result Z;
  sq_has_wait_ms : sq -> bool;
  native_attr : pyval -> string -> pyval;       (* [getattr(v, name, None)] *)
  traceback_text : exn -> string;
  spooling_output_stats : pyval -> result pyval; (* [collect_spooling_output_stats] *)
}.

(** ** Memory requirement of a request *)

Definition explicit_keys : list string := ["memory_requirement_bytes"; "required_memory_bytes"].
Definition resource_keys : list string := explicit_keys ++ ["memory_bytes"].

(** The first value under [keys] that is not [None]. *)
Fixpoint first_not_none (keys : list string) (d : list (pyval * pyval)) : option pyval :=
  match keys with
  | [] => None
  | k :: keys => if is_none (pd_get k d) then first_not_none keys d else Some (pd_get k d)
  end.

Definition positive_requirement (value : pyval) : result Z :=
  match py_int value with
  | Raise _ => Raise (ValueError ("invalid FTE memory requirement " +:+ py_repr value))
  | Ok parsed =>
      if parsed <=? 0 then Raise (ValueError "FTE memory requirement must be positive") else Ok parsed
  end.

(** The requirement stated in the request itself, in the order of the code. *)
Definition stated_requirement (request : list (pyval * pyval)) : option pyval :=
  match first_not_none explicit_keys request with
  | Some v => Some v
  | None =>
      match pd_get "resource_request" request with
      | PDict r => first_not_none resource_keys r
      | _ => None
      end
  end.

Definition memory_requirement_from_request (request : list (pyval * pyval)) (default_bytes : option Z)
    : result Z :=
  match stated_requirement request with
  | Some v => positive_requirement v
  | None =>
      match default_bytes with
      | Some n => if n <=? 0 then Raise (RuntimeError "FTE task requires a positive memory requirement") else Ok n
      | None => Raise (RuntimeError "FTE task requires a positive memory requirement")
      end
  end.

Definition has_explicit_memory_requirement (request : list (pyval * pyval)) : bool :=
  existsb (fun k => negb (is_none (pd_get k request))) explicit_keys ||
  match pd_get "resource_request" request with
  | PDict r => existsb (fun k => negb (is_none (pd_get k r))) resource_keys
  | _ => false
  end.

(** [str(lease.get(k) or "").strip()] *)
Definition lease_field (lease : list (pyval * pyval)) (k : string) : string :=
  strip (py_str (py_or (pd_get k lease) (PStr ""))).

Definition lease_identity : list string :=
  ["lease_id"; "query_id"; "execution_query_id"; "stage_id"; "attempt_id"].

Definition query_task_lease_heap_bytes (request : list (pyval * pyval)) (required : bool) : result (option Z) :=
  match pd_get "query_task_lease" request with
  | PDict lease =>
      let* task := TaskAttemptId.coerce (RVal (pd_get "task_id" request)) in
      let missing := List.filter (fun k => String.eqb (lease_field lease k) "") lease_identity in
      let* _ := raise_if (negb (bool_decide (length missing = O)))
        (RuntimeError ("Ray FTE query_task_lease is missing " +:+ comma_join missing)) in
      let* _ := raise_if (negb (String.eqb (lease_field lease "execution_query_id") task.(task_id).(query_id)))
        (RuntimeError "Ray FTE query_task_lease execution_query_id does not match task") in
      let* _ := raise_if (negb (String.eqb (lease_field lease "attempt_id") (TaskAttemptId.to_str task)))
        (RuntimeError "Ray FTE query_task_lease attempt_id does not match task") in
      match pd_get "resources" lease with
      | PDict resources =>
          let* heap_bytes := py_int (py_or (pd_get "heap_bytes" resources) (PInt 0)) in
          let* _ := raise_if (heap_bytes <=? 0) (RuntimeError "Ray FTE query_task_lease heap_bytes must be positive") in
          let* explicit := if has_explicit_memory_requirement request
                           then let* n := memory_requirement_from_request request None in Ok (Some n)
                           else Ok None in
          let* _ := raise_if (match explicit with Some n => negb (n =? heap_bytes) | None => false end)
            (RuntimeError ("Ray FTE memory requirement diverges from query task lease: request="
              +:+ str_of_int (default 0 explicit) +:+ " lease=" +:+ str_of_int heap_bytes)) in
          Ok (Some heap_bytes)
      | _ => Raise (RuntimeError "Ray FTE query_task_lease resources must be a mapping")
      end
  | _ => if required then Raise (RuntimeError "Ray FTE task requires query_task_lease") else Ok None
  end.

Section Worker.
Context {Env : WorkerEnv}.

(** ** Status *)

(** [type(exc).__name__] and [str(exc)] *)
Definition exn_parts (e : exn) : string * string :=
  match e with
  | ValueError m => ("ValueError", m)
  | RuntimeError m => ("RuntimeError", m)
  | KeyError m => ("KeyError", m)
  | TypeError m => ("TypeError", m)
  | IndexError m => ("IndexError", m)
  | AttributeError m => ("AttributeError", m)
  | OverflowError m => ("OverflowError", m)
  | ZeroDivisionError m => ("ZeroDivisionError", m)
  | NotImplementedError => ("NotImplementedError", "")
  | WorkerReservationUnavailable => ("WorkerReservationUnavailable", "")
  | WorkerControlFailure w m => ("WorkerControlFailure", w +:+ m)
  end.

Definition failure_payload (e : exn) : pyval :=
  let '(type_name, message) := exn_parts e in
  PDict (pd_lit [("type", PStr type_name); ("message", PStr message); ("traceback", PStr (traceback_text e))]).

(** [FteTaskState.value] *)
Definition task_state_value (s : FteTaskState) : string :=
  match s with
  | PLANNED => "PLANNED" | QUEUED => "QUEUED" | RUNNING => "RUNNING" | FINISHED => "FINISHED"
  | FAILED => "FAILED" | CANCELED => "CANCELED" | ABORTED => "ABORTED"
  end.

Record TaskStatus := MkStatus {
  ts_task_id : FteTaskAttemptId;
  ts_state : FteTaskState;
  ts_version : Z;
  ts_failure : pyval;
  ts_duplicate_split_count : Z;
  ts_output_stats : pyval;
  ts_task_stats : list (pyval * pyval);
}.
#[export] Instance TaskStatus_eta : Eta TaskStatus :=
  fun r => MkStatus r.(ts_task_id) r.(ts_state) r.(ts_version) r.(ts_failure)
    r.(ts_duplicate_split_count) r.(ts_output_stats) r.(ts_task_stats).

Definition new_status (task : FteTaskAttemptId) : TaskStatus := MkStatus task PLANNED 0 PNone 0 PNone [].

Definition status_to_dict (s : TaskStatus) : list (pyval * pyval) :=
  pd_lit (
    [("task_id", PDict (TaskAttemptId.to_dict s.(ts_task_id)));
     ("task_id_string", PStr (TaskAttemptId.to_str s.(ts_task_id)));
     ("state", PStr (task_state_value s.(ts_state))); ("version", PInt s.(ts_version));
     ("failure", s.(ts_failure)); ("duplicate_split_count", PInt s.(ts_duplicate_split_count));
     ("spooling_output_stats", s.(ts_output_stats))]
    ++ match s.(ts_task_stats) with [] => [] | d => [("task_stats", PDict d)] end).

(** ** The attempt *)

(** Where [_run] is: not started by the event loop yet, suspended in
    [_wait_for_fte_splits_sealed], suspended in [execute_fn], or over. *)
Inductive run_phase := Ready | WaitingSplits | Executing | Done.

#[export] Instance run_phase_eq_dec : EqDecision run_phase.
Proof. solve_decision. Defined.

(** The [asyncio] task of [_run]: its phase, whether [cancel] was requested
    on it, and whether the manager's done callback is still to run. *)
Record Future := MkFuture { fu_phase : run_phase; fu_cancel : bool; fu_callback : bool }.
#[export] Instance Future_eta : Eta Future := fun r => MkFuture r.(fu_phase) r.(fu_cancel) r.(fu_callback).

Record FteTaskExecution := MkExecution {
  x_request : list (pyval * pyval);
  x_task_id : FteTaskAttemptId;
  x_initial_splits : list (string * list FteSplit);
  x_no_more : gset string;
  x_output_buffers : option (list (pyval * pyval));
  x_domains : list (pyval * pyval);
  x_descriptor_version : Z;
  x_fte_runtime : bool;
  x_exchange_ids : gset string;
  x_scan_ids : gset string;
  x_scan_queues : gmap string sq;
  x_exchange_queues : gmap string sq;
  x_seen : gmap string (gset Z);
  x_status : TaskStatus;
  x_last_queue_status : list (pyval * pyval);
  x_result : pyval;
  x_release_count : Z;
  x_future : option Future;
  x_split_event : bool;                 (* [_split_update_event] *)
  x_notify : bool;                      (* a [_notify_status_waiters] task is scheduled *)
  x_waiters : list Z;                   (* [min_version] of the calls inside [_status_condition.wait()] *)
  x_execution_started : bool;
  x_max_buffered_splits : Z;
  x_memory_requirement_bytes : Z;
}.
#[export] Instance FteTaskExecution_eta : Eta FteTaskExecution :=
  fun r => MkExecution r.(x_request) r.(x_task_id) r.(x_initial_splits) r.(x_no_more)
    r.(x_output_buffers) r.(x_domains) r.(x_descriptor_version) r.(x_fte_runtime) r.(x_exchange_ids)
    r.(x_scan_ids) r.(x_scan_queues) r.(x_exchange_queues) r.(x_seen) r.(x_status)
    r.(x_last_queue_status) r.(x_result) r.(x_release_count) r.(x_future) r.(x_split_event)
    r.(x_notify) r.(x_waiters) r.(x_execution_started) r.(x_max_buffered_splits)
    r.(x_memory_requirement_bytes).

Definition x_state (x : FteTaskExecution) : FteTaskState := x.(x_status).(ts_state).
Definition x_terminal (x : FteTaskExecution) : bool := terminal_state (x_state x).

(** [_add_split_to_dynamic_queue] *)
Definition add_split_to_dynamic_queue (q : sq) (split : FteSplit) (expected_kind : string) : result sq :=
  let* _ := raise_if (negb (String.eqb split.(kind) expected_kind))
    (ValueError ("dynamic " +:+ expected_kind +:+ " queues only accept " +:+ expected_kind +:+ " splits")) in
  let data := match as_str split.(data) with Some s => PBytes s | None => split.(data) end in
  if String.eqb expected_kind "scan_task" then sq_do (QAddScan data) q
  else if String.eqb expected_kind "exchange_source_task" then sq_do (QAddExchange data) q
  else Raise (ValueError ("unsupported dynamic split kind: " +:+ expected_kind)).

(** [_create_dynamic_source_queues] *)
Definition create_dynamic_source_queues (expected_kind : string) (source_ids : gset string)
    (initial : list (string * list FteSplit)) (no_more : gset string) : result (gmap string sq) :=
  rfoldM (fun queues '(source, splits) =>
      match queues !! source with
      | None => Ok queues
      | Some q =>
          let* q := rfoldM (fun q s => add_split_to_dynamic_queue q s expected_kind) q splits in
          let* q := if bool_decide (source ∈ no_more) then sq_do QNoMore q else Ok q in
          Ok (<[source := q]> queues)
      end)
    (gset_to_gmap sq_new source_ids) initial.

Definition initial_output_buffers (request : list (pyval * pyval)) : result (option (list (pyval * pyval))) :=
  match UpdateRequest.first_key ["output_buffers"; "outputIds"; "output_buffer_update"] request with
  | Some v => normalize_output_buffers (py_or v (PDict []))
  | None => Ok None
  end.

Definition initial_dynamic_filter_domains (request : list (pyval * pyval)) : result (list (pyval * pyval)) :=
  match UpdateRequest.first_key ["dynamic_filter_domains"; "dynamicFilterDomains"; "dynamic_filters"] request with
  | Some v => dict_or_empty v
  | None => Ok []
  end.

(** [FteTaskExecution.__init__]; [env_max] is the environment's
    [VANE_FTE_SPLIT_QUEUE_MAX_BUFFERED_SPLITS]. *)
Definition new_execution (env_max : option string) (require_query_task_lease : bool)
    (default_task_memory_bytes : option Z) (request : list (pyval * pyval)) : result FteTaskExecution :=
  let* id := pd_index "task_id" request in
  let* task := TaskAttemptId.coerce (RVal id) in
  let* wire := dict_or_empty (pd_get "initial_splits" request) in
  let* wire := UpdateRequest.wire_splits wire in
  let* initial := normalize_initial_splits wire in
  let* no_more := names_of (pd_get "no_more_splits" request) in
  let* buffers := initial_output_buffers request in
  let* domains := initial_dynamic_filter_domains request in
  let* version := py_int (py_or (pd_get "descriptor_version" request) (PInt 0)) in
  let request := match buffers with Some b => pd_set "output_buffers" (PDict b) request | None => request end in
  let request := match domains with [] => request | d => pd_set "dynamic_filter_domains" (PDict d) request end in
  let* exchange_ids := names_of (py_or (pd_get "dynamic_exchange_source_node_ids" request)
                                       (pd_get "exchange_source_node_ids" request)) in
  let* scan_ids := names_of (py_or (pd_get "dynamic_scan_source_node_ids" request)
                                   (pd_get "scan_source_node_ids" request)) in
  let* scan_queues := create_dynamic_source_queues "scan_task" scan_ids initial no_more in
  let* exchange_queues := create_dynamic_source_queues "exchange_source_task" exchange_ids initial no_more in
  let* max_buffered := py_int (py_or (pd_get "split_queue_max_buffered_splits" request)
                                     (PInt (fte_split_queue_max_buffered_splits env_max))) in
  let* leased := query_task_lease_heap_bytes request require_query_task_lease in
  let* memory := match leased with
                 | Some n => Ok n
                 | None => memory_requirement_from_request request default_task_memory_bytes
                 end in
  Ok {| x_request := request; x_task_id := task; x_initial_splits := initial; x_no_more := no_more;
        x_output_buffers := buffers; x_domains := domains; x_descriptor_version := version;
        x_fte_runtime := py_eqb (pd_get "worker_runtime" request) (PStr "fte");
        x_exchange_ids := exchange_ids; x_scan_ids := scan_ids; x_scan_queues := scan_queues;
        x_exchange_queues := exchange_queues;
        x_seen := list_to_map (map (fun '(s, l) => (s, list_to_set (map sequence_id l))) initial);
        x_status := new_status task; x_last_queue_status := []; x_result := PNone; x_release_count := 0;
        x_future := None; x_split_event := false; x_notify := false; x_waiters := [];
        x_execution_started := false; x_max_buffered_splits := max_buffered;
        x_memory_requirement_bytes := memory |}.

(** ** Status changes *)

(** The state change of [_transition]: a terminal state stays.  The result
    tells whether the change is to be published; [on_loop] is whether the
    call runs on the event loop, where the waiters are notified. *)
Definition set_state (on_loop : bool) (state : FteTaskState) (failure : pyval) : ST FteTaskExecution bool :=
  let! x := sget in
  if x_terminal x then sret false
  else
    let! _ := smodify (fun x =>
      x <| x_status ::= fun s => s <| ts_state := state |> <| ts_failure := failure |>
                                   <| ts_version ::= fun v => v + 1 |> |>
        <| x_notify ::= orb on_loop |>) in
    sret true.

(** The version bump that ends [add_splits], [update_task] and
    [no_more_splits]. *)
Definition bump_version : ST FteTaskExecution unit :=
  smodify (fun x =>
    x <| x_status ::= fun s => s <| ts_version ::= fun v => v + 1 |> |>
      <| x_split_event := true |> <| x_notify := true |>).

(** ** Split queue status *)

(** [{**scan_queues, **exchange_queues}] *)
Definition queues_by_source (x : FteTaskExecution) : gmap string sq := x.(x_exchange_queues) ∪ x.(x_scan_queues).

(** [{s: int(queues[s].counter()) for s in sources}], for the sources that
    have a queue. *)
Definition read_counters (c : sq_counter) (x : FteTaskExecution) (sources : list string)
    : result (list (string * Z)) :=
  rfoldM (fun acc s =>
      match queues_by_source x !! s with
      | None => Ok acc
      | Some q => let* n := sq_read c q in Ok (acc ++ [(s, n)])
      end) [] sources.

Definition sum_counters (l : list (string * Z)) : Z := foldr Z.add 0 (map snd l).
Definition by_source (l : list (string * Z)) : pyval := PDict (pd_lit (map (fun kv => (kv.1, PInt kv.2)) l)).

Definition split_queue_status (x : FteTaskExecution) : result (list (pyval * pyval)) :=
  let sources := sorted_names (dom (queues_by_source x)) in
  let* submitted := read_counters CSubmitted x (sorted_str (od_keys x.(x_initial_splits))) in
  let* buffered := read_counters CBuffered x sources in
  let* buffered_bytes := read_counters CBufferedBytes x sources in
  let* consumed := read_counters CConsumed x (map fst submitted) in
  let* completed := read_counters CCompleted x sources in
  let* submitted_rows := read_counters CSubmittedRows x sources in
  let* submitted_bytes := read_counters CSubmittedBytes x sources in
  let* consumed_rows := read_counters CConsumedRows x sources in
  let* consumed_bytes := read_counters CConsumedBytes x sources in
  let* completed_rows := read_counters CCompletedRows x sources in
  let* completed_bytes := read_counters CCompletedBytes x sources in
  let* wait_ms := read_counters CQueueWaitMs x
    (List.filter (fun s => match queues_by_source x !! s with Some q => sq_has_wait_ms q | None => false end) sources) in
  let total l := PInt (sum_counters l) in
  Ok (pd_lit
    [("submitted_split_count", total submitted); ("submitted_split_count_by_source", by_source submitted);
     ("queued_split_count", total buffered); ("unacknowledged_split_count", total buffered);
     ("queued_split_count_by_source", by_source buffered);
     ("consumed_split_count", total consumed); ("consumed_split_count_by_source", by_source consumed);
     ("completed_split_count", total completed); ("completed_split_count_by_source", by_source completed);
     ("submitted_split_bytes", total submitted_bytes); ("submitted_split_bytes_by_source", by_source submitted_bytes);
     ("queued_split_bytes", total buffered_bytes); ("queued_split_bytes_by_source", by_source buffered_bytes);
     ("consumed_split_bytes", total consumed_bytes); ("consumed_split_bytes_by_source", by_source consumed_bytes);
     ("completed_split_bytes", total completed_bytes); ("completed_split_bytes_by_source", by_source completed_bytes);
     ("queue_wait_ms", total wait_ms); ("queue_wait_ms_by_source", by_source wait_ms);
     ("submitted_input_rows", total submitted_rows); ("submitted_input_rows_by_source", by_source submitted_rows);
     ("submitted_input_bytes", total submitted_bytes); ("submitted_input_bytes_by_source", by_source submitted_bytes);
     ("consumed_input_rows", total consumed_rows); ("consumed_input_rows_by_source", by_source consumed_rows);
     ("consumed_input_bytes", total consumed_bytes); ("consumed_input_bytes_by_source", by_source consumed_bytes);
     ("completed_input_rows", total completed_rows); ("completed_input_rows_by_source", by_source completed_rows);
     ("completed_input_bytes", total completed_bytes); ("completed_input_bytes_by_source", by_source completed_bytes);
     ("queued_split_weight", total buffered); ("queued_split_weight_by_source", by_source buffered);
     ("split_queue_max_buffered_splits", PInt x.(x_max_buffered_splits));
     ("split_queue_has_space", PBool (sum_counters buffered <? x.(x_max_buffered_splits)))]).

(** [_refresh_split_queue_status] *)
Definition refresh_split_queue_status : ST FteTaskExecution (list (pyval * pyval)) :=
  let! x := sget in
  let! status := slift (split_queue_status x) in
  let! _ := smodify (fun x => x <| x_last_queue_status := status |>) in
  sret status.

Definition buffers_value (b : option (list (pyval * pyval))) : pyval :=
  match b with Some d => PDict d | None => PNone end.

Definition status_payload : ST FteTaskExecution (list (pyval * pyval)) :=
  let! x := sget in
  let status := status_to_dict x.(x_status) in
  let! queue_status := if x_terminal x
    then scatch refresh_split_queue_status (fun _ => true) (fun _ => sgets x_last_queue_status)
    else refresh_split_queue_status in
  let status := pd_update status queue_status in
  let status := pd_set "memory_requirement_bytes" (PInt x.(x_memory_requirement_bytes)) status in
  let! buffer_status := slift (output_buffer_status (buffers_value x.(x_output_buffers))) in
  let status := match buffer_status with
                | Some b => pd_set "output_buffer_status" (PDict b) status
                | None => status
                end in
  sret (if bool_decide (x_state x = FINISHED) then pd_set "result" x.(x_result) status else status).

(** [_source_buffered_splits] and [_source_buffered_bytes] are this reading
    of one source, or the sum over all. *)
Definition source_buffered (c : sq_counter) (x : FteTaskExecution) (source : option string) : result Z :=
  match source with
  | Some s => match queues_by_source x !! s with None => Ok 0 | Some q => sq_read c q end
  | None => let* l := read_counters c x (elements (dom (queues_by_source x))) in Ok (sum_counters l)
  end.

(** One pass through the loop of [wait_split_queue_has_space]: its answer, or
    [None] to sleep and look again; [expired] is whether the deadline passed. *)
Definition poll_split_queue (source : option string) (max_buffered : option Z) (expired : bool)
    : ST FteTaskExecution (option (list (pyval * pyval))) :=
  let! x := sget in
  let limit := match max_buffered with Some n => Z.max 1 n | None => x.(x_max_buffered_splits) end in
  let! buffered := slift (source_buffered CBuffered x source) in
  let! buffered_bytes := slift (source_buffered CBufferedBytes x source) in
  let has_space := (buffered <? limit) || x_terminal x in
  if has_space || expired then
    let! status := status_payload in
    sret (Some (pd_lit [("has_space", PBool has_space); ("buffered_splits", PInt buffered);
                        ("buffered_bytes", PInt buffered_bytes); ("max_buffered_splits", PInt limit);
                        ("status", PDict status)]))
  else sret None.

(** ** Waiting for a status *)

(** The loop condition of [wait_status_after]. *)
Definition should_wait (x : FteTaskExecution) (min_version : Z) : bool :=
  (x.(x_status).(ts_version) <=? min_version) && negb (x_terminal x).

(** A call of [wait_status_after] up to its first suspension, [None], or its
    answer. *)
Definition wait_status_after (min_version : option Z) : ST FteTaskExecution (option (list (pyval * pyval))) :=
  let min_version := default (-1) min_version in
  let! x := sget in
  if should_wait x min_version then
    let! _ := smodify (fun x => x <| x_waiters ::= cons min_version |>) in sret None
  else
    let! payload := status_payload in sret (Some payload).

(** The scheduled [_notify_status_waiters] runs: every waiter looks again,
    and stays when its condition still holds; the others are the result. *)
Definition notify_status_waiters : ST FteTaskExecution (list Z) :=
  let! x := sget in
  if x.(x_notify) then
    let! _ := smodify (fun x =>
      x <| x_waiters := List.filter (should_wait x) x.(x_waiters) |> <| x_notify := false |>) in
    sret (List.filter (fun n => negb (should_wait x n)) x.(x_waiters))
  else sret [].

(** The timeout of the waiter at position [i] expires: the waiter, if there
    is one. *)
Definition waiter_timeout (i : nat) : ST FteTaskExecution (option Z) :=
  let! x := sget in
  let! _ := smodify (fun x => x <| x_waiters ::= delete i |>) in
  sret (x.(x_waiters) !! i).

(** ** Splits *)

Definition x_splits_of (x : FteTaskExecution) (source : string) : list FteSplit :=
  default [] (od_get source x.(x_initial_splits)).
Definition x_seen_of (x : FteTaskExecution) (source : string) : gset Z := default ∅ (x.(x_seen) !! source).

(** A call on the source's queue, if it has one. *)
Definition scan_queue_do (source : string) (act : sq -> result sq) : ST FteTaskExecution unit :=
  let! x := sget in
  match x.(x_scan_queues) !! source with
  | None => sret tt
  | Some q => let! q := slift (act q) in smodify (fun x => x <| x_scan_queues ::= <[source := q]> |>)
  end.

Definition exchange_queue_do (source : string) (act : sq -> result sq) : ST FteTaskExecution unit :=
  let! x := sget in
  match x.(x_exchange_queues) !! source with
  | None => sret tt
  | Some q => let! q := slift (act q) in smodify (fun x => x <| x_exchange_queues ::= <[source := q]> |>)
  end.

(** [seen_sequences.setdefault(source, set())] and
    [initial_splits.setdefault(source, [])] *)
Definition open_source (source : string) : ST FteTaskExecution unit :=
  smodify (fun x =>
    x <| x_seen := <[source := x_seen_of x source]> x.(x_seen) |>
      <| x_initial_splits ::= od_setdefault source [] |>).

(** One iteration of the loops of [add_splits] and [_append_update_splits]. *)
Definition take_split (source : string) (added : bool) (split : FteSplit) : ST FteTaskExecution bool :=
  let! x := sget in
  if bool_decide (split.(sequence_id) ∈ x_seen_of x source) then
    let! _ := smodify (fun x => x <| x_status ::= fun s => s <| ts_duplicate_split_count ::= fun n => n + 1 |> |>) in
    sret added
  else
    let! _ := smodify (fun x =>
      x <| x_seen := <[source := {[split.(sequence_id)]} ∪ x_seen_of x source]> x.(x_seen) |>
        <| x_initial_splits := od_set source (x_splits_of x source ++ [split]) x.(x_initial_splits) |>) in
    let! _ := scan_queue_do source (fun q => add_split_to_dynamic_queue q split "scan_task") in
    let! _ := exchange_queue_do source (fun q => add_split_to_dynamic_queue q split "exchange_source_task") in
    sret true.

(** [add_splits]: whether the change is to be published. *)
Definition add_splits (source : string) (splits : list (list (pyval * pyval))) : ST FteTaskExecution bool :=
  let! x := sget in
  let! _ := sraise_if (x_terminal x) (RuntimeError ("cannot add splits to terminal task " +:+ TaskAttemptId.to_str x.(x_task_id))) in
  let! _ := sraise_if (bool_decide (source ∈ x.(x_no_more)))
    (RuntimeError ("source " +:+ source +:+ " is already marked no_more_splits")) in
  let! _ := open_source source in
  let! added := sfold splits (fun added payload =>
    let! split := slift (Split.from_dict source payload) in take_split source added split) false in
  if added : bool then let! _ := bump_version in sret true else sret false.

(** [_append_update_splits] *)
Definition append_update_splits (source : string) (splits : list FteSplit) : ST FteTaskExecution bool :=
  let! x := sget in
  let! _ := sraise_if (bool_decide (source ∈ x.(x_no_more)) && negb (bool_decide (length splits = O)))
    (RuntimeError ("source " +:+ source +:+ " is already marked no_more_splits")) in
  let! _ := open_source source in
  sfold splits (take_split source) false.

(** The body of [no_more_splits] and of the marking loop of [update_task]. *)
Definition mark_no_more (source : string) : ST FteTaskExecution bool :=
  let! x := sget in
  if bool_decide (source ∈ x.(x_no_more)) then sret false
  else
    let! _ := smodify (fun x => x <| x_no_more ::= union {[source]} |>) in
    let! _ := exchange_queue_do source (sq_do QNoMore) in
    let! _ := scan_queue_do source (sq_do QNoMore) in
    sret true.

Definition no_more_splits (source : string) : ST FteTaskExecution bool :=
  let! x := sget in
  let! _ := sraise_if (x_terminal x) (RuntimeError ("cannot update terminal task " +:+ TaskAttemptId.to_str x.(x_task_id))) in
  let! changed := mark_no_more source in
  if changed : bool then let! _ := bump_version in sret true else sret false.

(** ** Updates *)

(** [_has_descriptor_fields] *)
Definition has_descriptor_fields (u : FteTaskUpdateRequest) : bool :=
  negb (bool_decide (length u.(u_context) = O)) || negb (bool_decide (length u.(u_resource_request) = O)) ||
  u.(u_fragment_plan_present) || negb (bool_decide (u.(u_source_node_ids) = ∅)) ||
  negb (bool_decide (u.(u_dynamic_scan_source_node_ids) = ∅)) ||
  negb (bool_decide (u.(u_dynamic_exchange_source_node_ids) = ∅)).

(** [request[key] = {**dict(request.get(key) or {}), **update}], for a
    non-empty update. *)
Definition merge_request (key : string) (update : list (pyval * pyval)) (changed : bool)
    : ST FteTaskExecution bool :=
  match update with
  | [] => sret changed
  | _ =>
      let! x := sget in
      let! current := slift (dict_or_empty (pd_get key x.(x_request))) in
      let! _ := smodify (fun x => x <| x_request ::= pd_set key (PDict (pd_update current update)) |>) in
      sret true
  end.

(** [_add_dynamic_source_queues]: queues for the sources that have none. *)
Definition add_scan_queues (ids : gset string) : ST FteTaskExecution unit :=
  let! x := sget in
  let! fresh := slift (create_dynamic_source_queues "scan_task" (ids ∖ dom x.(x_scan_queues))
                         x.(x_initial_splits) x.(x_no_more)) in
  smodify (fun x => x <| x_scan_queues ::= union fresh |>).

Definition add_exchange_queues (ids : gset string) : ST FteTaskExecution unit :=
  let! x := sget in
  let! fresh := slift (create_dynamic_source_queues "exchange_source_task" (ids ∖ dom x.(x_exchange_queues))
                         x.(x_initial_splits) x.(x_no_more)) in
  smodify (fun x => x <| x_exchange_queues ::= union fresh |>).

Definition update_sources (ids : gset string) (changed : bool) : ST FteTaskExecution bool :=
  if bool_decide (ids = ∅) then sret changed
  else
    let! x := sget in
    let! current := slift (names_of (pd_get "source_node_ids" x.(x_request))) in
    if bool_decide (current ∪ ids = current) then sret changed
    else
      let! _ := smodify (fun x => x <| x_request ::= pd_set "source_node_ids" (names_value (current ∪ ids)) |>) in
      sret true.

Definition update_scan_sources (ids : gset string) (changed : bool) : ST FteTaskExecution bool :=
  let! x := sget in
  let merged := x.(x_scan_ids) ∪ ids in
  if bool_decide (merged = x.(x_scan_ids)) then sret changed
  else
    let! _ := smodify (fun x => x <| x_scan_ids := merged |>) in
    let! _ := add_scan_queues merged in
    let! _ := smodify (fun x => x <| x_request ::= pd_set "dynamic_scan_source_node_ids" (names_value merged) |>) in
    sret true.

Definition update_exchange_sources (ids : gset string) (changed : bool) : ST FteTaskExecution bool :=
  let! x := sget in
  let merged := x.(x_exchange_ids) ∪ ids in
  if bool_decide (merged = x.(x_exchange_ids)) then sret changed
  else
    let! _ := smodify (fun x => x <| x_exchange_ids := merged |>) in
    let! _ := add_exchange_queues merged in
    let! _ := smodify (fun x => x <| x_request ::= pd_set "dynamic_exchange_source_node_ids" (names_value merged) |>) in
    sret true.

Definition update_output_buffers (update : option (list (pyval * pyval))) (changed : bool)
    : ST FteTaskExecution bool :=
  match update with
  | None => sret changed
  | Some b =>
      let! x := sget in
      let! (buffers, buffers_changed) :=
        slift (merge_output_buffers (buffers_value x.(x_output_buffers)) (PDict b)) in
      if buffers_changed : bool then
        let! _ := smodify (fun x =>
          x <| x_output_buffers := buffers |>
            <| x_request ::= pd_set "output_buffers" (PDict (default [] buffers)) |>) in
        sret true
      else sret changed
  end.

Definition update_domains (update : list (pyval * pyval)) (changed : bool) : ST FteTaskExecution bool :=
  let! x := sget in
  match Descriptor.merged_dict x.(x_domains) update with
  | None => sret changed
  | Some merged =>
      let! _ := smodify (fun x =>
        x <| x_domains := merged |> <| x_request ::= pd_set "dynamic_filter_domains" (PDict merged) |>) in
      sret true
  end.

(** [update_task]: whether the change is to be published. *)
Definition update_task (update : id_ref FteTaskUpdateRequest) : ST FteTaskExecution bool :=
  let! x := sget in
  let! _ := sraise_if (x_terminal x) (RuntimeError ("cannot update terminal task " +:+ TaskAttemptId.to_str x.(x_task_id))) in
  let! u := slift (UpdateRequest.coerce update) in
  let! _ := sraise_if (x.(x_execution_started) && has_descriptor_fields u)
    (RuntimeError ("cannot update descriptor fields after task execution started: "
      +:+ TaskAttemptId.to_str x.(x_task_id))) in
  let! changed := merge_request "context" u.(u_context) false in
  let! changed := merge_request "resource_request" u.(u_resource_request) changed in
  let! changed :=
    if u.(u_fragment_plan_present) then
      let! _ := smodify (fun x => x <| x_request ::= pd_set "fragment_plan" u.(u_fragment_plan) |>) in sret true
    else sret changed in
  let! changed := update_sources u.(u_source_node_ids) changed in
  let! changed := update_scan_sources u.(u_dynamic_scan_source_node_ids) changed in
  let! changed := update_exchange_sources u.(u_dynamic_exchange_source_node_ids) changed in
  let! changed := sfold u.(u_initial_splits) (fun changed '(source, splits) =>
    let! added := append_update_splits source splits in sret (added || changed)) changed in
  let! changed := sfold (sorted_names u.(u_no_more_splits)) (fun changed source =>
    let! b := mark_no_more source in sret (b || changed)) changed in
  let! changed := update_output_buffers u.(u_output_buffers) changed in
  let! changed := update_domains u.(u_dynamic_filter_domains) changed in
  if changed : bool then
    let! _ := smodify (fun x =>
      x <| x_descriptor_version ::= fun v => v + 1 |>
        <| x_request := pd_set "descriptor_version" (PInt (x.(x_descriptor_version) + 1)) x.(x_request) |>) in
    let! _ := bump_version in sret true
  else sret false.

(** ** Cancellation and results *)

(** [for queue in queues.values(): queue.cancel()] *)
Definition cancel_queues : ST FteTaskExecution unit :=
  let! x := sget in
  let! _ := sfor (elements (dom x.(x_exchange_queues))) (fun s => exchange_queue_do s (sq_do QCancel)) in
  sfor (elements (dom x.(x_scan_queues))) (fun s => scan_queue_do s (sq_do QCancel)).

Definition future_live (f : Future) : bool := negb (bool_decide (f.(fu_phase) = Done)).

(** [cancel] *)
Definition cancel (on_loop : bool) : ST FteTaskExecution bool :=
  let! _ := cancel_queues in
  let! _ := smodify (fun x =>
    x <| x_future ::= fmap (fun f => if future_live f then f <| fu_cancel := true |> else f) |>
      <| x_split_event := true |>) in
  set_state on_loop CANCELED PNone.

(** [release_result] *)
Definition release_result : ST FteTaskExecution unit :=
  smodify (fun x => x <| x_result := PNone |> <| x_release_count ::= fun n => n + 1 |>).

(** [start] and [queue]: whether the change is to be published. *)
Definition start : ST FteTaskExecution bool :=
  let! x := sget in
  match x.(x_future) with
  | Some _ => sret false
  | None =>
      let! b := set_state true RUNNING PNone in
      let! _ := smodify (fun x => x <| x_future := Some (MkFuture Ready false false) |>) in
      sret b
  end.

Definition queue : ST FteTaskExecution bool :=
  let! x := sget in
  if match x.(x_future) with Some _ => true | None => false end || x_terminal x then sret false
  else set_state true QUEUED PNone.

(** [add_done_callback] *)
Definition add_done_callback : ST FteTaskExecution unit :=
  smodify (fun x => x <| x_future ::= fmap (fun f => f <| fu_callback := true |>) |>).

(** ** Inputs of the run *)

(** [_all_fte_sources_sealed] *)
Definition all_fte_sources_sealed (x : FteTaskExecution) : result bool :=
  let* explicit := names_of (py_or (pd_get "split_sources" x.(x_request)) (pd_get "source_node_ids" x.(x_request))) in
  let required := if bool_decide (explicit = ∅)
    then (list_to_set (od_keys x.(x_initial_splits)) ∪ dom x.(x_seen)) ∖ x.(x_scan_ids) ∖ x.(x_exchange_ids)
    else explicit in
  Ok (bool_decide (required = ∅) || bool_decide (required ⊆ x.(x_no_more))).

(** [_refresh_request_splits] *)
Definition refresh_request_splits : ST FteTaskExecution unit :=
  smodify (fun x =>
    let dynamic := x.(x_scan_ids) ∪ x.(x_exchange_ids) in
    x <| x_request := pd_set "no_more_splits" (names_value x.(x_no_more))
           (pd_set "initial_splits"
              (UpdateRequest.splits_value
                 (List.filter (fun kv => negb (bool_decide (kv.1 ∈ dynamic))) x.(x_initial_splits)))
              x.(x_request)) |>).

(** The native queues and the progress callback in a request are objects the
    runtime hands on without looking into them. *)
Definition scan_queues_object : pyval := PObj 1 "fte_scan_source_queues".
Definition exchange_queues_object : pyval := PObj 2 "fte_exchange_source_queues".
Definition progress_callback_object : pyval := PObj 3 "native_progress_callback".

(** The request as [_run] completes it before [execute_fn] is called. *)
Definition prepare_request : ST FteTaskExecution unit :=
  smodify (fun x =>
    let r := x.(x_request) in
    let r := if bool_decide (size x.(x_exchange_queues) = O) then r
             else pd_set "dynamic_exchange_source_node_ids" (names_value x.(x_exchange_ids))
                    (pd_set "fte_exchange_source_queues" exchange_queues_object r) in
    let r := if bool_decide (size x.(x_scan_queues) = O) then r
             else pd_set "dynamic_scan_source_node_ids" (names_value x.(x_scan_ids))
                    (pd_set "fte_scan_source_queues" scan_queues_object r) in
    x <| x_execution_started := true |>
      <| x_request := pd_set "native_progress_callback" progress_callback_object r |>).

(** ** Statistics of a result *)

(** [_extract_output_stats] *)
Definition extract_output_stats (request : list (pyval * pyval)) (result_value : pyval) : result pyval :=
  let given := match result_value with
               | PDict d => py_or (pd_get "spooling_output_stats" d) (pd_get "output_stats" d)
               | _ => PNone
               end in
  if is_none given then spooling_output_stats (pd_get "exchange_sink_instance" request) else Ok given.

(** [int(d.get(k1) or d.get(k2) or ... or 0)] *)
Fixpoint int_field (d : list (pyval * pyval)) (keys : list string) : result Z :=
  match keys with
  | [] => Ok 0
  | k :: keys => if truthy (pd_get k d) then py_int (pd_get k d) else int_field d keys
  end.

(** The elements of a list or a tuple. *)
Definition as_seq (v : pyval) : option (list pyval) :=
  match v with PList l | PTuple l => Some l | _ => None end.

(** The first of the values that is a mapping. *)
Fixpoint first_dict (vs : list pyval) : option (list (pyval * pyval)) :=
  match vs with
  | [] => None
  | PDict d :: _ => Some d
  | _ :: vs => first_dict vs
  end.

(** One iteration of [add_metadata_values]. *)
Definition add_metadata (acc : Z * Z) (metadata : pyval) : result (Z * Z) :=
  let '(rows, bytes) := acc in
  match metadata with
  | PDict d =>
      let* r := int_field d ["num_rows"; "rows"] in
      let* b := int_field d ["size_bytes"; "bytes"] in
      Ok (rows + r, bytes + b)
  | PList (m0 :: m1 :: _) | PTuple (m0 :: m1 :: _) =>
      let* r := py_int (py_or m0 (PInt 0)) in
      let* b := py_int (py_or m1 (PInt 0)) in
      Ok (rows + r, bytes + b)
  | _ => Ok (rows, bytes)
  end.

Definition add_metadata_values (items : pyval) : result (Z * Z) :=
  let* l := py_iter (py_or items (PList [])) in rfoldM add_metadata (0, 0) l.

(** [_extract_task_stats] *)
Definition extract_task_stats (request : list (pyval * pyval)) (result_value : pyval)
    : result (list (pyval * pyval)) :=
  let raw := match result_value with
             | PDict d => match pd_find "result" d with Some v => v | None => result_value end
             | _ => result_value
             end in
  let given := match result_value with PDict d => pd_get "task_stats" d | _ => PNone end in
  let seventh := default PNone (seq ← as_seq raw; seq !! 6%nat) in
  match first_dict [given; native_attr raw "task_stats"; seventh] with
  | Some d => Ok d
  | None =>
      let metadatas := native_attr raw "partition_metadatas" in
      let* (rows, bytes) :=
        if negb (is_none metadatas) then add_metadata_values metadatas
        else match seq ← as_seq raw; seq !! 1%nat with Some m => add_metadata_values m | None => Ok (0, 0) end in
      let* output_stats := extract_output_stats request result_value in
      let* (rows, bytes) := match output_stats with
        | PDict d =>
            let* r := int_field d ["rows"; "total_rows"] in
            let* b := int_field d ["total_bytes"; "bytes"; "output_bytes"] in
            Ok (Z.max rows r, Z.max bytes b)
        | _ => Ok (rows, bytes)
        end in
      Ok (pd_lit ((if rows =? 0 then [] else [("output_rows", PInt rows)])
                  ++ (if bytes =? 0 then [] else [("output_bytes", PInt bytes)])))
  end.

(** The state change of [_record_task_stats]: whether it is to be published. *)
Definition record_task_stats (stats : pyval) : ST FteTaskExecution bool :=
  match stats with
  | PDict (kv :: d) =>
      let! _ := smodify (fun x => x <| x_status ::= fun s => s <| ts_task_stats := kv :: d |> |>) in sret true
  | _ => sret false
  end.

(** [_complete_dynamic_source_splits]: errors of the native queues are ignored. *)
Definition complete_dynamic_source_splits : ST FteTaskExecution unit :=
  let quiet m := scatch m (fun _ => true) (fun _ => sret tt) in
  let! x := sget in
  let! _ := sfor (elements (dom x.(x_scan_queues))) (fun s => quiet (scan_queue_do s (sq_do QComplete))) in
  sfor (elements (dom x.(x_exchange_queues))) (fun s => quiet (exchange_queue_do s (sq_do QComplete))).

(** [info] *)
Definition info (x : FteTaskExecution) : result (list (pyval * pyval)) :=
  let* buffer_status := output_buffer_status (buffers_value x.(x_output_buffers)) in
  Ok (pd_lit
    [("status", PDict (status_to_dict x.(x_status)));
     ("initial_split_counts",
        PDict (pd_lit (map (fun kv => (kv.1, PInt (Z.of_nat (length kv.2)))) x.(x_initial_splits))));
     ("no_more_splits", names_value x.(x_no_more)); ("output_buffers", buffers_value x.(x_output_buffers));
     ("output_buffer_status", buffers_value buffer_status); ("dynamic_filter_domains", PDict x.(x_domains));
     ("descriptor_version", PInt x.(x_descriptor_version));
     ("result", if bool_decide (x_state x = FINISHED) then x.(x_result) else PNone);
     ("spooling_output_stats", x.(x_status).(ts_output_stats))]).

End Worker.

(** ** Inputs of a task without dynamic sources *)

(** The data of the splits of one source, scan tasks and exchange sources
    apart. *)
Definition split_values (splits : list FteSplit) : result (list pyval * list pyval) :=
  rfoldM (fun '(scans, exchanges) split =>
      if String.eqb split.(kind) "scan_task" then Ok (scans ++ [split.(data)], exchanges)
      else if String.eqb split.(kind) "exchange_source_task" then Ok (scans, exchanges ++ [split.(data)])
      else Raise (ValueError ("Unsupported FTE split kind: " +:+ split.(kind)))) ([], []) splits.

Record Materialized := MkMaterialized {
  mt_context : list (pyval * pyval);
  mt_scan_nodes : list string;
  mt_exchange_nodes : list string;
}.

(** One source of [materialize_task_inputs]. *)
Definition materialize_source (merge : option (list pyval -> result pyval)) (acc : Materialized)
    (item : string * list (id_ref FteSplit)) : result Materialized :=
  let '(source, raw) := item in
  let* splits := rmapM (split_of source) raw in
  let* (scans, exchanges) := split_values splits in
  let* acc := match scans with
    | [] => Ok acc
    | [v] => Ok (MkMaterialized (pd_set ("scan_task:" +:+ source) v acc.(mt_context))
                   (acc.(mt_scan_nodes) ++ [source]) acc.(mt_exchange_nodes))
    | vs =>
        match merge with
        | None => Raise (ValueError "multiple scan_task splits require a merge function")
        | Some f =>
            let* v := f vs in
            Ok (MkMaterialized (pd_set ("scan_task:" +:+ source) v acc.(mt_context))
                  (acc.(mt_scan_nodes) ++ [source]) acc.(mt_exchange_nodes))
        end
    end in
  match exchanges with
  | [] => Ok acc
  | [v] => Ok (MkMaterialized (pd_set ("exchange_source_task:" +:+ source) v acc.(mt_context))
                 acc.(mt_scan_nodes) (acc.(mt_exchange_nodes) ++ [source]))
  | _ => Raise (ValueError "multiple exchange_source_task splits for one source are not supported")
  end.

Definition materialize_task_inputs (merge : option (list pyval -> result pyval)) (context : list (pyval * pyval))
    (initial : list (string * list (id_ref FteSplit))) : result (list (pyval * pyval)) :=
  let* m := rfoldM (materialize_source merge) (MkMaterialized context [] []) initial in
  let c := m.(mt_context) in
  let c := match m.(mt_scan_nodes) with
           | [] => c | l => pd_set "scan_task_nodes" (PStr (join "," l)) c end in
  Ok (match m.(mt_exchange_nodes) with
      | [] => c | l => pd_set "exchange_source_task_nodes" (PStr (join "," l)) c end).
