(* ===== verification/WorkerManager.v ===== *)
(** * The tasks of a worker ([duckdb/runners/fte/fte_worker_runtime.py])

    [FteWorkerTaskManager]: the attempts a worker holds, which of them run,
    which wait for memory or a slot, the statuses of dropped attempts, and
    the status cache the attempts publish into.  An attempt is an object:
    the coroutine and the done callback of an attempt keep it alive after the
    manager has dropped it, so the attempts live in a heap and [w_tasks]
    refers to them.  The coroutine [_run] advances by the steps of the event
    loop, which [event] lists beside the calls of the driver. *)

From S2P Require Import Prelude PyStr PyVal FteTypes FteState Exchange OutputBuffers Descriptor WorkerTask.

#[local] Open Scope string_scope.
#[local] Open Scope list_scope.
#[local] Open Scope Z_scope.

(** [FteWorkerAdmissionConfig] and the other arguments of the constructor. *)
Record WorkerConfig := MkWorkerConfig {
  c_max_running_tasks : Z;
  c_mode : string;
  c_memory_budget_bytes : Z;
  c_task_memory_bytes : option Z;
  c_require_query_task_lease : bool;
  c_env_max_buffered : option string;
}.

(** [deque.remove], and a [ValueError] ignored *)
Fixpoint remove_first (key : string) (l : list string) : list string :=
  match l with
  | [] => []
  | k :: l => if String.eqb k key then l else k :: remove_first key l
  end.

Definition max_dropped_task_statuses : nat := 4096.

Section Manager.
Context {Env : WorkerEnv} (cfg : WorkerConfig).

Record Worker := MkWorker {
  w_heap : list FteTaskExecution;
  w_tasks : list (string * nat);
  w_query_tasks : list (string * gset string);
  w_running_tasks : gset string;
  w_queued_tasks : list string;
  w_dropped_statuses : list (string * list (pyval * pyval));
  w_dropped_order : list string;
  w_status_cache : list (string * list (pyval * pyval));
  w_shutdown : bool;
}.
#[export] Instance Worker_eta : Eta Worker :=
  fun r => MkWorker r.(w_heap) r.(w_tasks) r.(w_query_tasks) r.(w_running_tasks) r.(w_queued_tasks)
    r.(w_dropped_statuses) r.(w_dropped_order) r.(w_status_cache) r.(w_shutdown).

Definition new_worker : Worker := MkWorker [] [] [] ∅ [] [] [] [] false.

Definition key_of (x : FteTaskExecution) : string := TaskAttemptId.to_str x.(x_task_id).

(** The object at reference [i] after it was changed. *)
Definition put_task (i : nat) (x : FteTaskExecution) (w : Worker) : Worker := w <| w_heap ::= <[i := x]> |>.

(** An operation of the attempt at reference [i]. *)
Definition on {A} (i : nat) (m : ST FteTaskExecution A) : ST Worker A :=
  fun w => match w.(w_heap) !! i with
           | Some x => let '(r, x') := m x in (r, put_task i x' w)
           | None => (Raise (KeyError "dangling reference"), w)
           end.

(** The attempt the manager has under a key. *)
Definition task_at (w : Worker) (key : string) : option FteTaskExecution :=
  i ← od_get key w.(w_tasks); w.(w_heap) !! i.

(** ** Executor statistics and publication *)

Definition task_memory (w : Worker) (key : string) : Z :=
  match task_at w key with Some x => x.(x_memory_requirement_bytes) | None => 0 end.

(** [_running_memory_requirement_bytes] *)
Definition running_memory (w : Worker) : Z :=
  foldr Z.add 0 (map (task_memory w) (elements w.(w_running_tasks))).

(** [list(queued).index(key)] *)
Fixpoint index_of (key : string) (l : list string) : option Z :=
  match l with
  | [] => None
  | k :: l => if String.eqb k key then Some 0 else n ← index_of key l; Some (n + 1)
  end.

(** [_executor_stats] *)
Definition executor_stats (w : Worker) (key : option string) : list (pyval * pyval) :=
  pd_lit (
    [("executor_running_task_count", PInt (Z.of_nat (size w.(w_running_tasks))));
     ("executor_queued_task_count", PInt (Z.of_nat (length w.(w_queued_tasks))));
     ("executor_max_running_tasks", PInt cfg.(c_max_running_tasks));
     ("executor_admission_limited", PBool true); ("executor_admission_mode", PStr cfg.(c_mode));
     ("executor_memory_budget_bytes", PInt cfg.(c_memory_budget_bytes));
     ("executor_task_memory_bytes", match cfg.(c_task_memory_bytes) with Some n => PInt n | None => PNone end);
     ("executor_reserved_memory_bytes", PInt (running_memory w));
     ("executor_total_committed_memory_bytes", PInt (running_memory w))]
    ++ match key with
       | None => []
       | Some k =>
           ("executor_queue_position", match index_of k w.(w_queued_tasks) with Some n => PInt n | None => PNone end)
           :: match task_at w k with
              | Some x => [("executor_task_memory_requirement_bytes", PInt x.(x_memory_requirement_bytes))]
              | None => []
              end
       end).

(** [_publish_status] of the attempt at [i] *)
Definition publish_status (i : nat) : ST Worker (list (pyval * pyval)) :=
  let! payload := on i status_payload in
  let! key := on i (sgets key_of) in
  let! w := sget in
  let payload := pd_update payload (executor_stats w (Some key)) in
  let! _ := smodify (fun w => w <| w_status_cache ::= od_set key payload |>) in
  sret payload.

(** [_publish_status_changed]: the callback of an attempt, its errors ignored. *)
Definition publish_quiet (i : nat) : ST Worker unit :=
  scatch (let! _ := publish_status i in sret tt) (fun _ => true) (fun _ => sret tt).

(** An operation of an attempt that reports whether to publish. *)
Definition publishing (i : nat) (m : ST FteTaskExecution bool) : ST Worker unit :=
  let! changed := on i m in
  if changed : bool then publish_quiet i else sret tt.

(** [_transition] *)
Definition transition (i : nat) (state : FteTaskState) (failure : pyval) : ST Worker unit :=
  publishing i (set_state true state failure).

Definition release (i : nat) : ST Worker unit :=
  let! _ := on i release_result in publish_quiet i.

(** ** Admission *)

Inductive block_reason := MaxRunningTasks | MemoryBudget.

(** [_capacity_block_reason] *)
Definition capacity_block_reason (w : Worker) (x : FteTaskExecution) : option block_reason :=
  if cfg.(c_max_running_tasks) <=? Z.of_nat (size w.(w_running_tasks)) then Some MaxRunningTasks
  else if running_memory w + x.(x_memory_requirement_bytes) <=? cfg.(c_memory_budget_bytes) then None
  else Some MemoryBudget.

(** [_start_execution] *)
Definition start_execution (i : nat) : ST Worker unit :=
  let! x := on i sget in
  if x_terminal x then sret tt
  else
    let! _ := smodify (fun w => w <| w_running_tasks ::= union {[key_of x]} |>) in
    let! _ := publishing i start in
    let! _ := on i add_done_callback in
    let! _ := publish_status i in
    sret tt.

(** [_admit_or_queue] *)
Definition admit_or_queue (i : nat) : ST Worker unit :=
  let! x := on i sget in
  let! w := sget in
  let key := key_of x in
  if bool_decide (key ∈ w.(w_running_tasks)) || x_terminal x then sret tt
  else
    match capacity_block_reason w x with
    | None => start_execution i
    | Some _ =>
        let! _ := publishing i queue in
        let! _ := smodify (fun w => if bool_decide (key ∈ w.(w_queued_tasks)) then w
                                    else w <| w_queued_tasks ::= fun l => l ++ [key] |>) in
        let! _ := publish_status i in
        sret tt
    end.

(** The loop of [_drain_queue]; each iteration takes a key off the queue, so
    that the length of the queue is enough fuel. *)
Fixpoint drain_loop (fuel : nat) : ST Worker unit :=
  match fuel with
  | O => sret tt
  | S fuel =>
      let! w := sget in
      match w.(w_queued_tasks) with
      | [] => sret tt
      | key :: rest =>
          let! _ := smodify (fun w => w <| w_queued_tasks := rest |>) in
          match od_get key w.(w_tasks) with
          | None => drain_loop fuel
          | Some i =>
              let! x := on i sget in
              if x_terminal x then drain_loop fuel
              else
                match capacity_block_reason w x with
                | Some _ => smodify (fun w => w <| w_queued_tasks ::= cons key |>)
                | None => let! _ := start_execution i in drain_loop fuel
                end
          end
      end
  end.

Definition drain_queue : ST Worker unit :=
  let! w := sget in
  if w.(w_shutdown) then smodify (fun w => w <| w_queued_tasks := [] |>)
  else drain_loop (length w.(w_queued_tasks)).

(** ** The coroutine [_run] *)

(** The coroutine ends: the event loop will call the done callback. *)
Definition end_run (i : nat) : ST Worker unit :=
  on i (smodify (fun x => x <| x_future ::= fmap (fun f => f <| fu_phase := Done |>) |>)).

Definition suspend (i : nat) (phase : run_phase) : ST Worker unit :=
  on i (smodify (fun x => x <| x_future ::= fmap (fun f => f <| fu_phase := phase |>) |>)).

Definition fail_run (i : nat) (e : exn) : ST Worker unit :=
  let! _ := transition i FAILED (failure_payload e) in end_run i.

(** From the end of the wait for splits to the call of [execute_fn]. *)
Definition begin_execution (i : nat) : ST Worker unit :=
  let! x := on i sget in
  let! _ := if x.(x_fte_runtime) then on i refresh_request_splits else sret tt in
  let! _ := on i prepare_request in
  suspend i Executing.

(** One iteration of [_wait_for_fte_splits_sealed], or past it. *)
Definition run_from_wait (i : nat) : ST Worker unit :=
  let! x := on i sget in
  if x.(x_fte_runtime) then
    let! _ := on i (smodify (fun x => x <| x_split_event := false |>)) in
    match all_fte_sources_sealed x with
    | Raise e => fail_run i e
    | Ok true => begin_execution i
    | Ok false => suspend i WaitingSplits
    end
  else begin_execution i.

(** The event loop resumes the coroutine at its start or in its wait.  A
    cancellation requested before the first step ends it before its [try]. *)
Definition run_resume (i : nat) : ST Worker unit :=
  let! x := on i sget in
  match x.(x_future) with
  | Some f =>
      match f.(fu_phase) with
      | Ready => if f.(fu_cancel) then end_run i else run_from_wait i
      | WaitingSplits =>
          if f.(fu_cancel) then let! _ := transition i CANCELED PNone in end_run i
          else if x.(x_split_event) then run_from_wait i
          else sret tt
      | _ => sret tt
      end
  | None => sret tt
  end.

(** How [execute_fn] ended. *)
Inductive run_outcome := Returned (v : pyval) | Raised (e : exn) | WasCancelled.

(** From the return of [execute_fn] to [FINISHED]. *)
Definition finish_run (i : nat) (v : pyval) : ST Worker unit :=
  let! x := on i sget in
  let! output_stats := slift (extract_output_stats x.(x_request) v) in
  let! _ := on i (smodify (fun x => x <| x_status ::= fun s => s <| ts_output_stats := output_stats |> |>)) in
  let! x := on i sget in
  let! task_stats := slift (extract_task_stats x.(x_request) v) in
  let! split_stats := on i refresh_split_queue_status in
  let! _ := publishing i (record_task_stats (PDict (pd_update task_stats split_stats))) in
  transition i FINISHED PNone.

Definition run_finish (i : nat) (outcome : run_outcome) : ST Worker unit :=
  let! x := on i sget in
  match fu_phase <$> x.(x_future) with
  | Some Executing =>
      match outcome with
      | WasCancelled => let! _ := transition i CANCELED PNone in end_run i
      | Raised e => fail_run i e
      | Returned v =>
          let! _ := on i (smodify (fun x => x <| x_result := v |>)) in
          let! _ := on i complete_dynamic_source_splits in
          let! _ := scatch (finish_run i v) (fun _ => true) (fun e =>
            let! _ := release i in transition i FAILED (failure_payload e)) in
          end_run i
      end
  | _ => sret tt
  end.

(** [_task_done]: the done callback registered for [key]. *)
Definition task_done (key : string) : ST Worker unit :=
  let! _ := smodify (fun w => w <| w_running_tasks ::= fun r => r ∖ {[key]} |>) in
  let! w := sget in
  let! _ := match od_get key w.(w_tasks) with Some i => publish_quiet i | None => sret tt end in
  drain_queue.

(** The event loop runs the done callback of a finished coroutine. *)
Definition run_done_callback (i : nat) : ST Worker unit :=
  let! x := on i sget in
  match x.(x_future) with
  | Some (MkFuture Done _ true) =>
      let! _ := on i (smodify (fun x => x <| x_future ::= fmap (fun f => f <| fu_callback := false |>) |>)) in
      task_done (key_of x)
  | _ => sret tt
  end.

(** ** Creating, finding and dropping tasks *)

Definition create_task (request : list (pyval * pyval)) : ST Worker (list (pyval * pyval)) :=
  let! w := sget in
  let! _ := sraise_if w.(w_shutdown) (RuntimeError "FTE worker task manager is shut down") in
  let! x := slift (new_execution cfg.(c_env_max_buffered) cfg.(c_require_query_task_lease)
                     cfg.(c_task_memory_bytes) request) in
  let key := key_of x in
  match od_get key w.(w_tasks) with
  | Some i => publish_status i
  | None =>
      let! _ := sraise_if (cfg.(c_memory_budget_bytes) <? x.(x_memory_requirement_bytes))
        (RuntimeError ("FTE task " +:+ key +:+ " heap " +:+ str_of_int x.(x_memory_requirement_bytes)
          +:+ " exceeds worker task-heap capacity " +:+ str_of_int cfg.(c_memory_budget_bytes))) in
      let i := length w.(w_heap) in
      let! _ := smodify (fun w =>
        if od_mem key w.(w_dropped_statuses)
        then w <| w_dropped_statuses ::= od_pop key |> <| w_dropped_order ::= remove_first key |>
        else w) in
      let! _ := smodify (fun w => w <| w_status_cache ::= od_pop key |>) in
      let! _ := smodify (fun w =>
        w <| w_heap ::= fun h => h ++ [x] |> <| w_tasks ::= od_set key i |>
          <| w_query_tasks := od_set x.(x_task_id).(task_id).(query_id)
               ({[key]} ∪ od_get_default x.(x_task_id).(task_id).(query_id) ∅ w.(w_query_tasks))
               w.(w_query_tasks) |>) in
      let! _ := publish_status i in
      let! _ := admit_or_queue i in
      publish_status i
  end.

(** [_key] *)
Definition key_for (id : id_ref FteTaskAttemptId) : ST Worker string :=
  let! a := slift (TaskAttemptId.coerce id) in sret (TaskAttemptId.to_str a).

(** [self.tasks.get(self._key(task_id))] *)
Definition find_task (id : id_ref FteTaskAttemptId) : ST Worker (option nat) :=
  let! key := key_for id in sgets (fun w => od_get key w.(w_tasks)).

(** [_get] *)
Definition get_task (id : id_ref FteTaskAttemptId) : ST Worker nat :=
  let! key := key_for id in
  let! found := sgets (fun w => od_get key w.(w_tasks)) in
  match found with Some i => sret i | None => sraise (KeyError ("unknown FTE task attempt: " +:+ key)) end.

Definition dropped_status (id : id_ref FteTaskAttemptId) : ST Worker (option (list (pyval * pyval))) :=
  let! key := key_for id in sgets (fun w => od_get key w.(w_dropped_statuses)).

(** [_unknown_status] *)
Definition unknown_status (id : id_ref FteTaskAttemptId) : ST Worker (list (pyval * pyval)) :=
  let! a := slift (TaskAttemptId.coerce id) in
  let! w := sget in
  sret (pd_update
    (pd_lit [("task_id", PDict (TaskAttemptId.to_dict a)); ("task_id_string", PStr (TaskAttemptId.to_str a));
             ("state", PStr "UNKNOWN"); ("version", PInt 0); ("failure", PNone);
             ("duplicate_split_count", PInt 0); ("spooling_output_stats", PNone)])
    (executor_stats w (Some (TaskAttemptId.to_str a)))).

(** The eviction loop of [_store_dropped_status]. *)
Fixpoint evict_dropped (fuel : nat) (w : Worker) : Worker :=
  match fuel, w.(w_dropped_order) with
  | S fuel, stale :: rest =>
      if (max_dropped_task_statuses <? length w.(w_dropped_order))%nat then
        evict_dropped fuel
          (w <| w_dropped_order := rest |> <| w_dropped_statuses ::= od_pop stale |>
             <| w_status_cache ::= od_pop stale |>)
      else w
  | _, _ => w
  end.

(** [_store_dropped_status] *)
Definition store_dropped_status (key : string) (status : list (pyval * pyval)) : ST Worker unit :=
  let! _ := smodify (fun w =>
    (if od_mem key w.(w_dropped_statuses) then w else w <| w_dropped_order ::= fun l => l ++ [key] |>)
      <| w_dropped_statuses ::= od_set key status |> <| w_status_cache ::= od_set key status |>) in
  smodify (fun w => evict_dropped (length w.(w_dropped_order)) w).

(** ** Calls of the driver *)

Definition w_add_splits (id : id_ref FteTaskAttemptId) (source : string) (splits : list (list (pyval * pyval)))
    : ST Worker (list (pyval * pyval)) :=
  let! i := get_task id in
  let! _ := publishing i (add_splits source splits) in
  publish_status i.

Definition w_no_more_splits (id : id_ref FteTaskAttemptId) (source : string) : ST Worker (list (pyval * pyval)) :=
  let! i := get_task id in
  let! _ := publishing i (no_more_splits source) in
  publish_status i.

Definition w_update_task (id : id_ref FteTaskAttemptId) (update : id_ref FteTaskUpdateRequest)
    : ST Worker (list (pyval * pyval)) :=
  let! i := get_task id in
  let! _ := publishing i (update_task update) in
  publish_status i.

(** A status lookup that falls back to the dropped statuses. *)
Definition status_or (id : id_ref FteTaskAttemptId) (live : nat -> ST Worker (list (pyval * pyval)))
    (dropped : list (pyval * pyval) -> ST Worker (list (pyval * pyval)))
    (unknown : ST Worker (list (pyval * pyval))) : ST Worker (list (pyval * pyval)) :=
  let! found := find_task id in
  match found with
  | Some i => live i
  | None => let! d := dropped_status id in match d with Some status => dropped status | None => unknown end
  end.

Definition get_task_status (id : id_ref FteTaskAttemptId) : ST Worker (list (pyval * pyval)) :=
  status_or id publish_status sret (unknown_status id).

Definition get_cached_task_status (id : id_ref FteTaskAttemptId) : ST Worker (list (pyval * pyval)) :=
  let! key := key_for id in
  let! cached := sgets (fun w => od_get key w.(w_status_cache)) in
  match cached with
  | Some status => sret status
  | None => status_or id publish_status sret (unknown_status id)
  end.

Definition ack_task_result (id : id_ref FteTaskAttemptId) : ST Worker (list (pyval * pyval)) :=
  status_or id (fun i => let! p := publish_status i in sret (pd_pop "result" p))
    (fun d => sret (pd_pop "result" d)) (unknown_status id).

Definition release_task_result (id : id_ref FteTaskAttemptId) : ST Worker (list (pyval * pyval)) :=
  let! key := key_for id in
  status_or id
    (fun i => let! _ := release i in let! p := publish_status i in sret (pd_pop "result" p))
    (fun d => let! _ := store_dropped_status key (pd_pop "result" d) in sret (pd_pop "result" d))
    (unknown_status id).

(** [wait_task_status] up to its first suspension. *)
Definition wait_task_status (id : id_ref FteTaskAttemptId) (min_version : option Z)
    : ST Worker (option (list (pyval * pyval))) :=
  let! found := find_task id in
  let! d := dropped_status id in
  match found, d with
  | None, Some status => sret (Some status)
  | _, _ =>
      let! i := get_task id in
      let! answer := on i (wait_status_after min_version) in
      match answer with
      | None => sret None
      | Some _ => let! p := publish_status i in sret (Some p)
      end
  end.

(** A waiter of [wait_task_status] is let go: [wait_status_after] returns and
    the status is published; an error reaches that caller only. *)
Definition answer_waiter (i : nat) : ST Worker unit :=
  scatch (let! _ := on i status_payload in let! _ := publish_status i in sret tt)
    (fun _ => true) (fun _ => sret tt).

(** [_notify_status_waiters] runs on the event loop. *)
Definition wake_waiters (i : nat) : ST Worker unit :=
  let! woken := on i notify_status_waiters in sfor woken (fun _ => answer_waiter i).

(** The timeout of a waiter expires. *)
Definition expire_waiter (i n : nat) : ST Worker unit :=
  let! expired := on i (waiter_timeout n) in
  match expired with Some _ => answer_waiter i | None => sret tt end.

(** One poll of [wait_split_queue_has_space] on the attempt the call holds:
    its answer, or [None] to poll again. *)
Definition poll_space (i : nat) (source : option string) (max_buffered : option Z) (expired : bool)
    : ST Worker (option (list (pyval * pyval))) :=
  let! answer := on i (poll_split_queue source max_buffered expired) in
  match answer with
  | None => sret None
  | Some d => let! status := publish_status i in sret (Some (pd_set "status" (PDict status) d))
  end.

(** [wait_split_queue_has_space] up to its first sleep. *)
Definition wait_split_queue_has_space (id : id_ref FteTaskAttemptId) (source : option string)
    (max_buffered : option Z) (expired : bool) : ST Worker (option (list (pyval * pyval))) :=
  let! i := get_task id in poll_space i source max_buffered expired.

Definition get_task_info (id : id_ref FteTaskAttemptId) : ST Worker (list (pyval * pyval)) :=
  status_or id (fun i => let! x := on i sget in slift (info x))
    (fun d => sret (pd_lit [("status", PDict d); ("initial_split_counts", PDict []); ("no_more_splits", PList []);
                            ("result", pd_get "result" d);
                            ("spooling_output_stats", pd_get "spooling_output_stats" d)]))
    (let! i := get_task id in let! x := on i sget in slift (info x)).

Definition cancel_task (id : id_ref FteTaskAttemptId) : ST Worker (list (pyval * pyval)) :=
  status_or id
    (fun i =>
       let! key := on i (sgets key_of) in
       let! _ := smodify (fun w => w <| w_queued_tasks ::= remove_first key |>) in
       let! _ := publishing i (cancel true) in
       let! _ := release i in
       let! _ := smodify (fun w => w <| w_running_tasks ::= fun r => r ∖ {[key]} |>) in
       let! _ := drain_queue in
       let! status := publish_status i in
       sret (pd_pop "result" status))
    sret (let! key := key_for id in sraise (KeyError ("unknown FTE task attempt: " +:+ key))).

(** ** Dropping a query, shutting down *)

Definition discard_query_task (query key : string) : ST Worker unit :=
  smodify (fun w => match od_get query w.(w_query_tasks) with
                    | Some keys => w <| w_query_tasks ::= od_set query (keys ∖ {[key]}) |>
                    | None => w
                    end).

(** The [try] of the loop of [drop_query]: whether the attempt was cancelled. *)
Definition retire_task (key : string) (i : nat) : ST Worker bool :=
  let! x := on i sget in
  let! canceled := if x_terminal x then sret false
                   else let! _ := publishing i (cancel true) in sret true in
  let! _ := release i in
  let! status := publish_status i in
  let! _ := store_dropped_status key (pd_pop "result" status) in
  let! _ := smodify (fun w => w <| w_status_cache ::= od_pop key |>) in
  sret canceled.

Record DropCount := MkDropCount { dc_removed : Z; dc_canceled : Z; dc_errors : list (string * exn) }.

(** ["; ".join(f"task={key}: {type(exc).__name__}: {exc}" for key, exc in errors)] *)
Definition error_details (errors : list (string * exn)) : string :=
  String.concat "; " (map (fun '(key, e) =>
    let '(type_name, message) := exn_parts e in "task=" +:+ key +:+ ": " +:+ type_name +:+ ": " +:+ message) errors).

(** One iteration of the loop of [drop_query]. *)
Definition drop_task (query : string) (acc : DropCount) (key : string) : ST Worker DropCount :=
  let! w := sget in
  match od_get key w.(w_tasks) with
  | None => let! _ := discard_query_task query key in sret acc
  | Some i =>
      let! _ := smodify (fun w => w <| w_queued_tasks ::= remove_first key |>) in
      let! outcome := scatch (let! c := retire_task key i in sret (inl c)) (fun _ => true) (fun e => sret (inr e)) in
      match outcome with
      | inr e => sret (MkDropCount acc.(dc_removed) acc.(dc_canceled) (acc.(dc_errors) ++ [(key, e)]))
      | inl canceled =>
          let! _ := smodify (fun w => if bool_decide (od_get key w.(w_tasks) = Some i)
                                      then w <| w_tasks ::= od_pop key |> else w) in
          let! _ := discard_query_task query key in
          let! _ := smodify (fun w => w <| w_running_tasks ::= fun r => r ∖ {[key]} |>) in
          sret (MkDropCount (acc.(dc_removed) + 1) (acc.(dc_canceled) + Z.b2z canceled) acc.(dc_errors))
      end
  end.

Definition drop_query (query : string) : ST Worker (Z * Z) :=
  let! w := sget in
  let keys := elements (od_get_default query ∅ w.(w_query_tasks)) in
  let! count := sfold keys (drop_task query) (MkDropCount 0 0 []) in
  let! _ := smodify (fun w => if bool_decide (od_get query w.(w_query_tasks) = Some ∅)
                              then w <| w_query_tasks ::= od_pop query |> else w) in
  let! drained := scatch (let! _ := drain_queue in sret []) (fun _ => true) (fun e => sret [("<drain-queue>", e)]) in
  let errors := count.(dc_errors) ++ drained in
  match errors with
  | [] => sret (count.(dc_removed), count.(dc_canceled))
  | _ => sraise (RuntimeError ("failed to fully drop FTE query " +:+ query
           +:+ "; retained failed task ownership: " +:+ error_details errors))
  end.

(** One iteration of the loop of [shutdown]. *)
Definition shutdown_task (on_loop : bool) (acc : DropCount) (item : string * nat) : ST Worker DropCount :=
  let '(key, i) := item in
  let body : ST Worker bool :=
    let! x := on i sget in
    let! canceled := if x_terminal x then sret false
                     else let! _ := publishing i (cancel on_loop) in sret true in
    let! _ := release i in
    sret canceled in
  let! outcome := scatch (let! c := body in sret (inl c)) (fun _ => true) (fun e => sret (inr e)) in
  match outcome with
  | inr e => sret (MkDropCount acc.(dc_removed) (acc.(dc_canceled)) (acc.(dc_errors) ++ [(key, e)]))
  | inl canceled =>
      let! _ := smodify (fun w => w <| w_tasks ::= od_pop key |>) in
      let! _ := smodify (fun w => w <| w_running_tasks ::= fun r => r ∖ {[key]} |>) in
      sret (MkDropCount (acc.(dc_removed) + 1) (acc.(dc_canceled) + Z.b2z canceled) acc.(dc_errors))
  end.

(** [shutdown] is a plain method: [on_loop] is whether its caller runs on the
    event loop. *)
Definition shutdown (on_loop : bool) : ST Worker (Z * Z) :=
  let! _ := smodify (fun w => w <| w_shutdown := true |> <| w_queued_tasks := [] |>) in
  let! w := sget in
  let! count := sfold w.(w_tasks) (shutdown_task on_loop) (MkDropCount 0 0 []) in
  let! _ := smodify (fun w => w <| w_query_tasks := [] |>) in
  match count.(dc_errors) with
  | [] => sret (count.(dc_removed), count.(dc_canceled))
  | errors => sraise (RuntimeError ("failed to cancel all FTE tasks during worker shutdown: " +:+ error_details errors))
  end.

(** ** Events *)

(** What happens to a worker: the calls of the driver, the steps of the
    event loop, and the progress of the native execution, which reports
    statistics and changes the queues it shares. *)
Inductive event :=
| ECreate (request : list (pyval * pyval))
| EAddSplits (id : id_ref FteTaskAttemptId) (source : string) (splits : list (list (pyval * pyval)))
| ENoMoreSplits (id : id_ref FteTaskAttemptId) (source : string)
| EUpdate (id : id_ref FteTaskAttemptId) (update : id_ref FteTaskUpdateRequest)
| EStatus (id : id_ref FteTaskAttemptId)
| ECachedStatus (id : id_ref FteTaskAttemptId)
| EWait (id : id_ref FteTaskAttemptId) (min_version : option Z)
| EWaitSpace (id : id_ref FteTaskAttemptId) (source : option string) (max_buffered : option Z) (expired : bool)
| EInfo (id : id_ref FteTaskAttemptId)
| EAck (id : id_ref FteTaskAttemptId)
| ERelease (id : id_ref FteTaskAttemptId)
| ECancel (id : id_ref FteTaskAttemptId)
| EDropQuery (query : string)
| EShutdown (on_loop : bool)
| EResume (i : nat)
| EFinish (i : nat) (outcome : run_outcome)
| EDone (i : nat)
| ENotify (i : nat)
| ETimeout (i : nat) (waiter : nat)
| EPollSpace (i : nat) (source : option string) (max_buffered : option Z) (expired : bool)
| EProgress (i : nat) (stats : pyval)
| ENative (i : nat) (scans exchanges : gmap string sq).

Definition quietly {A} (m : ST Worker A) : ST Worker unit := let! _ := m in sret tt.

Definition handle (e : event) : ST Worker unit :=
  match e with
  | ECreate request => quietly (create_task request)
  | EAddSplits id source splits => quietly (w_add_splits id source splits)
  | ENoMoreSplits id source => quietly (w_no_more_splits id source)
  | EUpdate id update => quietly (w_update_task id update)
  | EStatus id => quietly (get_task_status id)
  | ECachedStatus id => quietly (get_cached_task_status id)
  | EWait id min_version => quietly (wait_task_status id min_version)
  | EWaitSpace id source n expired => quietly (wait_split_queue_has_space id source n expired)
  | EInfo id => quietly (get_task_info id)
  | EAck id => quietly (ack_task_result id)
  | ERelease id => quietly (release_task_result id)
  | ECancel id => quietly (cancel_task id)
  | EDropQuery query => quietly (drop_query query)
  | EShutdown on_loop => quietly (shutdown on_loop)
  | EResume i => run_resume i
  | EFinish i outcome => run_finish i outcome
  | EDone i => run_done_callback i
  | ENotify i => wake_waiters i
  | ETimeout i n => expire_waiter i n
  | EPollSpace i source n expired => quietly (poll_space i source n expired)
  | EProgress i stats => publishing i (record_task_stats stats)
  | ENative i scans exchanges =>
      on i (smodify (fun x => x <| x_scan_queues := scans |> <| x_exchange_queues := exchanges |>))
  end.

(** The worker after a history of events, whether they return or raise. *)
Definition history (w : Worker) (es : list event) : Worker := fold_left (fun w e => snd (handle e w)) es w.

(** A history in which no event raises. *)
Inductive clean : Worker -> list event -> Worker -> Prop :=
| clean_nil w : clean w [] w
| clean_cons w e w1 es w2 : handle e w = (Ok tt, w1) -> clean w1 es w2 -> clean w (e :: es) w2.

(** The same, computed. *)
Fixpoint run_clean (w : Worker) (es : list event) : bool :=
  match es with
  | [] => true
  | e :: es => match handle e w with (Ok tt, w1) => run_clean w1 es | _ => false end
  end.

Lemma run_clean_sound es w : run_clean w es = true -> clean w es (history w es).
Proof.
  revert w. induction es as [|e es IH]; intros w; cbn; [constructor|].
  destruct (handle e w) as [[[]|?] w1] eqn:E; [|done]. intros H. by econstructor; [|apply IH].
Qed.

End Manager.
