(* ===== verification/WorkerDemo.v ===== *)
(** * A concrete worker

    Split queues that record the calls made on them, and requests, for the
    examples of the worker's theorems. *)

From S2P Require Import Prelude PyStr PyVal FteTypes FteState Exchange OutputBuffers Descriptor WorkerTask WorkerManager.

#[local] Open Scope string_scope.
#[local] Open Scope list_scope.
#[local] Open Scope Z_scope.

(** A queue is the list of the calls it received. *)
#[export] Instance demo_env : WorkerEnv := {|
  sq := list sq_call;
  sq_new := [];
  sq_do := fun c q => Ok (q ++ [c]);
  sq_read := fun _ q => Ok (Z.of_nat (length q));
  sq_has_wait_ms := fun _ => true;
  native_attr := fun _ _ => PNone;
  traceback_text := fun _ => "";
  spooling_output_stats := fun _ => Ok PNone;
|}.

(** Two slots and 100 bytes. *)
Definition demo_config : WorkerConfig := MkWorkerConfig 2 "test" 100 None false None.

Definition demo_attempt (partition : Z) : FteTaskAttemptId :=
  MkFteTaskAttemptId (MkFteTaskId "q" 0 partition) 0.

Definition demo_request (partition memory : Z) : list (pyval * pyval) :=
  pd_lit [("task_id", PDict (TaskAttemptId.to_dict (demo_attempt partition)));
          ("memory_requirement_bytes", PInt memory); ("worker_runtime", PStr "fte");
          ("source_node_ids", PList [PStr "s"])].

Definition demo_split (n : Z) : list (pyval * pyval) :=
  pd_lit [("sequence_id", PInt n); ("kind", PStr "scan_task")].
