(* ===== verification/WorkerProofs.v ===== *)
(** * The tasks of a worker: capacity, queue and status

    The invariant of [WorkerManager] over every history of events, raised
    exceptions included: references are valid, the memory of the running
    tasks stays within the budget, a running entry belongs to a coroutine
    whose done callback is still to come, and a queued task has not started.
    Then, over histories in which no call raises: the head of the queue is
    blocked by the capacity, and no wake-up is lost. *)

From S2P Require Import Prelude PyStr PyVal FteTypes FteState Exchange OutputBuffers Descriptor WorkerTask WorkerManager.

#[local] Open Scope string_scope.
#[local] Open Scope list_scope.
#[local] Open Scope Z_scope.

Create HintDb worker.

(** Follow the structure of an operation down to its state changes, and close
    those that leave the invariant's part of the state alone. *)
Ltac frame_step :=
  first
    [ solve [auto with worker nocore]
    | lazymatch goal with
      | |- preserves _ (sret _) => apply preserves_ret
      | |- preserves _ (sraise _) => apply preserves_raise
      | |- preserves _ (slift _) => apply preserves_lift
      | |- preserves _ (sgets _) => apply preserves_gets
      | |- preserves _ sget => apply preserves_get
      | |- preserves _ (sraise_if _ _) => apply preserves_raise_if
      | |- preserves _ (sbind _ _) => apply preserves_bind; [|intros ?]
      | |- preserves _ (sfor _ _) => apply preserves_for; intros ?
      | |- preserves _ (sfold _ _ _) => apply preserves_fold; intros ? ?
      | |- preserves _ (scatch _ _ _) => apply preserves_catch; [|intros ?]
      | |- preserves _ (smodify _) => apply preserves_modify; intros ? ?
      | |- preserves _ (match ?x with _ => _ end) => destruct x
      | |- preserves _ (let '(_, _) := ?x in _) => destruct x
      | H : ?I ?x |- ?I (if ?b then _ else _) => destruct b
      | H : ?I ?x |- ?I ?y => exact H
      end ].
Ltac frame := cbv zeta; repeat frame_step.

Section Frames.
Context {Env : WorkerEnv}.

(** ** Operations that leave the identity, the coroutine and the state alone *)

Definition view (x : FteTaskExecution) :=
  (x.(x_task_id), x.(x_memory_requirement_bytes), x.(x_future), x_state x).

Definition viewed v (x : FteTaskExecution) : Prop := view x = v.

Lemma viewed_scan_queue_do v s act : preserves (viewed v) (scan_queue_do s act).
Proof. unfold scan_queue_do. frame. Qed.
Lemma viewed_exchange_queue_do v s act : preserves (viewed v) (exchange_queue_do s act).
Proof. unfold exchange_queue_do. frame. Qed.
#[local] Hint Resolve viewed_scan_queue_do viewed_exchange_queue_do : worker.

Lemma viewed_take_split v s b x : preserves (viewed v) (take_split s b x).
Proof. unfold take_split. frame. Qed.
#[local] Hint Resolve viewed_take_split : worker.

Lemma viewed_add_splits v s l : preserves (viewed v) (add_splits s l).
Proof. unfold add_splits, open_source, bump_version. frame. Qed.
Lemma viewed_append_update_splits v s l : preserves (viewed v) (append_update_splits s l).
Proof. unfold append_update_splits, open_source. frame. Qed.
Lemma viewed_mark_no_more v s : preserves (viewed v) (mark_no_more s).
Proof. unfold mark_no_more. frame. Qed.
#[local] Hint Resolve viewed_append_update_splits viewed_mark_no_more : worker.

Lemma viewed_no_more_splits v s : preserves (viewed v) (no_more_splits s).
Proof. unfold no_more_splits, bump_version. frame. Qed.

Lemma viewed_update_task v u : preserves (viewed v) (update_task u).
Proof.
  unfold update_task, merge_request, update_sources, update_scan_sources, add_scan_queues,
    update_exchange_sources, add_exchange_queues, update_output_buffers, update_domains, bump_version.
  frame.
Qed.

Lemma viewed_refresh v : preserves (viewed v) refresh_split_queue_status.
Proof. unfold refresh_split_queue_status. frame. Qed.
#[local] Hint Resolve viewed_refresh : worker.
Lemma viewed_status_payload v : preserves (viewed v) status_payload.
Proof. unfold status_payload. frame. Qed.
#[local] Hint Resolve viewed_status_payload : worker.

Lemma viewed_wait v n : preserves (viewed v) (wait_status_after n).
Proof. unfold wait_status_after. frame. Qed.
Lemma viewed_notify v : preserves (viewed v) notify_status_waiters.
Proof. unfold notify_status_waiters. frame. Qed.
Lemma viewed_timeout v i : preserves (viewed v) (waiter_timeout i).
Proof. unfold waiter_timeout. frame. Qed.
Lemma viewed_poll v s n b : preserves (viewed v) (poll_split_queue s n b).
Proof. unfold poll_split_queue. frame. Qed.
Lemma viewed_release v : preserves (viewed v) release_result.
Proof. unfold release_result. frame. Qed.
Lemma viewed_record v st : preserves (viewed v) (record_task_stats st).
Proof. unfold record_task_stats. frame. Qed.
Lemma viewed_complete v : preserves (viewed v) complete_dynamic_source_splits.
Proof. unfold complete_dynamic_source_splits. frame. Qed.
Lemma viewed_refresh_request v : preserves (viewed v) refresh_request_splits.
Proof. unfold refresh_request_splits. frame. Qed.
Lemma viewed_prepare v : preserves (viewed v) prepare_request.
Proof. unfold prepare_request. frame. Qed.
Lemma viewed_cancel_queues v : preserves (viewed v) cancel_queues.
Proof. unfold cancel_queues. frame. Qed.

End Frames.

#[export] Hint Resolve viewed_scan_queue_do viewed_exchange_queue_do viewed_take_split viewed_add_splits
  viewed_append_update_splits viewed_mark_no_more viewed_no_more_splits viewed_update_task viewed_refresh
  viewed_status_payload viewed_wait viewed_notify viewed_timeout viewed_poll viewed_release viewed_record viewed_complete
  viewed_refresh_request viewed_prepare viewed_cancel_queues : worker.

(** ** The invariant *)

Section Invariant.
Context {Env : WorkerEnv} (cfg : WorkerConfig).

#[local] Arguments task_at : simpl never.
#[local] Arguments task_memory : simpl never.
#[local] Arguments running_memory : simpl never.

Implicit Types (w : Worker) (x : FteTaskExecution).

(** A task that waits for capacity: its coroutine does not exist yet. *)
Definition idle x : Prop := x.(x_future) = None /\ x_terminal x = false.

(** The done callback that will free the task's capacity is registered and
    has not run. *)
Definition has_callback x : Prop := fu_callback <$> x.(x_future) = Some true.

(** [pending] holds the keys that are being started or freed. *)
Record worker_ok (pending : gset string) w : Prop := {
  k_wf : od_wf w.(w_tasks);
  k_refs : forall key i, od_get key w.(w_tasks) = Some i ->
    exists x, w.(w_heap) !! i = Some x /\ key_of x = key;
  k_memory : forall i x, w.(w_heap) !! i = Some x ->
    0 < x.(x_memory_requirement_bytes) <= cfg.(c_memory_budget_bytes);
  k_known : forall key, key ∈ w.(w_running_tasks) -> is_Some (od_get key w.(w_tasks));
  k_callback : forall key x, key ∈ w.(w_running_tasks) -> key ∉ pending ->
    task_at w key = Some x -> has_callback x;
  k_budget : running_memory w <= cfg.(c_memory_budget_bytes);
  k_count : Z.of_nat (size w.(w_running_tasks)) <= cfg.(c_max_running_tasks);
  k_queue_once : NoDup w.(w_queued_tasks);
  k_queued : forall key, key ∈ w.(w_queued_tasks) -> exists x, task_at w key = Some x /\ idle x;
}.

Lemma task_at_get w key x : task_at w key = Some x <->
  exists i, od_get key w.(w_tasks) = Some i /\ w.(w_heap) !! i = Some x.
Proof. unfold task_at. by rewrite bind_Some. Qed.

Lemma task_at_ref w key i x : od_get key w.(w_tasks) = Some i -> w.(w_heap) !! i = Some x -> task_at w key = Some x.
Proof. intros. apply task_at_get. eauto. Qed.

Lemma running_memory_ext w w' :
  w'.(w_running_tasks) = w.(w_running_tasks) -> (forall key, task_memory w' key = task_memory w key) ->
  running_memory w' = running_memory w.
Proof. intros E H. unfold running_memory. rewrite E. f_equal. by apply map_ext. Qed.

(** Replacing one attempt by one with the same identity. *)
Lemma task_at_set w i x' key :
  task_at (put_task i x' w) key =
    if decide (od_get key w.(w_tasks) = Some i /\ (i < length w.(w_heap))%nat) then Some x' else task_at w key.
Proof.
  unfold task_at. cbn. destruct (od_get key (w_tasks w)) as [j|] eqn:E; cbn; [|by case_decide; naive_solver].
  rewrite list_lookup_insert. repeat case_decide; naive_solver.
Qed.

Lemma worker_ok_set pending w i x x' :
  worker_ok pending w -> w.(w_heap) !! i = Some x ->
  x'.(x_task_id) = x.(x_task_id) -> x'.(x_memory_requirement_bytes) = x.(x_memory_requirement_bytes) ->
  (key_of x ∉ pending -> has_callback x -> has_callback x') ->
  (key_of x ∈ w.(w_queued_tasks) -> od_get (key_of x) w.(w_tasks) = Some i -> idle x -> idle x') ->
  worker_ok pending (put_task i x' w).
Proof.
  intros Hw Hx Et Em Hc Hq.
  assert (Hlt : (i < length (w_heap w))%nat) by (by eapply lookup_lt_Some).
  assert (Hkey : forall key, od_get key (w_tasks w) = Some i -> key = key_of x).
  { intros key E. destruct (k_refs _ _ Hw _ _ E) as (y & Hy & <-). congruence. }
  assert (Hmem : forall key, task_memory (put_task i x' w) key = task_memory w key).
  { intros key. unfold task_memory. rewrite task_at_set. case_decide as D; [|done].
    destruct D as [D _]. by rewrite (task_at_ref _ _ _ _ D Hx). }
  split; cbn; try apply Hw.
  - intros key j E. destruct (k_refs _ _ Hw _ _ E) as (y & Hy & Ek). rewrite list_lookup_insert.
    case_decide as D; [|by eauto]. destruct D as [-> _]. exists x'. split; [done|]. unfold key_of in *.
    rewrite Et. naive_solver.
  - intros j y. rewrite list_lookup_insert. case_decide as D; [|apply Hw]. intros [= <-]. rewrite Em. by eapply Hw.
  - intros key y Hr Hp. rewrite task_at_set. case_decide as D; [|by apply (k_callback _ _ Hw)].
    intros [= <-]. destruct D as [D _]. pose proof (Hkey _ D). subst key. apply Hc; [done|].
    eapply Hw; [done..|]. by eapply task_at_ref.
  - erewrite running_memory_ext; [apply Hw|done..].
  - intros key Hin. rewrite task_at_set. destruct (k_queued _ _ Hw _ Hin) as (y & Hy & Hi).
    case_decide as D; [|by eauto]. destruct D as [D _]. pose proof (Hkey _ D). subst key.
    exists x'. split; [done|]. apply Hq; [done..|]. rewrite (task_at_ref _ _ _ _ D Hx) in Hy. naive_solver.
Qed.

(** The part of an attempt that the operations of a started or unqueued task
    keep. *)
Definition sview x := (x.(x_task_id), x.(x_memory_requirement_bytes), fu_callback <$> x.(x_future)).
Definition sviewed v x : Prop := sview x = v.

Lemma viewed_sviewed {A} (m : ST FteTaskExecution A) :
  (forall v, preserves (viewed v) m) -> forall v, preserves (sviewed v) m.
Proof. intros H v x <-. specialize (H (view x) x eq_refl). unfold viewed, view, sviewed, sview in *. congruence. Qed.

(** The attempt at [i] is not the one that waits in the queue under its key. *)
Definition detached (i : nat) w : Prop :=
  exists x, w.(w_heap) !! i = Some x /\
    ~ (key_of x ∈ w.(w_queued_tasks) /\ od_get (key_of x) w.(w_tasks) = Some i).

Definition detached_ok pending (i : nat) w : Prop := worker_ok pending w /\ detached i w.

(** Two workers with the same tasks in the same places, each task with the
    same identity, coroutine and state. *)
Record same_shape w w' : Prop := {
  sh_tasks : w'.(w_tasks) = w.(w_tasks);
  sh_running : w'.(w_running_tasks) = w.(w_running_tasks);
  sh_queued : w'.(w_queued_tasks) = w.(w_queued_tasks);
  sh_heap : forall i, view <$> w'.(w_heap) !! i = view <$> w.(w_heap) !! i;
}.

Lemma same_shape_refl w : same_shape w w.
Proof. done. Qed.

Lemma shape_task w w' key : same_shape w w' -> view <$> task_at w' key = view <$> task_at w key.
Proof.
  intros H. unfold task_at. rewrite (sh_tasks _ _ H). destruct (od_get key (w_tasks w)) as [i|]; [|done].
  apply (sh_heap _ _ H).
Qed.

Lemma shape_at w w' i x' : same_shape w w' -> w'.(w_heap) !! i = Some x' ->
  exists x, w.(w_heap) !! i = Some x /\ view x' = view x.
Proof.
  intros H Hx. pose proof (sh_heap _ _ H i) as E. rewrite Hx in E.
  destruct (w_heap w !! i); [|done]. apply (inj Some) in E. eauto.
Qed.

Lemma shape_at_l w w' i x : same_shape w w' -> w.(w_heap) !! i = Some x ->
  exists x', w'.(w_heap) !! i = Some x' /\ view x' = view x.
Proof.
  intros H Hx. pose proof (sh_heap _ _ H i) as E. rewrite Hx in E.
  destruct (w_heap w' !! i); [|done]. apply (inj Some) in E. eauto.
Qed.

Lemma shape_task_at w w' key x' : same_shape w w' -> task_at w' key = Some x' ->
  exists x, task_at w key = Some x /\ view x' = view x.
Proof.
  intros H Hx. pose proof (shape_task _ _ key H) as E. rewrite Hx in E.
  destruct (task_at w key); [|done]. apply (inj Some) in E. eauto.
Qed.

Lemma shape_memory w w' : same_shape w w' -> running_memory w' = running_memory w.
Proof.
  intros H. apply running_memory_ext; [apply H|]. intros key. unfold task_memory.
  pose proof (shape_task _ _ key H) as E. destruct (task_at w' key), (task_at w key); try done.
  injection E. unfold view. congruence.
Qed.

Lemma view_idle x x' : view x' = view x -> idle x -> idle x'.
Proof. unfold idle, x_terminal, view. intros [= _ _ -> ->]. done. Qed.
Lemma view_callback x x' : view x' = view x -> has_callback x -> has_callback x'.
Proof. unfold has_callback, view. intros [= _ _ -> _]. done. Qed.
Lemma view_key x x' : view x' = view x -> key_of x' = key_of x.
Proof. unfold key_of, view. by intros [= -> _ _ _]. Qed.

Lemma worker_ok_shape pending w w' : same_shape w w' -> worker_ok pending w -> worker_ok pending w'.
Proof.
  intros S Hw. pose proof (shape_memory _ _ S) as Em. pose proof S as [E1 E2 E3 E4].
  split; rewrite ?E1, ?E2, ?E3, ?Em; try apply Hw.
  - intros key i Hi. destruct (k_refs _ _ Hw _ _ Hi) as (x & Hx & <-).
    destruct (shape_at_l _ _ _ _ S Hx) as (x' & Hx' & Ev). exists x'. split; [done|by apply view_key].
  - intros i x' Hx'. destruct (shape_at _ _ _ _ S Hx') as (x & Hx & Ev). injection Ev as _ -> _ _.
    by eapply Hw.
  - intros key x' Hr Hp Hx'. destruct (shape_task_at _ _ _ _ S Hx') as (x & Hx & Ev).
    eapply view_callback; [done|]. by eapply Hw.
  - intros key Hq. destruct (k_queued _ _ Hw _ Hq) as (x & Hx & Hi).
    pose proof (shape_task _ _ key S) as E. rewrite Hx in E. destruct (task_at w' key) as [x'|]; [|done].
    exists x'. split; [done|]. eapply view_idle; [|done]. by apply (inj Some) in E.
Qed.

Lemma detached_shape pending i w w' : same_shape w w' -> detached_ok pending i w -> detached_ok pending i w'.
Proof.
  intros S [Hw (x & Hx & Hd)]. split; [by eapply worker_ok_shape|].
  destruct (shape_at_l _ _ _ _ S Hx) as (x' & Hx' & Ev). exists x'. split; [done|].
  by rewrite (view_key _ _ Ev), (sh_queued _ _ S), (sh_tasks _ _ S).
Qed.

Lemma on_shape {A} w0 i (m : ST FteTaskExecution A) :
  (forall v, preserves (viewed v) m) -> preserves (same_shape w0) (on i m).
Proof.
  intros Hm w [E1 E2 E3 E5]. unfold on. destruct (w_heap w !! i) as [x|] eqn:Hx; [|done].
  specialize (Hm (view x) x eq_refl). destruct (m x) as [r x']. cbn in Hm |- *. split; cbn; [done..|].
  intros j. rewrite <- E5, list_lookup_insert. case_decide as D; [|done]. destruct D as [-> _].
  rewrite Hx. cbn. by rewrite Hm.
Qed.

(** An operation that keeps the shape keeps every invariant of it. *)
Lemma shaped_preserves {A} (I : Worker -> Prop) (m : ST Worker A) :
  (forall w w', same_shape w w' -> I w -> I w') -> (forall w, preserves (same_shape w) m) -> preserves I m.
Proof. intros HI Hm w Hw. eapply HI; [|exact Hw]. apply Hm, same_shape_refl. Qed.

Lemma on_detached {A} pending i (m : ST FteTaskExecution A) :
  (forall v, preserves (sviewed v) m) -> preserves (detached_ok pending i) (on i m).
Proof.
  intros Hm w [Hw (x & Hx & Hd)]. unfold on. rewrite Hx.
  specialize (Hm (sview x) x eq_refl). destruct (m x) as [r x']. cbn in *.
  unfold sviewed, sview in Hm. injection Hm as E1 E2 E3. split.
  - eapply worker_ok_set; [done..| |naive_solver]. intros _. unfold has_callback. by rewrite E3.
  - exists x'. split; [cbn; by rewrite list_lookup_insert_eq by (by eapply lookup_lt_Some)|].
    unfold key_of. cbn. by rewrite E1.
Qed.

End Invariant.

(** Frames of the manager's operations. *)
Ltac shape_step :=
  first
    [ solve [auto with worker nocore]
    | lazymatch goal with
      | |- preserves (same_shape _) (on _ _) => apply on_shape; intros ?; frame
      | H : same_shape _ ?w |- same_shape _ _ => destruct H; split; assumption
      end
    | frame_step ].
Ltac shape := cbv zeta; repeat shape_step.

Ltac detach_step :=
  first
    [ solve [auto with worker nocore]
    | lazymatch goal with
      | |- preserves (detached_ok _ _ _) (on _ _) =>
          first [ apply on_detached; intros ?; solve [frame]
                | apply shaped_preserves; [apply detached_shape | intros ?; solve [shape]] ]
      end
    | frame_step ].
Ltac detach := cbv zeta; repeat detach_step.

Section Operations.
Context {Env : WorkerEnv} (cfg : WorkerConfig).

Lemma publish_shape w0 i : preserves (same_shape w0) (publish_status cfg i).
Proof. unfold publish_status. shape. Qed.
#[local] Hint Resolve publish_shape : worker.

Lemma publish_quiet_shape w0 i : preserves (same_shape w0) (publish_quiet cfg i).
Proof. unfold publish_quiet. shape. Qed.
#[local] Hint Resolve publish_quiet_shape : worker.

Lemma publishing_shape w0 i m :
  (forall v, preserves (viewed v) m) -> preserves (same_shape w0) (publishing cfg i m).
Proof. intros. unfold publishing. shape. Qed.
#[local] Hint Resolve publishing_shape : worker.

Lemma release_shape w0 i : preserves (same_shape w0) (release cfg i).
Proof. unfold release. shape. Qed.
#[local] Hint Resolve release_shape : worker.

Lemma shaped_detached {A} p i (m : ST Worker A) :
  (forall w, preserves (same_shape w) m) -> preserves (detached_ok cfg p i) m.
Proof. intros H. apply shaped_preserves; [|done]. intros w w'. apply detached_shape. Qed.
Lemma shaped_ok {A} p (m : ST Worker A) :
  (forall w, preserves (same_shape w) m) -> preserves (worker_ok cfg p) m.
Proof. intros H. apply shaped_preserves; [|done]. intros w w'. apply worker_ok_shape. Qed.
#[local] Hint Resolve shaped_detached shaped_ok : worker.

Lemma publishing_detached p i m :
  (forall v, preserves (sviewed v) m) -> preserves (detached_ok cfg p i) (publishing cfg i m).
Proof. intros. unfold publishing. detach. Qed.
#[local] Hint Resolve publishing_detached : worker.

(** ** The coroutine *)

Lemma sviewed_set_state b st f v : preserves (sviewed v) (set_state b st f).
Proof. unfold set_state. frame. Qed.
#[local] Hint Resolve sviewed_set_state : worker.

Lemma sviewed_future v f :
  (forall x, fu_callback (f x) = fu_callback x) ->
  preserves (sviewed v) (smodify (fun x => x <| x_future ::= fmap f |>)).
Proof.
  intros Hf. apply preserves_modify. intros x <-. unfold sviewed, sview. cbn.
  destruct (x_future x) as [fu|]; cbn; [by rewrite Hf|done].
Qed.

Lemma sviewed_cancel b v : preserves (sviewed v) (cancel b).
Proof.
  unfold cancel. frame.
  - apply (viewed_sviewed cancel_queues). auto with worker.
  - unfold sviewed, sview in *. cbn. rewrite <- H. by destruct (x_future s) as [[[] ? ?]|].
Qed.
#[local] Hint Resolve sviewed_cancel : worker.

Lemma transition_detached p i st f : preserves (detached_ok cfg p i) (transition cfg i st f).
Proof. unfold transition. detach. Qed.
#[local] Hint Resolve transition_detached : worker.

Lemma end_run_detached p i : preserves (detached_ok cfg p i) (end_run i).
Proof. unfold end_run. apply on_detached. intros v. by apply sviewed_future. Qed.
Lemma suspend_detached p i ph : preserves (detached_ok cfg p i) (suspend i ph).
Proof. unfold suspend. apply on_detached. intros v. by apply sviewed_future. Qed.
#[local] Hint Resolve end_run_detached suspend_detached : worker.

Lemma run_from_wait_detached p i : preserves (detached_ok cfg p i) (run_from_wait cfg i).
Proof. unfold run_from_wait, fail_run, begin_execution. detach. Qed.
#[local] Hint Resolve run_from_wait_detached : worker.

Lemma on_sget_run i w :
  on i sget w = match w.(w_heap) !! i with
                | Some x => (Ok x, w)
                | None => (Raise (KeyError "dangling reference"), w)
                end.
Proof.
  unfold on. destruct (w_heap w !! i) as [x|] eqn:Hx; [|done]. cbn. f_equal. destruct w. unfold put_task. cbn.
  unfold set_field. by rewrite list_insert_id.
Qed.

Lemma preserves_on_get {A} (I : Worker -> Prop) i (k : FteTaskExecution -> ST Worker A) :
  (forall w x, I w -> w.(w_heap) !! i = Some x -> I (snd (k x w))) -> preserves I (sbind (on i sget) k).
Proof.
  intros H w Hw. unfold sbind. rewrite on_sget_run. destruct (w_heap w !! i) as [x|] eqn:Hx; [|done]. by apply H.
Qed.

Lemma started_detached p w i x :
  worker_ok cfg p w -> w.(w_heap) !! i = Some x -> x.(x_future) <> None -> detached_ok cfg p i w.
Proof.
  intros Hw Hx Hf. split; [done|]. exists x. split; [done|]. intros [Hq Hi].
  destruct (k_queued _ _ _ Hw _ Hq) as (y & Hy & Hidle & _). rewrite (task_at_ref _ _ _ _ Hi Hx) in Hy.
  naive_solver.
Qed.

(** An operation of a started attempt. *)
Lemma preserves_started {A} p i (k : ST Worker A) w x :
  preserves (detached_ok cfg p i) k -> worker_ok cfg p w -> w.(w_heap) !! i = Some x -> x.(x_future) <> None ->
  worker_ok cfg p (snd (k w)).
Proof. intros Hk Hw Hx Hf. by eapply Hk, started_detached. Qed.

Lemma run_resume_ok p i : preserves (worker_ok cfg p) (run_resume cfg i).
Proof.
  unfold run_resume. apply preserves_on_get. intros w x Hw Hx. destruct (x_future x) as [f|] eqn:Hf; [|done].
  eapply (preserves_started _ i); [|done..|by rewrite Hf]. destruct f as [ph c cb]. cbn. detach.
Qed.

Lemma run_finish_ok p i o : preserves (worker_ok cfg p) (run_finish cfg i o).
Proof.
  unfold run_finish. apply preserves_on_get. intros w x Hw Hx. destruct (x_future x) as [f|] eqn:Hf; [|done].
  eapply (preserves_started _ i); [|done..|by rewrite Hf]. cbn [fmap option_fmap option_map].
  unfold fail_run, finish_run. detach. 
Qed.

(** ** Capacity *)

Lemma sum_perm (f : string -> Z) l1 l2 : l1 ≡ₚ l2 -> foldr Z.add 0 (map f l1) = foldr Z.add 0 (map f l2).
Proof. intros H. induction H; cbn; lia. Qed.

Lemma sum_elements_union (f : string -> Z) (key : string) (s : gset string) :
  0 <= f key ->
  foldr Z.add 0 (map f (elements ({[key]} ∪ s))) <= f key + foldr Z.add 0 (map f (elements s)).
Proof.
  intros Hf. destruct (decide (key ∈ s)).
  - replace ({[key]} ∪ s) with s by set_solver. lia.
  - assert (P : elements ({[key]} ∪ s) ≡ₚ key :: elements s) by (by apply elements_union_singleton).
    rewrite (sum_perm _ _ _ P). cbn. lia.
Qed.

Lemma sum_elements_minus (f : string -> Z) (key : string) (s : gset string) :
  (forall k, 0 <= f k) ->
  foldr Z.add 0 (map f (elements (s ∖ {[key]}))) <= foldr Z.add 0 (map f (elements s)).
Proof.
  intros Hf. destruct (decide (key ∈ s)) as [Hin|].
  - assert (P : elements s ≡ₚ key :: elements (s ∖ {[key]})).
    { rewrite (union_difference_L {[key]} s) at 1 by set_solver. apply elements_union_singleton. set_solver. }
    rewrite (sum_perm _ _ _ P). cbn. specialize (Hf key). lia.
  - by replace (s ∖ {[key]}) with s by set_solver.
Qed.

Lemma task_memory_nonneg p w key : worker_ok cfg p w -> 0 <= task_memory w key.
Proof.
  intros Hw. unfold task_memory. destruct (task_at w key) as [x|] eqn:E; [|done].
  apply task_at_get in E as (i & _ & Hx). pose proof (k_memory _ _ _ Hw _ _ Hx). lia.
Qed.

Lemma running_memory_set w f :
  running_memory (w <| w_running_tasks ::= f |>) = foldr Z.add 0 (map (task_memory w) (elements (f w.(w_running_tasks)))).
Proof. done. Qed.

(** Freeing a key. *)
Lemma running_minus p w key :
  worker_ok cfg p w -> worker_ok cfg (p ∖ {[key]}) (w <| w_running_tasks ::= fun r => r ∖ {[key]} |>).
Proof.
  intros Hw. split; cbn; try apply Hw.
  - intros k Hk. apply Hw. set_solver.
  - intros k x Hk Hp Hx. eapply Hw; [..|exact Hx]; set_solver.
  - pose proof (k_budget _ _ _ Hw). pose proof (sum_elements_minus (task_memory w) key (w_running_tasks w)
      (fun k => task_memory_nonneg p w k Hw)). rewrite running_memory_set. unfold running_memory in *. lia.
  - pose proof (k_count _ _ _ Hw). assert (size (w_running_tasks w ∖ {[key]}) <= size (w_running_tasks w))%nat; [|lia].
    apply subseteq_size. set_solver.
Qed.

(** Reserving the capacity of a task. *)
Lemma running_plus w i x :
  worker_ok cfg ∅ w -> w.(w_heap) !! i = Some x -> od_get (key_of x) w.(w_tasks) = Some i ->
  capacity_block_reason cfg w x = None ->
  worker_ok cfg {[key_of x]} (w <| w_running_tasks ::= union {[key_of x]} |>).
Proof.
  intros Hw Hx Hi Hc. unfold capacity_block_reason in Hc.
  destruct (Z.leb_spec (c_max_running_tasks cfg) (Z.of_nat (size (w_running_tasks w)))) as [|H1]; [done|].
  destruct (Z.leb_spec (running_memory w + x_memory_requirement_bytes x) (c_memory_budget_bytes cfg)) as [H2|]; [|done].
  split; cbn; try apply Hw.
  - intros k [->%elem_of_singleton|Hk]%elem_of_union; [by eauto|by apply Hw].
  - intros k y [->%elem_of_singleton|Hk]%elem_of_union Hp Hy; [set_solver|]. eapply Hw; [..|exact Hy]; set_solver.
  - assert (Hm : task_memory w (key_of x) = x_memory_requirement_bytes x).
    { unfold task_memory. by rewrite (task_at_ref _ _ _ _ Hi Hx). }
    pose proof (sum_elements_union (task_memory w) (key_of x) (w_running_tasks w) (task_memory_nonneg ∅ w _ Hw)).
    rewrite running_memory_set. unfold running_memory in H2. lia.
  - assert (size ({[key_of x]} ∪ w_running_tasks w) <= S (size (w_running_tasks w)))%nat; [|lia].
    rewrite size_union_alt, size_singleton. apply le_n_S, subseteq_size. set_solver.
Qed.

(** ** Starting and queueing *)

Lemma on_run {A} i (m : ST FteTaskExecution A) w x :
  w.(w_heap) !! i = Some x -> on i m w = (fst (m x), put_task i (snd (m x)) w).
Proof. intros Hx. unfold on. rewrite Hx. by destruct (m x). Qed.

Lemma sbind_run {S A B} (m : ST S A) (k : A -> ST S B) s :
  sbind m k s = match fst (m s) with Ok a => k a (snd (m s)) | Raise e => (Raise e, snd (m s)) end.
Proof. unfold sbind. by destruct (m s) as [[?|?] ?]. Qed.

Lemma publish_quiet_run i w : exists w', publish_quiet cfg i w = (Ok tt, w') /\ same_shape w w'.
Proof.
  pose proof (publish_quiet_shape w i w (same_shape_refl w)) as H. unfold publish_quiet, scatch in *.
  destruct ((let! _ := publish_status cfg i in sret tt) w) as [[[]|e] w']; cbn in *; eauto.
Qed.

Lemma publishing_run i m w x b x' :
  w.(w_heap) !! i = Some x -> m x = (Ok b, x') ->
  exists w', publishing cfg i m w = (Ok tt, w') /\ same_shape (put_task i x' w) w'.
Proof.
  intros Hx Hm. unfold publishing. rewrite sbind_run, (on_run _ _ _ _ Hx), Hm. cbn. destruct b.
  - apply publish_quiet_run.
  - eexists. split; [done|]. apply same_shape_refl.
Qed.

Lemma put_lookup i x w y : w.(w_heap) !! i = Some y -> (put_task i x w).(w_heap) !! i = Some x.
Proof. intros H. apply list_lookup_insert_eq. by eapply lookup_lt_Some. Qed.

Lemma worker_ok_settled w key x :
  worker_ok cfg {[key]} w -> task_at w key = Some x -> has_callback x -> worker_ok cfg ∅ w.
Proof.
  intros Hw Hx Hc. split; try apply Hw. intros k y Hr _ Hy. destruct (decide (k = key)) as [->|].
  - naive_solver.
  - eapply Hw; [done|set_solver|done].
Qed.

(** A started attempt: its state after [start] and the callback. *)
Lemma start_run x :
  x.(x_future) = None -> x_terminal x = false ->
  exists x', start x = (Ok true, x') /\
    x'.(x_task_id) = x.(x_task_id) /\ x'.(x_memory_requirement_bytes) = x.(x_memory_requirement_bytes) /\
    x'.(x_future) = Some (MkFuture Ready false false) /\ x_state x' = RUNNING.
Proof.
  intros Hf Ht. unfold start, set_state, sbind, sget, smodify, sret. rewrite Hf, Ht. eexists. split; [done|]. done.
Qed.

(** [start_execution] of an idle task: it never raises before the task is
    running with its callback registered. *)
Lemma start_execution_run w i x :
  worker_ok cfg ∅ w -> w.(w_heap) !! i = Some x -> od_get (key_of x) w.(w_tasks) = Some i ->
  idle x -> key_of x ∉ w.(w_queued_tasks) -> capacity_block_reason cfg w x = None ->
  worker_ok cfg ∅ (snd (start_execution cfg i w)) /\
  (snd (start_execution cfg i w)).(w_running_tasks) = {[key_of x]} ∪ w.(w_running_tasks) /\
  (snd (start_execution cfg i w)).(w_queued_tasks) = w.(w_queued_tasks).
Proof.
  intros Hw Hx Hi [Hf Ht] Hq Hc. unfold start_execution. rewrite sbind_run, on_sget_run, Hx. cbn. rewrite Ht.
  pose proof (running_plus _ _ _ Hw Hx Hi Hc) as Hw1.
  rewrite sbind_run. cbn [fst snd smodify]. set (w1 := set_field w_running_tasks _ w) in *.
  destruct (start_run x Hf Ht) as (x1 & Es & Et & Em & Ef & _).
  destruct (publishing_run i start w1 x true x1 Hx Es) as (w2 & E2 & S2). rewrite sbind_run, E2. cbn [fst snd].
  assert (Hw2 : worker_ok cfg {[key_of x]} (put_task i x1 w1)).
  { eapply worker_ok_set; [exact Hw1|exact Hx|done..| |]; [set_solver|done]. }
  destruct (shape_at_l _ _ i x1 S2) as (x2 & Hx2 & V2); [by eapply put_lookup|].
  rewrite sbind_run, (on_run _ _ _ _ Hx2). cbn [fst snd add_done_callback smodify].
  match goal with |- context [put_task i ?y w2] => set (x3 := y) end.
  assert (E3 : key_of x3 = key_of x) by (change (key_of x3) with (key_of x2); rewrite (view_key _ _ V2); unfold key_of; by rewrite Et).
  assert (Hc3 : has_callback x3).
  { unfold has_callback, x3. cbn. unfold view in V2. injection V2 as _ _ -> _. by rewrite Ef. }
  assert (Hw3 : worker_ok cfg ∅ (put_task i x3 w2)).
  { eapply (worker_ok_settled _ (key_of x) x3); [|apply (task_at_ref _ _ i)|done].
    - eapply worker_ok_set; [by eapply worker_ok_shape|exact Hx2|done..|].
      intros Hin. exfalso. apply Hq. rewrite (sh_queued _ _ S2) in Hin. rewrite <- E3. exact Hin.
    - change (od_get (key_of x) (w_tasks w2) = Some i). by rewrite (sh_tasks _ _ S2).
    - by eapply put_lookup. }
  rewrite sbind_run.
  pose proof (publish_shape (put_task i x3 w2) i _ (same_shape_refl _)) as S4.
  assert (Hfin : snd (match fst (publish_status cfg i (put_task i x3 w2)) with
     | Ok _ => sret tt (snd (publish_status cfg i (put_task i x3 w2)))
     | Raise e => (Raise e, snd (publish_status cfg i (put_task i x3 w2))) end) =
     snd (publish_status cfg i (put_task i x3 w2))) by (by destruct (fst _)).
  rewrite Hfin. split; [by eapply worker_ok_shape|]. rewrite (sh_running _ _ S4), (sh_queued _ _ S4).
  unfold put_task; cbn. rewrite (sh_running _ _ S2), (sh_queued _ _ S2). done.
Qed.

(** ** The queue *)

(** The first task in the queue does not fit. *)
Definition head_blocked (w : Worker) : Prop :=
  match w.(w_queued_tasks) with
  | [] => True
  | key :: _ => forall x, task_at w key = Some x -> capacity_block_reason cfg w x <> None
  end.

Lemma queued_ok p w l :
  worker_ok cfg p w -> NoDup l -> (forall key, key ∈ l -> key ∈ w.(w_queued_tasks)) ->
  worker_ok cfg p (w <| w_queued_tasks := l |>).
Proof. intros Hw Hl Hs. split; cbn; try apply Hw; [done|]. intros key Hk. by apply Hw, Hs. Qed.

Lemma drain_loop_spec fuel w :
  worker_ok cfg ∅ w -> (length w.(w_queued_tasks) <= fuel)%nat ->
  wp (drain_loop cfg fuel) (fun _ w' => worker_ok cfg ∅ w' /\ head_blocked w') (fun _ w' => worker_ok cfg ∅ w') w.
Proof.
  revert w. induction fuel as [|fuel IH]; intros w Hw Hl.
  - apply wp_ret. split; [done|]. unfold head_blocked. by destruct (w_queued_tasks w); cbn in *; [|lia].
  - simpl. do 2 wp_step. destruct (w_queued_tasks w) as [|key rest] eqn:Eq.
    + apply wp_ret. split; [done|]. unfold head_blocked. by rewrite Eq.
    + do 2 wp_step. pose proof (k_queue_once _ _ _ Hw) as Hn. rewrite Eq in Hn. apply NoDup_cons in Hn as [Hk Hn].
      assert (Hw1 : worker_ok cfg ∅ (w <| w_queued_tasks := rest |>)).
      { apply queued_ok; [done..|]. rewrite Eq. intros ? ?. by right. }
      destruct (k_queued _ _ _ Hw key) as (x & Hx & Hidle); [rewrite Eq; left|].
      apply task_at_get in Hx as (i & Hi & Hx). rewrite Hi. apply wp_bind. unfold wp at 1. rewrite on_sget_run.
      cbn [w_heap]. change (w_heap (w <| w_queued_tasks := rest |>)) with (w_heap w). rewrite Hx.
      destruct (k_refs _ _ _ Hw _ _ Hi) as (x' & Hx' & Ek). assert (x' = x) by congruence. subst x'.
      rewrite (proj2 Hidle). destruct (capacity_block_reason cfg w x) as [b|] eqn:Ec.
      * wp_step. assert (S : same_shape w (w <| w_queued_tasks := rest |> <| w_queued_tasks ::= cons key |>)).
        { split; try done. }
        split; [by eapply worker_ok_shape|]. unfold head_blocked. cbn. intros y Hy.
        assert (y = x) by (apply task_at_get in Hy as (? & ? & ?); cbn in *; congruence). subst y.
        change (capacity_block_reason cfg w x <> None). by rewrite Ec.
      * apply wp_bind. subst key.
        destruct (start_execution_run _ i x Hw1 Hx Hi Hidle Hk Ec) as (Hw2 & _ & Eq2). unfold wp.
        destruct (start_execution cfg i _) as [[[]|e] w2]; cbn in *; [|done].
        apply IH; [done|]. rewrite Eq2. lia.
Qed.

Lemma drain_queue_spec w :
  worker_ok cfg ∅ w ->
  wp (drain_queue cfg) (fun _ w' => worker_ok cfg ∅ w' /\ head_blocked w') (fun _ w' => worker_ok cfg ∅ w') w.
Proof.
  intros Hw. unfold drain_queue. do 2 wp_step. destruct (w_shutdown w).
  - wp_step. split; [|done]. apply queued_ok; [done|constructor|]. by intros ? ?%elem_of_nil.
  - by apply drain_loop_spec.
Qed.

Lemma drain_queue_ok : preserves (worker_ok cfg ∅) (drain_queue cfg).
Proof.
  apply preserves_wp. intros w Hw. eapply wp_mono; [by apply drain_queue_spec| |]; naive_solver.
Qed.
#[local] Hint Resolve drain_queue_ok : worker.

(** A call whose tail drains the queue. *)
Definition settles {A} (I : Worker -> Prop) (m : ST Worker A) : Prop :=
  forall w, I w -> wp m (fun _ w' => worker_ok cfg ∅ w' /\ head_blocked w') (fun _ w' => worker_ok cfg ∅ w') w.

Lemma task_done_settles key : settles (worker_ok cfg {[key]}) (task_done cfg key).
Proof.
  intros w Hw. unfold task_done. do 3 wp_step. wp_step.
  assert (Hw1 : worker_ok cfg ∅ (w <| w_running_tasks ::= fun r => r ∖ {[key]} |>)).
  { pose proof (running_minus _ _ key Hw) as H. by replace ({[key]} ∖ {[key]}) with (∅ : gset string) in H by set_solver. }
  set (w1 := set_field w_running_tasks _ w) in *. cbn [w_tasks]. apply wp_bind.
  apply (wp_mono (fun _ w' => worker_ok cfg ∅ w') _ (fun _ w' => worker_ok cfg ∅ w')); [|intros _ w'; apply drain_queue_spec|done].
  apply preserves_wp; [|done]. destruct (od_get key (w_tasks w1)); detach.
Qed.

Lemma run_done_callback_settles i w x :
  worker_ok cfg ∅ w -> w.(w_heap) !! i = Some x ->
  match x.(x_future) with
  | Some (MkFuture Done _ true) =>
      wp (run_done_callback cfg i) (fun _ w' => worker_ok cfg ∅ w' /\ head_blocked w') (fun _ w' => worker_ok cfg ∅ w') w
  | _ => run_done_callback cfg i w = (Ok tt, w)
  end.
Proof.
  intros Hw Hx. unfold run_done_callback, wp. rewrite sbind_run, on_sget_run, Hx. cbn [fst snd].
  destruct (x_future x) as [[[] c []]|] eqn:Hf; try done.
  rewrite sbind_run, (on_run _ _ _ _ Hx). cbn [fst snd smodify]. apply task_done_settles.
  assert (D : detached_ok cfg ∅ i w) by (eapply started_detached; [done..|by rewrite Hf]).
  destruct D as [_ (y & Hy & Hd)]. assert (y = x) by congruence. subst y.
  eapply worker_ok_set; [|exact Hx|done..| |naive_solver]; [|set_solver].
  split; try apply Hw. intros k y' Hr Hp Hy'. eapply Hw; [done|set_solver|done].
Qed.

(** ** Operations that leave the load alone *)

Definition load x := (x.(x_task_id), x.(x_memory_requirement_bytes)).
Definition loaded v (x : FteTaskExecution) : Prop := load x = v.

Lemma viewed_loaded {A} (m : ST FteTaskExecution A) :
  (forall v, preserves (viewed v) m) -> forall v, preserves (loaded v) m.
Proof. intros H v x <-. specialize (H (view x) x eq_refl). unfold viewed, view, loaded, load in *. congruence. Qed.

Lemma loaded_set_state v b st f : preserves (loaded v) (set_state b st f).
Proof. unfold set_state. frame. Qed.
#[local] Hint Resolve loaded_set_state : worker.
Lemma loaded_cancel v b : preserves (loaded v) (cancel b).
Proof. unfold cancel. frame. apply viewed_loaded. auto with worker. Qed.
Lemma loaded_queue v : preserves (loaded v) queue.
Proof. unfold queue. frame. Qed.

(** The same tasks with the same requirements, running and queued alike. *)
Record same_load (w w' : Worker) : Prop := {
  ld_tasks : w'.(w_tasks) = w.(w_tasks);
  ld_running : w'.(w_running_tasks) = w.(w_running_tasks);
  ld_queued : w'.(w_queued_tasks) = w.(w_queued_tasks);
  ld_heap : forall i, load <$> w'.(w_heap) !! i = load <$> w.(w_heap) !! i;
}.

Lemma same_load_refl w : same_load w w.
Proof. done. Qed.
Lemma same_load_trans w1 w2 w3 : same_load w1 w2 -> same_load w2 w3 -> same_load w1 w3.
Proof. intros [] []. split; try congruence. Qed.
Lemma shape_load w w' : same_shape w w' -> same_load w w'.
Proof.
  intros [? ? ? H]. split; try done. intros i. specialize (H i).
  destruct (w_heap w' !! i), (w_heap w !! i); try done. cbn in *. apply (inj Some) in H.
  unfold view, load in *. f_equal. congruence.
Qed.

Lemma load_task w w' key : same_load w w' -> load <$> task_at w' key = load <$> task_at w key.
Proof.
  intros H. unfold task_at. rewrite (ld_tasks _ _ H). destruct (od_get key (w_tasks w)) as [i|]; [|done].
  apply (ld_heap _ _ H).
Qed.

Lemma load_memory w w' : same_load w w' -> running_memory w' = running_memory w.
Proof.
  intros H. apply running_memory_ext; [apply H|]. intros key. unfold task_memory.
  pose proof (load_task _ _ key H) as E. destruct (task_at w' key), (task_at w key); try done.
  injection E. unfold load. congruence.
Qed.

Lemma head_blocked_load w w' : same_load w w' -> head_blocked w -> head_blocked w'.
Proof.
  intros H. unfold head_blocked. rewrite (ld_queued _ _ H). destruct (w_queued_tasks w) as [|key rest]; [done|].
  intros Hb x' Hx'. pose proof (load_task _ _ key H) as E. rewrite Hx' in E.
  destruct (task_at w key) as [x|] eqn:Hx; [|done]. apply (inj Some) in E. injection E as _ Em.
  specialize (Hb x eq_refl). unfold capacity_block_reason in *.
  by rewrite (load_memory _ _ H), (ld_running _ _ H), Em.
Qed.

Lemma on_load {A} w0 i (m : ST FteTaskExecution A) :
  (forall v, preserves (loaded v) m) -> preserves (same_load w0) (on i m).
Proof.
  intros Hm w [E1 E2 E3 E4]. unfold on. destruct (w_heap w !! i) as [x|] eqn:Hx; [|done].
  specialize (Hm (load x) x eq_refl). destruct (m x) as [r x']. cbn in Hm |- *. split; cbn; [done..|].
  intros j. rewrite <- E4, list_lookup_insert. case_decide as D; [|done]. destruct D as [-> _].
  rewrite Hx. cbn. by rewrite Hm.
Qed.

Lemma shaped_load {A} w0 (m : ST Worker A) :
  (forall w, preserves (same_shape w) m) -> preserves (same_load w0) m.
Proof. intros Hm w Hw. eapply same_load_trans; [done|]. apply shape_load, Hm, same_shape_refl. Qed.
#[local] Hint Resolve shaped_load : worker.

Lemma publishing_load w0 i m : (forall v, preserves (loaded v) m) -> preserves (same_load w0) (publishing cfg i m).
Proof. intros H. unfold publishing. apply preserves_bind; [by apply on_load|]. intros b. frame. Qed.

End Operations.

#[export] Hint Resolve publish_shape publish_quiet_shape publishing_shape release_shape shaped_detached shaped_ok
  publishing_detached sviewed_set_state sviewed_cancel transition_detached end_run_detached suspend_detached
  drain_queue_ok loaded_set_state loaded_cancel loaded_queue shaped_load publishing_load : worker.
