(* ===== verification/WorkerTheorems.v ===== *)
(** * What a worker guarantees

    Each event keeps the invariant of [WorkerProofs], whether it returns or
    raises, and an event that returns leaves the head of the queue blocked.
    The theorems: capacity is never exceeded, queued work never waits on an
    idle worker, a terminal status is final. *)

From S2P Require Import Prelude PyStr PyVal FteTypes FteState Exchange OutputBuffers Descriptor WorkerTask WorkerManager WorkerDemo WorkerProofs.

#[local] Open Scope string_scope.
#[local] Open Scope list_scope.
#[local] Open Scope Z_scope.

#[local] Arguments task_at : simpl never.
#[local] Arguments task_memory : simpl never.
#[local] Arguments running_memory : simpl never.

Section Events.
Context {Env : WorkerEnv} (cfg : WorkerConfig).

Implicit Types (w : Worker) (x : FteTaskExecution).

(** An event keeps the invariant, and the head blocked when it returns. *)
Definition advances {A} (m : ST Worker A) : Prop :=
  forall w, worker_ok cfg ∅ w ->
    wp m (fun _ w' => worker_ok cfg ∅ w' /\ (head_blocked cfg w -> head_blocked cfg w'))
      (fun _ w' => worker_ok cfg ∅ w') w.

Lemma advances_ret {A} (a : A) : advances (sret a).
Proof. by intros w Hw. Qed.
Lemma advances_raise {A} e : advances (@sraise _ A e).
Proof. by intros w Hw. Qed.
Lemma advances_bind {A B} (m : ST Worker A) (k : A -> ST Worker B) :
  advances m -> (forall a, advances (k a)) -> advances (sbind m k).
Proof.
  intros Hm Hk w Hw. apply wp_bind. eapply wp_mono; [by apply Hm| |done].
  intros a w1 [H1 B1]. eapply wp_mono; [by apply Hk| |done]. naive_solver.
Qed.
Lemma advances_loaded {A} (m : ST Worker A) :
  preserves (worker_ok cfg ∅) m -> (forall w, preserves (same_load w) m) -> advances m.
Proof.
  intros Ho Hl w Hw. specialize (Ho w Hw). specialize (Hl w w (same_load_refl w)). unfold wp.
  destruct (m w) as [[a|e] w']; cbn in *; [|done]. split; [done|]. by apply head_blocked_load.
Qed.
Lemma advances_shaped {A} (m : ST Worker A) : (forall w, preserves (same_shape w) m) -> advances m.
Proof. intros H. apply advances_loaded; auto with worker. Qed.
Lemma advances_settles {A} (m : ST Worker A) : settles cfg (worker_ok cfg ∅) m -> advances m.
Proof. intros H w Hw. eapply wp_mono; [by apply H| |done]. naive_solver. Qed.

Lemma wp_shape {A} (m : ST Worker A) Q E w :
  (forall w, preserves (same_shape w) m) -> (forall a w', same_shape w w' -> Q a w') ->
  (forall e w', same_shape w w' -> E e w') -> wp m Q E w.
Proof.
  intros Hm HQ HE. specialize (Hm w w (same_shape_refl w)). unfold wp. destruct (m w) as [[a|e] w']; cbn in Hm; auto.
Qed.

(** ** The coroutine *)

Ltac loads_step :=
  first
    [ solve [auto with worker nocore]
    | lazymatch goal with
      | |- preserves (same_load _) (on _ _) =>
          first [ apply on_load; intros ?; solve [frame] | apply shaped_load; intros ?; solve [shape] ]
      | H : same_load _ ?w |- same_load _ _ => destruct H; split; assumption
      end
    | frame_step ].
Ltac loads := cbv zeta; repeat loads_step.

Lemma resume_loads w i : preserves (same_load w) (run_resume cfg i).
Proof.
  unfold run_resume, run_from_wait, fail_run, begin_execution, transition, end_run, suspend. loads.
Qed.
Lemma finish_loads w i o : preserves (same_load w) (run_finish cfg i o).
Proof.
  unfold run_finish, finish_run, fail_run, transition, end_run. loads.
Qed.

Lemma resume_advances i : advances (run_resume cfg i).
Proof. apply advances_loaded; [apply run_resume_ok|intros; apply resume_loads]. Qed.
Lemma finish_advances i o : advances (run_finish cfg i o).
Proof. apply advances_loaded; [apply run_finish_ok|intros; apply finish_loads]. Qed.

Lemma done_advances i : advances (run_done_callback cfg i).
Proof.
  intros w Hw. destruct (w_heap w !! i) as [x|] eqn:Hx.
  - pose proof (run_done_callback_settles cfg i w x Hw Hx) as H.
    destruct (x_future x) as [[[] c []]|]; try (unfold wp; rewrite H; done).
    eapply wp_mono; [exact H| |done]. naive_solver.
  - unfold run_done_callback. apply wp_bind. unfold wp. by rewrite on_sget_run, Hx.
Qed.

(** ** Creating a task *)

Lemma memory_requirement_positive r d n : memory_requirement_from_request r d = Ok n -> 0 < n.
Proof.
  unfold memory_requirement_from_request, positive_requirement. intros H.
  repeat (case_match; simplify_eq); try lia.
Qed.

Lemma lease_positive r b n : query_task_lease_heap_bytes r b = Ok (Some n) -> 0 < n.
Proof.
  unfold query_task_lease_heap_bytes. intros H. repeat case_match; try discriminate.
  all: inv_ok; repeat case_match; try discriminate; inv_ok; simplify_eq; lia.
Qed.

Lemma new_execution_fresh e b d r x : new_execution e b d r = Ok x -> idle x /\ 0 < x.(x_memory_requirement_bytes).
Proof.
  unfold new_execution. intros H. inv_ok. cbn. split; [done|].
  match goal with H : match ?l with _ => _ end = Ok ?n |- 0 < ?n => destruct l as [n'|] eqn:E end.
  - inv_ok. by eapply lease_positive.
  - by eapply memory_requirement_positive.
Qed.

(** The worker with one more attempt. *)
Definition with_task (key : string) x w : Worker :=
  w <| w_heap ::= fun h => h ++ [x] |> <| w_tasks ::= od_set key (length w.(w_heap)) |>.

Lemma with_task_at key x w k y :
  worker_ok cfg ∅ w -> task_at w k = Some y -> od_get key w.(w_tasks) = None -> task_at (with_task key x w) k = Some y.
Proof.
  intros Hw Hy Hn. apply task_at_get in Hy as (i & Hi & Hy). apply (task_at_ref _ _ i); cbn.
  - rewrite od_get_set. by case_decide; simplify_eq.
  - apply lookup_app_l_Some, Hy.
Qed.

Lemma with_task_ok key x w :
  worker_ok cfg ∅ w -> od_get key w.(w_tasks) = None -> key_of x = key ->
  0 < x.(x_memory_requirement_bytes) <= cfg.(c_memory_budget_bytes) ->
  worker_ok cfg ∅ (with_task key x w) /\ (head_blocked cfg w -> head_blocked cfg (with_task key x w)) /\
  running_memory (with_task key x w) = running_memory w.
Proof.
  intros Hw Hn Hk Hm.
  assert (Hsame : forall k, k ∈ w.(w_running_tasks) -> task_memory (with_task key x w) k = task_memory w k).
  { intros k Hr. destruct (k_known _ _ _ Hw _ Hr) as [i Hi]. destruct (k_refs _ _ _ Hw _ _ Hi) as (y & Hy & _).
    pose proof (task_at_ref _ _ _ _ Hi Hy) as E. unfold task_memory.
    by rewrite E, (with_task_at key x w k y Hw E Hn). }
  assert (Em : running_memory (with_task key x w) = running_memory w).
  { unfold running_memory. cbn. f_equal. apply map_ext_in. intros k Hin. apply Hsame, elem_of_elements.
    by apply list_elem_of_In. }
  split; [|split; [|done]].
  - split; cbn; rewrite ?Em; try apply Hw.
    + apply od_wf_set, Hw.
    + intros k i. rewrite od_get_set. case_decide as D.
      * intros [= <-]. subst k. exists x. by rewrite list_lookup_middle.
      * intros Hi. destruct (k_refs _ _ _ Hw _ _ Hi) as (y & Hy & Ey). exists y. split; [|done]. by apply lookup_app_l_Some.
    + intros i y Hy. apply lookup_app_Some in Hy as [Hy|[_ Hy]]; [by eapply Hw|].
      apply list_lookup_singleton_Some in Hy as [_ <-]. done.
    + intros k Hr. rewrite od_get_set. case_decide; [by eexists|by apply Hw].
    + intros k y Hr Hp Hy. destruct (k_known _ _ _ Hw _ Hr) as [i Hi]. destruct (k_refs _ _ _ Hw _ _ Hi) as (z & Hz & _).
      pose proof (task_at_ref _ _ _ _ Hi Hz) as E. rewrite (with_task_at key x w k z Hw E Hn) in Hy.
      simplify_eq. by eapply Hw.
    + intros k Hq. destruct (k_queued _ _ _ Hw _ Hq) as (y & Hy & Hi). exists y. split; [|done]. by apply with_task_at.
  - unfold head_blocked. cbn. destruct (w_queued_tasks w) as [|k rest] eqn:Eq; [done|]. intros Hb y Hy.
    destruct (k_queued _ _ _ Hw k) as (z & Hz & _); [rewrite Eq; left|].
    rewrite (with_task_at key x w k z Hw Hz Hn) in Hy. simplify_eq. specialize (Hb _ Hz).
    unfold capacity_block_reason in *. by rewrite Em.
Qed.

(** Reserving capacity does not unblock anyone. *)
Lemma blocked_monotone w w' x :
  w.(w_running_tasks) ⊆ w'.(w_running_tasks) -> running_memory w <= running_memory w' ->
  capacity_block_reason cfg w x <> None -> capacity_block_reason cfg w' x <> None.
Proof.
  intros Hs Hm. pose proof (subseteq_size _ _ Hs). unfold capacity_block_reason. repeat case_match; try done; lia.
Qed.

Lemma running_memory_plus p w key :
  worker_ok cfg p w -> running_memory w <= running_memory (w <| w_running_tasks ::= union {[key]} |>).
Proof.
  intros Hw. rewrite running_memory_set. unfold running_memory. destruct (decide (key ∈ w_running_tasks w)).
  - by replace ({[key]} ∪ w_running_tasks w) with (w_running_tasks w) by set_solver.
  - rewrite (sum_perm _ (elements ({[key]} ∪ w_running_tasks w)) (key :: elements (w_running_tasks w)))
      by (by apply elements_union_singleton).
    cbn. pose proof (task_memory_nonneg cfg p w key Hw). lia.
Qed.

Lemma loaded_start v : preserves (loaded v) start.
Proof. unfold start. frame. Qed.
#[local] Hint Resolve loaded_start : worker.

Lemma start_execution_load w i x :
  w.(w_heap) !! i = Some x -> x_terminal x = false ->
  same_load (w <| w_running_tasks ::= union {[key_of x]} |>) (snd (start_execution cfg i w)).
Proof.
  intros Hx Ht. unfold start_execution. rewrite sbind_run, on_sget_run, Hx. cbn [fst snd]. rewrite Ht, sbind_run.
  cbn [fst snd smodify]. set (w1 := set_field w_running_tasks _ w).
  match goal with |- same_load w1 (snd (?m w1)) => enough (H : preserves (same_load w1) m) by (apply H, same_load_refl) end.
  unfold add_done_callback. loads.
Qed.

(** A task that is not in the queue joins it or starts. *)
Lemma admit_spec w i x :
  worker_ok cfg ∅ w -> w.(w_heap) !! i = Some x -> od_get (key_of x) w.(w_tasks) = Some i ->
  idle x -> key_of x ∉ w.(w_queued_tasks) ->
  wp (admit_or_queue cfg i) (fun _ w' => worker_ok cfg ∅ w' /\ (head_blocked cfg w -> head_blocked cfg w'))
    (fun _ w' => worker_ok cfg ∅ w') w.
Proof.
  intros Hw Hx Hi Hidle Hq. unfold admit_or_queue. apply wp_bind. unfold wp at 1. rewrite on_sget_run, Hx.
  do 2 wp_step. cbv zeta. destruct (bool_decide (key_of x ∈ w_running_tasks w) || x_terminal x); [by apply wp_ret|].
  destruct (capacity_block_reason cfg w x) as [b|] eqn:Ec.
  - apply wp_bind.
    assert (Equeue : exists b x', queue x = (Ok b, x') /\ load x' = load x /\ idle x').
    { destruct Hidle as [Hf Ht]. unfold queue, set_state, sbind, sget, smodify, sret. rewrite Hf, Ht. cbn. rewrite Ht. cbn.
      do 2 eexists. split; [done|]. done. }
    destruct Equeue as (b' & x' & Eq & El & Hi').
    destruct (publishing_run cfg i queue w x b' x' Hx Eq) as (w1 & E1 & S1). unfold wp at 1. rewrite E1.
    assert (Hput : worker_ok cfg ∅ (put_task i x' w)).
    { eapply worker_ok_set; [done|exact Hx|by injection El|by injection El| |done].
      intros _ Hc. destruct Hidle as [Hf _]. unfold has_callback in Hc. by rewrite Hf in Hc. }
    assert (Hw1 : worker_ok cfg ∅ w1) by (by eapply worker_ok_shape).
    assert (L1 : same_load w w1).
    { eapply same_load_trans; [|by apply shape_load]. split; cbn; try done. intros j.
      rewrite list_lookup_insert. case_decide as D; [|done]. destruct D as [-> _]. rewrite Hx. cbn. by rewrite El. }
    wp_step. wp_step. rewrite bool_decide_false by (by rewrite (sh_queued _ _ S1)).
    set (w2 := set_field w_queued_tasks _ w1).
    assert (Hx1 : exists x1, task_at w1 (key_of x) = Some x1 /\ idle x1 /\ load x1 = load x).
    { destruct (shape_at_l _ _ i x' S1) as (x1 & Hx1 & V1); [by eapply put_lookup|]. exists x1. split.
      - apply (task_at_ref _ _ i); [|done]. by rewrite (sh_tasks _ _ S1).
      - split; [by eapply view_idle|]. unfold view, load in *. injection V1. injection El. congruence. }
    destruct Hx1 as (x1 & Hx1 & Hidle1 & El1).
    assert (Hw2 : worker_ok cfg ∅ w2).
    { split; unfold w2; cbn; try apply Hw1.
      - apply NoDup_app. split; [apply Hw1|]. split; [|apply NoDup_singleton].
        intros k Hk ->%list_elem_of_singleton. by rewrite (sh_queued _ _ S1) in Hk.
      - intros k [Hk| ->%list_elem_of_singleton]%elem_of_app; [by apply Hw1|]. exists x1. done. }
    apply wp_bind. eapply wp_mono.
    { apply (advances_shaped (publish_status cfg i)); [auto with worker|exact Hw2]. }
    2: done.
    intros _ w3 [Hw3 Hb3]. apply wp_ret. split; [done|]. intros Hb. apply Hb3. apply (head_blocked_load cfg w w1 L1) in Hb.
    unfold head_blocked, w2. cbn. destruct (w_queued_tasks w1) as [|k rest] eqn:Eqq.
    + cbn. intros y Hy. change (task_at w1 (key_of x) = Some y) in Hy. rewrite Hx1 in Hy. injection Hy as <-.
      change (capacity_block_reason cfg w1 x1 <> None). unfold capacity_block_reason in *.
      unfold load in El1. injection El1 as _ Em1. rewrite (load_memory _ _ L1), (ld_running _ _ L1), Em1. by rewrite Ec.
    + cbn. unfold head_blocked in Hb. rewrite Eqq in Hb. exact Hb.
  - destruct (start_execution_run cfg w i x Hw Hx Hi Hidle Hq Ec) as (Hw1 & Er & Eq). unfold wp.
    pose proof (start_execution_load w i x Hx (proj2 Hidle)) as L. clear Er Eq.
    destruct (start_execution cfg i w) as [[[]|e] w1] eqn:Es; cbn in *; [|done]. split; [done|].
    intros Hb. eapply head_blocked_load; [exact L|]. revert Hb. unfold head_blocked. cbn.
    destruct (w_queued_tasks w) as [|k rest]; [done|]. intros Hb y Hy.
    apply (blocked_monotone w); [cbn; set_solver|by eapply running_memory_plus|]. by apply Hb.
Qed.


Lemma create_advances r : advances (create_task cfg r).
Proof.
  intros w Hw. unfold create_task. do 4 wp_step; [|done]. do 2 wp_step; [|done]. rename a into x. cbv zeta.
  apply new_execution_fresh in H0 as [Hidle Hpos].
  destruct (od_get (key_of x) (w_tasks w)) as [i|] eqn:Ek.
  { by apply advances_shaped; [auto with worker|]. }
  do 2 wp_step; [|done]. apply Z.ltb_ge in H0.
  set (i := length (w_heap w)).
  apply wp_bind, wp_modify. set (w1 := if od_mem _ _ then _ else _).
  assert (S1 : same_shape w w1) by (unfold w1; by destruct (od_mem _ _)).
  apply wp_bind, wp_modify. apply wp_bind, wp_modify.
  match goal with |- wp _ _ _ ?v => set (w2 := v) end.
  set (w1' := set_field w_status_cache (od_pop (key_of x)) w1) in *.
  assert (S1' : same_shape w w1') by (destruct S1; by split).
  assert (Eh : w_heap w1' = w_heap w) by (unfold w1', w1; by destruct (od_mem _ _)).
  assert (S2 : same_shape (with_task (key_of x) x w1') w2).
  { unfold with_task, w2. rewrite Eh. by split. }
  assert (Hw1 : worker_ok cfg ∅ w1') by (by eapply worker_ok_shape).
  destruct (with_task_ok (key_of x) x w1' Hw1) as (Hwt & Hbt & _); [by rewrite (sh_tasks _ _ S1')|done|lia|].
  assert (Hw2 : worker_ok cfg ∅ w2) by (by eapply worker_ok_shape).
  assert (Hx2 : w_heap w2 !! i = Some x) by (change (w_heap w2) with (w_heap w1' ++ [x]); rewrite Eh; by apply list_lookup_middle).
  assert (Hi2 : od_get (key_of x) (w_tasks w2) = Some i).
  { change (w_tasks w2) with (od_set (key_of x) i (w_tasks w1')). apply od_get_set_eq. }
  assert (Hq2 : key_of x ∉ w_queued_tasks w2).
  { change (w_queued_tasks w2) with (w_queued_tasks w1'). rewrite (sh_queued _ _ S1'). intros Hin.
    destruct (k_queued _ _ _ Hw _ Hin) as (y & Hy & _). apply task_at_get in Hy as (j & Hj & _). congruence. }
  assert (B2 : head_blocked cfg w -> head_blocked cfg w2).
  { intros Hb. eapply head_blocked_load; [apply shape_load, S2|]. apply Hbt. eapply head_blocked_load; [|exact Hb].
    by apply shape_load. }
  apply wp_bind, wp_shape; [auto with worker| |intros; by eapply worker_ok_shape]. intros _ w3 S3.
  destruct (shape_at_l _ _ _ _ S3 Hx2) as (x3 & Hx3 & V3). pose proof (view_key _ _ V3) as K3.
  apply wp_bind. eapply wp_mono; [eapply admit_spec; [by eapply worker_ok_shape|exact Hx3|..]| |done].
  - by rewrite K3, (sh_tasks _ _ S3).
  - by eapply view_idle.
  - by rewrite K3, (sh_queued _ _ S3).
  - intros _ w4 [Hw4 B4]. apply wp_shape; [auto with worker| |intros; by eapply worker_ok_shape].
    intros _ w5 S5. split; [by eapply worker_ok_shape|]. intros Hb.
    eapply head_blocked_load; [by apply shape_load|]. apply B4.
    eapply head_blocked_load; [by apply shape_load|]. by apply B2.
Qed.

(** ** Cancelling and dropping *)

Lemma remove_first_elem key k l : k ∈ remove_first key l -> k ∈ l.
Proof.
  induction l as [|y l IH]; cbn; [done|]. destruct (String.eqb y key).
  - by right.
  - intros [->|H]%elem_of_cons; [left|right; auto].
Qed.

Lemma remove_first_once key l : NoDup l -> NoDup (remove_first key l) /\ key ∉ remove_first key l.
Proof.
  induction l as [|y l IH]; cbn; [by split; [|set_solver]|]. intros [Hy Hl]%NoDup_cons.
  destruct (String.eqb_spec y key) as [->|]; [by split|]. destruct (IH Hl) as [H1 H2]. split.
  - apply NoDup_cons. split; [|done]. by intros ?%remove_first_elem.
  - rewrite not_elem_of_cons. by split.
Qed.

Lemma unqueue_ok key w :
  worker_ok cfg ∅ w -> worker_ok cfg ∅ (w <| w_queued_tasks ::= remove_first key |>) /\
    key ∉ remove_first key w.(w_queued_tasks).
Proof.
  intros Hw. destruct (remove_first_once key (w_queued_tasks w)) as [H1 H2]; [apply Hw|]. split; [|done].
  apply (queued_ok cfg ∅ w (remove_first key (w_queued_tasks w))); [done..|]. intros k. apply remove_first_elem.
Qed.

Lemma unqueued_detached w i x :
  worker_ok cfg ∅ w -> w.(w_heap) !! i = Some x -> key_of x ∉ w.(w_queued_tasks) -> detached_ok cfg ∅ i w.
Proof. intros Hw Hx Hq. split; [done|]. exists x. naive_solver. Qed.

Lemma running_minus_ok key w :
  worker_ok cfg ∅ w -> worker_ok cfg ∅ (w <| w_running_tasks ::= fun r => r ∖ {[key]} |>).
Proof.
  intros Hw. pose proof (running_minus cfg ∅ w key Hw) as H.
  by replace (∅ ∖ {[key]}) with (∅ : gset string) in H by set_solver.
Qed.

Lemma cancel_advances id : advances (cancel_task cfg id).
Proof.
  unfold cancel_task, status_or, find_task, dropped_status, key_for. intros w Hw.
  do 4 wp_step; [|done]. do 2 wp_step. rename a into a0.
  destruct (od_get (TaskAttemptId.to_str a0) (w_tasks w)) as [i|] eqn:Hi.
  2:{ do 4 wp_step; [|done]. do 2 wp_step. case_match; [by wp_step|]. do 3 wp_step; [|done]. by do 2 wp_step. }
  destruct (k_refs _ _ _ Hw _ _ Hi) as (x & Hx & Ek). apply wp_bind. unfold wp at 1.
  rewrite (on_run i (sgets key_of) w x Hx). cbn [sgets fst snd].
  assert (S0 : same_shape w (put_task i x w)).
  { split; try done. intros j. cbn. by rewrite list_insert_id. }
  set (w0 := put_task i x w) in *. assert (Hw0 : worker_ok cfg ∅ w0) by (by eapply worker_ok_shape).
  do 2 wp_step. destruct (unqueue_ok (key_of x) w0 Hw0) as [Hw1 Hq1]. set (w1 := set_field w_queued_tasks _ w0) in *.
  assert (Hd : detached_ok cfg ∅ i w1).
  { apply (unqueued_detached w1 i x); [done| |done]. change (w_heap w1) with (w_heap w0). by eapply put_lookup. }
  apply wp_bind. eapply wp_mono.
  { assert (P : preserves (detached_ok cfg ∅ i) (publishing cfg i (cancel true))) by auto with worker.
    exact (proj1 (preserves_wp _ _) P w1 Hd). }
  2: by intros ? w2 [? _].
  intros ? w2 Hd2. apply wp_bind, wp_shape; [auto with worker| |intros e w3 S3; eapply worker_ok_shape; [exact S3|apply Hd2]].
  intros _ w3 S3. do 2 wp_step. apply wp_bind. eapply wp_mono.
  { apply drain_queue_spec, running_minus_ok. eapply worker_ok_shape; [exact S3|apply Hd2]. }
  2: done.
  intros _ w4 [Hw4 B4]. apply wp_bind, wp_shape; [auto with worker| |intros; by eapply worker_ok_shape].
  intros st w5 S5. wp_step. split; [by eapply worker_ok_shape|]. intros _. eapply head_blocked_load; [by apply shape_load|done].
Qed.

(** Forgetting a task that is not queued. *)
Lemma forget_ok key w :
  worker_ok cfg ∅ w -> key ∉ w.(w_queued_tasks) ->
  worker_ok cfg ∅ (w <| w_tasks ::= od_pop key |> <| w_running_tasks ::= fun r => r ∖ {[key]} |>).
Proof.
  intros Hw Hq.
  assert (Hat : forall k, k <> key -> task_at (w <| w_tasks ::= od_pop key |> <| w_running_tasks ::= fun r => r ∖ {[key]} |>) k = task_at w k).
  { intros k Hk. unfold task_at. cbn. by rewrite od_get_pop_ne. }
  pose proof (running_minus_ok key w Hw) as Hr.
  assert (Em : running_memory (w <| w_tasks ::= od_pop key |> <| w_running_tasks ::= fun r => r ∖ {[key]} |>) =
    running_memory (w <| w_running_tasks ::= fun r => r ∖ {[key]} |>)).
  { unfold running_memory. cbn. f_equal. apply map_ext_in. intros k Hin%list_elem_of_In%elem_of_elements.
    unfold task_memory. rewrite Hat by set_solver. done. }
  split; rewrite ?Em; cbn; try apply Hr; try apply Hw.
  - apply od_wf_pop, Hw.
  - intros k i Hi. apply Hw. destruct (decide (k = key)) as [->|]; [by rewrite od_get_pop_eq in Hi by apply Hw|].
    by rewrite od_get_pop_ne in Hi.
  - intros k Hk. rewrite od_get_pop_ne by set_solver. apply Hw. set_solver.
  - intros k x Hk Hp. rewrite Hat by set_solver. apply Hw; set_solver.
  - intros k Hk. rewrite Hat by set_solver. by apply Hw.
Qed.

Lemma evict_shape fuel w0 w : same_shape w0 w -> same_shape w0 (evict_dropped fuel w).
Proof.
  revert w. induction fuel as [|fuel IH]; intros w Hs; cbn; [done|].
  destruct (w_dropped_order w); [done|]. case_match; [|done]. apply IH. by destruct Hs; split.
Qed.

Lemma store_dropped_shape w0 key st : preserves (same_shape w0) (store_dropped_status key st).
Proof.
  unfold store_dropped_status. apply preserves_bind; [|intros _]; apply preserves_modify; intros w Hs.
  - destruct (od_mem key _); by destruct Hs; split.
  - by apply evict_shape.
Qed.
#[local] Hint Resolve store_dropped_shape : worker.

Lemma discard_query_shape w0 q key : preserves (same_shape w0) (discard_query_task q key).
Proof. unfold discard_query_task. apply preserves_modify. intros w Hs. case_match; [|done]. by destruct Hs; split. Qed.
#[local] Hint Resolve discard_query_shape : worker.

Lemma retire_detached key i : preserves (detached_ok cfg ∅ i) (retire_task cfg key i).
Proof.
  unfold retire_task. detach. eapply detached_shape; [|eassumption]. by split.
Qed.
Lemma retire_load w0 key i : preserves (same_load w0) (retire_task cfg key i).
Proof. unfold retire_task. loads. Qed.

Lemma drop_task_ok q acc key : preserves (worker_ok cfg ∅) (drop_task cfg q acc key).
Proof.
  apply preserves_wp. intros w Hw. unfold drop_task. do 2 wp_step.
  destruct (od_get key (w_tasks w)) as [i|] eqn:Hi.
  2:{ apply wp_bind, wp_shape; [auto with worker|intros|intros]; [wp_step|]; by eapply worker_ok_shape. }
  destruct (k_refs _ _ _ Hw _ _ Hi) as (x & Hx & Ek). do 2 wp_step.
  destruct (unqueue_ok key w Hw) as [Hw1 Hq1]. set (w1 := set_field w_queued_tasks _ w) in *.
  assert (Hd : detached_ok cfg ∅ i w1) by (apply (unqueued_detached w1 i x); [done|done|by rewrite Ek]).
  apply wp_bind. unfold wp at 1.
  match goal with |- context [scatch ?m ?p ?h w1] => 
    assert (P1 : preserves (detached_ok cfg ∅ i) (scatch m p h));
    [|assert (P2 : preserves (same_load w1) (scatch m p h)); [|destruct (scatch m p h w1) as [[[c|]|e] w2] eqn:Er]] end.
  { pose proof (retire_detached key i). detach. }
  { pose proof (retire_load w1 key i). loads. }
  all: specialize (P1 w1 Hd); specialize (P2 w1 (same_load_refl w1)); rewrite Er in P1, P2; cbn in P1, P2.
  2: { wp_step. apply P1. }
  2: apply P1.
  do 2 wp_step. rewrite bool_decide_true by (by rewrite (ld_tasks _ _ P2)).
  assert (Hq2 : key ∉ w_queued_tasks w2) by (by rewrite (ld_queued _ _ P2)).
  pose proof (forget_ok key w2 (proj1 P1) Hq2) as Hw3. set (w3 := set_field w_tasks (od_pop key) w2).
  assert (Hend : forall w', same_shape w3 w' -> worker_ok cfg ∅ (w' <| w_running_tasks ::= fun r => r ∖ {[key]} |>)).
  { intros w' [E1 E2 E3 E4]. eapply worker_ok_shape; [|exact Hw3]. split; cbn; try done. by rewrite E2. }
  pose proof (discard_query_shape w3 q key w3 (same_shape_refl w3)) as Sq.
  unfold discard_query_task in Sq |- *. apply wp_bind, wp_modify. cbn in Sq. do 2 wp_step. wp_step. by apply Hend.
Qed.

Lemma drop_advances q : advances (drop_query cfg q).
Proof.
  apply advances_settles. intros w Hw. unfold drop_query. do 2 wp_step. cbv zeta. apply wp_bind. eapply wp_mono.
  { apply (proj1 (preserves_wp (worker_ok cfg ∅) (sfold (elements _) (drop_task cfg q) _))); [|exact Hw].
    apply preserves_fold. intros. apply drop_task_ok. }
  2: done.
  intros count w1 Hw1. do 2 wp_step. match goal with |- wp _ _ _ ?v => set (w2 := v) end.
  assert (Hw2 : worker_ok cfg ∅ w2).
  { eapply worker_ok_shape; [|exact Hw1]. unfold w2. case_bool_decide; [by split|done]. }
  apply wp_bind, wp_catch, wp_bind. eapply wp_mono; [by apply drain_queue_spec| |].
  - intros ? w3 Hw3. wp_step. cbv zeta. case_match; wp_step; [done|apply Hw3].
  - intros ? w3 Hw3. wp_step. cbv zeta. case_match; [by destruct (dc_errors count)|by wp_step].
Qed.

(** ** Shutting down *)

Definition emptied w : Prop := worker_ok cfg ∅ w /\ w.(w_queued_tasks) = [].

Lemma emptied_shape w w' : same_shape w w' -> emptied w -> emptied w'.
Proof. intros S [H E]. split; [by eapply worker_ok_shape|]. by rewrite (sh_queued _ _ S). Qed.

Lemma shutdown_task_ok b acc item : preserves emptied (shutdown_task cfg b acc item).
Proof.
  destruct item as [key i]. unfold shutdown_task. cbv zeta. apply preserves_bind.
  - apply preserves_catch; [|intros; apply preserves_ret]. apply preserves_bind; [|intros; apply preserves_ret].
    apply preserves_on_get. intros w x [Hw He] Hx.
    match goal with |- emptied (snd (?m w)) =>
      assert (P : preserves (detached_ok cfg ∅ i) m) by detach; assert (L : preserves (same_load w) m) by loads end.
    specialize (L w (same_load_refl w)). assert (D : detached_ok cfg ∅ i w).
    { apply (unqueued_detached w i x); [done..|]. rewrite He. set_solver. }
    specialize (P w D). split; [apply P|]. by rewrite (ld_queued _ _ L).
  - intros [c|]; [|apply preserves_ret]. intros w [Hw He]. cbn. split; [|done].
    apply (forget_ok key w Hw). rewrite He. set_solver.
Qed.

Lemma shutdown_advances b : advances (shutdown cfg b).
Proof.
  apply advances_settles. intros w Hw. unfold shutdown. do 2 wp_step. do 2 wp_step. apply wp_bind.
  match goal with |- wp _ _ _ ?v => assert (He : emptied v) end.
  { split; [|done]. apply (queued_ok cfg ∅ w []) in Hw; [|constructor|by intros ? ?%elem_of_nil].
    eapply worker_ok_shape; [|exact Hw]. by split. }
  eapply wp_mono.
  { apply (proj1 (preserves_wp emptied (sfold _ (shutdown_task cfg b) _))); [|exact He].
    apply preserves_fold. intros. apply shutdown_task_ok. }
  2: by intros ? w1 [? _].
  intros count w1 [Hw1 He1]. do 2 wp_step.
  assert (Hw2 : worker_ok cfg ∅ (w1 <| w_query_tasks := [] |>)) by (eapply worker_ok_shape; [|exact Hw1]; by split).
  destruct (dc_errors count); wp_step; [|done]. split; [done|]. unfold head_blocked. cbn. by rewrite He1.
Qed.

(** ** Every event *)

Lemma advances_quietly {A} (m : ST Worker A) : advances m -> advances (quietly m).
Proof. intros H. unfold quietly. apply advances_bind; [done|]. intros. apply advances_ret. Qed.

Lemma handle_advances e : advances (handle cfg e).
Proof.
  destruct e; cbn [handle]; try apply advances_quietly.
  - apply create_advances.
  - apply advances_shaped. unfold w_add_splits, get_task, find_task, key_for. intros. shape.
  - apply advances_shaped. unfold w_no_more_splits, get_task, find_task, key_for. intros. shape.
  - apply advances_shaped. unfold w_update_task, get_task, find_task, key_for. intros. shape.
  - apply advances_shaped. unfold get_task_status, status_or, find_task, dropped_status, key_for, unknown_status. intros. shape.
  - apply advances_shaped. unfold get_cached_task_status, status_or, find_task, dropped_status, key_for, unknown_status. intros. shape.
  - apply advances_shaped. unfold wait_task_status, find_task, dropped_status, get_task, find_task, key_for. intros. shape.
  - apply advances_shaped. unfold wait_split_queue_has_space, poll_space, get_task, find_task, key_for. intros. shape.
  - apply advances_shaped. unfold get_task_info, get_task, status_or, find_task, dropped_status, key_for. intros. shape.
  - apply advances_shaped. unfold ack_task_result, status_or, find_task, dropped_status, key_for, unknown_status. intros. shape.
  - apply advances_shaped. unfold release_task_result, status_or, find_task, dropped_status, key_for, unknown_status. intros. shape.
  - apply cancel_advances.
  - apply drop_advances.
  - apply shutdown_advances.
  - apply resume_advances.
  - apply finish_advances.
  - apply done_advances.
  - apply advances_shaped. unfold wake_waiters, answer_waiter. intros. shape.
  - apply advances_shaped. unfold expire_waiter, answer_waiter. intros. shape.
  - apply advances_shaped. unfold poll_space. intros. shape.
  - apply advances_shaped. intros. shape.
  - apply advances_shaped. intros. shape.
Qed.

(** ** Theorems *)

(** [FteWorkerAdmissionConfig] accepted the limits. *)
Definition config_ok : Prop :=
  worker_admission_config_ok cfg.(c_max_running_tasks) cfg.(c_mode) cfg.(c_memory_budget_bytes)
    cfg.(c_task_memory_bytes) = Ok tt.

Lemma config_positive : config_ok -> 0 < cfg.(c_max_running_tasks) /\ 0 < cfg.(c_memory_budget_bytes).
Proof. unfold config_ok, worker_admission_config_ok. intros H. inv_ok. lia. Qed.

Lemma new_worker_ok : config_ok -> worker_ok cfg ∅ new_worker.
Proof.
  intros [H1 H2]%config_positive. split; cbn; try done; try lia; try set_solver.
  - constructor.
  - unfold running_memory. cbn [w_running_tasks new_worker]. rewrite elements_empty. cbn. lia.
  - rewrite size_empty. lia.
  - constructor.
Qed.

Lemma history_ok es w : worker_ok cfg ∅ w -> worker_ok cfg ∅ (history cfg w es).
Proof.
  revert w. induction es as [|e es IH]; intros w Hw; cbn; [done|]. apply IH.
  pose proof (handle_advances e w Hw) as H. unfold wp in H. destruct (handle cfg e w) as [[?|?] w']; cbn; [apply H|done].
Qed.

Lemma clean_ok es w w' :
  clean cfg w es w' -> worker_ok cfg ∅ w -> head_blocked cfg w -> worker_ok cfg ∅ w' /\ head_blocked cfg w'.
Proof.
  induction 1 as [|w e w1 es w2 He _ IH]; [done|]. intros Hw Hb.
  pose proof (handle_advances e w Hw) as H. unfold wp in H. rewrite He in H. apply IH; naive_solver.
Qed.

(** C23: over every history of events, calls that raise included, a worker's
    accounts stay within its limits: [running_tasks] never has more entries
    than the task limit, the memory reserved for them never exceeds the
    budget, and every entry belongs to an attempt whose done callback is
    registered and has not run, so that no reservation is leaked.  (How a run
    can escape these accounts is [stale_callback_overcommits].) *)
Theorem worker_within_budget es :
  config_ok ->
  let w := history cfg new_worker es in
  running_memory w <= cfg.(c_memory_budget_bytes) /\
  Z.of_nat (size w.(w_running_tasks)) <= cfg.(c_max_running_tasks) /\
  (forall key, key ∈ w.(w_running_tasks) -> exists x, task_at w key = Some x /\ has_callback x).
Proof.
  intros Hc w. pose proof (history_ok es _ (new_worker_ok Hc)) as Hw. fold w in Hw.
  split; [apply Hw|]. split; [apply Hw|]. intros key Hr.
  destruct (k_known _ _ _ Hw _ Hr) as [i Hi]. destruct (k_refs _ _ _ Hw _ _ Hi) as (x & Hx & _).
  pose proof (task_at_ref _ _ _ _ Hi Hx) as E. exists x. split; [done|]. eapply Hw; [done|set_solver|done].
Qed.

(** C24: in a history in which no call raises, the task at the head of the
    queue waits only while capacity is really taken: when the queue is not
    empty, some task is running, the task at its head has not started and
    does not fit beside the running ones, and every running entry will be
    freed by a done callback.  The queue is served in order: a task behind
    the head waits for the head, also when it would fit itself. *)
Theorem queued_work_is_served es w key rest :
  config_ok -> clean cfg new_worker es w -> w.(w_queued_tasks) = key :: rest ->
  w.(w_running_tasks) <> ∅ /\
  (exists x, task_at w key = Some x /\ idle x /\ capacity_block_reason cfg w x <> None) /\
  (forall k x, k ∈ w.(w_running_tasks) -> task_at w k = Some x -> has_callback x).
Proof.
  intros Hc Hcl Hq. destruct (clean_ok es _ _ Hcl (new_worker_ok Hc)) as [Hw Hb]; [done|].
  destruct (k_queued _ _ _ Hw key) as (x & Hx & Hi); [rewrite Hq; left|].
  unfold head_blocked in Hb. rewrite Hq in Hb. specialize (Hb x Hx). split; [|split].
  - intros E. apply Hb. unfold capacity_block_reason. destruct (config_positive Hc). rewrite E, size_empty.
    destruct (Z.leb_spec (c_max_running_tasks cfg) (Z.of_nat 0)); [lia|].
    replace (running_memory w) with 0 by (unfold running_memory; by rewrite E, elements_empty).
    apply task_at_get in Hx as (i & _ & Hx). pose proof (k_memory _ _ _ Hw _ _ Hx).
    destruct (Z.leb_spec (0 + x_memory_requirement_bytes x) (c_memory_budget_bytes cfg)); [done|lia].
  - exists x. done.
  - intros k y Hr Hy. eapply Hw; [done|set_solver|done].
Qed.

End Events.

(** ** Examples *)

(** Three tasks of 60 bytes: the second and third wait for the first. *)
Definition demo_busy : list event :=
  [ECreate (demo_request 1 60); ECreate (demo_request 2 60); ECreate (demo_request 3 60)].

Lemma worker_within_budget_witness :
  let w := history demo_config new_worker demo_busy in
  running_memory w = 60 /\ running_memory w <= 100 /\ w.(w_queued_tasks) = ["q.0.2.0"; "q.0.3.0"].
Proof.
  intros w. split; [vm_compute; reflexivity|]. split; [|vm_compute; reflexivity].
  exact (proj1 (worker_within_budget demo_config demo_busy eq_refl)).
Defined.

Lemma queued_work_is_served_witness :
  let w := history demo_config new_worker demo_busy in
  clean demo_config new_worker demo_busy w /\ w.(w_running_tasks) <> ∅.
Proof.
  intros w.
  assert (Hc : clean demo_config new_worker demo_busy w) by (apply run_clean_sound; vm_compute; reflexivity).
  assert (Hq : w.(w_queued_tasks) = ["q.0.2.0"; "q.0.3.0"]) by (vm_compute; reflexivity).
  split; [exact Hc|]. exact (proj1 (queued_work_is_served demo_config demo_busy w _ _ eq_refl Hc Hq)).
Defined.

(** A done callback is registered under the key of its attempt, and frees
    that key whoever holds it.  When a dropped attempt is created again
    before the cancelled coroutine of the first one has ended, the first one's callback
    frees the capacity of the second, which still runs: the next task is
    started beyond the budget. *)
Definition stale_callback : list event :=
  [ECreate (demo_request 1 60); EResume 0; EDropQuery "q"; ECreate (demo_request 1 60); EResume 1;
   EResume 0; EDone 0; ECreate (demo_request 2 60); EResume 2].

Theorem stale_callback_overcommits :
  let w := history demo_config new_worker stale_callback in
  run_clean demo_config new_worker stale_callback = true /\
  map x_state w.(w_heap) = [CANCELED; RUNNING; RUNNING] /\ map x_memory_requirement_bytes w.(w_heap) = [60; 60; 60] /\
  w.(w_running_tasks) = {["q.0.2.0"]} /\ running_memory w = 60.
Proof. split_and!; vm_compute; reflexivity. Qed.

(** A task that fits is started although others wait: a large task at the
    head of the queue is overtaken by every smaller one that arrives. *)
Theorem small_tasks_overtake :
  let w := history demo_config new_worker
    [ECreate (demo_request 1 60); ECreate (demo_request 2 60); ECreate (demo_request 3 40)] in
  w.(w_queued_tasks) = ["q.0.2.0"] /\ w.(w_running_tasks) = {["q.0.1.0"; "q.0.3.0"]}.
Proof. split_and!; vm_compute; reflexivity. Qed.
