(* ===== verification/WorkerStatus.v ===== *)
(** * The status of an attempt

    Over every history of a worker: the version of an attempt's status never
    goes back, and a terminal status, once reached, is never changed again.
    A driver that waits for a version above the last one it saw relies on
    both. *)

From S2P Require Import Prelude PyStr PyVal FteTypes FteState Exchange OutputBuffers Descriptor WorkerTask WorkerManager WorkerDemo WorkerProofs.

#[local] Open Scope string_scope.
#[local] Open Scope list_scope.
#[local] Open Scope Z_scope.

Section Status.
Context {Env : WorkerEnv} (cfg : WorkerConfig).

Implicit Types (w : Worker) (x : FteTaskExecution).

Definition status_key x := (x_state x, x.(x_status).(ts_failure), x.(x_status).(ts_version)).

(** The status moves forward, and stays once it is terminal. *)
Definition status_le x x' : Prop :=
  x'.(x_task_id) = x.(x_task_id) /\ x.(x_status).(ts_version) <= x'.(x_status).(ts_version) /\
  (x_terminal x = true -> status_key x' = status_key x).

#[export] Instance status_le_preorder : PreOrder status_le.
Proof.
  split.
  - intros x. repeat split; lia.
  - intros x y z (I1 & V1 & T1) (I2 & V2 & T2). split; [congruence|]. split; [lia|]. intros H.
    rewrite T2; [by apply T1|]. specialize (T1 H). injection T1 as E _ _. unfold x_terminal in *. by rewrite E.
Qed.

Definition risen x0 x : Prop := status_le x0 x.

(** Operations that do not touch the status key. *)
Definition keyed v x : Prop := (x.(x_task_id), status_key x) = v.

Lemma keyed_risen {A} (m : ST FteTaskExecution A) :
  (forall v, preserves (keyed v) m) -> forall x0, preserves (risen x0) m.
Proof.
  intros H x0 x Hx. specialize (H _ x eq_refl). destruct (m x) as [r x']. cbn in *. apply pair_equal_spec in H as [E1 E2].
  etransitivity; [exact Hx|]. split; [done|]. split; [|done]. injection E2. lia.
Qed.

(** Operations that refuse a terminal attempt. *)
Definition above t v x : Prop := x.(x_task_id) = t /\ v <= x.(x_status).(ts_version).

Lemma guarded_risen {A} (m : ST FteTaskExecution A) :
  (forall x, x_terminal x = true -> snd (m x) = x) -> (forall t v, preserves (above t v) m) ->
  forall x0, preserves (risen x0) m.
Proof.
  intros Ht Ha x0 x Hx. etransitivity; [exact Hx|]. destruct (x_terminal x) eqn:E.
  - by rewrite Ht.
  - destruct (Ha x.(x_task_id) x.(x_status).(ts_version) x) as [H1 H2]; [split; [done|lia]|]. split; [done|]. split; [done|]. congruence.
Qed.

Ltac above_step :=
  first [ frame_step | match goal with H : above _ _ _ |- above _ _ _ => destruct H; split; cbn; [assumption|lia] end ].
Ltac climbs := cbv zeta; repeat above_step.

Lemma above_scan_queue_do t v s act : preserves (above t v) (scan_queue_do s act).
Proof. unfold scan_queue_do. climbs. Qed.
Lemma above_exchange_queue_do t v s act : preserves (above t v) (exchange_queue_do s act).
Proof. unfold exchange_queue_do. climbs. Qed.
#[local] Hint Resolve above_scan_queue_do above_exchange_queue_do : worker.

Lemma above_take_split t v s b sp : preserves (above t v) (take_split s b sp).
Proof. unfold take_split. climbs. Qed.
Lemma above_mark t v s : preserves (above t v) (mark_no_more s).
Proof. unfold mark_no_more. climbs. Qed.
#[local] Hint Resolve above_take_split above_mark : worker.

Lemma terminal_refused {A} (e : FteTaskExecution -> exn) (k : FteTaskExecution -> unit -> ST FteTaskExecution A) x :
  x_terminal x = true ->
  snd ((let! x := sget in let! u := sraise_if (x_terminal x) (e x) in k x u) x) = x.
Proof. intros H. unfold sbind, sget, sraise_if, slift. by rewrite H. Qed.

Lemma risen_add_splits x0 s l : preserves (risen x0) (add_splits s l).
Proof.
  apply guarded_risen; [intros; by apply terminal_refused|]. intros. unfold add_splits, open_source, bump_version. climbs.
Qed.
Lemma risen_no_more_splits x0 s : preserves (risen x0) (no_more_splits s).
Proof.
  apply guarded_risen; [intros; by apply terminal_refused|]. intros. unfold no_more_splits, bump_version. climbs.
Qed.
Lemma risen_update_task x0 u : preserves (risen x0) (update_task u).
Proof.
  apply guarded_risen; [intros; by apply terminal_refused|]. intros.
  unfold update_task, merge_request, update_sources, update_scan_sources, add_scan_queues, append_update_splits,
    open_source, update_exchange_sources, add_exchange_queues, update_output_buffers, update_domains, bump_version.
  climbs.
Qed.
Lemma risen_set_state x0 b st f : preserves (risen x0) (set_state b st f).
Proof.
  apply guarded_risen.
  - intros x H. unfold set_state, sbind, sget. by rewrite H.
  - intros. unfold set_state. climbs.
Qed.
#[local] Hint Resolve risen_add_splits risen_no_more_splits risen_update_task risen_set_state : worker.


(** Operations outside the status. *)
Ltac keyed_tac := apply keyed_risen; intros ?.

Lemma keyed_scan_queue_do v s act : preserves (keyed v) (scan_queue_do s act).
Proof. unfold scan_queue_do. frame. Qed.
Lemma keyed_exchange_queue_do v s act : preserves (keyed v) (exchange_queue_do s act).
Proof. unfold exchange_queue_do. frame. Qed.
#[local] Hint Resolve keyed_scan_queue_do keyed_exchange_queue_do : worker.

Lemma keyed_refresh v : preserves (keyed v) refresh_split_queue_status.
Proof. unfold refresh_split_queue_status. frame. Qed.
#[local] Hint Resolve keyed_refresh : worker.
Lemma keyed_payload v : preserves (keyed v) status_payload.
Proof. unfold status_payload. frame. Qed.
Lemma keyed_cancel_queues v : preserves (keyed v) cancel_queues.
Proof. unfold cancel_queues. frame. Qed.
#[local] Hint Resolve keyed_payload keyed_cancel_queues : worker.

Lemma risen_status_payload x0 : preserves (risen x0) status_payload.
Proof. keyed_tac. frame. Qed.
Lemma risen_refresh x0 : preserves (risen x0) refresh_split_queue_status.
Proof. keyed_tac. frame. Qed.
Lemma risen_release x0 : preserves (risen x0) release_result.
Proof. keyed_tac. unfold release_result. frame. Qed.
Lemma risen_record x0 st : preserves (risen x0) (record_task_stats st).
Proof. keyed_tac. unfold record_task_stats. frame. Qed.
Lemma risen_complete x0 : preserves (risen x0) complete_dynamic_source_splits.
Proof. keyed_tac. unfold complete_dynamic_source_splits. frame. Qed.
Lemma risen_prepare x0 : preserves (risen x0) prepare_request.
Proof. keyed_tac. unfold prepare_request. frame. Qed.
Lemma risen_refresh_request x0 : preserves (risen x0) refresh_request_splits.
Proof. keyed_tac. unfold refresh_request_splits. frame. Qed.
Lemma risen_wait x0 n : preserves (risen x0) (wait_status_after n).
Proof. keyed_tac. unfold wait_status_after. frame. Qed.
Lemma risen_notify x0 : preserves (risen x0) notify_status_waiters.
Proof. keyed_tac. unfold notify_status_waiters. frame. Qed.
Lemma risen_timeout x0 i : preserves (risen x0) (waiter_timeout i).
Proof. keyed_tac. unfold waiter_timeout. frame. Qed.
Lemma risen_poll x0 s n b : preserves (risen x0) (poll_split_queue s n b).
Proof. keyed_tac. unfold poll_split_queue. frame. Qed.
Lemma risen_cancel_queues x0 : preserves (risen x0) cancel_queues.
Proof. keyed_tac. frame. Qed.
#[local] Hint Resolve risen_status_payload risen_refresh risen_release risen_record risen_complete risen_prepare
  risen_refresh_request risen_wait risen_notify risen_timeout risen_poll risen_cancel_queues : worker.

Lemma risen_cancel x0 b : preserves (risen x0) (cancel b).
Proof. unfold cancel. frame. Qed.
Lemma risen_start x0 : preserves (risen x0) start.
Proof. unfold start. frame. Qed.
Lemma risen_queue x0 : preserves (risen x0) queue.
Proof. unfold queue. frame. Qed.
#[local] Hint Resolve risen_cancel risen_start risen_queue : worker.

(** ** All attempts of a worker *)

Definition heap_risen w0 w : Prop :=
  forall i x, w0.(w_heap) !! i = Some x -> exists x', w.(w_heap) !! i = Some x' /\ status_le x x'.

Lemma on_risen {A} w0 i (m : ST FteTaskExecution A) :
  (forall x0, preserves (risen x0) m) -> preserves (heap_risen w0) (on i m).
Proof.
  intros Hm w Hw. unfold on. destruct (w_heap w !! i) as [y|] eqn:Hy; [|done].
  assert (Hr : risen y y) by (unfold risen; reflexivity).
  specialize (Hm y y Hr). destruct (m y) as [r y']. cbn in Hm |- *.
  intros j x Hx. destruct (Hw j x Hx) as (x' & Hx' & Hle). cbn. rewrite list_lookup_insert. case_decide as D; [|eauto].
  destruct D as [-> _]. exists y'. split; [done|]. etransitivity; [exact Hle|]. by simplify_eq.
Qed.

Ltac rises_step :=
  first
    [ solve [auto with worker nocore]
    | lazymatch goal with
      | |- preserves (heap_risen _) (on _ _) => apply on_risen; intros ?; frame
      | |- preserves (heap_risen _) (status_or _ _ _ _) => unfold status_or, find_task, dropped_status, key_for
      end
    | frame_step ].
Ltac rises := cbv zeta; repeat rises_step.

Lemma publish_rises w0 i : preserves (heap_risen w0) (publish_status cfg i).
Proof. unfold publish_status. rises. Qed.
#[local] Hint Resolve publish_rises : worker.
Lemma publish_quiet_rises w0 i : preserves (heap_risen w0) (publish_quiet cfg i).
Proof. unfold publish_quiet. rises. Qed.
#[local] Hint Resolve publish_quiet_rises : worker.
Lemma publishing_rises w0 i m :
  (forall x0, preserves (risen x0) m) -> preserves (heap_risen w0) (publishing cfg i m).
Proof. intros. unfold publishing. rises. Qed.
#[local] Hint Resolve publishing_rises : worker.
Lemma release_rises w0 i : preserves (heap_risen w0) (release cfg i).
Proof. unfold release. rises. Qed.
Lemma transition_rises w0 i st f : preserves (heap_risen w0) (transition cfg i st f).
Proof. unfold transition. rises. Qed.
#[local] Hint Resolve release_rises transition_rises : worker.
Lemma start_execution_rises w0 i : preserves (heap_risen w0) (start_execution cfg i).
Proof. unfold start_execution, add_done_callback. rises. Qed.
#[local] Hint Resolve start_execution_rises : worker.
Lemma drain_rises w0 : preserves (heap_risen w0) (drain_queue cfg).
Proof.
  unfold drain_queue. assert (H : forall fuel, preserves (heap_risen w0) (drain_loop cfg fuel)).
  { induction fuel as [|fuel IH]; simpl; rises. }
  rises.
Qed.
#[local] Hint Resolve drain_rises : worker.

Lemma heap_risen_app w0 w l h : heap_risen w0 w -> w.(w_heap) = h -> forall w', w'.(w_heap) = h ++ l -> heap_risen w0 w'.
Proof.
  intros Hw <- w' E i x Hx. destruct (Hw i x Hx) as (x' & Hx' & Hle). exists x'. rewrite E. split; [|done].
  by apply lookup_app_l_Some.
Qed.

Lemma evict_heap fuel w : (evict_dropped fuel w).(w_heap) = w.(w_heap).
Proof.
  revert w. induction fuel as [|fuel IH]; intros w; cbn; [done|]. destruct (w_dropped_order w); [done|].
  case_match; [|done]. by rewrite IH.
Qed.

Lemma store_dropped_rises w0 key st : preserves (heap_risen w0) (store_dropped_status key st).
Proof.
  unfold store_dropped_status. apply preserves_bind; [|intros _]; apply preserves_modify; intros w Hw.
  - unfold heap_risen. by destruct (od_mem key _).
  - unfold heap_risen. by rewrite evict_heap.
Qed.
#[local] Hint Resolve store_dropped_rises : worker.

Lemma discard_query_rises w0 q key : preserves (heap_risen w0) (discard_query_task q key).
Proof. unfold discard_query_task. apply preserves_modify. intros w Hw. unfold heap_risen. by case_match. Qed.
#[local] Hint Resolve discard_query_rises : worker.

Lemma create_rises w0 r : preserves (heap_risen w0) (create_task cfg r).
Proof.
  unfold create_task, admit_or_queue. rises.
  by eapply heap_risen_app.
Qed.

Lemma handle_rises w0 e : preserves (heap_risen w0) (handle cfg e).
Proof.
  destruct e; cbn [handle]; unfold quietly.
  - apply preserves_bind; [apply create_rises|intros; apply preserves_ret].
  - unfold w_add_splits, get_task, find_task, key_for. rises.
  - unfold w_no_more_splits, get_task, find_task, key_for. rises.
  - unfold w_update_task, get_task, find_task, key_for. rises.
  - unfold get_task_status, unknown_status. rises.
  - unfold get_cached_task_status, unknown_status, key_for. rises.
  - unfold wait_task_status, find_task, dropped_status, get_task, find_task, key_for. rises.
  - unfold wait_split_queue_has_space, poll_space, get_task, find_task, key_for. rises.
  - unfold get_task_info, get_task, key_for. rises.
  - unfold ack_task_result, unknown_status. rises.
  - unfold release_task_result, unknown_status, key_for. rises.
  - unfold cancel_task, key_for. rises.
  - unfold drop_query, drop_task, retire_task. rises.
  - unfold shutdown, shutdown_task. rises.
  - unfold run_resume, run_from_wait, begin_execution, fail_run, end_run, suspend. rises.
  - unfold run_finish, finish_run, fail_run, end_run. rises.
  - unfold run_done_callback, task_done. rises.
  - unfold wake_waiters, answer_waiter. rises.
  - unfold expire_waiter, answer_waiter. rises.
  - unfold poll_space. rises.
  - rises.
  - rises.
Qed.

Lemma history_rises es w0 w : heap_risen w0 w -> heap_risen w0 (history cfg w es).
Proof.
  revert w. induction es as [|e es IH]; intros w Hw; cbn; [done|]. by apply IH, handle_rises.
Qed.

(** C27: over every history, calls that raise included, the status of an
    attempt only moves forward: its version never decreases, and once its
    state is terminal (finished, failed, canceled, aborted) neither the state
    nor the failure nor the version ever changes again, for an attempt that
    was dropped by the manager as well. *)
Theorem status_final w es i x :
  w.(w_heap) !! i = Some x ->
  exists x', (history cfg w es).(w_heap) !! i = Some x' /\
    x'.(x_task_id) = x.(x_task_id) /\
    x.(x_status).(ts_version) <= x'.(x_status).(ts_version) /\
    (x_terminal x = true ->
       x_state x' = x_state x /\ x'.(x_status).(ts_failure) = x.(x_status).(ts_failure) /\
       x'.(x_status).(ts_version) = x.(x_status).(ts_version)).
Proof.
  intros Hx. assert (H0 : heap_risen w w) by (intros j y Hy; exists y; split; [done|reflexivity]).
  destruct (history_rises es w w H0 i x Hx) as (x' & Hx' & Hid & Hv & Ht). exists x'. split_and!; try done.
  intros H. specialize (Ht H). injection Ht. done.
Qed.

End Status.

(** A task is cancelled while it executes; its result arrives afterwards. *)
Lemma status_final_witness :
  let w := history demo_config new_worker
    [ECreate (demo_request 1 60); ENoMoreSplits (RObj (demo_attempt 1)) "s"; EResume 0;
     ECancel (RObj (demo_attempt 1))] in
  exists x', (history demo_config w [EFinish 0 (Returned (PInt 7)); EDone 0]).(w_heap) !! 0%nat = Some x' /\
    x_state x' = CANCELED.
Proof.
  intros w. assert (Hx : exists x, w.(w_heap) !! 0%nat = Some x /\ x_state x = CANCELED).
  { eexists. split; [vm_compute; reflexivity|]. reflexivity. }
  destruct Hx as (x & Hx & Hs).
  destruct (status_final demo_config w [EFinish 0 (Returned (PInt 7)); EDone 0] 0 x Hx) as (x' & Hx' & _ & _ & Ht).
  exists x'. split; [exact Hx'|]. destruct Ht as [Ht _]; [unfold x_terminal; rewrite Hs; reflexivity|]. rewrite Ht. exact Hs.
Defined.
