(* ===== verification/WorkerWakeups.v ===== *)
(** * No lost wake-ups

    The coroutine of an attempt sleeps until its sources are sealed, and the
    drivers that wait for a status sleep until the version grows.  As long as
    no call raises, every change that could end such a wait is followed by
    the signal that ends it. *)

From S2P Require Import Prelude PyStr PyVal FteTypes FteState Exchange OutputBuffers Descriptor WorkerTask WorkerManager WorkerDemo WorkerProofs.

#[local] Open Scope string_scope.
#[local] Open Scope list_scope.
#[local] Open Scope Z_scope.

Section Wakeups.
Context {Env : WorkerEnv} (cfg : WorkerConfig).

Implicit Types (w : Worker) (x : FteTaskExecution).

(** The coroutine sleeps on the split event, and was not cancelled. *)
Definition asleep x : Prop := exists cb, x.(x_future) = Some (MkFuture WaitingSplits false cb).

Definition split_awake x : Prop :=
  asleep x -> all_fte_sources_sealed x = Ok true -> x.(x_split_event) = true.

Definition status_awake x : Prop :=
  x.(x_notify) = true \/ Forall (fun n => should_wait x n = true) x.(x_waiters).

Definition awake x : Prop := split_awake x /\ status_awake x.

(** ** Calm changes: those that need no signal *)

Record calm x x' : Prop := {
  cl_future : x'.(x_future) = x.(x_future);
  cl_event : x'.(x_split_event) = x.(x_split_event);
  cl_notify : x'.(x_notify) = x.(x_notify);
  cl_waiters : x'.(x_waiters) = x.(x_waiters);
  cl_state : x_state x' = x_state x;
  cl_version : x'.(x_status).(ts_version) = x.(x_status).(ts_version);
  cl_request : x'.(x_request) = x.(x_request);
  cl_no_more : x'.(x_no_more) = x.(x_no_more);
  cl_scan : x'.(x_scan_ids) = x.(x_scan_ids);
  cl_exchange : x'.(x_exchange_ids) = x.(x_exchange_ids);
  cl_initial : od_keys x.(x_initial_splits) ⊆ od_keys x'.(x_initial_splits);
  cl_seen : dom x.(x_seen) ⊆ dom x'.(x_seen);
}.

#[export] Instance calm_preorder : PreOrder calm.
Proof.
  split; [done|]. intros x y z [] []. split; try congruence; etransitivity; eassumption.
Qed.

Lemma calm_sealed x x' :
  calm x x' -> all_fte_sources_sealed x' = Ok true -> all_fte_sources_sealed x = Ok true.
Proof.
  intros [_ _ _ _ _ _ Er En Es Ee Hi Hs]. unfold all_fte_sources_sealed. rewrite Er, En, Es, Ee.
  destruct (names_of _) as [explicit|]; [|done]. cbn. destruct (bool_decide (explicit = ∅)); [|done]. intros [= Hb]. f_equal.
  set (r := (list_to_set (od_keys (x_initial_splits x)) ∪ dom (x_seen x)) ∖ x_scan_ids x ∖ x_exchange_ids x : gset string).
  set (r' := (list_to_set (od_keys (x_initial_splits x')) ∪ dom (x_seen x')) ∖ x_scan_ids x ∖ x_exchange_ids x : gset string) in Hb.
  assert (Hsub : r ⊆ r').
  { unfold r, r'. intros k. rewrite !elem_of_difference, !elem_of_union, !elem_of_list_to_set. set_solver. }
  apply orb_true_iff in Hb as [Hb|Hb]; apply bool_decide_eq_true in Hb; apply orb_true_iff.
  - left. apply bool_decide_eq_true. set_solver.
  - right. apply bool_decide_eq_true. set_solver.
Qed.

Lemma calm_awake x x' : calm x x' -> awake x -> awake x'.
Proof.
  intros C [Hs Hw]. split.
  - intros [cb Ha] Hsealed. rewrite (cl_event _ _ C). apply Hs; [|by eapply calm_sealed].
    exists cb. by rewrite <- (cl_future _ _ C).
  - unfold status_awake. rewrite (cl_notify _ _ C), (cl_waiters _ _ C). destruct Hw as [|Hw]; [by left|right].
    eapply Forall_impl; [exact Hw|]. intros n. unfold should_wait, x_terminal.
    by rewrite (cl_version _ _ C), (cl_state _ _ C).
Qed.

Definition calmed x0 x : Prop := calm x0 x.

Ltac calm_step :=
  first [ frame_step
        | match goal with H : calmed _ _ |- calmed _ _ =>
            etransitivity; [exact H|]; split; solve [done | reflexivity | set_solver] end ].
Ltac calms := cbv zeta; repeat calm_step.

Lemma calm_scan_queue_do x0 s act : preserves (calmed x0) (scan_queue_do s act).
Proof. unfold scan_queue_do. calms. Qed.
Lemma calm_exchange_queue_do x0 s act : preserves (calmed x0) (exchange_queue_do s act).
Proof. unfold exchange_queue_do. calms. Qed.
#[local] Hint Resolve calm_scan_queue_do calm_exchange_queue_do : worker.
Lemma calm_refresh x0 : preserves (calmed x0) refresh_split_queue_status.
Proof. unfold refresh_split_queue_status. calms. Qed.
#[local] Hint Resolve calm_refresh : worker.
Lemma calm_payload x0 : preserves (calmed x0) status_payload.
Proof. unfold status_payload. calms. Qed.
Lemma calm_release x0 : preserves (calmed x0) release_result.
Proof. unfold release_result. calms. Qed.
Lemma calm_record x0 st : preserves (calmed x0) (record_task_stats st).
Proof. unfold record_task_stats. calms. Qed.
Lemma calm_complete x0 : preserves (calmed x0) complete_dynamic_source_splits.
Proof. unfold complete_dynamic_source_splits. calms. Qed.
Lemma calm_cancel_queues x0 : preserves (calmed x0) cancel_queues.
Proof. unfold cancel_queues. calms. Qed.
#[local] Hint Resolve calm_payload calm_release calm_record calm_complete calm_cancel_queues : worker.

(** ** Operations that report their changes *)

(** An operation that, started with [b], returns [false] only when [b] is
    [false] and the change was calm. *)
Definition tracks (m : bool -> ST FteTaskExecution bool) : Prop :=
  forall b x, wp (m b) (fun b' x' => b' = false -> b = false /\ calm x x') (fun _ _ => True) x.

Lemma tracks_ret : tracks sret.
Proof. intros b x. wp_step. intros ->. by split. Qed.

(** An operation that reports a change whatever it does. *)
Definition reports (m : ST FteTaskExecution bool) : Prop :=
  forall x, wp m (fun b _ => b = true) (fun _ _ => True) x.
Lemma reports_bind {A} (m : ST FteTaskExecution A) k : (forall a, reports (k a)) -> reports (sbind m k).
Proof. intros H x. unfold wp, sbind. destruct (m x) as [[a|e] x']; [apply H|done]. Qed.
Lemma reports_true : reports (sret true).
Proof. done. Qed.
Lemma tracks_reports m : (forall b, reports (m b)) -> tracks m.
Proof. intros H b x. eapply wp_mono; [apply H| |done]. by intros b' x' ->. Qed.

Lemma tracks_bind m k : tracks m -> tracks k -> tracks (fun b => let! b' := m b in k b').
Proof.
  intros Hm Hk b x. apply wp_bind. eapply wp_mono; [apply Hm| |done]. intros b' x' H'.
  eapply wp_mono; [apply Hk| |done]. intros b2 x2 H2 E. destruct (H2 E) as [E' C']. destruct (H' E') as [E'' C''].
  split; [done|]. etransitivity; [exact C''|exact C'].
Qed.

Lemma tracks_fold {A} (l : list A) body : (forall a, tracks (fun b => body b a)) -> tracks (fun b => sfold l body b).
Proof.
  intros H. induction l as [|a l IH]; [apply tracks_ret|]. cbn. apply (tracks_bind _ (fun b => sfold l body b)); [apply H|done].
Qed.

Lemma tracks_false m x : tracks m -> wp (m false) (fun b x' => b = false -> calm x x') (fun _ _ => True) x.
Proof. intros T. eapply wp_mono; [apply T| |done]. naive_solver. Qed.

(** Reading the state or a fallible value before. *)
Lemma tracks_get k : (forall y, tracks (k y)) -> tracks (fun b => let! y := sget in k y b).
Proof. intros H b x. do 2 wp_step. apply H. Qed.
Lemma tracks_lift {A} (r : result A) k : (forall y, tracks (k y)) -> tracks (fun b => let! y := slift r in k y b).
Proof. intros H b x. do 2 wp_step; [apply H|done]. Qed.
Lemma tracks_raise_if c e k : tracks k -> tracks (fun b => let! _ := sraise_if c e in k b).
Proof. intros H b x. do 2 wp_step; [apply H|done]. Qed.
Lemma tracks_calm {A} (m : ST FteTaskExecution A) k :
  (forall x0, preserves (calmed x0) m) -> (forall a, tracks (k a)) -> tracks (fun b => let! a := m in k a b).
Proof.
  intros Hm Hk b x. apply wp_bind. assert (C0 : calmed x x) by (unfold calmed; reflexivity).
  specialize (Hm x x C0). unfold wp at 1. destruct (m x) as [[a|e] x']; cbn in *; [|done].
  eapply wp_mono; [apply Hk| |done]. intros b' x2 H E. destruct (H E). split; [done|]. etransitivity; [exact Hm|done].
Qed.

Ltac reported :=
  repeat match goal with |- reports (sbind _ _) => apply reports_bind; intros ? end;
  match goal with |- reports (sret true) => apply reports_true end.

Ltac tracks_step :=
  match goal with
  | |- tracks (fun b => sret b) => exact tracks_ret
  | |- tracks sret => exact tracks_ret
  | |- tracks (fun b => let! y := sget in _) => apply tracks_get; intros ?
  | |- tracks (fun b => let! _ := sraise_if _ _ in _) => apply tracks_raise_if
  | |- tracks (fun b => let! _ := slift _ in _) => apply tracks_lift; intros ?
  | |- tracks (fun b => sfold _ _ b) => apply tracks_fold; intros ?
  | |- tracks (fun b => let! _ := ?m in _) => apply (tracks_calm m); [solve [auto with worker nocore]|intros ?]
  | |- tracks (fun b => match ?x with _ => _ end) => destruct x
  | |- tracks _ => solve [apply tracks_reports; intros ?; reported]
  | |- tracks _ => solve [auto with worker nocore]
  end.
Ltac tracked := cbv zeta; repeat tracks_step.

Lemma open_source_calm x0 s : preserves (calmed x0) (open_source s).
Proof.
  unfold open_source. apply preserves_modify. intros x Hx. etransitivity; [exact Hx|]. split; try done; cbn.
  - unfold od_setdefault. case_match; [done|]. unfold od_keys. rewrite map_app. set_solver.
  - rewrite dom_insert. set_solver.
Qed.
#[local] Hint Resolve open_source_calm : worker.

Lemma take_split_tracks s sp : tracks (fun b => take_split s b sp).
Proof.
  unfold take_split. apply tracks_get. intros x. case_bool_decide.
  - apply tracks_calm; [intros; calms|]. intros _. apply tracks_ret.
  - tracked.
Qed.

#[local] Hint Resolve take_split_tracks : worker.

Lemma append_update_tracks s l : tracks (fun b => let! added := append_update_splits s l in sret (added || b)).
Proof.
  unfold append_update_splits. intros b x.
  assert (H : tracks (fun b => let! y := sget in
      let! _ := sraise_if (bool_decide (s ∈ x_no_more y) && negb (bool_decide (length l = 0%nat)))
        (RuntimeError ("source " +:+ s +:+ " is already marked no_more_splits")) in
      let! _ := open_source s in sfold l (take_split s) b)).
  { tracked. }
  apply wp_bind. eapply wp_mono; [apply (H false)| |done]. intros b' x' Hb. wp_step.
  intros [E1 E2]%orb_false_iff. split; [done|]. by apply Hb.
Qed.

Lemma mark_tracks s : tracks (fun b => let! c := mark_no_more s in sret (c || b)).
Proof.
  unfold mark_no_more. intros b x. do 3 wp_step. case_bool_decide.
  - do 2 wp_step. cbn. intros ->. by split.
  - apply (wp_mono (fun _ _ => True) _ (fun b' _ => b' = true)); [|intros b' ? ->; by wp_step|done].
    assert (R : reports (let! _ := smodify (fun x => x <| x_no_more ::= union {[s]} |>) in
      let! _ := exchange_queue_do s (sq_do QNoMore) in let! _ := scan_queue_do s (sq_do QNoMore) in sret true)) by reported.
    apply R.
Qed.

(** What the caller sees of a tracked operation that ends in a signal. *)
Lemma signal_awake (m : ST FteTaskExecution bool) (k : ST FteTaskExecution unit) x :
  wp m (fun b x' => b = false -> calm x x') (fun _ _ => True) x ->
  (forall y, wp k (fun _ => awake) (fun _ _ => True) y) -> awake x ->
  wp (let! changed := m in if changed : bool then let! _ := k in sret true else sret false)
    (fun _ => awake) (fun _ _ => True) x.
Proof.
  intros Hm Hk Hx. apply wp_bind. eapply wp_mono; [exact Hm| |done]. intros [] x' H.
  - apply wp_bind. eapply wp_mono; [apply Hk| |done]. intros ? x2 H2. by wp_step.
  - wp_step. eapply calm_awake; [by apply H|done].
Qed.

Lemma bump_awake y : wp bump_version (fun _ => awake) (fun _ _ => True) y.
Proof. unfold bump_version. wp_step. split; [done|by left]. Qed.

Lemma add_splits_awake s l x : awake x -> wp (add_splits s l) (fun _ => awake) (fun _ _ => True) x.
Proof.
  intros Hx. unfold add_splits. do 4 wp_step; [|done]. do 2 wp_step; [|done].
  assert (T : tracks (fun b => let! _ := open_source s in sfold l (fun added payload =>
    let! split := slift (Split.from_dict s payload) in take_split s added split) b)).
  { apply tracks_calm; [auto with worker|]. intros _. apply tracks_fold. intros p. apply tracks_lift. intros sp.
    apply take_split_tracks. }
  pose proof (signal_awake _ bump_version x (tracks_false _ x T) bump_awake Hx) as H'. unfold wp in H' |- *. by rewrite <- sbind_assoc.
Qed.

Lemma no_more_awake s x : awake x -> wp (no_more_splits s) (fun _ => awake) (fun _ _ => True) x.
Proof.
  intros Hx. unfold no_more_splits. do 4 wp_step; [|done]. apply signal_awake; [|apply bump_awake|done].
  pose proof (mark_tracks s false x) as T. unfold wp, sbind in T |- *.
  destruct (mark_no_more s x) as [[b|e] x']; [|done]. cbn in T. rewrite orb_false_r in T. naive_solver.
Qed.

Lemma stage x m (k : bool -> ST FteTaskExecution bool) Q b1 x1 :
  tracks m -> (b1 = false -> calm x x1) ->
  (forall b2 x2, (b2 = false -> calm x x2) -> wp (k b2) Q (fun _ _ => True) x2) ->
  wp (sbind (m b1) k) Q (fun _ _ => True) x1.
Proof.
  intros T C1 Hk. apply wp_bind. eapply wp_mono; [apply T| |done]. intros b2 x2 H2. apply Hk. intros E.
  destruct (H2 E) as [E1 C2]. etransitivity; [by apply C1|done].
Qed.

Lemma merge_request_tracks key u : tracks (merge_request key u).
Proof. unfold merge_request. tracked. Qed.
Lemma update_sources_tracks ids : tracks (update_sources ids).
Proof. unfold update_sources. tracked. Qed.
Lemma update_scan_tracks ids : tracks (update_scan_sources ids).
Proof. unfold update_scan_sources. tracked. Qed.
Lemma update_exchange_tracks ids : tracks (update_exchange_sources ids).
Proof. unfold update_exchange_sources. tracked. Qed.
Lemma update_buffers_tracks u : tracks (update_output_buffers u).
Proof. unfold update_output_buffers. tracked. Qed.
Lemma update_domains_tracks u : tracks (update_domains u).
Proof. unfold update_domains. tracked. Qed.

Lemma update_awake u x : awake x -> wp (update_task u) (fun _ => awake) (fun _ _ => True) x.
Proof.
  intros Hx. unfold update_task. do 4 wp_step; [|done]. do 2 wp_step; [|done]. do 2 wp_step; [|done].
  eapply stage; [apply merge_request_tracks|done|]. intros.
  eapply stage; [apply merge_request_tracks|eassumption|]. intros.
  match goal with |- wp (let! _ := if _ then ?m else sret ?b in _) _ _ _ =>
    apply (stage x (fun b => if u_fragment_plan_present a then m else sret b)); [|assumption|] end.
  { destruct (u_fragment_plan_present a); tracked. }
  intros. eapply stage; [apply update_sources_tracks|eassumption|]. intros.
  eapply stage; [apply update_scan_tracks|eassumption|]. intros.
  eapply stage; [apply update_exchange_tracks|eassumption|]. intros.
  eapply (stage x (sfold _ _)); [apply tracks_fold; intros [s l]; apply append_update_tracks|eassumption|]. intros.
  eapply (stage x (sfold _ _)); [apply tracks_fold; intros s; apply mark_tracks|eassumption|]. intros.
  eapply stage; [apply update_buffers_tracks|eassumption|]. intros.
  eapply stage; [apply update_domains_tracks|eassumption|]. intros [] y Hy.
  - do 2 wp_step. apply wp_bind. eapply wp_mono; [apply bump_awake| |done]. intros ? ? ?. by wp_step.
  - wp_step. eapply calm_awake; [by apply Hy|done].
Qed.

(** ** Operations that wake by themselves *)

Lemma calm_status {A} (m : ST FteTaskExecution A) :
  (forall x0, preserves (calmed x0) m) -> preserves status_awake m.
Proof.
  intros Hm x Hx. assert (C0 : calmed x x) by (unfold calmed; reflexivity). specialize (Hm x x C0).
  destruct (m x) as [r x']. cbn in *. unfold status_awake in *.
  rewrite (cl_notify _ _ Hm), (cl_waiters _ _ Hm). destruct Hx as [|Hw]; [by left|right].
  eapply Forall_impl; [exact Hw|]. intros n. unfold should_wait, x_terminal.
  by rewrite (cl_version _ _ Hm), (cl_state _ _ Hm).
Qed.

Lemma calm_split {A} (m : ST FteTaskExecution A) :
  (forall x0, preserves (calmed x0) m) -> preserves split_awake m.
Proof.
  intros Hm x Hx. assert (C0 : calmed x x) by (unfold calmed; reflexivity). specialize (Hm x x C0).
  destruct (m x) as [r x']. cbn in *. intros [cb Ha] Hsealed. rewrite (cl_event _ _ Hm).
  apply Hx; [|by eapply (calm_sealed _ _ Hm)]. exists cb. by rewrite <- (cl_future _ _ Hm).
Qed.
#[local] Hint Resolve calm_status calm_split : worker.

Lemma set_state_status st f : preserves status_awake (set_state true st f).
Proof.
  unfold set_state. apply preserves_bind; [apply preserves_get|]. intros y. destruct (x_terminal y); [apply preserves_ret|].
  apply preserves_bind; [|intros; apply preserves_ret]. apply preserves_modify. intros x _. by left.
Qed.
Lemma set_state_split b st f : preserves split_awake (set_state b st f).
Proof. unfold set_state. frame. Qed.
#[local] Hint Resolve set_state_status set_state_split : worker.

Lemma cancel_status : preserves status_awake (cancel true).
Proof. unfold cancel. frame. Qed.
Lemma cancel_split : preserves split_awake (cancel true).
Proof. unfold cancel. frame. intros _ _. done. Qed.
Lemma queue_status : preserves status_awake queue.
Proof. unfold queue. frame. Qed.
Lemma queue_split : preserves split_awake queue.
Proof. unfold queue. frame. Qed.
Lemma start_status : preserves status_awake start.
Proof. unfold start. frame. Qed.
Lemma start_split : preserves split_awake start.
Proof. unfold start. frame. by intros [cb [=]]. Qed.
Lemma set_callback_split b :
  preserves split_awake (smodify (fun x => x <| x_future ::= fmap (fun f => f <| fu_callback := b |>) |>)).
Proof.
  apply preserves_modify. intros x Hx [cb Ha]. cbn in Ha. apply Hx.
  destruct (x_future x) as [[ph c cb']|] eqn:Ef; [|done]. cbn in Ha. injection Ha as -> -> _. by exists cb'.
Qed.
Lemma callback_split : preserves split_awake add_done_callback.
Proof. apply set_callback_split. Qed.
Lemma callback_status : preserves status_awake add_done_callback.
Proof. unfold add_done_callback. frame. Qed.
#[local] Hint Resolve cancel_status cancel_split queue_status queue_split start_status start_split
  set_callback_split callback_split callback_status : worker.

Lemma wait_status n : preserves status_awake (wait_status_after n).
Proof.
  unfold wait_status_after. cbv zeta. apply preserves_wp. intros x Hx. do 2 wp_step. wp_step.
  - do 3 wp_step. destruct Hx as [|Hx]; [by left|right]. cbn. apply Forall_cons. split; [done|].
    eapply Forall_impl; [exact Hx|]. done.
  - apply wp_bind. assert (P : preserves status_awake status_payload) by auto with worker.
    eapply wp_mono; [exact (proj1 (preserves_wp _ _) P x Hx)| |done]. intros ? ? ?. by wp_step.
Qed.
Lemma wait_split n : preserves split_awake (wait_status_after n).
Proof. unfold wait_status_after. frame. Qed.
Lemma notify_status : preserves status_awake notify_status_waiters.
Proof.
  unfold notify_status_waiters. apply preserves_wp. intros x Hx. do 2 wp_step. wp_step; [|by wp_step]. do 3 wp_step.
  right. cbn. apply Forall_forall. intros n Hn%list_elem_of_In. apply List.filter_In in Hn as [_ Hn]. exact Hn.
Qed.
Lemma notify_split : preserves split_awake notify_status_waiters.
Proof. unfold notify_status_waiters. frame. Qed.
Lemma timeout_status i : preserves status_awake (waiter_timeout i).
Proof.
  unfold waiter_timeout. apply preserves_wp. intros x Hx. do 5 wp_step. destruct Hx as [Hx|Hx]; [by left|right]. cbn.
  by apply Forall_delete.
Qed.
Lemma timeout_split i : preserves split_awake (waiter_timeout i).
Proof. unfold waiter_timeout. frame. Qed.
Lemma poll_status s n b : preserves status_awake (poll_split_queue s n b).
Proof. unfold poll_split_queue. frame. Qed.
Lemma poll_split s n b : preserves split_awake (poll_split_queue s n b).
Proof. unfold poll_split_queue. frame. Qed.
#[local] Hint Resolve poll_status poll_split wait_status wait_split notify_status notify_split timeout_status timeout_split : worker.

(** ** All attempts of a worker *)

(** Every attempt is awake, but for the coroutine of [ex], which is running. *)
Definition all_awake (ex : option nat) w : Prop :=
  forall j x, w.(w_heap) !! j = Some x -> status_awake x /\ (ex <> Some j -> split_awake x).

Lemma on_awake {A} ex i (m : ST FteTaskExecution A) :
  preserves status_awake m -> preserves split_awake m -> preserves (all_awake ex) (on i m).
Proof.
  intros Hs Hp w Hw. unfold on. destruct (w_heap w !! i) as [x|] eqn:Hx; [|done].
  destruct (Hw i x Hx) as [H1 H2]. specialize (Hs x H1). assert (Hp' : ex <> Some i -> split_awake (snd (m x))) by auto.
  destruct (m x) as [r x']. cbn in *. intros j y. cbn. rewrite list_lookup_insert. case_decide as D; [|apply Hw].
  destruct D as [-> _]. by intros [= <-].
Qed.

Lemma on_running {A} i (m : ST FteTaskExecution A) :
  preserves status_awake m -> preserves (all_awake (Some i)) (on i m).
Proof.
  intros Hs w Hw. unfold on. destruct (w_heap w !! i) as [x|] eqn:Hx; [|done].
  destruct (Hw i x Hx) as [H1 _]. specialize (Hs x H1). destruct (m x) as [r x']. cbn in *.
  intros j y. cbn. rewrite list_lookup_insert. case_decide as D; [|apply Hw].
  destruct D as [-> _]. by intros [= <-].
Qed.

Lemma all_awake_weaken i w : all_awake None w -> all_awake (Some i) w.
Proof. intros H j x Hx. destruct (H j x Hx) as [H1 H2]. split; [done|]. intros _. by apply H2. Qed.

(** The coroutine suspends again, or ends. *)
Lemma suspend_awake i ph w :
  (ph = WaitingSplits -> forall x, w.(w_heap) !! i = Some x -> all_fte_sources_sealed x <> Ok true) ->
  all_awake (Some i) w -> all_awake None (snd (suspend i ph w)).
Proof.
  intros Hph Hw. unfold suspend, on. destruct (w_heap w !! i) as [x|] eqn:Hx.
  - cbn. intros j y. cbn. rewrite list_lookup_insert. case_decide as D.
    + destruct D as [-> _]. intros [= <-]. destruct (Hw j x Hx) as [H1 _]. split; [exact H1|]. intros _ [cb Ha] Hsealed.
      cbn in Ha. destruct (x_future x) as [f|]; [|done]. cbn in Ha. injection Ha as Ep _ _. by destruct (Hph Ep x eq_refl).
    + intros Hy. destruct (Hw j y Hy) as [H1 H2]. split; [done|]. intros _. apply H2.
      intros [= ->]. apply D. split; [done|]. by eapply lookup_lt_Some.
  - intros j y Hy. destruct (Hw j y Hy) as [H1 H2]. split; [done|]. intros _. apply H2. intros [= ->]. cbn in Hy. by rewrite Hx in Hy.
Qed.

Lemma end_run_awake i w : all_awake (Some i) w -> all_awake None (snd (end_run i w)).
Proof. apply (suspend_awake i Done). done. Qed.

Ltac wakes_step :=
  first
    [ solve [auto with worker nocore]
    | lazymatch goal with
      | |- preserves (all_awake _) (on _ _) =>
          first [ apply on_awake; solve [auto with worker nocore | frame | apply calm_status; intros; calms | apply calm_split; intros; calms]
                | apply on_running; solve [frame | auto with worker nocore] ]
      | |- preserves (all_awake _) (status_or _ _ _ _) => unfold status_or, find_task, dropped_status, key_for
      end
    | frame_step ].
Ltac wakes := cbv zeta; repeat wakes_step.

Lemma publish_wakes ex i : preserves (all_awake ex) (publish_status cfg i).
Proof. unfold publish_status. wakes. Qed.
#[local] Hint Resolve publish_wakes : worker.
Lemma publish_quiet_wakes ex i : preserves (all_awake ex) (publish_quiet cfg i).
Proof. unfold publish_quiet. wakes. Qed.
#[local] Hint Resolve publish_quiet_wakes : worker.
Lemma publishing_wakes ex i m :
  preserves status_awake m -> preserves split_awake m -> preserves (all_awake ex) (publishing cfg i m).
Proof. intros. unfold publishing. wakes. Qed.
#[local] Hint Resolve publishing_wakes : worker.
Lemma release_wakes ex i : preserves (all_awake ex) (release cfg i).
Proof. unfold release. wakes. Qed.
Lemma transition_wakes ex i st f : preserves (all_awake ex) (transition cfg i st f).
Proof. unfold transition. wakes. Qed.
#[local] Hint Resolve release_wakes transition_wakes : worker.
Lemma start_execution_wakes ex i : preserves (all_awake ex) (start_execution cfg i).
Proof. unfold start_execution. wakes. Qed.
#[local] Hint Resolve start_execution_wakes : worker.
Lemma drain_wakes ex : preserves (all_awake ex) (drain_queue cfg).
Proof.
  unfold drain_queue. assert (H : forall fuel, preserves (all_awake ex) (drain_loop cfg fuel)).
  { induction fuel as [|fuel IH]; simpl; wakes. }
  wakes.
Qed.
#[local] Hint Resolve drain_wakes : worker.

(** ** The coroutine *)

Lemma end_run_wakes i : preserves (all_awake None) (end_run i).
Proof. intros w Hw. by apply end_run_awake, all_awake_weaken. Qed.
#[local] Hint Resolve end_run_wakes : worker.

Lemma then_suspend {A} i ph (m : ST Worker A) w :
  ph <> WaitingSplits -> preserves (all_awake (Some i)) m -> all_awake (Some i) w ->
  wp (let! _ := m in suspend i ph) (fun _ => all_awake None) (fun _ _ => True) w.
Proof.
  intros Hph Hm Hw. apply wp_bind. eapply wp_mono; [exact (proj1 (preserves_wp _ _) Hm w Hw)| |done].
  intros ? w' Hw'. pose proof (suspend_awake i ph w' ltac:(congruence) Hw') as H. unfold wp.
  by destruct (suspend i ph w') as [[?|?] w2].
Qed.

Lemma begin_awake i w :
  all_awake (Some i) w -> wp (begin_execution i) (fun _ => all_awake None) (fun _ _ => True) w.
Proof.
  intros Hw. unfold begin_execution. apply wp_bind. unfold wp at 1. rewrite on_sget_run.
  destruct (w_heap w !! i) as [x|]; [|done].
  apply (then_suspend i Executing (let! _ := if x_fte_runtime x then on i refresh_request_splits else sret tt in on i prepare_request)) in Hw;
    [|done|].
  - unfold wp in Hw |- *. by rewrite sbind_assoc in Hw.
  - unfold refresh_request_splits, prepare_request. wakes.
Qed.

Lemma run_from_wait_awake i w :
  all_awake None w -> wp (run_from_wait cfg i) (fun _ => all_awake None) (fun _ _ => True) w.
Proof.
  intros Hw. unfold run_from_wait. apply wp_bind. unfold wp at 1. rewrite on_sget_run.
  destruct (w_heap w !! i) as [x|] eqn:Hx; [|done].
  destruct (x_fte_runtime x); [|by apply begin_awake, all_awake_weaken].
  apply wp_bind. unfold wp at 1. rewrite (on_run _ _ _ _ Hx). cbn [fst snd smodify].
  match goal with |- context [put_task i ?y w] => set (x1 := y); set (w1 := put_task i x1 w) end.
  assert (Hx1 : w_heap w1 !! i = Some x1) by (by eapply put_lookup).
  assert (Hw1 : all_awake (Some i) w1).
  { intros j y. unfold w1. cbn. rewrite list_lookup_insert. case_decide as D.
    - destruct D as [-> _]. intros [= <-]. split; [|done]. exact (proj1 (Hw j x Hx)).
    - intros Hy. destruct (Hw j y Hy) as [H1 H2]. split; [done|]. intros _. by apply H2. }
  destruct (all_fte_sources_sealed x) as [[]|e] eqn:Es.
  - by apply begin_awake.
  - pose proof (suspend_awake i WaitingSplits w1) as H. unfold wp. destruct (suspend i WaitingSplits w1) as [[?|?] w2]; [|done].
    apply H; [|done]. intros _ y Hy. assert (y = x1) by congruence. subst y.
    change (all_fte_sources_sealed x1) with (all_fte_sources_sealed x). by rewrite Es.
  - unfold fail_run. apply (then_suspend i Done (transition cfg i FAILED (failure_payload e))); [done| |done]. auto with worker.
Qed.

Lemma run_resume_awake i w :
  all_awake None w -> wp (run_resume cfg i) (fun _ => all_awake None) (fun _ _ => True) w.
Proof.
  intros Hw. unfold run_resume. apply wp_bind. unfold wp at 1. rewrite on_sget_run.
  assert (Hp : forall m : ST Worker unit, preserves (all_awake None) m -> wp m (fun _ => all_awake None) (fun _ _ => True) w).
  { intros m P. eapply wp_mono; [exact (proj1 (preserves_wp _ _) P w Hw)|done|done]. }
  destruct (w_heap w !! i) as [x|] eqn:Hx; [|done]. destruct (x_future x) as [[[] [] cb]|]; cbn; try done.
  - apply Hp. auto with worker.
  - by apply run_from_wait_awake.
  - apply Hp. wakes.
  - destruct (x_split_event x); [by apply run_from_wait_awake|done].
Qed.

Lemma run_finish_wakes i o : preserves (all_awake None) (run_finish cfg i o).
Proof. unfold run_finish, finish_run, fail_run. wakes. Qed.

(** ** Every event *)

Lemma publishing_awake i m w :
  (forall x, awake x -> wp m (fun _ => awake) (fun _ _ => True) x) -> all_awake None w ->
  wp (publishing cfg i m) (fun _ => all_awake None) (fun _ _ => True) w.
Proof.
  intros Hm Hw. unfold publishing. apply wp_bind. unfold wp at 1, on. destruct (w_heap w !! i) as [x|] eqn:Hx; [|done].
  destruct (Hw i x Hx) as [H1 H2]. specialize (Hm x (conj (H2 ltac:(done)) H1)). unfold wp in Hm.
  destruct (m x) as [[b|e] x']; [|done].
  assert (Hw' : all_awake None (put_task i x' w)).
  { intros j y. cbn. rewrite list_lookup_insert. case_decide as D; [|apply Hw]. destruct D as [-> _].
    intros [= <-]. by destruct Hm. }
  assert (P : preserves (all_awake None) (if b : bool then publish_quiet cfg i else sret tt)) by (destruct b; wakes).
  eapply wp_mono; [exact (proj1 (preserves_wp _ _) P _ Hw')|done|done].
Qed.

(** A call of the driver on one task. *)
Lemma task_call_awake id m w :
  (forall x, awake x -> wp m (fun _ => awake) (fun _ _ => True) x) -> all_awake None w ->
  wp (let! i := get_task id in let! _ := publishing cfg i m in publish_status cfg i)
    (fun _ => all_awake None) (fun _ _ => True) w.
Proof.
  intros Hm Hw. assert (P : preserves (all_awake None) (get_task id)) by (unfold get_task, find_task, key_for; wakes).
  apply wp_bind. eapply wp_mono; [exact (proj1 (preserves_wp _ _) P w Hw)| |done]. intros i w1 Hw1.
  apply wp_bind. eapply wp_mono; [by apply publishing_awake| |done]. intros ? w2 Hw2.
  assert (P2 : preserves (all_awake None) (publish_status cfg i)) by auto with worker.
  eapply wp_mono; [exact (proj1 (preserves_wp _ _) P2 w2 Hw2)|done|done].
Qed.

Lemma store_dropped_wakes key st : preserves (all_awake None) (store_dropped_status key st).
Proof.
  unfold store_dropped_status. apply preserves_bind; [|intros _]; apply preserves_modify; intros w Hw.
  - unfold all_awake. by destruct (od_mem key _).
  - assert (E : forall fuel w, (evict_dropped fuel w).(w_heap) = w.(w_heap)).
    { induction fuel as [|fuel IH]; intros w'; cbn; [done|]. destruct (w_dropped_order w'); [done|].
      case_match; [|done]. by rewrite IH. }
    unfold all_awake. by rewrite E.
Qed.
Lemma discard_query_wakes q key : preserves (all_awake None) (discard_query_task q key).
Proof. unfold discard_query_task. apply preserves_modify. intros w Hw. unfold all_awake. by case_match. Qed.
#[local] Hint Resolve store_dropped_wakes discard_query_wakes : worker.

Lemma new_execution_awake e b d r x : new_execution e b d r = Ok x -> awake x.
Proof. unfold new_execution. intros H. inv_ok. split; [by intros [cb [=]]|by right]. Qed.

Lemma create_wakes r : preserves (all_awake None) (create_task cfg r).
Proof.
  apply preserves_wp. intros w Hw. unfold create_task. do 4 wp_step; [|done]. do 2 wp_step; [|done]. cbv zeta.
  rename a into x. apply new_execution_awake in H0 as [Hx1 Hx2].
  match goal with |- wp ?m _ _ w => apply (proj1 (preserves_wp (all_awake None) m)); [|exact Hw] end.
  clear Hw H. unfold admit_or_queue. wakes.
  intros j y. cbn. intros [Hy|[_ Hy]]%lookup_app_Some; [by apply H|].
  apply list_lookup_singleton_Some in Hy as [_ <-]. done.
Qed.

Lemma handle_awake e w :
  e <> EShutdown false -> all_awake None w ->
  wp (handle cfg e) (fun _ => all_awake None) (fun _ _ => True) w.
Proof.
  intros He Hw.
  assert (Hp : forall m : ST Worker unit, preserves (all_awake None) m -> wp m (fun _ => all_awake None) (fun _ _ => True) w).
  { intros m P. eapply wp_mono; [exact (proj1 (preserves_wp _ _) P w Hw)|done|done]. }
  assert (Hq : forall A (m : ST Worker A), wp m (fun _ => all_awake None) (fun _ _ => True) w ->
    wp (quietly m) (fun _ => all_awake None) (fun _ _ => True) w).
  { intros A m H. unfold quietly. apply wp_bind. eapply wp_mono; [exact H| |done]. intros. by wp_step. }
  destruct e; cbn [handle].
  - apply Hp. unfold quietly. apply preserves_bind; [apply create_wakes|intros; apply preserves_ret].
  - apply Hq, task_call_awake; [intros; by apply add_splits_awake|done].
  - apply Hq, task_call_awake; [intros; by apply no_more_awake|done].
  - apply Hq, task_call_awake; [intros; by apply update_awake|done].
  - apply Hp. unfold quietly, get_task_status, unknown_status. wakes.
  - apply Hp. unfold quietly, get_cached_task_status, unknown_status, key_for. wakes.
  - apply Hp. unfold quietly, wait_task_status, find_task, dropped_status, get_task, find_task, key_for. wakes.
  - apply Hp. unfold quietly, wait_split_queue_has_space, poll_space, get_task, find_task, key_for. wakes.
  - apply Hp. unfold quietly, get_task_info, get_task, key_for. wakes.
  - apply Hp. unfold quietly, ack_task_result, unknown_status. wakes.
  - apply Hp. unfold quietly, release_task_result, unknown_status, key_for. wakes.
  - apply Hp. unfold quietly, cancel_task, key_for. wakes.
  - apply Hp. unfold quietly, drop_query, drop_task, retire_task. wakes.
  - destruct on_loop; [|done]. apply Hp. unfold quietly, shutdown, shutdown_task. wakes.
  - by apply run_resume_awake.
  - apply Hp, run_finish_wakes.
  - apply Hp. unfold run_done_callback, task_done. wakes.
  - apply Hp. unfold wake_waiters, answer_waiter. wakes.
  - apply Hp. unfold expire_waiter, answer_waiter. wakes.
  - apply Hp. unfold quietly, poll_space. wakes.
  - apply Hp. wakes.
  - apply Hp. wakes.
Qed.

(** ** Theorems *)

Lemma clean_awake es w w' :
  clean cfg w es w' -> EShutdown false ∉ es -> all_awake None w -> all_awake None w'.
Proof.
  induction 1 as [|w e w1 es w2 He _ IH]; [done|]. intros Hns Hw. apply not_elem_of_cons in Hns as [Hne Hns].
  apply IH; [done|]. pose proof (handle_awake e w ltac:(congruence) Hw) as H. unfold wp in H. by rewrite He in H.
Qed.

(** The coroutine was resumed and reached [execute_fn]. *)
Definition executing (w : Worker) (i : nat) : Prop :=
  exists x f, w.(w_heap) !! i = Some x /\ x.(x_future) = Some f /\ f.(fu_phase) = Executing.

Lemma resume_executes w i x :
  w.(w_heap) !! i = Some x -> asleep x -> all_fte_sources_sealed x = Ok true -> x.(x_split_event) = true ->
  executing (snd (handle cfg (EResume i) w)) i.
Proof.
  intros Hx [cb Hf] Hs He. cbn [handle]. unfold run_resume. rewrite sbind_run, on_sget_run, Hx. cbn [fst snd].
  rewrite Hf. cbn [fu_phase fu_cancel]. rewrite He. unfold run_from_wait. rewrite sbind_run, on_sget_run, Hx. cbn [fst snd].
  assert (Hb : forall w x, w.(w_heap) !! i = Some x -> x.(x_future) <> None -> executing (snd (begin_execution i w)) i).
  { clear. intros w x Hx Hf. unfold begin_execution. rewrite sbind_run, on_sget_run, Hx. cbn [fst snd].
    assert (H1 : exists y, w_heap (snd ((if x_fte_runtime x then on i refresh_request_splits else sret tt) w)) !! i = Some y /\
      x_future y = x_future x /\ fst ((if x_fte_runtime x then on i refresh_request_splits else sret tt) w) = Ok tt).
    { destruct (x_fte_runtime x); [|by exists x]. rewrite (on_run _ _ _ _ Hx). eexists. split; [by eapply put_lookup|]. done. }
    destruct H1 as (y & Hy & Ef & Eo). rewrite sbind_run, Eo, sbind_run, (on_run _ _ _ _ Hy). cbn [fst snd prepare_request smodify].
    unfold suspend. erewrite on_run by (by eapply put_lookup). cbn [fst snd smodify].
    eexists. destruct (x_future x) as [f|] eqn:E; [|done]. eexists. split; [eapply put_lookup; by eapply put_lookup|].
    cbn. rewrite Ef. done. }
  destruct (x_fte_runtime x); [|eapply Hb; [exact Hx|by rewrite Hf]].
  rewrite sbind_run, (on_run _ _ _ _ Hx). cbn [fst snd smodify]. rewrite Hs. eapply Hb; [by eapply put_lookup|]. cbn. by rewrite Hf.
Qed.

(** C25: as long as no call raises (and the worker is not shut down from
    another thread), no wake-up is lost.  An attempt whose coroutine sleeps
    until its sources are sealed, and whose sources all are, has its event
    set: the next step of its coroutine is the execution.  And every driver
    that sleeps for a newer status either still waits for one, because the
    version has not passed its own and the state is not terminal, or a
    notification is on its way. *)
Theorem no_lost_wakeup es w i x :
  clean cfg new_worker es w -> EShutdown false ∉ es -> w.(w_heap) !! i = Some x ->
  (asleep x -> all_fte_sources_sealed x = Ok true -> executing (snd (handle cfg (EResume i) w)) i) /\
  (x.(x_notify) = true \/
   forall n, n ∈ x.(x_waiters) -> x.(x_status).(ts_version) <= n /\ x_terminal x = false).
Proof.
  intros Hc Hns Hx. assert (H0 : all_awake None new_worker) by (by intros j y Hy).
  destruct (clean_awake es _ _ Hc Hns H0 i x Hx) as [Hst Hsp]. split.
  - intros Ha Hs. eapply resume_executes; [done..|]. by apply Hsp.
  - destruct Hst as [|Hw]; [by left|right]. intros n Hn. rewrite Forall_forall in Hw. specialize (Hw n Hn).
    unfold should_wait in Hw. apply andb_prop in Hw as [H1 H2]. apply Z.leb_le in H1. by apply negb_true_iff in H2.
Qed.

End Wakeups.

(** A task that sleeps until its source is sealed, and a driver that waits
    for version 5. *)
Definition demo_sleeping : list event :=
  [ECreate (demo_request 1 60); EResume 0; EWait (RObj (demo_attempt 1)) (Some 5);
   EAddSplits (RObj (demo_attempt 1)) "s" [demo_split 0]; EResume 0;
   ENoMoreSplits (RObj (demo_attempt 1)) "s"].

Lemma no_lost_wakeup_witness :
  let w := history demo_config new_worker demo_sleeping in executing (snd (handle demo_config (EResume 0) w)) 0.
Proof.
  intros w.
  assert (Hc : clean demo_config new_worker demo_sleeping w) by (apply run_clean_sound; vm_compute; reflexivity).
  assert (Hn : EShutdown false ∉ demo_sleeping).
  { unfold demo_sleeping. intros H. repeat (apply elem_of_cons in H as [H|H]; [discriminate H|]). by apply elem_of_nil in H. }
  assert (Hx : exists x, w.(w_heap) !! 0%nat = Some x /\ asleep x /\ all_fte_sources_sealed x = Ok true).
  { eexists. split; [vm_compute; reflexivity|]. split; [exists true; vm_compute; reflexivity|vm_compute; reflexivity]. }
  destruct Hx as (x & Hx & Ha & Hs).
  exact (proj1 (no_lost_wakeup demo_config demo_sleeping w 0 x Hc Hn Hx) Ha Hs).
Defined.

(** An update that raises after it has recorded a change sets no event: here
    the last source is marked finished, and then the output buffers are
    refused.  The coroutine sleeps on, and marking the source again changes
    nothing and wakes nobody. *)
Theorem raising_update_loses_wakeup :
  let update := RVal (PDict (pd_lit [("no_more_splits", PList [PStr "s"]);
    ("output_buffers", PDict (pd_lit [("version", PInt 5); ("type", PStr "hash")]))])) in
  let w := history demo_config new_worker
    [ECreate (pd_set "output_buffers" (PDict (pd_lit [("version", PInt 5)])) (demo_request 1 60)); EResume 0;
     EUpdate (RObj (demo_attempt 1)) update; ENoMoreSplits (RObj (demo_attempt 1)) "s"; EResume 0] in
  exists x, w.(w_heap) !! 0%nat = Some x /\ asleep x /\ all_fte_sources_sealed x = Ok true /\ x.(x_split_event) = false.
Proof.
  eexists. split; [vm_compute; reflexivity|]. split; [exists true; vm_compute; reflexivity|]. split; vm_compute; reflexivity.
Qed.
