(* ===== verification/WorkerMirror.v ===== *)
(** * The worker's attempt mirrors the driver's descriptor

    The driver keeps the splits, marks, output buffers and filter domains of
    a task in its [TaskDescriptor]; a worker is sent the create request made
    from it and then the same updates.  Both sides deduplicate on their own:
    this file proves that they stay in agreement, and what a repeated
    delivery of splits does. *)

From S2P Require Import Prelude PyStr PyVal FteTypes FteState Exchange OutputBuffers Descriptor DescriptorProofs WorkerTask WorkerManager WorkerDemo WorkerProofs.

#[local] Open Scope string_scope.
#[local] Open Scope list_scope.
#[local] Open Scope Z_scope.

(** ** What both sides keep *)

Record Core := MkCore {
  co_splits : list (string * list FteSplit);
  co_no_more : gset string;
  co_buffers : option (list (pyval * pyval));
  co_domains : list (pyval * pyval);
  co_scan : gset string;
  co_exchange : gset string;
}.

(** The abstract update: a split is taken unless its sequence id is already
    there; marks and dynamic sources accumulate; buffers and domains merge. *)
Definition core_take (source : string) (l : list (string * list FteSplit)) (s : FteSplit) :=
  let old := default [] (od_get source l) in
  if bool_decide (s.(sequence_id) ∈ map sequence_id old) then l else od_set source (old ++ [s]) l.

Definition core_append (l : list (string * list FteSplit)) (item : string * list FteSplit) :=
  fold_left (core_take item.1) item.2 (od_setdefault item.1 [] l).

Definition core_merge_buffers (update current : option (list (pyval * pyval))) : option (list (pyval * pyval)) :=
  match update with
  | None => current
  | Some b => match merge_output_buffers (buffers_value current) (PDict b) with
              | Ok (merged, true) => merged
              | _ => current
              end
  end.

Definition core_update (u : FteTaskUpdateRequest) (c : Core) : Core := {|
  co_splits := fold_left core_append u.(u_initial_splits) c.(co_splits);
  co_no_more := c.(co_no_more) ∪ u.(u_no_more_splits);
  co_buffers := core_merge_buffers u.(u_output_buffers) c.(co_buffers);
  co_domains := default c.(co_domains) (Descriptor.merged_dict c.(co_domains) u.(u_dynamic_filter_domains));
  co_scan := c.(co_scan) ∪ u.(u_dynamic_scan_source_node_ids);
  co_exchange := c.(co_exchange) ∪ u.(u_dynamic_exchange_source_node_ids);
|}.

(** ** Operations with an abstract effect *)

Section Does.
Context {S : Type} (core : S -> Core) (exact : S -> Prop).

(** Run from an exact state, [m] ends in an exact state and has the effect
    [f] on its core, unless it raises. *)
Definition does {A} (f : Core -> Core) (m : ST S A) (s : S) : Prop :=
  exact s -> wp m (fun _ s' => exact s' /\ core s' = f (core s)) (fun _ _ => True) s.

Lemma does_bind {A B} f g (m : ST S A) (k : A -> ST S B) s :
  does f m s -> (forall a s', does g (k a) s') -> does (g ∘ f) (sbind m k) s.
Proof.
  intros Hm Hk Hs. apply wp_bind. eapply wp_mono; [by apply Hm| |done]. intros a s1 [H1 E1].
  eapply wp_mono; [by apply Hk| |done]. intros b s2 [H2 E2]. split; [done|]. by rewrite E2, E1.
Qed.

Lemma does_ret {A} (a : A) s : does id (sret a) s.
Proof. intros Hs. by wp_step. Qed.

Lemma does_ext {A} f g (m : ST S A) s : (forall c, f c = g c) -> does f m s -> does g m s.
Proof. intros E H Hs. eapply wp_mono; [by apply H| |done]. intros a s' [H1 H2]. by rewrite <- E. Qed.

Lemma does_then {A B} f (m : ST S A) (h : A -> B) s : does f m s -> does f (let! a := m in sret (h a)) s.
Proof. intros H. apply (does_bind f id m (fun a => sret (h a))); [done|]. intros. apply does_ret. Qed.

(** Sequencing: the effect accumulates on the core. *)
Lemma does_next {A B} f c (m : ST S A) (k : A -> ST S B) Q s :
  exact s -> core s = c -> does f m s ->
  (forall a s', exact s' -> core s' = f c -> wp (k a) Q (fun _ _ => True) s') ->
  wp (sbind m k) Q (fun _ _ => True) s.
Proof.
  intros Hs Hc Hm Hk. apply wp_bind. eapply wp_mono; [by apply Hm| |done]. intros a s' [H' E']. apply Hk; [done|congruence].
Qed.

Lemma does_fold {A B} (f : A -> Core -> Core) (l : list A) (body : B -> A -> ST S B) b s :
  (forall b a s, does (f a) (body b a) s) -> does (fun c => fold_left (fun c a => f a c) l c) (sfold l body b) s.
Proof.
  intros Hb. revert b s. induction l as [|a l IH]; intros b s; cbn; [apply does_ret|].
  eapply (does_ext ((fun c => fold_left (fun c a => f a c) l c) ∘ f a)); [done|]. apply does_bind; [apply Hb|]. intros. apply IH.
Qed.
End Does.

(** ** The descriptor *)

Definition d_core (d : TaskDescriptor) : Core :=
  MkCore d.(d_initial_splits) d.(d_no_more_splits) d.(d_output_buffers) d.(d_dynamic_filter_domains)
    d.(d_dynamic_scan_source_node_ids) d.(d_dynamic_exchange_source_node_ids).

(** The sequence ids of a source are those of its splits. *)
Definition d_exact (d : TaskDescriptor) : Prop :=
  forall source n, n ∈ Descriptor.seen_of d source <-> n ∈ map sequence_id (Descriptor.splits_of d source).

Definition set_splits (f : list (string * list FteSplit) -> list (string * list FteSplit)) (c : Core) : Core :=
  MkCore (f c.(co_splits)) c.(co_no_more) c.(co_buffers) c.(co_domains) c.(co_scan) c.(co_exchange).

#[local] Arguments core_take : simpl never.
#[local] Arguments core_append : simpl never.

Lemma core_take_old source l s :
  s.(sequence_id) ∈ map sequence_id (default [] (od_get source l)) -> core_take source l s = l.
Proof. intros H. unfold core_take. by rewrite bool_decide_true. Qed.
Lemma core_take_new source l s :
  s.(sequence_id) ∉ map sequence_id (default [] (od_get source l)) ->
  core_take source l s = od_set source (default [] (od_get source l) ++ [s]) l.
Proof. intros H. unfold core_take. by rewrite bool_decide_false. Qed.

(** The exactness of sets of ids that grow with the splits. *)
Lemma ids_grow (seen : gset Z) (l : list FteSplit) s :
  (forall n, n ∈ seen <-> n ∈ map sequence_id l) ->
  forall n, n ∈ {[s.(sequence_id)]} ∪ seen <-> n ∈ map sequence_id (l ++ [s]).
Proof.
  intros H n. rewrite map_app, elem_of_union, elem_of_app, <- H. cbn.
  rewrite elem_of_singleton, list_elem_of_singleton. naive_solver.
Qed.

Lemma d_take source added s d :
  does d_core d_exact (set_splits (fun l => core_take source l s)) (Descriptor.append_split source added s) d.
Proof.
  intros Hd. unfold Descriptor.append_split. do 2 wp_step; [|done]. do 2 wp_step.
  destruct (decide (sequence_id s ∈ Descriptor.seen_of d source)) as [Hin|Hin].
  - rewrite bool_decide_true by done. wp_step. split; [done|]. unfold set_splits, d_core. cbn.
    rewrite core_take_old; [done|]. by apply Hd.
  - rewrite bool_decide_false by done. do 3 wp_step. split.
    + intros q n. unfold Descriptor.seen_of, Descriptor.splits_of in *. cbn. rewrite od_get_set.
      destruct (decide (source = q)) as [->|Hne].
      * rewrite lookup_insert_eq. cbn. apply ids_grow. intros. apply Hd.
      * rewrite lookup_insert_ne by done. apply Hd.
    + unfold set_splits, d_core. cbn. rewrite core_take_new; [done|]. by rewrite <- (Hd source).
Qed.

Lemma split_of_objects source l : rmapM (split_of source) (map RObj l) = Ok l.
Proof. induction l as [|s l IH]; cbn; [done|]. by rewrite IH. Qed.

Lemma fold_set_splits {A} (f : list (string * list FteSplit) -> A -> list (string * list FteSplit)) l c :
  fold_left (fun c a => set_splits (fun s => f s a) c) l c = set_splits (fun s => fold_left f l s) c.
Proof. revert c. induction l as [|a l IH]; intros c; cbn; [by destruct c|]. by rewrite IH. Qed.

Lemma d_append item d :
  does d_core d_exact (set_splits (fun l => core_append l item))
    (Descriptor.append_splits item.1 (map RObj item.2)) d.
Proof.
  intros Hd. destruct item as [source splits]. unfold Descriptor.append_splits. cbn [fst snd].
  do 4 wp_step; [|done]. rewrite split_of_objects. apply wp_bind, wp_lift; [|done]. intros ? [= <-].
  do 2 wp_step. apply wp_bind, wp_modify.
  match goal with |- wp _ _ _ ?v => set (d1 := v) end.
  assert (H1 : d_exact d1 /\ d_core d1 = set_splits (od_setdefault source []) (d_core d)).
  { unfold d1. split.
    - assert (Ht : forall d, d_exact d -> d_exact (touch source d)).
      { intros d' H' q n. rewrite touch_seen, touch_splits. apply H'. }
      destruct splits; apply Ht; exact Hd.
    - by destruct splits. }
  destruct H1 as [He Ec]. pose proof (does_fold d_core d_exact
    (fun s => set_splits (fun l => core_take source l s)) splits (Descriptor.append_split source) [] d1
    (fun b a s => d_take source b a s) He) as Hf.
  eapply wp_mono; [exact Hf| |done]. intros ? d2 [H2 E2]. split; [done|]. by rewrite E2, Ec, fold_set_splits.
Qed.

Definition set_no_more (f : gset string -> gset string) (c : Core) : Core :=
  MkCore c.(co_splits) (f c.(co_no_more)) c.(co_buffers) c.(co_domains) c.(co_scan) c.(co_exchange).

Lemma d_mark source d :
  does d_core d_exact (set_no_more (fun n => {[source]} ∪ n)) (Descriptor.mark_no_more_splits source) d.
Proof.
  intros Hd. unfold Descriptor.mark_no_more_splits. do 4 wp_step. case_bool_decide as Hin; cbn in Hin.
  - wp_step. split; [exact Hd|]. unfold d_core, set_no_more. cbn.
    by replace ({[source]} ∪ d_no_more_splits d) with (d_no_more_splits d) by set_solver.
  - do 3 wp_step. split; [exact Hd|done].
Qed.

Lemma fold_no_more l (c : Core) :
  fold_left (fun c source => set_no_more (fun n => {[source]} ∪ n) c) l c =
  set_no_more (fun n => n ∪ list_to_set l) c.
Proof.
  revert c. induction l as [|s l IH]; intros c; cbn.
  - destruct c. unfold set_no_more. cbn. f_equal. set_solver.
  - rewrite IH. unfold set_no_more. cbn. f_equal. set_solver.
Qed.

Lemma sorted_names_set (s : gset string) : list_to_set (sorted_names s) = s.
Proof.
  apply set_eq. intros x. unfold sorted_names, sorted_str. by rewrite elem_of_list_to_set, py_sorted_elem, elem_of_elements.
Qed.

(** Storing a value outside the core. *)
Lemma d_store {A} (v : option A) store changed f d :
  (forall x, v = Some x -> d_exact d -> d_exact (store x d) /\ d_core (store x d) = f (d_core d)) ->
  (v = None -> f (d_core d) = d_core d) ->
  does d_core d_exact f (Descriptor.when_changed v store changed) d.
Proof.
  intros Hs Hn Hd. unfold Descriptor.when_changed. destruct v as [x|].
  - do 3 wp_step. by apply Hs.
  - wp_step. split; [done|]. symmetry. by apply Hn.
Qed.

Lemma d_keep {A} (v : option A) store changed d :
  (forall x, d_exact d -> d_exact (store x d) /\ d_core (store x d) = d_core d) ->
  does d_core d_exact id (Descriptor.when_changed v store changed) d.
Proof. intros H. apply d_store; [by intros x _; apply H|done]. Qed.

Lemma grown_union (cur upd : gset string) : default cur (Descriptor.grown cur upd) = cur ∪ upd.
Proof. unfold Descriptor.grown. by case_bool_decide. Qed.

Definition set_buffers f (c : Core) : Core :=
  MkCore c.(co_splits) c.(co_no_more) (f c.(co_buffers)) c.(co_domains) c.(co_scan) c.(co_exchange).
Definition set_domains f (c : Core) : Core :=
  MkCore c.(co_splits) c.(co_no_more) c.(co_buffers) (f c.(co_domains)) c.(co_scan) c.(co_exchange).
Definition set_scan f (c : Core) : Core :=
  MkCore c.(co_splits) c.(co_no_more) c.(co_buffers) c.(co_domains) (f c.(co_scan)) c.(co_exchange).
Definition set_exchange f (c : Core) : Core :=
  MkCore c.(co_splits) c.(co_no_more) c.(co_buffers) c.(co_domains) c.(co_scan) (f c.(co_exchange)).

Lemma d_splits l b d :
  does d_core d_exact (set_splits (fun s => fold_left core_append l s))
    (sfold l (fun changed '(source, splits) =>
       let! added := Descriptor.append_splits source (map RObj splits) in
       sret (negb (bool_decide (length added = 0%nat)) || changed)) b) d.
Proof.
  eapply does_ext; [intros c; apply fold_set_splits|].
  apply (does_fold d_core d_exact (fun item => set_splits (fun s => core_append s item))).
  intros b' [source splits] s. apply does_then, (d_append (source, splits)).
Qed.

Lemma d_marks (ids : gset string) b d :
  does d_core d_exact (set_no_more (fun n => n ∪ ids))
    (sfold (sorted_names ids) (fun changed source =>
       let! b := Descriptor.mark_no_more_splits source in sret (b || changed)) b) d.
Proof.
  apply (does_ext d_core d_exact (fun c => fold_left (fun c source => set_no_more (fun n => {[source]} ∪ n) c) (sorted_names ids) c)).
  { intros c. by rewrite fold_no_more, sorted_names_set. }
  apply (does_fold d_core d_exact (fun source => set_no_more (fun n => {[source]} ∪ n))).
  intros b' source s. apply does_then, d_mark.
Qed.

Lemma d_buffers update b d :
  does d_core d_exact (set_buffers (core_merge_buffers update))
    (match update with
     | None => sret b
     | Some u =>
         let! d := sget in
         let! (buffers, buffers_changed) := slift (merge_output_buffers
           (match d.(d_output_buffers) with Some c => PDict c | None => PNone end) (PDict u)) in
         Descriptor.when_changed (if buffers_changed : bool then Some buffers else None)
           (fun v d => d <| d_output_buffers := v |>) b
     end) d.
Proof.
  intros Hd. destruct update as [u|]; [|by wp_step]. do 2 wp_step. do 2 wp_step; [|done]. destruct a as [merged ch].
  apply d_store; [| |done]; unfold set_buffers, core_merge_buffers, d_core, buffers_value; cbn; rewrite H; destruct ch; try done.
  intros ? [= <-] He. split; [exact He|done].
Qed.

Lemma d_update update u d :
  UpdateRequest.coerce update = Ok u ->
  does d_core d_exact (core_update u) (Descriptor.apply_task_update update) d.
Proof.
  intros Hu Hd. unfold Descriptor.apply_task_update. rewrite Hu. apply wp_bind, wp_lift; [|done]. intros ? [= <-].
  eapply does_next; [exact Hd|done|apply d_splits|]. intros ? d1 H1 E1.
  eapply does_next; [exact H1|exact E1|apply d_marks|]. clear dependent d1. intros ? d1 H1 E1. do 2 wp_step.
  eapply does_next; [exact H1|exact E1|apply d_keep; done|]. clear dependent d1. intros ? d1 H1 E1. do 2 wp_step.
  eapply does_next; [exact H1|exact E1|apply d_keep; done|]. clear dependent d1. intros ? d1 H1 E1. do 2 wp_step.
  eapply does_next; [exact H1|exact E1|apply d_keep; done|]. clear dependent d1. intros ? d1 H1 E1.
  eapply does_next; [exact H1|exact E1|apply d_buffers|]. clear dependent d1. intros ? d1 H1 E1. do 2 wp_step.
  eapply does_next; [exact H1|exact E1|
    apply (d_store _ _ _ (set_domains (fun c => default c (Descriptor.merged_dict c u.(u_dynamic_filter_domains)))))|].
  { intros x Hx He. split; [exact He|]. unfold set_domains, d_core. cbn. by rewrite Hx. }
  { intros Hx. unfold set_domains, d_core. cbn. by rewrite Hx. }
  clear dependent d1. intros ? d1 H1 E1. do 2 wp_step.
  eapply does_next; [exact H1|exact E1|apply d_keep; done|]. clear dependent d1. intros ? d1 H1 E1. do 2 wp_step.
  eapply does_next; [exact H1|exact E1|
    apply (d_store _ _ _ (set_scan (fun s => s ∪ u.(u_dynamic_scan_source_node_ids))))|].
  { intros x Hx He. split; [exact He|]. unfold set_scan, d_core. cbn. by rewrite <- grown_union, Hx. }
  { intros Hx. unfold set_scan, d_core. cbn. by rewrite <- grown_union, Hx. }
  clear dependent d1. intros ? d1 H1 E1. do 2 wp_step.
  eapply does_next; [exact H1|exact E1|
    apply (d_store _ _ _ (set_exchange (fun s => s ∪ u.(u_dynamic_exchange_source_node_ids))))|].
  { intros x Hx He. split; [exact He|]. unfold set_exchange, d_core. cbn. by rewrite <- grown_union, Hx. }
  { intros Hx. unfold set_exchange, d_core. cbn. by rewrite <- grown_union, Hx. }
  clear dependent d1. intros b d1 H1 E1. do 3 wp_step. destruct b; (split; [exact H1|exact E1]).
Qed.

(** ** The attempt *)

Section Attempt.
Context {Env : WorkerEnv}.

Definition x_core (x : FteTaskExecution) : Core :=
  MkCore x.(x_initial_splits) x.(x_no_more) x.(x_output_buffers) x.(x_domains) x.(x_scan_ids) x.(x_exchange_ids).

Definition x_exact (x : FteTaskExecution) : Prop :=
  forall source n, n ∈ x_seen_of x source <-> n ∈ map sequence_id (x_splits_of x source).

(** Changes outside the core. *)
Definition cored v (x : FteTaskExecution) : Prop := (x_core x, x.(x_seen)) = v.

Lemma x_keep {A} (m : ST FteTaskExecution A) x : (forall v, preserves (cored v) m) -> does x_core x_exact id m x.
Proof.
  intros Hm Hx. specialize (Hm _ x eq_refl). unfold wp. destruct (m x) as [[a|e] x']; [|done]. cbn in Hm.
  apply pair_equal_spec in Hm as [E1 E2]. split; [|done]. intros source n. unfold x_seen_of, x_splits_of in *.
  injection E1 as Es _ _ _ _ _. rewrite E2, Es. apply Hx.
Qed.

Lemma cored_scan_queue_do v s act : preserves (cored v) (scan_queue_do s act).
Proof. unfold scan_queue_do. frame. Qed.
Lemma cored_exchange_queue_do v s act : preserves (cored v) (exchange_queue_do s act).
Proof. unfold exchange_queue_do. frame. Qed.
#[local] Hint Resolve cored_scan_queue_do cored_exchange_queue_do : worker.

Lemma x_set f h x :
  x_exact (h x) -> x_core (h x) = f (x_core x) -> does x_core x_exact f (smodify h) x.
Proof. intros H1 H2 _. by wp_step. Qed.

Lemma x_take source b s x :
  does x_core x_exact (set_splits (fun l => core_take source l s)) (take_split source b s) x.
Proof.
  intros Hx. unfold take_split. do 2 wp_step. destruct (decide (sequence_id s ∈ x_seen_of x source)) as [Hin|Hin].
  - rewrite bool_decide_true by done. do 3 wp_step. split; [exact Hx|]. unfold set_splits, x_core. cbn.
    rewrite core_take_old; [done|]. by apply Hx.
  - rewrite bool_decide_false by done.
    eapply (does_next x_core x_exact (set_splits (fun l => core_take source l s))); [exact Hx|done|apply x_set|].
    + intros q n. unfold x_seen_of, x_splits_of. cbn. rewrite od_get_set.
      destruct (decide (source = q)) as [->|Hne].
      * rewrite lookup_insert_eq. cbn. apply ids_grow. intros. apply Hx.
      * rewrite lookup_insert_ne by done. apply Hx.
    + unfold set_splits, x_core. cbn. rewrite core_take_new; [done|]. by rewrite <- (Hx source).
    + intros _ x1 H1 E1. eapply does_next; [exact H1|exact E1|apply x_keep; intros ?; frame|]. clear dependent x1. intros _ x1 H1 E1.
      eapply does_next; [exact H1|exact E1|apply x_keep; intros ?; frame|]. intros _ x2 H2 E2. by wp_step.
Qed.

Lemma x_open source x : does x_core x_exact (set_splits (od_setdefault source [])) (open_source source) x.
Proof.
  intros Hx. apply x_set; [|done|done]. intros q n. unfold x_seen_of, x_splits_of. cbn. rewrite od_get_setdefault.
  destruct (decide (source = q)) as [->|Hne].
  - rewrite lookup_insert_eq. cbn. apply Hx.
  - rewrite lookup_insert_ne by done. apply Hx.
Qed.

Lemma x_append item x :
  does x_core x_exact (set_splits (fun l => core_append l item)) (append_update_splits item.1 item.2) x.
Proof.
  intros Hx. destruct item as [source splits]. unfold append_update_splits. cbn [fst snd]. do 4 wp_step; [|done].
  eapply does_next; [exact Hx|done|apply x_open|]. intros _ x1 H1 E1.
  eapply wp_mono; [apply (does_fold x_core x_exact (fun s => set_splits (fun l => core_take source l s)) splits)| |done];
    [intros; apply x_take|exact H1|].
  intros ? x2 [H2 E2]. split; [done|]. by rewrite E2, E1, fold_set_splits.
Qed.

Lemma x_mark source x :
  does x_core x_exact (set_no_more (fun n => {[source]} ∪ n)) (mark_no_more source) x.
Proof.
  intros Hx. unfold mark_no_more. do 2 wp_step. case_bool_decide as Hin.
  - wp_step. split; [exact Hx|]. unfold x_core, set_no_more. cbn.
    by replace ({[source]} ∪ x_no_more x) with (x_no_more x) by set_solver.
  - eapply does_next; [exact Hx|done|by apply (x_set (set_no_more (fun n => {[source]} ∪ n)))|]. intros _ x1 H1 E1.
    eapply does_next; [exact H1|exact E1|apply x_keep; intros ?; frame|]. clear dependent x1. intros _ x1 H1 E1.
    eapply does_next; [exact H1|exact E1|apply x_keep; intros ?; frame|]. intros _ x2 H2 E2. by wp_step.
Qed.

Lemma x_splits l b x :
  does x_core x_exact (set_splits (fun s => fold_left core_append l s))
    (sfold l (fun changed '(source, splits) =>
       let! added := append_update_splits source splits in sret (added || changed)) b) x.
Proof.
  eapply does_ext; [intros c; apply fold_set_splits|].
  apply (does_fold x_core x_exact (fun item => set_splits (fun s => core_append s item))).
  intros b' [source splits] s. apply does_then, (x_append (source, splits)).
Qed.

Lemma x_marks (ids : gset string) b x :
  does x_core x_exact (set_no_more (fun n => n ∪ ids))
    (sfold (sorted_names ids) (fun changed source => let! b := mark_no_more source in sret (b || changed)) b) x.
Proof.
  apply (does_ext x_core x_exact (fun c => fold_left (fun c source => set_no_more (fun n => {[source]} ∪ n) c) (sorted_names ids) c)).
  { intros c. by rewrite fold_no_more, sorted_names_set. }
  apply (does_fold x_core x_exact (fun source => set_no_more (fun n => {[source]} ∪ n))).
  intros b' source s. apply does_then, x_mark.
Qed.

Lemma x_buffers update b x :
  does x_core x_exact (set_buffers (core_merge_buffers update)) (update_output_buffers update b) x.
Proof.
  intros Hx. unfold update_output_buffers. destruct update as [u|]; [|by wp_step]. do 2 wp_step. do 2 wp_step; [|done].
  destruct a as [merged ch]. unfold set_buffers, core_merge_buffers, x_core. cbn. rewrite H. destruct ch; [do 3 wp_step|wp_step]; done.
Qed.

Lemma x_domains_merge update b x :
  does x_core x_exact (set_domains (fun c => default c (Descriptor.merged_dict c update))) (update_domains update b) x.
Proof.
  intros Hx. unfold update_domains. do 2 wp_step. unfold set_domains, x_core. cbn.
  destruct (Descriptor.merged_dict (x_domains x) update); [do 3 wp_step|wp_step]; done.
Qed.

Lemma x_scans ids b x : does x_core x_exact (set_scan (fun s => s ∪ ids)) (update_scan_sources ids b) x.
Proof.
  intros Hx. unfold update_scan_sources. do 2 wp_step. cbv zeta. case_bool_decide as E.
  - wp_step. split; [done|]. unfold set_scan, x_core. cbn. by rewrite E.
  - eapply does_next; [exact Hx|done|by apply (x_set (set_scan (fun s => s ∪ ids)))|]. intros _ x1 H1 E1.
    eapply does_next; [exact H1|exact E1|apply x_keep; intros ?; unfold add_scan_queues; frame|]. clear dependent x1. intros _ x1 H1 E1.
    eapply does_next; [exact H1|exact E1|apply x_keep; intros ?; frame|]. intros _ x2 H2 E2. by wp_step.
Qed.

Lemma x_exchanges ids b x : does x_core x_exact (set_exchange (fun s => s ∪ ids)) (update_exchange_sources ids b) x.
Proof.
  intros Hx. unfold update_exchange_sources. do 2 wp_step. cbv zeta. case_bool_decide as E.
  - wp_step. split; [done|]. unfold set_exchange, x_core. cbn. by rewrite E.
  - eapply does_next; [exact Hx|done|by apply (x_set (set_exchange (fun s => s ∪ ids)))|]. intros _ x1 H1 E1.
    eapply does_next; [exact H1|exact E1|apply x_keep; intros ?; unfold add_exchange_queues; frame|]. clear dependent x1. intros _ x1 H1 E1.
    eapply does_next; [exact H1|exact E1|apply x_keep; intros ?; frame|]. intros _ x2 H2 E2. by wp_step.
Qed.

Lemma x_update update u x :
  UpdateRequest.coerce update = Ok u -> does x_core x_exact (core_update u) (update_task update) x.
Proof.
  intros Hu Hx. unfold update_task. do 4 wp_step; [|done]. rewrite Hu. apply wp_bind, wp_lift; [|done]. intros ? [= <-].
  do 2 wp_step; [|done].
  eapply does_next; [exact Hx|done|apply x_keep; intros ?; unfold merge_request; frame|]. intros ? x1 H1 E1.
  eapply does_next; [exact H1|exact E1|apply x_keep; intros ?; unfold merge_request; frame|]. clear dependent x1. intros ? x1 H1 E1.
  eapply does_next; [exact H1|exact E1|apply x_keep; intros ?; frame|]. clear dependent x1. intros ? x1 H1 E1.
  eapply does_next; [exact H1|exact E1|apply x_keep; intros ?; unfold update_sources; frame|]. clear dependent x1. intros ? x1 H1 E1.
  eapply does_next; [exact H1|exact E1|apply x_scans|]. clear dependent x1. intros ? x1 H1 E1.
  eapply does_next; [exact H1|exact E1|apply x_exchanges|]. clear dependent x1. intros ? x1 H1 E1.
  eapply does_next; [exact H1|exact E1|apply x_splits|]. clear dependent x1. intros ? x1 H1 E1.
  eapply does_next; [exact H1|exact E1|apply x_marks|]. clear dependent x1. intros ? x1 H1 E1.
  eapply does_next; [exact H1|exact E1|apply x_buffers|]. clear dependent x1. intros ? x1 H1 E1.
  eapply does_next; [exact H1|exact E1|apply x_domains_merge|]. clear dependent x1. intros b x1 H1 E1.
  destruct b; [|by wp_step].
  eapply does_next; [exact H1|exact E1|apply x_keep; intros ?; frame|]. clear dependent x1. intros ? x1 H1 E1.
  eapply does_next; [exact H1|exact E1|apply x_keep; intros ?; unfold bump_version; frame|]. intros ? x2 H2 E2. by wp_step.
Qed.

(** ** The create request *)

(** A descriptor as the constructor and the updates leave it: one entry per
    source, splits that the constructor accepted, exact ids, and output
    buffers in their normal form. *)
Record desc_wf (d : TaskDescriptor) : Prop := {
  dw_keys : od_wf d.(d_initial_splits);
  dw_splits : Forall (fun kv => Forall wf_split kv.2) d.(d_initial_splits);
  dw_exact : d_exact d;
  dw_buffers : normalize_output_buffers (buffers_value d.(d_output_buffers)) = Ok d.(d_output_buffers);
}.

Lemma pd_find_lit k l : pd_find k (pd_lit l) = od_get k l.
Proof.
  induction l as [|[k' v] l IH]; [done|]. cbn [pd_lit map pd_find od_get fst snd]. rewrite key_is_str.
  destruct (String.eqb_spec k' k) as [->|Hne]; [by rewrite decide_True|]. rewrite decide_False by done. apply IH.
Qed.

Lemma names_of_value (s : gset string) : names_of (names_value s) = Ok s.
Proof.
  unfold names_of, names_value. assert (E : forall l, py_iter (py_or (PList (map PStr l)) (PList [])) = Ok (map PStr l)).
  { by intros []. }
  rewrite E. cbn. f_equal. rewrite map_map. cbn. rewrite map_id. apply sorted_names_set.
Qed.

Lemma names_of_none : names_of PNone = Ok ∅.
Proof. done. Qed.

Definition wire_item (kv : string * list FteSplit) : string * list (id_ref FteSplit) :=
  (kv.1, map RVal (map (fun s => PDict (Split.to_dict s)) kv.2)).

Lemma wire_of_splits l :
  (let* wire := dict_or_empty (UpdateRequest.splits_value l) in UpdateRequest.wire_splits wire) = Ok (map wire_item l).
Proof.
  unfold dict_or_empty, UpdateRequest.splits_value, UpdateRequest.wire_splits.
  assert (E : forall d, py_dict (py_or (PDict d) (PDict [])) = Ok d) by (by intros []). rewrite E. cbn [rbind].
  induction l as [|[source splits] l IH]; [done|]. cbn. cbn in IH. by rewrite IH.
Qed.

Lemma parsed_splits source l :
  Forall wf_split l -> rmapM (split_of source) (map RVal (map (fun s => PDict (Split.to_dict s)) l)) = Ok l.
Proof. induction 1 as [|s l Hs _ IH]; [done|]. cbn [map rmapM split_of]. by rewrite split_from_to_dict, IH. Qed.

Lemma normalize_wire l :
  od_wf l -> Forall (fun kv => Forall wf_split kv.2) l -> normalize_initial_splits (map wire_item l) = Ok l.
Proof.
  unfold normalize_initial_splits. intros Hn Hf. change l with ([] ++ l) at 2.
  assert (Hd : NoDup (od_keys ([] ++ l))) by exact Hn. clear Hn. revert Hd. generalize (@nil (string * list FteSplit)) as acc.
  induction Hf as [|[source splits] l Hs _ IH]; intros acc Hd; cbn [map rfoldM wire_item fst snd]; [by rewrite app_nil_r|].
  rewrite parsed_splits by done. cbn. rewrite od_set_absent.
  - rewrite IH; [by rewrite <- app_assoc|]. by rewrite <- app_assoc.
  - apply od_get_None. unfold od_keys in *. rewrite map_app in Hd. apply NoDup_app in Hd as (_ & Hd & _).
    intros Hin. apply (Hd source Hin). left.
Qed.

(** The ids the constructor collects. *)
Lemma collected_ids (l : list (string * list FteSplit)) source :
  od_wf l ->
  default ∅ ((list_to_map (map (fun '(s, l) => (s, list_to_set (map sequence_id l))) l) : gmap string (gset Z)) !! source)
  = list_to_set (map sequence_id (default [] (od_get source l))).
Proof.
  unfold od_wf. induction l as [|[k splits] l IH]; intros Hn; cbn; [done|]. apply NoDup_cons in Hn as [_ Hn].
  destruct (decide (source = k)) as [->|Hne]; [by rewrite lookup_insert_eq|]. rewrite lookup_insert_ne by done. by apply IH.
Qed.

(** The optional fields of a request. *)
Lemma names_field_get k k' s :
  od_get k (UpdateRequest.names_field k' s) =
    if decide (k = k') then if bool_decide (s = ∅) then None else Some (names_value s) else None.
Proof. unfold UpdateRequest.names_field. case_bool_decide; cbn; by case_decide. Qed.
Lemma dict_field_get k k' d :
  od_get k (UpdateRequest.dict_field k' d) =
    if decide (k = k') then match d with [] => None | _ => Some (PDict d) end else None.
Proof. destruct d; cbn; by case_decide. Qed.
Lemma buffers_field_get k b :
  od_get k (match b with Some b => [("output_buffers", PDict b)] | None => [] end) =
    if decide (k = "output_buffers") then PDict <$> b else None.
Proof. destruct b; cbn; by case_decide. Qed.
Lemma sink_field_get k sink : k <> "exchange_sink_instance" ->
  od_get k (match sink with
            | SIVal PNone => []
            | SIVal v => [("exchange_sink_instance", v)]
            | SIHandle h => [("exchange_sink_instance", PDict (sink_instance_to_dict h))]
            end) = None.
Proof. intros Hk. destruct sink as [[]|]; cbn; rewrite ?decide_False by done; done. Qed.

Lemma names_of_field (s : gset string) :
  names_of (py_or (default PNone (if bool_decide (s = ∅) then None else Some (names_value s))) PNone) = Ok s.
Proof.
  case_bool_decide as E; [by rewrite E|]. etransitivity; [|apply (names_of_value s)]. f_equal.
  unfold py_or, names_value. destruct (sorted_names s) as [|n l] eqn:El; [|done].
  exfalso. apply E. rewrite <- (sorted_names_set s), El. done.
Qed.

(** The value of a key of the create request that is not the sink. *)
Lemma request_get d attempt sink req k :
  Descriptor.to_create_task_request d attempt sink = Ok req -> k <> "exchange_sink_instance" ->
  exists id, pd_find k req = od_get k (
    [("task_id", PDict (TaskAttemptId.to_dict id)); ("fragment_id", PStr d.(d_fragment_id));
     ("context", PDict d.(d_context)); ("initial_splits", UpdateRequest.splits_value d.(d_initial_splits));
     ("no_more_splits", names_value d.(d_no_more_splits));
     ("resource_request", PDict d.(d_resource_request)); ("fragment_plan", d.(d_fragment_plan));
     ("fragment_registration_result", d.(d_fragment_registration_result));
     ("descriptor_version", PInt d.(d_descriptor_version)); ("worker_runtime", PStr "fte")]
    ++ match d.(d_output_buffers) with Some b => [("output_buffers", PDict b)] | None => [] end
    ++ UpdateRequest.dict_field "dynamic_filter_domains" d.(d_dynamic_filter_domains)
    ++ UpdateRequest.names_field "source_node_ids" d.(d_source_node_ids)
    ++ UpdateRequest.names_field "dynamic_scan_source_node_ids" d.(d_dynamic_scan_source_node_ids)
    ++ UpdateRequest.names_field "dynamic_exchange_source_node_ids" d.(d_dynamic_exchange_source_node_ids)).
Proof.
  intros H Hk. unfold Descriptor.to_create_task_request in H. apply rbind_ok in H as (id & _ & H). exists id.
  match type of H with Ok ?r = Ok _ => assert (req = r) as -> by congruence end. rewrite pd_find_lit. rewrite !od_get_app. rewrite sink_field_get by done.
  repeat (match goal with |- context [match ?o with Some v => Some v | None => _ end] => destruct o; [done|] end). done.
Qed.

Ltac decide_strings :=
  repeat match goal with
  | |- context [decide (?a = ?b)] =>
      first [ rewrite (decide_False (P := a = b)) by discriminate | rewrite (decide_True (P := a = b)) by reflexivity ]
  end.
Ltac request_key H :=
  match goal with
  | |- context [pd_find ?k ?req] =>
      let id := fresh "id" in let E := fresh "E" in
      destruct (request_get _ _ _ req k H ltac:(discriminate)) as [id E];
      rewrite E, !od_get_app, buffers_field_get, dict_field_get, !names_field_get; cbn [od_get]; decide_strings; clear id E
  end.

Section Request.
Context (d : TaskDescriptor) (attempt : Z) (sink : sink_instance) (req : list (pyval * pyval)).
Hypothesis Hreq : Descriptor.to_create_task_request d attempt sink = Ok req.
Hypothesis Hwf : desc_wf d.

Lemma req_splits : pd_get "initial_splits" req = UpdateRequest.splits_value d.(d_initial_splits).
Proof. unfold pd_get. by request_key Hreq. Qed.
Lemma req_no_more : pd_get "no_more_splits" req = names_value d.(d_no_more_splits).
Proof. unfold pd_get. by request_key Hreq. Qed.
Lemma req_buffers : initial_output_buffers req = Ok d.(d_output_buffers).
Proof.
  unfold initial_output_buffers. cbn [UpdateRequest.first_key]. pose proof (dw_buffers _ Hwf) as Hb.
  request_key Hreq. destruct (d_output_buffers d) as [b|]; cbn.
  - destruct b; exact Hb.
  - do 2 request_key Hreq. done.
Qed.
Lemma req_domains : initial_dynamic_filter_domains req = Ok d.(d_dynamic_filter_domains).
Proof.
  unfold initial_dynamic_filter_domains. cbn [UpdateRequest.first_key]. request_key Hreq.
  destruct (d_dynamic_filter_domains d) as [|kv l]; [|done]. do 2 request_key Hreq. done.
Qed.

(** The fields the constructor writes back do not hide the others. *)
Lemma written_back (b : option (list (pyval * pyval))) dom k :
  k <> "output_buffers" -> k <> "dynamic_filter_domains" ->
  pd_find k (match dom with
             | [] => match b with Some b => pd_set "output_buffers" (PDict b) req | None => req end
             | d => pd_set "dynamic_filter_domains" (PDict d)
                      match b with Some b => pd_set "output_buffers" (PDict b) req | None => req end
             end) = pd_find k req.
Proof. intros H1 H2. destruct dom, b; rewrite ?pd_find_set_ne by congruence; done. Qed.

Lemma req_ids k k' ids :
  default PNone (pd_find k req) = default PNone (if bool_decide (ids = ∅) then None else Some (names_value ids)) ->
  default PNone (pd_find k' req) = PNone ->
  names_of (py_or (default PNone (pd_find k req)) (default PNone (pd_find k' req))) = Ok ids.
Proof. intros -> ->. apply names_of_field. Qed.

Lemma req_scan_ids :
  names_of (py_or (default PNone (pd_find "dynamic_scan_source_node_ids" req))
                  (default PNone (pd_find "scan_source_node_ids" req))) = Ok d.(d_dynamic_scan_source_node_ids).
Proof. apply req_ids; request_key Hreq; [by case_bool_decide|done]. Qed.
Lemma req_exchange_ids :
  names_of (py_or (default PNone (pd_find "dynamic_exchange_source_node_ids" req))
                  (default PNone (pd_find "exchange_source_node_ids" req))) = Ok d.(d_dynamic_exchange_source_node_ids).
Proof. apply req_ids; request_key Hreq; [by case_bool_decide|done]. Qed.

Lemma created_core e lease mem x :
  new_execution e lease mem req = Ok x -> x_core x = d_core d /\ x_exact x.
Proof.
  unfold new_execution. intros H. apply rbind_ok in H as (id & _ & H). apply rbind_ok in H as (task & _ & H).
  pose proof (wire_of_splits (d_initial_splits d)) as Hwire. rewrite req_splits in H.
  apply rbind_ok in H as (wire & Ew & H). rewrite Ew in Hwire. cbn [rbind] in Hwire. rewrite Hwire in H. cbn [rbind] in H.
  rewrite normalize_wire in H by apply Hwf. cbn [rbind] in H. rewrite req_no_more, names_of_value in H. cbn [rbind] in H.
  rewrite req_buffers in H. cbn [rbind] in H. rewrite req_domains in H. cbn [rbind] in H.
  apply rbind_ok in H as (version & _ & H). cbv zeta in H. unfold pd_get in H. rewrite !written_back in H by discriminate.
  rewrite req_exchange_ids in H. cbn [rbind] in H.
  rewrite req_scan_ids in H. cbn [rbind] in H.
  apply rbind_ok in H as (q1 & _ & H). apply rbind_ok in H as (q2 & _ & H). apply rbind_ok in H as (n & _ & H).
  apply rbind_ok in H as (l & _ & H). apply rbind_ok in H as (m & _ & H). injection H as <-. split; [done|].
  intros source k. unfold x_seen_of, x_splits_of. cbn [x_seen x_initial_splits].
  rewrite collected_ids by apply Hwf. by rewrite elem_of_list_to_set.
Qed.
End Request.

(** ** Theorems *)

(** Updates that both sides accept, in the same order. *)
Inductive delivered : TaskDescriptor -> FteTaskExecution -> list (id_ref FteTaskUpdateRequest) ->
    TaskDescriptor -> FteTaskExecution -> Prop :=
| delivered_nil d x : delivered d x [] d x
| delivered_cons d x u us b d1 b' x1 d2 x2 :
    Descriptor.apply_task_update u d = (Ok b, d1) -> update_task u x = (Ok b', x1) ->
    delivered d1 x1 us d2 x2 -> delivered d x (u :: us) d2 x2.

Lemma delivered_core d x us d' x' :
  delivered d x us d' x' -> d_exact d -> x_exact x -> x_core x = d_core d ->
  exists requests, Forall2 (fun u r => UpdateRequest.coerce u = Ok r) us requests /\
    d_core d' = fold_left (fun c r => core_update r c) requests (d_core d) /\ x_core x' = d_core d' /\ x_exact x'.
Proof.
  induction 1 as [d x|d x u us b d1 b' x1 d2 x2 Hd Hx _ IH]; intros Ed Ex Ec; [by exists []|].
  destruct (UpdateRequest.coerce u) as [r|e] eqn:Er.
  - pose proof (d_update u r d Er Ed) as Wd. eapply wp_use in Wd; [|exact Hd]. destruct Wd as [Ed1 Cd1].
    pose proof (x_update u r x Er Ex) as Wx. eapply wp_use in Wx; [|exact Hx]. destruct Wx as [Ex1 Cx1].
    destruct (IH Ed1 Ex1 ltac:(congruence)) as (rs & F & E1 & E2 & E3). exists (r :: rs).
    split; [by constructor|]. split; [|done]. cbn. by rewrite E1, Cd1.
  - unfold Descriptor.apply_task_update in Hd. rewrite Er in Hd. discriminate Hd.
Qed.

(** C26: a worker's attempt mirrors the driver's descriptor.  An attempt
    created from the descriptor's create request, and then sent the updates
    the descriptor applied, has after each accepted update the same splits of
    every source in the same order, the same finished sources, output
    buffers, filter domains and dynamic sources as the descriptor; both are
    what the abstract update [core_update] makes of the descriptor the task
    was created from, in which a split counts once however often it is sent. *)
Theorem worker_mirrors_descriptor d attempt sink req e lease mem x us d' x' :
  desc_wf d -> Descriptor.to_create_task_request d attempt sink = Ok req ->
  new_execution e lease mem req = Ok x -> delivered d x us d' x' ->
  x_core x' = d_core d' /\
  exists requests, Forall2 (fun u r => UpdateRequest.coerce u = Ok r) us requests /\
    d_core d' = fold_left (fun c r => core_update r c) requests (d_core d).
Proof.
  intros Hwf Hreq Hx Hd. destruct (created_core d attempt sink req Hreq Hwf e lease mem x Hx) as [Ec Ex].
  destruct (delivered_core d x us d' x' Hd (dw_exact _ Hwf) Ex Ec) as (rs & F & E1 & E2 & _). eauto.
Qed.

(** ** Repeated deliveries *)

Lemma core_take_keeps source s l n :
  n ∈ map sequence_id (default [] (od_get source l)) ->
  n ∈ map sequence_id (default [] (od_get source (core_take source l s))).
Proof.
  intros H. unfold core_take. case_bool_decide; [done|]. rewrite od_get_set_eq. cbn. rewrite map_app, elem_of_app. by left.
Qed.

Lemma core_fold_has source splits l n :
  n ∈ map sequence_id (default [] (od_get source l)) \/ n ∈ map sequence_id splits ->
  n ∈ map sequence_id (default [] (od_get source (fold_left (core_take source) splits l))).
Proof.
  revert l. induction splits as [|s splits IH]; intros l H; cbn; [by destruct H as [H|H%elem_of_nil]|].
  apply IH. destruct H as [H|[->|H]%elem_of_cons]; [left; by apply core_take_keeps| |by right].
  left. unfold core_take. case_bool_decide as E; [done|]. rewrite od_get_set_eq. cbn. rewrite map_app, elem_of_app.
  right. left.
Qed.

(** The loop of [add_splits]. *)
Definition take_all source (payloads : list (list (pyval * pyval))) (b : bool) : ST FteTaskExecution bool :=
  sfold payloads (fun added payload =>
    let! split := slift (Split.from_dict source payload) in take_split source added split) b.

Lemma take_all_core source payloads splits b x :
  rmapM (Split.from_dict source) payloads = Ok splits ->
  does x_core x_exact (set_splits (fun l => fold_left (core_take source) splits l)) (take_all source payloads b) x.
Proof.
  revert splits b x. induction payloads as [|p payloads IH]; intros splits b x H; cbn [rmapM] in H; inv_ok.
  - eapply does_ext; [|apply does_ret]. by intros [].
  - intros Hx. unfold take_all. cbn [sfold]. rewrite H0. rename a into s, a0 into rest.
    unfold wp. rewrite sbind_assoc, sbind_lift. fold (wp (let! b' := take_split source b s in take_all source payloads b')
      (fun _ s' => x_exact s' /\ x_core s' = set_splits (fun l => fold_left (core_take source) (s :: rest) l) (x_core x)) (fun _ _ => True) x).
    eapply (does_next x_core x_exact); [exact Hx|done|apply x_take|]. intros b1 x1 H1' E1.
    eapply wp_mono; [eapply IH; [done|exact H1']| |done]. intros ? x2 [H2 E2]. split; [done|]. by rewrite E2, E1.
Qed.

(** Splits that are all there already only raise the duplicate count. *)
Lemma take_all_duplicates source payloads splits b x :
  rmapM (Split.from_dict source) payloads = Ok splits ->
  (forall s, s ∈ splits -> s.(sequence_id) ∈ x_seen_of x source) ->
  take_all source payloads b x =
    (Ok b, x <| x_status ::= fun s => s <| ts_duplicate_split_count ::= fun n => n + Z.of_nat (length splits) |> |>).
Proof.
  revert splits x. induction payloads as [|p payloads IH]; intros splits x H Hs; cbn [rmapM] in H; inv_ok.
  - cbn. unfold sret. f_equal. destruct x as []; destruct x_status; unfold set_field; cbn. by rewrite Z.add_0_r.
  - unfold take_all. cbn [sfold]. rewrite sbind_assoc, sbind_lift, H0. rename a into s, a0 into rest.
    unfold take_split. rewrite sbind_assoc. unfold sbind at 1, sget. rewrite bool_decide_true by (apply Hs; left).
    unfold sbind at 1 2, smodify, sret. etransitivity; [apply (IH rest); [done|]|].
    + intros s' Hs'. apply (Hs s'). by right.
    + f_equal. unfold set_field. cbn. f_equal. f_equal. lia.
Qed.

Lemma add_splits_core source payloads splits x :
  rmapM (Split.from_dict source) payloads = Ok splits ->
  does x_core x_exact (set_splits (fun l => core_append l (source, splits))) (add_splits source payloads) x.
Proof.
  intros Hp Hx. unfold add_splits. do 4 wp_step; [|done]. do 2 wp_step; [|done].
  eapply does_next; [exact Hx|done|apply x_open|]. intros _ x1 H1 E1.
  eapply does_next; [exact H1|exact E1|by apply take_all_core|]. intros b x2 H2 E2. destruct b; [|by wp_step].
  eapply does_next; [exact H2|exact E2|apply x_keep; intros ?; unfold bump_version; frame|]. intros _ x3 H3 E3. by wp_step.
Qed.

(** Delivering again splits that are all there. *)
Lemma add_splits_again source payloads splits x :
  rmapM (Split.from_dict source) payloads = Ok splits -> x_terminal x = false -> source ∉ x.(x_no_more) ->
  od_get source x.(x_initial_splits) <> None ->
  (forall s, s ∈ splits -> s.(sequence_id) ∈ x_seen_of x source) ->
  exists x', add_splits source payloads x = (Ok false, x') /\ x_core x' = x_core x /\
    x'.(x_scan_queues) = x.(x_scan_queues) /\ x'.(x_exchange_queues) = x.(x_exchange_queues) /\
    x'.(x_status).(ts_version) = x.(x_status).(ts_version) /\
    x'.(x_status).(ts_duplicate_split_count) = x.(x_status).(ts_duplicate_split_count) + Z.of_nat (length splits).
Proof.
  intros Hp Ht Hn Hg Hs. unfold add_splits. unfold sbind at 1, sget. unfold sbind at 1, sraise_if, slift. rewrite Ht.
  cbn [raise_if]. unfold sbind at 1. rewrite bool_decide_false by done. cbn [raise_if]. unfold sbind at 1, open_source, smodify.
  match goal with |- context [(let! _ := _ in _) ?v] => set (x1 := v) end.
  assert (E1 : x_seen_of x1 source = x_seen_of x source) by (unfold x1, x_seen_of; cbn; by rewrite lookup_insert_eq).
  pose proof (take_all_duplicates source payloads splits false x1 Hp) as Hd.
  rewrite E1 in Hd. specialize (Hd Hs). unfold take_all in Hd. rewrite (sbind_eq _ _ _ _ _ Hd). eexists. split; [done|].
  split_and!; try done. unfold x_core, x1. cbn. f_equal. unfold od_setdefault. by destruct (od_get source (x_initial_splits x)).
Qed.

(** Delivering splits is idempotent.  A delivery adds to the source, in
    order, exactly the splits whose sequence ids it does not have; delivering
    the same payload again succeeds, adds nothing to the splits or to the
    native queues, does not change the status version, and is counted as
    duplicates. *)
Theorem redelivery_is_harmless source payloads splits x b x1 :
  x_exact x -> rmapM (Split.from_dict source) payloads = Ok splits ->
  add_splits source payloads x = (Ok b, x1) ->
  x_core x1 = set_splits (fun l => core_append l (source, splits)) (x_core x) /\
  exists x2, add_splits source payloads x1 = (Ok false, x2) /\ x_core x2 = x_core x1 /\
    x2.(x_scan_queues) = x1.(x_scan_queues) /\ x2.(x_exchange_queues) = x1.(x_exchange_queues) /\
    x2.(x_status).(ts_version) = x1.(x_status).(ts_version) /\
    x2.(x_status).(ts_duplicate_split_count) = x1.(x_status).(ts_duplicate_split_count) + Z.of_nat (length splits).
Proof.
  intros Hx Hp H. pose proof (add_splits_core source payloads splits x Hp Hx) as W.
  eapply wp_use in W; [|exact H]. destruct W as [Hx1 E1]. split; [done|].
  assert (Hv : view x1 = view x).
  { pose proof (viewed_add_splits (view x) source payloads x eq_refl) as V. by rewrite H in V. }
  assert (Hok : x_terminal x = false /\ source ∉ x.(x_no_more)).
  { unfold add_splits in H. unfold sbind at 1, sget in H. unfold sbind at 1, sraise_if, slift in H.
    destruct (x_terminal x); cbn [raise_if] in H; [discriminate H|]. split; [done|].
    unfold sbind at 1 in H. case_bool_decide; cbn [raise_if] in H; [discriminate H|done]. }
  destruct Hok as [Ht Hn]. unfold x_core, set_splits in E1. cbn in E1. injection E1 as Es En _ _ _ _.
  apply (add_splits_again source payloads splits); [done| | | |].
  - unfold view in Hv. injection Hv as _ _ _ E. unfold x_terminal. by rewrite E.
  - by rewrite En.
  - rewrite Es. unfold core_append. cbn. intros E. 
    assert (G : forall sp l, od_get source l <> None -> od_get source (fold_left (core_take source) sp l) <> None).
    { clear. induction sp as [|s sp IH]; intros l Hl; cbn; [done|]. apply IH. unfold core_take.
      case_bool_decide; [done|]. by rewrite od_get_set_eq. }
    apply (G splits (od_setdefault source [] (x_initial_splits x))); [|done]. by rewrite od_get_setdefault, decide_True.
  - intros s Hin. apply Hx1. unfold x_splits_of. rewrite Es. unfold core_append. cbn. apply core_fold_has. right.
    apply list_elem_of_fmap. eauto.
Qed.

End Attempt.

(** ** Examples *)

Lemma demo_descriptor_wf : desc_wf demo_descriptor.
Proof.
  split.
  - constructor.
  - constructor.
  - intros source n. vm_compute. split; intros H; inversion H.
  - reflexivity.
Qed.

Definition demo_create : list (pyval * pyval) :=
  match Descriptor.to_create_task_request demo_descriptor 0 (SIVal PNone) with Ok r => r | Raise _ => [] end.

(** The attempt created from [demo_descriptor]. *)
Definition demo_created : option FteTaskExecution :=
  match new_execution None false (Some 10) demo_create with Ok x => Some x | Raise _ => None end.

(** Two updates that overlap: the second sends one split again. *)
Definition demo_updates : list (id_ref FteTaskUpdateRequest) :=
  let item n := PDict (pd_lit [("sequence_id", PInt n); ("kind", PStr "scan_task")]) in
  [RVal (PDict (pd_lit [("initial_splits", PDict (pd_lit [("a", PList [item 0; item 1])]))]));
   RVal (PDict (pd_lit [("initial_splits", PDict (pd_lit [("a", PList [item 1; item 2])]));
                        ("no_more_splits", PList [PStr "a"])]))].

Lemma worker_mirrors_descriptor_witness :
  exists x d' x', demo_created = Some x /\ delivered demo_descriptor x demo_updates d' x' /\
    x_core x' = d_core d' /\ map sequence_id (Descriptor.splits_of d' "a") = [0; 1; 2].
Proof.
  assert (Hc : exists x, new_execution None false (Some 10) demo_create = Ok x /\ demo_created = Some x).
  { eexists. split; vm_compute; reflexivity. }
  assert (Hd : exists x d' x', demo_created = Some x /\ delivered demo_descriptor x demo_updates d' x' /\
    map sequence_id (Descriptor.splits_of d' "a") = [0; 1; 2]).
  { do 3 eexists. split; [vm_compute; reflexivity|]. split.
    - eapply delivered_cons; [vm_compute; reflexivity|vm_compute; reflexivity|].
      eapply delivered_cons; [vm_compute; reflexivity|vm_compute; reflexivity|]. apply delivered_nil.
    - vm_compute. reflexivity. }
  destruct Hc as (x & Hx & Ex). destruct Hd as (x0 & d' & x' & E0 & Hd & Hs).
  assert (x0 = x) by congruence. subst x0. exists x, d', x'. split; [exact Ex|]. split; [exact Hd|]. split; [|exact Hs].
  exact (proj1 (worker_mirrors_descriptor demo_descriptor 0 (SIVal PNone) demo_create None false (Some 10) x demo_updates d' x'
    demo_descriptor_wf ltac:(vm_compute; reflexivity) Hx Hd)).
Defined.

Lemma redelivery_is_harmless_witness :
  exists x x1 x2, demo_created = Some x /\ add_splits "s" [demo_split 0; demo_split 1; demo_split 0] x = (Ok true, x1) /\
    add_splits "s" [demo_split 0; demo_split 1; demo_split 0] x1 = (Ok false, x2) /\ x_core x2 = x_core x1.
Proof.
  pose (l := [demo_split 0; demo_split 1; demo_split 0]).
  assert (H : exists x splits x1, demo_created = Some x /\ x_exact x /\ rmapM (Split.from_dict "s") l = Ok splits /\
    add_splits "s" l x = (Ok true, x1)).
  { do 3 eexists. split; [vm_compute; reflexivity|]. split.
    - intros source n. vm_compute. split; intros H; inversion H.
    - split; vm_compute; reflexivity. }
  destruct H as (x & splits & x1 & Ex & Hx & Hp & H).
  destruct (redelivery_is_harmless "s" l splits x true x1 Hx Hp H) as (_ & x2 & H2 & Ec & _).
  exists x, x1, x2. split; [exact Ex|]. split; [exact H|]. split; [exact H2|exact Ec].
Defined.
