(* ===== verification/QueryGraph.v ===== *)
(** * Stages, resources and allocations of a query
    ([duckdb/runners/ray/query_execution_graph.py])

    The immutable description a query's resource manager works on: resource
    vectors (CPU and GPU are binary64, bytes are integers), the allocation of
    a query on the nodes of the cluster, and the graph of its stages with its
    validation, its topological order and the analysis of which stages need a
    slot of their own.  An object is built by the [new] of its module, which
    is its constructor with the checks of [__post_init__]; the dictionary
    forms and the digest are left out. *)

From S2P Require Import Prelude PyStr PyVal PyNum.

#[local] Open Scope string_scope.
#[local] Open Scope list_scope.
#[local] Open Scope Z_scope.

(** ** Resource vectors *)

Record ResourceVector := MkRes {
  r_cpu : f64;
  r_gpu : f64;
  r_heap_bytes : Z;
  r_object_store_bytes : Z;
}.

(** The names of the dimensions, in the order of [_FIELDS]. *)
Inductive dimension := Cpu | Gpu | HeapBytes | ObjectStoreBytes.

Definition dimensions : list dimension := [Cpu; Gpu; HeapBytes; ObjectStoreBytes].

Definition dimension_name (d : dimension) : string :=
  match d with
  | Cpu => "cpu" | Gpu => "gpu" | HeapBytes => "heap_bytes" | ObjectStoreBytes => "object_store_bytes"
  end.

Module Res.

(** [__post_init__] *)
Definition check_float (name : string) (value : f64) : result unit :=
  raise_if (negb (f64_isfinite value) || f64_lt value f64_zero) (ValueError (name +:+ " must be finite and >= 0")).

Definition check_int (name : string) (value : Z) : result unit :=
  raise_if (value <? 0) (ValueError (name +:+ " must be >= 0")).

Definition new (cpu gpu : f64) (heap object_store : Z) : result ResourceVector :=
  let* _ := check_float "cpu" cpu in
  let* _ := check_float "gpu" gpu in
  let* _ := check_int "heap_bytes" heap in
  let* _ := check_int "object_store_bytes" object_store in
  Ok (MkRes cpu gpu heap object_store).

(** [ResourceVector()] *)
Definition zero : ResourceVector := MkRes f64_zero f64_zero 0 0.

Definition add (a b : ResourceVector) : result ResourceVector :=
  new (f64_add a.(r_cpu) b.(r_cpu)) (f64_add a.(r_gpu) b.(r_gpu))
    (a.(r_heap_bytes) + b.(r_heap_bytes)) (a.(r_object_store_bytes) + b.(r_object_store_bytes)).

(** The dimensions in which a test holds. *)
Definition where_ (f : f64 -> f64 -> bool) (z : Z -> Z -> bool) (a b : ResourceVector) : list dimension :=
  List.filter (fun d => match d with
    | Cpu => f a.(r_cpu) b.(r_cpu)
    | Gpu => f a.(r_gpu) b.(r_gpu)
    | HeapBytes => z a.(r_heap_bytes) b.(r_heap_bytes)
    | ObjectStoreBytes => z a.(r_object_store_bytes) b.(r_object_store_bytes)
    end) dimensions.

Definition sub (a b : ResourceVector) : result ResourceVector :=
  let underflow := where_ (fun x y => f64_lt (f64_sub x y) f64_zero) (fun x y => x - y <? 0) a b in
  let* _ := raise_if (negb (bool_decide (length underflow = O)))
    (ValueError ("resource subtraction underflow: " +:+ comma_join (map dimension_name underflow))) in
  new (f64_sub a.(r_cpu) b.(r_cpu)) (f64_sub a.(r_gpu) b.(r_gpu))
    (a.(r_heap_bytes) - b.(r_heap_bytes)) (a.(r_object_store_bytes) - b.(r_object_store_bytes)).

(** [math.floor(bytes * factor)] *)
Definition scale_bytes (bytes : Z) (factor : f64) : result Z :=
  let* x := f64_mul_int bytes factor in f64_floor x.

Definition scale (a : ResourceVector) (factor : f64) : result ResourceVector :=
  let* _ := raise_if (negb (f64_isfinite factor) || f64_lt factor f64_zero)
    (ValueError "resource scale factor must be finite and >= 0") in
  let* heap := scale_bytes a.(r_heap_bytes) factor in
  let* object_store := scale_bytes a.(r_object_store_bytes) factor in
  new (f64_mul a.(r_cpu) factor) (f64_mul a.(r_gpu) factor) heap object_store.

Definition fits_within (a capacity : ResourceVector) : bool :=
  f64_le a.(r_cpu) capacity.(r_cpu) && f64_le a.(r_gpu) capacity.(r_gpu) &&
  (a.(r_heap_bytes) <=? capacity.(r_heap_bytes)) && (a.(r_object_store_bytes) <=? capacity.(r_object_store_bytes)).

Definition exceeded_dimensions (a capacity : ResourceVector) : list dimension :=
  where_ (fun x y => f64_lt y x) (fun x y => y <? x) a capacity.

(** The share of one dimension in [dominant_share]. *)
Definition share (demand available : f64) : f64 :=
  if f64_le demand f64_zero then f64_zero
  else if f64_le available f64_zero then f64_inf
  else f64_div demand available.

(** The same for a dimension of bytes. *)
Definition share_int (demand available : Z) : result f64 :=
  let* demand := float_of_int demand in
  let* available := float_of_int available in
  Ok (share demand available).

Definition dominant_share (a capacity : ResourceVector) : result f64 :=
  let* heap := share_int a.(r_heap_bytes) capacity.(r_heap_bytes) in
  let* object_store := share_int a.(r_object_store_bytes) capacity.(r_object_store_bytes) in
  Ok (fold_left f64_max [share a.(r_gpu) capacity.(r_gpu); heap; object_store] (share a.(r_cpu) capacity.(r_cpu))).

Definition is_zero (a : ResourceVector) : bool :=
  f64_eqb a.(r_cpu) f64_zero && f64_eqb a.(r_gpu) f64_zero &&
  (a.(r_heap_bytes) =? 0) && (a.(r_object_store_bytes) =? 0).

(** [_resource_vectors_equivalent] *)
Definition equivalent (a b : ResourceVector) : bool :=
  f64_isclose (f64_lit 1 1000000000) a.(r_cpu) b.(r_cpu) && f64_isclose (f64_lit 1 1000000000) a.(r_gpu) b.(r_gpu) &&
  (a.(r_heap_bytes) =? b.(r_heap_bytes)) && (a.(r_object_store_bytes) =? b.(r_object_store_bytes)).

End Res.

(** ** Allocations *)

Record NodeResourceAllocation := MkNodeAllocation { na_node_id : string; na_resources : ResourceVector }.

Record ActorPlacement := MkPlacement { ap_stage_id : string; ap_actor_index : Z; ap_node_id : string }.

Record QueryAllocation := MkAllocation {
  al_resources : ResourceVector;
  al_nodes : list NodeResourceAllocation;
  al_placements : list ActorPlacement;
  al_generation : Z;
}.

(** [len(set(l)) != len(l)] *)
Definition has_duplicates {A} `{EqDecision A} (l : list A) : bool := negb (bool_decide (NoDup l)).

Module Allocation.

Definition new_node (node_id : string) (resources : ResourceVector) : result NodeResourceAllocation :=
  let node := strip node_id in
  let* _ := raise_if (String.eqb node "") (ValueError "node allocation node_id must be non-empty") in
  let* _ := raise_if (Res.is_zero resources)
    (ValueError ("node allocation " +:+ node +:+ " must own non-zero resources")) in
  Ok (MkNodeAllocation node resources).

Definition new_placement (stage_id : string) (actor_index : Z) (node_id : string) : result ActorPlacement :=
  let stage := strip stage_id in
  let node := strip node_id in
  let* _ := raise_if (String.eqb stage "") (ValueError "actor placement stage_id must be non-empty") in
  let* _ := raise_if (actor_index <? 0) (ValueError "actor placement actor_index must be >= 0") in
  let* _ := raise_if (String.eqb node "") (ValueError "actor placement node_id must be non-empty") in
  Ok (MkPlacement stage actor_index node).

Definition new (resources : ResourceVector) (nodes : list NodeResourceAllocation)
    (placements : list ActorPlacement) (generation : Z) : result QueryAllocation :=
  let* _ := raise_if (generation <=? 0) (ValueError "generation must be > 0") in
  let node_ids := map na_node_id nodes in
  let* _ := raise_if (has_duplicates node_ids)
    (ValueError "query allocation contains duplicate node_id entries") in
  let* aggregate := rfoldM (fun acc n => Res.add acc n.(na_resources)) Res.zero nodes in
  let* _ := raise_if (negb (Res.equivalent aggregate resources))
    (ValueError "query allocation resources must equal the sum of node_allocations") in
  let* _ := raise_if (has_duplicates (map (fun p => (p.(ap_stage_id), p.(ap_actor_index))) placements))
    (ValueError "query allocation contains duplicate actor placements") in
  let unknown : gset string := list_to_set (map ap_node_id placements) ∖ list_to_set node_ids in
  let* _ := raise_if (negb (bool_decide (unknown = ∅)))
    (ValueError ("actor placement references unallocated node_id: " +:+ comma_join (sorted_str (elements unknown)))) in
  Ok (MkAllocation resources nodes placements generation).

Definition resources_for_node (a : QueryAllocation) (node_id : string) : result ResourceVector :=
  match find (fun n => String.eqb n.(na_node_id) node_id) a.(al_nodes) with
  | Some n => Ok n.(na_resources)
  | None => Raise (KeyError ("query has no allocation on Ray node " +:+ repr_str node_id))
  end.

Definition actor_node_ids_for_stage (a : QueryAllocation) (stage_id : string) : list string :=
  map ap_node_id
    (py_sorted (fun p q => p.(ap_actor_index) <=? q.(ap_actor_index))
       (List.filter (fun p => String.eqb p.(ap_stage_id) stage_id) a.(al_placements))).

End Allocation.

(** ** Stages *)

Record StageResourceSpec := MkStage {
  sp_query_id : string;
  sp_stage_id : string;
  sp_physical_node_id : string;
  sp_stage_kind : string;
  sp_backend : string;
  sp_input_stage_ids : list string;
  sp_per_task : ResourceVector;
  sp_target_output_block_bytes : Z;
  sp_generator_buffer_blocks : Z;
  sp_max_concurrency : option Z;
  sp_resident_per_actor : ResourceVector;
  sp_actor_min_size : Z;
  sp_actor_max_size : Z;
  sp_actor_prefetch_depth : Z;
  sp_spill_mode : string;
}.

Module Stage.

Definition output_window_bytes (s : StageResourceSpec) : Z :=
  s.(sp_target_output_block_bytes) * s.(sp_generator_buffer_blocks).

Definition is_ray_process (s : StageResourceSpec) : bool :=
  existsb (String.eqb s.(sp_backend)) ["ray_task"; "ray_actor"; "ray_worker"].

Definition is_actor (s : StageResourceSpec) : bool := String.eqb s.(sp_backend) "ray_actor".
Definition is_worker (s : StageResourceSpec) : bool := String.eqb s.(sp_backend) "ray_worker".

(** The checks on a stage that is, or is not, a pool of actors. *)
Definition validate_actor_fields (s : StageResourceSpec) : result unit :=
  let id := s.(sp_stage_id) in
  let fail b m := raise_if b (ValueError m) in
  let per_task := s.(sp_per_task) in
  if is_actor s then
    let* _ := fail (s.(sp_actor_min_size) <=? 0) ("ray_actor stage " +:+ id +:+ " actor_min_size must be > 0") in
    let* _ := fail (s.(sp_actor_max_size) <? s.(sp_actor_min_size))
      ("ray_actor stage " +:+ id +:+ " actor_max_size must be >= actor_min_size") in
    let* _ := fail (s.(sp_actor_prefetch_depth) <=? 0)
      ("ray_actor stage " +:+ id +:+ " actor_prefetch_depth must be > 0") in
    let* _ := fail (bool_decide (is_Some s.(sp_max_concurrency)))
      ("ray_actor stage " +:+ id +:+ " concurrency is owned by concrete actor slots") in
    fail (negb (f64_eqb per_task.(r_cpu) f64_zero) || negb (f64_eqb per_task.(r_gpu) f64_zero)
          || negb (per_task.(r_heap_bytes) =? 0))
      ("ray_actor stage " +:+ id +:+ " invocation resources may only contain object-store bytes")
  else
    let* _ := fail (negb (s.(sp_actor_min_size) =? 0) || negb (s.(sp_actor_max_size) =? 0))
      ("actor bounds are only valid for ray_actor stages: " +:+ id) in
    let* _ := fail (negb (s.(sp_actor_prefetch_depth) =? 1))
      ("actor_prefetch_depth is only configurable for ray_actor stages: " +:+ id) in
    fail (negb (Res.is_zero s.(sp_resident_per_actor)))
      ("resident_per_actor is only valid for ray_actor stages: " +:+ id).

(** [_validate_stage] *)
Definition validate (query_id : string) (s : StageResourceSpec) : result unit :=
  let id := s.(sp_stage_id) in
  let fail b m := raise_if b (ValueError m) in
  let target := s.(sp_target_output_block_bytes) in
  let blocks := s.(sp_generator_buffer_blocks) in
  let blank x := String.eqb (strip x) "" in
  let* _ := fail (negb (String.eqb (strip s.(sp_query_id)) query_id))
    ("stage " +:+ (if String.eqb id "" then "<empty>" else id) +:+ " query_id " +:+ repr_str s.(sp_query_id)
     +:+ " does not match " +:+ repr_str query_id) in
  let* _ := fail (blank id) "stage_id must be non-empty" in
  let* _ := fail (negb (startswith id "stage:")) ("stage_id must use stable 'stage:' identity: " +:+ id) in
  let* _ := fail (blank s.(sp_physical_node_id)) ("stage " +:+ id +:+ " physical_node_id must be non-empty") in
  let* _ := fail (blank s.(sp_stage_kind)) ("stage " +:+ id +:+ " stage_kind must be non-empty") in
  let* _ := fail (blank s.(sp_backend)) ("stage " +:+ id +:+ " backend must be non-empty") in
  let* _ := fail (target <? 0) ("stage " +:+ id +:+ " target_output_block_bytes must be >= 0") in
  let* _ := fail (blocks <? 0) ("stage " +:+ id +:+ " generator_buffer_blocks must be >= 0") in
  let* _ := fail ((target =? 0) && negb (blocks =? 0))
    ("stage " +:+ id +:+ " target_output_block_bytes and generator_buffer_blocks must both be zero") in
  let* _ := fail ((0 <? target) && (blocks <=? 0))
    ("stage " +:+ id +:+ " target_output_block_bytes and generator_buffer_blocks must both be positive") in
  let* _ := fail (match s.(sp_max_concurrency) with Some n => n <=? 0 | None => false end)
    ("stage " +:+ id +:+ " max_concurrency must be > 0") in
  let* _ := fail (negb (existsb (String.eqb s.(sp_spill_mode)) ["streaming"; "barrier"]))
    ("stage " +:+ id +:+ " has invalid spill_mode " +:+ repr_str s.(sp_spill_mode)) in
  let process := if is_actor s then s.(sp_resident_per_actor) else s.(sp_per_task) in
  let* _ := fail (is_ray_process s && f64_le process.(r_cpu) f64_zero && f64_le process.(r_gpu) f64_zero)
    ("Ray stage " +:+ id +:+ " must request CPU or GPU resources") in
  let* _ := fail (is_ray_process s && (process.(r_heap_bytes) <=? 0))
    ("Ray stage " +:+ id +:+ " must request non-zero heap_bytes") in
  let* _ := validate_actor_fields s in
  fail (String.eqb s.(sp_backend) "ray_task" && bool_decide (is_Some s.(sp_max_concurrency)))
    ("ray_task stage " +:+ id +:+ " concurrency is owned by resource credit").

(** The resources one invocation commits, output window included. *)
Definition task_commitment (s : StageResourceSpec) : result ResourceVector :=
  Res.new s.(sp_per_task).(r_cpu) s.(sp_per_task).(r_gpu) s.(sp_per_task).(r_heap_bytes)
    (s.(sp_per_task).(r_object_store_bytes) + output_window_bytes s).

End Stage.

(** ** The graph of stages *)

Record QueryExecutionGraph := MkGraph {
  g_query_id : string;
  g_plan_digest : string;
  g_stages : list StageResourceSpec;
  g_terminal_stage_ids : list string;
}.

Module Graph.

(** [{stage.stage_id: stage for stage in stages}] *)
Definition by_id (stages : list StageResourceSpec) : list (string * StageResourceSpec) :=
  fold_left (fun d s => od_set s.(sp_stage_id) s d) stages [].

(** [downstream[parent].add(child)] *)
Definition add_edge (child : string) (downstream : gmap string (gset string)) (parent : string)
    : result (gmap string (gset string)) :=
  match downstream !! parent with
  | None => Raise (KeyError (repr_str parent))
  | Some children => Ok (<[parent := {[child]} ∪ children]> downstream)
  end.

Definition no_children (stages : list StageResourceSpec) : gmap string (gset string) :=
  list_to_map (map (fun s => (s.(sp_stage_id), ∅)) stages).

(** The map from a stage to the stages that read its output. *)
Definition downstream_of (stages : list StageResourceSpec) : result (gmap string (gset string)) :=
  rfoldM (fun d s => rfoldM (add_edge s.(sp_stage_id)) d s.(sp_input_stage_ids)) (no_children stages) stages.

(** The ready stages are a [heapq]: [heappop] takes the least. *)
Definition heappush : string -> list string -> list string := sinsert String.leb.

(** One child of a stage that was taken from the heap. *)
Definition relax (acc : gmap string Z * list string) (child : string) : result (gmap string Z * list string) :=
  let '(indegree, ready) := acc in
  match indegree !! child with
  | None => Raise (KeyError (repr_str child))
  | Some n => Ok (<[child := n - 1]> indegree, if n - 1 =? 0 then heappush child ready else ready)
  end.

(** The loop of [_topological_order]. *)
Fixpoint order_loop (fuel : nat) (downstream : gmap string (gset string)) (indegree : gmap string Z)
    (ready ordered : list string) : result (list string) :=
  match fuel, ready with
  | S fuel, stage :: ready =>
      let children := default ∅ (downstream !! stage) in
      let* (indegree, ready) := rfoldM relax (indegree, ready) (sorted_str (elements children)) in
      order_loop fuel downstream indegree ready (ordered ++ [stage])
  | _, _ => Ok ordered
  end.

Definition input_count (s : StageResourceSpec) : Z := Z.of_nat (length s.(sp_input_stage_ids)).

(** [_topological_order]; every stage enters the heap at most once. *)
Definition topological_order (stages : list (string * StageResourceSpec)) (downstream : gmap string (gset string))
    : result (list string) :=
  let indegree : gmap string Z := list_to_map (map (fun '(id, s) => (id, input_count s)) stages) in
  let ready := sorted_str (map fst (List.filter (fun '(_, s) => input_count s =? 0) stages)) in
  order_loop (length stages) downstream indegree ready [].

(** The first loop of [_validate]. *)
Definition register_stage (query_id : string)
    (acc : list (string * StageResourceSpec) * list (string * string)) (s : StageResourceSpec)
    : result (list (string * StageResourceSpec) * list (string * string)) :=
  let '(stages, nodes) := acc in
  let* _ := Stage.validate query_id s in
  let* _ := raise_if (od_mem s.(sp_stage_id) stages) (ValueError ("duplicate stage_id: " +:+ s.(sp_stage_id))) in
  let* _ := raise_if (od_mem s.(sp_physical_node_id) nodes)
    (ValueError ("duplicate physical_node_id: " +:+ s.(sp_physical_node_id) +:+ " used by "
      +:+ od_get_default s.(sp_physical_node_id) "" nodes +:+ " and " +:+ s.(sp_stage_id))) in
  Ok (od_set s.(sp_stage_id) s stages, od_set s.(sp_physical_node_id) s.(sp_stage_id) nodes).

(** The edges into one stage, as [_validate] checks and adds them. *)
Definition validate_inputs (stages : list (string * StageResourceSpec)) (downstream : gmap string (gset string))
    (s : StageResourceSpec) : result (gmap string (gset string)) :=
  let* _ := raise_if (has_duplicates s.(sp_input_stage_ids))
    (ValueError ("stage " +:+ s.(sp_stage_id) +:+ " has duplicate input_stage_ids")) in
  rfoldM (fun d input =>
    let* _ := raise_if (negb (od_mem input stages))
      (ValueError ("stage " +:+ s.(sp_stage_id) +:+ " references missing input stage " +:+ input)) in
    let* _ := raise_if (String.eqb input s.(sp_stage_id))
      (ValueError ("query graph contains a cycle at stage " +:+ s.(sp_stage_id))) in
    add_edge s.(sp_stage_id) d input) downstream s.(sp_input_stage_ids).

(** The stages from which a terminal stage is reached. *)
Definition reaches_terminal (downstream : gmap string (gset string)) (terminals ordered : list string) : gset string :=
  fold_left (fun reached stage =>
      if bool_decide (default ∅ (downstream !! stage) ∩ reached = ∅) then reached else {[stage]} ∪ reached)
    (rev ordered) (list_to_set terminals).

(** The checks on one terminal stage. *)
Definition check_registered (stages : list (string * StageResourceSpec)) (t : string) : result unit :=
  raise_if (negb (od_mem t stages)) (ValueError ("terminal stage is not registered: " +:+ t)).

Definition check_unread (downstream : gmap string (gset string)) (t : string) : result unit :=
  let children := default ∅ (downstream !! t) in
  raise_if (negb (bool_decide (children = ∅)))
    (ValueError ("terminal stage " +:+ t +:+ " has downstream stages: " +:+ comma_join (sorted_str (elements children)))).

(** [_validate] *)
Definition validate (g : QueryExecutionGraph) : result unit :=
  let* _ := raise_if (String.eqb g.(g_query_id) "") (ValueError "query_id must be non-empty") in
  let* _ := raise_if (String.eqb g.(g_plan_digest) "") (ValueError "plan_digest must be non-empty") in
  let* _ := raise_if (bool_decide (length g.(g_stages) = O))
    (ValueError "query graph must contain at least one stage") in
  let* _ := raise_if (bool_decide (length g.(g_terminal_stage_ids) = O))
    (ValueError "query graph must contain at least one terminal stage") in
  let* (stages, _) := rfoldM (register_stage g.(g_query_id)) ([], []) g.(g_stages) in
  let* _ := raise_if (has_duplicates g.(g_terminal_stage_ids)) (ValueError "terminal_stage_ids must be unique") in
  let* _ := rfoldM (fun _ => check_registered stages) tt g.(g_terminal_stage_ids) in
  let* downstream := rfoldM (validate_inputs stages) (no_children g.(g_stages)) g.(g_stages) in
  let* ordered := topological_order stages downstream in
  let* _ := raise_if (negb (bool_decide (length ordered = length stages)))
    (ValueError "query graph contains a cycle") in
  let* _ := rfoldM (fun _ => check_unread downstream) tt g.(g_terminal_stage_ids) in
  let missing := list_to_set (od_keys stages) ∖ reaches_terminal downstream g.(g_terminal_stage_ids) ordered in
  raise_if (negb (bool_decide (missing = ∅)))
    (ValueError ("stage " +:+ default "" (head (sorted_str (elements missing))) +:+ " does not reach a terminal stage")).

(** The constructor. *)
Definition new (query_id plan_digest : string) (stages : list StageResourceSpec) (terminals : list string)
    : result QueryExecutionGraph :=
  let g := MkGraph (strip query_id) (strip plan_digest) stages terminals in
  let* _ := validate g in Ok g.

Definition stage_by_id (g : QueryExecutionGraph) (stage_id : string) : result StageResourceSpec :=
  match find (fun s => String.eqb s.(sp_stage_id) stage_id) g.(g_stages) with
  | Some s => Ok s
  | None => Raise (KeyError ("unknown stage_id " +:+ repr_str stage_id))
  end.

Definition stage_id_for_physical_node (g : QueryExecutionGraph) (node : string) : result string :=
  match find (fun s => String.eqb s.(sp_physical_node_id) node) g.(g_stages) with
  | Some s => Ok s.(sp_stage_id)
  | None => Raise (KeyError ("unknown physical_node_id " +:+ repr_str node))
  end.

Definition topological_stage_ids (g : QueryExecutionGraph) : result (list string) :=
  let* downstream := downstream_of g.(g_stages) in
  topological_order (by_id g.(g_stages)) downstream.

Definition reverse_topological_stage_ids (g : QueryExecutionGraph) : result (list string) :=
  let* ordered := topological_stage_ids g in Ok (rev ordered).

(** [by_id[id].backend == "ray_worker"] *)
Definition worker_stage (stages : list (string * StageResourceSpec)) (id : string) : bool :=
  match od_get id stages with Some s => Stage.is_worker s | None => false end.

(** One stage of the propagation in
    [downstream_fte_stage_ids_requiring_separate_slot]. *)
Definition spread (stages : list (string * StageResourceSpec)) (downstream : gmap string (gset string))
    (crossed : gmap string bool) (stage : string) : gmap string bool :=
  match crossed !! stage with
  | None => crossed
  | Some c =>
      fold_left (fun m child => <[child := default false (m !! child) || (c || negb (worker_stage stages child))]> m)
        (elements (default ∅ (downstream !! stage))) crossed
  end.

Definition downstream_fte_stage_ids_requiring_separate_slot (g : QueryExecutionGraph) (source_id : string)
    : result (list string) :=
  let* source := stage_by_id g source_id in
  let stages := by_id g.(g_stages) in
  let* downstream := downstream_of g.(g_stages) in
  let* ordered := topological_stage_ids g in
  let start : gmap string bool := {[source.(sp_stage_id) := negb (Stage.is_worker source)]} in
  let crossed := fold_left (spread stages downstream) ordered start in
  Ok (List.filter (fun id => negb (String.eqb id source.(sp_stage_id)) && worker_stage stages id
                             && default false (crossed !! id)) ordered).

Definition task_identity (g : QueryExecutionGraph) (stage_id partition_id attempt_id : string) : result string :=
  let* stage := stage_by_id g stage_id in
  let partition := strip partition_id in
  let attempt := strip attempt_id in
  let* _ := raise_if (String.eqb partition "") (ValueError "partition_id must be non-empty") in
  let* _ := raise_if (String.eqb attempt "") (ValueError "attempt_id must be non-empty") in
  Ok ("task:" +:+ stage.(sp_stage_id) +:+ ":partition:" +:+ partition +:+ ":attempt:" +:+ attempt).

(** *** Allocations for a graph *)

(** The checks [validate_allocation] makes for a pool of actors. *)
Definition validate_actors (a : QueryAllocation) (full : bool) (s : StageResourceSpec) (placement : ResourceVector)
    : result unit :=
  let id := s.(sp_stage_id) in
  let* minimum := Res.scale placement (f64_of_int s.(sp_actor_min_size)) in
  let exceeded := Res.exceeded_dimensions minimum a.(al_resources) in
  let* _ := raise_if (full && negb (bool_decide (length exceeded = O)))
    (ValueError ("stage " +:+ id +:+ " actor minimum exceeds query allocation for "
      +:+ comma_join (map dimension_name exceeded))) in
  let placements := List.filter (fun p => String.eqb p.(ap_stage_id) id) a.(al_placements) in
  let* _ := raise_if (full && negb (Z.of_nat (length placements) =? s.(sp_actor_min_size)))
    (ValueError ("stage " +:+ id +:+ " requires exactly " +:+ str_of_int s.(sp_actor_min_size) +:+ " actor placements")) in
  let indices : gset Z := list_to_set (map ap_actor_index placements) in
  let* _ := raise_if (negb (bool_decide (length placements = O))
                      && negb (bool_decide (indices = list_to_set (seqZ 0 s.(sp_actor_min_size)))))
    (ValueError ("stage " +:+ id +:+ " actor placement indices must be contiguous from zero")) in
  rfoldM (fun _ p =>
      let* capacity := Allocation.resources_for_node a p.(ap_node_id) in
      raise_if (negb (Res.fits_within placement capacity))
        (ValueError ("stage " +:+ id +:+ " actor " +:+ str_of_int p.(ap_actor_index)
          +:+ " does not fit allocated Ray node " +:+ p.(ap_node_id)))) tt placements.

(** One stage of [validate_allocation]. *)
Definition validate_stage_allocation (a : QueryAllocation) (full : bool) (s : StageResourceSpec) : result unit :=
  let id := s.(sp_stage_id) in
  let capacity := a.(al_resources) in
  let* task := Stage.task_commitment s in
  let resident := if Stage.is_actor s then s.(sp_resident_per_actor) else Res.zero in
  let* placement := Res.add resident task in
  let window := Stage.output_window_bytes s in
  let* _ := raise_if (full && (0 <? capacity.(r_object_store_bytes)) && (capacity.(r_object_store_bytes) <? window))
    (ValueError ("stage " +:+ id +:+ " output window " +:+ str_of_int window
      +:+ " exceeds query object-store allocation " +:+ str_of_int capacity.(r_object_store_bytes))) in
  let total := s.(sp_per_task).(r_object_store_bytes) + window in
  let* _ := raise_if (full && (0 <? capacity.(r_object_store_bytes)) && (capacity.(r_object_store_bytes) <? total))
    (ValueError ("stage " +:+ id +:+ " retained input plus output window " +:+ str_of_int total
      +:+ " exceeds query object-store allocation " +:+ str_of_int capacity.(r_object_store_bytes))) in
  let exceeded := Res.exceeded_dimensions placement capacity in
  let* _ := raise_if (full && negb (bool_decide (length exceeded = O)))
    (ValueError ("stage " +:+ id +:+ " maximum task exceeds query allocation for "
      +:+ comma_join (map dimension_name exceeded))) in
  let* _ := raise_if (full && negb (Res.is_zero task)
                      && negb (existsb (fun n => Res.fits_within placement n.(na_resources)) a.(al_nodes)))
    (ValueError ("stage " +:+ id +:+ " maximum task does not fit any allocated Ray node")) in
  if Stage.is_actor s then validate_actors a full s placement else Ok tt.

(** What the placed actors commit on each node. *)
Definition actor_commitment (g : QueryExecutionGraph) (acc : list (string * ResourceVector)) (p : ActorPlacement)
    : result (list (string * ResourceVector)) :=
  let* s := stage_by_id g p.(ap_stage_id) in
  let* invocation := Res.new f64_zero f64_zero 0 (s.(sp_per_task).(r_object_store_bytes) + Stage.output_window_bytes s) in
  let* with_resident := Res.add (od_get_default p.(ap_node_id) Res.zero acc) s.(sp_resident_per_actor) in
  let* total := Res.add with_resident invocation in
  Ok (od_set p.(ap_node_id) total acc).

Definition check_node_commitment (a : QueryAllocation) (entry : string * ResourceVector) : result unit :=
  let '(node, commitment) := entry in
  let* capacity := Allocation.resources_for_node a node in
  raise_if (negb (Res.fits_within commitment capacity))
    (ValueError ("cumulative actor placements do not fit allocated Ray node " +:+ node)).

(** [validate_allocation] *)
Definition validate_allocation (g : QueryExecutionGraph) (a : QueryAllocation) (full : bool) : result unit :=
  let* _ := rfoldM (fun _ s => validate_stage_allocation a full s) tt g.(g_stages) in
  let known : gset string := list_to_set (map sp_stage_id (List.filter Stage.is_actor g.(g_stages))) in
  let unknown : gset string := list_to_set (map ap_stage_id a.(al_placements)) ∖ known in
  let* _ := raise_if (negb (bool_decide (unknown = ∅)))
    (ValueError ("actor placement references non-actor stage: " +:+ comma_join (sorted_str (elements unknown)))) in
  if full then
    let* by_node := rfoldM (actor_commitment g) [] a.(al_placements) in
    rfoldM (fun _ => check_node_commitment a) tt by_node
  else Ok tt.

End Graph.
