(* ===== verification/GraphProofs.v ===== *)
(** * The order of the stages of a query

    Kahn's algorithm of [QueryExecutionGraph._topological_order] against the
    relation it sorts by, and what a validated graph guarantees. *)

From Stdlib Require Import Sorting.Sorted.
From S2P Require Import Prelude PyStr PyVal PyNum QueryGraph.

#[local] Open Scope string_scope.
#[local] Open Scope list_scope.
#[local] Open Scope Z_scope.

(** ** The order of strings *)

Lemma str_leb_trans x y z : String.leb x y -> String.leb y z -> String.leb x z.
Proof.
  unfold String.leb. revert y z. induction x as [|a x IH]; intros [|b y] [|c z]; cbn; try done.
  unfold Ascii.compare.
  destruct (N.compare_spec (N_of_ascii a) (N_of_ascii b)) as [E1|E1|E1]; try done;
  destruct (N.compare_spec (N_of_ascii b) (N_of_ascii c)) as [E2|E2|E2]; try done;
  destruct (N.compare_spec (N_of_ascii a) (N_of_ascii c)) as [E3|E3|E3]; try done; try lia.
  apply IH.
Qed.

Lemma str_leb_total x y : String.leb x y = false -> String.leb y x.
Proof. unfold String.leb. rewrite String.compare_antisym. by destruct (String.compare y x). Qed.

Lemma str_leb_refl x : String.leb x x.
Proof. destruct (String.leb x x) eqn:E; [done|]. apply str_leb_total in E as E'. by rewrite E in E'. Qed.

Definition str_sorted : list string -> Prop := StronglySorted (fun a b => String.leb a b).

Lemma heappush_sorted x l : str_sorted l -> str_sorted (Graph.heappush x l).
Proof. apply sinsert_sorted; [apply str_leb_trans|apply str_leb_total]. Qed.

(** ** Kahn's algorithm *)

Section Kahn.
Context (ids : list string) (ins : string -> list string) (downstream : gmap string (gset string)).

(** The inputs of [c] that have not been ordered. *)
Definition pending (ordered : list string) (c : string) : list string := filter (fun p => p ∉ ordered) (ins c).

(** Position [i] of the order: its inputs come before it, and it is the least
    of the stages that could come there. *)
Definition placed_at (ordered : list string) (i : nat) (c : string) : Prop :=
  (forall p, p ∈ ins c -> p ∈ take i ordered) /\
  (forall c', c' ∈ ids -> c' ∉ take i ordered -> (forall p, p ∈ ins c' -> p ∈ take i ordered) -> String.leb c c').

Record kahn_inv (indegree : gmap string Z) (ready ordered : list string) : Prop := {
  ki_nodup : NoDup (ordered ++ ready);
  ki_indegree : forall c, c ∈ ids -> indegree !! c = Some (Z.of_nat (length (pending ordered c)));
  ki_ready : forall c, c ∈ ordered ++ ready <-> c ∈ ids /\ pending ordered c = [];
  ki_sorted : str_sorted ready;
  ki_placed : forall i c, ordered !! i = Some c -> placed_at ordered i c;
}.

Lemma pending_nil ordered c : pending ordered c = [] <-> forall p, p ∈ ins c -> p ∈ ordered.
Proof.
  unfold pending. split.
  - intros E p Hp. destruct (decide (p ∈ ordered)) as [|Hn]; [done|].
    assert (H : p ∈ filter (fun p => p ∉ ordered) (ins c)) by (by apply list_elem_of_filter). rewrite E in H. by apply elem_of_nil in H.
  - intros H. destruct (filter _ _) as [|p l] eqn:E; [done|].
    assert (Hp : p ∈ filter (fun p => p ∉ ordered) (ins c)) by (rewrite E; left).
    apply list_elem_of_filter in Hp as [Hn Hp]. by destruct Hn; apply H.
Qed.

Lemma pending_snoc ordered s c :
  NoDup (ins c) -> s ∉ ordered ->
  length (pending ordered c) =
    (length (pending (ordered ++ [s]) c) + if decide (s ∈ ins c) then 1 else 0)%nat.
Proof.
  intros Hnd Hs. unfold pending. induction (ins c) as [|p l IH]; [done|].
  apply NoDup_cons in Hnd as [Hp Hnd]. rewrite !filter_cons. specialize (IH Hnd).
  destruct (decide (p = s)) as [->|Hne].
  - rewrite (decide_True (P := s ∉ ordered)) by done. rewrite (decide_False (P := s ∉ ordered ++ [s])) by set_solver.
    rewrite (decide_False (P := s ∈ l)) in IH by done. rewrite decide_True by set_solver. cbn. lia.
  - destruct (decide (p ∉ ordered)) as [D|D].
    + rewrite (decide_True (P := p ∉ ordered ++ [s])) by set_solver. cbn. rewrite IH.
      destruct (decide (s ∈ l)), (decide (s ∈ p :: l)); set_solver.
    + rewrite (decide_False (P := p ∉ ordered ++ [s])) by set_solver. rewrite IH.
      destruct (decide (s ∈ l)), (decide (s ∈ p :: l)); set_solver.
Qed.

(** All the children of a stage at once. *)
Lemma relax_all l indegree ready :
  NoDup l -> (forall c, c ∈ l -> is_Some (indegree !! c)) ->
  exists indegree' ready', rfoldM Graph.relax (indegree, ready) l = Ok (indegree', ready') /\
    (forall c, indegree' !! c = if decide (c ∈ l) then Z.pred <$> indegree !! c else indegree !! c) /\
    (forall c, c ∈ ready' <-> c ∈ ready \/ c ∈ l /\ indegree !! c = Some 1) /\
    (NoDup ready -> (forall c, c ∈ l -> c ∉ ready) -> NoDup ready') /\
    (str_sorted ready -> str_sorted ready').
Proof.
  revert indegree ready. induction l as [|c l IH]; intros indegree ready Hnd Hsome.
  - exists indegree, ready. split_and!; try done; set_solver.
  - apply NoDup_cons in Hnd as [Hc Hnd]. destruct (Hsome c ltac:(set_solver)) as [n Hn]. cbn [rfoldM Graph.relax]. rewrite Hn. cbn [rbind].
    set (ready1 := if n - 1 =? 0 then Graph.heappush c ready else ready).
    assert (He1 : forall x, x ∈ ready1 <-> x ∈ ready \/ x = c /\ n = 1).
    { intros x. unfold ready1. destruct (Z.eqb_spec (n - 1) 0); [|intuition lia].
      unfold Graph.heappush. rewrite sinsert_perm, elem_of_cons. intuition lia. }
    destruct (IH (<[c := n - 1]> indegree) ready1) as (d & r & E & Hd & Hr & Hn1 & Hs1); [done| |].
    { intros x Hx. rewrite lookup_insert_ne by set_solver. apply Hsome. set_solver. }
    exists d, r. split; [done|]. split_and!.
    + intros x. rewrite Hd. destruct (decide (x = c)) as [->|].
      * rewrite decide_False by done. rewrite lookup_insert_eq, decide_True by set_solver. by rewrite Hn.
      * rewrite lookup_insert_ne by done. destruct (decide (x ∈ l)), (decide (x ∈ c :: l)); set_solver.
    + intros x. rewrite Hr, He1. destruct (decide (x = c)) as [->|Hx].
      * rewrite Hn, lookup_insert_eq. set_solver.
      * rewrite lookup_insert_ne by done. set_solver.
    + intros Hnr Hdis. apply Hn1.
      * unfold ready1. destruct (n - 1 =? 0); [|done]. unfold Graph.heappush. rewrite sinsert_perm. apply NoDup_cons. set_solver.
      * intros x Hx. rewrite He1. set_solver.
    + intros Hs. apply Hs1. unfold ready1. destruct (n - 1 =? 0); [by apply heappush_sorted|done].
Qed.

Hypothesis ids_nodup : NoDup ids.
Hypothesis ins_nodup : forall c, c ∈ ids -> NoDup (ins c).
Hypothesis ins_ids : forall c p, c ∈ ids -> p ∈ ins c -> p ∈ ids.
Hypothesis downstream_spec : forall p c, p ∈ ids -> c ∈ default ∅ (downstream !! p) <-> c ∈ ids /\ p ∈ ins c.

Lemma kahn_step indegree s ready ordered :
  kahn_inv indegree (s :: ready) ordered ->
  exists indegree' ready',
    rfoldM Graph.relax (indegree, ready) (sorted_str (elements (default ∅ (downstream !! s)))) = Ok (indegree', ready') /\
    kahn_inv indegree' ready' (ordered ++ [s]).
Proof.
  intros [K1 K2 K3 K4 K5]. set (l := sorted_str (elements (default ∅ (downstream !! s)))).
  assert (Hs : s ∈ ids /\ pending ordered s = []) by (apply K3; set_solver). destruct Hs as [Hs Hs0].
  assert (Hl : forall c, c ∈ l <-> c ∈ ids /\ s ∈ ins c).
  { intros c. unfold l, sorted_str. rewrite py_sorted_elem, elem_of_elements. by apply downstream_spec. }
  assert (Hnl : NoDup l) by (unfold l, sorted_str; rewrite py_sorted_perm; apply NoDup_elements).
  assert (Hso : s ∉ ordered). { apply NoDup_app in K1 as (_ & H & _). intros Hin. apply (H s Hin). set_solver. }
  assert (Hp : forall c, c ∈ ids -> (if decide (c ∈ l) then Z.pred <$> indegree !! c else indegree !! c) =
    Some (Z.of_nat (length (pending (ordered ++ [s]) c)))).
  { intros c Hc. pose proof (pending_snoc ordered s c (ins_nodup c Hc) Hso) as E. rewrite K2 by done. 
    destruct (decide (s ∈ ins c)) as [D|D].
    - rewrite decide_True by (by apply Hl). cbn. f_equal. lia.
    - rewrite decide_False by (rewrite Hl; naive_solver). f_equal. lia. }
  destruct (relax_all l indegree ready) as (d & r & E & Hd & Hr & Hnr & Hsr); [done| |].
  { intros c [Hc _]%Hl. rewrite K2 by done. eauto. }
  exists d, r. split; [done|].
  apply NoDup_app in K1 as (N1 & N2 & N3). apply NoDup_cons in N3 as [N3 N4].
  assert (Hfresh : forall c, c ∈ l -> c ∉ ordered ++ s :: ready).
  { intros c [Hc Hsc]%Hl Hin. apply K3 in Hin as [_ Hin]. by apply Hso, (proj1 (pending_nil ordered c) Hin). }
  assert (Hnew : forall c, c ∈ r <-> c ∈ ready \/ c ∈ l /\ pending (ordered ++ [s]) c = []).
  { intros c. rewrite Hr. split; (intros [|[Hc H]]; [by left|right]); (split; [done|]); pose proof (proj1 (Hl c) Hc) as [Hi Hin].
    - specialize (Hp c Hi). rewrite decide_True, H in Hp by done. cbn in Hp. apply length_zero_iff_nil. injection Hp. lia.
    - specialize (Hp c Hi). rewrite decide_True, H in Hp by done. rewrite K2 in Hp |- * by done. cbn in Hp. injection Hp. intros. f_equal. lia. }
  split.
  - rewrite <- app_assoc. cbn. apply NoDup_app. split; [done|]. split.
    + intros c Hc [->|[H|[H _]]%Hnew]%elem_of_cons; [done| |]; [by apply (N2 c Hc); right|]. apply (Hfresh c H). set_solver.
    + apply NoDup_cons. split.
      * intros [H|[H _]]%Hnew; [done|]. apply (Hfresh s H). set_solver.
      * apply Hnr; [done|]. intros c Hc Hin. apply (Hfresh c Hc). set_solver.
  - intros c Hc. by rewrite Hd, Hp.
  - intros c. rewrite <- app_assoc, elem_of_app. cbn. rewrite elem_of_cons, Hnew.
    assert (Hold : c ∈ ordered ++ s :: ready -> c ∈ ids /\ pending (ordered ++ [s]) c = []).
    { intros [Hi Hn]%K3. split; [done|]. rewrite pending_nil in Hn |- *. set_solver. }
    split.
    + intros [H|[->|[H|[H H']]]]; [apply Hold; set_solver..|]. split; [by apply Hl|done].
    + intros [Hi Hn]. destruct (decide (c ∈ l)) as [|Hcl]; [by auto|].
      assert (H : c ∈ ordered ++ s :: ready); [|by apply elem_of_app in H as [?|[?|?]%elem_of_cons]; auto].
      apply K3. split; [done|]. rewrite pending_nil in Hn |- *. intros p Hpc. specialize (Hn p Hpc).
      apply elem_of_app in Hn as [|Hn]; [done|]. apply list_elem_of_singleton in Hn as ->. destruct Hcl. by apply Hl.
  - apply Hsr. by inversion K4.
  - intros i c Hi. destruct (decide (i < length ordered)%nat) as [Hlt|Hge].
    + rewrite lookup_app_l in Hi by done. destruct (K5 i c Hi) as [H1 H2]. unfold placed_at. rewrite take_app_le by lia. done.
    + rewrite lookup_app_r in Hi by lia. apply list_lookup_singleton_Some in Hi as [Hi <-].
      replace i with (length ordered) by lia. unfold placed_at. rewrite take_app_length. split; [by apply pending_nil|].
      intros c' Hc' Hno Hpc'. assert (H : c' ∈ ordered ++ s :: ready) by (apply K3; split; [done|by apply pending_nil]).
      apply elem_of_app in H as [|[->|H]%elem_of_cons]; [done| |].
      * apply str_leb_refl.
      * inversion_clear K4. rewrite Forall_forall in H1. by apply H1.
Qed.

Lemma order_loop_spec fuel indegree ready ordered :
  (fuel + length ordered = length ids)%nat -> kahn_inv indegree ready ordered ->
  exists indegree' ordered', Graph.order_loop fuel downstream indegree ready ordered = Ok ordered' /\
    kahn_inv indegree' [] ordered'.
Proof.
  revert indegree ready ordered. induction fuel as [|fuel IH]; intros indegree ready ordered Hf Hi; cbn [Graph.order_loop].
  - assert (length (ordered ++ ready) <= length ids)%nat.
    { apply submseteq_length, NoDup_submseteq; [apply Hi|]. intros c Hc. by apply Hi in Hc as [? _]. }
    rewrite length_app in H. destruct ready; [by eauto|cbn in H; lia].
  - destruct ready as [|s ready]; [by eauto|]. destruct (kahn_step _ _ _ _ Hi) as (d & r & -> & Hi'). cbn [rbind].
    apply IH; [|done]. rewrite length_app. cbn. lia.
Qed.

End Kahn.

(** ** The stages of a graph *)

Definition stage_ids (stages : list StageResourceSpec) : list string := map sp_stage_id stages.

(** [c] reads the output of [p]. *)
Definition edge (stages : list StageResourceSpec) (p c : string) : Prop :=
  exists s, s ∈ stages /\ s.(sp_stage_id) = c /\ p ∈ s.(sp_input_stage_ids).

(** What [_validate] checks of the inputs before it looks for cycles. *)
Record stages_ok (stages : list StageResourceSpec) : Prop := {
  so_ids : NoDup (stage_ids stages);
  so_inputs : forall s, s ∈ stages -> NoDup s.(sp_input_stage_ids);
  so_known : forall s p, s ∈ stages -> p ∈ s.(sp_input_stage_ids) -> p ∈ stage_ids stages;
}.

Definition keyed_stages (stages : list StageResourceSpec) : list (string * StageResourceSpec) :=
  map (fun s => (s.(sp_stage_id), s)) stages.

Lemma keyed_stages_ids stages : od_keys (keyed_stages stages) = stage_ids stages.
Proof. unfold od_keys, keyed_stages, stage_ids. by rewrite map_map. Qed.

Lemma keyed_stages_get stages s :
  NoDup (stage_ids stages) -> s ∈ stages -> od_get s.(sp_stage_id) (keyed_stages stages) = Some s.
Proof.
  intros Hn Hs. apply od_elem_get; [unfold od_wf; by rewrite keyed_stages_ids|].
  unfold keyed_stages. apply list_elem_of_fmap. eauto.
Qed.

Lemma od_fold_fresh stages acc :
  NoDup (od_keys acc ++ stage_ids stages) ->
  fold_left (fun d s => od_set s.(sp_stage_id) s d) stages acc = acc ++ keyed_stages stages.
Proof.
  revert acc. induction stages as [|s stages IH]; intros acc Hn; cbn; [by rewrite app_nil_r|].
  cbn in Hn. assert (Hs : od_get s.(sp_stage_id) acc = None).
  { apply od_get_None. intros Hin. apply NoDup_app in Hn as (_ & Hn & _). apply (Hn _ Hin). set_solver. }
  rewrite IH; rewrite od_set_absent by done; [by rewrite <- app_assoc|].
  unfold od_keys in *. rewrite map_app, <- app_assoc. done.
Qed.

Lemma by_id_keyed stages : NoDup (stage_ids stages) -> Graph.by_id stages = keyed_stages stages.
Proof. intros Hn. unfold Graph.by_id. by rewrite od_fold_fresh. Qed.

Definition inputs_of (stages : list StageResourceSpec) (c : string) : list string :=
  match od_get c (keyed_stages stages) with Some s => s.(sp_input_stage_ids) | None => [] end.

Lemma inputs_of_edge stages p c :
  NoDup (stage_ids stages) -> p ∈ inputs_of stages c <-> edge stages p c.
Proof.
  intros Hn. unfold inputs_of. split.
  - destruct (od_get c (keyed_stages stages)) as [s|] eqn:E; [|by intros ?%elem_of_nil].
    apply od_get_elem in E. unfold keyed_stages in E. apply list_elem_of_fmap in E as (s' & [= -> ->] & Hs).
    intros Hp. by exists s'.
  - intros (s & Hs & <- & Hp). by rewrite keyed_stages_get.
Qed.

(** *** The map of downstream stages *)

Lemma add_edges_spec c l d :
  (forall p, p ∈ l -> is_Some (d !! p)) ->
  exists d', rfoldM (Graph.add_edge c) d l = Ok d' /\ dom d' = dom d /\
    forall p x, x ∈ default ∅ (d' !! p) <-> x ∈ default ∅ (d !! p) \/ x = c /\ p ∈ l.
Proof.
  revert d. induction l as [|q l IH]; intros d Hl; cbn [rfoldM]; [exists d; set_solver|].
  destruct (Hl q ltac:(set_solver)) as [children Hq]. unfold Graph.add_edge at 1. rewrite Hq. cbn [rbind].
  destruct (IH (<[q := {[c]} ∪ children]> d)) as (d' & E & Hdom & Hd).
  { intros p Hp. destruct (decide (p = q)) as [->|]; [rewrite lookup_insert_eq; eauto|]. rewrite lookup_insert_ne by done. apply Hl. set_solver. }
  exists d'. split; [done|]. split.
  - rewrite Hdom, dom_insert_L. apply elem_of_dom_2 in Hq. set_solver.
  - intros p x. rewrite Hd. destruct (decide (p = q)) as [->|].
    + rewrite lookup_insert_eq, Hq. cbn. set_solver.
    + rewrite lookup_insert_ne by done. set_solver.
Qed.

Lemma edges_spec (all : list string) stages d :
  (forall s p, s ∈ stages -> p ∈ s.(sp_input_stage_ids) -> p ∈ all) -> (forall p, p ∈ all -> is_Some (d !! p)) ->
  exists d', rfoldM (fun d s => rfoldM (Graph.add_edge s.(sp_stage_id)) d s.(sp_input_stage_ids)) d stages = Ok d' /\
    forall p x, x ∈ default ∅ (d' !! p) <-> x ∈ default ∅ (d !! p) \/ edge stages p x.
Proof.
  revert d. induction stages as [|s stages IH]; intros d Hk Hd; cbn [rfoldM].
  { exists d. split; [done|]. unfold edge. set_solver. }
  destruct (add_edges_spec s.(sp_stage_id) s.(sp_input_stage_ids) d) as (d1 & -> & Hdom & H1).
  { intros p Hp. apply Hd, (Hk s); [set_solver|done]. }
  cbn [rbind]. destruct (IH d1) as (d' & -> & H').
  { intros t p Ht. apply Hk. set_solver. }
  { intros p Hp%Hd. apply elem_of_dom in Hp. rewrite <- Hdom in Hp. by apply elem_of_dom. }
  exists d'. split; [done|]. intros p x. rewrite H', H1. unfold edge. split.
  - intros [[?|[-> ?]]|(t & ? & ?)]; [by left|right; exists s; set_solver|right; exists t; set_solver].
  - intros [?|(t & [->|?]%elem_of_cons & <- & ?)]; [by left; left|by left; right|right; eauto].
Qed.

Lemma no_children_get stages p : p ∈ stage_ids stages -> Graph.no_children stages !! p = Some ∅.
Proof.
  intros Hp. unfold Graph.no_children. induction stages as [|s stages IH]; cbn in *; [by apply elem_of_nil in Hp|].
  destruct (decide (s.(sp_stage_id) = p)) as [->|]; [by rewrite lookup_insert_eq|].
  rewrite lookup_insert_ne by done. apply IH. set_solver.
Qed.

Lemma no_children_empty stages p : default ∅ (Graph.no_children stages !! p) = ∅.
Proof.
  destruct (Graph.no_children stages !! p) as [c|] eqn:E; [|done]. unfold Graph.no_children in E.
  apply elem_of_list_to_map_2, list_elem_of_fmap in E as (s & [= -> ->] & _). done.
Qed.

Lemma downstream_ok stages :
  stages_ok stages ->
  exists d, Graph.downstream_of stages = Ok d /\ forall p c, c ∈ default ∅ (d !! p) <-> edge stages p c.
Proof.
  intros [Hn Hi Hk]. destruct (edges_spec (stage_ids stages) stages (Graph.no_children stages)) as (d & E & Hd); [done| |].
  { intros p Hp. rewrite no_children_get by done. eauto. }
  exists d. split; [done|]. intros p c. rewrite Hd, no_children_empty. set_solver.
Qed.

(** *** The topological order *)

(** The order a stage list has, whatever its listing: complete when there is
    no cycle, every stage after its inputs and the least possible. *)
Definition ordered_by (stages : list StageResourceSpec) (ordered : list string) : Prop :=
  forall i c, ordered !! i = Some c -> placed_at (stage_ids stages) (inputs_of stages) ordered i c.

Definition acyclic (stages : list StageResourceSpec) : Prop := forall c, ~ tc (edge stages) c c.

Lemma initial_indegree stages c :
  NoDup (stage_ids stages) -> c ∈ stage_ids stages ->
  (list_to_map (map (fun '(id, s) => (id, Graph.input_count s)) (keyed_stages stages)) : gmap string Z) !! c =
    Some (Z.of_nat (length (inputs_of stages c))).
Proof.
  intros Hn Hc. unfold stage_ids in Hc. apply list_elem_of_fmap in Hc as (s & -> & Hs).
  apply elem_of_list_to_map_1.
  - unfold keyed_stages. rewrite map_map, <- list_fmap_compose. exact Hn.
  - unfold inputs_of. rewrite keyed_stages_get by done. unfold keyed_stages. rewrite map_map. apply list_elem_of_fmap.
    by exists s.
Qed.

Lemma kahn_start stages :
  stages_ok stages ->
  kahn_inv (stage_ids stages) (inputs_of stages)
    (list_to_map (map (fun '(id, s) => (id, Graph.input_count s)) (keyed_stages stages)))
    (sorted_str (map fst (List.filter (fun '(_, s) => Graph.input_count s =? 0) (keyed_stages stages)))) [].
Proof.
  intros [Hn Hi Hk]. set (ready := map fst (List.filter _ _)).
  assert (Hp : forall c, pending (inputs_of stages) [] c = inputs_of stages c).
  { intros c. unfold pending. induction (inputs_of stages c) as [|p l IH]; [done|]. rewrite filter_cons, decide_True by set_solver. by rewrite IH. }
  assert (Hr : forall c, c ∈ ready <-> c ∈ stage_ids stages /\ inputs_of stages c = []).
  { intros c. unfold ready. rewrite list_elem_of_fmap. split.
    - intros ([c' s] & -> & [Hin E]%list_elem_of_In%List.filter_In). apply list_elem_of_In, list_elem_of_fmap in Hin as (s' & [= -> ->] & Hs).
      split; [unfold stage_ids; apply list_elem_of_fmap; eauto|]. unfold inputs_of. cbn [fst]. rewrite keyed_stages_get by done.
      unfold Graph.input_count in E. apply Z.eqb_eq in E. apply length_zero_iff_nil. lia.
    - intros [(s & -> & Hs)%list_elem_of_fmap E]. unfold inputs_of in E. rewrite keyed_stages_get in E by done.
      exists (s.(sp_stage_id), s). split; [done|]. apply list_elem_of_In, List.filter_In. split.
      + apply list_elem_of_In, list_elem_of_fmap. eauto.
      + unfold Graph.input_count. by rewrite E. }
  split; cbn.
  - unfold sorted_str. rewrite py_sorted_perm. unfold ready.
    apply (sublist_NoDup _ (od_keys (keyed_stages stages))); [by rewrite keyed_stages_ids|]. unfold od_keys.
    apply fmap_sublist. clear. induction (keyed_stages stages) as [|x l IH]; cbn; [done|]. case_match; by constructor.
  - intros c Hc. rewrite Hp. by apply initial_indegree.
  - intros c. unfold sorted_str. by rewrite py_sorted_elem, Hr, Hp.
  - apply py_sorted_sorted; [apply str_leb_trans|apply str_leb_total].
  - intros i c Hi'. by rewrite lookup_nil in Hi'.
Qed.

Lemma inputs_of_ok stages :
  stages_ok stages ->
  (forall c, c ∈ stage_ids stages -> NoDup (inputs_of stages c)) /\
  (forall c p, p ∈ inputs_of stages c -> p ∈ stage_ids stages /\ c ∈ stage_ids stages).
Proof.
  intros [Hn Hi Hk]. split.
  - intros c (s & -> & Hs)%list_elem_of_fmap. unfold inputs_of. rewrite keyed_stages_get by done. by apply Hi.
  - intros c p (s & Hs & <- & Hp)%inputs_of_edge; [|done]. split; [by eapply Hk|]. apply list_elem_of_fmap. eauto.
Qed.

Lemma topological_order_kahn stages d :
  stages_ok stages -> (forall p c, c ∈ default ∅ (d !! p) <-> edge stages p c) ->
  exists indegree ordered, Graph.topological_order (keyed_stages stages) d = Ok ordered /\
    kahn_inv (stage_ids stages) (inputs_of stages) indegree [] ordered.
Proof.
  intros Hok Hd. destruct (inputs_of_ok stages Hok) as [H1 H2].
  apply (order_loop_spec (stage_ids stages) (inputs_of stages) d); try done.
  - apply Hok.
  - naive_solver.
  - intros p c Hp. rewrite Hd, <- inputs_of_edge by apply Hok. naive_solver.
  - unfold keyed_stages, stage_ids. rewrite !length_map. cbn. lia.
  - by apply kahn_start.
Qed.

Lemma tc_flip_path {A} (R : relation A) x y : tc (flip R) x y -> tc R y x.
Proof. induction 1; [by apply tc_once|]. by eapply tc_r. Qed.

Section Order.
Context (stages : list StageResourceSpec) (Hok : stages_ok stages).
Context (indegree : gmap string Z) (ordered : list string).
Context (Hk : kahn_inv (stage_ids stages) (inputs_of stages) indegree [] ordered).

Lemma ordered_nodup : NoDup ordered.
Proof using Hk. destruct Hk as [H _ _ _ _]. by rewrite app_nil_r in H. Qed.

Lemma ordered_closed c :
  c ∈ ordered <-> c ∈ stage_ids stages /\ forall p, edge stages p c -> p ∈ ordered.
Proof using Hk Hok.
  destruct Hk as [_ _ H _ _]. specialize (H c). rewrite app_nil_r in H. rewrite H, pending_nil.
  destruct Hok as [Hn _ _]. split; intros [H1 H2]; (split; [done|]); intros p Hp; by apply H2, inputs_of_edge.
Qed.

Lemma ordered_perm : length ordered = length stages -> Permutation ordered (stage_ids stages).
Proof using Hk Hok.
  intros E. apply submseteq_length_Permutation.
  - apply NoDup_submseteq; [apply ordered_nodup|]. intros c Hc. by apply ordered_closed in Hc as [? _].
  - unfold stage_ids. rewrite length_map. lia.
Qed.

(** A stage after which [c] comes is at a smaller position. *)
Lemma edge_position p c i : edge stages p c -> ordered !! i = Some c -> p ∈ take i ordered.
Proof using Hk Hok. intros He Hc. apply (ki_placed _ _ _ _ _ Hk i c Hc). apply inputs_of_edge; [apply Hok|done]. Qed.

Lemma path_position p c i : tc (edge stages) p c -> ordered !! i = Some c -> p ∈ take i ordered.
Proof using Hk Hok.
  intros Hp. revert i. induction Hp as [p c He|p q c He Hp IH]; intros i Hc; [by eapply edge_position|].
  apply IH in Hc. apply list_elem_of_lookup in Hc as [j Hj]. apply lookup_take_Some in Hj as [Hj Hlt].
  apply (edge_position p q j He) in Hj. apply list_elem_of_lookup in Hj as [k Hj]. apply lookup_take_Some in Hj as [Hj ?].
  apply list_elem_of_lookup. exists k. rewrite lookup_take_lt by lia. done.
Qed.

Lemma ordered_irreflexive c : c ∈ ordered -> ~ tc (edge stages) c c.
Proof using Hk Hok.
  intros [i Hi]%list_elem_of_lookup Hc. pose proof (path_position c c i Hc Hi) as Hp.
  apply list_elem_of_lookup in Hp as [j Hj]. apply lookup_take_Some in Hj as [Hj Hlt].
  pose proof (NoDup_lookup _ _ _ _ ordered_nodup Hi Hj). lia.
Qed.

Lemma edge_ids p c : edge stages p c -> p ∈ stage_ids stages /\ c ∈ stage_ids stages.
Proof using Hok.
  intros (s & Hs & <- & Hp). split; [by eapply Hok|]. apply list_elem_of_fmap. eauto.
Qed.

Lemma path_ids p c : tc (edge stages) p c -> p ∈ stage_ids stages.
Proof using Hok. destruct 1 as [? ? H|? ? ? H]; by apply edge_ids in H as [? ?]. Qed.

Lemma acyclic_complete : acyclic stages -> Permutation ordered (stage_ids stages).
Proof using Hk Hok.
  intros Hac. apply NoDup_Permutation; [apply ordered_nodup|apply Hok|]. intros c.
  split; [by intros [? _]%ordered_closed|]. intros Hc.
  assert (Hsn : sn (flip (edge stages)) c).
  { apply tc_finite_sn.
    - intros x Hx. apply (Hac x). by apply tc_flip_path.
    - exists (stage_ids stages). intros x Hx. clear -Hx Hok. induction Hx as [? ? H|]; [|done]. by apply edge_ids in H as [? _]. }
  induction Hsn as [c _ IH]. apply ordered_closed. split; [done|]. intros p Hp. apply IH; [done|]. by apply edge_ids in Hp as [? _].
Qed.

Lemma complete_iff_acyclic : length ordered = length stages <-> acyclic stages.
Proof using Hk Hok.
  split.
  - intros E c Hc. apply ordered_perm in E as Hp. apply (ordered_irreflexive c); [|done]. rewrite Hp.
    by eapply path_ids.
  - intros H%acyclic_complete. rewrite H. unfold stage_ids. by rewrite length_map.
Qed.

End Order.

(** ** Validation *)

(** A fold whose steps check a condition and then do [g]. *)
Lemma rfoldM_guard {A B} (P : A -> Prop) (f g : B -> A -> result B) l b b' :
  (forall a b b', a ∈ l -> f b a = Ok b' <-> P a /\ g b a = Ok b') ->
  rfoldM f b l = Ok b' <-> (forall a, a ∈ l -> P a) /\ rfoldM g b l = Ok b'.
Proof.
  revert b. induction l as [|a l IH]; intros b H; cbn [rfoldM]; [set_solver|]. split.
  - intros E. apply rbind_ok in E as (b1 & E1 & E). apply H in E1 as [Ha E1]; [|left]. apply IH in E as [Hl E]; [|set_solver].
    rewrite E1. cbn. split; [|done]. intros x [->|?]%elem_of_cons; auto.
  - intros [Hl E]. apply rbind_ok in E as (b1 & E1 & E). assert (E1' : f b a = Ok b1) by (apply H; [left|split; [apply Hl; left|done]]).
    rewrite E1'. cbn. apply IH; [set_solver|]. split; [set_solver|done].
Qed.

Lemma rfoldM_checks {A} (P : A -> Prop) (f : A -> result unit) l :
  (forall a, a ∈ l -> f a = Ok tt <-> P a) -> rfoldM (fun _ a => f a) tt l = Ok tt <-> forall a, a ∈ l -> P a.
Proof.
  intros H. rewrite (rfoldM_guard P _ (fun _ _ => Ok tt)).
  - split; [by intros [? _]|]. intros Hl. split; [done|]. clear. induction l; [done|]. cbn. done.
  - intros a [] []. intros Ha. rewrite H by done. naive_solver.
Qed.

Lemma od_mem_keys {V} (k : string) (d : list (string * V)) : od_mem k d = true <-> k ∈ od_keys d.
Proof.
  unfold od_mem. destruct (od_get k d) as [v|] eqn:E.
  - split; [|done]. intros _. destruct (decide (k ∈ od_keys d)) as [|Hn]; [done|]. apply od_get_None in Hn. congruence.
  - split; [done|]. by apply od_get_None in E.
Qed.

Lemma bind_check {A} (b : bool) e (k : unit -> result A) a :
  (let* u := raise_if b e in k u) = Ok a <-> b = false /\ k tt = Ok a.
Proof. destruct b; cbn; naive_solver. Qed.

Lemma no_duplicates {A} `{EqDecision A} (l : list A) : has_duplicates l = false <-> NoDup l.
Proof. unfold has_duplicates. rewrite negb_false_iff, bool_decide_eq_true. done. Qed.

Lemma NoDup_snoc {A} (l : list A) x : NoDup l -> x ∉ l -> NoDup (l ++ [x]).
Proof. intros Hl Hx. apply NoDup_app. split; [done|]. split; [set_solver|apply NoDup_singleton]. Qed.

Lemma register_all q stages acc nodes r :
  NoDup (od_keys acc) -> NoDup (od_keys nodes) ->
  rfoldM (Graph.register_stage q) (acc, nodes) stages = Ok r <->
  (forall s, s ∈ stages -> Stage.validate q s = Ok tt) /\ NoDup (od_keys acc ++ stage_ids stages) /\
  NoDup (od_keys nodes ++ map sp_physical_node_id stages) /\
  r = (acc ++ keyed_stages stages, nodes ++ map (fun s => (s.(sp_physical_node_id), s.(sp_stage_id))) stages).
Proof.
  revert acc nodes. induction stages as [|s stages IH]; intros acc nodes Na Nn; cbn [rfoldM].
  - cbn. rewrite !app_nil_r. split; [intros [= <-]; set_solver|]. by intros (_ & _ & _ & ->).
  - assert (Hstep : forall b, Graph.register_stage q (acc, nodes) s = Ok b <->
      Stage.validate q s = Ok tt /\ (s.(sp_stage_id) ∉ od_keys acc) /\ (s.(sp_physical_node_id) ∉ od_keys nodes) /\
      b = (acc ++ [(s.(sp_stage_id), s)], nodes ++ [(s.(sp_physical_node_id), s.(sp_stage_id))])).
    { intros b. unfold Graph.register_stage. destruct (Stage.validate q s) as [[]|]; cbn [rbind]; [|naive_solver].
      rewrite !bind_check, <- !not_true_iff_false, !od_mem_keys. split.
      - intros (H1 & H2 & [= <-]). by rewrite !od_set_absent by (by apply od_get_None).
      - intros (_ & H1 & H2 & ->). by rewrite !od_set_absent by (by apply od_get_None). }
    assert (Hperm : forall (l : list string) x l', NoDup (l ++ x :: l') <-> (x ∉ l) /\ NoDup ((l ++ [x]) ++ l')).
    { intros l x l'. rewrite <- app_assoc. cbn. split; [|naive_solver]. intros H. split; [|done].
      apply NoDup_app in H as (_ & H & _). intros Hx. apply (H x Hx). left. }
    cbn [stage_ids map]. rewrite !Hperm. split.
    + intros E. apply rbind_ok in E as (b & E1%Hstep & E). destruct E1 as (Hv & H1 & H2 & ->).
      apply IH in E as (Hs & N1 & N2 & ->); [|unfold od_keys; rewrite map_app; by apply NoDup_snoc..].
      unfold od_keys in *. rewrite map_app, <- app_assoc in N1, N2. rewrite <- !app_assoc. cbn in *. split_and!; try done. set_solver.
    + intros (Hs & [H1 N1] & [H2 N2] & ->). rewrite (proj2 (Hstep _)) by (split_and!; try done; apply Hs; left). cbn [rbind].
      unfold od_keys in *. apply IH; rewrite ?map_app; [by apply NoDup_app in N1 as (? & _)|by apply NoDup_app in N2 as (? & _)|].
      rewrite <- !app_assoc. cbn. rewrite <- !app_assoc in N1, N2. cbn in N1, N2. split_and!; try done. set_solver.
Qed.

Definition inputs_ok (ids : list string) (s : StageResourceSpec) : Prop :=
  NoDup s.(sp_input_stage_ids) /\ forall i, i ∈ s.(sp_input_stage_ids) -> i ∈ ids /\ i <> s.(sp_stage_id).

Lemma validate_inputs_iff st d s d' :
  Graph.validate_inputs st d s = Ok d' <->
  inputs_ok (od_keys st) s /\ rfoldM (Graph.add_edge s.(sp_stage_id)) d s.(sp_input_stage_ids) = Ok d'.
Proof.
  unfold Graph.validate_inputs, inputs_ok. rewrite bind_check, no_duplicates.
  rewrite (rfoldM_guard (fun i => i ∈ od_keys st /\ i <> s.(sp_stage_id)) _ (Graph.add_edge s.(sp_stage_id))); [naive_solver|].
  intros i e e' _. rewrite !bind_check, negb_false_iff, od_mem_keys, String.eqb_neq. naive_solver.
Qed.

(** The loop over the reversed order, from its end. *)
Lemma reaches_terminal_cons d ts x l :
  Graph.reaches_terminal d ts (x :: l) =
  let reached := Graph.reaches_terminal d ts l in
  if bool_decide (default ∅ (d !! x) ∩ reached = ∅) then reached else {[x]} ∪ reached.
Proof. unfold Graph.reaches_terminal. cbn [rev]. by rewrite fold_left_app. Qed.

Section Terminals.
Context (stages : list StageResourceSpec) (d : gmap string (gset string)) (terminals : list string).
Hypothesis Hd : forall p c, c ∈ default ∅ (d !! p) <-> edge stages p c.

Lemma reaches_sound l x : x ∈ Graph.reaches_terminal d terminals l -> exists t, t ∈ terminals /\ rtc (edge stages) x t.
Proof.
  revert x. induction l as [|y l IH]; intros x.
  - unfold Graph.reaches_terminal. cbn. intros Hx%elem_of_list_to_set. exists x. split; [done|reflexivity].
  - rewrite reaches_terminal_cons. cbv zeta. case_bool_decide as E; [apply IH|].
    intros [->%elem_of_singleton|?]%elem_of_union; [|by apply IH].
    apply set_choose_L in E as [c [Hc Hr]%elem_of_intersection]. apply Hd in Hc. destruct (IH c Hr) as (t & Ht & Hp).
    exists t. split; [done|]. by eapply rtc_l.
Qed.

Lemma reaches_base l t : t ∈ terminals -> t ∈ Graph.reaches_terminal d terminals l.
Proof.
  intros Ht. induction l as [|y l IH]; [by apply elem_of_list_to_set|].
  rewrite reaches_terminal_cons. cbv zeta. case_bool_decide; set_solver.
Qed.

Lemma reaches_complete l x t :
  (forall l1 y l2 c, l = l1 ++ y :: l2 -> edge stages y c -> c ∈ l2) ->
  x ∈ l -> t ∈ terminals -> rtc (edge stages) x t -> x ∈ Graph.reaches_terminal d terminals l.
Proof.
  intros Hl Hx Ht Hp. revert x Hx Hp. induction l as [|y l IH]; intros x Hx Hp; [by apply elem_of_nil in Hx|].
  assert (Htail : forall z, z ∈ l -> rtc (edge stages) z t -> z ∈ Graph.reaches_terminal d terminals l).
  { apply IH. intros l1 z l2 c -> He. by apply (Hl (y :: l1) z l2 c). }
  rewrite reaches_terminal_cons. cbv zeta. apply elem_of_cons in Hx as [->|Hx]; [|case_bool_decide; set_solver].
  destruct Hp as [t|y c t He Hp]; [case_bool_decide; pose proof (reaches_base l t Ht); set_solver|].
  assert (Hc : c ∈ Graph.reaches_terminal d terminals l) by (apply Htail; [by apply (Hl [] y l c)|done]).
  rewrite bool_decide_false; [set_solver|]. intros E. apply Hd in He. set_solver.
Qed.

End Terminals.

(** What a graph must satisfy: well-formed stages with distinct identities,
    known inputs, no cycle, terminal stages that nothing reads and that every
    stage leads to. *)
Record graph_ok (g : QueryExecutionGraph) : Prop := {
  go_query : g.(g_query_id) <> "";
  go_digest : g.(g_plan_digest) <> "";
  go_stages : g.(g_stages) <> [];
  go_terminals : g.(g_terminal_stage_ids) <> [] /\ NoDup g.(g_terminal_stage_ids);
  go_valid : forall s, s ∈ g.(g_stages) -> Stage.validate g.(g_query_id) s = Ok tt;
  go_nodes : NoDup (map sp_physical_node_id g.(g_stages));
  go_ok : stages_ok g.(g_stages);
  go_acyclic : acyclic g.(g_stages);
  go_ends : forall t, t ∈ g.(g_terminal_stage_ids) -> t ∈ stage_ids g.(g_stages) /\ forall c, ~ edge g.(g_stages) t c;
  go_reach : forall c, c ∈ stage_ids g.(g_stages) -> exists t, t ∈ g.(g_terminal_stage_ids) /\ rtc (edge g.(g_stages)) c t;
}.

Lemma length_zero_nil {A} (l : list A) : bool_decide (length l = O) = false <-> l <> [].
Proof. rewrite bool_decide_eq_false, length_zero_iff_nil. done. Qed.

Lemma stages_inputs_ok stages :
  NoDup (stage_ids stages) -> acyclic stages ->
  stages_ok stages <-> forall s, s ∈ stages -> inputs_ok (stage_ids stages) s.
Proof.
  intros Hn Ha. split.
  - intros [_ H1 H2] s Hs. split; [by apply H1|]. intros i Hi. split; [by eapply H2|]. intros ->.
    apply (Ha s.(sp_stage_id)), tc_once. by exists s.
  - intros H. split; [done|intros s Hs; by apply H|]. intros s p Hs Hp. by apply (H s Hs).
Qed.

Lemma register_stages q stages r :
  rfoldM (Graph.register_stage q) ([], []) stages = Ok r ->
  (forall s, s ∈ stages -> Stage.validate q s = Ok tt) /\ NoDup (stage_ids stages) /\
  NoDup (map sp_physical_node_id stages) /\ r.1 = keyed_stages stages.
Proof. intros H. apply register_all in H as (H1 & H2 & H3 & ->); [done|constructor..]. Qed.

(** The children of an ordered stage come after it. *)
Lemma children_after stages indegree ordered :
  stages_ok stages -> kahn_inv (stage_ids stages) (inputs_of stages) indegree [] ordered ->
  Permutation ordered (stage_ids stages) ->
  forall l1 y l2 c, ordered = l1 ++ y :: l2 -> edge stages y c -> c ∈ l2.
Proof.
  intros Hok Hk Hp l1 y l2 c E He. assert (Hc : c ∈ ordered) by (rewrite Hp; by eapply edge_ids).
  apply list_elem_of_lookup in Hc as [i Hi]. pose proof (edge_position stages Hok _ _ Hk y c i He Hi) as Hy.
  apply list_elem_of_lookup in Hy as [j Hj]. apply lookup_take_Some in Hj as [Hj Hlt].
  pose proof (ordered_nodup stages _ _ Hk) as Hn.
  assert (Hy : ordered !! length l1 = Some y) by (rewrite E; by apply list_lookup_middle).
  pose proof (NoDup_lookup _ _ _ _ Hn Hj Hy) as ->. rewrite E in Hi.
  rewrite cons_middle, app_assoc, lookup_app_r in Hi by (rewrite length_app; cbn; lia). by eapply list_elem_of_lookup_2.
Qed.

Lemma terminals_iff stages d terminals indegree ordered :
  stages_ok stages -> (forall p c, c ∈ default ∅ (d !! p) <-> edge stages p c) ->
  kahn_inv (stage_ids stages) (inputs_of stages) indegree [] ordered ->
  Permutation ordered (stage_ids stages) ->
  list_to_set (stage_ids stages) ∖ Graph.reaches_terminal d terminals ordered = ∅ <->
  forall c, c ∈ stage_ids stages -> exists t, t ∈ terminals /\ rtc (edge stages) c t.
Proof.
  intros Hok Hd Hk Hp. split.
  - intros E c Hc. apply (reaches_sound stages d terminals Hd ordered). set_solver.
  - intros H. apply set_eq. intros c. rewrite elem_of_difference, elem_of_list_to_set. split; [|set_solver].
    intros [Hc Hn]. destruct Hn. destruct (H c Hc) as (t & Ht & Hr).
    apply (reaches_complete stages d terminals Hd ordered c t); [by eapply children_after|by rewrite Hp|done..].
Qed.

Lemma terminals_known stages terminals :
  rfoldM (fun _ => Graph.check_registered (keyed_stages stages)) tt terminals = Ok tt <->
  forall t, t ∈ terminals -> t ∈ stage_ids stages.
Proof.
  apply rfoldM_checks. intros t _. unfold Graph.check_registered.
  by rewrite raise_if_ok, negb_false_iff, od_mem_keys, keyed_stages_ids.
Qed.

Lemma terminals_end (d : gmap string (gset string)) terminals :
  rfoldM (fun _ => Graph.check_unread d) tt terminals = Ok tt <->
  forall t, t ∈ terminals -> default ∅ (d !! t) = ∅.
Proof.
  apply rfoldM_checks. intros t _. unfold Graph.check_unread. by rewrite raise_if_ok, negb_false_iff, bool_decide_eq_true.
Qed.

(** What [_validate] accepts. *)
Lemma validate_iff g : Graph.validate g = Ok tt <-> graph_ok g.
Proof.
  unfold Graph.validate. rewrite !bind_check, !length_zero_nil, !String.eqb_neq. split.
  - intros (H1 & H2 & H3 & H4 & H). apply rbind_ok in H as ([st nd] & Hr & H).
    apply register_stages in Hr as (Hv & Hids & Hnodes & Hst). cbn in Hst. subst st.
    apply bind_check in H as [Ht%no_duplicates H]. apply rbind_ok in H as ([] & Hknown & H).
    rewrite terminals_known in Hknown.
    apply rbind_ok in H as (d & Hin & H).
    apply (rfoldM_guard (inputs_ok (od_keys (keyed_stages (g_stages g)))) _
      (fun d s => rfoldM (Graph.add_edge s.(sp_stage_id)) d s.(sp_input_stage_ids))) in Hin as [Hin Hdown];
      [|intros; apply validate_inputs_iff]. rewrite keyed_stages_ids in Hin.
    assert (Hok : stages_ok (g_stages g)).
    { split; [done|intros s Hs; by apply Hin|]. intros s p Hs Hp. by apply (Hin s Hs). }
    destruct (downstream_ok _ Hok) as (d' & Ed & Hd). unfold Graph.downstream_of in Ed. rewrite Hdown in Ed. injection Ed as <-.
    destruct (topological_order_kahn _ _ Hok Hd) as (deg & ordered & Eo & Hk). rewrite Eo in H. cbn [rbind] in H.
    apply bind_check in H as [Hlen H]. apply negb_false_iff, bool_decide_eq_true in Hlen.
    assert (Hl : length (keyed_stages (g_stages g)) = length (g_stages g)) by (unfold keyed_stages; by rewrite length_map).
    rewrite Hl in Hlen. apply rbind_ok in H as ([] & Hends & H).
    rewrite terminals_end in Hends.
    rewrite raise_if_ok, negb_false_iff, bool_decide_eq_true, keyed_stages_ids in H.
    assert (Hp : Permutation ordered (stage_ids (g_stages g))) by (eapply ordered_perm; eauto).
    split; try done.
    + by eapply complete_iff_acyclic.
    + intros t Hin'. split; [by apply Hknown|]. intros c He. apply Hd in He. specialize (Hends t Hin'). set_solver.
    + by eapply terminals_iff.
  - intros [H1 H2 H3 [H4 H4'] Hv Hn Hok Ha He Hr]. do 4 (split; [done|]).
    rewrite (proj2 (register_all g.(g_query_id) (g_stages g) [] [] _ ltac:(constructor) ltac:(constructor)))
      by (split_and!; [done|apply Hok|done|reflexivity]). cbn [rbind].
    rewrite bind_check, no_duplicates. split; [done|]. cbn [app].
    rewrite (proj2 (terminals_known _ _)) by (intros t Ht; by apply He). cbn [rbind].
    destruct (downstream_ok _ Hok) as (d & Ed & Hd).
    assert (Hin : rfoldM (Graph.validate_inputs (keyed_stages (g_stages g))) (Graph.no_children (g_stages g)) (g_stages g) = Ok d).
    { apply (rfoldM_guard (inputs_ok (stage_ids (g_stages g))) _
        (fun d s => rfoldM (Graph.add_edge s.(sp_stage_id)) d s.(sp_input_stage_ids))).
      - intros s d1 d2 _. rewrite <- keyed_stages_ids. apply validate_inputs_iff.
      - split; [|done]. apply stages_inputs_ok; [apply Hok|done..]. }
    rewrite Hin. cbn [rbind]. destruct (topological_order_kahn _ _ Hok Hd) as (deg & ordered & Eo & Hk). rewrite Eo. cbn [rbind].
    assert (Hl : length (keyed_stages (g_stages g)) = length (g_stages g)) by (unfold keyed_stages; by rewrite length_map).
    rewrite bind_check, negb_false_iff, bool_decide_eq_true, Hl. split; [by eapply complete_iff_acyclic|].
    rewrite (proj2 (terminals_end _ _)).
    2:{ intros t Ht. apply set_eq. intros c. rewrite Hd. split; [|set_solver]. intros Hc. by apply He in Hc. }
    cbn [rbind]. rewrite raise_if_ok, negb_false_iff, bool_decide_eq_true, keyed_stages_ids.
    eapply terminals_iff; eauto. eapply acyclic_complete; eauto.
Qed.

(** ** Stages behind a boundary *)

(** [v] is reached from [source]; the flag tells whether a stage on the path,
    both ends included, is not a worker stage. *)
Inductive crossing (g : QueryExecutionGraph) (source : string) : bool -> string -> Prop :=
| crossing_start :
    crossing g source (negb (Graph.worker_stage (keyed_stages g.(g_stages)) source)) source
| crossing_step b p c :
    crossing g source b p -> edge g.(g_stages) p c ->
    crossing g source (b || negb (Graph.worker_stage (keyed_stages g.(g_stages)) c)) c.

Section Crossing.
Context (g : QueryExecutionGraph) (source : string) (d : gmap string (gset string)).
Let stages := g.(g_stages).
Let nonworker v := negb (Graph.worker_stage (keyed_stages stages) v).

(** Reached with the last step out of [l]. *)
Definition via (l : list string) (b : bool) (v : string) : Prop :=
  v = source /\ b = nonworker source \/
  exists p b0, p ∈ l /\ crossing g source b0 p /\ edge stages p v /\ b = b0 || nonworker v.

Definition spread_inv (l : list string) (m : gmap string bool) : Prop :=
  forall v, (is_Some (m !! v) <-> exists b, via l b v) /\ (m !! v = Some true <-> via l true v).

Lemma via_crossing l b v : via l b v -> crossing g source b v.
Proof. intros [[-> ->]|(p & b0 & _ & Hp & He & ->)]; [apply crossing_start|by eapply crossing_step]. Qed.

Lemma crossing_via l b v : (forall p, edge stages p v -> p ∈ l) -> crossing g source b v -> via l b v.
Proof. intros Hl H. destruct H as [|b p v H He]; [by left|right]. exists p, b. split; [by apply Hl|done]. Qed.

Lemma spread_start : spread_inv [] {[source := nonworker source]}.
Proof.
  intros v. destruct (decide (v = source)) as [->|Hv].
  - rewrite lookup_singleton_eq. split; split.
    + intros _. exists (nonworker source). by left.
    + eauto.
    + intros [= H]. left. by rewrite H.
    + by intros [[_ <-]|(p & b & ?%elem_of_nil & _)].
  - rewrite lookup_singleton_ne by done. split; split.
    + by intros [].
    + intros [b [[? _]|(p & b0 & ?%elem_of_nil & _)]]; done.
    + done.
    + intros [[? _]|(p & b0 & ?%elem_of_nil & _)]; done.
Qed.

Lemma spread_children c (l : list string) (m : gmap string bool) :
  NoDup l -> forall v,
  fold_left (fun m child => <[child := default false (m !! child) || (c || nonworker child)]> m) l m !! v =
  if decide (v ∈ l) then Some (default false (m !! v) || (c || nonworker v)) else m !! v.
Proof.
  revert m. induction l as [|x l IH]; intros m Hn v; cbn [fold_left]; [by rewrite decide_False by set_solver|].
  apply NoDup_cons in Hn as [Hx Hn]. rewrite IH by done. destruct (decide (v = x)) as [->|].
  - rewrite decide_False, decide_True by set_solver. by rewrite lookup_insert_eq.
  - rewrite lookup_insert_ne by done. destruct (decide (v ∈ l)), (decide (v ∈ x :: l)); set_solver.
Qed.

Hypothesis Hd : forall p c, c ∈ default ∅ (d !! p) <-> edge stages p c.

Lemma via_snoc l p b v :
  via (l ++ [p]) b v <-> via l b v \/ exists b0, crossing g source b0 p /\ edge stages p v /\ b = b0 || nonworker v.
Proof using Type.
  unfold via. split.
  - intros [?|(q & b0 & [?| ->%list_elem_of_singleton]%elem_of_app & ?)]; [by left; left|left; right; eauto|right; eauto].
  - intros [[?|(q & b0 & ? & ?)]|(b0 & ?)]; [by left|right|right].
    + exists q, b0. split; [apply elem_of_app; by left|done].
    + exists p, b0. split; [apply elem_of_app; right; by apply list_elem_of_singleton|done].
Qed.

Lemma spread_step l p m :
  (forall q, edge stages q p -> q ∈ l) -> spread_inv l m ->
  spread_inv (l ++ [p]) (Graph.spread (keyed_stages stages) d m p).
Proof.
  intros Hl Hm. assert (Hp : forall b, via l b p <-> crossing g source b p).
  { intros b. split; [apply via_crossing|by apply crossing_via]. }
  destruct (Hm p) as [Hp1 Hp2]. unfold Graph.spread. destruct (m !! p) as [c|] eqn:Ep.
  - assert (Hc : exists b, crossing g source b p) by (destruct Hp1 as [[b Hb] _]; [done|]; exists b; by apply Hp).
    assert (Ht : c = true <-> crossing g source true p) by (rewrite <- Hp, <- Hp2; naive_solver).
    intros v. rewrite (spread_children c) by apply NoDup_elements. setoid_rewrite via_snoc. destruct (Hm v) as [Hv1 Hv2].
    destruct (decide (v ∈ elements (default ∅ (d !! p)))) as [D|D]; rewrite elem_of_elements, Hd in D.
    + split; (split; [|]).
      * intros _. destruct Hc as [b Hb]. exists (b || nonworker v). right. eauto.
      * done.
      * intros [= H]. destruct (m !! v) as [[]|]; [left; by apply Hv2| |]; cbn in H; right;
          (destruct c; [exists true; split; [by apply Ht|done]|]; destruct Hc as [b Hb]; exists b; split; [done|]; split; [done|]);
          cbn in H; rewrite H; by rewrite orb_true_r.
      * intros [H%Hv2|(b0 & H0 & He & E)]; [by rewrite H|]. f_equal. rewrite E.
        destruct b0; [rewrite (proj2 Ht H0); by rewrite orb_true_r|]. cbn in E. rewrite <- E. by rewrite !orb_true_r.
    + rewrite Hv1, Hv2. naive_solver.
  - assert (Hno : forall b, ~ crossing g source b p).
    { intros b Hb. apply Hp in Hb. destruct Hp1 as [_ []]; [eauto|done]. }
    intros v. setoid_rewrite via_snoc. destruct (Hm v) as [-> ->]. naive_solver.
Qed.

Lemma spread_fold l2 l1 m :
  (forall l p r, l1 ++ l2 = l ++ p :: r -> forall q, edge stages q p -> q ∈ l) -> spread_inv l1 m ->
  spread_inv (l1 ++ l2) (fold_left (Graph.spread (keyed_stages stages) d) l2 m).
Proof.
  revert l1 m. induction l2 as [|p l2 IH]; intros l1 m Hl Hm; cbn [fold_left]; [by rewrite app_nil_r|].
  rewrite cons_middle, app_assoc. apply IH; [by rewrite <- app_assoc|]. apply spread_step; [by eapply Hl|done].
Qed.

End Crossing.
