(* ===== verification/GraphTheorems.v ===== *)
(** * What a query graph and its allocation guarantee

    The theorems on [QueryGraph]: exactly which graphs are accepted, the
    topological order every component of the resource layer relies on, the
    stages that need a slot of their own, and what an accepted allocation
    holds for the actors of a query. *)

From Stdlib Require Import Sorting.Sorted.
From S2P Require Import Prelude PyStr PyVal PyNum QueryGraph GraphProofs.

#[local] Open Scope string_scope.
#[local] Open Scope list_scope.
#[local] Open Scope Z_scope.

(** ** A query of three stages *)

Definition demo_res (cpu : Z) (heap object_store : Z) : ResourceVector :=
  MkRes (f64_of_int cpu) f64_zero heap object_store.

Definition demo_stage (id backend : string) (inputs : list string) : StageResourceSpec :=
  MkStage "q" ("stage:" +:+ id) ("node:" +:+ id) "udf" backend (map (fun i => "stage:" +:+ i) inputs)
    (if String.eqb backend "ray_actor" then demo_res 0 0 8 else demo_res 1 100 8) 4 2 None
    (if String.eqb backend "ray_actor" then demo_res 1 50 0 else Res.zero)
    (if String.eqb backend "ray_actor" then 2 else 0) (if String.eqb backend "ray_actor" then 2 else 0) 1 "streaming".

(** A scan feeds a pool of two actors, whose output a worker stage reads. *)
Definition demo_stages : list StageResourceSpec :=
  [demo_stage "c" "ray_worker" ["b"; "a"]; demo_stage "b" "ray_actor" ["a"]; demo_stage "a" "ray_worker" []].

Definition demo_graph : QueryExecutionGraph := MkGraph "q" "digest" demo_stages ["stage:c"].

Example demo_graph_new : Graph.new "q " "digest" demo_stages ["stage:c"] = Ok demo_graph.
Proof. vm_compute. reflexivity. Qed.

Example demo_graph_valid : Graph.validate demo_graph = Ok tt.
Proof. vm_compute. reflexivity. Qed.

(** ** Theorems *)

(** C28: a query graph is accepted exactly when it is well formed: its stages
    pass their own checks, stage and physical node identities are distinct,
    every input is a stage of the graph, no stage depends on itself through
    any chain of inputs, nothing reads a terminal stage, and every stage
    leads to one.  In particular the length test on the topological order
    rejects a graph if and only if it has a cycle. *)
Theorem graph_accepted_iff query digest stages terminals g :
  Graph.new query digest stages terminals = Ok g <->
  g = MkGraph (strip query) (strip digest) stages terminals /\ graph_ok g.
Proof.
  unfold Graph.new. rewrite <- validate_iff. split.
  - intros H. apply rbind_ok in H as ([] & H & [= <-]). done.
  - intros [-> H]. by rewrite H.
Qed.

Lemma ordered_unique stages l l' :
  Permutation l (stage_ids stages) -> Permutation l' (stage_ids stages) ->
  ordered_by stages l -> ordered_by stages l' -> NoDup (stage_ids stages) -> l = l'.
Proof.
  intros Hp Hp' Ho Ho' Hn. assert (Hl : length l = length l') by (by rewrite Hp, Hp').
  assert (Hlim : forall l i c, Permutation l (stage_ids stages) -> l !! i = Some c -> c ∈ stage_ids stages /\ c ∉ take i l).
  { intros k i c Hk Hc. split; [rewrite <- Hk; by eapply list_elem_of_lookup_2|]. intros [j Hj]%list_elem_of_lookup.
    apply lookup_take_Some in Hj as [Hj Hlt]. assert (Hnk : NoDup k) by (by rewrite Hk).
    pose proof (NoDup_lookup _ _ _ _ Hnk Hc Hj). lia. }
  assert (H : forall i, (i <= length l)%nat -> take i l = take i l').
  { induction i as [|i IH]; intros Hi; [done|]. specialize (IH ltac:(lia)).
    destruct (lookup_lt_is_Some_2 l i) as [c Hc]; [lia|]. destruct (lookup_lt_is_Some_2 l' i) as [c' Hc']; [lia|].
    destruct (Ho i c Hc) as [H1 H2], (Ho' i c' Hc') as [H1' H2'].
    destruct (Hlim _ _ _ Hp Hc) as [Hi1 Hi2], (Hlim _ _ _ Hp' Hc') as [Hi1' Hi2'].
    rewrite (take_S_r _ _ _ Hc), (take_S_r _ _ _ Hc'), IH. do 2 f_equal. rewrite <- IH in H1', H2', Hi2'.
    apply String.leb_antisym; [apply Is_true_true, H2|apply Is_true_true, H2']; done. }
  specialize (H (length l) ltac:(lia)). by rewrite firstn_all, Hl, firstn_all in H.
Qed.

(** The loop over an accepted graph returns, with every stage listed. *)
Lemma ordered_stages g :
  graph_ok g ->
  exists d deg ordered, Graph.downstream_of g.(g_stages) = Ok d /\
    (forall p c, c ∈ default ∅ (d !! p) <-> edge g.(g_stages) p c) /\
    Graph.topological_stage_ids g = Ok ordered /\ Permutation ordered (stage_ids g.(g_stages)) /\
    kahn_inv (stage_ids g.(g_stages)) (inputs_of g.(g_stages)) deg [] ordered.
Proof.
  intros Hg. pose proof (go_ok _ Hg) as Hok. destruct (downstream_ok _ Hok) as (d & Ed & Hd).
  destruct (topological_order_kahn _ _ Hok Hd) as (deg & ordered & Eo & Hk). exists d, deg, ordered.
  split; [done|]. split; [done|]. split; [|split; [eapply acyclic_complete; eauto; apply Hg|done]].
  unfold Graph.topological_stage_ids. rewrite Ed. cbn [rbind]. by rewrite by_id_keyed by apply Hok.
Qed.

(** C29: the stages of an accepted graph have a topological order, the loop
    that computes it returns, and it is a function of the stages alone: it
    lists every stage once, each one after all its inputs and as the least
    one (by identity) whose inputs have all been listed; no other listing has
    this property, whatever the order in which the stages were given. *)
Theorem topological_order_exact g :
  graph_ok g ->
  exists ordered, Graph.topological_stage_ids g = Ok ordered /\
    Permutation ordered (stage_ids g.(g_stages)) /\ ordered_by g.(g_stages) ordered /\
    (forall l, Permutation l (stage_ids g.(g_stages)) -> ordered_by g.(g_stages) l -> l = ordered).
Proof.
  intros Hg. destruct (ordered_stages g Hg) as (d & deg & ordered & _ & _ & Et & Hp & Hk).
  assert (Ho : ordered_by (g_stages g) ordered) by exact (ki_placed _ _ _ _ _ Hk).
  exists ordered. split; [done|]. split; [done|]. split; [done|].
  intros l Hl Hol. eapply ordered_unique; eauto. apply (go_ok _ Hg).
Qed.

Lemma topological_order_exact_witness :
  Graph.topological_stage_ids demo_graph = Ok ["stage:a"; "stage:b"; "stage:c"] /\
  forall l, Permutation l (stage_ids demo_stages) -> ordered_by demo_stages l -> l = ["stage:a"; "stage:b"; "stage:c"].
Proof.
  assert (E : Graph.topological_stage_ids demo_graph = Ok ["stage:a"; "stage:b"; "stage:c"]) by (vm_compute; reflexivity).
  split; [done|].
  destruct (topological_order_exact demo_graph (proj1 (validate_iff demo_graph) demo_graph_valid)) as (o & Eo & _ & _ & H).
  rewrite E in Eo. injection Eo as <-. exact H.
Defined.

Lemma stage_by_id_ok g s :
  NoDup (stage_ids g.(g_stages)) -> s ∈ g.(g_stages) -> Graph.stage_by_id g s.(sp_stage_id) = Ok s.
Proof.
  unfold Graph.stage_by_id. induction (g_stages g) as [|x l IH]; intros Hn Hs; [by apply elem_of_nil in Hs|].
  apply NoDup_cons in Hn as [Hx Hn]. cbn [find]. destruct (String.eqb_spec x.(sp_stage_id) s.(sp_stage_id)) as [E|E].
  - apply elem_of_cons in Hs as [->|Hs]; [done|]. destruct Hx. rewrite E. apply list_elem_of_fmap. eauto.
  - apply elem_of_cons in Hs as [->|Hs]; [done|]. by apply IH.
Qed.

Lemma filter_sublist_list {A} (f : A -> bool) l : sublist (List.filter f l) l.
Proof. induction l as [|x l IH]; cbn; [done|]. case_match; by constructor. Qed.

Lemma parents_before stages indegree ordered l p r q :
  stages_ok stages -> kahn_inv (stage_ids stages) (inputs_of stages) indegree [] ordered ->
  ordered = l ++ p :: r -> edge stages q p -> q ∈ l.
Proof.
  intros Hok Hk E He. assert (Hp : ordered !! length l = Some p) by (rewrite E; by apply list_lookup_middle).
  pose proof (edge_position stages Hok _ _ Hk q p _ He Hp) as Hq. by rewrite E, take_app_length in Hq.
Qed.

(** The stages for which admission keeps a separate slot are exactly the
    worker stages that can be reached from the source along a path on which
    some stage, the source included, is not a worker; they come in
    topological order. *)
Theorem separate_slots_exact g source :
  graph_ok g -> source ∈ stage_ids g.(g_stages) ->
  exists ordered l, Graph.topological_stage_ids g = Ok ordered /\
    Graph.downstream_fte_stage_ids_requiring_separate_slot g source = Ok l /\ sublist l ordered /\
    forall v, v ∈ l <-> v <> source /\ Graph.worker_stage (keyed_stages g.(g_stages)) v = true /\ crossing g source true v.
Proof.
  intros Hg Hs. pose proof (go_ok _ Hg) as Hok. destruct (ordered_stages g Hg) as (d & deg & ordered & Ed & Hd & Et & Hp & Hk).
  apply list_elem_of_fmap in Hs as (s & -> & Hs).
  assert (Ef : Graph.stage_by_id g s.(sp_stage_id) = Ok s) by (by apply stage_by_id_ok; [apply Hok|]).
  assert (Ew : Graph.worker_stage (keyed_stages (g_stages g)) s.(sp_stage_id) = Stage.is_worker s).
  { unfold Graph.worker_stage. by rewrite keyed_stages_get by (apply Hok || done). }
  eexists ordered, _. split; [done|]. split.
  { unfold Graph.downstream_fte_stage_ids_requiring_separate_slot. rewrite Ef, Ed, Et. cbn [rbind].
    rewrite by_id_keyed, <- Ew by apply Hok. reflexivity. }
  split; [apply filter_sublist_list|].
  set (crossed := fold_left _ ordered _).
  assert (Hc : spread_inv g s.(sp_stage_id) ordered crossed).
  { apply (spread_fold g s.(sp_stage_id) d Hd ordered []); [|apply spread_start].
    intros l p r E q He. eapply parents_before; eauto. }
  intros v. rewrite list_elem_of_In, List.filter_In, <- list_elem_of_In, !andb_true_iff, negb_true_iff, String.eqb_neq.
  destruct (Hc v) as [_ Hv]. split.
  - intros (_ & [Hne Hw] & Hcr). split; [done|]. split; [done|]. apply (via_crossing _ _ ordered), Hv.
    destruct (crossed !! v) as [[]|]; done.
  - intros (Hne & Hw & H). assert (Hin : v ∈ ordered).
    { rewrite Hp. destruct H as [|b q c _ He]; [apply list_elem_of_fmap; eauto|by eapply edge_ids]. }
    split; [done|]. split; [done|]. rewrite (proj2 Hv); [done|]. apply crossing_via; [|done].
    intros q He. rewrite Hp. exact (proj1 (edge_ids _ Hok _ _ He)).
Qed.

Lemma separate_slots_exact_witness :
  exists ordered l, Graph.topological_stage_ids demo_graph = Ok ordered /\
    Graph.downstream_fte_stage_ids_requiring_separate_slot demo_graph "stage:a" = Ok l /\ l = ["stage:c"] /\
    crossing demo_graph "stage:a" true "stage:c".
Proof.
  destruct (separate_slots_exact demo_graph "stage:a" (proj1 (validate_iff demo_graph) demo_graph_valid))
    as (ordered & l & Eo & El & _ & H); [vm_compute; set_solver|].
  exists ordered, l. split; [done|]. split; [done|].
  assert (E : Graph.downstream_fte_stage_ids_requiring_separate_slot demo_graph "stage:a" = Ok ["stage:c"])
    by (vm_compute; reflexivity).
  rewrite El in E. injection E as ->. split; [done|]. apply H. left.
Defined.

(** ** Allocations *)

(** Bytes of a vector in the two integer dimensions. *)
Definition bytes (r : ResourceVector) : Z * Z := (r.(r_heap_bytes), r.(r_object_store_bytes)).
Definition bytes_le (a b : Z * Z) : Prop := a.1 <= b.1 /\ a.2 <= b.2.

Lemma res_new_ok c u h o r : Res.new c u h o = Ok r -> r = MkRes c u h o /\ 0 <= h /\ 0 <= o.
Proof. unfold Res.new, Res.check_float, Res.check_int. intros H. inv_ok. split; [congruence|lia]. Qed.

Lemma res_add_bytes a b r : Res.add a b = Ok r -> bytes r = (a.(r_heap_bytes) + b.(r_heap_bytes), a.(r_object_store_bytes) + b.(r_object_store_bytes)).
Proof. intros H. by apply res_new_ok in H as [-> _]. Qed.

Lemma fits_bytes a b : Res.fits_within a b = true -> bytes_le (bytes a) (bytes b).
Proof. unfold Res.fits_within, bytes_le. rewrite !andb_true_iff, !Z.leb_le. cbn. lia. Qed.

(** What the placement of one actor commits. *)
Definition actor_bytes (g : QueryExecutionGraph) (p : ActorPlacement) : Z * Z :=
  match Graph.stage_by_id g p.(ap_stage_id) with
  | Ok s => (s.(sp_resident_per_actor).(r_heap_bytes),
             s.(sp_resident_per_actor).(r_object_store_bytes) + s.(sp_per_task).(r_object_store_bytes)
             + Stage.output_window_bytes s)
  | Raise _ => (0, 0)
  end.

Lemma actor_bytes_stage g p s : Graph.stage_by_id g p.(ap_stage_id) = Ok s ->
  actor_bytes g p = (s.(sp_resident_per_actor).(r_heap_bytes),
    s.(sp_resident_per_actor).(r_object_store_bytes) + s.(sp_per_task).(r_object_store_bytes)
    + Stage.output_window_bytes s).
Proof. unfold actor_bytes. by intros ->. Qed.

Definition sum_bytes (l : list (Z * Z)) : Z * Z := (foldr Z.add 0 (map fst l), foldr Z.add 0 (map snd l)).

Definition on_node (node : string) (p : ActorPlacement) : bool := String.eqb p.(ap_node_id) node.

Lemma node_bytes_cons g node p l :
  sum_bytes (map (actor_bytes g) (List.filter (on_node node) (p :: l))) =
  let rest := sum_bytes (map (actor_bytes g) (List.filter (on_node node) l)) in
  if String.eqb p.(ap_node_id) node then ((actor_bytes g p).1 + rest.1, (actor_bytes g p).2 + rest.2) else rest.
Proof. cbn [List.filter]. unfold on_node at 1. by destruct (String.eqb _ _). Qed.

Lemma actor_commitments g l acc acc' :
  rfoldM (Graph.actor_commitment g) acc l = Ok acc' ->
  (forall node, bytes (od_get_default node Res.zero acc') =
    (fun a b => (a.1 + b.1, a.2 + b.2)) (bytes (od_get_default node Res.zero acc))
      (sum_bytes (map (actor_bytes g) (List.filter (on_node node) l)))) /\
  (forall p, p ∈ l -> is_Some (od_get p.(ap_node_id) acc')) /\ (forall k, is_Some (od_get k acc) -> is_Some (od_get k acc')).
Proof.
  revert acc. induction l as [|p l IH]; intros acc H; cbn [rfoldM] in H.
  - injection H as <-. split; [|split; [set_solver|done]]. intros node. destruct (bytes _) as [x y]. cbn. f_equal; lia.
  - apply rbind_ok in H as (acc1 & H1 & H). destruct (IH _ H) as (IH1 & IH2 & IH3). unfold Graph.actor_commitment in H1.
    apply rbind_ok in H1 as (s & Hs & H1). apply rbind_ok in H1 as (inv & Hinv & H1).
    apply rbind_ok in H1 as (r & Hr & H1). apply rbind_ok in H1 as (tot & Ht & [= <-]).
    apply res_add_bytes in Hr, Ht. apply res_new_ok in Hinv as [-> _]. cbn in Ht.
    split; [|split].
    + intros node. rewrite IH1, node_bytes_cons. unfold od_get_default. rewrite od_get_set.
      destruct (String.eqb_spec p.(ap_node_id) node) as [<-|Hne].
      * rewrite decide_True by done. rewrite (actor_bytes_stage _ _ _ Hs). unfold bytes, od_get_default in *.
        injection Hr as E1 E2. injection Ht as E3 E4. destruct (sum_bytes _) as [x y]. cbn. f_equal; lia.
      * by rewrite decide_False by done.
    + intros q [->|Hq]%elem_of_cons; [|by apply IH2]. apply IH3. rewrite od_get_set_eq. eauto.
    + intros k Hk. apply IH3. rewrite od_get_set. case_decide; eauto.
Qed.

Lemma rfoldM_each {A} (f : A -> result unit) l : rfoldM (fun _ => f) tt l = Ok tt -> forall a, a ∈ l -> f a = Ok tt.
Proof. apply (rfoldM_checks (fun a => f a = Ok tt)). done. Qed.

Lemma node_commitment_fits a entry : Graph.check_node_commitment a entry = Ok tt ->
  exists c, Allocation.resources_for_node a entry.1 = Ok c /\ Res.fits_within entry.2 c = true.
Proof.
  destruct entry as [node r]. unfold Graph.check_node_commitment. intros H. apply rbind_ok in H as (c & Hc & H).
  exists c. rewrite raise_if_ok, negb_false_iff in H. done.
Qed.

Lemma stage_allocation_bytes a s :
  Graph.validate_stage_allocation a true s = Ok tt -> 
  exists task placement, Stage.task_commitment s = Ok task /\
    Res.add (if Stage.is_actor s then s.(sp_resident_per_actor) else Res.zero) task = Ok placement /\
    bytes_le (bytes placement) (bytes a.(al_resources)) /\
    (Res.is_zero task = false -> exists n, n ∈ a.(al_nodes) /\ bytes_le (bytes placement) (bytes n.(na_resources))) /\
    (Stage.is_actor s = true -> Graph.validate_actors a true s placement = Ok tt).
Proof.
  unfold Graph.validate_stage_allocation. intros H. apply rbind_ok in H as (task & Et & H). apply rbind_ok in H as (pl & Ep & H).
  apply bind_check in H as [_ H]. apply bind_check in H as [_ H]. apply bind_check in H as [Hx H]. apply bind_check in H as [Hn H].
  exists task, pl. split; [done|]. split; [done|]. split; [|split].
  - cbn [andb] in Hx. apply negb_false_iff, bool_decide_eq_true, length_zero_iff_nil in Hx.
    unfold Res.exceeded_dimensions, Res.where_ in Hx. cbn in Hx. unfold bytes_le, bytes. cbn.
    destruct (f64_lt _ _), (f64_lt _ _); try discriminate Hx.
    destruct (r_heap_bytes (al_resources a) <? r_heap_bytes pl) eqn:E1; [discriminate Hx|].
    destruct (r_object_store_bytes (al_resources a) <? r_object_store_bytes pl) eqn:E2; [discriminate Hx|]. lia.
  - intros Hz. rewrite Hz in Hn. cbn in Hn. apply negb_false_iff, existsb_exists in Hn as (n & Hin & Hf).
    exists n. split; [by apply list_elem_of_In|]. by apply fits_bytes.
  - intros E. by rewrite E in H.
Qed.

(** The placements of an actor stage number its actors once each. *)
Lemma actors_numbered a s placement :
  Graph.validate_actors a true s placement = Ok tt -> 0 < s.(sp_actor_min_size) ->
  Permutation (map ap_actor_index (List.filter (fun p => String.eqb p.(ap_stage_id) s.(sp_stage_id)) a.(al_placements)))
    (seqZ 0 s.(sp_actor_min_size)).
Proof.
  unfold Graph.validate_actors. set (ps := List.filter _ _). intros H Hpos. apply rbind_ok in H as (m & _ & H).
  apply bind_check in H as [_ H]. apply bind_check in H as [Hl H]. apply bind_check in H as [Hi _].
  cbn [andb] in Hl. apply negb_false_iff, Z.eqb_eq in Hl.
  assert (Hne : bool_decide (length ps = O) = false) by (apply bool_decide_eq_false; lia). rewrite Hne in Hi. cbn in Hi.
  apply negb_false_iff, bool_decide_eq_true in Hi. symmetry. apply submseteq_length_Permutation.
  - apply NoDup_submseteq; [apply NoDup_seqZ|]. intros x Hx. apply (elem_of_list_to_set (C := gset Z)).
    rewrite Hi. by apply elem_of_list_to_set.
  - rewrite length_map, length_seqZ. lia.
Qed.

Lemma actor_min_positive q s : Stage.validate q s = Ok tt -> Stage.is_actor s = true -> 0 < s.(sp_actor_min_size).
Proof.
  unfold Stage.validate. intros H Ha. do 14 apply bind_check in H as [_ H]. apply rbind_ok in H as ([] & H & _).
  unfold Stage.validate_actor_fields in H. rewrite Ha in H. apply bind_check in H as [H _]. lia.
Qed.

(** On a node with actors, what they commit fits. *)
Lemma actors_fit_nodes g a :
  Graph.validate_allocation g a true = Ok tt ->
  forall p, p ∈ a.(al_placements) -> exists capacity, Allocation.resources_for_node a p.(ap_node_id) = Ok capacity /\
     bytes_le (sum_bytes (map (actor_bytes g) (List.filter (on_node p.(ap_node_id)) a.(al_placements)))) (bytes capacity).
Proof.
  intros H p Hp. unfold Graph.validate_allocation in H. apply rbind_ok in H as ([] & _ & H).
  apply bind_check in H as [_ H]. apply rbind_ok in H as (by_node & Hb & H). destruct (actor_commitments _ _ _ _ Hb) as (B1 & B2 & _).
  destruct (B2 p Hp) as [r Hr]. apply od_get_elem in Hr as Hin.
  destruct (node_commitment_fits _ _ (rfoldM_each (Graph.check_node_commitment a) _ H _ Hin)) as (c & Hc & Hf).
  exists c. split; [done|]. apply fits_bytes in Hf. specialize (B1 p.(ap_node_id)). unfold od_get_default in B1. rewrite Hr in B1.
  destruct (sum_bytes _) as [x y]. injection B1 as B1 B2'. destruct Hf as [Hf1 Hf2]. cbn in *. split; cbn; lia.
Qed.

(** An allocation that passes [validate_allocation] can really run the
    query: the bytes one task of each stage commits, its actor included, fit
    the query's allocation and one of its nodes; the actors of a pool are
    placed exactly once each, as 0 .. n-1; and on every node the resident
    memory of the actors placed there, with one call's input and output
    window each, fits the node's share, however many pools share it. *)
Theorem allocation_supports_graph g a :
  graph_ok g -> Graph.validate_allocation g a true = Ok tt ->
  (forall s, s ∈ g.(g_stages) -> exists task placement, Stage.task_commitment s = Ok task /\
     Res.add (if Stage.is_actor s then s.(sp_resident_per_actor) else Res.zero) task = Ok placement /\
     bytes_le (bytes placement) (bytes a.(al_resources)) /\
     (Res.is_zero task = false -> exists n, n ∈ a.(al_nodes) /\ bytes_le (bytes placement) (bytes n.(na_resources)))) /\
  (forall s, s ∈ g.(g_stages) -> Stage.is_actor s = true ->
     Permutation (map ap_actor_index (List.filter (fun p => String.eqb p.(ap_stage_id) s.(sp_stage_id)) a.(al_placements)))
       (seqZ 0 s.(sp_actor_min_size))) /\
  (forall p, p ∈ a.(al_placements) -> exists capacity, Allocation.resources_for_node a p.(ap_node_id) = Ok capacity /\
     bytes_le (sum_bytes (map (actor_bytes g) (List.filter (on_node p.(ap_node_id)) a.(al_placements)))) (bytes capacity)).
Proof.
  intros Hg Hval. pose proof Hval as H. unfold Graph.validate_allocation in H. apply rbind_ok in H as ([] & Hst & _).
  pose proof (rfoldM_each (Graph.validate_stage_allocation a true) _ Hst) as Hs. clear Hst. split; [|split].
  - intros s Hin. destruct (stage_allocation_bytes a s (Hs s Hin)) as (t & pl & ? & ? & ? & ? & _). eauto 10.
  - intros s Hin Ha. destruct (stage_allocation_bytes a s (Hs s Hin)) as (t & pl & _ & _ & _ & _ & Hv).
    apply (actors_numbered a s pl); [by apply Hv|]. pose proof (go_valid _ Hg s Hin) as V. by eapply actor_min_positive.
  - by apply actors_fit_nodes.
Qed.

(** Both actors of the demonstration share one node with the tasks. *)
Definition demo_allocation : QueryAllocation :=
  MkAllocation (demo_res 4 400 64) [MkNodeAllocation "n1" (demo_res 4 400 64)]
    [MkPlacement "stage:b" 1 "n1"; MkPlacement "stage:b" 0 "n1"] 1.

Lemma allocation_supports_graph_witness :
  Graph.validate_allocation demo_graph demo_allocation true = Ok tt /\
  exists capacity, Allocation.resources_for_node demo_allocation "n1" = Ok capacity /\
    bytes_le (sum_bytes (map (actor_bytes demo_graph) demo_allocation.(al_placements))) (bytes capacity) /\
    sum_bytes (map (actor_bytes demo_graph) demo_allocation.(al_placements)) = (100, 32).
Proof.
  assert (V : Graph.validate_allocation demo_graph demo_allocation true = Ok tt) by (vm_compute; reflexivity).
  split; [exact V|].
  destruct (allocation_supports_graph demo_graph demo_allocation (proj1 (validate_iff demo_graph) demo_graph_valid) V)
    as (_ & _ & H).
  destruct (H (MkPlacement "stage:b" 1 "n1")) as (c & Hc & Hle); [left|].
  exists c. split; [exact Hc|]. split; [exact Hle|]. vm_compute. reflexivity.
Defined.
