(* ===== verification/ResourceState.v ===== *)
(** * The resource manager of a query: its state and its accounting
    ([duckdb/runners/ray/query_resource_manager.py])

    [QueryResourceManager] owns the resources a query was allocated: it
    grants task leases and output-block leases, keeps a continuation credit
    for every worker task whose output nested tasks will read, and charges
    everything that is alive to the query, to a node and to a stage.  This
    file has the requests, leases and credits, what the constructor derives
    from the graph ([Plan]), the mutable state ([Manager]) and the usage it
    accounts.  All the maps are Python dictionaries in insertion order.  The
    identifiers [uuid4] draws are a function of how many were drawn. *)

From S2P Require Import Prelude PyStr PyVal PyNum AdmissionLedger QueryGraph.

#[local] Open Scope string_scope.
#[local] Open Scope list_scope.
#[local] Open Scope Z_scope.

(** ** Requests, leases and credits *)

Record TaskRequest := MkTaskRequest {
  tr_query_id : string;
  tr_stage_id : string;
  tr_task_id : string;
  tr_attempt_id : string;
  tr_node_id : option string;
  tr_retained_input_bytes : option Z;
}.
#[export] Instance TaskRequest_eq_dec : EqDecision TaskRequest.
Proof. solve_decision. Defined.

Record TaskLease := MkTaskLease {
  tl_lease_id : string;
  tl_query_id : string;
  tl_stage_id : string;
  tl_task_id : string;
  tl_attempt_id : string;
  tl_node_id : string;
  tl_execution_slot_id : string;
  tl_actor_index : option Z;
  tl_resources : ResourceVector;
  tl_output_window_bytes : Z;
  tl_liveness : bool;
  tl_allocation_generation : Z;
}.

Record TaskGrant := MkTaskGrant {
  tg_granted : bool;
  tg_lease : option TaskLease;
  tg_blocked_reason : string;
  tg_fatal : bool;
  tg_liveness : bool;
  tg_admission_epoch : Z;
}.

Record ContinuationCredit := MkCredit {
  cc_credit_id : string;
  cc_parent_task_lease_id : string;
  cc_parent_stage_id : string;
  cc_eligible_stage_ids : list string;
  cc_reservation_stage_id : string;
  cc_node_id : string;
  cc_resources : ResourceVector;
  cc_allocation_generation : Z;
  cc_borrowed_by : option string;
  cc_parent_active : bool;
}.
#[export] Instance ContinuationCredit_eta : Eta ContinuationCredit :=
  fun r => MkCredit r.(cc_credit_id) r.(cc_parent_task_lease_id) r.(cc_parent_stage_id) r.(cc_eligible_stage_ids)
    r.(cc_reservation_stage_id) r.(cc_node_id) r.(cc_resources) r.(cc_allocation_generation)
    r.(cc_borrowed_by) r.(cc_parent_active).

Record NewCreditPlan := MkNewCredit {
  nc_eligible_stage_ids : list string;
  nc_reservation_stage_id : string;
  nc_node_id : string;
  nc_resources : ResourceVector;
}.

Record TaskAdmissionPlan := MkPlan {
  pl_resources : ResourceVector;
  pl_output_window_bytes : Z;
  pl_node_id : string;
  pl_actor_index : option Z;
  pl_new_credit : option NewCreditPlan;
  pl_borrowed_credit_id : option string;
}.

Definition empty_plan : TaskAdmissionPlan := MkPlan Res.zero 0 "" None None None.

Record DownstreamReservation := MkReservation {
  dr_reservation_id : string;
  dr_stage_ids : list string;
  dr_resources : ResourceVector;
  dr_allowed_node_ids : list string;
}.

Record QueuedTaskEvaluation := MkEvaluation {
  qe_rank : Z * Z * Z;
  qe_request : TaskRequest;
  qe_reason : option string;
  qe_fatal : bool;
  qe_plan : TaskAdmissionPlan;
}.

Definition qe_key (e : QueuedTaskEvaluation) : string * string :=
  (e.(qe_request).(tr_task_id), e.(qe_request).(tr_attempt_id)).

Record OutputBlockRequest := MkOutputRequest {
  or_query_id : string;
  or_producer_stage_id : string;
  or_task_lease_id : string;
  or_attempt_id : string;
  or_block_id : string;
  or_size_bytes : Z;
}.
#[export] Instance OutputBlockRequest_eq_dec : EqDecision OutputBlockRequest.
Proof. solve_decision. Defined.

(** The members of [_OUTPUT_STATES] a lease can be in; [released] is the
    absence of the lease. *)
Inductive output_state := GeneratorPending | StageQueue | DownstreamInput | ExternalConsumer | Released.
#[export] Instance output_state_eq_dec : EqDecision output_state.
Proof. solve_decision. Defined.

Definition output_state_name (s : output_state) : string :=
  match s with
  | GeneratorPending => "generator_pending" | StageQueue => "stage_queue"
  | DownstreamInput => "downstream_input" | ExternalConsumer => "external_consumer" | Released => "released"
  end.

(** [_OUTPUT_STATES.index] *)
Definition output_state_index (s : output_state) : Z :=
  match s with
  | GeneratorPending => 0 | StageQueue => 1 | DownstreamInput => 2 | ExternalConsumer => 3 | Released => 4
  end.

(** [target in _OUTPUT_STATES] *)
Definition parse_output_state (s : string) : option output_state :=
  find (fun x => String.eqb (output_state_name x) s)
    [GeneratorPending; StageQueue; DownstreamInput; ExternalConsumer; Released].

Record OutputBlockLease := MkOutputLease {
  ol_lease_id : string;
  ol_query_id : string;
  ol_producer_stage_id : string;
  ol_task_lease_id : string;
  ol_attempt_id : string;
  ol_block_id : string;
  ol_node_id : string;
  ol_size_bytes : Z;
  ol_state : output_state;
  ol_liveness : bool;
  ol_allocation_generation : Z;
  ol_continuation_credit_id : option string;
}.
#[export] Instance OutputBlockLease_eta : Eta OutputBlockLease :=
  fun r => MkOutputLease r.(ol_lease_id) r.(ol_query_id) r.(ol_producer_stage_id) r.(ol_task_lease_id)
    r.(ol_attempt_id) r.(ol_block_id) r.(ol_node_id) r.(ol_size_bytes) r.(ol_state) r.(ol_liveness)
    r.(ol_allocation_generation) r.(ol_continuation_credit_id).

Record OutputBlockGrant := MkOutputGrant {
  og_granted : bool;
  og_lease : option OutputBlockLease;
  og_blocked_reason : string;
  og_fatal : bool;
  og_liveness : bool;
}.

(** [_StageState] *)
Record StageState := MkStageState {
  ss_spec : StageResourceSpec;
  ss_runnable : bool;
  ss_actor_ready : bool;
  ss_queued_input_bytes : Z;
  ss_pending_task_count : Z;
  ss_queued_output_bytes : Z;
  ss_pending_output_count : Z;
  ss_completed : bool;
}.
#[export] Instance StageState_eta : Eta StageState :=
  fun r => MkStageState r.(ss_spec) r.(ss_runnable) r.(ss_actor_ready) r.(ss_queued_input_bytes)
    r.(ss_pending_task_count) r.(ss_queued_output_bytes) r.(ss_pending_output_count) r.(ss_completed).

(** ** The plan and the state *)

(** What the constructor derives from the graph and never changes. *)
Record Plan := MkQueryPlan {
  p_graph : QueryExecutionGraph;
  p_ratio : f64;
  p_direct_downstream : gmap string (gset string);
  p_topological : list string;
  p_reachable : list (string * list string);
  p_reachable_udf : list (string * list string);
  p_separate_slot : list (string * list string);
  p_continuation_parents : list (string * list string);
}.

Record Manager := MkManager {
  m_allocation : QueryAllocation;
  m_admission_open : bool;
  m_epoch : Z;
  m_stages : list (string * StageState);
  m_started : gset string;
  m_task_leases : list (string * TaskLease);
  m_credits : list (string * ContinuationCredit);
  m_credit_by_parent : list (string * string);
  m_credit_by_borrower : list (string * string);
  m_active_attempts : list ((string * string) * string);
  m_active_slots : list ((string * Z) * string);
  m_queued_slots : list ((string * Z) * list string);
  m_terminal_attempts : BoundedSet (string * string);
  m_waiting_tasks : list ((string * string) * (TaskRequest * Z));
  m_waiting_outputs : list (string * OutputBlockRequest);
  m_output_leases : list (string * OutputBlockLease);
  m_output_by_block : list (string * string);
  m_terminal_blocks : BoundedSet string;
  m_liveness_task : option string;
  m_liveness_output : option string;
  m_task_liveness_total : Z;
  m_output_liveness_total : Z;
  m_external_waiting : bool;
  m_cancelled : bool;
  m_cancel_reason : string;
  m_drawn : nat;
}.
#[export] Instance Manager_eta : Eta Manager :=
  fun r => MkManager r.(m_allocation) r.(m_admission_open) r.(m_epoch) r.(m_stages) r.(m_started) r.(m_task_leases)
    r.(m_credits) r.(m_credit_by_parent) r.(m_credit_by_borrower) r.(m_active_attempts) r.(m_active_slots)
    r.(m_queued_slots) r.(m_terminal_attempts) r.(m_waiting_tasks) r.(m_waiting_outputs) r.(m_output_leases)
    r.(m_output_by_block) r.(m_terminal_blocks) r.(m_liveness_task) r.(m_liveness_output) r.(m_task_liveness_total)
    r.(m_output_liveness_total) r.(m_external_waiting) r.(m_cancelled) r.(m_cancel_reason) r.(m_drawn).

Definition terminal_identity_replay_capacity : Z := 65536.

(** [d[k]] for a string key *)
Definition od_item {V} (k : string) (d : list (string * V)) : result V :=
  match od_get k d with Some v => Ok v | None => Raise (KeyError (repr_str k)) end.

(** ** Construction *)

Module NewManager.

(** The search for the stages behind one stage: [pending.pop()] takes the last. *)
Fixpoint reach (fuel : nat) (downstream : gmap string (gset string)) (reached : gset string) (pending : list string)
    : gset string :=
  match fuel with
  | O => reached
  | S fuel =>
      match last pending with
      | None => reached
      | Some stage =>
          let pending := removelast pending in
          if bool_decide (stage ∈ reached) then reach fuel downstream reached pending
          else reach fuel downstream ({[stage]} ∪ reached) (pending ++ elements (default ∅ (downstream !! stage)))
      end
  end.

(** Every stage is expanded at most once and has at most [n] readers. *)
Definition reach_fuel (n : nat) : nat := S (n + n * n).

Definition reachable_from (stages : list StageResourceSpec) (downstream : gmap string (gset string))
    (ordered : list string) (source : string) : list string :=
  let reached := reach (reach_fuel (length stages)) downstream ∅ (elements (default ∅ (downstream !! source))) in
  List.filter (fun id => bool_decide (id ∈ reached)) ordered.

Definition stage_kind_is_udf (stages : list (string * StageResourceSpec)) (id : string) : bool :=
  match od_get id stages with Some s => String.eqb s.(sp_stage_kind) "udf" | None => false end.

Definition backend_is (backend : string) (stages : list (string * StageResourceSpec)) (id : string) : bool :=
  match od_get id stages with Some s => String.eqb s.(sp_backend) backend | None => false end.

(** The worker stages whose credits a task stage borrows. *)
Definition continuation_parents (stages : list (string * StageResourceSpec)) (ordered : list string)
    (reachable_udf : list (string * list string)) : list (string * list string) :=
  List.filter (fun '(_, parents) => negb (bool_decide (length parents = O)))
    (map (fun id =>
       (id, List.filter (fun parent => backend_is "ray_worker" stages parent
                           && bool_decide (id ∈ od_get_default parent [] reachable_udf)) ordered))
      (List.filter (backend_is "ray_task" stages) ordered)).

Definition plan (g : QueryExecutionGraph) (ratio : f64) : result Plan :=
  let* downstream := Graph.downstream_of g.(g_stages) in
  let* ordered := Graph.topological_stage_ids g in
  let* separate := rmapM (fun id => let* l := Graph.downstream_fte_stage_ids_requiring_separate_slot g id in Ok (id, l))
    ordered in
  let stages := Graph.by_id g.(g_stages) in
  let reachable := map (fun id => (id, reachable_from g.(g_stages) downstream ordered id)) ordered in
  let reachable_udf := map (fun '(id, l) => (id, List.filter (stage_kind_is_udf stages) l)) reachable in
  Ok (MkQueryPlan g ratio downstream ordered reachable reachable_udf separate
        (continuation_parents stages ordered reachable_udf)).

Definition stage_state (s : StageResourceSpec) : StageState :=
  MkStageState s false (negb (Stage.is_actor s)) 0 0 0 0 false.

(** [__init__] *)
Definition new (g : QueryExecutionGraph) (a : QueryAllocation) (ratio : f64) : result (Plan * Manager) :=
  let* _ := raise_if (negb (f64_isfinite ratio) || f64_le ratio f64_zero || f64_lt (f64_of_int 1) ratio)
    (ValueError "reservation_ratio must be in (0, 1]") in
  let* _ := Graph.validate_allocation g a true in
  let* plan := plan g ratio in
  let* attempts := BSet.new [] terminal_identity_replay_capacity in
  let* blocks := BSet.new [] terminal_identity_replay_capacity in
  let stages := fold_left (fun d s => od_set s.(sp_stage_id) (stage_state s) d) g.(g_stages) [] in
  Ok (plan, MkManager a true 0 stages ∅ [] [] [] [] [] [] [] attempts [] [] [] [] blocks None None 0 0 false false "" 0).

End NewManager.

(** ** Vectors *)

(** [_resource_with_object_store] *)
Definition with_object_store (r : ResourceVector) (bytes : Z) : result ResourceVector :=
  Res.new r.(r_cpu) r.(r_gpu) r.(r_heap_bytes) bytes.

(** [ResourceVector(object_store_bytes=n)] *)
Definition object_store (n : Z) : result ResourceVector := Res.new f64_zero f64_zero 0 n.

(** [_positive_difference] *)
Definition positive_difference (a b : ResourceVector) : result ResourceVector :=
  Res.new (f64_max f64_zero (f64_sub a.(r_cpu) b.(r_cpu))) (f64_max f64_zero (f64_sub a.(r_gpu) b.(r_gpu)))
    (Z.max 0 (a.(r_heap_bytes) - b.(r_heap_bytes))) (Z.max 0 (a.(r_object_store_bytes) - b.(r_object_store_bytes))).

(** [_component_max] *)
Definition component_max (l : list ResourceVector) : result ResourceVector :=
  match l with
  | [] => Ok Res.zero
  | r :: l =>
      Res.new (fold_left f64_max (map r_cpu l) r.(r_cpu)) (fold_left f64_max (map r_gpu l) r.(r_gpu))
        (fold_left Z.max (map r_heap_bytes l) r.(r_heap_bytes))
        (fold_left Z.max (map r_object_store_bytes l) r.(r_object_store_bytes))
  end.

Definition zsum (l : list Z) : Z := foldr Z.add 0 l.

(** [total = total + r] for every [r] *)
Definition add_all (total : ResourceVector) (l : list ResourceVector) : result ResourceVector := rfoldM Res.add total l.

(** ** Usage *)

Definition active_task_count (m : Manager) (stage : string) : Z :=
  Z.of_nat (length (List.filter (fun l => String.eqb l.(tl_stage_id) stage) (od_values m.(m_task_leases)))).

Definition output_bytes (p : OutputBlockLease -> bool) (m : Manager) : Z :=
  zsum (map ol_size_bytes (List.filter p (od_values m.(m_output_leases)))).

Definition live_output_bytes_for_credit (m : Manager) (credit_id : string) : Z :=
  output_bytes (fun o => bool_decide (o.(ol_continuation_credit_id) = Some credit_id)) m.

Definition live_output_bytes_for_task (m : Manager) (lease_id : string) : Z :=
  match od_get lease_id m.(m_credit_by_borrower) with
  | Some credit_id => live_output_bytes_for_credit m credit_id
  | None => output_bytes (fun o => String.eqb o.(ol_task_lease_id) lease_id) m
  end.

Definition borrowed_task_usage (m : Manager) (resources : ResourceVector) (window : Z) (credit : ContinuationCredit)
    : result ResourceVector :=
  let live := live_output_bytes_for_credit m credit.(cc_credit_id) in
  let* combined := with_object_store resources (resources.(r_object_store_bytes) + Z.max window live) in
  positive_difference combined credit.(cc_resources).

Definition idle_continuation_output_excess (m : Manager) (credit : ContinuationCredit) : result ResourceVector :=
  object_store (Z.max 0 (live_output_bytes_for_credit m credit.(cc_credit_id)
                         - credit.(cc_resources).(r_object_store_bytes))).

Definition task_usage (m : Manager) (l : TaskLease) : result ResourceVector :=
  match od_get l.(tl_lease_id) m.(m_credit_by_borrower) with
  | None =>
      let live := live_output_bytes_for_task m l.(tl_lease_id) in
      with_object_store l.(tl_resources)
        (l.(tl_resources).(r_object_store_bytes) + Z.max l.(tl_output_window_bytes) live)
  | Some credit_id =>
      match od_get credit_id m.(m_credits) with
      | Some credit =>
          if bool_decide (credit.(cc_borrowed_by) = Some l.(tl_lease_id))
          then borrowed_task_usage m l.(tl_resources) l.(tl_output_window_bytes) credit
          else Raise (RuntimeError "continuation credit accounting index is inconsistent")
      | None => Raise (RuntimeError "continuation credit accounting index is inconsistent")
      end
  end.

(** The borrower of a credit, while its task runs. *)
Definition borrower_active (m : Manager) (c : ContinuationCredit) : bool :=
  match c.(cc_borrowed_by) with Some b => od_mem b m.(m_task_leases) | None => false end.

(** One output in the loop of [_uncovered_inactive_output_bytes_locked]. *)
Definition uncovered_step (m : Manager) (active : gset string) (node : option string)
    (acc : Z * list (string * Z)) (o : OutputBlockLease) : Z * list (string * Z) :=
  let '(uncovered, idle) := acc in
  if match node with Some n => negb (String.eqb o.(ol_node_id) n) | None => false end then acc else
  match od_get (default "" o.(ol_continuation_credit_id)) m.(m_credits) with
  | Some c =>
      if borrower_active m c then acc
      else (uncovered, od_set c.(cc_credit_id) (od_get_default c.(cc_credit_id) 0 idle + o.(ol_size_bytes)) idle)
  | None =>
      if bool_decide (o.(ol_task_lease_id) ∈ active) then acc
      else (uncovered + o.(ol_size_bytes), idle)
  end.

(** [_uncovered_inactive_output_bytes_locked] of the query or of a node *)
Definition uncovered_inactive_output_bytes (m : Manager) (active : gset string) (node : option string) : Z :=
  let '(uncovered, idle) := fold_left (uncovered_step m active node) (od_values m.(m_output_leases)) (0, []) in
  fold_left (fun total '(credit_id, bytes) =>
      total + match od_get credit_id m.(m_credits) with
              | None => bytes
              | Some c => Z.max 0 (bytes - c.(cc_resources).(r_object_store_bytes))
              end) idle uncovered.

(** [_continuation_output_excess_by_stage_locked]: the bytes of idle credits
    by stage, and what the credit does not cover of them. *)
Definition excess_step (m : Manager) (acc : list (string * list (string * Z))) (o : OutputBlockLease)
    : list (string * list (string * Z)) :=
  match o.(ol_continuation_credit_id) with
  | None => acc
  | Some credit_id =>
      match od_get credit_id m.(m_credits) with
      | None => acc
      | Some c =>
          if borrower_active m c then acc
          else
            let by_stage := od_get_default credit_id [] acc in
            let stage := o.(ol_producer_stage_id) in
            od_set credit_id (od_set stage (od_get_default stage 0 by_stage + o.(ol_size_bytes)) by_stage) acc
      end
  end.

(** Position of a stage in the topological order, its length if unknown. *)
Fixpoint rank_in (l : list string) (id : string) : Z :=
  match l with
  | [] => 0
  | x :: l => if String.eqb x id then 0 else 1 + rank_in l id
  end.

Definition stage_order (ordered : list string) (a b : string * Z) : bool :=
  let ra := rank_in ordered a.1 in
  let rb := rank_in ordered b.1 in
  (ra <? rb) || ((ra =? rb) && String.leb a.1 b.1).

Definition credit_excess (p : Plan) (m : Manager) (excess : list (string * Z))
    (entry : string * list (string * Z)) : list (string * Z) :=
  let '(credit_id, by_stage) := entry in
  let covered0 := match od_get credit_id m.(m_credits) with
                  | Some c => c.(cc_resources).(r_object_store_bytes) | None => 0 end in
  (fold_left (fun '(remaining, excess) '(stage, bytes) =>
      let covered := Z.min bytes remaining in
      let over := bytes - covered in
      (remaining - covered, if 0 <? over then od_set stage (od_get_default stage 0 excess + over) excess else excess))
    (py_sorted (stage_order p.(p_topological)) by_stage) (covered0, excess)).2.

Definition continuation_output_excess_by_stage (p : Plan) (m : Manager) : list (string * Z) :=
  fold_left (credit_excess p m) (fold_left (excess_step m) (od_values m.(m_output_leases)) []) [].

(** [_uncovered_inactive_output_bytes_locked] of a stage *)
Definition uncovered_inactive_output_bytes_of_stage (p : Plan) (m : Manager) (active : gset string) (stage : string) : Z :=
  output_bytes (fun o => String.eqb o.(ol_producer_stage_id) stage
    && match o.(ol_continuation_credit_id) with None => true | Some c => negb (od_mem c m.(m_credits)) end
    && negb (bool_decide (o.(ol_task_lease_id) ∈ active))) m
  + od_get_default stage 0 (continuation_output_excess_by_stage p m).

(** [_actor_resident_usage_locked] *)
Definition actor_resident_usage (m : Manager) (node stage : option string) : result ResourceVector :=
  rfoldM (fun total pl =>
      if match node with Some n => negb (String.eqb pl.(ap_node_id) n) | None => false end then Ok total
      else if match stage with Some s => negb (String.eqb pl.(ap_stage_id) s) | None => false end then Ok total
      else match od_get pl.(ap_stage_id) m.(m_stages) with
           | None => Raise (RuntimeError "actor placement references an unknown query stage")
           | Some s => Res.add total s.(ss_spec).(sp_resident_per_actor)
           end) Res.zero m.(m_allocation).(al_placements).

(** Usage of the credits, the tasks and the outputs selected by a scope, on
    top of what its actors hold. *)
Definition scope_usage (m : Manager) (resident : result ResourceVector) (credits : ContinuationCredit -> bool)
    (tasks : TaskLease -> bool) (uncovered : gset string -> Z) : result ResourceVector :=
  let* total := resident in
  let* total := add_all total (map cc_resources (List.filter credits (od_values m.(m_credits)))) in
  let leases := List.filter tasks (od_values m.(m_task_leases)) in
  let* total := rfoldM (fun total l => let* u := task_usage m l in Res.add total u) total leases in
  let* rest := object_store (uncovered (list_to_set (map tl_lease_id leases))) in
  Res.add total rest.

(** [set(self._task_leases)] is the set of the keys, which are the lease ids. *)
Definition query_usage (m : Manager) : result ResourceVector :=
  let* total := actor_resident_usage m None None in
  let* total := add_all total (map cc_resources (od_values m.(m_credits))) in
  let* total := rfoldM (fun total l => let* u := task_usage m l in Res.add total u) total (od_values m.(m_task_leases)) in
  let* rest := object_store (uncovered_inactive_output_bytes m (list_to_set (od_keys m.(m_task_leases))) None) in
  Res.add total rest.

Definition node_usage (m : Manager) (node : string) : result ResourceVector :=
  scope_usage m (actor_resident_usage m (Some node) None)
    (fun c => String.eqb c.(cc_node_id) node) (fun l => String.eqb l.(tl_node_id) node)
    (fun active => uncovered_inactive_output_bytes m active (Some node)).

Definition stage_usage (p : Plan) (m : Manager) (stage : string) : result ResourceVector :=
  scope_usage m (actor_resident_usage m None (Some stage))
    (fun c => String.eqb c.(cc_reservation_stage_id) stage) (fun l => String.eqb l.(tl_stage_id) stage)
    (fun active => uncovered_inactive_output_bytes_of_stage p m active stage).
