(* ===== verification/ResourceReach.v ===== *)
(** * What the manager derives from the graph

    The constructor of [QueryResourceManager] computes the stages behind each
    stage with a work list.  This file shows that the search always ends with
    exactly the stages that a path leads to, and what follows for the tables
    that admission reads. *)

From S2P Require Import Prelude PyStr PyVal PyNum AdmissionLedger QueryGraph GraphProofs GraphTheorems ResourceState.

#[local] Open Scope string_scope.
#[local] Open Scope list_scope.

(** ** The work list *)

Lemma sum_except (f g : string -> nat) (x : string) l :
  NoDup l -> x ∈ l -> (forall y, y <> x -> f y = g y) ->
  (sum_list_with f l + g x = sum_list_with g l + f x)%nat.
Proof.
  intros Hn Hx He. induction l as [|y l IH]; [by apply elem_of_nil in Hx|]. apply NoDup_cons in Hn as [Hy Hn]. cbn [sum_list_with].
  destruct (decide (y = x)) as [->|Hne].
  - assert (E : sum_list_with f l = sum_list_with g l); [|lia]. clear IH Hn Hx. induction l as [|z l IH]; [done|].
    cbn [sum_list_with]. rewrite IH, He by set_solver. done.
  - specialize (IH Hn ltac:(set_solver)). rewrite (He y Hne). lia.
Qed.

Lemma last_split {A} (l : list A) x : last l = Some x -> l = removelast l ++ [x].
Proof. intros (l' & ->)%last_Some. by rewrite removelast_last. Qed.

Section Reach.
Context (d : gmap string (gset string)) (ids : list string).

Definition readers (x : string) : list string := elements (default ∅ (d !! x)).

Context (Hnd : NoDup ids).
Context (Hids : forall x y, y ∈ readers x -> y ∈ ids).

(** What is still to be pushed: the readers of the stages not yet reached. *)
Definition to_push (reached : gset string) : nat :=
  sum_list_with (fun x => if bool_decide (x ∈ reached) then O else length (readers x)) ids.

Lemma to_push_reached x reached :
  x ∈ ids -> x ∉ reached -> (to_push ({[x]} ∪ reached) + length (readers x) = to_push reached)%nat.
Proof using Hnd.
  clear Hids. intros Hx Hr. unfold to_push.
  pose proof (sum_except (fun y => if bool_decide (y ∈ {[x]} ∪ reached) then O else length (readers y))
    (fun y => if bool_decide (y ∈ reached) then O else length (readers y)) x ids Hnd Hx) as E.
  cbn beta in E. rewrite (bool_decide_eq_true_2 (x ∈ {[x]} ∪ reached)), (bool_decide_eq_false_2 (x ∈ reached)) in E by set_solver.
  rewrite E; [lia|]. intros y Hy. by rewrite (bool_decide_ext _ (y ∈ reached)) by set_solver.
Qed.

(** With fuel for every push, the search returns a set that holds what it
    started from and is closed under the readers. *)
Lemma reach_closed fuel reached pending :
  (length pending + to_push reached <= fuel)%nat ->
  (forall x, x ∈ pending -> x ∈ ids) ->
  (forall x y, x ∈ reached -> y ∈ readers x -> y ∈ reached \/ y ∈ pending) ->
  let r := NewManager.reach fuel d reached pending in
  reached ⊆ r /\ (forall x, x ∈ pending -> x ∈ r) /\ forall x y, x ∈ r -> y ∈ readers x -> y ∈ r.
Proof using Hnd Hids.
  revert reached pending. induction fuel as [|fuel IH]; intros reached pending Hf Hp Hc; cbn [NewManager.reach].
  { destruct pending; [|cbn in Hf; lia]. split; [done|]. split; [by intros x ?%elem_of_nil|]. intros x y Hx Hy.
    destruct (Hc x y Hx Hy) as [?|?%elem_of_nil]; done. }
  destruct (last pending) as [x|] eqn:El.
  2: { apply last_None in El as ->. split; [done|]. split; [by intros x ?%elem_of_nil|]. intros x y Hx Hy.
       destruct (Hc x y Hx Hy) as [?|?%elem_of_nil]; done. }
  apply last_split in El. set (rest := removelast pending) in *. clearbody rest. subst pending. rewrite length_app in Hf. cbn [length] in Hf.
  case_bool_decide as Ex.
  - destruct (IH reached rest) as (H1 & H2 & H3); [lia|set_solver| |].
    { intros u y Hu Hy. destruct (Hc u y Hu Hy) as [?|?]; set_solver. }
    split; [done|]. split; [|done]. intros y [?| ->%list_elem_of_singleton]%elem_of_app; auto.
  - destruct (IH ({[x]} ∪ reached) (rest ++ readers x)) as (H1 & H2 & H3).
    + rewrite length_app. pose proof (to_push_reached x reached (Hp x ltac:(set_solver)) Ex). lia.
    + intros y [?|?]%elem_of_app; [set_solver|eauto].
    + intros u y [->%elem_of_singleton|Hu]%elem_of_union Hy; [set_solver|]. destruct (Hc u y Hu Hy) as [?|?]; set_solver.
    + split; [set_solver|]. split; [|done]. intros y [?| ->%list_elem_of_singleton]%elem_of_app; set_solver.
Qed.

(** It holds nothing that the readers do not lead to. *)
Lemma reach_sound (P : string -> Prop) fuel reached pending :
  (forall x y, P x -> y ∈ readers x -> P y) -> (forall x, x ∈ reached -> P x) -> (forall x, x ∈ pending -> P x) ->
  forall x, x ∈ NewManager.reach fuel d reached pending -> P x.
Proof using.
  clear Hids Hnd. intros Hstep. revert reached pending. induction fuel as [|fuel IH]; intros reached pending Hr Hp; cbn [NewManager.reach]; [done|].
  destruct (last pending) as [x|] eqn:El; [|done]. apply last_split in El.
  assert (Hrest : forall y, y ∈ removelast pending -> P y) by (intros y Hy; apply Hp; rewrite El; set_solver).
  assert (Hx : P x) by (apply Hp; rewrite El; set_solver).
  case_bool_decide; apply IH; try done; [set_solver|]. intros y [?|?]%elem_of_app; eauto.
Qed.

Lemma to_push_bound reached : (to_push reached <= length ids * length ids)%nat.
Proof using Hids.
  assert (H : forall x, (length (readers x) <= length ids)%nat).
  { intros x. apply submseteq_length, NoDup_submseteq; [exact (NoDup_elements (default (∅ : gset string) (d !! x)))|apply Hids]. }
  unfold to_push. assert (G : forall l, (sum_list_with (fun x => if bool_decide (x ∈ reached) then O else length (readers x)) l <= length l * length ids)%nat); [|apply G].
  induction l as [|x l IH]; cbn [sum_list_with length]; [lia|]. specialize (H x). case_bool_decide; lia.
Qed.
End Reach.

(** ** The tables of a graph *)

Section Tables.
Context (g : QueryExecutionGraph) (Hg : graph_ok g).
Context (d : gmap string (gset string)) (Hd : forall p c, c ∈ default ∅ (d !! p) <-> edge g.(g_stages) p c).
Context (ordered : list string) (Hp : Permutation ordered (stage_ids g.(g_stages))).

Definition follows : string -> string -> Prop := tc (edge g.(g_stages)).

Lemma readers_edge x y : y ∈ readers d x <-> edge g.(g_stages) x y.
Proof using Hd. unfold readers. rewrite elem_of_elements. apply Hd. Qed.

Lemma readers_ids x y : y ∈ readers d x -> y ∈ stage_ids g.(g_stages).
Proof using Hd Hg. intros H%readers_edge. eapply edge_ids; [apply Hg|exact H]. Qed.

Lemma follows_ids x y : follows x y -> y ∈ stage_ids g.(g_stages).
Proof using Hg. unfold follows. induction 1 as [x y He|x y z _ _ IH]; [|done]. eapply edge_ids; [apply Hg|exact He]. Qed.

(** The search from a stage yields the stages some path leads to from it. *)
Lemma reachable_exact source :
  forall y, y ∈ NewManager.reachable_from g.(g_stages) d ordered source <-> follows source y.
Proof using Hg Hd Hp.
  intros y. unfold NewManager.reachable_from. fold (readers d source). set (fuel := NewManager.reach_fuel _).
  assert (Hn : NoDup (stage_ids g.(g_stages))) by apply Hg.
  assert (Hf : (length (readers d source) + to_push d (stage_ids g.(g_stages)) ∅ <= fuel)%nat).
  { pose proof (to_push_bound d _ readers_ids ∅) as Hb. subst fuel. unfold NewManager.reach_fuel.
    unfold stage_ids in *. rewrite length_map in Hb.
    assert (length (readers d source) <= length g.(g_stages))%nat; [|lia].
    rewrite <- (length_map sp_stage_id). apply submseteq_length, NoDup_submseteq; [exact (NoDup_elements (default (∅ : gset string) (d !! source)))|apply readers_ids]. }
  destruct (reach_closed d _ Hn readers_ids fuel ∅ (readers d source) Hf) as (_ & H2 & H3); [apply readers_ids|set_solver|].
  rewrite list_elem_of_In, List.filter_In, bool_decide_eq_true, <- list_elem_of_In, Hp. split.
  - intros [_ Hy]. revert y Hy. apply reach_sound; [|set_solver|].
    + intros x z Hx Hz%readers_edge. by eapply tc_r.
    + intros x Hx%readers_edge. by apply tc_once.
  - intros Hy. split; [by eapply follows_ids|]. revert y Hy. apply tc_ind_r.
    + intros z Hz. by apply H2, readers_edge.
    + intros z w _ Hzw IH. eapply H3; [exact IH|]. by apply readers_edge.
Qed.

Lemma separate_slots_ok source :
  source ∈ stage_ids g.(g_stages) -> exists l, Graph.downstream_fte_stage_ids_requiring_separate_slot g source = Ok l.
Proof using Hg.
  destruct (ordered_stages g Hg) as (d' & deg & o & Ed & _ & Et & _). intros (s & -> & Hs)%list_elem_of_fmap.
  unfold Graph.downstream_fte_stage_ids_requiring_separate_slot. rewrite stage_by_id_ok by (apply Hg || done). rewrite Ed, Et. cbn [rbind]. eauto.
Qed.
End Tables.

(** A table with one entry per key of a list. *)
Lemma od_get_tabulate {V} (f : string -> V) l x : od_get x (map (fun k => (k, f k)) l) = if bool_decide (x ∈ l) then Some (f x) else None.
Proof.
  induction l as [|k l IH]; [by rewrite bool_decide_eq_false_2 by set_solver|]. cbn [map od_get].
  destruct (decide (x = k)) as [->|Hne]; [by rewrite bool_decide_eq_true_2 by set_solver|]. rewrite IH.
  by rewrite (bool_decide_ext (x ∈ l) (x ∈ k :: l)) by set_solver.
Qed.

Lemma od_get_filter {V} (keep : string * V -> bool) (f : string -> V) l x :
  od_get x (List.filter keep (map (fun k => (k, f k)) l)) = if bool_decide (x ∈ l) && keep (x, f x) then Some (f x) else None.
Proof.
  induction l as [|k l IH]; [by rewrite bool_decide_eq_false_2 by set_solver|]. cbn [map List.filter].
  destruct (decide (x = k)) as [->|Hne].
  - rewrite (bool_decide_eq_true_2 (k ∈ k :: l)) by set_solver. destruct (keep (k, f k)) eqn:Ek; cbn [andb od_get]; [by rewrite decide_True|].
    rewrite IH. by rewrite andb_false_r.
  - rewrite (bool_decide_ext (x ∈ k :: l) (x ∈ l)) by set_solver. destruct (keep (k, f k)); [|done]. cbn [od_get]. by rewrite decide_False.
Qed.

Lemma rmapM_total {A B} (f : A -> result B) l : (forall x, x ∈ l -> exists y, f x = Ok y) -> exists ys, rmapM f l = Ok ys.
Proof.
  induction l as [|x l IH]; intros H; cbn [rmapM]; [eauto|]. destruct (H x ltac:(set_solver)) as [y ->].
  destruct IH as [ys ->]; [set_solver|]. cbn [rbind]. eauto.
Qed.

Lemma not_nil_elem {A} (l : list A) : l <> [] -> exists x, x ∈ l.
Proof. destruct l as [|x l]; [done|]. exists x. set_solver. Qed.

(** ** Theorem *)

(** Two tests on a stage, by its identity. *)
Definition is_udf (g : QueryExecutionGraph) (id : string) : Prop := exists s, s ∈ g.(g_stages) /\ s.(sp_stage_id) = id /\ s.(sp_stage_kind) = "udf".
Definition runs_on (backend : string) (g : QueryExecutionGraph) (id : string) : Prop :=
  exists s, s ∈ g.(g_stages) /\ s.(sp_stage_id) = id /\ s.(sp_backend) = backend.

Lemma keyed_test (f : StageResourceSpec -> string) v g id :
  NoDup (stage_ids g.(g_stages)) ->
  match od_get id (Graph.by_id g.(g_stages)) with Some s => String.eqb (f s) v | None => false end = true <->
  exists s, s ∈ g.(g_stages) /\ s.(sp_stage_id) = id /\ f s = v.
Proof.
  intros Hn. rewrite by_id_keyed by done. split.
  - destruct (od_get id _) as [s|] eqn:E; [|done]. intros Hv%String.eqb_eq. apply od_get_elem in E. unfold keyed_stages in E.
    apply list_elem_of_fmap in E as (s' & [= -> ->] & Hs). eauto.
  - intros (s & Hs & <- & Hv). rewrite keyed_stages_get by done. by apply String.eqb_eq.
Qed.

Lemma udf_test g id : NoDup (stage_ids g.(g_stages)) -> NewManager.stage_kind_is_udf (Graph.by_id g.(g_stages)) id = true <-> is_udf g id.
Proof. exact (keyed_test sp_stage_kind "udf" g id). Qed.
Lemma backend_test b g id : NoDup (stage_ids g.(g_stages)) -> NewManager.backend_is b (Graph.by_id g.(g_stages)) id = true <-> runs_on b g id.
Proof. exact (keyed_test sp_backend b g id). Qed.

(** C22: the tables that a manager derives from a validated graph are exact,
    and their computation always ends: the stages are listed in their
    topological order, each once, after all its inputs and as the least one
    whose inputs have all been listed; in that order, the work-list search
    finds for every stage exactly the stages that some path leads to and
    among them the UDFs; and the table of continuation parents has an entry
    exactly for the UDF stages of Ray tasks behind a worker stage, namely
    those worker stages in topological order. *)
Theorem plan_exact g ratio :
  Graph.validate g = Ok tt ->
  exists p, NewManager.plan g ratio = Ok p /\ Graph.topological_stage_ids g = Ok p.(p_topological) /\
    Permutation p.(p_topological) (stage_ids g.(g_stages)) /\ ordered_by g.(g_stages) p.(p_topological) /\
    (forall x, x ∈ stage_ids g.(g_stages) -> exists l udfs,
      od_get x p.(p_reachable) = Some l /\ sublist l p.(p_topological) /\ (forall y, y ∈ l <-> follows g x y) /\
      od_get x p.(p_reachable_udf) = Some udfs /\ sublist udfs l /\ forall y, y ∈ udfs <-> follows g x y /\ is_udf g y) /\
    (forall x parents, od_get x p.(p_continuation_parents) = Some parents ->
      runs_on "ray_task" g x /\ is_udf g x /\ parents <> [] /\ sublist parents p.(p_topological) /\
      forall w, w ∈ parents <-> runs_on "ray_worker" g w /\ follows g w x) /\
    (forall x w, runs_on "ray_task" g x -> is_udf g x -> runs_on "ray_worker" g w -> follows g w x ->
      is_Some (od_get x p.(p_continuation_parents))).
Proof.
  intros Hv%validate_iff. rename Hv into Hg. assert (Hn : NoDup (stage_ids g.(g_stages))) by apply Hg.
  destruct (ordered_stages g Hg) as (d & deg & ordered & Ed & Hd & Et & Hp & Hk).
  destruct (rmapM_total (fun id => let* l := Graph.downstream_fte_stage_ids_requiring_separate_slot g id in Ok (id, l)) ordered) as [separate Es].
  { intros x Hx. rewrite Hp in Hx. destruct (separate_slots_ok g Hg x Hx) as [l ->]. cbn [rbind]. eauto. }
  unfold NewManager.plan. rewrite Ed, Et. cbn [rbind]. rewrite Es. cbn [rbind]. eexists. split; [reflexivity|]. cbn [p_topological p_reachable p_reachable_udf p_continuation_parents].
  split; [done|]. split; [done|]. split; [exact (ki_placed _ _ _ _ _ Hk)|]. set (behind := NewManager.reachable_from g.(g_stages) d ordered).
  assert (Hb : forall x y, y ∈ behind x <-> follows g x y) by (intros; by apply reachable_exact).
  set (udfs := fun x => List.filter (NewManager.stage_kind_is_udf (Graph.by_id g.(g_stages))) (behind x)).
  assert (Em : map (fun '(id, l) => (id, List.filter (NewManager.stage_kind_is_udf (Graph.by_id (g_stages g))) l)) (map (fun id => (id, behind id)) ordered) =
    map (fun k => (k, udfs k)) ordered) by (by rewrite map_map). rewrite Em. clear Em.
  assert (Hu : forall x y, y ∈ udfs x <-> follows g x y /\ is_udf g y).
  { intros x y. unfold udfs. rewrite list_elem_of_In, List.filter_In, <- list_elem_of_In, Hb. by rewrite udf_test. }
  assert (Hw : forall x w, w ∈ List.filter (fun parent => NewManager.backend_is "ray_worker" (Graph.by_id g.(g_stages)) parent &&
      bool_decide (x ∈ od_get_default parent [] (map (fun k => (k, udfs k)) ordered))) ordered <->
      runs_on "ray_worker" g w /\ follows g w x /\ is_udf g x).
  { intros x w. unfold od_get_default. rewrite list_elem_of_In, List.filter_In, <- list_elem_of_In, od_get_tabulate, andb_true_iff, bool_decide_eq_true.
    rewrite backend_test by done. split.
    - intros (Hw & Hr & Hx). rewrite bool_decide_eq_true_2 in Hx by done. apply Hu in Hx. done.
    - intros (Hr & Hf & Hx). destruct Hr as (s & Hs & <- & Hr). assert (Hin : s.(sp_stage_id) ∈ ordered) by (rewrite Hp; by apply list_elem_of_fmap; eauto).
      split; [done|]. split; [by exists s|]. rewrite bool_decide_eq_true_2 by done. by apply Hu. }
  split; [|split].
  - intros x Hx. rewrite <- Hp in Hx. exists (behind x), (udfs x). rewrite !od_get_tabulate, bool_decide_eq_true_2 by done.
    split; [done|]. split; [apply filter_sublist_list|]. split; [done|]. split; [done|]. split; [apply filter_sublist_list|done].
  - intros x parents. unfold NewManager.continuation_parents. rewrite od_get_filter. destruct (_ && _) eqn:E; [|done]. intros [= <-].
    apply andb_true_iff in E as [Ht E]. apply negb_true_iff, length_zero_nil in E.
    apply bool_decide_eq_true in Ht. rewrite list_elem_of_In, List.filter_In, backend_test in Ht by done.
    pose proof E as E'. apply not_nil_elem in E' as [w' (_ & _ & Hx)%Hw]. split; [apply Ht|]. split; [done|]. split; [done|].
    split; [apply filter_sublist_list|]. intros w. rewrite Hw. naive_solver.
  - intros x w Hx Hxu Hr Hf. unfold NewManager.continuation_parents. rewrite od_get_filter.
    rewrite bool_decide_eq_true_2, andb_true_l.
    2: { rewrite list_elem_of_In, List.filter_In, <- list_elem_of_In, backend_test, Hp by done. split; [|done].
         destruct Hx as (s & Hs & <- & _). apply list_elem_of_fmap; eauto. }
    destruct (negb _) eqn:E; [eauto|]. apply negb_false_iff, bool_decide_eq_true, length_zero_iff_nil in E.
    assert (Hin : w ∈ @nil string); [rewrite <- E; apply Hw; done|]. by apply elem_of_nil in Hin.
Qed.

(** A worker stage feeds Ray tasks, whose output a second worker stage reads. *)
Definition credit_stages : list StageResourceSpec :=
  [demo_stage "a" "ray_worker" []; demo_stage "t" "ray_task" ["a"]; demo_stage "z" "ray_worker" ["t"]].

Definition credit_graph : QueryExecutionGraph := MkGraph "q" "digest" credit_stages ["stage:z"].

Lemma plan_exact_witness :
  exists p, NewManager.plan credit_graph (f64_lit 1 2) = Ok p /\
    od_get "stage:t" p.(p_continuation_parents) = Some ["stage:a"] /\ od_get "stage:z" p.(p_continuation_parents) = None /\
    od_get "stage:a" p.(p_reachable) = Some ["stage:t"; "stage:z"] /\ follows credit_graph "stage:a" "stage:t".
Proof.
  destruct (plan_exact credit_graph (f64_lit 1 2)) as (p & Ep & _ & _ & _ & _ & Hpar & _); [vm_compute; reflexivity|].
  exists p. split; [exact Ep|]. revert Hpar. vm_compute in Ep. injection Ep as <-. intros Hpar.
  split; [reflexivity|]. split; [reflexivity|]. split; [reflexivity|].
  apply (Hpar "stage:t" ["stage:a"] eq_refl). set_solver.
Defined.
