(* ===== verification/ResourcePlacement.v ===== *)
(** * Where a task may run
    ([duckdb/runners/ray/query_resource_manager.py])

    The decisions of [QueryResourceManager] that change nothing: the bundles
    that keep the stages behind a producer runnable, the search that proves
    them placeable, the choice of a node for a task and its credit, the soft
    share of a stage in each dimension, and the verdict on one request
    ([task_block_reason]), which composes them. *)

From S2P Require Import Prelude PyStr PyVal PyNum AdmissionLedger QueryGraph ResourceState.

#[local] Open Scope string_scope.
#[local] Open Scope list_scope.
#[local] Open Scope Z_scope.

(** [getattr(r, field)] *)
Definition res_dim (d : dimension) (r : ResourceVector) : num :=
  match d with
  | Cpu => NFloat r.(r_cpu) | Gpu => NFloat r.(r_gpu)
  | HeapBytes => NInt r.(r_heap_bytes) | ObjectStoreBytes => NInt r.(r_object_store_bytes)
  end.

Definition is_bytes (d : dimension) : bool := match d with HeapBytes | ObjectStoreBytes => true | _ => false end.

Definition epsilon : num := NFloat (f64_lit 1 1000000000).

Definition strip_node (node : option string) : string := match node with None => "" | Some n => strip n end.

(** [{item.node_id: item.resources for item in node_allocations}] *)
Definition allocation_by_node (m : Manager) : list (string * ResourceVector) :=
  fold_left (fun d n => od_set n.(na_node_id) n.(na_resources) d) m.(m_allocation).(al_nodes) [].

Definition query_limits (m : Manager) : ResourceVector := m.(m_allocation).(al_resources).

(** [_task_commitment] *)
Definition task_commitment (s : StageResourceSpec) : result ResourceVector :=
  with_object_store s.(sp_per_task) (s.(sp_per_task).(r_object_store_bytes) + Stage.output_window_bytes s).

(** Equality of two [ResourceVector]s, field by field. *)
Definition res_eqb (a b : ResourceVector) : bool :=
  f64_eqb a.(r_cpu) b.(r_cpu) && f64_eqb a.(r_gpu) b.(r_gpu) &&
  (a.(r_heap_bytes) =? b.(r_heap_bytes)) && (a.(r_object_store_bytes) =? b.(r_object_store_bytes)).

Definition ress_eqb (a b : list ResourceVector) : bool :=
  bool_decide (length a = length b) && forallb (fun '(x, y) => res_eqb x y) (combine a b).

(** ** The search for a placement of the reserved bundles *)

(** A state of the search that was shown to fail: how many bundles are still
    to be placed, and what is left on the nodes. *)
Definition failed_state : Type := nat * list ResourceVector.

Definition known_failure (left : nat) (remaining : list ResourceVector) (failed : list failed_state) : bool :=
  existsb (fun '(n, r) => bool_decide (n = left) && ress_eqb r remaining) failed.

(** The nodes one bundle fits on, with what it leaves there. *)
Definition bundle_candidates (node_ids : list string) (remaining : list ResourceVector) (r : DownstreamReservation)
    : result (list (nat * ResourceVector)) :=
  rfoldM (fun acc node =>
      match list_find (fun n => n = node) node_ids with
      | None => Ok acc
      | Some (position, _) =>
          match remaining !! position with
          | None => Raise (IndexError "tuple index out of range")
          | Some capacity =>
              if Res.fits_within r.(dr_resources) capacity
              then let* rest := Res.sub capacity r.(dr_resources) in Ok (acc ++ [(position, rest)])
              else Ok acc
          end
      end) [] r.(dr_allowed_node_ids).

Definition candidate_key (limits : ResourceVector) (node_ids : list string) (c : nat * ResourceVector)
    : result (list keyval) :=
  let* share := Res.dominant_share c.2 limits in
  Ok [KNum (NFloat share); KNum (NFloat c.2.(r_gpu)); KNum (NFloat c.2.(r_cpu)); KNum (NInt c.2.(r_heap_bytes));
      KNum (NInt c.2.(r_object_store_bytes)); KStr (nth c.1 node_ids "")].

(** The loop over the candidates of a bundle, where [next] places the others. *)
Fixpoint try_candidates (next : list ResourceVector -> list failed_state -> result (bool * list failed_state))
    (remaining : list ResourceVector) (candidates : list (nat * ResourceVector)) (failed : list failed_state)
    : result (bool * list failed_state) :=
  match candidates with
  | [] => Ok (false, failed)
  | (position, rest) :: candidates =>
      let* (found, failed) := next (<[position := rest]> remaining) failed in
      if found : bool then Ok (true, failed) else try_candidates next remaining candidates failed
  end.

(** [place], with the set of failed states threaded through *)
Fixpoint place (limits : ResourceVector) (node_ids : list string) (ordered : list DownstreamReservation)
    (remaining : list ResourceVector) (failed : list failed_state) : result (bool * list failed_state) :=
  match ordered with
  | [] => Ok (true, failed)
  | r :: rest =>
      if known_failure (length ordered) remaining failed then Ok (false, failed)
      else
        let* candidates := bundle_candidates node_ids remaining r in
        let* candidates := py_sorted_by (candidate_key limits node_ids) candidates in
        let* (found, failed) := try_candidates (place limits node_ids rest) remaining candidates failed in
        if found : bool then Ok (true, failed) else Ok (false, (length ordered, remaining) :: failed)
  end.

Definition reservation_key (limits : ResourceVector) (r : DownstreamReservation) : result (list keyval) :=
  let* share := Res.dominant_share r.(dr_resources) limits in
  Ok [KNum (NInt (Z.of_nat (length r.(dr_allowed_node_ids)))); KNum (NFloat (f64_neg share)); KStr r.(dr_reservation_id)].

(** [_remaining_preserves_downstream_locked] *)
Definition remaining_preserves_downstream (m : Manager) (remaining : list (string * ResourceVector))
    (reservations : list DownstreamReservation) : result bool :=
  if bool_decide (length reservations = O) then Ok true else
  let node_ids := sorted_str (od_keys remaining) in
  let* ordered := py_sorted_by (reservation_key (query_limits m)) reservations in
  let* initial := rmapM (fun node => od_item node remaining) node_ids in
  let* (found, _) := place (query_limits m) node_ids ordered initial [] in
  Ok found.

(** [_placement_preserves_downstream_locked] *)
Definition placement_preserves_downstream (m : Manager) (parent_node : string) (commitment : ResourceVector)
    (reservations : list DownstreamReservation) : result bool :=
  let* remaining := rfoldM (fun acc '(node, capacity) =>
      let* usage := node_usage m node in
      let* usage := if String.eqb node parent_node then Res.add usage commitment else Ok usage in
      if Res.fits_within usage capacity then let* rest := Res.sub capacity usage in Ok (acc ++ [(node, rest)])
      else Ok acc) [] (allocation_by_node m) in
  remaining_preserves_downstream m remaining reservations.

(** ** The choice of nodes *)

(** A node, or why there is none and whether that is final. *)
Definition node_choice : Type := string * option string * bool.

(** [_select_task_node_locked] *)
Definition select_task_node (m : Manager) (requested_node : option string) (commitment : ResourceVector)
    (allowed : option (list string)) (reservations : list DownstreamReservation) : result node_choice :=
  let nodes := allocation_by_node m in
  let requested := strip_node requested_node in
  if negb (String.eqb requested "") && negb (od_mem requested nodes) then Ok ("", Some "node_not_allocated", true) else
  let static := List.filter (fun '(node, capacity) =>
      Res.fits_within commitment capacity && (String.eqb requested "" || String.eqb node requested)
      && match allowed with None => true | Some l => bool_decide (node ∈ l) end) nodes in
  if bool_decide (length static = O) then Ok ("", Some "task_does_not_fit_allocated_node", true) else
  let* (available, debt) := rfoldM (fun '(available, debt) '(node, capacity) =>
      let* usage := node_usage m node in
      if negb (Res.fits_within usage capacity) then Ok (available, true)
      else
        let* remaining := Res.sub capacity usage in
        Ok (if Res.fits_within commitment remaining then available ++ [(node, remaining)] else available, debt))
    ([], false) static in
  if bool_decide (length available = O)
  then Ok ("", Some (if debt : bool then "node_allocation_debt" else "node_capacity"), false) else
  let* safe := if bool_decide (length reservations = O) then Ok available
    else rfoldM (fun acc c =>
        let* b := placement_preserves_downstream m c.1 commitment reservations in
        Ok (if b : bool then acc ++ [c] else acc)) [] available in
  let* best := py_min (fun c => Ok
      [KNum (NFloat (f64_sub c.2.(r_gpu) commitment.(r_gpu))); KNum (NFloat (f64_sub c.2.(r_cpu) commitment.(r_cpu)));
       KNum (NInt (c.2.(r_heap_bytes) - commitment.(r_heap_bytes)));
       KNum (NInt (c.2.(r_object_store_bytes) - commitment.(r_object_store_bytes))); KStr c.1]) safe in
  match best with
  | Some c => Ok (c.1, None, false)
  | None => Ok ("", Some "continuation_node_capacity", false)
  end.

(** The nodes after a task and its credit are placed: [None] when they do not
    fit, with whether a node in debt was met. *)
Fixpoint pair_remaining (m : Manager) (proposed : list (string * ResourceVector)) (nodes : list (string * ResourceVector))
    (acc : list (string * ResourceVector)) : result (option (list (string * ResourceVector)) * bool) :=
  match nodes with
  | [] => Ok (Some acc, false)
  | (node, capacity) :: nodes =>
      let* usage := node_usage m node in
      if negb (Res.fits_within usage capacity) then
        if od_mem node proposed then Ok (None, true) else pair_remaining m proposed nodes acc
      else
        let* after := Res.add usage (od_get_default node Res.zero proposed) in
        if negb (Res.fits_within after capacity) then Ok (None, false)
        else let* rest := Res.sub capacity after in pair_remaining m proposed nodes (acc ++ [(node, rest)])
  end.

Record placement_pair := MkPair {
  pp_task_node : string;
  pp_credit_node : string;
  pp_remaining : list (string * ResourceVector);
}.

(** One pair of nodes in [_select_task_and_credit_nodes_locked]. *)
Definition try_pair (m : Manager) (task credit : ResourceVector) (reservations : list DownstreamReservation)
    (acc : list placement_pair * bool) (pair : string * string) : result (list placement_pair * bool) :=
  let '(found, debt) := acc in
  let '(task_node, credit_node) := pair in
  let proposed := [(task_node, task)] in
  let* on_credit := Res.add (od_get_default credit_node Res.zero proposed) credit in
  let proposed := od_set credit_node on_credit proposed in
  let* (remaining, in_debt) := pair_remaining m proposed (allocation_by_node m) [] in
  match remaining with
  | None => Ok (found, debt || in_debt)
  | Some remaining =>
      let* ok := if bool_decide (length reservations = O) then Ok true
                 else remaining_preserves_downstream m remaining reservations in
      Ok (if ok : bool then found ++ [MkPair task_node credit_node remaining] else found, debt)
  end.

Definition pair_key (c : placement_pair) : result (list keyval) :=
  let* r := od_item c.(pp_task_node) c.(pp_remaining) in
  Ok [KNum (NFloat r.(r_gpu)); KNum (NFloat r.(r_cpu)); KNum (NInt r.(r_heap_bytes));
      KNum (NInt r.(r_object_store_bytes)); KStr c.(pp_task_node); KStr c.(pp_credit_node)].

(** [_select_task_and_credit_nodes_locked] *)
Definition select_task_and_credit_nodes (m : Manager) (requested_node : option string) (task credit : ResourceVector)
    (reservations : list DownstreamReservation) : result (string * string * option string * bool) :=
  let nodes := allocation_by_node m in
  let requested := strip_node requested_node in
  if negb (String.eqb requested "") && negb (od_mem requested nodes) then Ok ("", "", Some "node_not_allocated", true) else
  let task_nodes := od_keys (List.filter (fun '(node, capacity) =>
      Res.fits_within task capacity && (String.eqb requested "" || String.eqb node requested)) nodes) in
  if bool_decide (length task_nodes = O) then Ok ("", "", Some "task_does_not_fit_allocated_node", true) else
  let credit_nodes := od_keys (List.filter (fun '(_, capacity) => Res.fits_within credit capacity) nodes) in
  if bool_decide (length credit_nodes = O) then Ok ("", "", Some "continuation_does_not_fit_allocated_node", true) else
  let* (found, debt) := rfoldM (try_pair m task credit reservations) ([], false) (list_prod task_nodes credit_nodes) in
  let* best := py_min pair_key found in
  match best with
  | Some c => Ok (c.(pp_task_node), c.(pp_credit_node), None, false)
  | None => Ok ("", "", Some (if debt : bool then "node_allocation_debt" else "continuation_node_capacity"), false)
  end.

(** ** Credits and reservations *)

Section Planned.
Context (p : Plan).

(** [self._stages[stage_id]] *)
Definition stage_of (m : Manager) (id : string) : result StageState := od_item id m.(m_stages).

Definition stages_of (m : Manager) (ids : list string) : result (list StageState) := rmapM (stage_of m) ids.

Definition backend_of (b : string) (s : StageState) : bool := String.eqb s.(ss_spec).(sp_backend) b.

(** [_continuation_credit_template_locked] *)
Definition credit_template (m : Manager) (parent : StageResourceSpec) : result (option (list string * string * ResourceVector)) :=
  if negb (Stage.is_worker parent) then Ok None else
  let* reachable := od_item parent.(sp_stage_id) p.(p_reachable_udf) in
  let* states := stages_of m reachable in
  let eligible := map ss_spec (List.filter (fun s => backend_of "ray_task" s && negb s.(ss_completed)) states) in
  if bool_decide (length eligible = O) then Ok None else
  let* commitments := rmapM task_commitment eligible in
  let* resources := component_max commitments in
  let* reservation := py_max (fun s =>
      let* c := task_commitment s in
      let* share := Res.dominant_share c (query_limits m) in
      Ok [KNum (NFloat share); KNum (NInt (- rank_in p.(p_topological) s.(sp_stage_id)))]) eligible in
  match reservation with
  | None => Ok None
  | Some s => Ok (Some (map sp_stage_id eligible, s.(sp_stage_id), resources))
  end.

(** [self._continuation_parent_stage_ids_by_ray_task.get(stage_id)] is not empty *)
Definition borrows_credit (stage : string) : bool := od_mem stage p.(p_continuation_parents).

(** The credit is idle, its parent runs, and it covers the stage. *)
Definition credit_open (stage : string) (commitment : ResourceVector) (c : ContinuationCredit) : bool :=
  c.(cc_parent_active) && bool_decide (c.(cc_borrowed_by) = None) && bool_decide (stage ∈ c.(cc_eligible_stage_ids))
  && Res.fits_within commitment c.(cc_resources).

(** What lending a credit adds to the usage. *)
Definition borrow_increment (m : Manager) (resources : ResourceVector) (window : Z) (c : ContinuationCredit)
    : result ResourceVector :=
  let* prospective := borrowed_task_usage m resources window c in
  let* idle := idle_continuation_output_excess m c in
  positive_difference prospective idle.

Definition credit_key (m : Manager) (usage resources : ResourceVector) (window : Z) (c : ContinuationCredit)
    : result (list keyval) :=
  let* increment := borrow_increment m resources window c in
  let* on_query := Res.add usage increment in
  let query_exceeded := Res.exceeded_dimensions on_query (query_limits m) in
  let* usage := node_usage m c.(cc_node_id) in
  let* on_node := Res.add usage increment in
  let* capacity := od_item c.(cc_node_id) (allocation_by_node m) in
  let node_exceeded := Res.exceeded_dimensions on_node capacity in
  let exceeded := (length query_exceeded + length node_exceeded)%nat in
  let* share := Res.dominant_share increment (query_limits m) in
  Ok [KNum (NInt (if bool_decide (exceeded = O) then 0 else 1)); KNum (NInt (Z.of_nat exceeded)); KNum (NFloat share);
      KNum (NFloat increment.(r_gpu)); KNum (NFloat increment.(r_cpu)); KNum (NInt increment.(r_heap_bytes));
      KNum (NInt increment.(r_object_store_bytes)); KStr c.(cc_credit_id)].

(** [_available_continuation_credit_locked] *)
Definition available_credit (m : Manager) (stage : StageResourceSpec) (requested_node : option string)
    (resources : ResourceVector) (window : Z) (usage : ResourceVector) : result (option ContinuationCredit) :=
  if negb (String.eqb stage.(sp_backend) "ray_task") then Ok None else
  if negb (borrows_credit stage.(sp_stage_id)) then Ok None else
  let requested := strip_node requested_node in
  let* commitment := task_commitment stage in
  py_min (credit_key m usage resources window)
    (List.filter (fun c => credit_open stage.(sp_stage_id) commitment c
        && (String.eqb requested "" || String.eqb c.(cc_node_id) requested)
        && od_mem c.(cc_node_id) (allocation_by_node m)) (od_values m.(m_credits))).

(** A bundle, unless it is empty. *)
Definition reservation (id : string) (stages nodes : list string) (r : ResourceVector) : list DownstreamReservation :=
  if Res.is_zero r then [] else [MkReservation id stages r nodes].

Definition inactive (m : Manager) (stage : string) : bool := active_task_count m stage =? 0.

(** The nodes on which an actor of the stage has no call. *)
Definition free_actor_nodes (m : Manager) (stage : string) : list string :=
  sorted_str (elements (list_to_set (C := gset string) (map ap_node_id (List.filter (fun pl =>
    String.eqb pl.(ap_stage_id) stage && negb (od_mem (stage, pl.(ap_actor_index)) m.(m_active_slots)))
    m.(m_allocation).(al_placements))))).

(** [is_after_streaming_actor] *)
Definition after_streaming_actor (parent : StageResourceSpec) (reachable : list StageState) (stage : string) : result bool :=
  if Stage.is_actor parent then Ok true else
  rfoldM (fun b s =>
      if b : bool then Ok true
      else if backend_of "ray_actor" s
           then let* behind := od_item s.(ss_spec).(sp_stage_id) p.(p_reachable) in Ok (bool_decide (stage ∈ behind))
           else Ok false) false reachable.

(** [_downstream_reservations_locked] *)
Definition downstream_reservations (m : Manager) (parent : StageResourceSpec) : result (list DownstreamReservation) :=
  let id := parent.(sp_stage_id) in
  let* ids := od_item id p.(p_reachable) in
  let* states := stages_of m ids in
  let reachable := List.filter (fun s => negb s.(ss_completed)) states in
  let nodes := sorted_str (map na_node_id m.(m_allocation).(al_nodes)) in
  let* separate := od_item id p.(p_separate_slot) in
  let* separate := stages_of m separate in
  let fte := map ss_spec (List.filter (fun s => negb s.(ss_completed) && inactive m s.(ss_spec).(sp_stage_id)) separate) in
  let* fte_reservations :=
    if bool_decide (length fte = O) then Ok []
    else let* commitments := rmapM task_commitment fte in
         let* r := component_max commitments in
         Ok (reservation ("fte:" +:+ id) (map sp_stage_id fte) nodes r) in
  let* continuations := rfoldM (fun acc s =>
      let sid := s.(ss_spec).(sp_stage_id) in
      if negb (backend_of "ray_task" s) then Ok acc else
      let* after := after_streaming_actor parent reachable sid in
      if negb (after && inactive m sid) then Ok acc else Ok (acc ++ [s.(ss_spec)])) [] reachable in
  let* task_reservations := rmapM (fun s =>
      let* r := task_commitment s in
      Ok (reservation ("actor_continuation:" +:+ id +:+ ":" +:+ s.(sp_stage_id)) [s.(sp_stage_id)] nodes r))
    continuations in
  let* actor_reservations := rmapM (fun s =>
      let sid := s.(ss_spec).(sp_stage_id) in
      let* r := task_commitment s.(ss_spec) in
      Ok (reservation ("actor:" +:+ sid) [sid] (free_actor_nodes m sid) r))
    (List.filter (fun s => backend_of "ray_actor" s && inactive m s.(ss_spec).(sp_stage_id)) reachable) in
  Ok (fte_reservations ++ concat task_reservations ++ concat actor_reservations).

(** [_downstream_reservation_total] *)
Definition reservation_total (l : list DownstreamReservation) : result ResourceVector :=
  add_all Res.zero (map dr_resources l).

(** ** Soft limits *)

(** [_stage_dimension_commitment] *)
Definition dimension_commitment (s : StageResourceSpec) (d : dimension) : num :=
  match d with
  | ObjectStoreBytes => NInt (s.(sp_per_task).(r_object_store_bytes) + Stage.output_window_bytes s)
  | _ => res_dim d s.(sp_per_task)
  end.

Definition positive (a : num) : bool := num_lt (NInt 0) a.

(** [_dimension_live_demand_stage_ids_locked] *)
Definition live_demand (m : Manager) (d : dimension) (requested : option string) : list string :=
  od_keys (List.filter (fun '(id, s) =>
      let task_demand := bool_decide (requested = Some id) || (0 <? s.(ss_pending_task_count))
                         || (0 <? active_task_count m id) in
      let output_demand := (0 <? s.(ss_pending_output_count)) || (0 <? s.(ss_queued_output_bytes))
        || existsb (fun o => String.eqb o.(ol_producer_stage_id) id) (od_values m.(m_output_leases)) in
      s.(ss_runnable) && negb s.(ss_completed)
      && (task_demand || (match d with ObjectStoreBytes => true | _ => false end && output_demand))
      && positive (dimension_commitment s.(ss_spec) d)) m.(m_stages)).

(** [_dimension_continuation_stage_ids_locked] *)
Definition continuation_demand (m : Manager) (d : dimension) (live : list string) : result (list string) :=
  let* ids := rfoldM (fun acc source =>
      let* s := stage_of m source in
      if negb (backend_of "ray_worker" s) then Ok acc else
      let* behind := od_item source p.(p_reachable_udf) in
      rfoldM (fun acc id =>
          let* s := stage_of m id in
          Ok (if negb (bool_decide (id ∈ live)) && negb s.(ss_completed) && positive (dimension_commitment s.(ss_spec) d)
              then {[id]} ∪ acc else acc)) acc behind) (∅ : gset string) live in
  Ok (List.filter (fun id => bool_decide (id ∈ ids)) p.(p_topological)).

(** [_dimension_reservation_stage_ids_locked] for a requested stage *)
Definition reservation_stages (m : Manager) (d : dimension) (requested : string) : result (list string) :=
  let live := live_demand m d (Some requested) in
  let* s := stage_of m requested in
  if negb (backend_of "ray_worker" s) then Ok live else
  let* more := continuation_demand m d live in
  Ok (List.filter (fun id => bool_decide (id ∈ live) || bool_decide (id ∈ more)) p.(p_topological)).

(** How many tasks of a stage one dimension of the query holds. *)
Definition dimension_bound (limits commitment : ResourceVector) (d : dimension) : result (option Z) :=
  let per_task := res_dim d commitment in
  if num_le per_task (NInt 0) then Ok None else
  match per_task, res_dim d limits with
  | NInt n, NInt limit => Ok (Some (limit / n))
  | NFloat x, NFloat limit =>
      let* n := f64_floor (f64_div (f64_add limit (f64_lit 1 1000000000)) x) in Ok (Some n)
  | _, _ => Ok None
  end.

(** [_stage_dimension_maximum_locked]; no bound is [math.inf] *)
Definition dimension_maximum (m : Manager) (s : StageResourceSpec) (d : dimension) : result num :=
  let concurrency := if Stage.is_actor s then Some s.(sp_actor_min_size) else s.(sp_max_concurrency) in
  let* commitment := task_commitment s in
  let* bound := rfoldM (fun bound d =>
      let* b := dimension_bound (query_limits m) commitment d in
      Ok (match bound, b with Some x, Some y => Some (Z.min x y) | None, y => y | x, None => x end))
    concurrency dimensions in
  match bound with
  | None => Ok (res_dim d (query_limits m))
  | Some n => num_mul (dimension_commitment s d) (NInt (Z.max 0 n))
  end.

(** The share each stage of a dimension has for itself. *)
Definition reserved_shares (m : Manager) (d : dimension) (ids : list string) : result (list (string * num)) :=
  let limit := res_dim d (query_limits m) in
  let* specs := rmapM (fun id => let* s := stage_of m id in Ok (id, s.(ss_spec))) ids in
  let minimum := map (fun '(id, s) => (id, dimension_commitment s d)) specs in
  let* total := num_sum (map snd minimum) in
  let* slack := num_add limit epsilon in
  let* shares :=
    if num_le total slack then
      let* rest := num_sub limit total in
      let* pool := num_mul (num_max (NFloat f64_zero) rest) (NFloat p.(p_ratio)) in
      let* pool := num_float pool in
      let* bonus := float_div pool (NInt (Z.of_nat (length ids))) in
      rmapM (fun '(id, n) => let* r := num_add n (NFloat bonus) in Ok (id, r)) minimum
    else
      let* pool := num_mul limit (NFloat p.(p_ratio)) in
      rmapM (fun '(id, n) =>
          let* x := num_mul pool n in
          let* x := num_float x in
          let* x := float_div x total in Ok (id, NFloat x)) minimum in
  let* maxima := rmapM (fun '(id, s) => let* x := dimension_maximum m s d in Ok (id, x)) specs in
  let* capped := rmapM (fun '(id, r) => let* x := od_item id maxima in Ok (id, num_min r x)) shares in
  if is_bytes d then rmapM (fun '(id, r) => let* n := num_floor r in Ok (id, NInt n)) capped else Ok capped.

(** One dimension of [_stage_soft_block_reason_locked]: whether it blocks. *)
Definition soft_blocked (m : Manager) (usage : list (string * ResourceVector)) (stage : string) (request : ResourceVector)
    (d : dimension) : result bool :=
  let amount := res_dim d request in
  if num_le amount (NInt 0) then Ok false else
  let* ids := reservation_stages m d stage in
  if negb (bool_decide (stage ∈ ids))
  then Raise (RuntimeError ("stage " +:+ stage +:+ " requested undeclared " +:+ dimension_name d +:+ " capacity")) else
  let limit := res_dim d (query_limits m) in
  let* shares := reserved_shares m d ids in
  let* reserved := od_item stage shares in
  let* current := od_item stage usage in
  let current := res_dim d current in
  let* wanted := num_add current amount in
  let* bound := num_add reserved epsilon in
  if num_le wanted bound then Ok false else
  let* given := num_sum (map snd shares) in
  let* rest := num_sub limit given in
  let pool := num_max (NFloat f64_zero) rest in
  let* over := rmapM (fun '(id, share) =>
      let* u := od_item id usage in
      let* x := num_sub (res_dim d u) share in Ok (num_max (NFloat f64_zero) x)) shares in
  let* used := num_sum over in
  let* own := num_sub reserved current in
  let* need := num_sub amount (num_max (NFloat f64_zero) own) in
  let* demand := num_add used need in
  let* pool := num_add pool epsilon in
  Ok (num_lt pool demand).

Fixpoint first_soft (m : Manager) (usage : list (string * ResourceVector)) (stage : string) (request : ResourceVector)
    (ds : list dimension) : result (option string) :=
  match ds with
  | [] => Ok None
  | d :: ds =>
      let* b := soft_blocked m usage stage request d in
      if b : bool then Ok (Some ("stage_soft_" +:+ dimension_name d)) else first_soft m usage stage request ds
  end.

(** [_stage_soft_block_reason_locked] *)
Definition stage_soft_block_reason (m : Manager) (stage : string) (request : ResourceVector) : result (option string) :=
  let* usage := rmapM (fun id => let* u := stage_usage p m id in Ok (id, u)) (od_keys m.(m_stages)) in
  let* _ := od_item stage usage in
  first_soft m usage stage request dimensions.

(** ** The verdict on a request *)

(** [_actor_slot_lease_count_locked] *)
Definition actor_slot_lease_count (m : Manager) (slot : string * Z) : Z :=
  (if od_mem slot m.(m_active_slots) then 1 else 0) + Z.of_nat (length (od_get_default slot [] m.(m_queued_slots))).

(** The actors of a stage that can take one more call, by node. *)
Definition free_actor_indices (m : Manager) (s : StageResourceSpec) : list (string * list Z) :=
  fold_left (fun acc pl =>
      if negb (String.eqb pl.(ap_stage_id) s.(sp_stage_id)) then acc
      else if s.(sp_actor_prefetch_depth) <=? actor_slot_lease_count m (s.(sp_stage_id), pl.(ap_actor_index)) then acc
      else od_set pl.(ap_node_id) (od_get_default pl.(ap_node_id) [] acc ++ [pl.(ap_actor_index)]) acc)
    m.(m_allocation).(al_placements) [].

Definition verdict : Type := option string * bool * TaskAdmissionPlan.

Definition blocked (reason : string) : result verdict := Ok (Some reason, false, empty_plan).
Definition refused (reason : string) : result verdict := Ok (Some reason, true, empty_plan).

(** A stage in front of the producer that could run but has not started. *)
Definition starving_reader (m : Manager) (stage : string) : result bool :=
  rfoldM (fun b id =>
      if b : bool then Ok true
      else if bool_decide (id ∈ m.(m_started)) then Ok false
      else let* s := stage_of m id in Ok (s.(ss_runnable) && negb s.(ss_completed)))
    false (elements (default ∅ (p.(p_direct_downstream) !! stage))).

(** The actor of the selected node with the fewest calls. *)
Definition choose_actor (m : Manager) (s : StageResourceSpec) (free : list (string * list Z)) (node : string)
    : result (option Z) :=
  let* best := py_min (fun i => Ok [KNum (NInt (actor_slot_lease_count m (s.(sp_stage_id), i))); KNum (NInt i)])
    (od_get_default node [] free) in
  match best with
  | None => Raise (RuntimeError "selected actor node has no free concrete actor slot")
  | Some i => Ok (Some i)
  end.

(** The last checks, once the nodes are known. *)
Definition soft_verdict (m : Manager) (s : StageResourceSpec) (commitment : ResourceVector) (borrows : bool)
    (plan : TaskAdmissionPlan) : result verdict :=
  let* starving := if 0 <? active_task_count m s.(sp_stage_id) then starving_reader m s.(sp_stage_id) else Ok false in
  if starving : bool then Ok (Some "stage_soft_limit", false, plan) else
  if borrows : bool then Ok (None, false, plan) else
  let* soft := stage_soft_block_reason m s.(sp_stage_id) commitment in
  Ok (soft, false, plan).

(** What a request asks for: its vector and its vector with the output window. *)
Record demand := MkDemand {
  d_resources : ResourceVector;
  d_window : Z;
  d_commitment : ResourceVector;
}.

(** The choice of nodes and of the actor, and the plan made of them. *)
Definition place_task (m : Manager) (request : TaskRequest) (s : StageResourceSpec) (d : demand)
    (free : option (list (string * list Z))) (borrowed : option ContinuationCredit)
    (template : option (list string * string * ResourceVector)) (admission : ResourceVector)
    (reservations : list DownstreamReservation) : result verdict :=
  let* (node, reason, fatal, new_credit) :=
    match template with
    | Some (eligible, stage, resources) =>
        let* (node, credit_node, reason, fatal) :=
          select_task_and_credit_nodes m request.(tr_node_id) d.(d_commitment) resources reservations in
        Ok (node, reason, fatal, Some (MkNewCredit eligible stage credit_node resources))
    | None =>
        let allowed := match borrowed, free with
          | Some c, _ => Some [c.(cc_node_id)]
          | None, Some f => Some (od_keys f)
          | None, None => None
          end in
        let* (node, reason, fatal) := select_task_node m request.(tr_node_id) admission allowed reservations in
        Ok (node, reason, fatal, None)
    end in
  match reason with
  | Some reason => Ok (Some reason, fatal, empty_plan)
  | None =>
      let* actor := match free with Some f => choose_actor m s f node | None => Ok None end in
      soft_verdict m s d.(d_commitment) (bool_decide (is_Some borrowed))
        (MkPlan d.(d_resources) d.(d_window) node actor new_credit (option_map cc_credit_id borrowed))
  end.

(** The hard limits of the query, and the nodes after them. *)
Definition fit_task (m : Manager) (request : TaskRequest) (s : StageResourceSpec) (d : demand)
    (free : option (list (string * list Z))) : result verdict :=
  let limits := query_limits m in
  let* usage := query_usage m in
  let* debt := positive_difference usage limits in
  if negb (Res.is_zero debt) then blocked "allocation_debt" else
  let* borrowed := available_credit m s request.(tr_node_id) d.(d_resources) d.(d_window) usage in
  let* template := credit_template m s in
  let credit := match template with Some (_, _, r) => r | None => Res.zero end in
  let* admission := Res.add d.(d_commitment) credit in
  let* admission := match borrowed with
    | Some c => borrow_increment m d.(d_resources) d.(d_window) c
    | None => Ok admission
    end in
  let* after := Res.add usage admission in
  match Res.exceeded_dimensions after limits with
  | dim :: _ =>
      blocked (if bool_decide (is_Some template) then "continuation_capacity" else "hard_" +:+ dimension_name dim)
  | [] =>
      let* reservations := downstream_reservations m s in
      let* room := if bool_decide (length reservations = O) then Ok true
        else let* remaining := Res.sub limits after in
             let* total := reservation_total reservations in
             Ok (Res.fits_within total remaining) in
      if negb room then blocked "continuation_capacity" else
      place_task m request s d free borrowed template admission reservations
  end.

(** The demand of a request on its stage, once a slot is known to be free. *)
Definition admit_task (m : Manager) (request : TaskRequest) (s : StageResourceSpec)
    (free : option (list (string * list Z))) : result verdict :=
  let retained := default s.(sp_per_task).(r_object_store_bytes) request.(tr_retained_input_bytes) in
  if retained <? 0 then refused "invalid_retained_input_bytes" else
  let* resources := with_object_store s.(sp_per_task) retained in
  let window := Stage.output_window_bytes s in
  let* commitment := with_object_store resources (retained + window) in
  match Res.exceeded_dimensions commitment (query_limits m) with
  | _ :: _ => refused "task_exceeds_query_allocation"
  | [] => fit_task m request s (MkDemand resources window commitment) free
  end.

(** [_normal_task_block_reason_locked] *)
Definition task_block_reason (m : Manager) (request : TaskRequest) (hypothetical : bool) : result verdict :=
  if m.(m_cancelled) then refused "query_cancelled" else
  if negb m.(m_admission_open) then blocked "allocation_pending" else
  if negb (String.eqb request.(tr_query_id) p.(p_graph).(g_query_id)) then refused "query_id_mismatch" else
  match od_get request.(tr_stage_id) m.(m_stages) with
  | None => refused "stage_not_registered"
  | Some stage =>
      let s := stage.(ss_spec) in
      if stage.(ss_completed) then refused "stage_completed" else
      if negb stage.(ss_runnable) then blocked "stage_not_runnable" else
      if Stage.is_actor s && negb stage.(ss_actor_ready) then blocked "actor_not_ready" else
      let attempt := (strip request.(tr_task_id), strip request.(tr_attempt_id)) in
      if String.eqb attempt.1 "" || String.eqb attempt.2 "" then refused "invalid_task_identity" else
      if negb hypothetical && BSet.contains attempt m.(m_terminal_attempts) then refused "attempt_terminal" else
      if negb hypothetical && od_mem attempt m.(m_active_attempts) then refused "attempt_already_active" else
      if match s.(sp_max_concurrency) with Some n => n <=? active_task_count m s.(sp_stage_id) | None => false end
      then blocked "stage_concurrency" else
      if Stage.is_actor s then
        let free := free_actor_indices m s in
        if bool_decide (length free = O) then blocked "actor_slot" else admit_task m request s (Some free)
      else admit_task m request s None
  end.

(** ** Nodes a stage could ever use *)

Fixpoint rexists {A} (f : A -> result bool) (l : list A) : result bool :=
  match l with
  | [] => Ok false
  | a :: l => let* b := f a in if b : bool then Ok true else rexists f l
  end.

(** [preserves_registered_minimum] *)
Definition preserves_minimum (m : Manager) (commitment credit : ResourceVector) (reservations : list DownstreamReservation)
    (base : list (string * ResourceVector)) (node : string) : result bool :=
  match od_get node base with
  | None => Ok false
  | Some capacity =>
      if negb (Res.fits_within commitment capacity) then Ok false else
      let* rest := Res.sub capacity commitment in
      let after := od_set node rest base in
      if Res.is_zero credit then remaining_preserves_downstream m after reservations
      else rexists (fun credit_node =>
          let* capacity := od_item credit_node after in
          if negb (Res.fits_within credit capacity) then Ok false else
          let* rest := Res.sub capacity credit in
          remaining_preserves_downstream m (od_set credit_node rest after) reservations) (sorted_str (od_keys after))
  end.

(** [dict.fromkeys(l)]: the first occurrence of every element *)
Definition unique {A} `{EqDecision A} (l : list A) : list A :=
  fold_left (fun acc a => if bool_decide (a ∈ acc) then acc else acc ++ [a]) l [].

Definition task_eligible_node_ids (m : Manager) (stage_id : string) : result (list string) :=
  if negb m.(m_admission_open) then Ok [] else
  match od_get stage_id m.(m_stages) with
  | None => Raise (KeyError ("stage is not registered: " +:+ stage_id))
  | Some stage =>
      let s := stage.(ss_spec) in
      let id := s.(sp_stage_id) in
      let* commitment := Stage.task_commitment s in
      if borrows_credit id then
        Ok (unique (map cc_node_id (List.filter (credit_open id commitment) (od_values m.(m_credits)))))
      else
        let* template := credit_template m s in
        let credit := match template with Some (_, _, r) => r | None => Res.zero end in
        let* reservations := downstream_reservations m s in
        let* base := rfoldM (fun acc '(node, capacity) =>
            let* resident := actor_resident_usage m (Some node) None in
            if Res.fits_within resident capacity then let* rest := Res.sub capacity resident in Ok (acc ++ [(node, rest)])
            else Ok acc) [] (allocation_by_node m) in
        rfoldM (fun acc n =>
            let node := n.(na_node_id) in
            let* ok := preserves_minimum m commitment credit reservations base node in
            Ok (if ok && (negb (Stage.is_actor s)
                          || bool_decide (node ∈ Allocation.actor_node_ids_for_stage m.(m_allocation) id))
                then acc ++ [node] else acc)) [] m.(m_allocation).(al_nodes)
  end.

End Planned.
