(* ===== verification/ResourceManager.v ===== *)
(** * The resource manager of a query: its operations
    ([duckdb/runners/ray/query_resource_manager.py])

    Every public method of [QueryResourceManager] and of
    [OutputBlockLeaseOwner] as a computation on the [Manager]: the waiters,
    the grants of task and output leases with their arbitration, the return
    of leases and credits, cancellation.  [snapshot], which only reports, and
    the wake-up callback [on_change] are left out; [publish] counts the
    epoch.  [call] lists the methods, so that a history is a list of calls. *)

From S2P Require Import Prelude PyStr PyVal PyNum AdmissionLedger QueryGraph ResourceState ResourcePlacement.

#[local] Open Scope string_scope.
#[local] Open Scope list_scope.
#[local] Open Scope Z_scope.

Definition soft_task_reasons : list string :=
  ["stage_soft_cpu"; "stage_soft_gpu"; "stage_soft_heap_bytes"; "stage_soft_object_store_bytes"; "stage_soft_limit"].
Definition soft_output_reasons : list string := ["stage_soft_object_store_bytes"; "stage_soft_limit"].

Definition is_soft (reasons : list string) (r : option string) : bool :=
  match r with Some r => existsb (String.eqb r) reasons | None => false end.

Definition grant_lease (l : TaskLease) (liveness : bool) : TaskGrant := MkTaskGrant true (Some l) "" false liveness 0.
Definition deny (reason : string) (fatal : bool) : TaskGrant := MkTaskGrant false None reason fatal false 0.
Definition grant_output (l : OutputBlockLease) (liveness : bool) : OutputBlockGrant :=
  MkOutputGrant true (Some l) "" false liveness.
Definition deny_output (reason : string) (fatal : bool) : OutputBlockGrant := MkOutputGrant false None reason fatal false.

Section Operations.
Context (p : Plan) (uuid : nat -> string).

(** [uuid.uuid4().hex] *)
Definition draw : ST Manager string := fun m => (Ok (uuid m.(m_drawn)), m <| m_drawn ::= S |>).

(** [_publish_change_locked] *)
Definition publish : ST Manager unit := smodify (fun m => m <| m_epoch ::= Z.succ |>).

(** A change of [self._stages[id]], which may look at the manager. *)
Definition on_stage (id : string) (f : Manager -> StageState -> StageState) : ST Manager unit :=
  fun m => match od_get id m.(m_stages) with
           | None => (Raise (KeyError (repr_str id)), m)
           | Some s => (Ok tt, m <| m_stages := od_set id (f m s) m.(m_stages) |>)
           end.

(** [_recompute_stage_queued_input_locked] *)
Definition recompute_input (id : string) : ST Manager unit :=
  on_stage id (fun m s =>
    let waiting := map snd (List.filter (fun v => String.eqb v.1.(tr_stage_id) id) (od_values m.(m_waiting_tasks))) in
    s <| ss_pending_task_count := Z.of_nat (length waiting) |> <| ss_queued_input_bytes := zsum waiting |>).

(** [_recompute_stage_queued_output_locked] *)
Definition recompute_output (id : string) : ST Manager unit :=
  on_stage id (fun m s =>
    let waiting := map or_size_bytes
      (List.filter (fun r => String.eqb r.(or_producer_stage_id) id) (od_values m.(m_waiting_outputs))) in
    let leased := output_bytes (fun o => String.eqb o.(ol_producer_stage_id) id
      && bool_decide (o.(ol_state) ∈ [GeneratorPending; StageQueue])) m in
    s <| ss_pending_output_count := Z.of_nat (length waiting) |> <| ss_queued_output_bytes := zsum waiting + leased |>).

(** The fields of a stage [update_stage_state] compares. *)
Definition stage_tuple (s : StageState) : bool * bool * Z * Z * Z * Z * bool :=
  (s.(ss_runnable), s.(ss_actor_ready), s.(ss_queued_input_bytes), s.(ss_pending_task_count),
   s.(ss_queued_output_bytes), s.(ss_pending_output_count), s.(ss_completed)).

Definition registered (id : string) : ST Manager StageState :=
  let! m := sget in
  match od_get id m.(m_stages) with
  | None => sraise (KeyError ("stage is not registered: " +:+ id))
  | Some s => sret s
  end.

Definition update_stage_state (id : string) (runnable : bool) (actor_ready : option bool) (completed : bool)
    : ST Manager unit :=
  let! before := registered id in
  let! _ := on_stage id (fun _ s => s <| ss_runnable := runnable && negb completed |>
                                      <| ss_actor_ready ::= fun old => default old actor_ready |>) in
  let! _ := recompute_input id in
  let! _ := recompute_output id in
  let! _ := on_stage id (fun _ s => s <| ss_completed := completed |>) in
  let! after := registered id in
  if bool_decide (stage_tuple after = stage_tuple before) then sret tt else publish.

(** ** Waiters *)

Definition note_task_waiting (r : TaskRequest) : ST Manager unit :=
  let! m := sget in
  let! _ := sraise_if (negb (String.eqb r.(tr_query_id) p.(p_graph).(g_query_id)))
    (ValueError "queued task query_id does not match resource manager") in
  let id := r.(tr_stage_id) in
  let! stage := registered id in
  let key := (strip r.(tr_task_id), strip r.(tr_attempt_id)) in
  let! _ := sraise_if (String.eqb key.1 "" || String.eqb key.2 "") (ValueError "queued task identity must be non-empty") in
  let most := stage.(ss_spec).(sp_per_task).(r_object_store_bytes) in
  let retained := default most r.(tr_retained_input_bytes) in
  let! _ := sraise_if ((retained <? 0) || (most <? retained))
    (ValueError "queued task retained input is outside its stage resource spec") in
  let value := (r, Z.max 1 retained) in
  match od_get key m.(m_waiting_tasks) with
  | Some old => sraise_if (negb (bool_decide (old = value))) (ValueError "queued task identity was reused with different work")
  | None =>
      let! _ := smodify (fun m => m <| m_waiting_tasks ::= od_set key value |>) in
      let! _ := on_stage id (fun _ s => s <| ss_runnable := negb s.(ss_completed) |>) in
      let! _ := recompute_input id in
      publish
  end.

Definition remove_task_waiter (task attempt : string) : ST Manager bool :=
  let! m := sget in
  match od_get (task, attempt) m.(m_waiting_tasks) with
  | None => sret false
  | Some (r, _) =>
      let! _ := smodify (fun m => m <| m_waiting_tasks ::= od_pop (task, attempt) |>) in
      let! _ := recompute_input r.(tr_stage_id) in
      let! _ := publish in
      sret true
  end.

Definition mark_task_attempt_terminal (task attempt : string) : ST Manager unit :=
  let! m := sget in
  let key := (task, attempt) in
  let! _ := sraise_if (od_mem key m.(m_active_attempts) || od_mem key m.(m_waiting_tasks))
    (RuntimeError "cannot terminalize an active or waiting task attempt") in
  let! _ := smodify (fun m => m <| m_terminal_attempts ::= BSet.add key |>) in
  publish.

Definition note_output_waiting (r : OutputBlockRequest) : ST Manager unit :=
  let! m := sget in
  let! _ := sraise_if (negb (String.eqb r.(or_query_id) p.(p_graph).(g_query_id)))
    (ValueError "queued output query_id does not match resource manager") in
  let id := r.(or_producer_stage_id) in
  let! _ := registered id in
  let block := strip r.(or_block_id) in
  let! _ := sraise_if (String.eqb block "" || (r.(or_size_bytes) <=? 0))
    (ValueError "queued output requires a non-empty block_id and positive size") in
  let! _ := sraise_if (match od_get block m.(m_waiting_outputs) with Some old => negb (bool_decide (old = r)) | None => false end)
    (ValueError "queued output block_id was reused with different work") in
  let! _ := smodify (fun m => m <| m_waiting_outputs ::= od_set block r |>) in
  let! _ := recompute_output id in
  publish.

Definition remove_output_waiter (block : string) : ST Manager bool :=
  let! m := sget in
  match od_get block m.(m_waiting_outputs) with
  | None => sret false
  | Some r =>
      let! _ := smodify (fun m => m <| m_waiting_outputs ::= od_pop block |>) in
      let! _ := recompute_output r.(or_producer_stage_id) in
      let! _ := publish in
      sret true
  end.

Definition mark_output_block_terminal (block : string) : ST Manager unit :=
  let! m := sget in
  let! _ := sraise_if (od_mem block m.(m_output_by_block) || od_mem block m.(m_waiting_outputs))
    (RuntimeError "cannot terminalize an active or waiting output block") in
  let! _ := smodify (fun m => m <| m_terminal_blocks ::= BSet.add block |>) in
  publish.

(** ** Settings *)

Definition set_external_consumer_waiting (waiting : bool) : ST Manager unit :=
  let! m := sget in
  if Bool.eqb m.(m_external_waiting) waiting then sret tt
  else let! _ := smodify (fun m => m <| m_external_waiting := waiting |>) in publish.

Definition set_stage_actor_ready (id : string) (ready : bool) : ST Manager unit :=
  let! stage := registered id in
  let! _ := sraise_if (negb (Stage.is_actor stage.(ss_spec))) (ValueError ("stage is not a Ray actor stage: " +:+ id)) in
  if Bool.eqb stage.(ss_actor_ready) ready then sret tt
  else let! _ := on_stage id (fun _ s => s <| ss_actor_ready := ready |>) in publish.

Definition update_allocation (a : QueryAllocation) (admission_open : bool) : ST Manager unit :=
  let! m := sget in
  let! _ := sraise_if (a.(al_generation) <=? m.(m_allocation).(al_generation))
    (ValueError ("allocation generation must increase: current=" +:+ str_of_int m.(m_allocation).(al_generation)
      +:+ " new=" +:+ str_of_int a.(al_generation))) in
  let! _ := slift (Graph.validate_allocation p.(p_graph) a false) in
  let! _ := smodify (fun m => m <| m_allocation := a |> <| m_admission_open := admission_open |>) in
  publish.

Definition close_admission : ST Manager unit :=
  let! m := sget in
  if m.(m_admission_open) then let! _ := smodify (fun m => m <| m_admission_open := false |>) in publish
  else sret tt.

(** ** Grants of tasks *)

(** Book the lease on its actor: the first call runs, the others queue. *)
Definition book_slot (slot : string * Z) (lease_id : string) (m : Manager) : Manager :=
  if od_mem slot m.(m_active_slots)
  then m <| m_queued_slots ::= od_set slot (od_get_default slot [] m.(m_queued_slots) ++ [lease_id]) |>
  else m <| m_active_slots ::= od_set slot lease_id |>.

(** The credit of a new lease: one of its own, a borrowed one, or none. *)
Definition take_credit (plan : TaskAdmissionPlan) (l : TaskLease) : ST Manager unit :=
  let! m := sget in
  match plan.(pl_new_credit), plan.(pl_borrowed_credit_id) with
  | Some nc, _ =>
      let! id := draw in
      let credit := MkCredit id l.(tl_lease_id) l.(tl_stage_id) nc.(nc_eligible_stage_ids) nc.(nc_reservation_stage_id)
        nc.(nc_node_id) nc.(nc_resources) m.(m_allocation).(al_generation) None true in
      smodify (fun m => m <| m_credits ::= od_set id credit |> <| m_credit_by_parent ::= od_set l.(tl_lease_id) id |>)
  | None, Some credit_id =>
      match od_get credit_id m.(m_credits) with
      | Some c =>
          if c.(cc_parent_active) && bool_decide (c.(cc_borrowed_by) = None)
             && bool_decide (l.(tl_stage_id) ∈ c.(cc_eligible_stage_ids)) && String.eqb c.(cc_node_id) l.(tl_node_id)
          then smodify (fun m => m <| m_credits ::= od_set credit_id (c <| cc_borrowed_by := Some l.(tl_lease_id) |>) |>
                                   <| m_credit_by_borrower ::= od_set l.(tl_lease_id) c.(cc_credit_id) |>)
          else sraise (RuntimeError "continuation credit changed during atomic task admission")
      | None => sraise (RuntimeError "continuation credit changed during atomic task admission")
      end
  | None, None => sret tt
  end.

(** [_grant_task_locked] *)
Definition grant_task (r : TaskRequest) (plan : TaskAdmissionPlan) (liveness : bool) : ST Manager TaskGrant :=
  let! _ := sraise_if (String.eqb (strip plan.(pl_node_id)) "")
    (RuntimeError "cannot grant a query task lease without a concrete Ray node") in
  let! _ := sraise_if (bool_decide (is_Some plan.(pl_new_credit)) && bool_decide (is_Some plan.(pl_borrowed_credit_id)))
    (RuntimeError "task admission cannot create and borrow a continuation credit") in
  let! m := sget in
  let! state := slift (stage_of m r.(tr_stage_id)) in
  let stage := state.(ss_spec) in
  let! lease_id := draw in
  let! (slot, slot_name) :=
    if Stage.is_actor stage then
      match plan.(pl_actor_index) with
      | None => sraise (RuntimeError "Ray actor task admission requires a concrete actor slot")
      | Some i =>
          let slot := (stage.(sp_stage_id), i) in
          if stage.(sp_actor_prefetch_depth) <=? actor_slot_lease_count m slot
          then sraise (RuntimeError "Ray actor prefetch slot changed during atomic task admission")
          else sret (Some slot, "ray_actor:" +:+ stage.(sp_stage_id) +:+ ":" +:+ str_of_int i)
      end
    else sret (None, stage.(sp_backend) +:+ ":" +:+ stage.(sp_stage_id) +:+ ":" +:+ lease_id) in
  let lease := MkTaskLease lease_id p.(p_graph).(g_query_id) r.(tr_stage_id) r.(tr_task_id) r.(tr_attempt_id)
    plan.(pl_node_id) slot_name plan.(pl_actor_index) plan.(pl_resources) plan.(pl_output_window_bytes) liveness
    m.(m_allocation).(al_generation) in
  let attempt := (r.(tr_task_id), r.(tr_attempt_id)) in
  let! _ := smodify (fun m => m <| m_task_leases ::= od_set lease_id lease |>
                                <| m_active_attempts ::= od_set attempt lease_id |>) in
  let! _ := match slot with Some slot => smodify (book_slot slot lease_id) | None => sret tt end in
  let! _ := take_credit plan lease in
  let! _ := smodify (fun m => m <| m_waiting_tasks ::= od_pop attempt |>) in
  let! _ := recompute_input r.(tr_stage_id) in
  let! _ := smodify (fun m => m <| m_started ::= fun started => {[r.(tr_stage_id)]} ∪ started |>) in
  let! _ := if liveness then smodify (fun m => m <| m_liveness_task := Some lease_id |> <| m_task_liveness_total ::= Z.succ |>)
            else sret tt in
  let! _ := publish in
  sret (grant_lease lease liveness).

(** ** Arbitration *)

Definition rank_key (r : Z * Z * Z) : list keyval := [KNum (NInt r.1.1); KNum (NInt r.1.2); KNum (NInt r.2)].

(** [self._reverse_topological_rank[stage]] *)
Definition reverse_rank (id : string) : result Z :=
  if bool_decide (id ∈ p.(p_topological)) then Ok (rank_in (rev p.(p_topological)) id) else Raise (KeyError (repr_str id)).

(** [_waiting_task_rank_locked] *)
Definition waiting_task_rank (m : Manager) (r : TaskRequest) (order : Z) : result (Z * Z * Z) :=
  let* rank := reverse_rank r.(tr_stage_id) in
  Ok (rank, active_task_count m r.(tr_stage_id), order).

(** One entry of [_evaluate_waiting_tasks_locked]. *)
Definition evaluate_task (m : Manager) (hypothetical : bool) (order : Z) (r : TaskRequest) : result QueuedTaskEvaluation :=
  let* (reason, fatal, plan) := task_block_reason p m r hypothetical in
  let* rank := waiting_task_rank m r order in
  Ok (MkEvaluation rank r reason fatal plan).

Fixpoint evaluate_tasks (m : Manager) (hypothetical : bool) (order : Z) (l : list TaskRequest)
    : result (list QueuedTaskEvaluation) :=
  match l with
  | [] => Ok []
  | r :: l =>
      let* e := evaluate_task m hypothetical order r in
      let* es := evaluate_tasks m hypothetical (order + 1) l in Ok (e :: es)
  end.

Definition waiting_requests (m : Manager) : list TaskRequest := map fst (od_values m.(m_waiting_tasks)).

(** [_evaluate_waiting_tasks_locked] *)
Definition evaluate_waiting (m : Manager) (hypothetical : bool) : result (list QueuedTaskEvaluation) :=
  evaluate_tasks m hypothetical 0 (waiting_requests m).

Definition first_by_rank (l : list QueuedTaskEvaluation) : result (option QueuedTaskEvaluation) :=
  py_min (fun e => Ok (rank_key e.(qe_rank))) l.

Definition admissible (e : QueuedTaskEvaluation) : bool := negb e.(qe_fatal) && bool_decide (e.(qe_reason) = None).
Definition softly_blocked (e : QueuedTaskEvaluation) : bool :=
  negb e.(qe_fatal) && is_soft soft_task_reasons e.(qe_reason).

(** A stage with queued input and nothing running. *)
Definition starved (m : Manager) (id : string) : result bool :=
  let* s := stage_of m id in Ok ((0 <? s.(ss_queued_input_bytes)) && (active_task_count m id =? 0)).

(** [(starving or candidates)[0]] *)
Definition starved_first (m : Manager) (ids : list string) : result (option string) :=
  let* starving := rfoldM (fun acc id => let* b := starved m id in Ok (if b : bool then acc ++ [id] else acc)) [] ids in
  Ok (head (match starving with [] => ids | l => l end)).

(** [_select_waiting_task_evaluation_locked] *)
Definition select_evaluation (m : Manager) (l : list QueuedTaskEvaluation) : result (option QueuedTaskEvaluation) :=
  let normal := List.filter admissible l in
  if negb (bool_decide (length normal = O)) then first_by_rank normal else
  let soft := List.filter softly_blocked l in
  if bool_decide (length soft = O) then Ok None else
  let stage_of_item e := e.(qe_request).(tr_stage_id) in
  let ids := List.filter (fun id => bool_decide (id ∈ map stage_of_item soft)) (rev p.(p_topological)) in
  let* preferred := starved_first m ids in
  match preferred with
  | None => Raise (IndexError "list index out of range")
  | Some id => first_by_rank (List.filter (fun e => String.eqb (stage_of_item e) id) soft)
  end.

(** A task is running that somebody can wait for. *)
Definition liveness_not_needed (m : Manager) : bool :=
  negb (bool_decide (length m.(m_task_leases) = O)) && negb m.(m_external_waiting).

(** [_queued_liveness_block_reason_locked] *)
Definition queued_liveness_block (m : Manager) (l : list QueuedTaskEvaluation) : option string :=
  if bool_decide (is_Some m.(m_liveness_task)) then Some "liveness_task_active"
  else if liveness_not_needed m then Some "liveness_not_needed"
  else if existsb admissible l then Some "normal_candidate_available"
  else None.

(** The request of a stage nobody has asked for yet. *)
Definition hypothetical_request (id : string) (s : StageState) : TaskRequest :=
  MkTaskRequest p.(p_graph).(g_query_id) id ("hypothetical:" +:+ id) "hypothetical" None
    (Some s.(ss_spec).(sp_per_task).(r_object_store_bytes)).

Definition live_stage (s : StageState) : bool := s.(ss_runnable) && negb s.(ss_completed).

(** [_has_normal_task_candidate_locked] *)
Definition has_normal_candidate (m : Manager) : result bool :=
  let grantable r := let* (reason, _, _) := task_block_reason p m r true in Ok (bool_decide (reason = None)) in
  if negb (bool_decide (length m.(m_waiting_tasks) = O)) then rexists grantable (waiting_requests m)
  else rexists (fun '(id, s) => if live_stage s then grantable (hypothetical_request id s) else Ok false) m.(m_stages).

(** [_preferred_liveness_stage_locked] *)
Definition preferred_liveness_stage (m : Manager) : result (option string) :=
  let soft r := let* (reason, fatal, _) := task_block_reason p m r true in
                Ok (negb fatal && is_soft soft_task_reasons reason) in
  let* ordered := Graph.reverse_topological_stage_ids p.(p_graph) in
  let* candidates := rfoldM (fun acc id =>
      let* b := if negb (bool_decide (length m.(m_waiting_tasks) = O))
        then rexists soft (List.filter (fun r => String.eqb r.(tr_stage_id) id) (waiting_requests m))
        else let* s := stage_of m id in if live_stage s then soft (hypothetical_request id s) else Ok false in
      Ok (if b : bool then acc ++ [id] else acc)) [] ordered in
  starved_first m candidates.

(** [_task_liveness_block_reason_locked] *)
Definition task_liveness_block (m : Manager) (r : TaskRequest) : result (option string) :=
  if bool_decide (is_Some m.(m_liveness_task)) then Ok (Some "liveness_task_active")
  else if liveness_not_needed m then Ok (Some "liveness_not_needed")
  else
    let* normal := has_normal_candidate m in
    if normal : bool then Ok (Some "normal_candidate_available") else
    let* preferred := preferred_liveness_stage m in
    match preferred with
    | None => Ok (Some "no_liveness_candidate")
    | Some id => if String.eqb id r.(tr_stage_id) then Ok None else Ok (Some "liveness_candidate_not_selected")
    end.

Definition try_acquire_task (r : TaskRequest) : ST Manager TaskGrant :=
  let! m := sget in
  let! (reason, fatal, plan) := slift (task_block_reason p m r false) in
  match reason with
  | None => grant_task r plan false
  | Some why =>
      if fatal || negb (is_soft soft_task_reasons reason) then sret (deny why fatal) else
      let! block := slift (task_liveness_block m r) in
      match block with
      | Some why => sret (deny why false)
      | None => grant_task r plan true
      end
  end.

(** [dataclass replace] of the epoch of a grant *)
Definition with_epoch (g : TaskGrant) : ST Manager TaskGrant :=
  sgets (fun m => MkTaskGrant g.(tg_granted) g.(tg_lease) g.(tg_blocked_reason) g.(tg_fatal) g.(tg_liveness) m.(m_epoch)).

(** A descriptor makes its stage runnable. *)
Definition wake_stage (r : TaskRequest) : ST Manager unit :=
  let! m := sget in
  match od_get r.(tr_stage_id) m.(m_stages) with
  | Some s =>
      if String.eqb r.(tr_query_id) p.(p_graph).(g_query_id) && negb s.(ss_completed) && negb s.(ss_runnable) then
        let! _ := on_stage r.(tr_stage_id) (fun _ s => s <| ss_runnable := true |>) in
        let! _ := recompute_input r.(tr_stage_id) in
        publish
      else sret tt
  | None => sret tt
  end.

Definition try_acquire_task_descriptor (r : TaskRequest) : ST Manager TaskGrant :=
  let! _ := wake_stage r in
  let! m := sget in
  let key := (r.(tr_task_id), r.(tr_attempt_id)) in
  if od_mem key m.(m_waiting_tasks) then with_epoch (deny "task_descriptor_already_registered" true) else
  let! (reason, fatal, plan) := slift (task_block_reason p m r false) in
  if fatal : bool then with_epoch (deny (default "fatal_task_admission" reason) true) else
  let! rank := slift (waiting_task_rank m r (Z.of_nat (length m.(m_waiting_tasks)))) in
  let! waiting := slift (evaluate_waiting m false) in
  let evaluations := waiting ++ [MkEvaluation rank r reason false plan] in
  let! preferred := slift (select_evaluation m evaluations) in
  match preferred with
  | Some e =>
      if negb (bool_decide (qe_key e = key)) then with_epoch (deny "admission_turn" false) else
      match reason with
      | None => let! g := grant_task r plan false in with_epoch g
      | Some why =>
          if negb (is_soft soft_task_reasons reason) then with_epoch (deny why false) else
          match queued_liveness_block m evaluations with
          | Some why => with_epoch (deny why false)
          | None => let! g := grant_task r plan true in with_epoch g
          end
      end
  | None => with_epoch (deny (default "task_not_admissible" reason) false)
  end.

Definition try_acquire_queued_task (r : TaskRequest) : ST Manager TaskGrant :=
  let! m := sget in
  let key := (r.(tr_task_id), r.(tr_attempt_id)) in
  match od_get key m.(m_waiting_tasks) with
  | None => sret (deny "task_waiter_not_registered" true)
  | Some (waiting, _) =>
      if negb (bool_decide (waiting = r)) then sret (deny "task_waiter_identity_mismatch" true) else
      let! evaluations := slift (evaluate_waiting m false) in
      match find (fun e => bool_decide (qe_key e = key)) evaluations with
      | None => sraise (RuntimeError "StopIteration")
      | Some current =>
          if current.(qe_fatal) then sret (deny (default "fatal_task_admission" current.(qe_reason)) true) else
          let! preferred := slift (select_evaluation m evaluations) in
          match preferred with
          | Some e =>
              if negb (bool_decide (qe_key e = key)) then sret (deny "admission_turn" false) else
              match current.(qe_reason) with
              | None => grant_task r current.(qe_plan) false
              | Some _ =>
                  match queued_liveness_block m evaluations with
                  | Some why => sret (deny why false)
                  | None => grant_task r current.(qe_plan) true
                  end
              end
          | None => sret (deny (default "task_not_admissible" current.(qe_reason)) false)
          end
      end
  end.

Definition try_acquire_next_queued_task (candidates : list (string * string))
    : ST Manager (option (TaskRequest * TaskGrant)) :=
  let! m := sget in
  let! evaluations := slift (evaluate_waiting m false) in
  let owned e := bool_decide (qe_key e ∈ candidates) in
  let! fatal := slift (first_by_rank (List.filter (fun e => e.(qe_fatal) && owned e) evaluations)) in
  match fatal with
  | Some e => sret (Some (e.(qe_request), deny (default "fatal_task_admission" e.(qe_reason)) true))
  | None =>
      let! selected := slift (select_evaluation m evaluations) in
      match selected with
      | None => sret None
      | Some e =>
          let r := e.(qe_request) in
          if negb (owned e) then sret (Some (r, deny "admission_turn" false)) else
          if bool_decide (e.(qe_reason) = None)
          then let! g := grant_task r e.(qe_plan) false in sret (Some (r, g)) else
          if bool_decide (is_Some m.(m_liveness_task)) then sret (Some (r, deny "liveness_task_active" false)) else
          if liveness_not_needed m then sret (Some (r, deny "liveness_not_needed" false)) else
          let! g := grant_task r e.(qe_plan) true in sret (Some (r, g))
      end
  end.

(** ** The return of leases and credits *)

(** [_delete_continuation_credit_locked] *)
Definition delete_credit (id : string) (m : Manager) : Manager :=
  match od_get id m.(m_credits) with
  | None => m
  | Some c =>
      let m := m <| m_credits ::= od_pop id |> in
      let m := if bool_decide (od_get c.(cc_parent_task_lease_id) m.(m_credit_by_parent) = Some c.(cc_credit_id))
               then m <| m_credit_by_parent ::= od_pop c.(cc_parent_task_lease_id) |> else m in
      match c.(cc_borrowed_by) with
      | Some b => m <| m_credit_by_borrower ::= od_pop b |>
      | None => m
      end
  end.

(** Outputs of the task that are not yet handed over. *)
Definition has_pending_output (m : Manager) (lease_id : string) : bool :=
  existsb (fun o => String.eqb o.(ol_task_lease_id) lease_id
             && negb (bool_decide (o.(ol_state) ∈ [DownstreamInput; ExternalConsumer]))) (od_values m.(m_output_leases)).

(** [_maybe_return_continuation_credit_locked] *)
Definition maybe_return_credit (lease_id : string) : ST Manager unit :=
  let! m := sget in
  match od_get lease_id m.(m_credit_by_borrower) with
  | None => sret tt
  | Some credit_id =>
      if od_mem lease_id m.(m_task_leases) || has_pending_output m lease_id then sret tt else
      let! _ := smodify (fun m => m <| m_credit_by_borrower ::= od_pop lease_id |>) in
      match od_get credit_id m.(m_credits) with
      | Some c =>
          if bool_decide (c.(cc_borrowed_by) = Some lease_id) then
            let! _ := smodify (fun m => m <| m_credits ::= od_set credit_id (c <| cc_borrowed_by := None |>) |>) in
            if c.(cc_parent_active) then sret tt else smodify (delete_credit c.(cc_credit_id))
          else sraise (RuntimeError "continuation borrower index is inconsistent")
      | None => sraise (RuntimeError "continuation borrower index is inconsistent")
      end
  end.

(** [deque.remove] *)
Fixpoint remove_one (x : string) (l : list string) : list string :=
  match l with
  | [] => []
  | y :: l => if String.eqb y x then l else y :: remove_one x l
  end.

(** The actor of a removed lease goes to the next call in its queue. *)
Definition free_slot (l : TaskLease) : ST Manager unit :=
  match l.(tl_actor_index) with
  | None => sret tt
  | Some i =>
      let slot := (l.(tl_stage_id), i) in
      let! m := sget in
      let queued := od_get_default slot [] m.(m_queued_slots) in
      let set_queue q m := if bool_decide (length q = O) then m <| m_queued_slots ::= od_pop slot |>
                           else m <| m_queued_slots ::= od_set slot q |> in
      if bool_decide (od_get slot m.(m_active_slots) = Some l.(tl_lease_id)) then
        match queued with
        | next :: queued => smodify (fun m => set_queue queued (m <| m_active_slots ::= od_set slot next |>))
        | [] => smodify (fun m => m <| m_active_slots ::= od_pop slot |>)
        end
      else if bool_decide (l.(tl_lease_id) ∈ queued) then
        smodify (set_queue (remove_one l.(tl_lease_id) queued))
      else sraise (RuntimeError "Ray actor slot ownership index is inconsistent")
  end.

(** The credit a removed lease owns is closed, and dropped once idle. *)
Definition close_own_credit (lease_id : string) : ST Manager unit :=
  let! m := sget in
  match od_get lease_id m.(m_credit_by_parent) with
  | None => sret tt
  | Some credit_id =>
      let! _ := smodify (fun m => m <| m_credit_by_parent ::= od_pop lease_id |>) in
      match od_get credit_id m.(m_credits) with
      | Some c =>
          if String.eqb c.(cc_parent_task_lease_id) lease_id then
            let! _ := smodify (fun m => m <| m_credits ::= od_set credit_id (c <| cc_parent_active := false |>) |>) in
            if bool_decide (c.(cc_borrowed_by) = None) then smodify (delete_credit c.(cc_credit_id)) else sret tt
          else sraise (RuntimeError "continuation parent index is inconsistent")
      | None => sraise (RuntimeError "continuation parent index is inconsistent")
      end
  end.

(** [_on_task_lease_removed_locked] *)
Definition on_task_lease_removed (l : TaskLease) : ST Manager unit :=
  let! _ := free_slot l in
  let! _ := maybe_return_credit l.(tl_lease_id) in
  close_own_credit l.(tl_lease_id).

Definition clear_liveness_task (lease_id : string) (m : Manager) : Manager :=
  if bool_decide (m.(m_liveness_task) = Some lease_id) then m <| m_liveness_task := None |> else m.

Definition clear_liveness_output (lease_id : string) (m : Manager) : Manager :=
  if bool_decide (m.(m_liveness_output) = Some lease_id) then m <| m_liveness_output := None |> else m.

(** The end of a lease: [terminal] fences its attempt. *)
Definition retire_lease (key : string) (l : TaskLease) (terminal : bool) : ST Manager unit :=
  let attempt := (l.(tl_task_id), l.(tl_attempt_id)) in
  let! _ := smodify (fun m => m <| m_task_leases ::= od_pop key |>) in
  let! _ := on_task_lease_removed l in
  let! _ := smodify (fun m => m <| m_active_attempts ::= od_pop attempt |>) in
  let! _ := if terminal then smodify (fun m => m <| m_terminal_attempts ::= BSet.add attempt |>) else sret tt in
  let! _ := smodify (clear_liveness_task key) in
  publish.

(** [_release_task_lease] *)
Definition release_lease (lease_id attempt_id : string) (terminal : bool) : ST Manager bool :=
  let! m := sget in
  match od_get lease_id m.(m_task_leases) with
  | None => sret false
  | Some l =>
      if negb (String.eqb l.(tl_attempt_id) attempt_id) then sret false
      else let! _ := retire_lease lease_id l terminal in sret true
  end.

Definition release_task_lease (lease_id attempt_id : string) : ST Manager bool := release_lease lease_id attempt_id true.
Definition abandon_task_lease (lease_id attempt_id : string) : ST Manager bool := release_lease lease_id attempt_id false.

(** The checks on one output of a finished worker task. *)
Definition check_output (m : Manager) (l : TaskLease) (s : StageResourceSpec) (seen : gset string) (r : OutputBlockRequest)
    : result (gset string) :=
  let fail b msg := raise_if b (RuntimeError msg) in
  let block := strip r.(or_block_id) in
  let target := s.(sp_target_output_block_bytes) in
  let* _ := fail (negb (String.eqb r.(or_query_id) l.(tl_query_id))) "FTE output query_id does not match its task lease" in
  let* _ := fail (negb (String.eqb r.(or_producer_stage_id) l.(tl_stage_id)))
    "FTE output stage_id does not match its task lease" in
  let* _ := fail (negb (String.eqb r.(or_task_lease_id) l.(tl_lease_id)))
    "FTE output task_lease_id does not match its task lease" in
  let* _ := fail (negb (String.eqb r.(or_attempt_id) l.(tl_attempt_id)))
    "FTE output attempt_id does not match its task lease" in
  let* _ := fail (String.eqb block "") "FTE output block_id must be non-empty" in
  let* _ := fail (bool_decide (block ∈ seen) || od_mem block m.(m_output_by_block))
    ("FTE output block_id is not unique: " +:+ block) in
  let* _ := fail (r.(or_size_bytes) <=? 0) ("FTE output block size must be positive: " +:+ block) in
  let* _ := fail ((target <=? 0) || (target <? r.(or_size_bytes)))
    ("FTE output block " +:+ block +:+ " size " +:+ str_of_int r.(or_size_bytes) +:+ " exceeds stage target "
     +:+ str_of_int target) in
  Ok ({[block]} ∪ seen).

Definition store_output (o : OutputBlockLease) (m : Manager) : Manager :=
  m <| m_output_leases ::= od_set o.(ol_lease_id) o |> <| m_output_by_block ::= od_set o.(ol_block_id) o.(ol_lease_id) |>.

(** The lease of one output of a finished worker task. *)
Definition new_fte_output (l : TaskLease) (acc : list OutputBlockLease) (r : OutputBlockRequest)
    : ST Manager (list OutputBlockLease) :=
  let! id := draw in
  let! generation := sgets (fun m => m.(m_allocation).(al_generation)) in
  sret (acc ++ [MkOutputLease id l.(tl_query_id) l.(tl_stage_id) l.(tl_lease_id) l.(tl_attempt_id) r.(or_block_id)
    l.(tl_node_id) r.(or_size_bytes) StageQueue false generation None]).

Definition finish_task_with_outputs (lease_id attempt_id : string) (outputs : list OutputBlockRequest)
    : ST Manager (list OutputBlockLease) :=
  let! m := sget in
  match od_get lease_id m.(m_task_leases) with
  | None => sraise (RuntimeError ("FTE task lease is not active: " +:+ lease_id))
  | Some l =>
      let! _ := sraise_if (negb (String.eqb l.(tl_attempt_id) attempt_id))
        (RuntimeError ("FTE task lease attempt mismatch: lease=" +:+ l.(tl_attempt_id) +:+ " result=" +:+ attempt_id)) in
      let! stage := slift (stage_of m l.(tl_stage_id)) in
      let total := zsum (map or_size_bytes outputs) in
      let! _ := sraise_if (l.(tl_output_window_bytes) <? total)
        (RuntimeError ("FTE output bytes " +:+ str_of_int total +:+ " exceed task window "
          +:+ str_of_int l.(tl_output_window_bytes) +:+ ": query=" +:+ l.(tl_query_id) +:+ " stage=" +:+ l.(tl_stage_id)
          +:+ " task_lease=" +:+ l.(tl_lease_id) +:+ " attempt=" +:+ l.(tl_attempt_id))) in
      let! _ := slift (rfoldM (check_output m l stage.(ss_spec)) ∅ outputs) in
      let! leases := sfold outputs (new_fte_output l) [] in
      let! _ := smodify (fun m => fold_left (fun m o => store_output o m) leases m) in
      let! _ := recompute_output l.(tl_stage_id) in
      let! _ := retire_lease l.(tl_lease_id) l true in
      sret leases
  end.

(** ** Output blocks *)

(** Reason, finality and the bytes the block adds. *)
Definition output_verdict : Type := option string * bool * Z.

(** The bytes one more block adds to the usage of its task. *)
Definition output_delta (m : Manager) (l : TaskLease) (size : Z) : Z :=
  let live := live_output_bytes_for_task m l.(tl_lease_id) in
  Z.max l.(tl_output_window_bytes) (live + size) - Z.max l.(tl_output_window_bytes) live.

(** The limits a block that adds bytes is held to. *)
Definition fit_output (m : Manager) (l : TaskLease) (stage : string) (delta : Z) : result output_verdict :=
  let* extra := object_store delta in
  let* usage := query_usage m in
  let* after := Res.add usage extra in
  if negb (Res.fits_within after (query_limits m)) then Ok (Some "hard_object_store_bytes", false, delta) else
  match find (fun n => String.eqb n.(na_node_id) l.(tl_node_id)) m.(m_allocation).(al_nodes) with
  | None => Ok (Some "node_not_allocated", true, delta)
  | Some node =>
      let* usage := node_usage m l.(tl_node_id) in
      let* after := Res.add usage extra in
      if negb (Res.fits_within after node.(na_resources)) then Ok (Some "node_capacity", false, delta) else
      let* soft := stage_soft_block_reason p m stage extra in
      Ok (soft, false, delta)
  end.

(** [_normal_output_block_reason_locked] *)
Definition output_block_reason (m : Manager) (r : OutputBlockRequest) : result output_verdict :=
  let refuse why := Ok (Some why, true, 0) in
  if m.(m_cancelled) then refuse "query_cancelled" else
  if negb (String.eqb r.(or_query_id) p.(p_graph).(g_query_id)) then refuse "query_id_mismatch" else
  match od_get r.(or_producer_stage_id) m.(m_stages) with
  | None => refuse "stage_not_registered"
  | Some stage =>
      let id := stage.(ss_spec).(sp_stage_id) in
      let block := strip r.(or_block_id) in
      if String.eqb block "" then refuse "invalid_block_id" else
      if BSet.contains block m.(m_terminal_blocks) then refuse "output_block_terminal" else
      match od_get r.(or_task_lease_id) m.(m_task_leases) with
      | None => refuse "task_lease_not_active"
      | Some l =>
          if negb (String.eqb l.(tl_stage_id) id) then refuse "task_stage_mismatch" else
          if negb (String.eqb l.(tl_attempt_id) r.(or_attempt_id)) then refuse "task_attempt_mismatch" else
          if od_mem block m.(m_output_by_block) then refuse "output_block_already_leased" else
          if r.(or_size_bytes) <=? 0 then refuse "invalid_output_block_size" else
          if (query_limits m).(r_object_store_bytes) <? r.(or_size_bytes) then refuse "output_block_exceeds_query_limit" else
          let delta := output_delta m l r.(or_size_bytes) in
          if 0 <? delta then fit_output m l id delta else Ok (None, false, delta)
      end
  end.

(** [_grant_output_block_locked] *)
Definition grant_output_block (r : OutputBlockRequest) (liveness : bool) (initial : output_state)
    : ST Manager OutputBlockGrant :=
  let! m := sget in
  match od_get r.(or_task_lease_id) m.(m_task_leases) with
  | None => sraise (RuntimeError "cannot grant an output block without an active task lease")
  | Some l =>
      let! id := draw in
      let o := MkOutputLease id p.(p_graph).(g_query_id) r.(or_producer_stage_id) r.(or_task_lease_id) r.(or_attempt_id)
        r.(or_block_id) l.(tl_node_id) r.(or_size_bytes) initial liveness m.(m_allocation).(al_generation)
        (od_get l.(tl_lease_id) m.(m_credit_by_borrower)) in
      let! _ := smodify (store_output o) in
      let! _ := smodify (fun m => m <| m_waiting_outputs ::= od_pop r.(or_block_id) |>) in
      let! _ := recompute_output r.(or_producer_stage_id) in
      let! _ := if liveness
        then smodify (fun m => m <| m_liveness_output := Some id |> <| m_output_liveness_total ::= Z.succ |>)
        else sret tt in
      let! _ := publish in
      sret (grant_output o liveness)
  end.

(** The block a stage could ask for next: from its first running task, as
    large as what is queued and at most its target. *)
Definition next_output_request (m : Manager) (prefix id : string) (s : StageState) : option OutputBlockRequest :=
  match find (fun l => String.eqb l.(tl_stage_id) id) (od_values m.(m_task_leases)) with
  | None => None
  | Some l =>
      let target := s.(ss_spec).(sp_target_output_block_bytes) in
      let queued := s.(ss_queued_output_bytes) in
      let size := Z.min queued (if 0 <? target then target else queued) in
      if size <=? 0 then None
      else Some (MkOutputRequest p.(p_graph).(g_query_id) id l.(tl_lease_id) l.(tl_attempt_id)
                   (prefix +:+ id +:+ ":" +:+ l.(tl_lease_id)) size)
  end.

(** [_has_normal_output_candidate_locked] *)
Definition has_normal_output_candidate (m : Manager) : result bool :=
  let* ordered := Graph.reverse_topological_stage_ids p.(p_graph) in
  rexists (fun id =>
      let* s := stage_of m id in
      if negb (live_stage s) || (s.(ss_queued_output_bytes) <=? 0) then Ok false else
      match next_output_request m "hypothetical:" id s with
      | None => Ok false
      | Some r => let* (reason, _, _) := output_block_reason m r in Ok (bool_decide (reason = None))
      end) ordered.

(** [_preferred_output_liveness_stage_locked] *)
Definition preferred_output_stage (m : Manager) (current : OutputBlockRequest) : result (option string) :=
  let* ordered := Graph.reverse_topological_stage_ids p.(p_graph) in
  let* candidates := rfoldM (fun acc id =>
      let* s := stage_of m id in
      let own := String.eqb id current.(or_producer_stage_id) in
      if negb (live_stage s) || (negb own && (s.(ss_queued_output_bytes) <=? 0)) then Ok acc else
      match (if own then Some current else next_output_request m "hypothetical-liveness:" id s) with
      | None => Ok acc
      | Some r =>
          let* (reason, fatal, _) := output_block_reason m r in
          Ok (if negb fatal && is_soft soft_output_reasons reason then acc ++ [id] else acc)
      end) [] ordered in
  Ok (head candidates).

(** [_output_consumer_starving_locked] *)
Definition output_consumer_starving (m : Manager) (producer : string) : bool :=
  if m.(m_external_waiting) then true else
  let readers := List.filter (fun s => bool_decide (producer ∈ s.(sp_input_stage_ids))) p.(p_graph).(g_stages) in
  negb (bool_decide (length readers = O)) && forallb (fun s => active_task_count m s.(sp_stage_id) =? 0) readers.

Definition try_acquire_output_block (r : OutputBlockRequest) : ST Manager OutputBlockGrant :=
  let! m := sget in
  let! (reason, fatal, delta) := slift (output_block_reason m r) in
  match reason with
  | None => grant_output_block r false GeneratorPending
  | Some why =>
      if fatal || negb (is_soft soft_output_reasons reason) then sret (deny_output why fatal) else
      if bool_decide (is_Some m.(m_liveness_output)) then sret (deny_output "liveness_output_active" false) else
      let! normal := slift (has_normal_output_candidate m) in
      if normal : bool then sret (deny_output "normal_output_candidate_available" false) else
      if negb (output_consumer_starving m r.(or_producer_stage_id))
      then sret (deny_output "output_liveness_not_needed" false) else
      let! preferred := slift (preferred_output_stage m r) in
      if negb (bool_decide (preferred = Some r.(or_producer_stage_id)))
      then sret (deny_output "liveness_output_candidate_not_selected" false) else
      let! fits := slift (if 0 <? delta
        then let* usage := query_usage m in
             let* extra := object_store delta in
             let* after := Res.add usage extra in Ok (Res.fits_within after (query_limits m))
        else Ok true) in
      if fits : bool then grant_output_block r true GeneratorPending
      else sret (deny_output "hard_object_store_bytes" false)
  end.

Record ranked_output := MkRankedOutput {
  ro_rank : Z * Z;
  ro_request : OutputBlockRequest;
  ro_reason : option string;
  ro_fatal : bool;
}.

(** The waiting blocks of the caller with their verdicts. *)
Fixpoint rank_outputs (m : Manager) (candidates : list string) (order : Z) (l : list (string * OutputBlockRequest))
    : result (list ranked_output) :=
  match l with
  | [] => Ok []
  | (block, r) :: l =>
      if negb (bool_decide (block ∈ candidates)) then rank_outputs m candidates (order + 1) l else
      let* (reason, fatal, _) := output_block_reason m r in
      let* rest := rank_outputs m candidates (order + 1) l in
      Ok (MkRankedOutput (rank_in (rev p.(p_topological)) r.(or_producer_stage_id), order) r reason fatal :: rest)
  end.

Definition first_output (l : list ranked_output) : result (option ranked_output) :=
  py_min (fun o => Ok [KNum (NInt o.(ro_rank).1); KNum (NInt o.(ro_rank).2)]) l.

Definition try_acquire_next_queued_output_block (candidates : list string)
    : ST Manager (option (OutputBlockRequest * OutputBlockGrant)) :=
  let! m := sget in
  let! ranked := slift (rank_outputs m candidates 0 m.(m_waiting_outputs)) in
  let! fatal := slift (first_output (List.filter ro_fatal ranked)) in
  match fatal with
  | Some o => sret (Some (o.(ro_request), deny_output (default "" o.(ro_reason)) true))
  | None =>
      let! normal := slift (first_output (List.filter (fun o => negb o.(ro_fatal) && bool_decide (o.(ro_reason) = None)) ranked)) in
      match normal with
      | Some o => let! g := grant_output_block o.(ro_request) false StageQueue in sret (Some (o.(ro_request), g))
      | None =>
          let! soft := slift (first_output (List.filter (fun o =>
            negb o.(ro_fatal) && is_soft soft_output_reasons o.(ro_reason)) ranked)) in
          match soft with
          | None => sret None
          | Some o =>
              let r := o.(ro_request) in
              if bool_decide (is_Some m.(m_liveness_output))
              then sret (Some (r, deny_output "liveness_output_active" false)) else
              if negb (output_consumer_starving m r.(or_producer_stage_id))
              then sret (Some (r, deny_output "output_liveness_not_needed" false)) else
              let! g := grant_output_block r true StageQueue in sret (Some (r, g))
          end
      end
  end.

Definition transition_output_block (lease_id state : string) : ST Manager bool :=
  match parse_output_state state with
  | None | Some Released => sraise (ValueError ("invalid output lease transition target: " +:+ state))
  | Some target =>
      let! m := sget in
      match od_get lease_id m.(m_output_leases) with
      | None => sret false
      | Some o =>
          let! _ := sraise_if (negb (output_state_index target =? output_state_index o.(ol_state) + 1))
            (ValueError ("invalid output lease transition: " +:+ output_state_name o.(ol_state) +:+ " -> " +:+ state)) in
          let! _ := smodify (fun m => m <| m_output_leases ::= od_set lease_id (o <| ol_state := target |>) |>) in
          let! _ := if bool_decide (target = DownstreamInput)
            then let! _ := smodify (clear_liveness_output lease_id) in maybe_return_credit o.(ol_task_lease_id)
            else sret tt in
          let! _ := recompute_output o.(ol_producer_stage_id) in
          let! _ := publish in
          sret true
      end
  end.

Definition release_output_block (lease_id : string) : ST Manager bool :=
  let! m := sget in
  match od_get lease_id m.(m_output_leases) with
  | None => sret false
  | Some o =>
      let! _ := smodify (fun m => clear_liveness_output lease_id
        (m <| m_output_leases ::= od_pop lease_id |> <| m_output_by_block ::= od_pop o.(ol_block_id) |>
           <| m_terminal_blocks ::= BSet.add o.(ol_block_id) |>)) in
      let! _ := maybe_return_credit o.(ol_task_lease_id) in
      let! _ := recompute_output o.(ol_producer_stage_id) in
      let! _ := publish in
      sret true
  end.

(** ** Cancellation *)

Definition cancel (reason : string) : ST Manager (Z * Z) :=
  let! m := sget in
  if m.(m_cancelled) then sret (0, 0) else
  let counts := (Z.of_nat (length m.(m_task_leases)), Z.of_nat (length m.(m_output_leases))) in
  let ids := od_keys m.(m_stages) in
  let! _ := smodify (fun m => m
    <| m_terminal_attempts ::= BSet.add_all (map (fun l => (l.(tl_task_id), l.(tl_attempt_id))) (od_values m.(m_task_leases))) |>
    <| m_task_leases := [] |> <| m_credits := [] |> <| m_credit_by_parent := [] |> <| m_credit_by_borrower := [] |>
    <| m_active_attempts := [] |> <| m_active_slots := [] |> <| m_queued_slots := [] |> <| m_waiting_tasks := [] |>) in
  let! _ := sfor ids recompute_input in
  let! _ := smodify (fun m => m <| m_output_leases := [] |> <| m_output_by_block := [] |> <| m_waiting_outputs := [] |>) in
  let! _ := sfor ids recompute_output in
  let! _ := smodify (fun m => m <| m_liveness_task := None |> <| m_liveness_output := None |> <| m_admission_open := false |>
    <| m_cancelled := true |> <| m_cancel_reason := reason |>) in
  let! _ := publish in
  sret counts.

(** ** Histories *)

Inductive call :=
| UpdateStageState (id : string) (runnable : bool) (actor_ready : option bool) (completed : bool)
| NoteTaskWaiting (r : TaskRequest)
| RemoveTaskWaiter (task attempt : string)
| MarkTaskAttemptTerminal (task attempt : string)
| NoteOutputWaiting (r : OutputBlockRequest)
| RemoveOutputWaiter (block : string)
| MarkOutputBlockTerminal (block : string)
| SetExternalConsumerWaiting (waiting : bool)
| SetStageActorReady (id : string) (ready : bool)
| UpdateAllocation (a : QueryAllocation) (admission_open : bool)
| CloseAdmission
| TryAcquireTask (r : TaskRequest)
| TryAcquireTaskDescriptor (r : TaskRequest)
| TryAcquireQueuedTask (r : TaskRequest)
| TryAcquireNextQueuedTask (candidates : list (string * string))
| ReleaseTaskLease (lease_id attempt_id : string)
| AbandonTaskLease (lease_id attempt_id : string)
| FinishTaskWithOutputs (lease_id attempt_id : string) (outputs : list OutputBlockRequest)
| TryAcquireOutputBlock (r : OutputBlockRequest)
| TryAcquireNextQueuedOutputBlock (candidates : list string)
| TransitionOutputBlock (lease_id state : string)
| ReleaseOutputBlock (lease_id : string)
| Cancel (reason : string).

Definition forget {A} (m : ST Manager A) : ST Manager unit := let! _ := m in sret tt.

Definition do_call (c : call) : ST Manager unit :=
  match c with
  | UpdateStageState id r a d => update_stage_state id r a d
  | NoteTaskWaiting r => note_task_waiting r
  | RemoveTaskWaiter t a => forget (remove_task_waiter t a)
  | MarkTaskAttemptTerminal t a => mark_task_attempt_terminal t a
  | NoteOutputWaiting r => note_output_waiting r
  | RemoveOutputWaiter b => forget (remove_output_waiter b)
  | MarkOutputBlockTerminal b => mark_output_block_terminal b
  | SetExternalConsumerWaiting w => set_external_consumer_waiting w
  | SetStageActorReady id r => set_stage_actor_ready id r
  | UpdateAllocation a o => update_allocation a o
  | CloseAdmission => close_admission
  | TryAcquireTask r => forget (try_acquire_task r)
  | TryAcquireTaskDescriptor r => forget (try_acquire_task_descriptor r)
  | TryAcquireQueuedTask r => forget (try_acquire_queued_task r)
  | TryAcquireNextQueuedTask ks => forget (try_acquire_next_queued_task ks)
  | ReleaseTaskLease l a => forget (release_task_lease l a)
  | AbandonTaskLease l a => forget (abandon_task_lease l a)
  | FinishTaskWithOutputs l a os => forget (finish_task_with_outputs l a os)
  | TryAcquireOutputBlock r => forget (try_acquire_output_block r)
  | TryAcquireNextQueuedOutputBlock bs => forget (try_acquire_next_queued_output_block bs)
  | TransitionOutputBlock l s => forget (transition_output_block l s)
  | ReleaseOutputBlock l => forget (release_output_block l)
  | Cancel r => forget (cancel r)
  end.

(** Any history; an exception ends a call but not the manager. *)
Definition run (calls : list call) (m : Manager) : Manager := fold_left (fun m c => (do_call c m).2) calls m.

(** ** The owner of an output lease *)

Record Owner := MkOwner { ow_lease_id : string; ow_state : output_state; ow_released : bool }.
#[export] Instance Owner_eta : Eta Owner := fun r => MkOwner r.(ow_lease_id) r.(ow_state) r.(ow_released).

Definition new_owner (l : OutputBlockLease) : Owner := MkOwner l.(ol_lease_id) l.(ol_state) false.

Definition on_manager {A} : ST Manager A -> ST (Manager * Owner) A := szoom fst (fun m s => (m, s.2)).

Definition next_output_state (s : output_state) : output_state :=
  match s with
  | GeneratorPending => StageQueue | StageQueue => DownstreamInput | DownstreamInput => ExternalConsumer | _ => Released
  end.

(** The loop of [transition_to]: [n] states are left. *)
Fixpoint advance_owner (n : nat) : ST (Manager * Owner) bool :=
  match n with
  | O => sret true
  | S n =>
      let! s := sget in
      let next := next_output_state s.2.(ow_state) in
      let! moved := on_manager (transition_output_block s.2.(ow_lease_id) (output_state_name next)) in
      if moved : bool then
        let! _ := smodify (fun s => (s.1, s.2 <| ow_state := next |>)) in advance_owner n
      else
        let! _ := smodify (fun s => (s.1, s.2 <| ow_released := true |>)) in sret false
  end.

Definition transition_to (state : string) : ST (Manager * Owner) bool :=
  match parse_output_state state with
  | None | Some Released => sraise (ValueError ("invalid output lease owner transition target: " +:+ state))
  | Some target =>
      let! s := sget in
      if s.2.(ow_released) then sret false else
      let current := output_state_index s.2.(ow_state) in
      let! _ := sraise_if (output_state_index target <? current)
        (ValueError ("output lease owner cannot move backward: " +:+ output_state_name s.2.(ow_state) +:+ " -> " +:+ state)) in
      advance_owner (Z.to_nat (output_state_index target - current))
  end.

Definition owner_release : ST (Manager * Owner) bool :=
  let! s := sget in
  if s.2.(ow_released) then sret false else
  let! released := on_manager (release_output_block s.2.(ow_lease_id)) in
  let! _ := smodify (fun s => (s.1, s.2 <| ow_released := true |> <| ow_state := Released |>)) in
  sret released.

(** [__del__] *)
Definition owner_del : ST (Manager * Owner) unit :=
  scatch (let! _ := owner_release in sret tt) (fun _ => true) (fun _ => sret tt).

End Operations.
