(* ===== verification/ResourceBooks.v ===== *)
(** * The books of the resource manager

    What the usage of [ResourceState] amounts to, in the dimensions that are
    counted in bytes: a closed form over the leases, the credits and the
    outputs ([footprint]), for the query and for one node alike.  The
    coherence of the books ([coherent]) is what makes the two agree; the
    lemmas of the second half say how each elementary change of the books
    moves the footprint. *)

From S2P Require Import Prelude PyStr PyVal PyNum AdmissionLedger QueryGraph ResourceState ResourcePlacement.

#[local] Open Scope string_scope.
#[local] Open Scope list_scope.
#[local] Open Scope Z_scope.

(** ** Sums over dictionaries *)

Lemma zsum_cons x l : zsum (x :: l) = x + zsum l.
Proof. done. Qed.

Section Sums.
Context {K V : Type} `{EqDecision K}.
Implicit Types (d : list (K * V)) (f g : K -> V -> Z).

Definition ksum f d : Z := zsum (map (fun kv => f kv.1 kv.2) d).

Lemma ksum_nil f : ksum f [] = 0.
Proof. done. Qed.

Lemma ksum_cons f k v d : ksum f ((k, v) :: d) = f k v + ksum f d.
Proof. done. Qed.

Lemma ksum_app f d d' : ksum f (d ++ d') = ksum f d + ksum f d'.
Proof. induction d as [|[k v] d IH]; [done|]. cbn [app]. rewrite !ksum_cons, IH. lia. Qed.

Lemma ksum_ext f g d : (forall k v, (k, v) ∈ d -> f k v = g k v) -> ksum f d = ksum g d.
Proof.
  induction d as [|[k v] d IH]; [done|]. intros H. rewrite !ksum_cons, (H k v) by left. f_equal.
  apply IH. intros. apply H. by right.
Qed.

Lemma ksum_plus f g d : ksum (fun k v => f k v + g k v) d = ksum f d + ksum g d.
Proof. induction d as [|[k v] d IH]; [done|]. rewrite !ksum_cons, IH. lia. Qed.

Lemma ksum_le f g d : (forall k v, (k, v) ∈ d -> f k v <= g k v) -> ksum f d <= ksum g d.
Proof.
  induction d as [|[k v] d IH]; [done|]. intros H. rewrite !ksum_cons. pose proof (H k v ltac:(left)).
  enough (ksum f d <= ksum g d) by lia. apply IH. intros. apply H. by right.
Qed.

Lemma ksum_zero f d : (forall k v, (k, v) ∈ d -> f k v = 0) -> ksum f d = 0.
Proof. intros H. rewrite (ksum_ext f (fun _ _ => 0)) by done. clear. by induction d as [|[k v] d IH]. Qed.

Lemma ksum_nonneg f d : (forall k v, (k, v) ∈ d -> 0 <= f k v) -> 0 <= ksum f d.
Proof. intros H. rewrite <- (ksum_zero (fun _ _ => 0) d) by done. by apply ksum_le. Qed.

Lemma ksum_pop f k v d : od_get k d = Some v -> ksum f d = f k v + ksum f (od_pop k d).
Proof.
  induction d as [|[k' v'] d IH]; cbn [od_get od_pop]; [done|]. destruct (decide (k = k')) as [->|].
  - by intros [= ->].
  - intros H. rewrite !ksum_cons, IH by done. lia.
Qed.

Lemma ksum_set_new f k v d : od_get k d = None -> ksum f (od_set k v d) = ksum f d + f k v.
Proof. intros H. rewrite od_set_absent, ksum_app by done. cbn. lia. Qed.

Lemma ksum_set f k v v' d : od_get k d = Some v -> ksum f (od_set k v' d) = ksum f d + f k v' - f k v.
Proof.
  induction d as [|[k1 v1] d IH]; cbn [od_get od_set]; [done|]. destruct (decide (k = k1)) as [->|].
  - intros [= ->]. rewrite !ksum_cons. lia.
  - intros H. rewrite !ksum_cons, IH by done. lia.
Qed.

Lemma od_pop_subset k d x : x ∈ od_pop k d -> x ∈ d.
Proof.
  induction d as [|[k' v'] d IH]; cbn; [done|]. destruct (decide (k = k')); [by right|].
  rewrite !elem_of_cons. naive_solver.
Qed.

Lemma od_pop_elem_ne k d k' v : od_wf d -> (k', v) ∈ od_pop k d -> k' <> k.
Proof.
  intros Hwf Hin ->. apply od_elem_get in Hin; [|by apply od_wf_pop]. by rewrite od_get_pop_eq in Hin.
Qed.

Lemma od_get_pop k k' d : od_wf d -> od_get k' (od_pop k d) = if decide (k = k') then None else od_get k' d.
Proof. intros Hwf. case_decide; subst; [by apply od_get_pop_eq|by apply od_get_pop_ne]. Qed.

(** A sum that changes at one key only. *)
Lemma ksum_at f g k v d :
  od_wf d -> od_get k d = Some v -> (forall k' v', (k', v') ∈ d -> k' <> k -> f k' v' = g k' v') ->
  ksum f d = ksum g d + f k v - g k v.
Proof.
  intros Hwf Hk H. rewrite (ksum_pop f k v), (ksum_pop g k v) by done.
  rewrite (ksum_ext f g (od_pop k d)); [lia|]. intros k' v' Hin.
  apply H; [by eapply od_pop_subset|by eapply od_pop_elem_ne].
Qed.
End Sums.

(** The values of a part of the keys of a dictionary, as a sum over it. *)
Lemma ksum_part {K V W} `{EqDecision K} (f : K -> W -> Z) (part : list (K * W)) (d : list (K * V)) :
  od_wf part -> od_wf d -> (forall k w, (k, w) ∈ part -> k ∈ od_keys d) ->
  ksum f part = ksum (fun k _ => match od_get k part with Some w => f k w | None => 0 end) d.
Proof.
  induction part as [|[k w] part IH]; intros Hp Hd Hin.
  - cbn. symmetry. by apply ksum_zero.
  - apply NoDup_cons in Hp as [Hk Hp]. rewrite ksum_cons, IH; [|done|done|intros; eapply Hin; by right].
    destruct (od_get k d) as [v|] eqn:E; [|by apply od_get_None in E; destruct (E (Hin k w ltac:(left)))].
    symmetry. rewrite (ksum_at _ (fun k _ => match od_get k part with Some w => f k w | None => 0 end) k v d); [|done|done|].
    + assert (Hn : od_get k part = None) by (by apply od_get_None). cbn [od_get]. rewrite decide_True, Hn by done. lia.
    + intros k' v' _ Hne. cbn [od_get]. by rewrite decide_False.
Qed.

(** Two dictionaries whose entries are paired by [phi] and [psi]: a sum over
    the paired entries of one is a sum over those of the other. *)
Lemma ksum_paired {K V W} `{EqDecision K} (phi : K -> option K) (psi : W -> option K) (F : K -> K -> Z)
    (A : list (K * V)) (B : list (K * W)) :
  od_wf A -> od_wf B ->
  (forall x k, x ∈ od_keys A -> phi x = Some k -> exists w, od_get k B = Some w /\ psi w = Some x) ->
  (forall k w x, od_get k B = Some w -> psi w = Some x -> phi x = Some k) ->
  ksum (fun x _ => match phi x with Some k => F x k | None => 0 end) A =
  ksum (fun k w => match psi w with Some x => if od_mem x A then F x k else 0 | None => 0 end) B.
Proof.
  intros HA HB Hf Hb. induction A as [|[x v] A IH].
  - cbn. symmetry. apply ksum_zero. intros k w _. by destruct (psi w).
  - apply NoDup_cons in HA as [Hx HA]. rewrite ksum_cons, IH; [|done|intros; apply Hf; [by right|done]].
    assert (Hn : od_get x A = None) by (by apply od_get_None).
    assert (Hmem : forall y, od_mem y ((x, v) :: A) = if decide (y = x) then true else od_mem y A).
    { intros y. unfold od_mem. cbn [od_get]. by destruct (decide (y = x)). }
    destruct (phi x) as [k|] eqn:Ex.
    + destruct (Hf x k ltac:(left) Ex) as (w & Hk & Hw). symmetry.
      rewrite (ksum_at _ (fun k w => match psi w with Some x => if od_mem x A then F x k else 0 | None => 0 end) k w B); [|done|done|].
      * rewrite Hw, Hmem, decide_True by done. unfold od_mem. rewrite Hn. lia.
      * intros k' w' Hin Hne. apply od_elem_get in Hin; [|done]. destruct (psi w') as [y|] eqn:Ey; [|done].
        rewrite Hmem, decide_False; [done|]. intros ->. apply Hne. pose proof (Hb _ _ _ Hin Ey). congruence.
    + apply ksum_ext. intros k w Hin. apply od_elem_get in Hin; [|done]. destruct (psi w) as [y|] eqn:Ey; [|done].
      rewrite Hmem, decide_False; [done|]. intros ->. pose proof (Hb _ _ _ Hin Ey). congruence.
Qed.

(** The sum over a filtered list of values. *)
Lemma filter_sum {V} (p : V -> bool) (f : V -> Z) (l : list V) :
  zsum (map f (List.filter p l)) = zsum (map (fun v => if p v then f v else 0) l).
Proof.
  induction l as [|v l IH]; [done|]. cbn [List.filter map]. destruct (p v); cbn [map]; rewrite ?zsum_cons, IH; lia.
Qed.

Lemma values_sum {K V} (f : V -> Z) (d : list (K * V)) : zsum (map f (od_values d)) = ksum (fun _ => f) d.
Proof. unfold od_values, ksum. by rewrite map_map. Qed.

Lemma zsum_concat l l' : zsum (l ++ l') = zsum l + zsum l'.
Proof. induction l as [|x l IH]; [done|]. cbn [app]. rewrite !zsum_cons, IH. lia. Qed.

(** ** Bytes *)

(** The two dimensions that are integers. *)
Inductive byte_dim := Heap | Objects.

Definition vb (d : byte_dim) (r : ResourceVector) : Z :=
  match d with Heap => r.(r_heap_bytes) | Objects => r.(r_object_store_bytes) end.

(** Outputs occupy the object store only. *)
Definition lv (d : byte_dim) (n : Z) : Z := match d with Heap => 0 | Objects => n end.

Lemma lv_plus d a b : lv d (a + b) = lv d a + lv d b.
Proof. by destruct d. Qed.
Lemma lv_mono d a b : a <= b -> lv d a <= lv d b.
Proof. by destruct d. Qed.
Lemma lv_nonneg d a : 0 <= a -> 0 <= lv d a.
Proof. by destruct d. Qed.
Lemma lv_max d a b : lv d (Z.max a b) = Z.max (lv d a) (lv d b).
Proof. by destruct d. Qed.
Lemma lv_zero d : lv d 0 = 0.
Proof. by destruct d. Qed.

Definition nonneg (r : ResourceVector) : Prop := forall d, 0 <= vb d r.

Lemma new_ok c g h o r : Res.new c g h o = Ok r -> r = MkRes c g h o /\ 0 <= h /\ 0 <= o.
Proof. unfold Res.new, Res.check_float, Res.check_int. intros H. inv_ok. split; [congruence|lia]. Qed.

Lemma new_nonneg c g h o r : Res.new c g h o = Ok r -> nonneg r.
Proof. intros (-> & ? & ?)%new_ok []; cbn; lia. Qed.

Lemma add_vb d a b r : Res.add a b = Ok r -> vb d r = vb d a + vb d b.
Proof. intros (-> & _ & _)%new_ok. by destruct d. Qed.

Lemma with_object_store_vb d r n r' :
  with_object_store r n = Ok r' -> vb d r' = match d with Heap => vb Heap r | Objects => n end.
Proof. intros (-> & _ & _)%new_ok. by destruct d. Qed.

Lemma object_store_vb d n r : object_store n = Ok r -> vb d r = lv d n.
Proof. intros (-> & _ & _)%new_ok. by destruct d. Qed.

Lemma positive_difference_vb d a b r : positive_difference a b = Ok r -> vb d r = Z.max 0 (vb d a - vb d b).
Proof. intros (-> & _ & _)%new_ok. by destruct d. Qed.

Lemma sub_vb d a b r : Res.sub a b = Ok r -> vb d r = vb d a - vb d b.
Proof. unfold Res.sub. intros H. inv_ok. apply new_ok in H as (-> & _ & _). by destruct d. Qed.

Lemma fits_vb d a b : Res.fits_within a b = true -> vb d a <= vb d b.
Proof. unfold Res.fits_within. rewrite !andb_true_iff, !Z.leb_le. intros [[[_ _] ?] ?]. by destruct d. Qed.

Lemma exceeded_vb d a b : Res.exceeded_dimensions a b = [] -> vb d a <= vb d b.
Proof.
  unfold Res.exceeded_dimensions, Res.where_. intros H. cbn in H.
  destruct (f64_lt _ _), (f64_lt _ _); try discriminate H.
  destruct (r_heap_bytes b <? r_heap_bytes a) eqn:E1; [discriminate H|].
  destruct (r_object_store_bytes b <? r_object_store_bytes a) eqn:E2; [discriminate H|]. destruct d; cbn; lia.
Qed.

Lemma add_all_vb d l a r : add_all a l = Ok r -> vb d r = vb d a + zsum (map (vb d) l).
Proof.
  unfold add_all. revert a. induction l as [|x l IH]; intros a H; cbn [rfoldM] in H.
  - injection H as <-. cbn. lia.
  - apply rbind_ok in H as (b & Hb & H). cbn [map]. rewrite zsum_cons. apply IH in H. rewrite H, (add_vb d _ _ _ Hb). lia.
Qed.

(** ** The footprint *)

Section Footprint.
Context (d : byte_dim) (sel : string -> bool) (m : Manager).

Definition task_outputs (x : string) : Z := output_bytes (fun o => String.eqb o.(ol_task_lease_id) x) m.

(** What a task charges: its vector, and its window or what it has put out. *)
Definition lease_cost (l : TaskLease) (live : Z) : Z := vb d l.(tl_resources) + lv d (Z.max l.(tl_output_window_bytes) live).

(** A credit charges the most of what it reserves and what its borrower, or
    else the outputs left behind, need. *)
Definition credit_cost (c : ContinuationCredit) : Z :=
  let live := live_output_bytes_for_credit m c.(cc_credit_id) in
  Z.max (vb d c.(cc_resources))
    match (b ← c.(cc_borrowed_by); od_get b m.(m_task_leases)) with
    | Some l => lease_cost l live
    | None => lv d live
    end.

(** An output nobody accounts for any more: its task and its credit are gone. *)
Definition orphan (o : OutputBlockLease) : bool :=
  match o.(ol_continuation_credit_id) with None => true | Some c => negb (od_mem c m.(m_credits)) end
  && negb (od_mem o.(ol_task_lease_id) m.(m_task_leases)).

Definition resident_bytes : Z :=
  zsum (map (fun pl => match od_get pl.(ap_stage_id) m.(m_stages) with
                       | Some s => vb d s.(ss_spec).(sp_resident_per_actor) | None => 0 end)
    (List.filter (fun pl => sel pl.(ap_node_id)) m.(m_allocation).(al_placements))).

Definition credits_bytes : Z := ksum (fun _ c => if sel c.(cc_node_id) then credit_cost c else 0) m.(m_credits).

Definition leases_bytes : Z :=
  ksum (fun x l => if sel l.(tl_node_id) && negb (od_mem x m.(m_credit_by_borrower))
                   then lease_cost l (task_outputs x) else 0) m.(m_task_leases).

Definition orphan_bytes : Z :=
  ksum (fun _ o => if sel o.(ol_node_id) && orphan o then lv d o.(ol_size_bytes) else 0) m.(m_output_leases).

Definition footprint : Z := resident_bytes + credits_bytes + leases_bytes + orphan_bytes.
End Footprint.

(** ** Coherent books *)

Section Coherent.
Context (uuid : nat -> string).

Definition drawn (m : Manager) (x : string) : Prop := exists n, (n < m.(m_drawn))%nat /\ x = uuid n.

Record coherent (m : Manager) : Prop := {
  co_leases_wf : od_wf m.(m_task_leases);
  co_credits_wf : od_wf m.(m_credits);
  co_borrower_wf : od_wf m.(m_credit_by_borrower);
  co_outputs_wf : od_wf m.(m_output_leases);
  co_lease : forall k l, od_get k m.(m_task_leases) = Some l ->
    l.(tl_lease_id) = k /\ drawn m k /\ nonneg l.(tl_resources);
  co_credit : forall k c, od_get k m.(m_credits) = Some c ->
    c.(cc_credit_id) = k /\ drawn m k /\ nonneg c.(cc_resources);
  co_borrow : forall x k, od_get x m.(m_credit_by_borrower) = Some k ->
    drawn m x /\ exists c, od_get k m.(m_credits) = Some c /\ c.(cc_borrowed_by) = Some x;
  co_borrow_back : forall k c x, od_get k m.(m_credits) = Some c -> c.(cc_borrowed_by) = Some x ->
    od_get x m.(m_credit_by_borrower) = Some k;
  co_borrow_node : forall x l k c, od_get x m.(m_task_leases) = Some l -> od_get x m.(m_credit_by_borrower) = Some k ->
    od_get k m.(m_credits) = Some c -> l.(tl_node_id) = c.(cc_node_id);
  co_output : forall k o, od_get k m.(m_output_leases) = Some o ->
    o.(ol_lease_id) = k /\ drawn m k /\ drawn m o.(ol_task_lease_id) /\ 0 < o.(ol_size_bytes) /\
    (forall c, o.(ol_continuation_credit_id) = Some c -> drawn m c);
  co_output_task : forall k o l, od_get k m.(m_output_leases) = Some o ->
    od_get o.(ol_task_lease_id) m.(m_task_leases) = Some l ->
    o.(ol_node_id) = l.(tl_node_id) /\
    (o.(ol_continuation_credit_id) = None \/
     o.(ol_continuation_credit_id) = od_get o.(ol_task_lease_id) m.(m_credit_by_borrower));
  co_output_credit : forall k o x c, od_get k m.(m_output_leases) = Some o -> o.(ol_continuation_credit_id) = Some x ->
    od_get x m.(m_credits) = Some c -> o.(ol_node_id) = c.(cc_node_id);
}.

Lemma output_in m k o : coherent m -> (k, o) ∈ m.(m_output_leases) -> od_get k m.(m_output_leases) = Some o.
Proof. intros H. apply od_elem_get, H. Qed.

Lemma output_bytes_ksum f m : output_bytes f m = ksum (fun _ o => if f o then o.(ol_size_bytes) else 0) m.(m_output_leases).
Proof. unfold output_bytes. by rewrite filter_sum, values_sum. Qed.

Lemma output_bytes_nonneg f m : coherent m -> 0 <= output_bytes f m.
Proof.
  intros H. rewrite output_bytes_ksum. apply ksum_nonneg. intros k o Hin.
  apply (output_in _ _ _ H), (co_output _ H) in Hin. destruct (f o); lia.
Qed.

End Coherent.

(** The outputs of a running task are charged where the task is charged. *)
Definition tight (m : Manager) (x : string) : Prop :=
  forall k o, od_get k m.(m_output_leases) = Some o -> o.(ol_task_lease_id) = x ->
    o.(ol_continuation_credit_id) = od_get x m.(m_credit_by_borrower).

(** ** The usage is the footprint *)

(** The nodes a scope looks at. *)
Definition in_scope (node : option string) (n : string) : bool :=
  match node with None => true | Some x => String.eqb n x end.

Section Uncovered.
Context (m : Manager) (active : gset string) (node : option string).

Definition owner_credit (o : OutputBlockLease) : option ContinuationCredit :=
  od_get (default "" o.(ol_continuation_credit_id)) m.(m_credits).

Definition loose_bytes (o : OutputBlockLease) : Z :=
  if in_scope node o.(ol_node_id) && bool_decide (owner_credit o = None) && negb (bool_decide (o.(ol_task_lease_id) ∈ active))
  then o.(ol_size_bytes) else 0.

Definition idle_bytes (k : string) (o : OutputBlockLease) : Z :=
  match owner_credit o with
  | Some c => if in_scope node o.(ol_node_id) && negb (borrower_active m c) && String.eqb c.(cc_credit_id) k
              then o.(ol_size_bytes) else 0
  | None => 0
  end.

Lemma od_default_set {V} k k' (v : V) w (dd : list (string * V)) :
  od_get_default k' w (od_set k v dd) = if String.eqb k k' then v else od_get_default k' w dd.
Proof.
  unfold od_get_default. rewrite od_get_set. destruct (String.eqb_spec k k'); [by rewrite decide_True|by rewrite decide_False].
Qed.

Lemma uncovered_fold (outs : list OutputBlockLease) (u : Z) (idle : list (string * Z)) :
  let r := fold_left (uncovered_step m active node) outs (u, idle) in
  r.1 = u + zsum (map loose_bytes outs) /\ (od_wf idle -> od_wf r.2) /\
  (forall k, od_get_default k 0 r.2 = od_get_default k 0 idle + zsum (map (idle_bytes k) outs)) /\
  (forall k, k ∈ od_keys r.2 -> k ∈ od_keys idle \/ exists o c, o ∈ outs /\ owner_credit o = Some c /\ c.(cc_credit_id) = k).
Proof.
  revert u idle. induction outs as [|o outs IH]; intros u idle; cbv zeta.
  - cbn [fold_left map fst snd]. change (zsum []) with 0. split; [lia|]. split; [done|]. split; [intros; lia|auto].
  - cbn [fold_left map]. rewrite zsum_cons.
    set (acc := uncovered_step m active node (u, idle) o). destruct acc as [u1 idle1] eqn:Eacc.
    destruct (IH u1 idle1) as (H1 & H2 & H3 & H4).
    assert (Hs : u1 = u + loose_bytes o /\ (od_wf idle -> od_wf idle1) /\
      (forall k, od_get_default k 0 idle1 = od_get_default k 0 idle + idle_bytes k o) /\
      (forall k, k ∈ od_keys idle1 -> k ∈ od_keys idle \/ exists c, owner_credit o = Some c /\ c.(cc_credit_id) = k)).
    { clear IH H1 H2 H3 H4. subst acc. unfold uncovered_step in Eacc. unfold loose_bytes, idle_bytes, in_scope.
      fold (owner_credit o) in Eacc.
      destruct (match node with Some n => _ | None => _ end) eqn:En.
      { injection Eacc as <- <-. destruct node as [n|]; [|done]. apply negb_true_iff in En. rewrite En. cbn.
        split; [lia|]. split; [done|]. split; [|auto]. intros k. destruct (owner_credit o); lia. }
      assert (Hsc : match node with None => true | Some x => String.eqb o.(ol_node_id) x end = true).
      { destruct node; [by apply negb_false_iff|done]. }
      rewrite Hsc. destruct (owner_credit o) as [c|]; cbn [andb].
      - rewrite bool_decide_eq_false_2 by done. destruct (borrower_active m c); cbn [andb negb] in *; injection Eacc as <- <-.
        + split; [lia|]. split; [done|]. split; [intros; lia|auto].
        + split; [lia|]. split; [apply od_wf_set|]. split.
          * intros k. rewrite od_default_set. destruct (String.eqb_spec (cc_credit_id c) k) as [->|]; lia.
          * intros k. rewrite od_keys_set. case_decide; [auto|]. rewrite elem_of_app, list_elem_of_singleton.
            intros [?| ->]; eauto.
      - rewrite bool_decide_eq_true_2 by done. destruct (bool_decide (_ ∈ active)); injection Eacc as <- <-; cbn [negb andb];
          (split; [lia|]; split; [done|]; split; [intros; lia|auto]). }
    destruct Hs as (Hu & Hwf & Hg & Hk). split; [lia|]. split; [auto|]. split.
    + intros k. rewrite H3, Hg, zsum_cons. lia.
    + intros k Hin. destruct (H4 k Hin) as [Hi|(o' & c & Ho & Hc)]; [|right; exists o', c; split; [by right|done]].
      destruct (Hk k Hi) as [?|(c & Hc)]; [by left|right; exists o, c; split; [by left|done]].
Qed.

Lemma fold_left_same {A B} (f g : B -> A -> B) l acc : (forall t a, f t a = g t a) -> fold_left f l acc = fold_left g l acc.
Proof. intros H. revert acc. induction l as [|a l IH]; intros acc; cbn; [done|]. by rewrite H. Qed.

Lemma fold_left_plus {A} (f : A -> Z) l acc : fold_left (fun t a => t + f a) l acc = acc + zsum (map f l).
Proof. revert acc. induction l as [|a l IH]; intros acc; [cbn [fold_left map]; change (zsum []) with 0; lia|]. cbn [fold_left map]. rewrite IH, zsum_cons. lia. Qed.
End Uncovered.

Section UsageBytes.
Context (uuid : nat -> string) (Hne : forall n, uuid n <> "") (m : Manager) (Hm : coherent uuid m).

Lemma no_empty_credit : od_get "" m.(m_credits) = None.
Proof.
  destruct (od_get "" m.(m_credits)) as [c|] eqn:E; [|done]. apply (co_credit _ _ Hm) in E as (_ & (n & _ & Hn) & _).
  by destruct (Hne n).
Qed.

Lemma owner_credit_eq o :
  owner_credit m o = c ← o.(ol_continuation_credit_id); od_get c m.(m_credits).
Proof. unfold owner_credit. destruct (ol_continuation_credit_id o); [done|apply no_empty_credit]. Qed.

(** Bytes of the outputs a credit in scope accounts for. *)
Lemma idle_bytes_live node k c : od_get k m.(m_credits) = Some c ->
  zsum (map (idle_bytes m node k) (od_values m.(m_output_leases))) =
  if in_scope node c.(cc_node_id) && negb (borrower_active m c) then live_output_bytes_for_credit m k else 0.
Proof.
  intros Hc. rewrite values_sum. unfold live_output_bytes_for_credit. rewrite output_bytes_ksum.
  transitivity (ksum (fun _ o => if in_scope node c.(cc_node_id) && negb (borrower_active m c) then
    (if bool_decide (ol_continuation_credit_id o = Some k) then ol_size_bytes o else 0) else 0) m.(m_output_leases)).
  2: { destruct (_ && _); [done|by apply ksum_zero]. }
  apply ksum_ext. intros x o Hin. apply (output_in _ _ _ _ Hm) in Hin. unfold idle_bytes. rewrite owner_credit_eq.
  destruct (ol_continuation_credit_id o) as [k'|] eqn:Eo; cbn [mbind option_bind].
  2: { rewrite bool_decide_eq_false_2 by done. by destruct (_ && _). }
  destruct (decide (k' = k)) as [->|Hk].
  - rewrite Hc, bool_decide_eq_true_2 by done. destruct (co_credit _ _ Hm _ _ Hc) as (-> & _).
    rewrite String.eqb_refl, andb_true_r. by rewrite (co_output_credit _ _ Hm _ _ _ _ Hin Eo Hc).
  - rewrite (bool_decide_eq_false_2 (Some k' = Some k)) by congruence.
    destruct (od_get k' m.(m_credits)) as [c'|] eqn:Ec'; [|by destruct (_ && _)].
    destruct (co_credit _ _ Hm _ _ Ec') as (-> & _). apply String.eqb_neq in Hk. rewrite Hk, andb_false_r. by destruct (_ && _).
Qed.

(** [_uncovered_inactive_output_bytes_locked] in closed form *)
Lemma uncovered_bytes active node :
  uncovered_inactive_output_bytes m active node =
  ksum (fun _ => loose_bytes m active node) m.(m_output_leases) +
  ksum (fun k c => if in_scope node c.(cc_node_id) && negb (borrower_active m c)
                   then Z.max 0 (live_output_bytes_for_credit m k - vb Objects c.(cc_resources)) else 0) m.(m_credits).
Proof.
  unfold uncovered_inactive_output_bytes.
  destruct (fold_left _ _ _) as [u idle] eqn:E. pose proof (uncovered_fold m active node (od_values m.(m_output_leases)) 0 []) as H.
  rewrite E in H. cbn [fst snd] in H. destruct H as (-> & Hwf & Hg & Hk). specialize (Hwf ltac:(apply NoDup_nil_2)).
  rewrite <- values_sum, Z.add_0_l.
  rewrite (fold_left_same _ (fun t e => t + (match od_get e.1 m.(m_credits) with
    | None => e.2 | Some c => Z.max 0 (e.2 - vb Objects c.(cc_resources)) end)) idle)
    by (intros t [k b]; done).
  rewrite fold_left_plus. f_equal.
  transitivity (ksum (fun k b => match od_get k m.(m_credits) with
    | None => b | Some c => Z.max 0 (b - vb Objects c.(cc_resources)) end) idle); [done|].
  rewrite (ksum_part _ idle m.(m_credits)); [|done|apply Hm|].
  - apply ksum_ext. intros k c Hin. apply od_elem_get in Hin; [|apply Hm]. rewrite Hin.
    specialize (Hg k). rewrite (idle_bytes_live node k c Hin) in Hg. unfold od_get_default in Hg. cbn [od_get default] in Hg.
    destruct (co_credit _ _ Hm _ _ Hin) as (_ & _ & Hn). specialize (Hn Objects).
    destruct (od_get k idle) as [b|]; cbn in Hg; destruct (_ && _); lia.
  - intros k b Hin. destruct (Hk k) as [?|(o & c & _ & Ho & Hc)].
    + apply list_elem_of_fmap. by exists (k, b).
    + by apply not_elem_of_nil in H.
    + rewrite owner_credit_eq in Ho. destruct (ol_continuation_credit_id o) as [x|]; [|done]. cbn in Ho.
      destruct (co_credit _ _ Hm _ _ Ho) as (Hx & _). apply od_get_elem in Ho. apply list_elem_of_fmap.
      exists (x, c). split; [cbn; congruence|done].
Qed.

Context (d : byte_dim).

(** What a task adds to the usage of its scope, on top of its credit. *)
Definition lease_usage (x : string) (l : TaskLease) : Z :=
  match od_get x m.(m_credit_by_borrower) with
  | None => lease_cost d l (task_outputs m x)
  | Some k =>
      match od_get k m.(m_credits) with
      | Some c => Z.max 0 (lease_cost d l (live_output_bytes_for_credit m k) - vb d c.(cc_resources))
      | None => 0
      end
  end.

Lemma with_window_vb r n r' : with_object_store r (r.(r_object_store_bytes) + n) = Ok r' -> vb d r' = vb d r + lv d n.
Proof. intros H. rewrite (with_object_store_vb d _ _ _ H). destruct d; cbn; lia. Qed.

Lemma task_usage_vb l u : task_usage m l = Ok u -> vb d u = lease_usage l.(tl_lease_id) l.
Proof.
  unfold task_usage, lease_usage, live_output_bytes_for_task.
  destruct (od_get (tl_lease_id l) m.(m_credit_by_borrower)) as [k|]; [|apply with_window_vb].
  destruct (od_get k m.(m_credits)) as [c|] eqn:Ec; [|done].
  destruct (bool_decide _); [|done]. unfold borrowed_task_usage. destruct (co_credit _ _ Hm _ _ Ec) as (-> & _).
  intros (combined & H1 & H)%rbind_ok.
  rewrite (positive_difference_vb d _ _ _ H). by rewrite (with_window_vb _ _ _ H1).
Qed.

Lemma tasks_vb ls a r :
  rfoldM (fun total l => let* u := task_usage m l in Res.add total u) a ls = Ok r ->
  vb d r = vb d a + zsum (map (fun l => lease_usage l.(tl_lease_id) l) ls).
Proof.
  revert a. induction ls as [|l ls IH]; intros a H; cbn [rfoldM] in H.
  - injection H as <-. cbn [map]. change (zsum []) with 0. lia.
  - apply rbind_ok in H as (b & Hb & H). apply rbind_ok in Hb as (u & Hu & Hb). cbn [map]. rewrite zsum_cons.
    rewrite (IH _ H), (add_vb d _ _ _ Hb), (task_usage_vb _ _ Hu). lia.
Qed.

Lemma resident_vb node u : actor_resident_usage m node None = Ok u -> vb d u = resident_bytes d (in_scope node) m.
Proof.
  unfold actor_resident_usage, resident_bytes. intros H.
  enough (Hg : forall l a r, rfoldM (fun total pl =>
      if match node with Some n => negb (String.eqb pl.(ap_node_id) n) | None => false end then Ok total
      else if false then Ok total
      else match od_get pl.(ap_stage_id) m.(m_stages) with
           | None => Raise (RuntimeError "actor placement references an unknown query stage")
           | Some s => Res.add total s.(ss_spec).(sp_resident_per_actor)
           end) a l = Ok r ->
    vb d r = vb d a + zsum (map (fun pl => match od_get pl.(ap_stage_id) m.(m_stages) with
                       | Some s => vb d s.(ss_spec).(sp_resident_per_actor) | None => 0 end)
      (List.filter (fun pl => in_scope node pl.(ap_node_id)) l))).
  { rewrite (Hg _ _ _ H). by destruct d. }
  induction l as [|pl l IH]; intros a r Hr; cbn [rfoldM] in Hr.
  - injection Hr as <-. cbn [List.filter map]. change (zsum []) with 0. lia.
  - apply rbind_ok in Hr as (b & Hb & Hr). cbn [List.filter]. rewrite (IH _ _ Hr). unfold in_scope at 2.
    destruct node as [n|].
    + destruct (String.eqb (ap_node_id pl) n); cbn [negb] in Hb; [|by injection Hb as <-].
      destruct (od_get (ap_stage_id pl) m.(m_stages)) as [s|] eqn:Es; [|done]. cbn [map]. rewrite zsum_cons, Es, (add_vb d _ _ _ Hb). lia.
    + destruct (od_get (ap_stage_id pl) m.(m_stages)) as [s|] eqn:Es; [|done]. cbn [map]. rewrite zsum_cons, Es, (add_vb d _ _ _ Hb). lia.
Qed.

Lemma borrower_active_lease k c b : od_get k m.(m_credits) = Some c -> c.(cc_borrowed_by) = Some b ->
  borrower_active m c = od_mem b m.(m_task_leases).
Proof. unfold borrower_active. by intros _ ->. Qed.

(** What a running borrower needs beyond its credit. *)
Definition borrow_extra (x k : string) : Z :=
  match od_get x m.(m_task_leases), od_get k m.(m_credits) with
  | Some l, Some c => Z.max 0 (lease_cost d l (live_output_bytes_for_credit m k) - vb d c.(cc_resources))
  | _, _ => 0
  end.

Lemma leases_split node :
  ksum (fun x l => if in_scope node l.(tl_node_id) then lease_usage x l else 0) m.(m_task_leases) =
  leases_bytes d (in_scope node) m +
  ksum (fun k c => if in_scope node c.(cc_node_id) then
      match c.(cc_borrowed_by) with Some x => if od_mem x m.(m_task_leases) then borrow_extra x k else 0 | None => 0 end
    else 0) m.(m_credits).
Proof.
  transitivity (leases_bytes d (in_scope node) m + ksum (fun x _ => match od_get x m.(m_credit_by_borrower) with
      | Some k => match od_get k m.(m_credits) with
                  | Some c => if in_scope node c.(cc_node_id) then borrow_extra x k else 0 | None => 0 end
      | None => 0 end) m.(m_task_leases)).
  - unfold leases_bytes. rewrite <- ksum_plus. apply ksum_ext. intros x l Hin. apply od_elem_get in Hin; [|apply Hm].
    unfold lease_usage, od_mem, borrow_extra. destruct (od_get x m.(m_credit_by_borrower)) as [k|] eqn:Ex.
    + rewrite andb_false_r. destruct (co_borrow _ _ Hm _ _ Ex) as (_ & c & Ec & _). rewrite Ec, Hin.
      rewrite (co_borrow_node _ _ Hm _ _ _ _ Hin Ex Ec). destruct (in_scope _ _); lia.
    + cbn. rewrite andb_true_r. destruct (in_scope _ _); lia.
  - f_equal. rewrite (ksum_paired (fun x => od_get x m.(m_credit_by_borrower)) cc_borrowed_by (fun x k =>
      match od_get k m.(m_credits) with Some c => if in_scope node c.(cc_node_id) then borrow_extra x k else 0 | None => 0 end)
      m.(m_task_leases) m.(m_credits)); [|apply Hm|apply Hm| |].
    + apply ksum_ext. intros k c Hin. apply od_elem_get in Hin; [|apply Hm]. rewrite Hin.
      destruct (cc_borrowed_by c) as [x|]; [|by destruct (in_scope _ _)]. by destruct (od_mem _ _), (in_scope _ _).
    + intros x k _ Hx. destruct (co_borrow _ _ Hm _ _ Hx) as (_ & c & ? & ?). eauto.
    + intros k c x Hk Hx. by eapply co_borrow_back.
Qed.

(** What is left of the outputs, once tasks and credits have taken theirs. *)
Lemma loose_orphans node active :
  (forall x, x ∈ active <-> exists l, od_get x m.(m_task_leases) = Some l /\ in_scope node l.(tl_node_id) = true) ->
  lv d (ksum (fun _ => loose_bytes m active node) m.(m_output_leases)) = orphan_bytes d (in_scope node) m.
Proof.
  intros Ha. unfold orphan_bytes.
  assert (Hs : forall (f : string -> OutputBlockLease -> Z) l, lv d (ksum f l) = ksum (fun k o => lv d (f k o)) l).
  { intros f l. induction l as [|[k o] l IH]; [apply lv_zero|]. by rewrite !ksum_cons, lv_plus, IH. }
  rewrite Hs. apply ksum_ext. intros k o Hin. apply (output_in _ _ _ _ Hm) in Hin. unfold loose_bytes, orphan.
  rewrite owner_credit_eq. destruct (in_scope node (ol_node_id o)) eqn:Ei; [|apply lv_zero]. cbn [andb].
  assert (Ht : bool_decide (ol_task_lease_id o ∈ active) = od_mem (ol_task_lease_id o) m.(m_task_leases)).
  { unfold od_mem. destruct (od_get (ol_task_lease_id o) m.(m_task_leases)) as [l|] eqn:El.
    - apply bool_decide_eq_true_2, Ha. exists l. split; [done|]. by destruct (co_output_task _ _ Hm _ _ _ Hin El) as [<- _].
    - apply bool_decide_eq_false_2. rewrite Ha, El. naive_solver. }
  rewrite Ht. destruct (ol_continuation_credit_id o) as [c|]; cbn [mbind option_bind].
  - unfold od_mem at 2. destruct (od_get c m.(m_credits)); cbn; [apply lv_zero|]. destruct (od_mem _ _); cbn; [apply lv_zero|done].
  - destruct (od_mem _ _); cbn; [apply lv_zero|done].
Qed.

Lemma credit_split node k c : od_get k m.(m_credits) = Some c ->
  (if in_scope node c.(cc_node_id) then credit_cost d m c else 0) =
  (if in_scope node c.(cc_node_id) then vb d c.(cc_resources) else 0) +
  (if in_scope node c.(cc_node_id) then
      match c.(cc_borrowed_by) with Some x => if od_mem x m.(m_task_leases) then borrow_extra x k else 0 | None => 0 end
    else 0) +
  lv d (if in_scope node c.(cc_node_id) && negb (borrower_active m c)
        then Z.max 0 (live_output_bytes_for_credit m k - vb Objects c.(cc_resources)) else 0).
Proof.
  intros Hk. destruct (co_credit _ _ Hm _ _ Hk) as (Ek & _ & Hn). specialize (Hn d).
  assert (Hl : 0 <= live_output_bytes_for_credit m k) by (eapply output_bytes_nonneg; eauto).
  destruct (in_scope _ _); cbn [andb]; [|rewrite lv_zero; lia]. unfold credit_cost, borrower_active, borrow_extra, od_mem.
  rewrite Ek. destruct (cc_borrowed_by c) as [b|]; cbn [mbind option_bind].
  - destruct (od_get b m.(m_task_leases)) as [l|]; cbn [negb].
    + rewrite Hk, lv_zero. lia.
    + destruct d; cbn in *; lia.
  - cbn [negb]. destruct d; cbn in *; lia.
Qed.

Lemma scope_vb node active r0 r1 r2 rest u :
  vb d r0 = resident_bytes d (in_scope node) m ->
  vb d r1 = vb d r0 + ksum (fun _ c => if in_scope node c.(cc_node_id) then vb d c.(cc_resources) else 0) m.(m_credits) ->
  vb d r2 = vb d r1 + ksum (fun x l => if in_scope node l.(tl_node_id) then lease_usage x l else 0) m.(m_task_leases) ->
  object_store (uncovered_inactive_output_bytes m active node) = Ok rest -> Res.add r2 rest = Ok u ->
  (forall x, x ∈ active <-> exists l, od_get x m.(m_task_leases) = Some l /\ in_scope node l.(tl_node_id) = true) ->
  vb d u = footprint d (in_scope node) m.
Proof.
  intros H0 H1 H2 Hr Hu Ha. rewrite (add_vb d _ _ _ Hu), (object_store_vb d _ _ Hr), H2, H1, H0.
  rewrite uncovered_bytes, lv_plus, (loose_orphans node active Ha), leases_split. unfold footprint, credits_bytes.
  assert (Hs : forall (f : string -> ContinuationCredit -> Z) l, lv d (ksum f l) = ksum (fun k o => lv d (f k o)) l).
  { intros f l. induction l as [|[k o] l IH]; [apply lv_zero|]. by rewrite !ksum_cons, lv_plus, IH. }
  rewrite Hs. rewrite (ksum_ext (fun _ c => if in_scope node (cc_node_id c) then credit_cost d m c else 0) _ m.(m_credits)
    (fun k c Hin => credit_split node k c (od_elem_get _ _ _ (co_credits_wf _ _ Hm) Hin))).
  rewrite !ksum_plus. lia.
Qed.

Lemma lease_keys : forall k l, (k, l) ∈ m.(m_task_leases) -> l.(tl_lease_id) = k.
Proof. intros k l Hin. apply od_elem_get in Hin; [|apply Hm]. by apply (co_lease _ _ Hm) in Hin as (? & _). Qed.

Lemma node_usage_vb n u : node_usage m n = Ok u -> vb d u = footprint d (in_scope (Some n)) m.
Proof.
  unfold node_usage, scope_usage. intros H. inv_ok. eapply (scope_vb (Some n)); [by apply resident_vb| | |done|done|].
  - rewrite (add_all_vb d _ _ _ H1), map_map, filter_sum, values_sum. done.
  - rewrite (tasks_vb _ _ _ H2), filter_sum, values_sum. f_equal. apply ksum_ext. intros k l Hin. by rewrite (lease_keys k l Hin).
  - intros x. rewrite elem_of_list_to_set, list_elem_of_In, in_map_iff. setoid_rewrite filter_In. split.
    + intros (l & <- & Hin & Hn). unfold od_values in Hin. apply in_map_iff in Hin as ([k l'] & <- & Hin).
      apply list_elem_of_In in Hin. cbn [snd]. rewrite (lease_keys k l' Hin). exists l'. split; [apply od_elem_get; [apply Hm|done]|done].
    + intros (l & Hl & Hn). exists l. destruct (co_lease _ _ Hm _ _ Hl) as (-> & _). split; [done|]. split; [|done].
      apply in_map_iff. exists (x, l). split; [done|]. by apply list_elem_of_In, od_get_elem.
Qed.

Lemma query_usage_vb u : query_usage m = Ok u -> vb d u = footprint d (in_scope None) m.
Proof.
  unfold query_usage. intros H. inv_ok. eapply (scope_vb None); [by apply resident_vb| | |done|done|].
  - rewrite (add_all_vb d _ _ _ H1), map_map, values_sum. done.
  - rewrite (tasks_vb _ _ _ H2), values_sum. f_equal. apply ksum_ext. intros k l Hin. by rewrite (lease_keys k l Hin).
  - intros x. rewrite elem_of_list_to_set. unfold od_keys. rewrite list_elem_of_fmap. split.
    + intros ([k l] & -> & Hin). exists l. split; [apply od_elem_get; [apply Hm|done]|done].
    + intros (l & Hl & _). exists (x, l). split; [done|by apply od_get_elem].
Qed.

End UsageBytes.
