(* ===== verification/ResourceSteps.v ===== *)
(** * Elementary changes of the books

    A lease goes, a credit is returned or dropped, an output moves or goes:
    each keeps the books of [ResourceBooks] coherent and never raises the
    footprint of a scope.  A lease or an output comes: the footprint grows by
    what admission has charged for it. *)

From S2P Require Import Prelude PyStr PyVal PyNum AdmissionLedger QueryGraph ResourceState ResourcePlacement ResourceBooks.

#[local] Open Scope string_scope.
#[local] Open Scope list_scope.
#[local] Open Scope Z_scope.

(** The part of the manager the footprint is about. *)
Definition specs (m : Manager) : list (string * StageResourceSpec) := map (fun e => (e.1, e.2.(ss_spec))) m.(m_stages).

Definition same_books (m m' : Manager) : Prop :=
  m'.(m_allocation) = m.(m_allocation) /\ specs m' = specs m /\ m'.(m_task_leases) = m.(m_task_leases) /\
  m'.(m_credits) = m.(m_credits) /\ m'.(m_credit_by_borrower) = m.(m_credit_by_borrower) /\
  m'.(m_output_leases) = m.(m_output_leases) /\ (m.(m_drawn) <= m'.(m_drawn))%nat.

Lemma specs_get m k : od_get k (specs m) = option_map ss_spec (od_get k m.(m_stages)).
Proof. unfold specs. induction m.(m_stages) as [|[k' s] l IH]; cbn; [done|]. by destruct (decide (k = k')). Qed.

Lemma resident_specs d sel m :
  resident_bytes d sel m = zsum (map (fun pl => match od_get pl.(ap_stage_id) (specs m) with
      | Some s => vb d s.(sp_resident_per_actor) | None => 0 end)
    (List.filter (fun pl => sel pl.(ap_node_id)) m.(m_allocation).(al_placements))).
Proof.
  unfold resident_bytes. f_equal. apply map_ext. intros pl. rewrite specs_get. by destruct (od_get _ m.(m_stages)).
Qed.

Lemma footprint_same d sel m m' : same_books m m' -> footprint d sel m' = footprint d sel m.
Proof.
  intros (Ha & Hs & Hl & Hc & Hb & Ho & _). unfold footprint, credits_bytes, leases_bytes, orphan_bytes, credit_cost, orphan,
    task_outputs, live_output_bytes_for_credit, output_bytes. by rewrite !resident_specs, Ha, Hs, Hl, Hc, Hb, Ho.
Qed.

Section Steps.
Context (uuid : nat -> string).

Lemma drawn_mono m m' x : (m.(m_drawn) <= m'.(m_drawn))%nat -> drawn uuid m x -> drawn uuid m' x.
Proof. intros H (n & Hn & ->). exists n. split; [lia|done]. Qed.

Lemma coherent_same m m' : same_books m m' -> coherent uuid m -> coherent uuid m'.
Proof.
  intros (Ha & Hs & Hl & Hc & Hb & Ho & Hd) H. destruct H. constructor; rewrite ?Hl, ?Hc, ?Hb, ?Ho; try done.
  - intros k l E. destruct (co_lease k l E) as (? & ? & ?). eauto using drawn_mono.
  - intros k c E. destruct (co_credit k c E) as (? & ? & ?). eauto using drawn_mono.
  - intros x k E. destruct (co_borrow x k E) as (? & ?). eauto using drawn_mono.
  - intros k o E. destruct (co_output k o E) as (? & ? & ? & ? & ?). eauto 10 using drawn_mono.
Qed.

(** Outputs only count by their sizes. *)
Lemma lease_cost_mono d l a b : a <= b -> lease_cost d l a <= lease_cost d l b.
Proof. intros H. unfold lease_cost. pose proof (lv_mono d (Z.max l.(tl_output_window_bytes) a) (Z.max l.(tl_output_window_bytes) b) ltac:(lia)). lia. Qed.

Lemma lease_cost_live d l a : nonneg l.(tl_resources) -> lv d a <= lease_cost d l a.
Proof.
  intros H. specialize (H d). unfold lease_cost. pose proof (lv_mono d a (Z.max l.(tl_output_window_bytes) a) ltac:(lia)). lia.
Qed.

(** A sum over the outputs that bounds a part of another by the bytes selected. *)
Lemma orphan_growth d sel m m' (f : OutputBlockLease -> bool) (s : bool) :
  coherent uuid m -> m'.(m_output_leases) = m.(m_output_leases) ->
  (forall k o, od_get k m.(m_output_leases) = Some o -> sel o.(ol_node_id) && orphan m' o = true ->
     sel o.(ol_node_id) && orphan m o = true \/ (f o = true /\ s = true)) ->
  orphan_bytes d sel m' <= orphan_bytes d sel m + (if s then lv d (output_bytes f m) else 0).
Proof.
  intros Hm Ho H. unfold orphan_bytes. rewrite Ho, output_bytes_ksum.
  assert (Hs : forall (g : string -> OutputBlockLease -> Z) l, lv d (ksum g l) = ksum (fun k o => lv d (g k o)) l).
  { intros g l. induction l as [|[k o] l IH]; [apply lv_zero|]. by rewrite !ksum_cons, lv_plus, IH. }
  transitivity (ksum (fun k o => (if sel o.(ol_node_id) && orphan m o then lv d o.(ol_size_bytes) else 0) +
    (if s && f o then lv d o.(ol_size_bytes) else 0)) m.(m_output_leases)).
  - apply ksum_le. intros k o Hin. apply (output_in _ _ _ _ Hm) in Hin. destruct (co_output _ _ Hm _ _ Hin) as (_ & _ & _ & Hz & _).
    pose proof (lv_nonneg d o.(ol_size_bytes) ltac:(lia)). specialize (H k o Hin).
    destruct (sel (ol_node_id o) && orphan m' o); [|repeat case_match; lia].
    destruct H as [-> | [-> ->]]; [done| |]; cbn [andb]; repeat case_match; lia.
  - rewrite ksum_plus. enough (ksum (fun k o => if s && f o then lv d o.(ol_size_bytes) else 0) m.(m_output_leases) <=
      if s then lv d (ksum (fun _ o => if f o then o.(ol_size_bytes) else 0) m.(m_output_leases)) else 0) by lia.
    destruct s; cbn [andb].
    + rewrite Hs. apply Z.eq_le_incl, ksum_ext. intros k o _. destruct (f o); [done|]. by rewrite lv_zero.
    + by rewrite ksum_zero.
Qed.

(** ** A lease goes *)

Section DropLease.
Context (m : Manager) (Hm : coherent uuid m) (x : string) (l : TaskLease) (Hx : od_get x m.(m_task_leases) = Some l).

Definition without_lease : Manager := m <| m_task_leases ::= od_pop x |>.

Lemma without_lease_get y : od_get y without_lease.(m_task_leases) = if decide (x = y) then None else od_get y m.(m_task_leases).
Proof. apply od_get_pop, Hm. Qed.

Lemma without_lease_coherent : coherent uuid without_lease.
Proof.
  pose proof without_lease_get as Hg. destruct Hm. constructor; cbn [m_task_leases without_lease] in *; try done.
  - by apply od_wf_pop.
  - intros k l'. rewrite Hg. case_decide; [done|]. apply co_lease.
  - intros y l' k c. rewrite Hg. case_decide; [done|]. apply co_borrow_node.
  - intros k o l'. rewrite Hg. case_decide; [done|]. apply co_output_task.
Qed.

Lemma without_lease_footprint d sel : tight m x -> footprint d sel without_lease <= footprint d sel m.
Proof.
  intros Htight. pose proof without_lease_get as Hg. destruct (co_lease _ _ Hm _ _ Hx) as (_ & _ & Hn).
  unfold footprint. change (resident_bytes d sel without_lease) with (resident_bytes d sel m).
  assert (Hcost : forall k c, od_get k m.(m_credits) = Some c -> credit_cost d without_lease c <=  credit_cost d m c).
  { intros k c Hk. unfold credit_cost. change (live_output_bytes_for_credit without_lease) with (live_output_bytes_for_credit m).
    destruct (cc_borrowed_by c) as [b|]; [|done]. cbn [mbind option_bind]. rewrite Hg. case_decide; [|done]. subst b.
    rewrite Hx. pose proof (lease_cost_live d l (live_output_bytes_for_credit m c.(cc_credit_id)) Hn). lia. }
  assert (Hcredits : credits_bytes d sel without_lease <= credits_bytes d sel m).
  { apply ksum_le. intros k c Hin. apply od_elem_get in Hin; [|apply Hm]. specialize (Hcost k c Hin). destruct (sel _); lia. }
  assert (Hleases : leases_bytes d sel m = leases_bytes d sel without_lease +
    (if sel l.(tl_node_id) && negb (od_mem x m.(m_credit_by_borrower)) then lease_cost d l (task_outputs m x) else 0)).
  { unfold leases_bytes. rewrite (ksum_pop _ x l) by done. rewrite Z.add_comm. done. }
  destruct (od_get x m.(m_credit_by_borrower)) as [k|] eqn:Ek.
  - assert (Ho : orphan_bytes d sel without_lease <= orphan_bytes d sel m + 0).
    { apply (orphan_growth d sel m without_lease (fun _ => false) false Hm eq_refl). intros i o Hi Hor. left.
      rewrite andb_true_iff in *. destruct Hor as [-> Hor]. split; [done|]. unfold orphan in *. rewrite andb_true_iff in *.
      destruct Hor as [Hc Ht]. split; [done|]. unfold od_mem in *. rewrite Hg in Ht. destruct (decide (x = ol_task_lease_id o)) as [E|]; [|done].
      exfalso. pose proof (Htight i o Hi (eq_sym E)) as Ho. rewrite Ho, Ek in Hc.
      destruct (co_borrow _ _ Hm _ _ Ek) as (_ & c & Ec & _). change (m_credits without_lease) with m.(m_credits) in Hc. by rewrite Ec in Hc. }
    unfold od_mem in Hleases. rewrite Ek, andb_false_r in Hleases. lia.
  - assert (Ho : orphan_bytes d sel without_lease <= orphan_bytes d sel m + (if sel l.(tl_node_id) then lv d (task_outputs m x) else 0)).
    { apply (orphan_growth d sel m without_lease _ _ Hm eq_refl). intros i o Hi Hor.
      rewrite !andb_true_iff in *. destruct Hor as [Hs Hor]. unfold orphan in *. rewrite !andb_true_iff in *.
      destruct Hor as [Hc Ht]. unfold od_mem in *. rewrite Hg in Ht. destruct (decide (x = ol_task_lease_id o)) as [E|]; [|auto].
      right. split; [apply String.eqb_eq; congruence|]. rewrite E in Hx. by destruct (co_output_task _ _ Hm _ _ _ Hi Hx) as [<- _]. }
    unfold od_mem in Hleases. rewrite Ek in Hleases. cbn [negb] in Hleases. rewrite andb_true_r in Hleases.
    pose proof (lease_cost_live d l (task_outputs m x) Hn). destruct (sel _); lia.
Qed.
End DropLease.

(** ** A borrowed credit is returned *)

Section ReturnCredit.
Context (m : Manager) (Hm : coherent uuid m) (x k : string) (c : ContinuationCredit).
Context (Hx : od_get x m.(m_task_leases) = None) (Hb : od_get x m.(m_credit_by_borrower) = Some k).
Context (Hk : od_get k m.(m_credits) = Some c) (Hc : c.(cc_borrowed_by) = Some x).

Definition returned : Manager :=
  m <| m_credit_by_borrower ::= od_pop x |> <| m_credits ::= od_set k (c <| cc_borrowed_by := None |>) |>.

Lemma returned_credit y c' : od_get y returned.(m_credits) = Some c' ->
  exists c0, od_get y m.(m_credits) = Some c0 /\ c'.(cc_credit_id) = c0.(cc_credit_id) /\ c'.(cc_node_id) = c0.(cc_node_id) /\
    c'.(cc_resources) = c0.(cc_resources) /\ c'.(cc_borrowed_by) = if decide (k = y) then None else c0.(cc_borrowed_by).
Proof.
  cbn. rewrite od_get_set. case_decide as E; [subst y; intros [= <-]; exists c; eauto|intros H; exists c'; eauto].
Qed.

Lemma returned_borrower y : od_get y returned.(m_credit_by_borrower) = if decide (x = y) then None else od_get y m.(m_credit_by_borrower).
Proof. apply od_get_pop, Hm. Qed.

Lemma returned_mem y : od_mem y returned.(m_credits) = od_mem y m.(m_credits).
Proof. unfold od_mem. cbn. rewrite od_get_set. case_decide; [|done]. subst. by rewrite Hk. Qed.

Lemma returned_coherent : coherent uuid returned.
Proof using Hm Hx Hb Hk Hc.
  pose proof returned_borrower as Hg. pose proof returned_credit as Hr. destruct Hm. constructor; try done.
  - cbn. by apply od_wf_set.
  - cbn. by apply od_wf_pop.
  - intros y c' (c0 & H0 & -> & _ & -> & _)%Hr. by apply co_credit.
  - intros y k'. rewrite Hg. case_decide; [done|]. intros Hy. destruct (co_borrow y k' Hy) as (Hd & c' & Hk' & Hc').
    split; [done|]. exists c'. split; [|done]. cbn. rewrite od_get_set, decide_False; [done|]. intros <-. congruence.
  - intros y c' z (c0 & H0 & _ & _ & _ & E)%Hr Hz. rewrite E in Hz. case_decide; [done|]. pose proof (co_borrow_back _ _ _ H0 Hz) as H1.
    rewrite Hg, decide_False; [done|]. intros <-. congruence.
  - intros y l k' c' Hy Hyk (c0 & H0 & _ & -> & _)%Hr. rewrite Hg in Hyk. case_decide; [done|]. by eapply co_borrow_node.
  - intros i o l Hi Hl. cbn in Hi, Hl. rewrite Hg. rewrite decide_False; [by eapply co_output_task|]. intros E. congruence.
  - intros i o y c' Hi Ho (c0 & H0 & _ & -> & _)%Hr. by eapply co_output_credit.
Qed.

Lemma returned_footprint d sel : footprint d sel returned <= footprint d sel m.
Proof using Hm Hx Hb Hk Hc.
  apply Z.eq_le_incl. unfold footprint. change (resident_bytes d sel returned) with (resident_bytes d sel m). f_equal; [f_equal; [f_equal|]|].
  - unfold credits_bytes. change (m_credits returned) with (od_set k (c <| cc_borrowed_by := None |>) m.(m_credits)).
    rewrite (ksum_set _ k c) by done.
    rewrite (ksum_ext _ (fun _ c => if sel (cc_node_id c) then credit_cost d m c else 0) m.(m_credits)) by done.
    enough (credit_cost d returned (c <| cc_borrowed_by := None |>) = credit_cost d returned c) as E
      by (change (cc_node_id (c <| cc_borrowed_by := None |>)) with (cc_node_id c); destruct (sel _); lia).
    unfold credit_cost. cbn. rewrite Hc. cbn. by rewrite Hx.
  - unfold leases_bytes. apply ksum_ext. intros y l Hy. apply od_elem_get in Hy; [|apply Hm]. cbn in Hy.
    unfold od_mem. rewrite returned_borrower. rewrite decide_False; [done|]. intros <-. congruence.
  - unfold orphan_bytes. apply ksum_ext. intros i o _. unfold orphan.
    destruct (ol_continuation_credit_id o) as [y|]; [|done]. by rewrite returned_mem.
Qed.
End ReturnCredit.

(** ** A credit loses its parent, or goes *)

Section CloseCredit.
Context (m : Manager) (Hm : coherent uuid m) (k : string) (c : ContinuationCredit) (Hk : od_get k m.(m_credits) = Some c).

Definition closed : Manager := m <| m_credits ::= od_set k (c <| cc_parent_active := false |>) |>.

Lemma closed_credit y c' : od_get y closed.(m_credits) = Some c' ->
  exists c0, od_get y m.(m_credits) = Some c0 /\ c'.(cc_credit_id) = c0.(cc_credit_id) /\ c'.(cc_node_id) = c0.(cc_node_id) /\
    c'.(cc_resources) = c0.(cc_resources) /\ c'.(cc_borrowed_by) = c0.(cc_borrowed_by).
Proof.
  cbn. rewrite od_get_set. case_decide as E; [subst y; intros [= <-]; exists c; eauto|intros H; exists c'; eauto].
Qed.

Lemma closed_mem y : od_mem y closed.(m_credits) = od_mem y m.(m_credits).
Proof. unfold od_mem. cbn. rewrite od_get_set. case_decide; [|done]. subst. by rewrite Hk. Qed.

Lemma closed_coherent : coherent uuid closed.
Proof using Hm Hk.
  pose proof closed_credit as Hr. destruct Hm. constructor; try done.
  - cbn. by apply od_wf_set.
  - intros y c' (c0 & H0 & -> & _ & -> & _)%Hr. by apply co_credit.
  - intros y k' Hy. destruct (co_borrow y k' Hy) as (Hd & c' & Hk' & Hc'). split; [done|]. cbn. rewrite od_get_set.
    case_decide; [|eauto]. subst k'. rewrite Hk in Hk'. injection Hk' as <-. eauto.
  - intros y c' z (c0 & H0 & _ & _ & _ & E)%Hr Hz. rewrite E in Hz. by eapply co_borrow_back.
  - intros y l k' c' Hy Hyk (c0 & H0 & _ & -> & _)%Hr. by eapply co_borrow_node.
  - intros i o y c' Hi Ho (c0 & H0 & _ & -> & _)%Hr. by eapply co_output_credit.
Qed.

Lemma closed_footprint d sel : footprint d sel closed = footprint d sel m.
Proof using Hm Hk.
  assert (Hc : credits_bytes d sel closed = credits_bytes d sel m).
  { unfold credits_bytes. change (m_credits closed) with (od_set k (c <| cc_parent_active := false |>) m.(m_credits)).
    rewrite (ksum_set _ k c) by done.
    rewrite (ksum_ext _ (fun _ c => if sel (cc_node_id c) then credit_cost d m c else 0) m.(m_credits)) by done.
    change (cc_node_id (c <| cc_parent_active := false |>)) with (cc_node_id c).
    change (credit_cost d closed (c <| cc_parent_active := false |>)) with (credit_cost d closed c). destruct (sel _); lia. }
  assert (Ho : orphan_bytes d sel closed = orphan_bytes d sel m).
  { unfold orphan_bytes. apply ksum_ext. intros i o _. unfold orphan.
    destruct (ol_continuation_credit_id o) as [y|]; [|done]. by rewrite closed_mem. }
  unfold footprint. rewrite Hc, Ho. done.
Qed.

Context (Hidle : c.(cc_borrowed_by) = None).

Definition without_credit : Manager := m <| m_credits ::= od_pop k |>.

Lemma without_credit_get y : od_get y without_credit.(m_credits) = if decide (k = y) then None else od_get y m.(m_credits).
Proof. apply od_get_pop, Hm. Qed.

Lemma without_credit_coherent : coherent uuid without_credit.
Proof using Hm Hk Hidle.
  pose proof without_credit_get as Hg. destruct Hm. constructor; try done.
  - cbn. by apply od_wf_pop.
  - intros y c'. rewrite Hg. case_decide; [done|]. apply co_credit.
  - intros y k' Hy. destruct (co_borrow y k' Hy) as (Hd & c' & Hk' & Hc'). split; [done|]. exists c'. split; [|done].
    rewrite Hg, decide_False; [done|]. intros <-. congruence.
  - intros y c' z. rewrite Hg. case_decide; [done|]. apply co_borrow_back.
  - intros y l k' c' Hy Hyk. rewrite Hg. case_decide; [done|]. by apply (co_borrow_node y l k').
  - intros i o y c' Hi Ho. rewrite Hg. case_decide; [done|]. by eapply co_output_credit.
Qed.

Lemma without_credit_footprint d sel : footprint d sel without_credit <= footprint d sel m.
Proof using Hm Hk Hidle.
  unfold footprint. change (resident_bytes d sel without_credit) with (resident_bytes d sel m).
  change (leases_bytes d sel without_credit) with (leases_bytes d sel m).
  assert (Hc : credits_bytes d sel m = credits_bytes d sel without_credit + (if sel c.(cc_node_id) then credit_cost d m c else 0)).
  { unfold credits_bytes. rewrite (ksum_pop _ k c) by done. rewrite Z.add_comm. done. }
  destruct (co_credit _ _ Hm _ _ Hk) as (Ek & _ & _).
  assert (Ho : orphan_bytes d sel without_credit <= orphan_bytes d sel m +
    (if sel c.(cc_node_id) then lv d (live_output_bytes_for_credit m k) else 0)).
  { apply (orphan_growth d sel m without_credit _ _ Hm eq_refl). intros i o Hi Hor. rewrite !andb_true_iff in *.
    destruct Hor as [Hs Hor]. unfold orphan in *. rewrite !andb_true_iff in *. destruct Hor as [Hg Ht].
    destruct (ol_continuation_credit_id o) as [y|] eqn:Ey; [|auto]. unfold od_mem in *. rewrite without_credit_get in Hg.
    case_decide as E; [|auto]. subst y. right. split; [by apply bool_decide_eq_true_2|].
    by rewrite <- (co_output_credit _ _ Hm _ _ _ _ Hi Ey Hk). }
  enough (lv d (live_output_bytes_for_credit m k) <= credit_cost d m c) by (destruct (sel _); lia).
  unfold credit_cost. rewrite Hidle, Ek. cbn. lia.
Qed.
End CloseCredit.


(** ** Outputs *)

Section Outputs.
Context (m : Manager) (Hm : coherent uuid m) (k : string).

Definition with_output (o : OutputBlockLease) : Manager := m <| m_output_leases ::= od_set k o |>.

Lemma moved_footprint o st d sel : od_get k m.(m_output_leases) = Some o ->
  footprint d sel (with_output (o <| ol_state := st |>)) = footprint d sel m.
Proof using Hm.
  intros Hk. set (m' := with_output _).
  assert (Hs : forall f : string -> OutputBlockLease -> Z, f k (o <| ol_state := st |>) = f k o ->
    ksum f m'.(m_output_leases) = ksum f m.(m_output_leases)).
  { intros f Hf. change (ksum f (od_set k (o <| ol_state := st |>) m.(m_output_leases)) = ksum f m.(m_output_leases)).
    rewrite (ksum_set _ k o), Hf by done. lia. }
  assert (Hb : forall f : OutputBlockLease -> bool, f (o <| ol_state := st |>) = f o -> output_bytes f m' = output_bytes f m).
  { intros f Hf. rewrite !output_bytes_ksum. apply Hs. by rewrite Hf. }
  assert (Hlive : forall y, live_output_bytes_for_credit m' y = live_output_bytes_for_credit m y) by (intros; by apply Hb).
  assert (Hcost : forall c, credit_cost d m' c = credit_cost d m c) by (intros c; unfold credit_cost; by rewrite Hlive).
  assert (Hc : credits_bytes d sel m' = credits_bytes d sel m) by (apply ksum_ext; intros; by rewrite Hcost).
  assert (Hl : leases_bytes d sel m' = leases_bytes d sel m).
  { apply ksum_ext. intros x l _. unfold task_outputs. by rewrite Hb. }
  assert (Ho : orphan_bytes d sel m' = orphan_bytes d sel m) by (by apply Hs).
  unfold footprint. by rewrite Hc, Hl, Ho.
Qed.

Lemma with_output_get o y : od_get y (with_output o).(m_output_leases) = if decide (k = y) then Some o else od_get y m.(m_output_leases).
Proof. apply od_get_set. Qed.

Lemma moved_coherent o st : od_get k m.(m_output_leases) = Some o -> coherent uuid (with_output (o <| ol_state := st |>)).
Proof using Hm.
  intros Hk. pose proof (with_output_get (o <| ol_state := st |>)) as Hg. destruct Hm. constructor; try done.
  - cbn. by apply od_wf_set.
  - intros y o'. rewrite Hg. case_decide; [|apply co_output]. subst y. intros [= <-]. by apply (co_output k o).
  - intros y o' l. rewrite Hg. case_decide; [|apply co_output_task]. subst y. intros [= <-]. by apply (co_output_task k o).
  - intros y o' x c. rewrite Hg. case_decide; [|apply co_output_credit]. subst y. intros [= <-]. by apply (co_output_credit k o).
Qed.

Definition without_output : Manager := m <| m_output_leases ::= od_pop k |>.

Lemma without_output_coherent : coherent uuid without_output.
Proof using Hm.
  assert (Hg : forall y, od_get y without_output.(m_output_leases) = if decide (k = y) then None else od_get y m.(m_output_leases))
    by (intros y; apply od_get_pop, Hm).
  destruct Hm. constructor; try done.
  - cbn. by apply od_wf_pop.
  - intros y o. rewrite Hg. case_decide; [done|]. apply co_output.
  - intros y o l. rewrite Hg. case_decide; [done|]. apply co_output_task.
  - intros y o x c. rewrite Hg. case_decide; [done|]. apply co_output_credit.
Qed.

Lemma without_output_footprint o d sel : od_get k m.(m_output_leases) = Some o ->
  footprint d sel without_output <= footprint d sel m.
Proof using Hm.
  intros Hk. destruct (co_output _ _ Hm _ _ Hk) as (_ & _ & _ & Hz & _).
  assert (Hb : forall f, output_bytes f without_output <= output_bytes f m).
  { intros f. rewrite !output_bytes_ksum. rewrite (ksum_pop _ k o m.(m_output_leases)) by done.
    change (m_output_leases without_output) with (od_pop k m.(m_output_leases)). destruct (f o); lia. }
  assert (Hcost : forall c, credit_cost d without_output c <= credit_cost d m c).
  { intros c. unfold credit_cost. pose proof (Hb (fun o => bool_decide (ol_continuation_credit_id o = Some (cc_credit_id c)))) as H.
    change (m_task_leases without_output) with (m_task_leases m). destruct (b ← cc_borrowed_by c; od_get b m.(m_task_leases)) as [l|].
    - pose proof (lease_cost_mono d l _ _ H). unfold live_output_bytes_for_credit. lia.
    - pose proof (lv_mono d _ _ H). unfold live_output_bytes_for_credit. lia. }
  assert (Hc : credits_bytes d sel without_output <= credits_bytes d sel m).
  { apply ksum_le. intros x c _. specialize (Hcost c). destruct (sel _); lia. }
  assert (Hl : leases_bytes d sel without_output <= leases_bytes d sel m).
  { apply ksum_le. intros x l _. change (m_credit_by_borrower without_output) with (m_credit_by_borrower m).
    destruct (_ && _); [|lia]. apply lease_cost_mono, Hb. }
  assert (Ho : orphan_bytes d sel without_output <= orphan_bytes d sel m).
  { unfold orphan_bytes. rewrite (ksum_pop _ k o m.(m_output_leases)) by done.
    change (m_output_leases without_output) with (od_pop k m.(m_output_leases)).
    change (orphan without_output) with (orphan m). pose proof (lv_nonneg d o.(ol_size_bytes) ltac:(lia)). destruct (_ && _); lia. }
  unfold footprint. change (resident_bytes d sel without_output) with (resident_bytes d sel m). lia.
Qed.

(** A new output of a running task. *)
Context (o : OutputBlockLease) (l : TaskLease).
Context (Hfresh : od_get k m.(m_output_leases) = None) (Hl : od_get o.(ol_task_lease_id) m.(m_task_leases) = Some l).
Context (Hnode : o.(ol_node_id) = l.(tl_node_id)).
Context (Hsize : 0 < o.(ol_size_bytes)).

Lemma with_output_coherent : o.(ol_lease_id) = k -> drawn uuid m k ->
  o.(ol_continuation_credit_id) = None \/ o.(ol_continuation_credit_id) = od_get o.(ol_task_lease_id) m.(m_credit_by_borrower) ->
  coherent uuid (with_output o).
Proof using Hm Hl Hnode Hsize.
  intros Hid Hd Hcredit. pose proof (with_output_get o) as Hg. destruct Hm. constructor; try done.
  - cbn. by apply od_wf_set.
  - intros y o'. rewrite Hg. case_decide; [|apply co_output]. subst y. intros [= <-]. split; [done|]. split; [done|].
    destruct (co_lease _ _ Hl) as (_ & Hdl & _). split; [done|]. split; [done|]. intros c Hc. destruct Hcredit as [Hcredit|Hcredit]; rewrite Hcredit in Hc; [done|].
    destruct (co_borrow _ _ Hc) as (_ & c' & Hc' & _). by apply co_credit in Hc' as (_ & ? & _).
  - intros y o' l'. rewrite Hg. case_decide; [|apply co_output_task]. subst y. intros [= <-] Hl'. cbn in Hl'.
    rewrite Hl in Hl'. injection Hl' as <-. done.
  - intros y o' x c. rewrite Hg. case_decide; [|apply co_output_credit]. subst y. intros [= <-] Hx Hc.
    rewrite Hnode. destruct Hcredit as [Hcredit|Hcredit]; rewrite Hcredit in Hx; [done|]. by eapply co_borrow_node.
Qed.

Lemma with_output_bytes f : output_bytes f (with_output o) = output_bytes f m + if f o then o.(ol_size_bytes) else 0.
Proof using Hfresh.
  rewrite !output_bytes_ksum. change (m_output_leases (with_output o)) with (od_set k o m.(m_output_leases)).
  by rewrite ksum_set_new.
Qed.

Lemma with_output_task x : task_outputs (with_output o) x =
  task_outputs m x + if String.eqb o.(ol_task_lease_id) x then o.(ol_size_bytes) else 0.
Proof using Hfresh. apply with_output_bytes. Qed.

(** The bytes a block adds to the charge of its task. *)
Definition output_growth : Z :=
  let live := live_output_bytes_for_task m o.(ol_task_lease_id) in
  Z.max l.(tl_output_window_bytes) (live + o.(ol_size_bytes)) - Z.max l.(tl_output_window_bytes) live.

Lemma with_output_orphans d sel : orphan_bytes d sel (with_output o) = orphan_bytes d sel m.
Proof using Hfresh Hl.
  unfold orphan_bytes. change (m_output_leases (with_output o)) with (od_set k o m.(m_output_leases)).
  rewrite ksum_set_new by done. change (orphan (with_output o)) with (orphan m).
  assert (E : orphan m o = false) by (unfold orphan, od_mem; rewrite Hl; apply andb_false_r). rewrite E, andb_false_r. lia.
Qed.

Lemma with_output_footprint d sel :
  o.(ol_continuation_credit_id) = od_get o.(ol_task_lease_id) m.(m_credit_by_borrower) ->
  footprint d sel (with_output o) <= footprint d sel m + if sel l.(tl_node_id) then lv d output_growth else 0.
Proof using Hm Hfresh Hl Hsize.
  intros Hcredit. assert (Hgrow : forall w a, lv d (Z.max w (a + o.(ol_size_bytes))) = lv d (Z.max w a) + lv d (Z.max w (a + o.(ol_size_bytes)) - Z.max w a)).
  { intros. rewrite <- lv_plus. f_equal. lia. }
  unfold footprint. change (resident_bytes d sel (with_output o)) with (resident_bytes d sel m). rewrite with_output_orphans.
  unfold output_growth, live_output_bytes_for_task. fold (task_outputs m o.(ol_task_lease_id)).
  destruct (od_get (ol_task_lease_id o) m.(m_credit_by_borrower)) as [y|] eqn:Ey.
  - assert (Hls : leases_bytes d sel (with_output o) = leases_bytes d sel m).
    { apply ksum_ext. intros x l' Hin. change (m_credit_by_borrower (with_output o)) with (m_credit_by_borrower m).
      rewrite with_output_task. destruct (String.eqb_spec (ol_task_lease_id o) x) as [<-|]; [|by rewrite Z.add_0_r].
      unfold od_mem. by rewrite Ey, andb_false_r. }
    destruct (co_borrow _ _ Hm _ _ Ey) as (_ & c & Ec & Eb). destruct (co_credit _ _ Hm _ _ Ec) as (Eid & _ & _).
    assert (Hlive : forall c', live_output_bytes_for_credit (with_output o) c' =
      live_output_bytes_for_credit m c' + if String.eqb y c' then o.(ol_size_bytes) else 0).
    { intros c'. unfold live_output_bytes_for_credit. rewrite with_output_bytes, Hcredit. f_equal.
      destruct (String.eqb_spec y c') as [->|]; [by rewrite bool_decide_eq_true_2|by rewrite bool_decide_eq_false_2 by congruence]. }
    assert (Hcs : credits_bytes d sel (with_output o) <= credits_bytes d sel m + if sel c.(cc_node_id) then
      lv d (Z.max l.(tl_output_window_bytes) (live_output_bytes_for_credit m y + o.(ol_size_bytes)) -
            Z.max l.(tl_output_window_bytes) (live_output_bytes_for_credit m y)) else 0).
    { unfold credits_bytes. change (m_credits (with_output o)) with (m_credits m).
      rewrite (ksum_at _ (fun _ c => if sel (cc_node_id c) then credit_cost d m c else 0) y c); [|apply Hm|done|].
      - enough (credit_cost d (with_output o) c <= credit_cost d m c +
          lv d (Z.max l.(tl_output_window_bytes) (live_output_bytes_for_credit m y + o.(ol_size_bytes)) -
            Z.max l.(tl_output_window_bytes) (live_output_bytes_for_credit m y))) by (destruct (sel _); lia).
        unfold credit_cost. rewrite Hlive, Eid, String.eqb_refl, Eb. cbn [mbind option_bind].
        change (m_task_leases (with_output o)) with (m_task_leases m). rewrite Hl. unfold lease_cost. rewrite Hgrow.
        pose proof (lv_nonneg d (Z.max l.(tl_output_window_bytes) (live_output_bytes_for_credit m y + o.(ol_size_bytes)) -
            Z.max l.(tl_output_window_bytes) (live_output_bytes_for_credit m y)) ltac:(lia)). lia.
      - intros k' c' Hin Hne. apply od_elem_get in Hin; [|apply Hm]. destruct (co_credit _ _ Hm _ _ Hin) as (E' & _ & _).
        unfold credit_cost. rewrite Hlive, E'. destruct (String.eqb_spec y k'); [congruence|]. by rewrite Z.add_0_r. }
    rewrite (co_borrow_node _ _ Hm _ _ _ _ Hl Ey Ec). lia.
  - assert (Hcs : credits_bytes d sel (with_output o) = credits_bytes d sel m).
    { apply ksum_ext. intros y c _. unfold credit_cost, live_output_bytes_for_credit. rewrite with_output_bytes, Hcredit.
      rewrite bool_decide_eq_false_2 by done. by rewrite Z.add_0_r. }
    assert (Hls : leases_bytes d sel (with_output o) = leases_bytes d sel m + if sel l.(tl_node_id) then
      lv d (Z.max l.(tl_output_window_bytes) (task_outputs m (ol_task_lease_id o) + o.(ol_size_bytes)) -
            Z.max l.(tl_output_window_bytes) (task_outputs m (ol_task_lease_id o))) else 0).
    { unfold leases_bytes. change (m_task_leases (with_output o)) with (m_task_leases m).
      change (m_credit_by_borrower (with_output o)) with (m_credit_by_borrower m).
      rewrite (ksum_at _ (fun x l => if sel (tl_node_id l) && negb (od_mem x m.(m_credit_by_borrower))
        then lease_cost d l (task_outputs m x) else 0) (ol_task_lease_id o) l); [|apply Hm|done|].
      - unfold od_mem. rewrite Ey. cbn [negb]. rewrite andb_true_r, with_output_task, String.eqb_refl. destruct (sel _); [|lia]. unfold lease_cost. rewrite Hgrow. lia.
      - intros x l' _ Hne. rewrite with_output_task.
        destruct (String.eqb_spec (ol_task_lease_id o) x); [congruence|]. by rewrite Z.add_0_r. }
    lia.
Qed.
End Outputs.


(** ** A lease comes *)

Section AddLease.
Context (m : Manager) (Hm : coherent uuid m) (x : string) (l : TaskLease).
Context (Hx : od_get x m.(m_task_leases) = None) (Hb : od_get x m.(m_credit_by_borrower) = None).
Context (Ho : forall k o, od_get k m.(m_output_leases) = Some o -> o.(ol_task_lease_id) <> x).

Definition with_lease : Manager := m <| m_task_leases ::= od_set x l |>.

Lemma with_lease_get y : od_get y with_lease.(m_task_leases) = if decide (x = y) then Some l else od_get y m.(m_task_leases).
Proof. apply od_get_set. Qed.

Lemma with_lease_coherent : l.(tl_lease_id) = x -> drawn uuid m x -> nonneg l.(tl_resources) -> coherent uuid with_lease.
Proof using Hm Hx Hb Ho.
  intros Hid Hd Hn. pose proof with_lease_get as Hg. destruct Hm. constructor; try done.
  - cbn. by apply od_wf_set.
  - intros y l'. rewrite Hg. case_decide; [|apply co_lease]. subst y. by intros [= <-].
  - intros y l' k c. rewrite Hg. case_decide; [|apply co_borrow_node]. subst y. intros _ Hy. cbn in Hy. congruence.
  - intros k o l' Hk. rewrite Hg. rewrite decide_False; [by apply (co_output_task k)|]. intros E. by destruct (Ho k o Hk).
Qed.

Lemma no_outputs : task_outputs m x = 0.
Proof using Hm Ho.
  unfold task_outputs. rewrite output_bytes_ksum. apply ksum_zero. intros k o Hin. apply (output_in _ _ _ _ Hm) in Hin.
  destruct (String.eqb_spec (ol_task_lease_id o) x); [by destruct (Ho k o Hin)|done].
Qed.

Lemma with_lease_footprint d sel :
  footprint d sel with_lease = footprint d sel m + if sel l.(tl_node_id) then lease_cost d l 0 else 0.
Proof using Hm Hx Hb Ho.
  assert (Hc : credits_bytes d sel with_lease = credits_bytes d sel m).
  { apply ksum_ext. intros k c Hin. apply od_elem_get in Hin; [|apply Hm]. unfold credit_cost.
    destruct (cc_borrowed_by c) as [b|] eqn:Eb; [|done]. cbn [mbind option_bind]. rewrite with_lease_get.
    rewrite decide_False; [done|]. intros <-. pose proof (co_borrow_back _ _ Hm _ _ _ Hin Eb). congruence. }
  assert (Hl : leases_bytes d sel with_lease = leases_bytes d sel m + if sel l.(tl_node_id) then lease_cost d l 0 else 0).
  { unfold leases_bytes. change (m_task_leases with_lease) with (od_set x l m.(m_task_leases)). rewrite ksum_set_new by done.
    change (task_outputs with_lease x) with (task_outputs m x). rewrite no_outputs.
    change (m_credit_by_borrower with_lease) with (m_credit_by_borrower m). unfold od_mem at 2. rewrite Hb. cbn [negb].
    by rewrite andb_true_r. }
  assert (Hor : orphan_bytes d sel with_lease = orphan_bytes d sel m).
  { apply ksum_ext. intros k o Hin. apply (output_in _ _ _ _ Hm) in Hin. unfold orphan, od_mem. rewrite with_lease_get.
    rewrite decide_False; [done|]. intros E. by destruct (Ho k o Hin). }
  unfold footprint. rewrite Hc, Hl, Hor. change (resident_bytes d sel with_lease) with (resident_bytes d sel m). lia.
Qed.
End AddLease.

(** A credit of its own for a lease. *)
Section AddCredit.
Context (m : Manager) (Hm : coherent uuid m) (k : string) (c : ContinuationCredit).
Context (Hk : od_get k m.(m_credits) = None) (Hidle : c.(cc_borrowed_by) = None) (Hid : c.(cc_credit_id) = k).
Context (Ho : forall i o, od_get i m.(m_output_leases) = Some o -> o.(ol_continuation_credit_id) <> Some k).

Definition with_credit : Manager := m <| m_credits ::= od_set k c |>.

Lemma with_credit_get y : od_get y with_credit.(m_credits) = if decide (k = y) then Some c else od_get y m.(m_credits).
Proof. apply od_get_set. Qed.

Lemma with_credit_coherent : drawn uuid m k -> nonneg c.(cc_resources) -> coherent uuid with_credit.
Proof using Hm Hk Hidle Hid Ho.
  intros Hd Hn. pose proof with_credit_get as Hg. destruct Hm. constructor; try done.
  - cbn. by apply od_wf_set.
  - intros y c'. rewrite Hg. case_decide; [|apply co_credit]. subst y. by intros [= <-].
  - intros x y Hy. destruct (co_borrow x y Hy) as (Hdx & c' & Hc' & Hb). split; [done|]. exists c'. split; [|done].
    rewrite Hg, decide_False; [done|]. intros <-. congruence.
  - intros y c' x. rewrite Hg. case_decide; [|apply co_borrow_back]. intros [= <-]. congruence.
  - intros x l y c' Hx Hy. rewrite Hg. case_decide; [|by apply (co_borrow_node x l y)]. subst y.
    destruct (co_borrow _ _ Hy) as (_ & c0 & Hc0 & _). congruence.
  - intros i o x c' Hi Hx. rewrite Hg. case_decide; [|by eapply co_output_credit]. subst x. by destruct (Ho i o Hi).
Qed.

Lemma with_credit_footprint d sel : nonneg c.(cc_resources) ->
  footprint d sel with_credit = footprint d sel m + if sel c.(cc_node_id) then vb d c.(cc_resources) else 0.
Proof using Hm Hk Hidle Hid Ho.
  intros Hn. specialize (Hn d).
  assert (Hlive : live_output_bytes_for_credit m k = 0).
  { unfold live_output_bytes_for_credit. rewrite output_bytes_ksum. apply ksum_zero. intros i o Hin.
    apply (output_in _ _ _ _ Hm) in Hin. rewrite bool_decide_eq_false_2; [done|]. by eapply Ho. }
  assert (Hc : credits_bytes d sel with_credit = credits_bytes d sel m + if sel c.(cc_node_id) then vb d c.(cc_resources) else 0).
  { unfold credits_bytes. change (m_credits with_credit) with (od_set k c m.(m_credits)). rewrite ksum_set_new by done.
    assert (E : credit_cost d with_credit c = vb d c.(cc_resources)).
    { unfold credit_cost. change (live_output_bytes_for_credit with_credit) with (live_output_bytes_for_credit m).
      rewrite Hidle, Hid, Hlive, lv_zero. cbn. lia. }
    by rewrite E. }
  assert (Hor : orphan_bytes d sel with_credit = orphan_bytes d sel m).
  { apply ksum_ext. intros i o Hin. apply (output_in _ _ _ _ Hm) in Hin. unfold orphan.
    destruct (ol_continuation_credit_id o) as [y|] eqn:Ey; [|done]. unfold od_mem. rewrite with_credit_get.
    rewrite decide_False; [done|]. intros <-. by destruct (Ho i o Hin). }
  unfold footprint. rewrite Hc, Hor. change (resident_bytes d sel with_credit) with (resident_bytes d sel m).
  change (leases_bytes d sel with_credit) with (leases_bytes d sel m). lia.
Qed.
End AddCredit.

(** A lease that has just come borrows an idle credit on its node. *)
Section Lend.
Context (m : Manager) (Hm : coherent uuid m) (x k : string) (l : TaskLease) (c : ContinuationCredit).
Context (Hx : od_get x m.(m_task_leases) = Some l) (Hb : od_get x m.(m_credit_by_borrower) = None).
Context (Ho : forall i o, od_get i m.(m_output_leases) = Some o -> o.(ol_task_lease_id) <> x).
Context (Hk : od_get k m.(m_credits) = Some c) (Hidle : c.(cc_borrowed_by) = None).
Context (Hnode : l.(tl_node_id) = c.(cc_node_id)).

Definition lent : Manager :=
  m <| m_credits ::= od_set k (c <| cc_borrowed_by := Some x |>) |> <| m_credit_by_borrower ::= od_set x k |>.

Lemma lent_credit y c' : od_get y lent.(m_credits) = Some c' ->
  exists c0, od_get y m.(m_credits) = Some c0 /\ c'.(cc_credit_id) = c0.(cc_credit_id) /\ c'.(cc_node_id) = c0.(cc_node_id) /\
    c'.(cc_resources) = c0.(cc_resources) /\ c'.(cc_borrowed_by) = if decide (k = y) then Some x else c0.(cc_borrowed_by).
Proof.
  cbn. rewrite od_get_set. case_decide as E; [subst y; intros [= <-]; exists c; eauto|intros H; exists c'; eauto].
Qed.

Lemma lent_borrower y : od_get y lent.(m_credit_by_borrower) = if decide (x = y) then Some k else od_get y m.(m_credit_by_borrower).
Proof. apply od_get_set. Qed.

Lemma lent_mem y : od_mem y lent.(m_credits) = od_mem y m.(m_credits).
Proof. unfold od_mem. cbn. rewrite od_get_set. case_decide; [|done]. subst. by rewrite Hk. Qed.

Lemma lent_coherent : coherent uuid lent.
Proof using Hm Hx Hb Ho Hk Hidle Hnode.
  pose proof lent_borrower as Hg. pose proof lent_credit as Hr. destruct Hm. constructor; try done.
  - cbn. by apply od_wf_set.
  - cbn. by apply od_wf_set.
  - intros y c' (c0 & H0 & -> & _ & -> & _)%Hr. by apply co_credit.
  - intros y k'. rewrite Hg. case_decide.
    + subst y. intros [= <-]. split; [by apply co_lease in Hx as (_ & ? & _)|]. cbn. rewrite od_get_set, decide_True by done. eauto.
    + intros Hy. destruct (co_borrow y k' Hy) as (Hd & c' & Hk' & Hc'). split; [done|]. exists c'. split; [|done].
      cbn. rewrite od_get_set, decide_False; [done|]. intros <-. congruence.
  - intros y c' z (c0 & H0 & _ & _ & _ & E)%Hr Hz. rewrite E in Hz. rewrite Hg. case_decide.
    + injection Hz as <-. rewrite decide_True by done. congruence.
    + pose proof (co_borrow_back _ _ _ H0 Hz). rewrite decide_False; [done|]. intros <-. congruence.
  - intros y l' k' c' Hy Hyk (c0 & H0 & _ & -> & _)%Hr. rewrite Hg in Hyk. cbn in Hy. case_decide.
    + subst y. injection Hyk as <-. congruence.
    + by eapply co_borrow_node.
  - intros i o l' Hi Hl. cbn in Hi, Hl. rewrite Hg. rewrite decide_False; [by eapply co_output_task|]. intros E. by destruct (Ho i o Hi).
  - intros i o y c' Hi Hoc (c0 & H0 & _ & -> & _)%Hr. by eapply co_output_credit.
Qed.

Lemma lent_footprint d sel :
  let live := live_output_bytes_for_credit m k in
  footprint d sel lent = footprint d sel m + if sel c.(cc_node_id) then
    Z.max (vb d c.(cc_resources)) (lease_cost d l live) - Z.max (vb d c.(cc_resources)) (lv d live) - lease_cost d l 0 else 0.
Proof using Hm Hx Hb Ho Hk Hidle Hnode.
  cbv zeta. destruct (co_credit _ _ Hm _ _ Hk) as (Eid & _ & _).
  assert (Hc : credits_bytes d sel lent = credits_bytes d sel m + if sel c.(cc_node_id) then
    Z.max (vb d c.(cc_resources)) (lease_cost d l (live_output_bytes_for_credit m k))
    - Z.max (vb d c.(cc_resources)) (lv d (live_output_bytes_for_credit m k)) else 0).
  { unfold credits_bytes. change (m_credits lent) with (od_set k (c <| cc_borrowed_by := Some x |>) m.(m_credits)).
    rewrite (ksum_set _ k c) by done.
    rewrite (ksum_ext _ (fun _ c => if sel (cc_node_id c) then credit_cost d m c else 0) m.(m_credits)) by done.
    assert (E1 : credit_cost d lent (c <| cc_borrowed_by := Some x |>) =
      Z.max (vb d c.(cc_resources)) (lease_cost d l (live_output_bytes_for_credit m k))).
    { unfold credit_cost. cbn. by rewrite Hx, Eid. }
    assert (E2 : credit_cost d lent c = Z.max (vb d c.(cc_resources)) (lv d (live_output_bytes_for_credit m k))).
    { unfold credit_cost. cbn. by rewrite Hidle, Eid. }
    rewrite E1, E2. change (cc_node_id (c <| cc_borrowed_by := Some x |>)) with (cc_node_id c). destruct (sel _); lia. }
  assert (Hl : leases_bytes d sel lent = leases_bytes d sel m - if sel c.(cc_node_id) then lease_cost d l 0 else 0).
  { unfold leases_bytes. change (m_task_leases lent) with (m_task_leases m).
    rewrite (ksum_at _ (fun x l => if sel (tl_node_id l) && negb (od_mem x m.(m_credit_by_borrower))
        then lease_cost d l (task_outputs m x) else 0) x l); [|apply Hm|done|].
    - unfold od_mem. rewrite lent_borrower, decide_True, Hb, (no_outputs m Hm x Ho), Hnode by done. cbn [negb].
      rewrite andb_false_r, andb_true_r. lia.
    - intros y l' _ Hne. unfold od_mem. rewrite lent_borrower. by rewrite decide_False. }
  assert (Hor : orphan_bytes d sel lent = orphan_bytes d sel m).
  { apply ksum_ext. intros i o _. unfold orphan. destruct (ol_continuation_credit_id o) as [y|]; [|done]. by rewrite lent_mem. }
  unfold footprint. rewrite Hc, Hl, Hor. change (resident_bytes d sel lent) with (resident_bytes d sel m). destruct (sel _); lia.
Qed.
End Lend.

End Steps.
