(* ===== verification/ResourceInv.v ===== *)
(** * Ownership in the resource manager

    Who holds what: a credit belongs to the lease that was granted with it
    until that lease ends, and to its borrower until the borrower has ended
    and handed its outputs over; an actor belongs to one lease, the others
    queue for it.  The indices of the manager never contradict each other, so
    the errors that report an inconsistent index are never raised, and giving
    back a lease never raises the footprint. *)

From S2P Require Import Prelude PyStr PyVal PyNum AdmissionLedger QueryGraph ResourceState ResourcePlacement ResourceManager ResourceBooks ResourceSteps.

#[local] Open Scope string_scope.
#[local] Open Scope list_scope.
#[local] Open Scope Z_scope.

(** The footprint does not grow, in any scope and dimension. *)
Definition shrinks (m m' : Manager) : Prop := forall d sel, footprint d sel m' <= footprint d sel m.

Lemma shrinks_trans m1 m2 m3 : shrinks m1 m2 -> shrinks m2 m3 -> shrinks m1 m3.
Proof. intros H1 H2 d sel. specialize (H1 d sel). specialize (H2 d sel). lia. Qed.

Lemma shrinks_same m m' : same_books m m' -> shrinks m m'.
Proof. intros H d sel. by rewrite (footprint_same d sel m m' H). Qed.

(** Only credits and their indices change. *)
Definition credit_change (m m' : Manager) : Prop :=
  exists cr pa bo, m' = m <| m_credits := cr |> <| m_credit_by_parent := pa |> <| m_credit_by_borrower := bo |>.

Lemma credit_change_refl m : credit_change m m.
Proof. exists m.(m_credits), m.(m_credit_by_parent), m.(m_credit_by_borrower). by destruct m. Qed.

Lemma credit_change_trans m1 m2 m3 : credit_change m1 m2 -> credit_change m2 m3 -> credit_change m1 m3.
Proof. intros (c1 & p1 & b1 & ->) (c2 & p2 & b2 & ->). by exists c2, p2, b2. Qed.

Lemma without_credit_change m k : credit_change m (without_credit m k).
Proof. by exists (od_pop k m.(m_credits)), m.(m_credit_by_parent), m.(m_credit_by_borrower). Qed.

(** ** Who owns a credit

    Up to the leases in [ep], whose own credit is about to be closed, and
    those in [eh], whose borrowed credit is about to be returned. *)
Record owned_upto (ep eh : string -> Prop) (m : Manager) : Prop := {
  ow_parent_wf : od_wf m.(m_credit_by_parent);
  ow_parent : forall x k, od_get x m.(m_credit_by_parent) = Some k ->
    (is_Some (od_get x m.(m_task_leases)) \/ ep x) /\
    exists c, od_get k m.(m_credits) = Some c /\ c.(cc_parent_task_lease_id) = x /\ c.(cc_parent_active) = true;
  ow_parent_back : forall k c, od_get k m.(m_credits) = Some c -> c.(cc_parent_active) = true ->
    od_get c.(cc_parent_task_lease_id) m.(m_credit_by_parent) = Some k;
  ow_kept : forall k c, od_get k m.(m_credits) = Some c -> c.(cc_parent_active) = true \/ is_Some c.(cc_borrowed_by);
  ow_held : forall x k, od_get x m.(m_credit_by_borrower) = Some k ->
    is_Some (od_get x m.(m_task_leases)) \/ has_pending_output m x = true \/ eh x;
}.

Definition nobody : string -> Prop := fun _ => False.
Definition owned : Manager -> Prop := owned_upto nobody nobody.

Section Credits.
Context (uuid : nat -> string).

(** Dropping an idle credit without an active parent touches no index. *)
Lemma delete_idle ep eh m k c :
  coherent uuid m -> owned_upto ep eh m -> od_get k m.(m_credits) = Some c -> c.(cc_borrowed_by) = None ->
  od_get c.(cc_parent_task_lease_id) m.(m_credit_by_parent) <> Some k -> delete_credit k m = without_credit m k.
Proof.
  intros Hm Ho Hk Hb Hp. unfold delete_credit. rewrite Hk, Hb. destruct (co_credit _ _ Hm _ _ Hk) as (-> & _ & _).
  by rewrite bool_decide_eq_false_2.
Qed.

Lemma delete_owned ep eh m k c :
  coherent uuid m -> owned_upto ep eh m -> od_get k m.(m_credits) = Some c -> c.(cc_parent_active) = false ->
  c.(cc_borrowed_by) = None -> owned_upto ep eh (without_credit m k).
Proof.
  intros Hm Ho Hk Hp Hb. pose proof (without_credit_get uuid m Hm k) as Hg. destruct Ho. constructor; try done.
  - intros x y Hx. destruct (ow_parent0 x y Hx) as (Hl & c' & Hc' & Hx' & Ha). split; [done|]. exists c'. split; [|done].
    rewrite Hg, decide_False; [done|]. intros <-. congruence.
  - intros y c'. rewrite Hg. case_decide; [done|]. apply ow_parent_back0.
  - intros y c'. rewrite Hg. case_decide; [done|]. apply ow_kept0.
Qed.

(** What the manager is after [maybe_return_credit]. *)
Lemma maybe_return_wp ep t m :
  coherent uuid m -> owned_upto ep (eq t) m ->
  wp (maybe_return_credit t)
    (fun _ m' => coherent uuid m' /\ owned_upto ep nobody m' /\ shrinks m m' /\ credit_change m m' /\
      (forall y, y <> t \/ is_Some (od_get y m.(m_task_leases)) ->
         od_get y m'.(m_credit_by_borrower) = od_get y m.(m_credit_by_borrower))) (fun _ _ => False) m.
Proof.
  intros Hm Ho. unfold maybe_return_credit. apply wp_bind, wp_get. destruct (od_get t m.(m_credit_by_borrower)) as [k|] eqn:Et.
  2: { apply wp_ret. split; [done|]. split; [|split; [by intros d sel|split; [apply credit_change_refl|done]]]. destruct Ho. constructor; try done.
       intros x k Hx. destruct (ow_held0 x k Hx) as [?|[?| <-]]; [auto|auto|congruence]. }
  destruct (od_mem t m.(m_task_leases) || has_pending_output m t) eqn:Ep.
  { apply wp_ret. split; [done|]. split; [|split; [by intros d sel|split; [apply credit_change_refl|done]]]. destruct Ho. constructor; try done.
    intros x k' Hx. destruct (ow_held0 x k' Hx) as [?|[?| <-]]; [auto|auto|]. apply orb_true_iff in Ep as [Ep|Ep]; [|auto].
    left. unfold od_mem in Ep. destruct (od_get t m.(m_task_leases)); [eauto|done]. }
  apply orb_false_iff in Ep as [El Ep]. unfold od_mem in El. destruct (od_get t m.(m_task_leases)) eqn:Hl; [done|]. clear El.
  apply wp_bind, wp_modify. destruct (co_borrow _ _ Hm _ _ Et) as (_ & c & Ec & Eb). rewrite Ec.
  rewrite bool_decide_eq_true_2 by done. apply wp_bind, wp_modify. change (wp
    (if cc_parent_active c then sret tt else smodify (delete_credit (cc_credit_id c)))
    (fun _ m' => coherent uuid m' /\ owned_upto ep nobody m' /\ shrinks m m' /\ credit_change m m' /\
      (forall y, y <> t \/ is_Some (od_get y m.(m_task_leases)) ->
         od_get y m'.(m_credit_by_borrower) = od_get y m.(m_credit_by_borrower))) (fun _ _ => False)
    (returned m t k c)).
  pose proof (returned_coherent uuid m Hm t k c Hl Et Ec Eb) as Hm'.
  pose proof (returned_footprint uuid m Hm t k c Hl Et Ec Eb) as Hf.
  assert (Hch : credit_change m (returned m t k c)) by (eexists _, m.(m_credit_by_parent), _; reflexivity).
  assert (Hrest : forall y, y <> t \/ is_Some (od_get y m.(m_task_leases)) ->
    od_get y (returned m t k c).(m_credit_by_borrower) = od_get y m.(m_credit_by_borrower)).
  { intros y Hy. rewrite (returned_borrower uuid m Hm). rewrite decide_False; [done|]. intros <-.
    destruct Hy as [Hy|[l Hy]]; [done|congruence]. }
  assert (Hheld : forall x k', od_get x (returned m t k c).(m_credit_by_borrower) = Some k' ->
    is_Some (od_get x (returned m t k c).(m_task_leases)) \/ has_pending_output (returned m t k c) x = true \/ nobody x).
  { intros x k'. rewrite (returned_borrower uuid m Hm). case_decide; [done|]. intros Hx.
    destruct (ow_held _ _ _ Ho x k' Hx) as [?|[?| <-]]; [auto|auto|done]. }
  destruct (co_credit _ _ Hm _ _ Ec) as (Eid & _ & _). destruct (cc_parent_active c) eqn:Ea.
  - apply wp_ret. split; [done|]. split; [|done]. destruct Ho. constructor; try done.
    + intros x y Hx. destruct (ow_parent0 x y Hx) as (Hlx & c' & Hc' & Hx' & Ha). split; [done|]. cbn. rewrite od_get_set.
      case_decide; [|eauto]. subst y. rewrite Ec in Hc'. injection Hc' as <-. eauto.
    + intros y c'. cbn. rewrite od_get_set. case_decide; [|apply ow_parent_back0]. subst y. intros [= <-] _. exact (ow_parent_back0 k c Ec Ea).
    + intros y c'. cbn. rewrite od_get_set. case_decide; [|apply ow_kept0]. intros [= <-]. by left.
  - apply wp_modify. set (m1 := returned m t k c) in *.
    assert (Hk1 : od_get k m1.(m_credits) = Some (c <| cc_borrowed_by := None |>)) by (cbn; apply od_get_set_eq).
    (* the books with the credit idle and closed, up to keeping it *)
    assert (Hnp : od_get c.(cc_parent_task_lease_id) m.(m_credit_by_parent) <> Some k).
    { intros E. destruct (ow_parent _ _ _ Ho _ _ E) as (_ & c' & Hc' & _ & Ha). congruence. }
    assert (Hd : delete_credit (cc_credit_id c) m1 = without_credit m1 k).
    { unfold delete_credit. rewrite Eid, Hk1. cbn [cc_borrowed_by cc_parent_task_lease_id cc_credit_id]. cbn. rewrite Eid.
      by rewrite bool_decide_eq_false_2. }
    rewrite Hd. pose proof (without_credit_get uuid m1 Hm' k) as Hg1.
    split; [by eapply without_credit_coherent|]. split.
    + destruct Ho. constructor; try done.
      * intros x y Hx. destruct (ow_parent0 x y Hx) as (Hlx & c' & Hc' & Hx' & Ha'). split; [done|]. exists c'. split; [|done].
        assert (y <> k) by (intros ->; congruence). rewrite Hg1, decide_False by done. cbn. by rewrite od_get_set, decide_False.
      * intros y c'. rewrite Hg1. case_decide; [done|]. cbn. rewrite od_get_set, decide_False by done. apply ow_parent_back0.
      * intros y c'. rewrite Hg1. case_decide; [done|]. cbn. rewrite od_get_set, decide_False by done. apply ow_kept0.
    + split.
      * intros d sel. pose proof (Hf d sel). pose proof (without_credit_footprint uuid m1 Hm' k _ Hk1 eq_refl d sel). lia.
      * split; [|done]. eapply credit_change_trans; [exact Hch|apply without_credit_change].
Qed.

(** What the manager is after [close_own_credit]. *)
Lemma close_own_wp x m :
  coherent uuid m -> owned_upto (eq x) nobody m ->
  wp (close_own_credit x)
    (fun _ m' => coherent uuid m' /\ owned m' /\ shrinks m m' /\ credit_change m m' /\
      m'.(m_credit_by_borrower) = m.(m_credit_by_borrower)) (fun _ _ => False) m.
Proof.
  intros Hm Ho. unfold close_own_credit. apply wp_bind, wp_get. destruct (od_get x m.(m_credit_by_parent)) as [k|] eqn:Ex.
  2: { apply wp_ret. split; [done|]. split; [|split; [by intros d sel|split; [apply credit_change_refl|done]]]. destruct Ho. constructor; try done.
       intros y k Hy. destruct (ow_parent0 y k Hy) as ([?| <-] & ?); [auto|congruence]. }
  apply wp_bind, wp_modify. destruct (ow_parent _ _ _ Ho _ _ Ex) as (_ & c & Ec & Ep & Ea). rewrite Ec, Ep, String.eqb_refl.
  apply wp_bind, wp_modify. set (m0 := m <| m_credit_by_parent ::= od_pop x |>).
  assert (Hm0 : coherent uuid m0) by (destruct Hm; by constructor).
  assert (Hk0 : od_get k m0.(m_credits) = Some c) by done.
  change (wp (if bool_decide (cc_borrowed_by c = None) then smodify (delete_credit (cc_credit_id c)) else sret tt)
    (fun _ m' => coherent uuid m' /\ owned m' /\ shrinks m m' /\ credit_change m m' /\
      m'.(m_credit_by_borrower) = m.(m_credit_by_borrower)) (fun _ _ => False) (closed m0 k c)).
  pose proof (closed_coherent uuid m0 Hm0 k c Hk0) as Hm1. set (m1 := closed m0 k c) in *.
  assert (Hk1 : od_get k m1.(m_credits) = Some (c <| cc_parent_active := false |>)) by (cbn; apply od_get_set_eq).
  assert (Hf : shrinks m m1).
  { intros d sel. unfold m1. rewrite (closed_footprint uuid m0 Hm0 k c Hk0). apply Z.eq_le_incl. done. }
  assert (Hch : credit_change m m1) by (by exists m1.(m_credits), m1.(m_credit_by_parent), m.(m_credit_by_borrower)).
  assert (Hwf : od_wf m1.(m_credit_by_parent)) by (cbn; apply od_wf_pop, Ho).
  assert (Hpar : forall y, od_get y m1.(m_credit_by_parent) = if decide (x = y) then None else od_get y m.(m_credit_by_parent)).
  { intros y. apply od_get_pop, Ho. }
  assert (Hp : forall y k', od_get y m1.(m_credit_by_parent) = Some k' -> k' <> k /\ (is_Some (od_get y m.(m_task_leases)) \/ nobody y) /\
    exists c', od_get k' m.(m_credits) = Some c' /\ c'.(cc_parent_task_lease_id) = y /\ c'.(cc_parent_active) = true).
  { intros y k'. rewrite Hpar. case_decide; [done|]. intros Hy. destruct (ow_parent _ _ _ Ho _ _ Hy) as ([?|?] & c' & Hc' & Hy' & Ha'); [|done].
    split; [intros ->; congruence|]. split; [auto|]. eauto. }
  assert (Hback : forall y c', od_get y m.(m_credits) = Some c' -> y <> k -> c'.(cc_parent_active) = true ->
    od_get c'.(cc_parent_task_lease_id) m1.(m_credit_by_parent) = Some y).
  { intros y c' Hy Hne Hac. pose proof (ow_parent_back _ _ _ Ho _ _ Hy Hac) as E. rewrite Hpar, decide_False; [done|].
    intros E'. rewrite <- E' in E. congruence. }
  destruct (co_credit _ _ Hm _ _ Ec) as (Eid & _ & _). case_bool_decide as Eb.
  - apply wp_modify. pose proof (without_credit_get uuid m1 Hm1 k) as Hg1.
    assert (Hd : delete_credit (cc_credit_id c) m1 = without_credit m1 k).
    { unfold delete_credit. rewrite Eid, Hk1. cbn [cc_borrowed_by]. rewrite bool_decide_eq_false_2.
      - cbn. by rewrite Eb.
      - change (m_credit_by_parent (m1 <| m_credits ::= od_pop k |>)) with (m_credit_by_parent m1). cbn [cc_parent_task_lease_id].
        rewrite Hpar. cbn. by rewrite Ep, decide_True. }
    rewrite Hd. split; [by eapply without_credit_coherent|]. split.
    + destruct Ho. constructor; try done.
      * intros y k' (Hne & Hl & c' & Hc' & Hrest)%Hp. split; [done|]. exists c'. split; [|done].
        rewrite Hg1, decide_False by done. cbn. by rewrite od_get_set, decide_False.
      * intros y c'. rewrite Hg1. case_decide; [done|]. cbn. rewrite od_get_set, decide_False by done. intros. by apply Hback.
      * intros y c'. rewrite Hg1. case_decide; [done|]. cbn. rewrite od_get_set, decide_False by done. apply ow_kept0.
    + split.
      * intros d sel. pose proof (Hf d sel). pose proof (without_credit_footprint uuid m1 Hm1 k _ Hk1 Eb d sel). lia.
      * split; [|done]. eapply credit_change_trans; [exact Hch|apply without_credit_change].
  - apply wp_ret. split; [done|]. split; [|done]. destruct Ho. constructor; try done.
    + intros y k' (Hne & Hl & c' & Hc' & Hrest)%Hp. split; [done|]. exists c'. split; [|done]. cbn. by rewrite od_get_set, decide_False.
    + intros y c'. cbn. rewrite od_get_set. case_decide; [by intros [= <-]|]. intros. by apply Hback.
    + intros y c'. cbn. rewrite od_get_set. case_decide; [|apply ow_kept0]. intros [= <-]. right. cbn.
      destruct (cc_borrowed_by c); [eauto|done].
Qed.
End Credits.

(** ** Who owns an actor *)

(** A lease of the actor at a slot. *)
Definition lease_at (m : Manager) (slot : string * Z) (x : string) : Prop :=
  exists l, od_get x m.(m_task_leases) = Some l /\ l.(tl_stage_id) = slot.1 /\ l.(tl_actor_index) = Some slot.2.

Record slots_ok (m : Manager) : Prop := {
  sl_active_wf : od_wf m.(m_active_slots);
  sl_queued_wf : od_wf m.(m_queued_slots);
  sl_active : forall slot x, od_get slot m.(m_active_slots) = Some x -> lease_at m slot x;
  sl_queue : forall slot q, od_get slot m.(m_queued_slots) = Some q ->
    q <> [] /\ NoDup q /\ (forall x, x ∈ q -> lease_at m slot x) /\
    exists y, od_get slot m.(m_active_slots) = Some y /\ (y ∉ q);
  sl_lease : forall x l i, od_get x m.(m_task_leases) = Some l -> l.(tl_actor_index) = Some i ->
    od_get (l.(tl_stage_id), i) m.(m_active_slots) = Some x \/
    x ∈ od_get_default (l.(tl_stage_id), i) [] m.(m_queued_slots);
  sl_depth : forall slot s, od_get slot.1 (specs m) = Some s -> actor_slot_lease_count m slot <= s.(sp_actor_prefetch_depth);
}.

(** Only the books of the actors change. *)
Definition slot_change (m m' : Manager) : Prop :=
  exists a q, m' = m <| m_active_slots := a |> <| m_queued_slots := q |>.

Lemma slot_change_refl m : slot_change m m.
Proof. exists m.(m_active_slots), m.(m_queued_slots). by destruct m. Qed.

Lemma slot_change_intro m m' : m' = m <| m_active_slots := m'.(m_active_slots) |> <| m_queued_slots := m'.(m_queued_slots) |> ->
  slot_change m m'.
Proof. intros H. by exists m'.(m_active_slots), m'.(m_queued_slots). Qed.

Lemma slot_change_books m m' : slot_change m m' -> same_books m m'.
Proof. intros (a & q & ->). done. Qed.

Lemma elem_remove_one x q y : NoDup q -> y ∈ remove_one x q <-> y ∈ q /\ y <> x.
Proof.
  induction q as [|z q IH]; cbn; [set_solver|]. intros [Hz Hn]%NoDup_cons. destruct (String.eqb_spec z x) as [->|Hne].
  - rewrite elem_of_cons. split; [|naive_solver]. intros Hy. split; [by right|]. by intros ->.
  - rewrite !elem_of_cons, IH by done. naive_solver.
Qed.

Lemma NoDup_remove_one x q : NoDup q -> NoDup (remove_one x q).
Proof.
  induction q as [|z q IH]; cbn; [done|]. intros [Hz Hn]%NoDup_cons. destruct (String.eqb z x); [done|].
  apply NoDup_cons. split; [|by apply IH]. rewrite elem_remove_one by done. naive_solver.
Qed.

Lemma remove_one_length x q : (length (remove_one x q) <= length q)%nat.
Proof. induction q as [|z q IH]; cbn; [done|]. destruct (String.eqb z x); cbn; lia. Qed.

(** The queue of a slot, empty queues left out. *)
Lemma queue_get m slot q :
  od_wf m.(m_queued_slots) -> forall s,
  od_get s (if bool_decide (length q = O) then od_pop slot m.(m_queued_slots) else od_set slot q m.(m_queued_slots)) =
  if decide (slot = s) then (if bool_decide (length q = O) then None else Some q) else od_get s m.(m_queued_slots).
Proof. intros Hwf s. case_bool_decide; [by apply od_get_pop|apply od_get_set]. Qed.

Section FreeSlot.
Context (m : Manager) (x : string) (l : TaskLease) (Hs : slots_ok m).
Context (Hwf : od_wf m.(m_task_leases)) (Hx : od_get x m.(m_task_leases) = Some l) (Hid : l.(tl_lease_id) = x).

(** The books of the actors once [x] is taken out of the slot of its lease. *)
Lemma freed_ok slot a q m' :
  slot.1 = l.(tl_stage_id) -> l.(tl_actor_index) = Some slot.2 ->
  m'.(m_task_leases) = od_pop x m.(m_task_leases) -> specs m' = specs m ->
  od_wf m'.(m_active_slots) -> od_wf m'.(m_queued_slots) ->
  (forall s, od_get s m'.(m_active_slots) = if decide (slot = s) then a else od_get s m.(m_active_slots)) ->
  (forall s, od_get s m'.(m_queued_slots) =
     if decide (slot = s) then (if bool_decide (length q = O) then None else Some q) else od_get s m.(m_queued_slots)) ->
  NoDup q -> (forall y, y ∈ q -> y <> x /\ lease_at m slot y) ->
  (forall y, a = Some y -> y <> x /\ (y ∉ q) /\ lease_at m slot y) -> (a = None -> q = []) ->
  (forall y, y <> x -> lease_at m slot y -> a = Some y \/ y ∈ q) ->
  (if a is Some _ then 1 else 0) + Z.of_nat (length q) <= actor_slot_lease_count m slot ->
  slots_ok m'.
Proof using Hs Hwf Hx.
  intros Hst0 Hi Hl Hsp Hwa Hwq Ha Hq Hnd Hqy Hay Han Hback Hcount.
  assert (Hget : forall y, od_get y m'.(m_task_leases) = if decide (x = y) then None else od_get y m.(m_task_leases)).
  { intros y. rewrite Hl. by apply od_get_pop. }
  assert (Hat : forall s y, y <> x -> lease_at m s y -> lease_at m' s y).
  { intros s y Hne (l' & Hl' & Hr). exists l'. rewrite Hget, decide_False by congruence. done. }
  assert (Hother : forall s y, slot <> s -> lease_at m s y -> y <> x).
  { intros s y Hne (l' & Hl' & Hst & Hix) ->. apply Hne. destruct s, slot. cbn in *. congruence. }
  destruct Hs. constructor; try done.
  - intros s y. rewrite Ha. destruct (decide (slot = s)) as [<-|E]; [ intros Hy; destruct (Hay y Hy) as (? & _ & ?); by apply Hat|].
    intros Hy. apply Hat; [|by apply sl_active0]. eapply Hother; eauto.
  - intros s q'. rewrite Hq. destruct (decide (slot = s)) as [<-|E].
    + case_bool_decide as Eq; [done|]. intros [= <-]. split; [by intros ->|]. split; [done|].
      split; [intros y Hy; destruct (Hqy y Hy); by apply Hat|]. rewrite Ha, decide_True by done.
      destruct a as [y|]; [|by rewrite Han in Eq]. exists y. split; [done|]. by apply Hay.
    + intros Hy. destruct (sl_queue0 s q' Hy) as (H1 & H2 & H3 & y & H4 & H5). split; [done|]. split; [done|].
      split; [intros z Hz; apply Hat; [eapply Hother; eauto|by apply H3]|]. exists y. by rewrite Ha, decide_False.
  - intros y l' i' Hy Hi'. rewrite Hget in Hy. destruct (decide (x = y)) as [E|E]; [done|].
    destruct (decide (slot = (l'.(tl_stage_id), i'))) as [Es|Es].
    + rewrite <- Es. unfold od_get_default. rewrite Ha, Hq, !decide_True by done.
      destruct (Hback y) as [->|Hin]; [congruence| |by left|].
      * exists l'. rewrite Es. done.
      * right. rewrite bool_decide_eq_false_2; [done|]. by destruct q; [apply not_elem_of_nil in Hin|].
    + unfold od_get_default. rewrite Ha, Hq, !decide_False by done. by apply sl_lease0.
  - intros s st. rewrite Hsp. intros Hst. etrans; [|by apply (sl_depth0 s st)]. unfold actor_slot_lease_count, od_mem, od_get_default.
    rewrite Ha, Hq. destruct (decide (slot = s)) as [<-|E]; [|done]. etrans; [|exact Hcount].
    destruct a; case_bool_decide as Eq; cbn; rewrite ?Eq; lia.
Qed.

Lemma free_slot_wp m1 :
  m1 = without_lease m x ->
  wp (free_slot l) (fun _ m' => slots_ok m' /\ slot_change m1 m') (fun _ _ => False) m1.
Proof using Hs Hwf Hx Hid.
  intros ->. unfold free_slot. destruct (tl_actor_index l) as [i|] eqn:Ei.
  2: { apply wp_ret. split; [|apply slot_change_refl].
       assert (Hat : forall s y, lease_at m s y -> lease_at (without_lease m x) s y).
       { intros s y (l' & Hl' & Hst & Hix). exists l'. cbn. rewrite od_get_pop by done. rewrite decide_False; [done|]. intros ->. congruence. }
       destruct Hs. constructor; try done.
       - intros s y Hy. by apply Hat, sl_active0.
       - intros s q Hq. destruct (sl_queue0 s q Hq) as (H1 & H2 & H3 & H4). naive_solver.
       - intros y l' i'. cbn. rewrite od_get_pop by done. case_decide; [done|]. apply sl_lease0. }
  set (slot := (tl_stage_id l, i)). apply wp_bind, wp_get. cbn [m_active_slots m_queued_slots].
  change (m_active_slots (without_lease m x)) with (m_active_slots m).
  change (m_queued_slots (without_lease m x)) with (m_queued_slots m). rewrite Hid.
  assert (Hq : forall y, y ∈ od_get_default slot [] m.(m_queued_slots) -> lease_at m slot y).
  { unfold od_get_default. destruct (od_get slot m.(m_queued_slots)) as [q|] eqn:Eq; [|intros y Hy; by apply not_elem_of_nil in Hy].
    by destruct (sl_queue _ Hs _ _ Eq) as (_ & _ & ? & _). }
  assert (Hnd : NoDup (od_get_default slot [] m.(m_queued_slots))).
  { unfold od_get_default. destruct (od_get slot m.(m_queued_slots)) as [q|] eqn:Eq; [|constructor].
    by destruct (sl_queue _ Hs _ _ Eq) as (_ & ? & _). }
  assert (Howner : forall y, od_get slot m.(m_active_slots) = Some y -> y ∉ od_get_default slot [] m.(m_queued_slots)).
  { unfold od_get_default. intros y Hy. destruct (od_get slot m.(m_queued_slots)) as [q|] eqn:Eq; [|apply not_elem_of_nil].
    destruct (sl_queue _ Hs _ _ Eq) as (_ & _ & _ & z & Hz & Hn). rewrite Hy in Hz. by injection Hz as ->. }
  assert (Hcov : forall y, lease_at m slot y -> od_get slot m.(m_active_slots) = Some y \/ y ∈ od_get_default slot [] m.(m_queued_slots)).
  { intros y (l' & Hl' & Hst & Hix). cbn in Hst, Hix. destruct (sl_lease _ Hs _ _ _ Hl' Hix) as [H|H]; rewrite Hst in H; auto. }
  set (q := od_get_default slot [] m.(m_queued_slots)) in *. case_bool_decide as Eo.
  - assert (Hcount : actor_slot_lease_count m slot = 1 + Z.of_nat (length q)).
    { unfold actor_slot_lease_count, od_mem. by rewrite Eo. }
    pose proof (Howner x Eo) as Hxq. destruct q as [|next q'] eqn:Eq.
    + apply wp_modify. split; [|by apply slot_change_intro]. eapply (freed_ok slot None []); [done|done|reflexivity|done| | | | | | | | | |].
      * apply od_wf_pop, Hs.
      * apply Hs.
      * intros s. apply od_get_pop, Hs.
      * intros s. cbn. destruct (decide (slot = s)) as [<-|E]; [|done]. destruct (od_get slot m.(m_queued_slots)) as [q1|] eqn:E1; [|done].
        destruct (sl_queue _ Hs _ _ E1) as (Hne & _). unfold q, od_get_default in Eq. rewrite E1 in Eq. by destruct Hne.
      * constructor.
      * intros y Hy. by apply not_elem_of_nil in Hy.
      * done.
      * done.
      * intros y Hne Hy. destruct (Hcov y Hy) as [E|E]; [congruence|by apply not_elem_of_nil in E].
      * rewrite Hcount. cbn. lia.
    + apply NoDup_cons in Hnd as [Hnn Hnd]. apply wp_modify. split; [|case_bool_decide; by apply slot_change_intro].
      eapply (freed_ok slot (Some next) q'); [done|done|by case_bool_decide|by case_bool_decide| | | | | | | | | |].
      * case_bool_decide; apply od_wf_set, Hs.
      * case_bool_decide; [apply od_wf_pop, Hs|apply od_wf_set, Hs].
      * intros s. transitivity (od_get s (od_set slot next m.(m_active_slots))); [by case_bool_decide|apply od_get_set].
      * intros s. rewrite <- (queue_get m slot q' (sl_queued_wf _ Hs) s). by case_bool_decide.
      * done.
      * intros y Hy. split; [|apply Hq; by right]. intros ->. apply Hxq. by right.
      * intros y [= <-]. split; [intros ->; apply Hxq; by left|]. split; [done|]. apply Hq. by left.
      * done.
      * intros y Hne Hy. destruct (Hcov y Hy) as [E|E]; [congruence|]. apply elem_of_cons in E as [->|E]; auto.
      * rewrite Hcount. cbn [length]. lia.
  - case_bool_decide as Exq.
    + apply wp_modify. split; [|case_bool_decide; by apply slot_change_intro].
      eapply (freed_ok slot (od_get slot m.(m_active_slots)) (remove_one x q)); [done|done|by case_bool_decide|by case_bool_decide| | | | | | | | | |].
      * case_bool_decide; apply Hs.
      * case_bool_decide; [apply od_wf_pop, Hs|apply od_wf_set, Hs].
      * intros s. destruct (decide (slot = s)) as [<-|E]; by case_bool_decide.
      * intros s. rewrite <- (queue_get m slot (remove_one x q) (sl_queued_wf _ Hs) s). by case_bool_decide.
      * by apply NoDup_remove_one.
      * intros y. rewrite elem_remove_one by done. intros [Hy Hne]. split; [done|by apply Hq].
      * intros y Hy. split; [congruence|]. split; [|by apply (sl_active _ Hs)]. rewrite elem_remove_one by done.
        intros [Hyq _]. by destruct (Howner y Hy).
      * intros En. exfalso. unfold q, od_get_default in Exq. destruct (od_get slot m.(m_queued_slots)) as [q1|] eqn:E1.
        -- destruct (sl_queue _ Hs _ _ E1) as (_ & _ & _ & z & Hz & _). congruence.
        -- by apply not_elem_of_nil in Exq.
      * intros y Hne Hy. rewrite elem_remove_one by done. destruct (Hcov y Hy) as [E|E]; auto.
      * unfold actor_slot_lease_count, od_mem. fold q. pose proof (remove_one_length x q).
        destruct (od_get slot m.(m_active_slots)); lia.
    + exfalso. destruct (Hcov x) as [E|E]; [by exists l|done|done].
Qed.
End FreeSlot.
