(* ===== verification/ResourceCalls.v ===== *)
(** * The calls of the resource manager keep its books

    Every call of [ResourceManager] from coherent books leads to coherent
    books, whether it returns or raises; the errors that would report an
    inconsistent index do not occur. *)

From S2P Require Import Prelude PyStr PyVal PyNum AdmissionLedger QueryGraph ResourceState ResourcePlacement ResourceManager ResourceBooks ResourceSteps ResourceInv.

#[local] Open Scope string_scope.
#[local] Open Scope list_scope.
#[local] Open Scope Z_scope.

(** ** Operations that leave the books alone *)

Definition core_same (m m' : Manager) : Prop :=
  same_books m m' /\ m'.(m_credit_by_parent) = m.(m_credit_by_parent) /\
  m'.(m_active_slots) = m.(m_active_slots) /\ m'.(m_queued_slots) = m.(m_queued_slots).

Lemma core_same_refl m : core_same m m.
Proof. split; [|done]. repeat split; lia. Qed.

Lemma core_same_trans m1 m2 m3 : core_same m1 m2 -> core_same m2 m3 -> core_same m1 m3.
Proof.
  intros ((? & ? & ? & ? & ? & ? & ?) & ? & ? & ?) ((? & ? & ? & ? & ? & ? & ?) & ? & ? & ?).
  split; [|split; [congruence|split; congruence]]. repeat split; try congruence. lia.
Qed.

(** The errors that would mean the manager contradicts itself. *)
Definition internal_errors : list string :=
  ["continuation credit accounting index is inconsistent"; "continuation borrower index is inconsistent";
   "continuation parent index is inconsistent"; "Ray actor slot ownership index is inconsistent";
   "continuation credit changed during atomic task admission";
   "Ray actor prefetch slot changed during atomic task admission";
   "Ray actor task admission requires a concrete actor slot";
   "task admission cannot create and borrow a continuation credit";
   "selected actor node has no free concrete actor slot";
   "cannot grant an output block without an active task lease";
   "actor placement references an unknown query stage"].

Definition benign (e : exn) : Prop := match e with RuntimeError msg => msg ∉ internal_errors | _ => True end.

(** Rejected input is reported with other messages. *)
Lemma benign_msg msg : forallb (fun i => negb (String.eqb msg i)) internal_errors = true -> benign (RuntimeError msg).
Proof.
  rewrite forallb_forall. intros H Hin. apply list_elem_of_In, H in Hin. by rewrite String.eqb_refl in Hin.
Qed.

Definition calm {A} (r : result A) : Prop := forall e, r = Raise e -> benign e.

Lemma calm_ok {A} (a : A) : calm (Ok a).
Proof. done. Qed.
Lemma calm_raise {A} e : benign e -> calm (@Raise A e).
Proof. intros H e' [= <-]. done. Qed.
Lemma calm_bind {A B} (r : result A) (k : A -> result B) : calm r -> (forall a, r = Ok a -> calm (k a)) -> calm (rbind r k).
Proof. intros H Hk e. destruct r as [a|e']; cbn; [by apply Hk|]. intros [= <-]. by apply H. Qed.
Lemma calm_raise_if b e : benign e -> calm (raise_if b e).
Proof. intros H. destruct b; [by apply calm_raise|done]. Qed.
Lemma calm_fold {A B} (f : B -> A -> result B) l b : (forall b a, a ∈ l -> calm (f b a)) -> calm (rfoldM f b l).
Proof.
  revert b. induction l as [|a l IH]; intros b H; cbn; [done|]. apply calm_bind; [apply H; left|]. intros b' _. apply IH.
  intros. apply H. by right.
Qed.
Lemma calm_map {A B} (f : A -> result B) l : (forall a, a ∈ l -> calm (f a)) -> calm (rmapM f l).
Proof.
  induction l as [|a l IH]; intros H; cbn; [done|]. apply calm_bind; [apply H; left|]. intros b _. apply calm_bind.
  - apply IH. intros. apply H. by right.
  - intros. apply calm_ok.
Qed.

(** The books stay as they are, and errors are about the input. *)
Definition neutral {A} (op : ST Manager A) : Prop := forall m, core_same m (op m).2 /\ calm (op m).1.

Lemma neutral_ret {A} (a : A) : neutral (sret a).
Proof. intros m. split; [apply core_same_refl|done]. Qed.
Lemma neutral_raise {A} e : benign e -> neutral (@sraise Manager A e).
Proof. intros H m. split; [apply core_same_refl|by apply calm_raise]. Qed.
Lemma neutral_lift {A} (r : result A) : calm r -> neutral (slift r).
Proof. intros H m. split; [apply core_same_refl|done]. Qed.
Lemma neutral_get : neutral sget.
Proof. intros m. split; [apply core_same_refl|done]. Qed.
Lemma neutral_gets {A} (f : Manager -> A) : neutral (sgets f).
Proof. intros m. split; [apply core_same_refl|done]. Qed.
Lemma neutral_raise_if b e : benign e -> neutral (sraise_if b e).
Proof. intros H m. split; [apply core_same_refl|by apply calm_raise_if]. Qed.
Lemma neutral_bind {A B} (op : ST Manager A) (k : A -> ST Manager B) :
  neutral op -> (forall a, neutral (k a)) -> neutral (sbind op k).
Proof.
  intros H Hk m. unfold sbind. destruct (H m) as [H1 H2]. destruct (op m) as [[a|e] m1]; cbn in *.
  - destruct (Hk a m1) as [H3 H4]. split; [by eapply core_same_trans|done].
  - split; [done|]. intros e' [= <-]. by apply H2.
Qed.
Lemma neutral_modify f : (forall m, core_same m (f m)) -> neutral (smodify f).
Proof. intros H m. by split. Qed.
Lemma neutral_for {A} (l : list A) body : (forall x, neutral (body x)) -> neutral (sfor l body).
Proof. intros H. induction l as [|x l IH]; cbn; [apply neutral_ret|]. apply neutral_bind; auto. Qed.

Lemma specs_set id f m s :
  od_get id m.(m_stages) = Some s -> (f s).(ss_spec) = s.(ss_spec) ->
  map (fun e : string * StageState => (e.1, e.2.(ss_spec))) (od_set id (f s) m.(m_stages)) = specs m.
Proof.
  unfold specs. induction m.(m_stages) as [|[k t] l IH]; cbn; [done|]. destruct (decide (id = k)) as [->|].
  - intros [= ->] H. cbn. by rewrite H.
  - intros H Hf. cbn. by rewrite IH.
Qed.

Lemma neutral_on_stage id f : (forall m s, (f m s).(ss_spec) = s.(ss_spec)) -> neutral (on_stage id f).
Proof.
  intros H m. unfold on_stage. destruct (od_get id m.(m_stages)) as [s|] eqn:E; cbn [fst snd].
  - split; [|done]. split; [|done]. repeat split; [|done]. cbn. by apply (specs_set id (f m)).
  - split; [apply core_same_refl|by apply calm_raise].
Qed.

Lemma neutral_forget {A} (op : ST Manager A) : neutral op -> neutral (forget op).
Proof. intros H. apply neutral_bind; [done|]. intros. apply neutral_ret. Qed.

Lemma neutral_draw uuid : neutral (draw uuid).
Proof. intros m. unfold draw. split; [|done]. split; [|done]. repeat split. cbn. lia. Qed.

(** A change of fields that are not in the books. *)
Ltac core_triv := split; [repeat split; cbn; lia|done].

Lemma neutral_publish : neutral publish.
Proof. intros m. split; [core_triv|done]. Qed.

Lemma neutral_recompute_input id : neutral (recompute_input id).
Proof. apply neutral_on_stage. done. Qed.
Lemma neutral_recompute_output id : neutral (recompute_output id).
Proof. apply neutral_on_stage. done. Qed.

Ltac by_benign :=
  first [exact I | apply benign_msg; reflexivity
        | let H := fresh in cbn; intros H; repeat (apply elem_of_cons in H as [H|H]; [discriminate H|]);
          by apply not_elem_of_nil in H].

Ltac solve_neutral :=
  repeat first
    [ apply neutral_ret | apply neutral_raise; by_benign | apply neutral_get | apply neutral_gets
    | apply neutral_raise_if; by_benign | apply neutral_draw | apply neutral_publish | apply neutral_recompute_input
    | apply neutral_recompute_output | apply neutral_forget
    | apply neutral_bind; [|intros ?]
    | apply neutral_for; intros ?
    | apply neutral_on_stage; intros ? ?; reflexivity
    | apply neutral_modify; intros ?; core_triv
    | match goal with
      | |- neutral (match ?x with _ => _ end) => destruct x
      | |- neutral (if ?b then _ else _) => destruct b
      | |- neutral (let '(_, _) := ?x in _) => destruct x
      end ].

Lemma neutral_registered id : neutral (registered id).
Proof. unfold registered. solve_neutral. Qed.
Lemma neutral_update_stage_state id r a c : neutral (update_stage_state id r a c).
Proof. unfold update_stage_state. solve_neutral. Qed.
Lemma neutral_note_task_waiting p r : neutral (note_task_waiting p r).
Proof. unfold note_task_waiting. solve_neutral. Qed.
Lemma neutral_remove_task_waiter t a : neutral (remove_task_waiter t a).
Proof. unfold remove_task_waiter. solve_neutral. Qed.
Lemma neutral_mark_attempt t a : neutral (mark_task_attempt_terminal t a).
Proof. unfold mark_task_attempt_terminal. solve_neutral. Qed.
Lemma neutral_note_output_waiting p r : neutral (note_output_waiting p r).
Proof. unfold note_output_waiting. solve_neutral. Qed.
Lemma neutral_remove_output_waiter b : neutral (remove_output_waiter b).
Proof. unfold remove_output_waiter. solve_neutral. Qed.
Lemma neutral_mark_block b : neutral (mark_output_block_terminal b).
Proof. unfold mark_output_block_terminal. solve_neutral. Qed.
Lemma neutral_external w : neutral (set_external_consumer_waiting w).
Proof. unfold set_external_consumer_waiting. solve_neutral. Qed.
Lemma neutral_actor_ready id r : neutral (set_stage_actor_ready id r).
Proof. unfold set_stage_actor_ready. solve_neutral. Qed.
Lemma neutral_close : neutral close_admission.
Proof. unfold close_admission. solve_neutral. Qed.
Lemma neutral_wake_stage p r : neutral (wake_stage p r).
Proof. unfold wake_stage. solve_neutral. Qed.
Lemma neutral_with_epoch g : neutral (with_epoch g).
Proof. unfold with_epoch. solve_neutral. Qed.

Create HintDb neutral.
#[export] Hint Resolve neutral_update_stage_state neutral_note_task_waiting neutral_remove_task_waiter neutral_mark_attempt
  neutral_note_output_waiting neutral_remove_output_waiter neutral_mark_block neutral_external neutral_actor_ready
  neutral_close neutral_wake_stage neutral_with_epoch neutral_registered : neutral.

(** ** The invariant *)

Section Invariant.
Context (p : Plan) (uuid : nat -> string).

Definition plan_specs : list (string * StageResourceSpec) := map (fun s => (s.(sp_stage_id), s)) p.(p_graph).(g_stages).

Record sane (m : Manager) : Prop := {
  iv_co : coherent uuid m;
  iv_owned : owned m;
  iv_slots : slots_ok m;
  iv_specs : specs m = plan_specs;
}.

(** The books between two calls. *)
Definition inv (m : Manager) : Prop := sane m /\ forall x, is_Some (od_get x m.(m_task_leases)) -> tight m x.

Lemma owned_same ep eh m m' : core_same m m' -> owned_upto ep eh m -> owned_upto ep eh m'.
Proof.
  intros ((_ & _ & Hl & Hc & Hb & Ho & _) & Hp & _ & _) []. constructor; unfold has_pending_output; rewrite ?Hl, ?Hc, ?Hb, ?Ho, ?Hp; done.
Qed.

Lemma slots_same m m' : m'.(m_task_leases) = m.(m_task_leases) -> specs m' = specs m ->
  m'.(m_active_slots) = m.(m_active_slots) -> m'.(m_queued_slots) = m.(m_queued_slots) -> slots_ok m -> slots_ok m'.
Proof.
  intros Hl Hs Ha Hq []. constructor; unfold lease_at, actor_slot_lease_count; rewrite ?Hl, ?Hs, ?Ha, ?Hq; done.
Qed.

Lemma sane_same m m' : core_same m m' -> sane m -> sane m'.
Proof.
  intros H []. pose proof H as ((Ha & Hs & Hl & Hc & Hb & Ho & Hd) & Hp & Hsa & Hsq). constructor.
  - eapply coherent_same; [apply H|done].
  - by eapply owned_same.
  - by apply (slots_same m).
  - congruence.
Qed.

Lemma inv_same m m' : core_same m m' -> inv m -> inv m'.
Proof.
  intros H [H1 H2]. split; [by eapply sane_same|]. destruct H as ((_ & _ & Hl & _ & Hb & Ho & _) & _).
  unfold tight. rewrite Hl, Hb, Ho. exact H2.
Qed.

Lemma core_same_shrinks m m' : core_same m m' -> shrinks m m'.
Proof. intros [H _]. by apply shrinks_same. Qed.

(** Every outcome of an operation keeps the invariant and the footprint. *)
Definition quiet {A} (op : ST Manager A) : Prop :=
  forall m, inv m -> inv (op m).2 /\ shrinks m (op m).2 /\ calm (op m).1.

Lemma neutral_quiet {A} (op : ST Manager A) : neutral op -> quiet op.
Proof. intros H m Hm. destruct (H m) as [H1 H2]. split; [by eapply inv_same|]. split; [by apply core_same_shrinks|done]. Qed.

(** ** The end of a lease *)

Lemma owned_without_lease m x : coherent uuid m -> owned m -> owned_upto (eq x) (eq x) (without_lease m x).
Proof.
  intros Hm Ho. destruct Ho. assert (Hg : forall y, is_Some (od_get y m.(m_task_leases)) -> is_Some (od_get y (without_lease m x).(m_task_leases)) \/ x = y).
  { intros y Hy. rewrite (without_lease_get uuid m Hm). case_decide; auto. }
  constructor; try done.
  - intros y k Hy. destruct (ow_parent y k Hy) as ([H|[]] & ?). split; [by apply Hg|done].
  - intros y k Hy. destruct (ow_held y k Hy) as [H|[H|[]]]; [|auto]. destruct (Hg y H); auto.
Qed.

(** The books of the tasks that go on are untouched. *)
Definition others_kept (x : string) (m m' : Manager) : Prop :=
  m'.(m_task_leases) = od_pop x m.(m_task_leases) /\ m'.(m_output_leases) = m.(m_output_leases) /\
  m'.(m_allocation) = m.(m_allocation) /\
  forall y, y <> x -> od_get y m'.(m_credit_by_borrower) = od_get y m.(m_credit_by_borrower).

Lemma others_tight x m m' : coherent uuid m -> others_kept x m m' ->
  (forall y, is_Some (od_get y m.(m_task_leases)) -> y <> x -> tight m y) ->
  forall y, is_Some (od_get y m'.(m_task_leases)) -> tight m' y.
Proof.
  intros Hm (Hl & Ho & _ & Hb) H y Hy. rewrite Hl, od_get_pop in Hy by apply Hm.
  destruct (decide (x = y)) as [|Hne]; [by destruct Hy|]. unfold tight. rewrite Ho, Hb by congruence. apply H; [done|congruence].
Qed.

Lemma retire_wp x l terminal m :
  sane m -> od_get x m.(m_task_leases) = Some l ->
  wp (retire_lease x l terminal)
    (fun _ m' => sane m' /\ (tight m x -> shrinks m m') /\ others_kept x m m') (fun _ _ => False) m.
Proof.
  intros Hm Hx. pose proof (iv_co _ Hm) as Hc. destruct (co_lease _ _ Hc _ _ Hx) as (Hid & _ & _).
  unfold retire_lease, on_task_lease_removed. apply wp_bind, wp_modify.
  change (m <| m_task_leases ::= od_pop x |>) with (without_lease m x).
  pose proof (without_lease_coherent uuid m Hc x) as H1.
  apply wp_bind, wp_bind. eapply wp_mono; [eapply (free_slot_wp m x l); eauto; [apply Hm|apply Hc]| |done].
  intros _ m2 [Hs2 Hch]. pose proof (slot_change_books _ _ Hch) as Hb2. pose proof (coherent_same _ _ _ Hb2 H1) as Hc2.
  assert (Ho2 : owned_upto (eq x) (eq x) m2).
  { destruct Hch as (a & q & ->). pose proof (owned_without_lease m x Hc (iv_owned _ Hm)) as []. by constructor. }
  apply wp_bind. rewrite Hid. eapply wp_mono; [by apply (maybe_return_wp uuid)| |done].
  intros _ m3 (Hc3 & Ho3 & Hf3 & Hch3 & Hr3).
  eapply wp_mono; [by apply (close_own_wp uuid)| |done]. intros _ m4 (Hc4 & Ho4 & Hf4 & Hch4 & Hr4).
  pose proof (credit_change_trans _ _ _ Hch3 Hch4) as Hch24.
  assert (Hm4 : sane m4).
  { constructor; [done|done| |].
    - eapply (slots_same m2); [..|done]; by destruct Hch24 as (cr & pa & bo & ->).
    - rewrite <- (iv_specs _ Hm). destruct Hch24 as (cr & pa & bo & ->), Hch as (a & q & ->). done. }
  assert (Hf4' : tight m x -> shrinks m m4).
  { intros Ht d sel. pose proof (without_lease_footprint uuid m Hc x l Hx d sel Ht).
    pose proof (shrinks_same _ _ Hb2 d sel). pose proof (Hf3 d sel). pose proof (Hf4 d sel). lia. }
  assert (Hfr : others_kept x m m4).
  { split; [|split; [|split]]; [destruct Hch24 as (cr & pa & bo & ->), Hch as (a & q & ->); done..|].
    intros y Hy. rewrite Hr4, Hr3 by auto. by destruct Hch as (a & q & ->). }
  assert (Hend : forall m5, core_same m4 m5 -> sane m5 /\ (tight m x -> shrinks m m5) /\ others_kept x m m5).
  { intros m5 H5. split; [by eapply sane_same|]. split; [intros Ht; eapply shrinks_trans; [by apply Hf4'|by apply core_same_shrinks]|].
    destruct H5 as ((Ha & _ & Hl & _ & Hb & Ho & _) & _). unfold others_kept. rewrite Ha, Hl, Hb, Ho. exact Hfr. }
  apply wp_bind, wp_modify, wp_bind. destruct terminal.
  - apply wp_modify, wp_bind, wp_modify, wp_modify, Hend. unfold clear_liveness_task. case_bool_decide; core_triv.
  - apply wp_ret, wp_bind, wp_modify, wp_modify, Hend. unfold clear_liveness_task. case_bool_decide; core_triv.
Qed.

(** ** Composition *)

(** The outcome of an operation that may not raise the footprint. *)
Definition settled (m m' : Manager) : Prop := inv m' /\ shrinks m m'.

Lemma settled_same m m1 m2 : settled m m1 -> core_same m1 m2 -> settled m m2.
Proof. intros [H1 H2] H. split; [by eapply inv_same|]. by eapply shrinks_trans, core_same_shrinks. Qed.

Lemma quiet_wp {A} (op : ST Manager A) :
  (forall m, inv m -> wp op (fun _ => settled m) (fun e m' => benign e /\ settled m m') m) -> quiet op.
Proof.
  intros H m Hm. specialize (H m Hm). unfold wp in H. destruct (op m) as [[a|e] m']; cbn.
  - destruct H. done.
  - destruct H as (He & ? & ?). split; [done|]. split; [done|]. by intros e' [= <-].
Qed.

Lemma wp_neutral {A} (op : ST Manager A) (Q : Manager -> Prop) m :
  neutral op -> (forall m', core_same m m' -> Q m') -> wp op (fun _ => Q) (fun e m' => benign e /\ Q m') m.
Proof.
  intros H HQ. destruct (H m) as [H1 H2]. unfold wp. destruct (op m) as [[a|e] m']; cbn in *; [by apply HQ|].
  split; [by apply H2|by apply HQ].
Qed.

Lemma quiet_neutral_tail {A B} (op : ST Manager A) (k : A -> ST Manager B) :
  quiet op -> (forall a, neutral (k a)) -> quiet (sbind op k).
Proof.
  intros H Hk m Hm. destruct (H m Hm) as (H1 & H2 & H3). unfold sbind. destruct (op m) as [[a|e] m1]; cbn in *.
  - destruct (Hk a m1) as [H4 H5]. split; [by eapply inv_same|]. split; [by eapply shrinks_trans, core_same_shrinks|done].
  - split; [done|]. split; [done|]. intros e' [= <-]. by apply H3.
Qed.

(** ** Outputs move and go *)

Lemma pending_iff m x : coherent uuid m ->
  has_pending_output m x = true <->
  exists k o, od_get k m.(m_output_leases) = Some o /\ o.(ol_task_lease_id) = x /\ (o.(ol_state) ∉ [DownstreamInput; ExternalConsumer]).
Proof.
  intros Hm. unfold has_pending_output. rewrite existsb_exists. split.
  - intros (o & Hin & H). rewrite andb_true_iff, String.eqb_eq, negb_true_iff, bool_decide_eq_false in H. unfold od_values in Hin.
    apply in_map_iff in Hin as ([k o'] & <- & Hin). apply list_elem_of_In in Hin. exists k, o'. split; [by apply (output_in _ _ _ _ Hm)|done].
  - intros (k & o & Hk & Hx & Hs). exists o. split.
    + apply in_map_iff. exists (k, o). split; [done|]. by apply list_elem_of_In, od_get_elem.
    + rewrite andb_true_iff, String.eqb_eq, negb_true_iff, bool_decide_eq_false. done.
Qed.

(** The books after the outputs of one task have changed. *)
Lemma owned_outputs m m' t :
  coherent uuid m -> coherent uuid m' -> owned m -> m'.(m_task_leases) = m.(m_task_leases) -> m'.(m_credits) = m.(m_credits) ->
  m'.(m_credit_by_parent) = m.(m_credit_by_parent) -> m'.(m_credit_by_borrower) = m.(m_credit_by_borrower) ->
  (forall k o, od_get k m.(m_output_leases) = Some o -> o.(ol_task_lease_id) <> t -> od_get k m'.(m_output_leases) = Some o) ->
  owned_upto nobody (eq t) m'.
Proof.
  intros Hm Hm' Ho Hl Hc Hp Hb Hout. destruct Ho. constructor; rewrite ?Hl, ?Hc, ?Hp, ?Hb; try done.
  intros x k Hx. destruct (ow_held x k Hx) as [?|[Hpend|[]]]; [auto|]. destruct (decide (t = x)) as [?|Hne]; [auto|]. right. left.
  apply (pending_iff m x Hm) in Hpend as (i & o & Hi & Hx' & Hs). apply (pending_iff m' x Hm'). exists i, o. split; [|done].
  apply Hout; congruence.
Qed.

Lemma wp_unbind {A B} (op : ST Manager A) (k : A -> ST Manager B) Q E m :
  wp (sbind op k) Q E m -> wp op (fun a => wp (k a) Q E) E m.
Proof. unfold wp, sbind. by destruct (op m) as [[a|e] m1]. Qed.

(** Returning what the task of an output borrowed. *)
Lemma return_after_output m m' t {A} (k : ST Manager A) :
  inv m -> coherent uuid m' -> shrinks m m' -> owned_upto nobody (eq t) m' -> m'.(m_task_leases) = m.(m_task_leases) ->
  m'.(m_active_slots) = m.(m_active_slots) -> m'.(m_queued_slots) = m.(m_queued_slots) -> specs m' = specs m ->
  (forall x, is_Some (od_get x m'.(m_task_leases)) -> tight m' x) -> neutral k ->
  wp (let! _ := maybe_return_credit t in k) (fun _ => settled m) (fun e m2 => benign e /\ settled m m2) m'.
Proof.
  intros [Hm _] Hc Hf Ho Hl Ha Hq Hs Ht Hk. apply wp_bind. eapply wp_mono; [by apply (maybe_return_wp uuid)| |done].
  intros _ m2 (Hc2 & Ho2 & Hf2 & Hch & Hr2). apply wp_neutral; [done|]. intros m3 H3. eapply settled_same; [|exact H3].
  split; [|by eapply shrinks_trans]. split.
  - constructor; [done|done| |].
    + eapply (slots_same m); [..|apply Hm]; destruct Hch as (cr & pa & bo & ->); done.
    + rewrite <- (iv_specs _ Hm), <- Hs. by destruct Hch as (cr & pa & bo & ->).
  - assert (E : m2.(m_task_leases) = m'.(m_task_leases) /\ m2.(m_output_leases) = m'.(m_output_leases))
      by (by destruct Hch as (cr & pa & bo & ->)). destruct E as [E1 E2].
    intros x Hx. unfold tight. rewrite E2, Hr2 by (right; by rewrite <- E1). apply Ht. by rewrite <- E1.
Qed.

Lemma quiet_release_output id : quiet (release_output_block id).
Proof.
  apply quiet_wp. intros m Hinv. pose proof Hinv as [Hm Htight]. pose proof (iv_co _ Hm) as Hc.
  unfold release_output_block. apply wp_bind, wp_get.
  destruct (od_get id m.(m_output_leases)) as [o|] eqn:Eo; [|apply wp_ret; split; [done|by intros d sel]].
  apply wp_bind, wp_modify. set (m1 := clear_liveness_output id _).
  assert (H1 : core_same (without_output m id) m1) by (subst m1; unfold clear_liveness_output; case_bool_decide; core_triv).
  pose proof (without_output_coherent uuid m Hc id) as Hc0. destruct H1 as (Hb1 & Hp1 & Ha1 & Hq1).
  pose proof (coherent_same _ _ _ Hb1 Hc0) as Hc1. pose proof Hb1 as (_ & Hs & Hl & Hcr & Hb & Ho & _).
  apply (return_after_output m m1); try done.
  - intros d sel. pose proof (without_output_footprint uuid m Hc id o d sel Eo). pose proof (shrinks_same _ _ Hb1 d sel). lia.
  - apply (owned_outputs m m1); try done; [apply Hm|].
    intros k o' Hk Hne. rewrite Ho. cbn. rewrite od_get_pop by apply Hc. rewrite decide_False; [done|]. intros ->. congruence.
  - intros x Hx k o' Hk. rewrite Hb. rewrite Hl in Hx. rewrite Ho in Hk. cbn in Hk. rewrite od_get_pop in Hk by apply Hc.
    destruct (decide (id = k)); [done|]. by apply Htight with k.
  - solve_neutral.
Qed.

Lemma quiet_transition id st : quiet (transition_output_block id st).
Proof.
  apply quiet_wp. intros m Hinv. pose proof Hinv as [Hm Htight]. pose proof (iv_co _ Hm) as Hc. unfold transition_output_block.
  assert (Hself : settled m m) by (split; [done|by intros d sel]).
  destruct (parse_output_state st) as [target|] eqn:Et; [|by apply wp_raise].
  enough (Hgoal : target <> Released -> wp (let! m := sget in
      match od_get id m.(m_output_leases) with
      | None => sret false
      | Some o =>
          let! _ := sraise_if (negb (output_state_index target =? output_state_index o.(ol_state) + 1))
            (ValueError ("invalid output lease transition: " +:+ output_state_name o.(ol_state) +:+ " -> " +:+ st)) in
          let! _ := smodify (fun m => m <| m_output_leases ::= od_set id (o <| ol_state := target |>) |>) in
          let! _ := if bool_decide (target = DownstreamInput)
            then let! _ := smodify (clear_liveness_output id) in maybe_return_credit o.(ol_task_lease_id)
            else sret tt in
          let! _ := recompute_output o.(ol_producer_stage_id) in
          let! _ := publish in
          sret true
      end) (fun _ => settled m) (fun e m' => benign e /\ settled m m') m).
  { destruct target; try (by apply Hgoal). by apply wp_raise. }
  intros Hnr. apply wp_bind, wp_get. destruct (od_get id m.(m_output_leases)) as [o|] eqn:Eo; [|by apply wp_ret].
  apply wp_bind, wp_raise_if; [|done]. intros Hix%negb_false_iff%Z.eqb_eq. apply wp_bind, wp_modify.
  change (m <| m_output_leases ::= od_set id (o <| ol_state := target |>) |>) with (with_output m id (o <| ol_state := target |>)).
  pose proof (moved_coherent uuid m Hc id o target Eo) as Hc1. set (m1 := with_output m id _) in *.
  assert (Hf1 : shrinks m m1) by (intros d sel; unfold m1; by rewrite (moved_footprint uuid m Hc id o target d sel Eo)).
  assert (Ho1 : owned_upto nobody (eq o.(ol_task_lease_id)) m1).
  { apply (owned_outputs m m1); try done; [apply Hm|]. intros k o' Hk Hne. unfold m1. rewrite with_output_get.
    rewrite decide_False; [done|]. intros ->. congruence. }
  assert (Ht1 : forall x, is_Some (od_get x m1.(m_task_leases)) -> tight m1 x).
  { intros x Hx k o'. unfold m1. rewrite with_output_get. destruct (decide (id = k)) as [<-|]; [|by apply Htight].
    intros [= <-]. exact (Htight x Hx id o Eo). }
  case_bool_decide as Ed.
  - apply wp_bind, wp_bind, wp_modify. set (m2 := clear_liveness_output id m1).
    assert (H2 : core_same m1 m2) by (subst m2; unfold clear_liveness_output; case_bool_decide; core_triv).
    pose proof H2 as (Hb2 & Hp2 & Ha2 & Hq2). pose proof (coherent_same _ _ _ Hb2 Hc1) as Hc2.
    pose proof Hb2 as (_ & Hs & Hl & _ & Hb & Ho & _).
    apply wp_unbind, (return_after_output m m2); try done.
    + by eapply shrinks_trans, shrinks_same.
    + by eapply owned_same.
    + unfold tight. rewrite Hl, Hb, Ho. exact Ht1.
    + solve_neutral.
  - apply wp_bind, wp_ret. apply wp_neutral; [solve_neutral|]. intros m2 H2. eapply settled_same; [|exact H2].
    split; [|done]. split; [|done]. constructor; [done| | |].
    + destruct (iv_owned _ Hm). constructor; try done. intros x k Hx. destruct (ow_held x k Hx) as [?|[Hp|[]]]; [by left|]. right. left.
      apply (pending_iff m x Hc) in Hp as (i & o' & Hi & Hx' & Hs). apply (pending_iff m1 x Hc1).
      destruct (decide (id = i)) as [<-|Hne]; [|exists i, o'; split; [|done]; unfold m1; by rewrite with_output_get, decide_False].
      exists id, (o <| ol_state := target |>). unfold m1. rewrite with_output_get, decide_True by done. split; [done|].
      assert (o' = o) as -> by congruence. split; [done|]. cbn. intros Hin.
      destruct target, (ol_state o); cbn in Hix; try lia; try done; set_solver.
    + eapply (slots_same m); [..|apply Hm]; done.
    + apply (iv_specs _ Hm).
Qed.

(** ** Cancellation *)

Lemma recompute_all (recompute : string -> ST Manager unit) ids m :
  (forall id, exists f, recompute id = on_stage id f /\ forall m s, (f m s).(ss_spec) = s.(ss_spec)) ->
  (forall id, id ∈ ids -> id ∈ od_keys (specs m)) ->
  wp (sfor ids recompute) (fun _ => core_same m) (fun _ _ => False) m.
Proof.
  intros Hr Hids. apply (wp_for _ (core_same m)); [|apply core_same_refl]. intros id m1 Hid Hm1.
  destruct (Hr id) as (f & -> & Hf). destruct (neutral_on_stage id f Hf m1) as [H _]. unfold wp, on_stage in *.
  specialize (Hids id Hid). destruct Hm1 as ((Ha & Hs & Hm1) & Hm1'). rewrite <- Hs in Hids.
  destruct (od_get id m1.(m_stages)) as [s|] eqn:E.
  - eapply core_same_trans; [|exact H]. done.
  - apply not_elem_of_nil with id. exfalso. apply od_get_None in Hids; [done|]. by rewrite specs_get, E.
Qed.

Lemma footprint_resident d sel m : coherent uuid m -> resident_bytes d sel m <= footprint d sel m.
Proof.
  intros Hm. unfold footprint.
  assert (0 <= credits_bytes d sel m).
  { apply ksum_nonneg. intros k c Hin. apply od_elem_get in Hin; [|apply Hm]. destruct (co_credit _ _ Hm _ _ Hin) as (_ & _ & Hn).
    specialize (Hn d). unfold credit_cost. destruct (sel _); lia. }
  assert (0 <= leases_bytes d sel m).
  { apply ksum_nonneg. intros x l Hin. apply od_elem_get in Hin; [|apply Hm]. destruct (co_lease _ _ Hm _ _ Hin) as (_ & _ & Hn).
    pose proof (lease_cost_live d l (task_outputs m x) Hn). pose proof (lv_nonneg d (task_outputs m x) ltac:(by eapply output_bytes_nonneg)).
    destruct (_ && _); lia. }
  assert (0 <= orphan_bytes d sel m).
  { apply ksum_nonneg. intros k o Hin. apply (output_in _ _ _ _ Hm) in Hin. destruct (co_output _ _ Hm _ _ Hin) as (_ & _ & _ & Hz & _).
    pose proof (lv_nonneg d o.(ol_size_bytes) ltac:(lia)). destruct (_ && _); lia. }
  lia.
Qed.

(** Books in which nothing is left. *)
Lemma empty_inv m :
  m.(m_task_leases) = [] -> m.(m_credits) = [] -> m.(m_credit_by_parent) = [] -> m.(m_credit_by_borrower) = [] ->
  m.(m_output_leases) = [] -> m.(m_active_slots) = [] -> m.(m_queued_slots) = [] -> specs m = plan_specs ->
  (forall id s, od_get id plan_specs = Some s -> 0 <= s.(sp_actor_prefetch_depth)) -> inv m.
Proof.
  intros Hl Hc Hp Hb Ho Ha Hq Hs Hd. split; [|intros x Hx; rewrite Hl in Hx; by destruct Hx]. constructor; [| | |done].
  - constructor; rewrite ?Hl, ?Hc, ?Hb, ?Ho; try done; apply NoDup_nil_2.
  - constructor; rewrite ?Hl, ?Hc, ?Hb, ?Hp; try done; apply NoDup_nil_2.
  - constructor; unfold lease_at, actor_slot_lease_count, od_mem, od_get_default; rewrite ?Hl, ?Ha, ?Hq; try done; try apply NoDup_nil_2.
    intros slot s. rewrite Hs. apply Hd.
Qed.

Context (Hdepth : forall id s, od_get id plan_specs = Some s -> 0 <= s.(sp_actor_prefetch_depth)).

Lemma quiet_cancel reason : quiet (cancel reason).
Proof using Hdepth.
  apply quiet_wp. intros m Hinv. pose proof Hinv as [Hm _]. unfold cancel. apply wp_bind, wp_get.
  destruct (m_cancelled m); [by apply wp_ret; split; [|intros d sel]|].
  apply wp_bind, wp_modify. set (m1 := set_field m_waiting_tasks _ _).
  assert (Hids : forall m2, specs m2 = specs m -> forall id, id ∈ od_keys m.(m_stages) -> id ∈ od_keys (specs m2)).
  { intros m2 -> id Hid. unfold specs, od_keys. by rewrite map_map. }
  apply wp_bind. eapply wp_mono; [apply (recompute_all recompute_input)| |done].
  { intros id. eexists. split; [reflexivity|]. done. }
  { by apply Hids. }
  intros ? m2 H2. apply wp_bind, wp_modify. set (m3 := set_field m_waiting_outputs _ _).
  destruct H2 as ((Ha2 & Hs2 & Hl2 & Hc2 & Hb2 & Ho2 & Hd2) & Hp2 & Hsa2 & Hsq2).
  apply wp_bind. eapply wp_mono; [apply (recompute_all recompute_output)| |done].
  { intros id. eexists. split; [reflexivity|]. done. }
  { apply Hids. exact Hs2. }
  intros ? m4 ((Ha4 & Hs4 & Hl4 & Hc4 & Hb4 & Ho4 & Hd4) & Hp4 & Hsa4 & Hsq4). apply wp_bind, wp_modify.
  set (m5 := set_field m_cancel_reason _ _).
  assert (H5 : inv m5).
  { apply empty_inv; try done.
    - exact (eq_trans Hl4 Hl2). - exact (eq_trans Hc4 Hc2). - exact (eq_trans Hp4 Hp2). - exact (eq_trans Hb4 Hb2).
    - exact (eq_trans Hsa4 Hsa2). - exact (eq_trans Hsq4 Hsq2).
    - etransitivity; [exact Hs4|]. etransitivity; [exact Hs2|]. apply (iv_specs _ Hm). }
  apply wp_neutral; [solve_neutral|]. intros m6 H6. eapply settled_same; [|exact H6]. split; [done|]. intros d sel.
  pose proof (footprint_resident d sel m (iv_co _ Hm)). unfold footprint at 1.
  assert (E1 : m5.(m_credits) = []) by exact (eq_trans Hc4 Hc2). assert (E2 : m5.(m_task_leases) = []) by exact (eq_trans Hl4 Hl2).
  assert (E3 : m5.(m_output_leases) = []) by exact Ho4.
  unfold credits_bytes, leases_bytes, orphan_bytes. rewrite E1, E2, E3, !ksum_nil.
  enough (resident_bytes d sel m5 = resident_bytes d sel m) by lia. rewrite !resident_specs.
  assert (E4 : m5.(m_allocation) = m.(m_allocation)) by exact (eq_trans Ha4 Ha2).
  assert (E5 : specs m5 = specs m) by exact (eq_trans Hs4 Hs2). by rewrite E4, E5.
Qed.

(** ** New outputs *)

Context (Hinj : forall a b, uuid a = uuid b -> a = b).

Lemma next_fresh m : ~ drawn uuid m (uuid m.(m_drawn)).
Proof using Hinj. intros (n & Hn & E%Hinj). lia. Qed.

Lemma after_draw m : core_same m (m <| m_drawn ::= S |>) /\ drawn uuid (m <| m_drawn ::= S |>) (uuid m.(m_drawn)).
Proof. split; [|exists m.(m_drawn); split; [cbn; lia|done]]. split; [|done]. repeat split. cbn. lia. Qed.

(** The footprint grows on one node by at most [n] bytes of outputs. *)
Definition grows (node : string) (n : Z) (m m' : Manager) : Prop :=
  forall d sel, footprint d sel m' <= footprint d sel m + if sel node then lv d n else 0.

Lemma grows_same node n m m0 m1 m2 : core_same m m0 -> grows node n m0 m1 -> core_same m1 m2 -> grows node n m m2.
Proof.
  intros H0 H H2 d sel. pose proof (core_same_shrinks _ _ H0 d sel). pose proof (core_same_shrinks _ _ H2 d sel).
  specialize (H d sel). lia.
Qed.

Lemma sane_with_output m k o l :
  sane m -> od_get o.(ol_task_lease_id) m.(m_task_leases) = Some l -> od_get k m.(m_output_leases) = None ->
  o.(ol_node_id) = l.(tl_node_id) -> 0 < o.(ol_size_bytes) -> o.(ol_lease_id) = k -> drawn uuid m k ->
  o.(ol_continuation_credit_id) = None \/ o.(ol_continuation_credit_id) = od_get o.(ol_task_lease_id) m.(m_credit_by_borrower) ->
  sane (with_output m k o).
Proof.
  intros Hm Hl Hk Hn Hz Hid Hd Hcr. pose proof (iv_co _ Hm) as Hc. pose proof (with_output_get m k o) as Hg.
  assert (Hc' : coherent uuid (with_output m k o)) by (by apply (with_output_coherent uuid m Hc k o l)).
  constructor; [done| | |apply Hm].
  - destruct (iv_owned _ Hm). constructor; try done. intros x y Hx. destruct (ow_held x y Hx) as [?|[Hp|[]]]; [by left|]. right. left.
    apply (pending_iff m x Hc) in Hp as (i & o' & Hi & Hr). apply (pending_iff _ x Hc'). exists i, o'. split; [|done].
    rewrite Hg, decide_False; [done|]. intros ->. congruence.
  - eapply (slots_same m); [..|apply Hm]; done.
Qed.

Lemma tight_with_output m k o x :
  tight m x -> (o.(ol_task_lease_id) = x -> o.(ol_continuation_credit_id) = od_get x m.(m_credit_by_borrower)) -> tight (with_output m k o) x.
Proof.
  intros Ht Ho i o'. rewrite with_output_get. destruct (decide (k = i)); [intros [= <-]; apply Ho|by apply Ht].
Qed.

Lemma grant_output_wp r liveness initial m l :
  inv m -> od_get r.(or_task_lease_id) m.(m_task_leases) = Some l -> 0 < r.(or_size_bytes) ->
  let Q m' := inv m' /\ grows l.(tl_node_id) (output_delta m l r.(or_size_bytes)) m m' in
  wp (grant_output_block p uuid r liveness initial) (fun _ => Q) (fun e m' => benign e /\ Q m') m.
Proof using Hinj.
  intros [Hm Ht] Hl Hz Q. unfold grant_output_block. apply wp_bind, wp_get. rewrite Hl. apply wp_bind. unfold draw, wp at 1.
  destruct (after_draw m) as [H0 Hd]. set (m0 := m <| m_drawn ::= S |>) in *. set (id := uuid (m_drawn m)) in *.
  set (o := MkOutputLease id _ _ _ _ _ _ _ _ _ _ _). pose proof (sane_same _ _ H0 Hm) as Hm0. pose proof (iv_co _ Hm0) as Hc0.
  destruct (co_lease _ _ (iv_co _ Hm) _ _ Hl) as (Hid & _ & _).
  assert (Hfresh : od_get id m0.(m_output_leases) = None).
  { destruct (od_get id m0.(m_output_leases)) as [o'|] eqn:E; [|done]. exfalso. apply (next_fresh m).
    by apply (co_output _ _ (iv_co _ Hm)) in E as (_ & ? & _). }
  assert (Hcr : o.(ol_continuation_credit_id) = od_get o.(ol_task_lease_id) m0.(m_credit_by_borrower)) by (cbn; by rewrite Hid).
  assert (Hs1 : sane (with_output m0 id o)) by (apply (sane_with_output m0 id o l); auto).
  apply wp_bind, wp_modify. set (m1 := store_output o m0).
  assert (H1 : core_same (with_output m0 id o) m1) by core_triv.
  apply wp_neutral; [solve_neutral|]. intros m2 H2. split.
  - eapply inv_same; [exact H2|]. eapply inv_same; [exact H1|]. split; [done|]. intros x Hx. apply tight_with_output; [by apply Ht|].
    intros <-. exact Hcr.
  - eapply grows_same; [exact H0| |exact H2]. eapply grows_same; [apply core_same_refl| |exact H1]. intros d sel.
    pose proof (with_output_footprint uuid m0 Hc0 id o l Hfresh Hl Hz d sel Hcr) as Hf. etransitivity; [exact Hf|].
    apply Z.add_le_mono_l. unfold output_growth, output_delta. cbn [ol_task_lease_id o ol_size_bytes]. by rewrite Hid.
Qed.

(** *** The outputs of a finished worker task *)

Definition fte_output (l : TaskLease) (o : OutputBlockLease) : Prop :=
  o.(ol_task_lease_id) = l.(tl_lease_id) /\ o.(ol_node_id) = l.(tl_node_id) /\ 0 < o.(ol_size_bytes) /\
  o.(ol_continuation_credit_id) = None.

Definition store_all (os : list OutputBlockLease) (m : Manager) : Manager := fold_left (fun m o => store_output o m) os m.

(** Storing outputs of one task, each under a name of its own. *)
Lemma store_all_sane x l os m :
  sane m -> od_get x m.(m_task_leases) = Some l -> Forall (fte_output l) os -> NoDup (map ol_lease_id os) ->
  (forall o, o ∈ os -> drawn uuid m o.(ol_lease_id) /\ od_get o.(ol_lease_id) m.(m_output_leases) = None) ->
  let m' := store_all os m in
  sane m' /\ m'.(m_task_leases) = m.(m_task_leases) /\ m'.(m_credit_by_borrower) = m.(m_credit_by_borrower) /\
  m'.(m_stages) = m.(m_stages) /\ m'.(m_allocation) = m.(m_allocation) /\
  (forall y, y <> x -> tight m y -> tight m' y) /\
  (od_get x m.(m_credit_by_borrower) = None -> tight m x -> tight m' x /\
     let live := task_outputs m x in let n := zsum (map ol_size_bytes os) in
     grows l.(tl_node_id) (Z.max l.(tl_output_window_bytes) (live + n) - Z.max l.(tl_output_window_bytes) live) m m').
Proof.
  revert m. induction os as [|o os IH]; intros m Hm Hl Hos Hnd Hfr; cbv zeta.
  - cbn [store_all fold_left]. do 5 (split; [done|]). split; [auto|]. intros Hb Ht. split; [done|]. intros d sel. cbn [map].
    change (zsum []) with 0. rewrite Z.add_0_r, Z.sub_diag, lv_zero. destruct (sel _); lia.
  - apply Forall_cons in Hos as [(H1 & H2 & H3 & H4) Hos]. cbn [map] in Hnd. apply NoDup_cons in Hnd as [Hni Hnd].
    destruct (Hfr o ltac:(left)) as [Hd Hk]. destruct (co_lease _ _ (iv_co _ Hm) _ _ Hl) as (Hid & _ & _).
    rewrite Hid in H1. set (k := o.(ol_lease_id)) in *.
    assert (Hl' : od_get o.(ol_task_lease_id) m.(m_task_leases) = Some l) by (by rewrite H1).
    assert (Hs : sane (with_output m k o)) by (apply (sane_with_output m k o l); auto).
    set (m1 := store_output o m). assert (Hcs : core_same (with_output m k o) m1) by core_triv.
    pose proof (sane_same _ _ Hcs Hs) as Hm1.
    destruct (IH m1) as (Hs' & E1 & E2 & E3 & E4 & Hty & Hx); [done|done|done|done| |].
    { intros o' Ho'. destruct (Hfr o' ltac:(by right)) as [Hd' Hk']. split; [done|]. cbn. rewrite od_get_set, decide_False; [done|].
      intros E. apply Hni, list_elem_of_fmap. by exists o'. }
    assert (Ht1 : forall y, (y = x -> od_get x m.(m_credit_by_borrower) = None) -> tight m y -> tight m1 y).
    { intros y Hy Hty1. pose proof (tight_with_output m k o y Hty1) as H. unfold tight in *. apply H. intros E. rewrite H4. symmetry.
      rewrite <- E, H1. apply Hy. congruence. }
    cbn [store_all fold_left]. change (fold_left (fun m o => store_output o m) os (store_output o m)) with (store_all os m1).
    split; [done|]. split; [by rewrite E1|]. split; [by rewrite E2|]. split; [by rewrite E3|]. split; [by rewrite E4|]. split.
    + intros y Hne Hy. apply Hty; [done|]. by apply Ht1.
    + intros Hb Ht. destruct (Hx Hb) as [Htx Hg]; [apply Ht1; auto|]. split; [done|]. intros d sel. specialize (Hg d sel).
      assert (Hcr : o.(ol_continuation_credit_id) = od_get o.(ol_task_lease_id) m.(m_credit_by_borrower)) by (by rewrite H1, Hb).
      pose proof (with_output_footprint uuid m (iv_co _ Hm) k o l Hk Hl' H3 d sel Hcr) as Hf.
      assert (Et : task_outputs m1 x = task_outputs m x + o.(ol_size_bytes)).
      { transitivity (task_outputs (with_output m k o) x); [done|]. rewrite (with_output_task m k o Hk). by rewrite H1, String.eqb_refl. }
      rewrite Et in Hg. pose proof (core_same_shrinks _ _ Hcs d sel). unfold output_growth, live_output_bytes_for_task in Hf.
      rewrite H1, Hb in Hf. fold (task_outputs m x) in Hf. cbn [map]. rewrite zsum_cons.
      destruct (sel _); [|lia]. rewrite <- (Z.add_assoc (task_outputs m x)) in Hg.
      set (w := Z.max (tl_output_window_bytes l)) in *.
      replace (lv d (w (task_outputs m x + (ol_size_bytes o + zsum (map ol_size_bytes os))) - w (task_outputs m x))) with
        (lv d (w (task_outputs m x + (ol_size_bytes o + zsum (map ol_size_bytes os))) - w (task_outputs m x + ol_size_bytes o))
         + lv d (w (task_outputs m x + ol_size_bytes o) - w (task_outputs m x))) by (rewrite <- lv_plus; f_equal; lia). lia.
Qed.

(** The leases of the outputs are drawn, and nothing else happens. *)
Lemma new_outputs_wp l rs acc m :
  (forall r, r ∈ rs -> 0 < r.(or_size_bytes)) ->
  Forall (fte_output l) acc -> NoDup (map ol_lease_id acc) ->
  (forall o, o ∈ acc -> drawn uuid m o.(ol_lease_id)) ->
  wp (sfold rs (new_fte_output uuid l) acc)
    (fun os m' => core_same m m' /\ Forall (fte_output l) os /\ NoDup (map ol_lease_id os) /\ m'.(m_stages) = m.(m_stages) /\
       map ol_size_bytes os = map ol_size_bytes acc ++ map or_size_bytes rs /\
       (forall o, o ∈ os -> drawn uuid m' o.(ol_lease_id) /\ (o ∈ acc \/ ~ drawn uuid m o.(ol_lease_id)))) (fun _ _ => False) m.
Proof using Hinj.
  revert acc m. induction rs as [|r rs IH]; intros acc m Hz Hacc Hnd Hd; cbn [sfold].
  - apply wp_ret. split; [apply core_same_refl|]. do 3 (split; [done|]). split; [by rewrite app_nil_r|]. eauto.
  - apply wp_bind. unfold new_fte_output at 1. apply wp_bind. unfold draw, wp at 1. destruct (after_draw m) as [H0 Hd0].
    set (m0 := m <| m_drawn ::= S |>) in *. set (id := uuid m.(m_drawn)) in *. apply wp_bind, wp_gets, wp_ret.
    set (o := MkOutputLease id _ _ _ _ _ _ _ _ _ _ _). pose proof (next_fresh m) as Hnf. fold id in Hnf.
    assert (Hmono : forall y, drawn uuid m y -> drawn uuid m0 y) by (intros y; apply drawn_mono; cbn; lia).
    eapply wp_mono; [apply (IH (acc ++ [o]) m0)| |done].
    + intros r' Hr'. apply Hz. by right.
    + apply Forall_app. split; [done|]. constructor; [|done]. split; [done|]. split; [done|]. split; [apply Hz; left|done].
    + rewrite map_app. apply NoDup_app. split; [done|]. split; [|apply NoDup_singleton]. intros y Hy Hy'%list_elem_of_singleton. subst y.
      apply list_elem_of_fmap in Hy as (o' & E & Ho'). apply Hnf. cbn in E. rewrite E. by apply Hd.
    + intros o' [Ho'|Ho'%list_elem_of_singleton]%elem_of_app; [by apply Hmono, Hd|]. by subst o'.
    + intros os m' (H1 & H2 & H3 & H4 & H5 & H6). split; [by eapply core_same_trans|]. split; [done|]. split; [done|].
      split; [done|]. split; [rewrite H5, map_app, <- app_assoc; done|]. intros o' Ho'. destruct (H6 o' Ho') as [Hd' [Hin|Hnd']].
      * split; [done|]. apply elem_of_app in Hin as [?|Hin%list_elem_of_singleton]; [by left|]. right. by subst o'.
      * split; [done|]. right. intros Hdr. by apply Hnd', Hmono.
Qed.

Lemma check_output_size m l s seen r seen' : check_output m l s seen r = Ok seen' -> 0 < r.(or_size_bytes).
Proof.
  unfold check_output. intros H. do 6 (apply rbind_ok in H as (? & _ & H)). apply rbind_ok in H as (? & Hz & _).
  apply raise_if_ok in Hz. lia.
Qed.

Lemma check_outputs_sizes m l s rs seen seen' :
  rfoldM (check_output m l s) seen rs = Ok seen' -> forall r, r ∈ rs -> 0 < r.(or_size_bytes).
Proof.
  revert seen. induction rs as [|r rs IH]; intros seen H r' Hr'; [by apply not_elem_of_nil in Hr'|]. cbn in H.
  apply rbind_ok in H as (seen1 & H1 & H). apply elem_of_cons in Hr' as [->|Hr']; [by eapply check_output_size|by eapply IH].
Qed.

Lemma check_output_calm m l s seen r : calm (check_output m l s seen r).
Proof. unfold check_output. repeat (apply calm_bind; [apply calm_raise_if; by_benign|intros ? _]). apply calm_ok. Qed.

Lemma stage_of_calm m id : calm (stage_of m id).
Proof. unfold stage_of, od_item. destruct (od_get _ _); [done|]. by apply calm_raise. Qed.

(** A finished task that wrote nothing before and borrows nothing. *)
Definition unspent (m : Manager) (x : string) : Prop :=
  od_get x m.(m_credit_by_borrower) = None /\ task_outputs m x = 0.

Lemma finish_outputs_wp x a outputs m :
  inv m ->
  wp (finish_task_with_outputs uuid x a outputs)
    (fun _ m' => inv m' /\ (unspent m x -> shrinks m m')) (fun e m' => benign e /\ m' = m) m.
Proof using Hinj.
  intros [Hm Ht]. unfold finish_task_with_outputs. apply wp_bind, wp_get.
  destruct (od_get x m.(m_task_leases)) as [l|] eqn:El; [|apply wp_raise; split; [by_benign|done]].
  destruct (co_lease _ _ (iv_co _ Hm) _ _ El) as (Hid & _ & Hn).
  apply wp_bind, wp_raise_if; [|intros _; split; [by_benign|done]]. intros _.
  apply wp_bind, wp_lift; [|intros e He; split; [by eapply stage_of_calm|done]]. intros stage Hst.
  apply wp_bind, wp_raise_if; [|intros _; split; [by_benign|done]]. intros Htotal%Z.ltb_ge.
  apply wp_bind, wp_lift; [|intros e He; split; [|done]].
  2: { revert He. apply calm_fold. intros. apply check_output_calm. }
  intros seen Hchk. pose proof (check_outputs_sizes _ _ _ _ _ _ Hchk) as Hz.
  apply wp_bind. eapply wp_mono; [apply (new_outputs_wp l outputs [] m Hz); [constructor|constructor|]| |done].
  { intros o Ho. by apply not_elem_of_nil in Ho. }
  intros os m1 (H1 & Hos & Hnd & Hstg & Hsz & Hdr). apply wp_bind, wp_modify. pose proof (sane_same _ _ H1 Hm) as Hm1.
  pose proof H1 as ((Ha1 & Hs1 & Hl1 & Hc1 & Hb1 & Ho1 & Hd1) & _).
  assert (El1 : od_get x m1.(m_task_leases) = Some l) by (by rewrite Hl1).
  assert (Ht1 : forall y, is_Some (od_get y m.(m_task_leases)) -> tight m1 y).
  { intros y Hy. unfold tight. rewrite Hb1, Ho1. by apply Ht. }
  destruct (store_all_sane x l os m1 Hm1 El1 Hos Hnd) as (Hm2 & E1 & E2 & E3 & E4 & Hty & Hx).
  { intros o Ho. destruct (Hdr o Ho) as [Hd [Hin|Hnot]]; [by apply not_elem_of_nil in Hin|]. split; [done|]. rewrite Ho1.
    destruct (od_get (ol_lease_id o) m.(m_output_leases)) eqn:E; [|done]. exfalso. apply Hnot.
    by apply (co_output _ _ (iv_co _ Hm)) in E as (_ & ? & _). }
  fold (store_all os m1). set (m2 := store_all os m1) in *. apply wp_bind. unfold recompute_output.
  pose proof (neutral_recompute_output l.(tl_stage_id) m2) as [Hn2 _]. unfold recompute_output in Hn2. unfold on_stage in Hn2. unfold wp at 1, on_stage.
  unfold stage_of, od_item in Hst. rewrite <- Hstg, <- E3 in Hst. destruct (od_get (tl_stage_id l) m2.(m_stages)) as [s2|]; [|done].
  cbn [snd] in Hn2. set (m3 := m2 <| m_stages := _ |>) in *. pose proof (sane_same _ _ Hn2 Hm2) as Hm3.
  destruct Hn2 as ((Ha3 & Hs3 & Hl3 & Hc3 & Hb3 & Ho3 & Hd3) & Hrest3).
  assert (El3 : od_get x m3.(m_task_leases) = Some l) by (by rewrite Hl3, E1).
  assert (Ht3 : forall y, tight m2 y -> tight m3 y) by (intros y; unfold tight; by rewrite Hb3, Ho3).
  apply wp_bind. rewrite Hid. eapply wp_mono; [by apply (retire_wp x l true m3)| |done]. intros _ m4 (Hm4 & Hf4 & Hk4). apply wp_ret. split.
  - split; [done|]. apply (others_tight x m3); [apply Hm3|done|]. intros y Hy Hne. rewrite Hl3, E1, Hl1 in Hy. apply Ht3, Hty; [done|by apply Ht1].
  - intros [Hnb Hlive]. destruct Hx as [Htx Hg]; [by rewrite Hb1|apply Ht1; eauto|]. eapply shrinks_trans; [|by apply Hf4, Ht3].
    intros d sel. specialize (Hg d sel). assert (Et : task_outputs m1 x = 0) by (rewrite <- Hlive; unfold task_outputs, output_bytes; by rewrite Ho1).
    rewrite Et, Hsz, app_nil_l in Hg. assert (0 <= zsum (map or_size_bytes outputs)).
    { clear -Hz. induction outputs as [|r rs IH]; [done|]. cbn [map]. rewrite zsum_cons. pose proof (Hz r ltac:(left)).
      enough (0 <= zsum (map or_size_bytes rs)) by lia. apply IH. intros. apply Hz. by right. }
    replace (Z.max _ (0 + _) - Z.max _ 0) with 0 in Hg by lia. rewrite lv_zero in Hg.
    pose proof (core_same_shrinks _ _ H1 d sel). assert (Hs23 : same_books m2 m3) by (repeat split; done).
    pose proof (shrinks_same _ _ Hs23 d sel). destruct (sel _); lia.
Qed.

(** ** The end of a lease by a call *)

Lemma quiet_release x a terminal : quiet (release_lease x a terminal).
Proof.
  apply quiet_wp. intros m [Hm Ht]. unfold release_lease. apply wp_bind, wp_get.
  assert (Hself : settled m m) by (split; [by split|by intros d sel]).
  destruct (od_get x m.(m_task_leases)) as [l|] eqn:El; [|by apply wp_ret]. destruct (negb _); [by apply wp_ret|].
  apply wp_bind. eapply wp_mono; [by apply (retire_wp x l terminal m)| |done]. intros _ m' (Hm' & Hf & Hk). apply wp_ret. split.
  - split; [done|]. apply (others_tight x m); [apply Hm|done|]. intros y Hy _. by apply Ht.
  - apply Hf, Ht. eauto.
Qed.

(** A new allocation changes what the actors hold, not the books. *)
Lemma sane_update_allocation a o m : inv m -> inv ((update_allocation p a o) m).2.
Proof.
  intros Hm. unfold update_allocation, sbind, sget. cbn. destruct (a.(al_generation) <=? _); [done|]. cbn.
  destruct (Graph.validate_allocation _ _ _); [|done]. cbn. destruct Hm as [[H1 H2 H3 H4] H5].
  split; [|exact H5]. constructor; [| | |done].
  - destruct H1. by constructor.
  - destruct H2. by constructor.
  - destruct H3. by constructor.
Qed.
End Invariant.
