(* ===== verification/ResourceGrants.v ===== *)
(** * What a grant of the resource manager leaves

    A verdict of [task_block_reason] that carries a plan has checked the
    query and the nodes of the plan exactly: booking the plan keeps the
    footprint within the allocation.  The same for output blocks. *)

From S2P Require Import Prelude PyStr PyVal PyNum AdmissionLedger QueryGraph ResourceState ResourcePlacement ResourceManager ResourceBooks ResourceSteps ResourceInv ResourceCalls.

#[local] Open Scope string_scope.
#[local] Open Scope list_scope.
#[local] Open Scope Z_scope.

Definition on_query : string -> bool := in_scope None.
Definition on_node (n : string) : string -> bool := in_scope (Some n).

(** Nothing grows beyond the allocation: neither the query nor a node. *)
Definition within (m m' : Manager) : Prop :=
  forall d, (footprint d on_query m' <= footprint d on_query m \/ footprint d on_query m' <= vb d (query_limits m)) /\
    forall n, footprint d (on_node n) m' <= footprint d (on_node n) m \/
      exists cap, od_get n (allocation_by_node m) = Some cap /\ footprint d (on_node n) m' <= vb d cap.

Lemma shrinks_within m m' : shrinks m m' -> within m m'.
Proof. intros H d. split; [left; apply H|]. intros n. left. apply H. Qed.

(** ** The choice of nodes *)

Section Choice.
Context (uuid : nat -> string) (Hne : forall n, uuid n <> "") (m : Manager) (Hm : coherent uuid m).

(** Room for [extra] bytes on a node. *)
Definition room (n : string) (extra : byte_dim -> Z) : Prop :=
  exists cap, od_get n (allocation_by_node m) = Some cap /\ forall d, footprint d (on_node n) m + extra d <= vb d cap.

Lemma allocation_wf : od_wf (allocation_by_node m).
Proof.
  unfold allocation_by_node. assert (H : forall l (acc : list (string * ResourceVector)), od_wf acc ->
    od_wf (fold_left (fun d n => od_set n.(na_node_id) n.(na_resources) d) l acc)).
  { induction l as [|n l IH]; intros acc Hacc; cbn; [done|]. apply IH. by apply od_wf_set. }
  apply H, NoDup_nil_2.
Qed.

Lemma select_task_node_room req c allowed res n f :
  select_task_node m req c allowed res = Ok (n, None, f) ->
  room n (fun d => vb d c) /\ match allowed with Some l => n ∈ l | None => True end.
Proof using Hne Hm.
  unfold select_task_node. destruct (_ && _); [done|]. set (static := List.filter _ _). destruct (bool_decide _); [done|].
  intros H. apply rbind_ok in H as ([available debt] & Hav & H).
  assert (Hin : forall n r, (n, r) ∈ available -> room n (fun d => vb d c) /\ match allowed with Some l => n ∈ l | None => True end).
  { apply (rfoldM_inv (fun acc => forall n r, (n, r) ∈ acc.1 -> room n (fun d => vb d c) /\ match allowed with Some l => n ∈ l | None => True end)
      _ _ _ _ Hav); [intros ? ? Hnil; by apply not_elem_of_nil in Hnil|].
    intros [acc db] [node cap] acc' Hst IH Hs. subst static. apply list_elem_of_In, filter_In in Hst as [Hst Hf].
    rewrite !andb_true_iff in Hf. destruct Hf as [_ Hal]. apply rbind_ok in Hs as (usage & Hu & Hs).
    destruct (negb (Res.fits_within usage cap)) eqn:Efit; [by injection Hs as <-|]. apply rbind_ok in Hs as (rest & Hr & [= <-]).
    cbn [fst]. destruct (Res.fits_within c rest) eqn:Ec; [|exact IH]. intros n' r' [Hn'|Hn'%list_elem_of_singleton]%elem_of_app; [by eapply IH|].
    injection Hn' as -> ->. split.
    - exists cap. split; [apply od_elem_get; [apply allocation_wf|by apply list_elem_of_In]|]. intros d.
      unfold on_node. rewrite <- (node_usage_vb uuid Hne m Hm d node usage Hu). apply (fits_vb d) in Ec. rewrite (sub_vb d _ _ _ Hr) in Ec. lia.
    - destruct allowed as [l|]; [|done]. by apply bool_decide_eq_true in Hal. }
  destruct (bool_decide _); [done|]. apply rbind_ok in H as (safe & Hsafe & H). apply rbind_ok in H as (best & Hbest & H).
  destruct best as [[n' r]|]; [|done]. injection H as -> _. apply py_min_elem in Hbest. apply (Hin n r).
  destruct (bool_decide _); [by injection Hsafe as <-|].
  apply (rfoldM_inv (fun acc => forall x, x ∈ acc -> x ∈ available) _ _ _ _ Hsafe); [intros ? Hnil; by apply not_elem_of_nil in Hnil| |done].
  intros acc x acc' Hx IH Hs. apply rbind_ok in Hs as (b & _ & [= <-]). destruct b; [|done].
  intros y [Hy|Hy%list_elem_of_singleton]%elem_of_app; [by apply IH|by subst].
Qed.

Lemma pair_remaining_room proposed nodes acc rem debt :
  pair_remaining m proposed nodes acc = Ok (Some rem, debt) ->
  forall n cap, (n, cap) ∈ nodes -> is_Some (od_get n proposed) ->
  forall d, footprint d (on_node n) m + vb d (od_get_default n Res.zero proposed) <= vb d cap.
Proof using Hne Hm.
  revert acc. induction nodes as [|[node capacity] nodes IH]; intros acc H n cap Hin Hp d; [by apply not_elem_of_nil in Hin|].
  cbn [pair_remaining] in H. apply rbind_ok in H as (usage & Hu & H).
  apply elem_of_cons in Hin as [[= -> ->]|Hin].
  - destruct (negb _); [unfold od_mem in H; destruct Hp as [v Hv]; rewrite Hv in H; discriminate H|].
    apply rbind_ok in H as (after & Ha & H). destruct (Res.fits_within after capacity) eqn:Ef; [|discriminate H].
    unfold on_node. rewrite <- (node_usage_vb uuid Hne m Hm d node usage Hu), <- (add_vb d _ _ _ Ha). by apply fits_vb.
  - destruct (negb _).
    + destruct (od_mem node proposed); [discriminate H|]. by eapply IH.
    + apply rbind_ok in H as (after & Ha & H). destruct (negb _); [discriminate H|]. apply rbind_ok in H as (rest & Hr & H). by eapply IH.
Qed.

(** The bytes a pair of nodes takes on one of them. *)
Definition pair_extra (tn cn n : string) (task credit : ResourceVector) (d : byte_dim) : Z :=
  (if String.eqb n tn then vb d task else 0) + (if String.eqb n cn then vb d credit else 0).

Lemma select_pair_room req task credit res tn cn f :
  select_task_and_credit_nodes m req task credit res = Ok (tn, cn, None, f) ->
  forall n, n = tn \/ n = cn -> room n (pair_extra tn cn n task credit).
Proof using Hne Hm.
  unfold select_task_and_credit_nodes. destruct (_ && _); [done|]. set (tns := od_keys _). destruct (bool_decide _); [done|].
  set (cns := od_keys _). destruct (bool_decide _); [done|]. intros H. apply rbind_ok in H as ([found debt] & Hf & H).
  assert (Hall : forall pr, pr ∈ found -> forall n, n = pr.(pp_task_node) \/ n = pr.(pp_credit_node) ->
    room n (pair_extra pr.(pp_task_node) pr.(pp_credit_node) n task credit)).
  { apply (rfoldM_inv (fun acc => forall pr, pr ∈ acc.1 -> forall n, n = pr.(pp_task_node) \/ n = pr.(pp_credit_node) ->
      room n (pair_extra pr.(pp_task_node) pr.(pp_credit_node) n task credit)) _ _ _ _ Hf); [intros ? Hnil; by apply not_elem_of_nil in Hnil|].
    intros [acc db] [a b] acc' Hab IH Hs. apply list_elem_of_In, in_prod_iff in Hab as [Ha Hb]. unfold try_pair in Hs.
    apply rbind_ok in Hs as (oc & Hoc & Hs). apply rbind_ok in Hs as ([rem indebt] & Hrem & Hs). destruct rem as [rem|]; [|by injection Hs as <-].
    apply rbind_ok in Hs as (ok & _ & [= <-]). cbn [fst]. destruct ok; [|exact IH].
    intros pr [Hpr|Hpr%list_elem_of_singleton]%elem_of_app; [by apply IH|]. subst pr. cbn [pp_task_node pp_credit_node]. intros n Hn.
    assert (Hcap : exists cap, (n, cap) ∈ allocation_by_node m).
    { assert (Hk : forall q x, In x (od_keys (List.filter q (allocation_by_node m))) -> exists cap, (x, cap) ∈ allocation_by_node m).
      { intros q x Hx. apply in_map_iff in Hx as ([x' cap] & <- & Hx). apply filter_In in Hx as [Hx _]. exists cap. by apply list_elem_of_In. }
      destruct Hn as [->| ->]; [by eapply Hk|by eapply Hk]. }
    destruct Hcap as [cap Hcap]. exists cap. split; [apply od_elem_get; [apply allocation_wf|done]|]. intros d.
    pose proof (pair_remaining_room _ _ _ _ _ Hrem n cap Hcap) as Hr. unfold od_get_default in Hr, Hoc. rewrite od_get_set in Hr.
    apply (add_vb d) in Hoc. unfold pair_extra. cbn [od_get] in Hr, Hoc.
    assert (Hz : vb d Res.zero = 0) by (by destruct d).
    destruct (String.eqb_spec n b) as [->|Hnb].
    - rewrite decide_True in Hr by done. specialize (Hr ltac:(eauto) d). cbn [default] in Hr.
      destruct (decide (b = a)) as [->|Hba].
      + rewrite String.eqb_refl. cbn in Hoc, Hr. lia.
      + apply String.eqb_neq in Hba. rewrite Hba. cbn in Hoc, Hr. lia.
    - destruct Hn as [->|?]; [|done]. rewrite decide_False in Hr by congruence. rewrite decide_True in Hr by done.
      specialize (Hr ltac:(eauto) d). rewrite String.eqb_refl. cbn in Hr. lia. }
  apply rbind_ok in H as (best & Hbest & H). destruct best as [pr|]; [|done]. injection H as <- <- _. apply py_min_elem in Hbest. by apply Hall.
Qed.
End Choice.

(** ** The verdict *)

(** A verdict on which a grant may follow. *)
Definition usable (reason : option string) : Prop := reason = None \/ is_soft soft_task_reasons reason = true.

(** A verdict that blocks for another reason. *)
Ltac not_usable H Hus := injection H as <- _ _; by destruct Hus.

Lemma select_task_node_reason m req c allowed res n why f :
  select_task_node m req c allowed res = Ok (n, Some why, f) -> ~ usable (Some why).
Proof.
  intros H [?|Hs]; [done|]. unfold select_task_node in H. destruct (_ && _); [injection H as _ <- _; done|].
  destruct (bool_decide _); [injection H as _ <- _; done|]. apply rbind_ok in H as ([available debt] & _ & H).
  destruct (bool_decide _); [injection H as _ <- _; by destruct debt|].
  apply rbind_ok in H as (safe & _ & H). apply rbind_ok in H as ([c'|] & _ & H); [done|]. by injection H as _ <- _.
Qed.

Lemma select_pair_reason m req t c res tn cn why f :
  select_task_and_credit_nodes m req t c res = Ok (tn, cn, Some why, f) -> ~ usable (Some why).
Proof.
  intros H [?|Hs]; [done|]. unfold select_task_and_credit_nodes in H. destruct (_ && _); [injection H as _ _ <- _; done|].
  destruct (bool_decide _); [injection H as _ _ <- _; done|]. destruct (bool_decide _); [injection H as _ _ <- _; done|].
  apply rbind_ok in H as ([found debt] & _ & H). apply rbind_ok in H as ([pr|] & _ & H); [done|]. injection H as _ _ <- _. by destruct debt.
Qed.

Section Verdict.
Context (p : Plan) (uuid : nat -> string) (Hne : forall n, uuid n <> "") (m : Manager) (Hm : coherent uuid m).

(** What the vector of a request and its window amount to. *)
Definition charge (plan : TaskAdmissionPlan) (d : byte_dim) : Z := vb d plan.(pl_resources) + lv d plan.(pl_output_window_bytes).

(** The increment that lending a credit was checked for. *)
Definition lend_increment (plan : TaskAdmissionPlan) (c : ContinuationCredit) (d : byte_dim) : Z :=
  let live := live_output_bytes_for_credit m c.(cc_credit_id) in
  Z.max 0 (Z.max 0 (vb d plan.(pl_resources) + lv d (Z.max plan.(pl_output_window_bytes) live) - vb d c.(cc_resources))
           - lv d (Z.max 0 (live - vb Objects c.(cc_resources)))).

Definition fits_query (extra : byte_dim -> Z) : Prop := forall d, footprint d on_query m + extra d <= vb d (query_limits m).

(** The credit side of a plan, with the room that was checked for it. *)
Definition plan_room (stage : string) (plan : TaskAdmissionPlan) : Prop :=
  match plan.(pl_new_credit), plan.(pl_borrowed_credit_id) with
  | None, None => fits_query (charge plan) /\ room m plan.(pl_node_id) (charge plan)
  | Some nc, None =>
      nonneg nc.(nc_resources) /\ fits_query (fun d => charge plan d + vb d nc.(nc_resources)) /\
      forall n, n = plan.(pl_node_id) \/ n = nc.(nc_node_id) -> room m n (fun d =>
        (if String.eqb n plan.(pl_node_id) then charge plan d else 0) + (if String.eqb n nc.(nc_node_id) then vb d nc.(nc_resources) else 0))
  | None, Some k =>
      exists c, od_get k m.(m_credits) = Some c /\ c.(cc_parent_active) = true /\ c.(cc_borrowed_by) = None /\
        stage ∈ c.(cc_eligible_stage_ids) /\ c.(cc_node_id) = plan.(pl_node_id) /\
        fits_query (lend_increment plan c) /\ room m c.(cc_node_id) (lend_increment plan c)
  | Some _, Some _ => False
  end.

Record plan_ok (s : StageResourceSpec) (plan : TaskAdmissionPlan) : Prop := {
  pk_res : nonneg plan.(pl_resources);
  pk_window : plan.(pl_output_window_bytes) = Stage.output_window_bytes s;
  pk_actor : if Stage.is_actor s
    then exists i, plan.(pl_actor_index) = Some i /\ actor_slot_lease_count m (s.(sp_stage_id), i) < s.(sp_actor_prefetch_depth)
    else plan.(pl_actor_index) = None;
  pk_room : plan_room s.(sp_stage_id) plan;
}.

Lemma soft_verdict_plan s c b plan reason fatal plan' :
  soft_verdict p m s c b plan = Ok (reason, fatal, plan') -> plan' = plan.
Proof.
  unfold soft_verdict. intros H. apply rbind_ok in H as (st & _ & H). destruct st; [by injection H|].
  destruct b; [by injection H|]. apply rbind_ok in H as (so & _ & H). by injection H.
Qed.

(** The actors of a node that are offered can take one more call. *)
Lemma free_actor_free s n i :
  i ∈ od_get_default n [] (free_actor_indices m s) -> actor_slot_lease_count m (s.(sp_stage_id), i) < s.(sp_actor_prefetch_depth).
Proof.
  unfold free_actor_indices.
  assert (H : forall l acc, (forall n i, i ∈ od_get_default n [] acc -> actor_slot_lease_count m (s.(sp_stage_id), i) < s.(sp_actor_prefetch_depth)) ->
    forall n i, i ∈ od_get_default n [] (fold_left (fun acc pl =>
      if negb (String.eqb pl.(ap_stage_id) s.(sp_stage_id)) then acc
      else if s.(sp_actor_prefetch_depth) <=? actor_slot_lease_count m (s.(sp_stage_id), pl.(ap_actor_index)) then acc
      else od_set pl.(ap_node_id) (od_get_default pl.(ap_node_id) [] acc ++ [pl.(ap_actor_index)]) acc) l acc) ->
    actor_slot_lease_count m (s.(sp_stage_id), i) < s.(sp_actor_prefetch_depth)).
  { induction l as [|pl l IH]; intros acc Hacc; cbn [fold_left]; [done|]. apply IH. destruct (negb _); [done|].
    destruct (_ <=? _) eqn:E; [done|]. intros n0 i0. rewrite od_default_set. destruct (String.eqb_spec (ap_node_id pl) n0) as [->|]; [|by apply Hacc].
    rewrite elem_of_app, list_elem_of_singleton. intros [?| ->]; [by eapply Hacc|lia]. }
  apply (H _ []). intros n0 i0 Hn. by apply not_elem_of_nil in Hn.
Qed.

Lemma choose_actor_ok s n o : choose_actor m s (free_actor_indices m s) n = Ok o ->
  exists i, o = Some i /\ actor_slot_lease_count m (s.(sp_stage_id), i) < s.(sp_actor_prefetch_depth).
Proof.
  unfold choose_actor. intros H. apply rbind_ok in H as ([i|] & Hi & H); [|done]. injection H as <-. exists i. split; [done|].
  apply py_min_elem in Hi. by eapply free_actor_free.
Qed.

Lemma borrow_increment_vb d r w c u : od_get c.(cc_credit_id) m.(m_credits) = Some c ->
  borrow_increment m r w c = Ok u ->
  vb d u = Z.max 0 (Z.max 0 (vb d r + lv d (Z.max w (live_output_bytes_for_credit m c.(cc_credit_id))) - vb d c.(cc_resources))
    - lv d (Z.max 0 (live_output_bytes_for_credit m c.(cc_credit_id) - vb Objects c.(cc_resources)))).
Proof.
  intros Hc H. unfold borrow_increment, borrowed_task_usage, idle_continuation_output_excess in H.
  apply rbind_ok in H as (pr & Hp & H). apply rbind_ok in Hp as (cm & Hcm & Hp). apply rbind_ok in H as (idle & Hi & H).
  rewrite (positive_difference_vb d _ _ _ H), (positive_difference_vb d _ _ _ Hp), (object_store_vb d _ _ Hi).
  rewrite (with_object_store_vb d _ _ _ Hcm). destruct d; cbn [vb lv]; repeat f_equal; lia.
Qed.

Lemma available_credit_ok s req r w u c :
  available_credit p m s req r w u = Ok (Some c) ->
  String.eqb s.(sp_backend) "ray_task" = true /\ od_get c.(cc_credit_id) m.(m_credits) = Some c /\
  c.(cc_parent_active) = true /\ c.(cc_borrowed_by) = None /\ s.(sp_stage_id) ∈ c.(cc_eligible_stage_ids).
Proof using Hm.
  unfold available_credit. destruct (String.eqb _ "ray_task"); [cbn [negb]|done]. destruct (negb _); [done|]. intros H.
  apply rbind_ok in H as (cm & _ & H). apply py_min_elem in H. apply list_elem_of_In, filter_In in H as [Hin Hf].
  unfold credit_open in Hf. rewrite !andb_true_iff, !bool_decide_eq_true in Hf. destruct Hf as [[[[[Ha Hb] He] _] _] _].
  unfold od_values in Hin. apply in_map_iff in Hin as ([k c'] & <- & Hin). cbn [snd] in *.
  apply list_elem_of_In, od_elem_get in Hin; [|apply Hm]. destruct (co_credit _ _ Hm _ _ Hin) as (-> & _). done.
Qed.

Lemma component_max_nonneg l r : component_max l = Ok r -> nonneg r.
Proof. unfold component_max. destruct l; [intros [= <-] []; cbn; lia|]. apply new_nonneg. Qed.

Lemma credit_template_ok s e r0 r : credit_template p m s = Ok (Some (e, r0, r)) ->
  Stage.is_worker s = true /\ nonneg r.
Proof.
  unfold credit_template. destruct (Stage.is_worker s); cbn [negb]; [|done]. intros H. apply rbind_ok in H as (re & _ & H).
  apply rbind_ok in H as (sts & _ & H). destruct (bool_decide _); [done|]. apply rbind_ok in H as (cs & _ & H).
  apply rbind_ok in H as (res & Hr & H). apply rbind_ok in H as ([s'|] & _ & H); [|done]. injection H as _ _ <-.
  split; [done|by eapply component_max_nonneg].
Qed.

Lemma place_task_ok request s dm free borrowed template admission res reason fatal plan :
  place_task p m request s dm free borrowed template admission res = Ok (reason, fatal, plan) -> usable reason ->
  nonneg dm.(d_resources) -> dm.(d_window) = Stage.output_window_bytes s ->
  (forall d, vb d dm.(d_commitment) = vb d dm.(d_resources) + lv d dm.(d_window)) ->
  (free = if Stage.is_actor s then Some (free_actor_indices m s) else None) ->
  match template with
  | Some (_, _, r) => borrowed = None /\ nonneg r /\ fits_query (fun d => vb d dm.(d_commitment) + vb d r)
  | None => fits_query (fun d => vb d admission)
  end ->
  match borrowed with
  | Some c => od_get c.(cc_credit_id) m.(m_credits) = Some c /\ c.(cc_parent_active) = true /\ c.(cc_borrowed_by) = None /\
      s.(sp_stage_id) ∈ c.(cc_eligible_stage_ids) /\ borrow_increment m dm.(d_resources) dm.(d_window) c = Ok admission
  | None => forall d, template = None -> vb d admission = vb d dm.(d_commitment)
  end ->
  plan_ok s plan.
Proof using Hne Hm.
  intros H Hus Hn Hw Hc Hfree Ht Hb. unfold place_task in H. apply rbind_ok in H as ([[[node why] fat] nc] & Hsel & H).
  assert (Hnone : why = None).
  { destruct why as [why|]; [|done]. injection H as <- _ _. exfalso. destruct template as [[[e r0] r]|].
    - apply rbind_ok in Hsel as ([[[tn cn] w] f'] & Hs & [= -> -> -> _]). by eapply select_pair_reason.
    - apply rbind_ok in Hsel as ([[n w] f'] & Hs & [= -> -> -> _]). by eapply select_task_node_reason. }
  subst why. apply rbind_ok in H as (actor & Hact & H). apply soft_verdict_plan in H as ->.
  constructor; cbn [pl_resources pl_output_window_bytes pl_actor_index]; [done|done| |].
  - rewrite Hfree in Hact. destruct (Stage.is_actor s); [by eapply choose_actor_ok|by injection Hact as <-].
  - unfold plan_room, charge, lend_increment. cbn [pl_new_credit pl_borrowed_credit_id pl_resources pl_output_window_bytes pl_node_id].
    destruct template as [[[e r0] r]|].
    + destruct Ht as (-> & Hr & Hq). apply rbind_ok in Hsel as ([[[tn cn] w] f'] & Hs & [= -> -> _ <-]).
      cbn [option_map nc_resources nc_node_id]. split; [done|]. split; [intros d; specialize (Hq d); cbv beta in Hq |- *; rewrite Hc in Hq; exact Hq|].
      intros n Hnn. destruct (select_pair_room uuid Hne m Hm _ _ _ _ _ _ _ Hs n Hnn) as (cap & Hcap & Hroom). exists cap. split; [done|].
      intros d. specialize (Hroom d). unfold pair_extra in Hroom. rewrite Hc in Hroom. exact Hroom.
    + apply rbind_ok in Hsel as ([[n w] f'] & Hs & [= -> -> _ <-]).
      destruct (select_task_node_room uuid Hne m Hm _ _ _ _ _ _ Hs) as [(cap & Hcap & Hroom) Hal].
      destruct borrowed as [c|]; cbn [option_map].
      * destruct Hb as (Hk & Ha & Hbo & He & Hinc). apply list_elem_of_singleton in Hal. subst node.
        exists c. split; [done|]. split; [done|]. split; [done|]. split; [done|]. split; [done|].
        assert (E : forall d, vb d admission = lend_increment
          (MkPlan (d_resources dm) (d_window dm) c.(cc_node_id) actor None (Some c.(cc_credit_id))) c d).
        { intros d. by rewrite (borrow_increment_vb d _ _ _ _ Hk Hinc). }
        split; [intros d; specialize (Ht d); cbv beta in Ht; rewrite E in Ht; exact Ht|]. exists cap. split; [done|]. intros d.
        specialize (Hroom d). rewrite E in Hroom. exact Hroom.
      * split.
        -- intros d. specialize (Ht d). cbv beta in Ht. rewrite Hb, Hc in Ht by done. exact Ht.
        -- exists cap. split; [done|]. intros d. specialize (Hroom d). rewrite Hb, Hc in Hroom by done. exact Hroom.
Qed.

Lemma fit_task_ok request s dm free reason fatal plan :
  fit_task p m request s dm free = Ok (reason, fatal, plan) -> usable reason ->
  nonneg dm.(d_resources) -> dm.(d_window) = Stage.output_window_bytes s ->
  (forall d, vb d dm.(d_commitment) = vb d dm.(d_resources) + lv d dm.(d_window)) ->
  (free = if Stage.is_actor s then Some (free_actor_indices m s) else None) -> plan_ok s plan.
Proof using Hne Hm.
  intros H Hus Hn Hw Hc Hfree. unfold fit_task in H. apply rbind_ok in H as (usage & Hu & H). apply rbind_ok in H as (debt & _ & H).
  destruct (negb _); [not_usable H Hus|]. apply rbind_ok in H as (borrowed & Hb & H).
  apply rbind_ok in H as (template & Ht & H). apply rbind_ok in H as (adm0 & Ha0 & H). apply rbind_ok in H as (adm & Ha & H).
  apply rbind_ok in H as (after & Haf & H). destruct (Res.exceeded_dimensions after (query_limits m)) as [|dim dims] eqn:Ex.
  2: { injection H as <- _ _. destruct Hus as [?|Hs]; [done|]. by destruct (bool_decide _), dim. }
  apply rbind_ok in H as (res & Hres & H). apply rbind_ok in H as (rm & _ & H).
  destruct (negb rm); [not_usable H Hus|].
  assert (Hq : forall d, footprint d on_query m + vb d adm <= vb d (query_limits m)).
  { intros d. unfold on_query. rewrite <- (query_usage_vb uuid Hne m Hm d usage Hu), <- (add_vb d _ _ _ Haf). by apply exceeded_vb. }
  eapply place_task_ok; eauto.
  - destruct template as [[[e r0] r]|]; [|done]. destruct (credit_template_ok _ _ _ _ Ht) as [Hwk Hr].
    destruct borrowed as [c|].
    + destruct (available_credit_ok _ _ _ _ _ _ Hb) as (Hbk & _). unfold Stage.is_worker in Hwk.
      apply String.eqb_eq in Hbk, Hwk. rewrite Hbk in Hwk. discriminate Hwk.
    + split; [done|]. split; [done|]. injection Ha as <-. intros d. specialize (Hq d). rewrite (add_vb d _ _ _ Ha0) in Hq. exact Hq.
  - destruct borrowed as [c|].
    + destruct (available_credit_ok _ _ _ _ _ _ Hb) as (_ & H1 & H2 & H3 & H4). done.
    + intros d ->. injection Ha as <-. rewrite (add_vb d _ _ _ Ha0). destruct d; cbn; lia.
Qed.

(** A verdict that allows a grant comes with a plan that fits. *)
Lemma task_block_reason_ok request h reason fatal plan :
  task_block_reason p m request h = Ok (reason, fatal, plan) -> usable reason ->
  exists st, od_get request.(tr_stage_id) m.(m_stages) = Some st /\ plan_ok st.(ss_spec) plan.
Proof using Hne Hm.
  intros H Hus. unfold task_block_reason in H.
  destruct (m_cancelled m); [not_usable H Hus|].
  destruct (negb _); [not_usable H Hus|].
  destruct (negb _); [not_usable H Hus|].
  destruct (od_get (tr_stage_id request) m.(m_stages)) as [st|]; [|not_usable H Hus].
  exists st. split; [done|]. set (s := ss_spec st) in *.
  destruct (ss_completed st); [not_usable H Hus|].
  destruct (negb _); [not_usable H Hus|].
  destruct (_ && _); [not_usable H Hus|].
  destruct (_ || _); [not_usable H Hus|].
  destruct (_ && _); [not_usable H Hus|].
  destruct (_ && _); [not_usable H Hus|].
  destruct (match sp_max_concurrency s with Some _ => _ | None => _ end); [not_usable H Hus|].
  assert (Hadm : forall free, free = (if Stage.is_actor s then Some (free_actor_indices m s) else None) ->
    admit_task p m request s free = Ok (reason, fatal, plan) -> plan_ok s plan).
  { clear H. intros free Hfree H. unfold admit_task in H. destruct (_ <? 0); [not_usable H Hus|].
    apply rbind_ok in H as (res & Hr & H). apply rbind_ok in H as (cm & Hcm & H).
    destruct (Res.exceeded_dimensions _ _); [|not_usable H Hus].
    eapply fit_task_ok; eauto; cbn [d_resources d_window d_commitment].
    - by eapply new_nonneg.
    - intros d. rewrite (with_object_store_vb d _ _ _ Hcm). apply (with_object_store_vb Objects) in Hr. cbn in Hr.
      destruct d; cbn; lia. }
  destruct (Stage.is_actor s) eqn:Ea.
  - destruct (bool_decide _); [not_usable H Hus|]. by apply (Hadm _ eq_refl).
  - by apply (Hadm _ eq_refl).
Qed.
End Verdict.
