(* ===== verification/ResourceErrors.v ===== *)
(** * The errors of the resource manager's accounting

    From coherent books, with every placed actor on a registered stage, the
    functions that account for usage, search for nodes and judge requests
    report no inconsistency of the manager: what they raise is about a number
    that cannot be represented or about the input. *)

From S2P Require Import Prelude PyStr PyVal PyNum AdmissionLedger QueryGraph ResourceState ResourcePlacement ResourceManager ResourceBooks ResourceSteps ResourceInv ResourceCalls ResourceGrants.

#[local] Open Scope string_scope.
#[local] Open Scope list_scope.
#[local] Open Scope Z_scope.

Create HintDb calm.
#[export] Hint Resolve calm_ok : calm.

Ltac calm_step :=
  first
    [ solve [auto with calm]
    | apply calm_ok | apply calm_raise; by_benign | apply calm_raise_if; by_benign
    | apply calm_bind; [|intros ? ?]
    | apply calm_fold; intros ? ? ?
    | apply calm_map; intros ? ?
    | match goal with
      | |- calm (match ?x with _ => _ end) => destruct x
      | |- calm (if ?b then _ else _) => destruct b
      | |- calm ((match ?x with _ => _ end) _) => destruct x
      | |- forall _, _ => intro
      end ].
Ltac solve_calm := repeat calm_step.

(** ** Numbers *)

Lemma new_calm c g h o : calm (Res.new c g h o).
Proof. unfold Res.new, Res.check_float, Res.check_int. solve_calm. Qed.
#[export] Hint Resolve new_calm : calm.
Lemma add_calm a b : calm (Res.add a b).
Proof. apply new_calm. Qed.
Lemma sub_calm a b : calm (Res.sub a b).
Proof. unfold Res.sub. solve_calm. Qed.
Lemma floor_calm x : calm (f64_floor x).
Proof. unfold f64_floor. solve_calm. Qed.
Lemma float_of_int_calm z : calm (float_of_int z).
Proof. unfold float_of_int. solve_calm. Qed.
#[export] Hint Resolve add_calm sub_calm floor_calm float_of_int_calm : calm.
Lemma dominant_share_calm a b : calm (Res.dominant_share a b).
Proof. unfold Res.dominant_share, Res.share_int. solve_calm. Qed.
Lemma num_float_calm a : calm (num_float a).
Proof. unfold num_float. solve_calm. Qed.
#[export] Hint Resolve dominant_share_calm num_float_calm : calm.
Lemma num_op_calm f g a b : calm (num_op f g a b).
Proof. unfold num_op. solve_calm. Qed.
Lemma float_div_calm x b : calm (float_div x b).
Proof. unfold float_div. solve_calm. Qed.
Lemma num_floor_calm a : calm (num_floor a).
Proof. unfold num_floor. solve_calm. Qed.
#[export] Hint Resolve num_op_calm float_div_calm num_floor_calm : calm.
Lemma num_add_calm a b : calm (num_add a b).
Proof. apply num_op_calm. Qed.
Lemma num_sub_calm a b : calm (num_sub a b).
Proof. apply num_op_calm. Qed.
Lemma num_mul_calm a b : calm (num_mul a b).
Proof. apply num_op_calm. Qed.
#[export] Hint Resolve num_add_calm num_sub_calm num_mul_calm : calm.
Lemma num_sum_calm l : calm (num_sum l).
Proof. unfold num_sum. solve_calm. Qed.

(** ** Keys *)

Lemma with_keys_calm {A} (key : A -> result (list keyval)) l : (forall a, a ∈ l -> calm (key a)) -> calm (with_keys key l).
Proof. intros H. apply calm_map. intros a Ha. apply calm_bind; [by apply H|solve_calm]. Qed.
Lemma py_min_calm {A} (key : A -> result (list keyval)) l : (forall a, a ∈ l -> calm (key a)) -> calm (py_min key l).
Proof. intros H. apply calm_bind; [by apply with_keys_calm|solve_calm]. Qed.
Lemma py_max_calm {A} (key : A -> result (list keyval)) l : (forall a, a ∈ l -> calm (key a)) -> calm (py_max key l).
Proof. intros H. apply calm_bind; [by apply with_keys_calm|solve_calm]. Qed.
Lemma py_sorted_by_calm {A} (key : A -> result (list keyval)) l : (forall a, a ∈ l -> calm (key a)) -> calm (py_sorted_by key l).
Proof. intros H. apply calm_bind; [by apply with_keys_calm|solve_calm]. Qed.
Lemma od_item_calm {V} k (d : list (string * V)) : calm (od_item k d).
Proof. unfold od_item. solve_calm. Qed.
Lemma rexists_calm {A} (f : A -> result bool) l : (forall a, a ∈ l -> calm (f a)) -> calm (rexists f l).
Proof.
  induction l as [|a l IH]; intros H; cbn; [done|]. apply calm_bind; [apply H; left|]. intros b _. destruct b; [done|]. apply IH.
  intros. apply H. by right.
Qed.
#[export] Hint Resolve num_sum_calm od_item_calm stage_of_calm : calm.

(** ** Vectors and searches *)

Lemma with_object_store_calm r n : calm (with_object_store r n).
Proof. apply new_calm. Qed.
Lemma object_store_calm n : calm (object_store n).
Proof. apply new_calm. Qed.
Lemma positive_difference_calm a b : calm (positive_difference a b).
Proof. apply new_calm. Qed.
Lemma component_max_calm l : calm (component_max l).
Proof. unfold component_max. solve_calm. Qed.
Lemma add_all_calm a l : calm (add_all a l).
Proof. unfold add_all. solve_calm. Qed.
Lemma task_commitment_calm s : calm (task_commitment s).
Proof. apply new_calm. Qed.
#[export] Hint Resolve with_object_store_calm object_store_calm positive_difference_calm component_max_calm add_all_calm
  task_commitment_calm : calm.

Lemma bundle_candidates_calm ids rem r : calm (bundle_candidates ids rem r).
Proof. unfold bundle_candidates. solve_calm. Qed.
Lemma candidate_key_calm lim ids c : calm (candidate_key lim ids c).
Proof. unfold candidate_key. solve_calm. Qed.
#[export] Hint Resolve bundle_candidates_calm candidate_key_calm py_sorted_by_calm py_min_calm py_max_calm : calm.

Lemma try_candidates_calm next rem cs failed :
  (forall r f, calm (next r f)) -> calm (try_candidates next rem cs failed).
Proof.
  intros H. revert failed. induction cs as [|[i r] cs IH]; intros failed; cbn; [done|].
  apply calm_bind; [apply H|]. intros [found f'] _. destruct found; [done|apply IH].
Qed.

Lemma place_calm lim ids ordered rem failed : calm (place lim ids ordered rem failed).
Proof.
  revert rem failed. induction ordered as [|r ordered IH]; intros rem failed; [done|]. cbn [place]. destruct (known_failure _ _ _); [done|].
  apply calm_bind; [auto with calm|]. intros cs _. apply calm_bind; [auto with calm|]. intros cs' _.
  apply calm_bind; [apply try_candidates_calm, IH|]. solve_calm.
Qed.
#[export] Hint Resolve place_calm : calm.

Lemma reservation_key_calm lim r : calm (reservation_key lim r).
Proof. unfold reservation_key. solve_calm. Qed.
#[export] Hint Resolve reservation_key_calm : calm.

Lemma remaining_preserves_calm m rem res : calm (remaining_preserves_downstream m rem res).
Proof. unfold remaining_preserves_downstream. solve_calm. Qed.
#[export] Hint Resolve remaining_preserves_calm : calm.

Lemma order_loop_calm fuel d indegree ready ordered : calm (Graph.order_loop fuel d indegree ready ordered).
Proof.
  revert indegree ready ordered. induction fuel as [|fuel IH]; intros indegree ready ordered; cbn [Graph.order_loop]; [done|].
  unfold Graph.relax. solve_calm.
Qed.

Lemma reverse_ids_calm g : calm (Graph.reverse_topological_stage_ids g).
Proof.
  unfold Graph.reverse_topological_stage_ids, Graph.topological_stage_ids, Graph.topological_order, Graph.downstream_of, Graph.add_edge.
  repeat first [apply order_loop_calm | calm_step].
Qed.
#[export] Hint Resolve reverse_ids_calm rexists_calm : calm.

(** ** Usage *)

(** Every placed actor belongs to a registered stage. *)
Definition placed (m : Manager) : Prop :=
  forall pl, pl ∈ m.(m_allocation).(al_placements) -> is_Some (od_get pl.(ap_stage_id) (specs m)).

Section Accounting.
Context (p : Plan) (uuid : nat -> string) (m : Manager) (Hm : coherent uuid m) (Hp : placed m).

Lemma borrowed_task_usage_calm r w c : calm (borrowed_task_usage m r w c).
Proof. unfold borrowed_task_usage. solve_calm. Qed.
Lemma idle_excess_calm c : calm (idle_continuation_output_excess m c).
Proof. unfold idle_continuation_output_excess. solve_calm. Qed.
#[local] Hint Resolve borrowed_task_usage_calm idle_excess_calm : calm.

Lemma task_usage_calm l : calm (task_usage m l).
Proof using Hm.
  unfold task_usage. destruct (od_get (tl_lease_id l) m.(m_credit_by_borrower)) as [k|] eqn:E; [|solve_calm].
  destruct (co_borrow _ _ Hm _ _ E) as (_ & c & Hc & Hb). rewrite Hc, bool_decide_eq_true_2 by done. solve_calm.
Qed.

Lemma resident_calm node stage : calm (actor_resident_usage m node stage).
Proof using Hp.
  unfold actor_resident_usage. apply calm_fold. intros r pl Hpl. destruct (match node with Some _ => _ | None => _ end); [done|].
  destruct (match stage with Some _ => _ | None => _ end); [done|]. destruct (Hp pl Hpl) as [s Hs]. rewrite specs_get in Hs.
  destruct (od_get (ap_stage_id pl) m.(m_stages)); [solve_calm|done].
Qed.
#[local] Hint Resolve task_usage_calm resident_calm : calm.

Lemma query_usage_calm : calm (query_usage m).
Proof using Hm Hp. unfold query_usage. solve_calm. Qed.
Lemma node_usage_calm n : calm (node_usage m n).
Proof using Hm Hp. unfold node_usage, scope_usage. solve_calm. Qed.
Lemma stage_usage_calm s : calm (stage_usage p m s).
Proof using Hm Hp. unfold stage_usage, scope_usage. solve_calm. Qed.
#[local] Hint Resolve query_usage_calm node_usage_calm stage_usage_calm : calm.

Lemma placement_preserves_calm n c res : calm (placement_preserves_downstream m n c res).
Proof using Hm Hp. unfold placement_preserves_downstream. solve_calm. Qed.
#[local] Hint Resolve placement_preserves_calm : calm.

Lemma select_task_node_calm req c allowed res : calm (select_task_node m req c allowed res).
Proof using Hm Hp. unfold select_task_node. solve_calm. Qed.

Lemma pair_remaining_calm proposed nodes acc : calm (pair_remaining m proposed nodes acc).
Proof using Hm Hp. revert acc. induction nodes as [|[n cap] nodes IH]; intros acc; cbn [pair_remaining]; solve_calm. Qed.
#[local] Hint Resolve select_task_node_calm pair_remaining_calm : calm.

Lemma try_pair_calm t c res acc pr : calm (try_pair m t c res acc pr).
Proof using Hm Hp. unfold try_pair. solve_calm. Qed.
Lemma pair_key_calm c : calm (pair_key c).
Proof. unfold pair_key. solve_calm. Qed.
#[local] Hint Resolve try_pair_calm pair_key_calm : calm.

Lemma select_pair_calm req t c res : calm (select_task_and_credit_nodes m req t c res).
Proof using Hm Hp. unfold select_task_and_credit_nodes. solve_calm. Qed.
#[local] Hint Resolve select_pair_calm : calm.

(** Credits, reservations and soft limits *)

Lemma stages_of_calm ids : calm (stages_of m ids).
Proof. unfold stages_of. solve_calm. Qed.
#[local] Hint Resolve stages_of_calm : calm.
Lemma credit_template_calm s : calm (credit_template p m s).
Proof. unfold credit_template. solve_calm. Qed.
Lemma borrow_increment_calm r w c : calm (borrow_increment m r w c).
Proof. unfold borrow_increment. solve_calm. Qed.
#[local] Hint Resolve credit_template_calm borrow_increment_calm : calm.
Lemma credit_key_calm u r w c : calm (credit_key m u r w c).
Proof using Hm Hp. unfold credit_key. solve_calm. Qed.
#[local] Hint Resolve credit_key_calm : calm.
Lemma available_credit_calm s req r w u : calm (available_credit p m s req r w u).
Proof using Hm Hp. unfold available_credit. solve_calm. Qed.
Lemma after_streaming_calm s l id : calm (after_streaming_actor p s l id).
Proof. unfold after_streaming_actor. solve_calm. Qed.
#[local] Hint Resolve available_credit_calm after_streaming_calm : calm.
Lemma downstream_reservations_calm s : calm (downstream_reservations p m s).
Proof. unfold downstream_reservations. solve_calm. Qed.
Lemma reservation_total_calm l : calm (reservation_total l).
Proof. unfold reservation_total. solve_calm. Qed.
Lemma continuation_demand_calm d l : calm (continuation_demand p m d l).
Proof. unfold continuation_demand. solve_calm. Qed.
#[local] Hint Resolve downstream_reservations_calm reservation_total_calm continuation_demand_calm : calm.
Lemma reservation_stages_calm d s : calm (reservation_stages p m d s).
Proof. unfold reservation_stages. solve_calm. Qed.
Lemma dimension_bound_calm a b d : calm (dimension_bound a b d).
Proof. unfold dimension_bound. solve_calm. Qed.
#[local] Hint Resolve reservation_stages_calm dimension_bound_calm : calm.
Lemma dimension_maximum_calm s d : calm (dimension_maximum m s d).
Proof. unfold dimension_maximum. solve_calm. Qed.
#[local] Hint Resolve dimension_maximum_calm : calm.
Lemma reserved_shares_calm d ids : calm (reserved_shares p m d ids).
Proof. unfold reserved_shares. solve_calm. Qed.
#[local] Hint Resolve reserved_shares_calm : calm.
Lemma soft_blocked_calm u s r d : calm (soft_blocked p m u s r d).
Proof. unfold soft_blocked. solve_calm. Qed.
#[local] Hint Resolve soft_blocked_calm : calm.
Lemma first_soft_calm u s r ds : calm (first_soft p m u s r ds).
Proof. induction ds as [|d ds IH]; cbn [first_soft]; solve_calm. Qed.
#[local] Hint Resolve first_soft_calm : calm.
Lemma stage_soft_calm s r : calm (stage_soft_block_reason p m s r).
Proof using Hm Hp. unfold stage_soft_block_reason. solve_calm. Qed.
Lemma starving_reader_calm s : calm (starving_reader p m s).
Proof. unfold starving_reader. solve_calm. Qed.
#[local] Hint Resolve stage_soft_calm starving_reader_calm : calm.
Lemma soft_verdict_calm s c b plan : calm (soft_verdict p m s c b plan).
Proof using Hm Hp. unfold soft_verdict. solve_calm. Qed.
#[local] Hint Resolve soft_verdict_calm : calm.

(** ** The verdicts *)

Lemma py_min_found {A} (key : A -> result (list keyval)) l : py_min key l = Ok None -> l = [].
Proof. unfold py_min. intros (k & H & Hp')%rbind_ok. apply with_keys_snd in H. destruct k; [by rewrite <- H|done]. Qed.

Lemma free_actor_some s n : n ∈ od_keys (free_actor_indices m s) -> od_get_default n [] (free_actor_indices m s) <> [].
Proof.
  unfold free_actor_indices.
  assert (H : forall l acc, (forall n, n ∈ od_keys acc -> od_get_default n [] acc <> []) ->
    let free := fold_left (fun acc pl =>
      if negb (String.eqb pl.(ap_stage_id) s.(sp_stage_id)) then acc
      else if s.(sp_actor_prefetch_depth) <=? actor_slot_lease_count m (s.(sp_stage_id), pl.(ap_actor_index)) then acc
      else od_set pl.(ap_node_id) (od_get_default pl.(ap_node_id) [] acc ++ [pl.(ap_actor_index)]) acc) l acc in
    forall n, n ∈ od_keys free -> od_get_default n [] free <> []).
  { induction l as [|pl l IH]; intros acc Hacc; cbn [fold_left]; [done|]. apply IH. destruct (negb _); [done|].
    destruct (_ <=? _); [done|]. intros n0. rewrite od_default_set. destruct (String.eqb_spec (ap_node_id pl) n0) as [->|Hne].
    - intros _ E. by apply app_eq_nil in E as [_ ?].
    - intros Hin. apply Hacc. destruct (od_get n0 acc) as [v|] eqn:E.
      + apply list_elem_of_fmap. exists (n0, v). split; [done|]. by apply od_get_elem.
      + exfalso. apply od_get_None in Hin; [done|]. by rewrite od_get_set_ne. }
  apply (H _ []). intros n0 Hn. by apply not_elem_of_nil in Hn.
Qed.

Context (Hne : forall n, uuid n <> "").

Lemma place_task_calm r s d free borrowed template adm res :
  (free = if Stage.is_actor s then Some (free_actor_indices m s) else None) ->
  (Stage.is_actor s = true -> borrowed = None /\ template = None) ->
  calm (place_task p m r s d free borrowed template adm res).
Proof using Hm Hp Hne.
  intros Hfree Hact. unfold place_task. destruct (Stage.is_actor s).
  - destruct Hact as [-> ->]; [done|]. subst free. apply calm_bind; [solve_calm|]. intros [[[node why] fat] nc] H.
    apply rbind_ok in H as ([[n w] f'] & Hs & [= <- <- <- <-]). destruct w as [w|]; [done|]. apply calm_bind; [|solve_calm].
    destruct (select_task_node_room uuid Hne m Hm _ _ _ _ _ _ Hs) as [_ Hin]. unfold choose_actor.
    apply calm_bind; [solve_calm|]. intros [i|] Hi; [done|]. apply py_min_found in Hi. by destruct (free_actor_some s n Hin).
  - subst free. solve_calm.
Qed.

Lemma fit_task_calm r s d free :
  (free = if Stage.is_actor s then Some (free_actor_indices m s) else None) -> calm (fit_task p m r s d free).
Proof using Hm Hp Hne.
  intros Hfree. unfold fit_task. apply calm_bind; [solve_calm|]. intros usage _. apply calm_bind; [solve_calm|]. intros debt _.
  destruct (negb _); [done|]. apply calm_bind; [solve_calm|]. intros borrowed Hb. apply calm_bind; [solve_calm|]. intros template Ht.
  apply calm_bind; [solve_calm|]. intros adm _. apply calm_bind; [solve_calm|]. intros adm' _. apply calm_bind; [solve_calm|]. intros after _.
  destruct (Res.exceeded_dimensions _ _); [|done]. apply calm_bind; [solve_calm|]. intros res _. apply calm_bind; [solve_calm|]. intros rm _.
  destruct (negb rm); [done|]. apply place_task_calm; [done|]. intros Ha%String.eqb_eq. split.
  - unfold available_credit in Hb. rewrite Ha in Hb. by injection Hb.
  - unfold credit_template, Stage.is_worker in Ht. rewrite Ha in Ht. by injection Ht.
Qed.

Lemma admit_task_calm r s free :
  (free = if Stage.is_actor s then Some (free_actor_indices m s) else None) -> calm (admit_task p m r s free).
Proof using Hm Hp Hne.
  intros Hfree. unfold admit_task. destruct (_ <? 0); [done|]. apply calm_bind; [solve_calm|]. intros res _. apply calm_bind; [solve_calm|].
  intros cm _. destruct (Res.exceeded_dimensions _ _); [|done]. by apply fit_task_calm.
Qed.

Lemma task_block_reason_calm r h : calm (task_block_reason p m r h).
Proof using Hm Hp Hne.
  unfold task_block_reason, refused, blocked. repeat (match goal with |- calm (if ?b then _ else _) => destruct b end; [done|]).
  destruct (od_get (tr_stage_id r) m.(m_stages)) as [st|]; [|done].
  do 7 (match goal with |- calm (if ?b then _ else _) => destruct b end; [done|]).
  destruct (Stage.is_actor (ss_spec st)) eqn:Ea; [|apply admit_task_calm; by rewrite Ea].
  destruct (bool_decide _); [done|]. apply admit_task_calm. by rewrite Ea.
Qed.

Lemma output_block_reason_calm r : calm (output_block_reason p m r).
Proof using Hm Hp. unfold output_block_reason, fit_output. solve_calm. Qed.
End Accounting.
