(* ===== verification/ResourceLimits.v ===== *)
(** * Grants of the resource manager keep the books within the allocation

    Booking a plan that [task_block_reason] has checked: the lease, its actor
    and its credit enter the books, which stay coherent, and the footprint
    grows by what the plan was charged for, within the allocation. *)

From S2P Require Import Prelude PyStr PyVal PyNum AdmissionLedger QueryGraph ResourceState ResourcePlacement ResourceManager ResourceBooks ResourceSteps ResourceInv ResourceCalls ResourceGrants.

#[local] Open Scope string_scope.
#[local] Open Scope list_scope.
#[local] Open Scope Z_scope.

(** ** The actor of a new lease *)

Section NewSlot.
Context (m : Manager) (Hs : slots_ok m) (x : string) (l : TaskLease).
Context (Hx : od_get x m.(m_task_leases) = None).

Lemma with_lease_at slot y : lease_at m slot y -> lease_at (with_lease m x l) slot y.
Proof using Hx.
  intros (l' & Hl & Hr). exists l'. split; [|done]. rewrite with_lease_get, decide_False; [done|]. intros ->. congruence.
Qed.

Lemma fresh_at slot y : lease_at m slot y -> y <> x.
Proof using Hx. intros (l' & Hl & _) ->. congruence. Qed.

Lemma unslotted_ok : l.(tl_actor_index) = None -> slots_ok (with_lease m x l).
Proof using Hs Hx.
  intros Hi. destruct Hs. constructor; try done.
  - intros slot y Hy. by apply with_lease_at, sl_active.
  - intros slot q Hq. destruct (sl_queue slot q Hq) as (H1 & H2 & H3 & H4). split; [done|]. split; [done|]. split; [|done].
    intros y Hy. by apply with_lease_at, H3.
  - intros y l' i. rewrite with_lease_get. destruct (decide (x = y)); [intros [= <-]; congruence|apply sl_lease].
Qed.

(** The books of the actors once [x] is entered at [slot]: [a] runs, [q] queue. *)
Lemma entered_ok slot s a q m' :
  l.(tl_stage_id) = slot.1 -> l.(tl_actor_index) = Some slot.2 -> od_get slot.1 (specs m) = Some s ->
  m'.(m_task_leases) = od_set x l m.(m_task_leases) -> specs m' = specs m ->
  od_wf m'.(m_active_slots) -> od_wf m'.(m_queued_slots) ->
  (forall s, od_get s m'.(m_active_slots) = if decide (slot = s) then Some a else od_get s m.(m_active_slots)) ->
  (forall s, od_get s m'.(m_queued_slots) =
     if decide (slot = s) then (if bool_decide (length q = O) then None else Some q) else od_get s m.(m_queued_slots)) ->
  NoDup (a :: q) -> (forall y, y ∈ a :: q -> y = x \/ lease_at m slot y) -> (forall y, y = x \/ lease_at m slot y -> y ∈ a :: q) ->
  1 + Z.of_nat (length q) <= s.(sp_actor_prefetch_depth) -> slots_ok m'.
Proof using Hs Hx.
  intros Hst Hi Hsp Hl Hsp' Hwa Hwq Ha Hq [Haq Hnd]%NoDup_cons Hin Hback Hcount.
  assert (Hat : forall s y, lease_at m s y -> lease_at m' s y).
  { intros s' y H. destruct (with_lease_at s' y H) as (l' & Hl' & Hr). exists l'. rewrite Hl. done. }
  assert (Hat' : forall y, y ∈ a :: q -> lease_at m' slot y).
  { intros y [->|Hy]%Hin; [|by apply Hat]. exists l. rewrite Hl, od_get_set, decide_True by done. done. }
  destruct Hs. constructor; try done.
  - intros s' y. rewrite Ha. destruct (decide (slot = s')) as [<-|]; [intros [= <-]; apply Hat'; left|]. intros Hy. by apply Hat, sl_active.
  - intros s' q'. rewrite Hq. destruct (decide (slot = s')) as [<-|Hne].
    + case_bool_decide as Eq; [done|]. intros [= <-]. split; [by intros ->|]. split; [done|].
      split; [intros y Hy; apply Hat'; by right|]. exists a. by rewrite Ha, decide_True.
    + intros Hq'. destruct (sl_queue s' q' Hq') as (H1 & H2 & H3 & y & H4). split; [done|]. split; [done|].
      split; [intros z Hz; by apply Hat, H3|]. exists y. by rewrite Ha, decide_False.
  - intros y l' i Hy Hi'. rewrite Hl, od_get_set in Hy. unfold od_get_default. rewrite Ha, Hq.
    destruct (decide (slot = (l'.(tl_stage_id), i))) as [Es|Es].
    + assert (Hyq : y ∈ a :: q).
      { apply Hback. destruct (decide (x = y)); [by left|]. right. exists l'. by rewrite Es. }
      apply elem_of_cons in Hyq as [->|Hyq]; [by left|]. right. rewrite bool_decide_eq_false_2; [done|]. by destruct q; [apply not_elem_of_nil in Hyq|].
    + apply sl_lease; [|done]. destruct (decide (x = y)) as [E|E]; [|done]. injection Hy as <-. destruct Es, slot. cbn in *. congruence.
  - intros s' st. rewrite Hsp'. intros Hs'. unfold actor_slot_lease_count, od_mem, od_get_default. rewrite Ha, Hq.
    destruct (decide (slot = s')) as [<-|E]; [|by apply (sl_depth s' st)]. rewrite Hsp in Hs'. injection Hs' as <-.
    case_bool_decide as Eq; cbn; rewrite ?Eq in Hcount; lia.
Qed.

Lemma booked_ok slot s :
  l.(tl_stage_id) = slot.1 -> l.(tl_actor_index) = Some slot.2 -> od_get slot.1 (specs m) = Some s ->
  actor_slot_lease_count m slot < s.(sp_actor_prefetch_depth) -> slots_ok (book_slot slot x (with_lease m x l)).
Proof using Hs Hx.
  intros Hst Hi Hsp Hcount. unfold book_slot. change (m_active_slots (with_lease m x l)) with m.(m_active_slots).
  change (m_queued_slots (with_lease m x l)) with m.(m_queued_slots). unfold actor_slot_lease_count in Hcount.
  set (q := od_get_default slot [] m.(m_queued_slots)) in *. unfold od_mem in *.
  assert (Hcov : forall y, lease_at m slot y -> od_get slot m.(m_active_slots) = Some y \/ y ∈ q).
  { intros y (l' & Hl' & Hs1 & Hi1). destruct (sl_lease _ Hs _ _ _ Hl' Hi1) as [H|H]; rewrite Hs1 in H; destruct slot; auto. }
  destruct (od_get slot m.(m_active_slots)) as [owner|] eqn:Eo.
  - assert (Hq : NoDup q /\ (forall y, y ∈ q -> lease_at m slot y) /\ (owner ∉ q)).
    { subst q. unfold od_get_default. destruct (od_get slot m.(m_queued_slots)) as [q|] eqn:Eq; cbn.
      - destruct (sl_queue _ Hs slot q Eq) as (_ & H2 & H3 & y & H4 & H5). split; [done|]. split; [done|]. rewrite Eo in H4. by injection H4 as ->.
      - split; [constructor|]. split; [intros y Hy; by apply not_elem_of_nil in Hy|apply not_elem_of_nil]. }
    destruct Hq as (Hnd & Hat & Hown). pose proof (sl_active _ Hs _ _ Eo) as Hoat.
    eapply (entered_ok slot s owner (q ++ [x])); [done|done|done|reflexivity|reflexivity|apply Hs| | | | | | |].
    + apply od_wf_set, Hs.
    + intros s'. cbn. by destruct (decide (slot = s')) as [<-|].
    + intros s'. etransitivity; [apply (od_get_set slot s' (q ++ [x]) m.(m_queued_slots))|]. rewrite bool_decide_eq_false_2; [done|]. rewrite length_app. cbn. lia.
    + apply NoDup_cons. rewrite elem_of_app, list_elem_of_singleton. split; [intros [?| ->]; [done|by apply (fresh_at slot x Hoat)]|].
      apply NoDup_app. split; [done|]. split; [|apply NoDup_singleton]. intros y Hy ->%list_elem_of_singleton. by apply (fresh_at slot x (Hat _ Hy)).
    + intros y. rewrite elem_of_cons, elem_of_app, list_elem_of_singleton. intros [->|[?| ->]]; auto.
    + intros y. rewrite elem_of_cons, elem_of_app, list_elem_of_singleton. intros [->|Hy]; [auto|].
      destruct (Hcov y Hy) as [[= ->]|?]; auto.
    + rewrite length_app. cbn. lia.
  - assert (Hq : q = []).
    { subst q. unfold od_get_default. destruct (od_get slot m.(m_queued_slots)) as [q|] eqn:Eq; [|done].
      destruct (sl_queue _ Hs slot q Eq) as (_ & _ & _ & y & H4 & _). congruence. }
    rewrite Hq in *. eapply (entered_ok slot s x []); [done|done|done|reflexivity|reflexivity| |apply Hs| | | | | |].
    + apply od_wf_set, Hs.
    + intros s'. apply od_get_set.
    + intros s'. cbn. destruct (decide (slot = s')) as [<-|]; [|done]. unfold q, od_get_default in Hq.
      destruct (od_get slot m.(m_queued_slots)) as [q1|] eqn:E1; [|done]. destruct (sl_queue _ Hs _ _ E1) as (Hne & _). by destruct Hne.
    + apply NoDup_singleton.
    + intros y ->%list_elem_of_singleton. by left.
    + intros y [->|Hy]; [left|]. destruct (Hcov y Hy) as [?|Hn]; [done|by apply not_elem_of_nil in Hn].
    + cbn in *. lia.
Qed.
End NewSlot.

(** ** A lease and its credit enter the books *)

Section Granting.
Context (p : Plan) (uuid : nat -> string) (Hinj : forall a b, uuid a = uuid b -> a = b).

(** A name that nothing in the books refers to. *)
Record unused (m : Manager) (x : string) : Prop := {
  un_lease : od_get x m.(m_task_leases) = None;
  un_borrower : od_get x m.(m_credit_by_borrower) = None;
  un_parent : od_get x m.(m_credit_by_parent) = None;
  un_credit : od_get x m.(m_credits) = None;
  un_task : forall k o, od_get k m.(m_output_leases) = Some o -> o.(ol_task_lease_id) <> x;
  un_owner : forall k o, od_get k m.(m_output_leases) = Some o -> o.(ol_continuation_credit_id) <> Some x;
}.

Lemma undrawn_unused m x : sane p uuid m -> ~ drawn uuid m x -> unused m x.
Proof.
  intros [Hc Ho _ _] Hx. constructor.
  - destruct (od_get x m.(m_task_leases)) as [l|] eqn:E; [|done]. by apply (co_lease _ _ Hc) in E as (_ & ? & _).
  - destruct (od_get x m.(m_credit_by_borrower)) as [l|] eqn:E; [|done]. by apply (co_borrow _ _ Hc) in E as (? & _).
  - destruct (od_get x m.(m_credit_by_parent)) as [l|] eqn:E; [|done]. apply (ow_parent _ _ _ Ho) in E as ([[l' E]|[]] & _).
    by apply (co_lease _ _ Hc) in E as (_ & ? & _).
  - destruct (od_get x m.(m_credits)) as [l|] eqn:E; [|done]. by apply (co_credit _ _ Hc) in E as (_ & ? & _).
  - intros k o E <-. by apply (co_output _ _ Hc) in E as (_ & _ & ? & _).
  - intros k o E Ek. apply (co_output _ _ Hc) in E as (_ & _ & _ & _ & H). by apply Hx, H.
Qed.

(** The books with the new lease, the actor booked. *)
Lemma entered_inv m x l m' :
  inv p uuid m -> unused m x -> drawn uuid m x -> l.(tl_lease_id) = x -> nonneg l.(tl_resources) ->
  m'.(m_task_leases) = od_set x l m.(m_task_leases) -> slots_ok m' -> m'.(m_credit_by_parent) = m.(m_credit_by_parent) ->
  same_books (with_lease m x l) m' -> inv p uuid m'.
Proof.
  intros [Hm Ht] Hx Hd Hid Hn Hl Hsl Hp Hb. destruct Hx.
  pose proof (with_lease_coherent uuid m (iv_co _ _ _ Hm) x l un_lease0 un_borrower0 un_task0 Hid Hd Hn) as Hc.
  pose proof (coherent_same _ _ _ Hb Hc) as Hc'. pose proof Hb as (_ & Hs & _ & Hcr & Hbo & Ho & _).
  assert (Hg : forall y, is_Some (od_get y m.(m_task_leases)) -> is_Some (od_get y m'.(m_task_leases))).
  { intros y. rewrite Hl, od_get_set. case_decide; eauto. }
  split.
  - constructor; [done| |done|rewrite <- (iv_specs _ _ _ Hm); exact Hs]. destruct (iv_owned _ _ _ Hm).
    constructor; unfold has_pending_output; rewrite ?Hp, ?Hcr, ?Hbo, ?Ho; try done.
    + intros y k Hy. destruct (ow_parent y k Hy) as ([?|[]] & ?). auto.
    + intros y k Hy. destruct (ow_held y k Hy) as [?|[?|[]]]; auto.
  - intros y Hy k o. rewrite Hbo, Ho. cbn. rewrite Hl, od_get_set in Hy. destruct (decide (x = y)) as [<-|Hne].
    + intros Hk E. by destruct (un_task0 k o Hk).
    + by apply Ht.
Qed.

(** A new credit of a lease that has none. *)
Lemma credited_inv m x k c :
  inv p uuid m -> is_Some (od_get x m.(m_task_leases)) -> od_get x m.(m_credit_by_parent) = None ->
  unused m k -> drawn uuid m k -> nonneg c.(cc_resources) -> c.(cc_credit_id) = k -> c.(cc_borrowed_by) = None ->
  c.(cc_parent_task_lease_id) = x -> c.(cc_parent_active) = true ->
  inv p uuid (with_credit m k c <| m_credit_by_parent ::= od_set x k |>).
Proof.
  intros [Hm Ht] Hx Hp Hk Hd Hn Hid Hidle Hpx Hpa. destruct Hk.
  pose proof (with_credit_coherent uuid m (iv_co _ _ _ Hm) k c un_credit0 Hidle Hid un_owner0 Hd Hn) as Hc.
  set (m' := with_credit m k c <| m_credit_by_parent ::= od_set x k |>).
  assert (Hb : same_books (with_credit m k c) m') by (repeat split; done).
  split; [|done]. constructor.
  - eapply coherent_same; [exact Hb|done].
  - destruct (iv_owned _ _ _ Hm). constructor; try done.
    + cbn. by apply od_wf_set.
    + intros y j. change (m_credit_by_parent m') with (od_set x k m.(m_credit_by_parent)). rewrite od_get_set.
      change (m_credits m') with (with_credit m k c).(m_credits). rewrite with_credit_get. destruct (decide (x = y)) as [<-|Hne].
      * intros [= <-]. split; [by left|]. rewrite decide_True by done. eauto.
      * intros Hy. destruct (ow_parent y j Hy) as (Hl & c' & Hc' & Hr). split; [done|]. exists c'. rewrite decide_False; [done|]. intros <-. congruence.
    + intros j c'. change (m_credits m') with (with_credit m k c).(m_credits). rewrite with_credit_get.
      change (m_credit_by_parent m') with (od_set x k m.(m_credit_by_parent)). destruct (decide (k = j)) as [<-|Hne].
      * intros [= <-] _. by rewrite Hpx, od_get_set, decide_True.
      * intros Hj Ha. rewrite od_get_set. pose proof (ow_parent_back j c' Hj Ha) as E. rewrite decide_False; [done|]. intros Ex. rewrite <- Ex in E. congruence.
    + intros j c'. change (m_credits m') with (with_credit m k c).(m_credits). rewrite with_credit_get.
      destruct (decide (k = j)) as [<-|Hne]; [intros [= <-]; by left|apply ow_kept].
  - eapply (slots_same m); [..|apply Hm]; done.
  - apply Hm.
Qed.

(** A lease with no outputs borrows an idle credit on its node. *)
Lemma lent_inv m x k l c :
  inv p uuid m -> od_get x m.(m_task_leases) = Some l -> od_get x m.(m_credit_by_borrower) = None ->
  (forall i o, od_get i m.(m_output_leases) = Some o -> o.(ol_task_lease_id) <> x) ->
  od_get k m.(m_credits) = Some c -> c.(cc_borrowed_by) = None -> l.(tl_node_id) = c.(cc_node_id) ->
  inv p uuid (lent m x k c).
Proof.
  intros [Hm Ht] Hx Hb Ho Hk Hidle Hnode. pose proof (lent_coherent uuid m (iv_co _ _ _ Hm) x k l c Hx Hb Ho Hk Hidle Hnode) as Hc.
  assert (Hg : forall y c', od_get y (lent m x k c).(m_credits) = Some c' -> exists c0, od_get y m.(m_credits) = Some c0 /\
    c'.(cc_parent_task_lease_id) = c0.(cc_parent_task_lease_id) /\ c'.(cc_parent_active) = c0.(cc_parent_active) /\
    (is_Some c0.(cc_borrowed_by) -> is_Some c'.(cc_borrowed_by))).
  { intros y c'. change (m_credits (lent m x k c)) with (od_set k (c <| cc_borrowed_by := Some x |>) m.(m_credits)). rewrite od_get_set.
    destruct (decide (k = y)) as [<-|]; [intros [= <-]; exists c; cbn; eauto|intros; exists c'; auto]. }
  split.
  - constructor; [done| | |apply Hm].
    + destruct (iv_owned _ _ _ Hm). constructor; try done.
      * intros y j Hy. destruct (ow_parent y j Hy) as (Hl & c' & Hc' & Hr). split; [done|].
        change (m_credits (lent m x k c)) with (od_set k (c <| cc_borrowed_by := Some x |>) m.(m_credits)). rewrite od_get_set.
        destruct (decide (k = j)) as [<-|]; [|eauto]. rewrite Hk in Hc'. injection Hc' as <-. eauto.
      * intros y c' (c0 & H0 & -> & -> & _)%Hg. by apply ow_parent_back.
      * intros y c' (c0 & H0 & _ & -> & H)%Hg. destruct (ow_kept y c0 H0); auto.
      * intros y j. rewrite lent_borrower. destruct (decide (x = y)) as [<-|]; [|apply ow_held]. intros _. left. cbn. eauto.
    + eapply (slots_same m); [..|apply Hm]; done.
  - intros y Hy i o Hi E. cbn in Hi, Hy. rewrite lent_borrower. rewrite decide_False; [by apply (Ht y Hy i o)|]. intros <-. by destruct (Ho i o Hi).
Qed.

(** What a plan adds to the footprint of a scope. *)
Definition growth (m : Manager) (plan : TaskAdmissionPlan) (d : byte_dim) (sel : string -> bool) : Z :=
  match plan.(pl_new_credit), plan.(pl_borrowed_credit_id) with
  | Some nc, _ => (if sel plan.(pl_node_id) then charge plan d else 0) + (if sel nc.(nc_node_id) then vb d nc.(nc_resources) else 0)
  | None, Some k => match od_get k m.(m_credits) with
                    | Some c => if sel c.(cc_node_id) then lend_increment m plan c d else 0 | None => 0 end
  | None, None => if sel plan.(pl_node_id) then charge plan d else 0
  end.

Lemma growth_within m m' stage plan :
  plan_room m stage plan -> (forall d sel, footprint d sel m' <= footprint d sel m + growth m plan d sel) -> within m m'.
Proof.
  intros Hr Hf d. unfold plan_room in Hr. unfold growth in Hf.
  destruct (pl_new_credit plan) as [nc|], (pl_borrowed_credit_id plan) as [k|]; [done| | |].
  - destruct Hr as (_ & Hq & Hn). split; [right; specialize (Hf d on_query); specialize (Hq d); cbn in *; lia|].
    intros n. specialize (Hf d (on_node n)). unfold on_node at 3 4 in Hf. cbn [in_scope] in Hf.
    destruct (decide (n = plan.(pl_node_id) \/ n = nc.(nc_node_id))) as [E|E].
    + right. destruct (Hn n E) as (cap & Hcap & Hfit). exists cap. split; [done|]. specialize (Hfit d). cbn in Hfit.
      rewrite (String.eqb_sym _ n), (String.eqb_sym (nc_node_id nc) n) in Hf. lia.
    + left. rewrite !(proj2 (String.eqb_neq _ _)) in Hf by (intros <-; tauto). lia.
  - destruct Hr as (c & Hk & _ & _ & _ & _ & Hq & (cap & Hcap & Hfit)). rewrite Hk in Hf.
    split; [right; specialize (Hf d on_query); specialize (Hq d); cbn in *; lia|].
    intros n. specialize (Hf d (on_node n)). unfold on_node at 3 in Hf. cbn [in_scope] in Hf.
    destruct (String.eqb_spec (cc_node_id c) n) as [E|]; [|left; lia]. rewrite E in *. right. exists cap. split; [done|]. specialize (Hfit d). cbv beta in Hfit. lia.
  - destruct Hr as (Hq & (cap & Hcap & Hfit)). split; [right; specialize (Hf d on_query); specialize (Hq d); cbn in *; lia|].
    intros n. specialize (Hf d (on_node n)). unfold on_node at 3 in Hf. cbn [in_scope] in Hf.
    destruct (String.eqb_spec (pl_node_id plan) n) as [E|]; [|left; lia]. rewrite E in *. right. exists cap. split; [done|]. specialize (Hfit d). cbv beta in Hfit. lia.
Qed.

(** The credit of a lease that has just been entered. *)
Lemma take_credit_wp m m2 plan l :
  plan_room m l.(tl_stage_id) plan -> inv p uuid m2 -> 0 <= plan.(pl_output_window_bytes) ->
  l.(tl_resources) = plan.(pl_resources) -> l.(tl_output_window_bytes) = plan.(pl_output_window_bytes) ->
  l.(tl_node_id) = plan.(pl_node_id) -> od_get l.(tl_lease_id) m2.(m_task_leases) = Some l ->
  od_get l.(tl_lease_id) m2.(m_credit_by_borrower) = None -> od_get l.(tl_lease_id) m2.(m_credit_by_parent) = None ->
  (forall k o, od_get k m2.(m_output_leases) = Some o -> o.(ol_task_lease_id) <> l.(tl_lease_id)) ->
  m2.(m_credits) = m.(m_credits) -> m2.(m_output_leases) = m.(m_output_leases) ->
  (forall d sel, footprint d sel m2 = footprint d sel m + if sel l.(tl_node_id) then lease_cost d l 0 else 0) ->
  wp (take_credit uuid plan l)
    (fun _ m' => inv p uuid m' /\ forall d sel, footprint d sel m' <= footprint d sel m + growth m plan d sel) (fun _ _ => False) m2.
Proof using Hinj.
  intros Hroom Hinv Hw Hr Hwin Hnode Hl Hb Hp Ho Hcr Hout Hf. unfold take_credit. apply wp_bind, wp_get.
  assert (Hcost : forall d, lease_cost d l 0 = charge plan d).
  { intros d. unfold lease_cost, charge. rewrite Hr, Hwin, Z.max_l by done. done. }
  unfold plan_room in Hroom. unfold growth. destruct (pl_new_credit plan) as [nc|], (pl_borrowed_credit_id plan) as [k|]; [done| | |].
  - destruct Hroom as (Hn & _). apply wp_bind. unfold draw, wp at 1. destruct (after_draw uuid m2) as [H0 Hd].
    set (m3 := m2 <| m_drawn ::= S |>) in *. set (k := uuid m2.(m_drawn)) in *. apply wp_modify. set (c := MkCredit k _ _ _ _ _ _ _ _ _).
    pose proof (undrawn_unused m2 k (proj1 Hinv) (next_fresh uuid Hinj m2)) as Hun.
    assert (Hun3 : unused m3 k) by (by destruct Hun).
    change (inv p uuid (with_credit m3 k c <| m_credit_by_parent ::= od_set l.(tl_lease_id) k |>) /\ forall d sel,
      footprint d sel (with_credit m3 k c) <= footprint d sel m + ((if sel (pl_node_id plan) then charge plan d else 0) +
        (if sel (nc_node_id nc) then vb d (nc_resources nc) else 0))). split.
    + apply credited_inv; try done. by eapply inv_same.
    + intros d sel. pose proof (sane_same _ _ _ _ H0 (proj1 Hinv)) as Hm3.
      rewrite (with_credit_footprint uuid m3 (iv_co _ _ _ Hm3) k c (un_credit _ _ Hun3) eq_refl eq_refl (un_owner _ _ Hun3) d sel Hn).
      rewrite (footprint_same d sel m2 m3 (proj1 H0)), Hf, Hnode, Hcost. cbn [cc_node_id cc_resources c]. lia.
  - destruct Hroom as (c & Hk & Ha & Hbo & He & Hnd & _). rewrite Hcr, Hk, Ha. rewrite (bool_decide_eq_true_2 _ Hbo), (bool_decide_eq_true_2 _ He).
    rewrite Hnode, <- Hnd, String.eqb_refl. cbn [andb]. apply wp_modify.
    rewrite <- Hcr in Hk. destruct (co_credit _ _ (iv_co _ _ _ (proj1 Hinv)) _ _ Hk) as (Eid & _ & Hcn). subst k. set (k := cc_credit_id c) in *.
    change (inv p uuid (lent m2 l.(tl_lease_id) k c) /\ forall d sel,
      footprint d sel (lent m2 l.(tl_lease_id) k c) <= footprint d sel m + (if sel (cc_node_id c) then lend_increment m plan c d else 0)).
    assert (Hsame : l.(tl_node_id) = c.(cc_node_id)) by congruence. split.
    + by apply (lent_inv m2 l.(tl_lease_id) k l c).
    + intros d sel. rewrite (lent_footprint uuid m2 (iv_co _ _ _ (proj1 Hinv)) l.(tl_lease_id) k l c Hl Hb Ho Hk Hbo Hsame d sel), Hf, Hsame.
      unfold lend_increment. fold k.
      assert (El : live_output_bytes_for_credit m2 k = live_output_bytes_for_credit m k)
        by (unfold live_output_bytes_for_credit, output_bytes; by rewrite Hout). rewrite El.
      destruct (sel (cc_node_id c)); [|lia]. unfold lease_cost. rewrite Hr, Hwin. specialize (Hcn d).
      destruct d; cbn [lv] in *; lia.
  - apply wp_ret. split; [done|]. intros d sel. by rewrite Hf, Hnode, Hcost.
Qed.

Lemma within_same m m1 m2 : within m m1 -> core_same m1 m2 -> within m m2.
Proof.
  intros H [Hb _] d. destruct (H d) as [H1 H2]. split; [by rewrite (footprint_same d _ m1 m2 Hb)|].
  intros n. rewrite (footprint_same d _ m1 m2 Hb). apply H2.
Qed.

Lemma within_refl m : within m m.
Proof. apply shrinks_within. by intros d sel. Qed.

Lemma spec_of_stage m id st : sane p uuid m -> od_get id m.(m_stages) = Some st ->
  od_get id (specs m) = Some st.(ss_spec) /\ st.(ss_spec).(sp_stage_id) = id /\ od_get id (plan_specs p) = Some st.(ss_spec).
Proof.
  intros Hm Hst. assert (E : od_get id (specs m) = Some st.(ss_spec)) by (by rewrite specs_get, Hst). split; [done|].
  rewrite (iv_specs _ _ _ Hm) in E. split; [|done]. apply od_get_elem in E. unfold plan_specs in E.
  apply list_elem_of_fmap in E as (s & [= -> ->] & _). done.
Qed.

(** Entering the lease of a plan, before its credit. *)
Lemma enter_lease_wp m x l s {A} (k : ST Manager A) Q E :
  inv p uuid m -> unused m x -> drawn uuid m x -> l.(tl_lease_id) = x -> nonneg l.(tl_resources) ->
  od_get l.(tl_stage_id) (specs m) = Some s ->
  match l.(tl_actor_index) with
  | Some i => actor_slot_lease_count m (l.(tl_stage_id), i) < s.(sp_actor_prefetch_depth)
  | None => True
  end ->
  (forall m', inv p uuid m' -> m'.(m_task_leases) = od_set x l m.(m_task_leases) ->
     m'.(m_credit_by_parent) = m.(m_credit_by_parent) -> same_books (with_lease m x l) m' -> wp k Q E m') ->
  wp (let! _ := smodify (fun m => m <| m_task_leases ::= od_set x l |> <| m_active_attempts ::= od_set (l.(tl_task_id), l.(tl_attempt_id)) x |>) in
      let! _ := match option_map (pair l.(tl_stage_id)) l.(tl_actor_index) with
                | Some slot => smodify (book_slot slot x) | None => sret tt end in k) Q E m.
Proof.
  intros Hinv Hun Hd Hid Hn Hsp Hcount Hk. apply wp_bind, wp_modify. pose proof (iv_slots _ _ _ (proj1 Hinv)) as Hs.
  destruct (tl_actor_index l) as [i|] eqn:Ei; cbn [option_map].
  - apply wp_bind, wp_modify. set (m1 := set_field m_active_attempts _ _).
    pose proof (booked_ok m Hs x l (un_lease _ _ Hun) (l.(tl_stage_id), i) s eq_refl Ei Hsp Hcount) as Hb.
    assert (Hbooks : same_books (with_lease m x l) (book_slot (tl_stage_id l, i) x m1)).
    { unfold book_slot. destruct (od_mem _ _); repeat split; done. }
    apply Hk; [|unfold book_slot; by destruct (od_mem _ _)..|done].
    eapply (entered_inv m x l); try done; [unfold book_slot; by destruct (od_mem _ _)| |unfold book_slot; by destruct (od_mem _ _)].
    eapply slots_same; [..|exact Hb]; unfold book_slot; change (m_active_slots m1) with (m_active_slots (with_lease m x l));
      by destruct (od_mem _ _).
  - apply wp_bind, wp_ret. set (m1 := set_field m_active_attempts _ _).
    pose proof (unslotted_ok m Hs x l (un_lease _ _ Hun) Ei) as Hb.
    assert (Hbooks : same_books (with_lease m x l) m1) by (repeat split; done).
    apply Hk; try done. eapply (entered_inv m x l); try done. eapply slots_same; [..|exact Hb]; done.
Qed.

(** What a grant hands out: one lease more, of this query and on the plan's node. *)
Definition handed_out (r : TaskRequest) (plan : TaskAdmissionPlan) (g : TaskGrant) (m m' : Manager) : Prop :=
  g.(tg_granted) = true /\ exists l, g.(tg_lease) = Some l /\ l.(tl_query_id) = p.(p_graph).(g_query_id) /\
    l.(tl_node_id) = plan.(pl_node_id) /\ m'.(m_task_leases) = od_set l.(tl_lease_id) l m.(m_task_leases).

Lemma take_credit_leases plan l ls : preserves (fun m => m.(m_task_leases) = ls) (take_credit uuid plan l).
Proof using.
  unfold take_credit. apply preserves_wp. intros m Hm. apply wp_bind, wp_get. destruct (pl_new_credit plan); [|wp_run; done].
  apply wp_bind. unfold draw, wp at 1. by apply wp_modify.
Qed.

(** The end of a grant only publishes it. *)
Lemma publish_grant_ok (r : TaskRequest) (l : TaskLease) (liveness : bool) (m : Manager) : is_Some (od_get r.(tr_stage_id) m.(m_stages)) ->
  exists m', core_same m m' /\
    (let! _ := smodify (fun m => m <| m_waiting_tasks ::= od_pop (r.(tr_task_id), r.(tr_attempt_id)) |>) in
     let! _ := recompute_input r.(tr_stage_id) in
     let! _ := smodify (fun m => m <| m_started ::= fun started => {[r.(tr_stage_id)]} ∪ started |>) in
     let! _ := if liveness then smodify (fun m => m <| m_liveness_task := Some l.(tl_lease_id) |> <| m_task_liveness_total ::= Z.succ |>)
               else sret tt in
     let! _ := publish in
     sret (grant_lease l liveness)) m = (Ok (grant_lease l liveness), m').
Proof using.
  intros [st Hst]. match goal with |- context [?o m = (Ok _, _)] => set (op := o) end. assert (Hn : neutral op) by (unfold op; solve_neutral). destruct (Hn m) as [Hsame _].
  exists (op m).2. split; [done|]. unfold op, sbind, smodify, recompute_input, on_stage. cbn [m_stages set_field]. rewrite Hst.
  by destruct liveness.
Qed.

(** [_grant_task_locked] on a plan that fits *)
Lemma grant_task_wp r plan liveness m st :
  inv p uuid m -> od_get r.(tr_stage_id) m.(m_stages) = Some st -> plan_ok m st.(ss_spec) plan -> 0 <= plan.(pl_output_window_bytes) ->
  let Q m' := inv p uuid m' /\ within m m' in
  wp (grant_task p uuid r plan liveness) (fun g m' => Q m' /\ handed_out r plan g m m')
    (fun e m' => benign e /\ Q m' /\ m'.(m_task_leases) = m.(m_task_leases)) m.
Proof using Hinj.
  intros Hinv Hst Hplan Hw Q. pose proof (spec_of_stage _ _ _ (proj1 Hinv) Hst) as (Hsp & Hid & _). destruct Hplan as [Hn Hwin Hact Hroom].
  assert (HQ : Q m) by (split; [done|apply within_refl]). unfold grant_task.
  apply wp_bind, wp_raise_if; [|intros _; split; [by_benign|by split]]. intros _.
  apply wp_bind, wp_raise_if; [|intros [H1%bool_decide_eq_true H2%bool_decide_eq_true]%andb_true_iff; exfalso].
  2: { unfold plan_room in Hroom. destruct (pl_new_credit plan), (pl_borrowed_credit_id plan); [done|by destruct H2|by destruct H1|by destruct H1]. }
  intros _. apply wp_bind, wp_get, wp_bind. unfold stage_of, od_item. rewrite Hst. apply wp_ret. apply wp_bind. unfold draw, wp at 1.
  destruct (after_draw uuid m) as [H0 Hd]. set (m0 := m <| m_drawn ::= S |>) in *. set (x := uuid m.(m_drawn)) in *.
  pose proof (undrawn_unused m x (proj1 Hinv) (next_fresh uuid Hinj m)) as Hun.
  assert (Hun0 : unused m0 x) by (by destruct Hun). pose proof (inv_same _ _ _ _ H0 Hinv) as Hinv0.
  rewrite Hid in *.
  apply wp_bind. eapply (wp_mono (fun _ _ => False) _ (fun sn m' => m' = m0 /\ sn.1 = option_map (pair r.(tr_stage_id)) plan.(pl_actor_index))); [| |done].
  { destruct (Stage.is_actor (ss_spec st)).
    - destruct Hact as (i & -> & Hc). rewrite (proj2 (Z.leb_gt _ _) Hc). by apply wp_ret.
    - rewrite Hact. by apply wp_ret. }
  intros [slot name] m1 [-> Hslot]. cbn [fst] in Hslot. subst slot.
  set (l := MkTaskLease x _ _ _ _ _ _ _ _ _ _ _). apply (enter_lease_wp m0 x l st.(ss_spec)); try done.
  { cbn [tl_actor_index tl_stage_id l]. destruct (Stage.is_actor (ss_spec st)); [by destruct Hact as (i & -> & Hc)|by rewrite Hact]. }
  intros m2 Hinv2 Hl2 Hp2 Hb2. apply wp_bind.
  assert (Hf : forall d sel, footprint d sel m2 = footprint d sel m + if sel l.(tl_node_id) then lease_cost d l 0 else 0).
  { intros d sel. rewrite (footprint_same d sel _ m2 Hb2).
    rewrite (with_lease_footprint uuid m0 (iv_co _ _ _ (proj1 Hinv0)) x l (un_lease _ _ Hun0) (un_borrower _ _ Hun0) (un_task _ _ Hun0) d sel).
    by rewrite (footprint_same d sel m m0 (proj1 H0)). }
  destruct Hb2 as (_ & _ & _ & Hcr2 & Hbo2 & Ho2 & _). pose proof (take_credit_leases plan l _ m2 Hl2) as Hl3.
  assert (Htc : wp (take_credit uuid plan l) (fun _ m' => inv p uuid m' /\ forall d sel, footprint d sel m' <= footprint d sel m + growth m plan d sel)
    (fun _ _ => False) m2).
  { apply (take_credit_wp m m2 plan l); try done; cbn [tl_lease_id l].
    - by rewrite Hl2, od_get_set, decide_True.
    - rewrite Hbo2. apply (un_borrower _ _ Hun).
    - rewrite Hp2. apply (un_parent _ _ Hun).
    - rewrite Ho2. apply (un_task _ _ Hun). }
  revert Htc. unfold wp at 1 2. destruct (take_credit uuid plan l m2) as [[[]|e] m3]; [|done]. cbn [snd] in Hl3.
  intros [Hinv3 Hf3]. apply (growth_within _ _ _ _ Hroom) in Hf3.
  assert (Hst3 : is_Some (od_get r.(tr_stage_id) m3.(m_stages))).
  { rewrite (iv_specs _ _ _ (proj1 Hinv)), <- (iv_specs _ _ _ (proj1 Hinv3)), specs_get in Hsp. destruct (od_get _ (m_stages m3)); [by eexists|done]. }
  destruct (publish_grant_ok r l liveness m3 Hst3) as (m4 & H4 & Hop). unfold wp. cbn [tl_lease_id l] in Hop. rewrite Hop. split.
  - split; [by eapply inv_same|by eapply within_same].
  - split; [done|]. exists l. split; [done|]. split; [done|]. split; [done|]. destruct H4 as ((_ & _ & -> & _) & _). done.
Qed.
End Granting.
