(* ===== verification/ResourceHistories.v ===== *)
(** * Histories of the resource manager

    The invariant of the manager over any sequence of its calls, and what
    every call may do to the footprint. *)

From S2P Require Import Prelude PyStr PyVal PyNum AdmissionLedger QueryGraph GraphProofs ResourceState ResourcePlacement ResourceManager ResourceBooks ResourceSteps ResourceInv ResourceCalls ResourceGrants ResourceErrors ResourceLimits.

#[local] Open Scope string_scope.
#[local] Open Scope list_scope.
#[local] Open Scope Z_scope.

(** ** Waiters and the allocation *)

Definition identity (r : TaskRequest) : string * string := (strip r.(tr_task_id), strip r.(tr_attempt_id)).

(** A waiter is filed under its stripped identity. *)
Record waiters_ok (m : Manager) : Prop := {
  wt_wf : od_wf m.(m_waiting_tasks);
  wt_key : forall k v, od_get k m.(m_waiting_tasks) = Some v -> k = identity v.1;
}.

(** The allocation [a] is in force, and the query is cancelled or not, as [b]
    says if it says anything. *)
Record kept (a : QueryAllocation) (b : option bool) (m : Manager) : Prop := {
  kp_allocation : m.(m_allocation) = a;
  kp_cancelled : match b with Some b => m.(m_cancelled) = b | None => True end;
  kp_waiters : waiters_ok m;
}.

Lemma waiters_pop k m : waiters_ok m -> waiters_ok (m <| m_waiting_tasks ::= od_pop k |>).
Proof.
  intros [Hwf Hk]. constructor; cbn; [by apply od_wf_pop|]. intros k' v. rewrite od_get_pop by done. case_decide; [done|]. apply Hk.
Qed.

Lemma waiters_set r n m : waiters_ok m -> waiters_ok (m <| m_waiting_tasks ::= od_set (identity r) (r, n) |>).
Proof.
  intros [Hwf Hk]. constructor; cbn; [by apply od_wf_set|]. intros k' v. rewrite od_get_set. case_decide; [by intros [= <-]|]. apply Hk.
Qed.

Create HintDb kept.

(** A change of other fields. *)
Lemma kept_other a b f :
  (forall m, (f m).(m_allocation) = m.(m_allocation) /\ (f m).(m_cancelled) = m.(m_cancelled) /\ (f m).(m_waiting_tasks) = m.(m_waiting_tasks)) ->
  preserves (kept a b) (smodify f).
Proof.
  intros H. apply preserves_modify. intros m [Ha Hb [H1 H2]]. destruct (H m) as (E1 & E2 & E3).
  constructor; [congruence|by rewrite E2|]. constructor; by rewrite E3.
Qed.

Ltac other_fields := intros ?; unfold book_slot, delete_credit, clear_liveness_task, clear_liveness_output, store_output;
  repeat case_match; (split; [reflexivity|split; reflexivity]).

Section Kept.
Context (p : Plan) (uuid : nat -> string) (a : QueryAllocation) (b : option bool).

Lemma kept_draw : preserves (kept a b) (draw uuid).
Proof. intros m [H1 H2 [H3 H4]]. by constructor. Qed.
Lemma kept_on_stage id f : preserves (kept a b) (on_stage id f).
Proof. intros m [H1 H2 [H3 H4]]. unfold on_stage. destruct (od_get _ _); by constructor. Qed.
Lemma kept_pop k : preserves (kept a b) (smodify (fun m => m <| m_waiting_tasks ::= od_pop k |>)).
Proof. apply preserves_modify. intros m [H1 H2 H3]. constructor; [done|done|by apply waiters_pop]. Qed.
Lemma kept_store os : preserves (kept a b) (smodify (fun m => fold_left (fun m o => store_output o m) os m)).
Proof.
  apply preserves_modify. induction os as [|o os IH]; intros m Hm; cbn; [done|]. apply IH. destruct Hm as [H1 H2 [H3 H4]]. by constructor.
Qed.
#[local] Hint Resolve kept_draw kept_on_stage kept_pop kept_store : kept.

Ltac solve_kept :=
  repeat first
    [ apply preserves_ret | apply preserves_raise | apply preserves_lift | apply preserves_gets | apply preserves_get
    | apply preserves_raise_if
    | solve [auto with kept]
    | apply preserves_bind; [|intros ?]
    | apply preserves_for; intros ? | apply preserves_fold; intros ? ?
    | apply kept_other; other_fields
    | match goal with
      | |- preserves _ (match ?x with _ => _ end) => destruct x
      | |- preserves _ (if ?b then _ else _) => destruct b
      end ].

Lemma kept_recompute_input id : preserves (kept a b) (recompute_input id).
Proof. apply kept_on_stage. Qed.
Lemma kept_recompute_output id : preserves (kept a b) (recompute_output id).
Proof. apply kept_on_stage. Qed.
Lemma kept_publish : preserves (kept a b) publish.
Proof. unfold publish. solve_kept. Qed.
Lemma kept_registered id : preserves (kept a b) (registered id).
Proof. unfold registered. solve_kept. Qed.
#[local] Hint Resolve kept_recompute_input kept_recompute_output kept_publish kept_registered : kept.

Lemma kept_note_task_waiting r : preserves (kept a b) (note_task_waiting p r).
Proof.
  unfold note_task_waiting. solve_kept. apply preserves_modify. intros m [H1 H2 H3]. constructor; [done|done|]. by apply waiters_set.
Qed.

Lemma kept_take_credit plan l : preserves (kept a b) (take_credit uuid plan l).
Proof. unfold take_credit. solve_kept. Qed.
#[local] Hint Resolve kept_take_credit : kept.
Lemma kept_grant r plan lv : preserves (kept a b) (grant_task p uuid r plan lv).
Proof. unfold grant_task. solve_kept. Qed.
Lemma kept_wake r : preserves (kept a b) (wake_stage p r).
Proof. unfold wake_stage. solve_kept. Qed.
Lemma kept_with_epoch g : preserves (kept a b) (with_epoch g).
Proof. unfold with_epoch. solve_kept. Qed.
Lemma kept_grant_output r lv i : preserves (kept a b) (grant_output_block p uuid r lv i).
Proof. unfold grant_output_block. solve_kept. Qed.
Lemma kept_maybe_return t : preserves (kept a b) (maybe_return_credit t).
Proof. unfold maybe_return_credit. solve_kept. Qed.
Lemma kept_free_slot l : preserves (kept a b) (free_slot l).
Proof. unfold free_slot. solve_kept. Qed.
Lemma kept_close_own t : preserves (kept a b) (close_own_credit t).
Proof. unfold close_own_credit. solve_kept. Qed.
#[local] Hint Resolve kept_grant kept_wake kept_with_epoch kept_grant_output kept_maybe_return kept_free_slot kept_close_own : kept.
Lemma kept_retire k l t : preserves (kept a b) (retire_lease k l t).
Proof. unfold retire_lease, on_task_lease_removed. solve_kept. Qed.
Lemma kept_new_output l acc r : preserves (kept a b) (new_fte_output uuid l acc r).
Proof. unfold new_fte_output. solve_kept. Qed.
#[local] Hint Resolve kept_retire kept_new_output kept_note_task_waiting : kept.

Lemma kept_cancel reason : b = None -> preserves (kept a b) (cancel reason).
Proof.
  intros Hb. unfold cancel. solve_kept; apply preserves_modify; intros m [H1 _ [H2 H3]]; (constructor; [done|by rewrite Hb|]).
  - constructor; cbn; [apply NoDup_nil_2|done].
  - by constructor.
Qed.

(** Only a new allocation changes the allocation, only [cancel] cancels. *)
Lemma kept_call c : (forall al o, c <> UpdateAllocation al o) -> (b <> None -> forall r, c <> Cancel r) -> preserves (kept a b) (do_call p uuid c).
Proof.
  intros Hc Hr. destruct c; cbn [do_call]; unfold forget; try (by destruct (Hc _ _ eq_refl));
    try (apply preserves_bind; [apply kept_cancel; destruct b; [by destruct (Hr ltac:(done) _ eq_refl)|done]|intros; apply preserves_ret]);
    solve_kept;
    unfold update_stage_state, remove_task_waiter, mark_task_attempt_terminal, note_output_waiting, remove_output_waiter,
      mark_output_block_terminal, set_external_consumer_waiting, set_stage_actor_ready, close_admission, try_acquire_task,
      try_acquire_task_descriptor, try_acquire_queued_task, try_acquire_next_queued_task, release_task_lease, abandon_task_lease,
      release_lease, finish_task_with_outputs, try_acquire_output_block, try_acquire_next_queued_output_block,
      transition_output_block, release_output_block; solve_kept.
Qed.
End Kept.

(** ** Grants *)

Section Histories.
Context (p : Plan) (uuid : nat -> string).
Context (Hinj : forall a b, uuid a = uuid b -> a = b) (Hne : forall n, uuid n <> "").
Context (Hplan : forall id s, od_get id (plan_specs p) = Some s -> 0 <= s.(sp_actor_prefetch_depth) /\ 0 <= Stage.output_window_bytes s).

Record good (m : Manager) : Prop := {
  gd_inv : inv p uuid m;
  gd_placed : placed m;
  gd_nodes : NoDup (map na_node_id m.(m_allocation).(al_nodes));
  gd_waiters : waiters_ok m;
}.

Definition bounded (m m' : Manager) : Prop := inv p uuid m' /\ within m m'.

Lemma within_after m m1 m' : core_same m m1 -> within m1 m' -> within m m'.
Proof.
  intros [Hb _] H d. specialize (H d). pose proof Hb as (Ha & _). unfold query_limits, allocation_by_node in *. rewrite Ha in H.
  rewrite (footprint_same d _ m m1 Hb) in H. destruct H as [H1 H2]. split; [done|]. intros n. specialize (H2 n).
  by rewrite (footprint_same d _ m m1 Hb) in H2.
Qed.

Lemma bounded_after m m1 m' : core_same m m1 -> bounded m1 m' -> bounded m m'.
Proof. intros H [H1 H2]. split; [done|by eapply within_after]. Qed.

Lemma good_same m m1 : core_same m m1 -> waiters_ok m1 -> good m -> good m1.
Proof.
  intros H Hw [H1 H2 H3 _]. constructor; [by eapply inv_same| | |done]; destruct H as ((Ha & Hs & _) & _); unfold placed; by rewrite Ha, ?Hs.
Qed.

Section At.
Context (m : Manager) (Hm : good m).

Lemma bounded_self : bounded m m.
Proof using Hm. split; [apply Hm|apply within_refl]. Qed.

Lemma bounded_ret {A} (a : A) : wp (sret a) (fun _ => bounded m) (fun e m' => benign e /\ bounded m m') m.
Proof using Hm. apply wp_ret, bounded_self. Qed.

Lemma bounded_lift {A B} (r : result A) (k : A -> ST Manager B) :
  calm r -> (forall a, r = Ok a -> wp (k a) (fun _ => bounded m) (fun e m' => benign e /\ bounded m m') m) ->
  wp (let! a := slift r in k a) (fun _ => bounded m) (fun e m' => benign e /\ bounded m m') m.
Proof using Hm. intros Hr Hk. apply wp_bind, wp_lift; [exact Hk|]. intros e He. split; [by apply Hr|apply bounded_self]. Qed.

Lemma bounded_tail {A B} (op : ST Manager A) (k : A -> ST Manager B) :
  (forall a, neutral (k a)) -> wp op (fun _ => bounded m) (fun e m' => benign e /\ bounded m m') m ->
  wp (let! a := op in k a) (fun _ => bounded m) (fun e m' => benign e /\ bounded m m') m.
Proof.
  intros Hk H. apply wp_bind. eapply wp_mono; [exact H| |done]. intros a m1 [H1 H2]. apply wp_neutral; [apply Hk|].
  intros m2 H3. split; [by eapply inv_same|by eapply within_same].
Qed.

Lemma co_good : coherent uuid m.
Proof using Hm. apply Hm. Qed.

Lemma verdict_calm r h : calm (task_block_reason p m r h).
Proof using Hm Hne. apply (task_block_reason_calm p uuid); [apply co_good|apply Hm|done]. Qed.

Lemma output_verdict_calm r : calm (output_block_reason p m r).
Proof using Hm. apply (output_block_reason_calm p uuid); [apply co_good|apply Hm]. Qed.
#[local] Hint Resolve verdict_calm output_verdict_calm : calm.

(** A grant on a verdict that allows it. *)
Lemma grant_handed_out r h reason fatal plan liveness :
  task_block_reason p m r h = Ok (reason, fatal, plan) -> usable reason ->
  wp (grant_task p uuid r plan liveness) (fun g m' => bounded m m' /\ handed_out p r plan g m m')
    (fun e m' => benign e /\ bounded m m' /\ m'.(m_task_leases) = m.(m_task_leases)) m.
Proof using Hm Hinj Hne Hplan.
  intros Hv Hu. destruct (task_block_reason_ok p uuid Hne m co_good r h _ _ _ Hv Hu) as (st & Hst & Hpl).
  apply (grant_task_wp p uuid Hinj r plan liveness m st); [apply Hm|done|done|].
  rewrite (pk_window _ _ _ Hpl). destruct (spec_of_stage p uuid m _ _ (proj1 (gd_inv _ Hm)) Hst) as (_ & _ & Hs). by apply Hplan in Hs as [_ ?].
Qed.

Lemma grant_bounded r h reason fatal plan liveness :
  task_block_reason p m r h = Ok (reason, fatal, plan) -> usable reason ->
  wp (grant_task p uuid r plan liveness) (fun _ => bounded m) (fun e m' => benign e /\ bounded m m') m.
Proof using Hm Hinj Hne Hplan.
  intros Hv Hu. eapply wp_mono; [by eapply grant_handed_out|by intros ? ? [? _]|by intros ? ? (? & ? & _)].
Qed.

Lemma starved_first_calm ids : calm (starved_first m ids).
Proof. unfold starved_first, starved. solve_calm. Qed.
Lemma first_by_rank_calm l : calm (first_by_rank l).
Proof. unfold first_by_rank. solve_calm. Qed.
#[local] Hint Resolve starved_first_calm first_by_rank_calm : calm.

Lemma has_normal_candidate_calm : calm (has_normal_candidate p m).
Proof using Hm Hne.
  unfold has_normal_candidate. destruct (negb _); apply rexists_calm; [|intros [id s]]; solve_calm.
Qed.
Lemma preferred_liveness_calm : calm (preferred_liveness_stage p m).
Proof using Hm Hne.
  unfold preferred_liveness_stage. apply calm_bind; [solve_calm|]. intros ids _. apply calm_bind; [|solve_calm]. apply calm_fold.
  intros acc id _. apply calm_bind; [|solve_calm]. destruct (negb _); [apply rexists_calm|]; solve_calm.
Qed.
#[local] Hint Resolve has_normal_candidate_calm preferred_liveness_calm : calm.
Lemma task_liveness_calm r : calm (task_liveness_block p m r).
Proof using Hm Hne. unfold task_liveness_block. solve_calm. Qed.
Lemma rank_calm r o : calm (waiting_task_rank p m r o).
Proof. unfold waiting_task_rank, reverse_rank. solve_calm. Qed.
#[local] Hint Resolve task_liveness_calm rank_calm : calm.
Lemma evaluate_tasks_calm h o l : calm (evaluate_tasks p m h o l).
Proof using Hm Hne. revert o. induction l as [|r l IH]; intros o; cbn [evaluate_tasks]; [done|]. unfold evaluate_task. solve_calm. Qed.
Lemma select_evaluation_calm l : calm (select_evaluation p m l).
Proof. unfold select_evaluation. solve_calm. Qed.
Lemma evaluate_waiting_calm h : calm (evaluate_waiting p m h).
Proof using Hm Hne. apply evaluate_tasks_calm. Qed.
#[local] Hint Resolve select_evaluation_calm evaluate_waiting_calm : calm.
Lemma has_normal_output_calm : calm (has_normal_output_candidate p m).
Proof using Hm. unfold has_normal_output_candidate. apply calm_bind; [solve_calm|]. intros. apply rexists_calm. solve_calm. Qed.
Lemma preferred_output_calm r : calm (preferred_output_stage p m r).
Proof using Hm. unfold preferred_output_stage. solve_calm. Qed.
Lemma rank_outputs_calm cs o l : calm (rank_outputs p m cs o l).
Proof using Hm. revert o. induction l as [|[b r] l IH]; intros o; cbn [rank_outputs]; [done|]. solve_calm. Qed.
Lemma first_output_calm l : calm (first_output l).
Proof. unfold first_output. solve_calm. Qed.
#[local] Hint Resolve has_normal_output_calm preferred_output_calm rank_outputs_calm first_output_calm : calm.

Lemma try_acquire_bounded r :
  wp (try_acquire_task p uuid r) (fun _ => bounded m) (fun e m' => benign e /\ bounded m m') m.
Proof using Hm Hinj Hne Hplan.
  unfold try_acquire_task. apply wp_bind, wp_get. apply bounded_lift; [solve_calm|]. intros [[reason fatal] plan] Hv.
  destruct reason as [why|]; [|eapply grant_bounded; [exact Hv|by left]].
  destruct (is_soft soft_task_reasons (Some why)) eqn:Es; [|rewrite orb_true_r; apply bounded_ret].
  destruct fatal; [apply bounded_ret|]. apply bounded_lift; [solve_calm|]. intros [w|] _; [apply bounded_ret|].
  eapply grant_bounded; [exact Hv|by right].
Qed.

(** Every evaluation carries the verdict on its request. *)
Lemma evaluations_verdict h o l es e : evaluate_tasks p m h o l = Ok es -> e ∈ es ->
  task_block_reason p m e.(qe_request) h = Ok (e.(qe_reason), e.(qe_fatal), e.(qe_plan)).
Proof.
  revert o es. induction l as [|r l IH]; intros o es H He; cbn [evaluate_tasks] in H; [injection H as <-; by apply not_elem_of_nil in He|].
  apply rbind_ok in H as (e0 & H0 & H). apply rbind_ok in H as (es' & H1 & [= <-]). apply elem_of_cons in He as [->|He]; [|by eapply IH].
  unfold evaluate_task in H0. apply rbind_ok in H0 as ([[reason fatal] plan] & Hv & H0). by apply rbind_ok in H0 as (rk & _ & [= <-]).
Qed.

Lemma evaluations_requests h o l es : evaluate_tasks p m h o l = Ok es -> map qe_request es = l.
Proof.
  revert o es. induction l as [|r l IH]; intros o es H; cbn [evaluate_tasks] in H; [by injection H as <-|].
  apply rbind_ok in H as (e0 & H0 & H). apply rbind_ok in H as (es' & H1 & [= <-]). cbn [map]. f_equal; [|by eapply IH].
  unfold evaluate_task in H0. apply rbind_ok in H0 as ([[reason fatal] plan] & Hv & H0). by apply rbind_ok in H0 as (rk & _ & [= <-]).
Qed.

Lemma first_by_rank_elem l e : first_by_rank l = Ok (Some e) -> e ∈ l.
Proof. apply py_min_elem. Qed.

(** The selected evaluation is one of the list, and allows a grant. *)
Lemma select_evaluation_elem l e : select_evaluation p m l = Ok (Some e) -> e ∈ l /\ usable e.(qe_reason).
Proof.
  assert (Hsub : forall f (e : QueuedTaskEvaluation), e ∈ List.filter f l -> e ∈ l /\ f e = true).
  { intros f e' He. apply list_elem_of_In, filter_In in He as [He ?]. by rewrite list_elem_of_In. }
  unfold select_evaluation. destruct (negb _).
  - intros H%first_by_rank_elem%Hsub. destruct H as [H1 H2]. split; [done|]. left. unfold admissible in H2.
    apply andb_true_iff in H2 as [_ H2]. by apply bool_decide_eq_true in H2.
  - destruct (bool_decide _); [done|]. intros (pr & _ & H)%rbind_ok. destruct pr as [id|]; [|done]. apply first_by_rank_elem in H.
    apply list_elem_of_In, filter_In in H as [H _]. apply list_elem_of_In, Hsub in H as [H1 H2]. split; [done|]. right.
    unfold softly_blocked in H2. by apply andb_true_iff in H2 as [_ ?].
Qed.

Lemma with_epoch_bounded g : wp (with_epoch g) (fun _ => bounded m) (fun e m' => benign e /\ bounded m m') m.
Proof using Hm. unfold with_epoch. apply wp_gets, bounded_self. Qed.

Lemma waiting_unique es e1 e2 :
  evaluate_waiting p m false = Ok es -> e1 ∈ es -> e2 ∈ es -> identity e1.(qe_request) = identity e2.(qe_request) -> e1 = e2.
Proof using Hm.
  intros H H1 H2 E. apply evaluations_requests in H. pose proof (gd_waiters _ Hm) as [Hwf Hk].
  assert (Hnd : NoDup (map (fun e => identity e.(qe_request)) es)).
  { rewrite <- (map_map qe_request identity), H. unfold waiting_requests, od_values. rewrite !map_map.
    replace (map _ m.(m_waiting_tasks)) with (od_keys m.(m_waiting_tasks)); [done|]. apply map_ext_in. intros [k v] Hin.
    apply list_elem_of_In, od_elem_get in Hin; [|done]. by apply Hk. }
  clear -Hnd H1 H2 E. induction es as [|e es IH]; [by apply not_elem_of_nil in H1|]. cbn in Hnd. apply NoDup_cons in Hnd as [Hn Hnd].
  apply elem_of_cons in H1 as [->|H1], H2 as [H2|H2]; subst.
  1: done.
  - destruct Hn. rewrite E. apply list_elem_of_fmap. by exists e2.
  - destruct Hn. rewrite <- E. apply list_elem_of_fmap. by exists e1.
  - by apply IH.
Qed.

Lemma try_queued_bounded r :
  wp (try_acquire_queued_task p uuid r) (fun _ => bounded m) (fun e m' => benign e /\ bounded m m') m.
Proof using Hm Hinj Hne Hplan.
  unfold try_acquire_queued_task. apply wp_bind, wp_get. set (key := (tr_task_id r, tr_attempt_id r)).
  destruct (od_get key m.(m_waiting_tasks)) as [[w n]|] eqn:Ew; [|apply bounded_ret].
  case_bool_decide as Er; [subst w; cbn [negb]|apply bounded_ret].
  pose proof (wt_key _ (gd_waiters _ Hm) _ _ Ew) as Hkey. cbn [fst] in Hkey.
  apply bounded_lift; [solve_calm|]. intros es Hes. pose proof (evaluations_requests _ _ _ _ Hes) as Hreq.
  destruct (find _ es) as [cur|] eqn:Ef; [|].
  2: { exfalso. assert (Hin : r ∈ waiting_requests m).
       { apply od_get_elem in Ew. unfold waiting_requests, od_values. rewrite map_map. apply list_elem_of_fmap. by exists (key, (r, n)). }
       rewrite <- Hreq in Hin. apply list_elem_of_fmap in Hin as (e & He & Hin). apply list_elem_of_In in Hin.
       pose proof (find_none _ _ Ef e Hin) as Hf. cbv beta in Hf. apply bool_decide_eq_false in Hf. apply Hf. unfold qe_key. by rewrite <- He. }
  apply find_some in Ef as [Hcur Hck%bool_decide_eq_true]. apply list_elem_of_In in Hcur.
  assert (Hcr : cur.(qe_request) = r).
  { assert (Hin : cur.(qe_request) ∈ waiting_requests m) by (rewrite <- Hreq; apply list_elem_of_fmap; by exists cur).
    unfold waiting_requests, od_values in Hin. rewrite map_map in Hin. apply list_elem_of_fmap in Hin as ([k v] & Hv & Hin).
    apply od_elem_get in Hin; [|apply (gd_waiters _ Hm)]. pose proof (wt_key _ (gd_waiters _ Hm) _ _ Hin) as Hk. cbn in Hv.
    assert (k = key) as ->; [|rewrite Ew in Hin; injection Hin as <-; done].
    rewrite Hk, <- Hv, Hkey. unfold qe_key in Hck. unfold identity. by injection Hck as -> ->. }
  pose proof (evaluations_verdict _ _ _ _ _ Hes Hcur) as Hv. rewrite Hcr in Hv.
  destruct (qe_fatal cur); [apply bounded_ret|]. apply bounded_lift; [solve_calm|]. intros [e|] Hsel; [|apply bounded_ret].
  case_bool_decide as Ek; [cbn [negb]|apply bounded_ret]. apply select_evaluation_elem in Hsel as [He Hu].
  assert (e = cur) as ->.
  { apply (waiting_unique es); try done. unfold qe_key in *. unfold identity. rewrite <- Hck in Ek. by injection Ek as -> ->. }
  destruct (qe_reason cur) as [why|] eqn:Ew'.
  - destruct (queued_liveness_block m es); [apply bounded_ret|]. by eapply grant_bounded.
  - by eapply grant_bounded.
Qed.

Lemma try_next_queued_bounded cs :
  wp (try_acquire_next_queued_task p uuid cs) (fun _ => bounded m) (fun e m' => benign e /\ bounded m m') m.
Proof using Hm Hinj Hne Hplan.
  unfold try_acquire_next_queued_task. apply wp_bind, wp_get. apply bounded_lift; [solve_calm|]. intros es Hes.
  apply bounded_lift; [solve_calm|]. intros [f|] _; [apply bounded_ret|]. apply bounded_lift; [solve_calm|]. intros [e|] Hsel; [|apply bounded_ret].
  apply select_evaluation_elem in Hsel as [He Hu]. pose proof (evaluations_verdict _ _ _ _ _ Hes He) as Hv.
  destruct (negb _); [apply bounded_ret|]. destruct (bool_decide _).
  - apply bounded_tail; [intros; solve_neutral|]. by eapply grant_bounded.
  - destruct (bool_decide _); [apply bounded_ret|]. destruct (liveness_not_needed m); [apply bounded_ret|].
    apply bounded_tail; [intros; solve_neutral|]. by eapply grant_bounded.
Qed.

(** *** Output blocks *)

Lemma node_found n nd : find (fun x => String.eqb x.(na_node_id) n) m.(m_allocation).(al_nodes) = Some nd ->
  od_get n (allocation_by_node m) = Some nd.(na_resources).
Proof using Hm.
  pose proof (gd_nodes _ Hm) as Hnd. unfold allocation_by_node. intros Hf. apply find_some in Hf as [Hin <-%String.eqb_eq].
  assert (H : forall l acc, NoDup (map na_node_id l) -> In nd l \/ (od_get nd.(na_node_id) acc = Some nd.(na_resources) /\ nd.(na_node_id) ∉ map na_node_id l) ->
    od_get nd.(na_node_id) (fold_left (fun d x => od_set x.(na_node_id) x.(na_resources) d) l acc) = Some nd.(na_resources)).
  { clear. induction l as [|x l IH]; intros acc Hnd H; cbn [fold_left]; [by destruct H as [[]|[? _]]|]. cbn [map] in Hnd, H.
    apply NoDup_cons in Hnd as [Hx Hnd]. apply IH; [done|]. rewrite od_get_set. destruct H as [[->|H]|[H1 H2]].
    - right. by rewrite decide_True.
    - by left.
    - rewrite not_elem_of_cons in H2. destruct H2 as [H2 H3]. right. by rewrite decide_False by congruence. }
  apply H; [done|by left].
Qed.

Definition output_usable (reason : option string) : Prop := reason = None \/ is_soft soft_output_reasons reason = true.

Lemma output_block_reason_ok r reason fatal delta :
  output_block_reason p m r = Ok (reason, fatal, delta) -> output_usable reason ->
  exists l, od_get r.(or_task_lease_id) m.(m_task_leases) = Some l /\ 0 < r.(or_size_bytes) /\
    let delta := output_delta m l r.(or_size_bytes) in
    delta <= 0 \/ (fits_query m (fun d => lv d delta) /\ room m l.(tl_node_id) (fun d => lv d delta)).
Proof using Hm Hne.
  intros H Hu. unfold output_block_reason in H.
  destruct (m_cancelled m); [injection H as <- _ _; by destruct Hu|]. destruct (negb _); [injection H as <- _ _; by destruct Hu|].
  destruct (od_get (or_producer_stage_id r) m.(m_stages)) as [st|]; [|injection H as <- _ _; by destruct Hu].
  do 2 (match type of H with (if ?b then _ else _) = _ => destruct b end; [injection H as <- _ _; by destruct Hu|]).
  destruct (od_get (or_task_lease_id r) m.(m_task_leases)) as [l|]; [|injection H as <- _ _; by destruct Hu].
  do 3 (match type of H with (if ?b then _ else _) = _ => destruct b end; [injection H as <- _ _; by destruct Hu|]).
  destruct (or_size_bytes r <=? 0) eqn:Ez; [injection H as <- _ _; by destruct Hu|]. destruct (_ <? _); [injection H as <- _ _; by destruct Hu|].
  exists l. split; [done|]. split; [lia|]. cbv zeta. destruct (0 <? output_delta m l (or_size_bytes r)) eqn:Ed; [|left; lia]. right.
  set (delta' := output_delta m l (or_size_bytes r)) in *. unfold fit_output in H. apply rbind_ok in H as (extra & He & H).
  apply rbind_ok in H as (usage & Hq & H). apply rbind_ok in H as (after & Ha & H).
  destruct (Res.fits_within after (query_limits m)) eqn:Ef; cbn [negb] in H; [|injection H as <- _ _; by destruct Hu].
  destruct (find _ _) as [nd|] eqn:En; [|injection H as <- _ _; by destruct Hu]. apply rbind_ok in H as (nu & Hn & H).
  apply rbind_ok in H as (na & Hna & H).
  destruct (Res.fits_within na (na_resources nd)) eqn:Efn; cbn [negb] in H; [|injection H as <- _ _; by destruct Hu]. split.
  - intros d. apply (fits_vb d) in Ef. rewrite (add_vb d _ _ _ Ha), (object_store_vb d _ _ He) in Ef.
    rewrite (query_usage_vb uuid Hne m co_good d usage Hq) in Ef. exact Ef.
  - exists nd.(na_resources). split; [by apply node_found|]. intros d. apply (fits_vb d) in Efn.
    rewrite (add_vb d _ _ _ Hna), (object_store_vb d _ _ He) in Efn. rewrite (node_usage_vb uuid Hne m co_good d _ nu Hn) in Efn. exact Efn.
Qed.

Lemma grant_output_bounded r reason fatal delta liveness initial :
  output_block_reason p m r = Ok (reason, fatal, delta) -> output_usable reason ->
  wp (grant_output_block p uuid r liveness initial) (fun _ => bounded m) (fun e m' => benign e /\ bounded m m') m.
Proof using Hm Hinj Hne.
  intros Hv Hu. destruct (output_block_reason_ok _ _ _ _ Hv Hu) as (l & Hl & Hz & Hroom).
  assert (Hgrow : forall m', inv p uuid m' /\ grows l.(tl_node_id) (output_delta m l r.(or_size_bytes)) m m' -> bounded m m').
  { intros m' [H1 H2]. split; [done|]. intros d. cbv zeta in Hroom. destruct Hroom as [Hle|[Hq (cap & Hcap & Hfit)]].
    - split; [left|intros n; left]; pose proof (lv_mono d _ _ Hle) as Hlv; rewrite lv_zero in Hlv;
        [specialize (H2 d on_query)|specialize (H2 d (on_node n))]; repeat case_match; lia.
    - split; [right; specialize (H2 d on_query); specialize (Hq d); cbn in *; lia|]. intros n. specialize (H2 d (on_node n)).
      unfold on_node at 3 in H2. cbn [in_scope] in H2. destruct (String.eqb_spec (tl_node_id l) n) as [E|]; [|left; lia].
      rewrite E in *. right. exists cap. split; [done|]. specialize (Hfit d). cbv beta in Hfit. lia. }
  eapply wp_mono; [apply (grant_output_wp p uuid Hinj r liveness initial m l); [apply Hm|done|done]| |].
  - intros ? m' H. by apply Hgrow.
  - intros e m' [He H]. split; [done|by apply Hgrow].
Qed.

Lemma try_output_bounded r :
  wp (try_acquire_output_block p uuid r) (fun _ => bounded m) (fun e m' => benign e /\ bounded m m') m.
Proof using Hm Hinj Hne.
  unfold try_acquire_output_block. apply wp_bind, wp_get. apply bounded_lift; [solve_calm|]. intros [[reason fatal] delta] Hv.
  destruct reason as [why|]; [|eapply grant_output_bounded; [exact Hv|by left]].
  destruct (is_soft soft_output_reasons (Some why)) eqn:Es; [|rewrite orb_true_r; apply bounded_ret].
  destruct fatal; [apply bounded_ret|]. cbn [negb orb]. destruct (bool_decide _); [apply bounded_ret|].
  apply bounded_lift; [solve_calm|]. intros normal _. destruct normal; [apply bounded_ret|]. destruct (negb _); [apply bounded_ret|].
  apply bounded_lift; [solve_calm|]. intros preferred _. destruct (negb _); [apply bounded_ret|].
  apply bounded_lift.
  { destruct (0 <? delta); [|done]. apply calm_bind; [apply (query_usage_calm uuid); [apply co_good|apply Hm]|solve_calm]. }
  intros fits _. destruct fits; [|apply bounded_ret]. eapply grant_output_bounded; [exact Hv|by right].
Qed.

Lemma rank_outputs_verdict cs order l os o : rank_outputs p m cs order l = Ok os -> o ∈ os ->
  exists delta, output_block_reason p m o.(ro_request) = Ok (o.(ro_reason), o.(ro_fatal), delta).
Proof.
  revert order os. induction l as [|[b r] l IH]; intros order os H Ho; cbn [rank_outputs] in H; [injection H as <-; by apply not_elem_of_nil in Ho|].
  destruct (negb _); [by eapply IH|]. apply rbind_ok in H as ([[reason fatal] delta] & Hv & H). apply rbind_ok in H as (rest & Hr & [= <-]).
  apply elem_of_cons in Ho as [->|Ho]; [by exists delta|by eapply IH].
Qed.

Lemma try_next_output_bounded cs :
  wp (try_acquire_next_queued_output_block p uuid cs) (fun _ => bounded m) (fun e m' => benign e /\ bounded m m') m.
Proof using Hm Hinj Hne.
  unfold try_acquire_next_queued_output_block. apply wp_bind, wp_get. apply bounded_lift; [solve_calm|]. intros os Hos.
  assert (Hsub : forall f o, first_output (List.filter f os) = Ok (Some o) -> f o = true /\
    exists delta, output_block_reason p m o.(ro_request) = Ok (o.(ro_reason), o.(ro_fatal), delta)).
  { intros f o H. apply py_min_elem, list_elem_of_In, filter_In in H as [H1 H2]. split; [done|]. eapply rank_outputs_verdict; [exact Hos|by apply list_elem_of_In]. }
  apply bounded_lift; [solve_calm|]. intros [o|] _; [apply bounded_ret|]. apply bounded_lift; [solve_calm|]. intros [o|] Ho.
  - apply Hsub in Ho as [[_ Hn%bool_decide_eq_true]%andb_true_iff (delta & Hv)]. apply bounded_tail; [intros; solve_neutral|].
    eapply grant_output_bounded; [exact Hv|by left].
  - apply bounded_lift; [solve_calm|]. intros [o|] Hs; [|apply bounded_ret]. apply Hsub in Hs as [[_ Hn]%andb_true_iff (delta & Hv)].
    destruct (bool_decide _); [apply bounded_ret|]. destruct (negb _); [apply bounded_ret|]. apply bounded_tail; [intros; solve_neutral|].
    eapply grant_output_bounded; [exact Hv|by right].
Qed.
End At.

Lemma try_descriptor_bounded r m : good m ->
  wp (try_acquire_task_descriptor p uuid r) (fun _ => bounded m) (fun e m' => benign e /\ bounded m m') m.
Proof using Hinj Hne Hplan.
  intros Hm. unfold try_acquire_task_descriptor. apply wp_bind.
  destruct (neutral_wake_stage p r m) as [Hsame Hcalm]. destruct (kept_wake p m.(m_allocation) None r m) as [_ _ Hw]; [by constructor; [| |apply Hm]|].
  unfold wp at 1. destruct (wake_stage p r m) as [[u|e] m1]; cbn [fst snd] in *.
  2: { split; [by apply Hcalm|]. eapply bounded_after; [exact Hsame|]. apply bounded_self. by eapply good_same. }
  pose proof (good_same _ _ Hsame Hw Hm) as Hm1. eapply (wp_mono (fun e m' => benign e /\ bounded m1 m') _ (fun _ => bounded m1)); [|intros ? ? H; by eapply bounded_after|].
  2: { intros ? ? [? H]. split; [done|by eapply bounded_after]. }
  clear Hsame Hcalm Hw Hm m u. apply wp_bind, wp_get. destruct (od_mem _ _); [by apply with_epoch_bounded|].
  apply (bounded_lift m1 Hm1); [by apply verdict_calm|]. intros [[reason fatal] plan] Hv. destruct fatal; [by apply with_epoch_bounded|].
  apply (bounded_lift m1 Hm1); [by apply rank_calm|]. intros rank _. apply (bounded_lift m1 Hm1); [by apply evaluate_waiting_calm|]. intros es _.
  apply (bounded_lift m1 Hm1); [by apply select_evaluation_calm|]. intros [e|] _; [|by apply with_epoch_bounded].
  destruct (negb _); [by apply with_epoch_bounded|]. destruct reason as [why|].
  - destruct (is_soft _ _) eqn:Es; [cbn [negb]|by apply with_epoch_bounded].
    destruct (queued_liveness_block _ _); [by apply with_epoch_bounded|].
    apply bounded_tail; [intros; solve_neutral; auto with neutral|]. eapply grant_bounded; [done|exact Hv|by right].
  - apply bounded_tail; [intros; solve_neutral; auto with neutral|]. eapply grant_bounded; [done|exact Hv|by left].
Qed.

(** ** Every call *)

(** An allocation as [QueryAllocation.__post_init__] accepts it. *)
Definition constructed (a : QueryAllocation) : Prop :=
  Allocation.new a.(al_resources) a.(al_nodes) a.(al_placements) a.(al_generation) = Ok a.

Definition sound_call (c : call) : Prop := match c with UpdateAllocation a _ => constructed a | _ => True end.

(** A call whose grants are checked against the limits that are in force. *)
Definition limited_call (m : Manager) (c : call) : Prop :=
  match c with UpdateAllocation _ _ => False | FinishTaskWithOutputs x _ _ => unspent m x | _ => True end.

Lemma constructed_nodes a : constructed a -> NoDup (map na_node_id a.(al_nodes)).
Proof.
  unfold constructed, Allocation.new. intros H. inv_ok. by apply no_duplicates.
Qed.

Lemma validated_placed a full : Graph.validate_allocation p.(p_graph) a full = Ok tt ->
  forall pl, pl ∈ a.(al_placements) -> is_Some (od_get pl.(ap_stage_id) (plan_specs p)).
Proof using.
  unfold Graph.validate_allocation. intros H pl Hpl. apply rbind_ok in H as (u & _ & H). apply rbind_ok in H as (u' & Hu & _).
  apply raise_if_ok, negb_false_iff, bool_decide_eq_true in Hu.
  assert (Hin : ap_stage_id pl ∈ map sp_stage_id (List.filter Stage.is_actor (g_stages (p_graph p)))).
  { apply (elem_of_list_to_set (C := gset string)). destruct (decide (ap_stage_id pl ∈ (list_to_set (map sp_stage_id (List.filter Stage.is_actor (g_stages (p_graph p)))) : gset string))); [done|].
    exfalso. apply (not_elem_of_empty (C := gset string) (ap_stage_id pl)). rewrite <- Hu. apply elem_of_difference. split; [|done].
    apply elem_of_list_to_set, list_elem_of_fmap. by exists pl. }
  apply list_elem_of_fmap in Hin as (s & Hs & Hin). apply list_elem_of_In, filter_In in Hin as [Hin _].
  destruct (od_get (ap_stage_id pl) (plan_specs p)) eqn:E; [eauto|]. exfalso. apply od_get_None in E. apply E.
  unfold plan_specs, od_keys. rewrite map_map. apply list_elem_of_fmap. exists s. split; [done|]. by apply list_elem_of_In.
Qed.

Lemma validate_allocation_calm a full : calm (Graph.validate_allocation p.(p_graph) a full).
Proof.
  unfold Graph.validate_allocation, Graph.validate_stage_allocation, Graph.validate_actors, Graph.actor_commitment, Graph.check_node_commitment,
    Graph.stage_by_id, Allocation.resources_for_node, Res.scale, Res.scale_bytes, Stage.task_commitment, f64_mul_int. solve_calm.
Qed.

(** What is known after a call that does not change the allocation. *)
Lemma quiet_bounded {A} (op : ST Manager A) m : quiet p uuid op -> good m ->
  bounded m (op m).2 /\ calm (op m).1.
Proof. intros H Hm. destruct (H m (gd_inv _ Hm)) as (H1 & H2 & H3). split; [|done]. split; [done|by apply shrinks_within]. Qed.

Lemma wp_bounded {A} (op : ST Manager A) m :
  wp op (fun _ => bounded m) (fun e m' => benign e /\ bounded m m') m -> bounded m (op m).2 /\ calm (op m).1.
Proof. unfold wp. destruct (op m) as [[a|e] m']; cbn; [done|]. intros [He H]. split; [done|]. by intros e' [= <-]. Qed.

Lemma forget_bounded {A} (op : ST Manager A) m :
  bounded m (op m).2 /\ calm (op m).1 -> bounded m (forget op m).2 /\ calm (forget op m).1.
Proof.
  unfold forget, sbind. destruct (op m) as [[a|e] m']; cbn; [by intros [? _]|]. intros [H Hc]. split; [done|]. intros e' [= <-]. by apply Hc.
Qed.

Lemma limited_bounded c m : good m -> limited_call m c -> bounded m (do_call p uuid c m).2 /\ calm (do_call p uuid c m).1.
Proof using Hinj Hne Hplan.
  intros Hm Hc. assert (Hdepth : forall id s, od_get id (plan_specs p) = Some s -> 0 <= s.(sp_actor_prefetch_depth)) by (intros; by eapply Hplan).
  destruct c; cbn [do_call limited_call] in *; try done;
    try (apply quiet_bounded; [|done]; apply neutral_quiet; try apply neutral_forget; auto with neutral; fail);
    apply forget_bounded;
    first [ apply wp_bounded; first [by apply try_acquire_bounded | by apply try_descriptor_bounded | by apply try_queued_bounded
              | by apply try_next_queued_bounded | by apply try_output_bounded | by apply try_next_output_bounded]
          | apply quiet_bounded; [|done]; first [apply quiet_release | apply quiet_transition | apply quiet_release_output | by apply quiet_cancel]
          | idtac ].
  apply wp_bounded. eapply wp_mono; [apply (finish_outputs_wp p uuid Hinj); apply Hm| |].
  - intros ? m' [H1 H2]. split; [done|]. by apply shrinks_within, H2.
  - intros e m' [He ->]. split; [done|by apply bounded_self].
Qed.

Lemma call_inv c m : good m -> (forall a o, c <> UpdateAllocation a o) ->
  inv p uuid (do_call p uuid c m).2 /\ calm (do_call p uuid c m).1.
Proof using Hinj Hne Hplan.
  intros Hm Hc.
  assert (Hlim : limited_call m c -> inv p uuid (do_call p uuid c m).2 /\ calm (do_call p uuid c m).1).
  { intros H. destruct (limited_bounded c m Hm H) as [[? _] ?]. done. }
  destruct c; try (by apply Hlim); [by destruct (Hc _ _ eq_refl)|]. cbn [do_call].
  pose proof (finish_outputs_wp p uuid Hinj lease_id attempt_id outputs m (gd_inv _ Hm)) as H. unfold wp in H. unfold forget, sbind.
  destruct (finish_task_with_outputs uuid lease_id attempt_id outputs m) as [[a|e] m']; cbn; [by destruct H|]. destruct H as [He ->].
  split; [apply Hm|]. by intros e' [= <-].
Qed.

Lemma call_good c m : good m -> sound_call c -> good (do_call p uuid c m).2 /\ calm (do_call p uuid c m).1.
Proof using Hinj Hne Hplan.
  intros Hm Hc.
  assert (Hother : (forall a o, c <> UpdateAllocation a o) -> good (do_call p uuid c m).2 /\ calm (do_call p uuid c m).1).
  { intros Hno. destruct (call_inv c m Hm Hno) as [H1 H2]. split; [|done].
    destruct (kept_call p uuid m.(m_allocation) None c Hno ltac:(done) m) as [Ha _ Hw]; [by constructor; [| |apply Hm]|].
    pose proof (iv_specs _ _ _ (proj1 H1)) as Hs. constructor; [done| | |done]; [|rewrite Ha; apply Hm]. unfold placed. rewrite Ha, Hs.
    rewrite <- (iv_specs _ _ _ (proj1 (gd_inv _ Hm))). apply Hm. }
  destruct c; try (apply Hother; done). cbn [sound_call] in Hc. cbn [do_call].
  pose proof (sane_update_allocation p uuid a admission_open m (gd_inv _ Hm)) as H1.
  unfold update_allocation, sbind, sget in *. cbn in *. destruct (al_generation a <=? _); [cbn; split; [done|by apply calm_raise]|]. cbn in *.
  pose proof (validate_allocation_calm a false) as Hcalm.
  destruct (Graph.validate_allocation (p_graph p) a false) as [u|e] eqn:Ev; cbn in *; [|split; [done|]; intros e' [= <-]; by apply Hcalm].
  split; [|done]. destruct u. constructor; [done| |by apply constructed_nodes|].
  - intros pl Hpl. pose proof (validated_placed _ _ Ev pl Hpl) as H. rewrite <- (iv_specs _ _ _ (proj1 H1)) in H. exact H.
  - destruct (gd_waiters _ Hm). by constructor.
Qed.

(** Any history from a good manager. *)
Lemma run_good cs m : good m -> Forall sound_call cs -> good (run p uuid cs m).
Proof using Hinj Hne Hplan.
  revert m. induction cs as [|c cs IH]; intros m Hm Hcs; [done|]. apply Forall_cons in Hcs as [Hc Hcs]. cbn. apply IH; [|done]. by apply call_good.
Qed.
End Histories.

(** ** The new manager *)

Lemma stage_bounds q s : Stage.validate q s = Ok tt -> 0 <= s.(sp_actor_prefetch_depth) /\ 0 <= Stage.output_window_bytes s.
Proof.
  unfold Stage.validate. intros H. do 6 apply bind_check in H as [_ H]. apply bind_check in H as [H1 H]. apply bind_check in H as [H2 H].
  do 6 apply bind_check in H as [_ H]. apply rbind_ok in H as ([] & H & _). unfold Stage.validate_actor_fields in H. split.
  - destruct (Stage.is_actor s).
    + do 2 apply bind_check in H as [_ H]. apply bind_check in H as [H _]. lia.
    + apply bind_check in H as [_ H]. apply bind_check in H as [H _]. apply negb_false_iff, Z.eqb_eq in H. lia.
  - unfold Stage.output_window_bytes. lia.
Qed.

Lemma plan_graph g ratio p : NewManager.plan g ratio = Ok p -> p.(p_graph) = g.
Proof. unfold NewManager.plan. intros H. inv_ok. done. Qed.

Lemma new_parts g a ratio p m : NewManager.new g a ratio = Ok (p, m) ->
  p.(p_graph) = g /\ Graph.validate_allocation g a true = Ok tt /\ m.(m_allocation) = a /\
  m.(m_stages) = fold_left (fun d s => od_set s.(sp_stage_id) (NewManager.stage_state s) d) g.(g_stages) [] /\
  m.(m_task_leases) = [] /\ m.(m_credits) = [] /\ m.(m_credit_by_parent) = [] /\ m.(m_credit_by_borrower) = [] /\
  m.(m_output_leases) = [] /\ m.(m_active_slots) = [] /\ m.(m_queued_slots) = [] /\ m.(m_waiting_tasks) = [] /\
  m.(m_active_attempts) = [] /\ m.(m_waiting_outputs) = [] /\ m.(m_cancelled) = false.
Proof.
  unfold NewManager.new. intros H. apply rbind_ok in H as (u & _ & H). apply rbind_ok in H as ([] & Hv & H).
  apply rbind_ok in H as (pl & Hpl & H). apply plan_graph in Hpl. apply rbind_ok in H as (at' & _ & H). apply rbind_ok in H as (bl & _ & [= <- <-]).
  split; [done|]. split; [done|]. repeat split.
Qed.

Lemma plan_bounds p q : p.(p_graph).(g_query_id) = q -> (forall s, s ∈ p.(p_graph).(g_stages) -> Stage.validate q s = Ok tt) ->
  forall id s, od_get id (plan_specs p) = Some s -> 0 <= s.(sp_actor_prefetch_depth) /\ 0 <= Stage.output_window_bytes s.
Proof.
  intros Hq Hv id s Hs. apply od_get_elem in Hs. unfold plan_specs in Hs. apply list_elem_of_fmap in Hs as (s' & [= -> ->] & Hin).
  by eapply stage_bounds, Hv.
Qed.

Lemma new_specs stages acc :
  NoDup (map sp_stage_id stages) -> (forall s, s ∈ stages -> od_get s.(sp_stage_id) acc = None) ->
  map (fun e : string * StageState => (e.1, e.2.(ss_spec)))
    (fold_left (fun d s => od_set s.(sp_stage_id) (NewManager.stage_state s) d) stages acc) =
  map (fun e => (e.1, e.2.(ss_spec))) acc ++ map (fun s => (s.(sp_stage_id), s)) stages.
Proof.
  revert acc. induction stages as [|s stages IH]; intros acc Hnd Hfr; cbn [fold_left map]; [by rewrite app_nil_r|].
  cbn [map] in Hnd. apply NoDup_cons in Hnd as [Hs Hnd]. rewrite IH; [|done|].
  - rewrite od_set_absent by (apply Hfr; left). rewrite map_app, <- app_assoc. done.
  - intros s' Hs'. rewrite od_get_set, decide_False; [apply Hfr; by right|]. intros E. apply Hs, list_elem_of_fmap. by exists s'.
Qed.

Lemma new_good uuid g a ratio p m :
  NewManager.new g a ratio = Ok (p, m) -> Graph.validate g = Ok tt -> constructed a -> good p uuid m.
Proof.
  intros H Hg Ha. apply validate_iff in Hg. destruct (new_parts _ _ _ _ _ H) as (Ep & Hv & Hal & Hst & H1 & H2 & H3 & H4 & H5 & H6 & H7 & H8 & _).
  assert (Hs : specs m = plan_specs p).
  { unfold specs, plan_specs. rewrite Hst, Ep. rewrite new_specs; [done|apply (go_ok _ Hg)|done]. }
  constructor.
  - apply empty_inv; try done. intros id s Hid. eapply (plan_bounds p); [reflexivity| |exact Hid]. rewrite Ep. apply Hg.
  - unfold placed. rewrite Hal, Hs. rewrite <- Ep in Hv. exact (validated_placed p a true Hv).
  - rewrite Hal. by apply constructed_nodes.
  - constructor; rewrite H8; [apply NoDup_nil_2|done].
Qed.
