(* ===== verification/ResourceStart.v ===== *)
(** * The footprint of a new resource manager

    What the placed actors of a new manager hold fits the allocation it was
    created with, node by node and in total; and limits that hold are kept by
    every history of calls that are checked against them. *)

From S2P Require Import Prelude PyStr PyVal PyNum AdmissionLedger QueryGraph GraphProofs GraphTheorems ResourceState ResourcePlacement ResourceManager ResourceBooks ResourceSteps ResourceInv ResourceCalls ResourceGrants ResourceErrors ResourceLimits ResourceHistories.

#[local] Open Scope string_scope.
#[local] Open Scope list_scope.
#[local] Open Scope Z_scope.

(** The footprint is within the allocation, in total and on every node, and
    there is none on the other nodes. *)
Definition fits (m : Manager) : Prop :=
  forall d, footprint d on_query m <= vb d (query_limits m) /\
    (forall n cap, od_get n (allocation_by_node m) = Some cap -> footprint d (on_node n) m <= vb d cap) /\
    forall n, od_get n (allocation_by_node m) = None -> footprint d (on_node n) m <= 0.

Lemma within_fits m m' : fits m -> within m m' -> m'.(m_allocation) = m.(m_allocation) -> fits m'.
Proof.
  intros Hf Hw Ha d. destruct (Hf d) as (H1 & H2 & H3), (Hw d) as [W1 W2]. unfold query_limits, allocation_by_node in *. rewrite Ha. split; [lia|]. split.
  - intros n cap Hn. specialize (H2 n cap Hn). destruct (W2 n) as [?|(cap' & Hc & ?)]; [lia|]. rewrite Hn in Hc. injection Hc as <-. done.
  - intros n Hn. specialize (H3 n Hn). destruct (W2 n) as [?|(cap' & Hc & ?)]; [lia|congruence].
Qed.

(** An allocation as the constructors accept it and its nodes' vectors. *)
Definition sound_allocation (a : QueryAllocation) : Prop :=
  constructed a /\ forall n, n ∈ a.(al_nodes) -> nonneg n.(na_resources).

(** Calls whose grants are held to the limits, from one state to the next. *)
Fixpoint limited_run (p : Plan) (uuid : nat -> string) (m : Manager) (cs : list call) : Prop :=
  match cs with
  | [] => True
  | c :: cs => limited_call m c /\ limited_run p uuid (do_call p uuid c m).2 cs
  end.

(** ** What the actors hold *)

Definition at_node (f : ActorPlacement -> Z) (pls : list ActorPlacement) (n : string) : Z :=
  zsum (map f (List.filter (fun pl => String.eqb pl.(ap_node_id) n) pls)).

Lemma at_node_cons f pl pls n : at_node f (pl :: pls) n = (if String.eqb pl.(ap_node_id) n then f pl else 0) + at_node f pls n.
Proof. unfold at_node. cbn [List.filter]. destruct (String.eqb _ _); [cbn [map]; by rewrite zsum_cons|lia]. Qed.

Lemma count_node (x : string) (v : Z) nodes : NoDup nodes ->
  zsum (map (fun n => if String.eqb x n then v else 0) nodes) = if bool_decide (x ∈ nodes) then v else 0.
Proof.
  induction nodes as [|n nodes IH]; intros Hnd; [by rewrite bool_decide_eq_false_2 by apply not_elem_of_nil|].
  apply NoDup_cons in Hnd as [Hn Hnd]. cbn [map]. rewrite zsum_cons, IH by done. destruct (String.eqb_spec x n) as [->|Hne].
  - rewrite bool_decide_eq_false_2, bool_decide_eq_true_2 by (done || left). lia.
  - rewrite Z.add_0_l. apply (f_equal (fun b : bool => if b then v else 0)). apply bool_decide_ext. rewrite elem_of_cons. tauto.
Qed.

Lemma zsum_plus {A} (g h : A -> Z) l : zsum (map (fun x => g x + h x) l) = zsum (map g l) + zsum (map h l).
Proof. induction l as [|x l IH]; [done|]. cbn [map]. rewrite !zsum_cons, IH. lia. Qed.

(** A sum over placements, split by node. *)
Lemma sum_by_node (f : ActorPlacement -> Z) nodes pls :
  NoDup nodes -> (forall pl, pl ∈ pls -> pl.(ap_node_id) ∈ nodes) -> zsum (map f pls) = zsum (map (at_node f pls) nodes).
Proof.
  intros Hnd. induction pls as [|pl pls IH]; intros Hin.
  - unfold at_node. cbn. clear. induction nodes as [|n nodes IH]; [done|]. cbn [map]. by rewrite zsum_cons, <- IH.
  - cbn [map]. rewrite zsum_cons, IH by (intros; apply Hin; by right). rewrite (map_ext _ _ (at_node_cons f pl pls)).
    rewrite zsum_plus, count_node, bool_decide_eq_true_2 by (done || (apply Hin; left)). done.
Qed.

Section Start.
Context (g : QueryExecutionGraph) (a : QueryAllocation) (ratio : f64) (p : Plan) (m : Manager).
Context (Hg : Graph.validate g = Ok tt) (Ha : sound_allocation a) (Hnew : NewManager.new g a ratio = Ok (p, m)).

Definition held (d : byte_dim) (pl : ActorPlacement) : Z :=
  match od_get pl.(ap_stage_id) m.(m_stages) with Some s => vb d s.(ss_spec).(sp_resident_per_actor) | None => 0 end.

Lemma new_footprint d sel :
  footprint d sel m = zsum (map (held d) (List.filter (fun pl => sel pl.(ap_node_id)) a.(al_placements))).
Proof using Hnew.
  destruct (new_parts _ _ _ _ _ Hnew) as (_ & _ & Hal & _ & H1 & H2 & _ & _ & H5 & _).
  unfold footprint, credits_bytes, leases_bytes, orphan_bytes. rewrite H1, H2, H5, !ksum_nil.
  unfold resident_bytes. rewrite Hal. fold (held d). lia.
Qed.

Definition pick_bytes (d : byte_dim) (b : Z * Z) : Z := match d with Heap => b.1 | Objects => b.2 end.

(** An actor commits at least what it holds. *)
Lemma held_committed d pl : pl ∈ a.(al_placements) -> held d pl <= pick_bytes d (actor_bytes g pl).
Proof using Hg Ha Hnew.
  intros Hpl. destruct (new_parts _ _ _ _ _ Hnew) as (Ep & Hv & Hal & Hst & _). pose proof Hg as Hok. apply validate_iff in Hok.
  pose proof (iv_specs _ _ _ (proj1 (gd_inv _ _ _ (new_good (fun _ => "") _ _ _ _ _ Hnew Hg (proj1 Ha))))) as Hs.
  unfold Graph.validate_allocation in Hv. apply rbind_ok in Hv as (u & _ & Hv). apply bind_check in Hv as [_ Hv].
  apply rbind_ok in Hv as (by_node & Hb & _).
  assert (Hstage : exists s, Graph.stage_by_id g pl.(ap_stage_id) = Ok s /\ 0 <= s.(sp_per_task).(r_object_store_bytes) + Stage.output_window_bytes s).
  { clear -Hb Hpl. revert Hb. generalize (@nil (string * ResourceVector)) as acc. induction (al_placements a) as [|q l IH]; intros acc Hb; [by apply not_elem_of_nil in Hpl|].
    cbn [rfoldM] in Hb. apply rbind_ok in Hb as (acc1 & H1 & Hb). apply elem_of_cons in Hpl as [->|Hpl]; [|by eapply IH].
    unfold Graph.actor_commitment in H1. apply rbind_ok in H1 as (s & Hs & H1). apply rbind_ok in H1 as (i & Hi & _). exists s. split; [done|].
    by apply res_new_ok in Hi as (_ & _ & ?). }
  destruct Hstage as (s & Hby & Hnn). rewrite (actor_bytes_stage _ _ _ Hby).
  assert (Hh : held d pl = vb d s.(sp_resident_per_actor)).
  { unfold held. assert (E : od_get pl.(ap_stage_id) (specs m) = Some s).
    { rewrite Hs. unfold plan_specs. rewrite Ep. unfold Graph.stage_by_id in Hby. destruct (find _ _) as [s'|] eqn:Ef; [|done]. injection Hby as ->.
      apply find_some in Ef as [Hin <-%String.eqb_eq]. apply od_elem_get; [|apply list_elem_of_fmap; exists s; split; [done|by apply list_elem_of_In]].
      unfold od_wf, od_keys. rewrite map_map. apply (so_ids _ (go_ok _ Hok)). }
    rewrite specs_get in E. destruct (od_get (ap_stage_id pl) m.(m_stages)); [|done]. by injection E as ->. }
  rewrite Hh. destruct d; cbn; lia.
Qed.

Lemma sum_committed d pls : (forall pl, pl ∈ pls -> pl ∈ a.(al_placements)) ->
  zsum (map (held d) pls) <= pick_bytes d (sum_bytes (map (actor_bytes g) pls)).
Proof using Hg Ha Hnew.
  induction pls as [|pl pls IH]; intros Hin; [by destruct d|]. cbn [map]. rewrite zsum_cons.
  pose proof (held_committed d pl (Hin pl ltac:(left))). specialize (IH (fun q Hq => Hin q ltac:(by right))).
  unfold sum_bytes in *. destruct d; cbn in *; lia.
Qed.

Lemma node_held d n cap : Allocation.resources_for_node a n = Ok cap ->
  at_node (held d) a.(al_placements) n <= vb d cap.
Proof using Hg Ha Hnew.
  intros Hn. destruct (new_parts _ _ _ _ _ Hnew) as (_ & Hv & _). unfold at_node.
  destruct (List.filter (fun pl => String.eqb pl.(ap_node_id) n) a.(al_placements)) as [|pl pls] eqn:E.
  - cbn. unfold Allocation.resources_for_node in Hn. destruct (find _ _) as [nd|] eqn:Ef; [|done]. injection Hn as <-.
    apply find_some in Ef as [Hin _]. apply list_elem_of_In, (proj2 Ha) in Hin. apply Hin.
  - rewrite <- E. assert (Hpl : In pl (List.filter (fun pl => String.eqb pl.(ap_node_id) n) a.(al_placements))) by (rewrite E; left; done).
    apply filter_In in Hpl as [Hpl Hnode%String.eqb_eq]. apply list_elem_of_In in Hpl.
    destruct (actors_fit_nodes g a Hv pl Hpl) as (cap' & Hc' & Hle). rewrite Hnode in Hc', Hle. rewrite Hn in Hc'. injection Hc' as <-.
    etransitivity; [apply sum_committed|].
    + intros q Hq. by apply list_elem_of_In, filter_In in Hq as [Hq%list_elem_of_In _].
    + unfold GraphTheorems.on_node in Hle. destruct Hle as [L1 L2]. by destruct d.
Qed.

Lemma nodes_total d : zsum (map (fun n => vb d n.(na_resources)) a.(al_nodes)) = vb d a.(al_resources).
Proof using Ha.
  destruct Ha as [Hc _]. unfold constructed, Allocation.new in Hc. apply bind_check in Hc as [_ Hc]. apply bind_check in Hc as [_ Hc].
  apply rbind_ok in Hc as (agg & Hagg & Hc). apply bind_check in Hc as [He _].
  assert (E : vb d agg = vb d Res.zero + zsum (map (fun n => vb d n.(na_resources)) a.(al_nodes))).
  { revert Hagg. generalize Res.zero as acc. induction (al_nodes a) as [|n l IH]; intros acc H; cbn [rfoldM] in H.
    - injection H as <-. cbn. lia.
    - apply rbind_ok in H as (acc1 & H1 & H). rewrite (IH _ H), (add_vb d _ _ _ H1). cbn [map]. rewrite zsum_cons. lia. }
  apply negb_false_iff in He. unfold Res.equivalent in He. rewrite !andb_true_iff, !Z.eqb_eq in He. destruct He as [[_ H1] H2].
  destruct d; cbn in *; lia.
Qed.

Lemma new_fits : fits m.
Proof using Hg Ha Hnew.
  destruct (new_parts _ _ _ _ _ Hnew) as (_ & Hv & Hal & _). intros d.
  assert (Hnd : NoDup (map na_node_id a.(al_nodes))) by apply constructed_nodes, Ha.
  assert (Hfound : forall nd, nd ∈ a.(al_nodes) -> Allocation.resources_for_node a nd.(na_node_id) = Ok nd.(na_resources)).
  { intros nd Hin. unfold Allocation.resources_for_node. destruct (find _ _) as [nd'|] eqn:Ef.
    - apply find_some in Ef as [Hin' E%String.eqb_eq]. f_equal. f_equal. clear -Hnd Hin Hin' E.
      apply list_elem_of_In in Hin'. induction (al_nodes a) as [|x l IH]; [by apply not_elem_of_nil in Hin|]. cbn in Hnd. apply NoDup_cons in Hnd as [Hx Hnd].
      apply elem_of_cons in Hin as [->|Hin], Hin' as [Hin'|Hin']; subst; [done|..|by apply IH];
        destruct Hx; apply list_elem_of_fmap; eexists; (split; [|done]); congruence.
    - apply list_elem_of_In in Hin. pose proof (find_none _ _ Ef nd Hin) as H. cbn in H. by rewrite String.eqb_refl in H. }
  split; [|split].
  - rewrite new_footprint. unfold on_query, in_scope.
    replace (List.filter (fun _ => true) a.(al_placements)) with a.(al_placements) by (induction (al_placements a) as [|x l IH]; cbn; congruence).
    rewrite (sum_by_node (held d) (map na_node_id a.(al_nodes))); [|done|].
    + unfold query_limits. rewrite Hal, <- (nodes_total d), map_map.
      assert (H : forall l, (forall nd, nd ∈ l -> nd ∈ a.(al_nodes)) ->
        zsum (map (fun x => at_node (held d) a.(al_placements) x.(na_node_id)) l) <=
        zsum (map (fun n => vb d n.(na_resources)) l)).
      { induction l as [|nd l IH]; intros Hl; [done|]. cbn [map]. rewrite !zsum_cons.
        pose proof (node_held d _ _ (Hfound nd (Hl nd ltac:(left)))). specialize (IH (fun x Hx => Hl x ltac:(by right))). lia. }
      by apply H.
    + intros pl Hpl. destruct (actors_fit_nodes g a Hv pl Hpl) as (cap & Hc & _). unfold Allocation.resources_for_node in Hc.
      destruct (find _ _) as [nd|] eqn:Ef; [|done]. apply find_some in Ef as [Hin E%String.eqb_eq]. apply list_elem_of_fmap. exists nd.
      split; [done|by apply list_elem_of_In].
  - intros n cap Hn. rewrite new_footprint. apply (node_held d n cap). unfold allocation_by_node in Hn. rewrite Hal in Hn.
    assert (H : forall l acc, od_get n (fold_left (fun d x => od_set x.(na_node_id) x.(na_resources) d) l acc) = Some cap ->
      od_get n acc = Some cap \/ exists nd, nd ∈ l /\ nd.(na_node_id) = n /\ nd.(na_resources) = cap).
    { clear. induction l as [|x l IH]; intros acc H; cbn [fold_left] in H; [by left|]. apply IH in H as [H|(nd & Hin & Hr)].
      - rewrite od_get_set in H. destruct (decide (na_node_id x = n)) as [E|]; [|by left]. injection H as <-. right. exists x. split; [left|done].
      - right. exists nd. split; [by right|done]. }
    apply H in Hn as [?|(nd & Hin & <- & <-)]; [done|]. by apply Hfound.
  - intros n Hn. rewrite new_footprint. enough (E : List.filter (fun pl => on_node n pl.(ap_node_id)) a.(al_placements) = []) by (by rewrite E).
    destruct (List.filter _ _) as [|pl pls] eqn:E; [done|]. assert (Hpl : In pl (pl :: pls)) by (by left).
    rewrite <- E in Hpl. apply filter_In in Hpl as [Hpl Hsel%String.eqb_eq]. apply list_elem_of_In in Hpl.
    destruct (actors_fit_nodes g a Hv pl Hpl) as (cap & Hc & _). unfold Allocation.resources_for_node in Hc.
    destruct (find _ _) as [nd|] eqn:Ef; [|done]. apply find_some in Ef as [Hin Ex%String.eqb_eq].
    unfold allocation_by_node in Hn. rewrite Hal in Hn. apply list_elem_of_In in Hin.
    assert (Hkeep : forall l acc, (is_Some (od_get n acc) \/ exists x, x ∈ l /\ x.(na_node_id) = n) ->
      is_Some (od_get n (fold_left (fun d x => od_set x.(na_node_id) x.(na_resources) d) l acc))).
    { clear. induction l as [|x l IH]; intros acc H; cbn [fold_left]; [by destruct H as [?|(x & ?%not_elem_of_nil & _)]|]. apply IH.
      rewrite od_get_set. destruct (decide (na_node_id x = n)) as [E|Hne]; [left; eauto|].
      destruct H as [?|(y & [->|Hy]%elem_of_cons & ?)]; [by left|done|right; eauto]. }
    destruct (Hkeep a.(al_nodes) []) as [x Hx]; [|congruence]. right. exists nd. split; [done|congruence].
Qed.
End Start.

(** ** Histories that keep the limits *)

Lemma limited_other m c : limited_call m c -> forall al o, c <> UpdateAllocation al o.
Proof. by intros H al o ->. Qed.

Lemma limited_sound m c : limited_call m c -> sound_call c.
Proof. by destruct c. Qed.

Lemma limited_run_fits p uuid :
  (forall x y, uuid x = uuid y -> x = y) -> (forall n, uuid n <> "") ->
  (forall id s, od_get id (plan_specs p) = Some s -> 0 <= s.(sp_actor_prefetch_depth) /\ 0 <= Stage.output_window_bytes s) ->
  forall cs m, good p uuid m -> fits m -> limited_run p uuid m cs ->
  good p uuid (run p uuid cs m) /\ fits (run p uuid cs m) /\ (run p uuid cs m).(m_allocation) = m.(m_allocation).
Proof.
  intros Hinj Hne Hp. induction cs as [|c cs IH]; intros m Hm Hf Hl; [done|]. destruct Hl as [Hc Hl]. cbn [run fold_left].
  destruct (limited_bounded p uuid Hinj Hne Hp c m Hm Hc) as [[_ Hw] _].
  destruct (call_good p uuid Hinj Hne Hp c m Hm (limited_sound _ _ Hc)) as [Hm1 _].
  destruct (kept_call p uuid m.(m_allocation) None c (limited_other _ _ Hc) ltac:(done) m) as [Ha _ _]; [by constructor; [| |apply Hm]|].
  destruct (IH _ Hm1 (within_fits _ _ Hf Hw Ha) Hl) as (H1 & H2 & H3). rewrite <- Ha, <- H3. done.
Qed.
