(* ===== verification/ResourceCancel.v ===== *)
(** * Cancellation of a query's resource manager

    [cancel] takes every lease, credit, booked actor and output back at once,
    and nothing is granted afterwards. *)

From S2P Require Import Prelude PyStr PyVal PyNum AdmissionLedger QueryGraph ResourceState ResourcePlacement ResourceManager ResourceBooks ResourceSteps ResourceInv ResourceCalls ResourceGrants ResourceErrors ResourceLimits ResourceHistories.

#[local] Open Scope string_scope.
#[local] Open Scope list_scope.
#[local] Open Scope Z_scope.

(** Cancelled, and nothing is held. *)
Record emptied (m : Manager) : Prop := {
  em_cancelled : m.(m_cancelled) = true;
  em_leases : m.(m_task_leases) = [];
  em_credits : m.(m_credits) = [];
  em_parents : m.(m_credit_by_parent) = [];
  em_borrowers : m.(m_credit_by_borrower) = [];
  em_attempts : m.(m_active_attempts) = [];
  em_active : m.(m_active_slots) = [];
  em_queued : m.(m_queued_slots) = [];
  em_outputs : m.(m_output_leases) = [];
  em_blocks : m.(m_output_by_block) = [];
}.

Create HintDb emptied.

Lemma emptied_other f :
  (forall m, emptied m -> emptied (f m)) -> preserves emptied (smodify f).
Proof. apply preserves_modify. Qed.

Lemma emptied_on_stage id f : preserves emptied (on_stage id f).
Proof. intros m []. unfold on_stage. destruct (od_get _ _); by constructor. Qed.
#[export] Hint Resolve emptied_on_stage : emptied.

Ltac solve_emptied :=
  repeat first
    [ apply preserves_ret | apply preserves_raise | apply preserves_lift | apply preserves_gets | apply preserves_get
    | apply preserves_raise_if
    | solve [auto with emptied]
    | apply preserves_bind; [|intros ?]
    | apply preserves_for; intros ?
    | apply emptied_other; intros ? []; solve [by constructor]
    | match goal with
      | |- preserves _ (match ?x with _ => _ end) => destruct x
      | |- preserves _ (if ?b then _ else _) => destruct b
      end ].

Lemma emptied_recompute_input id : preserves emptied (recompute_input id).
Proof. apply emptied_on_stage. Qed.
Lemma emptied_recompute_output id : preserves emptied (recompute_output id).
Proof. apply emptied_on_stage. Qed.
Lemma emptied_publish : preserves emptied publish.
Proof. unfold publish. solve_emptied. Qed.
Lemma emptied_registered id : preserves emptied (registered id).
Proof. unfold registered. solve_emptied. Qed.
#[export] Hint Resolve emptied_recompute_input emptied_recompute_output emptied_publish emptied_registered : emptied.
Lemma emptied_wake p r : preserves emptied (wake_stage p r).
Proof. unfold wake_stage. solve_emptied. Qed.

(** A run that does not touch the state. *)
Lemma untouched {A} (op : ST Manager A) : (forall m, emptied m -> (op m).2 = m) -> preserves emptied op.
Proof. intros H m Hm. by rewrite H. Qed.

Section Cancelled.
Context (p : Plan) (uuid : nat -> string).

Lemma cancelled_verdict m r h : emptied m -> task_block_reason p m r h = refused "query_cancelled".
Proof. intros Hm. unfold task_block_reason. by rewrite (em_cancelled _ Hm). Qed.

Lemma cancelled_output m r : emptied m -> output_block_reason p m r = Ok (Some "query_cancelled", true, 0).
Proof. intros Hm. unfold output_block_reason. by rewrite (em_cancelled _ Hm). Qed.

Lemma cancelled_try m r : emptied m -> try_acquire_task p uuid r m = (Ok (deny "query_cancelled" true), m).
Proof. intros Hm. unfold try_acquire_task, sbind, sget, slift. by rewrite cancelled_verdict. Qed.

Lemma cancelled_try_output m r : emptied m -> try_acquire_output_block p uuid r m = (Ok (deny_output "query_cancelled" true), m).
Proof. intros Hm. unfold try_acquire_output_block, sbind, sget, slift. by rewrite cancelled_output. Qed.

Lemma emptied_descriptor r : preserves emptied (try_acquire_task_descriptor p uuid r).
Proof.
  unfold try_acquire_task_descriptor. apply preserves_bind; [apply emptied_wake|]. intros _. apply untouched. intros m Hm.
  unfold with_epoch, sbind, sget, sgets, slift. destruct (od_mem _ _); [done|]. by rewrite cancelled_verdict.
Qed.

Lemma cancelled_waiting m es e : emptied m -> evaluate_waiting p m false = Ok es -> e ∈ es ->
  e.(qe_fatal) = true /\ e.(qe_reason) = Some "query_cancelled".
Proof.
  intros Hm Hes He. pose proof (evaluations_verdict p m _ _ _ _ _ Hes He) as Hv. rewrite cancelled_verdict in Hv by done. by injection Hv as <- <- _.
Qed.

Lemma emptied_queued r : preserves emptied (try_acquire_queued_task p uuid r).
Proof.
  apply untouched. intros m Hm. unfold try_acquire_queued_task, sbind, sget, slift, sret. destruct (od_get _ _) as [[w n]|]; [|done].
  destruct (negb _); [done|]. destruct (evaluate_waiting p m false) as [es|e] eqn:Ees; [|done]. destruct (find _ es) as [cur|] eqn:Ef; [|done].
  apply find_some in Ef as [Hin _]. apply list_elem_of_In in Hin. by destruct (cancelled_waiting _ _ _ Hm Ees Hin) as [-> ->].
Qed.

Lemma emptied_next_queued cs : preserves emptied (try_acquire_next_queued_task p uuid cs).
Proof.
  apply untouched. intros m Hm. unfold try_acquire_next_queued_task, sbind, sget, slift, sret.
  destruct (evaluate_waiting p m false) as [es|e] eqn:Ees; [|done]. destruct (first_by_rank _) as [[e|]|e]; [done| |done].
  destruct (select_evaluation p m es) as [[e|]|e] eqn:Es; [|done|done]. exfalso.
  apply (select_evaluation_elem p) in Es as [He Hu]. destruct (cancelled_waiting _ _ _ Hm Ees He) as [_ Hr]. rewrite Hr in Hu. by destruct Hu.
Qed.

Lemma cancelled_ranked m cs order l os o : emptied m -> rank_outputs p m cs order l = Ok os -> o ∈ os -> o.(ro_fatal) = true /\ o.(ro_reason) = Some "query_cancelled".
Proof.
  intros Hm Hos Ho. destruct (rank_outputs_verdict p m _ _ _ _ _ Hos Ho) as (d & Hv). rewrite cancelled_output in Hv by done. by injection Hv as <- <- _.
Qed.

Lemma emptied_next_output cs : preserves emptied (try_acquire_next_queued_output_block p uuid cs).
Proof.
  apply untouched. intros m Hm. unfold try_acquire_next_queued_output_block, sbind, sget, slift, sret.
  destruct (rank_outputs p m cs 0 m.(m_waiting_outputs)) as [os|e] eqn:Eos; [|done]. destruct (first_output _) as [[o|]|e]; [done| |done].
  assert (Hnone : forall f o, first_output (List.filter f os) = Ok (Some o) -> f o = true /\ o.(ro_fatal) = true).
  { intros f o Ho. apply py_min_elem, list_elem_of_In, filter_In in Ho as [Ho Hf]. split; [done|].
    by eapply cancelled_ranked; [exact Hm|exact Eos|apply list_elem_of_In]. }
  destruct (first_output _) as [[o|]|e] eqn:E1; [|clear E1|done].
  - apply Hnone in E1 as [H1 H2]. rewrite H2 in H1. done.
  - destruct (first_output _) as [[o|]|e] eqn:E2; [|done|done]. apply Hnone in E2 as [H1 H2]. rewrite H2 in H1. done.
Qed.

Lemma emptied_call c : preserves emptied (do_call p uuid c).
Proof.
  assert (Hforget : forall {A} (op : ST Manager A), preserves emptied op -> preserves emptied (forget op)).
  { intros A op H. apply preserves_bind; [done|]. intros. apply preserves_ret. }
  destruct c; cbn [do_call]; try apply Hforget;
    try (unfold update_stage_state, note_task_waiting, remove_task_waiter, mark_task_attempt_terminal, note_output_waiting, remove_output_waiter,
      mark_output_block_terminal, set_external_consumer_waiting, set_stage_actor_ready, update_allocation, close_admission; solve [solve_emptied]).
  - apply untouched. intros m Hm. by rewrite cancelled_try.
  - apply emptied_descriptor.
  - apply emptied_queued.
  - apply emptied_next_queued.
  - apply untouched. intros m Hm. unfold release_task_lease, release_lease, sbind, sget. by rewrite (em_leases _ Hm).
  - apply untouched. intros m Hm. unfold abandon_task_lease, release_lease, sbind, sget. by rewrite (em_leases _ Hm).
  - apply untouched. intros m Hm. unfold finish_task_with_outputs, sbind, sget. by rewrite (em_leases _ Hm).
  - apply untouched. intros m Hm. by rewrite cancelled_try_output.
  - apply emptied_next_output.
  - apply untouched. intros m Hm. unfold transition_output_block, sbind, sget.
    destruct (parse_output_state state) as [[]|]; try done; by rewrite (em_outputs _ Hm).
  - apply untouched. intros m Hm. unfold release_output_block, sbind, sget. by rewrite (em_outputs _ Hm).
Qed.

(** [cancel] of a manager that is not cancelled. *)
Lemma cancel_empties reason m : m.(m_cancelled) = false -> emptied (cancel reason m).2.
Proof.
  intros Hc. assert (Hw : wp (cancel reason) (fun _ => emptied) (fun _ _ => False) m).
  { unfold cancel. apply wp_bind, wp_get. rewrite Hc. apply wp_bind, wp_modify. set (m1 := set_field m_waiting_tasks _ _).
    assert (Hids : forall m2, specs m2 = specs m -> forall id, id ∈ od_keys m.(m_stages) -> id ∈ od_keys (specs m2)).
    { intros m2 -> id Hid. unfold specs, od_keys. by rewrite map_map. }
    assert (Hrec : forall recompute, (forall id, exists f, recompute id = on_stage id f /\ forall m s, (f m s).(ss_spec) = s.(ss_spec)) ->
      forall m2, specs m2 = specs m -> wp (sfor (od_keys m.(m_stages)) recompute)
        (fun _ m3 => core_same m2 m3 /\ m3.(m_active_attempts) = m2.(m_active_attempts) /\ m3.(m_output_by_block) = m2.(m_output_by_block)) (fun _ _ => False) m2).
    { intros recompute Hr m2 Hs2. pose proof (recompute_all recompute _ m2 Hr (Hids m2 Hs2)) as Hall.
      assert (Hk : preserves (fun m3 => m3.(m_active_attempts) = m2.(m_active_attempts) /\ m3.(m_output_by_block) = m2.(m_output_by_block))
        (sfor (od_keys m.(m_stages)) recompute)).
      { apply preserves_for. intros id. destruct (Hr id) as (f & -> & _). intros m3 [E1 E2]. unfold on_stage. by destruct (od_get _ _). }
      specialize (Hk m2 ltac:(done)). unfold wp in *. by destruct (sfor (od_keys (m_stages m)) recompute m2) as [[u|e] m3]. }
    apply wp_bind. eapply wp_mono; [apply (Hrec recompute_input); [intros id; by eexists|done]| |done].
    intros u1 m2 (((_ & Hs2 & Hl2 & Hc2 & Hb2 & Ho2 & _) & Hp2 & Ha2 & Hq2) & Hat2 & Hob2). apply wp_bind, wp_modify.
    set (m3 := set_field m_waiting_outputs _ _). apply wp_bind.
    eapply wp_mono; [apply (Hrec recompute_output); [intros id; by eexists|exact Hs2]| |done].
    intros u2 m4 (((_ & _ & Hl4 & Hc4 & Hb4 & Ho4 & _) & Hp4 & Ha4 & Hq4) & Hat4 & Hob4).
    apply wp_bind, wp_modify, wp_bind, wp_modify, wp_ret.
    constructor; cbn; [done|exact (eq_trans Hl4 Hl2)|exact (eq_trans Hc4 Hc2)|exact (eq_trans Hp4 Hp2)|exact (eq_trans Hb4 Hb2)
      |exact (eq_trans Hat4 Hat2)|exact (eq_trans Ha4 Ha2)|exact (eq_trans Hq4 Hq2)|exact Ho4|exact Hob4]. }
  unfold wp in Hw. by destruct (cancel reason m) as [[r|e] m'].
Qed.

(** A manager that holds something is not cancelled. *)
Definition settled_end (m : Manager) : Prop := m.(m_cancelled) = true -> emptied m.

Lemma settled_end_call c m : waiters_ok m -> settled_end m -> settled_end (do_call p uuid c m).2.
Proof.
  intros Hw Hm. destruct (m_cancelled m) eqn:Ec; [intros _; by apply emptied_call, Hm|].
  assert (Hother : (forall al o, c <> UpdateAllocation al o) -> (forall r, c <> Cancel r) -> settled_end (do_call p uuid c m).2).
  { intros H1 H2 Hc'. destruct (kept_call p uuid m.(m_allocation) (Some false) c H1 (fun _ => H2) m) as [_ Hk _]; [by constructor|]. congruence. }
  destruct c; try (apply Hother; done); cbn [do_call].
  - unfold update_allocation, sbind, sget. cbn. destruct (al_generation a <=? _); [by intros ?; cbn in *; congruence|]. cbn.
    destruct (Graph.validate_allocation _ _ _); cbn; intros Hc'; cbn in Hc'; congruence.
  - intros _. pose proof (cancel_empties reason m Ec) as H. unfold forget, sbind. by destruct (cancel reason m) as [[r|e] m'].
Qed.

Lemma cancel_cancels reason m : settled_end m -> emptied (do_call p uuid (Cancel reason) m).2.
Proof.
  intros Hm. destruct (m_cancelled m) eqn:Ec; [by apply emptied_call, Hm|]. cbn [do_call]. pose proof (cancel_empties reason m Ec) as H.
  unfold forget, sbind. by destruct (cancel reason m) as [[r|e] m'].
Qed.

Lemma emptied_run cs m : emptied m -> emptied (run p uuid cs m).
Proof. revert m. induction cs as [|c cs IH]; intros m Hm; [done|]. cbn. by apply IH, emptied_call. Qed.
End Cancelled.
