(* ===== verification/ResourceSearch.v ===== *)
(** * The search for a placement of reserved bundles

    [place] tries the nodes of one bundle after the other and remembers the
    states it has seen fail.  With or without that memory it finds a placement
    exactly when there is one.  The second part is about whose turn it is in
    the queue. *)

From Stdlib Require Import Floats.SpecFloat.
From S2P Require Import Prelude PyStr PyVal PyNum AdmissionLedger QueryGraph GraphProofs ResourceState ResourcePlacement GraphTheorems ResourceReach ResourceManager ResourceGrants ResourceHistories.

#[local] Open Scope string_scope.
#[local] Open Scope list_scope.
#[local] Open Scope Z_scope.

(** ** Placements *)

(** The bundles can be put on nodes they allow, one after the other, each
    within what the others have left there. *)
Inductive placeable (node_ids : list string) : list DownstreamReservation -> list ResourceVector -> Prop :=
| placeable_nil remaining : placeable node_ids [] remaining
| placeable_cons r rs remaining node position capacity rest :
    node ∈ r.(dr_allowed_node_ids) -> list_find (fun n => n = node) node_ids = Some (position, node) ->
    remaining !! position = Some capacity -> Res.fits_within r.(dr_resources) capacity = true ->
    Res.sub capacity r.(dr_resources) = Ok rest -> placeable node_ids rs (<[position := rest]> remaining) ->
    placeable node_ids (r :: rs) remaining.

(** ** Numbers that compare equal *)

(** Equal, or both a zero. *)
Inductive f64_sim : f64 -> f64 -> Prop :=
| sim_refl x : f64_sim x x
| sim_zero s s' : f64_sim (S754_zero s) (S754_zero s').

Lemma eqb_sim x y : f64_eqb x y = true -> f64_sim x y.
Proof.
  unfold f64_eqb, SFeqb. destruct x as [s|s| |s m e], y as [s'|s'| |s' m' e']; cbn; try done; try (by destruct s); try (by destruct s'); try (by constructor).
  - destruct s, s'; try done; constructor.
  - assert (H : forall c, (e ?= e')%Z = c -> (m ?= m')%positive = Eq -> c = Eq -> f64_sim (S754_finite s m e) (S754_finite s m' e')).
    { intros c <- Hm%Pos.compare_eq He%Z.compare_eq. subst. constructor. }
    destruct s, s'; try done; destruct (e ?= e')%Z eqn:Ee; try done; change (Pos.compare_cont Eq m m') with (m ?= m')%positive;
      destruct (m ?= m')%positive eqn:Em; try done; intros _; by eapply H.
Qed.

Lemma sim_sub x y c : f64_sim x y -> f64_sim (f64_sub x c) (f64_sub y c).
Proof. intros [z|s s']; [constructor|]. destruct c as [t|t| |t m e]; cbn; try constructor. destruct s, s', t; cbn; constructor. Qed.
Lemma sim_le x y c : f64_sim x y -> f64_le c x = f64_le c y.
Proof. intros [z|s s']; [done|]. by destruct c as [t|t| |t m e]. Qed.
Lemma sim_lt x y c : f64_sim x y -> f64_lt x c = f64_lt y c.
Proof. intros [z|s s']; [done|]. by destruct c as [t|t| |t m e]. Qed.
Lemma sim_finite x y : f64_sim x y -> f64_isfinite x = f64_isfinite y.
Proof. by intros []. Qed.

(** ** Vectors that compare equal *)

Record res_sim (a b : ResourceVector) : Prop := {
  rs_cpu : f64_sim a.(r_cpu) b.(r_cpu);
  rs_gpu : f64_sim a.(r_gpu) b.(r_gpu);
  rs_heap : a.(r_heap_bytes) = b.(r_heap_bytes);
  rs_objects : a.(r_object_store_bytes) = b.(r_object_store_bytes);
}.

Lemma res_sim_refl a : res_sim a a.
Proof. constructor; done || constructor. Qed.

Lemma res_sim_sym a b : res_sim a b -> res_sim b a.
Proof. intros [H1 H2 H3 H4]. constructor; [destruct H1; constructor|destruct H2; constructor|done|done]. Qed.

Lemma res_eqb_sim a b : res_eqb a b = true -> res_sim a b.
Proof. unfold res_eqb. rewrite !andb_true_iff, !Z.eqb_eq. intros [[[H1%eqb_sim H2%eqb_sim] H3] H4]. by constructor. Qed.

Lemma sim_fits r a b : res_sim a b -> Res.fits_within r a = Res.fits_within r b.
Proof. intros []. unfold Res.fits_within. by rewrite (sim_le _ _ _ rs_cpu0), (sim_le _ _ _ rs_gpu0), rs_heap0, rs_objects0. Qed.

Lemma sim_new c c' g g' h o r : f64_sim c c' -> f64_sim g g' -> Res.new c g h o = Ok r ->
  exists r', Res.new c' g' h o = Ok r' /\ res_sim r r'.
Proof.
  intros Hc Hg. unfold Res.new, Res.check_float. rewrite <- (sim_finite _ _ Hc), <- (sim_lt _ _ _ Hc), <- (sim_finite _ _ Hg), <- (sim_lt _ _ _ Hg).
  intros H. apply rbind_ok in H as (u1 & -> & H). apply rbind_ok in H as (u2 & -> & H). apply rbind_ok in H as (u3 & -> & H).
  apply rbind_ok in H as (u4 & -> & [= <-]). cbn. eexists. split; [reflexivity|]. by constructor.
Qed.

Lemma sim_sub_vector a b r rest : res_sim a b -> Res.sub a r = Ok rest -> exists rest', Res.sub b r = Ok rest' /\ res_sim rest rest'.
Proof.
  intros []. unfold Res.sub. intros H. apply bind_check in H as [Hw H].
  assert (E : Res.where_ (fun x y => f64_lt (f64_sub x y) f64_zero) (fun x y => x - y <? 0) b r =
    Res.where_ (fun x y => f64_lt (f64_sub x y) f64_zero) (fun x y => x - y <? 0) a r).
  { unfold Res.where_. cbn. rewrite rs_heap0, rs_objects0.
    by rewrite (sim_lt _ _ _ (sim_sub _ _ r.(r_cpu) rs_cpu0)), (sim_lt _ _ _ (sim_sub _ _ r.(r_gpu) rs_gpu0)). }
  rewrite E, Hw. cbn [raise_if rbind]. rewrite <- rs_heap0, <- rs_objects0.
  eapply sim_new; [by apply sim_sub|by apply sim_sub|exact H].
Qed.

Lemma ress_eqb_sim a b : ress_eqb a b = true -> Forall2 res_sim a b.
Proof.
  unfold ress_eqb. rewrite andb_true_iff, bool_decide_eq_true. intros [Hl H]. revert b Hl H.
  induction a as [|x a IH]; intros [|y b] Hl H; try done. cbn in H. apply andb_true_iff in H as [H1 H2].
  constructor; [by apply res_eqb_sim|]. apply IH; [by injection Hl|done].
Qed.

Section Search.
Context (limits : ResourceVector) (node_ids : list string).

(** What is left only matters up to the sign of a zero. *)
Lemma placeable_sim rs a b : Forall2 res_sim a b -> placeable node_ids rs a -> placeable node_ids rs b.
Proof.
  intros Hab Hp. revert b Hab. induction Hp as [rem|r rs rem node pos cap rest Hin Hf Hl Hfit Hs Hp IH]; intros b Hab; [constructor|].
  destruct (Forall2_lookup_l _ _ _ _ _ Hab Hl) as (cap' & Hl' & Hc). destruct (sim_sub_vector _ _ _ _ Hc Hs) as (rest' & Hs' & Hr).
  eapply placeable_cons; [done|done|done|by rewrite <- (sim_fits _ _ _ Hc)|done|]. apply IH. by apply Forall2_insert.
Qed.

(** Memorised states really fail. *)
Definition sound_memory (all : list DownstreamReservation) (failed : list failed_state) : Prop :=
  forall n rem, (n, rem) ∈ failed -> forall suf, suf `suffix_of` all -> length suf = n -> ~ placeable node_ids suf rem.

Lemma bundle_candidates_iff rem r cs : bundle_candidates node_ids rem r = Ok cs ->
  forall position rest, (position, rest) ∈ cs <-> exists node capacity, node ∈ r.(dr_allowed_node_ids) /\
    list_find (fun n => n = node) node_ids = Some (position, node) /\ rem !! position = Some capacity /\
    Res.fits_within r.(dr_resources) capacity = true /\ Res.sub capacity r.(dr_resources) = Ok rest.
Proof.
  unfold bundle_candidates. intros H position rest.
  assert (Hg : forall l acc cs, rfoldM (fun acc node =>
      match list_find (fun n => n = node) node_ids with
      | None => Ok acc
      | Some (position, _) =>
          match rem !! position with
          | None => Raise (IndexError "tuple index out of range")
          | Some capacity =>
              if Res.fits_within r.(dr_resources) capacity
              then let* rest := Res.sub capacity r.(dr_resources) in Ok (acc ++ [(position, rest)])
              else Ok acc
          end
      end) acc l = Ok cs ->
    ((position, rest) ∈ cs <-> (position, rest) ∈ acc \/ exists node capacity, node ∈ l /\
      list_find (fun n => n = node) node_ids = Some (position, node) /\ rem !! position = Some capacity /\
      Res.fits_within r.(dr_resources) capacity = true /\ Res.sub capacity r.(dr_resources) = Ok rest)).
  { clear. induction l as [|node l IH]; intros acc cs H; cbn [rfoldM] in H.
    - injection H as <-. split; [by left|]. intros [?|(n & c & Hn & _)]; [done|by apply not_elem_of_nil in Hn].
    - apply rbind_ok in H as (acc1 & H1 & H). rewrite (IH _ _ H). clear IH H.
      assert (Hstep : (position, rest) ∈ acc1 <-> (position, rest) ∈ acc \/ exists capacity,
        list_find (fun n => n = node) node_ids = Some (position, node) /\ rem !! position = Some capacity /\
        Res.fits_within r.(dr_resources) capacity = true /\ Res.sub capacity r.(dr_resources) = Ok rest).
      { destruct (list_find (fun n => n = node) node_ids) as [[pos n]|] eqn:Ef; [|injection H1 as <-; naive_solver].
        assert (n = node) as -> by (by apply list_find_Some in Ef as (_ & ? & _)).
        destruct (rem !! pos) as [cap|] eqn:Er; [|done]. destruct (Res.fits_within _ cap) eqn:Efit.
        - apply rbind_ok in H1 as (rest1 & Hs & [= <-]). rewrite elem_of_app, list_elem_of_singleton. split.
          + intros [?|[= -> ->]]; [by left|]. right. eauto.
          + intros [?|(c & [= ->] & Hc & _ & Hs')]; [by left|]. right. congruence.
        - injection H1 as <-. split; [by left|]. intros [?|(c & [= ->] & Hc & Hf & _)]; [done|]. congruence. }
      rewrite Hstep. setoid_rewrite elem_of_cons. naive_solver. }
  rewrite (Hg _ [] cs H). split; [intros [Hn|?]; [by apply not_elem_of_nil in Hn|done]|by right].
Qed.

Lemma suffix_eq (all a b : list DownstreamReservation) : a `suffix_of` all -> b `suffix_of` all -> length a = length b -> a = b.
Proof. intros [x ->] [y Hy] Hl. apply app_inj_2 in Hy as [_ ?]; [done|]. done. Qed.

Lemma try_candidates_iff all rest next rem cs failed found failed' :
  (forall rem failed b failed', sound_memory all failed -> next rem failed = Ok (b, failed') ->
     sound_memory all failed' /\ (b = true <-> placeable node_ids rest rem)) ->
  sound_memory all failed -> try_candidates next rem cs failed = Ok (found, failed') ->
  sound_memory all failed' /\ (found = true <-> exists position r, (position, r) ∈ cs /\ placeable node_ids rest (<[position := r]> rem)).
Proof.
  intros Hnext. revert failed. induction cs as [|[pos r] cs IH]; intros failed Hs H; cbn [try_candidates] in H.
  - injection H as <- <-. split; [done|]. split; [done|]. intros (q & r & Hin & _). by apply not_elem_of_nil in Hin.
  - apply rbind_ok in H as ([b f1] & H1 & H). destruct (Hnext _ _ _ _ Hs H1) as [Hs1 Hb]. destruct b.
    + injection H as <- <-. split; [done|]. split; [|done]. intros _. exists pos, r. split; [left|by apply Hb].
    + destruct (IH _ Hs1 H) as [Hs' Hf]. split; [done|]. rewrite Hf. setoid_rewrite elem_of_cons. split; [naive_solver|].
      intros (q & r' & [[= -> ->]|Hin] & Hp); [by apply Hb in Hp|eauto].
Qed.

Lemma place_iff all ordered : ordered `suffix_of` all -> forall rem failed b failed',
  sound_memory all failed -> place limits node_ids ordered rem failed = Ok (b, failed') ->
  sound_memory all failed' /\ (b = true <-> placeable node_ids ordered rem).
Proof.
  induction ordered as [|r rest IH]; intros Hsuf rem failed b failed' Hs H; cbn [place] in H.
  { injection H as <- <-. split; [done|]. split; [|done]. intros _. constructor. }
  destruct (known_failure (length (r :: rest)) rem failed) eqn:Ek.
  - injection H as <- <-. split; [done|]. split; [done|]. intros Hp. exfalso. unfold known_failure in Ek.
    apply existsb_exists in Ek as ([n rem'] & Hin & [Hn%bool_decide_eq_true He%ress_eqb_sim]%andb_true_iff). subst n.
    apply (Hs _ _ ltac:(by apply list_elem_of_In) (r :: rest) Hsuf eq_refl).
    eapply placeable_sim; [|exact Hp]. apply Forall2_flip. eapply Forall2_impl; [exact He|]. intros x y. apply res_sim_sym.
  - apply rbind_ok in H as (cs & Hcs & H). apply rbind_ok in H as (cs' & Hcs' & H). apply rbind_ok in H as ([found f1] & Ht & H).
    assert (Hsuf' : rest `suffix_of` all) by (destruct Hsuf as [x ->]; exists (x ++ [r]); by rewrite <- app_assoc).
    destruct (try_candidates_iff all rest _ rem cs' failed found f1 (IH Hsuf') Hs Ht) as [Hs1 Hf].
    assert (Hplace : found = true <-> placeable node_ids (r :: rest) rem).
    { rewrite Hf. split.
      - intros (pos & x & Hin & Hp). rewrite (py_sorted_by_perm _ _ _ Hcs') in Hin.
        apply (bundle_candidates_iff _ _ _ Hcs) in Hin as (node & cap & H1 & H2 & H3 & H4 & H5). by eapply placeable_cons.
      - intros Hp. inversion Hp as [|? ? ? node pos cap x H1 H2 H3 H4 H5 H6]; subst. exists pos, x. split; [|done].
        rewrite (py_sorted_by_perm _ _ _ Hcs'). apply (bundle_candidates_iff _ _ _ Hcs). eauto 10. }
    destruct found.
    + injection H as <- <-. done.
    + injection H as <- <-. split; [|done]. intros n rem' [[= -> ->]|Hin]%elem_of_cons suf Hsu Hl; [|by eapply Hs1].
      assert (suf = r :: rest) as -> by (by eapply suffix_eq). intros Hp. by apply Hplace in Hp.
Qed.
End Search.

(** ** Whose turn it is

    The order in which waiting tasks are granted: by rank, which puts stages
    nearer to the end of the query first, then stages with fewer running
    tasks, then the order of arrival. *)

(** *** Ranks *)

Definition rank_le (a b : Z * Z * Z) : Prop :=
  a.1.1 < b.1.1 \/ (a.1.1 = b.1.1 /\ (a.1.2 < b.1.2 \/ (a.1.2 = b.1.2 /\ a.2 <= b.2))).

Lemma rank_le_refl a : rank_le a a.
Proof. right. split; [done|]. right. split; [done|lia]. Qed.

Lemma rank_le_trans a b c : rank_le a b -> rank_le b c -> rank_le a c.
Proof. unfold rank_le. lia. Qed.

Lemma num_eqb_int x y : num_eqb (NInt x) (NInt y) = (x =? y).
Proof. unfold num_eqb, num_compare. destruct (Z.compare_spec x y); symmetry; (apply Z.eqb_eq || apply Z.eqb_neq); lia. Qed.

Lemma num_lt_int x y : num_lt (NInt x) (NInt y) = (x <? y).
Proof. unfold num_lt, num_compare. destruct (Z.compare_spec x y); symmetry; (apply Z.ltb_lt || apply Z.ltb_ge); lia. Qed.

Lemma keys_lt_rank a b : if keys_lt (rank_key a) (rank_key b) then rank_le a b else rank_le b a.
Proof.
  unfold rank_key. cbn [keys_lt key_eqb key_ltb]. rewrite !num_eqb_int, !num_lt_int. unfold rank_le.
  destruct (Z.eqb_spec a.1.1 b.1.1); [|destruct (Z.ltb_spec a.1.1 b.1.1); lia].
  destruct (Z.eqb_spec a.1.2 b.1.2); [|destruct (Z.ltb_spec a.1.2 b.1.2); lia].
  destruct (Z.eqb_spec a.2 b.2); [lia|]. destruct (Z.ltb_spec a.2 b.2); lia.
Qed.

(** [min] by rank takes an element no other comes before. *)
Lemma first_by_rank_least l e : first_by_rank l = Ok (Some e) -> e ∈ l /\ forall e', e' ∈ l -> rank_le e.(qe_rank) e'.(qe_rank).
Proof.
  intros H. split; [by apply (py_min_elem _ _ _ H)|]. unfold first_by_rank, py_min in H. apply rbind_ok in H as (kl & Hk & H).
  assert (Hkeys : forall x, x ∈ kl -> x.1 = rank_key x.2.(qe_rank)).
  { clear -Hk. unfold with_keys in Hk. revert kl Hk. induction l as [|e l IH]; intros kl Hk x Hx; cbn in Hk; [injection Hk as <-; by apply not_elem_of_nil in Hx|].
    apply rbind_ok in Hk as (rest & Hr & [= <-]). apply elem_of_cons in Hx as [->|Hx]; [done|by eapply IH]. }
  apply with_keys_snd in Hk. subst l. destruct kl as [|x kl]; [done|]. cbn [pick] in H. injection H as H. subst e.
  assert (Hfold : forall kl x, (forall y, y ∈ x :: kl -> y.1 = rank_key y.2.(qe_rank)) ->
    let best := fold_left (fun best y => if keys_lt y.1 best.1 then y else best) kl x in
    best ∈ x :: kl /\ forall y, y ∈ x :: kl -> rank_le best.2.(qe_rank) y.2.(qe_rank)).
  { clear. induction kl as [|y kl IH]; intros x Hk; cbn [fold_left].
    - split; [left|]. intros y ->%list_elem_of_singleton. apply rank_le_refl.
    - pose proof (keys_lt_rank y.2.(qe_rank) x.2.(qe_rank)) as Hcmp.
      rewrite <- (Hk y ltac:(right; left)), <- (Hk x ltac:(left)) in Hcmp.
      destruct (keys_lt y.1 x.1).
      + destruct (IH y) as [H1 H2]; [intros z Hz; apply Hk; by right|]. split; [by right|].
        intros z [->|Hz]%elem_of_cons; [|by apply H2]. eapply rank_le_trans; [apply H2; left|done].
      + destruct (IH x) as [H1 H2].
        { intros z [->|Hz]%elem_of_cons; [apply Hk; left|apply Hk; by do 2 right]. }
        split; [apply elem_of_cons in H1 as [->|H1]; [left|by do 2 right]|].
        intros z Hz. rewrite !elem_of_cons in Hz. destruct Hz as [->|[->|Hz]]; [apply H2; left| |apply H2; by right].
        eapply rank_le_trans; [apply H2; left|done]. }
  intros e' He'. apply list_elem_of_fmap in He' as (y & -> & Hy). by apply Hfold.
Qed.

(** *** The selected evaluation *)

Lemma select_evaluation_least p m l e : select_evaluation p m l = Ok (Some e) ->
  e ∈ l /\
  ((admissible e = true /\ forall e', e' ∈ l -> admissible e' = true -> rank_le e.(qe_rank) e'.(qe_rank)) \/
   (softly_blocked e = true /\ forall e', e' ∈ l -> admissible e' = false)).
Proof.
  assert (Hin : forall f (x : QueuedTaskEvaluation), x ∈ List.filter f l <-> x ∈ l /\ f x = true).
  { intros f x. rewrite !list_elem_of_In. apply filter_In. }
  unfold select_evaluation. case_bool_decide as En; cbn [negb].
  - assert (Hno : forall e', e' ∈ l -> admissible e' = false).
    { intros e' He'. destruct (admissible e') eqn:Ea; [|done]. assert (H : e' ∈ List.filter admissible l) by (by apply Hin).
      apply length_zero_iff_nil in En. rewrite En in H. by apply not_elem_of_nil in H. }
    case_bool_decide; [done|]. intros (pr & _ & He)%rbind_ok. destruct pr as [id|]; [|done].
    apply first_by_rank_least in He as [He _]. apply list_elem_of_In, filter_In in He as [He _]. apply list_elem_of_In, Hin in He as [He Hs]. auto.
  - intros [He Hl]%first_by_rank_least. apply Hin in He as [He Ha]. split; [done|]. left. split; [done|]. intros e' H1 H2. apply Hl, Hin. done.
Qed.

(** The entry of one request, the [o]-th in the order of arrival. *)
Record evaluated_as (p : Plan) (m : Manager) (h : bool) (o : Z) (r : TaskRequest) (e : QueuedTaskEvaluation) : Prop := {
  ev_request : e.(qe_request) = r;
  ev_verdict : task_block_reason p m r h = Ok (e.(qe_reason), e.(qe_fatal), e.(qe_plan));
  ev_rank : reverse_rank p r.(tr_stage_id) = Ok e.(qe_rank).1.1;
  ev_active : active_task_count m r.(tr_stage_id) = e.(qe_rank).1.2;
  ev_order : e.(qe_rank).2 = o;
}.

Lemma evaluate_task_ok p m h o r e : evaluate_task p m h o r = Ok e -> evaluated_as p m h o r e.
Proof.
  intros H. unfold evaluate_task in H. apply rbind_ok in H as ([[reason fatal] plan] & Hv & H). apply rbind_ok in H as (rk & Hk & [= <-]).
  unfold waiting_task_rank in Hk. apply rbind_ok in Hk as (x & Hx & [= <-]). by constructor.
Qed.

(** Every waiting request is evaluated, and nothing else. *)
Lemma evaluated_all p m h o l es : evaluate_tasks p m h o l = Ok es -> forall i r, l !! i = Some r ->
  exists e, e ∈ es /\ evaluated_as p m h (o + Z.of_nat i) r e.
Proof.
  revert o es. induction l as [|r0 l IH]; intros o es H i r Hr; [done|]. cbn [evaluate_tasks] in H.
  apply rbind_ok in H as (e0 & H0%evaluate_task_ok & H). apply rbind_ok in H as (es' & H1 & [= <-]). destruct i as [|i].
  - injection Hr as ->. exists e0. split; [left|]. by rewrite Z.add_0_r.
  - destruct (IH _ _ H1 i r Hr) as (e & He & Hrest). exists e. split; [by right|]. by rewrite Nat2Z.inj_succ, <- Z.add_1_l, Z.add_assoc.
Qed.

Lemma evaluated_rank p m h o l es e : evaluate_tasks p m h o l = Ok es -> e ∈ es ->
  exists i, l !! i = Some e.(qe_request) /\ evaluated_as p m h (o + Z.of_nat i) e.(qe_request) e.
Proof.
  revert o es. induction l as [|r0 l IH]; intros o es H He; cbn [evaluate_tasks] in H; [injection H as <-; by apply not_elem_of_nil in He|].
  apply rbind_ok in H as (e0 & H0%evaluate_task_ok & H). apply rbind_ok in H as (es' & H1 & [= <-]). apply elem_of_cons in He as [->|He].
  - exists O. rewrite Z.add_0_r, (ev_request _ _ _ _ _ _ H0). done.
  - destruct (IH _ _ H1 He) as (i & Hi & Hrest). exists (S i). split; [done|]. by rewrite Nat2Z.inj_succ, <- Z.add_1_l, Z.add_assoc.
Qed.

(** *** Ranks and the graph *)

Lemma rank_in_nonneg l x : 0 <= rank_in l x.
Proof. induction l as [|y l IH]; cbn [rank_in]; [lia|]. destruct (String.eqb y x); lia. Qed.

Lemma rank_in_app l l' x : (x ∉ l) -> rank_in (l ++ l') x = Z.of_nat (length l) + rank_in l' x.
Proof.
  induction l as [|y l IH]; intros Hx; [done|]. cbn [rank_in app length]. destruct (String.eqb_spec y x) as [->|Hne]; [set_solver|].
  rewrite IH by set_solver. lia.
Qed.

(** A stage that a path leads to has the smaller reverse rank. *)
Lemma rank_follows g ratio p x y a b :
  graph_ok g -> NewManager.plan g ratio = Ok p -> follows g x y -> reverse_rank p x = Ok a -> reverse_rank p y = Ok b -> b < a.
Proof.
  intros Hg Hpl Hxy Ha Hb. destruct (ordered_stages g Hg) as (d & deg & ordered & Ed & _ & Et & Hp & Hk).
  assert (Eo : p.(p_topological) = ordered).
  { unfold NewManager.plan in Hpl. rewrite Ed, Et in Hpl. cbn [rbind] in Hpl. apply rbind_ok in Hpl as (? & _ & [= <-]). done. }
  unfold reverse_rank in Ha, Hb. rewrite Eo in Ha, Hb. case_bool_decide as Ey; [|done]. case_bool_decide as Ex; [|done].
  injection Ha as <-. injection Hb as <-. assert (Hn : NoDup ordered) by (rewrite Hp; apply (go_ok _ Hg)).
  apply list_elem_of_lookup in Ey as [i Hi]. pose proof (path_position _ (go_ok _ Hg) _ _ Hk x y i Hxy Hi) as Hx.
  apply take_drop_middle in Hi. set (l := take i ordered) in *. set (l' := drop (S i) ordered) in *. clearbody l l'. clear Hk Hp Et Eo Ex. subst ordered.
  apply NoDup_app in Hn as (_ & Hd & Hy%NoDup_cons). destruct Hy as [Hy _]. specialize (Hd x Hx).
  rewrite rev_app_distr. cbn [rev]. rewrite <- app_assoc. cbn [app].
  rewrite !rank_in_app by (rewrite list_elem_of_In, <- in_rev, <- list_elem_of_In; set_solver). cbn [rank_in].
  rewrite String.eqb_refl. destruct (String.eqb_spec y x) as [->|_]; [set_solver|]. pose proof (rank_in_nonneg (rev l) x). lia.
Qed.

(** A grant says whether it was made for progress. *)
Lemma grant_task_grants p uuid r plan liveness m g m' : grant_task p uuid r plan liveness m = (Ok g, m') -> g.(tg_granted) = true /\ g.(tg_liveness) = liveness.
Proof.
  unfold grant_task. intros H. do 4 (apply sbind_ok in H as (? & ? & _ & H)). apply sbind_ok in H as (id & s5 & _ & H).
  apply sbind_ok in H as ([slot name] & s6 & _ & H). do 7 (apply sbind_ok in H as (? & ? & _ & H)). by injection H as <- _.
Qed.
