(* ===== verification/ResourceTheorems.v ===== *)
(** * The resource manager keeps its promises

    The theorems about any history of calls of [QueryResourceManager], from
    its creation on a validated graph and allocation. *)

From S2P Require Import Prelude PyStr PyVal PyNum AdmissionLedger QueryGraph GraphProofs GraphTheorems ResourceState ResourceReach ResourcePlacement ResourceManager ResourceBooks ResourceSteps ResourceInv ResourceCalls ResourceGrants ResourceErrors ResourceLimits ResourceHistories ResourceStart ResourceCancel ResourceSearch.

#[local] Open Scope string_scope.
#[local] Open Scope list_scope.
#[local] Open Scope Z_scope.

(** ** A query that runs *)

(** Names of increasing length. *)
Fixpoint uid (n : nat) : string := match n with O => "x" | S n => String "x"%char (uid n) end.

Lemma uid_length n : String.length (uid n) = S n.
Proof. induction n as [|n IH]; [done|]. cbn. by rewrite IH. Qed.
Lemma uid_inj a b : uid a = uid b -> a = b.
Proof. intros H%(f_equal String.length). rewrite !uid_length in H. lia. Qed.
Lemma uid_nonempty n : uid n <> "".
Proof. by destruct n. Qed.

Definition wide_allocation : QueryAllocation :=
  MkAllocation (demo_res 8 800 128) [MkNodeAllocation "n1" (demo_res 8 800 128)]
    [MkPlacement "stage:b" 1 "n1"; MkPlacement "stage:b" 0 "n1"] 1.

Definition demo_ratio : f64 := f64_lit 1 2.

Definition demo_plan : Plan := match NewManager.new demo_graph wide_allocation demo_ratio with
  | Ok (p, _) => p | Raise _ => MkQueryPlan demo_graph demo_ratio ∅ [] [] [] [] [] end.

Definition demo_manager : Manager := match NewManager.new demo_graph wide_allocation demo_ratio with
  | Ok (_, m) => m
  | Raise _ => MkManager wide_allocation false 0 [] ∅ [] [] [] [] [] [] [] (MkBoundedSet 0 []) [] [] [] [] (MkBoundedSet 0 []) None None 0 0 false false "" 0
  end.

Definition demo_request (stage task : string) : TaskRequest := MkTaskRequest "q" stage task "0" None None.

(** The stages become ready, and a task of each asks to run. *)
Definition demo_calls : list call :=
  [UpdateStageState "stage:a" true None false; UpdateStageState "stage:b" true (Some true) false;
   UpdateStageState "stage:c" true None false; TryAcquireTask (demo_request "stage:a" "t1");
   TryAcquireTask (demo_request "stage:b" "t2"); TryAcquireTask (demo_request "stage:b" "t3")].

(** What the theorems are about: a manager created on a validated graph. *)
Record created (uuid : nat -> string) (g : QueryExecutionGraph) (a : QueryAllocation) (ratio : f64) (p : Plan) (m : Manager) : Prop := {
  cr_inj : forall x y, uuid x = uuid y -> x = y;
  cr_named : forall n, uuid n <> "";
  cr_graph : Graph.validate g = Ok tt;
  cr_allocation : sound_allocation a;
  cr_new : NewManager.new g a ratio = Ok (p, m);
}.

Section Created.
Context {uuid : nat -> string} {g : QueryExecutionGraph} {a : QueryAllocation} {ratio : f64} {p : Plan} {m : Manager}.
Context (H : created uuid g a ratio p m).

Lemma created_bounds : forall id s, od_get id (plan_specs p) = Some s -> 0 <= s.(sp_actor_prefetch_depth) /\ 0 <= Stage.output_window_bytes s.
Proof using H.
  destruct H as [_ _ Hg _ Hn]. destruct (new_parts _ _ _ _ _ Hn) as (Ep & _). eapply (plan_bounds p); [reflexivity|]. rewrite Ep.
  apply validate_iff in Hg. apply Hg.
Qed.

Lemma created_good : good p uuid m.
Proof using H. destruct H as [_ _ Hg [Ha _] Hn]. by eapply new_good. Qed.

Lemma created_run cs : Forall sound_call cs -> good p uuid (run p uuid cs m).
Proof using H. intros Hcs. eapply run_good; [apply H|apply H|apply created_bounds|apply created_good|done]. Qed.
End Created.

Lemma demo_start : NewManager.new demo_graph wide_allocation demo_ratio = Ok (demo_plan, demo_manager).
Proof.
  assert (Hok : match NewManager.new demo_graph wide_allocation demo_ratio with Ok _ => true | Raise _ => false end = true) by (vm_compute; reflexivity).
  unfold demo_plan, demo_manager. by destruct (NewManager.new demo_graph wide_allocation demo_ratio) as [[p m]|e].
Qed.

Lemma demo_created : created uid demo_graph wide_allocation demo_ratio demo_plan demo_manager.
Proof.
  constructor; [apply uid_inj|apply uid_nonempty|apply demo_graph_valid| |apply demo_start].
  split; [vm_compute; reflexivity|]. intros n ->%list_elem_of_singleton []; vm_compute; discriminate.
Qed.

(** ** Theorems *)

(** C14: from its creation on, a manager never commits more bytes than it was
    given: after any history of calls without new allocations in which
    [finish_task_with_outputs] is only called for tasks that have leased no
    output block before and borrow no credit ([limited_run]), what the placed
    actors, credits, tasks and outputs hold in heap and in the object store
    is within the query's allocation, and what they hold on a node is within
    its share of that node; and so is the usage the manager computes.  A task
    that finishes with outputs beside blocks it leased earlier can exceed
    them ([finish_beyond_allocation]). *)
Theorem usage_within_allocation uuid g a ratio p m cs :
  created uuid g a ratio p m -> limited_run p uuid m cs ->
  let m' := run p uuid cs m in
  forall d, footprint d on_query m' <= vb d a.(al_resources) /\
    (forall u, query_usage m' = Ok u -> vb d u <= vb d a.(al_resources)) /\
    (forall n cap, Allocation.resources_for_node a n = Ok cap ->
      (footprint d (on_node n) m' <= vb d cap) /\ forall u, node_usage m' n = Ok u -> vb d u <= vb d cap).
Proof.
  intros Hc Hl m' d. pose proof (created_good Hc) as Hm. pose proof (created_bounds Hc) as Hb. destruct Hc as [Hi Hn Hg Ha Hnew].
  destruct (limited_run_fits p uuid Hi Hn Hb cs m Hm (new_fits _ _ _ _ _ Hg Ha Hnew) Hl) as (Hgood & Hf & Hal). fold m' in Hgood, Hf, Hal.
  destruct (new_parts _ _ _ _ _ Hnew) as (_ & _ & Hma & _). destruct (Hf d) as (H1 & H2 & _). unfold query_limits in H1. rewrite Hal, Hma in H1.
  pose proof (co_good p uuid m' Hgood) as Hco. split; [exact H1|]. split.
  - intros u Hu. by rewrite (query_usage_vb uuid Hn m' Hco d u Hu).
  - intros n cap Hcap. assert (Hle : footprint d (on_node n) m' <= vb d cap).
    { apply H2. unfold Allocation.resources_for_node in Hcap. destruct (find _ _) as [nd|] eqn:Ef; [|done]. injection Hcap as <-.
      apply (node_found p uuid m' Hgood). by rewrite Hal, Hma. }
    split; [exact Hle|]. intros u Hu. by rewrite (node_usage_vb uuid Hn m' Hco d n u Hu).
Qed.

Lemma usage_within_allocation_witness :
  limited_run demo_plan uid demo_manager demo_calls /\
  (exists u, query_usage (run demo_plan uid demo_calls demo_manager) = Ok u /\ vb Heap u = 200 /\ vb Objects u = 32) /\
  (forall u, query_usage (run demo_plan uid demo_calls demo_manager) = Ok u -> vb Heap u <= 800).
Proof.
  assert (Hl : limited_run demo_plan uid demo_manager demo_calls) by (vm_compute; tauto).
  split; [exact Hl|]. split.
  - eexists. split; [vm_compute; reflexivity|]. split; reflexivity.
  - intros u Hu. exact (proj1 (proj2 (usage_within_allocation uid demo_graph wide_allocation demo_ratio demo_plan demo_manager demo_calls demo_created Hl Heap)) u Hu).
Defined.

(** C15: whatever happened before, new allocations and tasks that finished
    beyond their charge included, a call makes the query hold no more bytes
    than it held or than its allocation allows, in total and on every node,
    unless it is one of the two that are not held to the limits
    ([limited_call]): a new allocation, and [finish_task_with_outputs] for a
    task that has leased output blocks before or borrows a credit. *)
Theorem calls_respect_limits uuid g a ratio p m cs c :
  created uuid g a ratio p m -> Forall sound_call cs -> limited_call (run p uuid cs m) c ->
  let m1 := run p uuid cs m in let m2 := (do_call p uuid c m1).2 in
  forall d,
    (forall u1 u2, query_usage m1 = Ok u1 -> query_usage m2 = Ok u2 -> vb d u2 <= Z.max (vb d u1) (vb d (query_limits m1))) /\
    (forall n u1 u2, node_usage m1 n = Ok u1 -> node_usage m2 n = Ok u2 ->
       vb d u2 <= Z.max (vb d u1) (vb d (od_get_default n Res.zero (allocation_by_node m1)))).
Proof.
  intros Hc Hcs Hl m1 m2 d. pose proof (created_run Hc cs Hcs) as Hm. fold m1 in Hm, Hl. pose proof (created_bounds Hc) as Hb.
  destruct Hc as [Hi Hn _ _ _]. destruct (limited_bounded p uuid Hi Hn Hb c m1 Hm Hl) as [[Hinv Hw] _]. fold m2 in Hinv, Hw.
  pose proof (co_good p uuid m1 Hm) as Hco1. assert (Hco2 : coherent uuid m2) by apply Hinv. destruct (Hw d) as [W1 W2]. split.
  - intros u1 u2 H1 H2. rewrite (query_usage_vb uuid Hn m1 Hco1 d u1 H1), (query_usage_vb uuid Hn m2 Hco2 d u2 H2).
    unfold on_query in W1. lia.
  - intros n u1 u2 H1 H2. rewrite (node_usage_vb uuid Hn m1 Hco1 d n u1 H1), (node_usage_vb uuid Hn m2 Hco2 d n u2 H2).
    unfold on_node in W2. unfold od_get_default. destruct (W2 n) as [?|(cap & -> & ?)]; cbn; lia.
Qed.

(** The allocation shrinks under a running query, and a task asks in vain. *)
Definition tight_allocation : QueryAllocation :=
  MkAllocation (demo_res 4 150 128) [MkNodeAllocation "n1" (demo_res 4 150 128)]
    [MkPlacement "stage:b" 1 "n1"; MkPlacement "stage:b" 0 "n1"] 2.

Definition shrunk_calls : list call := demo_calls ++ [UpdateAllocation tight_allocation true].

Lemma calls_respect_limits_witness :
  let m1 := run demo_plan uid shrunk_calls demo_manager in
  (exists u, query_usage m1 = Ok u /\ vb Heap u = 200 /\ vb Heap (query_limits m1) = 150) /\
  forall u, query_usage (do_call demo_plan uid (TryAcquireTask (demo_request "stage:c" "t4")) m1).2 = Ok u -> vb Heap u <= 200.
Proof.
  cbv zeta. assert (Hs : Forall sound_call shrunk_calls) by (repeat constructor; vm_compute; reflexivity).
  assert (Hu : exists u, query_usage (run demo_plan uid shrunk_calls demo_manager) = Ok u /\ vb Heap u = 200 /\
    vb Heap (query_limits (run demo_plan uid shrunk_calls demo_manager)) = 150)
    by (eexists; split; [vm_compute; reflexivity|]; split; vm_compute; reflexivity).
  split; [exact Hu|]. intros u Hu2. destruct Hu as (u1 & H1 & E1 & E2).
  pose proof (proj1 (calls_respect_limits uid demo_graph wide_allocation demo_ratio demo_plan demo_manager shrunk_calls
    (TryAcquireTask (demo_request "stage:c" "t4")) demo_created Hs I Heap) u1 u H1 Hu2) as Hle. rewrite E1, E2 in Hle. exact Hle.
Defined.

(** C16: the manager never contradicts itself: whatever calls came before, no
    call raises one of the errors by which the code reports that an index of
    its own is inconsistent, that a slot or credit changed during an atomic
    admission, or that an actor it has just selected is not free. *)
Theorem no_internal_error uuid g a ratio p m cs c msg :
  created uuid g a ratio p m -> Forall sound_call cs -> sound_call c ->
  (do_call p uuid c (run p uuid cs m)).1 = Raise (RuntimeError msg) -> msg ∉ internal_errors.
Proof.
  intros Hc Hcs Hs He. pose proof (created_run Hc cs Hcs) as Hm. pose proof (created_bounds Hc) as Hb. destruct Hc as [Hi Hn _ _ _].
  destruct (call_good p uuid Hi Hn Hb c _ Hm Hs) as [_ Hcalm]. exact (Hcalm _ He).
Qed.

Lemma no_internal_error_witness :
  (do_call demo_plan uid (FinishTaskWithOutputs "zz" "0" []) (run demo_plan uid demo_calls demo_manager)).1 =
    Raise (RuntimeError "FTE task lease is not active: zz") /\
  ("FTE task lease is not active: zz" ∉ internal_errors).
Proof.
  assert (He : (do_call demo_plan uid (FinishTaskWithOutputs "zz" "0" []) (run demo_plan uid demo_calls demo_manager)).1 =
    Raise (RuntimeError "FTE task lease is not active: zz")) by (vm_compute; reflexivity).
  split; [exact He|]. assert (Hs : Forall sound_call demo_calls) by (repeat constructor).
  exact (no_internal_error uid demo_graph wide_allocation demo_ratio demo_plan demo_manager demo_calls
    (FinishTaskWithOutputs "zz" "0" []) _ demo_created Hs I He).
Defined.

(** The leases on an actor: the one that runs, and those that queue. *)
Definition slot_leases (m : Manager) (slot : string * Z) : list string :=
  match od_get slot m.(m_active_slots) with Some x => [x] | None => [] end ++ od_get_default slot [] m.(m_queued_slots).

(** C17: an actor is never lost or shared: after any calls, the leases booked
    on an actor are exactly the leases granted for it, each once, one of them
    running and the others queued, so an idle actor has no queue; and there
    are never more of them than the pool's prefetch depth. *)
Theorem actor_slots_exact uuid g a ratio p m cs :
  created uuid g a ratio p m -> Forall sound_call cs ->
  let m' := run p uuid cs m in
  forall slot,
    NoDup (slot_leases m' slot) /\
    (forall x, x ∈ slot_leases m' slot <-> exists l, od_get x m'.(m_task_leases) = Some l /\
       l.(tl_stage_id) = slot.1 /\ l.(tl_actor_index) = Some slot.2) /\
    (od_get slot m'.(m_active_slots) = None -> slot_leases m' slot = []) /\
    (forall s, s ∈ g.(g_stages) -> s.(sp_stage_id) = slot.1 -> Z.of_nat (length (slot_leases m' slot)) <= s.(sp_actor_prefetch_depth)).
Proof.
  intros Hc Hcs m' slot. pose proof (created_run Hc cs Hcs) as Hm. fold m' in Hm. pose proof (iv_slots _ _ _ (proj1 (gd_inv _ _ _ Hm))) as Hs.
  unfold slot_leases. set (q := od_get_default slot [] (m_queued_slots m')).
  assert (Hq : NoDup q /\ (forall x, x ∈ q -> lease_at m' slot x) /\ match od_get slot m'.(m_active_slots) with Some y => y ∉ q | None => q = [] end).
  { subst q. unfold od_get_default. destruct (od_get slot m'.(m_queued_slots)) as [q|] eqn:Eq; cbn.
    - destruct (sl_queue _ Hs slot q Eq) as (_ & H2 & H3 & y & -> & H5). done.
    - split; [constructor|]. split; [intros x Hx; by apply not_elem_of_nil in Hx|]. destruct (od_get slot m'.(m_active_slots)); [apply not_elem_of_nil|done]. }
  destruct Hq as (Hnd & Hat & Hown). split; [|split; [|split]].
  - destruct (od_get slot m'.(m_active_slots)); [|done]. apply NoDup_cons. done.
  - intros x. split.
    + intros [Hx|Hx]%elem_of_app; [|by apply Hat]. destruct (od_get slot m'.(m_active_slots)) as [y|] eqn:Ey; [|by apply not_elem_of_nil in Hx].
      apply list_elem_of_singleton in Hx as ->. by apply (sl_active _ Hs).
    + intros (l & Hl & Hst & Hi). rewrite elem_of_app. destruct (sl_lease _ Hs _ _ _ Hl Hi) as [Ha|Ha]; rewrite Hst in Ha; destruct slot; cbn in *.
      * left. rewrite Ha. left.
      * by right.
  - intros E. rewrite E in *. by rewrite Hown.
  - intros s Hin Hid. assert (Hsp : od_get slot.1 (specs m') = Some s).
    { rewrite (iv_specs _ _ _ (proj1 (gd_inv _ _ _ Hm))). unfold plan_specs. destruct Hc as [_ _ Hg _ Hn].
      destruct (new_parts _ _ _ _ _ Hn) as (-> & _). apply validate_iff in Hg. apply od_elem_get.
      - unfold od_wf, od_keys. rewrite map_map. apply (so_ids _ (go_ok _ Hg)).
      - apply list_elem_of_fmap. exists s. by rewrite <- Hid. }
    pose proof (sl_depth _ Hs slot s Hsp) as Hd. unfold actor_slot_lease_count, od_mem in Hd. fold q in Hd. rewrite length_app.
    destruct (od_get slot m'.(m_active_slots)); cbn in *; lia.
Qed.

Lemma actor_slots_exact_witness :
  slot_leases (run demo_plan uid demo_calls demo_manager) ("stage:b", 0) = ["xx"] /\
  Z.of_nat (length (slot_leases (run demo_plan uid demo_calls demo_manager) ("stage:b", 0))) <= 1.
Proof.
  split; [vm_compute; reflexivity|]. assert (Hs : Forall sound_call demo_calls) by (repeat constructor).
  destruct (actor_slots_exact uid demo_graph wide_allocation demo_ratio demo_plan demo_manager demo_calls demo_created Hs ("stage:b", 0))
    as (_ & _ & _ & Hd).
  apply (Hd (demo_stage "b" "ray_actor" ["a"])); [right; left|reflexivity].
Defined.

(** C18: the usage the manager reports counts everything once: computed by
    loops over actors, credits, tasks and outputs with their exceptions for
    borrowed credits and idle outputs, it equals, in bytes, the sum of what
    the placed actors hold, of the larger of what a credit reserves and what
    its borrower or the outputs left behind need, of what every other task
    was granted with the larger of its window and its live outputs, and of
    the outputs that nobody accounts for any more. *)
Theorem usage_counts_once uuid g a ratio p m cs :
  created uuid g a ratio p m -> Forall sound_call cs ->
  let m' := run p uuid cs m in
  forall d, (forall u, query_usage m' = Ok u -> vb d u = footprint d (fun _ => true) m') /\
    (forall n u, node_usage m' n = Ok u -> vb d u = footprint d (fun node => String.eqb node n) m').
Proof.
  intros Hc Hcs m' d. pose proof (created_run Hc cs Hcs) as Hm. fold m' in Hm. pose proof (co_good p uuid m' Hm) as Hco. pose proof (cr_named _ _ _ _ _ _ Hc) as Hn.
  split; [intros u Hu; exact (query_usage_vb uuid Hn m' Hco d u Hu)|]. intros n u Hu. exact (node_usage_vb uuid Hn m' Hco d n u Hu).
Qed.

(** A worker task brings a continuation credit, a Ray task borrows it and
    leases an output block, and a task of the last stage runs beside them. *)
Definition credit_allocation : QueryAllocation :=
  MkAllocation (demo_res 8 800 128) [MkNodeAllocation "n1" (demo_res 8 800 128)] [] 1.

Definition credit_start : Plan * Manager :=
  match NewManager.new credit_graph credit_allocation demo_ratio with Ok r => r | Raise _ => (demo_plan, demo_manager) end.

Definition credit_calls : list call :=
  [UpdateStageState "stage:a" true None false; UpdateStageState "stage:t" true None false; UpdateStageState "stage:z" true None false;
   TryAcquireTask (demo_request "stage:a" "t1"); TryAcquireTask (demo_request "stage:t" "t2");
   TryAcquireOutputBlock (MkOutputRequest "q" "stage:t" "xxx" "0" "b1" 4); TryAcquireTask (demo_request "stage:z" "t3")].

Lemma credit_created : created uid credit_graph credit_allocation demo_ratio credit_start.1 credit_start.2.
Proof.
  constructor; [apply uid_inj|apply uid_nonempty|vm_compute; reflexivity| |].
  - split; [vm_compute; reflexivity|]. intros n ->%list_elem_of_singleton []; vm_compute; discriminate.
  - assert (Hok : match NewManager.new credit_graph credit_allocation demo_ratio with Ok _ => true | Raise _ => false end = true) by (vm_compute; reflexivity).
    unfold credit_start. by destruct (NewManager.new credit_graph credit_allocation demo_ratio) as [[p m]|e].
Qed.

Lemma usage_counts_once_witness :
  let m := run credit_start.1 uid credit_calls credit_start.2 in
  (cc_borrowed_by <$> od_values m.(m_credits)) = [Some "xxx"] /\
  exists u, query_usage m = Ok u /\ vb Heap u = 300 /\ vb Heap u = footprint Heap (fun _ => true) m.
Proof.
  cbv zeta. split; [vm_compute; reflexivity|]. assert (Hs : Forall sound_call credit_calls) by (repeat constructor).
  pose proof (proj1 (usage_counts_once uid credit_graph credit_allocation demo_ratio credit_start.1 credit_start.2 credit_calls credit_created Hs Heap)) as H.
  assert (Hu : exists u, query_usage (run credit_start.1 uid credit_calls credit_start.2) = Ok u /\ vb Heap u = 300)
    by (eexists; split; [vm_compute; reflexivity|reflexivity]).
  destruct Hu as (u & Hu & E). exists u. split; [exact Hu|]. split; [exact E|]. exact (H u Hu).
Defined.

Lemma settled_run {uuid g a ratio p m} cs : created uuid g a ratio p m -> Forall sound_call cs -> settled_end (run p uuid cs m).
Proof.
  intros Hc Hcs. pose proof (created_good Hc) as Hm. pose proof (created_bounds Hc) as Hb.
  assert (Hs : settled_end m) by (intros E; destruct (new_parts _ _ _ _ _ (cr_new _ _ _ _ _ _ Hc)) as (_ & _ & _ & _ & _ & _ & _ & _ & _ & _ & _ & _ & _ & _ & E'); congruence).
  destruct Hc as [Hi Hn _ _ _]. clear -Hi Hn Hb Hm Hs Hcs. revert m Hm Hs. induction Hcs as [|c cs H1 H2 IH]; intros m Hm Hs; [done|]. cbn.
  apply IH; [by apply (call_good p uuid Hi Hn Hb)|]. apply settled_end_call; [apply Hm|done].
Qed.

(** C19: cancellation takes everything back and is final: once a query is
    cancelled, no lease, credit, booked actor or output is left, whatever is
    called afterwards, new allocations included, and every request for a task
    or an output block is refused for good without a trace. *)
Theorem cancel_is_final uuid g a ratio p m before reason after :
  created uuid g a ratio p m -> Forall sound_call before ->
  let m' := run p uuid (before ++ Cancel reason :: after) m in
  m'.(m_cancelled) = true /\ m'.(m_task_leases) = [] /\ m'.(m_credits) = [] /\ m'.(m_active_slots) = [] /\ m'.(m_queued_slots) = [] /\
  m'.(m_active_attempts) = [] /\ m'.(m_output_leases) = [] /\ m'.(m_output_by_block) = [] /\
  (forall r, try_acquire_task p uuid r m' = (Ok (deny "query_cancelled" true), m')) /\
  (forall r, try_acquire_output_block p uuid r m' = (Ok (deny_output "query_cancelled" true), m')).
Proof.
  intros Hc Hb m'. assert (He : emptied m').
  { subst m'. unfold run. rewrite fold_left_app. cbn [fold_left]. apply emptied_run, cancel_cancels. by apply (settled_run _ Hc). }
  pose proof He as []. do 8 (split; [done|]). split; intros r; [by apply cancelled_try|by apply cancelled_try_output].
Qed.

Lemma cancel_is_final_witness :
  (run demo_plan uid demo_calls demo_manager).(m_task_leases) <> [] /\
  (run demo_plan uid (demo_calls ++ [Cancel "user"; TryAcquireTask (demo_request "stage:c" "t9")]) demo_manager).(m_task_leases) = [].
Proof.
  split.
  - assert (Hn : negb (bool_decide (length (run demo_plan uid demo_calls demo_manager).(m_task_leases) = O)) = true) by (vm_compute; reflexivity).
    intros E. rewrite E in Hn. discriminate Hn.
  - assert (Hs : Forall sound_call demo_calls) by (repeat constructor).
    exact (proj1 (proj2 (cancel_is_final uid demo_graph wide_allocation demo_ratio demo_plan demo_manager demo_calls "user"
      [TryAcquireTask (demo_request "stage:c" "t9")] demo_created Hs))).
Defined.

(** C20: the search that protects downstream work is exact: with its memory of
    failed states, which it compares up to the sign of a zero, it answers yes
    exactly when the reserved bundles, in the order in which it takes them,
    can be placed one after the other on nodes they allow. *)
Theorem downstream_search_exact m remaining reservations b :
  remaining_preserves_downstream m remaining reservations = Ok b ->
  exists ordered, Permutation ordered reservations /\
    forall initial, rmapM (fun node => od_item node remaining) (sorted_str (od_keys remaining)) = Ok initial ->
    b = true <-> placeable (sorted_str (od_keys remaining)) ordered initial.
Proof.
  unfold remaining_preserves_downstream. case_bool_decide as En.
  - intros [= <-]. apply length_zero_iff_nil in En. subst. exists []. split; [done|]. intros initial _. split; [|done]. intros _. constructor.
  - intros H. apply rbind_ok in H as (ordered & Ho & H). apply rbind_ok in H as (initial & Hi & H). apply rbind_ok in H as ([found f] & Hp & [= <-]).
    exists ordered. split; [by eapply py_sorted_by_perm|]. intros initial' Hi'. rewrite Hi in Hi'. injection Hi' as <-.
    eapply (place_iff _ _ ordered ordered); [by exists []| |exact Hp]. intros n rem Hn. by apply not_elem_of_nil in Hn.
Qed.

(** Two bundles for two nodes: the first fits both, the second only one. *)
Definition demo_bundles : list DownstreamReservation :=
  [MkReservation "r1" ["stage:b"] (demo_res 1 10 0) ["n1"; "n2"]; MkReservation "r2" ["stage:c"] (demo_res 1 30 0) ["n1"; "n2"]].

Lemma downstream_search_exact_witness :
  remaining_preserves_downstream demo_manager [("n2", demo_res 1 10 0); ("n1", demo_res 1 30 0)] demo_bundles = Ok true /\
  exists ordered, Permutation ordered demo_bundles /\ placeable ["n1"; "n2"] ordered [demo_res 1 30 0; demo_res 1 10 0].
Proof.
  assert (Hs : remaining_preserves_downstream demo_manager [("n2", demo_res 1 10 0); ("n1", demo_res 1 30 0)] demo_bundles = Ok true) by (vm_compute; reflexivity).
  split; [exact Hs|]. destruct (downstream_search_exact _ _ _ _ Hs) as (ordered & Hp & H). exists ordered. split; [exact Hp|].
  apply (H [demo_res 1 30 0; demo_res 1 10 0]); vm_compute; reflexivity.
Defined.

(** C21: among the tasks that wait, the one nearest to the end of the query is
    granted first: a task granted from the queue is one of the caller's; on a
    normal grant, no path leads from its stage to the stage of another waiting
    task that could be granted, and of its own stage no grantable task came
    before it; and a grant beyond a soft limit, made for progress, is only
    made when nothing that waits could be granted normally. *)
Theorem queued_grant_downstream_first g ratio p uuid candidates m r grant m' :
  Graph.validate g = Ok tt -> NewManager.plan g ratio = Ok p ->
  try_acquire_next_queued_task p uuid candidates m = (Ok (Some (r, grant)), m') -> grant.(tg_granted) = true ->
  exists i, waiting_requests m !! i = Some r /\ (r.(tr_task_id), r.(tr_attempt_id)) ∈ candidates /\
  if grant.(tg_liveness) then
    forall r' reason plan, r' ∈ waiting_requests m -> task_block_reason p m r' false = Ok (reason, false, plan) -> reason <> None
  else
    (exists plan, task_block_reason p m r false = Ok (None, false, plan)) /\
    forall j r' plan, waiting_requests m !! j = Some r' -> task_block_reason p m r' false = Ok (None, false, plan) ->
      ~ follows g r.(tr_stage_id) r'.(tr_stage_id) /\ (r'.(tr_stage_id) = r.(tr_stage_id) -> (i <= j)%nat).
Proof.
  intros Hvg%validate_iff Hpl H Hg. unfold try_acquire_next_queued_task in H. apply sbind_ok in H as (m1 & m2 & [= <- <-] & H).
  rewrite sbind_lift in H. destruct (evaluate_waiting p m false) as [es|] eqn:Ees; [|done]. rewrite sbind_lift in H.
  destruct (first_by_rank _) as [[f|]|]; [injection H as _ <- _; discriminate Hg| |done]. rewrite sbind_lift in H.
  destruct (select_evaluation p m es) as [[e|]|] eqn:Es; [|done|done]. apply select_evaluation_least in Es as [He Hsel].
  destruct (evaluated_rank p m _ _ _ _ _ Ees He) as (i & Hin & [_ Hv Hr1 Hr2 Hr3]).
  case_bool_decide as Eo; cbn [negb] in H; [|injection H as _ <- _; discriminate Hg]. case_bool_decide as En.
  - apply sbind_ok in H as (g1 & m3 & Hgr & [= <- <- _]). apply grant_task_grants in Hgr as [_ ->].
    exists i. split; [done|]. split; [done|]. destruct Hsel as [[Ha Hl]|[Hs _]].
    2: { unfold softly_blocked in Hs. rewrite En, andb_false_r in Hs. discriminate Hs. }
    unfold admissible in Ha. apply andb_true_iff in Ha as [Hf%negb_true_iff _]. rewrite En, Hf in Hv. split; [eauto|].
    intros j r' plan Hr' Hv'. destruct (evaluated_all p m _ _ _ _ Ees j r' Hr') as (e' & He' & [<- Hv2 Hk1 Hk2 Hk3]).
    rewrite Hv' in Hv2. injection Hv2 as E1 E2 _. assert (Ha' : admissible e' = true) by (unfold admissible; by rewrite <- E1, <- E2).
    specialize (Hl e' He' Ha'). unfold rank_le in Hl. split.
    + intros Hfo. pose proof (rank_follows _ _ _ _ _ _ _ Hvg Hpl Hfo Hr1 Hk1). lia.
    + intros Est. rewrite Est in Hk1, Hk2. rewrite Hr1 in Hk1. injection Hk1 as Hk1. lia.
  - destruct (bool_decide _); [injection H as _ <- _; discriminate Hg|]. destruct (liveness_not_needed m); [injection H as _ <- _; discriminate Hg|].
    apply sbind_ok in H as (g1 & m3 & Hgr & [= <- <- _]). apply grant_task_grants in Hgr as [_ ->].
    exists i. split; [done|]. split; [done|]. destruct Hsel as [[Ha _]|[_ Hno]].
    { unfold admissible in Ha. apply andb_true_iff in Ha as [_ Ha%bool_decide_eq_true]. done. }
    intros r' reason plan [j Hr']%list_elem_of_lookup Hv' ->. destruct (evaluated_all p m _ _ _ _ Ees j r' Hr') as (e' & He' & [<- Hv2 _ _ _]).
    rewrite Hv' in Hv2. injection Hv2 as E1 E2 _. specialize (Hno e' He'). unfold admissible in Hno. by rewrite <- E1, <- E2 in Hno.
Qed.

(** Two tasks wait, the one that came first upstream. *)
Definition waiting_manager : Manager :=
  run demo_plan uid [UpdateStageState "stage:a" true None false; UpdateStageState "stage:c" true None false;
    NoteTaskWaiting (demo_request "stage:a" "t1"); NoteTaskWaiting (demo_request "stage:c" "t2")] demo_manager.

Lemma new_plan g a ratio p m : NewManager.new g a ratio = Ok (p, m) -> NewManager.plan g ratio = Ok p.
Proof.
  unfold NewManager.new. intros H. apply rbind_ok in H as (u & _ & H). apply rbind_ok in H as ([] & _ & H).
  apply rbind_ok in H as (pl & -> & H). apply rbind_ok in H as (at' & _ & H). apply rbind_ok in H as (bl & _ & [= <- _]). done.
Qed.

Lemma queued_grant_downstream_first_witness :
  exists grant m' i, try_acquire_next_queued_task demo_plan uid [("t1", "0"); ("t2", "0")] waiting_manager =
    (Ok (Some (demo_request "stage:c" "t2", grant)), m') /\ grant.(tg_granted) = true /\
    waiting_requests waiting_manager !! i = Some (demo_request "stage:c" "t2").
Proof.
  assert (Hr : match (try_acquire_next_queued_task demo_plan uid [("t1", "0"); ("t2", "0")] waiting_manager).1 with
    | Ok (Some (r, g)) => bool_decide (r = demo_request "stage:c" "t2") && g.(tg_granted) | _ => false end = true) by (vm_compute; reflexivity).
  destruct (try_acquire_next_queued_task demo_plan uid [("t1", "0"); ("t2", "0")] waiting_manager) as [[[[r g]|]|e] m'] eqn:E;
    cbn [fst] in Hr; [|discriminate Hr|discriminate Hr]. apply andb_true_iff in Hr as [Hr Hg]. apply bool_decide_eq_true in Hr. subst r.
  destruct (queued_grant_downstream_first demo_graph demo_ratio _ _ _ _ _ _ _ demo_graph_valid (new_plan _ _ _ _ _ demo_start) E Hg) as (i & Hi & _).
  exists g, m', i. split; [reflexivity|]. split; [exact Hg|]. exact Hi.
Defined.
