(* ===== verification/ClusterCoordinator.v ===== *)
(** * Sharing the cluster between queries
    ([duckdb/runners/ray/cluster_resource_coordinator.py] and
    [duckdb/runners/ray/worker_memory.py])

    [ClusterQueryResourceCoordinator] owns the capacity of the nodes and gives
    each registered query an allocation: first the actors that are already
    placed, then the minimum bundles of the queries by priority and age, and
    what is left by weighted dominant-resource fairness, computed by bisection
    in binary64.  Every change of the queries or of the nodes rebalances all
    of it and publishes allocations of a new generation.

    The lock makes each method one step.  Times are given by the caller, as
    the [now] arguments are.  Local dictionaries of [_rebalance_locked] are
    the fields of [Draft]; [state.actor_placement_lost] and the fields that
    the last loop assigns are changed in place, so that they stay changed when
    a later statement raises. *)

From S2P Require Import Prelude PyStr PyVal PyNum QueryGraph ResourceState ResourcePlacement.

#[local] Open Scope string_scope.
#[local] Open Scope list_scope.
#[local] Open Scope Z_scope.

Module Cluster.

(** ** Data *)

Record NodeCapacity := MkNodeCapacity {
  nc_node_id : string;
  nc_resources : ResourceVector;
  nc_labels : list string;
}.

Definition new_node_capacity (node_id : string) (resources : ResourceVector) (labels : list string) : result NodeCapacity :=
  let node := strip node_id in
  let* _ := raise_if (String.eqb node "") (ValueError "node_id must be non-empty") in
  Ok (MkNodeCapacity node resources
        (sorted_str (remove_dups (List.filter (fun l => negb (String.eqb l "")) labels)))).

Record ActorResourceBundle := MkBundle {
  ab_stage_id : string;
  ab_actor_index : Z;
  ab_resources : ResourceVector;
}.

Definition new_bundle (stage_id : string) (actor_index : Z) (resources : ResourceVector) : result ActorResourceBundle :=
  let stage := strip stage_id in
  let* _ := raise_if (String.eqb stage "") (ValueError "actor resource bundle stage_id must be non-empty") in
  let* _ := raise_if (actor_index <? 0) (ValueError "actor resource bundle actor_index must be >= 0") in
  let* _ := raise_if (Res.is_zero resources) (ValueError "actor resource bundle must own non-zero resources") in
  Ok (MkBundle stage actor_index resources).

Record QueryDemand := MkDemand {
  qd_query_id : string;
  qd_minimum : ResourceVector;
  qd_desired : ResourceVector;
  qd_weight : f64;
  qd_priority : Z;
  qd_actor_bundles : list ActorResourceBundle;
  qd_task_bundles : list ResourceVector;
}.

(** [_sum_resources] *)
Definition sum_resources (l : list ResourceVector) : result ResourceVector := rfoldM Res.add Res.zero l.

(** [_positive_difference] *)
Definition positive_difference (a b : ResourceVector) : result ResourceVector :=
  Res.new (f64_max f64_zero (f64_sub a.(r_cpu) b.(r_cpu))) (f64_max f64_zero (f64_sub a.(r_gpu) b.(r_gpu)))
    (Z.max 0 (a.(r_heap_bytes) - b.(r_heap_bytes))) (Z.max 0 (a.(r_object_store_bytes) - b.(r_object_store_bytes))).

(** [_EPSILON] *)
Definition eps : f64 := f64_lit 1 1000000000.

Definition bundle_key (b : ActorResourceBundle) : string * Z := (b.(ab_stage_id), b.(ab_actor_index)).

Definition new_demand (query_id : string) (minimum desired : ResourceVector) (weight : f64) (priority : Z)
    (actor_bundles : list ActorResourceBundle) (task_bundles : list ResourceVector) : result QueryDemand :=
  let query := strip query_id in
  let fail b m := raise_if b (ValueError m) in
  let* _ := fail (String.eqb query "") "query_id must be non-empty" in
  let* _ := fail (negb (Res.fits_within minimum desired))
    ("minimum query demand exceeds desired demand for "
     +:+ comma_join (map dimension_name (Res.exceeded_dimensions minimum desired))) in
  let* _ := fail (negb (f64_isfinite weight) || f64_le weight f64_zero) "weight must be finite and > 0" in
  let* _ := fail (has_duplicates (map bundle_key actor_bundles))
    "actor resource bundles contain duplicate stage/index identities" in
  let* actor_total := sum_resources (map ab_resources actor_bundles) in
  let* task_total := sum_resources task_bundles in
  let* bundle_total := Res.add actor_total task_total in
  let* _ := fail (negb (res_eqb bundle_total minimum))
    "actor_bundles plus task_bundles must exactly equal minimum query resources" in
  let* _ := fail (negb (Res.fits_within bundle_total desired)) "minimum placement bundles exceed desired query resources" in
  let* _ := fail (f64_lt (f64_add desired.(r_gpu) eps) actor_total.(r_gpu)) "actor bundles exceed desired GPU resources" in
  Ok (MkDemand query minimum desired weight priority actor_bundles task_bundles).

Inductive phase := PENDING_RESOURCES | RUNNING | ACTOR_PLACEMENT_LOST | ALLOCATION_DEBT.

#[export] Instance phase_eq_dec : EqDecision phase.
Proof. solve_decision. Defined.

Record QueryState := MkQueryState {
  qs_demand : QueryDemand;
  qs_sequence : Z;
  qs_observed_usage : ResourceVector;
  qs_allocation : QueryAllocation;
  qs_node_allocations : list (string * ResourceVector);
  qs_actor_placements : list ActorPlacement;
  qs_allocation_debt : ResourceVector;
  qs_state : phase;
  qs_rejection_reason : string;
  qs_actor_placement_lost : bool;
  qs_expires_at : f64;
}.

#[export] Instance QueryState_eta : Eta QueryState :=
  fun r => MkQueryState r.(qs_demand) r.(qs_sequence) r.(qs_observed_usage) r.(qs_allocation) r.(qs_node_allocations)
    r.(qs_actor_placements) r.(qs_allocation_debt) r.(qs_state) r.(qs_rejection_reason) r.(qs_actor_placement_lost) r.(qs_expires_at).

(** A query as it is registered. *)
Definition new_state (demand : QueryDemand) (sequence : Z) (expires_at : f64) : QueryState :=
  MkQueryState demand sequence Res.zero (MkAllocation Res.zero [] [] 1) [] [] Res.zero PENDING_RESOURCES "" false expires_at.

Record Coordinator := MkCoordinator {
  cl_heartbeat_timeout : f64;
  cl_nodes : list (string * NodeCapacity);
  cl_queries : list (string * QueryState);
  cl_next_sequence : Z;
  cl_generation : Z;
}.

#[export] Instance Coordinator_eta : Eta Coordinator :=
  fun r => MkCoordinator r.(cl_heartbeat_timeout) r.(cl_nodes) r.(cl_queries) r.(cl_next_sequence) r.(cl_generation).

(** [_normalize_nodes] *)
Definition normalize_nodes (l : list NodeCapacity) : result (list (string * NodeCapacity)) :=
  let* nodes := rfoldM (fun nodes n =>
    let* _ := raise_if (od_mem n.(nc_node_id) nodes) (ValueError ("duplicate Ray node capacity: " +:+ n.(nc_node_id))) in
    Ok (od_set n.(nc_node_id) n nodes)) [] l in
  Ok (py_sorted (fun a b => String.leb a.1 b.1) nodes).

(** [__init__] *)
Definition new (l : list NodeCapacity) (timeout : f64) : result Coordinator :=
  let* _ := raise_if (negb (f64_isfinite timeout) || f64_le timeout f64_zero)
    (ValueError "heartbeat_timeout_s must be finite and > 0") in
  let* nodes := normalize_nodes l in
  Ok (MkCoordinator timeout nodes [] 0 0).

(** ** Placing bundles *)

Abbreviation amounts := (list (string * ResourceVector)).

(** [d[node] = d.get(node, ResourceVector()) + v] *)
Definition add_at (node : string) (v : ResourceVector) (d : amounts) : result amounts :=
  let* sum := Res.add (od_get_default node Res.zero d) v in Ok (od_set node sum d).

Definition place_key (bundle : ResourceVector) (c : string * ResourceVector) : result (list keyval) :=
  Ok [KNum (NFloat (f64_sub c.2.(r_gpu) bundle.(r_gpu))); KNum (NFloat (f64_sub c.2.(r_cpu) bundle.(r_cpu)));
      KNum (NInt (c.2.(r_heap_bytes) - bundle.(r_heap_bytes))); KStr c.1].

(** [_place_bundle], with the dictionary it changes *)
Definition place_bundle (bundle : ResourceVector) (remaining : amounts) : result (option (string * amounts)) :=
  let* best := py_min (place_key bundle) (List.filter (fun c => Res.fits_within bundle c.2) remaining) in
  match best with
  | None => Ok None
  | Some (node, capacity) => let* rest := Res.sub capacity bundle in Ok (Some (node, od_set node rest remaining))
  end.

(** [_replace_resource]: the dictionary form with one value changed *)
Definition replace_resource (v : ResourceVector) (d : dimension) (value : num) : result ResourceVector :=
  let to_int := match value with NInt z => Ok z | NFloat x => f64_trunc x end in
  match d with
  | Cpu => let* x := num_float value in Res.new x v.(r_gpu) v.(r_heap_bytes) v.(r_object_store_bytes)
  | Gpu => let* x := num_float value in Res.new v.(r_cpu) x v.(r_heap_bytes) v.(r_object_store_bytes)
  | HeapBytes => let* z := to_int in Res.new v.(r_cpu) v.(r_gpu) z v.(r_object_store_bytes)
  | ObjectStoreBytes => let* z := to_int in Res.new v.(r_cpu) v.(r_gpu) v.(r_heap_bytes) z
  end.

(** The loop over the nodes that fill one dimension of a divisible request. *)
Fixpoint divide_nodes (d : dimension) (nodes : list string) (needed : f64) (trial allocations : amounts)
    : result (f64 * amounts * amounts) :=
  match nodes with
  | [] => Ok (needed, trial, allocations)
  | node :: nodes =>
      let* capacity := od_item node trial in
      let* allocated := od_item node allocations in
      let* available := num_float (res_dim d capacity) in
      if f64_le available eps then divide_nodes d nodes needed trial allocations else
      let least := if f64_lt available needed then available else needed in
      let* amount := if is_bytes d then let* z := f64_trunc least in Ok (NInt z) else Ok (NFloat least) in
      if num_le amount (NInt 0) then divide_nodes d nodes needed trial allocations else
      let* more := num_add (res_dim d allocated) amount in
      let* allocated := replace_resource allocated d more in
      let* less := num_sub (res_dim d capacity) amount in
      let* capacity := replace_resource capacity d less in
      let* amount := num_float amount in
      let needed := f64_sub needed amount in
      let trial := od_set node capacity trial in
      let allocations := od_set node allocated allocations in
      if f64_le needed eps then Ok (needed, trial, allocations) else divide_nodes d nodes needed trial allocations
  end.

Definition divide_key (d : dimension) (trial : amounts) (node : string) : result (list keyval) :=
  let* v := od_item node trial in
  let* x := num_float (res_dim d v) in
  Ok [KNum (NFloat (f64_neg x)); KStr node].

(** One dimension: [None] when it cannot be placed. *)
Definition divide_field (d : dimension) (request : ResourceVector) (trial allocations : amounts)
    : result (option (amounts * amounts)) :=
  let* needed := num_float (res_dim d request) in
  if f64_le needed eps then Ok (Some (trial, allocations)) else
  let* nodes := py_sorted_by (divide_key d trial) (od_keys trial) in
  let* (needed, trial, allocations) := divide_nodes d nodes needed trial allocations in
  Ok (if f64_lt eps needed then None else Some (trial, allocations)).

Fixpoint divide_fields (ds : list dimension) (request : ResourceVector) (trial allocations : amounts)
    : result (option (amounts * amounts)) :=
  match ds with
  | [] => Ok (Some (trial, allocations))
  | d :: ds =>
      let* r := divide_field d request trial allocations in
      match r with None => Ok None | Some (trial, allocations) => divide_fields ds request trial allocations end
  end.

(** [_place_divisible]: what is placed where, and what remains *)
Definition place_divisible (request : ResourceVector) (remaining : amounts) : result (option (amounts * amounts)) :=
  if f64_lt eps request.(r_gpu) then Ok None else
  let* r := divide_fields [Cpu; HeapBytes; ObjectStoreBytes] request remaining (map (fun c => (c.1, Res.zero)) remaining) in
  Ok (match r with
      | None => None
      | Some (trial, allocations) => Some (List.filter (fun a => negb (Res.is_zero a.2)) allocations, trial)
      end).

(** ** Weighted dominant-resource fairness *)

(** What a query may still get, with its share of the cluster. *)
Record Room := MkRoom { rm_state : QueryState; rm_headroom : ResourceVector; rm_dominant : f64 }.

Definition rm_query (r : Room) : string := r.(rm_state).(qs_demand).(qd_query_id).
Definition rm_weight (r : Room) : f64 := r.(rm_state).(qs_demand).(qd_weight).

(** [dominant > 0 and math.isfinite(dominant)] *)
Definition grows (r : Room) : bool := f64_lt f64_zero r.(rm_dominant) && f64_isfinite r.(rm_dominant).

(** [min(1.0, x)] *)
Definition at_most_one (x : f64) : f64 := if f64_lt x (f64_of_int 1) then x else f64_of_int 1.

(** [allocation_at] *)
Definition allocation_at (rooms : list Room) (level : f64) : result amounts :=
  rmapM (fun r =>
    if negb (grows r) then Ok (rm_query r, Res.zero) else
    let* x := float_div (f64_mul level (rm_weight r)) (NFloat r.(rm_dominant)) in
    let* v := Res.scale r.(rm_headroom) (at_most_one x) in Ok (rm_query r, v)) rooms.

(** [feasible] *)
Definition feasible (rooms : list Room) (extra : ResourceVector) (level : f64) : result bool :=
  let* allocated := allocation_at rooms level in
  let* total := sum_resources (od_values allocated) in
  Ok (Res.fits_within total extra).

Fixpoint bisect (n : nat) (rooms : list Room) (extra : ResourceVector) (low high : f64) : result f64 :=
  match n with
  | O => Ok low
  | S n =>
      let middle := f64_div (f64_add low high) (f64_of_int 2) in
      let* ok := feasible rooms extra middle in
      if ok : bool then bisect n rooms extra middle high else bisect n rooms extra low middle
  end.

(** The level at which the allocations fit. *)
Definition fair_level (rooms : list Room) (extra : ResourceVector) (high : f64) : result f64 :=
  let* ok := feasible rooms extra high in
  if ok : bool then Ok high else bisect 80 rooms extra f64_zero high.

Definition bytes_dim (d : dimension) (r : ResourceVector) : Z :=
  match d with ObjectStoreBytes => r.(r_object_store_bytes) | _ => r.(r_heap_bytes) end.

Definition tail_key (total : ResourceVector) (allocated : amounts) (r : Room) : result (list keyval) :=
  let* own := od_item (rm_query r) allocated in
  let* sum := Res.add r.(rm_state).(qs_demand).(qd_minimum) own in
  let* share := Res.dominant_share sum total in
  let* weighted := float_div share (NFloat (rm_weight r)) in
  Ok [KNum (NFloat weighted); KNum (NInt (- r.(rm_state).(qs_demand).(qd_priority))); KNum (NInt r.(rm_state).(qs_sequence))].

(** The loop that hands out the bytes that flooring left over. *)
Fixpoint give_tail (d : dimension) (tail : Z) (rooms : list Room) (allocated : amounts) : result amounts :=
  match rooms with
  | [] => Ok allocated
  | r :: rooms =>
      let* own := od_item (rm_query r) allocated in
      let amount := Z.min tail (Z.max 0 (bytes_dim d r.(rm_headroom) - bytes_dim d own)) in
      if amount <=? 0 then give_tail d tail rooms allocated else
      let* own := replace_resource own d (NInt (bytes_dim d own + amount)) in
      let allocated := od_set (rm_query r) own allocated in
      if tail - amount =? 0 then Ok allocated else give_tail d (tail - amount) rooms allocated
  end.

Definition give_dimension (rooms : list Room) (total rest : ResourceVector) (allocated : amounts) (d : dimension) : result amounts :=
  if bytes_dim d rest <=? 0 then Ok allocated else
  let* sorted := py_sorted_by (tail_key total allocated) rooms in
  give_tail d (bytes_dim d rest) sorted allocated.

(** [_weighted_drf_extras] *)
Definition weighted_drf_extras (admitted : list QueryState) (extra total : ResourceVector) : result amounts :=
  if bool_decide (length admitted = O) || Res.is_zero extra then Ok [] else
  let* headroom := rmapM (fun s => let* h := Res.sub s.(qs_demand).(qd_desired) s.(qs_demand).(qd_minimum) in Ok (s, h)) admitted in
  let* rooms := rmapM (fun '(s, h) => let* share := Res.dominant_share h total in Ok (MkRoom s h share)) headroom in
  let* limits := rmapM (fun r => float_div r.(rm_dominant) (NFloat (rm_weight r))) (List.filter grows rooms) in
  match limits with
  | [] => Ok []
  | first :: limits =>
      let* level := fair_level rooms extra (fold_left f64_max limits first) in
      let* allocated := allocation_at rooms level in
      let* used := sum_resources (od_values allocated) in
      let* rest := positive_difference extra used in
      rfoldM (give_dimension rooms total rest) allocated [HeapBytes; ObjectStoreBytes]
  end.

(** ** Rebalancing *)

(** The local variables of [_rebalance_locked]. *)
Record Draft := MkDraft {
  df_remaining : amounts;
  df_allocations : list (string * amounts);
  df_placements : list (string * list ActorPlacement);
  df_pinned : gset string;
  df_lost : gset string;
  df_admitted : list QueryState;
}.

#[export] Instance Draft_eta : Eta Draft :=
  fun r => MkDraft r.(df_remaining) r.(df_allocations) r.(df_placements) r.(df_pinned) r.(df_lost) r.(df_admitted).

Definition node_allocations_of (d : Draft) (query : string) : amounts := od_get_default query [] d.(df_allocations).
Definition placements_of (d : Draft) (query : string) : list ActorPlacement := od_get_default query [] d.(df_placements).

Definition start_draft (s : Coordinator) : Draft :=
  MkDraft (map (fun n => (n.1, n.2.(nc_resources))) s.(cl_nodes)) (map (fun q => (q.1, [])) s.(cl_queries))
    (map (fun q => (q.1, [])) s.(cl_queries)) ∅ ∅ [].

Definition by_bundle_key (l : list ActorResourceBundle) : list (string * Z * ResourceVector) :=
  fold_left (fun d b => od_set (bundle_key b) b.(ab_resources) d) l [].

(** The placements of a query, taken from what remains if they still fit. *)
Fixpoint pin_actors (bundles : list (string * Z * ResourceVector)) (placements : list ActorPlacement)
    (trial pinned : amounts) : result (option (amounts * amounts)) :=
  match placements with
  | [] => Ok (Some (trial, pinned))
  | p :: placements =>
      match od_get (p.(ap_stage_id), p.(ap_actor_index)) bundles, od_get p.(ap_node_id) trial with
      | Some v, Some capacity =>
          if negb (Res.fits_within v capacity) then Ok None else
          let* rest := Res.sub capacity v in
          let* pinned := add_at p.(ap_node_id) v pinned in
          pin_actors bundles placements (od_set p.(ap_node_id) rest trial) pinned
      | _, _ => Ok None
      end
  end.

(** An assignment to a field of [state]. *)
Definition on_query (query : string) (f : QueryState -> QueryState) : ST Coordinator unit :=
  smodify (fun s => match od_get query s.(cl_queries) with
    | Some q => s <| cl_queries ::= od_set query (f q) |>
    | None => s
    end).

Definition pin_query (d : Draft) (q : QueryState) : ST Coordinator Draft :=
  let id := q.(qs_demand).(qd_query_id) in
  if q.(qs_actor_placement_lost) then sret (d <| df_lost ::= union {[id]} |>)
  else if bool_decide (length q.(qs_actor_placements) = O) then sret d
  else
    let! r := slift (pin_actors (by_bundle_key q.(qs_demand).(qd_actor_bundles)) q.(qs_actor_placements) d.(df_remaining) []) in
    match r with
    | None =>
        let! _ := on_query id (fun q => q <| qs_actor_placement_lost := true |>) in
        sret (d <| df_lost ::= union {[id]} |>)
    | Some (trial, pinned) =>
        sret (d <| df_remaining := trial |> <| df_pinned ::= union {[id]} |>
                <| df_placements ::= od_set id q.(qs_actor_placements) |> <| df_allocations ::= od_set id pinned |>)
    end.

(** The loop over the actor bundles of a query that is not pinned. *)
Fixpoint place_actors (bundles : list ActorResourceBundle) (trial allocations : amounts) (placed : list ActorPlacement)
    : result (option (amounts * amounts * list ActorPlacement)) :=
  match bundles with
  | [] => Ok (Some (trial, allocations, placed))
  | b :: bundles =>
      let* r := place_bundle b.(ab_resources) trial in
      match r with
      | None => Ok None
      | Some (node, trial) =>
          let* placement := Allocation.new_placement b.(ab_stage_id) b.(ab_actor_index) node in
          let* allocations := add_at node b.(ab_resources) allocations in
          place_actors bundles trial allocations (placed ++ [placement])
      end
  end.

Fixpoint place_tasks (bundles : list ResourceVector) (trial allocations : amounts) : result (option (amounts * amounts)) :=
  match bundles with
  | [] => Ok (Some (trial, allocations))
  | b :: bundles =>
      let* r := place_bundle b trial in
      match r with
      | None => Ok None
      | Some (node, trial) => let* allocations := add_at node b allocations in place_tasks bundles trial allocations
      end
  end.

(** One query in the loop over [ordered]. *)
Definition admit_tasks (q : QueryState) (trial allocations : amounts) (d : Draft) : result Draft :=
  let id := q.(qs_demand).(qd_query_id) in
  let* r := place_tasks q.(qs_demand).(qd_task_bundles) trial allocations in
  Ok (match r with
      | None => d
      | Some (trial, allocations) =>
          d <| df_remaining := trial |> <| df_allocations ::= od_set id allocations |> <| df_admitted ::= fun l => l ++ [q] |>
      end).

Definition admit_query (d : Draft) (q : QueryState) : result Draft :=
  let id := q.(qs_demand).(qd_query_id) in
  if bool_decide (id ∈ d.(df_lost)) then Ok d else
  if bool_decide (id ∈ d.(df_pinned)) then admit_tasks q d.(df_remaining) (node_allocations_of d id) d else
  let* r := place_actors q.(qs_demand).(qd_actor_bundles) d.(df_remaining) (node_allocations_of d id) [] in
  match r with
  | None => Ok d
  | Some (trial, allocations, placed) => admit_tasks q trial allocations (d <| df_placements ::= od_set id placed |>)
  end.

(** The extra share of one admitted query, placed on the nodes. *)
Definition place_extra (extras : amounts) (d : Draft) (q : QueryState) : result Draft :=
  let id := q.(qs_demand).(qd_query_id) in
  let* r := place_divisible (od_get_default id Res.zero extras) d.(df_remaining) in
  match r with
  | None => Raise (RuntimeError ("failed to place feasible DRF allocation for query " +:+ id))
  | Some (placed, remaining) =>
      let* allocations := rfoldM (fun a '(node, v) => add_at node v a) (node_allocations_of d id) placed in
      Ok (d <| df_remaining := remaining |> <| df_allocations ::= od_set id allocations |>)
  end.

(** What the last loop decides on before it builds the allocation. *)
Definition phase_of (d : Draft) (id : string) : phase * string :=
  if existsb (fun q => String.eqb q.(qs_demand).(qd_query_id) id) d.(df_admitted) then (RUNNING, "")
  else if bool_decide (id ∈ d.(df_lost)) then (ACTOR_PLACEMENT_LOST, "allocated Ray actor node is no longer available")
  else (PENDING_RESOURCES, "minimum query resource bundles are not currently feasible").

(** The published allocation of a query. *)
Definition publish_allocation (nodes : amounts) (placements : list ActorPlacement) (resources : ResourceVector) (generation : Z)
    : result QueryAllocation :=
  let* l := rmapM (fun n => Allocation.new_node n.1 n.2)
    (List.filter (fun n => negb (Res.is_zero n.2)) (py_sorted (fun a b => String.leb a.1 b.1) nodes)) in
  Allocation.new resources l placements generation.

(** One query in the last loop. *)
Definition publish_query (d : Draft) (generation : Z) (id : string) : ST Coordinator unit :=
  let '(state, reason) := phase_of d id in
  let! _ := on_query id (fun q => q <| qs_state := state |> <| qs_rejection_reason := reason |>) in
  let! resources := slift (sum_resources (od_values (node_allocations_of d id))) in
  let! allocation := slift (publish_allocation (node_allocations_of d id) (placements_of d id) resources generation) in
  let! _ := on_query id (fun q => q <| qs_allocation := allocation |> <| qs_node_allocations := node_allocations_of d id |>
    <| qs_actor_placements := placements_of d id |>) in
  let! s := sget in
  let! q := slift (od_item id s.(cl_queries)) in
  let! debt := slift (positive_difference q.(qs_observed_usage) resources) in
  let! _ := on_query id (fun q => q <| qs_allocation_debt := debt |>) in
  if negb (Res.is_zero debt) && negb (bool_decide (state = ACTOR_PLACEMENT_LOST))
  then on_query id (fun q => q <| qs_state := ALLOCATION_DEBT |> <| qs_rejection_reason := "live query leases exceed the current allocation" |>)
  else sret tt.

Definition by_sequence (q : QueryState) : result (list keyval) :=
  Ok [KNum (NInt q.(qs_sequence)); KStr q.(qs_demand).(qd_query_id)].

Definition by_priority (q : QueryState) : result (list keyval) :=
  Ok [KNum (NInt (- q.(qs_demand).(qd_priority))); KNum (NInt q.(qs_sequence)); KStr q.(qs_demand).(qd_query_id)].

(** The shares of the admitted queries, from the pinned draft on. *)
Definition fill_draft (nodes : list (string * NodeCapacity)) (ordered : list QueryState) (d : Draft) : result Draft :=
  let* d := rfoldM admit_query d ordered in
  let* total := sum_resources (map (fun n => n.2.(nc_resources)) nodes) in
  let* extra := sum_resources (od_values d.(df_remaining)) in
  let* extras := weighted_drf_extras d.(df_admitted) extra total in
  rfoldM (place_extra extras) d d.(df_admitted).

(** [_rebalance_locked] *)
Definition rebalance : ST Coordinator unit :=
  let! _ := smodify (fun s => s <| cl_generation ::= Z.succ |>) in
  let! s := sget in
  let generation := s.(cl_generation) in
  let! sequenced := slift (py_sorted_by by_sequence (od_values s.(cl_queries))) in
  let! d := sfold sequenced pin_query (start_draft s) in
  let! s := sget in
  let! ordered := slift (py_sorted_by by_priority (od_values s.(cl_queries))) in
  let! d := slift (fill_draft s.(cl_nodes) ordered d) in
  sfor (od_keys s.(cl_queries)) (publish_query d generation).

(** ** Calls *)

(** [_require_generation] *)
Definition require_generation (q : QueryState) (generation : Z) : result unit :=
  raise_if (negb (generation =? q.(qs_allocation).(al_generation)))
    (ValueError ("stale allocation generation: got " +:+ str_of_int generation +:+ ", current " +:+ str_of_int q.(qs_allocation).(al_generation))).

Definition registered (query : string) : ST Coordinator QueryState :=
  let! s := sget in
  match od_get query s.(cl_queries) with
  | Some q => sret q
  | None => sraise (KeyError ("query is not registered: " +:+ query))
  end.

Definition allocation_of (query : string) : ST Coordinator QueryAllocation :=
  let! q := registered query in sret q.(qs_allocation).

(** The body of a [try] whose [except BaseException] restores what is kept. *)
Definition or_restore (m : ST Coordinator unit) (kept : Coordinator) : ST Coordinator unit :=
  scatch m (fun _ => true) (fun e =>
    let! _ := smodify (fun s => s <| cl_queries := kept.(cl_queries) |> <| cl_next_sequence := kept.(cl_next_sequence) |>
      <| cl_generation := kept.(cl_generation) |>) in sraise e).

Definition register_query (demand : QueryDemand) (now : f64) : ST Coordinator QueryAllocation :=
  let id := demand.(qd_query_id) in
  let! s := sget in
  let! _ := sraise_if (od_mem id s.(cl_queries)) (ValueError ("query already registered: " +:+ id)) in
  let q := new_state demand s.(cl_next_sequence) (f64_add now s.(cl_heartbeat_timeout)) in
  let! _ := or_restore (
    let! _ := smodify (fun s => s <| cl_queries ::= od_set id q |> <| cl_next_sequence ::= Z.succ |>) in rebalance) s in
  allocation_of id.

Definition refresh_query (query : string) (usage : ResourceVector) (generation : Z) (now : f64) (demand : option QueryDemand)
    : ST Coordinator QueryAllocation :=
  let! q := registered query in
  let! _ := slift (require_generation q generation) in
  let! _ := match demand with
    | None => sret tt
    | Some d =>
        let! _ := sraise_if (negb (String.eqb d.(qd_query_id) query)) (ValueError "refresh demand query_id mismatch") in
        on_query query (fun q => q <| qs_demand := d |>)
    end in
  let! s := sget in
  let! _ := on_query query (fun q => q <| qs_observed_usage := usage |> <| qs_expires_at := f64_add now s.(cl_heartbeat_timeout) |>) in
  let! _ := rebalance in
  allocation_of query.

(** The difference of two sets of names, as [sorted] lists it. *)
Definition names_without (a b : list string) : list string :=
  sorted_str (List.filter (fun x => negb (bool_decide (x ∈ b))) (remove_dups a)).

Definition mismatch_details (expected given : list string) : string :=
  let missing := names_without expected given in
  let unknown := names_without given expected in
  String.concat " "
    ((if bool_decide (length missing = O) then [] else ["missing=" +:+ String.concat "," missing]) ++
     (if bool_decide (length unknown = O) then [] else ["unknown=" +:+ String.concat "," unknown])).

Definition same_names (a b : list string) : bool :=
  bool_decide ((list_to_set a : gset string) = list_to_set b).

(** [refresh_queries]; the arguments are dictionaries *)
Definition refresh_queries (usage : amounts) (generations : list (string * Z)) (now : f64)
    : ST Coordinator (list (string * QueryAllocation)) :=
  let! _ := sraise_if (negb (same_names (od_keys usage) (od_keys generations)))
    (ValueError "refresh query usage and generation sets must match") in
  let! s := sget in
  let expected := od_keys s.(cl_queries) in
  let! _ := sraise_if (negb (same_names (od_keys usage) expected))
    (ValueError ("refresh query set mismatch: " +:+ mismatch_details expected (od_keys usage))) in
  let! _ := sfor (sorted_str expected) (fun id =>
    let! q := registered id in
    let! generation := slift (od_item id generations) in
    slift (require_generation q generation)) in
  let! _ := sfor (sorted_str expected) (fun id =>
    let! u := slift (od_item id usage) in
    on_query id (fun q => q <| qs_observed_usage := u |> <| qs_expires_at := f64_add now s.(cl_heartbeat_timeout) |>)) in
  let! _ := if bool_decide (length expected = O) then sret tt else rebalance in
  sfold (sorted_str expected) (fun acc id => let! a := allocation_of id in sret (acc ++ [(id, a)])) [].

Definition heartbeat (query : string) (generation : Z) (now : f64) : ST Coordinator QueryAllocation :=
  let! q := registered query in
  let! _ := slift (require_generation q generation) in
  let! s := sget in
  let! _ := on_query query (fun q => q <| qs_expires_at := f64_add now s.(cl_heartbeat_timeout) |>) in
  allocation_of query.

Definition release_query (query : string) (generation : Z) : ST Coordinator bool :=
  let! s := sget in
  match od_get query s.(cl_queries) with
  | Some q =>
      if negb (generation =? q.(qs_allocation).(al_generation)) then sret false else
      let! _ := smodify (fun s => s <| cl_queries ::= od_pop query |>) in
      let! _ := rebalance in
      sret true
  | None => sret false
  end.

Definition expire_queries (now : f64) : ST Coordinator (list string) :=
  let! s := sget in
  let expired := sorted_str (map fst (List.filter (fun e => f64_le e.2.(qs_expires_at) now) s.(cl_queries))) in
  let! _ := smodify (fun s => s <| cl_queries ::= fun qs => fold_left (fun qs id => od_pop id qs) expired qs |>) in
  let! _ := if bool_decide (length expired = O) then sret tt else rebalance in
  sret expired.

Definition update_node_capacities (l : list NodeCapacity) : ST Coordinator unit :=
  let! nodes := slift (normalize_nodes l) in
  let! _ := smodify (fun s => s <| cl_nodes := nodes |>) in
  rebalance.

(** The calls of the driver, in any order. *)
Inductive call :=
  | RegisterQuery (demand : QueryDemand) (now : f64)
  | RefreshQuery (query : string) (usage : ResourceVector) (generation : Z) (now : f64) (demand : option QueryDemand)
  | RefreshQueries (usage : amounts) (generations : list (string * Z)) (now : f64)
  | Heartbeat (query : string) (generation : Z) (now : f64)
  | ReleaseQuery (query : string) (generation : Z)
  | ExpireQueries (now : f64)
  | UpdateNodeCapacities (l : list NodeCapacity).

Definition forget {A} (m : ST Coordinator A) : ST Coordinator unit := let! _ := m in sret tt.

Definition do_call (c : call) : ST Coordinator unit :=
  match c with
  | RegisterQuery d now => forget (register_query d now)
  | RefreshQuery q u g now d => forget (refresh_query q u g now d)
  | RefreshQueries u g now => forget (refresh_queries u g now)
  | Heartbeat q g now => forget (heartbeat q g now)
  | ReleaseQuery q g => forget (release_query q g)
  | ExpireQueries now => forget (expire_queries now)
  | UpdateNodeCapacities l => update_node_capacities l
  end.

Definition run (calls : list call) (s : Coordinator) : Coordinator := fold_left (fun s c => (do_call c s).2) calls s.

(** ** Capacity reported by Ray *)

(** [RayNodeMemoryLayout] *)
Record MemoryLayout := MkLayout {
  ml_node_memory : Z;
  ml_worker_duckdb : Z;
  ml_driver_reserve : Z;
  ml_runtime_reserve : Z;
  ml_task_heap : Z;
}.

(** [build_ray_node_memory_layout] *)
Definition memory_layout (node_memory : Z) : result MemoryLayout :=
  let* _ := raise_if (node_memory <=? 0) (ValueError "node_memory_bytes must be positive") in
  let worker := node_memory / 4 in
  let driver := node_memory / 20 in
  let runtime := node_memory / 10 in
  let heap := node_memory - worker - driver - runtime in
  let* _ := raise_if (Z.min (Z.min (Z.min worker driver) runtime) heap <=? 0)
    (ValueError "node_memory_bytes is too small for the production memory layout") in
  Ok (MkLayout node_memory worker driver runtime heap).

(** An entry of [ray.nodes()]; the keys it may lack are options. *)
Record RawNode := MkRawNode {
  rn_alive : option bool;
  rn_node_id : option string;
  rn_address : option string;
  rn_resources : list (string * num);
  rn_labels : list (string * string);
}.

(** [float(resources.get(key, 0) or 0)] *)
Definition raw_float (key : string) (n : RawNode) : result f64 := num_float (od_get_default key (NInt 0) n.(rn_resources)).

(** [max(0, int(float(...)))] *)
Definition raw_bytes (key : string) (n : RawNode) : result Z :=
  let* x := raw_float key n in let* z := f64_trunc x in Ok (Z.max 0 z).

(** [str(a or b or "")] *)
Definition first_named (a b : option string) : string :=
  let a := default "" a in if String.eqb a "" then default "" b else a.

Definition raw_labels (n : RawNode) : result (list string) :=
  let* named := rfoldM (fun acc '(key, v) =>
    if negb (startswith key "node:") then Ok acc else
    let* x := num_float v in Ok (if f64_lt f64_zero x then acc ++ [key] else acc)) [] n.(rn_resources) in
  Ok (named ++ map (fun '(k, v) => k +:+ "=" +:+ v) (py_sorted (fun a b => String.leb a.1 b.1) n.(rn_labels))).

(** One node: [None] when it is dead or cannot run anything. *)
Definition read_node (fraction : f64) (reserve : Z) (n : RawNode) : result (option NodeCapacity) :=
  if negb (default true n.(rn_alive)) then Ok None else
  let* cpu := raw_float "CPU" n in let cpu := f64_max f64_zero cpu in
  let* gpu := raw_float "GPU" n in let gpu := f64_max f64_zero gpu in
  if f64_le cpu f64_zero && f64_le gpu f64_zero then Ok None else
  let id := strip (first_named n.(rn_node_id) n.(rn_address)) in
  let* _ := raise_if (String.eqb id "") (ValueError "alive Ray node with schedulable resources is missing NodeID") in
  let* heap := raw_bytes "memory" n in
  let* store := raw_bytes "object_store_memory" n in
  let* layout := memory_layout heap in
  let* labels := raw_labels n in
  let* share := Res.scale_bytes store fraction in
  let* resources := Res.new cpu gpu (Z.max 0 (layout.(ml_task_heap) - reserve)) share in
  let* c := new_node_capacity id resources labels in
  Ok (Some c).

(** [read_ray_node_capacities], from what [ray_module.nodes()] returned *)
Definition read_ray_node_capacities (nodes : list RawNode) (fraction : f64) (reserve : Z) : result (list NodeCapacity) :=
  let* _ := raise_if (negb (f64_isfinite fraction) || f64_le fraction f64_zero || f64_lt (f64_of_int 1) fraction)
    (ValueError "object_store_fraction must be in (0, 1]") in
  let* _ := raise_if (reserve <? 0) (ValueError "heap_reserve_bytes_per_node must be >= 0") in
  let* l := rmapM (read_node fraction reserve) nodes in
  Ok (py_sorted (fun a b => String.leb a.(nc_node_id) b.(nc_node_id)) (omap id l)).

End Cluster.
