(* ===== verification/ClusterBooks.v ===== *)
(** * What the coordinator hands out

    The books of a rebalance: what the nodes have left and what the queries
    got are two sides of an account.  Every step of the code moves bytes from
    one side to the other; none are made up, although shares are computed in
    binary64 and cut down to integers. *)

From S2P Require Import Prelude PyStr PyVal PyNum AdmissionLedger QueryGraph ResourceState ResourcePlacement ResourceBooks ClusterCoordinator.
Import Cluster.

#[local] Open Scope string_scope.
#[local] Open Scope list_scope.
#[local] Open Scope Z_scope.

(** ** Amounts *)

(** The bytes of one dimension on the nodes selected. *)
Definition weigh (d : byte_dim) (sel : string -> bool) (a : amounts) : Z :=
  ksum (fun node v => if sel node then vb d v else 0) a.

(** A dictionary of vectors as the constructor accepts them. *)
Definition tidy (a : amounts) : Prop := od_wf a /\ forall node v, (node, v) ∈ a -> nonneg v.

Lemma weigh_set d sel node v a :
  weigh d sel (od_set node v a) = weigh d sel a + if sel node then vb d v - vb d (od_get_default node Res.zero a) else 0.
Proof.
  unfold weigh, od_get_default. destruct (od_get node a) as [v0|] eqn:E.
  - rewrite (ksum_set _ _ v0) by done. cbn. destruct (sel node); lia.
  - rewrite ksum_set_new by done. cbn. destruct (sel node); [|lia]. destruct d; cbn; lia.
Qed.

Lemma weigh_nonneg d sel a : tidy a -> 0 <= weigh d sel a.
Proof. intros [_ Ha]. apply ksum_nonneg. intros k v Hin. destruct (sel k); [apply (Ha _ _ Hin)|lia]. Qed.

Lemma od_keys_set_elem {V} k (v : V) (a : list (string * V)) x : x ∈ od_keys (od_set k v a) -> x ∈ od_keys a \/ x = k.
Proof. rewrite od_keys_set. destruct (decide _); [auto|]. intros [?| ->%list_elem_of_singleton]%elem_of_app; auto. Qed.

Lemma tidy_set node v a : tidy a -> nonneg v -> tidy (od_set node v a).
Proof. intros [Hw Ha] Hv. split; [by apply od_wf_set|]. intros k w [?| ->]%od_set_elem; eauto. Qed.

Lemma tidy_nil : tidy [].
Proof. split; [apply NoDup_nil_2|]. by intros ? ? ?%not_elem_of_nil. Qed.

Lemma tidy_get node v a : tidy a -> od_get node a = Some v -> nonneg v.
Proof. intros [_ Ha] Hv%od_get_elem. eauto. Qed.

Lemma nonneg_zero : nonneg Res.zero.
Proof. intros []; cbn; lia. Qed.

Lemma tidy_get_default node a : tidy a -> nonneg (od_get_default node Res.zero a).
Proof. intros Ha. unfold od_get_default. destruct (od_get node a) eqn:E; [by eapply tidy_get|apply nonneg_zero]. Qed.

Lemma od_get_default_some {V} (k : string) (v w : V) a : od_get k a = Some v -> od_get_default k w a = v.
Proof. unfold od_get_default. by intros ->. Qed.

(** ** Moving bytes *)

(** From one side of the account to the other. *)
Record moved (trial allocated trial' allocated' : amounts) : Prop := {
  mv_trial : tidy trial -> tidy trial';
  mv_allocated : tidy allocated -> tidy allocated';
  mv_keys : od_keys trial' = od_keys trial;
  mv_known : forall node, node ∈ od_keys allocated' -> node ∈ od_keys allocated \/ node ∈ od_keys trial;
  mv_conserved : tidy trial -> forall d sel, weigh d sel trial' + weigh d sel allocated' = weigh d sel trial + weigh d sel allocated;
}.

Lemma moved_refl t a : moved t a t a.
Proof. constructor; auto. Qed.

Lemma moved_trans t a t1 a1 t2 a2 : moved t a t1 a1 -> moved t1 a1 t2 a2 -> moved t a t2 a2.
Proof.
  intros [H1 H2 H3 H4 H5] [G1 G2 G3 G4 G5]. constructor; [auto|auto|congruence| |].
  - intros node [?|?]%G4; [auto|]. right. by rewrite <- H3.
  - intros Ht d sel. rewrite G5, H5; auto.
Qed.

Lemma sub_nonneg a b r : Res.sub a b = Ok r -> nonneg r.
Proof. unfold Res.sub. intros H. inv_ok. by eapply new_nonneg. Qed.

Lemma add_nonneg a b r : Res.add a b = Ok r -> nonneg r.
Proof. apply new_nonneg. Qed.

Lemma od_keys_set_in {V} k (v w : V) (a : list (string * V)) : od_get k a = Some w -> od_keys (od_set k v a) = od_keys a.
Proof.
  induction a as [|[k1 v1] a IH]; cbn [od_get od_set]; [done|]. destruct (decide (k = k1)) as [->|]; [done|].
  intros H. cbn [od_keys map fst]. unfold od_keys in IH. by rewrite IH.
Qed.

(** What is taken from a node is added to the share. *)
Lemma move_at node v capacity rest t a a' :
  od_get node t = Some capacity -> Res.sub capacity v = Ok rest -> add_at node v a = Ok a' -> moved t a (od_set node rest t) a'.
Proof.
  intros Hn Hs Ha. unfold add_at in Ha. apply rbind_ok in Ha as (sum & Hsum & [= <-]). constructor.
  - intros Ht. apply tidy_set; [done|by eapply sub_nonneg].
  - intros Ha. apply tidy_set; [done|by eapply add_nonneg].
  - by eapply od_keys_set_in.
  - intros k [?| ->]%od_keys_set_elem; [by left|]. right. apply od_get_elem in Hn. apply list_elem_of_fmap. by exists (node, capacity).
  - intros _ d sel. rewrite !weigh_set, (od_get_default_some _ _ _ _ Hn), (sub_vb d _ _ _ Hs), (add_vb d _ _ _ Hsum).
    destruct (sel node); lia.
Qed.

Lemma place_bundle_ok b t node t' :
  tidy t -> place_bundle b t = Ok (Some (node, t')) ->
  exists capacity rest, od_get node t = Some capacity /\ Res.sub capacity b = Ok rest /\ t' = od_set node rest t.
Proof.
  intros [Ht _] H. unfold place_bundle in H. apply rbind_ok in H as ([[n cap]|] & Hm & H); [|done].
  apply rbind_ok in H as (rest & Hr & [= -> <-]). apply py_min_elem, list_elem_of_In, filter_In in Hm as [Hm _].
  exists cap, rest. split; [|done]. by apply od_elem_get; [|apply list_elem_of_In].
Qed.

Lemma place_actors_moved bs t a placed t' a' placed' :
  tidy t -> place_actors bs t a placed = Ok (Some (t', a', placed')) -> moved t a t' a'.
Proof.
  revert t a placed. induction bs as [|b bs IH]; intros t a placed Ht H; cbn [place_actors] in H; [injection H as <- <- <-; apply moved_refl|].
  apply rbind_ok in H as ([[node t1]|] & Hp & H); [|done]. apply rbind_ok in H as (pl & _ & H). apply rbind_ok in H as (a1 & Ha & H).
  apply place_bundle_ok in Hp as (cap & rest & Hn & Hs & ->); [|done]. pose proof (move_at _ _ _ _ _ _ _ Hn Hs Ha) as Hm.
  eapply moved_trans; [exact Hm|]. by eapply IH; [apply Hm|].
Qed.

Lemma place_tasks_moved bs t a t' a' : tidy t -> place_tasks bs t a = Ok (Some (t', a')) -> moved t a t' a'.
Proof.
  revert t a. induction bs as [|b bs IH]; intros t a Ht H; cbn [place_tasks] in H; [injection H as <- <-; apply moved_refl|].
  apply rbind_ok in H as ([[node t1]|] & Hp & H); [|done]. apply rbind_ok in H as (a1 & Ha & H).
  apply place_bundle_ok in Hp as (cap & rest & Hn & Hs & ->); [|done]. pose proof (move_at _ _ _ _ _ _ _ Hn Hs Ha) as Hm.
  eapply moved_trans; [exact Hm|]. by eapply IH; [apply Hm|].
Qed.

Lemma pin_actors_moved bundles ps t a t' a' : pin_actors bundles ps t a = Ok (Some (t', a')) -> moved t a t' a'.
Proof.
  revert t a. induction ps as [|p ps IH]; intros t a H; cbn [pin_actors] in H; [injection H as <- <-; apply moved_refl|].
  destruct (od_get _ bundles) as [v|]; [|done]. destruct (od_get _ t) as [cap|] eqn:En; [|done]. destruct (negb _); [done|].
  apply rbind_ok in H as (rest & Hs & H). apply rbind_ok in H as (a1 & Ha & H).
  eapply moved_trans; [by eapply move_at|]. by eapply IH.
Qed.

(** ** Divisible shares *)

Lemma replace_vb v dim value r : replace_resource v dim value = Ok r -> nonneg r /\ forall d,
  vb d r = match d, dim, value with
    | Heap, HeapBytes, NInt z => z | Objects, ObjectStoreBytes, NInt z => z
    | Heap, HeapBytes, NFloat _ => vb d r | Objects, ObjectStoreBytes, NFloat _ => vb d r
    | _, _, _ => vb d v
    end.
Proof.
  intros H. destruct dim; cbn [replace_resource] in H; apply rbind_ok in H as (x & Hx & H); (split; [by eapply new_nonneg|]);
    apply new_ok in H as (-> & _ & _); intros []; cbn; try done; destruct value; try done; congruence.
Qed.

Lemma bytes_amount dim x (z : num) : is_bytes dim = true -> (if is_bytes dim then let* z := f64_trunc x in Ok (NInt z) else Ok (NFloat x)) = Ok z ->
  exists k, z = NInt k.
Proof. intros ->. intros (k & _ & [= <-])%rbind_ok. by exists k. Qed.

Lemma divide_step dim least (amount : num) capacity allocated more less allocated' capacity' node t a :
  (if is_bytes dim then let* z := f64_trunc least in Ok (NInt z) else Ok (NFloat least)) = Ok amount ->
  od_get node t = Some capacity -> od_get node a = Some allocated ->
  num_add (res_dim dim allocated) amount = Ok more -> replace_resource allocated dim more = Ok allocated' ->
  num_sub (res_dim dim capacity) amount = Ok less -> replace_resource capacity dim less = Ok capacity' ->
  moved t a (od_set node capacity' t) (od_set node allocated' a).
Proof.
  intros Ham Ht Ha Hm Ha' Hl Hc'. apply replace_vb in Ha' as [Hna Ha'], Hc' as [Hnc Hc'].
  constructor; [by intros; apply tidy_set|by intros; apply tidy_set|by eapply od_keys_set_in| |].
  { intros k Hk. left. by rewrite (od_keys_set_in _ _ _ _ Ha) in Hk. }
  intros _ d sel. rewrite !weigh_set, (od_get_default_some _ _ _ _ Ht), (od_get_default_some _ _ _ _ Ha).
  destruct (sel node); [|lia]. specialize (Ha' d). specialize (Hc' d).
  destruct dim; cbn [is_bytes] in Ham; [| |apply bytes_amount with (dim := HeapBytes) in Ham as [k ->]; [|done]|apply bytes_amount with (dim := ObjectStoreBytes) in Ham as [k ->]; [|done]].
  - destruct d; cbn in *; lia.
  - destruct d; cbn in *; lia.
  - injection Hm as <-. injection Hl as <-. destruct d; cbn in *; lia.
  - injection Hm as <-. injection Hl as <-. destruct d; cbn in *; lia.
Qed.

Lemma od_item_ok {V} k (a : list (string * V)) v : od_item k a = Ok v -> od_get k a = Some v.
Proof. unfold od_item. destruct (od_get k a); [by intros [= ->]|done]. Qed.

Lemma divide_nodes_moved dim nodes needed t a needed' t' a' :
  divide_nodes dim nodes needed t a = Ok (needed', t', a') -> moved t a t' a'.
Proof.
  revert needed t a. induction nodes as [|node nodes IH]; intros needed t a H; cbn [divide_nodes] in H; [injection H as <- <- <-; apply moved_refl|].
  apply rbind_ok in H as (cap & Hc%od_item_ok & H). apply rbind_ok in H as (al & Ha%od_item_ok & H). apply rbind_ok in H as (av & _ & H).
  destruct (f64_le av eps); [by eapply IH|]. apply rbind_ok in H as (amount & Ham & H). destruct (num_le amount _); [by eapply IH|].
  apply rbind_ok in H as (more & Hmo & H). apply rbind_ok in H as (al' & Hal & H). apply rbind_ok in H as (less & Hle & H).
  apply rbind_ok in H as (cap' & Hcap & H). apply rbind_ok in H as (fa & _ & H).
  pose proof (divide_step _ _ _ _ _ _ _ _ _ _ _ _ Ham Hc Ha Hmo Hal Hle Hcap) as Hm.
  destruct (f64_le _ eps); [by injection H as <- <- <-|]. eapply moved_trans; [exact Hm|]. by eapply IH.
Qed.

Lemma divide_fields_moved dims request t a t' a' : divide_fields dims request t a = Ok (Some (t', a')) -> moved t a t' a'.
Proof.
  revert t a. induction dims as [|dim dims IH]; intros t a H; cbn [divide_fields] in H; [injection H as <- <-; apply moved_refl|].
  apply rbind_ok in H as ([[t1 a1]|] & Hf & H); [|done]. eapply moved_trans; [|by eapply IH]. clear H IH.
  unfold divide_field in Hf. apply rbind_ok in Hf as (needed & _ & Hf). destruct (f64_le needed eps); [injection Hf as <- <-; apply moved_refl|].
  apply rbind_ok in Hf as (nodes & _ & Hf). apply rbind_ok in Hf as ([[n2 t2] a2] & Hd & Hf). destruct (f64_lt eps n2); [done|].
  injection Hf as <- <-. by eapply divide_nodes_moved.
Qed.

Lemma is_zero_vb d r : Res.is_zero r = true -> vb d r = 0.
Proof. unfold Res.is_zero. rewrite !andb_true_iff, !Z.eqb_eq. intros [[_ ?] ?]. by destruct d. Qed.

Lemma weigh_nonzero d sel a : weigh d sel (List.filter (fun x => negb (Res.is_zero x.2)) a) = weigh d sel a.
Proof.
  unfold weigh. induction a as [|[k v] a IH]; [done|]. cbn [List.filter snd]. rewrite ksum_cons. destruct (Res.is_zero v) eqn:E; cbn [negb].
  - rewrite IH, (is_zero_vb d v E). destruct (sel k); lia.
  - by rewrite ksum_cons, IH.
Qed.

Lemma tidy_filter p a : tidy a -> tidy (List.filter p a).
Proof. intros [Hw Ha]. split; [by apply od_wf_filter|]. intros k v Hin%list_elem_of_In%filter_In. eapply Ha, list_elem_of_In, Hin. Qed.

Lemma zeros_tidy (t : amounts) : tidy t -> tidy (map (fun c => (c.1, Res.zero)) t).
Proof.
  intros [Hw _]. split; [unfold od_wf, od_keys in *; by rewrite map_map|]. intros k v (c & [= -> ->] & _)%list_elem_of_fmap. apply nonneg_zero.
Qed.

Lemma zeros_weigh d sel (t : amounts) : weigh d sel (map (fun c => (c.1, Res.zero)) t) = 0.
Proof. unfold weigh. apply ksum_zero. intros k v (c & [= -> ->] & _)%list_elem_of_fmap. destruct (sel c.1), d; done. Qed.

Lemma place_divisible_ok request t placed t' :
  tidy t -> place_divisible request t = Ok (Some (placed, t')) ->
  tidy placed /\ tidy t' /\ od_keys t' = od_keys t /\ (forall node, node ∈ od_keys placed -> node ∈ od_keys t) /\ forall d sel, weigh d sel t' + weigh d sel placed = weigh d sel t.
Proof.
  intros Ht H. unfold place_divisible in H. destruct (f64_lt _ _); [done|]. apply rbind_ok in H as ([[t1 a1]|] & Hd & H); [|done].
  injection H as <- <-. apply divide_fields_moved in Hd as [H1 H2 H3 H4 H5]. split; [by apply tidy_filter, H2, zeros_tidy|].
  split; [by apply H1|]. split; [done|]. split.
  { intros node (x & -> & Hx)%list_elem_of_fmap. apply list_elem_of_In, filter_In in Hx as [Hx%list_elem_of_In _].
    destruct (H4 x.1) as [Hk|Hk]; [apply list_elem_of_fmap; by exists x| |done]. unfold od_keys in *. by rewrite map_map in Hk. }
  intros d sel. rewrite weigh_nonzero, H5, zeros_weigh by done. lia.
Qed.

Lemma add_all_at placed a a' :
  rfoldM (fun a '(node, v) => add_at node v a) a placed = Ok a' ->
  (tidy a -> tidy a') /\ (forall node, node ∈ od_keys a' -> node ∈ od_keys a \/ node ∈ od_keys placed) /\
  forall d sel, weigh d sel a' = weigh d sel a + weigh d sel placed.
Proof.
  revert a. induction placed as [|[node v] placed IH]; intros a H; cbn [rfoldM] in H; [injection H as <-; split; [done|]; split; [auto|intros; unfold weigh; rewrite ksum_nil; lia]|].
  apply rbind_ok in H as (a1 & Ha & H). apply IH in H as (H1 & Hk & H2). unfold add_at in Ha. apply rbind_ok in Ha as (sum & Hs & [= <-]). split; [|split].
  - intros Ht. apply H1, tidy_set; [done|by eapply add_nonneg].
  - intros k [[?| ->]%od_keys_set_elem|?]%Hk; [by left|right; by left|right; by right].
  - intros d sel. rewrite H2, weigh_set, (add_vb d _ _ _ Hs). unfold weigh at 4. rewrite ksum_cons. fold (weigh d sel placed). destruct (sel node); lia.
Qed.

(** ** The account of a rebalance *)

(** What all queries got on the nodes selected. *)
Definition shared (d : byte_dim) (sel : string -> bool) (l : list (string * amounts)) : Z := ksum (fun _ a => weigh d sel a) l.

Record balanced (capacity : byte_dim -> (string -> bool) -> Z) (D : Draft) : Prop := {
  ba_remaining : tidy D.(df_remaining);
  ba_queries : od_wf D.(df_allocations);
  ba_shares : forall id a, (id, a) ∈ D.(df_allocations) -> tidy a /\ forall node, node ∈ od_keys a -> node ∈ od_keys D.(df_remaining);
  ba_conserved : forall d sel, weigh d sel D.(df_remaining) + shared d sel D.(df_allocations) = capacity d sel;
}.

Lemma shared_set d sel id a l :
  shared d sel (od_set id a l) = shared d sel l + weigh d sel a - weigh d sel (od_get_default id [] l).
Proof.
  unfold shared, od_get_default. destruct (od_get id l) as [a0|] eqn:E.
  - by rewrite (ksum_set _ _ a0) by exact E.
  - rewrite ksum_set_new by exact E. change (weigh d sel (default [] None)) with 0. lia.
Qed.

Section Balance.
Context (capacity : byte_dim -> (string -> bool) -> Z).

Lemma share_tidy D id : balanced capacity D ->
  tidy (node_allocations_of D id) /\ forall node, node ∈ od_keys (node_allocations_of D id) -> node ∈ od_keys D.(df_remaining).
Proof.
  intros HD. unfold node_allocations_of, od_get_default. destruct (od_get id (df_allocations D)) as [a|] eqn:E; [|split; [apply tidy_nil|by intros ? ?%not_elem_of_nil]].
  apply od_get_elem in E. by eapply ba_shares.
Qed.

(** A query's share changes as the nodes' rest does. *)
Lemma balanced_move D id t a D' :
  balanced capacity D -> moved D.(df_remaining) (node_allocations_of D id) t a ->
  D'.(df_remaining) = t -> D'.(df_allocations) = od_set id a D.(df_allocations) -> balanced capacity D'.
Proof.
  intros HD Hm Et Ea. destruct (share_tidy D id HD) as [Hs Hk]. destruct HD as [H1 H2 H3 H4]. destruct Hm as [M1 M2 M3 M5 M4].
  constructor; rewrite ?Et, ?Ea; [by apply M1|by apply od_wf_set| |].
  - rewrite M3. intros k b [?| ->]%od_set_elem; [eauto|]. split; [by apply M2|]. intros node [?|?]%M5; auto.
  - intros d sel. rewrite shared_set. specialize (M4 H1 d sel). specialize (H4 d sel). unfold node_allocations_of in M4. lia.
Qed.

Lemma balanced_same D D' : balanced capacity D -> D'.(df_remaining) = D.(df_remaining) -> D'.(df_allocations) = D.(df_allocations) -> balanced capacity D'.
Proof. intros [H1 H2 H3 H4] E1 E2. constructor; by rewrite ?E1, ?E2. Qed.

Lemma admit_query_balanced D q D' : balanced capacity D -> admit_query D q = Ok D' -> balanced capacity D'.
Proof.
  intros HD H. unfold admit_query in H. set (id := qd_query_id _) in H.
  assert (Htasks : forall t a D0, moved D.(df_remaining) (node_allocations_of D id) t a -> tidy t ->
    D0.(df_remaining) = D.(df_remaining) -> D0.(df_allocations) = D.(df_allocations) -> admit_tasks q t a D0 = Ok D' -> balanced capacity D').
  { intros t a D0 Hm Ht E1 E2 Hr. unfold admit_tasks in Hr. apply rbind_ok in Hr as ([[t1 a1]|] & Hp & [= <-]); [|by eapply balanced_same].
    eapply (balanced_move D id); [done|eapply moved_trans; [exact Hm|eapply place_tasks_moved; [exact Ht|exact Hp]]|done|]. cbn. by rewrite E2. }
  case_bool_decide; [by injection H as <-|]. case_bool_decide.
  - eapply Htasks; [apply moved_refl|apply HD|done|done|exact H].
  - apply rbind_ok in H as ([[[t a] placed]|] & Hp & H); [|by injection H as <-]. apply place_actors_moved in Hp; [|apply HD].
    eapply Htasks; [exact Hp|apply Hp, HD| | |exact H]; done.
Qed.

Lemma place_extra_balanced extras D q D' : balanced capacity D -> place_extra extras D q = Ok D' -> balanced capacity D'.
Proof.
  intros HD H. unfold place_extra in H. apply rbind_ok in H as ([[placed t]|] & Hp & H); [|done]. apply rbind_ok in H as (a & Ha & [= <-]).
  apply place_divisible_ok in Hp as (H1 & H2 & H3 & H5 & H4); [|apply HD]. apply add_all_at in Ha as (A1 & A3 & A2).
  eapply balanced_move; [done| |reflexivity|reflexivity]. constructor; [done|done|done|intros node [?|?]%A3; auto|]. intros _ d sel. rewrite A2. specialize (H4 d sel). cbn [df_remaining]. change (df_remaining (set_field _ _ (set_field df_remaining _ D))) with t. lia.
Qed.

Lemma fill_draft_balanced nodes ordered D D' : balanced capacity D -> fill_draft nodes ordered D = Ok D' -> balanced capacity D'.
Proof.
  intros HD H. unfold fill_draft in H. apply rbind_ok in H as (D1 & H1 & H). do 3 (apply rbind_ok in H as (? & _ & H)).
  eapply rfoldM_inv; [exact H| |intros; by eapply place_extra_balanced]. eapply rfoldM_inv; [exact H1|exact HD|intros; by eapply admit_query_balanced].
Qed.
End Balance.
