(* ===== verification/ClusterSteps.v ===== *)
(** * A rebalance, step by step

    What [_rebalance_locked] does to the queries: which fields change, which
    never do, and, when it returns, what every query has been given. *)

From S2P Require Import Prelude PyStr PyVal PyNum AdmissionLedger QueryGraph ResourceState ResourcePlacement ResourceBooks ClusterCoordinator ClusterBooks.
Import Cluster.

#[local] Open Scope string_scope.
#[local] Open Scope list_scope.
#[local] Open Scope Z_scope.
#[local] Arguments od_get_default : simpl never.

(** ** Changes of the queries *)

Definition put (id : string) (q : QueryState) (s : Coordinator) : Coordinator := s <| cl_queries ::= od_set id q |>.

Lemma od_set_again {V} (k : string) (v v' : V) d : od_set k v' (od_set k v d) = od_set k v' d.
Proof.
  induction d as [|[k1 v1] d IH]; cbn [od_set]; [by rewrite decide_True|].
  destruct (decide (k = k1)) as [->|]; cbn [od_set]; [by rewrite decide_True|]. by rewrite decide_False, IH.
Qed.

Lemma put_put id q q' s : put id q' (put id q s) = put id q' s.
Proof.
  change (put id q' (put id q s)) with (MkCoordinator s.(cl_heartbeat_timeout) s.(cl_nodes) (od_set id q' (od_set id q s.(cl_queries)))
    s.(cl_next_sequence) s.(cl_generation)). by rewrite od_set_again.
Qed.

Lemma put_get id q s : od_get id (put id q s).(cl_queries) = Some q.
Proof. cbn. apply od_get_set_eq. Qed.

(** Everything but the fields of the queries is kept, and those change as [R] says. *)
Record related (R : string -> QueryState -> QueryState -> Prop) (s s' : Coordinator) : Prop := {
  re_timeout : s'.(cl_heartbeat_timeout) = s.(cl_heartbeat_timeout);
  re_nodes : s'.(cl_nodes) = s.(cl_nodes);
  re_sequence : s'.(cl_next_sequence) = s.(cl_next_sequence);
  re_generation : s'.(cl_generation) = s.(cl_generation);
  re_keys : od_keys s'.(cl_queries) = od_keys s.(cl_queries);
  re_queries : forall id q, od_get id s.(cl_queries) = Some q -> exists q', od_get id s'.(cl_queries) = Some q' /\ R id q q';
}.

Lemma related_refl (R : string -> QueryState -> QueryState -> Prop) s : (forall id q, R id q q) -> related R s s.
Proof. intros HR. constructor; eauto. Qed.

Lemma related_trans (R1 R2 R : string -> QueryState -> QueryState -> Prop) s1 s2 s3 :
  (forall id q q' q'', R1 id q q' -> R2 id q' q'' -> R id q q'') -> related R1 s1 s2 -> related R2 s2 s3 -> related R s1 s3.
Proof.
  intros HR [] []. constructor; try congruence. intros id q Hq. destruct (re_queries0 id q Hq) as (q1 & H1 & H2).
  destruct (re_queries1 id q1 H1) as (q2 & H3 & H4). eauto.
Qed.

Lemma related_mono (R R' : string -> QueryState -> QueryState -> Prop) s s' :
  (forall id q q', od_get id s.(cl_queries) = Some q -> R id q q' -> R' id q q') -> related R s s' -> related R' s s'.
Proof. intros HR []. constructor; try done. intros id q Hq. destruct (re_queries0 id q Hq) as (q' & H1 & H2). eauto. Qed.

Lemma related_put (R : string -> QueryState -> QueryState -> Prop) id q q' s :
  od_get id s.(cl_queries) = Some q -> (forall id q, R id q q) -> R id q q' -> related R s (put id q' s).
Proof.
  intros Hq Hr HR. constructor; try done; [by eapply od_keys_set_in|]. intros id' q0 H0. cbn. rewrite od_get_set.
  destruct (decide (id = id')) as [->|]; [|eauto]. rewrite Hq in H0. injection H0 as <-. eauto.
Qed.

(** ** Pinning *)

(** Losing the placement is all that pinning does to a query. *)
Definition may_lose (id : string) (q q' : QueryState) : Prop := q' = q \/ q' = q <| qs_actor_placement_lost := true |>.

(** What is known of a query once it has been looked at. *)
Record fate (D : Draft) (id : string) (q q' : QueryState) : Prop := {
  ft_lost : id ∈ D.(df_lost) -> q'.(qs_actor_placement_lost) = true /\ placements_of D id = [] /\ node_allocations_of D id = [];
  ft_kept : (id ∉ D.(df_lost)) -> q' = q /\ q.(qs_actor_placement_lost) = false;
  ft_pinned : id ∈ D.(df_pinned) -> (id ∉ D.(df_lost)) /\ q.(qs_actor_placements) <> [] /\ placements_of D id = q.(qs_actor_placements) /\
    exists t t', pin_actors (by_bundle_key q.(qs_demand).(qd_actor_bundles)) q.(qs_actor_placements) t [] = Ok (Some (t', node_allocations_of D id));
  ft_free : (id ∉ D.(df_pinned)) -> (id ∉ D.(df_lost)) -> q.(qs_actor_placements) = [] /\ placements_of D id = [] /\ node_allocations_of D id = [];
}.

(** Nothing has been decided on a query yet. *)
Definition fresh (D : Draft) (id : string) : Prop :=
  (id ∉ D.(df_lost)) /\ (id ∉ D.(df_pinned)) /\ placements_of D id = [] /\ node_allocations_of D id = [].

Lemma od_get_default_set {V} (k k' : string) (v w : V) d :
  od_get_default k' w (od_set k v d) = if decide (k = k') then v else od_get_default k' w d.
Proof. unfold od_get_default. rewrite od_get_set. by destruct (decide (k = k')). Qed.

(** Two drafts that agree on a query. *)
Definition agree (D D' : Draft) (id : string) : Prop :=
  (id ∈ D'.(df_lost) <-> id ∈ D.(df_lost)) /\ (id ∈ D'.(df_pinned) <-> id ∈ D.(df_pinned)) /\
  placements_of D' id = placements_of D id /\ node_allocations_of D' id = node_allocations_of D id.

Lemma agree_refl D id : agree D D id.
Proof. done. Qed.

Lemma agree_fresh D D' id : agree D D' id -> fresh D id -> fresh D' id.
Proof. intros (H1 & H2 & H3 & H4) (F1 & F2 & F3 & F4). split; [by rewrite H1|]. split; [by rewrite H2|]. split; congruence. Qed.

Lemma agree_fate D D' id q q' : agree D D' id -> fate D id q q' -> fate D' id q q'.
Proof.
  intros (H1 & H2 & H3 & H4) [F1 F2 F3 F4]. constructor.
  - rewrite H1, H3, H4. apply F1.
  - rewrite H1. apply F2.
  - rewrite H1, H2, H3, H4. apply F3.
  - rewrite H1, H2, H3, H4. apply F4.
Qed.

Lemma agree_trans D1 D2 D3 id : agree D1 D2 id -> agree D2 D3 id -> agree D1 D3 id.
Proof. intros (H1 & H2 & H3 & H4) (G1 & G2 & G3 & G4). split; [by rewrite G1|]. split; [by rewrite G2|]. split; congruence. Qed.

#[local] Arguments od_set : simpl never.

Section Pin.
Context (capacity : byte_dim -> (string -> bool) -> Z).

Lemma balanced_pin D id t pinned D' :
  balanced capacity D -> node_allocations_of D id = [] -> moved D.(df_remaining) [] t pinned ->
  D'.(df_remaining) = t -> D'.(df_allocations) = od_set id pinned D.(df_allocations) -> balanced capacity D'.
Proof. intros HD Hn Hm. rewrite <- Hn in Hm. by eapply balanced_move. Qed.

(** One query, whose fate is decided while the others are left alone. *)
Lemma pin_query_wp D q s :
  let id := q.(qs_demand).(qd_query_id) in
  balanced capacity D -> fresh D id -> od_get id s.(cl_queries) = Some q ->
  wp (pin_query D q)
    (fun D' s' => balanced capacity D' /\ od_keys D'.(df_remaining) = od_keys D.(df_remaining) /\ D'.(df_admitted) = D.(df_admitted) /\
       (forall id', id' <> id -> agree D D' id') /\ related may_lose s s' /\
       (forall id', id' <> id -> od_get id' s'.(cl_queries) = od_get id' s.(cl_queries)) /\
       exists q', od_get id s'.(cl_queries) = Some q' /\ fate D' id q q')
    (fun _ s' => related may_lose s s') s.
Proof.
  intros id HD (F1 & F2 & F3 & F4) Hq. unfold pin_query. fold id.
  assert (Hr : related may_lose s s) by (apply related_refl; by left).
  assert (Hout : forall id', id' <> id -> agree D (D <| df_lost ::= union {[id]} |>) id').
  { intros id' Hne. split; [cbn; set_solver|]. done. }
  destruct (qs_actor_placement_lost q) eqn:El.
  { apply wp_ret. split; [by eapply balanced_same|]. split; [done|]. split; [done|]. split; [done|]. split; [done|]. split; [done|].
    exists q. split; [done|]. constructor; cbn; [done| | |]; set_solver. }
  case_bool_decide as Ep.
  { apply length_zero_iff_nil in Ep. apply wp_ret. split; [done|]. split; [done|]. split; [done|]. split; [done|]. split; [done|]. split; [done|].
    exists q. split; [done|]. constructor; cbn; [set_solver|done|set_solver|done]. }
  apply wp_bind, wp_lift; [|done]. intros [[t pinned]|] Hpin.
  - pose proof (pin_actors_moved _ _ _ _ _ _ Hpin) as Hm. apply wp_ret. split; [by eapply balanced_pin|]. split; [apply Hm|]. split; [done|].
    split; [|split; [done|]; split; [done|]].
    { intros id' Hne. unfold agree, placements_of, node_allocations_of. cbn. rewrite !od_get_default_set, !decide_False by done. set_solver. }
    exists q. split; [done|]. constructor; cbn; [set_solver|done| |set_solver].
    unfold placements_of, node_allocations_of. cbn. rewrite !od_get_default_set, !decide_True by done.
    intros _. split; [done|]. split; [by intros E; apply Ep; rewrite E|]. split; [done|]. eauto.
  - apply wp_bind. unfold on_query at 1. apply wp_modify. rewrite Hq. apply wp_ret. split; [by eapply balanced_same|]. split; [done|]. split; [done|].
    split; [done|]. split; [|split].
    + eapply related_put; [exact Hq|by left|by right].
    + intros id' Hne. cbn. by rewrite od_get_set_ne.
    + eexists. split; [apply put_get|]. constructor; cbn; [done| | |]; set_solver.
Qed.

Lemma may_lose_trans id q q' q'' : may_lose id q q' -> may_lose id q' q'' -> may_lose id q q''.
Proof. unfold may_lose. intros [->| ->] [->| ->]; auto. Qed.

Definition query_of (q : QueryState) : string := q.(qs_demand).(qd_query_id).

Lemma pin_all_wp l D s :
  balanced capacity D -> NoDup (map query_of l) ->
  (forall q, q ∈ l -> fresh D (query_of q) /\ od_get (query_of q) s.(cl_queries) = Some q) ->
  wp (sfold l pin_query D)
    (fun D' s' => balanced capacity D' /\ od_keys D'.(df_remaining) = od_keys D.(df_remaining) /\ D'.(df_admitted) = D.(df_admitted) /\
       related may_lose s s' /\
       (forall id, (id ∉ map query_of l) -> agree D D' id /\ od_get id s'.(cl_queries) = od_get id s.(cl_queries)) /\
       forall q, q ∈ l -> exists q', od_get (query_of q) s'.(cl_queries) = Some q' /\ fate D' (query_of q) q q')
    (fun _ s' => related may_lose s s') s.
Proof.
  revert D s. induction l as [|q l IH]; intros D s HD Hn Hl; cbn [sfold].
  { apply wp_ret. split; [done|]. split; [done|]. split; [done|]. split; [apply related_refl; by left|]. split; [done|].
    by intros q ?%not_elem_of_nil. }
  apply NoDup_cons in Hn as [Hq Hn]. destruct (Hl q ltac:(left)) as [Hf Hg]. apply wp_bind.
  eapply wp_mono; [exact (pin_query_wp D q s HD Hf Hg)| |done]. cbn beta. intros D1 s1 (H1 & H2 & H3 & H4 & H5 & H6 & q' & H7 & H8).
  eapply wp_mono; [apply (IH D1 s1); [done|done|]| |].
  - intros p Hp. destruct (Hl p ltac:(by right)) as [Fp Gp].
    assert (Hne : query_of p <> query_of q) by (intros E; apply Hq; rewrite <- E; apply list_elem_of_fmap; eauto).
    split; [eapply agree_fresh; [by apply H4|done]|]. by rewrite H6.
  - cbn beta. intros D2 s2 (G1 & G2 & G3 & G4 & G5 & G6). split; [done|]. split; [congruence|]. split; [congruence|].
    split; [eapply related_trans; [|exact H5|exact G4]; apply may_lose_trans|]. split.
    + intros id Hid. apply not_elem_of_cons in Hid as [Hne Hid]. destruct (G5 id Hid) as [A1 A2]. split; [eapply agree_trans; [by apply H4|done]|].
      rewrite A2. by apply H6.
    + intros p [->|Hp]%elem_of_cons; [|by apply G6]. destruct (G5 (query_of q) Hq) as [A1 A2]. exists q'. split; [by rewrite A2|].
      by eapply agree_fate.
  - intros e s2 G. eapply related_trans; [|exact H5|exact G]. apply may_lose_trans.
Qed.
End Pin.

(** ** Admission *)

(** The nodes and queries of a fresh draft. *)
Definition capacity_of (s : Coordinator) (d : byte_dim) (sel : string -> bool) : Z :=
  weigh d sel (map (fun n => (n.1, n.2.(nc_resources))) s.(cl_nodes)).

Definition everywhere : string -> bool := fun _ => true.

Lemma add_at_weigh node v a a' d : add_at node v a = Ok a' -> weigh d everywhere a' = weigh d everywhere a + vb d v.
Proof. unfold add_at. intros (sum & Hs & [= <-])%rbind_ok. rewrite weigh_set, (add_vb d _ _ _ Hs). cbn. lia. Qed.

Lemma place_tasks_total bs t a t' a' d : place_tasks bs t a = Ok (Some (t', a')) -> weigh d everywhere a' = weigh d everywhere a + zsum (map (vb d) bs).
Proof.
  revert t a. induction bs as [|b bs IH]; intros t a H; cbn [place_tasks] in H; [injection H as _ <-; cbn [map]; change (zsum []) with 0; lia|].
  apply rbind_ok in H as ([[node t1]|] & _ & H); [|done]. apply rbind_ok in H as (a1 & Ha & H).
  rewrite (IH _ _ H), (add_at_weigh _ _ _ _ d Ha). cbn [map]. rewrite zsum_cons. lia.
Qed.

Definition placement_key (p : ActorPlacement) : string * Z := (p.(ap_stage_id), p.(ap_actor_index)).

Lemma place_actors_total bs t a placed t' a' placed' :
  (forall b, b ∈ bs -> strip b.(ab_stage_id) = b.(ab_stage_id)) -> place_actors bs t a placed = Ok (Some (t', a', placed')) ->
  map placement_key placed' = map placement_key placed ++ map bundle_key bs /\
  forall d, weigh d everywhere a' = weigh d everywhere a + zsum (map (fun b => vb d b.(ab_resources)) bs).
Proof.
  revert t a placed. induction bs as [|b bs IH]; intros t a placed Hs H; cbn [place_actors] in H.
  { injection H as _ <- <-. cbn [map]. rewrite app_nil_r. split; [done|]. intros d. change (zsum []) with 0. lia. }
  apply rbind_ok in H as ([[node t1]|] & _ & H); [|done]. apply rbind_ok in H as (pl & Hpl & H). apply rbind_ok in H as (a1 & Ha & H).
  apply IH in H as [H1 H2]; [|intros; apply Hs; by right]. unfold Allocation.new_placement in Hpl. inv_ok. rewrite map_app in H1. split.
  - rewrite H1, <- app_assoc. cbn [map app]. unfold placement_key at 2, bundle_key at 2. cbn. by rewrite Hs by left.
  - intros d. rewrite H2, (add_at_weigh _ _ _ _ d Ha). cbn [map]. rewrite zsum_cons. lia.
Qed.

Lemma pin_actors_total bundles ps t a t' a' d :
  pin_actors bundles ps t a = Ok (Some (t', a')) ->
  weigh d everywhere a' = weigh d everywhere a + zsum (map (fun p => vb d (od_get_default (placement_key p) Res.zero bundles)) ps).
Proof.
  revert t a. induction ps as [|p ps IH]; intros t a H; cbn [pin_actors] in H; [injection H as _ <-; cbn [map]; change (zsum []) with 0; lia|].
  destruct (od_get _ bundles) as [v|] eqn:Ev; [|done]. destruct (od_get _ t); [|done]. destruct (negb _); [done|].
  apply rbind_ok in H as (rest & _ & H). apply rbind_ok in H as (a1 & Ha & H).
  rewrite (IH _ _ H), (add_at_weigh _ _ _ _ d Ha). cbn [map]. rewrite zsum_cons. unfold od_get_default at 2, placement_key at 2. rewrite Ev. cbn. lia.
Qed.

(** The bundles of a demand, in bytes. *)
Definition actor_bytes (d : byte_dim) (q : QueryState) : Z := zsum (map (fun b => vb d b.(ab_resources)) q.(qs_demand).(qd_actor_bundles)).
Definition task_bytes (d : byte_dim) (q : QueryState) : Z := zsum (map (vb d) q.(qs_demand).(qd_task_bundles)).

Lemma by_bundle_key_get l d acc : NoDup (map bundle_key l) -> (forall b, b ∈ l -> od_get (bundle_key b) acc = None) ->
  let t := fold_left (fun d b => od_set (bundle_key b) b.(ab_resources) d) l acc in
  (forall k, (k ∉ map bundle_key l) -> od_get k t = od_get k acc) /\
  zsum (map (fun k => vb d (od_get_default k Res.zero t)) (map bundle_key l)) = zsum (map (fun b => vb d b.(ab_resources)) l).
Proof.
  revert acc. induction l as [|b l IH]; intros acc Hn Ha; [done|]. apply NoDup_cons in Hn as [Hb Hn]. cbn [fold_left map].
  destruct (IH (od_set (bundle_key b) (ab_resources b) acc) Hn) as [H1 H2].
  { intros c Hc. rewrite od_get_set_ne; [apply Ha; by right|]. intros E. apply Hb. rewrite E. apply list_elem_of_fmap. eauto. }
  split.
  - intros k Hk. apply not_elem_of_cons in Hk as [Hk1 Hk2]. rewrite H1 by done. by apply od_get_set_ne.
  - rewrite !zsum_cons, H2. f_equal. unfold od_get_default. rewrite H1 by done. by rewrite od_get_set_eq.
Qed.

(** A demand as the constructor accepts it. *)
Record sound_demand (dm : QueryDemand) : Prop := {
  sd_keys : NoDup (map bundle_key dm.(qd_actor_bundles));
  sd_named : forall b, b ∈ dm.(qd_actor_bundles) -> strip b.(ab_stage_id) = b.(ab_stage_id);
  sd_minimum : forall d, zsum (map (fun b => vb d b.(ab_resources)) dm.(qd_actor_bundles)) + zsum (map (vb d) dm.(qd_task_bundles)) = vb d dm.(qd_minimum);
}.

(** Placements are those of the demand's bundles. *)
Definition matched (q : QueryState) : Prop :=
  q.(qs_actor_placements) = [] \/ map placement_key q.(qs_actor_placements) = map bundle_key q.(qs_demand).(qd_actor_bundles).

Lemma pinned_total q t t' a d :
  sound_demand q.(qs_demand) -> q.(qs_actor_placements) <> [] -> matched q ->
  pin_actors (by_bundle_key q.(qs_demand).(qd_actor_bundles)) q.(qs_actor_placements) t [] = Ok (Some (t', a)) ->
  weigh d everywhere a = actor_bytes d q.
Proof.
  intros Hs Hne [Hnil|Hm] H; [done|]. rewrite (pin_actors_total _ _ _ _ _ _ d H). change (weigh d everywhere []) with 0.
  rewrite <- (map_map placement_key (fun k => vb d (od_get_default k Res.zero _))), Hm.
  destruct (by_bundle_key_get (qd_actor_bundles (qs_demand q)) d [] (sd_keys _ Hs) ltac:(done)) as [_ E]. unfold by_bundle_key. rewrite E. done.
Qed.

(** What the loop over [ordered] may rely on. *)
Definition ready (D : Draft) (q : QueryState) : Prop :=
  (query_of q ∈ D.(df_pinned) -> map placement_key (placements_of D (query_of q)) = map bundle_key q.(qs_demand).(qd_actor_bundles) /\
     forall d, weigh d everywhere (node_allocations_of D (query_of q)) = actor_bytes d q) /\
  (query_of q ∉ D.(df_pinned) -> node_allocations_of D (query_of q) = []).

(** A query that got all its bundles. *)
Definition served (D : Draft) (q : QueryState) : Prop :=
  map placement_key (placements_of D (query_of q)) = map bundle_key q.(qs_demand).(qd_actor_bundles) /\
  forall d, actor_bytes d q + task_bytes d q <= weigh d everywhere (node_allocations_of D (query_of q)).

(** What stays when one query is dealt with. *)
Record steady (id : string) (D D' : Draft) : Prop := {
  st_lost : D'.(df_lost) = D.(df_lost);
  st_pinned : D'.(df_pinned) = D.(df_pinned);
  st_others : forall id', id' <> id -> agree D D' id';
  st_placements : id ∈ D.(df_pinned) -> placements_of D' id = placements_of D id;
  st_keys : od_keys D'.(df_remaining) = od_keys D.(df_remaining);
}.

Lemma steady_refl id D : steady id D D.
Proof. by constructor. Qed.

Lemma agree_steady D D' id : D'.(df_lost) = D.(df_lost) -> D'.(df_pinned) = D.(df_pinned) ->
  placements_of D' id = placements_of D id -> node_allocations_of D' id = node_allocations_of D id -> agree D D' id.
Proof. intros H1 H2 H3 H4. split; [by rewrite H1|]. by rewrite H2. Qed.

Lemma admit_tasks_cases D0 D q t a D' :
  query_of q ∉ D.(df_lost) -> tidy D.(df_remaining) -> moved D.(df_remaining) (node_allocations_of D (query_of q)) t a ->
  D0.(df_lost) = D.(df_lost) -> D0.(df_pinned) = D.(df_pinned) -> D0.(df_admitted) = D.(df_admitted) -> D0.(df_remaining) = D.(df_remaining) ->
  D0.(df_allocations) = D.(df_allocations) -> (forall id, id <> query_of q -> placements_of D0 id = placements_of D id) ->
  (query_of q ∈ D.(df_pinned) -> placements_of D0 (query_of q) = placements_of D (query_of q)) ->
  map placement_key (placements_of D0 (query_of q)) = map bundle_key q.(qs_demand).(qd_actor_bundles) ->
  (forall d, weigh d everywhere a = actor_bytes d q) ->
  admit_tasks q t a D0 = Ok D' ->
  steady (query_of q) D D' /\ (D'.(df_admitted) = D.(df_admitted) \/ (D'.(df_admitted) = D.(df_admitted) ++ [q] /\ served D' q)).
Proof.
  intros Hl Ht Hm E1 E2 E3 E4 E5 E6 E7 Hk Ha H. unfold admit_tasks in H. fold (query_of q) in H. apply rbind_ok in H as ([[t1 a1]|] & Hp & [= <-]).
  - assert (Hn : forall id, node_allocations_of (D0 <| df_remaining := t1 |> <| df_allocations ::= od_set (query_of q) a1 |>
        <| df_admitted ::= fun l => l ++ [q] |>) id = if decide (query_of q = id) then a1 else node_allocations_of D id).
    { intros id. unfold node_allocations_of. cbn. by rewrite E5, od_get_default_set. }
    split; [constructor|right; split].
    + done.
    + done.
    + intros id Hne. apply agree_steady; [done|done| |rewrite Hn; by rewrite decide_False]. by apply E6.
    + intros Hpi. by apply E7.
    + change (od_keys t1 = od_keys D.(df_remaining)). rewrite (mv_keys _ _ _ _ (place_tasks_moved _ _ _ _ _ (mv_trial _ _ _ _ Hm Ht) Hp)). apply Hm.
    + cbn. by rewrite E3.
    + split; [exact Hk|]. intros d. rewrite Hn, decide_True by done. rewrite (place_tasks_total _ _ _ _ _ d Hp), Ha. unfold task_bytes. lia.
  - split; [|by left]. constructor; [done|done| |done|by rewrite E4]. intros id Hne. apply agree_steady; [done|done|by apply E6|].
    unfold node_allocations_of. by rewrite E5.
Qed.

Lemma admit_query_cases D q D' :
  sound_demand q.(qs_demand) -> tidy D.(df_remaining) -> ready D q -> admit_query D q = Ok D' ->
  steady (query_of q) D D' /\ (query_of q ∈ D.(df_lost) -> D' = D) /\
  (D'.(df_admitted) = D.(df_admitted) \/ (D'.(df_admitted) = D.(df_admitted) ++ [q] /\ (query_of q ∉ D.(df_lost)) /\ served D' q)).
Proof.
  intros Hs Ht [R1 R2] H. unfold admit_query in H. fold (query_of q) in H. case_bool_decide as El.
  { injection H as <-. split; [apply steady_refl|]. auto. }
  case_bool_decide as Epi.
  - destruct (R1 Epi) as [K1 K2]. destruct (admit_tasks_cases D D q _ _ D' El Ht (moved_refl _ _)) as [S1 S2]; try done.
    split; [done|]. split; [done|]. destruct S2 as [?|[? ?]]; auto.
  - apply rbind_ok in H as ([[[t a] placed]|] & Hp & H).
    2: { injection H as <-. split; [apply steady_refl|]. auto. }
    destruct (place_actors_total _ _ _ _ _ _ _ (sd_named _ Hs) Hp) as [K1 K2]. rewrite (R2 Epi) in K2.
    destruct (admit_tasks_cases (D <| df_placements ::= od_set (query_of q) placed |>) D q t a D' El Ht) as [S1 S2]; try done.
    + by eapply place_actors_moved.
    + intros id Hne. unfold placements_of. cbn. by rewrite od_get_default_set, decide_False.
    + unfold placements_of. cbn. rewrite od_get_default_set, decide_True by done. exact K1.
    + split; [done|]. split; [done|]. destruct S2 as [?|[? ?]]; auto.
Qed.

Lemma served_agree D D' q : agree D D' (query_of q) -> served D q -> served D' q.
Proof. intros (_ & _ & H3 & H4) [S1 S2]. split; [by rewrite H3|]. intros d. rewrite H4. apply S2. Qed.

Lemma ready_agree D D' q : agree D D' (query_of q) -> ready D q -> ready D' q.
Proof. intros (_ & H2 & H3 & H4) [S1 S2]. split; rewrite H2, ?H3, H4; auto. Qed.

Lemma admit_all capacity l D D' :
  balanced capacity D -> NoDup (map query_of l) -> (forall q, q ∈ l -> sound_demand q.(qs_demand) /\ ready D q) ->
  rfoldM admit_query D l = Ok D' ->
  D'.(df_lost) = D.(df_lost) /\ D'.(df_pinned) = D.(df_pinned) /\ od_keys D'.(df_remaining) = od_keys D.(df_remaining) /\
  (forall id, (id ∉ map query_of l) -> agree D D' id) /\
  (forall id, id ∈ D.(df_lost) -> agree D D' id) /\
  (forall id, id ∈ D.(df_pinned) -> placements_of D' id = placements_of D id) /\
  exists l', D'.(df_admitted) = D.(df_admitted) ++ l' /\ forall q, q ∈ l' -> q ∈ l /\ (query_of q ∉ D.(df_lost)) /\ served D' q.
Proof.
  revert D. induction l as [|q l IH]; intros D HD Hn Hl H; cbn [rfoldM] in H.
  { injection H as <-. do 6 (split; [done|]). exists []. rewrite app_nil_r. split; [done|]. by intros ? ?%not_elem_of_nil. }
  apply rbind_ok in H as (D1 & H1 & H). apply NoDup_cons in Hn as [Hq Hn]. destruct (Hl q ltac:(left)) as [Hs Hr].
  destruct (admit_query_cases D q D1 Hs (ba_remaining _ _ HD) Hr H1) as (S1 & S2 & S3).
  assert (Hothers : forall p, p ∈ l -> query_of p <> query_of q) by (intros p Hp E; apply Hq; rewrite <- E; apply list_elem_of_fmap; eauto).
  destruct (IH D1) as (G1 & G2 & G3 & G4 & G5 & G6 & l' & G7 & G8); [by eapply admit_query_balanced|done| |done|].
  { intros p Hp. destruct (Hl p ltac:(by right)) as [? ?]. split; [done|]. eapply ready_agree; [|done]. apply S1. by apply Hothers. }
  destruct S1 as [T1 T2 T3 T4 T5]. split; [congruence|]. split; [congruence|]. split; [congruence|]. split; [|split; [|split]].
  - intros id Hid. apply not_elem_of_cons in Hid as [Hne Hid]. eapply agree_trans; [by apply T3|by apply G4].
  - intros id Hid. destruct (decide (id = query_of q)) as [->|Hne].
    + rewrite (S2 Hid) in *. by apply G5.
    + eapply agree_trans; [by apply T3|]. apply G5. by rewrite T1.
  - intros id Hid. rewrite G6 by (by rewrite T2). destruct (decide (id = query_of q)) as [->|Hne]; [by apply T4|]. by apply T3.
  - destruct S3 as [E|(E & Hlost & Hsv)].
    + exists l'. rewrite G7, E. split; [done|]. intros p Hp. destruct (G8 p Hp) as (? & ? & ?). rewrite <- T1. split; [by right|done].
    + exists (q :: l'). rewrite G7, E, <- app_assoc. split; [done|]. intros p [->|Hp]%elem_of_cons.
      * split; [left|]. split; [done|]. eapply served_agree; [|exact Hsv]. by apply G4.
      * destruct (G8 p Hp) as (? & ? & ?). rewrite <- T1. split; [by right|done].
Qed.

Lemma place_extra_cases extras D q D' :
  tidy D.(df_remaining) -> place_extra extras D q = Ok D' ->
  steady (query_of q) D D' /\ D'.(df_admitted) = D.(df_admitted) /\ D'.(df_placements) = D.(df_placements) /\
  forall p, served D p -> served D' p.
Proof.
  intros Ht H. unfold place_extra in H. fold (query_of q) in H. apply rbind_ok in H as ([[placed t]|] & Hp & H); [|done]. apply rbind_ok in H as (a & Ha & [= <-]).
  apply place_divisible_ok in Hp as (H1 & H2 & H3 & _ & _); [|done]. apply add_all_at in Ha as (_ & _ & A2).
  assert (Hn : forall id, node_allocations_of (D <| df_remaining := t |> <| df_allocations ::= od_set (query_of q) a |>) id =
      if decide (query_of q = id) then a else node_allocations_of D id).
  { intros id. unfold node_allocations_of. cbn. by rewrite od_get_default_set. }
  split; [|split; [done|split; [done|]]].
  - constructor; [done|done| |done|exact H3]. intros id Hne. apply agree_steady; [done|done|done|]. by rewrite Hn, decide_False.
  - intros p [S1 S2]. split; [exact S1|]. intros d. rewrite Hn. specialize (S2 d). destruct (decide _) as [E|]; [|done].
    rewrite A2, E. pose proof (weigh_nonneg d everywhere placed H1). lia.
Qed.

Lemma place_extras capacity extras l D D' :
  balanced capacity D -> rfoldM (place_extra extras) D l = Ok D' ->
  D'.(df_lost) = D.(df_lost) /\ D'.(df_pinned) = D.(df_pinned) /\ D'.(df_admitted) = D.(df_admitted) /\ D'.(df_placements) = D.(df_placements) /\
  od_keys D'.(df_remaining) = od_keys D.(df_remaining) /\ (forall id, (id ∉ map query_of l) -> agree D D' id) /\ (forall p, served D p -> served D' p).
Proof.
  revert D. induction l as [|q l IH]; intros D HD H; cbn [rfoldM] in H; [by injection H as <-|]. apply rbind_ok in H as (D1 & H1 & H).
  destruct (place_extra_cases extras D q D1 (ba_remaining _ _ HD) H1) as ([T1 T2 T3 T4 T5] & S2 & S3 & S4).
  destruct (IH D1) as (G1 & G2 & G3 & G4 & G5 & G6 & G7); [by eapply place_extra_balanced|done|].
  split; [congruence|]. split; [congruence|]. split; [congruence|]. split; [congruence|]. split; [congruence|]. split; [|auto].
  intros id Hid. apply not_elem_of_cons in Hid as [Hne Hid]. eapply agree_trans; [by apply T3|by apply G6].
Qed.

Lemma fill_draft_cases capacity nodes ordered D D' :
  balanced capacity D -> D.(df_admitted) = [] -> NoDup (map query_of ordered) -> (forall q, q ∈ ordered -> sound_demand q.(qs_demand) /\ ready D q) ->
  fill_draft nodes ordered D = Ok D' ->
  balanced capacity D' /\ D'.(df_lost) = D.(df_lost) /\ od_keys D'.(df_remaining) = od_keys D.(df_remaining) /\
  (forall id, id ∈ D.(df_lost) -> agree D D' id) /\
  (forall id, id ∈ D.(df_pinned) -> placements_of D' id = placements_of D id) /\
  forall q, q ∈ D'.(df_admitted) -> q ∈ ordered /\ (query_of q ∉ D.(df_lost)) /\ served D' q.
Proof.
  intros HD Ha Hn Hl H. split; [by eapply fill_draft_balanced|]. unfold fill_draft in H. apply rbind_ok in H as (D1 & H1 & H). do 3 (apply rbind_ok in H as (? & _ & H)).
  destruct (admit_all capacity _ _ _ HD Hn Hl H1) as (G1 & G2 & G3 & _ & G5 & G6 & l' & G7 & G8).
  assert (HD1 : balanced capacity D1) by (eapply rfoldM_inv; [exact H1|exact HD|intros; by eapply admit_query_balanced]).
  destruct (place_extras capacity _ _ _ _ HD1 H) as (K1 & K2 & K3 & K4 & K5 & K6 & K7). rewrite Ha in G7. cbn in G7.
  split; [congruence|]. split; [congruence|]. split; [|split].
  - intros id Hid. eapply agree_trans; [by apply G5|]. apply K6. rewrite G7. intros (q & -> & Hq)%list_elem_of_fmap. by destruct (G8 q Hq) as (_ & ? & _).
  - intros id Hid. unfold placements_of at 1. rewrite K4. by apply G6.
  - intros q Hq. rewrite K3, G7 in Hq. destruct (G8 q Hq) as (? & ? & ?). auto.
Qed.

(** ** Publication *)

Record unmoved (q q' : QueryState) : Prop := {
  um_demand : q'.(qs_demand) = q.(qs_demand);
  um_sequence : q'.(qs_sequence) = q.(qs_sequence);
  um_usage : q'.(qs_observed_usage) = q.(qs_observed_usage);
  um_lost : q'.(qs_actor_placement_lost) = q.(qs_actor_placement_lost);
  um_expires : q'.(qs_expires_at) = q.(qs_expires_at);
}.

Lemma unmoved_refl q : unmoved q q.
Proof. done. Qed.

Lemma unmoved_trans q q' q'' : unmoved q q' -> unmoved q' q'' -> unmoved q q''.
Proof. intros [] []. constructor; congruence. Qed.

(** The published allocation shows the placements of the query. *)
Definition mirrored (q : QueryState) : Prop := q.(qs_allocation).(al_placements) = q.(qs_actor_placements).

Lemma publish_placements nodes ps r generation a : publish_allocation nodes ps r generation = Ok a -> a.(al_placements) = ps.
Proof. unfold publish_allocation. intros (l & _ & H)%rbind_ok. unfold Allocation.new in H. by inv_ok. Qed.

(** In whatever state the loop stops. *)
Definition touched (D : Draft) (id : string) (q q' : QueryState) : Prop :=
  unmoved q q' /\ (q'.(qs_actor_placements) = q.(qs_actor_placements) \/ q'.(qs_actor_placements) = placements_of D id) /\
  (mirrored q -> mirrored q').

(** When it has passed a query. *)
Record published (D : Draft) (generation : Z) (id : string) (q q' : QueryState) : Prop := {
  pb_unmoved : unmoved q q';
  pb_nodes : q'.(qs_node_allocations) = node_allocations_of D id;
  pb_placements : q'.(qs_actor_placements) = placements_of D id;
  pb_allocation : exists resources, sum_resources (od_values (node_allocations_of D id)) = Ok resources /\
    publish_allocation (node_allocations_of D id) (placements_of D id) resources generation = Ok q'.(qs_allocation) /\
    positive_difference q.(qs_observed_usage) resources = Ok q'.(qs_allocation_debt);
  pb_state : q'.(qs_state) = if negb (Res.is_zero q'.(qs_allocation_debt)) && negb (bool_decide ((phase_of D id).1 = ACTOR_PLACEMENT_LOST))
    then ALLOCATION_DEBT else (phase_of D id).1;
}.

Lemma on_query_wp id f q s (Q : unit -> Coordinator -> Prop) E :
  od_get id s.(cl_queries) = Some q -> Q tt (put id (f q) s) -> wp (on_query id f) Q E s.
Proof. intros Hq HQ. unfold on_query. apply wp_modify. by rewrite Hq. Qed.

Lemma publish_query_wp D generation id q s :
  od_get id s.(cl_queries) = Some q ->
  wp (publish_query D generation id) (fun _ s' => exists q', s' = put id q' s /\ published D generation id q q')
    (fun _ s' => exists q', s' = put id q' s /\ touched D id q q') s.
Proof.
  intros Hq. unfold publish_query. destruct (phase_of D id) as [phase reason] eqn:Eph. apply wp_bind. eapply on_query_wp; [exact Hq|].
  set (q1 := q <| qs_state := phase |> <| qs_rejection_reason := reason |>).
  assert (T1 : touched D id q q1) by (split; [done|]; split; [by left|done]).
  apply wp_bind, wp_lift; [|by eauto]. intros resources Hr. apply wp_bind, wp_lift; [|by eauto]. intros al Hal.
  apply wp_bind. eapply on_query_wp; [apply put_get|]. rewrite put_put. set (q2 := q1 <| qs_allocation := al |> <| qs_node_allocations := _ |> <| qs_actor_placements := _ |>).
  assert (T2 : touched D id q q2) by (split; [done|]; split; [by right|]; intros _; exact (publish_placements _ _ _ _ _ Hal)).
  apply wp_bind, wp_get. apply wp_bind, wp_lift; [|by eauto]. intros q3 Hq3. apply od_item_ok in Hq3. rewrite put_get in Hq3. injection Hq3 as <-.
  apply wp_bind, wp_lift; [|by eauto]. intros debt Hd. apply wp_bind. eapply on_query_wp; [apply put_get|]. rewrite put_put.
  destruct (negb (Res.is_zero debt) && negb (bool_decide (phase = ACTOR_PLACEMENT_LOST))) eqn:Es.
  - eapply on_query_wp; [apply put_get|]. rewrite put_put. eexists. split; [reflexivity|].
    constructor; [done|done|done|exists resources; done|]. rewrite Eph. cbn. by rewrite Es.
  - apply wp_ret. eexists. split; [reflexivity|]. constructor; [done|done|done|exists resources; done|]. rewrite Eph. cbn. by rewrite Es.
Qed.

Lemma touched_refl D id q : touched D id q q.
Proof. split; [done|]. split; [by left|done]. Qed.

Lemma published_touched D generation id q q' : published D generation id q q' -> touched D id q q'.
Proof.
  intros [H1 _ H2 (r & _ & Ha & _) _]. split; [done|]. split; [by right|]. intros _. unfold mirrored. rewrite H2. by eapply publish_placements.
Qed.

Lemma publish_all_wp D generation l s :
  NoDup l -> (forall id, id ∈ l -> is_Some (od_get id s.(cl_queries))) ->
  wp (sfor l (publish_query D generation))
    (fun _ s' => related (fun id q q' => if bool_decide (id ∈ l) then published D generation id q q' else q' = q) s s')
    (fun _ s' => related (touched D) s s') s.
Proof.
  revert s. induction l as [|id l IH]; intros s Hn Hl; cbn [sfor].
  { apply wp_ret. apply related_refl. intros id q. by rewrite bool_decide_eq_false_2 by set_solver. }
  apply NoDup_cons in Hn as [Hid Hn]. destruct (Hl id ltac:(left)) as [q Hq]. apply wp_bind.
  eapply wp_mono; [exact (publish_query_wp D generation id q s Hq)| |].
  - cbn beta. intros _ s1 (q' & -> & Hpub). eapply wp_mono; [apply IH; [done|]| |].
    + intros id' Hid'. cbn. rewrite od_get_set. destruct (decide _); [eauto|]. apply Hl. by right.
    + cbn beta. intros _ s2 Hr. destruct Hr as [R1 R2 R3 R4 R5 R6]. constructor; [done|done|done|done|rewrite R5; by eapply od_keys_set_in|].
      intros id' q0 H0. destruct (decide (id = id')) as [<-|Hne].
      * destruct (R6 id q' (put_get _ _ _)) as (q2 & H2 & H3). rewrite bool_decide_eq_false_2 in H3 by done. subst q2. exists q'. split; [done|].
        rewrite bool_decide_eq_true_2 by left. rewrite Hq in H0. by injection H0 as <-.
      * destruct (R6 id' q0) as (q2 & H2 & H3); [cbn; by rewrite od_get_set_ne|]. exists q2. split; [done|].
        by rewrite (bool_decide_ext (id' ∈ id :: l) (id' ∈ l)) by set_solver.
    + cbn beta. intros _ s2 Hr. eapply related_trans; [|eapply (related_put (touched D)); [exact Hq|apply touched_refl|by eapply published_touched]|exact Hr].
      intros i a b c (U1 & V1 & W1) (U2 & V2 & W2). split; [by eapply unmoved_trans|]. split; [|auto]. destruct V1 as [V1|V1], V2 as [V2|V2]; rewrite V2; auto.
  - cbn beta. intros _ s1 (q' & -> & Ht). eapply related_put; [exact Hq|apply touched_refl|done].
Qed.

(** ** The placements of the next generation *)

Lemma admit_query_placements D q D' :
  sound_demand q.(qs_demand) -> admit_query D q = Ok D' ->
  forall id, placements_of D' id = placements_of D id \/
    (id = query_of q /\ map placement_key (placements_of D' id) = map bundle_key q.(qs_demand).(qd_actor_bundles)).
Proof.
  intros Hs H id. unfold admit_query in H. fold (query_of q) in H. case_bool_decide; [injection H as <-; by left|].
  assert (Htasks : forall t a D0, admit_tasks q t a D0 = Ok D' -> D'.(df_placements) = D0.(df_placements)).
  { intros t a D0 Hr. unfold admit_tasks in Hr. apply rbind_ok in Hr as ([[? ?]|] & _ & [= <-]); done. }
  case_bool_decide; [left; unfold placements_of; by rewrite (Htasks _ _ _ H)|].
  apply rbind_ok in H as ([[[t a] placed]|] & Hp & H); [|injection H as <-; by left].
  destruct (place_actors_total _ _ _ _ _ _ _ (sd_named _ Hs) Hp) as [K1 _]. unfold placements_of. rewrite (Htasks _ _ _ H). cbn.
  rewrite od_get_default_set. destruct (decide (query_of q = id)) as [<-|]; [right; done|by left].
Qed.

Lemma fill_draft_placements nodes ordered D D' :
  (forall q, q ∈ ordered -> sound_demand q.(qs_demand)) -> fill_draft nodes ordered D = Ok D' ->
  forall id, placements_of D' id = placements_of D id \/
    exists q, q ∈ ordered /\ id = query_of q /\ map placement_key (placements_of D' id) = map bundle_key q.(qs_demand).(qd_actor_bundles).
Proof.
  intros Hs H id. unfold fill_draft in H. apply rbind_ok in H as (D1 & H1 & H). do 3 (apply rbind_ok in H as (? & _ & H)).
  assert (E : D'.(df_placements) = D1.(df_placements)).
  { eapply (rfoldM_inv (fun D => D.(df_placements) = D1.(df_placements))); [exact H|done|]. intros D2 q D3 _ HD Hx. rewrite <- HD.
    unfold place_extra in Hx. apply rbind_ok in Hx as ([[? ?]|] & _ & Hx); [|done]. by apply rbind_ok in Hx as (? & _ & [= <-]). }
  unfold placements_of. rewrite E. fold (placements_of D1 id) (placements_of D id). clear H E D'.
  revert D H1. induction ordered as [|q l IH]; intros D H; cbn [rfoldM] in H; [injection H as <-; by left|].
  apply rbind_ok in H as (D2 & H2 & H). destruct (IH ltac:(intros; apply Hs; by right) D2 H) as [E|(p & Hp & Hk)]; [|right; exists p; split; [by right|done]].
  destruct (admit_query_placements D q D2 (Hs q ltac:(left)) H2 id) as [E2|[E2 K2]]; [left; congruence|].
  right. exists q. split; [left|]. split; [done|]. by rewrite E.
Qed.

(** ** The whole rebalance *)

Record orderly (s : Coordinator) : Prop := {
  or_queries : od_wf s.(cl_queries);
  or_ids : forall id q, od_get id s.(cl_queries) = Some q -> query_of q = id;
  or_nodes : od_wf s.(cl_nodes);
  or_sound : forall id n, (id, n) ∈ s.(cl_nodes) -> strip id = id /\ nonneg n.(nc_resources);
  or_demands : forall id q, od_get id s.(cl_queries) = Some q -> sound_demand q.(qs_demand);
  or_matched : forall id q, od_get id s.(cl_queries) = Some q -> matched q;
  or_mirrored : forall id q, od_get id s.(cl_queries) = Some q -> mirrored q;
  or_sequences : forall id q, od_get id s.(cl_queries) = Some q -> q.(qs_sequence) < s.(cl_next_sequence);
}.

(** Actors that are placed stay where they are, or the query loses them and
    has none; a query that has lost its actors gets none elsewhere. *)
Definition settled_actors (q q' : QueryState) : Prop :=
  q.(qs_actor_placements) <> [] \/ q.(qs_actor_placement_lost) = true ->
  q'.(qs_actor_placements) = q.(qs_actor_placements) \/ (q'.(qs_actor_placement_lost) = true /\ q'.(qs_actor_placements) = []).

(** What a rebalance leaves of a query, even if it raises. *)
Record persists (q q' : QueryState) : Prop := {
  pe_demand : q'.(qs_demand) = q.(qs_demand);
  pe_sequence : q'.(qs_sequence) = q.(qs_sequence);
  pe_lost : q.(qs_actor_placement_lost) = true -> q'.(qs_actor_placement_lost) = true;
  pe_actors : settled_actors q q';
  pe_matched : matched q -> matched q';
  pe_mirrored : mirrored q -> mirrored q';
}.

Lemma persists_refl q : persists q q.
Proof. constructor; auto. intros _. by left. Qed.

(** What it makes of it when it returns. *)
Record settled (D : Draft) (generation : Z) (id : string) (q q' : QueryState) : Prop := {
  se_persists : persists q q';
  se_nodes : q'.(qs_node_allocations) = node_allocations_of D id;
  se_placements : q'.(qs_actor_placements) = placements_of D id;
  se_allocation : exists resources, sum_resources (od_values (node_allocations_of D id)) = Ok resources /\
    publish_allocation (node_allocations_of D id) (placements_of D id) resources generation = Ok q'.(qs_allocation);
  se_running : q'.(qs_state) = RUNNING -> served D q' /\ q'.(qs_actor_placement_lost) = false;
  se_lost : q'.(qs_actor_placement_lost) = true -> q'.(qs_state) = ACTOR_PLACEMENT_LOST /\ q'.(qs_actor_placements) = [] /\ node_allocations_of D id = [];
}.

Definition bumped (s : Coordinator) : Coordinator := s <| cl_generation ::= Z.succ |>.

Lemma start_balanced s : orderly s -> balanced (capacity_of s) (start_draft s).
Proof.
  intros Hs. constructor; unfold start_draft; cbn [df_remaining df_allocations].
  - split; [unfold od_wf, od_keys; rewrite map_map; apply (or_nodes _ Hs)|]. intros k v ([k' n] & [= -> ->] & Hn)%list_elem_of_fmap. by apply (or_sound _ Hs k' n).
  - unfold od_wf, od_keys. rewrite map_map. apply (or_queries _ Hs).
  - intros k a ([k' q] & [= -> ->] & _)%list_elem_of_fmap. split; [apply tidy_nil|]. by intros ? ?%not_elem_of_nil.
  - intros d sel. unfold capacity_of. assert (E : shared d sel (map (fun q : string * QueryState => (q.1, [])) s.(cl_queries)) = 0); [|lia].
    unfold shared. apply ksum_zero. by intros k a (q & [= -> ->] & _)%list_elem_of_fmap.
Qed.

Lemma map_empty_get {V W} (k : string) (d : list (string * V)) : od_get_default k [] (map (fun e => (e.1, @nil W)) d) = [].
Proof. unfold od_get_default. induction d as [|[k' v] d IH]; [done|]. cbn. by destruct (decide (k = k')). Qed.

Lemma start_fresh s id : fresh (start_draft s) id.
Proof. split; [set_solver|]. split; [set_solver|]. unfold placements_of, node_allocations_of. cbn. by rewrite !map_empty_get. Qed.

Lemma values_elem {V} (d : list (string * V)) v : od_wf d -> v ∈ od_values d -> exists k, od_get k d = Some v.
Proof. intros Hw ([k v'] & -> & Hin)%list_elem_of_fmap. exists k. by apply od_elem_get. Qed.

Lemma map_query_of s : orderly s -> map query_of (od_values s.(cl_queries)) = od_keys s.(cl_queries).
Proof.
  intros Hs. unfold od_values, od_keys. rewrite map_map. apply map_ext_in. intros [id q] Hin%list_elem_of_In. apply (or_ids _ Hs). by apply od_elem_get; [apply Hs|].
Qed.

Lemma ids_nodup s l : orderly s -> Permutation l (od_values s.(cl_queries)) -> NoDup (map query_of l).
Proof. intros Hs Hp. rewrite Hp, map_query_of by done. apply Hs. Qed.

Lemma may_lose_persists id q q' : may_lose id q q' -> persists q q'.
Proof. intros [->| ->]; [apply persists_refl|]. constructor; cbn; auto. intros _. by left. Qed.

Lemma related_orderly R s s' : (forall id q q', od_get id s.(cl_queries) = Some q -> R id q q' -> persists q q') -> related R s s' -> orderly s -> orderly s'.
Proof.
  intros HR Hr Hs. assert (Hback : forall id q', od_get id s'.(cl_queries) = Some q' -> exists q, od_get id s.(cl_queries) = Some q /\ persists q q').
  { intros id q' Hq'. destruct (od_get id s.(cl_queries)) as [q|] eqn:Eq.
    - destruct (re_queries _ _ _ Hr id q Eq) as (q2 & H2 & H3). rewrite Hq' in H2. injection H2 as <-. eauto.
    - apply od_get_None in Eq. destruct Eq. rewrite <- (re_keys _ _ _ Hr). apply od_get_elem in Hq'. apply list_elem_of_fmap. by exists (id, q'). }
  destruct Hr as [R1 R2 R3 R4 R5 _]. constructor.
  - unfold od_wf. rewrite R5. apply Hs.
  - intros id q' Hq'. destruct (Hback id q' Hq') as (q & Hq & []). unfold query_of. rewrite pe_demand0. by apply (or_ids _ Hs).
  - rewrite R2. apply Hs.
  - rewrite R2. apply Hs.
  - intros id q' Hq'. destruct (Hback id q' Hq') as (q & Hq & []). rewrite pe_demand0. by eapply or_demands.
  - intros id q' Hq'. destruct (Hback id q' Hq') as (q & Hq & []). eapply pe_matched0, or_matched; eauto.
  - intros id q' Hq'. destruct (Hback id q' Hq') as (q & Hq & []). eapply pe_mirrored0, or_mirrored; eauto.
  - intros id q' Hq'. destruct (Hback id q' Hq') as (q & Hq & []). rewrite pe_sequence0, R3. by eapply or_sequences.
Qed.

Lemma bumped_orderly s : orderly s -> orderly (bumped s).
Proof. by intros []. Qed.

(** A query that the first loop has dealt with is ready for the second. *)
Lemma fate_ready D id q q1 : query_of q1 = id -> sound_demand q.(qs_demand) -> matched q -> fate D id q q1 -> ready D q1.
Proof.
  intros E Hs Hm [F1 F2 F3 F4]. unfold ready. rewrite E. split.
  - intros Hpi. destruct (F3 Hpi) as (Hl & Hne & Hpl & t & t' & Hpin). destruct (F2 Hl) as [-> _]. split.
    + rewrite Hpl. by destruct Hm.
    + intros d. by eapply pinned_total.
  - intros Hpi. destruct (decide (id ∈ D.(df_lost))) as [Hl|Hl]; [by destruct (F1 Hl) as (_ & _ & ?)|by destruct (F4 Hpi Hl) as (_ & _ & ?)].
Qed.

Section Compose.
Context (s1 : Coordinator) (ordered : list QueryState) (D D' : Draft) (nodes : list (string * NodeCapacity)).
Context (Hs1 : orderly s1) (Hperm : Permutation ordered (od_values s1.(cl_queries))).
Context (Hfill : fill_draft nodes ordered D = Ok D').

Lemma ordered_query p : p ∈ ordered -> od_get (query_of p) s1.(cl_queries) = Some p.
Proof using Hs1 Hperm.
  rewrite Hperm. intros Hp. destruct (values_elem _ _ (or_queries _ Hs1) Hp) as [k Hk]. by rewrite (or_ids _ Hs1 k p Hk).
Qed.

(** From the first loop to whatever the last one leaves. *)
Lemma fate_persists id q q1 q' :
  od_get id s1.(cl_queries) = Some q1 -> matched q -> may_lose id q q1 -> fate D id q q1 ->
  (forall i, i ∈ D.(df_lost) -> agree D D' i) -> (forall i, i ∈ D.(df_pinned) -> placements_of D' i = placements_of D i) ->
  touched D' id q1 q' -> persists q q'.
Proof using Hs1 Hperm Hfill.
  intros Hq1 Hm Hml [F1 F2 F3 F4] Hlost Hpin ([U1 U2 U3 U4 U5] & Hpl & Hmir).
  assert (Ed : q1.(qs_demand) = q.(qs_demand)) by (destruct Hml as [->| ->]; done).
  constructor.
  - congruence.
  - rewrite U2. by destruct Hml as [->| ->].
  - intros Hl. rewrite U4. by destruct Hml as [->| ->].
  - intros Hne. destruct (decide (id ∈ D.(df_lost))) as [Hl|Hl].
    { destruct (F1 Hl) as (L1 & L2 & _), (Hlost id Hl) as (_ & _ & A3 & _). destruct Hpl as [->| ->].
      - left. by destruct Hml as [->| ->].
      - right. split; congruence. }
    left. destruct (F2 Hl) as [-> Hf]. assert (q.(qs_actor_placements) <> []) by (destruct Hne; congruence). clear Hne. destruct Hpl as [->| ->]; [done|]. destruct (decide (id ∈ D.(df_pinned))) as [Hpi|Hpi]; [|by destruct (F4 Hpi Hl)].
    rewrite Hpin by done. by destruct (F3 Hpi) as (_ & _ & ? & _).
  - intros _. assert (Hold : matched q1) by (unfold matched in *; destruct Hml as [->| ->]; done). unfold matched. rewrite U1.
    destruct Hpl as [->| ->]; [done|].
    destruct (fill_draft_placements nodes ordered D D') with (id := id) as [E|(p & Hp & Eid & Hk)]; [|done| |].
    + intros p Hp. eapply or_demands, ordered_query; eauto.
    + rewrite E. destruct (decide (id ∈ D.(df_lost))) as [Hl|Hl]; [left; by destruct (F1 Hl) as (_ & ? & _)|].
      destruct (decide (id ∈ D.(df_pinned))) as [Hpi|Hpi].
      * destruct (F3 Hpi) as (_ & _ & -> & _). destruct (F2 Hl) as [-> _]. done.
      * left. by destruct (F4 Hpi Hl) as (_ & ? & _).
    + right. subst id. pose proof (ordered_query p Hp) as H. rewrite Hq1 in H. injection H as <-. done.
  - intros Hq. apply Hmir. by destruct Hml as [->| ->].
Qed.

Lemma admitted_of id : (forall p, p ∈ D'.(df_admitted) -> p ∈ ordered) ->
  existsb (fun p => String.eqb p.(qs_demand).(qd_query_id) id) D'.(df_admitted) = true -> exists p, p ∈ D'.(df_admitted) /\ query_of p = id /\ od_get id s1.(cl_queries) = Some p.
Proof using Hs1 Hperm.
  intros Ha (p & Hp%list_elem_of_In & E%String.eqb_eq)%existsb_exists. exists p. split; [done|]. split; [done|]. rewrite <- E. by apply ordered_query, Ha.
Qed.

Lemma fate_settled generation id q q1 q' :
  od_get id s1.(cl_queries) = Some q1 -> matched q -> may_lose id q q1 -> fate D id q q1 ->
  D'.(df_lost) = D.(df_lost) -> (forall i, i ∈ D.(df_lost) -> agree D D' i) -> (forall i, i ∈ D.(df_pinned) -> placements_of D' i = placements_of D i) ->
  (forall p, p ∈ D'.(df_admitted) -> p ∈ ordered /\ (query_of p ∉ D.(df_lost)) /\ served D' p) ->
  published D' generation id q1 q' -> settled D' generation id q q'.
Proof using Hs1 Hperm Hfill.
  intros Hq1 Hm Hml Hf El Hlost Hpin Hadm Hpub. pose proof (fate_persists _ _ _ _ Hq1 Hm Hml Hf Hlost Hpin (published_touched _ _ _ _ _ Hpub)) as Hper.
  destruct Hpub as [[U1 U2 U3 U4 U5] P2 P3 (res & P4 & P5 & _) P6]. destruct Hf as [F1 F2 F3 F4].
  assert (Hex : forall b, existsb (fun p => String.eqb p.(qs_demand).(qd_query_id) id) D'.(df_admitted) = b -> b = true -> served D' q1 /\ (id ∉ D.(df_lost))).
  { intros b Eb ->. destruct (admitted_of id ltac:(intros p Hp; by apply Hadm) Eb) as (p & Hp & Ep & Hg). rewrite Hq1 in Hg. injection Hg as <-.
    destruct (Hadm q1 Hp) as (_ & Hnl & Hsv). rewrite Ep in Hnl. done. }
  constructor; [done|done|done|eauto| |].
  - intros Hr. rewrite P6 in Hr. destruct (_ && _); [done|]. unfold phase_of in Hr.
    destruct (existsb _ _) eqn:Ex; [|by destruct (bool_decide _)]. destruct (Hex true eq_refl eq_refl) as [Hsv Hnl]. split.
    + unfold served, query_of, actor_bytes, task_bytes in *. by rewrite U1.
    + rewrite U4. by destruct (F2 Hnl) as [-> ?].
  - intros Hl. rewrite U4 in Hl. destruct (decide (id ∈ D.(df_lost))) as [Hin|Hnin]; [|destruct (F2 Hnin) as [-> ?]; congruence].
    destruct (F1 Hin) as (_ & E1 & E2). destruct (Hlost id Hin) as (_ & _ & A3 & A4). split; [|split; [rewrite P3; congruence|congruence]].
    assert (Eph : (phase_of D' id).1 = ACTOR_PLACEMENT_LOST).
    { unfold phase_of. destruct (existsb _ _) eqn:Ex; [by destruct (Hex true eq_refl eq_refl)|]. by rewrite El, bool_decide_eq_true_2. }
    rewrite P6, Eph, bool_decide_eq_true_2 by done. by rewrite andb_false_r.
Qed.
End Compose.

Lemma rebalance_wp s :
  orderly s ->
  wp rebalance
    (fun _ s' => exists D, balanced (capacity_of s) D /\ od_keys D.(df_remaining) = od_keys s.(cl_nodes) /\
       related (settled D (Z.succ s.(cl_generation))) (bumped s) s')
    (fun _ s' => related (fun _ => persists) (bumped s) s') s.
Proof.
  intros Hs. pose proof (bumped_orderly s Hs) as Hb. unfold rebalance. apply wp_bind, wp_modify. fold (bumped s). apply wp_bind, wp_get.
  assert (Hr0 : related (fun _ => persists) (bumped s) (bumped s)) by (apply related_refl; intros; apply persists_refl).
  apply wp_bind, wp_lift; [|done]. intros seq Hseq%py_sorted_by_perm. apply wp_bind.
  eapply wp_mono; [apply (pin_all_wp (capacity_of s) seq (start_draft (bumped s)) (bumped s))| |].
  { exact (start_balanced _ Hb). }
  { by eapply ids_nodup. }
  { intros q Hq. split; [apply start_fresh|]. rewrite Hseq in Hq. destruct (values_elem _ _ (or_queries _ Hb) Hq) as [k Hk]. by rewrite (or_ids _ Hb k q Hk). }
  2: { cbn beta. intros _ s' Hr. eapply related_mono; [|exact Hr]. intros. by eapply may_lose_persists. }
  cbn beta. intros D s1 (B1 & B2 & B3 & B4 & _ & B6).
  assert (Hs1 : orderly s1) by (eapply related_orderly; [|exact B4|exact Hb]; intros; by eapply may_lose_persists).
  assert (Hmid : related (fun _ => persists) (bumped s) s1) by (eapply related_mono; [|exact B4]; intros; by eapply may_lose_persists).
  assert (Hfate : forall id q, od_get id (bumped s).(cl_queries) = Some q -> exists q1, od_get id s1.(cl_queries) = Some q1 /\ may_lose id q q1 /\ fate D id q q1).
  { intros id q Hq. assert (Hin : q ∈ seq) by (rewrite Hseq; apply list_elem_of_fmap; exists (id, q); split; [done|by apply od_get_elem]).
    destruct (B6 q Hin) as (q1 & Hq1 & Hf). rewrite (or_ids _ Hb id q Hq) in Hq1, Hf. exists q1. split; [done|]. split; [|done].
    destruct (re_queries _ _ _ B4 id q Hq) as (q2 & H2 & H3). rewrite Hq1 in H2. by injection H2 as <-. }
  apply wp_bind, wp_get. apply wp_bind, wp_lift; [|done]. intros ordered Hord%py_sorted_by_perm.
  apply wp_bind, wp_lift; [|done]. intros D' Hfill.
  assert (Hready : forall q1, q1 ∈ ordered -> sound_demand q1.(qs_demand) /\ ready D q1).
  { intros q1 Hq1. assert (Hg : od_get (query_of q1) s1.(cl_queries) = Some q1) by (by eapply ordered_query).
    split; [by eapply or_demands|]. destruct (od_get (query_of q1) (bumped s).(cl_queries)) as [q|] eqn:Eq.
    - destruct (Hfate _ q Eq) as (q2 & H2 & H3 & H4). rewrite Hg in H2. injection H2 as <-.
      eapply fate_ready; [reflexivity|exact (or_demands _ Hb _ _ Eq)|exact (or_matched _ Hb _ _ Eq)|exact H4].
    - apply od_get_None in Eq. destruct Eq. rewrite <- (re_keys _ _ _ B4). apply od_get_elem in Hg. apply list_elem_of_fmap. by exists (query_of q1, q1). }
  destruct (fill_draft_cases (capacity_of s) _ _ _ _ B1 B3 (ids_nodup s1 ordered Hs1 Hord) Hready Hfill) as (C1 & C2 & C3 & C4 & C5 & C6).
  eapply wp_mono; [apply publish_all_wp| |].
  - apply Hs1.
  - intros id (e & -> & Hin)%list_elem_of_fmap. destruct e as [k v]. exists v. by apply od_elem_get; [apply Hs1|].
  - cbn beta. intros _ s2 Hr. exists D'. split; [done|]. split; [rewrite C3, B2; cbn; unfold od_keys; by rewrite map_map|].
    destruct B4 as [R1 R2 R3 R4 R5 _], Hr as [Q1 Q2 Q3 Q4 Q5 Q6]. constructor; try congruence.
    intros id q Hq. destruct (Hfate id q Hq) as (q1 & H1 & H2 & H3). destruct (Q6 id q1 H1) as (q' & H4 & H5). exists q'. split; [done|].
    rewrite bool_decide_eq_true_2 in H5 by (apply od_get_elem in H1; apply list_elem_of_fmap; by exists (id, q1)).
    eapply (fate_settled s1 ordered D D' _ Hs1 Hord Hfill); eauto. exact (or_matched _ Hb _ _ Hq).
  - cbn beta. intros _ s2 [Q1 Q2 Q3 Q4 Q5 Q6]. destruct B4 as [R1 R2 R3 R4 R5 _]. constructor; try congruence.
    intros id q Hq. destruct (Hfate id q Hq) as (q1 & H1 & H2 & H3). destruct (Q6 id q1 H1) as (q' & H4 & H5). exists q'. split; [done|].
    eapply (fate_persists s1 ordered D D' _ Hs1 Hord Hfill); eauto. exact (or_matched _ Hb _ _ Hq).
Qed.
