(* ===== verification/ClusterCalls.v ===== *)
(** * The calls of the cluster coordinator

    What an allocation promises once it is published, and that every call
    keeps the coordinator orderly, whatever its outcome, and its allocations
    within the cluster when it returns. *)

From S2P Require Import Prelude PyStr PyVal PyNum AdmissionLedger QueryGraph GraphProofs ResourceState ResourcePlacement ResourceBooks ResourceHistories ResourceStart ClusterCoordinator ClusterBooks ClusterSteps.
Import Cluster.

#[local] Open Scope string_scope.
#[local] Open Scope list_scope.
#[local] Open Scope Z_scope.
#[local] Arguments od_get_default : simpl never.
#[local] Arguments od_set : simpl never.
#[local] Arguments ksum : simpl never.

(** ** Published allocations *)

(** The bytes an allocation gives on a node. *)
Definition node_share (d : byte_dim) (n : string) (a : QueryAllocation) : Z :=
  zsum (map (fun x => if String.eqb n x.(na_node_id) then vb d x.(na_resources) else 0) a.(al_nodes)).

(** The bytes a node has. *)
Definition node_bytes (d : byte_dim) (n : string) (s : Coordinator) : Z :=
  match od_get n s.(cl_nodes) with Some c => vb d c.(nc_resources) | None => 0 end.

Lemma weigh_perm d sel a a' : Permutation a a' -> weigh d sel a = weigh d sel a'.
Proof. unfold weigh, ksum. induction 1; cbn [map]; rewrite ?zsum_cons in *; lia. Qed.

Lemma weigh_cons d sel k v a : weigh d sel ((k, v) :: a) = (if sel k then vb d v else 0) + weigh d sel a.
Proof. done. Qed.

Lemma sum_resources_vb d a r : sum_resources (od_values a) = Ok r -> vb d r = weigh d everywhere a.
Proof.
  unfold sum_resources. intros H. enough (E : vb d r = vb d Res.zero + weigh d everywhere a) by (rewrite E; by destruct d).
  revert H. generalize Res.zero as acc. induction a as [|[k v] a IH]; intros acc H; cbn [od_values map rfoldM snd] in H.
  - injection H as <-. change (weigh d everywhere []) with 0. lia.
  - apply rbind_ok in H as (acc1 & H1 & H). rewrite (IH _ H), (add_vb d _ _ _ H1), weigh_cons. cbn. lia.
Qed.

Definition named (a : amounts) : Prop := forall n, n ∈ od_keys a -> strip n = n.

Lemma new_nodes_share (a : amounts) l d n :
  named a -> rmapM (fun x => Allocation.new_node x.1 x.2) a = Ok l ->
  zsum (map (fun x => if String.eqb n x.(na_node_id) then vb d x.(na_resources) else 0) l) = weigh d (String.eqb n) a /\
  forall x, x ∈ l -> exists k, (k, x.(na_resources)) ∈ a.
Proof.
  revert l. induction a as [|[k v] a IH]; intros l Hn H; cbn [rmapM] in H.
  - injection H as <-. split; [done|]. by intros x ?%not_elem_of_nil.
  - apply rbind_ok in H as (x & Hx & H). apply rbind_ok in H as (l' & Hl & [= <-]).
    destruct (IH l' ltac:(intros m Hm; apply Hn; by right) Hl) as [E1 E2]. unfold Allocation.new_node in Hx. cbn [fst snd] in Hx.
    rewrite (Hn k ltac:(left)) in Hx. inv_ok. split.
    + cbn [map]. rewrite zsum_cons, weigh_cons, E1. done.
    + intros x [->|Hin]%elem_of_cons; [exists k; left|]. destruct (E2 x Hin) as [k' Hk]. exists k'. by right.
Qed.

Lemma allocation_new_ok r l ps generation a : Allocation.new r l ps generation = Ok a -> a = MkAllocation r l ps generation /\ constructed a.
Proof.
  intros H. assert (E : a = MkAllocation r l ps generation) by (unfold Allocation.new in H; inv_ok; done).
  split; [done|]. unfold constructed. by rewrite E in *.
Qed.

(** What is published is what the draft gave. *)
Record backed (nodes : amounts) (placements : list ActorPlacement) (a : QueryAllocation) : Prop := {
  bk_sound : sound_allocation a;
  bk_placements : a.(al_placements) = placements;
  bk_total : forall d, vb d a.(al_resources) = weigh d everywhere nodes;
  bk_share : forall d n, node_share d n a = weigh d (String.eqb n) nodes;
}.

Lemma publish_backed nodes ps r generation a :
  tidy nodes -> named nodes -> sum_resources (od_values nodes) = Ok r -> publish_allocation nodes ps r generation = Ok a ->
  backed nodes ps a /\ a.(al_generation) = generation.
Proof.
  intros [_ Ht] Hn Hr H. unfold publish_allocation in H. apply rbind_ok in H as (l & Hl & H).
  apply allocation_new_ok in H as [-> Hc]. set (kept := List.filter _ _) in Hl.
  assert (Hin : forall x, x ∈ kept -> x ∈ nodes).
  { intros x Hx. apply list_elem_of_In, filter_In in Hx as [Hx _]. apply list_elem_of_In in Hx. by rewrite py_sorted_elem in Hx. }
  assert (Hk : named kept) by (intros n (x & -> & Hx)%list_elem_of_fmap; apply Hn, list_elem_of_fmap; eauto).
  split; [|done]. constructor; cbn [al_nodes al_placements al_resources].
  - split; [done|]. intros x Hx. destruct (new_nodes_share kept l Heap "" Hk Hl) as [_ H2]. destruct (H2 x Hx) as [k Hkx]. by eapply Ht, Hin.
  - done.
  - intros d. by apply sum_resources_vb.
  - intros d n. unfold node_share. cbn [al_nodes]. rewrite (proj1 (new_nodes_share kept l d n Hk Hl)). unfold kept. rewrite weigh_nonzero.
    apply weigh_perm, py_sorted_perm.
Qed.

Lemma capacity_node s d n : od_wf s.(cl_nodes) -> capacity_of s d (String.eqb n) = node_bytes d n s.
Proof.
  unfold capacity_of, node_bytes, od_wf, od_keys. induction s.(cl_nodes) as [|[k c] l IH]; intros Hw; [done|].
  cbn [map fst snd] in *. apply NoDup_cons in Hw as [Hk Hw]. rewrite weigh_cons. cbn [od_get fst snd].
  destruct (decide (n = k)) as [->|Hne].
  - rewrite String.eqb_refl. rewrite IH by done. apply od_get_None in Hk. rewrite Hk. lia.
  - apply String.eqb_neq in Hne. rewrite Hne. by rewrite IH.
Qed.

(** ** What the allocations of the queries satisfy *)

Definition shares (d : byte_dim) (n : string) (s : Coordinator) : Z :=
  ksum (fun _ q => node_share d n q.(qs_allocation)) s.(cl_queries).

(** A query that may run. *)
Definition may_run (q : QueryState) : Prop :=
  q.(qs_state) = RUNNING -> q.(qs_actor_placement_lost) = false /\
    map placement_key q.(qs_allocation).(al_placements) = map bundle_key q.(qs_demand).(qd_actor_bundles) /\
    forall d, vb d q.(qs_demand).(qd_minimum) <= vb d q.(qs_allocation).(al_resources).

Record allotted (s : Coordinator) : Prop := {
  at_funded : forall d n, shares d n s <= node_bytes d n s;
  at_sound : forall id q, od_get id s.(cl_queries) = Some q -> sound_allocation q.(qs_allocation);
  at_running : forall id q, od_get id s.(cl_queries) = Some q -> may_run q;
}.

(** A sum over some keys of a dictionary is within the sum over all of it. *)
Lemma ksum_keys {V W} (f : V -> Z) (l : list (string * W)) given :
  (forall k a, (k, a) ∈ given -> 0 <= f a) -> od_wf l ->
  ksum (fun id (_ : W) => from_option f 0 (od_get id given)) l <= ksum (fun (_ : string) a => f a) given.
Proof.
  revert given. induction l as [|[id q] l IH]; intros given Hnn Hw; [by apply ksum_nonneg|].
  apply NoDup_cons in Hw as [Hid Hw]. rewrite ksum_cons. destruct (od_get id given) as [a|] eqn:Ea; cbn [from_option].
  - rewrite (ksum_pop _ id a given Ea). apply Zplus_le_compat_l.
    rewrite <- IH; [|by intros k b Hin%od_pop_subset; eapply Hnn|done]. apply Z.eq_le_incl, ksum_ext. intros k v Hin.
    rewrite od_get_pop_ne; [done|]. intros <-. apply Hid, list_elem_of_fmap. by exists (id, v).
  - by apply IH.
Qed.

(** The published shares of a draft, query by query. *)
Lemma shares_settled capacity D s' d n :
  balanced capacity D -> od_wf s'.(cl_queries) ->
  (forall id q', od_get id s'.(cl_queries) = Some q' -> backed (node_allocations_of D id) (placements_of D id) q'.(qs_allocation)) ->
  shares d n s' <= shared d (String.eqb n) D.(df_allocations).
Proof.
  intros [_ _ Hsh _] Hw Hb. unfold shared. rewrite <- (ksum_keys (weigh d (String.eqb n)) s'.(cl_queries)); [| |done].
  - apply ksum_le. intros id q Hq. apply od_elem_get in Hq; [|done]. rewrite (bk_share _ _ _ (Hb id q Hq)).
    unfold node_allocations_of, od_get_default. by destruct (od_get id (df_allocations D)).
  - intros k a Hin. apply weigh_nonneg, (Hsh _ _ Hin).
Qed.

Lemma related_back R s s' id q' : related R s s' -> od_get id s'.(cl_queries) = Some q' -> exists q, od_get id s.(cl_queries) = Some q /\ R id q q'.
Proof.
  intros Hr Hq'. destruct (od_get id s.(cl_queries)) as [q|] eqn:Eq.
  - destruct (re_queries _ _ _ Hr id q Eq) as (q2 & H2 & H3). rewrite Hq' in H2. injection H2 as <-. eauto.
  - apply od_get_None in Eq. destruct Eq. rewrite <- (re_keys _ _ _ Hr). apply od_get_elem in Hq'. apply list_elem_of_fmap. by exists (id, q').
Qed.

(** A rebalance that returns leaves allocations that the cluster can honour. *)
Lemma settled_allotted D generation s s' :
  orderly s -> balanced (capacity_of s) D -> od_keys D.(df_remaining) = od_keys s.(cl_nodes) ->
  related (settled D generation) (bumped s) s' -> allotted s'.
Proof.
  intros Hs HD Hk Hr.
  assert (Hb : forall id q', od_get id s'.(cl_queries) = Some q' -> backed (node_allocations_of D id) (placements_of D id) q'.(qs_allocation)).
  { intros id q' Hq'. destruct (related_back _ _ _ _ _ Hr Hq') as (q & _ & Hse). destruct (se_allocation _ _ _ _ _ Hse) as (r & Hsum & Hpub).
    destruct (share_tidy _ D id HD) as [Ht Hn]. eapply publish_backed; [done| |done|done]. intros n Hin%Hn. rewrite Hk in Hin.
    apply list_elem_of_fmap in Hin as ([k c] & -> & Hin). by apply (or_sound _ Hs k c). }
  constructor.
  - intros d n. rewrite (shares_settled _ D s' d n HD); [|unfold od_wf; rewrite (re_keys _ _ _ Hr); apply Hs|done].
    assert (E : node_bytes d n s' = capacity_of s d (String.eqb n)) by (rewrite capacity_node by apply Hs; unfold node_bytes; by rewrite (re_nodes _ _ _ Hr)).
    rewrite E, <- (ba_conserved _ _ HD). pose proof (weigh_nonneg d (String.eqb n) _ (ba_remaining _ _ HD)). lia.
  - intros id q Hq. by eapply bk_sound, Hb.
  - intros id q' Hq' Hrun. destruct (related_back _ _ _ _ _ Hr Hq') as (q & Hq & Hse). destruct (se_running _ _ _ _ _ Hse Hrun) as [[Hp Hm] Hl].
    pose proof (pe_demand _ _ (se_persists _ _ _ _ _ Hse)) as Ed. pose proof (or_ids _ (bumped_orderly _ Hs) id q Hq) as Eid.
    assert (Eid' : query_of q' = id) by (unfold query_of; by rewrite Ed). rewrite Eid' in Hp, Hm.
    destruct (Hb id q' Hq') as [_ Hpl Htot _]. split; [done|]. split; [by rewrite Hpl|]. intros d. rewrite Htot.
    pose proof (or_demands _ (bumped_orderly _ Hs) id q Hq) as [_ _ Hmin]. rewrite <- Ed in Hmin. rewrite <- (Hmin d). apply Hm.
Qed.

(** ** How queries evolve *)

(** The same registration, later. *)
Record keeps (q q' : QueryState) : Prop := {
  ke_sequence : q'.(qs_sequence) = q.(qs_sequence);
  ke_lost : q.(qs_actor_placement_lost) = true -> q'.(qs_actor_placement_lost) = true;
  ke_actors : settled_actors q q';
}.

(** Every query of [s'] is one of [s], or was registered after it. *)
Record evolves (s s' : Coordinator) : Prop := {
  ev_sequence : s.(cl_next_sequence) <= s'.(cl_next_sequence);
  ev_queries : forall id q', od_get id s'.(cl_queries) = Some q' ->
    s.(cl_next_sequence) <= q'.(qs_sequence) \/ exists q, od_get id s.(cl_queries) = Some q /\ keeps q q';
}.

Lemma keeps_refl q : keeps q q.
Proof. constructor; auto. intros _. by left. Qed.

Lemma keeps_trans q q' q'' : keeps q q' -> keeps q' q'' -> keeps q q''.
Proof.
  intros [K1 K2 K3] [L1 L2 L3]. constructor; [congruence|auto|]. intros Hne. destruct (K3 Hne) as [E|[E1 E2]].
  - rewrite <- E. apply L3. rewrite E. destruct Hne; auto.
  - destruct (L3 (or_intror E1)) as [E|?]; [right; split; [auto|congruence]|by right].
Qed.

Lemma evolution_refl s : evolves s s.
Proof. constructor; [lia|]. intros id q Hq. right. exists q. split; [done|apply keeps_refl]. Qed.

Lemma evolution_trans s s' s'' : evolves s s' -> evolves s' s'' -> evolves s s''.
Proof.
  intros [E1 E2] [F1 F2]. constructor; [lia|]. intros id q'' Hq''. destruct (F2 id q'' Hq'') as [?|(q' & Hq' & Hk)]; [left; lia|].
  destruct (E2 id q' Hq') as [?|(q & Hq & Hk')]; [left; rewrite (ke_sequence _ _ Hk); lia|]. right. exists q. split; [done|by eapply keeps_trans].
Qed.

Lemma persists_keeps q q' : persists q q' -> keeps q q'.
Proof. intros []. by constructor. Qed.

Lemma related_evolves s s' : related (fun _ => persists) (bumped s) s' -> evolves s s'.
Proof.
  intros Hr. constructor; [rewrite (re_sequence _ _ _ Hr); cbn; lia|]. intros id q' Hq'. right.
  destruct (related_back _ _ _ _ _ Hr Hq') as (q & Hq & Hp). exists q. split; [done|by apply persists_keeps].
Qed.

(** What a call may assume on the state it was made in. *)
Definition steps (s s' : Coordinator) : Prop := orderly s' /\ evolves s s'.

Lemma steps_refl s : orderly s -> steps s s.
Proof. intros Hs. split; [done|apply evolution_refl]. Qed.

Lemma rebalance_steps s0 s : steps s0 s -> wp rebalance (fun _ s' => steps s0 s' /\ allotted s') (fun _ s' => steps s0 s') s.
Proof.
  intros [Hs Hev]. eapply wp_mono; [apply rebalance_wp, Hs| |]; cbn beta.
  - intros _ s' (D & HD & Hk & Hr). assert (Hp : related (fun _ => persists) (bumped s) s').
    { eapply related_mono; [|exact Hr]. intros. by eapply se_persists. }
    split; [split|].
    + eapply related_orderly; [|exact Hp|by apply bumped_orderly]. auto.
    + eapply evolution_trans; [exact Hev|by apply related_evolves].
    + by eapply settled_allotted.
  - intros _ s' Hp. split.
    + eapply related_orderly; [|exact Hp|by apply bumped_orderly]. auto.
    + eapply evolution_trans; [exact Hev|by apply related_evolves].
Qed.

(** ** Changes of one query *)

Lemma orderly_set id q s : orderly s -> query_of q = id -> sound_demand q.(qs_demand) -> matched q -> mirrored q -> q.(qs_sequence) < s.(cl_next_sequence) ->
  orderly (put id q s).
Proof.
  intros [H1 H2 H3 H4 H5 H6 H7 H8] Hid Hd Hm Hr Hq. constructor; try done; [by apply od_wf_set|..];
    intros k p; cbn; rewrite od_get_set; (destruct (decide (id = k)) as [<-|]; [by intros [= <-]|eauto]).
Qed.

Lemma evolves_set id q q' s : od_get id s.(cl_queries) = Some q -> keeps q q' -> evolves s (put id q' s).
Proof.
  intros Hq Hk. constructor; [cbn; lia|]. intros k p. cbn. rewrite od_get_set. destruct (decide (id = k)) as [<-|].
  - intros [= <-]. right. eauto.
  - intros Hp. right. exists p. split; [done|apply keeps_refl].
Qed.

(** Fields that matter to neither the books nor the invariant. *)
Definition minor (q q' : QueryState) : Prop :=
  q'.(qs_demand) = q.(qs_demand) /\ q'.(qs_sequence) = q.(qs_sequence) /\ q'.(qs_allocation) = q.(qs_allocation) /\
  q'.(qs_actor_placements) = q.(qs_actor_placements) /\ q'.(qs_actor_placement_lost) = q.(qs_actor_placement_lost) /\ q'.(qs_state) = q.(qs_state).

Lemma minor_steps id q q' s0 s : steps s0 s -> od_get id s.(cl_queries) = Some q -> minor q q' -> steps s0 (put id q' s).
Proof.
  intros [Hs Hev] Hq (E1 & E2 & E3 & E4 & E5 & _). split.
  - apply orderly_set; [done| | | | |].
    + unfold query_of. rewrite E1. by apply (or_ids _ Hs).
    + rewrite E1. by eapply or_demands.
    + unfold matched. rewrite E1, E4. by eapply or_matched.
    + unfold mirrored. rewrite E3, E4. by eapply or_mirrored.
    + rewrite E2. by eapply or_sequences.
  - eapply evolution_trans; [exact Hev|]. eapply evolves_set; [done|]. constructor; [done|congruence|]. intros _. by left.
Qed.

Lemma minor_allotted id q q' s : allotted s -> od_get id s.(cl_queries) = Some q -> minor q q' -> allotted (put id q' s).
Proof.
  intros [A1 A2 A3] Hq (E1 & E2 & E3 & E4 & E5 & E6). constructor.
  - intros d n. specialize (A1 d n). unfold shares, node_bytes in *. cbn. rewrite (ksum_set _ _ q) by done. rewrite E3. lia.
  - intros k p. cbn. rewrite od_get_set. destruct (decide (id = k)) as [<-|]; [|eauto]. intros [= <-]. rewrite E3. eauto.
  - intros k p. cbn. rewrite od_get_set. destruct (decide (id = k)) as [<-|]; [|eauto]. intros [= <-]. unfold may_run. rewrite E1, E3, E5, E6. by eapply A3.
Qed.

Lemma on_query_minor id f s0 s : steps s0 s -> (forall q, minor q (f q)) ->
  wp (on_query id f) (fun _ s' => steps s0 s' /\ (allotted s -> allotted s')) (fun _ s' => steps s0 s') s.
Proof.
  intros Hs Hf. unfold on_query. apply wp_modify. destruct (od_get id s.(cl_queries)) as [q|] eqn:Eq; [|done]. fold (put id (f q) s). split.
  - by eapply minor_steps.
  - intros. by eapply minor_allotted.
Qed.

Lemma pop_steps id s0 s : steps s0 s -> steps s0 (s <| cl_queries ::= od_pop id |>).
Proof.
  intros [Hs Hev]. pose proof Hs as [H1 H2 H3 H4 H5 H6 H7].
  assert (Hsub : forall k q, od_get k (od_pop id s.(cl_queries)) = Some q -> od_get k s.(cl_queries) = Some q).
  { intros k q. rewrite od_get_pop by done. by destruct (decide (id = k)). }
  split; [constructor; cbn; eauto using od_wf_pop|]. eapply evolution_trans; [exact Hev|]. constructor; [cbn; lia|]. cbn. intros k q Hq%Hsub.
  right. exists q. split; [done|apply keeps_refl].
Qed.

Lemma pops_steps ids s0 s : steps s0 s -> steps s0 (s <| cl_queries ::= fun qs => fold_left (fun qs id => od_pop id qs) ids qs |>).
Proof.
  revert s. induction ids as [|id ids IH]; intros s Hs; [by destruct s|]. exact (IH _ (pop_steps id s0 s Hs)).
Qed.

(** ** The nodes *)

Definition sound_node (n : NodeCapacity) : Prop := strip n.(nc_node_id) = n.(nc_node_id) /\ nonneg n.(nc_resources).

Lemma normalize_nodes_ok l nodes : normalize_nodes l = Ok nodes -> od_wf nodes /\ forall id n, (id, n) ∈ nodes -> id = n.(nc_node_id) /\ n ∈ l.
Proof.
  unfold normalize_nodes. intros (d & Hd & [= <-])%rbind_ok.
  assert (H : od_wf d /\ forall id n, (id, n) ∈ d -> id = n.(nc_node_id) /\ n ∈ l).
  { eapply (rfoldM_inv (fun d => od_wf d /\ forall id n, (id, n) ∈ d -> id = n.(nc_node_id) /\ n ∈ l)); [exact Hd| |].
    - split; [apply NoDup_nil_2|]. by intros ? ? ?%not_elem_of_nil.
    - intros b x b' Hx [Hw Hb] H. apply rbind_ok in H as (u & Hu%raise_if_ok & [= <-]). split; [by apply od_wf_set|].
      unfold od_mem in Hu. intros id n Hin. rewrite od_set_absent in Hin by (by destruct (od_get _ b)).
      apply elem_of_app in Hin as [Hin|[= -> ->]%list_elem_of_singleton]; [by apply Hb|done]. }
  destruct H as [Hw Hd']. split.
  - unfold od_wf, od_keys in *. by rewrite py_sorted_perm.
  - intros id n Hin. rewrite py_sorted_perm in Hin. auto.
Qed.

(** ** Every call *)

(** Arguments as their constructors accept them; a demand that is replaced
    keeps its actors. *)
Definition proper_call (s : Coordinator) (c : call) : Prop :=
  match c with
  | RegisterQuery d _ => sound_demand d
  | RefreshQuery query _ _ _ (Some d) => sound_demand d /\
      forall q, od_get query s.(cl_queries) = Some q -> map bundle_key d.(qd_actor_bundles) = map bundle_key q.(qs_demand).(qd_actor_bundles)
  | UpdateNodeCapacities l => forall n, n ∈ l -> sound_node n
  | _ => True
  end.

(** What a call leads to, when it returns and in any case. *)
Definition well {A} (s : Coordinator) (m : ST Coordinator A) : Prop :=
  wp m (fun _ s' => steps s s' /\ (allotted s -> allotted s')) (fun _ s' => steps s s') s.

Lemma well_forget {A} s (m : ST Coordinator A) : well s m -> well s (forget m).
Proof. intros H. apply wp_bind. eapply wp_mono; [exact H|done|done]. Qed.

Lemma registered_wp query (Q : QueryState -> Coordinator -> Prop) (E : exn -> Coordinator -> Prop) s :
  (forall q, od_get query s.(cl_queries) = Some q -> Q q s) -> (forall e, E e s) -> wp (registered query) Q E s.
Proof. intros HQ HE. apply wp_bind, wp_get. destruct (od_get query s.(cl_queries)) as [q|]; [by apply wp_ret, HQ|by apply wp_raise]. Qed.

Lemma allocation_of_wp query (P : Coordinator -> Prop) (E : exn -> Coordinator -> Prop) s :
  P s -> (forall e, E e s) -> wp (allocation_of query) (fun _ => P) E s.
Proof. intros HP HE. apply wp_bind, registered_wp; [|done]. intros q _. by apply wp_ret. Qed.

(** What follows a rebalance does not change the state. *)
Lemma rebalance_then {A} s0 s (k : ST Coordinator A) :
  steps s0 s -> (forall s' (P : Coordinator -> Prop), P s' -> steps s0 s' -> wp k (fun _ => P) (fun _ => steps s0) s') ->
  wp (let! _ := rebalance in k) (fun _ s' => steps s0 s' /\ (allotted s0 -> allotted s')) (fun _ => steps s0) s.
Proof.
  intros Hs Hk. apply wp_bind. eapply wp_mono; [by apply (rebalance_steps s0)| |done]. cbn beta. intros _ s' [H1 H2].
  apply (Hk s' (fun s' => steps s0 s' /\ (allotted s0 -> allotted s'))); auto.
Qed.

Lemma allocation_then query s0 s' (P : Coordinator -> Prop) : P s' -> steps s0 s' -> wp (allocation_of query) (fun _ => P) (fun _ => steps s0) s'.
Proof. intros. by apply allocation_of_wp. Qed.

Lemma rebalance_last s0 s : steps s0 s -> wp rebalance (fun _ s' => steps s0 s' /\ (allotted s0 -> allotted s')) (fun _ => steps s0) s.
Proof. intros Hs. eapply wp_mono; [by apply (rebalance_steps s0)| |done]. cbn beta. intros _ s' [H1 H2]. auto. Qed.

(** A rebalance leaves the nodes and the timeout alone. *)
Definition same_cluster (s s' : Coordinator) : Prop := s'.(cl_heartbeat_timeout) = s.(cl_heartbeat_timeout) /\ s'.(cl_nodes) = s.(cl_nodes).

Lemma on_query_cluster s id f : preserves (same_cluster s) (on_query id f).
Proof. apply preserves_modify. intros s' Hs. by destruct (od_get id s'.(cl_queries)). Qed.

Lemma on_query_registered k id f : preserves (fun s => is_Some (od_get k s.(cl_queries))) (on_query id f).
Proof. apply preserves_modify. intros s Hs. destruct (od_get id s.(cl_queries)); [|done]. cbn. rewrite od_get_set. by destruct (decide (id = k)). Qed.

(** Of the state, a rebalance changes the generation and fields of the queries. *)
Lemma rebalance_preserves I : (forall s, I s -> I (bumped s)) -> (forall id f, preserves I (on_query id f)) -> preserves I rebalance.
Proof.
  intros Hb Hq. unfold rebalance. repeat (apply preserves_bind; [|intros ?]); auto using preserves_modify, preserves_get, preserves_lift.
  - apply preserves_fold. intros d q. unfold pin_query. destruct (qs_actor_placement_lost q); [apply preserves_ret|]. destruct (bool_decide _); [apply preserves_ret|].
    apply preserves_bind; [apply preserves_lift|]. intros [[t p]|]; [apply preserves_ret|].
    apply preserves_bind; [apply Hq|]. intros _. apply preserves_ret.
  - apply preserves_for. intros id. unfold publish_query. destruct (phase_of _ _) as [ph reason].
    repeat (apply preserves_bind; [by auto using preserves_lift, preserves_get|intros ?]).
    destruct (_ && _); [apply Hq|apply preserves_ret].
Qed.

Lemma rebalance_cluster s : preserves (same_cluster s) rebalance.
Proof. apply rebalance_preserves; [|apply on_query_cluster]. intros s' Hs. exact Hs. Qed.

Lemma rebalance_registered k : preserves (fun s => is_Some (od_get k s.(cl_queries))) rebalance.
Proof. apply rebalance_preserves; [|apply on_query_registered]. intros s Hs. exact Hs. Qed.

Lemma or_restore_wp m s (Q : unit -> Coordinator -> Prop) (E : exn -> Coordinator -> Prop) :
  wp m Q (fun _ s' => same_cluster s s') s -> (forall e, E e s) -> wp (or_restore m s) Q E s.
Proof.
  intros Hm HE. apply wp_catch. eapply wp_mono; [exact Hm|done|]. cbn beta. intros e s' [H1 H2]. apply wp_bind, wp_modify, wp_raise.
  assert (Es : s' <| cl_queries := s.(cl_queries) |> <| cl_next_sequence := s.(cl_next_sequence) |> <| cl_generation := s.(cl_generation) |> = s); [|by rewrite Es].
  destruct s, s'. cbn in *. by subst.
Qed.

Lemma wp_both {S A} (m : ST S A) (Q : A -> S -> Prop) (E1 E2 : exn -> S -> Prop) s :
  wp m Q E1 s -> wp m (fun _ _ => True) E2 s -> wp m Q E2 s.
Proof. unfold wp. destruct (m s) as [[a|e] s']; auto. Qed.

Lemma register_steps demand s : orderly s -> sound_demand demand -> od_get demand.(qd_query_id) s.(cl_queries) = None ->
  forall e, steps s (s <| cl_queries ::= od_set demand.(qd_query_id) (new_state demand s.(cl_next_sequence) e) |> <| cl_next_sequence ::= Z.succ |>).
Proof.
  intros Hs Hd Hnone e. set (q := new_state _ _ _). set (s1 := s <| cl_next_sequence ::= Z.succ |>).
  assert (H1 : orderly s1). { destruct Hs as [? ? ? ? ? ? ? Hseq]. constructor; try done. intros id p Hp. cbn. specialize (Hseq id p Hp). lia. }
  change (steps s (put demand.(qd_query_id) q s1)). split.
  - apply orderly_set; [done|done|done|by left|done|cbn; lia].
  - constructor; [cbn; lia|]. intros id p. cbn. rewrite od_get_set. destruct (decide _).
    + intros [= <-]. left. cbn. lia.
    + intros Hp. right. exists p. split; [done|apply keeps_refl].
Qed.

Lemma register_well demand now s : orderly s -> sound_demand demand -> well s (register_query demand now).
Proof.
  intros Hs Hd. unfold register_query. apply wp_bind, wp_get. apply wp_bind, wp_raise_if; [|by intros; apply steps_refl]. intros Hmem.
  assert (Hnone : od_get demand.(qd_query_id) s.(cl_queries) = None) by (unfold od_mem in Hmem; by destruct (od_get _ _)).
  pose proof (register_steps demand s Hs Hd Hnone (f64_add now s.(cl_heartbeat_timeout))) as Hreg.
  apply wp_bind, or_restore_wp; [|by intros; apply steps_refl]. apply wp_bind, wp_modify. eapply wp_both.
  - eapply wp_mono; [by apply (rebalance_last s)| |done]. cbn beta. intros _ s' [H1 H2]. apply allocation_of_wp; auto.
  - eapply wp_mono; [apply (preserves_wp (same_cluster s)); [apply rebalance_cluster|done]|done|done].
Qed.

Lemma demand_steps query d q s : steps s s -> od_get query s.(cl_queries) = Some q -> sound_demand d -> d.(qd_query_id) = query ->
  map bundle_key d.(qd_actor_bundles) = map bundle_key q.(qs_demand).(qd_actor_bundles) -> steps s (put query (q <| qs_demand := d |>) s).
Proof.
  intros [Hs _] Hq Hd Hid Hk. split.
  - apply orderly_set; [done|done|done| |exact (or_mirrored _ Hs _ _ Hq)|exact (or_sequences _ Hs _ _ Hq)].
    destruct (or_matched _ Hs _ _ Hq) as [E|E]; [by left|right; cbn; congruence].
  - eapply evolves_set; [exact Hq|]. constructor; cbn; auto. intros _. by left.
Qed.

Lemma refresh_well query usage generation now demand s :
  orderly s -> proper_call s (RefreshQuery query usage generation now demand) -> well s (refresh_query query usage generation now demand).
Proof.
  intros Hs Hp. pose proof (steps_refl s Hs) as H0. unfold refresh_query. apply wp_bind, registered_wp; [|done]. intros q Hq.
  apply wp_bind, wp_lift; [|done]. intros u _. apply wp_bind.
  assert (Hrest : forall s1, steps s s1 -> wp (let! s := sget in
      let! _ := on_query query (fun q => q <| qs_observed_usage := usage |> <| qs_expires_at := f64_add now s.(cl_heartbeat_timeout) |>) in
      let! _ := rebalance in allocation_of query) (fun _ s' => steps s s' /\ (allotted s -> allotted s')) (fun _ => steps s) s1).
  { intros s1 H1. apply wp_bind, wp_get, wp_bind. eapply wp_mono; [by apply (on_query_minor query _ s)| |done]. cbn beta. intros _ s2 [H2 _].
    apply rebalance_then; [done|]. intros. by apply allocation_then. }
  destruct demand as [d|]; [|by apply wp_ret, Hrest]. apply wp_bind, wp_raise_if; [|done]. intros Hid%negb_false_iff%String.eqb_eq.
  unfold on_query at 1. apply wp_modify. rewrite Hq. destruct Hp as [Hd Hk]. apply Hrest. exact (demand_steps query d q s H0 Hq Hd Hid (Hk q Hq)).
Qed.

Lemma refresh_all_well usage generations now s : orderly s -> well s (refresh_queries usage generations now).
Proof.
  intros Hs. pose proof (steps_refl s Hs) as H0. unfold refresh_queries. apply wp_bind, wp_raise_if; [|done]. intros _. apply wp_bind, wp_get.
  apply wp_bind, wp_raise_if; [|done]. intros _. apply wp_bind. set (ids := sorted_str _).
  apply (wp_mono (fun _ s' => s' = s) _ (fun _ s' => s' = s)); [|intros _ ? ->|by intros _ ? ->].
  { apply wp_for; [|done]. intros id s1 _ ->. apply wp_bind, registered_wp; [|done]. intros q _. apply wp_bind, wp_lift; [|done]. intros g _.
    by apply wp_lift. }
  apply wp_bind. eapply wp_mono; [apply (wp_for (fun _ s' => steps s s') (fun s' => steps s s' /\ (allotted s -> allotted s')))| |done].
  { intros id s1 _ [H1 A1]. apply wp_bind, wp_lift; [|done]. intros u _. eapply wp_mono; [by apply (on_query_minor id _ s)| |done]. cbn beta. intros _ s2 [H2 A2]. auto. }
  { auto. }
  cbn beta. intros _ s1 [H1 A1].
  assert (Hread : forall s' (P : Coordinator -> Prop), P s' -> steps s s' ->
    wp (sfold ids (fun acc id => let! a := allocation_of id in sret (acc ++ [(id, a)])) []) (fun _ => P) (fun _ => steps s) s').
  { intros s' P HP Hst. eapply (wp_mono (fun _ s' => steps s s') _ (fun _ s' => P s' /\ steps s s')); [|by intros ? ? [? _]|done].
    apply wp_fold; [|done]. intros acc id s2 _ [? ?]. apply wp_bind, wp_bind, registered_wp; [|done]. intros q _. by apply wp_ret, wp_ret. }
  case_bool_decide; [apply wp_bind, wp_ret; by apply (Hread s1 (fun s' => steps s s' /\ (allotted s -> allotted s')))|].
  by apply rebalance_then.
Qed.

Lemma heartbeat_well query generation now s : orderly s -> well s (heartbeat query generation now).
Proof.
  intros Hs. pose proof (steps_refl s Hs) as H0. apply wp_bind, registered_wp; [|done]. intros q Hq. apply wp_bind, wp_lift; [|done]. intros u _.
  apply wp_bind, wp_get, wp_bind. eapply wp_mono; [by apply (on_query_minor query _ s)| |done]. cbn beta. intros _ s' [H1 H2]. by apply allocation_of_wp.
Qed.

Lemma release_well query generation s : orderly s -> well s (release_query query generation).
Proof.
  intros Hs. pose proof (steps_refl s Hs) as H0. apply wp_bind, wp_get. destruct (od_get query s.(cl_queries)) as [q|]; [|by apply wp_ret].
  destruct (negb _); [by apply wp_ret|]. apply wp_bind, wp_modify. apply rebalance_then; [by apply pop_steps|]. intros. by apply wp_ret.
Qed.

Lemma expire_well now s : orderly s -> well s (expire_queries now).
Proof.
  intros Hs. pose proof (steps_refl s Hs) as H0. apply wp_bind, wp_get. set (expired := sorted_str _). apply wp_bind, wp_modify.
  pose proof (pops_steps expired s s H0) as H1. case_bool_decide as E.
  - apply wp_bind, wp_ret, wp_ret. split; [done|]. apply length_zero_iff_nil in E. rewrite E. by destruct s.
  - apply rebalance_then; [done|]. intros. by apply wp_ret.
Qed.

Lemma update_well l s : orderly s -> (forall n, n ∈ l -> sound_node n) -> well s (update_node_capacities l).
Proof.
  intros Hs Hl. pose proof (steps_refl s Hs) as H0. apply wp_bind, wp_lift; [|done]. intros nodes [Hw Hn]%normalize_nodes_ok. apply wp_bind, wp_modify.
  apply rebalance_last. split.
  - destruct Hs as [H1 H2 H3 H4 H5 H6 H7 H8]. constructor; try done. intros id n Hin. destruct (Hn id n Hin) as [-> Hnl]. by apply Hl.
  - constructor; [cbn; lia|]. intros id q Hq. right. exists q. split; [done|apply keeps_refl].
Qed.

Lemma call_well c s : orderly s -> proper_call s c -> well s (do_call c).
Proof.
  intros Hs Hp. destruct c; cbn [do_call]; try apply well_forget.
  - by apply register_well.
  - by apply refresh_well.
  - by apply refresh_all_well.
  - by apply heartbeat_well.
  - by apply release_well.
  - by apply expire_well.
  - by apply update_well.
Qed.

(** ** Histories *)

Fixpoint proper_run (s : Coordinator) (cs : list call) : Prop :=
  match cs with
  | [] => True
  | c :: cs => proper_call s c /\ proper_run (do_call c s).2 cs
  end.

(** Calls that returned, or raised before they changed anything. *)
Fixpoint calm_run (s : Coordinator) (cs : list call) : Prop :=
  match cs with
  | [] => True
  | c :: cs => (match (do_call c s).1 with Ok _ => True | Raise _ => (do_call c s).2 = s end) /\ calm_run (do_call c s).2 cs
  end.

Lemma call_steps c s : orderly s -> proper_call s c -> steps s (do_call c s).2.
Proof. intros Hs Hp. pose proof (call_well c s Hs Hp) as H. unfold well, wp in H. destruct (do_call c s) as [[u|e] s']; apply H. Qed.

Lemma run_steps cs s : orderly s -> proper_run s cs -> steps s (run cs s).
Proof.
  revert s. induction cs as [|c cs IH]; intros s Hs Hp; [by apply steps_refl|]. destruct Hp as [Hc Hp]. destruct (call_steps c s Hs Hc) as [H1 E1].
  destruct (IH _ H1 Hp) as [H2 E2]. split; [done|by eapply evolution_trans].
Qed.

Lemma run_allotted cs s : orderly s -> allotted s -> proper_run s cs -> calm_run s cs -> allotted (run cs s).
Proof.
  revert s. induction cs as [|c cs IH]; intros s Hs Ha Hp Hc; [done|]. destruct Hp as [Hp1 Hp], Hc as [Hc1 Hc].
  pose proof (call_steps c s Hs Hp1) as [H1 _]. apply IH; [done| |done|done]. pose proof (call_well c s Hs Hp1) as H. unfold well, wp in H.
  destruct (do_call c s) as [[u|e] s'] eqn:E; cbn in *; [by apply H|by subst].
Qed.

Lemma new_orderly l timeout s : (forall n, n ∈ l -> sound_node n) -> new l timeout = Ok s -> orderly s /\ allotted s.
Proof.
  unfold new. intros Hl (u & _ & H)%rbind_ok. apply rbind_ok in H as (nodes & [Hw Hn]%normalize_nodes_ok & [= <-]).
  assert (Ho : orderly (MkCoordinator timeout nodes [] 0 0)).
  { constructor; try done; [apply NoDup_nil_2|]. intros id n Hin. destruct (Hn id n Hin) as [-> Hnl]. by apply Hl. }
  split; [done|]. constructor; [|done|done]. intros d n. unfold node_bytes. cbn. destruct (od_get n nodes) as [c|] eqn:E; [|done].
  apply od_get_elem in E. apply (or_sound _ Ho _ _ E).
Qed.
