(* ===== verification/ClusterTheorems.v ===== *)
(** * The cluster is shared without being oversubscribed

    The theorems about any history of calls of
    [ClusterQueryResourceCoordinator], and about the resource managers of the
    queries that run on the allocations it publishes. *)

From S2P Require Import Prelude PyStr PyVal PyNum AdmissionLedger QueryGraph GraphProofs GraphTheorems ResourceState ResourcePlacement ResourceManager ResourceBooks ResourceGrants ResourceHistories ResourceStart ResourceTheorems ClusterCoordinator ClusterBooks ClusterSteps ClusterCalls.
Import Cluster.

#[local] Open Scope string_scope.
#[local] Open Scope list_scope.
#[local] Open Scope Z_scope.
#[local] Arguments od_get_default : simpl never.
#[local] Arguments od_set : simpl never.
#[local] Arguments ksum : simpl never.

(** ** Constructed arguments are sound *)

Lemma sum_resources_list d l r : sum_resources l = Ok r -> vb d r = zsum (map (vb d) l).
Proof.
  intros H. pose proof (sum_resources_vb d (map (fun v => ("", v)) l) r) as E. unfold od_values in E. rewrite map_map, map_id in E.
  rewrite (E H). unfold weigh, ksum. by rewrite map_map.
Qed.

Lemma res_eqb_vb d a b : res_eqb a b = true -> vb d a = vb d b.
Proof. unfold res_eqb. rewrite !andb_true_iff, !Z.eqb_eq. intros [[_ ?] ?]. by destruct d. Qed.

Lemma new_demand_sound query minimum desired weight priority bundles tasks dm :
  (forall b, b ∈ bundles -> exists stage i r, new_bundle stage i r = Ok b) ->
  new_demand query minimum desired weight priority bundles tasks = Ok dm -> sound_demand dm.
Proof.
  intros Hb H. unfold new_demand in H. do 4 (apply bind_check in H as [? H]). apply rbind_ok in H as (at_ & Ha & H). apply rbind_ok in H as (tt_ & Ht & H).
  apply rbind_ok in H as (bt & Hbt & H). apply bind_check in H as [He H]. do 2 (apply bind_check in H as [_ H]). injection H as <-. constructor; cbn.
  - by apply no_duplicates.
  - intros b (stage & i & r & Hn)%Hb. unfold new_bundle in Hn. inv_ok. cbn. apply strip_idemp.
  - intros d. apply negb_false_iff, (res_eqb_vb d) in He. rewrite <- He, (add_vb d _ _ _ Hbt), (sum_resources_list d _ _ Ha), (sum_resources_list d _ _ Ht), map_map. done.
Qed.

Lemma new_node_sound id r labels n : nonneg r -> new_node_capacity id r labels = Ok n -> sound_node n.
Proof. intros Hr H. unfold new_node_capacity in H. inv_ok. split; [apply strip_idemp|done]. Qed.

(** ** A cluster of two nodes *)

Definition big_node (id : string) (cpu heap store : Z) : NodeCapacity := MkNodeCapacity id (demo_res cpu heap store) [].

Definition cluster_nodes : list NodeCapacity := [big_node "n2" 4 400 100; big_node "n1" 12 1200 200].

Definition actor_bundles : list ActorResourceBundle := [MkBundle "stage:b" 0 (demo_res 1 50 16); MkBundle "stage:b" 1 (demo_res 1 50 16)].

Definition demand_of (id : string) (weight : Z) : QueryDemand :=
  MkDemand id (demo_res 3 200 48) (demo_res 8 1200 160) (f64_of_int weight) 0 actor_bundles [demo_res 1 100 16].

Example demand_accepted : new_demand " q" (demo_res 3 200 48) (demo_res 8 1200 160) (f64_of_int 1) 0 actor_bundles [demo_res 1 100 16] = Ok (demand_of "q" 1).
Proof. vm_compute. reflexivity. Qed.

Lemma demand_sound id weight : sound_demand (demand_of id weight).
Proof. constructor; [by apply no_duplicates|intros b Hb; repeat (apply elem_of_cons in Hb as [->|Hb]; [reflexivity|]); by apply not_elem_of_nil in Hb|by intros []]. Qed.

Lemma nodes_sound n : n ∈ cluster_nodes -> sound_node n.
Proof. intros Hn. repeat (apply elem_of_cons in Hn as [->|Hn]; [split; [reflexivity|intros []; vm_compute; discriminate]|]). by apply not_elem_of_nil in Hn. Qed.

Definition now (t : Z) : f64 := f64_of_int t.

Definition fresh_cluster : Coordinator :=
  match new cluster_nodes (now 30) with Ok s => s | Raise _ => MkCoordinator f64_zero [] [] 0 0 end.

Lemma fresh_cluster_new : new cluster_nodes (now 30) = Ok fresh_cluster.
Proof. vm_compute. reflexivity. Qed.

(** Two queries start, one reports its usage, and a node goes away. *)
Definition cluster_calls : list call :=
  [RegisterQuery (demand_of "q" 1) (now 0); RegisterQuery (demand_of "r" 2) (now 1); Heartbeat "q" 2 (now 5);
   RefreshQuery "r" (demo_res 1 100 0) 2 (now 6) None; RegisterQuery (demand_of "q" 1) (now 7)].

(** [n1] is replaced by a smaller one. *)
Definition smaller_calls : list call := [UpdateNodeCapacities [big_node "n1" 6 500 100; big_node "n2" 4 400 100]].

Lemma cluster_proper : proper_run fresh_cluster cluster_calls.
Proof. repeat (split; [first [apply demand_sound|exact I]|]). exact I. Qed.

Lemma cluster_calm : calm_run fresh_cluster cluster_calls.
Proof. vm_compute. repeat split. Qed.

Lemma smaller_proper s : proper_run s smaller_calls.
Proof.
  split; [|done]. intros n Hn. repeat (apply elem_of_cons in Hn as [->|Hn]; [split; [reflexivity|intros []; vm_compute; discriminate]|]).
  by apply not_elem_of_nil in Hn.
Qed.

Definition query_in (s : Coordinator) (id : string) : QueryState :=
  match od_get id s.(cl_queries) with Some q => q | None => new_state (demand_of id 1) 0 f64_zero end.

Lemma r_found : od_get "r" (run cluster_calls fresh_cluster).(cl_queries) = Some (query_in (run cluster_calls fresh_cluster) "r").
Proof. vm_compute. reflexivity. Qed.

Lemma r_found_smaller :
  od_get "r" (run smaller_calls (run cluster_calls fresh_cluster)).(cl_queries) = Some (query_in (run smaller_calls (run cluster_calls fresh_cluster)) "r").
Proof. vm_compute. reflexivity. Qed.

(** [n2] goes away, and comes back. *)
Definition gone_calls : list call := [UpdateNodeCapacities [big_node "n1" 12 1200 200]].
Definition back_calls : list call := [UpdateNodeCapacities cluster_nodes].

Lemma gone_proper : proper_run fresh_cluster (cluster_calls ++ gone_calls).
Proof.
  repeat (split; [first [apply demand_sound|exact I|intros n ->%list_elem_of_singleton; split; [reflexivity|intros []; vm_compute; discriminate]]|]). exact I.
Qed.

Lemma back_proper s : proper_run s back_calls.
Proof. split; [exact nodes_sound|exact I]. Qed.

Lemma r_found_gone :
  od_get "r" (run (cluster_calls ++ gone_calls) fresh_cluster).(cl_queries) = Some (query_in (run (cluster_calls ++ gone_calls) fresh_cluster) "r").
Proof. vm_compute. reflexivity. Qed.

Lemma r_found_back :
  od_get "r" (run back_calls (run (cluster_calls ++ gone_calls) fresh_cluster)).(cl_queries) =
  Some (query_in (run back_calls (run (cluster_calls ++ gone_calls) fresh_cluster)) "r").
Proof. vm_compute. reflexivity. Qed.

(** ** Queries that run on their allocations *)

(** The resource manager of a query, and what has been asked of it. *)
Record Tenant := MkTenant {
  tn_uuid : nat -> string;
  tn_graph : QueryExecutionGraph;
  tn_ratio : f64;
  tn_plan : Plan;
  tn_manager : Manager;
  tn_calls : list ResourceManager.call;
}.

Definition tenant_state (t : Tenant) : Manager := ResourceManager.run t.(tn_plan) t.(tn_uuid) t.(tn_calls) t.(tn_manager).

(** A manager that was created on an allocation. *)
Record lives_on (a : QueryAllocation) (t : Tenant) : Prop := {
  lo_inj : forall x y, t.(tn_uuid) x = t.(tn_uuid) y -> x = y;
  lo_named : forall n, t.(tn_uuid) n <> "";
  lo_graph : Graph.validate t.(tn_graph) = Ok tt;
  lo_new : NewManager.new t.(tn_graph) a t.(tn_ratio) = Ok (t.(tn_plan), t.(tn_manager));
  lo_calls : limited_run t.(tn_plan) t.(tn_uuid) t.(tn_manager) t.(tn_calls);
}.

Lemma node_share_nonneg d n a : sound_allocation a -> 0 <= node_share d n a.
Proof.
  intros [_ Hn]. unfold node_share. induction a.(al_nodes) as [|x l IH]; [done|]. cbn [map]. rewrite zsum_cons.
  specialize (IH (fun y Hy => Hn y ltac:(by right))). pose proof (Hn x ltac:(left) d). destruct (String.eqb _ _); lia.
Qed.

Lemma node_cap d n m cap : sound_allocation m.(m_allocation) -> od_get n (allocation_by_node m) = Some cap -> vb d cap <= node_share d n m.(m_allocation).
Proof.
  intros [_ Hn]. unfold allocation_by_node, node_share. enough (H : forall l acc, (forall x, x ∈ l -> nonneg x.(na_resources)) ->
    od_get n (fold_left (fun d x => od_set x.(na_node_id) x.(na_resources) d) l acc) = Some cap ->
    od_get n acc = Some cap \/ vb d cap <= zsum (map (fun x => if String.eqb n x.(na_node_id) then vb d x.(na_resources) else 0) l)).
  { intros Hg. destruct (H _ _ Hn Hg) as [?|?]; done. }
  clear. induction l as [|x l IH]; intros acc Hl H; cbn [fold_left] in H; [by left|]. cbn [map]. rewrite zsum_cons.
  assert (Hrest : 0 <= zsum (map (fun x => if String.eqb n x.(na_node_id) then vb d x.(na_resources) else 0) l)).
  { clear -Hl. induction l as [|y l IH]; [done|]. cbn [map]. rewrite zsum_cons. specialize (IH (fun z Hz => Hl z ltac:(set_solver))).
    pose proof (Hl y ltac:(set_solver) d). destruct (String.eqb _ _); lia. }
  pose proof (Hl x ltac:(left) d) as Hx. apply IH in H as [H|H]; [|right; destruct (String.eqb _ _); lia|intros; apply Hl; by right].
  rewrite od_get_set in H. destruct (decide (na_node_id x = n)) as [<-|Hne]; [|by left]. injection H as <-. right. rewrite String.eqb_refl. lia.
Qed.

Lemma tenant_bounded a t d n : sound_allocation a -> lives_on a t -> footprint d (on_node n) (tenant_state t) <= node_share d n a.
Proof.
  intros Ha [Hi Hn Hg Hnew Hl]. assert (Hc : created t.(tn_uuid) t.(tn_graph) a t.(tn_ratio) t.(tn_plan) t.(tn_manager)) by done.
  destruct (limited_run_fits _ _ Hi Hn (created_bounds Hc) _ _ (created_good Hc) (new_fits _ _ _ _ _ Hg Ha Hnew) Hl) as (_ & Hf & Hal).
  destruct (new_parts _ _ _ _ _ Hnew) as (_ & _ & Hma & _). destruct (Hf d) as (_ & H2 & H3). fold (tenant_state t) in *.
  assert (E : (tenant_state t).(m_allocation) = a) by congruence. destruct (od_get n (allocation_by_node (tenant_state t))) as [cap|] eqn:Ec.
  - etransitivity; [by apply H2|]. rewrite <- E. apply node_cap; [by rewrite E|done].
  - etransitivity; [by apply H3|]. by apply node_share_nonneg.
Qed.

(** ** Theorems *)

(** C5: no node is promised twice: in any history of registrations,
    refreshes, heartbeats, releases, expirations and changes of the nodes, in
    which every call returned or raised without changing anything, the heap
    and object-store bytes that the published allocations give on a node add
    up to at most the capacity of that node, and to none on a node that is
    not there. *)
Theorem no_node_oversubscribed l timeout s cs :
  (forall n, n ∈ l -> sound_node n) -> new l timeout = Ok s -> proper_run s cs -> calm_run s cs ->
  forall d n, shares d n (run cs s) <= node_bytes d n (run cs s).
Proof.
  intros Hl Hnew Hp Hc. destruct (new_orderly l timeout s Hl Hnew) as [Ho Ha]. exact (at_funded _ (run_allotted cs s Ho Ha Hp Hc)).
Qed.

Lemma no_node_oversubscribed_witness :
  shares Heap "n1" (run cluster_calls fresh_cluster) = 1200 /\ shares Objects "n2" (run cluster_calls fresh_cluster) = 100 /\
  shares Heap "n1" (run cluster_calls fresh_cluster) <= node_bytes Heap "n1" (run cluster_calls fresh_cluster).
Proof.
  split; [vm_compute; reflexivity|]. split; [vm_compute; reflexivity|].
  exact (no_node_oversubscribed cluster_nodes (now 30) fresh_cluster cluster_calls nodes_sound fresh_cluster_new cluster_proper cluster_calm Heap "n1").
Defined.

(** A query that is reported RUNNING has all it needs: its actors are
    not lost, there is a placement for each of its actor bundles, and its
    allocation has at least the heap and object-store bytes of its minimum. *)
Theorem running_queries_have_minimum l timeout s cs id q :
  (forall n, n ∈ l -> sound_node n) -> new l timeout = Ok s -> proper_run s cs -> calm_run s cs ->
  od_get id (run cs s).(cl_queries) = Some q -> q.(qs_state) = RUNNING ->
  q.(qs_actor_placement_lost) = false /\
  map placement_key q.(qs_allocation).(al_placements) = map bundle_key q.(qs_demand).(qd_actor_bundles) /\
  forall d, vb d q.(qs_demand).(qd_minimum) <= vb d q.(qs_allocation).(al_resources).
Proof.
  intros Hl Hnew Hp Hc. destruct (new_orderly l timeout s Hl Hnew) as [Ho Ha]. exact (at_running _ (run_allotted cs s Ho Ha Hp Hc) id q).
Qed.

Lemma running_queries_have_minimum_witness :
  let q := query_in (run cluster_calls fresh_cluster) "r" in
  q.(qs_state) = RUNNING /\ map placement_key q.(qs_allocation).(al_placements) = [("stage:b", 0); ("stage:b", 1)] /\
  vb Heap q.(qs_demand).(qd_minimum) = 200 /\ vb Heap q.(qs_demand).(qd_minimum) <= vb Heap q.(qs_allocation).(al_resources).
Proof.
  intros q. assert (Hr : q.(qs_state) = RUNNING) by (vm_compute; reflexivity). split; [exact Hr|]. split; [vm_compute; reflexivity|].
  split; [vm_compute; reflexivity|].
  exact (proj2 (proj2 (running_queries_have_minimum cluster_nodes (now 30) fresh_cluster cluster_calls "r" q nodes_sound fresh_cluster_new
    cluster_proper cluster_calm r_found Hr)) Heap).
Defined.

(** C6: actors never move: whatever calls are made, and whether they return
    or raise, as long as a query stays registered: if its actors have been
    placed it keeps exactly those placements, or it has lost them and has no
    placements at all; once it has lost them it stays lost, and no later call
    gives it actors elsewhere; and the allocation published for it always
    shows the placements it has. Arguments are as their constructors accept
    them, and a demand that is replaced names the same actors. *)
Theorem actors_never_move l timeout s before after id q q' :
  (forall n, n ∈ l -> sound_node n) -> new l timeout = Ok s -> proper_run s before -> proper_run (run before s) after ->
  od_get id (run before s).(cl_queries) = Some q -> od_get id (run after (run before s)).(cl_queries) = Some q' ->
  q'.(qs_sequence) = q.(qs_sequence) ->
  (q.(qs_actor_placements) <> [] \/ q.(qs_actor_placement_lost) = true ->
    q'.(qs_actor_placements) = q.(qs_actor_placements) \/ (q'.(qs_actor_placement_lost) = true /\ q'.(qs_actor_placements) = [])) /\
  (q.(qs_actor_placement_lost) = true -> q'.(qs_actor_placement_lost) = true) /\
  q'.(qs_allocation).(al_placements) = q'.(qs_actor_placements).
Proof.
  intros Hl Hnew Hb Ha Hq Hq' Hseq. destruct (new_orderly l timeout s Hl Hnew) as [Ho _]. destruct (run_steps before s Ho Hb) as [Hm _].
  destruct (run_steps after _ Hm Ha) as [Hm' Hev]. destruct (ev_queries _ _ Hev id q' Hq') as [Hnew'|(q0 & Hq0 & Hk)].
  - pose proof (or_sequences _ Hm id q Hq). lia.
  - rewrite Hq in Hq0. injection Hq0 as <-. split; [apply Hk|]. split; [apply Hk|]. by apply (or_mirrored _ Hm' id).
Qed.

(** [n1] shrinks and the actors of [r] stay; [n2] goes away, and when it comes
    back [r] is not placed again. *)
Lemma actors_never_move_witness :
  let q := query_in (run cluster_calls fresh_cluster) "r" in
  let q' := query_in (run smaller_calls (run cluster_calls fresh_cluster)) "r" in
  let lost := query_in (run (cluster_calls ++ gone_calls) fresh_cluster) "r" in
  let later := query_in (run back_calls (run (cluster_calls ++ gone_calls) fresh_cluster)) "r" in
  map ap_node_id q.(qs_actor_placements) = ["n2"; "n1"] /\
  vb Heap q.(qs_allocation).(al_resources) = 1000 /\ vb Heap q'.(qs_allocation).(al_resources) < 1000 /\
  (q'.(qs_actor_placements) = q.(qs_actor_placements) \/ (q'.(qs_actor_placement_lost) = true /\ q'.(qs_actor_placements) = [])) /\
  lost.(qs_actor_placement_lost) = true /\ later.(qs_actor_placement_lost) = true /\ later.(qs_allocation).(al_placements) = later.(qs_actor_placements).
Proof.
  intros q q' lost later. assert (H1 : map ap_node_id q.(qs_actor_placements) = ["n2"; "n1"]) by (vm_compute; reflexivity). split; [exact H1|].
  split; [vm_compute; reflexivity|]. split; [vm_compute; reflexivity|]. split.
  - assert (H2 : q'.(qs_sequence) = q.(qs_sequence)) by (vm_compute; reflexivity).
    refine (proj1 (actors_never_move cluster_nodes (now 30) fresh_cluster cluster_calls smaller_calls "r" q q' nodes_sound fresh_cluster_new cluster_proper
      (smaller_proper _) r_found r_found_smaller H2) _). left. intros Hnil. rewrite Hnil in H1. discriminate H1.
  - assert (Hl : lost.(qs_actor_placement_lost) = true) by (vm_compute; reflexivity). split; [exact Hl|].
    assert (H2 : later.(qs_sequence) = lost.(qs_sequence)) by (vm_compute; reflexivity).
    destruct (proj2 (actors_never_move cluster_nodes (now 30) fresh_cluster (cluster_calls ++ gone_calls) back_calls "r" lost later nodes_sound fresh_cluster_new
      gone_proper (back_proper _) r_found_gone r_found_back H2)) as [H3 H4]. split; [exact (H3 Hl)|exact H4].
Defined.

(** C7: [register_query] is atomic: if it raises, for whatever reason, the
    coordinator is exactly as it was before the call, its generation, its
    sequence numbers and the allocations of all queries included; and if it
    returns, it returns the allocation that the query then has. *)
Theorem register_query_atomic demand time s :
  match register_query demand time s with
  | (Ok a, s') => exists q, od_get demand.(qd_query_id) s'.(cl_queries) = Some q /\ q.(qs_allocation) = a
  | (Raise _, s') => s' = s
  end.
Proof.
  change (wp (register_query demand time) (fun a s' => exists q, od_get demand.(qd_query_id) s'.(cl_queries) = Some q /\ q.(qs_allocation) = a)
    (fun _ s' => s' = s) s).
  unfold register_query. apply wp_bind, wp_get. apply wp_bind, wp_raise_if; [|done]. intros _. apply wp_bind, or_restore_wp; [|done].
  apply wp_bind, wp_modify. set (s1 := s <| cl_queries ::= _ |> <| cl_next_sequence ::= Z.succ |>). apply (wp_both _ _ (fun _ _ => True)).
  - eapply wp_mono; [apply (preserves_wp (fun s' => is_Some (od_get demand.(qd_query_id) s'.(cl_queries)))); [apply rebalance_registered|]| |done].
    + cbn. rewrite od_get_set_eq. eauto.
    + cbn beta. intros _ s' [q Hq]. apply wp_bind, wp_bind, wp_get. rewrite Hq. apply wp_ret, wp_ret. eauto.
  - eapply wp_mono; [apply (preserves_wp (same_cluster s)); [apply rebalance_cluster|done]|done|done].
Qed.

(** C4: the cluster is never overcommitted, down to the last task: when the
    queries of a coordinator run, each with a resource manager that was
    created on its published allocation and has served any calls but new
    allocations and [finish_task_with_outputs] for tasks that have leased
    output blocks before or borrow a credit ([limited_run]), then what the placed actors, credits, tasks and outputs
    of all the queries hold on a node, in heap and in the object store, adds
    up to at most the capacity of that node.  The calls of the coordinator
    are as for [no_node_oversubscribed]. *)
Theorem cluster_within_capacity l timeout s cs (tenants : list (string * Tenant)) :
  (forall n, n ∈ l -> sound_node n) -> new l timeout = Ok s -> proper_run s cs -> calm_run s cs ->
  od_wf tenants ->
  (forall id t, (id, t) ∈ tenants -> exists q, od_get id (run cs s).(cl_queries) = Some q /\ lives_on q.(qs_allocation) t) ->
  forall d n, ksum (fun _ t => footprint d (on_node n) (tenant_state t)) tenants <= node_bytes d n (run cs s).
Proof.
  intros Hl Hnew Hp Hc Hw Ht d n. destruct (new_orderly l timeout s Hl Hnew) as [Ho Ha].
  destruct (run_steps cs s Ho Hp) as [Hs _]. destruct (run_allotted cs s Ho Ha Hp Hc) as [A1 A2 _].
  etransitivity; [|apply A1]. unfold shares. rewrite <- (ksum_keys (fun q => node_share d n q.(qs_allocation)) tenants); [| |done].
  - apply ksum_le. intros id t Hin. destruct (Ht id t Hin) as (q & Hq & Hlive). rewrite Hq. cbn. apply tenant_bounded; [by eapply A2|done].
  - intros id q Hq. apply node_share_nonneg. eapply A2, od_elem_get; [apply Hs|done].
Qed.

(** The allocation of the query, and a manager on it that runs three tasks. *)
Definition tenant_allocation : QueryAllocation := (query_in (run cluster_calls fresh_cluster) "q").(qs_allocation).

Definition start_on (a : QueryAllocation) : Plan * Manager :=
  match NewManager.new demo_graph a demo_ratio with Ok r => r | Raise _ => (demo_plan, demo_manager) end.

Definition demo_tenant : Tenant := MkTenant uid demo_graph demo_ratio (start_on tenant_allocation).1 (start_on tenant_allocation).2 demo_calls.

Lemma demo_lives : lives_on tenant_allocation demo_tenant.
Proof.
  constructor; cbn [tn_uuid tn_graph tn_ratio tn_plan tn_manager tn_calls demo_tenant]; [apply uid_inj|apply uid_nonempty|apply demo_graph_valid| |].
  - assert (Hok : match NewManager.new demo_graph tenant_allocation demo_ratio with Ok _ => true | Raise _ => false end = true) by (vm_compute; reflexivity).
    unfold start_on. by destruct (NewManager.new _ _ _) as [[p m]|e].
  - vm_compute. tauto.
Qed.

Lemma demo_tenants id t : (id, t) ∈ [("q", demo_tenant)] ->
  exists q, od_get id (run cluster_calls fresh_cluster).(cl_queries) = Some q /\ lives_on q.(qs_allocation) t.
Proof.
  intros [= -> ->]%list_elem_of_singleton. exists (query_in (run cluster_calls fresh_cluster) "q"). split; [vm_compute; reflexivity|exact demo_lives].
Qed.

Lemma cluster_within_capacity_witness :
  footprint Heap (on_node "n2") (tenant_state demo_tenant) = 200 /\
  ksum (fun _ t => footprint Heap (on_node "n2") (tenant_state t)) [("q", demo_tenant)] <= node_bytes Heap "n2" (run cluster_calls fresh_cluster).
Proof.
  split; [vm_compute; reflexivity|].
  exact (cluster_within_capacity cluster_nodes (now 30) fresh_cluster cluster_calls [("q", demo_tenant)] nodes_sound fresh_cluster_new cluster_proper cluster_calm
    (NoDup_singleton "q") demo_tenants Heap "n2").
Defined.
