(* ===== verification/WorkerPressure.v ===== *)
(** * What the driver charges its workers

    Models [_FteWorkerPressure] of [duckdb/runners/ray/fragment_registry.py],
    [fragment_worker_pressure.py] and [FteWorkerPressureAccountingMixin] of
    [fragment_worker_pressure_accounting.py]: the reservations, running
    attempts, splits and memory that the driver books on each worker, and the
    figures from which it decides where the next partition may run.

    The time stamps [last_seen_at] are left out.  Execution classes are kept
    as the class that the source writes as text and reads back.  The wake-up
    of other queries that follows the end of a task is left to the caller. *)

From S2P Require Import Prelude PyStr PyVal FteTypes FteState SubmissionWindow.

#[local] Open Scope string_scope.
#[local] Open Scope list_scope.
#[local] Open Scope Z_scope.

Record Pressure := MkPressure {
  pr_running_attempts : gset string;
  pr_reserved_partitions : gset PartitionKey;
  pr_split_counts : list (string * Z);
  pr_split_bytes : list (string * Z);
  pr_attempt_memory : list (string * Z);
  pr_reservation_memory : list (PartitionKey * Z);
  pr_attempt_class : list (string * FteTaskExecutionClass);
  pr_reservation_class : list (PartitionKey * FteTaskExecutionClass);
}.
#[export] Instance Pressure_eta : Eta Pressure :=
  fun r => MkPressure r.(pr_running_attempts) r.(pr_reserved_partitions) r.(pr_split_counts) r.(pr_split_bytes)
    r.(pr_attempt_memory) r.(pr_reservation_memory) r.(pr_attempt_class) r.(pr_reservation_class).

Module Pressure.

Definition new : Pressure := MkPressure ∅ ∅ [] [] [] [] [] [].

(** ** Identities and sizes *)

(** [attempt_key] *)
Definition attempt_key (attempt : id_ref FteTaskAttemptId) : result string :=
  let* a := TaskAttemptId.coerce attempt in Ok (TaskAttemptId.to_str a).

Definition partition_reservation_key (query fragment : string) (partition : Z) : result PartitionKey :=
  let query := strip query in
  let fragment := strip fragment in
  let* _ := raise_if (String.eqb query "" || String.eqb fragment "")
    (ValueError "partition reservation requires query_id and fragment_id") in
  Ok (query, fragment, partition).

(** The values of [request.get("initial_splits") or {}], each [or []]. *)
Definition initial_splits (request : list (pyval * pyval)) : result (list (list pyval)) :=
  match pd_get "initial_splits" request with
  | PDict d => rmapM (fun kv => if truthy kv.2 then py_iter kv.2 else Ok []) d
  | v => if truthy v then Raise (AttributeError "values") else Ok []
  end.

Definition initial_split_count (request : list (pyval * pyval)) : result Z :=
  let* l := initial_splits request in Ok (Z.of_nat (length (concat l))).

Definition split_payload_bytes (split : list (pyval * pyval)) : Z :=
  let given := match pd_get "size_bytes" split with
               | PNone => None
               | v => match py_int v with Ok n => Some (Z.max 0 n) | Raise _ => None end
               end in
  match given with
  | Some n => n
  | None =>
      match pd_get "data" split with
      | PBytes s | PStr s | PEnum _ s => Z.of_nat (String.length s)
      | _ =>
          match pd_get "fragments" split with
          | PList l | PTuple l => Z.of_nat (length l)
          | _ => Z.of_nat (String.length (py_repr (PDict split)))
          end
      end
  end.

Definition initial_split_bytes (request : list (pyval * pyval)) : result Z :=
  let* l := initial_splits request in
  Ok (fold_left (fun total v => match v with PDict d => total + split_payload_bytes d | _ => total end) (concat l) 0).

(** [_memory_requirement_bytes] *)
Definition memory_requirement_bytes (v : pyval) : Z :=
  match v with PNone => 0 | v => match py_int v with Ok n => Z.max 0 n | Raise _ => 0 end end.

(** ** Reservations *)

(** [d[key] = bytes] if there are any, else [d.pop(key, None)] *)
Definition charge {K} `{EqDecision K} (key : K) (bytes : Z) (d : list (K * Z)) : list (K * Z) :=
  if 0 <? bytes then od_set key bytes d else od_pop key d.

Definition reserve (query fragment : string) (partition : Z) (memory : pyval) (class : id_ref FteTaskExecutionClass)
    : ST Pressure unit :=
  let! key := slift (partition_reservation_key query fragment partition) in
  let! class := slift (ExecutionClass.coerce class) in
  smodify (fun p => p <| pr_reserved_partitions ::= union {[key]} |> <| pr_reservation_class ::= od_set key class |>
    <| pr_reservation_memory ::= charge key (memory_requirement_bytes memory) |>).

Definition drop_reservation (key : PartitionKey) (p : Pressure) : Pressure :=
  p <| pr_reserved_partitions ::= fun s => s ∖ {[key]} |> <| pr_reservation_memory ::= od_pop key |> <| pr_reservation_class ::= od_pop key |>.

Definition release (query fragment : string) (partition : Z) : ST Pressure unit :=
  let! key := slift (partition_reservation_key query fragment partition) in
  smodify (drop_reservation key).

(** The class under a key, [STANDARD] if there is none. *)
Definition class_of {K} `{EqDecision K} (key : K) (d : list (K * FteTaskExecutionClass)) : FteTaskExecutionClass :=
  od_get_default key STANDARD d.

Definition set_reservation_class (query fragment : string) (partition : Z) (class : id_ref FteTaskExecutionClass)
    : ST Pressure bool :=
  let! key := slift (partition_reservation_key query fragment partition) in
  let! class := slift (ExecutionClass.coerce class) in
  let! p := sget in
  if negb (bool_decide (key ∈ p.(pr_reserved_partitions))) then sret false else
  let old := class_of key p.(pr_reservation_class) in
  if bool_decide (old = class) then sret false else
  let! _ := sraise_if (negb (ExecutionClass.can_transition_to old class))
    (ValueError ("cannot change FTE partition reservation execution class from " +:+ ExecutionClass.value old
                 +:+ " to " +:+ ExecutionClass.value class)) in
  let! _ := smodify (fun p => p <| pr_reservation_class ::= od_set key class |>) in
  sret true.

(** ** Running attempts *)

Definition started (attempt : id_ref FteTaskAttemptId) (request : list (pyval * pyval)) : ST Pressure unit :=
  let! key := slift (attempt_key attempt) in
  let! class := slift (ExecutionClass.coerce (RVal (pd_get "execution_class" request))) in
  let memory := memory_requirement_bytes (pd_get "memory_requirement_bytes" request) in
  let! _ := smodify (fun p => p <| pr_running_attempts ::= union {[key]} |> <| pr_attempt_class ::= od_set key class |>) in
  let! count := slift (initial_split_count request) in
  let! _ := smodify (fun p => p <| pr_split_counts ::= od_set key count |>) in
  let! bytes := slift (initial_split_bytes request) in
  smodify (fun p => p <| pr_split_bytes ::= od_set key bytes |> <| pr_attempt_memory ::= charge key memory |>).

(** [record_fte_task_started_from_reservation] *)
Definition started_from_reservation (query fragment : string) (partition : Z) (attempt : id_ref FteTaskAttemptId)
    (request : list (pyval * pyval)) : ST Pressure unit :=
  let! key := slift (partition_reservation_key query fragment partition) in
  let! _ := smodify (drop_reservation key) in
  started attempt request.

Definition splits_added (attempt : id_ref FteTaskAttemptId) (count : Z) : ST Pressure unit :=
  let! key := slift (attempt_key attempt) in
  smodify (fun p => p <| pr_running_attempts ::= union {[key]} |>
    <| pr_split_counts ::= fun d => od_set key (od_get_default key 0 d + Z.max 0 count) d |>).

Definition split_bytes_added (attempt : id_ref FteTaskAttemptId) (bytes : Z) : ST Pressure unit :=
  let! key := slift (attempt_key attempt) in
  smodify (fun p => p <| pr_running_attempts ::= union {[key]} |>
    <| pr_split_bytes ::= fun d => od_set key (od_get_default key 0 d + Z.max 0 bytes) d |>).

(** [_record_fte_task_pressure_complete] *)
Definition completed (attempt : id_ref FteTaskAttemptId) : ST Pressure unit :=
  let! key := slift (attempt_key attempt) in
  smodify (fun p => p <| pr_running_attempts ::= fun s => s ∖ {[key]} |> <| pr_split_counts ::= od_pop key |>
    <| pr_split_bytes ::= od_pop key |> <| pr_attempt_memory ::= od_pop key |> <| pr_attempt_class ::= od_pop key |>).

Definition set_attempt_class (attempt : id_ref FteTaskAttemptId) (class : id_ref FteTaskExecutionClass) : ST Pressure bool :=
  let! key := slift (attempt_key attempt) in
  let! class := slift (ExecutionClass.coerce class) in
  let! p := sget in
  if negb (bool_decide (key ∈ p.(pr_running_attempts))) then sret false else
  let old := class_of key p.(pr_attempt_class) in
  if bool_decide (old = class) then sret false else
  let! _ := sraise_if (negb (ExecutionClass.can_transition_to old class))
    (ValueError ("cannot change FTE task execution class from " +:+ ExecutionClass.value old +:+ " to " +:+ ExecutionClass.value class)) in
  let! _ := smodify (fun p => p <| pr_attempt_class ::= od_set key class |>) in
  sret true.

(** ** Figures *)

Definition total {K} (d : list (K * Z)) : Z := fold_right Z.add 0 (od_values d).

(** [_memory_bytes_for_class] *)
Definition memory_for_class {K} `{EqDecision K} (memory : list (K * Z)) (classes : list (K * FteTaskExecutionClass))
    (class : FteTaskExecutionClass) : Z :=
  total (List.filter (fun e => bool_decide (class_of e.1 classes = class)) memory).

Definition running_count (p : Pressure) : Z := Z.of_nat (size p.(pr_running_attempts)) + Z.of_nat (size p.(pr_reserved_partitions)).

(** ["total_memory_bytes"] *)
Definition total_memory (p : Pressure) : Z := total p.(pr_attempt_memory) + total p.(pr_reservation_memory).

(** ["speculative_memory_bytes"] and the like *)
Definition class_memory (class : FteTaskExecutionClass) (p : Pressure) : Z :=
  memory_for_class p.(pr_attempt_memory) p.(pr_attempt_class) class +
  memory_for_class p.(pr_reservation_memory) p.(pr_reservation_class) class.

Definition score (p : Pressure) : Z :=
  running_count p * 1024 + total_memory p / (1024 * 1024 * 1024) + total p.(pr_split_counts) + total p.(pr_split_bytes) / (1024 * 1024).

(** ** The end of a query *)

Definition owned_attempt (query attempt : string) : result bool :=
  let* a := TaskAttemptId.parse attempt in Ok (String.eqb a.(task_id).(query_id) query).

(** The entries of the attempts of other queries. *)
Definition others {V} (query : string) (d : list (string * V)) : result (list (string * V)) :=
  rfoldM (fun acc e => let* own := owned_attempt query e.1 in Ok (if own : bool then acc else acc ++ [e])) [] d.

Definition other_reservations {V} (query : string) (d : list (PartitionKey * V)) : list (PartitionKey * V) :=
  List.filter (fun e => negb (String.eqb e.1.1.1 query)) d.

Definition drop_query (query : string) : ST Pressure unit :=
  let query := strip query in
  if String.eqb query "" then sret tt else
  let! p := sget in
  let! running := slift (others query (map (fun a => (a, tt)) (elements p.(pr_running_attempts)))) in
  let! _ := smodify (fun p => p <| pr_running_attempts := list_to_set (map fst running) |>
    <| pr_reserved_partitions ::= fun s => list_to_set (map fst (other_reservations query (map (fun k => (k, tt)) (elements s)))) |>) in
  let! counts := slift (others query p.(pr_split_counts)) in
  let! _ := smodify (fun p => p <| pr_split_counts := counts |>) in
  let! bytes := slift (others query p.(pr_split_bytes)) in
  let! _ := smodify (fun p => p <| pr_split_bytes := bytes |>) in
  let! memory := slift (others query p.(pr_attempt_memory)) in
  let! _ := smodify (fun p => p <| pr_attempt_memory := memory |> <| pr_reservation_memory ::= other_reservations query |>) in
  let! classes := slift (others query p.(pr_attempt_class)) in
  smodify (fun p => p <| pr_attempt_class := classes |> <| pr_reservation_class ::= other_reservations query |>).

End Pressure.
