(* ===== verification/FragmentPlacement.v ===== *)
(** * Placing partitions on workers

    Models the placement side of [duckdb/runners/ray/fte_fragment_scheduler.py]
    ([FteWorkerPlacementManager], [FteWorkerReservationFuture], the choice of
    a worker, the task leases of partitions, the lifecycle tokens of a query)
    with [fragment_worker_selection.py], [fragment_worker_reservations.py],
    [fragment_worker_waiters.py], [fragment_worker_placement.py] and the
    constructor of the worker handle.

    The registry's tables are fields of [Driver]; worker handles and futures
    are objects that several tables refer to, so they live in heaps and are
    named by their index.  The registry lock makes each operation one step.
    The submission window is the one of [SubmissionWindow], run on the
    driver's tables; the partitions are those of [Partition].  A query's
    resource manager is reached through the class [Authority].

    [FteWorkerReservationUnavailable] is a value: [inr] of its blocked
    reason.  Clock readings are arguments. *)

From S2P Require Import Prelude PyStr PyVal PyNum FteTypes FteState SplitAssigner Partition QueryGraph ResourceState SubmissionWindow WorkerPressure.

#[local] Open Scope string_scope.
#[local] Open Scope list_scope.
#[local] Open Scope Z_scope.

(** What the placement asks of a query's resource manager. *)
Class Authority (A : Type) := {
  au_epoch : A -> Z;
  au_eligible_nodes : string -> A -> result (list string);
  au_try_acquire : TaskRequest -> ST A TaskGrant;
  au_release : bool -> string -> string -> ST A bool;
  au_remove_waiter : string -> string -> ST A bool;
}.

(** [RayWorkerActorHandle], as far as placement uses it *)
Record Handle := MkHandle {
  h_worker_id : string;
  h_node_id : string;
  h_memory_capacity_bytes : Z;
  h_healthy : bool;
  h_pressure : Pressure;
  h_release_hook : bool;
}.
#[export] Instance Handle_eta : Eta Handle :=
  fun r => MkHandle r.(h_worker_id) r.(h_node_id) r.(h_memory_capacity_bytes) r.(h_healthy) r.(h_pressure) r.(h_release_hook).

(** A registered fragment execution: its context, id and partitions. *)
Record Fragment := MkFragment {
  fr_context : option (list (pyval * pyval));
  fr_execution_id : Z;
  fr_partitions : list (Z * FteTaskPartition);
}.
#[export] Instance Fragment_eta : Eta Fragment := fun r => MkFragment r.(fr_context) r.(fr_execution_id) r.(fr_partitions).

(** [FteWorkerReservation] *)
Record Reservation := MkReserved {
  rv_key : PartitionKey;
  rv_execution_id : Z;
  rv_worker : nat;
  rv_worker_id : string;
  rv_stage_id : string;
  rv_task_lease_id : string;
  rv_lease_attempt_id : string;
}.

(** The callback of a future: the handle whose placement asked for it. *)
Definition callback : Type := nat.

(** [FteWorkerReservationFuture] *)
Record Future := MkFuture {
  f_key : PartitionKey;
  f_execution_id : Z;
  f_generation : Z;
  f_wait_started_at : option Z;
  f_blocked_reason : string;
  f_done : bool;
  f_cancelled : bool;
  f_result : option Reservation;
  f_exception : option exn;
  f_callbacks : list callback;
}.
#[export] Instance Future_eta : Eta Future :=
  fun r => MkFuture r.(f_key) r.(f_execution_id) r.(f_generation) r.(f_wait_started_at) r.(f_blocked_reason) r.(f_done) r.(f_cancelled)
    r.(f_result) r.(f_exception) r.(f_callbacks).

(** [WorkerReservationCompleted] *)
Record Completion := MkCompletion {
  cp_key : PartitionKey;
  cp_execution_id : Z;
  cp_generation : Z;
  cp_worker_id : option string;
  cp_error : option exn;
}.

Record Driver (A : Type) := MkDriver {
  d_handles : list Handle;
  d_futures : list Future;
  d_worker_handles : list (string * nat);
  d_closing_queries : gset string;
  d_active_operations : list (string * Z);
  d_active_teardowns : list (string * Z);
  d_fragments : list ((string * string) * Fragment);
  d_managers : list (string * A);
  d_partition_owners : list (PartitionKey * nat);
  d_task_leases : list (PartitionKey * (Z * TaskLease));
  d_task_waiters : list (PartitionKey * (string * string * string));
  d_probes : list (StageKey * PartitionKey);
  d_blocks : list (StageKey * Denial);
  d_pending : list (PartitionKey * nat);
  d_generations : list (PartitionKey * Z);
  d_schedulers : gset string;
  d_completions : list Completion;
}.
Arguments MkDriver {A}.
Arguments d_handles {A}. Arguments d_futures {A}. Arguments d_worker_handles {A}. Arguments d_closing_queries {A}.
Arguments d_active_operations {A}. Arguments d_active_teardowns {A}. Arguments d_fragments {A}. Arguments d_managers {A}.
Arguments d_partition_owners {A}. Arguments d_task_leases {A}. Arguments d_task_waiters {A}. Arguments d_probes {A}.
Arguments d_blocks {A}. Arguments d_pending {A}. Arguments d_generations {A}. Arguments d_schedulers {A}. Arguments d_completions {A}.
#[export] Instance Driver_eta A : Eta (Driver A) :=
  fun r => MkDriver r.(d_handles) r.(d_futures) r.(d_worker_handles) r.(d_closing_queries) r.(d_active_operations) r.(d_active_teardowns)
    r.(d_fragments) r.(d_managers) r.(d_partition_owners) r.(d_task_leases) r.(d_task_waiters) r.(d_probes) r.(d_blocks)
    r.(d_pending) r.(d_generations) r.(d_schedulers) r.(d_completions).

Module Placement.
Section Placement.
Context {A : Type} `{Authority A}.
Implicit Types d : Driver A.

(** ** The tables *)

Definition is_key_error (e : exn) : bool := match e with KeyError _ => true | _ => false end.

(** The window's view of the registry; it changes its own two tables. *)
Definition window_of (d : Driver A) : Window :=
  MkWindow d.(d_closing_queries) (list_to_set (od_keys d.(d_task_leases))) (map (fun f => (f.1, f.2.(fr_context))) d.(d_fragments))
    (map (fun m => (m.1, au_epoch m.2)) d.(d_managers)) d.(d_probes) d.(d_blocks).

Definition on_window {B} (m : ST Window B) : ST (Driver A) B :=
  szoom window_of (fun w d => d <| d_probes := w.(w_probes) |> <| d_blocks := w.(w_blocks) |>) m.

(** [get_query_resource_manager] *)
Definition lookup_manager (query : string) (d : Driver A) : result A :=
  let query := strip query in
  let* _ := raise_if (String.eqb query "") (ValueError "query_id must be non-empty") in
  match od_get query d.(d_managers) with
  | Some a => Ok a
  | None => Raise (KeyError ("query graph is not registered: " +:+ query))
  end.

(** A call of that manager. *)
Definition with_manager {B} (query : string) (op : ST A B) : ST (Driver A) B := fun d =>
  match lookup_manager query d with
  | Raise e => (Raise e, d)
  | Ok a => let '(r, a) := op a in (r, d <| d_managers ::= od_set (strip query) a |>)
  end.

Definition get_handle (i : nat) (d : Driver A) : result Handle :=
  match d.(d_handles) !! i with Some h => Ok h | None => Raise (AttributeError "handle") end.

(** A call on the pressure of a worker. *)
Definition on_pressure {B} (i : nat) (m : ST Pressure B) : ST (Driver A) B := fun d =>
  match d.(d_handles) !! i with
  | Some h => let '(r, p) := m h.(h_pressure) in (r, d <| d_handles ::= alter (fun h => h <| h_pressure := p |>) i |>)
  | None => (Raise (AttributeError "handle"), d)
  end.

Definition find_partition (key : PartitionKey) (d : Driver A) : option FteTaskPartition :=
  f ← od_get key.1 d.(d_fragments); od_get key.2 f.(fr_partitions).

Definition on_partition (key : PartitionKey) (f : FteTaskPartition -> FteTaskPartition) : ST (Driver A) unit :=
  smodify (fun d => match od_get key.1 d.(d_fragments) with
    | Some fr => d <| d_fragments ::= od_set key.1 (fr <| fr_partitions ::= fun ps => match od_get key.2 ps with
        | Some p => od_set key.2 (f p) ps | None => ps end |>) |>
    | None => d
    end).

(** [RayWorkerActorHandle.__init__] *)
Definition new_handle (capacity : Z) (node worker : string) : ST (Driver A) nat :=
  let! _ := sraise_if (capacity <=? 0) (ValueError "memory_capacity_bytes must be positive") in
  let node := strip node in
  let! _ := sraise_if (String.eqb node "") (ValueError "node_id must be non-empty") in
  let worker := strip worker in
  let! _ := sraise_if (String.eqb worker "") (ValueError "worker_id must be non-empty") in
  let! d := sget in
  let i := length d.(d_handles) in
  let! _ := smodify (fun d => d <| d_handles ::= fun l => l ++ [MkHandle worker node capacity true Pressure.new false] |>
    <| d_worker_handles ::= od_set worker i |>) in
  sret i.

(** ** Lifecycle of a query *)

Definition close_registry (query : string) : ST (Driver A) unit :=
  let query := strip query in
  if String.eqb query "" then sret tt else smodify (fun d => d <| d_closing_queries ::= union {[query]} |>).

Definition count_of (query : string) (l : list (string * Z)) : Z := od_get_default query 0 l.

Definition begin_operation (query : string) : ST (Driver A) bool :=
  let query := strip query in
  let! _ := sraise_if (String.eqb query "") (ValueError "query_id must be non-empty") in
  let! d := sget in
  if bool_decide (query ∈ d.(d_closing_queries)) then sret false else
  let! _ := smodify (fun d => d <| d_active_operations ::= fun l => od_set query (count_of query l + 1) l |>) in
  sret true.

Definition begin_teardown (query : string) : ST (Driver A) unit :=
  let query := strip query in
  let! _ := sraise_if (String.eqb query "") (ValueError "query_id must be non-empty") in
  let! d := sget in
  let! _ := sraise_if (negb (bool_decide (query ∈ d.(d_closing_queries))))
    (RuntimeError ("FTE teardown operation requires a closing query: " +:+ query)) in
  smodify (fun d => d <| d_active_teardowns ::= fun l => od_set query (count_of query l + 1) l |>).

Definition count_down (query : string) (l : list (string * Z)) : list (string * Z) :=
  if count_of query l =? 1 then od_pop query l else od_set query (count_of query l - 1) l.

Definition end_operation (query : string) : ST (Driver A) unit :=
  let query := strip query in
  let! d := sget in
  let! _ := sraise_if (count_of query d.(d_active_operations) <=? 0)
    (RuntimeError ("FTE registry operation ownership underflow: " +:+ query)) in
  smodify (fun d => d <| d_active_operations ::= count_down query |>).

Definition end_teardown (query : string) : ST (Driver A) unit :=
  let query := strip query in
  let! d := sget in
  let! _ := sraise_if (count_of query d.(d_active_teardowns) <=? 0)
    (RuntimeError ("FTE registry teardown ownership underflow: " +:+ query)) in
  smodify (fun d => d <| d_active_teardowns ::= count_down query |>).

(** ** Waiters and leases *)

Definition register_waiter (key : PartitionKey) (identity : string * string * string) : ST (Driver A) unit :=
  let! _ := sraise_if (String.eqb identity.1.1 "") (ValueError "FTE partition waiter resource_query_id must be non-empty") in
  let! d := sget in
  let! _ := sraise_if (match od_get key d.(d_task_waiters) with Some old => negb (bool_decide (old = identity)) | None => false end)
    (RuntimeError "FTE partition waiter identity changed before the prior waiter was released") in
  smodify (fun d => d <| d_task_waiters ::= od_set key identity |>).

(** The call that follows when a waiter has been taken off the table. *)
Definition forget_waiter (identity : string * string * string) : ST (Driver A) bool := fun d =>
  match lookup_manager identity.1.1 d with
  | Raise (KeyError _) => (Ok false, d)
  | Raise e => (Raise e, d)
  | Ok _ => with_manager identity.1.1 (au_remove_waiter identity.1.2 identity.2) d
  end.

Definition release_waiter (key : PartitionKey) : ST (Driver A) bool :=
  let! d := sget in
  match od_get key d.(d_task_waiters) with
  | None => sret false
  | Some identity =>
      let! _ := smodify (fun d => d <| d_task_waiters ::= od_pop key |>) in
      forget_waiter identity
  end.

Definition release_query_waiters (query : string) : ST (Driver A) Z :=
  let! d := sget in
  let own := List.filter (fun e => String.eqb e.1.1.1 query) d.(d_task_waiters) in
  let! _ := smodify (fun d => d <| d_task_waiters ::= List.filter (fun e => negb (String.eqb e.1.1.1 query)) |>) in
  sfold (od_values own) (fun n identity => let! gone := forget_waiter identity in sret (if gone : bool then n + 1 else n)) 0.

(** [_fte_fragment_resource_identity] *)
Definition resource_identity (fragment : string * string) (d : Driver A) : result StageKey :=
  match od_get fragment d.(d_fragments) with
  | None => Raise (KeyError ("FTE fragment execution " +:+ fragment.1 +:+ "/" +:+ fragment.2 +:+ " is not registered"))
  | Some f => resource_identity_from_context f.(fr_context)
  end.

(** [_fte_partition_fragment_execution_id] *)
Definition partition_execution_id (key : PartitionKey) (d : Driver A) : result Z :=
  match od_get key d.(d_task_leases) with
  | Some (id, _) => Ok id
  | None =>
      match od_get key d.(d_pending) ≫= fun i => d.(d_futures) !! i with
      | Some f => Ok f.(f_execution_id)
      | None =>
          match od_get key.1 d.(d_fragments) with
          | Some f => Ok f.(fr_execution_id)
          | None => Raise (KeyError ("FTE fragment execution " +:+ key.1.1 +:+ "/" +:+ key.1.2 +:+ " is not registered"))
          end
      end
  end.

(** [_fte_partition_attempt_identity] *)
Definition attempt_identity (key : PartitionKey) (execution_id : Z) (d : Driver A) : result (string * string) :=
  match od_get key.1 d.(d_fragments) with
  | None => Raise (KeyError ("FTE fragment execution " +:+ key.1.1 +:+ "/" +:+ key.1.2 +:+ " is not registered"))
  | Some f =>
      let* _ := raise_if (negb (f.(fr_execution_id) =? execution_id))
        (RuntimeError ("FTE fragment execution id mismatch for " +:+ key.1.1 +:+ "/" +:+ key.1.2)) in
      match od_get key.2 f.(fr_partitions) with
      | None => Raise (KeyError "FTE partition is not registered")
      | Some p =>
          let* n := Partition.next_attempt_number p in
          let* a := TaskAttemptId.new (RObj p.(p_task_id)) n in
          Ok (TaskId.to_str p.(p_task_id), TaskAttemptId.to_str a)
      end
  end.

(** [_set_fte_pending_reservation_blocked_reason] *)
Definition set_blocked_reason (key : PartitionKey) (reason : string) : ST (Driver A) unit :=
  smodify (fun d => match od_get key d.(d_pending) with
    | Some i => d <| d_futures ::= alter (fun f => f <| f_blocked_reason := reason |>) i |>
    | None => d
    end).

Definition closing_error (query : string) : exn := RuntimeError ("FTE query registry is closing: " +:+ query).

(** [_acquire_fte_partition_task_lease] *)
Definition acquire_lease (key : PartitionKey) (execution_id : Z) (node : string) : ST (Driver A) (TaskLease + string) :=
  let query := key.1.1 in
  let! d := sget in
  let! _ := sraise_if (bool_decide (query ∈ d.(d_closing_queries))) (closing_error query) in
  let! (resource_query, stage) := slift (resource_identity key.1 d) in
  let! admitted := on_window (SubmissionWindow.admit_partition key) in
  if negb admitted then
    let! _ := set_blocked_reason key "submission_window" in sret (inr "submission_window")
  else
  let! d := sget in
  let! (task, attempt) := slift (attempt_identity key execution_id d) in
  let! _ := slift (lookup_manager resource_query d) in
  let! grant := scatch (with_manager resource_query (au_try_acquire (MkTaskRequest resource_query stage task attempt (Some node) None)))
    (fun _ => true)
    (fun e => let! _ := on_window (SubmissionWindow.release_partition key true) in sraise e) in
  if grant.(tg_granted) then
    let! _ := on_window (SubmissionWindow.resolve_partition key true "" false None) in
    match grant.(tg_lease) with
    | None => sraise (AttributeError "lease")
    | Some lease =>
        let! d := sget in
        if bool_decide (query ∈ d.(d_closing_queries)) then
          let! _ := with_manager resource_query (au_release false lease.(tl_lease_id) lease.(tl_attempt_id)) in
          sraise (closing_error query)
        else sret (inl lease)
    end
  else
    let! _ := set_blocked_reason key grant.(tg_blocked_reason) in
    let! _ := on_window (SubmissionWindow.resolve_partition key false grant.(tg_blocked_reason) grant.(tg_fatal) (Some grant.(tg_admission_epoch))) in
    let! _ := sraise_if grant.(tg_fatal) (RuntimeError ("fatal FTE task lease rejection: " +:+ grant.(tg_blocked_reason))) in
    sret (inr grant.(tg_blocked_reason)).

(** [_release_fte_partition_task_lease] *)
Definition return_lease (lease : TaskLease) (terminal : bool) : ST (Driver A) unit :=
  scatch (let! _ := with_manager lease.(tl_query_id) (au_release terminal lease.(tl_lease_id) lease.(tl_attempt_id)) in sret tt)
    is_key_error (fun _ => sret tt).

(** [_release_fte_partition_task_lease_for_key] *)
Definition release_lease_for_key (key : PartitionKey) : ST (Driver A) unit :=
  let! _ := on_window (SubmissionWindow.release_partition key true) in
  let! _ := release_waiter key in
  let! d := sget in
  match od_get key d.(d_task_leases) with
  | None => sret tt
  | Some (_, lease) =>
      let! _ := smodify (fun d => d <| d_task_leases ::= od_pop key |>) in
      return_lease lease false
  end.

(** ** The choice of a worker *)

(** [_worker_id_host_and_index] *)
Definition worker_host (worker : string) : string :=
  if no_char "#" worker then worker else match rsplit "#" 1 worker with host :: _ => host | [] => worker end.

(** [_node_requirements_host] *)
Definition required_host (requirements : option NodeRequirements) : option string :=
  match requirements ≫= nr_host with
  | Some host => if String.eqb (strip host) "" then None else Some (strip host)
  | None => None
  end.

(** [_worker_matches_node_requirements] *)
Definition worker_matches (requirements : option NodeRequirements) (h : Handle) : bool :=
  match required_host requirements with Some host => String.eqb (worker_host h.(h_worker_id)) host | None => true end.

(** [_filter_workers_for_node_requirements]; a wait that has not started starts now. *)
Definition filter_workers (period now : Z) (requirements : option NodeRequirements) (wait_started : option Z) (workers : list (nat * Handle))
    : list (nat * Handle) :=
  match required_host requirements with
  | None => workers
  | Some _ =>
      let matching := List.filter (fun w => worker_matches requirements w.2) workers in
      if negb (match requirements with Some r => r.(nr_remotely_accessible) | None => true end) then matching else
      if bool_decide (length matching = O) then workers else
      if now - default now wait_started <? period then matching else workers
  end.

(** [_fte_effective_worker_memory_budget_bytes] *)
Definition memory_budget (h : Handle) : result Z :=
  let* _ := raise_if (h.(h_memory_capacity_bytes) <=? 0)
    (RuntimeError ("Ray worker " +:+ h.(h_worker_id) +:+ " has invalid logical memory capacity")) in
  Ok h.(h_memory_capacity_bytes).

(** [_fte_worker_has_memory_capacity] *)
Definition has_memory_capacity (memory : pyval) (h : Handle) : result bool :=
  let* budget := memory_budget h in
  Ok (Pressure.total_memory h.(h_pressure) + Pressure.memory_requirement_bytes memory <=? budget).

(** [_fte_worker_selection_key] *)
Definition selection_key (memory : pyval) (requirements : option NodeRequirements) (w : nat * Handle) : result (list keyval) :=
  let h := w.2 in
  let after := Pressure.total_memory h.(h_pressure) + Pressure.memory_requirement_bytes memory in
  let* budget := memory_budget h in
  Ok [KNum (NInt (if budget <? after then 1 else 0)); KNum (NInt (if worker_matches requirements h then 0 else 1));
      KNum (NInt (Pressure.running_count h.(h_pressure))); KNum (NInt after); KNum (NInt (Pressure.total h.(h_pressure).(pr_split_bytes)));
      KNum (NInt (Pressure.total h.(h_pressure).(pr_split_counts))); KStr h.(h_worker_id)].

(** The registered workers, sorted by name. *)
Definition registered_workers (d : Driver A) : list (string * (nat * Handle)) :=
  omap (fun e => h ← d.(d_handles) !! e.2; Some (e.1, (e.2, h))) (py_sorted (fun a b => String.leb a.1 b.1) d.(d_worker_handles)).

(** [available_fte_workers] *)
Definition available_workers (current : nat) (exclude : gset string) (d : Driver A) : list (nat * Handle) :=
  let workers := map snd (List.filter (fun e => negb (bool_decide (e.1 ∈ exclude)) && e.2.2.(h_healthy)) (registered_workers d)) in
  match d.(d_handles) !! current with
  | Some h =>
      if negb (bool_decide (current ∈ map fst workers))
         && (String.eqb h.(h_worker_id) "" || negb (bool_decide (h.(h_worker_id) ∈ exclude))) && h.(h_healthy)
      then workers ++ [(current, h)] else workers
  | None => workers
  end.

(** Those that have room for a task, and the least loaded of them. *)
Definition with_capacity (memory : pyval) (workers : list (nat * Handle)) : result (list (nat * Handle)) :=
  rfoldM (fun acc w => let* ok := has_memory_capacity memory w.2 in Ok (if ok : bool then acc ++ [w] else acc)) [] workers.

Definition least_loaded (memory : pyval) (requirements : option NodeRequirements) (workers : list (nat * Handle)) : result (option nat) :=
  let* workers := with_capacity memory workers in
  let* best := py_min (selection_key memory requirements) workers in
  Ok (fst <$> best).

(** [select_fte_worker] *)
Definition select_worker (current : nat) (exclude : gset string) (allowed : option (list string)) (memory : pyval)
    (requirements : option NodeRequirements) (period now : Z) (wait_started : option Z) (d : Driver A) : result (option nat) :=
  let workers := available_workers current exclude d in
  let workers := match allowed with
                 | Some nodes => List.filter (fun w => bool_decide (w.2.(h_node_id) ∈ nodes)) workers
                 | None => workers
                 end in
  least_loaded memory requirements (filter_workers period now requirements wait_started workers).

(** [_select_replacement_fte_worker] *)
Definition select_replacement (failed : gset string) (memory : pyval) (requirements : option NodeRequirements) (period now : Z)
    (wait_started : option Z) (d : Driver A) : result (option nat) :=
  let workers := map snd (List.filter (fun e => negb (bool_decide (e.1 ∈ failed)) && e.2.2.(h_healthy)) (registered_workers d)) in
  least_loaded memory requirements (filter_workers period now requirements wait_started workers).

(** [_has_replacement_fte_worker] *)
Definition has_replacement (failed : gset string) (requirements : option NodeRequirements) (period now : Z) (wait_started : option Z)
    (d : Driver A) : bool :=
  let workers := map snd (List.filter (fun e => negb (bool_decide (e.1 ∈ failed)) && e.2.2.(h_healthy)) (registered_workers d)) in
  negb (bool_decide (length (filter_workers period now requirements wait_started workers) = O)).

End Placement.
End Placement.
