(* ===== verification/PlacementManager.v ===== *)
(** * Owners, reservations and futures of partitions

    [FteWorkerPlacementManager] and [FteWorkerReservationFuture] of
    [duckdb/runners/ray/fte_fragment_scheduler.py], [FteWorkerPlacementMixin]
    of [fragment_worker_placement.py] and the registry part of
    [_mark_fte_worker_failed], on the state of [FragmentPlacement]; and
    histories of these calls ([PlacementCalls]). *)

From S2P Require Import Prelude PyStr PyVal PyNum FteTypes FteState SplitAssigner Partition QueryGraph ResourceState SubmissionWindow WorkerPressure FragmentPlacement.

#[local] Open Scope string_scope.
#[local] Open Scope list_scope.
#[local] Open Scope Z_scope.

Module PlacementManager.
Import Placement.

(** What a partition asks for. *)
Record Demand := MkDemand {
  dm_memory : pyval;
  dm_class : FteTaskExecutionClass;
  dm_requirements : option NodeRequirements;
  dm_wait_started_at : option Z;
}.

Section Manager.
Context {A : Type} `{Authority A}.
(** [_fte_exhausted_node_wait_period_s()] and [_fte_allowed_no_matching_node_period_s()] *)
Context (wait_period no_matching_period : Z).
Implicit Types d : Driver A.

(** ** [acquire] *)

Definition pop_owner (key : PartitionKey) : ST (Driver A) unit := smodify (fun d => d <| d_partition_owners ::= od_pop key |>).

(** The owner of a partition and its lease, as far as they can be kept. *)
Definition keep_owner (key : PartitionKey) (eligible : list string) (dm : Demand)
    : ST (Driver A) (option nat * option (Z * TaskLease)) :=
  let drop := let! _ := pop_owner key in let! _ := release_lease_for_key key in sret (None, None) in
  let! d := sget in
  let lease := od_get key d.(d_task_leases) in
  match od_get key d.(d_partition_owners) with
  | None => sret (None, lease)
  | Some i =>
      let! h := slift (get_handle i d) in
      if negb h.(h_healthy) || negb (bool_decide (h.(h_node_id) ∈ eligible)) then drop else
      let! _ := on_pressure i (Pressure.release key.1.1 key.1.2 key.2) in
      let! d := sget in
      let! h := slift (get_handle i d) in
      let! fits := slift (has_memory_capacity dm.(dm_memory) h) in
      if negb fits then drop else
      match lease with
      | Some (_, l) => if negb (String.eqb l.(tl_node_id) h.(h_node_id)) then drop else sret (Some i, lease)
      | None => sret (Some i, lease)
      end
  end.

(** [eligible_node_ids.isdisjoint(live_worker_node_ids)] *)
Definition no_live_node (current : nat) (eligible : list string) (d : Driver A) : bool :=
  negb (existsb (fun w => bool_decide (w.2.(h_node_id) ∈ eligible)) (available_workers current ∅ d)).

(** One round per worker that is tried; [fuel] bounds the rounds. *)
Fixpoint find_owner (fuel : nat) (current : nat) (key : PartitionKey) (execution_id : Z) (stage : string) (eligible : list string)
    (dm : Demand) (now : Z) (excluded : gset string) : ST (Driver A) (nat * (Z * TaskLease) + string) :=
  match fuel with
  | O => sraise NotImplementedError
  | S fuel =>
      let! chosen := scatch (
          let! d := sget in
          let! i := slift (select_worker current excluded (Some eligible) dm.(dm_memory) dm.(dm_requirements) wait_period now
                             dm.(dm_wait_started_at) d) in
          match i with
          | Some i =>
              let! h := slift (get_handle i d) in
              sret (if bool_decide (h.(h_worker_id) ∈ excluded) then None else Some (i, h))
          | None => sret None
          end) (fun _ => true) (fun e => let! _ := release_lease_for_key key in sraise e) in
      match chosen with
      | None =>
          let! _ := release_lease_for_key key in
          let! d := sget in
          let! _ := sraise_if (no_live_node current eligible d) (RuntimeError ("FTE stage " +:+ stage +:+ " allocation has no live Ray worker")) in
          sret (inr "")
      | Some (i, h) =>
          let! r := acquire_lease key execution_id h.(h_node_id) in
          match r with
          | inr reason =>
              if String.eqb reason "node_capacity" then
                find_owner fuel current key execution_id stage eligible dm now ({[h.(h_worker_id)]} ∪ excluded)
              else sret (inr reason)
          | inl lease =>
              let! _ := smodify (fun d => d <| d_task_leases ::= od_set key (execution_id, lease) |>) in
              sret (inl (i, (execution_id, lease)))
          end
      end
  end.

(** The reservation on the owner, and the entry in the table of owners. *)
Definition settle_owner (key : PartitionKey) (execution_id : Z) (i : nat) (lease : TaskLease) (dm : Demand)
    : ST (Driver A) (Reservation + string) :=
  let! _ := smodify (fun d => d <| d_handles ::= alter (fun h => h <| h_release_hook := true |>) i |>) in
  let! _ := scatch (on_pressure i (Pressure.reserve key.1.1 key.1.2 key.2 dm.(dm_memory) (RObj dm.(dm_class)))) (fun _ => true) (fun e =>
    let! d := sget in
    let! _ := if bool_decide (od_get key d.(d_partition_owners) = Some i) then pop_owner key else sret tt in
    let! _ := release_lease_for_key key in
    sraise e) in
  let! _ := smodify (fun d => d <| d_partition_owners ::= od_set key i |>) in
  let! d := sget in
  let! h := slift (get_handle i d) in
  sret (inl (MkReserved key execution_id i h.(h_worker_id) lease.(tl_stage_id) lease.(tl_lease_id) lease.(tl_attempt_id))).

Definition acquire (current : nat) (key : PartitionKey) (dm : Demand) (now : Z) : ST (Driver A) (Reservation + string) :=
  let query := key.1.1 in
  let! d := sget in
  let! execution_id := slift (partition_execution_id key d) in
  let! (resource_query, stage) := slift (resource_identity key.1 d) in
  let! a := slift (lookup_manager resource_query d) in
  let! eligible := slift (au_eligible_nodes stage a) in
  let! _ := sraise_if (bool_decide (length eligible = O)) (RuntimeError ("FTE stage " +:+ stage +:+ " has no feasible node in its query allocation")) in
  let! _ := sraise_if (bool_decide (query ∈ d.(d_closing_queries))) (closing_error query) in
  let! (owner, lease) := keep_owner key eligible dm in
  match owner with
  | None =>
      let! d := sget in
      let! r := find_owner (S (S (length d.(d_worker_handles)))) current key execution_id stage eligible dm now ∅ in
      match r with
      | inr reason => sret (inr reason)
      | inl (i, (_, l)) => settle_owner key execution_id i l dm
      end
  | Some i =>
      match lease with
      | Some (_, l) => settle_owner key execution_id i l dm
      | None =>
          let! d := sget in
          let! h := slift (get_handle i d) in
          let! r := acquire_lease key execution_id h.(h_node_id) in
          match r with
          | inr reason => sret (inr reason)
          | inl l =>
              let! _ := smodify (fun d => d <| d_task_leases ::= od_set key (execution_id, l) |>) in
              settle_owner key execution_id i l dm
          end
      end
  end.

(** ** Releasing *)

(** Whether the lease is that of an attempt that runs. *)
Definition lease_running (key : PartitionKey) (lease : TaskLease) (d : Driver A) : bool :=
  match find_partition key d with
  | Some p => existsb (fun r => String.eqb (TaskAttemptId.to_str r.2.(ra_attempt_id)) lease.(tl_attempt_id)) p.(p_running_attempts)
  | None => false
  end.

Definition release_owner (key : PartitionKey) (terminal : option bool) : ST (Driver A) (option nat) :=
  let! d := sget in
  let owner := od_get key d.(d_partition_owners) in
  let lease := od_get key d.(d_task_leases) in
  let! _ := smodify (fun d => d <| d_partition_owners ::= od_pop key |> <| d_task_leases ::= od_pop key |>) in
  let terminal := match terminal, lease with
                  | Some t, _ => t
                  | None, Some (_, l) => lease_running key l d
                  | None, None => false
                  end in
  let! _ := release_waiter key in
  let! _ := on_window (SubmissionWindow.release_partition key true) in
  let! _ := stry_finally
    (match owner with Some i => on_pressure i (Pressure.release key.1.1 key.1.2 key.2) | None => sret tt end)
    (match lease with Some (_, l) => return_lease l terminal | None => sret tt end) in
  sret owner.

Definition release_query (query : string) : ST (Driver A) Z :=
  let query := strip query in
  if String.eqb query "" then sret 0 else
  let! _ := on_window (SubmissionWindow.release_query query) in
  let! _ := release_query_waiters query in
  let! d := sget in
  let own {V} := List.filter (fun e : PartitionKey * V => String.eqb e.1.1.1 query) in
  let others {V} := List.filter (fun e : PartitionKey * V => negb (String.eqb e.1.1.1 query)) in
  let owners := own d.(d_partition_owners) in
  let leases := own d.(d_task_leases) in
  let! _ := smodify (fun d => d <| d_partition_owners ::= others |> <| d_task_leases ::= others |>) in
  let! _ := sfor owners (fun e => on_pressure e.2 (Pressure.release e.1.1.1 e.1.1.2 e.1.2)) in
  let! _ := sfor leases (fun e => return_lease e.2.2 false) in
  sret (Z.of_nat (length owners)).

Definition release_reservation (key : PartitionKey) : ST (Driver A) unit :=
  let! d := sget in
  match od_get key d.(d_partition_owners) with
  | Some i => on_pressure i (Pressure.release key.1.1 key.1.2 key.2)
  | None => sret tt
  end.

Definition update_execution_class (key : PartitionKey) (class : FteTaskExecutionClass) : ST (Driver A) bool :=
  let! d := sget in
  match od_get key d.(d_partition_owners) with
  | Some i => on_pressure i (Pressure.set_reservation_class key.1.1 key.1.2 key.2 (RObj class))
  | None => sret false
  end.

(** [_release_fte_partition_owner_for_attempt] *)
Definition release_owner_for_attempt (attempt : id_ref FteTaskAttemptId) : ST (Driver A) unit :=
  match TaskAttemptId.coerce attempt with
  | Raise _ => sret tt
  | Ok a =>
      let! d := sget in
      let mine (e : PartitionKey * (Z * TaskLease)) := String.eqb e.1.1.1 a.(task_id).(query_id) && (e.1.2 =? a.(task_id).(partition_id))
        && (e.2.1 =? a.(task_id).(fragment_execution_id)) && String.eqb e.2.2.(tl_attempt_id) (TaskAttemptId.to_str a) in
      sfor (List.filter mine d.(d_task_leases)) (fun e => let! _ := release_owner e.1 (Some true) in sret tt)
  end.

(** [record_fte_task_terminal], with the hook that [acquire] installs *)
Definition task_terminal (i : nat) (attempt : id_ref FteTaskAttemptId) : ST (Driver A) unit :=
  let! d := sget in
  let! h := slift (get_handle i d) in
  let! _ := if h.(h_release_hook) then release_owner_for_attempt attempt else sret tt in
  on_pressure i (Pressure.completed attempt).

(** ** Workers that fail *)

(** The registry part of [_mark_fte_worker_failed]: the futures to cancel and
    whether a partition can run elsewhere. *)
Definition fail_owner (failed : gset string) (now : Z) (acc : list nat * list (PartitionKey * bool)) (e : PartitionKey * nat)
    : ST (Driver A) (list nat * list (PartitionKey * bool)) :=
  let key := e.1 in
  let! d := sget in
  let! h := slift (get_handle e.2 d) in
  if negb (bool_decide (h.(h_worker_id) ∈ failed)) then sret acc else
  let partition := find_partition key d in
  let memory := match partition ≫= p_memory_requirement_bytes with Some m => PInt (Z.max 0 m) | None => PNone end in
  let requirements := partition ≫= p_node_requirements in
  let! replacement := slift (select_replacement failed memory requirements wait_period now (Some now) d) in
  let futures := match od_get key d.(d_pending) with Some i => acc.1 ++ [i] | None => acc.1 end in
  let! _ := smodify (fun d => d <| d_pending ::= od_pop key |>) in
  let! _ := release_owner key None in
  let! d := sget in
  let retryable := match replacement with
                   | Some _ => true
                   | None => has_replacement failed requirements wait_period now (Some now) d
                   end in
  sret (futures, od_set key retryable acc.2).

(** Taken from the registry and marked. *)
Definition quarantine (failed : list string) : ST (Driver A) unit :=
  sfor (sorted_str failed) (fun id => smodify (fun d => match od_get id d.(d_worker_handles) with
    | Some i => d <| d_worker_handles ::= od_pop id |> <| d_handles ::= alter (fun h => h <| h_healthy := false |>) i |>
    | None => d
    end)).

Definition workers_failed (failed : list string) (query : option string) (now : Z) : ST (Driver A) (list nat * list (PartitionKey * bool)) :=
  let! _ := quarantine failed in
  let! d := sget in
  let owners := match query with
                | Some q => List.filter (fun e => String.eqb e.1.1.1 q) d.(d_partition_owners)
                | None => d.(d_partition_owners)
                end in
  sfold owners (fail_owner (list_to_set failed) now) ([], []).

(** ** Futures *)

Inductive outcome := Reserved (r : Reservation) | Failed (e : exn) | Cancelled.

(** [_complete]: the callbacks to run *)
Definition complete (i : nat) (o : outcome) : ST (Driver A) (list callback) :=
  let! d := sget in
  match d.(d_futures) !! i with
  | None => sret []
  | Some f =>
      if f.(f_done) then sret [] else
      let! _ := smodify (fun d => d <| d_futures ::= alter (fun f => f <| f_done := true |>
        <| f_cancelled := match o with Cancelled => true | _ => false end |>
        <| f_result := match o with Reserved r => Some r | _ => None end |>
        <| f_exception := match o with Failed e => Some e | _ => None end |> <| f_callbacks := [] |>) i |>) in
      sret f.(f_callbacks)
  end.

(** [result()] *)
Definition future_result (f : Future) : result Reservation :=
  let* _ := raise_if (negb f.(f_done)) (RuntimeError "worker reservation future is not done") in
  let* _ := raise_if f.(f_cancelled) (RuntimeError "worker reservation future was cancelled") in
  match f.(f_exception), f.(f_result) with
  | Some e, _ => Raise e
  | None, None => Raise (RuntimeError "worker reservation future completed without a reservation")
  | None, Some r => Ok r
  end.

(** [fte_worker_reservation_future_is_current] *)
Definition is_current (i : nat) (f : Future) (d : Driver A) : bool := bool_decide (od_get f.(f_key) d.(d_pending) = Some i).

(** [cancel_fte_worker_reservation_future], up to the callbacks *)
Definition cancel_pending (i : nat) (allow_next : bool) : ST (Driver A) (list callback) :=
  let! d := sget in
  match d.(d_futures) !! i with
  | None => sret []
  | Some f =>
      let! _ := if is_current i f d then smodify (fun d => d <| d_pending ::= od_pop f.(f_key) |>) else sret tt in
      let! _ := release_waiter f.(f_key) in
      let! _ := on_window (SubmissionWindow.release_partition f.(f_key) allow_next) in
      complete i Cancelled
  end.

(** [_enqueue_fte_worker_reservation_completion].  The future is done when its
    callbacks run, so that to cancel it calls back nobody. *)
Definition enqueue_completion (i : nat) : ST (Driver A) unit :=
  let! d := sget in
  match d.(d_futures) !! i with
  | None => sret tt
  | Some f =>
      if f.(f_cancelled) then sret tt else
      let query := f.(f_key).1.1 in
      if bool_decide (query ∈ d.(d_closing_queries)) || negb (bool_decide (query ∈ d.(d_schedulers))) then
        let! _ := cancel_pending i true in sret tt
      else
        let '(worker, error) := match future_result f with Ok r => (Some r.(rv_worker_id), None) | Raise e => (None, Some e) end in
        smodify (fun d => d <| d_completions ::= fun l => l ++ [MkCompletion f.(f_key) f.(f_execution_id) f.(f_generation) worker error] |>)
  end.

(** [_run_callbacks]: an exception of a callback is dropped *)
Definition run_callbacks (i : nat) (l : list callback) : ST (Driver A) unit :=
  sfor l (fun _ => scatch (enqueue_completion i) (fun _ => true) (fun _ => sret tt)).

(** [set_result], [set_exception] *)
Definition set_outcome (i : nat) (o : outcome) : ST (Driver A) bool :=
  let! l := complete i o in
  let! _ := run_callbacks i l in
  sret (negb (bool_decide (length l = O))).

Definition cancel_future (i : nat) (allow_next : bool) : ST (Driver A) unit :=
  let! l := cancel_pending i allow_next in run_callbacks i l.

(** [add_done_callback] *)
Definition add_done_callback (i : nat) (c : callback) : ST (Driver A) unit :=
  let! d := sget in
  match d.(d_futures) !! i with
  | None => sret tt
  | Some f =>
      if f.(f_done) then run_callbacks i [c]
      else smodify (fun d => d <| d_futures ::= alter (fun f => f <| f_callbacks ::= fun l => l ++ [c] |>) i |>)
  end.

Definition request_async (current : nat) (key : PartitionKey) (execution_id : Z) (dm : Demand) : ST (Driver A) (nat * bool) :=
  let! d := sget in
  let! _ := sraise_if (bool_decide (key.1.1 ∈ d.(d_closing_queries))) (closing_error key.1.1) in
  match od_get key d.(d_pending) with
  | Some i => sret (i, false)
  | None =>
      let generation := od_get_default key 0 d.(d_generations) + 1 in
      let i := length d.(d_futures) in
      let! _ := smodify (fun d => d <| d_generations ::= od_set key generation |>
        <| d_futures ::= fun l => l ++ [MkFuture key execution_id generation dm.(dm_wait_started_at) "" false false None None []] |>
        <| d_pending ::= od_set key i |>) in
      let! _ := add_done_callback i current in
      sret (i, true)
  end.

(** [_record_fte_worker_reservation_unavailable]; the partition is registered. *)
Definition record_unavailable (current : nat) (key : PartitionKey) (requirements : option NodeRequirements) (wait_started : option Z) (now : Z)
    : ST (Driver A) unit :=
  let! d := sget in
  if negb (bool_decide (length (filter_workers wait_period now requirements wait_started (available_workers current ∅ d)) = O))
  then on_partition key Partition.reset_no_matching_node
  else
    match find_partition key d with
    | None => sret tt
    | Some p =>
        let since := default now p.(p_no_matching_node_started_at) in
        let! _ := on_partition key (fun p => p <| p_no_matching_node_started_at := Some since |>) in
        sraise_if (no_matching_period <? now - since) (RuntimeError "No nodes available to run query")
    end.

(** The demand of a partition, as it is when the future is tried. *)
Definition demand_of (p : FteTaskPartition) (wait_started : option Z) : Demand :=
  MkDemand (match p.(p_memory_requirement_bytes) with Some m => PInt m | None => PNone end) p.(p_execution_class) p.(p_node_requirements)
    (match p.(p_node_wait_started_at) with Some t => if t =? 0 then wait_started else Some t | None => wait_started end).

(** [_try_complete_fte_worker_reservation_future] *)
Definition try_complete (current i : nat) (raise_on_timeout : bool) (now : Z) : ST (Driver A) bool :=
  let cancel := let! _ := cancel_future i true in sret false in
  let! d := sget in
  match d.(d_futures) !! i with
  | None => sret false
  | Some f =>
      if f.(f_done) then sret false else
      match find_partition f.(f_key) d with
      | None => cancel
      | Some p =>
          if Partition.has_running p || p.(p_finished) || p.(p_failed) then cancel else
          if negb (is_current i f d) then sret false else
          let dm := demand_of p f.(f_wait_started_at) in
          let! r := fun d => match acquire current f.(f_key) dm now d with
                             | (Ok r, d) => (Ok (Ok r), d)
                             | (Raise e, d) => (Ok (Raise e), d)
                             end in
          match r with
          | Raise e => let! _ := set_outcome i (Failed e) in sret true
          | Ok (inr reason) =>
              if negb (String.eqb reason "" || String.eqb reason "node_capacity") then
                let! _ := cancel_future i false in
                let! _ := on_partition f.(f_key) (fun p => Partition.defer_ready_for_execution (p <| p_node_wait_started_at := None |>)) in
                sret false
              else
                let! r := fun d => match record_unavailable current f.(f_key) dm.(dm_requirements) dm.(dm_wait_started_at) now d with
                                   | (Ok _, d) => (Ok None, d)
                                   | (Raise e, d) => (Ok (Some e), d)
                                   end in
                match r with
                | None => sret false
                | Some e =>
                    if raise_on_timeout then let! _ := cancel_future i true in sraise e
                    else let! _ := set_outcome i (Failed e) in sret true
                end
          | Ok (inl reservation) =>
              let! d := sget in
              if negb (is_current i f d) then let! _ := release_owner f.(f_key) None in sret false
              else let! _ := set_outcome i (Reserved reservation) in sret true
          end
      end
  end.

(** [_request_fte_worker_reservation_for_partition] *)
Definition request_for_partition (current : nat) (key : PartitionKey) (now : Z) : ST (Driver A) bool :=
  let! d := sget in
  match od_get key.1 d.(d_fragments), find_partition key d with
  | Some f, Some p =>
      let! (i, created) := request_async current key f.(fr_execution_id) (demand_of p None) in
      if negb created then sret true else try_complete current i true now
  | _, _ => sret false
  end.

(** ** The completion of a future, as an event of the scheduler *)

(** [fte_pending_worker_reservation_done_count] *)
Definition done_count (query : option string) (d : Driver A) : Z :=
  Z.of_nat (length (List.filter (fun e => match query with Some q => String.eqb e.1.1.1 q | None => true end
    && match d.(d_futures) !! e.2 with Some f => f.(f_done) | None => false end) d.(d_pending))).

(** [remove_pending_fte_worker_reservation_if_current] *)
Definition remove_pending (key : PartitionKey) (i : nat) : ST (Driver A) bool :=
  let! d := sget in
  if negb (bool_decide (od_get key d.(d_pending) = Some i)) then sret false else
  let! _ := smodify (fun d => d <| d_pending ::= od_pop key |>) in
  let! _ := release_waiter key in
  sret true.

(** [fte_worker_reservation_event_state] *)
Definition event_state (c : Completion) (d : Driver A) : option (nat * Future * Fragment) :=
  i ← od_get c.(cp_key) d.(d_pending);
  f ← d.(d_futures) !! i;
  g ← od_get c.(cp_key).1 d.(d_fragments);
  if bool_decide (od_get c.(cp_key) d.(d_generations) = Some c.(cp_generation)) && (f.(f_generation) =? c.(cp_generation))
     && (g.(fr_execution_id) =? c.(cp_execution_id))
  then Some (i, f, g) else None.

(** What is to be done about a completion. *)
Inductive verdict := Ignored | QueryFails (e : exn) | Discarded | Starts (f : Future).

(** [_handles_for_worker_reservation_completed_event], up to the start of the
    attempt ([Starts]), which is the execution's, and to the failure of the
    scheduler ([QueryFails]). *)
Definition handle_completed (c : Completion) : ST (Driver A) verdict :=
  let! d := sget in
  if bool_decide (c.(cp_key).1.1 ∈ d.(d_closing_queries)) then sret Ignored else
  match event_state c d with
  | None => sret Ignored
  | Some (i, f, g) =>
      let error := match c.(cp_error), future_result f with
                   | Some e, _ => Some e
                   | None, Raise e => Some e
                   | None, Ok _ => None
                   end in
      match error with
      | Some e =>
          let! removed := remove_pending c.(cp_key) i in
          if negb removed then sret Ignored else
          let! _ := release_owner c.(cp_key) None in
          sret (QueryFails e)
      | None =>
          let! removed := remove_pending c.(cp_key) i in
          let valid := match od_get c.(cp_key).2 g.(fr_partitions) with
                       | Some p => negb (Partition.has_running p || p.(p_finished) || p.(p_failed))
                       | None => false
                       end in
          if valid then sret (if removed : bool then Starts f else Ignored) else
          let! _ := if removed : bool then release_owner c.(cp_key) None else sret None in
          sret Discarded
      end
  end.

(** ** The end of a query, and its next generation *)

(** [quiesce_fte_registry_for_query]: to wait is to let [end_operation] be
    called before; what is still active when the wait is over is an error. *)
Definition quiesce (query : string) : ST (Driver A) unit :=
  let query := strip query in
  if String.eqb query "" then sret tt else
  let! _ := close_registry query in
  let! d := sget in
  sraise_if (0 <? count_of query d.(d_active_operations))
    (RuntimeError ("FTE registry operation shutdown timed out without losing ownership: query=" +:+ query +:+ " active="
      +:+ str_of_int (count_of query d.(d_active_operations)))).

(** The entries of other queries in a table by partition. *)
Definition of_others {V} (query : string) : list (PartitionKey * V) -> list (PartitionKey * V) :=
  List.filter (fun e => negb (String.eqb e.1.1.1 query)).

(** [_drop_fte_registry_for_query] *)
Definition drop_registry (query : string) : ST (Driver A) unit :=
  if String.eqb query "" then sret tt else
  let! _ := quiesce query in
  let! _ := release_query query in
  let! d := sget in
  let futures := od_values (List.filter (fun e => String.eqb e.1.1.1 query) d.(d_pending)) in
  let! _ := smodify (fun d => d <| d_fragments ::= List.filter (fun e => negb (String.eqb e.1.1 query)) |>
    <| d_generations ::= of_others query |> <| d_pending ::= of_others query |> <| d_active_operations ::= od_pop query |>) in
  let! d := sget in
  let handles := od_values d.(d_worker_handles) in
  let! _ := smodify (fun d => d <| d_schedulers ::= (fun s => s ∖ {[query]}) |>) in
  let! _ := sfor handles (fun i => on_pressure i (Pressure.drop_query query)) in
  sfor futures (fun i => let! _ := set_outcome i Cancelled in sret tt).

(** [open_fte_registry_for_query]; [elsewhere] answers for the tables of the
    registry and of the workers that placement does not use. *)
Definition stale_owners (elsewhere : string -> bool) (query : string) (d : Driver A) : list string :=
  let any {V} (l : list (PartitionKey * V)) := existsb (fun e => String.eqb e.1.1.1 query) l in
  map fst (List.filter snd
    [("fragment_executions", existsb (fun e => String.eqb e.1.1 query) d.(d_fragments));
     ("fragment_execution_ids", elsewhere "fragment_execution_ids");
     ("fragment_progress_topologies", elsewhere "fragment_progress_topologies");
     ("fragment_progress_topology_builds", elsewhere "fragment_progress_topology_builds");
     ("fragment_states", elsewhere "fragment_states");
     ("partition_owners", any d.(d_partition_owners));
     ("partition_task_leases", any d.(d_task_leases));
     ("partition_task_waiters", any d.(d_task_waiters));
     ("stage_submission_probes", existsb (fun e => String.eqb e.2.1.1 query) d.(d_probes));
     ("stage_submission_blocks", existsb (fun e => String.eqb e.1.1 query) d.(d_blocks));
     ("pending_worker_reservations", any d.(d_pending));
     ("worker_reservation_generations", any d.(d_generations));
     ("sequences", elsewhere "sequences");
     ("result_handles", elsewhere "result_handles");
     ("status_watchers", elsewhere "status_watchers");
     ("active_operations", 0 <? count_of query d.(d_active_operations));
     ("active_teardown_operations", 0 <? count_of query d.(d_active_teardowns));
     ("retry_delay", elsewhere "retry_delay");
     ("fragment_execution_counter", elsewhere "fragment_execution_counter");
     ("event_scheduler", bool_decide (query ∈ d.(d_schedulers)));
     ("fragment_plan_refs", elsewhere "fragment_plan_refs");
     ("worker_fragment_registrations", elsewhere "worker_fragment_registrations");
     ("worker_controls", elsewhere "worker_controls");
     ("worker_teardowns", elsewhere "worker_teardowns")]).

Definition open_registry (elsewhere : string -> bool) (query : string) : ST (Driver A) unit :=
  let query := strip query in
  let! _ := sraise_if (String.eqb query "") (ValueError "query_id must be non-empty") in
  let! d := sget in
  let stale := stale_owners elsewhere query d in
  let! _ := sraise_if (negb (bool_decide (length stale = O)))
    (RuntimeError ("cannot reopen FTE registry with old generation state: " +:+ query +:+ "; " +:+ String.concat ", " stale)) in
  smodify (fun d => d <| d_closing_queries ::= (fun s => s ∖ {[query]}) |>).

End Manager.
End PlacementManager.

(** ** Histories

    The calls that the driver makes on the registry, as data, so that a
    history is a list of them; with them, what other parts of the driver do to
    the tables that placement reads: fragments, partitions, resource managers
    and schedulers are registered and changed.  A manager may be registered
    in any state at any time, so [RegisterManager] also covers what its other
    clients do to it.  [drop_registry] and [open_registry], which end one
    generation of a query and begin the next and forget its reservation
    generations, are not among these calls; [PlacementTheorems] adds them. *)

Module PlacementCalls.
Import Placement PlacementManager.

Inductive call (A : Type) : Type :=
| NewHandle (capacity : Z) (node worker : string)
| CloseRegistry (query : string)
| BeginOperation (query : string) | EndOperation (query : string)
| BeginTeardown (query : string) | EndTeardown (query : string)
| RegisterFragment (fragment : string * string) (f : Fragment) | DropFragment (fragment : string * string)
| RegisterManager (query : string) (a : A) | DropManager (query : string)
| RegisterScheduler (query : string)
| ChangePartition (key : PartitionKey) (f : FteTaskPartition -> FteTaskPartition)
| Acquire (current : nat) (key : PartitionKey) (dm : Demand) (now : Z)
| RequestFor (current : nat) (key : PartitionKey) (now : Z)
| TryComplete (current i : nat) (raise_on_timeout : bool) (now : Z)
| CancelFuture (i : nat) (allow_next : bool)
| HandleCompleted (c : Completion)
| ReleaseOwner (key : PartitionKey) (terminal : option bool) | ReleaseQuery (query : string)
| ReleaseReservation (key : PartitionKey) | UpdateClass (key : PartitionKey) (class : FteTaskExecutionClass)
| WorkersFailed (failed : list string) (query : option string) (now : Z)
| TaskStarted (i : nat) (key : PartitionKey) (attempt : id_ref FteTaskAttemptId) (request : list (pyval * pyval))
| SplitsAdded (i : nat) (attempt : id_ref FteTaskAttemptId) (count : Z)
| SplitBytesAdded (i : nat) (attempt : id_ref FteTaskAttemptId) (bytes : Z)
| SetAttemptClass (i : nat) (attempt : id_ref FteTaskAttemptId) (class : id_ref FteTaskExecutionClass)
| TaskTerminal (i : nat) (attempt : id_ref FteTaskAttemptId)
| DropPressure (i : nat) (query : string).
Arguments NewHandle {A}. Arguments CloseRegistry {A}. Arguments BeginOperation {A}. Arguments EndOperation {A}.
Arguments BeginTeardown {A}. Arguments EndTeardown {A}. Arguments RegisterFragment {A}. Arguments DropFragment {A}.
Arguments RegisterManager {A}. Arguments DropManager {A}. Arguments RegisterScheduler {A}. Arguments ChangePartition {A}.
Arguments Acquire {A}. Arguments RequestFor {A}. Arguments TryComplete {A}. Arguments CancelFuture {A}. Arguments HandleCompleted {A}.
Arguments ReleaseOwner {A}. Arguments ReleaseQuery {A}. Arguments ReleaseReservation {A}. Arguments UpdateClass {A}.
Arguments WorkersFailed {A}. Arguments TaskStarted {A}. Arguments SplitsAdded {A}. Arguments SplitBytesAdded {A}.
Arguments SetAttemptClass {A}. Arguments TaskTerminal {A}. Arguments DropPressure {A}.

Section Calls.
Context {A : Type} `{Authority A} (wait_period no_matching_period : Z).

Definition forget {B} (m : ST (Driver A) B) : ST (Driver A) unit := let! _ := m in sret tt.

Definition do_call (c : call A) : ST (Driver A) unit :=
  match c with
  | NewHandle capacity node worker => forget (new_handle capacity node worker)
  | CloseRegistry q => close_registry q
  | BeginOperation q => forget (begin_operation q)
  | EndOperation q => end_operation q
  | BeginTeardown q => begin_teardown q
  | EndTeardown q => end_teardown q
  | RegisterFragment k f => smodify (fun d => d <| d_fragments ::= od_set k f |>)
  | DropFragment k => smodify (fun d => d <| d_fragments ::= od_pop k |>)
  | RegisterManager q a => smodify (fun d => d <| d_managers ::= od_set q a |>)
  | DropManager q => smodify (fun d => d <| d_managers ::= od_pop q |>)
  | RegisterScheduler q => smodify (fun d => d <| d_schedulers ::= union {[q]} |>)
  | ChangePartition key f => on_partition key f
  | Acquire current key dm now => forget (acquire wait_period current key dm now)
  | RequestFor current key now => forget (request_for_partition wait_period no_matching_period current key now)
  | TryComplete current i b now => forget (try_complete wait_period no_matching_period current i b now)
  | CancelFuture i b => cancel_future i b
  | HandleCompleted c => forget (handle_completed c)
  | ReleaseOwner key t => forget (release_owner key t)
  | ReleaseQuery q => forget (release_query q)
  | ReleaseReservation key => release_reservation key
  | UpdateClass key c => forget (update_execution_class key c)
  | WorkersFailed failed q now =>
      let! (futures, _) := workers_failed wait_period failed q now in
      sfor futures (fun i => forget (set_outcome i Cancelled))
  | TaskStarted i key a request => on_pressure i (Pressure.started_from_reservation key.1.1 key.1.2 key.2 a request)
  | SplitsAdded i a n => on_pressure i (Pressure.splits_added a n)
  | SplitBytesAdded i a n => on_pressure i (Pressure.split_bytes_added a n)
  | SetAttemptClass i a c => forget (on_pressure i (Pressure.set_attempt_class a c))
  | TaskTerminal i a => task_terminal i a
  | DropPressure i q => on_pressure i (Pressure.drop_query q)
  end.

(** A history: the exception of a call does not stop the ones that follow. *)
Fixpoint run (cs : list (call A)) (d : Driver A) : Driver A :=
  match cs with
  | [] => d
  | c :: cs => run cs (do_call c d).2
  end.

(** Every call of a history satisfies [P] in the state in which it is made. *)
Fixpoint all_along (P : call A -> Driver A -> Prop) (cs : list (call A)) (d : Driver A) : Prop :=
  match cs with
  | [] => True
  | c :: cs => P c d /\ all_along P cs (do_call c d).2
  end.

(** The induction over histories. *)
Lemma run_preserves (P : call A -> Driver A -> Prop) (I : Driver A -> Prop) cs d :
  (forall c d, P c d -> I d -> I (do_call c d).2) -> all_along P cs d -> I d -> I (run cs d).
Proof.
  intros Hstep. revert d. induction cs as [|c cs IH]; intros d Hc Hd; [done|]. destruct Hc as [Hp Hc]. apply IH; [done|by apply Hstep].
Qed.

End Calls.
End PlacementCalls.
