(* ===== verification/PlacementBooks.v ===== *)
(** * The memory that is booked on a worker

    What each operation of [WorkerPressure] does to the memory a worker is
    charged with, and the frame of the placement's operations: which of them
    leave the workers alone, and that the others keep every worker within its
    capacity. *)

From S2P Require Import Prelude PyStr PyVal PyNum FteTypes FteState SplitAssigner Partition QueryGraph ResourceState SubmissionWindow WorkerPressure FragmentPlacement PlacementManager.

#[local] Open Scope string_scope.
#[local] Open Scope list_scope.
#[local] Open Scope Z_scope.

(** ** Tables of bytes *)

Section Bytes.
Context {K : Type} `{EqDecision K}.
Implicit Types d : list (K * Z).

Definition no_debt d : Prop := Forall (fun e => 0 <= e.2) d.

Lemma total_set k v d : Pressure.total (od_set k v d) = Pressure.total d - od_get_default k 0 d + v.
Proof.
  unfold Pressure.total, od_values, od_get_default. induction d as [|[k' v'] d IH]; simpl; [lia|].
  destruct (decide (k = k')); simpl in *; lia.
Qed.

Lemma total_pop k d : Pressure.total (od_pop k d) = Pressure.total d - od_get_default k 0 d.
Proof.
  unfold Pressure.total, od_values, od_get_default. induction d as [|[k' v'] d IH]; simpl; [lia|].
  destruct (decide (k = k')); simpl in *; lia.
Qed.

Lemma no_debt_get k d : no_debt d -> 0 <= od_get_default k 0 d.
Proof.
  intros H. unfold od_get_default. destruct (od_get k d) as [v|] eqn:E; [|simpl; lia].
  apply od_get_elem in E. by eapply Forall_forall in H; [|exact E].
Qed.

Lemma no_debt_set k v d : 0 <= v -> no_debt d -> no_debt (od_set k v d).
Proof.
  intros Hv. induction 1 as [|[k' v'] d H1 H2 IH]; simpl; [by repeat constructor|].
  destruct (decide (k = k')); by constructor.
Qed.

Lemma no_debt_pop k d : no_debt d -> no_debt (od_pop k d).
Proof. induction 1 as [|[k' v'] d H1 H2 IH]; simpl; [constructor|]. destruct (decide (k = k')); [done|by constructor]. Qed.

Lemma no_debt_charge k v d : no_debt d -> no_debt (Pressure.charge k v d).
Proof.
  intros H. unfold Pressure.charge. destruct (0 <? v) eqn:E; [apply no_debt_set; [lia|done]|by apply no_debt_pop].
Qed.

Lemma total_charge k v d : 0 <= v -> Pressure.total (Pressure.charge k v d) = Pressure.total d - od_get_default k 0 d + v.
Proof. intros Hv. unfold Pressure.charge. destruct (0 <? v) eqn:E; [apply total_set|rewrite total_pop; lia]. Qed.

Lemma no_debt_sublist d d' : d' `sublist_of` d -> no_debt d -> no_debt d' /\ Pressure.total d' <= Pressure.total d.
Proof.
  unfold Pressure.total, od_values. induction 1 as [|[k v] d' d Hs IH|[k v] d' d Hs IH]; intros Hn; [done|..];
    apply Forall_cons in Hn as [Hv Hn]; destruct (IH Hn) as [H1 H2]; simpl in *.
  - split; [by constructor|lia].
  - split; [done|lia].
Qed.
End Bytes.
#[local] Arguments Pressure.total : simpl never.
#[local] Arguments od_get_default : simpl never.

Lemma filter_sublist {X} (f : X -> bool) l : List.filter f l `sublist_of` l.
Proof. induction l as [|x l IH]; simpl; [constructor|]. destruct (f x); by constructor. Qed.

Lemma others_sublist {V} query (d d' : list (string * V)) : Pressure.others query d = Ok d' -> d' `sublist_of` d.
Proof.
  unfold Pressure.others. assert (Hg : forall acc d', rfoldM (fun acc e => let* own := Pressure.owned_attempt query e.1 in
      Ok (if own : bool then acc else acc ++ [e])) acc d = Ok d' -> exists t, d' = acc ++ t /\ t `sublist_of` d).
  { clear d'. induction d as [|e d IH]; intros acc d' H; cbn in H; [injection H as <-; exists []; by rewrite app_nil_r|].
    apply rbind_ok in H as (acc1 & H1 & H). apply rbind_ok in H1 as (own & _ & [= <-]). apply IH in H as (t & -> & Ht). destruct own.
    - exists t. split; [done|by constructor].
    - exists (e :: t). split; [by rewrite <- app_assoc|by constructor]. }
  intros H. by apply Hg in H as (t & -> & Ht).
Qed.

(** ** The operations *)

Definition solvent (p : Pressure) : Prop :=
  no_debt p.(pr_attempt_memory) /\ no_debt p.(pr_reservation_memory) /\ od_wf p.(pr_reservation_memory).

(** From a solvent [p] to a solvent state with at most [n] bytes in all. *)
Definition charged (n : Z) (p : Pressure) : Prop := solvent p /\ Pressure.total_memory p <= n.

(** An operation that books no memory, whatever its outcome. *)
Definition light {A} (m : ST Pressure A) : Prop := forall n, preserves (charged n) m.

Lemma requirement_nonneg v : 0 <= Pressure.memory_requirement_bytes v.
Proof. unfold Pressure.memory_requirement_bytes. destruct v; [lia|..]; destruct (py_int _); lia. Qed.

Lemma drop_reservation_charged n key p : charged n p ->
  charged (n - od_get_default key 0 p.(pr_reservation_memory)) (Pressure.drop_reservation key p).
Proof.
  intros [(H1 & H2 & Hw) H3]. split; [split; [done|split; [by apply no_debt_pop|by apply od_wf_pop]]|].
  unfold Pressure.total_memory, Pressure.drop_reservation in *. cbn. rewrite total_pop. lia.
Qed.

Lemma charged_mono n n' p : n <= n' -> charged n p -> charged n' p.
Proof. intros Hn [H1 H2]. split; [done|lia]. Qed.

Lemma light_release q f i : light (Pressure.release q f i).
Proof.
  intros n. unfold Pressure.release. solve_preserves.
  eapply charged_mono; [|apply drop_reservation_charged; eassumption].
  match goal with H : charged _ _ |- _ => pose proof (no_debt_get a _ (proj1 (proj2 (proj1 H)))) end. lia.
Qed.

Lemma charged_figures n p p' : p'.(pr_attempt_memory) = p.(pr_attempt_memory) -> p'.(pr_reservation_memory) = p.(pr_reservation_memory) ->
  charged n p -> charged n p'.
Proof. unfold charged, solvent, Pressure.total_memory. by intros -> ->. Qed.

(** An operation that does not touch the memory. *)
Ltac light_by f := intros n; apply preserves_wp; intros p Hp; unfold f; wp_run; (eapply charged_figures; [..|exact Hp]); reflexivity.

Lemma light_set_reservation_class q f i c : light (Pressure.set_reservation_class q f i c).
Proof. light_by Pressure.set_reservation_class. Qed.

Lemma light_set_attempt_class a c : light (Pressure.set_attempt_class a c).
Proof. light_by Pressure.set_attempt_class. Qed.

Lemma light_splits_added a c : light (Pressure.splits_added a c).
Proof. light_by Pressure.splits_added. Qed.

Lemma light_split_bytes_added a c : light (Pressure.split_bytes_added a c).
Proof. light_by Pressure.split_bytes_added. Qed.

Lemma light_completed a : light (Pressure.completed a).
Proof.
  intros n. unfold Pressure.completed. solve_preserves. rename select (charged _ _) into Hs. destruct Hs as [(H1 & H2 & Hw) H3].
  split; [split; [by apply no_debt_pop|done]|]. unfold Pressure.total_memory in *. cbn. rewrite total_pop. pose proof (no_debt_get a0 _ H1). lia.
Qed.

Lemma charged_sublists n p p' : p'.(pr_attempt_memory) `sublist_of` p.(pr_attempt_memory) ->
  p'.(pr_reservation_memory) `sublist_of` p.(pr_reservation_memory) -> charged n p -> charged n p'.
Proof.
  intros H1 H2 [(Hn1 & Hn2 & Hw) Hn]. unfold charged, solvent, Pressure.total_memory in *.
  destruct (no_debt_sublist _ _ H1 Hn1), (no_debt_sublist _ _ H2 Hn2). split; [|lia]. split_and!; [done..|].
  eapply sublist_NoDup; [exact Hw|]. by apply (fmap_sublist fst).
Qed.

Lemma light_drop_query q : light (Pressure.drop_query q).
Proof.
  intros n. apply preserves_wp. intros p Hp. unfold Pressure.drop_query. destruct (String.eqb _ _); [by apply wp_ret|]. wp_run.
  all: eapply charged_sublists; [..|exact Hp]; cbn [pr_attempt_memory pr_reservation_memory set_field];
    solve [done|by apply filter_sublist|by eapply others_sublist].
Qed.

(** A reservation is booked with what it asks for; one that fails books nothing. *)
Lemma reserve_wp q f i memory c n p : charged n p ->
  wp (Pressure.reserve q f i memory c)
    (fun _ p' => exists key, Pressure.partition_reservation_key q f i = Ok key /\ key ∈ p'.(pr_reserved_partitions) /\
      charged (n + Pressure.memory_requirement_bytes memory) p' /\
      od_get_default key 0 p'.(pr_reservation_memory) = Pressure.memory_requirement_bytes memory)
    (fun _ p' => p' = p) p.
Proof.
  intros [(H1 & H2 & Hw) H3]. pose proof (requirement_nonneg memory) as Hm. unfold Pressure.reserve. wp_run; try done. exists a.
  split; [done|]. split; [cbn; set_solver|]. pose proof (no_debt_get a _ H2). split.
  - split; [split_and!; cbn; [done|by apply no_debt_charge|]|unfold Pressure.total_memory in *; cbn; rewrite total_charge by done; lia].
    unfold Pressure.charge. destruct (0 <? _); [by apply od_wf_set|by apply od_wf_pop].
  - cbn. unfold Pressure.charge, od_get_default. destruct (0 <? _) eqn:E; [by rewrite od_get_set_eq|]. rewrite od_get_pop_eq by done. simpl. lia.
Qed.

(** An attempt that starts with no more memory than was reserved for it. *)
Lemma started_charged q f i attempt request n p key : charged n p -> Pressure.partition_reservation_key q f i = Ok key ->
  Pressure.memory_requirement_bytes (pd_get "memory_requirement_bytes" request) <= od_get_default key 0 p.(pr_reservation_memory) ->
  charged n (Pressure.started_from_reservation q f i attempt request p).2.
Proof.
  intros Hp Hk Hle. pose proof (no_debt_get key _ (proj1 (proj2 (proj1 Hp)))) as Hg. set (m := Pressure.memory_requirement_bytes _) in *.
  set (r := od_get_default _ _ _) in *. assert (Hw : wp (Pressure.started_from_reservation q f i attempt request) (fun _ => charged n) (fun _ => charged n) p).
  2: { unfold wp in Hw. by destruct (Pressure.started_from_reservation _ _ _ _ _ p) as [[?|?] ?]. }
  unfold Pressure.started_from_reservation. apply wp_bind. rewrite Hk. apply wp_ret, wp_bind, wp_modify.
  pose proof (drop_reservation_charged n key p Hp) as H0. fold r in H0. set (p0 := Pressure.drop_reservation key p) in *. clearbody p0.
  assert (Hn : charged n p0) by (eapply charged_mono; [|exact H0]; lia).
  unfold Pressure.started. wp_run; try solve [eapply charged_figures; [..|exact Hn]; reflexivity].
  destruct H0 as [(G1 & G2 & Gw) G3]. split; [split; cbn; [by apply no_debt_charge|done]|].
  unfold Pressure.total_memory in *. cbn. rewrite total_charge by apply requirement_nonneg.
  match goal with |- context [od_get_default ?k 0 (pr_attempt_memory p0)] => pose proof (no_debt_get k _ G1) end. fold m. lia.
Qed.

(** ** Frames *)

(** A property of the driver that does not depend on the window, the resource
    managers, the waiters, leases and owners of partitions, or the fragments. *)
Class PlacementFrame {A} (I : Driver A -> Prop) : Prop := {
  pf_window : forall d p b, I d -> I (d <| d_probes := p |> <| d_blocks := b |>);
  pf_managers : forall d f, I d -> I (d <| d_managers ::= f |>);
  pf_waiters : forall d f, I d -> I (d <| d_task_waiters ::= f |>);
  pf_leases : forall d f, I d -> I (d <| d_task_leases ::= f |>);
  pf_owners : forall d f, I d -> I (d <| d_partition_owners ::= f |>);
  pf_fragments : forall d f, I d -> I (d <| d_fragments ::= f |>);
  pf_blocked : forall d i r, I d -> I (d <| d_futures ::= alter (fun f => f <| f_blocked_reason := r |>) i |>);
}.

(** Nor on the workers. *)
Class WorkerFrame {A} (I : Driver A -> Prop) : Prop := {
  wf_handles : forall d f, I d -> I (d <| d_handles ::= f |>);
}.

Create HintDb frame.
#[export] Hint Extern 2 (PlacementFrame _) => typeclasses eauto : frame.
#[export] Hint Extern 2 (WorkerFrame _) => typeclasses eauto : frame.

Lemma preserves_try_finally {S B} (I : S -> Prop) (m : ST S B) f : preserves I m -> preserves I f -> preserves I (stry_finally m f).
Proof.
  intros Hm Hf s Hs. unfold stry_finally. specialize (Hm s Hs). destruct (m s) as [r s1]. specialize (Hf s1 Hm). by destruct (f s1) as [[] s2].
Qed.

(** [preserves I m] by the structure of [m] and the frames of its parts. *)
Ltac off :=
  repeat first
    [ solve [auto with frame]
    | apply preserves_ret | apply preserves_raise | apply preserves_lift | apply preserves_get | apply preserves_raise_if
    | lazymatch goal with
      | |- preserves _ (sbind _ _) => apply preserves_bind; [|intros ?]
      | |- preserves _ (sfor _ _) => apply preserves_for; intros ?
      | |- preserves _ (sfold _ _ _) => apply preserves_fold; intros ? ?
      | |- preserves _ (scatch _ _ _) => apply preserves_catch; [|intros ?]
      | |- preserves _ (stry_finally _ _) => apply preserves_try_finally
      | |- preserves _ (match ?x with _ => _ end) => destruct x
      | |- preserves _ (let x := _ in _) => cbv zeta
      | |- preserves _ (smodify _) => apply preserves_modify; intros ? ?; cbv beta;
          solve [repeat first [assumption | apply pf_waiters | apply pf_leases | apply pf_owners | apply wf_handles]]
      end ].

Section Frame.
Context {A : Type} `{Authority A} (I : Driver A -> Prop) `{!PlacementFrame I}.
Implicit Types d : Driver A.
Import Placement PlacementManager.

Lemma frame_window {B} (m : ST Window B) : preserves I (on_window m).
Proof using PlacementFrame0. intros d Hd. unfold on_window, szoom. destruct (m _). by apply pf_window. Qed.
Lemma frame_manager {B} q (m : ST A B) : preserves I (with_manager q m).
Proof using PlacementFrame0.
  intros d Hd. unfold with_manager. destruct (lookup_manager q d) as [a|]; [|done]. destruct (m a). by apply pf_managers.
Qed.
Lemma frame_partition key f : preserves I (on_partition key f).
Proof using PlacementFrame0. unfold on_partition. apply preserves_modify. intros d Hd. destruct (od_get _ _); [by apply pf_fragments|done]. Qed.
Lemma frame_blocked key r : preserves I (set_blocked_reason key r).
Proof using PlacementFrame0. unfold set_blocked_reason. apply preserves_modify. intros d Hd. destruct (od_get _ _); [by apply pf_blocked|done]. Qed.
#[local] Hint Resolve frame_window frame_manager frame_partition frame_blocked : frame.

Lemma frame_forget id : preserves I (forget_waiter id).
Proof using PlacementFrame0. intros d Hd. unfold forget_waiter. destruct (lookup_manager _ d) as [a|[]]; try done. by apply frame_manager. Qed.
#[local] Hint Resolve frame_forget : frame.
Lemma frame_release_waiter key : preserves I (release_waiter key).
Proof using PlacementFrame0. unfold release_waiter. off. Qed.
Lemma frame_query_waiters q : preserves I (release_query_waiters q).
Proof using PlacementFrame0. unfold release_query_waiters. off. Qed.
Lemma frame_return l t : preserves I (return_lease l t).
Proof using PlacementFrame0. unfold return_lease. off. Qed.
#[local] Hint Resolve frame_release_waiter frame_query_waiters frame_return : frame.
Lemma frame_release_lease key : preserves I (release_lease_for_key key).
Proof using PlacementFrame0. unfold release_lease_for_key. off. Qed.
Lemma frame_acquire_lease key x n : preserves I (acquire_lease key x n).
Proof using PlacementFrame0. unfold acquire_lease. off. Qed.
Lemma frame_pop_owner key : preserves I (pop_owner key).
Proof using PlacementFrame0. unfold pop_owner. off. Qed.
#[local] Hint Resolve frame_release_lease frame_acquire_lease frame_pop_owner : frame.
Lemma frame_find_owner wait fuel current key x stage eligible dm now excluded :
  preserves I (find_owner wait fuel current key x stage eligible dm now excluded).
Proof using PlacementFrame0. revert excluded. induction fuel as [|fuel IH]; intros excluded; cbn [find_owner]; off. Qed.
#[local] Hint Resolve frame_find_owner : frame.

Section Workers.
Context `{!WorkerFrame I}.

Lemma frame_pressure {B} i (m : ST Pressure B) : preserves I (on_pressure i m).
Proof using WorkerFrame0.
  intros d Hd. unfold on_pressure. destruct (d_handles d !! i) as [h|]; [|done]. destruct (m _). by apply wf_handles.
Qed.
#[local] Hint Resolve frame_pressure : frame.
Lemma frame_keep_owner key eligible dm : preserves I (keep_owner key eligible dm).
Proof using All. unfold keep_owner. off. Qed.
Lemma frame_settle_owner key x i l dm : preserves I (settle_owner key x i l dm).
Proof using All. unfold settle_owner. off. Qed.
#[local] Hint Resolve frame_keep_owner frame_settle_owner : frame.
Lemma frame_acquire wait current key dm now : preserves I (acquire wait current key dm now).
Proof using All. unfold acquire. off. Qed.
Lemma frame_release_owner key t : preserves I (release_owner key t).
Proof using All. unfold release_owner. off. Qed.
#[local] Hint Resolve frame_acquire frame_release_owner : frame.
Lemma frame_release_query q : preserves I (release_query q).
Proof using All. unfold release_query. off. Qed.
Lemma frame_release_reservation key : preserves I (release_reservation key).
Proof using All. unfold release_reservation. off. Qed.
Lemma frame_update_class key c : preserves I (update_execution_class key c).
Proof using All. unfold update_execution_class. off. Qed.
Lemma frame_attempt a : preserves I (release_owner_for_attempt a).
Proof using All. unfold release_owner_for_attempt. off. Qed.
#[local] Hint Resolve frame_attempt : frame.
Lemma frame_terminal i a : preserves I (task_terminal i a).
Proof using All. unfold task_terminal. off. Qed.
End Workers.
End Frame.
#[export] Hint Resolve frame_window frame_manager frame_partition frame_blocked frame_forget frame_release_waiter frame_query_waiters
  frame_return frame_release_lease frame_acquire_lease frame_pop_owner frame_find_owner frame_pressure frame_keep_owner
  frame_settle_owner frame_acquire frame_release_owner frame_release_query frame_release_reservation frame_update_class
  frame_attempt frame_terminal : frame.

(** ** Calls on futures *)

(** A property that does not depend on the futures. *)
Class FutureFrame {A} (I : Driver A -> Prop) : Prop := {
  ff_futures : forall d f, I d -> I (d <| d_futures ::= f |>);
  ff_pending : forall d f, I d -> I (d <| d_pending ::= f |>);
  ff_completions : forall d f, I d -> I (d <| d_completions ::= f |>);
  ff_generations : forall d f, I d -> I (d <| d_generations ::= f |>);
}.

(** A property that the parts of the calls keep. *)
Class CallFrame {A} `{Authority A} (I : Driver A -> Prop) : Prop := {
  cf_window : forall B (m : ST Window B), preserves I (Placement.on_window m);
  cf_waiter : forall key, preserves I (Placement.release_waiter key);
  cf_partition : forall key f, preserves I (Placement.on_partition key f);
  cf_acquire : forall wait current key dm now, preserves I (PlacementManager.acquire wait current key dm now);
  cf_release_owner : forall key t, preserves I (PlacementManager.release_owner key t);
  cf_quarantine : forall failed, preserves I (PlacementManager.quarantine failed);
  cf_pending : forall d f, I d -> I (d <| d_pending ::= f |>);
  cf_set_outcome : forall i o, preserves I (PlacementManager.set_outcome i o);
  cf_cancel_future : forall i b, preserves I (PlacementManager.cancel_future i b);
  cf_request_async : forall current key x dm, preserves I (PlacementManager.request_async current key x dm);
}.

#[export] Hint Extern 2 (FutureFrame _) => typeclasses eauto : frame.
#[export] Hint Extern 2 (CallFrame _) => typeclasses eauto : frame.

Ltac off_calls :=
  repeat first
    [ progress off
    | lazymatch goal with
      | |- preserves _ (match ?x with _ => _ end) => destruct x
      | |- preserves _ (smodify _) => apply preserves_modify; intros ? ?; cbv beta;
          solve [repeat first [assumption | apply ff_futures | apply ff_pending | apply ff_completions | apply ff_generations | apply cf_pending]]
      end ].

Section FutureFrames.
Context {A : Type} `{Authority A} (I : Driver A -> Prop) `{!FutureFrame I}.
Context (Hwindow : forall B (m : ST Window B), preserves I (Placement.on_window m))
  (Hwaiter : forall key, preserves I (Placement.release_waiter key)).
Import Placement PlacementManager.
#[local] Hint Resolve Hwindow Hwaiter : frame.

Lemma futures_complete i o : preserves I (complete i o).
Proof using FutureFrame0. unfold complete. off_calls. Qed.
#[local] Hint Resolve futures_complete : frame.
Lemma futures_cancel_pending i b : preserves I (cancel_pending i b).
Proof using All. unfold cancel_pending. off_calls. Qed.
#[local] Hint Resolve futures_cancel_pending : frame.
Lemma futures_enqueue i : preserves I (enqueue_completion i).
Proof using All. unfold enqueue_completion. off_calls. Qed.
#[local] Hint Resolve futures_enqueue : frame.
Lemma futures_run_callbacks i l : preserves I (run_callbacks i l).
Proof using All. unfold run_callbacks. off_calls. Qed.
#[local] Hint Resolve futures_run_callbacks : frame.
Lemma futures_set_outcome i o : preserves I (set_outcome i o).
Proof using All. unfold set_outcome. off_calls. Qed.
Lemma futures_cancel_future i b : preserves I (cancel_future i b).
Proof using All. unfold cancel_future. off_calls. Qed.
Lemma futures_add_callback i c : preserves I (add_done_callback i c).
Proof using All. unfold add_done_callback. off_calls. Qed.
#[local] Hint Resolve futures_add_callback : frame.
Lemma futures_request_async current key x dm : preserves I (request_async current key x dm).
Proof using All. unfold request_async. off_calls. Qed.
End FutureFrames.

#[export] Hint Resolve cf_window cf_waiter cf_acquire cf_release_owner cf_set_outcome cf_cancel_future cf_request_async : frame.
#[export] Hint Extern 1 (preserves ?I (Placement.on_partition _ _)) => exact (cf_partition (I := I) _ _) : frame.
#[export] Hint Extern 1 (preserves ?I (PlacementManager.quarantine _)) => exact (cf_quarantine (I := I) _) : frame.

Section CallFrames.
Context {A : Type} `{Authority A} (I : Driver A -> Prop) `{!CallFrame I}.
Import Placement PlacementManager.

Lemma calls_unavailable w n current key r s now : preserves I (record_unavailable w n current key r s now).
Proof using CallFrame0. unfold record_unavailable. off_calls. Qed.
#[local] Hint Resolve calls_unavailable : frame.

(** [try: ... except] that keeps the exception as a value. *)
Lemma preserves_attempt {S B C} (P : S -> Prop) (m : ST S B) (f : result B -> C) :
  preserves P m -> preserves P (fun s => let '(r, s) := m s in (Ok (f r), s)).
Proof. intros Hm s Hs. specialize (Hm s Hs). by destruct (m s). Qed.

Lemma calls_try_complete w n current i b now : preserves I (try_complete w n current i b now).
Proof using CallFrame0.
  unfold try_complete. off_calls.
  all: lazymatch goal with |- preserves _ (fun d => match ?m d with _ => _ end) =>
         let Hm := fresh in assert (Hm : preserves I m) by auto with frame;
         intros d Hd; specialize (Hm d Hd); destruct (m d) as [[?|?] ?]; exact Hm end.
Qed.
#[local] Hint Resolve calls_try_complete : frame.
Lemma calls_request_for w n current key now : preserves I (request_for_partition w n current key now).
Proof using CallFrame0. unfold request_for_partition. off_calls. Qed.
Lemma calls_remove_pending key i : preserves I (remove_pending key i).
Proof using CallFrame0. unfold remove_pending. off_calls. Qed.
#[local] Hint Resolve calls_remove_pending : frame.
Lemma calls_handle_completed c : preserves I (handle_completed c).
Proof using CallFrame0. unfold handle_completed. off_calls. Qed.
Lemma calls_fail_owner w failed now acc e : preserves I (fail_owner w failed now acc e).
Proof using CallFrame0. unfold fail_owner. off_calls. Qed.
#[local] Hint Resolve calls_fail_owner : frame.
Lemma calls_workers_failed w failed q now : preserves I (workers_failed w failed q now).
Proof using CallFrame0. unfold workers_failed. off_calls. Qed.

(** The calls that are made of these parts alone. *)
Definition placement_call (c : PlacementCalls.call A) : Prop :=
  match c with
  | PlacementCalls.Acquire _ _ _ _ | PlacementCalls.RequestFor _ _ _ | PlacementCalls.TryComplete _ _ _ _
  | PlacementCalls.CancelFuture _ _ | PlacementCalls.HandleCompleted _ | PlacementCalls.ReleaseOwner _ _
  | PlacementCalls.WorkersFailed _ _ _ | PlacementCalls.ChangePartition _ _ => True
  | _ => False
  end.

Lemma calls_frame w n c : placement_call c -> preserves I (PlacementCalls.do_call w n c).
Proof using CallFrame0.
  pose proof calls_request_for. pose proof calls_handle_completed. pose proof calls_workers_failed.
  destruct c; try done; intros _; cbn [PlacementCalls.do_call]; unfold PlacementCalls.forget; off_calls.
Qed.
End CallFrames.
#[export] Hint Resolve calls_try_complete calls_request_for calls_handle_completed calls_workers_failed : frame.
