(* ===== verification/PlacementMemory.v ===== *)
(** * Workers are chosen with room, and stay within their memory

    The choice of a worker is right, a partition that is placed is reserved on
    a live worker of an eligible node, and over every history of the driver no
    worker is charged with more memory than it has; and the search for a
    worker ends. *)

From S2P Require Import Prelude PyStr PyVal PyNum FteTypes FteState SplitAssigner Partition QueryGraph ResourceState SubmissionWindow WorkerPressure FragmentPlacement PlacementManager PlacementBooks GraphProofs ResourceSearch ResourceErrors.

#[local] Open Scope string_scope.
#[local] Open Scope list_scope.
#[local] Open Scope Z_scope.

Import Placement PlacementManager PlacementCalls.

(** ** The least of a list *)

(** Keys made of integers and strings. *)
Definition plain (k : keyval) : Prop := match k with KNum (NInt _) | KStr _ => True | _ => False end.

Lemma str_ltb_leb x y : String.ltb x y = negb (String.leb y x).
Proof. unfold String.ltb, String.leb. rewrite String.compare_antisym. by destruct (String.compare y x). Qed.

Lemma str_ltb_trans x y z : String.ltb x y = true -> String.ltb y z = true -> String.ltb x z = true.
Proof.
  rewrite !str_ltb_leb, !negb_true_iff. intros Hxy Hyz. destruct (String.leb z x) eqn:E; [|done].
  pose proof (str_leb_total _ _ Hxy) as H1. rewrite (Is_true_true_1 _ (str_leb_trans z x y (Is_true_true_2 _ E) H1)) in Hyz. done.
Qed.

Lemma key_lt_trans x y z : plain x -> plain y -> plain z -> key_ltb x y = true -> key_ltb y z = true -> key_ltb x z = true.
Proof.
  destruct x as [[]|], y as [[]|], z as [[]|]; try done; cbn [key_ltb]; intros _ _ _; [rewrite !num_lt_int; lia|apply str_ltb_trans].
Qed.

Lemma key_eqb_spec x y : plain x -> plain y -> key_eqb x y = true <-> x = y.
Proof.
  destruct x as [[]|], y as [[]|]; try done; cbn [key_eqb]; intros _ _; [rewrite num_eqb_int, Z.eqb_eq; naive_solver|].
  rewrite String.eqb_eq. naive_solver.
Qed.

Lemma keys_lt_trans a b c : Forall plain a -> Forall plain b -> Forall plain c ->
  keys_lt a b = true -> keys_lt b c = true -> keys_lt a c = true.
Proof.
  intros Ha. revert b c. induction Ha as [|x a Hx Ha IH]; intros b c Hb Hc; destruct Hb as [|y b Hy Hb], Hc as [|z c Hz Hc]; try done; cbn [keys_lt].
  destruct (key_eqb x y) eqn:Exy; [apply (key_eqb_spec _ _ Hx Hy) in Exy as ->|].
  - destruct (key_eqb y z); [by apply IH|done].
  - destruct (key_eqb y z) eqn:Eyz; [apply (key_eqb_spec _ _ Hy Hz) in Eyz as ->; by rewrite Exy|].
    intros H1 H2. pose proof (key_lt_trans _ _ _ Hx Hy Hz H1 H2) as H3. destruct (key_eqb x z) eqn:Exz; [|done].
    apply (key_eqb_spec _ _ Hx Hz) in Exz as ->. exfalso. destruct z as [[]|], y as [[]|]; try done; cbn [key_ltb] in *.
    + rewrite num_lt_int in H3. lia.
    + rewrite str_ltb_leb in H3. apply negb_true_iff in H3. pose proof (str_leb_total _ _ H3) as H4. by rewrite H3 in H4.
Qed.

Lemma keys_lt_irrefl a : Forall plain a -> keys_lt a a = false.
Proof. induction 1 as [|x a Hx Ha IH]; [done|]. cbn. by rewrite (proj2 (key_eqb_spec x x Hx Hx) eq_refl). Qed.

(** [min] is not after any element: by induction on what has been seen. *)
Lemma pick_least {X} (l seen : list (list keyval * X)) x0 :
  Forall (fun x => Forall plain x.1) (seen ++ l) -> Forall plain x0.1 -> Forall (fun x => keys_lt x.1 x0.1 = false) seen ->
  let best := fold_left (fun best y => if keys_lt y.1 best.1 then y else best) l x0 in
  Forall (fun x => keys_lt x.1 best.1 = false) (seen ++ l).
Proof.
  revert seen x0. induction l as [|y l IH]; intros seen x0 Hp H0 Hs; cbn [fold_left]; [by rewrite app_nil_r|].
  replace (seen ++ y :: l) with ((seen ++ [y]) ++ l) in * by (by rewrite <- app_assoc). pose proof Hp as [[_ [Hy _]%Forall_cons]%Forall_app _]%Forall_app.
  apply IH; [done|by destruct (keys_lt _ _)|]. apply Forall_app. split; [|apply Forall_singleton].
  - destruct (keys_lt y.1 x0.1) eqn:E; [|done]. apply Forall_forall. intros x Hx. destruct (keys_lt x.1 y.1) eqn:E'; [|done].
    apply Forall_app in Hp as [[Hp _]%Forall_app _]. eapply Forall_forall in Hp; [|exact Hx].
    eapply Forall_forall in Hs; [|exact Hx]. cbv beta in *. by rewrite (keys_lt_trans _ _ _ Hp Hy H0 E' E) in Hs.
  - destruct (keys_lt y.1 x0.1) eqn:E; [by apply keys_lt_irrefl|done].
Qed.

Lemma with_keys_elem {X} (key : X -> result (list keyval)) l l' :
  with_keys key l = Ok l' -> forall k x, (k, x) ∈ l' <-> x ∈ l /\ key x = Ok k.
Proof.
  revert l'. induction l as [|a l IH]; intros l' Hl k x; cbn in Hl.
  - injection Hl as <-. split; [by intros ?%elem_of_nil|by intros [?%elem_of_nil _]].
  - apply rbind_ok in Hl as (y & Hy & Hl). apply rbind_ok in Hy as (ka & Hka & [= <-]). apply rbind_ok in Hl as (ys & Hys & [= <-]).
    rewrite !elem_of_cons, (IH _ Hys). split; [intros [[= -> ->]|[? ?]]; auto|]. intros [[->|?] ?]; [left; congruence|auto].
Qed.

Lemma py_min_least {X} (key : X -> result (list keyval)) l a : py_min key l = Ok (Some a) ->
  (forall x k, key x = Ok k -> Forall plain k) ->
  forall x k k', x ∈ l -> key a = Ok k -> key x = Ok k' -> keys_lt k' k = false.
Proof.
  unfold py_min. intros (kl & Hkl & Hp)%rbind_ok Hplain x k k' Hx Ha Hk'. injection Hp as Hp. pose proof (with_keys_elem _ _ _ Hkl) as He.
  assert (Hall : Forall (fun x => Forall plain x.1) kl).
  { apply Forall_forall. intros [kx v] Hin. apply He in Hin as [_ Hin]. by apply (Hplain v). }
  assert (Hin : (k', x) ∈ kl) by (by apply He). destruct kl as [|x0 kl]; [done|]. cbn [pick] in Hp. injection Hp as Hp.
  pose proof (pick_least kl [x0] x0 Hall) as Hl. apply Forall_cons in Hall as Hall0. destruct Hall0 as [H0 _].
  specialize (Hl H0 ltac:(apply Forall_singleton; by apply keys_lt_irrefl)). cbv zeta in Hl.
  assert (Hbest : fold_left (fun best y => if keys_lt y.1 best.1 then y else best) kl x0 ∈ x0 :: kl).
  { clear. revert x0. induction kl as [|y kl IH]; intros x0; cbn [fold_left]; [left|]. destruct (keys_lt y.1 x0.1); [right; apply IH|].
    specialize (IH x0). rewrite elem_of_cons in IH. rewrite !elem_of_cons. naive_solver. }
  set (best := fold_left _ _ _) in *. destruct best as [kb b]. cbn in Hp. subst b. apply He in Hbest as [_ Hb].
  assert (kb = k) as -> by congruence. by eapply Forall_forall in Hl; [|exact Hin].
Qed.

Section Choice.
Context {A : Type} `{Authority A}.
Implicit Types d : Driver A.

(** [w] is a registered worker or the coordinator, it is healthy and not excluded. *)
Definition candidate (current : nat) (exclude : gset string) d (w : nat * Handle) : Prop :=
  d.(d_handles) !! w.1 = Some w.2 /\ w.2.(h_healthy) = true /\
  ((exists name, (name, w.1) ∈ d.(d_worker_handles) /\ name ∉ exclude) \/
   w.1 = current /\ (w.2.(h_worker_id) = "" \/ w.2.(h_worker_id) ∉ exclude)).

Lemma registered_elem d e : e ∈ registered_workers d <-> (e.1, e.2.1) ∈ d.(d_worker_handles) /\ d.(d_handles) !! e.2.1 = Some e.2.2.
Proof.
  unfold registered_workers. rewrite list_elem_of_omap. setoid_rewrite py_sorted_elem. split.
  - intros ([name i] & Hin & Hf). cbn in Hf. destruct (d_handles d !! i) as [h|] eqn:E; [|done]. injection Hf as <-. done.
  - intros [Hin Hh]. destruct e as [name [i h]]. exists (name, i). split; [done|]. cbn in *. by rewrite Hh.
Qed.

Lemma list_filter_elem {X} (f : X -> bool) x l : x ∈ List.filter f l <-> x ∈ l /\ f x = true.
Proof. rewrite !list_elem_of_In. apply filter_In. Qed.

Lemma available_elem current exclude d w : w ∈ available_workers current exclude d <-> candidate current exclude d w.
Proof.
  set (base := map snd (List.filter (fun e => negb (bool_decide (e.1 ∈ exclude)) && e.2.2.(h_healthy)) (registered_workers d))).
  assert (Hb : forall w, w ∈ base <-> d.(d_handles) !! w.1 = Some w.2 /\ w.2.(h_healthy) = true /\
    exists name, (name, w.1) ∈ d.(d_worker_handles) /\ name ∉ exclude).
  { intros v. unfold base. rewrite list_elem_of_fmap. split.
    - intros ([name u] & -> & Hu). apply list_filter_elem in Hu as [[Hr Hh]%registered_elem [Hn Ho]%andb_true_iff]. cbn in *.
      apply negb_true_iff, bool_decide_eq_false in Hn. eauto 10.
    - intros (Hh & Ho & name & Hr & Hn). exists (name, v). split; [done|]. apply list_filter_elem. rewrite registered_elem. cbn.
      split; [done|]. rewrite Ho, andb_true_r. by apply negb_true_iff, bool_decide_eq_false. }
  unfold available_workers, candidate. fold base. destruct (d_handles d !! current) as [h|] eqn:Eh.
  2: { rewrite Hb. split; [naive_solver|]. intros (Hh & Ho & [?|[E _]]); [done|]. rewrite E in Hh. congruence. }
  destruct (negb (bool_decide (current ∈ map fst base)) && _ && _) eqn:E.
  - apply andb_true_iff in E as [[E1 E2]%andb_true_iff E3]. rewrite elem_of_app, list_elem_of_singleton, Hb. split.
    + intros [?| ->]; [naive_solver|]. cbn. split; [done|]. split; [done|]. right. split; [done|].
      apply orb_true_iff in E2 as [E2%String.eqb_eq|E2%negb_true_iff%bool_decide_eq_false]; auto.
    + intros (Hh & Ho & [?|[E _]]); [naive_solver|]. right. destruct w as [i h']. cbn in *. subst i. congruence.
  - rewrite Hb. split; [naive_solver|]. intros (Hh & Ho & [?|[E' Hx]]); [done|]. destruct w as [i h']. cbn in *. subst i.
    assert (h' = h) as -> by congruence. rewrite Ho, andb_true_r in E. apply andb_false_iff in E as [E|E].
    + apply negb_false_iff, bool_decide_eq_true, list_elem_of_fmap in E as ([i h'] & Ei & Hin). cbn in Ei. subst i.
      by apply Hb in Hin as (_ & _ & H2).
    + exfalso. apply orb_false_iff in E as [E1%String.eqb_neq E2%negb_false_iff%bool_decide_eq_true]. by destruct Hx.
Qed.

(** Memory: a worker with room for one task more. *)
Lemma capacity_room memory h : has_memory_capacity memory h = Ok true <->
  0 < h.(h_memory_capacity_bytes) /\ Pressure.total_memory h.(h_pressure) + Pressure.memory_requirement_bytes memory <= h.(h_memory_capacity_bytes).
Proof.
  unfold has_memory_capacity, memory_budget, raise_if. destruct (_ <=? 0) eqn:E; cbn; [split; [done|lia]|].
  split; [intros [= ?%Z.leb_le]; lia|]. intros [_ ?%Z.leb_le]. by f_equal.
Qed.

Lemma with_capacity_elem memory l l' : with_capacity memory l = Ok l' ->
  forall w, w ∈ l' <-> w ∈ l /\ has_memory_capacity memory w.2 = Ok true.
Proof.
  unfold with_capacity. assert (Hg : forall acc l', rfoldM (fun acc w => let* ok := has_memory_capacity memory w.2 in Ok (if ok : bool then acc ++ [w] else acc)) acc l = Ok l' ->
    forall w : nat * Handle, w ∈ l' <-> w ∈ acc \/ w ∈ l /\ has_memory_capacity memory w.2 = Ok true).
  { clear l'. induction l as [|v l IH]; intros acc l' Hf w; cbn in Hf; [injection Hf as <-; set_solver|].
    apply rbind_ok in Hf as (acc1 & H1 & Hf). apply rbind_ok in H1 as (b & Hb & [= <-]). rewrite (IH _ _ Hf w), elem_of_cons.
    destruct b; [rewrite elem_of_app, list_elem_of_singleton|]; split; intuition (subst; auto; congruence). }
  intros Hf w. rewrite (Hg [] l' Hf w). set_solver.
Qed.

(** The workers among which a choice is made. *)
Definition pool (current : nat) (exclude : gset string) (allowed : option (list string)) (requirements : option NodeRequirements)
    (period now : Z) (wait_started : option Z) d : list (nat * Handle) :=
  let workers := available_workers current exclude d in
  filter_workers period now requirements wait_started
    (match allowed with Some nodes => List.filter (fun w => bool_decide (w.2.(h_node_id) ∈ nodes)) workers | None => workers end).

Lemma filter_workers_elem period now requirements wait l w : w ∈ filter_workers period now requirements wait l -> w ∈ l.
Proof.
  unfold filter_workers. destruct (required_host requirements); [|done].
  destruct (negb _); [by intros [? _]%list_filter_elem|]. destruct (bool_decide _); [done|].
  destruct (_ <? _); [by intros [? _]%list_filter_elem|done].
Qed.

Lemma pool_elem current exclude allowed requirements period now wait d w :
  w ∈ pool current exclude allowed requirements period now wait d ->
  candidate current exclude d w /\ forall nodes, allowed = Some nodes -> w.2.(h_node_id) ∈ nodes.
Proof.
  unfold pool. intros Hw%filter_workers_elem. destruct allowed as [nodes|].
  - apply list_filter_elem in Hw as [Hw%available_elem Hn%bool_decide_eq_true]. split; [done|]. by intros ? [= <-].
  - split; [by apply available_elem|done].
Qed.

(** The worker that is selected: in the pool, with room, and none of the pool
    that has room comes before it. *)
Lemma select_worker_ok current exclude allowed memory requirements period now wait d i :
  select_worker current exclude allowed memory requirements period now wait d = Ok (Some i) ->
  exists h, (i, h) ∈ pool current exclude allowed requirements period now wait d /\ has_memory_capacity memory h = Ok true /\
    d.(d_handles) !! i = Some h /\
    forall w k k', w ∈ pool current exclude allowed requirements period now wait d -> has_memory_capacity memory w.2 = Ok true ->
      selection_key memory requirements (i, h) = Ok k -> selection_key memory requirements w = Ok k' -> keys_lt k' k = false.
Proof.
  unfold select_worker, least_loaded.
  change (filter_workers period now requirements wait _) with (pool current exclude allowed requirements period now wait d).
  intros (l & Hl & Hs)%rbind_ok. apply rbind_ok in Hs as (best & Hb & Hs). destruct best as [[j h]|]; [|done]. injection Hs as <-.
  pose proof (with_capacity_elem _ _ _ Hl) as Hin. pose proof (proj1 (Hin _) (py_min_elem _ _ _ Hb)) as [H1 H2]. exists h.
  split; [done|]. split; [done|]. split; [by apply pool_elem in H1 as [[H1 _] _]|].
  intros w k k' Hw Hc Hk Hk'. eapply (py_min_least _ _ _ Hb); [|by apply Hin|done|done].
  intros v kv Hv. unfold selection_key in Hv. apply rbind_ok in Hv as (b & _ & [= <-]). repeat constructor.
Qed.

(** No worker is selected only when none of the pool has room. *)
Lemma select_worker_none current exclude allowed memory requirements period now wait d :
  select_worker current exclude allowed memory requirements period now wait d = Ok None ->
  forall w, w ∈ pool current exclude allowed requirements period now wait d -> has_memory_capacity memory w.2 <> Ok true.
Proof.
  unfold select_worker, least_loaded.
  change (filter_workers period now requirements wait _) with (pool current exclude allowed requirements period now wait d).
  intros (l & Hl & Hs)%rbind_ok w Hw Hc. apply rbind_ok in Hs as (best & Hb & Hs). destruct best; [done|].
  apply py_min_found in Hb as ->. apply (not_elem_of_nil w), (with_capacity_elem _ _ _ Hl). done.
Qed.
End Choice.

(** ** Memory *)

(** A worker within its capacity. *)
Definition roomy (h : Handle) : Prop := charged h.(h_memory_capacity_bytes) h.(h_pressure).

Definition all_roomy {A} (d : Driver A) : Prop := Forall roomy d.(d_handles).

#[export] Instance roomy_frame {A} : PlacementFrame (@all_roomy A).
Proof. by split. Qed.
#[export] Instance hands_frame {A} (hs : list Handle) : PlacementFrame (fun d : Driver A => d.(d_handles) = hs).
Proof. by split. Qed.

Section Memory.
Context {A : Type} `{Authority A} (wait_period no_matching_period : Z).
Implicit Types d : Driver A.

Lemma roomy_pressure {B} i (m : ST Pressure B) : light m -> preserves all_roomy (on_pressure i m : ST (Driver A) B).
Proof.
  intros Hm d Hd. unfold on_pressure. destruct (d_handles d !! i) as [h|] eqn:Eh; [|done].
  pose proof (Forall_lookup_1 _ _ _ _ Hd Eh) as Hh. specialize (Hm _ _ Hh). destruct (m (h_pressure h)) as [r p].
  apply Forall_alter; [done|]. intros h' Hh' _. assert (h' = h) as -> by congruence. exact Hm.
Qed.

(** A worker that a partition with this demand may run on. *)
Definition suits (eligible : list string) (dm : Demand) (i : nat) (hs : list Handle) : Prop :=
  exists h, hs !! i = Some h /\ h.(h_healthy) = true /\ h.(h_node_id) ∈ eligible /\ has_memory_capacity dm.(dm_memory) h = Ok true.

(** From a frame to a rule: what is true of the handles stays true. *)
Lemma hands_wp {B} (m : ST (Driver A) B) (P : list Handle -> Prop) d :
  (forall hs, preserves (fun d => d.(d_handles) = hs) m) -> P d.(d_handles) ->
  wp m (fun _ d' => P d'.(d_handles)) (fun _ d' => P d'.(d_handles)) d.
Proof. intros Hm Hp. specialize (Hm _ d eq_refl). unfold wp. destruct (m d) as [[b|e] d']; cbn in Hm; by rewrite Hm. Qed.

Lemma drop_owner_wp key d : all_roomy d ->
  wp (let! _ := pop_owner key in let! _ := release_lease_for_key key in sret (@None nat, @None (Z * TaskLease)))
    (fun r d' => all_roomy d' /\ r.1 = None) (fun _ => all_roomy) d.
Proof.
  intros Hd. apply (wp_mono (fun _ => all_roomy) _ (fun r d' => all_roomy d' /\ r.1 = None)); [|done|done].
  pose proof (frame_pop_owner all_roomy key d Hd) as H1. unfold pop_owner in *. apply wp_bind, wp_modify, wp_bind.
  eapply wp_mono; [apply preserves_wp; [apply (frame_release_lease all_roomy)|exact H1]| |done]. cbn beta. intros _ d2 H2. by apply wp_ret.
Qed.

Lemma keep_owner_wp key eligible dm d : all_roomy d ->
  wp (keep_owner key eligible dm)
    (fun r d' => all_roomy d' /\ match r with
       | (Some i, lease) => suits eligible dm i d'.(d_handles) /\ od_get key d'.(d_task_leases) = lease
       | _ => True
       end) (fun _ => all_roomy) d.
Proof.
  intros Hd. unfold keep_owner. apply wp_bind, wp_get. destruct (od_get key (d_partition_owners d)) as [i|]; [|by apply wp_ret].
  assert (Hdrop : forall d, all_roomy d -> wp (let! _ := pop_owner key in let! _ := release_lease_for_key key in sret (@None nat, @None (Z * TaskLease)))
    (fun r d' => all_roomy d' /\ match r with
       | (Some i, lease) => suits eligible dm i d'.(d_handles) /\ od_get key d'.(d_task_leases) = lease | _ => True end) (fun _ => all_roomy) d).
  { intros d1 H1. eapply wp_mono; [by apply drop_owner_wp| |done]. intros [[?|] ?] d2 [H2 ?]; done. }
  apply wp_bind, wp_lift; [|done]. intros h Hh. unfold get_handle in Hh. destruct (d_handles d !! i) as [h0|] eqn:Eh; [|done].
  injection Hh as ->. destruct (negb (h_healthy h) || _) eqn:Ego; [by apply Hdrop|].
  apply orb_false_iff in Ego as [Ehl%negb_false_iff Eel%negb_false_iff%bool_decide_eq_true].
  pose proof (roomy_pressure i _ (light_release key.1.1 key.1.2 key.2) d Hd) as H1. apply wp_bind.
  unfold on_pressure at 1 in H1. unfold wp at 1, on_pressure at 1. rewrite Eh in *.
  destruct (Pressure.release _ _ _ _) as [[u|e] p]; [|exact H1]. set (d1 := d <| d_handles ::= _ |>) in *. cbn [snd] in H1.
  apply wp_bind, wp_get, wp_bind, wp_lift; [|done]. intros h1 Hh1. unfold get_handle in Hh1.
  assert (E1 : d_handles d1 !! i = Some (h <| h_pressure := p |>)) by (by cbn; rewrite list_lookup_alter_eq, Eh). rewrite E1 in Hh1. injection Hh1 as <-.
  apply wp_bind, wp_lift; [|done]. intros fits Hf. destruct fits; cbn [negb]; [|by apply Hdrop].
  assert (Hsuits : suits eligible dm i d1.(d_handles)) by (eexists; eauto).
  destruct (od_get key (d_task_leases d)) as [[x l]|] eqn:El.
  - destruct (negb _); [by apply Hdrop|]. by apply wp_ret.
  - by apply wp_ret.
Qed.

Lemma find_owner_wp fuel current key x stage eligible dm now excluded d : all_roomy d ->
  wp (find_owner wait_period fuel current key x stage eligible dm now excluded)
    (fun r d' => all_roomy d' /\ match r with
       | inl (i, lease) => suits eligible dm i d'.(d_handles) /\ od_get key d'.(d_task_leases) = Some lease
       | inr _ => True
       end) (fun _ => all_roomy) d.
Proof.
  revert excluded d. induction fuel as [|fuel IH]; intros excluded d Hd; cbn [find_owner]; [by apply wp_raise|].
  pose proof (frame_release_lease all_roomy key) as Hrel.
  apply wp_bind, wp_catch. set (choice := let! d := sget in _).
  assert (Hc : wp choice (fun o d' => d' = d /\ match o with Some (i, h) => d.(d_handles) !! i = Some h /\ suits eligible dm i d.(d_handles) | None => True end)
    (fun _ d' => d' = d) d).
  { unfold choice. apply wp_bind, wp_get, wp_bind, wp_lift; [|done]. intros [i|] Hs; [|by apply wp_ret].
    apply select_worker_ok in Hs as (h & Hp & Hcap & Hh & _). apply pool_elem in Hp as [(_ & Hl & _) Hn].
    apply wp_bind, wp_lift; [|done]. intros h' Hh'. unfold get_handle in Hh'. rewrite Hh in Hh'. injection Hh' as <-. apply wp_ret. split; [done|].
    case_bool_decide; [done|]. split; [done|]. exists h. auto. }
  eapply wp_mono; [exact Hc| |].
  2: { cbn beta. intros e d' ->. apply wp_bind. eapply wp_mono; [apply preserves_wp; [apply Hrel|exact Hd]| |done]. cbn beta. intros _ d2 H2. by apply wp_raise. }
  clear Hc choice. cbn beta. intros [[i h]|] d' [-> Hi].
  - destruct Hi as [Hh Hsuits]. apply wp_bind.
    apply (wp_mono (fun _ d' => all_roomy d') _ (fun r d' => all_roomy d' /\ suits eligible dm i d'.(d_handles))); [| |done].
    { pose proof (hands_wp (acquire_lease key x h.(h_node_id)) (fun hs => Forall roomy hs /\ suits eligible dm i hs) d
        ltac:(intros; apply frame_acquire_lease; apply _) (conj Hd Hsuits)) as Hw.
      eapply wp_mono; [exact Hw|done|by intros ? ? [? _]]. }
    intros [l|reason] d1 [H1 Hs1].
    + apply wp_bind, wp_modify, wp_ret. split; [done|]. split; [done|]. cbn. by rewrite od_get_set_eq.
    + destruct (String.eqb _ _); [by apply IH|by apply wp_ret].
  - apply wp_bind. eapply wp_mono; [apply preserves_wp; [apply Hrel|exact Hd]| |done]. cbn beta. intros _ d2 H2. wp_run; done.
Qed.
(** The reservation [rv] is what the tables say: the worker lives on an
    eligible node and holds the memory, and owner and lease are recorded. *)
Definition placed (eligible : list string) (key : PartitionKey) (dm : Demand) (rv : Reservation) d : Prop :=
  exists h l rkey, d.(d_handles) !! rv.(rv_worker) = Some h /\ h.(h_healthy) = true /\ h.(h_node_id) ∈ eligible /\
    rv.(rv_key) = key /\ rv.(rv_worker_id) = h.(h_worker_id) /\
    Pressure.partition_reservation_key key.1.1 key.1.2 key.2 = Ok rkey /\ rkey ∈ h.(h_pressure).(pr_reserved_partitions) /\
    od_get_default rkey 0 h.(h_pressure).(pr_reservation_memory) = Pressure.memory_requirement_bytes dm.(dm_memory) /\
    Pressure.total_memory h.(h_pressure) <= h.(h_memory_capacity_bytes) /\
    od_get key d.(d_partition_owners) = Some rv.(rv_worker) /\
    (exists x, od_get key d.(d_task_leases) = Some (x, l)) /\ rv.(rv_task_lease_id) = l.(tl_lease_id) /\ rv.(rv_lease_attempt_id) = l.(tl_attempt_id).

Lemma settle_owner_wp eligible key x i l dm y d : all_roomy d -> suits eligible dm i d.(d_handles) -> od_get key d.(d_task_leases) = Some (y, l) ->
  wp (settle_owner key x i l dm)
    (fun r d' => all_roomy d' /\ match r with inl rv => placed eligible key dm rv d' | inr _ => True end) (fun _ => all_roomy) d.
Proof.
  intros Hd (h & Hh & Hl & Hn & Hc) Hlease. unfold settle_owner. apply wp_bind, wp_modify.
  set (d1 := d <| d_handles ::= _ |>). set (h1 := h <| h_release_hook := true |>).
  assert (E1 : d1.(d_handles) !! i = Some h1) by (unfold d1; by cbn; rewrite list_lookup_alter_eq, Hh).
  assert (R1 : all_roomy d1) by (apply Forall_alter; [done|by intros]).
  apply capacity_room in Hc as [_ Hc]. pose proof (Forall_lookup_1 _ _ _ _ Hd Hh) as Hch.
  assert (Hch1 : charged (Pressure.total_memory h.(h_pressure)) h1.(h_pressure)) by (split; [apply Hch|done]).
  apply wp_bind, wp_catch. unfold wp at 1, on_pressure at 1. rewrite E1.
  pose proof (reserve_wp key.1.1 key.1.2 key.2 dm.(dm_memory) (RObj dm.(dm_class)) _ _ Hch1) as Hr. unfold wp in Hr.
  destruct (Pressure.reserve _ _ _ _ _ _) as [[u|e] p1].
  - destruct Hr as (rkey & Hk & Hin & [Hsol Htot] & Hmem). apply wp_bind, wp_modify, wp_bind, wp_get.
    set (d2 := d1 <| d_handles ::= _ |> <| d_partition_owners ::= _ |>). set (h2 := h1 <| h_pressure := p1 |>).
    assert (E2 : d2.(d_handles) !! i = Some h2) by (unfold d2; cbn [d_handles set_field]; by rewrite list_lookup_alter_eq, E1).
    apply wp_bind. unfold get_handle. rewrite E2. apply wp_ret, wp_ret. split.
    + apply Forall_alter; [exact R1|]. intros h' Hh' _. assert (h' = h1) as -> by congruence. split; [exact Hsol|]. cbn. lia.
    + exists h2, l, rkey. cbn -[d2 Pressure.total_memory od_get_default]. split_and!; try done; [lia| |by exists y]. unfold d2. cbn. by rewrite od_get_set_eq.
  - subst p1. cbv beta iota. set (d2 := d1 <| d_handles ::= _ |>).
    assert (R2 : all_roomy d2).
    { apply Forall_alter; [exact R1|]. intros h' Hh' Hr'. assert (h' = h1) as -> by congruence. exact Hr'. }
    apply wp_bind, wp_get, wp_bind. apply (wp_mono (fun _ => all_roomy) _ (fun _ => all_roomy)); [| |done].
    { destruct (bool_decide _); [|by apply wp_ret]. apply preserves_wp; [apply (frame_pop_owner all_roomy)|done]. }
    intros _ d3 R3. apply wp_bind. eapply wp_mono; [apply preserves_wp; [apply (frame_release_lease all_roomy)|exact R3]| |done].
    cbn beta. intros _ d4 R4. by apply wp_raise.
Qed.

Lemma acquire_wp current key dm now d : all_roomy d ->
  wp (acquire wait_period current key dm now)
    (fun r d' => all_roomy d' /\ match r with
       | inl rv => forall q stage a eligible, resource_identity key.1 d = Ok (q, stage) -> lookup_manager q d = Ok a ->
           au_eligible_nodes stage a = Ok eligible -> placed eligible key dm rv d'
       | inr _ => True
       end) (fun _ => all_roomy) d.
Proof.
  intros Hd. unfold acquire. apply wp_bind, wp_get, wp_bind, wp_lift; [|done]. intros x _.
  apply wp_bind, wp_lift; [|done]. intros [q stage] Hid. apply wp_bind, wp_lift; [|done]. intros a Ha.
  apply wp_bind, wp_lift; [|done]. intros eligible He. apply wp_bind, wp_raise_if; [intros _|done]. apply wp_bind, wp_raise_if; [intros _|done].
  assert (Hend : forall i l y d1, all_roomy d1 -> suits eligible dm i d1.(d_handles) -> od_get key d1.(d_task_leases) = Some (y, l) ->
    wp (settle_owner key x i l dm) (fun r d' => all_roomy d' /\ match r with
       | inl rv => forall q stage a eligible, resource_identity key.1 d = Ok (q, stage) -> lookup_manager q d = Ok a ->
           au_eligible_nodes stage a = Ok eligible -> placed eligible key dm rv d'
       | inr _ => True end) (fun _ => all_roomy) d1).
  { intros i l y d1 R1 Hs Hl. eapply wp_mono; [by eapply (settle_owner_wp eligible)| |done]. cbn beta. intros [rv|] d2 [R2 Hp]; [|done].
    split; [done|]. intros ? ? ? ? H1 H2 H3. rewrite Hid in H1. injection H1 as <- <-. rewrite Ha in H2. injection H2 as <-.
    rewrite He in H3. by injection H3 as <-. }
  apply wp_bind. eapply wp_mono; [by apply keep_owner_wp| |done]. cbn beta. intros [[i|] lease] d1 [R1 Hk].
  - destruct Hk as [Hs Hl]. destruct lease as [[y l]|]; [by eapply Hend|]. apply wp_bind, wp_get, wp_bind, wp_lift; [|done].
    intros h _. apply wp_bind. pose proof (hands_wp (acquire_lease key x h.(h_node_id)) (fun hs => Forall roomy hs /\ suits eligible dm i hs) d1
        ltac:(intros; apply frame_acquire_lease; apply _) (conj R1 Hs)) as Hw.
    eapply wp_mono; [exact Hw| |by intros ? ? [? _]]. cbn beta. intros [l|reason] d2 [R2 Hs2]; [|by apply wp_ret].
    apply wp_bind, wp_modify. eapply Hend; [done|done|]. cbn. apply od_get_set_eq.
  - apply wp_bind, wp_get, wp_bind. eapply wp_mono; [by apply find_owner_wp| |done]. cbn beta.
    intros [[i [y l]]|reason] d2 [R2 Hf]; [|by apply wp_ret]. destruct Hf. by eapply Hend.
Qed.

(** ** Histories *)

Lemma roomy_acquire w current key dm now : w = wait_period -> preserves all_roomy (acquire w current key dm now).
Proof.
  intros ->. apply preserves_wp. intros d Hd. eapply wp_mono; [by apply acquire_wp| |done]. by intros ? ? [? _].
Qed.
End Memory.

#[export] Instance roomy_futures {A} : FutureFrame (@all_roomy A).
Proof. by split. Qed.

#[export] Instance roomy_calls {A} `{Authority A} : CallFrame all_roomy.
Proof.
  split; try (by intros); try (intros; first [apply futures_set_outcome | apply futures_cancel_future | apply futures_request_async]);
    auto with frame.
  - intros. by eapply roomy_acquire.
  - intros key t. unfold release_owner. off. apply roomy_pressure, light_release.
  - intros failed. unfold quarantine. apply preserves_for. intros id. apply preserves_modify. intros d Hd.
    destruct (od_get id (d_worker_handles d)); [|done]. apply Forall_alter; [exact Hd|by intros].
Qed.

Section Histories.
Context {A : Type} `{Authority A} (wait_period no_matching_period : Z).
Implicit Types d : Driver A.

(** An attempt is started on the worker with what was reserved there for its partition. *)
Definition within_reservation (c : call A) d : Prop :=
  match c with
  | TaskStarted i key _ request => forall h, d.(d_handles) !! i = Some h ->
      exists rkey, Pressure.partition_reservation_key key.1.1 key.1.2 key.2 = Ok rkey /\
        Pressure.memory_requirement_bytes (pd_get "memory_requirement_bytes" request)
        <= od_get_default rkey 0 h.(h_pressure).(pr_reservation_memory)
  | _ => True
  end.

Lemma roomy_attempt a : preserves (@all_roomy A) (release_owner_for_attempt a).
Proof. unfold release_owner_for_attempt. off. Qed.

Lemma roomy_new_handle capacity node worker : preserves (@all_roomy A) (new_handle capacity node worker).
Proof.
  apply preserves_wp. intros d Hd. unfold new_handle. wp_run; try done. apply Forall_app. split; [exact Hd|]. apply Forall_singleton.
  split; [by repeat split; constructor|]. change (0 <= capacity). lia.
Qed.

Lemma roomy_lifecycle q : preserves (@all_roomy A) (close_registry q) /\ preserves (@all_roomy A) (begin_operation q) /\
  preserves (@all_roomy A) (end_operation q) /\ preserves (@all_roomy A) (begin_teardown q) /\ preserves (@all_roomy A) (end_teardown q).
Proof.
  unfold close_registry, begin_operation, end_operation, begin_teardown, end_teardown.
  split_and!; apply preserves_wp; intros d Hd; wp_run; done.
Qed.

Lemma roomy_query q : preserves (@all_roomy A) (release_query q).
Proof. unfold release_query. off. apply roomy_pressure, light_release. Qed.

Lemma roomy_started i key attempt request d : within_reservation (TaskStarted i key attempt request) d -> all_roomy d ->
  all_roomy (do_call wait_period no_matching_period (TaskStarted i key attempt request) d).2.
Proof.
  intros Hc Hd. cbn [do_call within_reservation] in *. unfold on_pressure. destruct (d_handles d !! i) as [h|] eqn:Eh; [|done].
  destruct (Hc h eq_refl) as (rkey & Hk & Hle). pose proof (Forall_lookup_1 _ _ _ _ Hd Eh) as Hh.
  pose proof (started_charged _ _ _ attempt request _ _ _ Hh Hk Hle) as Hs.
  destruct (Pressure.started_from_reservation _ _ _ _ _ _) as [r p]. apply Forall_alter; [exact Hd|].
  intros h' Hh' _. assert (h' = h) as -> by congruence. exact Hs.
Qed.

Lemma roomy_call c d : within_reservation c d -> all_roomy d -> all_roomy (do_call wait_period no_matching_period c d).2.
Proof.
  intros Hc Hd. pose proof (fun B i (m : ST Pressure B) => @roomy_pressure A B i m) as Hp.
  destruct c as [| | | | | |k f|k|q a|q|q| | | | | | | | | | | |i key attempt request| | | | |].
  all: try (by apply (calls_frame all_roomy)); try exact Hd; try (by apply (roomy_started i key attempt request)).
  all: try (refine ((_ : preserves all_roomy (do_call wait_period no_matching_period _)) d Hd); cbn [do_call]; unfold forget;
    first [apply roomy_lifecycle | apply preserves_bind; [|intros; apply preserves_ret] | idtac]).
  all: try first [apply roomy_lifecycle | apply roomy_new_handle | apply roomy_query | apply roomy_pressure].
  all: auto using light_set_attempt_class, light_splits_added, light_split_bytes_added, light_drop_query.
  - unfold release_reservation. off. apply roomy_pressure, light_release.
  - unfold update_execution_class. off. apply roomy_pressure, light_set_reservation_class.
  - unfold task_terminal. off; [apply roomy_attempt|apply roomy_pressure, light_completed].
Qed.
End Histories.

(** ** The search for an owner ends

    [acquire] tries worker after worker until one gets a lease.  Every round
    excludes a worker that was not excluded before, so the number of workers
    bounds the rounds: the fuel of [find_owner] is never used up, and more of
    it changes nothing. *)

Lemma sbind_same {S B C} (m : ST S B) (k1 k2 : B -> ST S C) s :
  (forall b s', m s = (Ok b, s') -> k1 b s' = k2 b s') -> sbind m k1 s = sbind m k2 s.
Proof. intros Hk. unfold sbind. destruct (m s) as [[b|e] s'] eqn:E; [by apply Hk|done]. Qed.

Section Search.
Context {A : Type} `{Authority A} (wait_period : Z).
Implicit Types d : Driver A.

(** The names of the workers that can be chosen. *)
Definition names (current : nat) d : gset string :=
  list_to_set (omap (fun i => h_worker_id <$> d.(d_handles) !! i) (current :: map snd d.(d_worker_handles))).

Lemma size_of_list (l : list string) : (size (list_to_set l : gset string) <= length l)%nat.
Proof.
  induction l as [|x l IH]; cbn; [by rewrite size_empty|]. rewrite size_union_alt, size_singleton.
  assert (size (list_to_set l ∖ {[x]} : gset string) <= size (list_to_set l : gset string))%nat by (apply subseteq_size; set_solver). lia.
Qed.

Lemma omap_length {X Y} (f : X -> option Y) l : (length (omap f l) <= length l)%nat.
Proof. induction l as [|x l IH]; cbn; [done|]. destruct (f x); cbn; lia. Qed.

Lemma names_size current d : (size (names current d) <= S (length d.(d_worker_handles)))%nat.
Proof.
  unfold names. etrans; [apply size_of_list|]. etrans; [apply omap_length|]. cbn. by rewrite length_map.
Qed.

Lemma candidate_name current exclude d w : candidate current exclude d w -> w.2.(h_worker_id) ∈ names current d.
Proof.
  intros (Hh & _ & Hw). unfold names. apply elem_of_list_to_set, list_elem_of_omap. exists w.1. rewrite Hh. split; [|done].
  destruct Hw as [(name & Hin & _)|[-> _]]; [right|left]. apply list_elem_of_fmap. by exists (name, w.1).
Qed.

(** The workers and their names stay as they are while a lease is asked for. *)
Lemma lease_keeps_workers key x n d r d' : acquire_lease key x n d = (r, d') ->
  d'.(d_handles) = d.(d_handles) /\ d'.(d_worker_handles) = d.(d_worker_handles).
Proof.
  intros E. pose proof (frame_acquire_lease (fun d' => d'.(d_handles) = d.(d_handles) /\ d'.(d_worker_handles) = d.(d_worker_handles))
    (PlacementFrame0 := ltac:(by split)) key x n d (conj eq_refl eq_refl)) as Hf. by rewrite E in Hf.
Qed.

Lemma fuel_enough current key x stage eligible dm now f1 f2 excluded d :
  (size (names current d ∖ excluded) < f1)%nat -> (size (names current d ∖ excluded) < f2)%nat ->
  find_owner wait_period f1 current key x stage eligible dm now excluded d = find_owner wait_period f2 current key x stage eligible dm now excluded d.
Proof.
  revert f2 excluded d. induction f1 as [|f1 IH]; intros [|f2] excluded d H1 H2; try lia. cbn [find_owner].
  apply sbind_same. intros chosen d1 Hc. destruct chosen as [[i h]|]; [|done].
  assert (Hin : d1 = d /\ h.(h_worker_id) ∈ names current d /\ h.(h_worker_id) ∉ excluded).
  { unfold scatch, sbind, sget, slift in Hc.
    destruct (select_worker current excluded (Some eligible) (dm_memory dm) (dm_requirements dm) wait_period now (dm_wait_started_at dm) d)
      as [[j|]|e] eqn:Es; [|done|].
    - destruct (get_handle j d) as [h'|] eqn:Eh; [|by destruct (release_lease_for_key key d) as [[?|?] ?]]. unfold sret in Hc.
      case_bool_decide as Hx; [done|]. injection Hc as -> -> ->. split; [done|]. split; [|done].
      apply select_worker_ok in Es as (h0 & Hp & _ & Hh & _). unfold get_handle in Eh. rewrite Hh in Eh. injection Eh as ->.
      apply pool_elem in Hp as [Hp _]. by apply candidate_name in Hp.
    - by destruct (release_lease_for_key key d) as [[?|?] ?]. }
  destruct Hin as (-> & Hin & Hnot). apply sbind_same. intros [l|reason] d2 Hr; [done|]. destruct (String.eqb _ _); [|done].
  apply lease_keeps_workers in Hr as [Eh Ew]. assert (En : names current d2 = names current d) by (unfold names; by rewrite Eh, Ew).
  assert (Hlt : (size (names current d ∖ ({[h_worker_id h]} ∪ excluded)) < size (names current d ∖ excluded))%nat) by (apply subset_size; set_solver).
  apply IH; rewrite En; lia.
Qed.
End Search.
