(* ===== verification/PlacementFutures.v ===== *)
(** * A reservation is reported once

    The futures of reservations over every history of the driver: the outcome
    of a future is final, and the scheduler is told of it at most once. *)

From S2P Require Import Prelude PyStr PyVal PyNum FteTypes FteState SplitAssigner Partition QueryGraph ResourceState SubmissionWindow WorkerPressure FragmentPlacement PlacementManager PlacementBooks.

#[local] Open Scope string_scope.
#[local] Open Scope list_scope.
#[local] Open Scope Z_scope.

Import Placement PlacementManager PlacementCalls.
#[local] Arguments od_get_default : simpl never.
#[local] Arguments od_set : simpl never.

(** The name of a future in events: its partition and generation. *)
Definition future_name (f : Future) : PartitionKey * Z := (f.(f_key), f.(f_generation)).
Definition completion_name (c : Completion) : PartitionKey * Z := (c.(cp_key), c.(cp_generation)).

(** What a completion says of its future. *)
Definition tells (c : Completion) (f : Future) : Prop :=
  completion_name c = future_name f /\ c.(cp_execution_id) = f.(f_execution_id) /\ f.(f_done) = true /\ f.(f_cancelled) = false /\
  match future_result f with
  | Ok r => c.(cp_worker_id) = Some r.(rv_worker_id) /\ c.(cp_error) = None
  | Raise e => c.(cp_worker_id) = None /\ c.(cp_error) = Some e
  end.

(** The outcome of a future that is done. *)
Definition decided (f : Future) (o : bool * option Reservation * option exn) : Prop :=
  f.(f_done) = true /\ (f.(f_cancelled), f.(f_result), f.(f_exception)) = o.

Section Futures.
Context {A : Type} `{Authority A}.
Implicit Types d : Driver A.

Record reported d : Prop := {
  rp_generation : forall i f, d.(d_futures) !! i = Some f -> f.(f_generation) <= od_get_default f.(f_key) 0 d.(d_generations);
  rp_distinct : forall i j f g, d.(d_futures) !! i = Some f -> d.(d_futures) !! j = Some g -> future_name f = future_name g -> i = j;
  rp_callbacks : forall i f, d.(d_futures) !! i = Some f -> (length f.(f_callbacks) <= if f.(f_done) then 0 else 1)%nat;
  rp_completions : forall c, c ∈ d.(d_completions) -> exists i f, d.(d_futures) !! i = Some f /\ tells c f;
  rp_once : NoDup (map completion_name d.(d_completions));
}.

Definition final (i : nat) (o : bool * option Reservation * option exn) d : Prop :=
  exists f, d.(d_futures) !! i = Some f /\ decided f o.

(** Futures that are renamed nowhere and keep what completions tell. *)
Lemma reported_alter d i g : reported d ->
  (forall f, d.(d_futures) !! i = Some f -> future_name (g f) = future_name f /\ (length (g f).(f_callbacks) <= if (g f).(f_done) then 0 else 1)%nat /\
    forall c, tells c f -> tells c (g f)) ->
  reported (d <| d_futures ::= alter g i |>).
Proof.
  intros [H1 H2 H3 H4 H5] Hg.
  assert (Hl : forall j f', alter g i (d_futures d) !! j = Some f' -> exists f, d.(d_futures) !! j = Some f /\
    future_name f' = future_name f /\ (length f'.(f_callbacks) <= if f'.(f_done) then 0 else 1)%nat).
  { intros j f' Hj. rewrite list_lookup_alter in Hj. destruct (decide (i = j)) as [->|Hne].
    - destruct (d_futures d !! j) as [f|] eqn:Ef; [|done]. injection Hj as <-. exists f. split; [done|]. destruct (Hg f eq_refl) as (? & ? & _). done.
    - exists f'. split; [done|]. split; [done|]. by apply (H3 j). }
  constructor; cbn.
  - intros j f' Hj. destruct (Hl j f' Hj) as (f & Hf & [= -> ->] & _). by apply (H1 j).
  - intros j k f' g' Hj Hk Hn. destruct (Hl j f' Hj) as (f & Hf & Hnf & _), (Hl k g' Hk) as (f2 & Hf2 & Hnf2 & _).
    eapply H2; [exact Hf|exact Hf2|congruence].
  - intros j f' Hj. destruct (Hl j f' Hj) as (_ & _ & _ & ?). done.
  - intros c Hc. destruct (H4 c Hc) as (j & f & Hf & Ht). exists j. rewrite list_lookup_alter. destruct (decide (i = j)) as [->|].
    + rewrite Hf. exists (g f). split; [done|]. by apply (Hg f Hf).
    + exists f. done.
  - done.
Qed.

#[export] Instance reported_frame : PlacementFrame reported.
Proof.
  split; [by intros ? ? ? [] | by intros ? ? []..|]. intros d i r Hd. apply reported_alter; [done|]. intros f Hf.
  split; [done|]. split; [by apply (rp_callbacks _ Hd i f)|]. by intros c.
Qed.
#[export] Instance reported_workers : WorkerFrame reported.
Proof. split. by intros ? ? []. Qed.
#[export] Instance final_frame i o : PlacementFrame (final i o).
Proof.
  split; try done. intros d j r (f & Hf & Ho). unfold final. cbn. rewrite list_lookup_alter. destruct (decide (j = i)) as [->|]; [|by exists f].
  rewrite Hf. eexists. split; [done|]. exact Ho.
Qed.
#[export] Instance final_workers i o : WorkerFrame (final i o).
Proof. by split. Qed.

(** A future that is done and of which the scheduler has not been told. *)
Definition untold (i : nat) d : Prop :=
  exists f, d.(d_futures) !! i = Some f /\ f.(f_done) = true /\ forall c, c ∈ d.(d_completions) -> completion_name c <> future_name f.

Definition may_tell (i : nat) (l : list callback) d : Prop := reported d /\ (l = [] \/ (length l = 1)%nat /\ untold i d).

Lemma complete_future_wp i o d : reported d -> wp (complete i o) (fun l => may_tell i l) (fun _ _ => False) d.
Proof.
  intros Hd. unfold complete. apply wp_bind, wp_get. destruct (d_futures d !! i) as [f|] eqn:Ef; [|apply wp_ret; by split; [|left]].
  destruct (f_done f) eqn:Edone; [apply wp_ret; by split; [|left]|]. apply wp_bind, wp_modify, wp_ret. split.
  - apply reported_alter; [done|]. intros f' Hf'. assert (f' = f) as -> by congruence. split; [done|]. split; [done|].
    intros c (_ & _ & Hdone & _). congruence.
  - pose proof (rp_callbacks _ Hd i f Ef) as Hlen. rewrite Edone in Hlen. destruct (f_callbacks f) as [|cb [|]]; [by left|right|cbn in Hlen; lia].
    split; [done|]. eexists. cbn [d_futures set_field]. rewrite list_lookup_alter_eq, Ef. split; [reflexivity|]. split; [done|]. intros c Hc Hn.
    destruct (rp_completions _ Hd c Hc) as (j & f' & Hf' & Ht). destruct Ht as (Hn' & _ & Hdone' & _).
    assert (j = i) as ->. { eapply (rp_distinct _ Hd); [exact Hf'|exact Ef|]. rewrite <- Hn', Hn. done. }
    congruence.
Qed.

Lemma reported_pending d f : reported d -> reported (d <| d_pending ::= f |>).
Proof. by intros []. Qed.

Lemma cancel_pending_wp i b d : reported d -> wp (cancel_pending i b) (fun l => may_tell i l) (fun _ => reported) d.
Proof.
  intros Hd. unfold cancel_pending. apply wp_bind, wp_get. destruct (d_futures d !! i) as [f|]; [|apply wp_ret; by split; [|left]].
  apply wp_bind. apply (wp_mono (fun _ => reported) _ (fun _ => reported)); [destruct (is_current i f d); [by apply wp_modify, reported_pending|by apply wp_ret]| |done].
  intros _ d1 H1. apply wp_bind. eapply wp_mono; [apply preserves_wp; [apply (frame_release_waiter reported)|exact H1]| |done].
  cbn beta. intros _ d2 H2. apply wp_bind. eapply wp_mono; [apply preserves_wp; [apply (frame_window reported)|exact H2]| |done].
  cbn beta. intros _ d3 H3. eapply wp_mono; [by apply complete_future_wp|done|done].
Qed.

Lemma enqueue_wp i d : reported d -> untold i d -> wp (enqueue_completion i) (fun _ => reported) (fun _ => reported) d.
Proof.
  intros Hd (f & Hf & Hdone & Hnew). unfold enqueue_completion. apply wp_bind, wp_get. rewrite Hf. destruct (f_cancelled f) eqn:Ec; [by apply wp_ret|].
  destruct (_ || _).
  - apply wp_bind. eapply wp_mono; [by apply cancel_pending_wp| |done]. cbn beta. intros l d1 [H1 _]. by apply wp_ret.
  - set (told := match future_result f with Ok _ => _ | Raise _ => _ end). destruct told as [worker error] eqn:Et. apply wp_modify.
    assert (Ht : tells (MkCompletion (f_key f) (f_execution_id f) (f_generation f) worker error) f).
    { split; [done|]. split; [done|]. split; [done|]. split; [done|]. unfold told in Et. cbn.
      destruct (future_result f); by injection Et as <- <-. }
    destruct Hd as [H1 H2 H3 H4 H5]. constructor; cbn; try done.
    + intros c [Hc| ->%list_elem_of_singleton]%elem_of_app; [by apply H4|by exists i, f].
    + rewrite map_app. apply NoDup_app. split; [done|]. split; [|apply NoDup_singleton].
      intros n Hn ->%list_elem_of_singleton. apply list_elem_of_fmap in Hn as (c & Hc & Hin). by apply (Hnew c Hin).
Qed.

Lemma run_callbacks_reported i l d : may_tell i l d -> reported (run_callbacks i l d).2.
Proof.
  intros [Hd Hl]. unfold run_callbacks. destruct Hl as [->|[Hl Hu]]; [done|]. destruct l as [|cb [|]]; try done.
  assert (Hw : wp (sfor [cb] (fun _ => scatch (enqueue_completion i) (fun _ => true) (fun _ => sret tt))) (fun _ => reported) (fun _ => reported) d).
  { cbn [sfor]. apply wp_bind, wp_catch. eapply wp_mono; [by apply enqueue_wp|..]; cbn beta; [|done]. intros _ d1 H1. by apply wp_ret. }
  unfold wp in Hw. by destruct (sfor _ _ _) as [[?|?] ?].
Qed.

Lemma reported_set_outcome i o : preserves reported (set_outcome i o).
Proof.
  intros d Hd. unfold set_outcome, sbind. pose proof (complete_future_wp i o d Hd) as Hw. unfold wp in Hw.
  destruct (complete i o d) as [[l|e] d1]; [|done]. apply run_callbacks_reported in Hw. by destruct (run_callbacks i l d1) as [[?|?] ?].
Qed.

Lemma reported_cancel_future i b : preserves reported (cancel_future i b).
Proof.
  intros d Hd. unfold cancel_future, sbind. pose proof (cancel_pending_wp i b d Hd) as Hw. unfold wp in Hw.
  destruct (cancel_pending i b d) as [[l|e] d1]; [|done]. by apply run_callbacks_reported.
Qed.

(** A new future has a new name. *)
Lemma reported_new d key x wait : reported d ->
  let generation := od_get_default key 0 d.(d_generations) + 1 in
  reported (d <| d_generations ::= od_set key generation |>
    <| d_futures ::= fun l => l ++ [MkFuture key x generation wait "" false false None None []] |>
    <| d_pending ::= od_set key (length d.(d_futures)) |>).
Proof.
  intros [H1 H2 H3 H4 H5] generation.
  assert (Hgen : forall k, od_get_default k 0 (d_generations d) <= od_get_default k 0 (od_set key generation (d_generations d))).
  { intros k. unfold od_get_default at 2. rewrite od_get_set. destruct (decide (key = k)) as [<-|]; [simpl; lia|done]. }
  assert (Hold : forall i f, d.(d_futures) !! i = Some f -> future_name f <> (key, generation)).
  { intros i f Hf [= Hk Hg]. specialize (H1 i f Hf). rewrite Hk in H1. lia. }
  constructor; cbn.
  - intros i f Hf. apply lookup_app_Some in Hf as [Hf|[_ Hf]]; [specialize (H1 i f Hf); specialize (Hgen (f_key f)); lia|].
    apply list_lookup_singleton_Some in Hf as [_ <-]. cbn. unfold od_get_default. by rewrite od_get_set_eq.
  - intros i j f g Hf Hg Hn. apply lookup_app_Some in Hf as [Hf|[Hi Hf]], Hg as [Hg|[Hj Hg]].
    + by eapply H2.
    + apply list_lookup_singleton_Some in Hg as [_ <-]. by destruct (Hold i f Hf).
    + apply list_lookup_singleton_Some in Hf as [_ <-]. by destruct (Hold j g Hg).
    + apply list_lookup_singleton_Some in Hf as [Hi' _], Hg as [Hj' _]. lia.
  - intros i f Hf. apply lookup_app_Some in Hf as [Hf|[_ Hf]]; [by apply (H3 i)|]. apply list_lookup_singleton_Some in Hf as [_ <-]. cbn. lia.
  - intros c Hc. destruct (H4 c Hc) as (i & f & Hf & Ht). exists i, f. split; [by apply lookup_app_l_Some|done].
  - done.
Qed.

Lemma reported_request_async current key x dm : preserves reported (request_async current key x dm).
Proof.
  apply preserves_wp. intros d Hd. unfold request_async. apply wp_bind, wp_get, wp_bind, wp_raise_if; [intros _|done].
  destruct (od_get key (d_pending d)); [by apply wp_ret|]. apply wp_bind, wp_modify. pose proof (reported_new d key x dm.(dm_wait_started_at) Hd) as Hn.
  cbv zeta in Hn. set (d1 := set_field d_pending _ _) in *. apply wp_bind. unfold add_done_callback. apply wp_bind, wp_get.
  assert (Hf : d_futures d1 !! length (d_futures d) =
    Some (MkFuture key x (od_get_default key 0 d.(d_generations) + 1) dm.(dm_wait_started_at) "" false false None None [])).
  { cbn. by rewrite lookup_app_r, Nat.sub_diag by lia. }
  rewrite Hf. cbn [f_done]. apply wp_modify, wp_ret. apply reported_alter; [done|]. intros f Hf'. rewrite Hf in Hf'. injection Hf' as <-.
  split; [done|]. split; [cbn; lia|]. by intros c (_ & _ & ? & _).
Qed.

#[export] Instance reported_calls : CallFrame reported.
Proof.
  split; auto using reported_set_outcome, reported_cancel_future, reported_request_async, reported_pending with frame.
  intros failed. unfold quarantine. apply preserves_for. intros id. apply preserves_modify. intros d []. by destruct (od_get _ _).
Qed.

(** ** Outcomes are final *)

Lemma final_alter i o d j g : final i o d -> (forall f, d.(d_futures) !! j = Some f -> decided f o -> decided (g f) o) ->
  final i o (d <| d_futures ::= alter g j |>).
Proof.
  intros (f & Hf & Ho) Hg. unfold final. cbn. rewrite list_lookup_alter. destruct (decide (j = i)) as [->|]; [|by exists f].
  rewrite Hf. eexists. split; [done|]. by apply Hg.
Qed.

Lemma final_complete i o j o' : preserves (final i o) (complete j o').
Proof.
  apply preserves_wp. intros d Hd. unfold complete. apply wp_bind, wp_get. destruct (d_futures d !! j) as [f|] eqn:Ef; [|by apply wp_ret].
  destruct (f_done f) eqn:Edone; [by apply wp_ret|]. apply wp_bind, wp_modify, wp_ret. apply final_alter; [done|].
  intros f' Hf' [Hdone _]. congruence.
Qed.
#[local] Hint Resolve final_complete : frame.

Lemma final_pending i o d f : final i o d -> final i o (d <| d_pending ::= f |>).
Proof. done. Qed.

Ltac off_final := repeat first [progress off | lazymatch goal with
  | |- preserves _ (match ?x with _ => _ end) => destruct x
  | |- preserves _ (smodify _) => apply preserves_modify; intros ? ?; assumption end].

Lemma final_cancel_pending i o j b : preserves (final i o) (cancel_pending j b).
Proof. unfold cancel_pending. off_final. Qed.
#[local] Hint Resolve final_cancel_pending : frame.
Lemma final_enqueue i o j : preserves (final i o) (enqueue_completion j).
Proof. unfold enqueue_completion. off_final. Qed.
#[local] Hint Resolve final_enqueue : frame.
Lemma final_callbacks i o j l : preserves (final i o) (run_callbacks j l).
Proof. unfold run_callbacks. off_final. Qed.
#[local] Hint Resolve final_callbacks : frame.
Lemma final_set_outcome i o j o' : preserves (final i o) (set_outcome j o').
Proof. unfold set_outcome. off_final. Qed.
Lemma final_cancel_future i o j b : preserves (final i o) (cancel_future j b).
Proof. unfold cancel_future. off_final. Qed.

Lemma final_request_async i o current key x dm : preserves (final i o) (request_async current key x dm).
Proof.
  apply preserves_wp. intros d Hd. unfold request_async. apply wp_bind, wp_get, wp_bind, wp_raise_if; [intros _|done].
  destruct (od_get key (d_pending d)); [by apply wp_ret|]. apply wp_bind, wp_modify. set (d1 := set_field d_pending _ _).
  assert (H1 : final i o d1) by (destruct Hd as (f & Hf & Ho); exists f; split; [by apply lookup_app_l_Some|done]). clearbody d1.
  apply wp_bind. unfold add_done_callback. apply wp_bind, wp_get. destruct (d_futures d1 !! _) as [f|]; [|by apply wp_ret, wp_ret].
  destruct (f_done f).
  - eapply wp_mono; [apply preserves_wp; [apply final_callbacks|exact H1]| |done]. cbn beta. intros _ d2 H2. by apply wp_ret.
  - apply wp_modify, wp_ret, final_alter; done.
Qed.

#[export] Instance final_calls i o : CallFrame (final i o).
Proof.
  split; auto using final_set_outcome, final_cancel_future, final_request_async with frame.
  intros failed. unfold quarantine. apply preserves_for. intros id. apply preserves_modify. intros d Hd. by destruct (od_get _ _).
Qed.
End Futures.

(** ** Every call *)

(** A property that does not depend on the lifecycle tables either. *)
Class LifeFrame {A} (I : Driver A -> Prop) : Prop := {
  lf_closing : forall d f, I d -> I (d <| d_closing_queries ::= f |>);
  lf_operations : forall d f, I d -> I (d <| d_active_operations ::= f |>);
  lf_teardowns : forall d f, I d -> I (d <| d_active_teardowns ::= f |>);
  lf_schedulers : forall d f, I d -> I (d <| d_schedulers ::= f |>);
  lf_workers : forall d f, I d -> I (d <| d_worker_handles ::= f |>);
}.

#[export] Instance reported_life {A} : LifeFrame (@reported A).
Proof. split; by intros ? ? []. Qed.
#[export] Instance final_life {A} i o : LifeFrame (@final A i o).
Proof. by split. Qed.

Section All.
Context {A : Type} `{Authority A} (I : Driver A -> Prop) `{!PlacementFrame I, !WorkerFrame I, !CallFrame I, !LifeFrame I}.

Lemma call_preserves wait_period no_matching_period c : preserves I (do_call wait_period no_matching_period c).
Proof using All.
  destruct c; try (by apply (calls_frame I)); cbn [do_call]; unfold forget;
    try (apply preserves_modify; intros d Hd; by first [apply pf_fragments | apply pf_managers | apply lf_schedulers]);
    try (apply preserves_bind; [|intros; apply preserves_ret]); auto with frame.
  all: unfold new_handle, close_registry, begin_operation, end_operation, begin_teardown, end_teardown;
    apply preserves_wp; intros d Hd; wp_run; try done;
    repeat first [exact Hd | apply lf_closing | apply lf_operations | apply lf_teardowns | apply lf_workers | apply wf_handles].
Qed.

Lemma run_keeps wait_period no_matching_period cs d : I d -> I (run wait_period no_matching_period cs d).
Proof using All.
  intros Hd. apply (run_preserves wait_period no_matching_period (fun _ _ => True)); [|by clear Hd; revert d; induction cs as [|c cs IH]|done].
  intros c d' _ Hd'. by apply call_preserves.
Qed.
End All.
