(* ===== verification/PlacementLeases.v ===== *)
(** * No lease is lost

    What placement relies on in a resource manager, as laws of [Authority],
    and what it promises: over every history of the driver, a task lease that
    a manager has granted and not taken back is recorded under a partition
    that has an owner, so that releasing the partition or the query returns
    it. *)

From S2P Require Import Prelude PyStr PyVal PyNum FteTypes FteState SplitAssigner Partition QueryGraph ResourceState SubmissionWindow WorkerPressure FragmentPlacement PlacementManager PlacementBooks.

#[local] Open Scope string_scope.
#[local] Open Scope list_scope.
#[local] Open Scope Z_scope.

Import Placement PlacementManager PlacementCalls.

(** A lease is named by its id and attempt. *)
Definition lease_name (l : TaskLease) : string * string := (l.(tl_lease_id), l.(tl_attempt_id)).

(** What a resource manager promises: a grant hands out one lease, of the
    query and on the node that were asked for, everything else at most takes
    leases back, and a release takes back the lease that it names. *)
Class AuthorityLaws (A : Type) `{Authority A} := {
  au_ok : A -> Prop;
  au_live : A -> string * string -> Prop;
  law_acquire : forall r a, au_ok a ->
    match au_try_acquire r a with
    | (Ok g, a') => au_ok a' /\
        if g.(tg_granted)
        then exists l, g.(tg_lease) = Some l /\ l.(tl_query_id) = r.(tr_query_id) /\
               (forall n, r.(tr_node_id) = Some n -> strip n <> "" -> l.(tl_node_id) = strip n) /\
               forall x, au_live a' x -> x = lease_name l \/ au_live a x
        else forall x, au_live a' x -> au_live a x
    | (Raise _, a') => au_ok a' /\ forall x, au_live a' x -> au_live a x
    end;
  law_release : forall terminal id attempt a, au_ok a ->
    match au_release terminal id attempt a with
    | (Ok _, a') => au_ok a' /\ forall x, au_live a' x -> au_live a x /\ x <> (id, attempt)
    | (Raise _, _) => False
    end;
}.

Section Leases.
Context {A : Type} `{AuthorityLaws A}.
Implicit Types d : Driver A.

Definition sites d : list string := map h_node_id d.(d_handles).

(** The lease [x] of query [q] is recorded under a partition. *)
Definition recorded d (q : string) (x : string * string) : Prop :=
  exists key e l, od_get key d.(d_task_leases) = Some (e, l) /\ lease_name l = x /\ strip l.(tl_query_id) = q.

(** The invariant, up to the partitions [ownerless] and the leases [loose]. *)
Record tidy_upto (ownerless : PartitionKey -> Prop) (loose : string -> string * string -> Prop) d : Prop := {
  td_sites : Forall (fun n => strip n = n /\ n <> "") (sites d);
  td_fragments : forall k f, (k, f) ∈ d.(d_fragments) -> is_ok (resource_identity_from_context f.(fr_context)) = true;
  td_waiters : d.(d_task_waiters) = [];
  td_wf : od_wf d.(d_managers) /\ od_wf d.(d_partition_owners) /\ od_wf d.(d_task_leases);
  td_managers : forall q a, od_get q d.(d_managers) = Some a -> au_ok a;
  td_owners : forall key i, od_get key d.(d_partition_owners) = Some i ->
    (i < length (sites d))%nat /\ is_ok (Pressure.partition_reservation_key key.1.1 key.1.2 key.2) = true;
  td_leased : forall key e l, od_get key d.(d_task_leases) = Some (e, l) -> strip l.(tl_query_id) <> "" /\
    (ownerless key \/ exists i, od_get key d.(d_partition_owners) = Some i /\ sites d !! i = Some l.(tl_node_id));
  td_live : forall q a x, lookup_manager q d = Ok a -> au_live a x -> recorded d (strip q) x \/ loose (strip q) x;
}.

(** The leases that other clients of the managers have been granted. *)
Context (foreign : string -> string * string -> Prop).

Definition tidy : Driver A -> Prop := tidy_upto (fun _ => False) foreign.

Lemma tidy_ext O L d d' : sites d' = sites d -> d'.(d_fragments) = d.(d_fragments) -> d'.(d_managers) = d.(d_managers) ->
  d'.(d_partition_owners) = d.(d_partition_owners) -> d'.(d_task_leases) = d.(d_task_leases) -> d'.(d_task_waiters) = d.(d_task_waiters) ->
  tidy_upto O L d -> tidy_upto O L d'.
Proof.
  intros E1 E2 E3 E4 E5 E6 [H1 H2 H3 H4 H5 H6 H7 H8].
  constructor; rewrite ?E1, ?E2, ?E3, ?E4, ?E5, ?E6; try done. intros q a x Hq Hx. unfold recorded. rewrite E5.
  apply (H8 q a x); [|done]. unfold lookup_manager in *. by rewrite E3 in Hq.
Qed.

Lemma tidy_weaken (O O' : PartitionKey -> Prop) (L L' : string -> string * string -> Prop) d :
  (forall key e l, od_get key d.(d_task_leases) = Some (e, l) -> O key -> O' key) -> (forall q x, L q x -> L' q x) ->
  tidy_upto O L d -> tidy_upto O' L' d.
Proof.
  intros HO HL [H1 H2 H3 H4 H5 H6 H7 H8]. constructor; try done.
  - intros key e l Hk. destruct (H7 key e l Hk) as [? [?|?]]; split; [done|left; by eapply HO|done|by right].
  - intros q a x Hq Hx. destruct (H8 q a x Hq Hx); [by left|right; auto].
Qed.

(** ** The window and the waiters *)

Lemma identity_ok O L d k : tidy_upto O L d -> SubmissionWindow.stage_key_for_partition k (window_of d) = Raise (KeyError "FTE fragment execution is not registered") \/
  exists st, SubmissionWindow.stage_key_for_partition k (window_of d) = Ok st.
Proof.
  intros Ht. unfold SubmissionWindow.stage_key_for_partition, window_of. cbn.
  destruct (od_get k.1 _) as [ctx|] eqn:E; [|by left]. right. apply od_get_elem, list_elem_of_fmap in E as ([k' f] & [= _ ->] & Hin).
  apply (td_fragments _ _ _ Ht) in Hin. destruct (resource_identity_from_context _); [by eexists|done].
Qed.

Lemma window_wp O L {B} (m : ST Window B) (Q : B -> Driver A -> Prop) E d : tidy_upto O L d ->
  (forall b d', tidy_upto O L d' -> d'.(d_task_leases) = d.(d_task_leases) -> d'.(d_partition_owners) = d.(d_partition_owners) ->
     d'.(d_managers) = d.(d_managers) -> d'.(d_handles) = d.(d_handles) -> Q b d') ->
  (forall e w, m (window_of d) = (Raise e, w) -> E e (d <| d_probes := w.(w_probes) |> <| d_blocks := w.(w_blocks) |>)) ->
  wp (on_window m) Q E d.
Proof.
  intros Ht HQ HE. unfold wp, on_window, szoom. destruct (m (window_of d)) as [[b|e] w] eqn:Em; [|by apply HE].
  apply HQ; try done. by apply (tidy_ext O L d).
Qed.

Lemma release_window_wp O L key b (Q : bool -> Driver A -> Prop) E d : tidy_upto O L d ->
  (forall r d', tidy_upto O L d' -> d'.(d_task_leases) = d.(d_task_leases) -> d'.(d_partition_owners) = d.(d_partition_owners) ->
     d'.(d_managers) = d.(d_managers) -> d'.(d_handles) = d.(d_handles) -> Q r d') ->
  wp (on_window (SubmissionWindow.release_partition key b)) Q E d.
Proof.
  intros Ht HQ. apply (window_wp O L); [done|done|]. intros e w Hw. exfalso. unfold SubmissionWindow.release_partition in Hw.
  cbn [sbind sget] in Hw. unfold sbind, sget in Hw. destruct (identity_ok O L d key Ht) as [E1|[st E1]]; rewrite E1 in Hw; done.
Qed.

Lemma release_waiter_wp O L key (Q : bool -> Driver A -> Prop) E d : tidy_upto O L d -> Q false d -> wp (release_waiter key) Q E d.
Proof. intros Ht HQ. unfold release_waiter. apply wp_bind, wp_get. rewrite (td_waiters _ _ _ Ht). by apply wp_ret. Qed.

(** ** Calls on managers *)

Lemma lookup_set q0 q a' d : strip q <> "" ->
  lookup_manager q0 (d <| d_managers ::= od_set (strip q) a' |>) = if decide (strip q0 = strip q) then Ok a' else lookup_manager q0 d.
Proof.
  intros Hq. unfold lookup_manager, raise_if. cbn [d_managers set_field]. rewrite od_get_set. destruct (decide (strip q0 = strip q)) as [E|E].
  - rewrite E, (proj2 (String.eqb_neq _ _) Hq). cbn. by rewrite decide_True.
  - destruct (String.eqb (strip q0) ""); [done|]. cbn. by rewrite decide_False.
Qed.

Lemma lookup_named q a d : lookup_manager q d = Ok a -> strip q <> "" /\ od_get (strip q) d.(d_managers) = Some a.
Proof.
  unfold lookup_manager, raise_if. destruct (String.eqb_spec (strip q) ""); cbn; [done|]. destruct (od_get _ _); [|done]. by intros [= ->].
Qed.

Lemma lookup_strip q q' d : strip q = strip q' -> lookup_manager q d = lookup_manager q' d.
Proof. unfold lookup_manager. by intros ->. Qed.

(** A manager changes to [a']: its leases are recorded, or loose. *)
Lemma tidy_manager O (L L' : string -> string * string -> Prop) q a a' d :
  tidy_upto O L d -> lookup_manager q d = Ok a -> au_ok a' ->
  (forall x, au_live a' x -> recorded d (strip q) x \/ L' (strip q) x) ->
  (forall q' x, q' <> strip q -> L q' x -> L' q' x) -> tidy_upto O L' (d <| d_managers ::= od_set (strip q) a' |>).
Proof.
  intros [H1 H2 H3 H4 H5 H6 H7 H8] Hq Ha' Hnew Hold. destruct (lookup_named _ _ _ Hq) as [Hne Hget]. constructor; try done.
  - split; [apply od_wf_set, H4|apply H4].
  - intros q' b. cbn. rewrite od_get_set. destruct (decide _); [by intros [= <-]|apply H5].
  - intros q' b x Hb Hx. rewrite lookup_set in Hb by done. destruct (decide (strip q' = strip q)) as [E|E].
    + injection Hb as <-. rewrite E. by apply Hnew.
    + destruct (H8 q' b x Hb Hx); [by left|right; auto].
Qed.

(** The tables that the managers do not touch. *)
Definition tables d d' : Prop :=
  d'.(d_task_leases) = d.(d_task_leases) /\ d'.(d_partition_owners) = d.(d_partition_owners) /\ d'.(d_handles) = d.(d_handles).

(** Taking back the lease that is loose. *)
Lemma release_call_wp O L q t id attempt d :
  tidy_upto O (fun q' x => q' = strip q /\ x = (id, attempt) \/ L q' x) d ->
  wp (with_manager q (au_release t id attempt)) (fun _ d' => tidy_upto O L d' /\ tables d d')
    (fun e d' => tidy_upto O L d' /\ tables d d' /\ (is_key_error e = true \/ strip q = "")) d.
Proof.
  intros Ht. unfold wp, with_manager. destruct (lookup_manager q d) as [a|e] eqn:Eq.
  - destruct (lookup_named _ _ _ Eq) as [Hne Hget]. pose proof (law_release t id attempt a (td_managers _ _ _ Ht _ _ Hget)) as Hl.
    destruct (au_release t id attempt a) as [[b|e] a']; [|done]. destruct Hl as [Hok Hlive]. split; [|done].
    eapply tidy_manager; [exact Ht|exact Eq|done|..].
    + intros x Hx. apply Hlive in Hx as [Hx Hn]. destruct (td_live _ _ _ Ht q a x Eq Hx) as [?|[[_ ?]|?]]; [by left|done|by right].
    + intros q' x Hq' [[? _]|?]; done.
  - split; [|split; [done|]].
    + destruct Ht as [H1 H2 H3 H4 H5 H6 H7 H8]. constructor; try done. intros q' a x Hq' Hx.
      destruct (H8 q' a x Hq' Hx) as [?|[[E _]|?]]; [by left| |by right]. rewrite (lookup_strip _ _ _ E), Eq in Hq'. done.
    + unfold lookup_manager, raise_if in Eq. destruct (String.eqb_spec (strip q) ""); [by right|]. cbn in Eq.
      destruct (od_get _ _); [done|]. injection Eq as <-. by left.
Qed.

Lemma return_lease_wp O L l t d : strip l.(tl_query_id) <> "" ->
  tidy_upto O (fun q x => q = strip l.(tl_query_id) /\ x = lease_name l \/ L q x) d ->
  wp (return_lease l t) (fun _ d' => tidy_upto O L d' /\ tables d d') (fun _ _ => False) d.
Proof.
  intros Hne Ht. unfold return_lease. apply wp_catch, wp_bind. eapply wp_mono; [by apply release_call_wp|..]; cbn beta.
  - intros _ d1 H1. by apply wp_ret.
  - intros e d1 (H1 & H2 & [->|?]); [|done]. by apply wp_ret.
Qed.

(** ** Releasing what is recorded under a partition *)

(** Without the record of [key], its lease is loose. *)
Lemma tidy_pop_lease O L key d :
  tidy_upto O L d ->
  tidy_upto O (fun q x => (exists e l, od_get key d.(d_task_leases) = Some (e, l) /\ q = strip l.(tl_query_id) /\ x = lease_name l) \/ L q x)
    (d <| d_task_leases ::= od_pop key |>).
Proof.
  intros [H1 H2 H3 H4 H5 H6 H7 H8].
  assert (Hget : forall k v, od_get k (od_pop key (d_task_leases d)) = Some v -> od_get k (d_task_leases d) = Some v /\ k <> key).
  { intros k v Hk. destruct (decide (key = k)) as [<-|Hne]; [by rewrite od_get_pop_eq in Hk by apply H4|].
    rewrite od_get_pop_ne in Hk by done. by split; [|congruence]. }
  constructor; try done.
  - split; [apply H4|]. split; [apply H4|apply od_wf_pop, H4].
  - intros k e l [Hk _]%Hget. by apply (H7 k e).
  - intros q a x Hq Hx. destruct (H8 q a x Hq Hx) as [(k & e & l & Hk & Hn & Hs)|?]; [|by right; right].
    destruct (decide (k = key)) as [->|Hne]; [right; left; by exists e, l|]. left. exists k, e, l. cbn. by rewrite od_get_pop_ne by congruence.
Qed.

Lemma release_lease_wp (O O' : PartitionKey -> Prop) L key d : (forall k, k <> key -> O k -> O' k) -> tidy_upto O L d ->
  wp (release_lease_for_key key) (fun _ d' => tidy_upto O' L d' /\ od_get key d'.(d_task_leases) = None /\
    d'.(d_partition_owners) = d.(d_partition_owners) /\ d'.(d_handles) = d.(d_handles)) (fun _ _ => False) d.
Proof.
  intros HO Ht. unfold release_lease_for_key. apply wp_bind. apply (release_window_wp O L); [done|]. intros _ d1 Ht1 El1 Eo1 _ Eh1.
  apply wp_bind. apply (release_waiter_wp O L); [done|]. apply wp_bind, wp_get. destruct (od_get key (d_task_leases d1)) as [[e l]|] eqn:El.
  - destruct (td_leased _ _ _ Ht1 _ _ _ El) as [Hne _]. apply wp_bind, wp_modify. pose proof (tidy_pop_lease O L key d1 Ht1) as Hp.
    set (d2 := d1 <| d_task_leases ::= _ |>) in *.
    assert (Hnone : od_get key d2.(d_task_leases) = None) by (apply od_get_pop_eq, (td_wf _ _ _ Ht1)).
    eapply wp_mono; [apply (return_lease_wp O' L); [done|]| |done].
    + eapply tidy_weaken; [| |exact Hp].
      * intros k e' l' Hk Hok. apply HO; [|done]. intros ->. congruence.
      * intros q x [(e' & l' & Hl' & -> & ->)|?]; [|by right]. left. assert (l' = l) as -> by congruence. done.
    + cbn beta. intros _ d3 [Ht3 (E1 & E2 & E3)]. rewrite E1, E2, E3. by rewrite <- Eo1, <- Eh1.
  - apply wp_ret. split; [|by rewrite Eo1, Eh1]. eapply tidy_weaken; [|done|exact Ht1]. intros k e l Hk Hok. apply HO; [|done]. intros ->. congruence.
Qed.

Lemma tidy_pop_owner (O : PartitionKey -> Prop) L key d : tidy_upto O L d ->
  tidy_upto (fun k => k = key \/ O k) L (d <| d_partition_owners ::= od_pop key |>).
Proof.
  intros [H1 H2 H3 H4 H5 H6 H7 H8]. constructor; try done.
  - split; [apply H4|]. split; [apply od_wf_pop, H4|apply H4].
  - intros k i Hk. apply (H6 k). destruct (decide (key = k)) as [<-|Hne]; [cbn in Hk; by rewrite od_get_pop_eq in Hk by apply H4|].
    cbn in Hk. by rewrite od_get_pop_ne in Hk.
  - intros k e l Hk. destruct (H7 k e l Hk) as [? Ho]. split; [done|]. destruct (decide (key = k)) as [<-|Hne]; [by left; left|].
    destruct Ho as [?|Ho]; [by left; right|]. right. cbn. by rewrite od_get_pop_ne.
Qed.

(** ** Acquiring a lease *)

Lemma tables_refl d : tables d d.
Proof. done. Qed.
Lemma tables_trans d1 d2 d3 : tables d1 d2 -> tables d2 d3 -> tables d1 d3.
Proof. intros (? & ? & ?) (? & ? & ?). repeat split; congruence. Qed.

Lemma blocked_wp O L key reason d : tidy_upto O L d ->
  wp (set_blocked_reason key reason) (fun _ d' => tidy_upto O L d' /\ tables d d') (fun _ _ => False) d.
Proof. intros Ht. unfold set_blocked_reason. apply wp_modify. destruct (od_get key _); [|done]. split; [|done]. by apply (tidy_ext O L d). Qed.

Lemma any_window_wp O L {B} (m : ST Window B) d : tidy_upto O L d ->
  wp (on_window m) (fun _ d' => tidy_upto O L d' /\ tables d d') (fun _ d' => tidy_upto O L d' /\ tables d d') d.
Proof.
  intros Ht. apply (window_wp O L); [done|done|]. intros e w _. split; [|done]. by apply (tidy_ext O L d).
Qed.

Lemma resolve_window_wp O L key g r f ep d : tidy_upto O L d ->
  wp (on_window (SubmissionWindow.resolve_partition key g r f ep)) (fun _ d' => tidy_upto O L d' /\ tables d d') (fun _ _ => False) d.
Proof.
  intros Ht. apply (window_wp O L); [done|done|]. intros e w Hw. exfalso. unfold SubmissionWindow.resolve_partition in Hw.
  unfold sbind, sget in Hw. destruct (identity_ok O L d key Ht) as [E1|[st E1]]; rewrite E1 in Hw; done.
Qed.

Lemma try_acquire_wp O L q stage task attempt node d : tidy_upto O L d -> is_ok (lookup_manager q d) = true ->
  wp (with_manager q (au_try_acquire (MkTaskRequest q stage task attempt (Some node) None)))
    (fun g d' => tables d d' /\
       if g.(tg_granted)
       then exists l, g.(tg_lease) = Some l /\ l.(tl_query_id) = q /\ strip q <> "" /\ (strip node <> "" -> l.(tl_node_id) = strip node) /\
         tidy_upto O (fun q' x => q' = strip q /\ x = lease_name l \/ L q' x) d'
       else tidy_upto O L d')
    (fun _ d' => tidy_upto O L d' /\ tables d d') d.
Proof.
  intros Ht Hq. unfold wp, with_manager. destruct (lookup_manager q d) as [a|e] eqn:Eq; [|done].
  destruct (lookup_named _ _ _ Eq) as [Hne Hget]. set (r := MkTaskRequest _ _ _ _ _ _).
  pose proof (law_acquire r a (td_managers _ _ _ Ht _ _ Hget)) as Hl. pose proof (td_live _ _ _ Ht q a) as Hlive.
  destruct (au_try_acquire r a) as [[g|e] a'].
  - split; [done|]. destruct Hl as [Hok Hg]. destruct (tg_granted g).
    + destruct Hg as (l & Hgl & Hlq & Hn & Hnew). exists l. split; [done|]. split; [done|]. split; [done|]. split; [by apply Hn|].
      eapply tidy_manager; [exact Ht|exact Eq|done|..].
      * intros x [->|Hx]%Hnew; [by right; left|]. destruct (Hlive x Eq Hx); [by left|by right; right].
      * by intros; right.
    + eapply tidy_manager; [exact Ht|exact Eq|done|..]; [|done]. intros x Hx%Hg. by apply Hlive.
  - destruct Hl as [Hok Hg]. split; [|done]. eapply tidy_manager; [exact Ht|exact Eq|done|..]; [|done]. intros x Hx%Hg. by apply Hlive.
Qed.

Lemma acquire_lease_wp O L key x node d : tidy_upto O L d ->
  wp (acquire_lease key x node)
    (fun r d' => tables d d' /\ match r with
       | inl l => strip l.(tl_query_id) <> "" /\ (strip node <> "" -> l.(tl_node_id) = strip node) /\
           tidy_upto O (fun q y => q = strip l.(tl_query_id) /\ y = lease_name l \/ L q y) d'
       | inr _ => tidy_upto O L d'
       end)
    (fun _ d' => tidy_upto O L d' /\ tables d d') d.
Proof.
  intros Ht. unfold acquire_lease. apply wp_bind, wp_get, wp_bind, wp_raise_if; [intros _|done].
  apply wp_bind, wp_lift; [|done]. intros [q stage] _. apply wp_bind. eapply wp_mono; [by apply any_window_wp| |done].
  cbn beta. intros admitted d1 [Ht1 T1]. destruct admitted; cbn [negb].
  2: { apply wp_bind. eapply wp_mono; [by apply blocked_wp| |done]. cbn beta. intros _ d2 [Ht2 T2]. apply wp_ret. by split; [eapply tables_trans|]. }
  apply wp_bind, wp_get, wp_bind, wp_lift; [|done]. intros [task attempt] _. apply wp_bind, wp_lift; [|done]. intros a Ha.
  apply wp_bind, wp_catch. eapply wp_mono; [apply (try_acquire_wp O L); [done|by rewrite Ha]|..]; cbn beta.
  2: { intros e d2 [Ht2 T2]. apply wp_bind. apply (release_window_wp O L); [done|]. intros _ d3 Ht3 E1 E2 _ E3. apply wp_raise. split; [done|].
       apply (tables_trans _ d1); [done|]. apply (tables_trans _ d2); [done|done]. }
  intros g d2 [T2 Hg]. pose proof (tables_trans _ _ _ T1 T2) as T12. destruct (tg_granted g).
  - destruct Hg as (l & El & Hlq & Hne & Hn & Ht2). apply wp_bind. eapply wp_mono; [by apply resolve_window_wp| |done]. cbn beta.
    intros _ d3 [Ht3 T3]. pose proof (tables_trans _ _ _ T12 T3) as T13. rewrite El. apply wp_bind, wp_get. destruct (bool_decide _).
    + apply wp_bind. eapply wp_mono; [by apply (release_call_wp O L)| |]; cbn beta.
      * intros _ d4 [Ht4 T4]. apply wp_raise. by split; [|eapply tables_trans].
      * intros e d4 (Ht4 & T4 & _). by split; [|eapply tables_trans].
    + apply wp_ret. rewrite Hlq. done.
  - apply wp_bind. eapply wp_mono; [by apply blocked_wp| |done]. cbn beta. intros _ d3 [Ht3 T3].
    apply wp_bind. eapply wp_mono; [by apply resolve_window_wp| |done]. cbn beta. intros _ d4 [Ht4 T4].
    assert (T : tables d d4) by (eapply tables_trans; [exact T12|]; by eapply tables_trans).
    apply wp_bind, wp_raise_if; [intros _|done]. by apply wp_ret.
Qed.

(** ** Placing a partition *)

Lemma tidy_record O l e key d : strip l.(tl_query_id) <> "" -> O key -> od_get key d.(d_task_leases) = None ->
  tidy_upto O (fun q x => q = strip l.(tl_query_id) /\ x = lease_name l \/ foreign q x) d ->
  tidy_upto O foreign (d <| d_task_leases ::= od_set key (e, l) |>).
Proof.
  intros Hne HO Hnone [H1 H2 H3 H4 H5 H6 H7 H8]. constructor; try done.
  - split; [apply H4|]. split; [apply H4|apply od_wf_set, H4].
  - intros k e' l' Hk. cbn in Hk. rewrite od_get_set in Hk. destruct (decide (key = k)) as [<-|Hn]; [injection Hk as <- <-; by split; [|left]|].
    by apply (H7 k e').
  - intros q a x Hq Hx. destruct (H8 q a x Hq Hx) as [(k & e' & l' & Hk & Hn & Hs)|[[-> ->]|?]]; [left|left|by right].
    + assert (key <> k) as Hkk by (intros <-; congruence). exists k, e', l'. cbn [d_task_leases set_field]. by rewrite od_get_set_ne.
    + exists key, e, l. cbn. by rewrite od_get_set_eq.
Qed.

Lemma tidy_own i n e l key d : od_get key d.(d_task_leases) = Some (e, l) -> sites d !! i = Some n -> l.(tl_node_id) = n ->
  is_ok (Pressure.partition_reservation_key key.1.1 key.1.2 key.2) = true -> tidy_upto (eq key) foreign d ->
  tidy (d <| d_partition_owners ::= od_set key i |>).
Proof.
  intros Hl Hi Hn Hk [H1 H2 H3 H4 H5 H6 H7 H8]. constructor; try done.
  - split; [apply H4|]. split; [apply od_wf_set, H4|apply H4].
  - intros k j Hj. cbn in Hj. rewrite od_get_set in Hj. destruct (decide (key = k)) as [<-|]; [|by apply (H6 k)].
    injection Hj as <-. split; [by eapply lookup_lt_Some|done].
  - intros k e' l' Hk'. destruct (H7 k e' l' Hk') as [Hne Ho]. split; [done|]. right. cbn. rewrite od_get_set.
    destruct (decide (key = k)) as [<-|Hn']; [|by destruct Ho]. exists i. split; [done|].
    change (od_get key (d_task_leases d) = Some (e', l')) in Hk'. assert (l' = l) as -> by congruence. by rewrite Hn.
Qed.

Lemma sites_alter (g : Handle -> Handle) i (hs : list Handle) : (forall h, h_node_id (g h) = h_node_id h) -> map h_node_id (alter g i hs) = map h_node_id hs.
Proof.
  intros Hg. apply list_eq. intros j. rewrite !list_lookup_fmap, list_lookup_alter. destruct (decide (i = j)) as [<-|]; [|done].
  destruct (hs !! i); [|done]. cbn. by rewrite Hg.
Qed.

Lemma pressure_tidy O L {B} i (m : ST Pressure B) d : tidy_upto O L d -> tidy_upto O L (on_pressure i m d).2.
Proof.
  intros Ht. unfold on_pressure. destruct (d_handles d !! i) as [h|] eqn:E; [|done]. destruct (m _) as [r p].
  apply (tidy_ext O L d); try done. by apply sites_alter.
Qed.

(** A call on a worker: the tables of partitions stay as they are. *)
Lemma pressure_wp O L {B} i (m : ST Pressure B) (Q : B -> Driver A -> Prop) (E : exn -> Driver A -> Prop) d : tidy_upto O L d ->
  (forall b d', tidy_upto O L d' -> d'.(d_task_leases) = d.(d_task_leases) -> d'.(d_partition_owners) = d.(d_partition_owners) -> sites d' = sites d -> Q b d') ->
  (forall e d', tidy_upto O L d' -> d'.(d_task_leases) = d.(d_task_leases) -> d'.(d_partition_owners) = d.(d_partition_owners) -> sites d' = sites d -> E e d') ->
  wp (on_pressure i m) Q E d.
Proof.
  intros Ht HQ HE. pose proof (pressure_tidy O L i m d Ht) as Ht'. unfold wp.
  assert (Hs : d_task_leases (on_pressure i m d).2 = d_task_leases d /\ d_partition_owners (on_pressure i m d).2 = d_partition_owners d /\ sites (on_pressure i m d).2 = sites d).
  { unfold on_pressure. destruct (d_handles d !! i) as [h|] eqn:E1; [|done]. destruct (m _) as [r p]. split; [done|]. split; [done|].
    by apply sites_alter. }
  destruct Hs as (E1 & E2 & E3). destruct (on_pressure i m d) as [[b|e] d']; [by apply HQ|by apply HE].
Qed.

Lemma get_handle_site i h d : get_handle i d = Ok h -> sites d !! i = Some h.(h_node_id).
Proof. unfold get_handle, sites. rewrite list_lookup_fmap. destruct (d_handles d !! i); [|done]. by intros [= ->]. Qed.

Lemma drop_wp key d : tidy d ->
  wp (let! _ := pop_owner key in let! _ := release_lease_for_key key in sret (@None nat, @None (Z * TaskLease)))
    (fun r d' => tidy d' /\ r.1 = None /\ od_get key d'.(d_task_leases) = None) (fun _ => tidy) d.
Proof.
  intros Ht. apply wp_bind. unfold pop_owner. apply wp_modify, wp_bind. apply tidy_pop_owner with (key := key) in Ht.
  eapply wp_mono; [eapply (release_lease_wp (fun k => k = key \/ False) (fun _ => False)); [|exact Ht]| |done].
  - by intros k Hk [?|?].
  - cbn beta. intros _ d1 (Ht1 & Hl & _). by apply wp_ret.
Qed.

(** What [keep_owner] leaves: no lease without an owner. *)
Lemma keep_owner_tidy key eligible dm d : tidy d ->
  wp (keep_owner key eligible dm)
    (fun r d' => tidy d' /\ match r with
       | (Some i, lease) => od_get key d'.(d_partition_owners) = Some i /\ od_get key d'.(d_task_leases) = lease
       | (None, _) => od_get key d'.(d_task_leases) = None
       end) (fun _ => tidy) d.
Proof.
  intros Ht. unfold keep_owner. apply wp_bind, wp_get.
  assert (Hdrop : forall d, tidy d -> wp (let! _ := pop_owner key in let! _ := release_lease_for_key key in sret (@None nat, @None (Z * TaskLease)))
    (fun r d' => tidy d' /\ match r with
       | (Some i, lease) => od_get key d'.(d_partition_owners) = Some i /\ od_get key d'.(d_task_leases) = lease
       | (None, _) => od_get key d'.(d_task_leases) = None end) (fun _ => tidy) d).
  { intros d1 H1. eapply wp_mono; [by apply drop_wp| |done]. by intros [[?|] ?] d2 (H2 & ? & ?). }
  destruct (od_get key (d_partition_owners d)) as [i|] eqn:Eo.
  2: { apply wp_ret. split; [done|]. destruct (od_get key (d_task_leases d)) as [[e l]|] eqn:El; [|done].
       destruct (td_leased _ _ _ Ht _ _ _ El) as [_ [[]|(i & Hi & _)]]. congruence. }
  apply wp_bind, wp_lift; [|done]. intros h Hh. destruct (_ || _); [by apply Hdrop|]. apply wp_bind.
  apply (pressure_wp (fun _ => False) foreign); [done| |done]. intros _ d1 Ht1 El Eo1 _.
  apply wp_bind, wp_get, wp_bind, wp_lift; [|done]. intros h1 _. apply wp_bind, wp_lift; [|done]. intros fits _.
  destruct (negb fits); [by apply Hdrop|]. destruct (od_get key (d_task_leases d)) as [[e l]|] eqn:Ed.
  - destruct (negb _); [by apply Hdrop|]. apply wp_ret. rewrite El, Eo1. done.
  - apply wp_ret. rewrite El, Eo1. done.
Qed.

(** A lease that was just granted, not yet with an owner. *)
Definition leased (key : PartitionKey) (i : nat) (l : TaskLease) d : Prop :=
  tidy_upto (eq key) foreign d /\ (exists e, od_get key d.(d_task_leases) = Some (e, l)) /\ sites d !! i = Some l.(tl_node_id).

Lemma grant_leased key e i l n d d' : tidy d -> sites d !! i = Some n -> od_get key d.(d_task_leases) = None -> tables d d' ->
  strip l.(tl_query_id) <> "" -> (strip n <> "" -> l.(tl_node_id) = strip n) ->
  tidy_upto (fun _ => False) (fun q y => q = strip l.(tl_query_id) /\ y = lease_name l \/ foreign q y) d' ->
  leased key i l (d' <| d_task_leases ::= od_set key (e, l) |>).
Proof.
  intros Ht Hi Hnone (T1 & T2 & T3) Hq Hn Ht'. pose proof (Forall_lookup_1 _ _ _ _ (td_sites _ _ _ Ht) Hi) as [Hs Hne].
  split; [|split].
  - apply tidy_record; [done|done|by rewrite T1|]. by eapply tidy_weaken; [| |exact Ht'].
  - exists e. cbn. apply od_get_set_eq.
  - unfold sites in *. cbn. rewrite T3, Hi, Hn by congruence. by rewrite Hs.
Qed.

Lemma find_owner_tidy wait fuel current key x stage eligible dm now excluded d : tidy d -> od_get key d.(d_task_leases) = None ->
  wp (find_owner wait fuel current key x stage eligible dm now excluded)
    (fun r d' => match r with inl (i, (_, l)) => leased key i l d' | inr _ => tidy d' end) (fun _ => tidy) d.
Proof.
  revert excluded d. induction fuel as [|fuel IH]; intros excluded d Ht Hnone; cbn [find_owner]; [by apply wp_raise|].
  apply wp_bind, wp_catch. set (choice := let! d := sget in _).
  assert (Hc : wp choice (fun o d' => d' = d /\ match o with Some (i, h) => get_handle i d = Ok h | None => True end) (fun _ d' => d' = d) d).
  { unfold choice. apply wp_bind, wp_get, wp_bind, wp_lift; [|done]. intros [i|] _; [|by apply wp_ret].
    apply wp_bind, wp_lift; [|done]. intros h Hh. apply wp_ret. split; [done|]. by case_bool_decide. }
  assert (Hrel : forall (Q : unit -> Driver A -> Prop) E, (forall d', tidy d' -> Q tt d') -> wp (release_lease_for_key key) Q E d).
  { intros Q E HQ. eapply wp_mono; [eapply (release_lease_wp (fun _ => False) (fun _ => False)); [done|exact Ht]| |done].
    cbn beta. intros [] d1 (H1 & _). by apply HQ. }
  eapply wp_mono; [exact Hc| |].
  2: { cbn beta. intros e d' ->. apply wp_bind, Hrel. intros d1 H1. by apply wp_raise. }
  clear Hc choice. cbn beta. intros [[i h]|] d' [-> Hi].
  - apply get_handle_site in Hi. apply wp_bind. eapply wp_mono; [apply acquire_lease_wp; exact Ht| |by intros ? ? [? _]]. cbn beta.
    intros [l|reason] d1 [T1 Hr].
    + destruct Hr as (Hq & Hn & Hl). apply wp_bind, wp_modify, wp_ret. by eapply grant_leased.
    + destruct (String.eqb _ _); [|by apply wp_ret]. apply IH; [done|]. destruct T1 as (-> & _). done.
  - apply wp_bind, Hrel. intros d1 H1. apply wp_bind, wp_get, wp_bind, wp_raise_if; [|done]. intros _. by apply wp_ret.
Qed.

Lemma settle_owner_tidy key x i l dm d : leased key i l d -> wp (settle_owner key x i l dm) (fun _ => tidy) (fun _ => tidy) d.
Proof.
  intros (Ht & (e & Hl) & Hi). unfold settle_owner. apply wp_bind, wp_modify. set (d1 := d <| d_handles ::= _ |>).
  assert (Es : sites d1 = sites d) by (by apply sites_alter).
  assert (Ht1 : tidy_upto (eq key) foreign d1) by (by apply (tidy_ext (eq key) foreign d)).
  assert (Hkey : forall u p p', Pressure.reserve key.1.1 key.1.2 key.2 dm.(dm_memory) (RObj dm.(dm_class)) p = (Ok u, p') ->
    is_ok (Pressure.partition_reservation_key key.1.1 key.1.2 key.2) = true).
  { intros u p p' Hr. unfold Pressure.reserve in Hr. apply sbind_ok in Hr as (k & s1 & Hk & _). unfold slift in Hk. injection Hk as Hk _. by rewrite Hk. }
  apply wp_bind, wp_catch. unfold wp at 1, on_pressure at 1.
  assert (Hlk : exists h, d_handles d1 !! i = Some h).
  { unfold sites in Es, Hi. rewrite <- Es, list_lookup_fmap in Hi. destruct (d_handles d1 !! i) as [h|]; [by exists h|done]. }
  destruct Hlk as [h Hh]. rewrite Hh. pose proof (pressure_tidy (eq key) foreign i (Pressure.reserve key.1.1 key.1.2 key.2 dm.(dm_memory) (RObj dm.(dm_class))) d1 Ht1) as Ht2.
  unfold on_pressure in Ht2. rewrite Hh in Ht2. destruct (Pressure.reserve _ _ _ _ _ _) as [[u|er] p] eqn:Er; cbn [snd] in Ht2.
  - apply Hkey in Er. set (d2 := d1 <| d_handles ::= _ |>) in *. apply wp_bind, wp_modify.
    assert (Es2 : sites d2 = sites d) by (rewrite <- Es; by apply sites_alter).
    assert (Hfin : tidy (d2 <| d_partition_owners ::= od_set key i |>)) by (eapply (tidy_own i l.(tl_node_id) e l); [exact Hl|by rewrite Es2|done|done|done]).
    apply wp_bind, wp_get, wp_bind, wp_lift; [|done]. intros h' _. by apply wp_ret.
  - cbv beta iota. set (d2 := d1 <| d_handles ::= _ |>) in *. apply wp_bind, wp_get, wp_bind.
    apply (wp_mono (fun _ _ => False) _ (fun _ => tidy_upto (fun k => k = key \/ key = k) foreign)); [| |done].
    + destruct (bool_decide _); [apply wp_modify; by apply tidy_pop_owner|]. apply wp_ret. eapply tidy_weaken; [|done|exact Ht2]. by right.
    + intros _ d3 H3. apply wp_bind. eapply wp_mono; [eapply (release_lease_wp (fun k => k = key \/ key = k) (fun _ => False)); [|exact H3]| |done].
      * by intros k Hk [?|?].
      * cbn beta. intros _ d4 (H4 & _). by apply wp_raise.
Qed.

Lemma acquire_tidy wait current key dm now : preserves tidy (acquire wait current key dm now).
Proof.
  apply preserves_wp. intros d Ht. unfold acquire. apply wp_bind, wp_get, wp_bind, wp_lift; [|done]. intros x _.
  apply wp_bind, wp_lift; [|done]. intros [q stage] _. apply wp_bind, wp_lift; [|done]. intros a _.
  apply wp_bind, wp_lift; [|done]. intros eligible _. apply wp_bind, wp_raise_if; [intros _|done]. apply wp_bind, wp_raise_if; [intros _|done].
  apply wp_bind. eapply wp_mono; [by apply keep_owner_tidy| |done]. cbn beta. intros [[i|] lease] d1 [Ht1 Hk].
  - destruct Hk as [Ho Hl]. destruct lease as [[e l]|].
    + apply settle_owner_tidy. split; [|split; [by exists e|]].
      * eapply tidy_weaken; [| |exact Ht1]; done.
      * destruct (td_leased _ _ _ Ht1 _ _ _ Hl) as [_ [[]|(j & Hj & Hs)]]. assert (j = i) as -> by congruence. done.
    + apply wp_bind, wp_get, wp_bind, wp_lift; [|done]. intros h Hh%get_handle_site. apply wp_bind.
      eapply wp_mono; [apply acquire_lease_wp; exact Ht1| |by intros ? ? [? _]]. cbn beta. intros [l|reason] d2 [T2 Hr]; [|by apply wp_ret].
      destruct Hr as (Hq & Hn & Hl2). apply wp_bind, wp_modify, settle_owner_tidy. by eapply grant_leased.
  - apply wp_bind, wp_get, wp_bind. eapply wp_mono; [by apply find_owner_tidy| |done]. cbn beta.
    intros [[i [e l]]|reason] d2 Hf; [|by apply wp_ret]. by apply settle_owner_tidy.
Qed.

(** ** Releasing *)

Lemma tidy_pop_both key d : tidy d ->
  tidy_upto (fun _ => False) (fun q x => (exists e l, od_get key d.(d_task_leases) = Some (e, l) /\ q = strip l.(tl_query_id) /\ x = lease_name l) \/ foreign q x)
    (d <| d_partition_owners ::= od_pop key |> <| d_task_leases ::= od_pop key |>).
Proof.
  intros Ht. pose proof (tidy_pop_lease _ _ key _ (tidy_pop_owner (fun _ => False) foreign key d Ht)) as Hp.
  eapply tidy_weaken; [| |exact Hp]; [|done]. intros k e l Hk [->|[]]. cbn in Hk. rewrite od_get_pop_eq in Hk by apply (td_wf _ _ _ Ht). done.
Qed.

Lemma release_owner_tidy key t : preserves tidy (release_owner key t).
Proof.
  apply preserves_wp. intros d Ht. unfold release_owner. apply wp_bind, wp_get, wp_bind, wp_modify.
  pose proof (tidy_pop_both key d Ht) as H1. set (d1 := set_field d_task_leases _ _) in *. set (L := fun q x => _) in H1.
  apply wp_bind, (release_waiter_wp (fun _ => False) L); [done|]. apply wp_bind, (release_window_wp (fun _ => False) L); [done|].
  intros _ d2 H2 _ _ _ _. apply wp_bind, wp_try_finally.
  assert (Hret : forall t (Q : unit -> Driver A -> Prop) E d3, tidy_upto (fun _ => False) L d3 -> (forall d', tidy d' -> Q tt d') ->
    wp (match od_get key (d_task_leases d) with Some (_, l) => return_lease l t | None => sret tt end) Q E d3).
  { intros t0 Q E d3 H3 HQ. destruct (od_get key (d_task_leases d)) as [[e l]|] eqn:El.
    - destruct (td_leased _ _ _ Ht _ _ _ El) as [Hne _].
      eapply wp_mono; [apply (return_lease_wp (fun _ => False) foreign); [done|]| |done]; [|cbn beta; intros [] d4 [H4 _]; by apply HQ].
      eapply tidy_weaken; [| |exact H3]; [done|]. intros q y [(e' & l' & [= <- <-] & -> & ->)|?]; [by left|by right].
    - apply wp_ret, HQ. eapply tidy_weaken; [| |exact H3]; [done|]. intros q y [(e & l & He & _)|?]; [congruence|done]. }
  assert (Hp : wp (match od_get key (d_partition_owners d) with
      | Some i => on_pressure i (Pressure.release key.1.1 key.1.2 key.2) | None => sret tt end)
    (fun _ => tidy_upto (fun _ => False) L) (fun _ => tidy_upto (fun _ => False) L) d2).
  { destruct (od_get key (d_partition_owners d)); [|by apply wp_ret]. by apply (pressure_wp (fun _ => False) L). }
  eapply wp_mono; [exact Hp|..]; cbn beta.
  - intros _ d3 H3. apply Hret; [done|]. intros d4 H4. by apply wp_ret.
  - intros e d3 H3. by apply Hret.
Qed.

Lemma tidy_partition key f : preserves tidy (on_partition key f).
Proof.
  unfold on_partition. apply preserves_modify. intros d Ht. destruct (od_get key.1 (d_fragments d)) as [fr|] eqn:Ef; [|done].
  destruct Ht as [H1 H2 H3 H4 H5 H6 H7 H8]. constructor; try done. intros k f' Hin. cbn in Hin.
  apply od_set_elem in Hin as [Hin| ->]; [by apply (H2 k)|]. apply od_get_elem in Ef. by apply (H2 _ _ Ef).
Qed.

Lemma tidy_quarantine failed : preserves tidy (quarantine failed).
Proof.
  unfold quarantine. apply preserves_for. intros id. apply preserves_modify. intros d Ht. destruct (od_get id _); [|done].
  apply (tidy_ext (fun _ => False) foreign d); try done. by apply sites_alter.
Qed.

#[export] Instance tidy_futures : FutureFrame tidy.
Proof. split; intros d f Ht; by apply (tidy_ext (fun _ => False) foreign d). Qed.

Lemma tidy_window B (m : ST Window B) : preserves tidy (on_window m).
Proof. apply preserves_wp. intros d Ht. eapply wp_mono; [apply any_window_wp; exact Ht|..]; by intros ? ? [? _]. Qed.

Lemma tidy_waiter key : preserves tidy (release_waiter key).
Proof. apply preserves_wp. intros d Ht. by apply (release_waiter_wp (fun _ => False) foreign). Qed.

#[export] Instance tidy_calls : CallFrame tidy.
Proof.
  split.
  - exact tidy_window.
  - exact tidy_waiter.
  - exact tidy_partition.
  - exact acquire_tidy.
  - exact release_owner_tidy.
  - exact tidy_quarantine.
  - intros. by apply ff_pending.
  - exact (futures_set_outcome tidy tidy_window tidy_waiter).
  - exact (futures_cancel_future tidy tidy_window tidy_waiter).
  - exact (futures_request_async tidy tidy_window tidy_waiter).
Qed.

(** ** The end of a query *)

Definition own {V} (query : string) : list (PartitionKey * V) -> list (PartitionKey * V) := List.filter (fun e => String.eqb e.1.1.1 query).
Definition others {V} (query : string) : list (PartitionKey * V) -> list (PartitionKey * V) := List.filter (fun e => negb (String.eqb e.1.1.1 query)).

Lemma others_get {V} query (l : list (PartitionKey * V)) key : od_get key (others query l) = if String.eqb key.1.1 query then None else od_get key l.
Proof.
  induction l as [|[k v] l IH]; cbn; [by destruct (String.eqb _ _)|]. destruct (String.eqb k.1.1 query) eqn:E; cbn.
  - rewrite IH. destruct (String.eqb key.1.1 query) eqn:E'; [done|]. rewrite decide_False; [done|]. intros ->. congruence.
  - destruct (decide (key = k)) as [->|]; [by rewrite E|done].
Qed.

Lemma others_wf {V} query (l : list (PartitionKey * V)) : od_wf l -> od_wf (others query l).
Proof. intros Hw. eapply sublist_NoDup; [exact Hw|]. apply (fmap_sublist fst), filter_sublist. Qed.

(** The leases that are still to be returned, beside those of others. *)
Definition waiting (l : list (PartitionKey * (Z * TaskLease))) (q : string) (x : string * string) : Prop :=
  (exists e, e ∈ l /\ q = strip e.2.2.(tl_query_id) /\ x = lease_name e.2.2) \/ foreign q x.

Lemma tidy_others query d : tidy d ->
  tidy_upto (fun _ => False) (waiting (own query d.(d_task_leases)))
    (d <| d_partition_owners ::= others query |> <| d_task_leases ::= others query |>).
Proof.
  intros [H1 H2 H3 H4 H5 H6 H7 H8]. constructor; try done.
  - split; [apply H4|]. split; apply others_wf, H4.
  - intros key i Hk. cbn in Hk. rewrite others_get in Hk. destruct (String.eqb _ _); [done|]. by apply (H6 key).
  - intros key e l Hk. cbn in Hk. rewrite others_get in Hk. destruct (String.eqb _ _) eqn:E; [done|].
    destruct (H7 key e l Hk) as [Hne [[]|(i & Hi & Hs)]]. split; [done|]. right. exists i. split; [|done]. cbn. by rewrite others_get, E.
  - intros q a x Hq Hx. destruct (H8 q a x Hq Hx) as [(key & e & l & Hk & Hn & Hs)|?]; [|by right; right]. destruct (String.eqb key.1.1 query) eqn:E.
    + right. left. exists (key, (e, l)). split; [|done]. unfold own. apply list_elem_of_In, filter_In. split; [|done]. by apply list_elem_of_In, od_get_elem.
    + left. exists key, e, l. cbn. by rewrite others_get, E.
Qed.

Lemma return_all_wp l d : Forall (fun e : PartitionKey * (Z * TaskLease) => strip e.2.2.(tl_query_id) <> "") l ->
  tidy_upto (fun _ => False) (waiting l) d ->
  wp (sfor l (fun e => return_lease e.2.2 false)) (fun _ d' => tidy d' /\ d'.(d_task_leases) = d.(d_task_leases)) (fun _ _ => False) d.
Proof.
  intros Hl. revert d. induction Hl as [|e l Hne Hl IH]; intros d Ht; cbn [sfor].
  - apply wp_ret. split; [|done]. eapply tidy_weaken; [| |exact Ht]; [done|]. intros q x [(e & He & _)|?]; [by apply elem_of_nil in He|done].
  - apply wp_bind. eapply wp_mono; [apply (return_lease_wp (fun _ => False) (waiting l)); [done|]| |done].
    + eapply tidy_weaken; [| |exact Ht]; [done|]. intros q x [(e' & [->|He]%elem_of_cons & Hq & Hx)|?]; [by left| |by right; right]. right. left. by exists e'.
    + cbn beta. intros _ d1 (H1 & E1 & _). eapply wp_mono; [by apply IH| |done]. cbn beta. intros _ d2 [H2 E2]. split; [done|congruence].
Qed.

Lemma release_all_wp L l d : Forall (fun e : PartitionKey * nat => (e.2 < length (sites d))%nat /\
    is_ok (Pressure.partition_reservation_key e.1.1.1 e.1.1.2 e.1.2) = true) l -> tidy_upto (fun _ => False) L d ->
  wp (sfor l (fun e => on_pressure e.2 (Pressure.release e.1.1.1 e.1.1.2 e.1.2)))
    (fun _ d' => tidy_upto (fun _ => False) L d' /\ d'.(d_task_leases) = d.(d_task_leases)) (fun _ _ => False) d.
Proof.
  revert d. induction l as [|e l IH]; intros d Hl Ht; cbn [sfor]; [by apply wp_ret|]. apply Forall_cons in Hl as [[Hi Hk] Hl].
  set (m := on_pressure e.2 (Pressure.release e.1.1.1 e.1.1.2 e.1.2)).
  assert (Hm : exists d', m d = (Ok tt, d')).
  { unfold m, on_pressure. unfold sites in Hi. rewrite length_map in Hi. destruct (lookup_lt_is_Some_2 _ _ Hi) as [h ->].
    unfold Pressure.release, sbind, slift. destruct (Pressure.partition_reservation_key _ _ _); [by eexists|done]. }
  destruct Hm as [d' Hm]. pose proof (pressure_wp (fun _ => False) L e.2 (Pressure.release e.1.1.1 e.1.1.2 e.1.2)
    (fun _ d' => tidy_upto (fun _ => False) L d' /\ d'.(d_task_leases) = d.(d_task_leases) /\ sites d' = sites d) (fun _ _ => True) d Ht) as Hp.
  apply (wp_use _ _ _ _ _ _ (Hp ltac:(done) ltac:(done))) in Hm as Hd. destruct Hd as (H1 & E1 & E2).
  unfold wp. rewrite (sbind_eq _ _ _ _ _ Hm). fold (wp (sfor l (fun e => on_pressure e.2 (Pressure.release e.1.1.1 e.1.1.2 e.1.2)))
    (fun _ d' => tidy_upto (fun _ => False) L d' /\ d'.(d_task_leases) = d.(d_task_leases)) (fun _ _ => False) d').
  rewrite <- E1. apply IH; [by rewrite E2|done].
Qed.

Lemma release_query_wp query d : tidy d ->
  wp (release_query query) (fun _ d' => tidy d' /\ forall key e l, strip query <> "" -> od_get key d'.(d_task_leases) = Some (e, l) -> key.1.1 <> strip query)
    (fun _ => tidy) d.
Proof.
  intros Ht. unfold release_query. destruct (String.eqb_spec (strip query) ""); [by apply wp_ret|]. set (q := strip query) in *.
  apply wp_bind. eapply wp_mono; [apply any_window_wp; exact Ht| |by intros ? ? [? _]]. cbn beta. intros _ d1 [H1 T1].
  apply wp_bind. unfold release_query_waiters. apply wp_bind, wp_get, wp_bind, wp_modify. rewrite (td_waiters _ _ _ H1). cbn [List.filter od_values map sfold].
  set (d2 := d1 <| d_task_waiters ::= _ |>). apply wp_ret. assert (H2 : tidy d2).
  { apply (tidy_ext (fun _ => False) foreign d1); try done. unfold d2. cbn. by rewrite (td_waiters _ _ _ H1). }
  apply wp_bind, wp_get, wp_bind, wp_modify. pose proof (tidy_others q d2 H2) as H3.
  change (set_field d_task_leases _ _) with (d2 <| d_partition_owners ::= others q |> <| d_task_leases ::= others q |>).
  set (d3 := set_field d_task_leases _ _) in *. apply wp_bind. eapply wp_mono; [apply (release_all_wp (waiting (own q (d_task_leases d2)))); [|exact H3]| |done].
  - apply Forall_forall. intros [key i] Hin. apply list_elem_of_In, filter_In in Hin as [Hin _]. apply list_elem_of_In in Hin.
    apply (td_owners _ _ _ H2 key i). apply od_elem_get; [apply (td_wf _ _ _ H2)|done].
  - cbn beta. intros _ d4 [H4 E4]. apply wp_bind. eapply wp_mono; [apply return_all_wp; [|exact H4]| |done].
    + apply Forall_forall. intros [key [e l]] Hin. apply list_elem_of_In, filter_In in Hin as [Hin _]. apply list_elem_of_In in Hin.
      eapply (td_leased _ _ _ H2 key e l), od_elem_get; [apply (td_wf _ _ _ H2)|done].
    + cbn beta. intros _ d5 [H5 E5]. apply wp_ret. split; [done|]. intros key e l _ Hk. rewrite E5, E4 in Hk. cbn in Hk. rewrite others_get in Hk.
      destruct (String.eqb_spec key.1.1 q); done.
Qed.

(** ** Every call *)

(** Fragments are registered with their resource identity, managers before
    they have granted anything. *)
Definition proper_call (c : call A) (d : Driver A) : Prop :=
  match c with
  | RegisterFragment _ f => is_ok (resource_identity_from_context f.(fr_context)) = true
  | RegisterManager _ a => au_ok a /\ forall x, ~ au_live a x
  | _ => True
  end.

Lemma tidy_pressure {B} i (m : ST Pressure B) : preserves tidy (on_pressure i m).
Proof. intros d Ht. by apply pressure_tidy. Qed.

Lemma tidy_managers d ms : tidy d -> od_wf ms ->
  (forall q a, od_get q ms = Some a -> od_get q d.(d_managers) = Some a \/ au_ok a /\ forall x, ~ au_live a x) ->
  tidy (d <| d_managers := ms |>).
Proof.
  intros [H1 H2 H3 H4 H5 H6 H7 H8] Hw Hget. constructor; try done.
  - split; [done|apply H4].
  - intros q a Hq. destruct (Hget q a Hq) as [?|[? _]]; [by apply (H5 q)|done].
  - intros q a x Hq Hx. destruct (lookup_named _ _ _ Hq) as [Hne Hg]. cbn in Hg. destruct (Hget _ _ Hg) as [Hold|[_ Hno]]; [|by destruct (Hno x)].
    apply (H8 q a x); [|done]. unfold lookup_manager, raise_if. by rewrite (proj2 (String.eqb_neq _ _) Hne), Hold.
Qed.

Lemma tidy_new_handle capacity node worker : preserves tidy (new_handle capacity node worker).
Proof.
  apply preserves_wp. intros d Ht. unfold new_handle. wp_run; try done.
  rename select (String.eqb (strip node) "" = false) into Hne. apply String.eqb_neq in Hne.
  destruct Ht as [G1 G2 G3 G4 G5 G6 G7 G8]. unfold sites in *.
  constructor; try done; unfold sites; cbn [d_handles set_field]; rewrite map_app; cbn [map h_node_id].
  - apply Forall_app. split; [done|]. apply Forall_singleton. by rewrite strip_idemp.
  - intros key i Hk. destruct (G6 key i Hk) as [Hi ?]. split; [rewrite length_app; lia|done].
  - intros key e l Hk. destruct (G7 key e l Hk) as [? [[]|(i & Hi & Hs)]]. split; [done|]. right. exists i. split; [done|]. by apply lookup_app_l_Some.
Qed.

Lemma tidy_lifecycle q : preserves tidy (close_registry q) /\ preserves tidy (begin_operation q) /\ preserves tidy (end_operation q) /\
  preserves tidy (begin_teardown q) /\ preserves tidy (end_teardown q).
Proof.
  unfold close_registry, begin_operation, end_operation, begin_teardown, end_teardown.
  split_and!; apply preserves_wp; intros d Ht; wp_run; by apply (tidy_ext (fun _ => False) foreign d).
Qed.

Lemma tidy_query q : preserves tidy (release_query q).
Proof. apply preserves_wp. intros d Ht. eapply wp_mono; [by apply release_query_wp| |done]. by intros ? ? [? _]. Qed.

Lemma tidy_terminal i a : preserves tidy (task_terminal i a).
Proof.
  unfold task_terminal. off; [|apply tidy_pressure]. unfold release_owner_for_attempt. off.
Qed.

Lemma tidy_fragments d fs : tidy d -> (forall k f, (k, f) ∈ fs -> (k, f) ∈ d.(d_fragments) \/ is_ok (resource_identity_from_context f.(fr_context)) = true) ->
  tidy (d <| d_fragments := fs |>).
Proof. intros [H1 H2 H3 H4 H5 H6 H7 H8] Hf. constructor; try done. intros k f Hin. destruct (Hf k f Hin); [by apply (H2 k)|done]. Qed.

Lemma tidy_call wait_period no_matching_period c d : proper_call c d -> tidy d -> tidy (do_call wait_period no_matching_period c d).2.
Proof.
  intros Hc Ht. destruct c; try (by apply (calls_frame tidy));
    try (refine ((_ : preserves tidy (do_call wait_period no_matching_period _)) d Ht); cbn [do_call]; unfold forget;
      first [apply tidy_lifecycle | apply tidy_pressure | apply tidy_terminal | apply preserves_bind; [|intros; apply preserves_ret];
        first [apply tidy_lifecycle | apply tidy_new_handle | apply tidy_query | apply tidy_pressure]]).
  - apply (tidy_fragments d (od_set fragment f (d_fragments d))); [done|]. intros k f' [?| ->]%od_set_elem; [by left|by right].
  - apply (tidy_fragments d (od_pop fragment (d_fragments d))); [done|]. intros k f' ?%od_pop_elem. by left.
  - apply (tidy_managers d (od_set query a (d_managers d))); [done|apply od_wf_set, (td_wf _ _ _ Ht)|]. intros q b. rewrite od_get_set.
    destruct (decide _); [intros [= <-]; by right|by left].
  - apply (tidy_managers d (od_pop query (d_managers d))); [done|apply od_wf_pop, (td_wf _ _ _ Ht)|]. intros q b Hb. left.
    destruct (decide (query = q)) as [<-|]; [by rewrite od_get_pop_eq in Hb by apply (td_wf _ _ _ Ht)|by rewrite od_get_pop_ne in Hb].
  - by apply (tidy_ext (fun _ => False) foreign d).
  - refine ((_ : preserves tidy (release_reservation key)) d Ht). unfold release_reservation. off. apply tidy_pressure.
  - refine ((_ : preserves tidy (do_call wait_period no_matching_period (UpdateClass key class))) d Ht). cbn [do_call]. unfold forget, update_execution_class.
    off. apply tidy_pressure.
Qed.
(** ** The next generation of a query, and other clients *)

Lemma tidy_drop q : preserves tidy (drop_registry q).
Proof.
  apply preserves_wp. intros d Ht. unfold drop_registry. destruct (String.eqb q ""); [by apply wp_ret|].
  apply wp_bind. eapply wp_mono; [apply (preserves_wp tidy); [|exact Ht]| |done].
  { unfold quiesce. destruct (String.eqb _ _); [apply preserves_ret|]. apply preserves_bind; [apply tidy_lifecycle|intros _].
    apply preserves_bind; [apply preserves_get|intros]. apply preserves_raise_if. }
  cbn beta. intros _ d1 H1. apply wp_bind. eapply wp_mono; [apply (preserves_wp tidy); [apply tidy_query|exact H1]| |done].
  cbn beta. intros _ d2 H2. apply wp_bind, wp_get, wp_bind, wp_modify.
  pose proof (tidy_fragments d2 (List.filter (fun e => negb (String.eqb e.1.1 q)) (d_fragments d2)) H2) as H3.
  assert (Hin : forall k f, (k, f) ∈ List.filter (fun e : (string * string) * Fragment => negb (String.eqb e.1.1 q)) (d_fragments d2) -> (k, f) ∈ d_fragments d2).
  { intros k f Hk. apply list_elem_of_In, filter_In in Hk as [Hk _]. by apply list_elem_of_In. }
  specialize (H3 ltac:(by left; apply Hin)). apply wp_bind, wp_get, wp_bind, wp_modify. set (d3 := set_field d_schedulers _ _).
  assert (H4 : tidy d3) by (revert H3; by apply tidy_ext). apply wp_bind.
  eapply wp_mono; [apply (preserves_wp tidy); [|exact H4]| |done]; [apply preserves_for; intros; apply tidy_pressure|].
  cbn beta. intros _ d4 H5. apply (preserves_wp tidy); [|exact H5]. apply preserves_for. intros i. apply preserves_bind; [|intros; apply preserves_ret].
  exact (futures_set_outcome tidy tidy_window tidy_waiter i Cancelled).
Qed.

Lemma tidy_open elsewhere q : preserves tidy (open_registry elsewhere q).
Proof.
  apply preserves_wp. intros d Ht. unfold open_registry. wp_run; try done. by apply (tidy_ext (fun _ => False) foreign d).
Qed.

(** A call of another client: what it is granted is [foreign]. *)
Lemma tidy_other {B} q (op : ST A B) d : tidy d -> (forall a, au_ok a -> au_ok (op a).2) ->
  (forall a, lookup_manager q d = Ok a -> forall x, au_live (op a).2 x -> au_live a x \/ foreign (strip q) x) ->
  tidy (with_manager q op d).2.
Proof.
  intros Ht Hok Hlive. unfold with_manager. destruct (lookup_manager q d) as [a|e] eqn:Eq; [|done].
  destruct (lookup_named _ _ _ Eq) as [_ Hget]. specialize (Hok a (td_managers _ _ _ Ht _ _ Hget)). specialize (Hlive a eq_refl).
  destruct (op a) as [r a']. eapply tidy_manager; [exact Ht|exact Eq|done|..]; [|done].
  intros x Hx. destruct (Hlive x Hx) as [Hold|?]; [|by right]. by apply (td_live _ _ _ Ht q a).
Qed.
End Leases.
