(* ===== verification/ResourceAuthority.v ===== *)
(** * The resource manager as the placement's authority

    The manager of [ResourceManager] offers what the placement of partitions
    asks of it, and keeps the laws that the placement relies on. *)

From S2P Require Import Prelude PyStr PyVal PyNum FteTypes FteState SplitAssigner Partition QueryGraph ResourceState ResourcePlacement ResourceManager ResourceBooks ResourceSteps ResourceInv ResourceCalls ResourceGrants ResourceLimits ResourceErrors ResourceHistories ResourceSearch SubmissionWindow WorkerPressure FragmentPlacement PlacementLeases.

#[local] Open Scope string_scope.
#[local] Open Scope list_scope.
#[local] Open Scope Z_scope.

(** ** The node that was asked for *)

Section Node.
Context (p : Plan) (m : Manager).

(** [n] is the node of the request, if it names one. *)
Definition as_requested (req : option string) (n : string) : Prop := strip_node req = "" \/ n = strip_node req.

Lemma select_task_node_requested req c allowed res n f : select_task_node m req c allowed res = Ok (n, None, f) -> as_requested req n.
Proof.
  unfold select_task_node. destruct (_ && _); [done|]. set (static := List.filter _ _). destruct (bool_decide _); [done|].
  intros H. apply rbind_ok in H as ([available debt] & Hav & H).
  assert (Hin : forall n r, (n, r) ∈ available -> as_requested req n).
  { apply (rfoldM_inv (fun acc => forall n r, (n, r) ∈ acc.1 -> as_requested req n) _ _ _ _ Hav); [intros ? ? Hnil; by apply not_elem_of_nil in Hnil|].
    intros [acc db] [node cap] acc' Hst IH Hs. subst static. apply list_elem_of_In, filter_In in Hst as [Hst Hf].
    rewrite !andb_true_iff in Hf. destruct Hf as [[_ Hreq] _]. apply rbind_ok in Hs as (usage & _ & Hs).
    destruct (negb (Res.fits_within usage cap)); [by injection Hs as <-|]. apply rbind_ok in Hs as (rest & _ & [= <-]).
    cbn [fst]. destruct (Res.fits_within c rest); [|exact IH]. intros n' r' [Hn'|Hn'%list_elem_of_singleton]%elem_of_app; [by eapply IH|].
    injection Hn' as -> _. apply orb_true_iff in Hreq as [?%String.eqb_eq|?%String.eqb_eq]; [by left|by right]. }
  destruct (bool_decide _); [done|]. apply rbind_ok in H as (safe & Hsafe & H). apply rbind_ok in H as (best & Hbest & H).
  destruct best as [[n' r]|]; [|done]. injection H as -> _. apply py_min_elem in Hbest. apply (Hin n r).
  destruct (bool_decide _); [by injection Hsafe as <-|].
  apply (rfoldM_inv (fun acc => forall x, x ∈ acc -> x ∈ available) _ _ _ _ Hsafe); [intros ? Hnil; by apply not_elem_of_nil in Hnil| |done].
  intros acc x acc' Hx IH Hs. apply rbind_ok in Hs as (b & _ & [= <-]). destruct b; [|done].
  intros y [Hy|Hy%list_elem_of_singleton]%elem_of_app; [by apply IH|by subst].
Qed.

Lemma select_pair_requested req task credit res tn cn f :
  select_task_and_credit_nodes m req task credit res = Ok (tn, cn, None, f) -> as_requested req tn.
Proof.
  unfold select_task_and_credit_nodes. destruct (_ && _); [done|]. set (tns := od_keys _). destruct (bool_decide _); [done|].
  set (cns := od_keys _). destruct (bool_decide _); [done|]. intros H. apply rbind_ok in H as ([found debt] & Hf & H).
  assert (Hall : forall pr, pr ∈ found -> as_requested req pr.(pp_task_node)).
  { apply (rfoldM_inv (fun acc => forall pr, pr ∈ acc.1 -> as_requested req pr.(pp_task_node)) _ _ _ _ Hf); [intros ? Hnil; by apply not_elem_of_nil in Hnil|].
    intros [acc db] [a b] acc' Hab IH Hs. apply list_elem_of_In, in_prod_iff in Hab as [Ha _]. unfold try_pair in Hs.
    apply rbind_ok in Hs as (oc & _ & Hs). apply rbind_ok in Hs as ([rem indebt] & _ & Hs). destruct rem as [rem|]; [|by injection Hs as <-].
    apply rbind_ok in Hs as (ok & _ & [= <-]). cbn [fst]. destruct ok; [|exact IH].
    intros pr [Hpr|Hpr%list_elem_of_singleton]%elem_of_app; [by apply IH|]. subst pr. cbn [pp_task_node].
    apply in_map_iff in Ha as ([a' cap] & <- & Ha). apply filter_In in Ha as [_ Ha]. apply andb_true_iff in Ha as [_ Ha].
    apply orb_true_iff in Ha as [?%String.eqb_eq|?%String.eqb_eq]; [by left|by right]. }
  apply rbind_ok in H as (best & Hbest & H). destruct best as [pr|]; [|done]. injection H as <- _ _. apply py_min_elem in Hbest. by apply Hall.
Qed.

Lemma place_task_requested request s dm free borrowed template admission res reason fatal plan :
  place_task p m request s dm free borrowed template admission res = Ok (reason, fatal, plan) -> usable reason ->
  as_requested request.(tr_node_id) plan.(pl_node_id).
Proof.
  intros H Hus. unfold place_task in H. apply rbind_ok in H as ([[[node why] fat] nc] & Hsel & H).
  assert (Hnone : why = None /\ as_requested request.(tr_node_id) node).
  { destruct template as [[[e r0] r]|].
    - apply rbind_ok in Hsel as ([[[tn cn] w] f'] & Hs & [= -> -> -> _]). destruct why as [why|].
      + injection H as <- _ _. exfalso. by eapply select_pair_reason.
      + split; [done|by eapply select_pair_requested].
    - apply rbind_ok in Hsel as ([[n w] f'] & Hs & [= -> -> -> _]). destruct why as [why|].
      + injection H as <- _ _. exfalso. by eapply select_task_node_reason.
      + split; [done|by eapply select_task_node_requested]. }
  destruct Hnone as [-> Hreq]. apply rbind_ok in H as (actor & _ & H). by apply soft_verdict_plan in H as ->.
Qed.

Lemma verdict_requested request h reason fatal plan :
  task_block_reason p m request h = Ok (reason, fatal, plan) -> usable reason ->
  request.(tr_query_id) = p.(p_graph).(g_query_id) /\ as_requested request.(tr_node_id) plan.(pl_node_id).
Proof.
  intros H Hus. unfold task_block_reason in H.
  destruct (m_cancelled m); [not_usable H Hus|].
  destruct (negb _); [not_usable H Hus|].
  destruct (String.eqb_spec request.(tr_query_id) p.(p_graph).(g_query_id)) as [Hq|]; cbn [negb] in H; [|not_usable H Hus].
  split; [done|]. destruct (od_get (tr_stage_id request) m.(m_stages)) as [st|]; [|not_usable H Hus].
  destruct (ss_completed st); [not_usable H Hus|].
  destruct (negb _); [not_usable H Hus|].
  destruct (_ && _); [not_usable H Hus|].
  destruct (_ || _); [not_usable H Hus|].
  destruct (_ && _); [not_usable H Hus|].
  destruct (_ && _); [not_usable H Hus|].
  destruct (match sp_max_concurrency _ with Some _ => _ | None => _ end); [not_usable H Hus|].
  assert (Hadm : forall free, admit_task p m request (ss_spec st) free = Ok (reason, fatal, plan) -> as_requested request.(tr_node_id) plan.(pl_node_id)).
  { clear H. intros free H. unfold admit_task in H. destruct (_ <? 0); [not_usable H Hus|].
    apply rbind_ok in H as (res & _ & H). apply rbind_ok in H as (cm & _ & H).
    destruct (Res.exceeded_dimensions _ _); [|not_usable H Hus].
    unfold fit_task in H. apply rbind_ok in H as (usage & _ & H). apply rbind_ok in H as (debt & _ & H).
    destruct (negb _); [not_usable H Hus|]. apply rbind_ok in H as (borrowed & _ & H).
    apply rbind_ok in H as (template & _ & H). apply rbind_ok in H as (adm0 & _ & H). apply rbind_ok in H as (adm & _ & H).
    apply rbind_ok in H as (after & _ & H). destruct (Res.exceeded_dimensions after (query_limits m)) as [|dim dims].
    2: { injection H as <- _ _. destruct Hus as [?|Hs]; [done|]. by destruct (bool_decide _), dim. }
    apply rbind_ok in H as (rv & _ & H). apply rbind_ok in H as (rm & _ & H).
    destruct (negb rm); [not_usable H Hus|]. by eapply place_task_requested. }
  destruct (Stage.is_actor _); [destruct (bool_decide _); [not_usable H Hus|]|]; by eapply Hadm.
Qed.
End Node.

(** ** The instance *)

Section Instance.
Context (uuid : nat -> string).

(** A manager with the plan it was created on. *)
Definition Managed : Type := Plan * Manager.

Definition managed {B} (op : Plan -> ST Manager B) : ST Managed B := fun '(p, m) => let '(r, m) := op p m in (r, (p, m)).

#[export] Instance manager_authority : Authority Managed := {|
  au_epoch a := a.2.(m_epoch);
  au_eligible_nodes stage a := task_eligible_node_ids a.1 a.2 stage;
  au_try_acquire r := managed (fun p => try_acquire_task_descriptor p uuid r);
  au_release terminal id attempt := managed (fun _ => release_lease id attempt terminal);
  au_remove_waiter task attempt := managed (fun _ => remove_task_waiter task attempt);
|}.

Context (Hinj : forall a b, uuid a = uuid b -> a = b) (Hne : forall n, uuid n <> "").

(** A plan as the constructor derives it, and a manager that is in order. *)
Definition in_order (a : Managed) : Prop :=
  (forall id s, od_get id (plan_specs a.1) = Some s -> 0 <= s.(sp_actor_prefetch_depth) /\ 0 <= Stage.output_window_bytes s) /\ good a.1 uuid a.2.

Definition holds (a : Managed) (x : string * string) : Prop :=
  exists l, od_get x.1 a.2.(m_task_leases) = Some l /\ l.(tl_attempt_id) = x.2.

Lemma holds_same p m m' x : m'.(m_task_leases) = m.(m_task_leases) -> holds (p, m') x -> holds (p, m) x.
Proof. unfold holds. cbn. by intros ->. Qed.

(** What a call of [try_acquire_task_descriptor] does to the leases. *)
Lemma descriptor_leases p r m : in_order (p, m) ->
  wp (try_acquire_task_descriptor p uuid r)
    (fun g m' => if g.(tg_granted)
       then exists l, g.(tg_lease) = Some l /\ l.(tl_query_id) = r.(tr_query_id) /\ as_requested r.(tr_node_id) l.(tl_node_id) /\
              m'.(m_task_leases) = od_set l.(tl_lease_id) l m.(m_task_leases)
       else m'.(m_task_leases) = m.(m_task_leases))
    (fun _ m' => m'.(m_task_leases) = m.(m_task_leases)) m.
Proof using Hinj Hne.
  intros [Hplan Hm]. cbn [fst snd] in *. unfold try_acquire_task_descriptor. apply wp_bind.
  destruct (neutral_wake_stage p r m) as [Hsame _]. destruct (kept_wake p m.(m_allocation) None r m) as [_ _ Hw]; [by constructor; [| |apply Hm]|].
  unfold wp at 1. assert (Hl : m_task_leases (wake_stage p r m).2 = m_task_leases m) by (by destruct Hsame as ((_ & _ & ? & _) & _)).
  destruct (wake_stage p r m) as [[u|e] m1]; cbn [fst snd] in *; [|done]. rewrite <- Hl.
  pose proof (good_same p uuid _ _ Hsame Hw Hm) as Hm1. clear Hsame Hw Hm Hl m u.
  apply wp_bind, wp_get. destruct (od_mem _ _); [done|]. apply wp_bind, wp_lift; [|done]. intros [[reason fatal] plan] Hv. destruct fatal; [done|].
  apply wp_bind, wp_lift; [|done]. intros rank _. apply wp_bind, wp_lift; [|done]. intros es _. apply wp_bind, wp_lift; [|done].
  assert (Hgrant : forall liveness, usable reason -> wp (let! g := grant_task p uuid r plan liveness in with_epoch g)
    (fun g m' => if g.(tg_granted)
       then exists l, g.(tg_lease) = Some l /\ l.(tl_query_id) = r.(tr_query_id) /\ as_requested r.(tr_node_id) l.(tl_node_id) /\
              m'.(m_task_leases) = od_set l.(tl_lease_id) l m1.(m_task_leases)
       else m'.(m_task_leases) = m1.(m_task_leases))
    (fun _ m' => m'.(m_task_leases) = m1.(m_task_leases)) m1).
  { intros lv Hu. apply wp_bind. destruct (verdict_requested _ _ _ _ _ _ _ Hv Hu) as [Hq Hr].
    eapply wp_mono; [by eapply (grant_handed_out p uuid Hinj Hne Hplan m1 Hm1)| |by intros ? ? (_ & _ & ?)]. cbn beta.
    intros g m2 [_ (Hg & l & El & Elq & Eln & Hls)]. unfold with_epoch. apply wp_gets. cbn [tg_granted tg_lease]. rewrite Hg. exists l.
    split; [done|]. split; [congruence|]. split; [by rewrite Eln|done]. }
  intros [e|] _; [|done]. destruct (negb _); [done|]. destruct reason as [why|]; [|by apply Hgrant; left].
  destruct (is_soft _ _) eqn:Es; cbn [negb]; [|done]. destruct (queued_liveness_block _ _); [done|]. by apply Hgrant; right.
Qed.

#[export] Instance manager_laws : AuthorityLaws Managed.
Proof using Hinj Hne.
  refine {| au_ok := in_order; au_live := holds |}.
  - intros r [p m] Ha. pose proof (descriptor_leases p r m Ha) as Hw. destruct Ha as [Hplan Hm]. cbn [fst snd] in *.
    assert (Hgood : good p uuid (try_acquire_task_descriptor p uuid r m).2).
    { pose proof (call_good p uuid Hinj Hne Hplan (TryAcquireTaskDescriptor r) m Hm I) as [Hc _]. cbn [do_call] in Hc. unfold forget, sbind in Hc.
      by destruct (try_acquire_task_descriptor p uuid r m) as [[?|?] ?]. }
    cbn [au_try_acquire manager_authority]. unfold managed. unfold wp in Hw. destruct (try_acquire_task_descriptor p uuid r m) as [[g|e] m']; cbn [snd] in Hgood.
    + split; [by split|]. destruct (tg_granted g); [|intros x; by apply holds_same].
      destruct Hw as (l & El & Elq & Eln & Hls). exists l. split; [done|]. split; [done|]. split.
      * intros n En Hn. rewrite En in Eln. destruct Eln as [?|?]; [done|done].
      * intros [id att] (l' & Hl' & Hat). cbn in *. rewrite Hls, od_get_set in Hl'. destruct (decide _) as [<-|]; [|by right; exists l'].
        injection Hl' as <-. left. unfold lease_name. by rewrite Hat.
    + split; [by split|]. intros x. by apply holds_same.
  - intros terminal id attempt [p m] [Hplan Hm]. cbn [fst snd] in *.
    assert (Hgood : good p uuid (release_lease id attempt terminal m).2).
    { pose proof (call_good p uuid Hinj Hne Hplan (if terminal then ReleaseTaskLease id attempt else AbandonTaskLease id attempt) m Hm
        ltac:(by destruct terminal)) as [Hc _].
      destruct terminal; cbn [do_call] in Hc; unfold forget, sbind, release_task_lease, abandon_task_lease in Hc;
        by destruct (release_lease id attempt _ m) as [[?|?] ?]. }
    cbn [au_release manager_authority]. unfold managed.
    assert (Hw : wp (release_lease id attempt terminal) (fun _ m' => forall x, holds (p, m') x -> holds (p, m) x /\ x <> (id, attempt)) (fun _ _ => False) m).
    { unfold release_lease. apply wp_bind, wp_get. destruct (od_get id (m_task_leases m)) as [l|] eqn:El.
      - destruct (String.eqb_spec l.(tl_attempt_id) attempt) as [Ea|Ea]; cbn [negb].
        + apply wp_bind. eapply wp_mono; [apply (retire_wp p uuid id l terminal m); [apply (gd_inv _ _ _ Hm)|done]| |done]. cbn beta.
          intros _ m' (_ & _ & (Hls & _)). apply wp_ret. intros [id' att'] (l' & Hl' & Hat). cbn in *. rewrite Hls in Hl'.
          assert (Hne' : id <> id') by (intros <-; rewrite od_get_pop_eq in Hl'; [done|apply (co_good p uuid m Hm)]). rewrite od_get_pop_ne in Hl' by done.
          split; [by exists l'|]. intros [= <- _]. done.
        + apply wp_ret. intros [id' att'] Hx. split; [done|]. intros [= -> ->]. destruct Hx as (l' & Hl' & Hat). cbn in *. congruence.
      - apply wp_ret. intros [id' att'] Hx. split; [done|]. intros [= -> ->]. destruct Hx as (l' & Hl' & Hat). cbn in *. congruence. }
    unfold wp in Hw. destruct (release_lease id attempt terminal m) as [[b|e] m']; [|done].
    cbn [snd] in Hgood. split; [exact (conj Hplan Hgood)|exact Hw].
Defined.
End Instance.
