(* ===== verification/PlacementTheorems.v ===== *)
(** * Placement: theorems

    What the placement of partitions guarantees over every history of the
    driver, on any resource authority and on the resource managers of
    [ResourceManager]. *)

From S2P Require Import Prelude PyStr PyVal PyNum FteTypes FteState SplitAssigner Partition QueryGraph GraphTheorems ResourceState ResourcePlacement ResourceManager ResourceHistories ResourceStart ResourceTheorems SubmissionWindow WorkerPressure FragmentPlacement PlacementManager PlacementLeases ResourceAuthority PlacementBooks PlacementMemory PlacementFutures.

#[local] Open Scope string_scope.
#[local] Open Scope list_scope.
#[local] Open Scope Z_scope.

Import Placement PlacementManager PlacementCalls.

(** ** A driver with two workers

    A query with one worker stage, its resource manager and two workers on
    two nodes, one of which has room for a single task: for the witnesses and
    for corner cases. *)

(** A registry on which nothing has happened. *)
Definition fresh_driver {A} : Driver A := MkDriver [] [] [] ∅ [] [] [] [] [] [] [] [] [] [] [] ∅ [].

Definition scan_stage : string := "stage:q:node:1:fte".

Definition scan_graph : QueryExecutionGraph := MkGraph "q" "digest" [GraphTheorems.demo_stage "q:node:1:fte" "ray_worker" []] [scan_stage].

Definition scan_allocation : QueryAllocation :=
  MkAllocation (demo_res 8 800 128) [MkNodeAllocation "n1" (demo_res 1 100 32); MkNodeAllocation "n2" (demo_res 7 700 96)] [] 1.

Definition scan_start : Managed :=
  match NewManager.new scan_graph scan_allocation demo_ratio with Ok r => r | Raise _ => (demo_plan, demo_manager) end.

Lemma scan_created : created uid scan_graph scan_allocation demo_ratio scan_start.1 scan_start.2.
Proof.
  constructor; [apply uid_inj|apply uid_nonempty|vm_compute; reflexivity| |].
  - split; [vm_compute; reflexivity|]. intros n [->| ->%list_elem_of_singleton]%elem_of_cons []; vm_compute; discriminate.
  - assert (Hok : match NewManager.new scan_graph scan_allocation demo_ratio with Ok _ => true | Raise _ => false end = true) by (vm_compute; reflexivity).
    unfold scan_start. by destruct (NewManager.new scan_graph scan_allocation demo_ratio) as [[p m]|e].
Qed.

Definition scan_context : list (pyval * pyval) := pd_lit [("resource_query_id", PStr "q"); ("resource_stage_id", PStr scan_stage)].

Definition scan_partition (i : Z) : FteTaskPartition :=
  MkPartition (MkFteTaskId "q" 1 i) 0 4 4 None None (Some 60) STANDARD true false false false [] [] None [] PNone [] true false None None.

Definition scan_fragment : Fragment := MkFragment (Some scan_context) 1 [(0, scan_partition 0); (1, scan_partition 1); (2, scan_partition 2)].

Definition scan_key (i : Z) : PartitionKey := ("q", "f", i).

(** The manager, the fragment and the workers are registered. *)
Definition scan_setup : list (call Managed) :=
  [RegisterManager "q" scan_start; RegisterFragment ("q", "f") scan_fragment; RegisterScheduler "q";
   NewHandle 100 "n1" "w1"; NewHandle 200 "n2" "w2"].

Definition scan_demand : Demand := MkDemand (PInt 60) STANDARD None None.

(** Two partitions ask for a worker, and the attempt of the first starts. *)
Definition scan_calls : list (call Managed) :=
  scan_setup ++ [RequestFor 0 (scan_key 0) 10; Acquire 0 (scan_key 1) scan_demand 11;
    TaskStarted 0 (scan_key 0) (RObj (MkFteTaskAttemptId (MkFteTaskId "q" 1 0) 0)) (pd_lit [("memory_requirement_bytes", PInt 60)])].

#[export] Instance scan_authority : Authority Managed := manager_authority uid.

Abbreviation scan_driver := (run 30 60 scan_calls (@fresh_driver Managed)).

(** ** Starting points *)

Lemma fresh_roomy {A} : all_roomy (@fresh_driver A).
Proof. constructor. Qed.


Lemma fresh_tidy {A} `{AuthorityLaws A} foreign : tidy foreign (@fresh_driver A).
Proof.
  constructor; cbn; try done.
  - intros k f Hf. by apply elem_of_nil in Hf.
  - split_and!; apply NoDup_nil_2.
  - intros q a x Hq. by apply lookup_named in Hq as [_ Hq].
Qed.

(** ** Theorems *)

(** C9: over every history of the driver, in which partitions are placed,
    replaced and released, workers fail, queries end and calls raise, the
    memory that is booked on a worker, for its running attempts and for the
    partitions reserved on it, never exceeds the worker's capacity, provided
    that an attempt is started with no more memory than was reserved for its
    partition on that worker. *)
Theorem workers_within_memory (A : Type) `{Authority A} (wait_period no_matching_period : Z) (cs : list (call A)) :
  all_along wait_period no_matching_period within_reservation cs fresh_driver ->
  forall i h, (run wait_period no_matching_period cs fresh_driver).(d_handles) !! i = Some h ->
  Pressure.total_memory h.(h_pressure) <= h.(h_memory_capacity_bytes).
Proof.
  intros Hc i h Hh. pose proof (run_preserves wait_period no_matching_period _ all_roomy cs _ (roomy_call _ _) Hc fresh_roomy) as Hr.
  by apply (Forall_lookup_1 _ _ _ _ Hr Hh).
Qed.

(** C11: if [acquire] returns a reservation after a history in which every
    attempt was started with no more memory than was reserved for its
    partition on that worker ([within_reservation]), then the worker it names is healthy and on a node that the resource manager of the
    query holds eligible, the memory that was asked for is reserved there for
    the partition and fits the worker, and the tables name this worker as the
    owner and the lease of the reservation as the lease of the partition. *)
Theorem acquired_partition_placed (A : Type) `{Authority A} (wait_period no_matching_period : Z) (cs : list (call A))
    (current : nat) (key : PartitionKey) (dm : Demand) (now : Z) (rv : Reservation) (d' : Driver A) :
  let d := run wait_period no_matching_period cs fresh_driver in
  all_along wait_period no_matching_period within_reservation cs fresh_driver ->
  acquire wait_period current key dm now d = (Ok (inl rv), d') ->
  exists q stage a eligible, resource_identity key.1 d = Ok (q, stage) /\ lookup_manager q d = Ok a /\
    au_eligible_nodes stage a = Ok eligible /\ placed eligible key dm rv d'.
Proof.
  intros d Hc Hacq. pose proof (run_preserves wait_period no_matching_period _ all_roomy cs _ (roomy_call _ _) Hc fresh_roomy) as Hr. fold d in Hr.
  pose proof (wp_use _ _ _ _ _ _ (acquire_wp wait_period current key dm now d Hr) Hacq) as [_ Hp].
  unfold acquire in Hacq. apply sbind_ok in Hacq as (? & ? & [= <- <-] & Hacq). apply sbind_ok in Hacq as (x & ? & [= _ <-] & Hacq).
  apply sbind_ok in Hacq as ([q stage] & ? & [= Hid <-] & Hacq). apply sbind_ok in Hacq as (a & ? & [= Ha <-] & Hacq).
  apply sbind_ok in Hacq as (eligible & ? & [= He <-] & _). exists q, stage, a, eligible. split; [done|]. split; [done|]. split; [done|].
  by apply (Hp q stage a).
Qed.

(** ** The driver and the other clients of its managers

    The resource managers have clients besides placement (the driver asks
    them for leases of UDF tasks, updates allocations and cancels); and a
    query's registry is dropped, and opened again for a later generation. *)

Inductive event :=
| Placing (c : call Managed)
| OtherClient (query : string) (c : ResourceManager.call)
| DropRegistry (query : string)
| OpenRegistry (elsewhere : string -> bool) (query : string).

Section Events.
Context (uuid : nat -> string) (wait_period no_matching_period : Z).
#[local] Instance managers : Authority Managed := manager_authority uuid.
Implicit Types d : Driver Managed.

Definition do_event (e : event) : ST (Driver Managed) unit :=
  match e with
  | Placing c => do_call wait_period no_matching_period c
  | OtherClient q c => with_manager q (managed (fun p => ResourceManager.do_call p uuid c))
  | DropRegistry q => drop_registry q
  | OpenRegistry elsewhere q => open_registry elsewhere q
  end.

Definition run_events (es : list event) d : Driver Managed := fold_left (fun d e => (do_event e d).2) es d.

Fixpoint events_along (P : event -> Prop) (es : list event) d : Prop :=
  match es with
  | [] => True
  | e :: es => P e /\ events_along P es (do_event e d).2
  end.

(** What a manager is when it is registered, and a fragment; and what other
    clients may call. *)
Definition sound_event (e : event) : Prop :=
  match e with
  | Placing (RegisterFragment _ f) => is_ok (resource_identity_from_context f.(fr_context)) = true
  | Placing (RegisterManager _ (p, m)) => exists g a ratio, created uuid g a ratio p m
  | OtherClient _ c => sound_call c
  | _ => True
  end.

(** The manager of query [q] has the lease [l] out, under the id [id]. *)
Definition lease_out d (q id : string) (l : TaskLease) : Prop :=
  exists p m, lookup_manager q d = Ok (p, m) /\ od_get id m.(m_task_leases) = Some l.

Definition named_out d (q : string) (x : string * string) : Prop := exists l, lease_out d q x.1 l /\ l.(tl_attempt_id) = x.2.

(** It was granted in the course of a call of another client. *)
Fixpoint granted_elsewhere (es : list event) d (q : string) (x : string * string) : Prop :=
  match es with
  | [] => False
  | e :: es =>
      match e with OtherClient q' _ => strip q' = q /\ named_out (do_event e d).2 q' x /\ ~ named_out d q' x | _ => False end \/
      granted_elsewhere es (do_event e d).2 q x
  end.

(** The lease is recorded under the partition [key], which has an owner on
    the node of the lease. *)
Definition kept_under d (q id : string) (l : TaskLease) (key : PartitionKey) : Prop :=
  exists e l' i h, od_get key d.(d_task_leases) = Some (e, l') /\ l'.(tl_lease_id) = id /\
    l'.(tl_attempt_id) = l.(tl_attempt_id) /\ strip l'.(tl_query_id) = strip q /\
    od_get key d.(d_partition_owners) = Some i /\ d.(d_handles) !! i = Some h /\ h.(h_node_id) = l'.(tl_node_id).

Context (Hinj : forall a b, uuid a = uuid b -> a = b) (Hne : forall n, uuid n <> "").
#[local] Instance laws : AuthorityLaws Managed := manager_laws uuid Hinj Hne.

Lemma holds_dec a x : {holds a x} + {~ holds a x}.
Proof.
  unfold holds. destruct (od_get x.1 (m_task_leases a.2)) as [l|]; [|right; by intros (? & ? & _)].
  destruct (decide (tl_attempt_id l = x.2)); [left; by exists l|right]. by intros (? & [= <-] & ?).
Qed.

Lemma sound_tidy foreign e d : sound_event e -> tidy foreign d ->
  (forall q c x, e = OtherClient q c -> named_out (do_event e d).2 q x -> ~ named_out d q x -> foreign (strip q) x) ->
  tidy foreign (do_event e d).2.
Proof using Hinj Hne.
  intros He Ht Hf. destruct e as [c|q c|q|elsewhere q]; cbn [do_event].
  - apply tidy_call; [|done]. destruct c; try done. destruct a as [p m]. destruct He as (g & a & ratio & Hcr).
    split; [split; [exact (created_bounds Hcr)|exact (created_good Hcr)]|]. intros x (l & Hl & _).
    destruct (new_parts _ _ _ _ _ (cr_new _ _ _ _ _ _ Hcr)) as (_ & _ & _ & _ & Hnil & _). cbn in Hl. by rewrite Hnil in Hl.
  - apply tidy_other; [done|..].
    + intros [p m] [Hp Hm]. unfold managed. pose proof (call_good p uuid Hinj Hne Hp c m Hm He) as [Hg _].
      by destruct (ResourceManager.do_call p uuid c m) as [r m'].
    + intros [p m] Hq x Hx. destruct (holds_dec (p, m) x) as [?|Hno]; [by left|]. right.
      cbn in Hx. change (holds (managed (fun p => ResourceManager.do_call p uuid c) (p, m)).2 x) in Hx.
      apply (Hf q c x eq_refl).
      * cbn [do_event]. unfold with_manager. rewrite Hq. destruct (managed _ (p, m)) as [r [p' m']]. destruct Hx as (l & Hl & Ha). exists l. split; [|done].
        exists p', m'. split; [|done]. cbn [snd]. destruct (lookup_named _ _ _ Hq) as [Hn _]. rewrite lookup_set by done. by rewrite decide_True.
      * intros (l & (p' & m' & Hq' & Hl) & Ha). rewrite Hq in Hq'. injection Hq' as <- <-. apply Hno. by exists l.
  - by apply tidy_drop.
  - by apply tidy_open.
Qed.

Lemma events_tidy (foreign : string -> string * string -> Prop) es d : events_along sound_event es d -> (forall q x, granted_elsewhere es d q x -> foreign q x) ->
  tidy foreign d -> tidy foreign (run_events es d).
Proof using Hinj Hne.
  revert d. induction es as [|e es IH]; intros d Hc Hg Ht; [done|]. destruct Hc as [He Hc]. cbn. apply IH; [done|by intros; apply Hg; right|].
  apply sound_tidy; [done..|]. intros q c x -> H1 H2. apply Hg. by left.
Qed.

Lemma tidy_kept foreign d q id l : tidy foreign d -> lease_out d q id l -> foreign (strip q) (id, l.(tl_attempt_id)) \/ exists key, kept_under d q id l key.
Proof using Hinj Hne.
  intros Ht (p & m & Hq & Hl).
  destruct (td_live _ _ _ Ht q (p, m) (id, l.(tl_attempt_id)) Hq ltac:(by exists l)) as [(key & e & l' & Hk & Hn & Hs)|?]; [right|by left].
  exists key. injection Hn as Hn1 Hn2. destruct (td_leased _ _ _ Ht _ _ _ Hk) as [_ [[]|(i & Hi & Hsite)]].
  unfold sites in Hsite. rewrite list_lookup_fmap in Hsite. destruct (d_handles d !! i) as [h|] eqn:Eh; [|done]. injection Hsite as Hsite.
  exists e, l', i, h. done.
Qed.
End Events.

(** C8: when the managers of the queries are those of [ResourceManager],
    registered as they are created, and fragments are registered with their
    resource identity, then no task lease that placement was granted is lost,
    whatever placement is asked to do, whatever other clients call on the
    managers in between, and however often the registries of queries are
    dropped and opened again: every lease that a manager has out was granted
    in a call of another client, or is recorded under a partition that has an
    owner, on the node for which the lease was granted; and after
    [release_query] every lease that is still out was granted in a call of
    another client or is recorded under a partition of another query. *)
Theorem no_task_lease_lost (uuid : nat -> string) (wait_period no_matching_period : Z) (es : list event) :
  let authority := manager_authority uuid in
  let d := run_events uuid wait_period no_matching_period es fresh_driver in
  (forall a b, uuid a = uuid b -> a = b) -> (forall n, uuid n <> "") ->
  events_along uuid wait_period no_matching_period (sound_event uuid) es fresh_driver ->
  let elsewhere q id l := granted_elsewhere uuid wait_period no_matching_period es fresh_driver (strip q) (id, l.(tl_attempt_id)) in
  (forall q id l, lease_out d q id l -> elsewhere q id l \/ exists key, kept_under d q id l key) /\
  forall query n d', release_query query d = (Ok n, d') -> strip query <> "" ->
    forall q id l, lease_out d' q id l -> elsewhere q id l \/ exists key, kept_under d' q id l key /\ key.1.1 <> strip query.
Proof.
  intros authority d Hinj Hne Hc elsewhere. pose (laws := manager_laws uuid Hinj Hne).
  set (foreign := granted_elsewhere uuid wait_period no_matching_period es fresh_driver).
  assert (Ht : tidy foreign d) by (by apply (events_tidy uuid _ _ Hinj Hne); [| |apply fresh_tidy]).
  split; [intros q id l; by apply (tidy_kept uuid Hinj Hne foreign)|]. intros query n d' Hr Hq q id l Ho.
  pose proof (wp_use _ _ _ _ _ _ (release_query_wp foreign query d Ht) Hr) as [Ht' Hkeys].
  destruct (tidy_kept uuid Hinj Hne foreign d' q id l Ht' Ho) as [?|[key Hk]]; [by left|]. right. exists key. split; [done|].
  destruct Hk as (e & l' & i & h & Hk & _). by eapply Hkeys.
Qed.


(** The search of [acquire] for an owner ends: every round excludes a
    worker that was not excluded before, so that as many rounds as there are
    workers, and two, are enough for every driver, whatever the resource
    manager answers; more fuel gives the same result and the same state. *)
Theorem owner_search_ends (A : Type) `{Authority A} (wait_period : Z) (fuel current : nat) (key : PartitionKey) (x : Z) (stage : string)
    (eligible : list string) (dm : Demand) (now : Z) (d : Driver A) :
  (S (S (length d.(d_worker_handles))) <= fuel)%nat ->
  find_owner wait_period fuel current key x stage eligible dm now ∅ d =
  find_owner wait_period (S (S (length d.(d_worker_handles)))) current key x stage eligible dm now ∅ d.
Proof.
  intros Hf. pose proof (names_size current d) as Hn. rewrite <- (difference_empty_L (names current d)) in Hn. apply fuel_enough; lia.
Qed.

(** ** Witnesses *)

Lemma scan_within : all_along 30 60 within_reservation scan_calls fresh_driver.
Proof.
  unfold scan_calls, scan_setup. cbn [app all_along within_reservation]. repeat (split; [exact I|]). split; [|exact I].
  intros h Hh. set (d := snd _) in Hh. exists (scan_key 0). split; [vm_compute; reflexivity|].
  assert (Hb : match d.(d_handles) !! 0%nat with
    | Some h => 60 <=? od_get_default (scan_key 0) 0 h.(h_pressure).(pr_reservation_memory) | None => true end = true) by (vm_compute; reflexivity).
  rewrite Hh in Hb. apply Z.leb_le in Hb. exact Hb.
Qed.

Lemma workers_within_memory_witness :
  exists h, scan_driver.(d_handles) !! 0%nat = Some h /\ Pressure.total_memory h.(h_pressure) = 60 /\
    Pressure.total_memory h.(h_pressure) <= h.(h_memory_capacity_bytes).
Proof.
  assert (Hb : match scan_driver.(d_handles) !! 0%nat with Some h => Pressure.total_memory h.(h_pressure) =? 60 | None => false end = true)
    by (vm_compute; reflexivity).
  destruct (scan_driver.(d_handles) !! 0%nat) as [h|] eqn:Eh; [|discriminate Hb]. exists h. split; [reflexivity|]. apply Z.eqb_eq in Hb.
  split; [exact Hb|]. exact (@workers_within_memory Managed scan_authority 30 60 scan_calls scan_within 0%nat h Eh).
Defined.

Lemma acquired_partition_placed_witness :
  exists rv d', acquire 30 0 (scan_key 2) scan_demand 12 scan_driver = (Ok (inl rv), d') /\ rv.(rv_worker_id) = "w2" /\
    exists eligible, placed eligible (scan_key 2) scan_demand rv d'.
Proof.
  assert (Hb : match (acquire 30 0 (scan_key 2) scan_demand 12 scan_driver).1 with Ok (inl rv) => String.eqb rv.(rv_worker_id) "w2" | _ => false end = true)
    by (vm_compute; reflexivity).
  destruct (acquire 30 0 (scan_key 2) scan_demand 12 scan_driver) as [[[rv|]|] d'] eqn:E; try discriminate Hb.
  exists rv, d'. split; [reflexivity|]. split; [apply String.eqb_eq; exact Hb|].
  destruct (acquired_partition_placed Managed 30 60 scan_calls 0 (scan_key 2) scan_demand 12 rv d' scan_within E) as (q & stage & a & eligible & _ & _ & _ & Hp).
  exists eligible. exact Hp.
Defined.

(** Between the calls of placement another client is granted a task. *)
Definition scan_events : list event :=
  map Placing scan_setup ++
  [Placing (RequestFor 0 (scan_key 0) 10); OtherClient "q" (TryAcquireTask (MkTaskRequest "q" scan_stage "t9" "0" None None));
   Placing (Acquire 0 (scan_key 1) scan_demand 11)].

Abbreviation scan_shared := (run_events uid 30 60 scan_events (@fresh_driver Managed)).

Lemma scan_sound : events_along uid 30 60 (sound_event uid) scan_events fresh_driver.
Proof.
  unfold scan_events, scan_setup. cbn [map app events_along sound_event]. destruct scan_start as [p m] eqn:E. split.
  - exists scan_graph, scan_allocation, demo_ratio. pose proof scan_created as Hc. by rewrite E in Hc.
  - split; [vm_compute; reflexivity|]. repeat (split; [exact I|]). exact I.
Qed.

Lemma no_task_lease_lost_witness :
  (match lookup_manager "q" scan_shared with Ok a => od_keys a.2.(m_task_leases) | _ => [] end) = ["x"; "xx"; "xxx"] /\
  (forall l, lease_out scan_shared "q" "x" l ->
    granted_elsewhere uid 30 60 scan_events fresh_driver "q" ("x", l.(tl_attempt_id)) \/ exists key, kept_under scan_shared "q" "x" l key).
Proof.
  split; [vm_compute; reflexivity|].
  exact (proj1 (no_task_lease_lost uid 30 60 scan_events uid_inj uid_nonempty scan_sound) "q" "x").
Defined.

Lemma owner_search_ends_witness :
  find_owner 30 99 0 (scan_key 2) 1 scan_stage ["n1"; "n2"] scan_demand 12 ∅ scan_driver =
  find_owner 30 4 0 (scan_key 2) 1 scan_stage ["n1"; "n2"] scan_demand 12 ∅ scan_driver.
Proof.
  assert (Hlen : length scan_driver.(d_worker_handles) = 2%nat) by (vm_compute; reflexivity).
  pose proof (owner_search_ends Managed 30 99 0 (scan_key 2) 1 scan_stage ["n1"; "n2"] scan_demand 12 scan_driver) as Ho.
  rewrite Hlen in Ho. apply Ho. lia.
Defined.
