(* ===== verification/ExchangeSelectors.v ===== *)
(** * Selected outputs of an exchange, as the consumer's fragment sees them

    Models the exchange selectors of [duckdb/runners/ray/
    fte_fragment_scheduler.py] (normalisation, validation, merge and
    application of selector snapshots, the key of a split), of
    [fragment_worker_exchange.py] and the selector part of
    [fragment_registry.py], with the loop of [fragment_worker_submission.py]
    that takes exchange splits and the end of the selector's event handler.

    Payloads are [pyval]; the state is the exchange part of
    [_FteFragmentState].  The registry lock makes each operation one step.
    [hexdigest] stands for [hashlib.sha256(...).hexdigest()]; nothing is
    assumed of it. *)

From S2P Require Import Prelude PyStr PyVal FteTypes.

#[local] Open Scope string_scope.
#[local] Open Scope list_scope.
#[local] Open Scope Z_scope.

Module Selectors.

(** What is selected for a partition: [{"attempt_id", "split", "split_key"}] *)
Record Selection := MkSelection {
  se_attempt_id : option Z;
  se_split : option (list (pyval * pyval));
  se_split_key : option string;
}.

(** [_FteExchangeSourceOutputSelectorSnapshot] *)
Record Snapshot := MkSnapshot {
  sn_version : Z;
  sn_source : string;
  sn_final : bool;
  sn_partition_count : option Z;
  sn_selected : list (Z * Selection);
}.

(** [_FteFragmentState], the tables of its exchange sources *)
Record FragmentState := MkState {
  fs_partition_ids : list (string * gset Z);
  fs_split_keys : list (string * gset string);
  fs_partition_count : list (string * Z);
  fs_task_count : list (string * Z);
  fs_selectors : list (string * Snapshot);
  fs_next_version : list (string * Z);
  fs_exhausted : gset string;
}.
#[export] Instance FragmentState_eta : Eta FragmentState :=
  fun r => MkState r.(fs_partition_ids) r.(fs_split_keys) r.(fs_partition_count) r.(fs_task_count) r.(fs_selectors)
    r.(fs_next_version) r.(fs_exhausted).

Definition new_state : FragmentState := MkState [] [] [] [] [] [] ∅.

(** [semantic_key()]: the partitions in order, without their splits *)
Definition semantic_key (s : Snapshot) : string * bool * option Z * list (Z * option Z * option string) :=
  (s.(sn_source), s.(sn_final), s.(sn_partition_count),
   map (fun e => (e.1, e.2.(se_attempt_id), e.2.(se_split_key))) (py_sorted (fun a b => a.1 <=? b.1) s.(sn_selected))).

Section Selectors.
Context (hexdigest : string -> string).

(** ** The key of a split *)

(** [_stable_fte_split_value] *)
Fixpoint stable_value (v : pyval) : pyval :=
  match v with
  | PBytes s => PTuple [PStr "bytes"; PStr (hexdigest s)]
  | PDict d =>
      PTuple [PStr "mapping"; PTuple (map (fun e => PTuple [PStr e.1; e.2])
        (py_sorted (fun a b => String.leb a.1 b.1)
          ((fix go d := match d with [] => [] | (k, w) :: d => (py_str k, stable_value w) :: go d end) d)))]
  | PList l | PTuple l => PTuple [PStr "sequence"; PTuple (map stable_value l)]
  | PSet l => PTuple [PStr "set"; PTuple (map PStr (sorted_str (map (fun w => py_repr (stable_value w)) l)))]
  | PObj _ _ => PStr (py_repr v)
  | PNone | PBool _ | PInt _ | PStr _ | PEnum _ _ => v
  end.

(** [_exchange_source_split_key] *)
Definition split_key (s : FteSplit) : string :=
  hexdigest (py_repr (PTuple [PStr s.(kind); PInt s.(source_partition_id); stable_value s.(data)])).

(** ** Fields of a payload *)

(** [_exchange_selector_int_value] *)
Fixpoint int_value (payload : list (pyval * pyval)) (keys : list string) : result (option Z) :=
  match keys with
  | [] => Ok None
  | k :: keys =>
      match pd_get k payload with
      | PNone => int_value payload keys
      | v => let* n := py_int v in Ok (Some n)
      end
  end.

(** [_exchange_selector_bool_value] *)
Fixpoint bool_value (payload : list (pyval * pyval)) (keys : list string) : bool :=
  match keys with
  | [] => false
  | k :: keys =>
      match pd_find k payload with
      | None => bool_value payload keys
      | Some v =>
          match as_str v with
          | Some s => negb (existsb (String.eqb (lower (strip s))) ["0"; "false"; "no"; "off"; ""])
          | None => truthy v
          end
      end
  end.

Definition attempt_keys : list string := ["attempt_id"; "attemptId"].

(** The first handle that names an attempt. *)
Fixpoint handles_attempt (handles : list pyval) : result (option Z) :=
  match handles with
  | [] => Ok None
  | PDict h :: handles => let* a := int_value h attempt_keys in match a with Some _ => Ok a | None => handles_attempt handles end
  | _ :: handles => handles_attempt handles
  end.

(** [_exchange_selector_attempt_from_split] *)
Definition attempt_from_split (split : list (pyval * pyval)) : result (option Z) :=
  let* a := int_value split attempt_keys in
  match a, pd_get "data" split with
  | Some _, _ => Ok a
  | None, PDict data =>
      let* a := int_value data attempt_keys in
      match a with
      | Some _ => Ok a
      | None =>
          let handles := py_or (py_or (pd_get "source_handles" data) (pd_get "sourceHandles" data)) (pd_get "handles" data) in
          if truthy handles then let* l := py_iter handles in handles_attempt l else Ok None
      end
  | None, _ => Ok None
  end.

(** ** Normalisation *)

(** [d.setdefault(k, v)] *)
Definition pd_setdefault (k : string) (v : pyval) (d : list (pyval * pyval)) : list (pyval * pyval) :=
  if pd_mem k d then d else pd_set k v d.

(** [_normalize_exchange_selector_split] *)
Definition normalize_split (source : string) (partition : Z) (payload : list (pyval * pyval))
    : result (list (pyval * pyval) * option Z * string) :=
  let payload := pd_setdefault "source_partition_id" (PInt partition) (pd_setdefault "source_node_id" (PStr source) payload) in
  let* split := Split.from_dict source payload in
  let* _ := raise_if (negb (String.eqb split.(kind) "exchange_source_task"))
    (ValueError ("exchange selector split must be exchange_source_task, got " +:+ repr_str split.(kind))) in
  let* _ := raise_if (negb (split.(source_partition_id) =? partition))
    (ValueError ("exchange selector split source_partition_id " +:+ str_of_int split.(source_partition_id)
                 +:+ " does not match selected partition " +:+ str_of_int partition)) in
  let* attempt := attempt_from_split payload in
  Ok (Split.to_dict split, attempt, split_key split).

(** [None if v is None else str(v)] *)
Definition optional_str (v : pyval) : option string := match v with PNone => None | v => Some (py_str v) end.

(** The split of an entry, its attempt and its key; [key] is the entry's own. *)
Definition selected_split (source : string) (partition : Z) (split : pyval) (key : option string)
    : result (option (list (pyval * pyval)) * option Z * option string) :=
  match split with
  | PNone => Ok (None, None, key)
  | PDict payload => let* (d, a, k) := normalize_split source partition payload in Ok (Some d, a, Some k)
  | _ => Raise (ValueError "exchange selector selected split must be a mapping")
  end.

Definition normalize_mapping (source : string) (partition : Z) (entry : list (pyval * pyval)) : result Selection :=
  let split := match pd_get "split" entry with
               | PNone => if py_eqb (pd_get "kind" entry) (PStr "exchange_source_task") then PDict entry else PNone
               | v => v
               end in
  let attempt := if pd_mem "attempt_id" entry then pd_get "attempt_id" entry else pd_get "attemptId" entry in
  let key := optional_str (py_or (pd_get "split_key" entry) (pd_get "splitKey" entry)) in
  let* (normalized, split_attempt, key) := selected_split source partition split key in
  let* attempt := match attempt with PNone => Ok split_attempt | v => let* n := py_int v in Ok (Some n) end in
  Ok (MkSelection attempt normalized key).

(** [_normalize_exchange_selector_selected_entry] *)
Definition normalize_entry (source : string) (partition : Z) (raw : pyval) : result Selection :=
  match raw with
  | PNone => Ok (MkSelection None None None)
  | PDict entry => normalize_mapping source partition entry
  | v => normalize_mapping source partition (pd_lit [("attempt_id", v)])
  end.

(** The partition of an entry in a list of entries. *)
Definition listed_entry (entry : pyval) : result (pyval * pyval) :=
  match entry with
  | PDict d =>
      let* p := int_value d ["partition_id"; "partitionId"; "source_partition_id"; "sourcePartitionId"] in
      match p with
      | Some p => Ok (PInt p, entry)
      | None => Raise (ValueError "exchange selector selected entry is missing partition_id")
      end
  | _ => Raise (ValueError "exchange selector selected list entries must be mappings")
  end.

Definition decision (s : Selection) : option Z * option string := (s.(se_attempt_id), s.(se_split_key)).

(** One item of the loop over the selected partitions. *)
Definition select_item (source : string) (selected : list (Z * Selection)) (item : pyval * pyval) : result (list (Z * Selection)) :=
  let* partition := py_int item.1 in
  let* _ := raise_if (partition <? 0) (ValueError "exchange selector partition id must be non-negative") in
  let* entry := normalize_entry source partition item.2 in
  let* _ := raise_if (match od_get partition selected with
                      | Some old => negb (bool_decide (decision old = decision entry))
                      | None => false
                      end) (ValueError ("conflicting exchange selector decision for partition " +:+ str_of_int partition)) in
  Ok (od_set partition entry selected).

(** [_normalize_exchange_selector_selected] *)
Definition normalize_selected (source : string) (payload : pyval) : result (list (Z * Selection)) :=
  if negb (truthy payload) then Ok [] else
  let* items := match payload with
                | PDict d => Ok d
                | PList l | PTuple l => rmapM listed_entry l
                | _ => Raise (ValueError "exchange selector selected must be a mapping or list")
                end in
  rfoldM (select_item source) [] items.

(** One split of the loop over [selector["splits"]]. *)
Definition select_split (source : string) (acc : option Z * list (Z * Selection)) (payload : pyval)
    : result (option Z * list (Z * Selection)) :=
  match payload with
  | PDict d =>
      let* split := Split.from_dict source d in
      let partition := split.(source_partition_id) in
      let* entry := normalize_entry source partition payload in
      Ok (Some (Z.max (default 0 acc.1) (partition + 1)), od_set partition entry acc.2)
  | _ => Raise (ValueError "exchange selector splits entries must be mappings")
  end.

(** [a or b or ...] over the fields of a payload *)
Definition first_field (payload : list (pyval * pyval)) (keys : list string) (last : pyval) : pyval :=
  foldr (fun k v => py_or (pd_get k payload) v) last keys.

(** [_normalize_exchange_selector_snapshot] *)
Definition normalize_snapshot (source : string) (selector : list (pyval * pyval)) (st : FragmentState) : result Snapshot :=
  let source := py_str (first_field selector ["source_node_id"; "sourceNodeId"; "source"] (PStr source)) in
  let* version := int_value selector ["version"] in
  let version := default (od_get_default source 0 st.(fs_next_version)) version in
  let* count := int_value selector ["partition_count"; "partitionCount"; "source_partition_count"; "sourcePartitionCount"] in
  let* selected := normalize_selected source
    (first_field selector ["selected"; "selections"; "selected_partitions"; "selectedPartitions"] (PDict [])) in
  let* splits := py_iter (py_or (pd_get "splits" selector) (PTuple [])) in
  let* (count, selected) := rfoldM (select_split source) (count, selected) splits in
  Ok (MkSnapshot version source (bool_value selector ["final"; "finalSelector"]) count selected).

(** ** Application *)

(** The partitions below [count] that have no entry. *)
Definition missing_partitions (count : Z) (selected : list (Z * Selection)) : list Z :=
  List.filter (fun p => negb (od_mem p selected)) (map Z.of_nat (seq 0 (Z.to_nat count))).

(** [_validate_exchange_selector_snapshot] *)
Definition validate (s : Snapshot) : result unit :=
  let* _ := raise_if (s.(sn_version) <? 0) (ValueError "exchange selector version must be non-negative") in
  if s.(sn_final) then
    match s.(sn_partition_count) with
    | None => Raise (ValueError "final exchange selector requires partition_count")
    | Some count =>
        let* _ := raise_if (count <? 0) (ValueError "final exchange selector requires partition_count") in
        let missing := missing_partitions count s.(sn_selected) in
        raise_if (negb (bool_decide (length missing = O)))
          (ValueError ("final exchange selector is missing partitions: " +:+ py_repr (PList (map PInt missing))))
    end
  else Ok tt.

(** [_advance_exchange_selector_next_version] *)
Definition advance_version (source : string) (version : Z) : ST FragmentState unit :=
  smodify (fun st => st <| fs_next_version ::= fun l => od_set source (Z.max (od_get_default source 0 l) (version + 1)) l |>).

Definition differ {A} `{EqDecision A} (a b : option A) : bool :=
  match a, b with Some x, Some y => negb (bool_decide (x = y)) | _, _ => false end.

(** One partition that the current snapshot has selected. *)
Definition merge_entry (acc : list (Z * Selection) * gset Z) (e : Z * Selection) : result (list (Z * Selection) * gset Z) :=
  let '(selected, materialized) := acc in
  let '(partition, old) := e in
  match od_get partition selected with
  | None => Ok (od_set partition old selected, materialized)
  | Some new =>
      let* _ := raise_if (differ old.(se_attempt_id) new.(se_attempt_id))
        (ValueError ("exchange selector cannot change selected attempt for partition " +:+ str_of_int partition)) in
      let* _ := raise_if (differ old.(se_split_key) new.(se_split_key))
        (ValueError ("exchange selector cannot change selected split for partition " +:+ str_of_int partition)) in
      let arrives := match old.(se_split_key), new.(se_split_key) with None, Some _ => true | _, _ => false end in
      Ok (od_set partition
            (MkSelection (match new.(se_attempt_id) with Some a => Some a | None => old.(se_attempt_id) end)
               (match new.(se_split_key) with Some _ => new.(se_split) | None => old.(se_split) end)
               (match new.(se_split_key) with Some k => Some k | None => old.(se_split_key) end)) selected,
          if arrives then {[partition]} ∪ materialized else materialized)
  end.

(** The partitions whose split is known. *)
Definition with_key (selected : list (Z * Selection)) : gset Z :=
  list_to_set (map fst (List.filter (fun e => bool_decide (is_Some e.2.(se_split_key))) selected)).

(** [_merge_exchange_selector_snapshot] *)
Definition merge (current snapshot : Snapshot) : result (Snapshot * gset Z) :=
  let* (selected, materialized) := rfoldM merge_entry (snapshot.(sn_selected), ∅) current.(sn_selected) in
  let fresh := List.filter (fun e => negb (od_mem e.1 current.(sn_selected))) selected in
  Ok (MkSnapshot snapshot.(sn_version) snapshot.(sn_source) snapshot.(sn_final) snapshot.(sn_partition_count) selected,
      with_key fresh ∪ materialized).

Definition conflict (s : Snapshot) : exn :=
  ValueError ("conflicting exchange selector update for source " +:+ s.(sn_source) +:+ " at version " +:+ str_of_int s.(sn_version)).

(** The snapshot becomes the current one. *)
Definition install (s : Snapshot) : ST FragmentState unit :=
  let! _ := smodify (fun st => st <| fs_selectors ::= od_set s.(sn_source) s |>) in
  advance_version s.(sn_source) s.(sn_version).

(** [_apply_exchange_selector_snapshot] *)
Definition apply_snapshot (snapshot : Snapshot) : ST FragmentState (bool * gset Z) :=
  let! st := sget in
  match od_get snapshot.(sn_source) st.(fs_selectors) with
  | None =>
      let! _ := slift (validate snapshot) in
      let! _ := install snapshot in
      sret (true, with_key snapshot.(sn_selected))
  | Some current =>
      if snapshot.(sn_version) <? current.(sn_version) then sret (false, ∅) else
      if snapshot.(sn_version) =? current.(sn_version) then
        match (let* (merged, _) := merge current snapshot in let* _ := validate merged in Ok merged) with
        | Ok merged => if bool_decide (semantic_key merged = semantic_key current) then sret (false, ∅) else sraise (conflict snapshot)
        | Raise (ValueError _) => sraise (conflict snapshot)
        | Raise e => sraise e
        end
      else
        let! (merged, arrived) := slift (merge current snapshot) in
        let! _ := slift (validate merged) in
        if current.(sn_final) then
          if bool_decide (semantic_key merged = semantic_key current) then sret (false, ∅)
          else sraise (ValueError ("cannot update final exchange selector for source " +:+ snapshot.(sn_source)))
        else
          let! _ := install merged in
          sret (true, arrived)
  end.

(** The splits of the snapshot. *)
Definition snapshot_splits (source : string) (s : Snapshot) : result (list FteSplit) :=
  rmapM (Split.from_dict source) (omap se_split (od_values s.(sn_selected))).

(** A split is taken unless one with its key was taken before. *)
Definition take_split (source : string) (splits : list FteSplit) (s : FteSplit) : ST FragmentState (list FteSplit) :=
  let! st := sget in
  let seen := od_get_default source ∅ st.(fs_split_keys) in
  if bool_decide (split_key s ∈ seen) then sret splits else
  let! _ := smodify (fun st => st <| fs_split_keys ::= od_set source ({[split_key s]} ∪ seen) |>) in
  sret (splits ++ [s]).

Definition late_splits (source : string) : exn := RuntimeError ("exchange source " +:+ source +:+ " received splits after no_more_splits").

(** [apply_exchange_selector_update] *)
Definition apply_update (source : string) (selector : list (pyval * pyval)) : ST FragmentState (option (Snapshot * list FteSplit)) :=
  let! st := sget in
  let! snapshot := slift (normalize_snapshot source selector st) in
  let! _ := sraise_if (negb (String.eqb snapshot.(sn_source) source))
    (ValueError ("exchange selector source_node_id does not match event source_node_id: "
                 +:+ repr_str snapshot.(sn_source) +:+ " != " +:+ repr_str source)) in
  let! raw := slift (snapshot_splits source snapshot) in
  let! (changed, arrived) := apply_snapshot snapshot in
  if negb changed then sret None else
  let! st := sget in
  let! _ := sraise_if (bool_decide (source ∈ st.(fs_exhausted)) && negb (bool_decide (length raw = O))) (late_splits source) in
  let! _ := smodify (fun st => st <| fs_split_keys ::= od_setdefault source ∅ |>) in
  let! splits := sfold (List.filter (fun s => bool_decide (s.(source_partition_id) ∈ arrived)) raw) (take_split source) [] in
  sret (Some (snapshot, splits)).

(** [_handles_for_exchange_selector_updated_event], its part on this state:
    [assigned] tells whether the assignment of the splits went through. *)
Definition selector_updated (source : string) (selector : list (pyval * pyval)) (assigned : bool) : ST FragmentState (list FteSplit) :=
  let! update := apply_update source selector in
  match update with
  | None => sret []
  | Some (snapshot, splits) =>
      let! _ := if snapshot.(sn_final) && assigned
                then smodify (fun st => st <| fs_exhausted ::= union {[source]} |>) else sret tt in
      sret splits
  end.

(** [_task_input_stream_exhausted_direct], its part on this state *)
Definition exhaust (source : string) : ST FragmentState unit :=
  smodify (fun st => st <| fs_exhausted ::= union {[source]} |>).

(** ** Splits that are submitted with a task *)

(** The metadata of one source. *)
Definition mark_source (updates : list (string * gset Z)) (e : string * (gset Z * Z * Z)) : ST FragmentState (list (string * gset Z)) :=
  let '(source, (ids, partitions, tasks)) := e in
  let! _ := smodify (fun st => st <| fs_partition_ids ::= od_setdefault source ∅ |>) in
  let! st := sget in
  if bool_decide (source ∈ st.(fs_exhausted)) then
    let! _ := sraise_if (negb (bool_decide (ids = ∅))) (late_splits source) in sret updates
  else
    let! _ := smodify (fun st => st <| fs_partition_ids ::= fun l => od_set source (od_get_default source ∅ l ∪ ids) l |>) in
    let! _ := smodify (fun st => st
      <| fs_partition_count ::= fun l => od_set source (Z.max (od_get_default source 0 l) partitions) l |>
      <| fs_task_count ::= fun l => od_set source (Z.max (od_get_default source 0 l) tasks) l |>) in
    sret (if bool_decide (ids = ∅) then updates else od_set source ids updates).

(** [mark_exchange_source_partitions_seen] *)
Definition mark_partitions_seen (metadata : list (string * (gset Z * Z * Z))) : ST FragmentState (list (string * gset Z)) :=
  sfold metadata mark_source [].

(** The loop of [_submit_fte_pending_tasks] over the splits of one task; the
    splits come out in the order in which they are taken. *)
Definition submit_split (updates : list (string * gset Z)) (splits : list FteSplit) (s : FteSplit) : ST FragmentState (list FteSplit) :=
  if negb (String.eqb s.(kind) "exchange_source_task") then sret (splits ++ [s]) else
  if negb (bool_decide (s.(source_partition_id) ∈ od_get_default s.(source_node_id) ∅ updates)) then sret splits else
  let! _ := smodify (fun st => st <| fs_split_keys ::= od_setdefault s.(source_node_id) ∅ |>) in
  take_split s.(source_node_id) splits s.

Definition submit_splits (metadata : list (string * (gset Z * Z * Z))) (splits : list FteSplit) : ST FragmentState (list FteSplit) :=
  let! updates := mark_partitions_seen metadata in
  sfold splits (submit_split updates) [].

(** ** Histories *)

Inductive call :=
| SelectorUpdated (source : string) (selector : list (pyval * pyval)) (assigned : bool)
| SubmitSplits (metadata : list (string * (gset Z * Z * Z))) (splits : list FteSplit)
| Exhaust (source : string).

(** A split that is handed to the assigner, with the source it counts for and
    whether a selector has brought it. *)
Record Delivery := MkDelivery { dv_source : string; dv_split : FteSplit; dv_selected : bool }.

Definition do_call (c : call) : ST FragmentState (list Delivery) :=
  match c with
  | SelectorUpdated source selector assigned =>
      let! l := selector_updated source selector assigned in sret (map (fun s => MkDelivery source s true) l)
  | SubmitSplits metadata splits =>
      let! l := submit_splits metadata splits in sret (map (fun s => MkDelivery s.(source_node_id) s false) l)
  | Exhaust source => let! _ := exhaust source in sret []
  end.

(** The state after the calls and what they delivered; a call that raises
    delivers nothing. *)
Fixpoint run (cs : list call) (st : FragmentState) (log : list Delivery) : FragmentState * list Delivery :=
  match cs with
  | [] => (st, log)
  | c :: cs => let '(r, st) := do_call c st in run cs st (log ++ match r with Ok l => l | Raise _ => [] end)
  end.

(** Every call of a history satisfies [P] in the state in which it is made. *)
Fixpoint all_along (P : call -> FragmentState -> Prop) (cs : list call) (st : FragmentState) : Prop :=
  match cs with
  | [] => True
  | c :: cs => P c st /\ all_along P cs (do_call c st).2
  end.

End Selectors.
End Selectors.
