(* ===== verification/SelectorTheorems.v ===== *)
(** * Selected outputs are final and delivered once

    What the selectors of [ExchangeSelectors] guarantee over every history of
    updates and submissions. *)

From S2P Require Import Prelude PyStr PyVal FteTypes ExchangeSelectors.

#[local] Open Scope string_scope.
#[local] Open Scope list_scope.
#[local] Open Scope Z_scope.

Import Selectors.

(** ** Merging *)

(** What a partition is left with, of what was selected and what comes. *)
Definition joined (old new : option Selection) : option Selection :=
  match old, new with
  | None, new => new
  | Some old, None => Some old
  | Some old, Some new =>
      Some (MkSelection (match new.(se_attempt_id) with Some a => Some a | None => old.(se_attempt_id) end)
              (match new.(se_split_key) with Some _ => new.(se_split) | None => old.(se_split) end)
              (match new.(se_split_key) with Some k => Some k | None => old.(se_split_key) end))
  end.

Definition key_of (o : option Selection) : option string := o ≫= se_split_key.

(** No decision of the one contradicts a decision of the other. *)
Definition agree (old new : option Selection) : Prop :=
  match old, new with
  | Some old, Some new => differ old.(se_attempt_id) new.(se_attempt_id) = false /\ differ old.(se_split_key) new.(se_split_key) = false
  | _, _ => True
  end.

(** A decision that is taken stays. *)
Definition keeps (old new : option Selection) : Prop :=
  forall e, old = Some e -> exists e', new = Some e' /\
    (forall a, e.(se_attempt_id) = Some a -> e'.(se_attempt_id) = Some a) /\
    (forall k, e.(se_split_key) = Some k -> e'.(se_split_key) = Some k).

#[export] Instance keeps_preorder : PreOrder keeps.
Proof.
  split; [intros o e He; by exists e|]. intros x y z Hxy Hyz e He. destruct (Hxy e He) as (e' & He' & Ha & Hk).
  destruct (Hyz e' He') as (e'' & He'' & Ha' & Hk'). exists e''. split; [done|]. split; eauto.
Qed.

Lemma differ_same {A} `{EqDecision A} (x : A) b : differ (Some x) b = false -> match b with Some y => Some y | None => Some x end = Some x.
Proof. destruct b as [y|]; [|done]. cbn. rewrite negb_false_iff, bool_decide_eq_true. by intros ->. Qed.

Lemma joined_keeps old new : agree old new -> keeps old (joined old new).
Proof.
  intros Hag e ->. destruct new as [new|]; [|by exists e]. destruct Hag as [Ha Hk]. eexists. split; [done|]. cbn. split.
  - intros a Ea. rewrite Ea in *. by apply differ_same.
  - intros k Ek. rewrite Ek in *. by apply differ_same.
Qed.

Lemma joined_key old new : agree old new -> key_of (joined old new) = match key_of old with Some k => Some k | None => key_of new end.
Proof.
  destruct old as [old|], new as [new|]; try done; [|intros _; cbn; by destruct (se_split_key old)].
  intros [_ Hk]. cbn. destruct (se_split_key old) as [k|] eqn:E; [by apply differ_same|by destruct (se_split_key new)].
Qed.

(** Which partitions a fold over the current snapshot lets arrive. *)
Definition arrives (old new : option Selection) : Prop := is_Some old /\ is_Some new /\ key_of old = None /\ is_Some (key_of new).

Lemma merge_fold l sel mat sel' mat' :
  od_wf l -> rfoldM merge_entry (sel, mat) l = Ok (sel', mat') ->
  (od_wf sel -> od_wf sel') /\
  forall p, agree (od_get p l) (od_get p sel) /\ od_get p sel' = joined (od_get p l) (od_get p sel) /\
    (p ∈ mat' <-> p ∈ mat \/ arrives (od_get p l) (od_get p sel)).
Proof.
  revert sel mat. induction l as [|[q old] l IH]; intros sel mat Hwf H.
  - injection H as -> ->. split; [done|]. intros p. split; [done|]. split; [done|]. split; [by left|]. intros [?|[[? ?] _]]; done.
  - cbn [rfoldM] in H. unfold od_wf in Hwf. cbn in Hwf. apply NoDup_cons in Hwf as [Hq Hwf].
    assert (Hl : od_get q l = None) by (by apply od_get_None). destruct (merge_entry (sel, mat) (q, old)) as [[s1 m1]|] eqn:E; [|done].
    cbn in H. destruct (IH _ _ Hwf H) as [Hw Hp]. clear IH H. cbn in E.
    destruct (od_get q sel) as [new|] eqn:En.
    + destruct (differ (se_attempt_id old) (se_attempt_id new)) eqn:Ea; [done|]. destruct (differ (se_split_key old) (se_split_key new)) eqn:Ek; [done|].
      cbn in E. injection E as <- <-. split; [intros Hs; by apply Hw, od_wf_set|]. intros p. destruct (Hp p) as (Hag & Hj & Hm). cbn [od_get].
      destruct (decide (p = q)) as [->|Hne].
      * rewrite Hl, od_get_set_eq in *. rewrite En. split; [done|]. split; [done|]. rewrite Hm. split.
        -- intros [Hin|[[? ?] _]]; [|done]. destruct (se_split_key old) eqn:E1, (se_split_key new) eqn:E2; try (by left).
           right. unfold arrives, key_of. cbn. rewrite E1, E2. split_and!; done.
        -- intros [Hin|(_ & _ & E1 & E2)]; left.
           { destruct (se_split_key old), (se_split_key new); set_solver. }
           cbn in E1, E2. rewrite E1. destruct E2 as [k ->]. set_solver.
      * rewrite od_get_set_ne in * by done. split; [done|]. split; [done|]. rewrite Hm. 
        destruct (se_split_key old), (se_split_key new); set_solver.
    + injection E as <- <-. split; [intros Hs; by apply Hw, od_wf_set|]. intros p. destruct (Hp p) as (Hag & Hj & Hm). cbn [od_get].
      destruct (decide (p = q)) as [->|Hne].
      * rewrite Hl, od_get_set_eq in *. rewrite En. split; [done|]. split; [done|]. rewrite Hm. unfold arrives. naive_solver.
      * rewrite od_get_set_ne in * by done. done.
Qed.

Lemma with_key_elem l p : od_wf l -> p ∈ with_key l <-> is_Some (key_of (od_get p l)).
Proof.
  intros Hwf. unfold with_key. rewrite elem_of_list_to_set, list_elem_of_fmap. split.
  - intros ([q e] & -> & He). rewrite list_elem_of_In in He. apply filter_In in He as [He Hk]. apply bool_decide_eq_true in Hk. cbn in *.
    by rewrite (od_elem_get _ _ _ Hwf (proj2 (list_elem_of_In _ _) He)).
  - intros [k Hk]. destruct (od_get p l) as [e|] eqn:Ee; [|done]. exists (p, e). split; [done|]. rewrite list_elem_of_In. apply filter_In. cbn in *.
    split; [by apply list_elem_of_In, od_get_elem|]. by rewrite Hk.
Qed.

(** [merge] in one go: every partition is joined, and those arrive whose
    split was not known and is now. *)
Lemma merge_ok cur new m arr :
  od_wf cur.(sn_selected) -> od_wf new.(sn_selected) -> merge cur new = Ok (m, arr) ->
  m.(sn_version) = new.(sn_version) /\ m.(sn_source) = new.(sn_source) /\ m.(sn_final) = new.(sn_final) /\ od_wf m.(sn_selected) /\
  forall p, let old := od_get p cur.(sn_selected) in let nw := od_get p new.(sn_selected) in
    agree old nw /\ od_get p m.(sn_selected) = joined old nw /\ (p ∈ arr <-> key_of old = None /\ is_Some (key_of nw)).
Proof.
  intros Hc Hn H. unfold merge in H. inv_ok. destruct a as [sel mat]. injection H as <- <-.
  destruct (merge_fold _ _ _ _ _ Hc H0) as [Hw Hp]. specialize (Hw Hn).
  split_and!; try done. intros p old nw. destruct (Hp p) as (Hag & Hj & Hm). fold old nw in Hag, Hj, Hm. split; [done|]. split; [done|].
  rewrite elem_of_union, with_key_elem, (od_get_filter_keys (fun q => negb (od_mem q (sn_selected cur)))), Hm by (by apply od_wf_filter).
  cbn [sn_selected]. rewrite Hj. unfold od_mem. fold old. clearbody old nw. unfold arrives, key_of.
  rewrite elem_of_empty. unfold is_Some.
  destruct old as [old|], nw as [nw|]; cbn; naive_solver.
Qed.

(** ** Normalised snapshots *)

Section Digest.
Context (hexdigest : string -> string).
Abbreviation split_key := (split_key hexdigest).

(** A split that is selected is a split of its partition, under its key. *)
Definition sane (p : Z) (e : Selection) : Prop :=
  forall d, e.(se_split) = Some d -> exists s, wf_split s /\ d = Split.to_dict s /\ s.(kind) = "exchange_source_task" /\
    s.(source_partition_id) = p /\ e.(se_split_key) = Some (split_key s).

Lemma normalize_split_ok source p payload d a k :
  normalize_split hexdigest source p payload = Ok (d, a, k) ->
  exists s, wf_split s /\ d = Split.to_dict s /\ s.(kind) = "exchange_source_task" /\ s.(source_partition_id) = p /\ k = split_key s.
Proof.
  unfold normalize_split. intros H. inv_ok. apply split_from_dict_fields in H0 as [Hwf _].
  rename a0 into s. exists s. split; [done|]. split; [done|]. 
  apply negb_false_iff, String.eqb_eq in H1. apply negb_false_iff, Z.eqb_eq in H2. done.
Qed.

Lemma selected_split_ok source p split key d a k :
  selected_split hexdigest source p split key = Ok (Some d, a, k) ->
  exists s, wf_split s /\ d = Split.to_dict s /\ s.(kind) = "exchange_source_task" /\ s.(source_partition_id) = p /\ k = Some (split_key s).
Proof.
  intros H. destruct split; try done. cbn in H. destruct (normalize_split hexdigest source p d0) as [[[d' a'] k']|] eqn:E; [|done].
  injection H as -> -> <-. destruct (normalize_split_ok _ _ _ _ _ _ E) as (s & Hs). exists s. naive_solver.
Qed.

Lemma normalize_mapping_sane source p entry e : normalize_mapping hexdigest source p entry = Ok e -> sane p e.
Proof.
  unfold normalize_mapping. intros H. inv_ok. destruct a as [[[d|] a] k]; inv_ok; intros d' Hd; [|done].
  injection Hd as <-. by eapply selected_split_ok.
Qed.

Lemma normalize_entry_sane source p raw e : normalize_entry hexdigest source p raw = Ok e -> sane p e.
Proof. destruct raw; cbn [normalize_entry]; intros H; try (by eapply normalize_mapping_sane). injection H as <-. by intros d Hd. Qed.

(** The entries of a table of selections. *)
Definition sound (l : list (Z * Selection)) : Prop := od_wf l /\ forall p e, od_get p l = Some e -> sane p e.

Lemma sound_set l p e : sound l -> sane p e -> sound (od_set p e l).
Proof.
  intros [Hwf Hl] He. split; [by apply od_wf_set|]. intros q e'. rewrite od_get_set. destruct (decide (p = q)) as [->|]; [|by apply Hl].
  by intros [= <-].
Qed.

Lemma sound_nil : sound [].
Proof. split; [apply NoDup_nil_2|done]. Qed.

Lemma normalize_selected_sound source payload l : normalize_selected hexdigest source payload = Ok l -> sound l.
Proof.
  unfold normalize_selected. destruct (negb (truthy payload)); [intros [= <-]; apply sound_nil|]. intros H. inv_ok.
  eapply (rfoldM_inv sound); [exact H|apply sound_nil|]. intros acc item acc' _ Hacc Hs. unfold select_item in Hs. inv_ok.
  apply sound_set; [done|]. by eapply normalize_entry_sane.
Qed.

Lemma normalize_snapshot_sound source selector st s : normalize_snapshot hexdigest source selector st = Ok s -> sound s.(sn_selected).
Proof.
  unfold normalize_snapshot. intros H. inv_ok. destruct a3 as [count selected]. inv_ok. cbn.
  eapply (rfoldM_inv (fun acc => sound acc.2) _ _ _ _ H4); [by eapply normalize_selected_sound|].
  intros acc payload acc' _ Hacc Hs. destruct payload; try done. unfold select_split in Hs. inv_ok. apply sound_set; [done|]. by eapply normalize_entry_sane.
Qed.

(** ** One update *)

(** A final snapshot has an entry for each of its partitions. *)
Definition complete (s : Snapshot) : Prop :=
  s.(sn_final) = true -> exists n, s.(sn_partition_count) = Some n /\ forall p, 0 <= p < n -> is_Some (od_get p s.(sn_selected)).

Lemma validate_complete s u : validate s = Ok u -> complete s.
Proof.
  unfold validate. intros H Hf. rewrite Hf in H. inv_ok. destruct (sn_partition_count s) as [n|]; [|done]. inv_ok. exists n. split; [done|].
  intros p Hp. apply negb_false_iff, bool_decide_eq_true, nil_length_inv in H.
  destruct (od_get p (sn_selected s)) eqn:E; [done|]. exfalso. assert (Hin : In p (missing_partitions n (sn_selected s))).
  { apply filter_In. unfold od_mem. rewrite E. split; [|done]. apply in_map_iff. exists (Z.to_nat p). split; [lia|]. apply in_seq. lia. }
  by rewrite H in Hin.
Qed.

(** The selection for a partition of a source. *)
Definition selection (st : FragmentState) (source : string) (p : Z) : option Selection :=
  od_get source st.(fs_selectors) ≫= fun s => od_get p s.(sn_selected).

(** The current snapshots are what updates have left. *)
Definition orderly (st : FragmentState) : Prop :=
  forall source s, od_get source st.(fs_selectors) = Some s -> s.(sn_source) = source /\ od_wf s.(sn_selected) /\ complete s.

(** [m] takes the place of what [st] has for the source of [new], and lets
    the partitions [arrived] arrive. *)
Record updates (st : FragmentState) (new m : Snapshot) (arrived : gset Z) : Prop := {
  up_source : m.(sn_source) = new.(sn_source);
  up_final : m.(sn_final) = new.(sn_final);
  up_wf : od_wf m.(sn_selected);
  up_complete : complete m;
  up_open : forall s, od_get new.(sn_source) st.(fs_selectors) = Some s -> s.(sn_final) = false /\ s.(sn_version) < m.(sn_version);
  up_agree : forall p, agree (selection st new.(sn_source) p) (od_get p new.(sn_selected));
  up_joined : forall p, od_get p m.(sn_selected) = joined (selection st new.(sn_source) p) (od_get p new.(sn_selected));
  up_arrived : forall p, p ∈ arrived <-> key_of (selection st new.(sn_source) p) = None /\ is_Some (key_of (od_get p new.(sn_selected)));
}.

Definition installed (m : Snapshot) (st : FragmentState) : FragmentState := (install m st).2.

Lemma install_selectors m st source :
  od_get source (installed m st).(fs_selectors) = if decide (m.(sn_source) = source) then Some m else od_get source st.(fs_selectors).
Proof. cbn. apply od_get_set. Qed.

Lemma updates_first new st u :
  od_get new.(sn_source) st.(fs_selectors) = None -> od_wf new.(sn_selected) -> validate new = Ok u ->
  updates st new new (with_key new.(sn_selected)).
Proof.
  intros Hno Hnew Hv. assert (Hs : forall p, selection st new.(sn_source) p = None) by (intros p; unfold selection; by rewrite Hno).
  constructor; try done; [by eapply validate_complete|by rewrite Hno|..]; intros p; rewrite Hs; [done..|]. rewrite with_key_elem by done. by split; [|intros [_ ?]].
Qed.

Lemma updates_merge new st cur m arrived u :
  od_get new.(sn_source) st.(fs_selectors) = Some cur -> od_wf cur.(sn_selected) -> od_wf new.(sn_selected) ->
  cur.(sn_version) < new.(sn_version) -> cur.(sn_final) = false -> merge cur new = Ok (m, arrived) -> validate m = Ok u -> updates st new m arrived.
Proof.
  intros Hcur Hwf Hnew Hlt Hopen Hm Hv. destruct (merge_ok _ _ _ _ Hwf Hnew Hm) as (Ever & Esrc & Efin & Hmw & Hp).
  assert (Hs : forall p, selection st new.(sn_source) p = od_get p cur.(sn_selected)) by (intros p; unfold selection; by rewrite Hcur).
  constructor; try done; [by eapply validate_complete| |intros p; rewrite Hs; apply Hp..].
  rewrite Hcur. intros s [= <-]. split; [done|]. by rewrite Ever.
Qed.

Lemma apply_snapshot_wp new st :
  orderly st -> od_wf new.(sn_selected) ->
  wp (apply_snapshot new) (fun r st' => if r.1 : bool then exists m, updates st new m r.2 /\ st' = installed m st else st' = st) (fun _ st' => st' = st) st.
Proof.
  intros Hst Hnew. unfold apply_snapshot. wp_step. wp_step.
  destruct (od_get (sn_source new) (fs_selectors st)) as [cur|] eqn:Ecur; [|unfold install, advance_version].
  - destruct (Hst _ _ Ecur) as (_ & Hwf & _). unfold install, advance_version. wp_run; try done.
    exists s. split; [|done]. eapply updates_merge; try done; apply Z.ltb_ge in Heqb; apply Z.eqb_neq in Heqb0; lia.
  - wp_run; try done. exists new. split; [|done]. by eapply updates_first.
Qed.

(** ** Growth *)

(** What may become of the snapshot of a source. *)
Definition extends (o o' : option Snapshot) : Prop :=
  forall s, o = Some s -> exists s', o' = Some s' /\ s.(sn_version) <= s'.(sn_version) /\ (s.(sn_final) = true -> s' = s) /\
    forall p, keeps (od_get p s.(sn_selected)) (od_get p s'.(sn_selected)).

#[export] Instance extends_preorder : PreOrder extends.
Proof.
  split; [intros o s Hs; exists s; split_and!; done || lia|]. intros x y z Hxy Hyz s Hs.
  destruct (Hxy s Hs) as (s1 & H1 & Hv1 & Hf1 & Hk1). destruct (Hyz s1 H1) as (s2 & H2 & Hv2 & Hf2 & Hk2).
  exists s2. split; [done|]. split; [lia|]. split; [|intros p; by rewrite Hk1].
  intros Hf. specialize (Hf1 Hf). subst s1. by apply Hf2.
Qed.

Definition grows (st st' : FragmentState) : Prop := forall source, extends (od_get source st.(fs_selectors)) (od_get source st'.(fs_selectors)).

#[export] Instance grows_preorder : PreOrder grows.
Proof. split; [by intros st source|]. intros x y z Hxy Hyz source. by rewrite (Hxy source). Qed.

Lemma grows_unchanged st st' : st'.(fs_selectors) = st.(fs_selectors) -> grows st st'.
Proof. intros E source. by rewrite E. Qed.

Lemma orderly_same st st' : st'.(fs_selectors) = st.(fs_selectors) -> orderly st -> orderly st'.
Proof. unfold orderly. by intros ->. Qed.

Lemma installed_grows st new m arrived : updates st new m arrived -> grows st (installed m st).
Proof.
  intros [Hsrc _ _ _ Hopen Hag Hj _] source. rewrite install_selectors. destruct (decide _) as [<-|]; [|done]. intros s Hs.
  rewrite Hsrc in Hs. destruct (Hopen s Hs) as [Hf Hv]. exists m. split; [done|]. split; [lia|]. split; [by rewrite Hf|].
  intros p. rewrite Hj. specialize (Hag p). unfold selection in *. rewrite Hs in *. by apply joined_keeps.
Qed.

Lemma installed_orderly st new m arrived : updates st new m arrived -> orderly st -> orderly (installed m st).
Proof.
  intros Hu Hst source s. rewrite install_selectors. destruct (decide _) as [<-|]; [|apply Hst]. intros [= <-].
  split; [done|]. split; [apply Hu|apply Hu].
Qed.

(** ** Taking splits *)

Definition keys (st : FragmentState) (source : string) : gset string := od_get_default source ∅ st.(fs_split_keys).

(** Only the keys of splits differ. *)
Definition same_but_keys (st st' : FragmentState) : Prop :=
  st'.(fs_selectors) = st.(fs_selectors) /\ st'.(fs_exhausted) = st.(fs_exhausted).

#[export] Instance same_but_keys_preorder : PreOrder same_but_keys.
Proof. split; [done|]. intros x y z [H1 H2] [H3 H4]. split; congruence. Qed.

Lemma keys_set st source source' ks :
  keys (st <| fs_split_keys ::= od_set source ks |>) source' = if decide (source = source') then ks else keys st source'.
Proof. unfold keys, od_get_default. cbn. rewrite od_get_set. by destruct (decide (source = source')). Qed.

Lemma keys_setdefault st source source' : keys (st <| fs_split_keys ::= od_setdefault source ∅ |>) source' = keys st source'.
Proof.
  unfold keys, od_get_default. cbn. rewrite od_get_setdefault. destruct (decide _) as [<-|]; [|done]. by destruct (od_get source (fs_split_keys st)).
Qed.

(** Of the splits [l], those are taken whose key was not there before, each
    key once. *)
Lemma take_fold source l splits st :
  exists more st', sfold l (take_split hexdigest source) splits st = (Ok (splits ++ more), st') /\ same_but_keys st st' /\
    (forall s, s ∈ more -> s ∈ l /\ split_key s ∉ keys st source) /\ NoDup (map split_key more) /\
    (forall source' k, k ∈ keys st' source' <-> k ∈ keys st source' \/ source' = source /\ k ∈ map split_key more) /\
    forall s, s ∈ l -> split_key s ∈ keys st' source.
Proof.
  revert splits st. induction l as [|s l IH]; intros splits st.
  - exists [], st. rewrite app_nil_r. split; [done|]. split; [done|]. split; [by intros s Hs%elem_of_nil|]. split; [apply NoDup_nil_2|].
    split; [|by intros s Hs%elem_of_nil]. intros source' k. split; [by left|]. intros [?|[_ Hk]]; [done|]. by apply elem_of_nil in Hk.
  - cbn [sfold]. unfold sbind at 1. unfold take_split at 1, sbind at 1, sget at 1. fold (keys st source). case_bool_decide as Hseen.
    + destruct (IH splits st) as (more & st' & E & Hsame & Hm & Hnd & Hk & Hall). exists more, st'. split; [done|]. split; [done|].
      split; [|split; [done|split; [done|]]].
      * intros s' Hs'. destruct (Hm s' Hs'). split; [by right|done].
      * intros s' [->|Hs']%elem_of_cons; [|by apply Hall]. apply Hk. by left.
    + cbn. set (st1 := st <| fs_split_keys ::= od_set source ({[split_key s]} ∪ keys st source) |>).
      destruct (IH (splits ++ [s]) st1) as (more & st' & E & Hsame & Hm & Hnd & Hk & Hall).
      assert (Hst1 : forall source' k, k ∈ keys st1 source' <-> k ∈ keys st source' \/ source' = source /\ k = split_key s).
      { intros source' k. unfold st1. rewrite keys_set. destruct (decide (source = source')) as [<-|Hne]; set_solver. }
      exists (s :: more), st'. split; [rewrite <- app_assoc in E; exact E|]. split; [destruct Hsame; by split|].
      split; [|split; [|split]].
      * intros s' [->|Hs']%elem_of_cons; [split; [by left|done]|]. destruct (Hm s' Hs') as [? Hn]. split; [by right|].
        intros Hin. apply Hn, Hst1. by left.
      * cbn. apply NoDup_cons. split; [|done]. intros (s' & Es & Hs')%list_elem_of_fmap. destruct (Hm s' Hs') as [_ Hn]. apply Hn, Hst1. right. by rewrite Es.
      * intros source' k. rewrite Hk, Hst1. cbn. rewrite elem_of_cons. naive_solver.
      * intros s' [->|Hs']%elem_of_cons; [|by apply Hall]. apply Hk. left. apply Hst1. by right.
Qed.

(** ** A selector's update, as a whole *)

Lemma rmapM_elem {A B} (f : A -> result B) l l' : rmapM f l = Ok l' -> forall y, y ∈ l' <-> exists x, x ∈ l /\ f x = Ok y.
Proof.
  revert l'. induction l as [|x l IH]; intros l' H y; cbn in H; inv_ok.
  - split; [by intros ?%elem_of_nil|intros (x & ?%elem_of_nil & _); done].
  - rewrite elem_of_cons, (IH _ H1). split.
    + intros [->|(x' & Hx & Hf)]; [exists x; by split; [left|]|exists x'; by split; [right|]].
    + intros (x' & [->|Hx]%elem_of_cons & Hf); [left; congruence|right; by exists x'].
Qed.

(** The splits of a normalised snapshot are those of its entries. *)
Lemma snapshot_splits_elem source new raw :
  sound new.(sn_selected) -> snapshot_splits source new = Ok raw -> forall s, s ∈ raw <->
  exists e, od_get s.(source_partition_id) new.(sn_selected) = Some e /\ e.(se_split) = Some (Split.to_dict s) /\
    e.(se_split_key) = Some (split_key s) /\ s.(kind) = "exchange_source_task" /\ wf_split s.
Proof.
  intros [Hwf Hs] H s. rewrite (rmapM_elem _ _ _ H). split.
  - intros (d & (e & He & Hd)%list_elem_of_omap & Hf). apply list_elem_of_fmap in He as ([p e'] & -> & He). cbn in Hd.
    apply (od_elem_get _ _ _ Hwf) in He. destruct (Hs _ _ He d Hd) as (s' & Hw & -> & Hk & Hp & Hkey).
    rewrite split_from_to_dict in Hf by done. injection Hf as <-. exists e'. by rewrite Hp.
  - intros (e & He & Hd & _ & _ & Hw). exists (Split.to_dict s). split; [|by apply split_from_to_dict]. apply list_elem_of_omap. exists e.
    split; [|done]. apply list_elem_of_fmap. exists (source_partition_id s, e). split; [done|]. by apply od_get_elem.
Qed.

(** What an update that was accepted has done. *)
Record accepted (source : string) (selector : list (pyval * pyval)) (st : FragmentState) (l : list FteSplit) (st' : FragmentState) (new m : Snapshot)
    (arrived : gset Z) : Prop := {
  ac_new : normalize_snapshot hexdigest source selector st = Ok new;
  ac_source : new.(sn_source) = source;
  ac_updates : updates st new m arrived;
  ac_selectors : st'.(fs_selectors) = (installed m st).(fs_selectors);
  ac_exhausted : forall x, x ∈ st'.(fs_exhausted) -> x ∈ st.(fs_exhausted) \/ x = source /\ m.(sn_final) = true;
  ac_taken : forall s, s ∈ l -> s.(source_partition_id) ∈ arrived /\ key_of (od_get s.(source_partition_id) new.(sn_selected)) = Some (split_key s) /\
    s.(kind) = "exchange_source_task" /\ split_key s ∉ keys st source;
  ac_once : NoDup (map split_key l);
  ac_keys : forall x k, k ∈ keys st' x <-> k ∈ keys st x \/ x = source /\ k ∈ map split_key l;
  ac_all : forall p e k, p ∈ arrived -> od_get p new.(sn_selected) = Some e -> is_Some e.(se_split) -> e.(se_split_key) = Some k -> k ∈ keys st' source;
}.

Lemma accepted_intro source selector st new raw m arrived more st2 st' :
  normalize_snapshot hexdigest source selector st = Ok new -> new.(sn_source) = source -> snapshot_splits source new = Ok raw ->
  updates st new m arrived ->
  sfold (List.filter (fun s => bool_decide (s.(source_partition_id) ∈ arrived)) raw) (take_split hexdigest source) []
    (installed m st <| fs_split_keys ::= od_setdefault source ∅ |>) = (Ok more, st2) ->
  st'.(fs_selectors) = st2.(fs_selectors) -> st'.(fs_split_keys) = st2.(fs_split_keys) ->
  (forall x, x ∈ st'.(fs_exhausted) -> x ∈ st2.(fs_exhausted) \/ x = source /\ m.(sn_final) = true) ->
  accepted source selector st more st' new m arrived.
Proof.
  intros Hnew Hsrc Hraw Hup Hfold Hsel Hkeys Hex. pose proof (normalize_snapshot_sound _ _ _ _ Hnew) as Hsound.
  pose proof (snapshot_splits_elem _ _ _ Hsound Hraw) as Hin.
  edestruct take_fold as (more' & st2' & E & [Hs2 He2] & Hm & Hnd & Hk & Hall). rewrite Hfold in E. injection E as -> <-.
  assert (Hk0 : forall x, keys (installed m st <| fs_split_keys ::= od_setdefault source ∅ |>) x = keys st x) by (intros x; by rewrite keys_setdefault).
  assert (Hk2 : forall x, keys st' x = keys st2 x) by (intros x; unfold keys; by rewrite Hkeys).
  assert (Hfil : forall s, s ∈ List.filter (fun s => bool_decide (s.(source_partition_id) ∈ arrived)) raw <-> s.(source_partition_id) ∈ arrived /\ s ∈ raw).
  { intros s. rewrite !list_elem_of_In, filter_In, bool_decide_eq_true. tauto. }
  constructor; try done.
  - by rewrite Hsel, Hs2.
  - intros x Hx. destruct (Hex x Hx) as [Hx2|]; [left|by right]. by rewrite He2 in Hx2.
  - intros s Hs. destruct (Hm s Hs) as [Hl Hnk]. apply Hfil in Hl as [Ha Hr]. apply Hin in Hr as (e & He & _ & Hke & Hkd & _).
    rewrite Hk0 in Hnk. rewrite He. done.
  - intros x k. by rewrite Hk2, Hk, Hk0.
  - intros p e k Hp He [d Hd] Hke. destruct (proj2 Hsound _ _ He d Hd) as (s & Hw & -> & Hkd & Hps & Hks).
    rewrite Hk2. assert (k = split_key s) as -> by congruence. apply Hall, Hfil. subst p. split; [done|]. apply Hin. by exists e.
Qed.

Lemma selector_updated_wp source selector b st :
  orderly st ->
  wp (selector_updated hexdigest source selector b)
    (fun l st' => l = [] /\ st' = st \/ exists new m arrived, accepted source selector st l st' new m arrived)
    (fun _ st' => st' = st \/ source ∈ st.(fs_exhausted) /\ exists new m arrived, new.(sn_source) = source /\ updates st new m arrived /\ st' = installed m st)
    st.
Proof.
  intros Hst. unfold selector_updated, apply_update. wp_step. wp_step. wp_step. wp_step. wp_step; [|cbn beta; by left].
  rename a into new. pose proof (normalize_snapshot_sound _ _ _ _ H) as Hsound. wp_step. wp_step; [|cbn beta; by left].
  wp_step. wp_step; [|cbn beta; by left]. rename a into raw. wp_step.
  eapply wp_mono; [by apply apply_snapshot_wp, Hsound| |cbn beta; by left]. cbn beta.
  intros [[|] arrived] st1; cbn [fst snd]; [|intros ->; cbn; by left]. intros (m & Hup & ->). cbn [negb].
  apply negb_false_iff, String.eqb_eq in H0. wp_step. wp_step. wp_step. wp_step; cycle 1.
  { cbn beta. right. apply andb_true_iff in H2 as [He _]. apply bool_decide_eq_true in He. split; [done|]. by exists new, m, arrived. }
  wp_step. wp_step. wp_step. unfold wp at 1.
  edestruct take_fold as (more & st2 & E & Hsame & _). rewrite E. cbn [app].
  wp_step. wp_step. wp_step; wp_step; wp_step; right; exists new, m, arrived; (eapply accepted_intro; try done).
  - intros x [->%elem_of_singleton|Hx]%elem_of_union; [right|by left]. split; [done|]. rewrite (up_final _ _ _ _ Hup).
    by apply andb_true_iff in Heqb0 as [? _].
  - intros x Hx. by left.
Qed.

(** ** Submissions *)

Lemma mark_partitions_seen_wp metadata st :
  wp (mark_partitions_seen metadata) (fun _ st' => same_but_keys st st' /\ st'.(fs_split_keys) = st.(fs_split_keys))
    (fun _ st' => same_but_keys st st' /\ st'.(fs_split_keys) = st.(fs_split_keys)) st.
Proof.
  unfold mark_partitions_seen.
  apply (wp_fold _ (fun _ st' => same_but_keys st st' /\ st'.(fs_split_keys) = st.(fs_split_keys))); [|done].
  intros acc [source [[ids partitions] tasks]] st1 _ [[Hs He] Hk]. unfold mark_source. wp_run; done.
Qed.

(** ** What was delivered *)

Definition exchange (d : Delivery) : bool := String.eqb d.(dv_split).(kind) "exchange_source_task".
Definition name (d : Delivery) : string * string := (d.(dv_source), split_key d.(dv_split)).
Definition names (log : list Delivery) : list (string * string) := map name (List.filter exchange log).

(** The keys that are remembered are those of the exchange splits that were
    delivered, and none was delivered twice. *)
Definition faithful (st : FragmentState) (log : list Delivery) : Prop :=
  NoDup (names log) /\ forall source k, k ∈ keys st source <-> (source, k) ∈ names log.

Lemma names_app l l' : names (l ++ l') = names l ++ names l'.
Proof. unfold names. by rewrite List.filter_app, map_app. Qed.

Lemma faithful_more st log st' new source ks :
  faithful st log -> names new = map (pair source) ks -> NoDup ks -> (forall k, k ∈ ks -> k ∉ keys st source) ->
  (forall x k, k ∈ keys st' x <-> k ∈ keys st x \/ x = source /\ k ∈ ks) -> faithful st' (log ++ new).
Proof.
  intros [Hnd Hk] Hn Hks Hfresh Hk'. unfold faithful. rewrite names_app, Hn. split.
  - apply NoDup_app. split; [done|]. split; [|by apply NoDup_fmap_2; [intros ?? [=]|]].
    intros [x k] Hx (k' & [= -> ->] & Hin)%list_elem_of_fmap. by apply (Hfresh k'), Hk.
  - intros x k. rewrite Hk', Hk, elem_of_app, list_elem_of_fmap. naive_solver.
Qed.

Lemma faithful_same st st' log : st'.(fs_split_keys) = st.(fs_split_keys) -> faithful st log -> faithful st' log.
Proof. unfold faithful, keys. by intros ->. Qed.

(** What [take_fold] adds keeps the log faithful. *)
Lemma taken_faithful st log st' source sel more :
  faithful st log -> (forall s, s ∈ more -> s.(kind) = "exchange_source_task" /\ split_key s ∉ keys st source) -> NoDup (map split_key more) ->
  (forall x k, k ∈ keys st' x <-> k ∈ keys st x \/ x = source /\ k ∈ map split_key more) ->
  faithful st' (log ++ map (fun s => MkDelivery source s sel) more).
Proof.
  intros Hf Hm Hnd Hk. eapply (faithful_more _ _ _ _ source (map split_key more)); [done| |done| |done].
  - unfold names. rewrite (forallb_filter_id exchange), !map_map; [done|]. apply forallb_forall. intros d (s & <- & Hs%list_elem_of_In)%in_map_iff.
    apply String.eqb_eq, (Hm s Hs).
  - intros k (s & -> & Hs)%list_elem_of_fmap. apply (Hm s Hs).
Qed.

Lemma accepted_faithful source selector st l st' new m arrived log :
  accepted source selector st l st' new m arrived -> faithful st log -> faithful st' (log ++ map (fun s => MkDelivery source s true) l).
Proof.
  intros Ha Hf. apply (taken_faithful st); [done| |apply Ha|apply Ha]. intros s Hs.
  by destruct (ac_taken _ _ _ _ _ _ _ _ Ha s Hs) as (_ & _ & Hk & Hn).
Qed.

Definition submitted (l : list FteSplit) : list Delivery := map (fun s => MkDelivery s.(source_node_id) s false) l.

Lemma submit_splits_wp metadata splits st log :
  faithful st log ->
  wp (submit_splits hexdigest metadata splits)
    (fun l st' => same_but_keys st st' /\ faithful st' (log ++ submitted l) /\ forall x, keys st x ⊆ keys st' x)
    (fun _ st' => same_but_keys st st' /\ st'.(fs_split_keys) = st.(fs_split_keys)) st.
Proof.
  intros Hf. unfold submit_splits. wp_step. eapply wp_mono; [apply mark_partitions_seen_wp| |done]. cbn beta.
  intros up st1 [H1 Hk1].
  apply (wp_fold _ (fun l st' => same_but_keys st st' /\ faithful st' (log ++ submitted l) /\ forall x, keys st x ⊆ keys st' x)); cycle 1.
  { split; [done|]. split; [rewrite app_nil_r; by eapply faithful_same|]. intros x. unfold keys. by rewrite Hk1. }
  intros l s st2 _ (Hs2 & Hf2 & Hk2). unfold submit_split. unfold submitted in *. wp_step.
  { wp_step. split; [done|]. split; [|done]. rewrite map_app, app_assoc. unfold faithful. rewrite names_app.
    unfold names at 2 4. cbn. unfold exchange. cbn. apply negb_true_iff in Heqb as ->. by rewrite app_nil_r. }
  wp_step; [by wp_step|]. wp_step. wp_step. apply negb_false_iff, String.eqb_eq in Heqb.
  set (st3 := set_field _ _ _). assert (Hk3 : forall x, keys st3 x = keys st2 x) by (intros x; apply keys_setdefault).
  destruct (take_fold (source_node_id s) [s] l st3) as (more & st4 & E & Hs4 & Hm & Hnd & Hk4 & _).
  unfold wp. cbn [sfold] in E. unfold sbind in E. destruct (take_split _ _ _ _ _) as [[l'|] st5]; [|done]. injection E as -> ->.
  assert (Hms : forall s', s' ∈ more -> s' = s) by (intros s' Hs'; by destruct (Hm s' Hs') as [->%list_elem_of_singleton _]).
  split; [etrans; [done|]; etrans; [|done]; done|]. split.
  - rewrite map_app, app_assoc, (map_ext_in _ (fun x => MkDelivery (source_node_id s) x false) more).
    + apply (taken_faithful st2); [done| |done|intros x k; by rewrite Hk4, Hk3]. intros s' Hs'. destruct (Hm s' Hs') as [_ Hn]. rewrite Hk3 in Hn.
      split; [by rewrite (Hms s' Hs')|done].
    + intros x Hx%list_elem_of_In. by rewrite (Hms x Hx).
  - intros x k Hx. apply Hk4. left. rewrite Hk3. by apply Hk2.
Qed.

(** ** Every call *)

Lemma grows_selection st st' source p : grows st st' -> keeps (selection st source p) (selection st' source p).
Proof.
  intros Hg e He. unfold selection in *. destruct (od_get source (fs_selectors st)) as [s|] eqn:Es; [|done].
  destruct (Hg source s Es) as (s' & -> & _ & _ & Hk). by apply Hk.
Qed.

Lemma keeps_key o o' k : keeps o o' -> key_of o = Some k -> key_of o' = Some k.
Proof. intros Hk Ho. destruct o as [e|]; [|done]. destruct (Hk e eq_refl) as (e' & -> & _ & Hkey). by apply Hkey. Qed.

(** The splits that selectors have brought are the ones selected. *)
Definition chosen (st : FragmentState) (log : list Delivery) : Prop :=
  forall d, d ∈ log -> d.(dv_selected) = true ->
  exchange d = true /\ key_of (selection st d.(dv_source) d.(dv_split).(source_partition_id)) = Some (split_key d.(dv_split)).

Lemma chosen_grows st st' log : grows st st' -> chosen st log -> chosen st' log.
Proof. intros Hg Hc d Hd Hs. destruct (Hc d Hd Hs) as [? Hk]. split; [done|]. by eapply keeps_key; [apply grows_selection|]. Qed.

Lemma accepted_selection source selector st l st' new m arrived x p :
  accepted source selector st l st' new m arrived ->
  selection st' x p = if decide (source = x) then od_get p m.(sn_selected) else selection st x p.
Proof.
  intros Ha. unfold selection. rewrite (ac_selectors _ _ _ _ _ _ _ _ Ha), install_selectors.
  rewrite (up_source _ _ _ _ (ac_updates _ _ _ _ _ _ _ _ Ha)), (ac_source _ _ _ _ _ _ _ _ Ha). by destruct (decide (source = x)).
Qed.

Lemma accepted_grows source selector st l st' new m arrived : accepted source selector st l st' new m arrived -> grows st st'.
Proof.
  intros Ha. etrans; [apply (installed_grows _ _ _ _ (ac_updates _ _ _ _ _ _ _ _ Ha))|]. apply grows_unchanged, (ac_selectors _ _ _ _ _ _ _ _ Ha).
Qed.

Lemma accepted_chosen source selector st l st' new m arrived log :
  accepted source selector st l st' new m arrived -> chosen st log -> chosen st' (log ++ map (fun s => MkDelivery source s true) l).
Proof.
  intros Ha Hc d [Hd|Hd]%elem_of_app Hs; [by eapply chosen_grows; [eapply accepted_grows|..]|].
  apply list_elem_of_fmap in Hd as (s & -> & Hl). cbn [dv_source dv_split]. destruct (ac_taken _ _ _ _ _ _ _ _ Ha s Hl) as (Harr & Hk & Hx & _).
  split; [by apply String.eqb_eq|]. rewrite (accepted_selection _ _ _ _ _ _ _ _ source _ Ha), decide_True by done.
  destruct (ac_updates _ _ _ _ _ _ _ _ Ha) as [_ _ _ _ _ Hag Hj Harrived]. rewrite Hj, joined_key by apply Hag.
  by rewrite (proj1 (proj1 (Harrived _) Harr)).
Qed.

(** What every call keeps, whether it returns or raises. *)
Definition kept (st : FragmentState) (log : list Delivery) : Prop := orderly st /\ faithful st log /\ chosen st log.

Lemma kept_same st st' log : same_but_keys st st' -> st'.(fs_split_keys) = st.(fs_split_keys) -> kept st log -> kept st' log /\ grows st st'.
Proof.
  intros [Hs _] Hk (Ho & Hf & Hc). assert (Hg : grows st st') by (by apply grows_unchanged). split; [|done].
  split; [by eapply orderly_same|]. split; [by eapply faithful_same|by eapply chosen_grows].
Qed.

Lemma installed_kept st new m arrived log : updates st new m arrived -> kept st log -> kept (installed m st) log /\ grows st (installed m st).
Proof.
  intros Hu (Ho & Hf & Hc). pose proof (installed_grows _ _ _ _ Hu) as Hg. split; [|done]. split; [by eapply installed_orderly|].
  split; [exact Hf|by eapply chosen_grows].
Qed.

Lemma call_kept c st log :
  kept st log -> wp (do_call hexdigest c) (fun l st' => kept st' (log ++ l) /\ grows st st') (fun _ st' => kept st' log /\ grows st st') st.
Proof.
  intros Hk. pose proof Hk as (Ho & Hf & Hc). destruct c as [source selector b|metadata splits|source]; cbn [do_call]; wp_step.
  - eapply wp_mono; [by apply selector_updated_wp| |]; cbn beta.
    + intros l st' Hl. wp_step. destruct Hl as [[-> ->]|(new & m & arrived & Ha)]; [by rewrite app_nil_r|].
      split; [|by eapply accepted_grows]. split; [|split; [by eapply accepted_faithful|by eapply accepted_chosen]].
      eapply orderly_same; [apply Ha|]. by eapply installed_orderly; [apply Ha|].
    + intros e st' [->|(_ & new & m & arrived & _ & Hu & ->)]; [done|by eapply installed_kept].
  - eapply wp_mono; [by apply submit_splits_wp| |]; cbn beta.
    + intros l st' ([Hs He] & Hf' & _). wp_step. assert (Hg : grows st st') by (by apply grows_unchanged). split; [|done].
      split; [by eapply orderly_same|]. split; [done|]. intros d [Hd|Hd]%elem_of_app; [by eapply chosen_grows|].
      by apply list_elem_of_fmap in Hd as (s & -> & _).
    + intros e st' [Hs Hkeys]. by apply kept_same.
  - unfold exhaust. wp_step. wp_step. rewrite app_nil_r. split; [exact Hk|]. by apply grows_unchanged.
Qed.

Lemma run_kept cs st log : kept st log -> kept (run hexdigest cs st log).1 (run hexdigest cs st log).2 /\ grows st (run hexdigest cs st log).1.
Proof.
  revert st log. induction cs as [|c cs IH]; intros st log Hk; [done|]. pose proof (call_kept c st log Hk) as Hw. unfold wp in Hw. cbn [run].
  destruct (do_call hexdigest c st) as [[l|e] st']; destruct Hw as [Hk' Hg]; [|rewrite app_nil_r]; destruct (IH _ _ Hk') as [? Hg']; (split; [done|]); by rewrite Hg.
Qed.

Lemma new_kept : kept new_state [].
Proof. split; [done|]. split; [split; [apply NoDup_nil_2|]|by intros d Hd%elem_of_nil]. intros source k. cbn. set_solver. Qed.

(** ** Every selected split arrives *)

(** A call that names a split for the source by its key gives the split too,
    and the source is exhausted only through its selector. *)
Definition whole (source : string) (c : call) (st : FragmentState) : Prop :=
  match c with
  | SelectorUpdated x selector _ => x = source -> forall new p e, normalize_snapshot hexdigest x selector st = Ok new ->
      od_get p new.(sn_selected) = Some e -> is_Some e.(se_split_key) -> is_Some e.(se_split)
  | SubmitSplits _ _ => True
  | Exhaust x => x <> source
  end.

(** Every split that is selected for the source has been taken, and a source
    that is exhausted has a final selector. *)
Definition settled (source : string) (st : FragmentState) : Prop :=
  (forall p k, key_of (selection st source p) = Some k -> k ∈ keys st source) /\
  (source ∈ st.(fs_exhausted) -> exists s, od_get source st.(fs_selectors) = Some s /\ s.(sn_final) = true).

Lemma settled_tables source st st' :
  same_but_keys st st' -> keys st source ⊆ keys st' source -> settled source st -> settled source st'.
Proof.
  intros [Hs He] Hk [H1 H2]. unfold settled, selection. rewrite Hs, He. split; [|exact H2]. intros p k Hp. by apply Hk, (H1 p).
Qed.

Lemma settled_other source x st m st' :
  x <> source -> m.(sn_source) = x -> st'.(fs_selectors) = (installed m st).(fs_selectors) ->
  (source ∈ st'.(fs_exhausted) -> source ∈ st.(fs_exhausted)) -> keys st source ⊆ keys st' source -> settled source st -> settled source st'.
Proof.
  intros Hne Hm Hs He Hk [H1 H2]. unfold settled, selection. rewrite Hs, install_selectors, decide_False by congruence.
  split; [intros p k Hp; by apply Hk, (H1 p)|]. intros Hx. by apply H2, He.
Qed.

Lemma accepted_settled source selector st l st' new m arrived :
  accepted source selector st l st' new m arrived ->
  (forall p e, od_get p new.(sn_selected) = Some e -> is_Some e.(se_split_key) -> is_Some e.(se_split)) ->
  settled source st -> settled source st'.
Proof.
  intros Ha Hw [H1 H2]. pose proof (ac_updates _ _ _ _ _ _ _ _ Ha) as [Hsrc Hfin _ _ Hopen Hag Hj Harr].
  rewrite (ac_source _ _ _ _ _ _ _ _ Ha) in *. split.
  - intros p k. rewrite (accepted_selection _ _ _ _ _ _ _ _ source p Ha), decide_True, Hj, joined_key by (done || apply Hag).
    destruct (key_of (selection st source p)) as [k'|] eqn:Eo.
    + intros [= ->]. apply (ac_keys _ _ _ _ _ _ _ _ Ha). left. by apply (H1 p).
    + intros Hk. destruct (od_get p (sn_selected new)) as [e|] eqn:Ee; [|done]. cbn in Hk.
      apply (ac_all _ _ _ _ _ _ _ _ Ha p e k); [|done| |done]; [apply Harr; by rewrite Ee, Eo; cbn; rewrite Hk|]. by apply (Hw p e Ee); rewrite Hk.
  - intros Hx. destruct (ac_exhausted _ _ _ _ _ _ _ _ Ha _ Hx) as [Hold|[_ Hm]].
    + destruct (H2 Hold) as (s & Hs & Hf). destruct (Hopen s Hs). congruence.
    + exists m. split; [|done]. by rewrite (ac_selectors _ _ _ _ _ _ _ _ Ha), install_selectors, decide_True.
Qed.

Lemma call_settled source c st log :
  kept st log -> settled source st -> whole source c st -> settled source (do_call hexdigest c st).2.
Proof.
  intros (Ho & Hf & _) Hs Hw. destruct c as [x selector b|metadata splits|x]; cbn [do_call whole] in *; unfold sbind.
  - pose proof (selector_updated_wp x selector b st Ho) as Hu. unfold wp in Hu.
    destruct (selector_updated _ _ _ _ _) as [[l|e] st']; cbn [snd].
    + destruct Hu as [[_ ->]|(new & m & arrived & Ha)]; [done|]. destruct (decide (x = source)) as [->|Hne].
      * eapply accepted_settled; [done| |done]. intros p e. by apply (Hw eq_refl), Ha.
      * eapply settled_other; [done| |apply Ha|..|done].
        -- rewrite (up_source _ _ _ _ (ac_updates _ _ _ _ _ _ _ _ Ha)). apply Ha.
        -- intros Hx. by destruct (ac_exhausted _ _ _ _ _ _ _ _ Ha _ Hx) as [?|[-> _]].
        -- intros k Hk. apply (ac_keys _ _ _ _ _ _ _ _ Ha). by left.
    + destruct Hu as [->|(Hex & new & m & arrived & Hn & Hu & ->)]; [done|]. destruct (decide (x = source)) as [->|Hne].
      * destruct Hs as [_ H2]. destruct (H2 Hex) as (s & Hs & Hfin). rewrite <- Hn in Hs. destruct (up_open _ _ _ _ Hu s Hs). congruence.
      * eapply (settled_other source x st m); try done. rewrite (up_source _ _ _ _ Hu). done.
  - pose proof (submit_splits_wp metadata splits st log Hf) as Hu. unfold wp in Hu.
    destruct (submit_splits _ _ _ _) as [[l|e] st']; cbn [snd].
    + destruct Hu as (Hsame & _ & Hk). by eapply settled_tables.
    + destruct Hu as (Hsame & Hk). eapply settled_tables; [done| |done]. unfold keys. by rewrite Hk.
  - cbn. destruct Hs as [H1 H2]. split; [exact H1|]. cbn. intros [?%elem_of_singleton|Hx]%elem_of_union; [congruence|by apply H2].
Qed.

Lemma run_settled source cs st log :
  kept st log -> settled source st -> all_along hexdigest (whole source) cs st -> settled source (run hexdigest cs st log).1.
Proof.
  revert st log. induction cs as [|c cs IH]; intros st log Hk Hs Hall; [done|]. destruct Hall as [Hw Hall]. cbn [run].
  pose proof (call_settled source c st log Hk Hs Hw) as Hs'. pose proof (call_kept c st log Hk) as Hk'. unfold wp in Hk'.
  destruct (do_call hexdigest c st) as [[l|e] st']; cbn [snd] in *; apply IH; try done; [apply Hk'|]. rewrite app_nil_r. apply Hk'.
Qed.

Lemma new_settled source : settled source new_state.
Proof. split; [done|]. cbn. set_solver. Qed.

(** ** Partitions *)

Lemma NoDup_map_finer {A B C} (f : A -> B) (g : A -> C) l :
  (forall x y, x ∈ l -> y ∈ l -> f x = f y -> g x = g y) -> NoDup (map g l) -> NoDup (map f l).
Proof.
  induction l as [|x l IH]; intros Hfg Hnd; cbn; [apply NoDup_nil_2|]. cbn in Hnd. apply NoDup_cons in Hnd as [Hx Hnd]. apply NoDup_cons.
  split; [|by apply IH; [intros y z Hy Hz; apply Hfg; by right|]]. intros (y & E & Hy)%list_elem_of_fmap. apply Hx, list_elem_of_fmap.
  exists y. split; [|done]. apply Hfg; [by left|by right|done].
Qed.

Lemma NoDup_map_filter {A B} (g : A -> B) (P Q : A -> bool) l :
  (forall x, x ∈ l -> Q x = true -> P x = true) -> NoDup (map g (List.filter P l)) -> NoDup (map g (List.filter Q l)).
Proof.
  induction l as [|x l IH]; intros HPQ Hnd; cbn; [apply NoDup_nil_2|].
  assert (HPQ' : forall y, y ∈ l -> Q y = true -> P y = true) by (intros; apply HPQ; [by right|done]). cbn in Hnd. destruct (Q x) eqn:Eq.
  - rewrite (HPQ x) in Hnd by (done || by left). cbn in *. apply NoDup_cons in Hnd as [Hx Hnd]. apply NoDup_cons. split; [|by apply IH].
    intros (y & E & Hy)%list_elem_of_fmap. apply Hx, list_elem_of_fmap. exists y. split; [done|].
    rewrite !list_elem_of_In, !filter_In in *. destruct Hy as [Hy Hq]. split; [done|]. apply HPQ'; [by apply list_elem_of_In|done].
  - apply IH; [done|]. destruct (P x); [|done]. by apply NoDup_cons in Hnd as [_ Hnd].
Qed.

(** A partition gets at most one split from the selectors of a source. *)
Definition place (d : Delivery) : string * Z := (d.(dv_source), d.(dv_split).(source_partition_id)).

Lemma one_split_per_partition st log : kept st log -> NoDup (map place (List.filter dv_selected log)).
Proof.
  intros (_ & [Hnd _] & Hc). apply (NoDup_map_finer _ name).
  - intros x y Hx Hy [= Es Ep]. rewrite list_elem_of_In, filter_In in Hx, Hy. destruct Hx as [Hx Hsx], Hy as [Hy Hsy].
    apply list_elem_of_In in Hx, Hy. destruct (Hc x Hx Hsx) as [_ Hkx]. destruct (Hc y Hy Hsy) as [_ Hky].
    unfold name. rewrite Es in *. rewrite Ep in *. f_equal. congruence.
  - eapply NoDup_map_filter; [|exact Hnd]. intros x Hx Hs. by apply Hc.
Qed.

Lemma run_app cs cs' st log : run hexdigest (cs ++ cs') st log = run hexdigest cs' (run hexdigest cs st log).1 (run hexdigest cs st log).2.
Proof.
  revert st log. induction cs as [|c cs IH]; intros st log; [done|]. cbn [run app]. destruct (do_call hexdigest c st) as [r st']. apply IH.
Qed.

End Digest.

(** ** Theorems *)

(** C13: over every history of selector updates, submissions and ends of
    sources, whether the calls return or raise, what is selected stays
    selected: the snapshot of a source is never forgotten and its version
    never falls; the attempt and the key of the split that were selected for
    a partition do not change; and a snapshot that was final has an entry for
    each of its partitions and is never replaced. *)
Theorem selection_is_stable (hexdigest : string -> string) (cs cs' : list call) (source : string) (s : Snapshot) :
  let st := (run hexdigest cs new_state []).1 in
  let st' := (run hexdigest (cs ++ cs') new_state []).1 in
  od_get source st.(fs_selectors) = Some s ->
  exists s', od_get source st'.(fs_selectors) = Some s' /\ s.(sn_version) <= s'.(sn_version) /\
    (s.(sn_final) = true -> s' = s /\ exists n, s.(sn_partition_count) = Some n /\ forall p, 0 <= p < n -> is_Some (od_get p s.(sn_selected))) /\
    forall p e, od_get p s.(sn_selected) = Some e -> exists e', od_get p s'.(sn_selected) = Some e' /\
      (forall a, e.(se_attempt_id) = Some a -> e'.(se_attempt_id) = Some a) /\
      (forall k, e.(se_split_key) = Some k -> e'.(se_split_key) = Some k).
Proof.
  intros st st' Hs. destruct (run_kept hexdigest cs new_state [] (new_kept hexdigest)) as [Hk _].
  destruct (run_kept hexdigest cs' _ _ Hk) as [_ Hg]. rewrite <- run_app in Hg. destruct (Hg source s Hs) as (s' & Hs' & Hv & Hf & Hp).
  exists s'. split; [done|]. split; [done|]. split; [|exact Hp]. intros Hfin. split; [by apply Hf|].
  by apply (proj1 Hk source s Hs).
Qed.

(** C12: over every history, no exchange split is handed to the assigner
    twice for a source, as its key tells; what selectors bring is what is
    selected for the partition, at most one split for each partition; and if
    every update of a source that names the key of a split gives the split
    too, and only its selector ends the source, then every split selected for
    it has been handed over, or one with the same key. *)
Theorem selected_splits_delivered_once (hexdigest : string -> string) (cs : list call) :
  let st := (run hexdigest cs new_state []).1 in
  let log := (run hexdigest cs new_state []).2 in
  NoDup (names hexdigest log) /\ NoDup (map place (List.filter dv_selected log)) /\
  (forall d, d ∈ log -> d.(dv_selected) = true ->
    key_of (selection st d.(dv_source) d.(dv_split).(source_partition_id)) = Some (Selectors.split_key hexdigest d.(dv_split))) /\
  forall source, all_along hexdigest (whole hexdigest source) cs new_state ->
    forall p k, key_of (selection st source p) = Some k ->
    exists d, d ∈ log /\ d.(dv_source) = source /\ Selectors.split_key hexdigest d.(dv_split) = k.
Proof.
  intros st log. destruct (run_kept hexdigest cs new_state [] (new_kept hexdigest)) as [Hk _]. fold st log in Hk.
  pose proof Hk as (Ho & [Hnd Hkeys] & Hc). split; [done|]. split; [by eapply one_split_per_partition|]. split; [intros d Hd Hs; by apply Hc|].
  intros source Hall p k Hp. destruct (run_settled hexdigest source cs new_state [] (new_kept hexdigest) (new_settled source) Hall) as [Hset _].
  fold st in Hset. apply Hset, Hkeys, list_elem_of_fmap in Hp as (d & E & Hd). injection E as -> ->. exists d.
  rewrite list_elem_of_In, filter_In in Hd. destruct Hd as [Hd _]. by apply list_elem_of_In in Hd.
Qed.

(** ** Witnesses *)

(** A digest that keeps everything, and two splits of a source. *)
Definition plain_digest (s : string) : string := s.

Definition scan_split (p : Z) (file : string) : pyval :=
  PDict (pd_lit [("sequence_id", PInt p); ("kind", PStr "exchange_source_task"); ("data", PStr file); ("source_partition_id", PInt p)]).

(** First an attempt is selected, then its split comes; the third update
    completes the selector and is sent twice; the fourth comes too late. *)
Definition first_updates : list call :=
  [SelectorUpdated "x" (pd_lit [("version", PInt 1); ("selected", PDict [(PStr "0", PInt 3)])]) true;
   SelectorUpdated "x" (pd_lit [("version", PInt 2); ("selected", PDict [(PStr "0", PDict (pd_lit [("split", scan_split 0 "f0")]))])]) true].

Definition last_updates : list call :=
  let final := SelectorUpdated "x" (pd_lit [("version", PInt 3); ("final", PBool true); ("splits", PList [scan_split 1 "f1"; scan_split 0 "f0"])]) true in
  [final; final; SelectorUpdated "x" (pd_lit [("version", PInt 4); ("splits", PList [scan_split 2 "f2"])]) true].

(** [whole], as a test. *)
Definition whole_update (source : string) (selector : list (pyval * pyval)) (st : FragmentState) : bool :=
  match normalize_snapshot plain_digest source selector st with
  | Ok new => forallb (fun e => match e.2.(se_split_key), e.2.(se_split) with Some _, None => false | _, _ => true end) new.(sn_selected)
  | Raise _ => true
  end.

Lemma whole_check source x selector b st : whole_update x selector st = true -> whole plain_digest source (SelectorUpdated x selector b) st.
Proof.
  intros H _ new p e Hn He [k Hk]. unfold whole_update in H. rewrite Hn in H. rewrite forallb_forall in H.
  specialize (H (p, e) (proj1 (list_elem_of_In _ _) (od_get_elem _ _ _ He))). cbn in H. rewrite Hk in H. by destruct (se_split e).
Qed.

Lemma selection_is_stable_witness :
  exists s s', od_get "x" (run plain_digest first_updates new_state []).1.(fs_selectors) = Some s /\
    od_get "x" (run plain_digest (first_updates ++ last_updates) new_state []).1.(fs_selectors) = Some s' /\
    s.(sn_version) = 2 /\ s'.(sn_version) = 3 /\ s.(sn_version) <= s'.(sn_version) /\
    exists e', od_get 0 s'.(sn_selected) = Some e' /\ e'.(se_attempt_id) = Some 3.
Proof.
  destruct (od_get "x" (run plain_digest first_updates new_state []).1.(fs_selectors)) as [s|] eqn:Es; [|vm_compute in Es; discriminate Es].
  destruct (selection_is_stable plain_digest first_updates last_updates "x" s Es) as (s' & Hs' & Hv & _ & Hp).
  exists s, s'. split; [reflexivity|]. split; [exact Hs'|].
  assert (Hs : sn_version s = 2) by (vm_compute in Es; injection Es as <-; reflexivity).
  assert (Hs2 : sn_version s' = 3) by (vm_compute in Hs'; injection Hs' as <-; reflexivity).
  split; [exact Hs|]. split; [exact Hs2|]. split; [exact Hv|].
  destruct (od_get 0 s.(sn_selected)) as [e|] eqn:Ee; [|vm_compute in Es; injection Es as <-; vm_compute in Ee; discriminate Ee].
  destruct (Hp 0 e Ee) as (e' & He' & Ha & _). exists e'. split; [exact He'|]. apply Ha.
  vm_compute in Es. injection Es as <-. vm_compute in Ee. injection Ee as <-. reflexivity.
Defined.

Lemma selected_splits_delivered_once_witness :
  map (fun d => (d.(dv_split).(source_partition_id), d.(dv_split).(data))) (run plain_digest (first_updates ++ last_updates) new_state []).2
    = [(0, PStr "f0"); (1, PStr "f1")] /\
  exists d, d ∈ (run plain_digest (first_updates ++ last_updates) new_state []).2 /\ d.(dv_source) = "x" /\
    Selectors.split_key plain_digest d.(dv_split) = "('exchange_source_task', 1, 'f1')".
Proof.
  split; [vm_compute; reflexivity|].
  apply (proj2 (proj2 (proj2 (selected_splits_delivered_once plain_digest (first_updates ++ last_updates)))) "x" ) with (p := 1).
  - cbn [first_updates last_updates app all_along]. repeat (split; [apply whole_check; vm_compute; reflexivity|]). exact I.
  - vm_compute. reflexivity.
Defined.

