(* ===== verification/Findings.v ===== *)
(** * Corner cases

    Behaviour of the resource manager, of the cluster coordinator, of the
    placement and of the exchange selectors that their comments, names and
    messages do not suggest, each on a concrete run. *)

From S2P Require Import Prelude PyStr PyVal PyNum AdmissionLedger QueryGraph GraphProofs GraphTheorems ResourceState ResourcePlacement ResourceManager ResourceBooks ResourceTheorems ClusterCoordinator ClusterTheorems FteTypes FteState SplitAssigner Partition SubmissionWindow WorkerPressure FragmentPlacement PlacementManager ResourceAuthority PlacementTheorems ExchangeSelectors SelectorTheorems.

#[local] Open Scope string_scope.
#[local] Open Scope list_scope.
#[local] Open Scope Z_scope.

(** ** Corners of the resource manager

    Runs of the manager that end where the rest of the code does not expect
    them: attempts that are fenced under one name and filed under another,
    errors raised for requests that elsewhere are refused, and a task that
    finishes with more outputs than its charge. *)

Module ResourceFindings.

Definition ready_calls : list call :=
  [UpdateStageState "stage:a" true None false; UpdateStageState "stage:c" true None false].

(** The identity of an attempt is stripped when it is checked and not when it
    is filed: the same attempt, written with a blank, is granted twice. *)
Definition blank_request : TaskRequest := MkTaskRequest "q" "stage:c" "t1 " "0" None None.

Definition attempts_running (m : Manager) : list (string * string * string) :=
  map (fun l => (l.(tl_stage_id), l.(tl_task_id), l.(tl_attempt_id))) (od_values m.(m_task_leases)).

Example padded_attempt_granted_twice :
  attempts_running (run demo_plan uid (ready_calls ++ [TryAcquireTask blank_request; TryAcquireTask blank_request]) demo_manager) =
    [("stage:c", "t1 ", "0"); ("stage:c", "t1 ", "0")] /\
  attempts_running (run demo_plan uid (ready_calls ++
      [TryAcquireTask (demo_request "stage:c" "t1"); TryAcquireTask (demo_request "stage:c" "t1")]) demo_manager) =
    [("stage:c", "t1", "0")].
Proof. split; vm_compute; reflexivity. Qed.

(** An unknown stage is refused while admission is open, and raises while it
    is closed. *)
Definition stray_request : TaskRequest := MkTaskRequest "q" "stage:zz" "t1" "0" None None.

Example unknown_stage_raises_when_closed :
  (try_acquire_task_descriptor demo_plan uid stray_request demo_manager).1 = Ok (deny "stage_not_registered" true) /\
  (try_acquire_task_descriptor demo_plan uid stray_request (run demo_plan uid [CloseAdmission] demo_manager)).1 =
    Raise (KeyError "'stage:zz'").
Proof. split; vm_compute; reflexivity. Qed.

(** A stage that declares no object-store bytes, as graphs may. *)
Definition bare_stage : StageResourceSpec :=
  MkStage "q" "stage:d" "node:d" "udf" "ray_task" [] (demo_res 1 100 0) 0 0 None Res.zero 0 0 1 "streaming".

Definition bare_graph : QueryExecutionGraph := MkGraph "q" "digest" [bare_stage] ["stage:d"].

Definition bare_allocation : QueryAllocation :=
  MkAllocation (demo_res 8 800 128) [MkNodeAllocation "n1" (demo_res 8 800 128)] [] 1.

(** Input that such a task retains makes the request raise. *)
Example undeclared_input_raises :
  match NewManager.new bare_graph bare_allocation demo_ratio with
  | Ok (p, m) => (try_acquire_task p uid (MkTaskRequest "q" "stage:d" "t1" "0" None (Some 1))
                    (run p uid [UpdateStageState "stage:d" true None false] m)).1
  | Raise e => Raise e
  end = Raise (RuntimeError "stage stage:d requested undeclared object_store_bytes capacity").
Proof. vm_compute. reflexivity. Qed.

(** A worker stage whose allocation holds one output window. *)
Definition narrow_stage : StageResourceSpec :=
  MkStage "q" "stage:e" "node:e" "scan" "ray_worker" [] (demo_res 1 100 0) 4 2 None Res.zero 0 0 1 "streaming".

Definition narrow_graph : QueryExecutionGraph := MkGraph "q" "digest" [narrow_stage] ["stage:e"].

Definition narrow_allocation : QueryAllocation :=
  MkAllocation (demo_res 8 800 8) [MkNodeAllocation "n1" (demo_res 8 800 8)] [] 1.

Definition block (id : string) (size : Z) : OutputBlockRequest := MkOutputRequest "q" "stage:e" "x" "0" id size.

Definition overrun_calls : list call :=
  [UpdateStageState "stage:e" true None false; TryAcquireTask (demo_request "stage:e" "t1");
   TryAcquireOutputBlock (block "b1" 4); TryAcquireOutputBlock (block "b2" 4);
   FinishTaskWithOutputs "x" "0" [block "b3" 4; block "b4" 4]].

(** A task that has leased its window in blocks and reports another window of
    outputs as it finishes leaves more in the object store than the query was
    given: what a finishing task reports is only compared with its window. *)
Example finish_beyond_allocation :
  match NewManager.new narrow_graph narrow_allocation demo_ratio with
  | Ok (p, m) => match query_usage (run p uid overrun_calls m) with Ok u => Some (vb Objects u) | Raise _ => None end
  | Raise _ => None
  end = Some 16.
Proof. vm_compute. reflexivity. Qed.

End ResourceFindings.

(** ** Corners of the cluster coordinator

    Calls that end otherwise than the coordinator's own states and messages
    say, and the split of a node's memory. *)

Module ClusterFindings.
Import Cluster.

(** *** Actors that fit, tasks that do not *)

(** Three processors: two for the actor, one for a task. *)
Definition split_demand (id : string) : QueryDemand :=
  MkDemand id (demo_res 3 100 100) (demo_res 3 100 100) (f64_of_int 1) 0 [MkBundle "s" 0 (demo_res 2 10 10)] [demo_res 1 90 90].

Example split_demand_accepted :
  new_demand "q" (demo_res 3 100 100) (demo_res 3 100 100) (f64_of_int 1) 0 [MkBundle "s" 0 (demo_res 2 10 10)] [demo_res 1 90 90] = Ok (split_demand "q").
Proof. vm_compute. reflexivity. Qed.

Definition small_cluster (cpu : Z) : Coordinator :=
  match new [big_node "n1" cpu 1200 1200] (now 30) with Ok s => s | Raise _ => MkCoordinator f64_zero [] [] 0 0 end.

Definition phases (s : Coordinator) : list (string * phase) := map (fun q => (q.1, q.2.(qs_state))) s.(cl_queries).

(** The query waits when nothing of it fits, and runs when all of it does;
    when its actor fits and its task does not, the placements of the actor
    are published without the node they are on, and the call raises. *)
Example partial_fit_raises :
  phases (do_call (RegisterQuery (split_demand "q") (now 0)) (small_cluster 1)).2 = [("q", PENDING_RESOURCES)] /\
  phases (do_call (RegisterQuery (split_demand "q") (now 0)) (small_cluster 3)).2 = [("q", RUNNING)] /\
  (do_call (RegisterQuery (split_demand "q") (now 0)) (small_cluster 2)).1 = Raise (ValueError "actor placement references unallocated node_id: n1").
Proof. repeat split; vm_compute; reflexivity. Qed.

(** A query that waits in this way makes the update of the nodes raise, with
    the new nodes in place and the published allocations of the old ones. *)
Example partial_fit_breaks_update :
  let s := (do_call (RegisterQuery (split_demand "q") (now 0)) (small_cluster 1)).2 in
  let (r, s') := do_call (UpdateNodeCapacities [big_node "n1" 2 1200 1200]) s in
  r = Raise (ValueError "actor placement references unallocated node_id: n1") /\
  (map (fun n => f64_trunc n.2.(nc_resources).(r_cpu)) s'.(cl_nodes)) = [Ok 2] /\ s'.(cl_generation) = 2 /\
  (map (fun q => q.2.(qs_allocation).(al_generation)) s'.(cl_queries)) = [1].
Proof. vm_compute. repeat split. Qed.

(** *** A refreshed demand *)

(** A demand that asks for a second actor: the placements that are pinned
    stay as they are, and the query is RUNNING without its new actor. *)
Definition grown_demand (id : string) : QueryDemand :=
  MkDemand id (demo_res 4 100 100) (demo_res 4 100 100) (f64_of_int 1) 0
    [MkBundle "s" 0 (demo_res 2 10 10); MkBundle "s" 1 (demo_res 1 0 0)] [demo_res 1 90 90].

Example refreshed_actor_not_placed :
  let s := run [RegisterQuery (split_demand "q") (now 0); RefreshQuery "q" Res.zero 1 (now 1) (Some (grown_demand "q"))] (small_cluster 8) in
  phases s = [("q", RUNNING)] /\
  map (fun q => map (fun p => (p.(ap_stage_id), p.(ap_actor_index))) q.2.(qs_allocation).(al_placements)) s.(cl_queries) = [[("s", 0)]].
Proof. vm_compute. repeat split. Qed.

(** *** Memory of a node *)

(** The parts of a node's memory are positive and add up to it, exactly when
    the node has at least 20 bytes; tasks get at least three fifths. *)
Lemma memory_layout_exact bytes :
  match memory_layout bytes with
  | Ok l => 20 <= bytes /\ 0 < l.(ml_worker_duckdb) /\ 0 < l.(ml_driver_reserve) /\ 0 < l.(ml_runtime_reserve) /\ 3 * bytes <= 5 * l.(ml_task_heap) /\
      l.(ml_worker_duckdb) + l.(ml_driver_reserve) + l.(ml_runtime_reserve) + l.(ml_task_heap) = bytes
  | Raise _ => bytes < 20
  end.
Proof.
  unfold memory_layout. destruct (Z.leb_spec bytes 0); cbn [raise_if rbind]; [lia|]. destruct (Z.leb_spec (Z.min (Z.min (Z.min (bytes / 4) (bytes / 20)) (bytes / 10))
    (bytes - bytes / 4 - bytes / 20 - bytes / 10)) 0); cbn [raise_if rbind ml_worker_duckdb ml_driver_reserve ml_runtime_reserve ml_task_heap];
  pose proof (Z.div_mod bytes 4); pose proof (Z.div_mod bytes 20); pose proof (Z.div_mod bytes 10);
  pose proof (Z.mod_pos_bound bytes 4); pose proof (Z.mod_pos_bound bytes 20); pose proof (Z.mod_pos_bound bytes 10); lia.
Qed.

End ClusterFindings.

(** ** Placement: corner cases

    Behaviour of the code that its comments and names do not suggest, on the
    driver of [PlacementTheorems]. *)

Module PlacementFindings.
Import Placement PlacementManager PlacementCalls.

(** *** A full node hides the others *)

Definition light_demand : Demand := MkDemand PNone STANDARD None None.

(** Each worker has a partition, and node n1 has no room for another task. *)
Definition half_full : Driver Managed :=
  run 30 60 (scan_setup ++ [Acquire 0 (scan_key 0) light_demand 10; Acquire 0 (scan_key 1) light_demand 11]) fresh_driver.

(** The blocked reason, or the node of the lease. *)
Definition lease_answer (r : result (TaskLease + string)) : string :=
  match r with Ok (inl l) => "granted on " +:+ l.(tl_node_id) | Ok (inr reason) => reason | Raise _ => "error" end.

(** The third partition is first tried on n1, which is full.  [acquire]
    excludes that worker and tries the one on n2, where there is room; but the
    denial has closed the submission window at the current epoch, so that the
    resource manager is not asked again and the partition is turned away with
    the reason "submission_window". *)
Theorem full_node_hides_others :
  lease_answer (acquire_lease (scan_key 2) 1 "n1" half_full).1 = "node_capacity" /\
  lease_answer (acquire_lease (scan_key 2) 1 "n2" half_full).1 = "granted on n2" /\
  (acquire 30 0 (scan_key 2) light_demand 12 half_full).1 = Ok (inr "submission_window").
Proof. split; [|split]; vm_compute; reflexivity. Qed.

(** *** A reservation is left behind *)

(** The query loses node n1. *)
Definition one_node : QueryAllocation := MkAllocation (demo_res 7 700 96) [MkNodeAllocation "n2" (demo_res 7 700 96)] [] 2.

Definition without_n1 (d : Driver Managed) : Driver Managed :=
  d <| d_managers ::= map (fun e => (e.1, (e.2.1, (update_allocation e.2.1 one_node true e.2.2).2))) |>.

Definition reserved_on_n1 : Driver Managed :=
  without_n1 (run 30 60 (scan_setup ++ [Acquire 0 (scan_key 0) scan_demand 10]) fresh_driver).

(** The reserved bytes of every worker. *)
Definition reserved_bytes (d : Driver Managed) : list (string * Z) :=
  map (fun h => (h.(h_worker_id), Pressure.total h.(h_pressure).(pr_reservation_memory))) d.(d_handles).

(** When the node of a healthy owner is no longer eligible, [acquire] gives up
    the owner and its lease and reserves on another worker, but does not take
    back the reservation on the first: both workers are charged, and releasing
    the query frees the second only. *)
Theorem reservation_left_behind :
  let d := (acquire 30 0 (scan_key 0) scan_demand 11 reserved_on_n1).2 in
  reserved_bytes reserved_on_n1 = [("w1", 60); ("w2", 0)] /\
  d.(d_partition_owners) = [(scan_key 0, 1%nat)] /\ reserved_bytes d = [("w1", 60); ("w2", 60)] /\
  reserved_bytes (release_query "q" d).2 = [("w1", 60); ("w2", 0)].
Proof. cbv zeta. split; [|split; [|split]]; vm_compute; reflexivity. Qed.

End PlacementFindings.

(** ** Corners of the exchange selectors *)

Module SelectorFindings.
Import Selectors.

(** A partition is selected by the key of its split; the next update brings
    the split and completes the selector. *)
Definition announced : list call :=
  [SelectorUpdated "x" (pd_lit [("version", PInt 1); ("selected", PDict [(PStr "0", PDict (pd_lit
      [("attempt_id", PInt 3); ("split_key", PStr "('exchange_source_task', 0, 'f0')")]))])]) true;
   SelectorUpdated "x" (pd_lit [("version", PInt 2); ("final", PBool true); ("splits", PList [scan_split 0 "f0"])]) true].

(** The split is recorded as selected and the source is exhausted, but the
    split was never handed to the assigner. *)
Theorem announced_split_never_delivered :
  let st := (run plain_digest announced new_state []).1 in
  (run plain_digest announced new_state []).2 = [] /\ fs_exhausted st = {["x"]} /\
  option_map (fun e => match e.(se_split) with Some d => pd_get "data" d | None => PNone end) (selection st "x" 0) = Some (PStr "f0").
Proof. vm_compute. done. Qed.

End SelectorFindings.
